(* ===== verification/_CoqProject ===== *)
-Q . S2P
Prelude.v
Uint256.v
Encodings.v
Compact.v
Chain.v
Pow.v
Stream.v
Sha2.v
Sha1.v
Ripemd160.v
Hashers.v
Script.v
SigChecks.v
Interp.v
InterpSafety.v
Payments.v
Merkle.v
PartialMerkle.v
MerkleStream.v
Serialize.v
Transaction.v
SigHash.v
Compressor.v
Coins.v
CoinsView.v
Subsidy.v
TxChecks.v
Ledger.v
Connect.v
Disconnect.v
CheckQueue.v
Standard.v
Bloom.v
Base58.v
Bech32.v
Address.v
ChainState.v
ChainInv.v
ChainArrival.v
BestChain.v
BlockInvalid.v
ChainSelection.v
Block.v
BlockChecks.v
ChainParams.v
Commitment.v
FeeEstimator.v
MemPool.v
MemPoolInv.v
MemPoolProps.v
AcceptTx.v
AcceptInv.v
Kernel.v
KernelSpec.v
BlockFiles.v
BlockStore.v
AcceptBlock.v
AcceptSpec.v
