(* ===== verification/Prelude.v ===== *)
(** * A model of the Anker node

    Anker is a proof-of-stake currency in the Bitcoin family: a node keeps a tree of block
    headers, follows the branch with most work, and keeps the unspent outputs of that branch,
    which the scripts of new transactions claim.  This library models the code that decides
    what is valid, from the bytes up, and proves what each part promises to the part above it.
    All file names are relative to [src/src/].

    ** Conventions

    A machine integer is a [Z]; every operation that can leave the range of its type is followed
    by the wrap of that type ([u8] ... [u64], [i32], [i64]).  Bytes are [Z]s below 256, byte
    vectors [list Z].  An outer [option] with [None] stands for a failed [assert], an exception
    or an access out of range; a call that returns [false] has an inner [option], a [bool] or a
    sum, as the file says.  Loops are [Fixpoint]s on the data they go through, or on fuel where
    the source has a [while]; for each of these a lemma shows that the fuel given is enough.
    External code (elliptic curves, zerocoin, the masternode lists) is a class of operations or
    an argument, with what is relied on as a named law.

    ** The files

    Numbers and text.
    - [Prelude]: wraps, bytes, memory views, list lemmas.
    - [Uint256]: [base_uint] of uint256.h/.cpp on 32-bit limbs, every operator, as arithmetic
      modulo [2^256].
    - [Compact]: [SetCompact], [GetCompact], [SetHex], [GetHex] (uint256.cpp).
    - [Encodings]: hex, base64, base32 of utilstrencodings.cpp.

    Hashes.
    - [Stream]: the buffering all streaming hashers share; [Sha2], [Sha1], [Ripemd160] are the
      classes of crypto/, unrolled rounds included, against the round-by-round definitions of
      the standards; [Hashers] composes them (hash.h/.cpp, HMAC, RFC 6979, MurmurHash3).

    Blocks.
    - [Chain]: [CBlockIndex] with its skip list, [CChain] (chain.h, chain.cpp), the
      [LastCommonAncestor] of main.cpp.
    - [Pow]: pow.cpp, the difficulty of both phases and the work of a block.
    - [Merkle], [MerkleStream], [PartialMerkle]: primitives/block.cpp, consensus/merkle.cpp,
      merkleblock.cpp.
    - [Subsidy]: the value of a block, in the doubles of main.cpp.

    Scripts.
    - [Script]: script/script.h and script.cpp: numbers, pushes, instructions, templates.
    - [SigChecks]: encodings of signatures and keys (head of script/interpreter.cpp).
    - [Interp]: [EvalScript], [VerifyScript], [VerifyWitnessProgram]; over a class
      [BaseSignatureChecker], as the source has it.
    - [InterpSafety], [Payments]: theorems on the interpreter (limits, termination, assertions,
      the pay-to-public-key-hash payment).

    Transactions and the ledger.
    - [Serialize]: serialize.h, streams.h; a class [Codec] of types with a wire format and its
      law, which containers and records discharge.
    - [Transaction]: primitives/transaction.h and .cpp; [SigHash]: [SignatureHash] and the
      checker that instantiates the class of [Interp].
    - [Compressor], [Coins]: compressor.h/.cpp, coins.h, undo.h: the form of outputs in the
      database.
    - [CoinsView]: coins.cpp, txdb.cpp: the class [CCoinsView] of views with the laws
      [CCoinsViewLaws]; the database and the write-back cache are instances, so caches stack.
    - [TxChecks]: [CValidationState] and [CheckTransaction]; [Ledger]: [CheckInputs],
      [UpdateCoins]; [Connect]: the transactions of [ConnectBlock], [DisconnectBlock] (all
      main.cpp), over any lawful view; [Disconnect]: what disconnecting gives back.

    Outputs, addresses and threads.
    - [CheckQueue]: checkqueue.h: the queue of script checks, its workers and its control object
      as a step relation; a thread that holds the lock runs to its release in one step.
    - [Standard]: script/standard.cpp: [Solver], destinations to and from scripts.
    - [Bloom]: bloom.cpp: the filters of light clients.
    - [Base58], [Bech32], [Address]: base58.cpp, bech32.cpp, [ConvertBits]: texts of
      destinations and keys.

    The choice of the active chain.
    - [ChainState]: the known blocks, the candidates for the tip and the active chain, with every
      operation of main.cpp that changes them, over a class [NodeEnv] for [ConnectBlock],
      [DisconnectBlock], the disk and the clock.
    - [ChainInv]: the invariant behind the assertions of [CheckBlockIndex]; [ChainArrival]: kept
      when headers and blocks arrive; [BestChain]: kept by the activation of the best chain,
      which ends unless it meets a block refused as possibly corrupt, under the laws [NodeLaws]
      (a failed flush is no fault of a block, and a block connected once stays valid); [BlockInvalid]: [InvalidateBlock] and
      [ReconsiderBlock]; [ChainSelection]: the properties, with a concrete chain.

    Whole blocks.
    - [Block]: primitives/block.h and block.cpp: headers, blocks and locators with their wire
      formats, the hash and the signature of a block.
    - [BlockChecks]: [CheckBlock], [CheckWork] and the contextual checks of main.cpp with
      checkpoints.cpp, over a class [BlockEnv] for the clock, sporks, locks, payees and proofs
      of stake; a check is a step on a [CValidationState] that goes on, rejects or throws.
    - [ChainParams]: the parameters and first blocks of chainparams.cpp; [Commitment]: the
      commitment of a block to its witnesses.

    The memory pool.
    - [FeeEstimator]: the entries of the pool and the estimator of fees (txmempool.h/.cpp).
    - [MemPool]: [CTxMemPool] with every operation, and the view through the pool; a pointer
      into [mapTx] is the key of its entry, so that a pointer to an erased entry shows as an
      access that fails.  [MemPoolInv]: the invariant, and what removals do; [MemPoolProps]:
      histories of operations and the properties.
    - [AcceptTx]: [AcceptToMemoryPool] and [AcceptableInputs] of main.cpp as steps on the state
      of the validation, the pool and the tip; [AcceptInv]: what is admitted, by a small
      logic for those steps.

    Proofs of stake.
    - [Kernel]: kernel.cpp: the stake modifier and the kernel, over the heap of [Chain];
      [KernelSpec]: what is selected, and the search for a kernel against its check.

    Blocks that arrive.
    - [BlockFiles]: the files of blocks and undo data of main.cpp, byte by byte, and their index
      ([CBlockFileInfo]); what the operating system answers is a record of its own for every
      operation.  [BlockStore]: the invariant of the files under histories of operations.
    - [AcceptBlock]: [AcceptBlockHeader], [AcceptBlock] and [ProcessNewBlock] of main.cpp, which
      put together [BlockChecks], [ChainState] and [BlockFiles]; [AcceptSpec]: what they
      guarantee, on a node whose tree is [consistent] and whose files hold what was stored.

    ** What is shown

    - Representation: limbs are integers modulo a power of two, codes and texts read back what
      was written, and every encoder that can overflow has the range where it is exact.
    - Wire and database formats round-trip, with exactly the fields the format drops.
    - Hashers equal the one-shot definitions of the standards for all ways of feeding them.
    - The interpreter keeps its limits on stacks, elements and operations, always stops, and
      never fails an assertion under the flags the node uses.
    - The ledger: a view refines what is visible of it through any stack of caches; a checked
      transaction spends existing, mature outputs and cannot create value; disconnecting a
      connected block restores the outputs.
    - The queue of checks: [Wait] returns the conjunction of all checks added, no thread waits
      for ever while checks are left, and the master always gets its result.
    - Destinations are recovered from their scripts and from their texts, and the two forms of
      text cannot be confused; a filter never forgets what was inserted.
    - In every state reached by arrivals, activations and invalidations all assertions of
      [CheckBlockIndex] hold; when the activation returns with success it is at a usable block
      none better than which is known, and it returns within a number of rounds, unless a round
      ends with a block that [ConnectBlock] refuses as possibly corrupt, which the code tries
      again (for ever, if nothing changes).
    - [CheckBlock] accepts exactly the well-formed blocks and says which rejections may come
      from corrupted data; it accepts the first block of the main network; the commitment to
      witnesses cannot be satisfied.
    - The memory pool stays consistent under every history of the operations its callers may ask
      for, removals take away exactly a transaction and its descendants, and
      [AcceptToMemoryPool] adds a transaction that is not a zerocoin spend only when its inputs
      are there, distinct and unspent; a refusal changes nothing but priorities.  (A zerocoin
      spend keeps the pool consistent if its inputs are null, which the code does not check.)
      The estimates of fees never fail and fall with the number of blocks.
    - The stake modifier is the word of the last bits of the hashes of up to 64 distinct blocks,
      each the least within its interval; a kernel that is found is one that is accepted.
    - Commitments (identifiers, signature hashes, Merkle roots, the commitment to witnesses) bind
      what is hashed, or two of the messages that are hashed in the case at hand, strings of
      bytes that the statement lists, differ and have the same hash ([clash] of [Hashers]).
    - What was stored in the block files is read back after any further history; a block is
      stored only after all its checks, and the tree and the files stay consistent whatever
      arrives; after a block is processed with success no usable block is better than the tip.
    - Where the code does not do what it means to, the theorem states what it does; these are
      listed as findings.

    ** Fuel

    [eval_loop] has the length of the script as fuel: every instruction consumes a byte.  The
    loops over levels of Merkle trees have the number of leaves or 32 levels (counts are 32-bit).
    The walks over the block tree have the height of the block, since parents are lower; the
    activation of the best chain has [(n + 1)^2] rounds for [n] blocks, since each round finds
    an invalid block or a better tip, but for one that meets a block refused as possibly
    corrupt: the code goes on from there, with any fuel, as [best_chain_found] says.
    The search for a block file has one round per known file and one more.  The loop over the
    blocks of a fork has any fuel: it is shown to end within two rounds or never.
    The removal from the memory pool has the length of its queue and, for each entry, one more
    than the outputs of the entry; the rounds of its check are bounded by the waiting ones.
    Variable-length integers have one step per 7 bits.  Division loops have the bits of the
    number; the template loop of [Solver] the length of the template, base-58 loops
    the digits.  Each file proves its fuel enough where it introduces it.

    ** Not modelled

    Threads other than those of the check queue, sockets, LevelDB, the user interface and
    RPC are input and output around the code modelled here.  libzerocoin, secp256k1 and the sph hash functions are other
    projects' code kept in the tree; they appear as parameters.  The wallet, masternodes,
    budgets and obfuscation are large state machines over the network and the clock that decide
    no validity of transactions. *)
From Stdlib Require Export ZArith Lia.
From stdpp Require Export prelude gmap strings list numbers.

#[global] Open Scope Z_scope.

(** ** Machine integers

    A [w]-bit unsigned C++ integer is a [Z] in [0 .. 2^w - 1]; every operation
    that may leave the range is followed by the wrap-around of its type. *)

Definition u8 (z : Z) : Z := z mod 2 ^ 8.
Definition u16 (z : Z) : Z := z mod 2 ^ 16.
Definition u32 (z : Z) : Z := z mod 2 ^ 32.
Definition u64 (z : Z) : Z := z mod 2 ^ 64.

(** Two's complement reinterpretation, used for conversions to signed types. *)
Definition i32 (z : Z) : Z := (z + 2 ^ 31) mod 2 ^ 32 - 2 ^ 31.
Definition i64 (z : Z) : Z := (z + 2 ^ 63) mod 2 ^ 64 - 2 ^ 63.

(** C++ integer division and remainder truncate toward zero. *)
Definition cdiv (a b : Z) : Z := Z.quot a b.
Definition cmod (a b : Z) : Z := Z.rem a b.

Definition is_u32 (z : Z) : Prop := 0 <= z < 2 ^ 32.
Definition is_byte (z : Z) : Prop := 0 <= z < 2 ^ 8.

Create HintDb anker discriminated.

(** Linear arithmetic that also knows the definitions of the wraps.  Only for
    goals with concrete moduli. *)
Ltac zwrap :=
  unfold u8, u16, u32, u64, i32, i64, is_u32, is_byte in *;
  Z.to_euclidean_division_equations; lia.

Lemma u8_bound z : 0 <= u8 z < 2 ^ 8.
Proof. apply Z.mod_pos_bound. lia. Qed.
Lemma u16_bound z : 0 <= u16 z < 2 ^ 16.
Proof. apply Z.mod_pos_bound. lia. Qed.
Lemma u32_bound z : 0 <= u32 z < 2 ^ 32.
Proof. apply Z.mod_pos_bound. lia. Qed.
Lemma u64_bound z : 0 <= u64 z < 2 ^ 64.
Proof. apply Z.mod_pos_bound. lia. Qed.
Lemma i64_bound z : - 2 ^ 63 <= i64 z < 2 ^ 63.
Proof. unfold i64. pose proof (Z.mod_pos_bound (z + 2 ^ 63) (2 ^ 64)). lia. Qed.
Lemma i32_bound z : - 2 ^ 31 <= i32 z < 2 ^ 31.
Proof. unfold i32. pose proof (Z.mod_pos_bound (z + 2 ^ 31) (2 ^ 32)). lia. Qed.

Lemma u8_small z : 0 <= z < 2 ^ 8 -> u8 z = z.
Proof. apply Z.mod_small. Qed.
Lemma u32_small z : 0 <= z < 2 ^ 32 -> u32 z = z.
Proof. apply Z.mod_small. Qed.
Lemma u64_small z : 0 <= z < 2 ^ 64 -> u64 z = z.
Proof. apply Z.mod_small. Qed.
Lemma i64_small z : - 2 ^ 63 <= z < 2 ^ 63 -> i64 z = z.
Proof. intros H. unfold i64. rewrite Z.mod_small; lia. Qed.
Lemma i32_small z : - 2 ^ 31 <= z < 2 ^ 31 -> i32 z = z.
Proof. intros H. unfold i32. rewrite Z.mod_small; lia. Qed.

#[export] Hint Resolve u8_bound u16_bound u32_bound u64_bound i32_bound i64_bound : anker.

(** [x & 0xff..f] is a remainder, [x >> n] a floor division. *)
Lemma land_ones_mod z w : 0 <= w -> Z.land z (2 ^ w - 1) = z mod 2 ^ w.
Proof. intros Hw. rewrite <- Z.land_ones by lia. by rewrite Z.ones_equiv. Qed.
Lemma land_mask32 z : Z.land z 0xffffffff = u32 z.
Proof. apply (land_ones_mod z 32). lia. Qed.
Lemma land_mask8 z : Z.land z 0xff = u8 z.
Proof. apply (land_ones_mod z 8). lia. Qed.

(** A single bit is set exactly when masking with it is non-zero. *)
Lemma land_pow2_eqb x n :
  0 <= n -> (Z.land x (2 ^ n) =? 0) = negb (Z.testbit x n).
Proof.
  intros Hn.
  assert (Z.land x (2 ^ n) = if Z.testbit x n then 2 ^ n else 0) as ->.
  { apply Z.bits_inj'. intros m Hm. rewrite Z.land_spec, Z.pow2_bits_eqb by lia.
    destruct (Z.testbit x n) eqn:E; rewrite ?Z.pow2_bits_eqb, ?Z.bits_0 by lia;
      destruct (Z.eqb_spec n m); subst; rewrite ?E; auto with bool;
      by rewrite andb_false_r. }
  destruct (Z.testbit x n); simpl; [apply Z.eqb_neq; lia | reflexivity].
Qed.

Lemma land_le_r a b : 0 <= b -> Z.land a b <= b.
Proof.
  intros Hb. pose proof (Z.sub_nocarry_ldiff b (Z.land a b)) as H.
  assert (0 <= Z.ldiff b (Z.land a b)) by (apply Z.ldiff_nonneg; lia).
  rewrite <- H in *; [lia|]. apply Z.bits_inj'. intros i _.
  rewrite Z.ldiff_spec, Z.land_spec, Z.bits_0. by destruct (Z.testbit a i), (Z.testbit b i).
Qed.

(** Disjoint bits: or is addition. *)
Lemma lor_shiftl_add a b n : 0 <= n -> 0 <= a < 2 ^ n -> Z.lor a (Z.shiftl b n) = a + b * 2 ^ n.
Proof.
  intros Hn Ha. rewrite <- Z.shiftl_mul_pow2 by lia. symmetry.
  rewrite Z.add_nocarry_lxor, Z.lxor_lor; trivial.
  all: apply Z.bits_inj'; intros m Hm; rewrite Z.land_spec, Z.bits_0, Z.shiftl_spec by lia;
    destruct (Z.lt_ge_cases m n); [by rewrite (Z.testbit_neg_r b), andb_false_r by lia |
    rewrite <- (Z.mod_small a (2 ^ n)), Z.mod_pow2_bits_high by lia; reflexivity].
Qed.

Lemma testbit_high a n m : 0 <= a < 2 ^ n -> 0 <= n <= m -> Z.testbit a m = false.
Proof. intros Ha Hm. rewrite <- (Z.mod_small a (2 ^ n)) by lia. apply Z.mod_pow2_bits_high. lia. Qed.

Lemma testbit_u32 z n : Z.testbit (u32 z) n = (n <? 32) && Z.testbit z n.
Proof.
  unfold u32. destruct (Z.ltb_spec n 32); simpl.
  - by rewrite Z.mod_pow2_bits_low by lia.
  - by rewrite Z.mod_pow2_bits_high by lia.
Qed.

Lemma lor_bound a b n : 0 <= n -> 0 <= a < 2 ^ n -> 0 <= b < 2 ^ n -> 0 <= Z.lor a b < 2 ^ n.
Proof.
  intros Hn Ha Hb. split; [apply Z.lor_nonneg; lia|].
  assert (Z.lor a b = Z.lor a b mod 2 ^ n) as ->.
  { apply Z.bits_inj'. intros m Hm. destruct (Z.lt_ge_cases m n).
    - by rewrite Z.mod_pow2_bits_low by lia.
    - rewrite Z.mod_pow2_bits_high, Z.lor_spec by lia.
      by rewrite (testbit_high a n), (testbit_high b n) by lia. }
  apply Z.mod_pos_bound. lia.
Qed.

(** ** Loops over an index range *)

(** [for (i = 0; i < n; i++) x = f(x, i)] *)
Definition for_range {A} (n : nat) (f : A -> nat -> A) (x : A) : A := foldl f x (seq 0 n).

Lemma for_range_S {A} n (f : A -> nat -> A) x :
  for_range (S n) f x = f (for_range n f x) n.
Proof. unfold for_range. by rewrite seq_S, foldl_app. Qed.

(** The loop rule: an invariant indexed by the number of rounds done. *)
Lemma for_range_ind {A} (P : nat -> A -> Prop) n (f : A -> nat -> A) x :
  P 0%nat x ->
  (forall i y, (i < n)%nat -> P i y -> P (S i) (f y i)) ->
  P n (for_range n f x).
Proof.
  intros H0 HS. assert (forall k, (k <= n)%nat -> P k (for_range k f x)) as H; [|by apply H].
  induction k as [|k IH]; intros Hk; [exact H0|].
  rewrite for_range_S. apply HS; [lia|]. apply IH. lia.
Qed.

Lemma nth_replicate_same {A} (d : A) n i : nth i (replicate n d) d = d.
Proof. revert i. induction n as [|n IH]; intros [|i]; cbn; auto. Qed.

(** Facts about small ranges, decided by running them. *)
Lemma range_check (p : Z -> bool) n :
  forallb (fun i => p (Z.of_nat i)) (seq 0 n) = true -> forall i, 0 <= i < Z.of_nat n -> p i = true.
Proof.
  intros H i Hi. rewrite forallb_forall in H. rewrite <- (Z2Nat.id i) by lia.
  apply H, in_seq. lia.
Qed.
Lemma range_check2 (p : Z -> Z -> bool) n m :
  forallb (fun i => forallb (fun j => p (Z.of_nat i) (Z.of_nat j)) (seq 0 m)) (seq 0 n) = true ->
  forall i j, 0 <= i < Z.of_nat n -> 0 <= j < Z.of_nat m -> p i j = true.
Proof.
  intros H i j Hi Hj. rewrite forallb_forall in H. rewrite <- (Z2Nat.id i) by lia.
  apply range_check with (n := m); [|done]. apply H, in_seq. lia.
Qed.

(** ** Bytes in memory *)

(** The [n] bytes of [z] as a little-endian host lays them out. *)
Fixpoint le_bytes (n : nat) (z : Z) : list Z :=
  match n with
  | O => []
  | S n' => u8 z :: le_bytes n' (Z.shiftr z 8)
  end.

Fixpoint of_le_bytes (l : list Z) : Z :=
  match l with
  | [] => 0
  | x :: t => x + 2 ^ 8 * of_le_bytes t
  end.

Lemma bytes_check l : forallb (fun b => (0 <=? b) && (b <? 2 ^ 8)) l = true -> Forall is_byte l.
Proof.
  induction l as [|b l IH]; cbn [forallb]; intros H; [constructor|].
  apply andb_true_iff in H as [H1 H2]. apply andb_true_iff in H1 as [H0 H1].
  constructor; [unfold is_byte; lia|auto].
Qed.
Lemma le_bytes_length n z : length (le_bytes n z) = n.
Proof. revert z. induction n; intros z; simpl; auto. Qed.

Lemma le_bytes_range n z : Forall is_byte (le_bytes n z).
Proof. revert z. induction n; intros z; simpl; constructor; auto. apply u8_bound. Qed.

Lemma pow256_S n : 2 ^ (8 * Z.of_nat (S n)) = 2 ^ 8 * 2 ^ (8 * Z.of_nat n).
Proof. rewrite <- Z.pow_add_r by lia. f_equal. lia. Qed.

Lemma of_le_bytes_le_bytes n z : of_le_bytes (le_bytes n z) = z mod 2 ^ (8 * Z.of_nat n).
Proof.
  revert z. induction n as [|n IH]; intros z; simpl; [by rewrite Z.mod_1_r|].
  rewrite IH, pow256_S, Z.shiftr_div_pow2, Z.rem_mul_r by lia. unfold u8. lia.
Qed.

Lemma of_le_bytes_bound l : Forall is_byte l -> 0 <= of_le_bytes l < 2 ^ (8 * Z.of_nat (length l)).
Proof.
  induction 1 as [|x t Hx Ht IH]; [simpl; lia|].
  cbn [length of_le_bytes]. rewrite pow256_S. unfold is_byte in Hx. lia.
Qed.

Lemma le_bytes_of_le_bytes l : Forall is_byte l -> le_bytes (length l) (of_le_bytes l) = l.
Proof.
  induction 1 as [|x t Hx Ht IH]; [reflexivity|]. unfold is_byte in Hx. cbn [length le_bytes of_le_bytes].
  rewrite Z.shiftr_div_pow2 by lia.
  replace ((x + 2 ^ 8 * of_le_bytes t) / 2 ^ 8) with (of_le_bytes t)
    by (rewrite Z.mul_comm, Z.div_add, Z.div_small; lia).
  rewrite IH. f_equal. unfold u8.
  by rewrite Z.mul_comm, Z.mod_add, Z.mod_small by lia.
Qed.

Lemma of_le_bytes_app l1 l2 :
  of_le_bytes (l1 ++ l2) = of_le_bytes l1 + 2 ^ (8 * Z.of_nat (length l1)) * of_le_bytes l2.
Proof.
  induction l1 as [|x t IH]; [simpl; lia|].
  cbn [app length of_le_bytes]. rewrite IH, pow256_S. lia.
Qed.

Lemma le_bytes_app n m z :
  le_bytes (n + m) z = le_bytes n z ++ le_bytes m (Z.shiftr z (8 * Z.of_nat n)).
Proof.
  revert z. induction n as [|n IH]; intros z.
  - cbn. by rewrite Z.shiftr_0_r.
  - cbn [Nat.add le_bytes app]. rewrite IH, Z.shiftr_shiftr by lia.
    by replace (8 + 8 * Z.of_nat n) with (8 * Z.of_nat (S n)) by lia.
Qed.

Lemma le_bytes_mod n z : le_bytes n (z mod 2 ^ (8 * Z.of_nat n)) = le_bytes n z.
Proof.
  rewrite <- (le_bytes_of_le_bytes (le_bytes n z)), le_bytes_length, of_le_bytes_le_bytes
    by apply le_bytes_range. reflexivity.
Qed.

(** ** Characters

    A [char const *] is the list of its byte values up to the terminating NUL. *)
Definition chr (c : Ascii.ascii) : Z := Z.of_nat (Ascii.nat_of_ascii c).
Definition str (s : string) : list Z := map chr (String.list_ascii_of_string s).

Definition isspace (c : Z) : bool := (c =? 32) || ((9 <=? c) && (c <=? 13)).
Definition isdigit (c : Z) : bool := (48 <=? c) && (c <=? 57).
Definition tolower (c : Z) : Z := if (65 <=? c) && (c <=? 90) then c + 32 else c.

(** Skip the longest prefix satisfying [p], and that prefix itself. *)
Fixpoint drop_while {A} (p : A -> bool) (l : list A) : list A :=
  match l with
  | [] => []
  | x :: t => if p x then drop_while p t else l
  end.
Fixpoint take_while {A} (p : A -> bool) (l : list A) : list A :=
  match l with
  | [] => []
  | x :: t => if p x then x :: take_while p t else []
  end.

Lemma take_while_all {A} (p : A -> bool) l : Forall (fun x => p x = true) l -> take_while p l = l.
Proof. induction 1 as [|x t Hx _ IH]; simpl; [done|]. by rewrite Hx, IH. Qed.
Lemma take_while_app {A} (p : A -> bool) l r :
  Forall (fun x => p x = true) l ->
  take_while p (l ++ r) = l ++ take_while p r.
Proof. induction 1 as [|x t Hx _ IH]; simpl; [done|]. by rewrite Hx, IH. Qed.
Lemma drop_while_app {A} (p : A -> bool) l r :
  Forall (fun x => p x = true) l -> drop_while p (l ++ r) = drop_while p r.
Proof. induction 1 as [|x t Hx _ IH]; simpl; [done|]. by rewrite Hx, IH. Qed.
