(* ===== verification/Uint256.v ===== *)
(** The fixed-width unsigned integers of [src/src/uint256.h] and
    [src/src/uint256.cpp]: the template [base_uint<BITS>] as the list of its
    [WIDTH] 32-bit limbs (least significant first), one definition per operator,
    the compact ("nBits") encoding, and the refinement of every operator to the
    arithmetic of [Z] modulo [2 ^ BITS]. *)
From S2P Require Import Prelude.

(** ** The abstract value of a limb array *)

Fixpoint val (pn : list Z) : Z :=
  match pn with
  | [] => 0
  | x :: t => x + 2 ^ 32 * val t
  end.

(** The modulus of an array of [n] limbs. *)
Definition bmod (n : nat) : Z := 2 ^ (32 * Z.of_nat n).

(** What every [base_uint] object satisfies: [WIDTH] limbs, each a [uint32_t]. *)
Definition limbs_ok (n : nat) (pn : list Z) : Prop := length pn = n /\ Forall is_u32 pn.

Module base_uint.
Section width.
Context (WIDTH : nat).

Definition zero : list Z := replicate WIDTH 0.

(** [base_uint(uint64_t b)], [operator=(uint64_t)] *)
Definition of_uint64 (b : Z) : list Z :=
  u32 b :: u32 (Z.shiftr b 32) :: replicate (WIDTH - 2) 0.

(** [operator!] *)
Definition is_zero (pn : list Z) : bool := forallb (fun x => x =? 0) pn.

(** [operator~] *)
Definition compl (pn : list Z) : list Z := map (fun x => u32 (Z.lnot x)) pn.

(** prefix [operator++]: carry on while the limb wraps to zero *)
Fixpoint incr (pn : list Z) : list Z :=
  match pn with
  | [] => []
  | x :: t => let x' := u32 (x + 1) in
              if x' =? 0 then x' :: incr t else x' :: t
  end.

(** prefix [operator--]: borrow on while the limb wraps to [(uint32_t)-1] *)
Fixpoint decr (pn : list Z) : list Z :=
  match pn with
  | [] => []
  | x :: t => let x' := u32 (x - 1) in
              if x' =? u32 (-1) then x' :: decr t else x' :: t
  end.

(** unary [operator-] *)
Definition opp (pn : list Z) : list Z := incr (compl pn).

(** The carry loop of [operator+=]. *)
Fixpoint add_loop (carry : Z) (pn b : list Z) : list Z :=
  match pn, b with
  | x :: pn', y :: b' =>
      let n := u64 (carry + x + y) in
      Z.land n 0xffffffff :: add_loop (Z.shiftr n 32) pn' b'
  | _, _ => pn
  end.
Definition add (pn b : list Z) : list Z := add_loop 0 pn b.
Definition sub (pn b : list Z) : list Z := add pn (opp b).
Definition add_u64 (pn : list Z) (b64 : Z) : list Z := add pn (of_uint64 b64).
Definition sub_u64 (pn : list Z) (b64 : Z) : list Z := add pn (opp (of_uint64 b64)).

(** [operator^=], [operator&=], [operator|=] *)
Definition xor (pn b : list Z) : list Z := zip_with Z.lxor pn b.
Definition and (pn b : list Z) : list Z := zip_with Z.land pn b.
Definition or (pn b : list Z) : list Z := zip_with Z.lor pn b.

(** [pn[i] |= y] *)
Definition or_at (i : nat) (y : Z) (pn : list Z) : list Z :=
  <[i := Z.lor (nth i pn 0) y]> pn.

(** [operator<<=] *)
Definition shl (pn : list Z) (shift0 : Z) : list Z :=
  let a := pn in
  let k := shift0 / 32 in
  let shift := shift0 mod 32 in
  for_range WIDTH (fun pn i =>
    let ai := nth i a 0 in
    let pn := if (Z.of_nat i + k + 1 <? Z.of_nat WIDTH) && negb (shift =? 0)
              then or_at (Z.to_nat (Z.of_nat i + k + 1)) (Z.shiftr ai (32 - shift)) pn
              else pn in
    if Z.of_nat i + k <? Z.of_nat WIDTH
    then or_at (Z.to_nat (Z.of_nat i + k)) (u32 (Z.shiftl ai shift)) pn
    else pn) zero.

(** [operator>>=] *)
Definition shr (pn : list Z) (shift0 : Z) : list Z :=
  let a := pn in
  let k := shift0 / 32 in
  let shift := shift0 mod 32 in
  for_range WIDTH (fun pn i =>
    let ai := nth i a 0 in
    let pn := if (Z.of_nat i - k - 1 >=? 0) && negb (shift =? 0)
              then or_at (Z.to_nat (Z.of_nat i - k - 1)) (u32 (Z.shiftl ai (32 - shift))) pn
              else pn in
    if Z.of_nat i - k >=? 0
    then or_at (Z.to_nat (Z.of_nat i - k)) (Z.shiftr ai shift) pn
    else pn) zero.

(** [operator*=(uint32_t b32)] *)
Fixpoint mul32_loop (carry b32 : Z) (pn : list Z) : list Z :=
  match pn with
  | [] => []
  | x :: t => let n := u64 (carry + u64 (b32 * x)) in
              Z.land n 0xffffffff :: mul32_loop (Z.shiftr n 32) b32 t
  end.
Definition mul32 (pn : list Z) (b32 : Z) : list Z := mul32_loop 0 b32 pn.

(** The inner loop of [operator*=(const base_uint&)]: [acc] is [pn[j..]], the
    loop stops with the last limb of [pn] ([i + j < WIDTH]). *)
Fixpoint mul_inner (carry aj : Z) (acc b : list Z) : list Z :=
  match acc, b with
  | x :: acc', y :: b' =>
      let n := u64 (u64 (carry + x) + u64 (aj * y)) in
      Z.land n 0xffffffff :: mul_inner (Z.shiftr n 32) aj acc' b'
  | _, _ => acc
  end.

(** [operator*=(const base_uint& b)] where [b] is another object than [*this]. *)
Definition mul (pn b : list Z) : list Z :=
  let a := pn in
  for_range WIDTH (fun pn j => take j pn ++ mul_inner 0 (nth j a 0) (drop j pn) b) zero.

(** [x *= x]: [b] aliases [*this], which the code zeroes before the loops and
    updates while they read it. The inner loop re-reads [b.pn[i]] from the
    array it is writing. *)
Definition mul_self_step (aj : Z) (j : nat) (st : list Z * Z) (i : nat) : list Z * Z :=
  let '(pn, carry) := st in
  let n := u64 (u64 (carry + nth (i + j) pn 0) + u64 (aj * nth i pn 0)) in
  (<[(i + j)%nat := Z.land n 0xffffffff]> pn, Z.shiftr n 32).
Definition mul_self (pn : list Z) : list Z :=
  let a := pn in
  for_range WIDTH (fun pn j =>
    fst (for_range (WIDTH - j) (mul_self_step (nth j a 0) j) (pn, 0))) zero.

(** [CompareTo]: scans the limbs from the most significant one. *)
Fixpoint compare_loop (a b : list Z) : Z :=
  match a, b with
  | x :: a', y :: b' =>
      if x <? y then -1 else if x >? y then 1 else compare_loop a' b'
  | _, _ => 0
  end.
Definition compare_to (a b : list Z) : Z := compare_loop (rev a) (rev b).

(** [operator<], [<=], [>], [>=] and [==] (a [memcmp]) *)
Definition lt (a b : list Z) : bool := compare_to a b <? 0.
Definition le (a b : list Z) : bool := compare_to a b <=? 0.
Definition gt (a b : list Z) : bool := compare_to a b >? 0.
Definition ge (a b : list Z) : bool := compare_to a b >=? 0.
Definition eqb (a b : list Z) : bool := bool_decide (a = b).

(** [EqualTo(uint64_t b)] *)
Definition equal_to (pn : list Z) (b : Z) : bool :=
  forallb (fun x => x =? 0) (drop 2 pn) &&
  (nth 1 pn 0 =? Z.shiftr b 32) && (nth 0 pn 0 =? Z.land b 0xffffffff).

(** [bits()]: the inner loop over the bits of one limb, from [n] down to 1 *)
Fixpoint bits_limb (n : nat) (x : Z) : Z :=
  match n with
  | O => 1
  | S n' => if Z.land x (u32 (Z.shiftl 1 (Z.of_nat n))) =? 0 then bits_limb n' x
            else Z.of_nat n + 1
  end.
(** and the outer one, from limb [pos - 1] down *)
Fixpoint bits_loop (pos : nat) (pn : list Z) : Z :=
  match pos with
  | O => 0
  | S p => if nth p pn 0 =? 0 then bits_loop p pn
           else 32 * Z.of_nat p + bits_limb 31 (nth p pn 0)
  end.
Definition bits (pn : list Z) : Z := bits_loop WIDTH pn.

(** The [while (shift >= 0)] loop of [operator/=], [n = shift + 1] rounds. *)
Fixpoint div_loop (n : nat) (pn num div : list Z) : list Z * list Z :=
  match n with
  | O => (pn, num)
  | S s =>
      let '(pn', num') :=
        if ge num div
        then (or_at (s / 32) (u32 (Z.shiftl 1 (Z.land (Z.of_nat s) 31))) pn, sub num div)
        else (pn, num) in
      div_loop s pn' num' (shr div 1)
  end.
(** [operator/=]; [None] is the exception [uint_error("Division by zero")]. *)
Definition div (a b : list Z) : option (list Z) :=
  let num_bits := bits a in
  let div_bits := bits b in
  if div_bits =? 0 then None
  else if div_bits >? num_bits then Some zero
  else let shift := num_bits - div_bits in
       Some (fst (div_loop (Z.to_nat (shift + 1)) zero a (shl b shift))).

(** [GetLow64] *)
Definition get_low64 (pn : list Z) : Z := Z.lor (nth 0 pn 0) (Z.shiftl (nth 1 pn 0) 32).
End width.
End base_uint.

(** ** The value function *)

Lemma bmod_0 : bmod 0 = 1.
Proof. reflexivity. Qed.
Lemma bmod_S n : bmod (S n) = 2 ^ 32 * bmod n.
Proof. unfold bmod. rewrite <- Z.pow_add_r by lia. f_equal. lia. Qed.
Lemma bmod_add n m : bmod (n + m) = bmod n * bmod m.
Proof. unfold bmod. rewrite <- Z.pow_add_r by lia. f_equal. lia. Qed.
Lemma bmod_pos n : 0 < bmod n.
Proof. unfold bmod. apply Z.pow_pos_nonneg; lia. Qed.
#[export] Hint Resolve bmod_pos : anker.
#[export] Hint Extern 1 (_ <= _ < _) => lia : anker.

Lemma limbs_ok_nil : limbs_ok 0 [].
Proof. by split. Qed.
Lemma limbs_ok_cons n x t : limbs_ok (S n) (x :: t) <-> is_u32 x /\ limbs_ok n t.
Proof.
  unfold limbs_ok. rewrite Forall_cons_iff. cbn [length].
  assert (S (length t) = S n <-> length t = n) as -> by lia. tauto.
Qed.
Lemma limbs_ok_length n pn : limbs_ok n pn -> length pn = n.
Proof. by intros []. Qed.
Lemma limbs_ok_nth n pn i : limbs_ok n pn -> is_u32 (nth i pn 0).
Proof.
  intros [_ H]. destruct (Nat.lt_ge_cases i (length pn)).
  - eapply (proj1 (List.Forall_forall _ _)); eauto. by apply nth_In.
  - rewrite nth_overflow by lia. unfold is_u32. lia.
Qed.
Lemma limbs_ok_app n m a b : limbs_ok n a -> limbs_ok m b -> limbs_ok (n + m) (a ++ b).
Proof. intros [<- ?] [<- ?]. split; [apply length_app | by apply Forall_app]. Qed.
Lemma limbs_ok_take n k pn : limbs_ok n pn -> (k <= n)%nat -> limbs_ok k (take k pn).
Proof. intros [? ?] ?. split; [rewrite length_take; lia | by apply Forall_take]. Qed.
Lemma limbs_ok_drop n k pn : limbs_ok n pn -> limbs_ok (n - k) (drop k pn).
Proof. intros [? ?]. split; [rewrite length_drop; lia | by apply Forall_drop]. Qed.
Lemma limbs_ok_replicate n : limbs_ok n (replicate n 0).
Proof.
  split; [apply length_replicate|]. apply Forall_replicate. unfold is_u32. lia.
Qed.
#[export] Hint Resolve limbs_ok_nil limbs_ok_replicate limbs_ok_nth : anker.

Lemma val_bound n pn : limbs_ok n pn -> 0 <= val pn < bmod n.
Proof.
  revert n. induction pn as [|x t IH]; intros n H.
  - simpl. pose proof (bmod_pos n). lia.
  - destruct n; [by destruct H|]. apply limbs_ok_cons in H as [Hx Ht].
    specialize (IH n Ht). rewrite bmod_S. cbn [val]. unfold is_u32 in Hx. lia.
Qed.

Lemma val_app a b : val (a ++ b) = val a + bmod (length a) * val b.
Proof.
  induction a as [|x t IH]; cbn [app val length]; [rewrite bmod_0; lia|].
  rewrite IH, bmod_S. ring.
Qed.
Lemma val_replicate n : val (replicate n 0) = 0.
Proof. induction n as [|n IH]; [done|]. cbn [replicate val]. rewrite IH. lia. Qed.
Lemma val_take_drop k pn :
  (k <= length pn)%nat -> val pn = val (take k pn) + bmod k * val (drop k pn).
Proof.
  intros Hk. pose proof (val_app (take k pn) (drop k pn)) as H.
  rewrite take_drop, length_take, Nat.min_l in H by lia. exact H.
Qed.
Lemma val_take_S k pn :
  (k < length pn)%nat -> val (take (S k) pn) = val (take k pn) + bmod k * nth k pn 0.
Proof.
  intros Hk. rewrite (take_S_r pn k (nth k pn 0)).
  - rewrite val_app, length_take, (Nat.min_l k) by lia. cbn [val]. lia.
  - destruct (lookup_lt_is_Some_2 pn k Hk) as [z Hz]. by rewrite nth_lookup, Hz.
Qed.

Lemma val_inj n a b : limbs_ok n a -> limbs_ok n b -> val a = val b -> a = b.
Proof.
  revert a b. induction n as [|n IH]; intros a b Ha Hb Heq.
  - destruct Ha as [Ha _], Hb as [Hb _]. by destruct a, b.
  - destruct a as [|x t], b as [|y s];
      [by destruct Ha | by destruct Ha | by destruct Hb |].
    apply limbs_ok_cons in Ha as [Hx Ht], Hb as [Hy Hs]. unfold is_u32 in *. cbn [val] in Heq.
    assert (x = y) as -> by (rewrite <- (Z.mod_small x (2 ^ 32)), <- (Z.mod_small y (2 ^ 32)) by lia;
      Z.to_euclidean_division_equations; lia).
    f_equal. apply IH; auto. lia.
Qed.

(** Reading a limb array at the bit level. *)
Lemma val_cons_lor x t : is_u32 x -> val (x :: t) = Z.lor x (Z.shiftl (val t) 32).
Proof. intros Hx. rewrite lor_shiftl_add by (unfold is_u32 in Hx; lia). cbn [val]. lia. Qed.

Lemma or_at_ok n i y pn : limbs_ok n pn -> is_u32 y -> limbs_ok n (base_uint.or_at i y pn).
Proof.
  intros H Hy. unfold base_uint.or_at. split.
  - rewrite length_insert. by destruct H.
  - apply Forall_insert; [by destruct H|]. apply lor_bound; [lia| |done].
    eapply limbs_ok_nth; eauto.
Qed.

Lemma val_or_at i y pn :
  Forall is_u32 pn -> is_u32 y -> (i < length pn)%nat ->
  val (base_uint.or_at i y pn) = Z.lor (val pn) (Z.shiftl y (32 * Z.of_nat i)).
Proof.
  intros H Hy. revert i. induction H as [|x t Hx Ht IH]; intros i Hi; [simpl in Hi; lia|].
  unfold base_uint.or_at in *. destruct i as [|i].
  - cbn [nth insert list_insert]. rewrite !val_cons_lor by (done || by apply lor_bound).
    change (32 * Z.of_nat 0) with 0. rewrite Z.shiftl_0_r, <- !Z.lor_assoc.
    f_equal. apply Z.lor_comm.
  - cbn [nth]. change (<[S i:=Z.lor (nth i t 0) y]> (x :: t)) with (x :: <[i:=Z.lor (nth i t 0) y]> t).
    cbn [length] in Hi. rewrite !val_cons_lor, IH by (done || lia).
    rewrite Z.shiftl_lor, Z.shiftl_shiftl, Z.lor_assoc by lia.
    do 2 f_equal. lia.
Qed.

(** ** Each operator computes modulo [2 ^ BITS] *)

(** Number of significant bits of a natural number. *)
Definition nbits (v : Z) : Z := if v =? 0 then 0 else Z.log2 v + 1.

Section refinement.
Import base_uint.
Context (W : nat).

Lemma zero_ok : limbs_ok W (zero W).
Proof. apply limbs_ok_replicate. Qed.
Lemma val_zero : val (zero W) = 0.
Proof. apply val_replicate. Qed.

Lemma of_uint64_ok b : (2 <= W)%nat -> limbs_ok W (of_uint64 W b).
Proof.
  intros HW. replace W with (S (S (W - 2))) at 1 by lia.
  do 2 (apply limbs_ok_cons; split; [apply u32_bound|]). apply limbs_ok_replicate.
Qed.
Lemma val_of_uint64 b : 0 <= b < 2 ^ 64 -> val (of_uint64 W b) = b.
Proof.
  intros Hb. unfold of_uint64. cbn [val]. rewrite val_replicate, Z.shiftr_div_pow2 by lia.
  zwrap.
Qed.

Lemma compl_ok n pn : limbs_ok n pn -> limbs_ok n (compl pn).
Proof.
  intros [<- H]. split; [apply length_map|].
  apply List.Forall_map, Forall_forall. intros. apply u32_bound.
Qed.
Lemma val_compl n pn : limbs_ok n pn -> val (compl pn) = bmod n - 1 - val pn.
Proof.
  revert n. induction pn as [|x t IH]; intros n H.
  - by destruct H as [<- _].
  - destruct n; [by destruct H|]. apply limbs_ok_cons in H as [Hx Ht].
    unfold compl in *. cbn [map val]. rewrite (IH n Ht), bmod_S.
    replace (u32 (Z.lnot x)) with (2 ^ 32 - 1 - x); [ring|].
    unfold Z.lnot. zwrap.
Qed.

Lemma incr_ok n pn : limbs_ok n pn -> limbs_ok n (incr pn).
Proof.
  revert n. induction pn as [|x t IH]; intros n H; [done|].
  destruct n; [by destruct H|]. apply limbs_ok_cons in H as [Hx Ht]. cbn [incr].
  destruct (u32 (x + 1) =? 0); apply limbs_ok_cons; split; auto; apply u32_bound.
Qed.
Lemma val_incr n pn : limbs_ok n pn -> val (incr pn) = (val pn + 1) mod bmod n.
Proof.
  revert n. induction pn as [|x t IH]; intros n H.
  - destruct H as [<- _]. cbn. by rewrite Z.mod_1_r.
  - destruct n; [by destruct H|]. apply limbs_ok_cons in H as [Hx Ht].
    pose proof (val_bound n t Ht) as Hv. unfold is_u32 in Hx. cbn [incr val].
    destruct (Z.eqb_spec (u32 (x + 1)) 0) as [E|E]; cbn [val].
    + rewrite E, (IH n Ht), bmod_S. assert (x = 2 ^ 32 - 1) as -> by zwrap.
      replace (2 ^ 32 - 1 + 2 ^ 32 * val t + 1) with (2 ^ 32 * (val t + 1)) by ring.
      rewrite Z.mul_mod_distr_l by (pose proof (bmod_pos n); lia). ring.
    + replace (u32 (x + 1)) with (x + 1) by zwrap.
      assert (x + 1 < 2 ^ 32) by zwrap.
      rewrite Z.mod_small by (rewrite bmod_S; nia). ring.
Qed.

Lemma decr_ok n pn : limbs_ok n pn -> limbs_ok n (decr pn).
Proof.
  revert n. induction pn as [|x t IH]; intros n H; [done|].
  destruct n; [by destruct H|]. apply limbs_ok_cons in H as [Hx Ht]. cbn [decr].
  destruct (u32 (x - 1) =? u32 (-1)); apply limbs_ok_cons; split; auto; apply u32_bound.
Qed.
Lemma val_decr n pn : limbs_ok n pn -> val (decr pn) = (val pn - 1) mod bmod n.
Proof.
  revert n. induction pn as [|x t IH]; intros n H.
  - destruct H as [<- _]. cbn. by rewrite Z.mod_1_r.
  - destruct n; [by destruct H|]. apply limbs_ok_cons in H as [Hx Ht].
    pose proof (val_bound n t Ht) as Hv. unfold is_u32 in Hx. cbn [decr val].
    destruct (Z.eqb_spec (u32 (x - 1)) (u32 (-1))) as [E|E]; cbn [val].
    + rewrite (IH n Ht), bmod_S. assert (x = 0) as -> by zwrap.
      replace (0 + 2 ^ 32 * val t - 1) with (2 ^ 32 - 1 + 2 ^ 32 * (val t - 1)) by ring.
      change (u32 (0 - 1)) with (2 ^ 32 - 1).
      rewrite (Z.rem_mul_r _ (2 ^ 32)) by (pose proof (bmod_pos n); lia).
      rewrite (Z.mul_comm (2 ^ 32) (val t - 1)), Z.mod_add, Z.div_add by lia. reflexivity.
    + replace (u32 (x - 1)) with (x - 1) by zwrap.
      assert (0 <= x - 1) by zwrap.
      rewrite Z.mod_small by (rewrite bmod_S; nia). ring.
Qed.

Lemma opp_ok n pn : limbs_ok n pn -> limbs_ok n (opp pn).
Proof. intros H. by apply incr_ok, compl_ok. Qed.
Lemma val_opp n pn : limbs_ok n pn -> val (opp pn) = (- val pn) mod bmod n.
Proof.
  intros H. unfold opp. rewrite (val_incr n), (val_compl n) by auto using compl_ok.
  replace (bmod n - 1 - val pn + 1) with (- val pn + 1 * bmod n) by ring.
  by rewrite Z.mod_add by (pose proof (bmod_pos n); lia).
Qed.

Lemma add_loop_ok n c a b :
  limbs_ok n a -> limbs_ok n b -> limbs_ok n (add_loop c a b).
Proof.
  revert n c b. induction a as [|x t IH]; intros n c b Ha Hb; [done|].
  destruct n; [by destruct Ha|]. destruct b as [|y s]; [by destruct Hb|].
  apply limbs_ok_cons in Ha as [Hx Ht], Hb as [Hy Hs]. cbn [add_loop].
  apply limbs_ok_cons. split; [rewrite land_mask32; apply u32_bound | auto].
Qed.
Lemma val_add_loop n c a b :
  limbs_ok n a -> limbs_ok n b -> 0 <= c <= 1 ->
  val (add_loop c a b) = (val a + val b + c) mod bmod n.
Proof.
  revert n c b. induction a as [|x t IH]; intros n c b Ha Hb Hc.
  - destruct Ha as [<- _]. destruct b; [|by destruct Hb]. cbn. by rewrite Z.mod_1_r.
  - destruct n; [by destruct Ha|]. destruct b as [|y s]; [by destruct Hb|].
    apply limbs_ok_cons in Ha as [Hx Ht], Hb as [Hy Hs]. unfold is_u32 in *. cbn [add_loop val].
    rewrite u64_small, land_mask32, Z.shiftr_div_pow2 by lia.
    rewrite (IH n) by (auto || zwrap). rewrite bmod_S.
    replace (x + 2 ^ 32 * val t + (y + 2 ^ 32 * val s) + c)
      with (c + x + y + 2 ^ 32 * (val t + val s)) by ring.
    rewrite (Z.rem_mul_r _ (2 ^ 32)) by (pose proof (bmod_pos n); lia).
    rewrite (Z.mul_comm (2 ^ 32) (val t + val s)), Z.mod_add, Z.div_add by lia.
    unfold u32. do 3 f_equal. lia.
Qed.

Lemma add_ok n a b : limbs_ok n a -> limbs_ok n b -> limbs_ok n (add a b).
Proof. apply add_loop_ok. Qed.
Lemma val_add n a b :
  limbs_ok n a -> limbs_ok n b -> val (add a b) = (val a + val b) mod bmod n.
Proof. intros Ha Hb. unfold add. rewrite (val_add_loop n) by (auto || lia). by rewrite Z.add_0_r. Qed.
Lemma sub_ok n a b : limbs_ok n a -> limbs_ok n b -> limbs_ok n (sub a b).
Proof. intros. by apply add_ok, opp_ok. Qed.
Lemma val_sub n a b :
  limbs_ok n a -> limbs_ok n b -> val (sub a b) = (val a - val b) mod bmod n.
Proof.
  intros Ha Hb. unfold sub. rewrite (val_add n), (val_opp n) by auto using opp_ok.
  rewrite Z.add_mod_idemp_r by (pose proof (bmod_pos n); lia). reflexivity.
Qed.

(** Limb-wise boolean operations are the boolean operations of the values. *)
Lemma val_zip_with (f : Z -> Z -> Z) (g : bool -> bool -> bool) n a b :
  (forall x y i, 0 <= i -> Z.testbit (f x y) i = g (Z.testbit x i) (Z.testbit y i)) ->
  g false false = false ->
  limbs_ok n a -> limbs_ok n b ->
  limbs_ok n (zip_with f a b) /\ val (zip_with f a b) = f (val a) (val b).
Proof.
  intros Hf Hg. revert n b. assert (f 0 0 = 0) as H00.
  { apply Z.bits_inj'. intros i Hi. by rewrite Hf, !Z.bits_0. }
  induction a as [|x t IH]; intros n b Ha Hb.
  - destruct b; [|by destruct Ha as [<- _], Hb]. split; [apply Ha | by rewrite <- H00 at 1].
  - destruct n; [by destruct Ha|]. destruct b as [|y s]; [by destruct Hb|].
    apply limbs_ok_cons in Ha as [Hx Ht], Hb as [Hy Hs]. cbn [zip_with].
    destruct (IH n s Ht Hs) as [Hok Hv].
    assert (is_u32 (f x y)) as Hxy.
    { unfold is_u32. assert (f x y = f x y mod 2 ^ 32) as ->; [|apply Z.mod_pos_bound; lia].
      apply Z.bits_inj'. intros i Hi. destruct (Z.lt_ge_cases i 32).
      - by rewrite Z.mod_pow2_bits_low by lia.
      - rewrite Z.mod_pow2_bits_high, Hf by lia.
        by rewrite (testbit_high x 32), (testbit_high y 32) by (done || lia). }
    split; [by apply limbs_ok_cons|].
    rewrite !val_cons_lor, Hv by done. apply Z.bits_inj'. intros i Hi.
    rewrite Hf, !Z.lor_spec by lia. destruct (Z.lt_ge_cases i 32).
    + rewrite !Z.shiftl_spec_low by lia. by rewrite !orb_false_r, Hf.
    + rewrite !Z.shiftl_spec by lia.
      rewrite (testbit_high x 32), (testbit_high y 32), (testbit_high (f x y) 32) by (done || lia).
      cbn [orb]. apply Hf. lia.
Qed.
Lemma val_xor n a b : limbs_ok n a -> limbs_ok n b ->
  limbs_ok n (xor a b) /\ val (xor a b) = Z.lxor (val a) (val b).
Proof. apply (val_zip_with _ xorb); [intros; apply Z.lxor_spec | done]. Qed.
Lemma val_and n a b : limbs_ok n a -> limbs_ok n b ->
  limbs_ok n (and a b) /\ val (and a b) = Z.land (val a) (val b).
Proof. apply (val_zip_with _ andb); [intros; apply Z.land_spec | done]. Qed.
Lemma val_or n a b : limbs_ok n a -> limbs_ok n b ->
  limbs_ok n (or a b) /\ val (or a b) = Z.lor (val a) (val b).
Proof. apply (val_zip_with _ orb); [intros; apply Z.lor_spec | done]. Qed.

Lemma mul32_loop_ok n c b32 pn : limbs_ok n pn -> limbs_ok n (mul32_loop c b32 pn).
Proof.
  revert n c. induction pn as [|x t IH]; intros n c H; [done|].
  destruct n; [by destruct H|]. apply limbs_ok_cons in H as [Hx Ht]. cbn [mul32_loop].
  apply limbs_ok_cons. split; [rewrite land_mask32; apply u32_bound | auto].
Qed.
Lemma val_mul32_loop n c b32 pn :
  limbs_ok n pn -> is_u32 b32 -> is_u32 c ->
  val (mul32_loop c b32 pn) = (val pn * b32 + c) mod bmod n.
Proof.
  revert n c. unfold is_u32 in *. induction pn as [|x t IH]; intros n c H Hb Hc.
  - destruct H as [<- _]. cbn. by rewrite Z.mod_1_r.
  - destruct n; [by destruct H|]. apply limbs_ok_cons in H as [Hx Ht]. unfold is_u32 in *.
    assert (0 <= b32 * x <= (2 ^ 32 - 1) * (2 ^ 32 - 1)) by nia.
    cbn [mul32_loop val]. rewrite (u64_small (b32 * x)), u64_small, land_mask32 by lia.
    rewrite Z.shiftr_div_pow2 by lia. rewrite (IH n) by (auto || zwrap). rewrite bmod_S.
    replace ((x + 2 ^ 32 * val t) * b32 + c) with (c + b32 * x + 2 ^ 32 * (val t * b32)) by ring.
    rewrite (Z.rem_mul_r _ (2 ^ 32)) by (pose proof (bmod_pos n); lia).
    rewrite (Z.mul_comm (2 ^ 32) (val t * b32)), Z.mod_add, Z.div_add by lia.
    unfold u32. do 3 f_equal. lia.
Qed.
Lemma mul32_ok n pn b32 : limbs_ok n pn -> limbs_ok n (mul32 pn b32).
Proof. apply mul32_loop_ok. Qed.
Lemma val_mul32 n pn b32 :
  limbs_ok n pn -> is_u32 b32 -> val (mul32 pn b32) = (val pn * b32) mod bmod n.
Proof.
  intros H Hb. unfold mul32. rewrite (val_mul32_loop n) by (auto || (unfold is_u32; lia)).
  by rewrite Z.add_0_r.
Qed.

Lemma mul_inner_ok n c aj acc b : limbs_ok n acc -> limbs_ok n (mul_inner c aj acc b).
Proof.
  revert n c b. induction acc as [|x t IH]; intros n c b H; [done|].
  destruct n; [by destruct H|]. apply limbs_ok_cons in H as [Hx Ht]. cbn [mul_inner].
  destruct b; [by apply limbs_ok_cons|].
  apply limbs_ok_cons. split; [rewrite land_mask32; apply u32_bound | auto].
Qed.
Lemma val_mul_inner n c aj acc b :
  limbs_ok n acc -> Forall is_u32 b -> (n <= length b)%nat -> is_u32 aj -> is_u32 c ->
  val (mul_inner c aj acc b) = (val acc + aj * val b + c) mod bmod n.
Proof.
  revert n c b. unfold is_u32. induction acc as [|x t IH]; intros n c b H Hb Hn Haj Hc.
  - destruct H as [<- _]. destruct b; cbn; by rewrite Z.mod_1_r.
  - destruct n; [by destruct H|]. destruct b as [|y s]; [cbn in Hn; lia|].
    apply limbs_ok_cons in H as [Hx Ht]. apply Forall_cons_iff in Hb as [Hy Hs].
    cbn [length] in Hn. unfold is_u32 in *.
    assert (0 <= aj * y <= (2 ^ 32 - 1) * (2 ^ 32 - 1)) by nia.
    cbn [mul_inner val].
    rewrite (u64_small (aj * y)), (u64_small (c + x)), u64_small, land_mask32 by lia.
    rewrite Z.shiftr_div_pow2 by lia. rewrite (IH n) by (auto || lia || zwrap). rewrite bmod_S.
    replace (x + 2 ^ 32 * val t + aj * (y + 2 ^ 32 * val s) + c)
      with (c + x + aj * y + 2 ^ 32 * (val t + aj * val s)) by ring.
    rewrite (Z.rem_mul_r _ (2 ^ 32)) by (pose proof (bmod_pos n); lia).
    rewrite (Z.mul_comm (2 ^ 32) (val t + aj * val s)), Z.mod_add, Z.div_add by lia.
    unfold u32. do 3 f_equal. lia.
Qed.

Lemma mod_split_high u v j n :
  0 <= u < bmod j -> u + bmod j * (v mod bmod n) = (u + bmod j * v) mod bmod (j + n).
Proof.
  intros Hu. pose proof (bmod_pos n). rewrite bmod_add, (Z.mul_comm (bmod j) v).
  rewrite Z.rem_mul_r, Z.mod_add, Z.div_add, (Z.mod_small u), (Z.div_small u) by lia.
  reflexivity.
Qed.

Lemma mul_spec a b :
  limbs_ok W a -> limbs_ok W b ->
  limbs_ok W (mul W a b) /\ val (mul W a b) = (val a * val b) mod bmod W.
Proof.
  intros Ha Hb. unfold mul.
  pose (P j pn := limbs_ok W pn /\ val pn = (val (take j a) * val b) mod bmod W).
  assert (P W (for_range W (fun pn j => take j pn ++ mul_inner 0 (nth j a 0) (drop j pn) b) (zero W))) as H.
  { apply for_range_ind; unfold P.
    - split; [apply zero_ok|]. rewrite val_zero. cbn. by rewrite Z.mod_0_l by (pose proof (bmod_pos W); lia).
    - intros j pn Hj [Hok Hv].
      pose proof (limbs_ok_drop W j pn Hok) as Hd. pose proof (limbs_ok_take W j pn Hok ltac:(lia)) as Ht.
      split.
      + replace W with (j + (W - j))%nat by lia. apply limbs_ok_app; [done|]. by apply mul_inner_ok.
      + rewrite val_app, (limbs_ok_length j), (val_mul_inner (W - j)) by
          (eauto with anker || apply Hb || (unfold is_u32; lia) || (rewrite (limbs_ok_length W) by done; lia)).
        rewrite mod_split_high by by apply val_bound. replace (j + (W - j))%nat with W by lia.
        rewrite val_take_S by (rewrite (limbs_ok_length W); done).
        rewrite Z.mul_add_distr_r, <- (Z.add_mod_idemp_l (val (take j a) * val b)), <- Hv by (pose proof (bmod_pos W); lia).
        rewrite (val_take_drop j pn) by (rewrite (limbs_ok_length W) by done; lia).
        f_equal. ring. }
  destruct H as [Hok Hv]. rewrite firstn_all2 in Hv by (rewrite (limbs_ok_length W); done). done.
Qed.

(** The scan from the most significant limb decides by the values. *)
Lemma compare_loop_snoc a b x y :
  length a = length b ->
  compare_loop (a ++ [x]) (b ++ [y]) =
  let r := compare_loop a b in if r =? 0 then if x <? y then -1 else if x >? y then 1 else 0 else r.
Proof.
  revert b. induction a as [|u a IH]; intros [|v b] Hl; try discriminate; [done|].
  cbn [app compare_loop]. destruct (u <? v); [done|]. destruct (u >? v); [done|].
  apply IH. by injection Hl.
Qed.
Lemma compare_to_spec n a b :
  limbs_ok n a -> limbs_ok n b ->
  compare_to a b = match val a ?= val b with Lt => -1 | Eq => 0 | Gt => 1 end.
Proof.
  revert a b. induction n as [|n IH]; intros a b Ha Hb.
  - destruct a, b; by destruct Ha, Hb.
  - destruct a as [|x t], b as [|y s]; [by destruct Ha | by destruct Ha | by destruct Hb|].
    apply limbs_ok_cons in Ha as [Hx Ht], Hb as [Hy Hs]. unfold compare_to in *. cbn [rev].
    rewrite compare_loop_snoc by (rewrite !length_rev, !(limbs_ok_length n); done).
    cbv zeta. rewrite (IH t s) by done. cbn [val]. unfold is_u32 in *.
    destruct (Z.compare_spec (val t) (val s)) as [E|E|E]; cbn -[Z.mul Z.pow].
    + rewrite E. destruct (Z.compare_spec (x + 2 ^ 32 * val s) (y + 2 ^ 32 * val s));
        destruct (Z.ltb_spec x y), (Z.gtb_spec x y); lia.
    + by rewrite (proj2 (Z.compare_lt_iff _ _)) by lia.
    + by rewrite (proj2 (Z.compare_gt_iff _ _)) by lia.
Qed.
Lemma ltb_spec' n a b : limbs_ok n a -> limbs_ok n b -> lt a b = (val a <? val b).
Proof.
  intros Ha Hb. unfold lt. rewrite (compare_to_spec n) by done. unfold Z.ltb at 2. by destruct (_ ?= _).
Qed.
Lemma leb_spec' n a b : limbs_ok n a -> limbs_ok n b -> le a b = (val a <=? val b).
Proof.
  intros Ha Hb. unfold le. rewrite (compare_to_spec n) by done. unfold Z.leb at 2. by destruct (_ ?= _).
Qed.
Lemma gtb_spec' n a b : limbs_ok n a -> limbs_ok n b -> gt a b = (val a >? val b).
Proof.
  intros Ha Hb. unfold gt. rewrite (compare_to_spec n) by done. unfold Z.gtb at 2. by destruct (_ ?= _).
Qed.
Lemma geb_spec' n a b : limbs_ok n a -> limbs_ok n b -> ge a b = (val a >=? val b).
Proof.
  intros Ha Hb. unfold ge. rewrite (compare_to_spec n) by done. unfold Z.geb at 2. by destruct (_ ?= _).
Qed.
Lemma eqb_spec' n a b : limbs_ok n a -> limbs_ok n b -> eqb a b = (val a =? val b).
Proof.
  intros Ha Hb. unfold eqb. destruct (Z.eqb_spec (val a) (val b)).
  - apply bool_decide_eq_true. eauto using val_inj.
  - apply bool_decide_eq_false. congruence.
Qed.
Lemma is_zero_spec n a : limbs_ok n a -> is_zero a = (val a =? 0).
Proof.
  revert n. induction a as [|x t IH]; intros n H; [done|].
  destruct n; [by destruct H|]. apply limbs_ok_cons in H as [Hx Ht].
  pose proof (val_bound n t Ht). unfold is_zero in *. cbn [forallb val].
  rewrite (IH n Ht). unfold is_u32 in Hx. lia.
Qed.
Lemma equal_to_spec a b :
  limbs_ok W a -> (2 <= W)%nat -> 0 <= b < 2 ^ 64 -> equal_to a b = (val a =? b).
Proof.
  intros Ha HW Hb. destruct W as [|[|n]]; [lia|lia|].
  destruct a as [|x [|y t]]; [by destruct Ha | by destruct Ha |].
  apply limbs_ok_cons in Ha as [Hx Ha]. apply limbs_ok_cons in Ha as [Hy Ht].
  unfold equal_to. change (drop 2 (x :: y :: t)) with t. cbn [nth val].
  rewrite (is_zero_spec n t Ht : forallb _ t = _), land_mask32, Z.shiftr_div_pow2 by lia.
  pose proof (val_bound n t Ht). unfold is_u32, u32 in *.
  Z.to_euclidean_division_equations. lia.
Qed.

(** [x *= x] on one and the same object always leaves zero. *)
Lemma mul_self_step_zero aj j i :
  mul_self_step aj j (zero W, 0) i = (zero W, 0).
Proof.
  unfold mul_self_step, zero. rewrite !nth_replicate_same.
  replace (u64 (u64 (0 + 0) + u64 (aj * 0))) with 0 by (by rewrite Z.mul_0_r).
  cbn. f_equal. apply insert_replicate.
Qed.
Lemma mul_self_zero pn : mul_self W pn = zero W.
Proof.
  unfold mul_self. apply (for_range_ind (fun _ x => x = zero W)); [done|].
  intros j pn' _ ->.
  rewrite (for_range_ind (fun _ x => x = (zero W, 0)) (W - j) (mul_self_step (nth j pn 0) j) (zero W, 0));
    [done|done|]. intros i y _ ->. apply mul_self_step_zero.
Qed.

(** *** Shifts *)

(** Truncating one shifted limb keeps it or drops it, whole. *)
Lemma trunc_shl_limb y c :
  is_u32 y -> 0 <= c ->
  Z.land (Z.shiftl y (32 * c)) (Z.ones (32 * Z.of_nat W)) =
  if c <? Z.of_nat W then Z.shiftl y (32 * c) else 0.
Proof.
  intros Hy Hc. apply Z.bits_inj'. intros m Hm. rewrite Z.land_spec, Z.shiftl_spec by lia.
  rewrite Z.testbit_ones_nonneg by lia.
  destruct (Z.ltb_spec c (Z.of_nat W)), (Z.ltb_spec m (32 * Z.of_nat W));
    rewrite ?Z.shiftl_spec, ?Z.bits_0, ?andb_false_r, ?andb_true_r by lia; trivial.
  - rewrite (testbit_high y 32) by (done || lia). reflexivity.
  - apply Z.testbit_neg_r. lia.
Qed.

(** One limb shifted by [s < 32] bits, as the two limbs the loop writes. *)
Lemma limb_shl_split x s :
  is_u32 x -> 0 <= s < 32 ->
  Z.shiftl x s = Z.lor (u32 (Z.shiftl x s)) (Z.shiftl (if s =? 0 then 0 else Z.shiftr x (32 - s)) 32).
Proof.
  intros Hx Hs. apply Z.bits_inj'. intros m Hm.
  rewrite Z.lor_spec, testbit_u32, !Z.shiftl_spec by lia.
  destruct (Z.ltb_spec m 32); cbn [andb].
  - rewrite (Z.testbit_neg_r _ (m - 32)) by lia. by rewrite orb_false_r.
  - cbn [orb]. destruct (Z.eqb_spec s 0) as [->|].
    + rewrite Z.bits_0. apply (testbit_high x 32); [done|lia].
    + rewrite Z.shiftr_spec by lia. f_equal. lia.
Qed.

Lemma limb_shl_parts x s : is_u32 x -> 0 <= s < 32 ->
  is_u32 (u32 (Z.shiftl x s)) /\ is_u32 (Z.shiftr x (32 - s)) /\ is_u32 (Z.shiftr x s).
Proof.
  intros Hx Hs. unfold is_u32 in *. split; [apply u32_bound|].
  rewrite !Z.shiftr_div_pow2 by lia. pose proof (Z.pow_pos_nonneg 2 s). pose proof (Z.pow_pos_nonneg 2 (32 - s)).
  split; (split; [apply Z.div_pos; lia | apply Z.div_lt_upper_bound; nia]).
Qed.

Lemma val_or_at_Z i y pn :
  limbs_ok W pn -> is_u32 y -> 0 <= i < Z.of_nat W ->
  val (or_at (Z.to_nat i) y pn) = Z.lor (val pn) (Z.shiftl y (32 * i)).
Proof.
  intros Hok Hy Hi. rewrite val_or_at, Z2Nat.id by
    (apply Hok || done || (rewrite (limbs_ok_length W) by done; lia) || lia). reflexivity.
Qed.

Lemma trunc_shl_parts x s c :
  is_u32 x -> 0 <= s < 32 -> 0 <= c ->
  Z.land (Z.shiftl (Z.shiftl x s) (32 * c)) (Z.ones (32 * Z.of_nat W)) =
  Z.lor (if c <? Z.of_nat W then Z.shiftl (u32 (Z.shiftl x s)) (32 * c) else 0)
        (if c + 1 <? Z.of_nat W
         then Z.shiftl (if s =? 0 then 0 else Z.shiftr x (32 - s)) (32 * (c + 1)) else 0).
Proof.
  intros Hx Hs Hc. destruct (limb_shl_parts x s Hx Hs) as (P1 & P2 & _).
  rewrite (limb_shl_split x s) at 1 by done.
  rewrite Z.shiftl_lor, Z.shiftl_shiftl, Z.land_lor_distr_l by lia.
  replace (32 + 32 * c) with (32 * (c + 1)) by lia.
  rewrite !trunc_shl_limb by (done || lia || (destruct (s =? 0); done || (unfold is_u32; lia))).
  reflexivity.
Qed.

Lemma val_take_S_lor a i :
  Forall is_u32 a -> (i < length a)%nat ->
  val (take (S i) a) = Z.lor (val (take i a)) (Z.shiftl (nth i a 0) (32 * Z.of_nat i)).
Proof.
  intros Ha Hi. rewrite val_take_S by done. rewrite lor_shiftl_add.
  - unfold bmod. lia.
  - lia.
  - apply (val_bound i). apply (limbs_ok_take (length a)); [done | lia].
Qed.

Lemma shl_spec pn s :
  limbs_ok W pn -> 0 <= s ->
  limbs_ok W (shl W pn s) /\ val (shl W pn s) = (val pn * 2 ^ s) mod bmod W.
Proof.
  intros Ha Hs. unfold shl, bmod.
  rewrite <- Z.shiftl_mul_pow2, <- Z.land_ones by lia.
  pose (P i r := limbs_ok W r /\
    val r = Z.land (Z.shiftl (val (take i pn)) s) (Z.ones (32 * Z.of_nat W))).
  match goal with |- limbs_ok _ ?r /\ _ => assert (P W r) as H end.
  { apply for_range_ind; unfold P.
    - split; [apply zero_ok|]. rewrite val_zero. cbn [take val]. by rewrite Z.shiftl_0_l, Z.land_0_l.
    - intros i r Hi [Hok Hv]. cbv beta. set (k := s / 32). set (sh := s mod 32).
      assert (s = 32 * k + sh /\ 0 <= sh < 32 /\ 0 <= k) as (Es & Hsh & Hk) by (unfold k, sh; zwrap).
      set (ai := nth i pn 0). assert (is_u32 ai) as Hai by eauto with anker.
      destruct (limb_shl_parts ai sh Hai Hsh) as (P1 & P2 & _).
      rewrite val_take_S_lor by (apply Ha || (rewrite (limbs_ok_length W); done)). fold ai.
      rewrite Z.shiftl_lor, Z.land_lor_distr_l, <- Hv, Z.shiftl_shiftl by lia.
      replace (32 * Z.of_nat i + s) with (sh + 32 * (Z.of_nat i + k)) by lia.
      rewrite <- Z.shiftl_shiftl, trunc_shl_parts by (done || lia).
      destruct (Z.ltb_spec (Z.of_nat i + k + 1) (Z.of_nat W)), (Z.eqb_spec sh 0),
        (Z.ltb_spec (Z.of_nat i + k) (Z.of_nat W)); cbn [andb negb]; try lia;
        (split; [auto using or_at_ok |]);
        rewrite ?val_or_at_Z by (auto using or_at_ok || lia);
        rewrite ?Z.shiftl_0_l, ?Z.lor_0_r; trivial.
      rewrite <- !Z.lor_assoc. f_equal. apply Z.lor_comm. }
  destruct H as [H1 H2]. split; [done|]. rewrite H2.
  by rewrite firstn_all2 by (rewrite (limbs_ok_length W); done).
Qed.

(** One limb at index [c] shifted right by [32 * k + s]. *)
Lemma limb_shr_parts x c k s :
  is_u32 x -> 0 <= s < 32 -> 0 <= c -> 0 <= k ->
  Z.shiftr (Z.shiftl x (32 * c)) (32 * k + s) =
  Z.lor (if c - k - 1 >=? 0
         then Z.shiftl (if s =? 0 then 0 else u32 (Z.shiftl x (32 - s))) (32 * (c - k - 1)) else 0)
        (if c - k >=? 0 then Z.shiftl (Z.shiftr x s) (32 * (c - k)) else 0).
Proof.
  intros Hx Hs Hc Hk. apply Z.bits_inj'. intros m Hm.
  assert (forall i, i < 0 \/ 32 <= i -> Z.testbit x i = false) as Hout.
  { intros i [?|?]; [apply Z.testbit_neg_r; lia | apply (testbit_high x 32); [done|lia]]. }
  rewrite Z.shiftr_spec, Z.shiftl_spec, Z.lor_spec by lia.
  destruct (Z.geb_spec (c - k - 1) 0), (Z.geb_spec (c - k) 0); try lia;
    rewrite ?Z.shiftl_spec, ?Z.bits_0, ?orb_false_r by lia.
  - assert (Z.testbit (if s =? 0 then 0 else u32 (Z.shiftl x (32 - s))) (m - 32 * (c - k - 1)) =
      if (m <? 32 * (c - k)) then Z.testbit x (m + (32 * k + s) - 32 * c) else false) as ->.
    { destruct (Z.eqb_spec s 0) as [->|].
      - rewrite Z.bits_0. destruct (Z.ltb_spec m (32 * (c - k))); [|done]. symmetry. apply Hout. lia.
      - destruct (Z.lt_ge_cases m (32 * (c - k - 1))).
        + rewrite Z.testbit_neg_r by lia. destruct (Z.ltb_spec m (32 * (c - k))); [|done].
          symmetry. apply Hout. lia.
        + rewrite testbit_u32, Z.shiftl_spec by lia.
          destruct (Z.ltb_spec (m - 32 * (c - k - 1)) 32), (Z.ltb_spec m (32 * (c - k))); try lia.
          cbn [andb]. f_equal. lia. }
    destruct (Z.ltb_spec m (32 * (c - k))).
    + rewrite (Z.testbit_neg_r _ (m - 32 * (c - k))) by lia. by rewrite orb_false_r.
    + rewrite Z.shiftr_spec by lia. cbn [orb]. f_equal. lia.
  - cbn [orb]. rewrite Z.shiftr_spec by lia. f_equal. lia.
  - cbn [orb]. apply Hout. lia.
Qed.

Lemma shr_spec pn s :
  limbs_ok W pn -> 0 <= s ->
  limbs_ok W (shr W pn s) /\ val (shr W pn s) = val pn / 2 ^ s.
Proof.
  intros Ha Hs. unfold shr. rewrite <- Z.shiftr_div_pow2 by lia.
  pose (P i r := limbs_ok W r /\ val r = Z.shiftr (val (take i pn)) s).
  match goal with |- limbs_ok _ ?r /\ _ => assert (P W r) as H end.
  { apply for_range_ind; unfold P.
    - split; [apply zero_ok|]. rewrite val_zero. cbn [take val]. by rewrite Z.shiftr_0_l.
    - intros i r Hi [Hok Hv]. cbv beta. set (k := s / 32). set (sh := s mod 32).
      assert (s = 32 * k + sh /\ 0 <= sh < 32 /\ 0 <= k) as (Es & Hsh & Hk) by (unfold k, sh; zwrap).
      set (ai := nth i pn 0). assert (is_u32 ai) as Hai by eauto with anker.
      destruct (limb_shl_parts ai sh Hai Hsh) as (_ & _ & P3).
      assert (is_u32 (u32 (Z.shiftl ai (32 - sh)))) as P4 by apply u32_bound.
      rewrite val_take_S_lor by (apply Ha || (rewrite (limbs_ok_length W); done)). fold ai.
      rewrite Z.shiftr_lor, <- Hv. rewrite Es at 1. rewrite limb_shr_parts by (done || lia).
      destruct (Z.geb_spec (Z.of_nat i - k - 1) 0), (Z.eqb_spec sh 0),
        (Z.geb_spec (Z.of_nat i - k) 0); cbn [andb negb]; try lia;
        (split; [auto using or_at_ok |]);
        rewrite ?val_or_at_Z by (auto using or_at_ok || lia);
        rewrite ?Z.shiftl_0_l, ?Z.lor_0_r, ?Z.lor_0_l; trivial.
      by rewrite <- !Z.lor_assoc. }
  destruct H as [H1 H2]. split; [done|]. rewrite H2.
  by rewrite firstn_all2 by (rewrite (limbs_ok_length W); done).
Qed.

(** *** Bit length *)

Lemma nbits_log2_bound v : 0 <= v -> 0 <= nbits v /\ v < 2 ^ nbits v /\ (v <> 0 -> 2 ^ (nbits v - 1) <= v).
Proof.
  intros Hv. unfold nbits. destruct (Z.eqb_spec v 0) as [->|]; [lia|].
  pose proof (Z.log2_spec v). pose proof (Z.log2_nonneg v).
  replace (Z.log2 v + 1 - 1) with (Z.log2 v) by lia. lia.
Qed.
Lemma nbits_le v n : 0 <= n -> 0 <= v < 2 ^ n -> nbits v <= n.
Proof.
  intros Hn Hv. unfold nbits. destruct (Z.eqb_spec v 0); [lia|].
  assert (Z.log2 v < n) by (apply Z.log2_lt_pow2; lia). lia.
Qed.

Lemma bits_limb_spec n x :
  (n <= 31)%nat -> 0 < x < 2 ^ (Z.of_nat n + 1) -> bits_limb n x = nbits x.
Proof.
  intros Hn. unfold nbits. induction n as [|n IH]; intros Hx.
  - by assert (x = 1) as -> by lia.
  - cbn [bits_limb]. rewrite Z.shiftl_mul_pow2, Z.mul_1_l, u32_small by
      (lia || (split; [lia|]; apply Z.pow_lt_mono_r; lia)).
    rewrite land_pow2_eqb by lia.
    destruct (Z.eqb_spec x 0); [lia|]. destruct (Z.testbit x (Z.of_nat (S n))) eqn:E; cbn [negb].
    + f_equal. symmetry. apply Z.log2_unique; [lia|].
      split; [|replace (Z.succ (Z.of_nat (S n))) with (Z.of_nat (S n) + 1) by lia; lia].
      destruct (Z.le_gt_cases (2 ^ Z.of_nat (S n)) x); [done|].
      rewrite (testbit_high x (Z.of_nat (S n))) in E by lia. done.
    + rewrite IH; [done | lia |]. split; [lia|].
      destruct (Z.lt_ge_cases x (2 ^ (Z.of_nat n + 1))) as [|Hge]; [done|].
      replace (Z.of_nat (S n)) with (Z.of_nat n + 1) in * by lia.
      assert (Z.log2 x = Z.of_nat n + 1) as Hlog.
      { apply Z.log2_unique; [lia|]. rewrite <- Z.add_1_r. lia. }
      rewrite <- Hlog, Z.bit_log2 in E by lia. done.
Qed.

Lemma bits_loop_spec n pn :
  Forall is_u32 pn -> (n <= length pn)%nat -> bits_loop n pn = nbits (val (take n pn)).
Proof.
  intros H. induction n as [|n IH]; intros Hn; [done|]. cbn [bits_loop].
  rewrite val_take_S by lia. set (x := nth n pn 0).
  assert (is_u32 x) as Hx by by eapply (limbs_ok_nth (length pn)).
  pose proof (val_bound n (take n pn) (limbs_ok_take (length pn) n pn ltac:(done) ltac:(lia))) as Hv.
  unfold is_u32 in Hx. destruct (Z.eqb_spec x 0) as [->|Hx0].
  - rewrite Z.mul_0_r, Z.add_0_r. apply IH. lia.
  - rewrite (bits_limb_spec 31) by (lia || (change (Z.of_nat 31 + 1) with 32; lia)).
    pose proof (bmod_pos n) as Hb. unfold nbits.
    destruct (Z.eqb_spec x 0), (Z.eqb_spec (val (take n pn) + bmod n * x) 0); try nia.
    rewrite Z.add_assoc. f_equal. symmetry. pose proof (Z.log2_nonneg x).
    destruct (Z.log2_spec x) as [Hl1 Hl2]; [lia|].
    apply Z.log2_unique; [lia|]. rewrite <- Z.add_succ_r, !Z.pow_add_r by lia.
    change (2 ^ (32 * Z.of_nat n)) with (bmod n). nia.
Qed.
Lemma bits_spec pn : limbs_ok W pn -> bits W pn = nbits (val pn).
Proof.
  intros H. unfold bits. rewrite bits_loop_spec by (apply H || (rewrite (limbs_ok_length W); done)).
  by rewrite firstn_all2 by (rewrite (limbs_ok_length W); done).
Qed.

(** *** Division *)

(** Setting the quotient bit [s] in a number whose bits [0..s] are clear. *)
Lemma val_set_bit s pn q :
  limbs_ok W pn -> Z.of_nat s < 32 * Z.of_nat W -> val pn = q * 2 ^ Z.of_nat (S s) ->
  let pn' := or_at (s / 32) (u32 (Z.shiftl 1 (Z.land (Z.of_nat s) 31))) pn in
  limbs_ok W pn' /\ val pn' = val pn + 2 ^ Z.of_nat s.
Proof.
  intros Hok Hs Hv. cbv zeta. split; [apply or_at_ok; [done | apply u32_bound]|].
  assert (s / 32 < W)%nat by (apply Nat.Div0.div_lt_upper_bound; lia).
  rewrite val_or_at by (apply Hok || apply u32_bound || (rewrite (limbs_ok_length W); done)).
  rewrite (land_ones_mod _ 5) by lia. change (2 ^ 5) with 32.
  assert (0 <= Z.of_nat s mod 32 < 32) by (apply Z.mod_pos_bound; lia).
  rewrite (Z.shiftl_mul_pow2 1), Z.mul_1_l by lia. rewrite u32_small by (split; [lia|]; apply Z.pow_lt_mono_r; lia).
  rewrite Z.shiftl_mul_pow2, <- Z.pow_add_r, Nat2Z.inj_div by lia.
  change (Z.of_nat 32) with 32.
  replace (Z.of_nat s mod 32 + 32 * (Z.of_nat s / 32)) with (Z.of_nat s)
    by (pose proof (Z.div_mod (Z.of_nat s) 32); lia).
  rewrite Hv, <- (Z.shiftl_mul_pow2 q) by lia. rewrite Z.lor_comm, lor_shiftl_add.
  - rewrite Z.shiftl_mul_pow2 by lia. lia.
  - lia.
  - rewrite Nat2Z.inj_succ, Z.pow_succ_r by lia. pose proof (Z.pow_pos_nonneg 2 (Z.of_nat s)). lia.
Qed.

Lemma div_loop_spec n d q pn num div :
  Z.of_nat n <= 32 * Z.of_nat W ->
  limbs_ok W pn -> limbs_ok W num -> limbs_ok W div ->
  0 < d -> (forall s, n = S s -> val div = d * 2 ^ Z.of_nat s) ->
  val num < d * 2 ^ Z.of_nat n -> val pn = q * 2 ^ Z.of_nat n ->
  let '(pn', num') := div_loop W n pn num div in
  limbs_ok W pn' /\ limbs_ok W num' /\
  val pn' = val pn + val num / d /\ val num' = val num mod d.
Proof.
  revert q pn num div. induction n as [|s IH]; intros q pn num div Hn Hp Hm Hd Hd0 Hdiv Hlt Hq.
  - cbn [div_loop]. pose proof (val_bound W num Hm). change (2 ^ Z.of_nat 0) with 1 in *.
    rewrite Z.div_small, Z.mod_small by lia. repeat split; auto; try apply Hp; try apply Hm; lia.
  - cbn [div_loop]. specialize (Hdiv s eq_refl).
    destruct (shr_spec div 1 Hd ltac:(lia)) as [Hsok Hsv]. change (2 ^ 1) with 2 in Hsv.
    rewrite (geb_spec' W) by done.
    pose proof (val_bound W num Hm) as Hnb. pose proof (Z.pow_pos_nonneg 2 (Z.of_nat s)) as Hp2.
    rewrite Nat2Z.inj_succ, Z.pow_succ_r in Hlt, Hq by lia.
    assert (forall s', s = S s' -> val (shr W div 1) = d * 2 ^ Z.of_nat s') as Hdiv'.
    { intros s' ->. rewrite Hsv, Hdiv, Nat2Z.inj_succ, Z.pow_succ_r by lia.
      replace (d * (2 * 2 ^ Z.of_nat s')) with (d * 2 ^ Z.of_nat s' * 2) by ring.
      by rewrite Z.div_mul by lia. }
    destruct (Z.geb_spec (val num) (val div)) as [Hge|Hltd].
    + destruct (val_set_bit s pn q Hp ltac:(lia) ltac:(rewrite Nat2Z.inj_succ, Z.pow_succ_r by lia; done)) as [Hp' Hv'].
      cbv zeta in Hp', Hv'.
      assert (val (sub num div) = val num - val div) as Hsubv.
      { rewrite (val_sub W) by done. pose proof (val_bound W div Hd). apply Z.mod_small. lia. }
      pose proof (IH (2 * q + 1) _ (sub num div) (shr W div 1) ltac:(lia) Hp' ltac:(by apply sub_ok) Hsok Hd0 Hdiv'
        ltac:(lia) ltac:(rewrite Hv', Hq; ring)) as H.
      destruct (div_loop W s _ _ _) as [pn' num']. destruct H as (H1 & H2 & H3 & H4).
      split; [done|]. split; [done|].
      rewrite H3, H4, Hv', Hsubv, Hdiv.
      replace (val num - d * 2 ^ Z.of_nat s) with (val num + (- 2 ^ Z.of_nat s) * d) by ring.
      rewrite Z.div_add, Z.mod_add by lia. lia.
    + pose proof (IH (2 * q) pn num (shr W div 1) ltac:(lia) Hp Hm Hsok Hd0 Hdiv' ltac:(lia) ltac:(rewrite Hq; ring)) as H.
      exact H.
Qed.

Lemma div_spec a b :
  limbs_ok W a -> limbs_ok W b ->
  match div W a b with
  | None => val b = 0
  | Some q => val b <> 0 /\ limbs_ok W q /\ val q = val a / val b
  end.
Proof.
  intros Ha Hb. unfold div. rewrite !bits_spec by done.
  pose proof (val_bound W a Ha) as Hab. pose proof (val_bound W b Hb) as Hbb.
  destruct (nbits_log2_bound (val a)) as (A1 & A2 & A3); [lia|].
  destruct (nbits_log2_bound (val b)) as (B1 & B2 & B3); [lia|].
  assert (nbits (val a) <= 32 * Z.of_nat W) by (apply nbits_le; unfold bmod in *; lia).
  destruct (Z.eqb_spec (nbits (val b)) 0) as [E|E].
  { rewrite E in B2. lia. }
  assert (val b <> 0) as Hb0 by (intros Hb0; rewrite Hb0 in E; done).
  specialize (B3 Hb0).
  destruct (Z.gtb_spec (nbits (val b)) (nbits (val a))) as [Hgt|Hle].
  - split; [done|]. split; [apply zero_ok|]. rewrite val_zero, Z.div_small; [done|].
    split; [lia|]. eapply Z.lt_le_trans; [exact A2|]. etransitivity; [|exact B3].
    apply Z.pow_le_mono_r; lia.
  - set (sh := nbits (val a) - nbits (val b)).
    destruct (shl_spec b sh Hb ltac:(lia)) as [Hsok Hsv].
    assert (val b * 2 ^ sh < 2 ^ nbits (val a)) as Hfit.
    { replace (nbits (val a)) with (nbits (val b) + sh) by lia. rewrite Z.pow_add_r by lia.
      apply Z.mul_lt_mono_pos_r; [apply Z.pow_pos_nonneg; lia | done]. }
    assert (2 ^ nbits (val a) <= bmod W) by (apply Z.pow_le_mono_r; lia).
    rewrite Z.mod_small in Hsv by (split; [apply Z.mul_nonneg_nonneg; lia | lia]).
    pose proof (div_loop_spec (Z.to_nat (sh + 1)) (val b) 0 (zero W) a (shl W b sh)) as Hl.
    rewrite Z2Nat.id in Hl by lia.
    destruct (div_loop W _ _ _ _) as [q r].
    destruct Hl as (H1 & H2 & H3 & H4); auto using zero_ok; try lia.
    + intros s Hs. rewrite Hsv. do 2 f_equal. lia.
    + eapply Z.lt_le_trans; [exact A2|].
      replace (nbits (val a)) with (nbits (val b) - 1 + (sh + 1)) by lia. rewrite Z.pow_add_r by lia.
      apply Z.mul_le_mono_nonneg_r; [lia | done].
    + rewrite val_zero. lia.
    + cbn [fst]. rewrite val_zero in H3. auto.
Qed.

Lemma get_low64_spec n pn : limbs_ok n pn -> (2 <= n)%nat -> get_low64 pn = val pn mod 2 ^ 64.
Proof.
  intros H Hn. destruct n as [|[|n]]; [lia|lia|].
  destruct pn as [|x [|y t]]; [by destruct H | by destruct H |].
  apply limbs_ok_cons in H as [Hx H]. apply limbs_ok_cons in H as [Hy _].
  unfold get_low64, is_u32 in *. cbn [nth val]. rewrite lor_shiftl_add by lia.
  Z.to_euclidean_division_equations. lia.
Qed.
End refinement.

(** ** The contract of the class

    What [base_uint<32 * W>] promises to its clients: an abstraction function into
    the integers modulo [2 ^ (32 * W)] under which every operator is the
    arithmetic one. The clients' proofs use only these laws. *)

Class UintLaws {T : Type} (ok : T -> Prop) (v : T -> Z) (M : Z)
    (add sub mul : T -> T -> T) (neg not : T -> T) (mul32 shl shr : T -> Z -> T)
    (div : T -> T -> option T) (cmp : T -> T -> Z) (bits : T -> Z) : Prop := {
  law_range : forall a, ok a -> 0 <= v a < M;
  law_ext : forall a b, ok a -> ok b -> v a = v b -> a = b;
  law_add : forall a b, ok a -> ok b -> ok (add a b) /\ v (add a b) = (v a + v b) mod M;
  law_sub : forall a b, ok a -> ok b -> ok (sub a b) /\ v (sub a b) = (v a - v b) mod M;
  law_mul : forall a b, ok a -> ok b -> ok (mul a b) /\ v (mul a b) = (v a * v b) mod M;
  law_mul32 : forall a x, ok a -> is_u32 x -> ok (mul32 a x) /\ v (mul32 a x) = (v a * x) mod M;
  law_neg : forall a, ok a -> ok (neg a) /\ v (neg a) = (- v a) mod M;
  law_not : forall a, ok a -> ok (not a) /\ v (not a) = M - 1 - v a;
  law_shl : forall a s, ok a -> 0 <= s -> ok (shl a s) /\ v (shl a s) = (v a * 2 ^ s) mod M;
  law_shr : forall a s, ok a -> 0 <= s -> ok (shr a s) /\ v (shr a s) = v a / 2 ^ s;
  law_div : forall a b, ok a -> ok b ->
    match div a b with
    | None => v b = 0
    | Some q => v b <> 0 /\ ok q /\ v q = v a / v b
    end;
  law_cmp : forall a b, ok a -> ok b ->
    cmp a b = match v a ?= v b with Lt => -1 | Eq => 0 | Gt => 1 end;
  law_bits : forall a, ok a -> bits a = nbits (v a);
}.

(** C40: every operator of [base_uint<32 * W>] implements modular integer
    arithmetic, for every number of limbs [W]: the limb-and-carry loops, the
    limb-crossing shifts, the schoolbook product of two objects (that of an object by
    itself is [mul_assign_aliased]), the bitwise long division (exception exactly on a
    zero divisor), the comparison and the bit length. *)
Theorem base_uint_implements (W : nat) :
  UintLaws (limbs_ok W) val (bmod W) base_uint.add base_uint.sub (base_uint.mul W)
    base_uint.opp base_uint.compl base_uint.mul32 (base_uint.shl W) (base_uint.shr W)
    (base_uint.div W) base_uint.compare_to (base_uint.bits W).
Proof.
  split.
  - apply val_bound.
  - apply val_inj.
  - intros. split; [by apply add_ok | by apply val_add].
  - intros. split; [by apply sub_ok | by apply val_sub].
  - apply mul_spec.
  - intros. split; [by apply mul32_ok | by apply val_mul32].
  - intros. split; [by apply opp_ok | by apply val_opp].
  - intros. split; [by apply compl_ok | by apply val_compl].
  - apply shl_spec.
  - apply shr_spec.
  - apply div_spec.
  - intros. by apply (compare_to_spec W).
  - apply bits_spec.
Qed.

(** the compound multiplication of an object by itself ([x *= x], where the
    argument aliases [*this]) always yields zero, because the code clears
    [*this] before reading the argument; the same operator on two objects holding
    the same value yields the square. *)
Theorem mul_assign_aliased (W : nat) (x : list Z) (Hx : limbs_ok W x) :
  val (base_uint.mul_self W x) = 0 /\
  val (base_uint.mul W x x) = (val x * val x) mod bmod W.
Proof. split; [by rewrite mul_self_zero, val_zero | by apply mul_spec]. Qed.
Lemma mul_assign_aliased_witness :
  val (base_uint.mul_self 8 (base_uint.of_uint64 8 3)) = 0 /\
  val (base_uint.mul 8 (base_uint.of_uint64 8 3) (base_uint.of_uint64 8 3)) = (3 * 3) mod bmod 8.
Proof. apply (mul_assign_aliased 8 (base_uint.of_uint64 8 3)). by apply of_uint64_ok; lia. Defined.
