(* ===== verification/Encodings.v ===== *)
(** The text encodings of [src/src/utilstrencodings.cpp] and
    [src/src/utilstrencodings.h]: hexadecimal, base64 and base32 with their
    decoding tables, the sanitiser, the constant-time comparison and the
    round-trip theorems. A [char const *] is the list of its bytes; reading at or
    past the end reads the terminating NUL, as in C. *)
From S2P Require Import Prelude.

(** [safeChars.find(str[i]) != npos] *)
Definition safe_chars : list Z :=
  str "abcdefghijklmnopqrstuvwxyzABCDEFGHIJKLMNOPQRSTUVWXYZ01234567890 .,;_-/:?@()".
Definition SanitizeString (s : list Z) : list Z :=
  List.filter (fun c => existsb (Z.eqb c) safe_chars) s.

(** ** Hexadecimal *)

Definition p_util_hexdigit : list Z := [
    -1; -1; -1; -1; -1; -1; -1; -1; -1; -1; -1; -1; -1; -1; -1; -1;
    -1; -1; -1; -1; -1; -1; -1; -1; -1; -1; -1; -1; -1; -1; -1; -1;
    -1; -1; -1; -1; -1; -1; -1; -1; -1; -1; -1; -1; -1; -1; -1; -1;
    0; 1; 2; 3; 4; 5; 6; 7; 8; 9; -1; -1; -1; -1; -1; -1;
    -1; 10; 11; 12; 13; 14; 15; -1; -1; -1; -1; -1; -1; -1; -1; -1;
    -1; -1; -1; -1; -1; -1; -1; -1; -1; -1; -1; -1; -1; -1; -1; -1;
    -1; 10; 11; 12; 13; 14; 15; -1; -1; -1; -1; -1; -1; -1; -1; -1;
    -1; -1; -1; -1; -1; -1; -1; -1; -1; -1; -1; -1; -1; -1; -1; -1;
    -1; -1; -1; -1; -1; -1; -1; -1; -1; -1; -1; -1; -1; -1; -1; -1;
    -1; -1; -1; -1; -1; -1; -1; -1; -1; -1; -1; -1; -1; -1; -1; -1;
    -1; -1; -1; -1; -1; -1; -1; -1; -1; -1; -1; -1; -1; -1; -1; -1;
    -1; -1; -1; -1; -1; -1; -1; -1; -1; -1; -1; -1; -1; -1; -1; -1;
    -1; -1; -1; -1; -1; -1; -1; -1; -1; -1; -1; -1; -1; -1; -1; -1;
    -1; -1; -1; -1; -1; -1; -1; -1; -1; -1; -1; -1; -1; -1; -1; -1;
    -1; -1; -1; -1; -1; -1; -1; -1; -1; -1; -1; -1; -1; -1; -1; -1;
    -1; -1; -1; -1; -1; -1; -1; -1; -1; -1; -1; -1; -1; -1; -1; -1].
Definition HexDigit (c : Z) : Z := nth (Z.to_nat c) p_util_hexdigit (-1).

Definition IsHex (s : list Z) : bool :=
  forallb (fun c => negb (HexDigit c <? 0)) s &&
  (0 <? Z.of_nat (length s)) && (Z.of_nat (length s) mod 2 =? 0).

(** The loop of [ParseHex]; [fuel] bounds the number of characters left_. *)
Fixpoint ParseHex_loop (fuel : nat) (psz : list Z) : list Z :=
  match fuel with
  | O => []
  | S fuel' =>
      match drop_while isspace psz with
      | [] => []
      | c1 :: psz1 =>
          let c := HexDigit c1 in
          if c =? -1 then []
          else let n := u8 (Z.shiftl c 4) in
               match psz1 with
               | [] => []
               | c2 :: psz2 =>
                   let c := HexDigit c2 in
                   if c =? -1 then []
                   else u8 (Z.lor n c) :: ParseHex_loop fuel' psz2
               end
      end
  end.
Definition ParseHex (psz : list Z) : list Z := ParseHex_loop (S (length psz)) psz.

Definition hexmap : list Z := str "0123456789abcdef".
(** [HexStr(it, end, fSpaces)]; [first] is [it == itbegin] *)
Fixpoint HexStr_loop (first fSpaces : bool) (v : list Z) : list Z :=
  match v with
  | [] => []
  | x :: t =>
      (if fSpaces && negb first then str " " else []) ++
      nth (Z.to_nat (Z.shiftr x 4)) hexmap 0 :: nth (Z.to_nat (Z.land x 15)) hexmap 0 ::
      HexStr_loop false fSpaces t
  end.
Definition HexStr (v : list Z) (fSpaces : bool) : list Z := HexStr_loop true fSpaces v.

(** ** Base64 *)

Definition pbase64 : list Z := str "ABCDEFGHIJKLMNOPQRSTUVWXYZabcdefghijklmnopqrstuvwxyz0123456789+/".
Definition b64 (i : Z) : Z := nth (Z.to_nat i) pbase64 0.

(** The [while]/[switch] of [EncodeBase64] with its state [(mode, left)], and the
    final padding. *)
Fixpoint EncodeBase64_loop (mode left_ : Z) (pch : list Z) : list Z :=
  match pch with
  | [] => if mode =? 0 then []
          else b64 left_ :: 61 :: (if mode =? 1 then [61] else [])
  | enc :: t =>
      if mode =? 0 then b64 (Z.shiftr enc 2) :: EncodeBase64_loop 1 (Z.shiftl (Z.land enc 3) 4) t
      else if mode =? 1 then
        b64 (Z.lor left_ (Z.shiftr enc 4)) :: EncodeBase64_loop 2 (Z.shiftl (Z.land enc 15) 2) t
      else b64 (Z.lor left_ (Z.shiftr enc 6)) :: b64 (Z.land enc 63) :: EncodeBase64_loop 0 left_ t
  end.
Definition EncodeBase64 (pch : list Z) : list Z := EncodeBase64_loop 0 0 pch.

Definition decode64_table : list Z := [
    -1; -1; -1; -1; -1; -1; -1; -1; -1; -1; -1; -1; -1; -1; -1; -1;
    -1; -1; -1; -1; -1; -1; -1; -1; -1; -1; -1; -1; -1; -1; -1; -1;
    -1; -1; -1; -1; -1; -1; -1; -1; -1; -1; -1; 62; -1; -1; -1; 63;
    52; 53; 54; 55; 56; 57; 58; 59; 60; 61; -1; -1; -1; -1; -1; -1;
    -1; 0; 1; 2; 3; 4; 5; 6; 7; 8; 9; 10; 11; 12; 13; 14;
    15; 16; 17; 18; 19; 20; 21; 22; 23; 24; 25; -1; -1; -1; -1; -1;
    -1; 26; 27; 28; 29; 30; 31; 32; 33; 34; 35; 36; 37; 38; 39; 40;
    41; 42; 43; 44; 45; 46; 47; 48; 49; 50; 51; -1; -1; -1; -1; -1;
    -1; -1; -1; -1; -1; -1; -1; -1; -1; -1; -1; -1; -1; -1; -1; -1;
    -1; -1; -1; -1; -1; -1; -1; -1; -1; -1; -1; -1; -1; -1; -1; -1;
    -1; -1; -1; -1; -1; -1; -1; -1; -1; -1; -1; -1; -1; -1; -1; -1;
    -1; -1; -1; -1; -1; -1; -1; -1; -1; -1; -1; -1; -1; -1; -1; -1;
    -1; -1; -1; -1; -1; -1; -1; -1; -1; -1; -1; -1; -1; -1; -1; -1;
    -1; -1; -1; -1; -1; -1; -1; -1; -1; -1; -1; -1; -1; -1; -1; -1;
    -1; -1; -1; -1; -1; -1; -1; -1; -1; -1; -1; -1; -1; -1; -1; -1;
    -1; -1; -1; -1; -1; -1; -1; -1; -1; -1; -1; -1; -1; -1; -1; -1].
Definition dec64 (c : Z) : Z := nth (Z.to_nat c) decode64_table (-1).

(** [p[i]]: the terminating NUL is at the end of the list *)
Definition at_ (p : list Z) (i : nat) : Z := nth i p 0.

(** The [while (1)] loop of [DecodeBase64]: the bytes pushed, the final [mode] and
    [left], and the rest of the text. *)
Fixpoint DecodeBase64_loop (mode left_ : Z) (p : list Z) : list Z * Z * Z * list Z :=
  match p with
  | [] => ([], mode, left_, [])
  | c :: t =>
      let dec := dec64 c in
      if dec =? -1 then ([], mode, left_, p)
      else if mode =? 0 then DecodeBase64_loop 1 dec t
      else
        let '(out, left_') :=
          if mode =? 1 then (u8 (Z.lor (Z.shiftl left_ 2) (Z.shiftr dec 4)), Z.land dec 15)
          else if mode =? 2 then (u8 (Z.lor (Z.shiftl left_ 4) (Z.shiftr dec 2)), Z.land dec 3)
          else (u8 (Z.lor (Z.shiftl left_ 6) dec), left_) in
        let mode' := if mode =? 3 then 0 else mode + 1 in
        let '(vch, m, l, rest) := DecodeBase64_loop mode' left_' t in
        (out :: vch, m, l, rest)
  end.
(** [DecodeBase64(p, &fInvalid)]: the bytes and the flag *)
Definition DecodeBase64 (p : list Z) : list Z * bool :=
  let '(vch, mode, left_, p') := DecodeBase64_loop 0 0 p in
  (vch,
   if mode =? 0 then false
   else if mode =? 1 then true
   else if mode =? 2 then
     negb (left_ =? 0) || negb (at_ p' 0 =? 61) || negb (at_ p' 1 =? 61) || negb (dec64 (at_ p' 2) =? -1)
   else negb (left_ =? 0) || negb (at_ p' 0 =? 61) || negb (dec64 (at_ p' 1) =? -1)).

(** ** Base32 *)

Definition pbase32 : list Z := str "abcdefghijklmnopqrstuvwxyz234567".
Definition b32 (i : Z) : Z := nth (Z.to_nat i) pbase32 0.
Definition nPadding : list nat := [0; 6; 4; 3; 1]%nat.

Fixpoint EncodeBase32_loop (mode left_ : Z) (pch : list Z) : list Z :=
  match pch with
  | [] => if mode =? 0 then []
          else b32 left_ :: replicate (nth (Z.to_nat mode) nPadding 0%nat) 61
  | enc :: t =>
      if mode =? 0 then b32 (Z.shiftr enc 3) :: EncodeBase32_loop 1 (Z.shiftl (Z.land enc 7) 2) t
      else if mode =? 1 then
        b32 (Z.lor left_ (Z.shiftr enc 6)) :: b32 (Z.land (Z.shiftr enc 1) 31) ::
        EncodeBase32_loop 2 (Z.shiftl (Z.land enc 1) 4) t
      else if mode =? 2 then
        b32 (Z.lor left_ (Z.shiftr enc 4)) :: EncodeBase32_loop 3 (Z.shiftl (Z.land enc 15) 1) t
      else if mode =? 3 then
        b32 (Z.lor left_ (Z.shiftr enc 7)) :: b32 (Z.land (Z.shiftr enc 2) 31) ::
        EncodeBase32_loop 4 (Z.shiftl (Z.land enc 3) 3) t
      else b32 (Z.lor left_ (Z.shiftr enc 5)) :: b32 (Z.land enc 31) :: EncodeBase32_loop 0 left_ t
  end.
Definition EncodeBase32 (pch : list Z) : list Z := EncodeBase32_loop 0 0 pch.

Definition decode32_table : list Z := [
    -1; -1; -1; -1; -1; -1; -1; -1; -1; -1; -1; -1; -1; -1; -1; -1;
    -1; -1; -1; -1; -1; -1; -1; -1; -1; -1; -1; -1; -1; -1; -1; -1;
    -1; -1; -1; -1; -1; -1; -1; -1; -1; -1; -1; -1; -1; -1; -1; -1;
    -1; -1; 26; 27; 28; 29; 30; 31; -1; -1; -1; -1; -1; -1; -1; -1;
    -1; 0; 1; 2; 3; 4; 5; 6; 7; 8; 9; 10; 11; 12; 13; 14;
    15; 16; 17; 18; 19; 20; 21; 22; 23; 24; 25; -1; -1; -1; -1; -1;
    -1; 0; 1; 2; 3; 4; 5; 6; 7; 8; 9; 10; 11; 12; 13; 14;
    15; 16; 17; 18; 19; 20; 21; 22; 23; 24; 25; -1; -1; -1; -1; -1;
    -1; -1; -1; -1; -1; -1; -1; -1; -1; -1; -1; -1; -1; -1; -1; -1;
    -1; -1; -1; -1; -1; -1; -1; -1; -1; -1; -1; -1; -1; -1; -1; -1;
    -1; -1; -1; -1; -1; -1; -1; -1; -1; -1; -1; -1; -1; -1; -1; -1;
    -1; -1; -1; -1; -1; -1; -1; -1; -1; -1; -1; -1; -1; -1; -1; -1;
    -1; -1; -1; -1; -1; -1; -1; -1; -1; -1; -1; -1; -1; -1; -1; -1;
    -1; -1; -1; -1; -1; -1; -1; -1; -1; -1; -1; -1; -1; -1; -1; -1;
    -1; -1; -1; -1; -1; -1; -1; -1; -1; -1; -1; -1; -1; -1; -1; -1;
    -1; -1; -1; -1; -1; -1; -1; -1; -1; -1; -1; -1; -1; -1; -1; -1].
Definition dec32 (c : Z) : Z := nth (Z.to_nat c) decode32_table (-1).

Fixpoint DecodeBase32_loop (mode left_ : Z) (p : list Z) : list Z * Z * Z * list Z :=
  match p with
  | [] => ([], mode, left_, [])
  | c :: t =>
      let dec := dec32 c in
      if dec =? -1 then ([], mode, left_, p)
      else if mode =? 0 then DecodeBase32_loop 1 dec t
      else if mode =? 2 then DecodeBase32_loop 3 (Z.lor (Z.shiftl left_ 5) dec) t
      else if mode =? 5 then DecodeBase32_loop 6 (Z.lor (Z.shiftl left_ 5) dec) t
      else
        let '(out, left_') :=
          if mode =? 1 then (u8 (Z.lor (Z.shiftl left_ 3) (Z.shiftr dec 2)), Z.land dec 3)
          else if mode =? 3 then (u8 (Z.lor (Z.shiftl left_ 1) (Z.shiftr dec 4)), Z.land dec 15)
          else if mode =? 4 then (u8 (Z.lor (Z.shiftl left_ 4) (Z.shiftr dec 1)), Z.land dec 1)
          else if mode =? 6 then (u8 (Z.lor (Z.shiftl left_ 2) (Z.shiftr dec 3)), Z.land dec 7)
          else (u8 (Z.lor (Z.shiftl left_ 5) dec), left_) in
        let mode' := if mode =? 7 then 0 else mode + 1 in
        let '(vch, m, l, rest) := DecodeBase32_loop mode' left_' t in
        (out :: vch, m, l, rest)
  end.
(** [p[0] == '=' && ... && p[n-1] == '='] *)
Definition pads (n : nat) (p : list Z) : bool := forallb (fun i => at_ p i =? 61) (seq 0 n).
Definition DecodeBase32 (p : list Z) : list Z * bool :=
  let '(vch, mode, left_, p') := DecodeBase32_loop 0 0 p in
  let bad n := negb (left_ =? 0) || negb (pads n p') || negb (dec32 (at_ p' n) =? -1) in
  (vch,
   if mode =? 0 then false
   else if (mode =? 1) || (mode =? 3) || (mode =? 6) then true
   else if mode =? 2 then bad 6%nat
   else if mode =? 4 then bad 4%nat
   else if mode =? 5 then bad 3%nat
   else bad 1%nat).

(** ** Comparison and pretty-printing *)

(** [TimingResistantEqual]; [size_t] is 64 bits wide *)
Definition TimingResistantEqual (a b : list Z) : bool :=
  if Z.of_nat (length b) =? 0 then Z.of_nat (length a) =? 0
  else
    let accumulator := Z.lxor (Z.of_nat (length a)) (Z.of_nat (length b)) in
    for_range (length a) (fun acc i =>
      Z.lor acc (Z.lxor (nth i a 0) (nth (i mod length b) b 0))) accumulator =? 0.

(** [ReverseEndianString]: [out += in.substr(s - i - 2, 2)] for [i = 0, 2, ..];
    [None] is the [std::out_of_range] of [substr] on an odd length. *)
Definition ReverseEndianString (s : list Z) : option (list Z) :=
  if Z.of_nat (length s) mod 2 =? 1 then None
  else Some (for_range (length s / 2) (fun out i =>
    out ++ take 2 (drop (length s - 2 * i - 2) s)) []).

(** ** Integer parsing *)

Definition ParsePrechecks (s : list Z) : bool :=
  match s with
  | [] => false
  | c :: _ =>
      if isspace c || isspace (List.last s 0) then false
      else Z.of_nat (length s) =? Z.of_nat (length (take_while (fun c => negb (c =? 0)) s))
  end.

(** ** Round trips *)

Lemma byte_shr x n : is_byte x -> 0 <= n <= 8 -> 0 <= Z.shiftr x n < 2 ^ (8 - n).
Proof.
  intros Hx Hn. unfold is_byte in Hx. rewrite Z.shiftr_div_pow2 by lia.
  pose proof (Z.pow_pos_nonneg 2 n). pose proof (Z.pow_pos_nonneg 2 (8 - n)).
  assert (2 ^ n * 2 ^ (8 - n) = 2 ^ 8) by (rewrite <- Z.pow_add_r by lia; f_equal; lia).
  split; [apply Z.div_pos; lia | apply Z.div_lt_upper_bound; lia].
Qed.

Lemma dec64_b64 i : 0 <= i < 64 -> dec64 (b64 i) = i.
Proof.
  intros Hi. apply Z.eqb_eq. revert i Hi.
  by apply (range_check (fun i => dec64 (b64 i) =? i) 64).
Qed.
Lemma dec32_b32 i : 0 <= i < 32 -> dec32 (b32 i) = i.
Proof.
  intros Hi. apply Z.eqb_eq. revert i Hi.
  by apply (range_check (fun i => dec32 (b32 i) =? i) 32).
Qed.

(** One decoding step on an encoded digit. *)
Lemma decode64_step mode l i t :
  0 <= i < 64 -> 
  DecodeBase64_loop mode l (b64 i :: t) =
  if mode =? 0 then DecodeBase64_loop 1 i t
  else
    let '(out, l') :=
      if mode =? 1 then (u8 (Z.lor (Z.shiftl l 2) (Z.shiftr i 4)), Z.land i 15)
      else if mode =? 2 then (u8 (Z.lor (Z.shiftl l 4) (Z.shiftr i 2)), Z.land i 3)
      else (u8 (Z.lor (Z.shiftl l 6) i), l) in
    let '(vch, m, l, rest) := DecodeBase64_loop (if mode =? 3 then 0 else mode + 1) l' t in
    (out :: vch, m, l, rest).
Proof.
  intros Hi. cbn [DecodeBase64_loop]. rewrite dec64_b64 by done.
  by destruct (Z.eqb_spec i (-1)); [lia|].
Qed.

(** The digits of three bytes, and what the decoder reads out of them. *)
Lemma b64_digit1 a y : 0 <= a < 256 -> 0 <= y < 16 ->
  0 <= Z.shiftr a 2 < 64 /\ 0 <= Z.lor (Z.shiftl (Z.land a 3) 4) y < 64 /\
  u8 (Z.lor (Z.shiftl (Z.shiftr a 2) 2) (Z.shiftr (Z.lor (Z.shiftl (Z.land a 3) 4) y) 4)) = a /\
  Z.land (Z.lor (Z.shiftl (Z.land a 3) 4) y) 15 = y.
Proof.
  intros Ha Hy.
  enough ((Z.shiftr a 2 <? 64) && (0 <=? Z.shiftr a 2) && (0 <=? Z.lor (Z.shiftl (Z.land a 3) 4) y) &&
    (Z.lor (Z.shiftl (Z.land a 3) 4) y <? 64) &&
    (u8 (Z.lor (Z.shiftl (Z.shiftr a 2) 2) (Z.shiftr (Z.lor (Z.shiftl (Z.land a 3) 4) y) 4)) =? a) &&
    (Z.land (Z.lor (Z.shiftl (Z.land a 3) 4) y) 15 =? y) = true) by lia.
  revert a y Ha Hy. apply (range_check2 (fun a y => _) 256 16). vm_compute. reflexivity.
Qed.
Lemma b64_digit2 b z : 0 <= b < 256 -> 0 <= z < 4 ->
  0 <= Z.lor (Z.shiftl (Z.land b 15) 2) z < 64 /\
  u8 (Z.lor (Z.shiftl (Z.shiftr b 4) 4) (Z.shiftr (Z.lor (Z.shiftl (Z.land b 15) 2) z) 2)) = b /\
  Z.land (Z.lor (Z.shiftl (Z.land b 15) 2) z) 3 = z.
Proof.
  intros Hb Hz.
  enough ((0 <=? Z.lor (Z.shiftl (Z.land b 15) 2) z) && (Z.lor (Z.shiftl (Z.land b 15) 2) z <? 64) &&
    (u8 (Z.lor (Z.shiftl (Z.shiftr b 4) 4) (Z.shiftr (Z.lor (Z.shiftl (Z.land b 15) 2) z) 2)) =? b) &&
    (Z.land (Z.lor (Z.shiftl (Z.land b 15) 2) z) 3 =? z) = true) by lia.
  revert b z Hb Hz. apply (range_check2 (fun b z => _) 256 4). vm_compute. reflexivity.
Qed.
Lemma b64_digit3 c : 0 <= c < 256 ->
  0 <= Z.land c 63 < 64 /\ u8 (Z.lor (Z.shiftl (Z.shiftr c 6) 6) (Z.land c 63)) = c.
Proof.
  intros Hc.
  enough ((0 <=? Z.land c 63) && (Z.land c 63 <? 64) &&
    (u8 (Z.lor (Z.shiftl (Z.shiftr c 6) 6) (Z.land c 63)) =? c) = true) by lia.
  revert c Hc. apply (range_check (fun c => _) 256). vm_compute. reflexivity.
Qed.

Ltac digit_step step :=
  rewrite step by done; cbn [Z.eqb Pos.eqb orb];
  repeat match goal with
         | |- context [?a + 1] => match a with Zpos _ => let c := eval cbv in (a + 1) in change (a + 1) with c end
         end.

(** Decode the encoded digits in front of the goal, reading each byte back by the
    facts about the digits in the context. *)
Ltac read_back step :=
  repeat match goal with H : context [Z.lor _ 0] |- _ => rewrite Z.lor_0_r in H end;
  repeat (digit_step step;
    repeat match goal with
           | H : u8 _ = _ |- _ => rewrite H
           | H : Z.land _ _ = _ |- _ => rewrite H
           end).

Ltac split_bytes H :=
  repeat match type of H with
         | Forall is_byte (?x :: _) =>
             let Hx := fresh "Hb" in apply Forall_cons_iff in H as [Hx H]; unfold is_byte in Hx
         end.

(** What the decoder finds at the end of an encoded text. *)
Definition ends64 (m l : Z) (rest : list Z) : Prop :=
  (m = 0 /\ rest = []) \/ (m = 2 /\ l = 0 /\ rest = [61; 61]) \/ (m = 3 /\ l = 0 /\ rest = [61]).

Lemma decode_encode64_loop n pch l0 l1 :
  (length pch <= n)%nat -> Forall is_byte pch ->
  exists m l rest,
    DecodeBase64_loop 0 l0 (EncodeBase64_loop 0 l1 pch) = (pch, m, l, rest) /\ ends64 m l rest.
Proof.
  unfold ends64. revert pch l0 l1. induction n as [n IH] using lt_wf_ind. intros pch l0 l1 Hn Hb.
  destruct pch as [|a [|b [|c t]]]; split_bytes Hb.
  - exists 0, l0, []. cbn. auto.
  - destruct (b64_digit1 a 0) as (? & ? & ? & ?); [lia..|].
    exists 2, 0, [61; 61]. cbn [EncodeBase64_loop Z.eqb Pos.eqb]. read_back decode64_step. cbn. auto 10.
  - pose proof (byte_shr b 4 ltac:(done) ltac:(lia)).
    destruct (b64_digit1 a (Z.shiftr b 4)) as (? & ? & ? & ?); [lia..|].
    destruct (b64_digit2 b 0) as (? & ? & ?); [lia..|].
    exists 3, 0, [61]. cbn [EncodeBase64_loop Z.eqb Pos.eqb]. read_back decode64_step. cbn. auto 10.
  - pose proof (byte_shr b 4 ltac:(done) ltac:(lia)). pose proof (byte_shr c 6 ltac:(done) ltac:(lia)).
    destruct (b64_digit1 a (Z.shiftr b 4)) as (? & ? & ? & ?); [lia..|].
    destruct (b64_digit2 b (Z.shiftr c 6)) as (? & ? & ?); [lia..|].
    destruct (b64_digit3 c) as (? & ?); [lia|]. cbn [length] in Hn.
    destruct (IH (length t) ltac:(lia) t (Z.shiftr c 6) (Z.shiftl (Z.land b 15) 2) ltac:(lia) Hb)
      as (m & l & rest & He & Hends).
    exists m, l, rest. split; [|done]. cbn [EncodeBase64_loop Z.eqb Pos.eqb].
    read_back decode64_step. by rewrite He.
Qed.

(** *** Base32 *)

Lemma decode32_step mode l i t :
  0 <= i < 32 ->
  DecodeBase32_loop mode l (b32 i :: t) =
  if mode =? 0 then DecodeBase32_loop 1 i t
  else if mode =? 2 then DecodeBase32_loop 3 (Z.lor (Z.shiftl l 5) i) t
  else if mode =? 5 then DecodeBase32_loop 6 (Z.lor (Z.shiftl l 5) i) t
  else
    let '(out, l') :=
      if mode =? 1 then (u8 (Z.lor (Z.shiftl l 3) (Z.shiftr i 2)), Z.land i 3)
      else if mode =? 3 then (u8 (Z.lor (Z.shiftl l 1) (Z.shiftr i 4)), Z.land i 15)
      else if mode =? 4 then (u8 (Z.lor (Z.shiftl l 4) (Z.shiftr i 1)), Z.land i 1)
      else if mode =? 6 then (u8 (Z.lor (Z.shiftl l 2) (Z.shiftr i 3)), Z.land i 7)
      else (u8 (Z.lor (Z.shiftl l 5) i), l) in
    let '(vch, m, l, rest) := DecodeBase32_loop (if mode =? 7 then 0 else mode + 1) l' t in
    (out :: vch, m, l, rest).
Proof.
  intros Hi. cbn [DecodeBase32_loop]. rewrite dec32_b32 by done.
  by destruct (Z.eqb_spec i (-1)); [lia|].
Qed.

(** The digit that joins the low bits [x] of one byte with the high bits [y] of
    the next, and what decoding recovers from it. *)
Lemma b32_digit1 a y : 0 <= a < 256 -> 0 <= y < 4 ->
  0 <= Z.shiftr a 3 < 32 /\ 0 <= Z.lor (Z.shiftl (Z.land a 7) 2) y < 32 /\
  u8 (Z.lor (Z.shiftl (Z.shiftr a 3) 3) (Z.shiftr (Z.lor (Z.shiftl (Z.land a 7) 2) y) 2)) = a /\ Z.land (Z.lor (Z.shiftl (Z.land a 7) 2) y) 3 = y.
Proof.
  intros Hx Hy.
  enough ((0 <=? Z.shiftr a 3) && (Z.shiftr a 3 <? 32) && (0 <=? Z.lor (Z.shiftl (Z.land a 7) 2) y) && (Z.lor (Z.shiftl (Z.land a 7) 2) y <? 32) &&
    (u8 (Z.lor (Z.shiftl (Z.shiftr a 3) 3) (Z.shiftr (Z.lor (Z.shiftl (Z.land a 7) 2) y) 2)) =? a) && (Z.land (Z.lor (Z.shiftl (Z.land a 7) 2) y) 3 =? y) = true) by lia.
  revert a y Hx Hy. apply (range_check2 (fun a y => _) 256 4). vm_compute. reflexivity.
Qed.
Lemma b32_digit2 b y : 0 <= b < 256 -> 0 <= y < 16 ->
  0 <= Z.land (Z.shiftr b 1) 31 < 32 /\ 0 <= Z.lor (Z.shiftl (Z.land b 1) 4) y < 32 /\
  u8 (Z.lor (Z.shiftl (Z.lor (Z.shiftl (Z.shiftr b 6) 5) (Z.land (Z.shiftr b 1) 31)) 1) (Z.shiftr (Z.lor (Z.shiftl (Z.land b 1) 4) y) 4)) = b /\ Z.land (Z.lor (Z.shiftl (Z.land b 1) 4) y) 15 = y.
Proof.
  intros Hx Hy.
  enough ((0 <=? Z.land (Z.shiftr b 1) 31) && (Z.land (Z.shiftr b 1) 31 <? 32) && (0 <=? Z.lor (Z.shiftl (Z.land b 1) 4) y) && (Z.lor (Z.shiftl (Z.land b 1) 4) y <? 32) &&
    (u8 (Z.lor (Z.shiftl (Z.lor (Z.shiftl (Z.shiftr b 6) 5) (Z.land (Z.shiftr b 1) 31)) 1) (Z.shiftr (Z.lor (Z.shiftl (Z.land b 1) 4) y) 4)) =? b) && (Z.land (Z.lor (Z.shiftl (Z.land b 1) 4) y) 15 =? y) = true) by lia.
  revert b y Hx Hy. apply (range_check2 (fun b y => _) 256 16). vm_compute. reflexivity.
Qed.
Lemma b32_digit3 c y : 0 <= c < 256 -> 0 <= y < 2 ->
  0 <= Z.lor (Z.shiftl (Z.land c 15) 1) y < 32 /\
  u8 (Z.lor (Z.shiftl (Z.shiftr c 4) 4) (Z.shiftr (Z.lor (Z.shiftl (Z.land c 15) 1) y) 1)) = c /\ Z.land (Z.lor (Z.shiftl (Z.land c 15) 1) y) 1 = y.
Proof.
  intros Hx Hy.
  enough ((0 <=? Z.lor (Z.shiftl (Z.land c 15) 1) y) && (Z.lor (Z.shiftl (Z.land c 15) 1) y <? 32) &&
    (u8 (Z.lor (Z.shiftl (Z.shiftr c 4) 4) (Z.shiftr (Z.lor (Z.shiftl (Z.land c 15) 1) y) 1)) =? c) && (Z.land (Z.lor (Z.shiftl (Z.land c 15) 1) y) 1 =? y) = true) by lia.
  revert c y Hx Hy. apply (range_check2 (fun c y => _) 256 2). vm_compute. reflexivity.
Qed.
Lemma b32_digit4 d y : 0 <= d < 256 -> 0 <= y < 8 ->
  0 <= Z.land (Z.shiftr d 2) 31 < 32 /\ 0 <= Z.lor (Z.shiftl (Z.land d 3) 3) y < 32 /\
  u8 (Z.lor (Z.shiftl (Z.lor (Z.shiftl (Z.shiftr d 7) 5) (Z.land (Z.shiftr d 2) 31)) 2) (Z.shiftr (Z.lor (Z.shiftl (Z.land d 3) 3) y) 3)) = d /\ Z.land (Z.lor (Z.shiftl (Z.land d 3) 3) y) 7 = y.
Proof.
  intros Hx Hy.
  enough ((0 <=? Z.land (Z.shiftr d 2) 31) && (Z.land (Z.shiftr d 2) 31 <? 32) && (0 <=? Z.lor (Z.shiftl (Z.land d 3) 3) y) && (Z.lor (Z.shiftl (Z.land d 3) 3) y <? 32) &&
    (u8 (Z.lor (Z.shiftl (Z.lor (Z.shiftl (Z.shiftr d 7) 5) (Z.land (Z.shiftr d 2) 31)) 2) (Z.shiftr (Z.lor (Z.shiftl (Z.land d 3) 3) y) 3)) =? d) && (Z.land (Z.lor (Z.shiftl (Z.land d 3) 3) y) 7 =? y) = true) by lia.
  revert d y Hx Hy. apply (range_check2 (fun d y => _) 256 8). vm_compute. reflexivity.
Qed.
Lemma b32_digit5 e : 0 <= e < 256 ->
  0 <= Z.land e 31 < 32 /\ u8 (Z.lor (Z.shiftl (Z.shiftr e 5) 5) (Z.land e 31)) = e.
Proof.
  intros Hx.
  enough ((0 <=? Z.land e 31) && (Z.land e 31 <? 32) &&
    (u8 (Z.lor (Z.shiftl (Z.shiftr e 5) 5) (Z.land e 31)) =? e) = true) by lia.
  revert e Hx. apply (range_check (fun e => _) 256). vm_compute. reflexivity.
Qed.

Definition ends32 (m l : Z) (rest : list Z) : Prop :=
  (m = 0 /\ rest = []) \/
  exists k, In (m, k) [(2, 6%nat); (4, 4%nat); (5, 3%nat); (7, 1%nat)] /\ l = 0 /\ rest = replicate k 61.

Lemma decode_encode32_loop n pch l0 l1 :
  (length pch <= n)%nat -> Forall is_byte pch ->
  exists m l rest,
    DecodeBase32_loop 0 l0 (EncodeBase32_loop 0 l1 pch) = (pch, m, l, rest) /\ ends32 m l rest.
Proof.
  unfold ends32. revert pch l0 l1. induction n as [n IH] using lt_wf_ind. intros pch l0 l1 Hn Hb.
  destruct pch as [|a [|b [|c [|d [|e t]]]]]; split_bytes Hb;
    try (pose proof (byte_shr b 6 ltac:(done) ltac:(lia)));
    try (pose proof (byte_shr c 4 ltac:(done) ltac:(lia)));
    try (pose proof (byte_shr d 7 ltac:(done) ltac:(lia)));
    try (pose proof (byte_shr e 5 ltac:(done) ltac:(lia))).
  - exists 0, l0, []. cbn. eauto.
  - destruct (b32_digit1 a 0) as (? & ? & ? & ?); [lia..|].
    exists 2, 0, (replicate 6 61). cbn [EncodeBase32_loop Z.eqb Pos.eqb]. read_back decode32_step.
    cbn. split; [done|]. right. exists 6%nat. cbn. auto 10.
  - destruct (b32_digit1 a (Z.shiftr b 6)) as (? & ? & ? & ?); [lia..|].
    destruct (b32_digit2 b 0) as (? & ? & ? & ?); [lia..|].
    exists 4, 0, (replicate 4 61). cbn [EncodeBase32_loop Z.eqb Pos.eqb]. read_back decode32_step.
    cbn. split; [done|]. right. exists 4%nat. cbn. auto 10.
  - destruct (b32_digit1 a (Z.shiftr b 6)) as (? & ? & ? & ?); [lia..|].
    destruct (b32_digit2 b (Z.shiftr c 4)) as (? & ? & ? & ?); [lia..|].
    destruct (b32_digit3 c 0) as (? & ? & ?); [lia..|].
    exists 5, 0, (replicate 3 61). cbn [EncodeBase32_loop Z.eqb Pos.eqb]. read_back decode32_step.
    cbn. split; [done|]. right. exists 3%nat. cbn. auto 10.
  - destruct (b32_digit1 a (Z.shiftr b 6)) as (? & ? & ? & ?); [lia..|].
    destruct (b32_digit2 b (Z.shiftr c 4)) as (? & ? & ? & ?); [lia..|].
    destruct (b32_digit3 c (Z.shiftr d 7)) as (? & ? & ?); [lia..|].
    destruct (b32_digit4 d 0) as (? & ? & ? & ?); [lia..|].
    exists 7, 0, (replicate 1 61). cbn [EncodeBase32_loop Z.eqb Pos.eqb]. read_back decode32_step.
    cbn. split; [done|]. right. exists 1%nat. cbn. auto 10.
  - destruct (b32_digit1 a (Z.shiftr b 6)) as (? & ? & ? & ?); [lia..|].
    destruct (b32_digit2 b (Z.shiftr c 4)) as (? & ? & ? & ?); [lia..|].
    destruct (b32_digit3 c (Z.shiftr d 7)) as (? & ? & ?); [lia..|].
    destruct (b32_digit4 d (Z.shiftr e 5)) as (? & ? & ? & ?); [lia..|].
    destruct (b32_digit5 e) as (? & ?); [lia|]. cbn [length] in Hn.
    destruct (IH (length t) ltac:(lia) t (Z.shiftr e 5) (Z.shiftl (Z.land d 3) 3) ltac:(lia) Hb)
      as (m & l & rest & He & Hends).
    exists m, l, rest. split; [|done]. cbn [EncodeBase32_loop Z.eqb Pos.eqb].
    read_back decode32_step. by rewrite He.
Qed.

(** Decoding an encoded byte string gives it back, with the validity flag
    down, for base64 and for base32, whatever the length modulo the group size. *)
Theorem base_encodings_roundtrip (pch : list Z) (Hb : Forall is_byte pch) :
  DecodeBase64 (EncodeBase64 pch) = (pch, false) /\
  DecodeBase32 (EncodeBase32 pch) = (pch, false).
Proof.
  split.
  - destruct (decode_encode64_loop (length pch) pch 0 0 ltac:(lia) Hb) as (m & l & rest & He & Hends).
    unfold DecodeBase64, EncodeBase64. rewrite He.
    destruct Hends as [[-> ->] | [(-> & -> & ->) | (-> & -> & ->)]]; reflexivity.
  - destruct (decode_encode32_loop (length pch) pch 0 0 ltac:(lia) Hb) as (m & l & rest & He & Hends).
    unfold DecodeBase32, EncodeBase32. rewrite He.
    destruct Hends as [[-> ->] | (k & Hk & -> & ->)]; [reflexivity|].
    cbn in Hk. destruct_or! Hk; simplify_eq; reflexivity.
Qed.
Lemma base_encodings_roundtrip_witness :
  DecodeBase64 (EncodeBase64 [102; 111; 255; 0]) = ([102; 111; 255; 0], false) /\
  DecodeBase32 (EncodeBase32 [102; 111; 255; 0]) = ([102; 111; 255; 0], false).
Proof. apply base_encodings_roundtrip. repeat constructor; unfold is_byte; lia. Defined.

(** *** Hexadecimal *)

Lemma HexDigit_hexmap i : 0 <= i < 16 ->
  HexDigit (nth (Z.to_nat i) hexmap 0) = i /\ isspace (nth (Z.to_nat i) hexmap 0) = false.
Proof.
  intros Hi.
  enough ((HexDigit (nth (Z.to_nat i) hexmap 0) =? i) && negb (isspace (nth (Z.to_nat i) hexmap 0)) = true) as E.
  { apply andb_true_iff in E as [E1 E2]. apply Z.eqb_eq in E1. by apply negb_true_iff in E2. }
  revert i Hi. by apply (range_check (fun i => _) 16).
Qed.

Lemma byte_nibbles x : is_byte x ->
  0 <= Z.shiftr x 4 < 16 /\ 0 <= Z.land x 15 < 16 /\ u8 (Z.lor (u8 (Z.shiftl (Z.shiftr x 4) 4)) (Z.land x 15)) = x.
Proof.
  intros Hx.
  enough ((0 <=? Z.shiftr x 4) && (Z.shiftr x 4 <? 16) && (0 <=? Z.land x 15) && (Z.land x 15 <? 16) &&
    (u8 (Z.lor (u8 (Z.shiftl (Z.shiftr x 4) 4)) (Z.land x 15)) =? x) = true) by lia.
  revert x Hx. by apply (range_check (fun x => _) 256).
Qed.

Lemma ParseHex_HexStr_loop first sp v fuel :
  Forall is_byte v -> (length v < fuel)%nat -> ParseHex_loop fuel (HexStr_loop first sp v) = v.
Proof.
  intros Hv. revert first fuel. induction Hv as [|x t Hx Ht IH]; intros first fuel Hf.
  - by destruct fuel.
  - destruct fuel as [|fuel]; [lia|]. cbn [length] in Hf.
    destruct (byte_nibbles x Hx) as (N1 & N2 & N3).
    destruct (HexDigit_hexmap _ N1) as [D1 S1], (HexDigit_hexmap _ N2) as [D2 S2].
    cbn [HexStr_loop ParseHex_loop].
    rewrite drop_while_app by (destruct (sp && negb first); repeat constructor).
    cbn [drop_while]. rewrite S1, D1, D2.
    destruct (Z.eqb_spec (Z.shiftr x 4) (-1)), (Z.eqb_spec (Z.land x 15) (-1)); try lia.
    by rewrite N3, IH by lia.
Qed.

(** [ParseHex] reads back what [HexStr] prints, with or without spaces between
    the bytes. *)
Theorem ParseHex_HexStr (v : list Z) (sp : bool) (Hv : Forall is_byte v) :
  ParseHex (HexStr v sp) = v.
Proof.
  apply ParseHex_HexStr_loop; [done|].
  assert (forall first, (length v <= length (HexStr_loop first sp v))%nat) as H; [|specialize (H true); unfold HexStr; lia].
  clear Hv. induction v as [|x t IH]; intros first; [done|].
  cbn [HexStr_loop length]. rewrite length_app. cbn [length]. specialize (IH false). lia.
Qed.
Lemma ParseHex_HexStr_witness : ParseHex (HexStr [0; 171; 255] true) = [0; 171; 255].
Proof. apply ParseHex_HexStr. repeat constructor; unfold is_byte; lia. Defined.

(** The fuel of [ParseHex] is no restriction: it never runs out. *)
Lemma drop_while_length {A} (p : A -> bool) l : (length (drop_while p l) <= length l)%nat.
Proof. induction l as [|x t IH]; cbn; [lia|]. destruct (p x); cbn; lia. Qed.
Lemma ParseHex_loop_fuel f1 f2 psz :
  (length psz < f1)%nat -> (length psz < f2)%nat -> ParseHex_loop f1 psz = ParseHex_loop f2 psz.
Proof.
  revert f2 psz. induction f1 as [|f1 IH]; intros f2 psz H1 H2; [lia|]. destruct f2 as [|f2]; [lia|].
  cbn [ParseHex_loop]. pose proof (drop_while_length isspace psz).
  destruct (drop_while isspace psz) as [|c1 [|c2 t]]; [done|done|]. cbn [length] in *.
  by rewrite (IH f2) by lia.
Qed.

(** *** Constant-time comparison *)

(** [TimingResistantEqual] is equality of the two byte strings, although it
    compares with [b] repeated when the lengths differ. *)
Theorem TimingResistantEqual_spec (a b : list Z) :
  TimingResistantEqual a b = true <-> a = b.
Proof.
  unfold TimingResistantEqual. destruct (Z.eqb_spec (Z.of_nat (length b)) 0) as [Hb|Hb].
  { assert (b = []) as -> by (destruct b; [done|cbn in Hb; lia]).
    rewrite Z.eqb_eq. split; [destruct a; [done|cbn; lia] | by intros ->]. }
  set (f := fun acc i => _). set (acc0 := Z.lxor _ _).
  assert (forall n, for_range n f acc0 = 0 <->
    length a = length b /\ forall i, (i < n)%nat -> nth i a 0 = nth (i mod length b) b 0) as H.
  { induction n as [|n IH]; [unfold acc0; cbn; rewrite Z.lxor_eq_0_iff; split; [intros; split; lia|lia]|].
    rewrite for_range_S. unfold f at 1. rewrite Z.lor_eq_0_iff, Z.lxor_eq_0_iff, IH. split.
    - intros [[Hl Hi] Hn]. split; [done|]. intros i Hin.
      destruct (decide (i = n)) as [->|]; [done|]. apply Hi. lia.
    - intros [Hl Hi]. split; [split; [done|]|]; intros; apply Hi; lia. }
  rewrite Z.eqb_eq, H. split.
  - intros [Hl Hi]. apply (List.nth_ext _ _ 0 0); [done|]. intros n Hn. rewrite Hi by done.
    f_equal. apply Nat.mod_small. lia.
  - intros ->. split; [done|]. intros i Hi. f_equal. symmetry. by apply Nat.mod_small.
Qed.
