(* ===== verification/Compact.v ===== *)
(** The compact ("nBits") encoding of difficulty targets,
    [uint256::SetCompact] and [uint256::GetCompact] of [src/src/uint256.cpp], and
    the textual form of integers, [GetHex] and [SetHex] of the same file. *)
From S2P Require Import Prelude Uint256 Encodings.
Import base_uint.

(** [uint256] is [base_uint<256>]. *)
Definition WIDTH256 : nat := 8.
Definition uint256_ok (x : list Z) : Prop := limbs_ok WIDTH256 x.

(** [SetCompact(nCompact, &fNegative, &fOverflow)]: the number and the two flags. *)
Definition SetCompact (nCompact : Z) : list Z * bool * bool :=
  let nSize := Z.shiftr nCompact 24 in
  let nWord := Z.land nCompact 0x007fffff in
  let '(self, nWord) :=
    if nSize <=? 3 then
      let nWord := Z.shiftr nWord (8 * (3 - nSize)) in
      (of_uint64 WIDTH256 nWord, nWord)
    else
      (shl WIDTH256 (of_uint64 WIDTH256 nWord) (8 * (nSize - 3)), nWord) in
  let pfNegative := negb (nWord =? 0) && negb (Z.land nCompact 0x00800000 =? 0) in
  let pfOverflow := negb (nWord =? 0) &&
    ((nSize >? 34) || ((nWord >? 0xff) && (nSize >? 33)) || ((nWord >? 0xffff) && (nSize >? 32))) in
  (self, pfNegative, pfOverflow).

(** [GetCompact(fNegative)]; [None] is a failed [assert]. *)
Definition GetCompact (self : list Z) (fNegative : bool) : option Z :=
  let nSize := (bits WIDTH256 self + 7) / 8 in
  let nCompact :=
    if nSize <=? 3 then u32 (u64 (Z.shiftl (get_low64 self) (8 * (3 - nSize))))
    else u32 (get_low64 (shr WIDTH256 self (8 * (nSize - 3)))) in
  let '(nCompact, nSize) :=
    if negb (Z.land nCompact 0x00800000 =? 0) then (Z.shiftr nCompact 8, nSize + 1)
    else (nCompact, nSize) in
  if negb (Z.land nCompact (u32 (Z.lnot 0x007fffff)) =? 0) then None
  else if negb (nSize <? 256) then None
  else
    let nCompact := Z.lor nCompact (Z.shiftl nSize 24) in
    Some (Z.lor nCompact
      (if fNegative && negb (Z.land nCompact 0x007fffff =? 0) then 0x00800000 else 0)).

(** [GetHex]: two digits per byte, most significant byte first. The object is
    seen as its bytes in memory, limbs and bytes both little-endian. *)
Definition memory (self : list Z) : list Z := concat (map (le_bytes 4) self).
Definition GetHex (self : list Z) : list Z := HexStr (rev (memory self)) false.

(** [SetHex]: the nibbles of [digits], last digit first, into [n] bytes. *)
Fixpoint SetHex_loop (n : nat) (digits : list Z) : list Z :=
  match n with
  | O => []
  | S n' =>
      match digits with
      | [] => 0 :: SetHex_loop n' []
      | [d] => HexDigit d :: SetHex_loop n' []
      | d :: d' :: t => Z.lor (HexDigit d) (u8 (Z.shiftl (HexDigit d') 4)) :: SetHex_loop n' t
      end
  end.

(** The bytes written back as limbs. *)
Fixpoint limbs_of_memory (n : nat) (b : list Z) : list Z :=
  match n with
  | O => []
  | S n' => of_le_bytes (take 4 b) :: limbs_of_memory n' (drop 4 b)
  end.

Definition SetHex (n : nat) (psz : list Z) : list Z :=
  let psz := drop_while isspace psz in
  let psz := if (nth 0 psz 0 =? 48) && (tolower (nth 1 psz 0) =? 120) then drop 2 psz else psz in
  let digits := take_while (fun c => negb (HexDigit c =? -1)) psz in
  limbs_of_memory n (SetHex_loop (4 * n) (rev digits)).

(** ** The numbers the encoding stands for *)

(** The value of a code, as the comment in [uint256.h] gives it:
    mantissa times [256 ^ (exponent - 3)], as an unbounded integer. *)
Definition compact_value (c : Z) : Z :=
  let e := c / 2 ^ 24 in
  let w := c mod 2 ^ 23 in
  if e <=? 3 then w / 2 ^ (8 * (3 - e)) else w * 2 ^ (8 * (e - 3)).

(** The code of a number: leading three bytes and length, two bytes when the
    leading one would set the sign bit. *)
Definition compact_parts (v : Z) : Z * Z :=
  let e := (nbits v + 7) / 8 in
  let w := if e <=? 3 then v * 2 ^ (8 * (3 - e)) else v / 2 ^ (8 * (e - 3)) in
  if 2 ^ 23 <=? w then (w / 2 ^ 8, e + 1) else (w, e).
Definition compact_code (v : Z) : Z := let '(w, e) := compact_parts v in w + e * 2 ^ 24.

Lemma compact_fields c : is_u32 c ->
  Z.shiftr c 24 = c / 2 ^ 24 /\ 0 <= c / 2 ^ 24 < 256 /\
  Z.land c 0x007fffff = c mod 2 ^ 23 /\ 0 <= c mod 2 ^ 23 < 2 ^ 23.
Proof.
  intros Hc. unfold is_u32 in Hc. change 0x007fffff with (2 ^ 23 - 1).
  rewrite Z.shiftr_div_pow2, (land_ones_mod c 23) by lia.
  repeat split; try (Z.to_euclidean_division_equations; lia).
Qed.

Lemma pow8_bounds k : 0 <= k -> 0 < 2 ^ (8 * k).
Proof. intros. apply Z.pow_pos_nonneg; lia. Qed.

Lemma val_small_uint256 w : 0 <= w < 2 ^ 64 ->
  uint256_ok (of_uint64 WIDTH256 w) /\ val (of_uint64 WIDTH256 w) = w.
Proof. intros Hw. split; [by apply of_uint64_ok; unfold WIDTH256; lia | by apply val_of_uint64]. Qed.

(** A quotient by a power of two stays in range. *)
Lemma div_pow_range w k n : 0 <= w < n -> 0 <= k -> 0 <= w / 2 ^ k < n.
Proof.
  intros Hw Hk. pose proof (Z.pow_pos_nonneg 2 k). split; [apply Z.div_pos; lia|].
  apply Z.div_lt_upper_bound; [lia|]. nia.
Qed.

(** The number of bytes of a positive number. *)
Definition byte_len (v : Z) : Z := (nbits v + 7) / 8.

Lemma byte_len_bounds v : 0 < v -> 1 <= byte_len v /\ 2 ^ (8 * (byte_len v - 1)) <= v < 2 ^ (8 * byte_len v).
Proof.
  intros Hv. destruct (nbits_log2_bound v) as (N0 & N1 & N2); [lia|]. specialize (N2 ltac:(lia)).
  unfold byte_len. set (n := nbits v) in *.
  assert (0 < n) by (destruct (Z.eq_dec n 0) as [E|]; [rewrite E in N1|]; lia).
  assert (8 * ((n + 7) / 8) - 7 <= n <= 8 * ((n + 7) / 8)) by (Z.to_euclidean_division_equations; lia).
  split; [lia|]. split.
  - etransitivity; [|exact N2]. apply Z.pow_le_mono_r; lia.
  - eapply Z.lt_le_trans; [exact N1|]. apply Z.pow_le_mono_r; lia.
Qed.
Lemma byte_len_unique v s : 1 <= s -> 2 ^ (8 * (s - 1)) <= v < 2 ^ (8 * s) -> byte_len v = s.
Proof.
  intros Hs Hv. pose proof (pow8_bounds (s - 1)). destruct (byte_len_bounds v) as (B0 & B1 & B2); [lia|].
  assert (8 * (s - 1) < 8 * byte_len v) by (apply (Z.pow_lt_mono_r_iff 2); lia).
  assert (8 * (byte_len v - 1) < 8 * s) by (apply (Z.pow_lt_mono_r_iff 2); lia). lia.
Qed.
Lemma byte_len_le v n : 0 <= n -> 0 <= v < 2 ^ (8 * n) -> byte_len v <= n.
Proof.
  intros Hn Hv. pose proof (nbits_le v (8 * n) ltac:(lia) Hv). unfold byte_len.
  Z.to_euclidean_division_equations; lia.
Qed.
Lemma byte_len_0 : byte_len 0 = 0.
Proof. reflexivity. Qed.

Lemma pow8_split a b : 0 <= a -> 0 <= b -> 2 ^ (8 * (a + b)) = 2 ^ (8 * a) * 2 ^ (8 * b).
Proof. intros. rewrite <- Z.pow_add_r by lia. f_equal. lia. Qed.

(** The three leading bytes [w0] of a positive number of [s] bytes. *)
Lemma leading_bytes v : 0 < v ->
  let s := byte_len v in
  let w0 := if s <=? 3 then v * 2 ^ (8 * (3 - s)) else v / 2 ^ (8 * (s - 3)) in
  2 ^ 16 <= w0 < 2 ^ 24 /\
  (s <= 3 -> w0 = v * 2 ^ (8 * (3 - s))) /\
  (3 < s -> w0 * 2 ^ (8 * (s - 3)) <= v < (w0 + 1) * 2 ^ (8 * (s - 3))).
Proof.
  intros Hv s w0. destruct (byte_len_bounds v Hv) as (B0 & B1 & B2). fold s in B0, B1, B2. unfold w0.
  destruct (Z.leb_spec s 3) as [Hs|Hs].
  - pose proof (pow8_bounds (3 - s) ltac:(lia)).
    assert (2 ^ 16 = 2 ^ (8 * (s - 1)) * 2 ^ (8 * (3 - s))) as E1 by (rewrite <- Z.pow_add_r by lia; f_equal; lia).
    assert (2 ^ 24 = 2 ^ (8 * s) * 2 ^ (8 * (3 - s))) as E2 by (rewrite <- Z.pow_add_r by lia; f_equal; lia).
    rewrite E1, E2. repeat split; try lia; nia.
  - set (d := 2 ^ (8 * (s - 3))). assert (0 < d) by (apply pow8_bounds; lia).
    assert (2 ^ (8 * (s - 1)) = 2 ^ 16 * d) as E1 by (unfold d; rewrite <- Z.pow_add_r by lia; f_equal; lia).
    assert (2 ^ (8 * s) = 2 ^ 24 * d) as E2 by (unfold d; rewrite <- Z.pow_add_r by lia; f_equal; lia).
    rewrite E1 in B1. rewrite E2 in B2.
    pose proof (Z.mul_div_le v d ltac:(lia)). pose proof (Z.mul_succ_div_gt v d ltac:(lia)).
    split; [split; [apply Z.div_le_lower_bound; lia | apply Z.div_lt_upper_bound; lia]|].
    split; [lia|]. intros _. lia.
Qed.

Lemma compact_parts_unfold v :
  compact_parts v =
  let s := byte_len v in
  let w0 := if s <=? 3 then v * 2 ^ (8 * (3 - s)) else v / 2 ^ (8 * (s - 3)) in
  if 2 ^ 23 <=? w0 then (w0 / 2 ^ 8, s + 1) else (w0, s).
Proof. reflexivity. Qed.

(** The fields of the code of a 256-bit number, normalised: either zero, or a
    mantissa of at least [2 ^ 15]. *)
Lemma compact_parts_bounds v w e :
  0 <= v < 2 ^ 256 -> compact_parts v = (w, e) ->
  0 <= w < 2 ^ 23 /\ 0 <= e <= 33 /\ (0 < v -> 2 ^ 15 <= w).
Proof.
  intros Hv. rewrite compact_parts_unfold. cbv zeta.
  destruct (Z.eq_dec v 0) as [->|Hv0].
  { rewrite byte_len_0. cbn. intros [= <- <-]. lia. }
  destruct (leading_bytes v ltac:(lia)) as (L1 & _ & _).
  destruct (byte_len_bounds v ltac:(lia)) as (B0 & _). pose proof (byte_len_le v 32 ltac:(lia) ltac:(lia)).
  set (w0 := if byte_len v <=? 3 then _ else _) in *. clearbody w0.
  destruct (Z.leb_spec (2 ^ 23) w0); intros [= <- <-]; [|lia].
  Z.to_euclidean_division_equations; lia.
Qed.

(** Decoding the fields. *)
Lemma compact_value_fields w e : 0 <= w < 2 ^ 23 -> 0 <= e ->
  compact_value (w + e * 2 ^ 24) = if e <=? 3 then w / 2 ^ (8 * (3 - e)) else w * 2 ^ (8 * (e - 3)).
Proof.
  intros Hw He. unfold compact_value.
  replace ((w + e * 2 ^ 24) / 2 ^ 24) with e by (Z.to_euclidean_division_equations; lia).
  replace ((w + e * 2 ^ 24) mod 2 ^ 23) with w by (Z.to_euclidean_division_equations; lia).
  reflexivity.
Qed.

Lemma truncation_error Q D v :
  0 < D -> 2 ^ 15 <= Q -> Q * D <= v < (Q + 1) * D ->
  Q * D <= v /\ (v - Q * D) * 2 ^ 15 <= v /\ 2 ^ 15 * D <= Q * D.
Proof. intros HD HQ Hv. assert (2 ^ 15 * D <= Q * D) by (apply Z.mul_le_mono_pos_r; lia). lia. Qed.
Lemma widen_truncation w Q d v :
  0 < d -> 2 ^ 8 * Q <= w < 2 ^ 8 * (Q + 1) -> w * d <= v < (w + 1) * d ->
  Q * (2 ^ 8 * d) <= v < (Q + 1) * (2 ^ 8 * d).
Proof.
  intros Hd HQ Hv. assert (2 ^ 8 * Q * d <= w * d) by (apply Z.mul_le_mono_pos_r; lia).
  assert ((w + 1) * d <= 2 ^ 8 * (Q + 1) * d) by (apply Z.mul_le_mono_pos_r; lia). lia.
Qed.

(** What encoding loses: the value read back is the number truncated to its
    leading bytes. *)
Lemma compact_truncates v :
  0 < v < 2 ^ 256 ->
  let t := compact_value (compact_code v) in
  t <= v /\ (v - t) * 2 ^ 15 <= v /\ 2 ^ (8 * (byte_len v - 1)) <= t /\
  exists w e, compact_parts v = (w, e) /\
    ((byte_len v <= 2 /\ t = v) \/ (3 <= e /\ t = w * 2 ^ (8 * (e - 3)))).
Proof.
  intros Hv t. unfold t, compact_code. destruct (compact_parts v) as [w e] eqn:E.
  destruct (compact_parts_bounds v w e ltac:(lia) E) as (W1 & E1 & _).
  rewrite compact_value_fields by lia. rewrite compact_parts_unfold in E. cbv zeta in E.
  destruct (leading_bytes v ltac:(lia)) as (L1 & L2 & L3). cbv zeta in L1, L2, L3.
  destruct (byte_len_bounds v ltac:(lia)) as (B0 & B1 & B2).
  set (s := byte_len v) in *. set (w0 := if s <=? 3 then _ else _) in *. clearbody w0.
  assert (s <= 2 \/ s = 3 \/ 3 < s) as [Hs|[Hs|Hs]] by lia.
  - (* nothing is lost *)
    specialize (L2 ltac:(lia)).
    assert ((if e <=? 3 then w / 2 ^ (8 * (3 - e)) else w * 2 ^ (8 * (e - 3))) = v) as ->.
    { destruct (Z.leb_spec (2 ^ 23) w0); injection E as <- <-.
      - destruct (Z.leb_spec (s + 1) 3); [|lia].
        replace (3 - s) with (1 + (3 - (s + 1))) in L2 by lia. rewrite pow8_split in L2 by lia.
        rewrite L2. change (2 ^ (8 * 1)) with (2 ^ 8).
        replace (v * (2 ^ 8 * 2 ^ (8 * (3 - (s + 1))))) with (v * 2 ^ (8 * (3 - (s + 1))) * 2 ^ 8) by ring.
        rewrite Z.div_mul by lia. apply Z.div_mul. pose proof (pow8_bounds (3 - (s + 1))). lia.
      - destruct (Z.leb_spec s 3); [|lia]. rewrite L2. apply Z.div_mul. pose proof (pow8_bounds (3 - s)). lia. }
    split; [lia|]. split; [lia|]. split; [lia|]. exists w, e. auto.
  - specialize (L2 ltac:(lia)). rewrite Hs in L2. rewrite Z.mul_1_r in L2. subst w0.
    destruct (Z.leb_spec (2 ^ 23) v); injection E as <- <-; rewrite Hs.
    + destruct (Z.leb_spec (3 + 1) 3); [lia|].
      change (2 ^ (8 * (3 + 1 - 3))) with (2 ^ 8). change (2 ^ (8 * (3 - 1))) with (2 ^ 16).
      repeat split; try (Z.to_euclidean_division_equations; lia).
      eexists _, _. split; [done|]. right. split; [lia|]. reflexivity.
    + destruct (Z.leb_spec 3 3); [|lia]. change (2 ^ (8 * (3 - 3))) with 1.
      rewrite Z.div_1_r. rewrite Hs in B1. repeat split; try lia.
      eexists _, _. split; [done|]. right. split; [lia|]. change (2 ^ (8 * (3 - 3))) with 1. lia.
  - specialize (L3 ltac:(lia)). set (d := 2 ^ (8 * (s - 3))) in *.
    assert (0 < d) by (apply pow8_bounds; lia).
    assert (2 ^ (8 * (s - 1)) = 2 ^ 16 * d) as E2 by (unfold d; rewrite <- Z.pow_add_r by lia; f_equal; lia).
    destruct (Z.leb_spec (2 ^ 23) w0) as [Hw|Hw]; injection E as <- <-.
    + destruct (Z.leb_spec (s + 1) 3); [lia|].
      assert (2 ^ (8 * (s + 1 - 3)) = 2 ^ 8 * d) as -> by (unfold d; rewrite <- Z.pow_add_r by lia; f_equal; lia).
      pose proof (Z.mul_div_le w0 (2 ^ 8) ltac:(lia)). pose proof (Z.mul_succ_div_gt w0 (2 ^ 8) ltac:(lia)).
      destruct (truncation_error (w0 / 2 ^ 8) (2 ^ 8 * d) v) as (T1 & T2 & T3);
        [lia | lia | apply (widen_truncation w0); lia |]. rewrite E2.
      split; [done|]. split; [done|]. split; [lia|].
      eexists _, _. split; [done|]. right. split; [lia|]. 
      assert (2 ^ (8 * (s + 1 - 3)) = 2 ^ 8 * d) as -> by (unfold d; rewrite <- Z.pow_add_r by lia; f_equal; lia). ring.
    + destruct (Z.leb_spec s 3); [lia|]. fold d. rewrite E2.
      destruct (truncation_error w0 d v) as (T1 & T2 & T3); [lia | lia | lia |].
      split; [done|]. split; [done|]. split; [apply Z.mul_le_mono_pos_r; lia|].
      eexists _, _. split; [done|]. right. split; [lia|]. reflexivity.
Qed.

(** Encoding is stable: the truncated number has the same code. *)
Lemma compact_code_stable v :
  0 < v < 2 ^ 256 -> compact_parts (compact_value (compact_code v)) = compact_parts v.
Proof.
  intros Hv. destruct (compact_truncates v Hv) as (T1 & _ & T2 & w & e & E & Hcases).
  set (t := compact_value (compact_code v)) in *.
  destruct (byte_len_bounds v ltac:(lia)) as (B0 & _ & B2).
  assert (byte_len t = byte_len v) as Hlen by (apply byte_len_unique; lia).
  destruct Hcases as [[_ ->]|[He Ht]]; [done|].
  destruct (compact_parts_bounds v w e ltac:(lia) E) as (W1 & _ & W3). specialize (W3 ltac:(lia)).
  rewrite E. rewrite compact_parts_unfold in E |- *. cbv zeta in E |- *. rewrite Hlen.
  set (s := byte_len v) in *.
  destruct (leading_bytes v ltac:(lia)) as (_ & L2 & _). cbv zeta in L2. fold s in L2.
  destruct (Z.leb_spec (2 ^ 23) (if s <=? 3 then v * 2 ^ (8 * (3 - s)) else v / 2 ^ (8 * (s - 3)))) as [Hw|Hw];
    injection E as Ew Ee.
  - (* two bytes were kept *)
    assert ((if s <=? 3 then t * 2 ^ (8 * (3 - s)) else t / 2 ^ (8 * (s - 3))) = w * 2 ^ 8) as ->.
    { rewrite Ht, <- Ee. destruct (Z.leb_spec s 3) as [Hs|Hs].
      - assert (s = 2 \/ s = 3) as [->| ->] by lia.
        + change (2 ^ (8 * (2 + 1 - 3))) with 1. change (2 ^ (8 * (3 - 2))) with (2 ^ 8). lia.
        + change (2 ^ (8 * (3 + 1 - 3))) with (2 ^ 8). change (2 ^ (8 * (3 - 3))) with 1. lia.
      - replace (s + 1 - 3) with (1 + (s - 3)) by lia. rewrite pow8_split, Z.mul_assoc by lia.
        rewrite Z.div_mul by (pose proof (pow8_bounds (s - 3)); lia). reflexivity. }
    rewrite Z.div_mul by lia. destruct (Z.leb_spec (2 ^ 23) (w * 2 ^ 8)); [congruence | lia].
  - assert ((if s <=? 3 then t * 2 ^ (8 * (3 - s)) else t / 2 ^ (8 * (s - 3))) = w) as ->.
    { rewrite Ht, <- Ee. destruct (Z.leb_spec s 3) as [Hs|Hs].
      - assert (s = 3) as -> by lia. change (2 ^ (8 * (3 - 3))) with 1. lia.
      - apply Z.div_mul. pose proof (pow8_bounds (s - 3)). lia. }
    destruct (Z.leb_spec (2 ^ 23) w); [lia | congruence].
Qed.

(** ** The code refines the encoding *)

Lemma set_compact_overflow w e :
  0 <= w < 2 ^ 23 -> 3 < e ->
  negb (w =? 0) && ((e >? 34) || ((w >? 0xff) && (e >? 33)) || ((w >? 0xffff) && (e >? 32))) =
  (2 ^ 256 <=? w * 2 ^ (8 * (e - 3))).
Proof.
  intros Hw He. pose proof (pow8_bounds (e - 3) ltac:(lia)).
  assert (e <= 32 \/ e = 33 \/ e = 34 \/ 34 < e) as [H1|[->|[->|H1]]] by lia.
  - assert (2 ^ (8 * (e - 3)) <= 2 ^ 232) by (apply Z.pow_le_mono_r; lia).
    assert (w * 2 ^ (8 * (e - 3)) <= 2 ^ 23 * 2 ^ 232) by (apply Z.mul_le_mono_nonneg; lia). lia.
  - change (2 ^ (8 * (33 - 3))) with (2 ^ 240). lia.
  - change (2 ^ (8 * (34 - 3))) with (2 ^ 248). lia.
  - assert (2 ^ 256 <= 2 ^ (8 * (e - 3))) by (apply Z.pow_le_mono_r; lia).
    destruct (Z.eqb_spec w 0) as [->|]; [lia|].
    assert (1 * 2 ^ 256 <= w * 2 ^ (8 * (e - 3))) by (apply Z.mul_le_mono_nonneg; lia). lia.
Qed.

Lemma SetCompact_correct' c :
  is_u32 c ->
  let '(self, fNegative, fOverflow) := SetCompact c in
  uint256_ok self /\ val self = compact_value c mod 2 ^ 256 /\
  fNegative = negb (compact_value c =? 0) && Z.testbit c 23 /\
  fOverflow = (2 ^ 256 <=? compact_value c).
Proof.
  intros Hc. destruct (compact_fields c Hc) as (F1 & F2 & F3 & F4).
  unfold SetCompact, compact_value. rewrite F1, F3.
  set (e := c / 2 ^ 24) in *. set (w := c mod 2 ^ 23) in *.
  change 0x00800000 with (2 ^ 23). rewrite land_pow2_eqb, negb_involutive by lia.
  destruct (Z.leb_spec e 3) as [He|He].
  - rewrite Z.shiftr_div_pow2 by lia.
    pose proof (div_pow_range w (8 * (3 - e)) (2 ^ 23) ltac:(lia) ltac:(lia)) as Hr.
    destruct (val_small_uint256 (w / 2 ^ (8 * (3 - e)))) as [V1 V2]; [lia|].
    split; [done|]. split; [rewrite V2, Z.mod_small by lia; done|]. split; [done|].
    set (q := w / 2 ^ (8 * (3 - e))) in *. lia.
  - destruct (val_small_uint256 w) as [V1 V2]; [lia|].
    destruct (shl_spec WIDTH256 (of_uint64 WIDTH256 w) (8 * (e - 3)) V1 ltac:(lia)) as [S1 S2].
    split; [done|]. split; [rewrite S2, V2; reflexivity|].
    pose proof (pow8_bounds (e - 3) ltac:(lia)). split; [|by apply set_compact_overflow].
    f_equal. destruct (Z.eqb_spec w 0), (Z.eqb_spec (w * 2 ^ (8 * (e - 3))) 0); lia.
Qed.


(** [SetCompact] decodes mantissa and exponent: the number is the coded value
    modulo [2 ^ 256], the overflow flag says exactly whether that value needs more
    than 256 bits, and the negative flag is the sign bit of a non-zero value. *)
Theorem SetCompact_correct (c : Z) (Hc : is_u32 c) :
  let '(self, fNegative, fOverflow) := SetCompact c in
  uint256_ok self /\ val self = compact_value c mod 2 ^ 256 /\
  fNegative = negb (compact_value c =? 0) && Z.testbit c 23 /\
  fOverflow = (2 ^ 256 <=? compact_value c).
Proof. by apply SetCompact_correct'. Qed.
Lemma SetCompact_correct_witness :
  let '(self, fNegative, fOverflow) := SetCompact 0x0600c0de in
  uint256_ok self /\ val self = compact_value 0x0600c0de mod 2 ^ 256 /\
  fNegative = negb (compact_value 0x0600c0de =? 0) && Z.testbit 0x0600c0de 23 /\
  fOverflow = (2 ^ 256 <=? compact_value 0x0600c0de).
Proof. apply (SetCompact_correct 0x0600c0de). unfold is_u32. lia. Defined.

Lemma get_compact_word v :
  0 <= v < 2 ^ 256 ->
  (if byte_len v <=? 3 then u32 (u64 (Z.shiftl (v mod 2 ^ 64) (8 * (3 - byte_len v))))
   else u32 ((v / 2 ^ (8 * (byte_len v - 3))) mod 2 ^ 64)) =
  (if byte_len v <=? 3 then v * 2 ^ (8 * (3 - byte_len v)) else v / 2 ^ (8 * (byte_len v - 3))).
Proof.
  intros Hv. destruct (Z.eq_dec v 0) as [->|]; [reflexivity|].
  destruct (leading_bytes v ltac:(lia)) as (L1 & _ & _). cbv zeta in L1.
  destruct (byte_len_bounds v ltac:(lia)) as (B0 & B1 & B2).
  destruct (Z.leb_spec (byte_len v) 3).
  - assert (2 ^ (8 * byte_len v) <= 2 ^ 24) by (apply Z.pow_le_mono_r; lia).
    rewrite Z.shiftl_mul_pow2, (Z.mod_small v), u64_small, u32_small by lia. reflexivity.
  - rewrite (Z.mod_small (v / _)), u32_small by lia. reflexivity.
Qed.

Lemma GetCompact_correct x neg :
  uint256_ok x ->
  let '(w, e) := compact_parts (val x) in
  GetCompact x neg = Some (compact_code (val x) + if neg && negb (w =? 0) then 2 ^ 23 else 0).
Proof.
  intros Hx. pose proof (val_bound WIDTH256 x Hx) as Hv. change (bmod WIDTH256) with (2 ^ 256) in Hv.
  unfold compact_code. destruct (compact_parts (val x)) as [w e] eqn:E.
  destruct (compact_parts_bounds (val x) w e Hv E) as (W1 & E1 & _).
  unfold GetCompact. rewrite bits_spec by done. fold (byte_len (val x)).
  assert (0 <= byte_len (val x)) as Hb0.
  { destruct (Z.eq_dec (val x) 0) as [->|]; [done|]. destruct (byte_len_bounds (val x)); lia. }
  rewrite (get_low64_spec WIDTH256 x) by (done || unfold WIDTH256; lia).
  assert ((if byte_len (val x) <=? 3 then u32 (u64 (Z.shiftl (val x mod 2 ^ 64) (8 * (3 - byte_len (val x)))))
    else u32 (get_low64 (shr WIDTH256 x (8 * (byte_len (val x) - 3))))) =
    (if byte_len (val x) <=? 3 then val x * 2 ^ (8 * (3 - byte_len (val x)))
     else val x / 2 ^ (8 * (byte_len (val x) - 3)))) as ->.
  { rewrite <- get_compact_word by done. destruct (Z.leb_spec (byte_len (val x)) 3); [done|].
    destruct (shr_spec WIDTH256 x (8 * (byte_len (val x) - 3)) Hx ltac:(lia)) as [S1 S2].
    rewrite (get_low64_spec WIDTH256) by (done || unfold WIDTH256; lia). by rewrite S2. }
  rewrite compact_parts_unfold in E. cbv zeta in E.
  set (w0 := if byte_len (val x) <=? 3 then _ else _) in *.
  assert (0 <= w0 < 2 ^ 24) as Hw0.
  { destruct (Z.eq_dec (val x) 0) as [Hz|]; [unfold w0; rewrite Hz; change (0 <= 0 < 2 ^ 24); lia|].
    destruct (leading_bytes (val x) ltac:(lia)) as (L1 & _). cbv zeta in L1. fold w0 in L1. lia. }
  clearbody w0. change 0x00800000 with (2 ^ 23). rewrite land_pow2_eqb, negb_involutive by lia.
  assert (Z.testbit w0 23 = (2 ^ 23 <=? w0)) as ->.
  { rewrite Z.testbit_odd, Z.shiftr_div_pow2 by lia.
    destruct (Z.leb_spec (2 ^ 23) w0); [by replace (w0 / 2 ^ 23) with 1 by zwrap | by rewrite Z.div_small by lia]. }
  rewrite Z.shiftr_div_pow2 by lia.
  assert ((if 2 ^ 23 <=? w0 then (w0 / 2 ^ 8, byte_len (val x) + 1) else (w0, byte_len (val x))) = (w, e)) as -> by done.
  assert (Z.land w (u32 (Z.lnot 0x007fffff)) = 0) as ->.
  { apply Z.bits_inj'. intros n Hn. change (u32 (Z.lnot 0x007fffff)) with (Z.shiftl (Z.ones 9) 23).
    rewrite Z.land_spec, Z.shiftl_spec, Z.bits_0 by lia. destruct (Z.lt_ge_cases n 23).
    - by rewrite (Z.testbit_neg_r (Z.ones 9)), andb_false_r by lia.
    - by rewrite (testbit_high w 23) by lia. }
  destruct (Z.ltb_spec e 256); [|lia]. cbn [negb Z.eqb].
  rewrite lor_shiftl_add by lia. f_equal.
  change 0x007fffff with (2 ^ 23 - 1). rewrite land_ones_mod by lia.
  replace ((w + e * 2 ^ 24) mod 2 ^ 23) with w by (Z.to_euclidean_division_equations; lia).
  destruct (neg && negb (w =? 0)); [|by rewrite Z.lor_0_r, Z.add_0_r].
  change (2 ^ 23) with (Z.shiftl 1 23) at 1.
  replace (w + e * 2 ^ 24) with (Z.lor w (Z.shiftl e 24)) by (rewrite lor_shiftl_add; lia).
  rewrite <- Z.lor_assoc, (Z.lor_comm _ (Z.shiftl 1 23)), Z.lor_assoc, (lor_shiftl_add w) by lia.
  rewrite lor_shiftl_add by lia. rewrite lor_shiftl_add by lia. lia.
Qed.

Lemma compact_code_range v : 0 <= v < 2 ^ 256 ->
  is_u32 (compact_code v) /\ Z.testbit (compact_code v) 23 = false /\ compact_value (compact_code v) <= v.
Proof.
  intros Hv. destruct (compact_parts v) as [w e] eqn:E.
  destruct (compact_parts_bounds v w e Hv E) as (W1 & E1 & _).
  assert (compact_code v = w + e * 2 ^ 24) as Ec by (unfold compact_code; by rewrite E).
  split; [unfold is_u32; lia|]. split.
  - rewrite Ec. replace (w + e * 2 ^ 24) with (Z.lor w (Z.shiftl e 24)) by (rewrite lor_shiftl_add; lia).
    rewrite Z.lor_spec, Z.shiftl_spec, (Z.testbit_neg_r e), (testbit_high w 23) by lia. reflexivity.
  - destruct (Z.eq_dec v 0) as [->|]; [done|]. by apply (compact_truncates v ltac:(lia)).
Qed.

(** The decoded number of a code without sign and without overflow. *)
Lemma SetCompact_value c :
  is_u32 c -> Z.testbit c 23 = false -> 0 <= compact_value c < 2 ^ 256 ->
  exists t, SetCompact c = (t, false, false) /\ uint256_ok t /\ val t = compact_value c.
Proof.
  intros Hc Hs Hv. pose proof (SetCompact_correct' c Hc) as H.
  destruct (SetCompact c) as [[t n] o]. destruct H as (H1 & H2 & -> & ->).
  exists t. rewrite Hs, andb_false_r. rewrite Z.mod_small in H2 by lia.
  split; [|done]. do 2 f_equal. lia.
Qed.

Lemma compact_value_nonneg c : is_u32 c -> 0 <= compact_value c.
Proof.
  intros Hc. destruct (compact_fields c Hc) as (_ & F2 & _ & F4). unfold compact_value.
  destruct (Z.leb_spec (c / 2 ^ 24) 3).
  - apply (div_pow_range _ _ (2 ^ 23)); lia.
  - pose proof (pow8_bounds (c / 2 ^ 24 - 3)). nia.
Qed.

(** Encoding a 256-bit number never fails an assertion; the code decodes
    without sign or overflow to the number truncated to its leading bytes, losing
    less than one part in [2 ^ 15]; and the truncated number has the same code. *)
Theorem compact_roundtrip (x : list Z) (Hx : uint256_ok x) :
  exists c t,
    GetCompact x false = Some c /\ SetCompact c = (t, false, false) /\ uint256_ok t /\
    val t <= val x /\ (val x - val t) * 2 ^ 15 <= val x /\ GetCompact t false = Some c.
Proof.
  pose proof (val_bound WIDTH256 x Hx) as Hv. change (bmod WIDTH256) with (2 ^ 256) in Hv.
  destruct (compact_code_range (val x) Hv) as (R1 & R2 & R3).
  pose proof (compact_value_nonneg _ R1).
  destruct (SetCompact_value (compact_code (val x)) R1 R2 ltac:(lia)) as (t & T1 & T2 & T3).
  assert (forall y, uint256_ok y -> GetCompact y false = Some (compact_code (val y))) as G.
  { intros y Hy. pose proof (GetCompact_correct y false Hy) as G.
    destruct (compact_parts (val y)) as [w e]. rewrite G. cbn [andb]. by rewrite Z.add_0_r. }
  exists (compact_code (val x)), t. rewrite (G x Hx), (G t T2), T3.
  split; [done|]. split; [done|]. split; [done|]. split; [done|].
  destruct (Z.eq_dec (val x) 0) as [->|Hnz]; [by vm_compute|].
  split; [by apply (compact_truncates (val x) ltac:(lia))|].
  f_equal. unfold compact_code at 1 3. by rewrite (compact_code_stable (val x)) by lia.
Qed.
Lemma compact_roundtrip_witness :
  exists c t,
    GetCompact (of_uint64 8 0x123456789a) false = Some c /\ SetCompact c = (t, false, false) /\ uint256_ok t /\
    val t <= val (of_uint64 8 0x123456789a) /\
    (val (of_uint64 8 0x123456789a) - val t) * 2 ^ 15 <= val (of_uint64 8 0x123456789a) /\
    GetCompact t false = Some c.
Proof. apply (compact_roundtrip (of_uint64 8 0x123456789a)). by apply of_uint64_ok; lia. Defined.

(** ** Text *)

Lemma HexStr_loop_plain_app first a b :
  HexStr_loop first false (a ++ b) = HexStr_loop first false a ++ HexStr_loop false false b.
Proof.
  revert first. induction a as [|x t IH]; intros first.
  - destruct b; [done|]. cbn. by rewrite ?andb_false_l.
  - cbn [app HexStr_loop andb]. by rewrite IH.
Qed.

Lemma HexStr_loop_digits first v :
  Forall is_byte v -> Forall (fun c => negb (HexDigit c =? -1) = true) (HexStr_loop first false v).
Proof.
  intros Hv. revert first. induction Hv as [|x t Hx Ht IH]; intros first; [constructor|].
  destruct (byte_nibbles x Hx) as (N1 & N2 & _).
  destruct (HexDigit_hexmap _ N1) as [D1 _], (HexDigit_hexmap _ N2) as [D2 _].
  cbn [HexStr_loop andb app]. repeat constructor; [| | apply IH].
  - rewrite D1. destruct (Z.eqb_spec (Z.shiftr x 4) (-1)); [lia|done].
  - rewrite D2. destruct (Z.eqb_spec (Z.land x 15) (-1)); [lia|done].
Qed.

Lemma SetHex_loop_HexStr b :
  Forall is_byte b -> SetHex_loop (length b) (rev (HexStr (rev b) false)) = b.
Proof.
  induction 1 as [|x t Hx Ht IH]; [done|]. cbn [rev length].
  destruct (byte_nibbles x Hx) as (N1 & N2 & N3).
  destruct (HexDigit_hexmap _ N1) as [D1 _], (HexDigit_hexmap _ N2) as [D2 _].
  unfold HexStr in *. rewrite HexStr_loop_plain_app, rev_app_distr. cbn [HexStr_loop andb rev app SetHex_loop].
  rewrite D1, D2, IH. f_equal.
  rewrite Z.lor_comm. rewrite u8_small in N3; [done|].
  apply lor_bound; [lia | apply u8_bound | lia].
Qed.

Lemma limbs_of_memory_ok n x :
  limbs_ok n x -> limbs_of_memory n (memory x) = x /\ Forall is_byte (memory x) /\ length (memory x) = (4 * n)%nat.
Proof.
  revert n. induction x as [|a t IH]; intros n H.
  - destruct H as [<- _]. repeat split. constructor.
  - destruct n; [by destruct H|]. apply limbs_ok_cons in H as [Ha Ht].
    destruct (IH n Ht) as (I1 & I2 & I3). unfold memory in *. cbn [map concat limbs_of_memory].
    rewrite take_app_le, take_ge, drop_app_le, drop_ge by (rewrite le_bytes_length; lia). cbn [app].
    rewrite I1, of_le_bytes_le_bytes. split; [|split].
    + f_equal. apply Z.mod_small. apply Ha.
    + apply Forall_app. split; [apply le_bytes_range | done].
    + rewrite length_app, le_bytes_length, I3. lia.
Qed.

Lemma HexDigit_not_space c : negb (HexDigit c =? -1) = true -> isspace c = false /\ tolower c <> 120.
Proof.
  intros H. destruct (Z.lt_ge_cases c 256) as [Hc|Hc].
  - destruct (Z.le_gt_cases 0 c) as [Hc0|Hc0].
    + enough (implb (negb (HexDigit c =? -1)) (negb (isspace c) && negb (tolower c =? 120)) = true) as E.
      { rewrite H in E. cbn [implb] in E. apply andb_true_iff in E as [E1 E2].
        apply negb_true_iff in E1, E2. split; [done | by apply Z.eqb_neq in E2]. }
      clear H. revert c Hc0 Hc.
      enough (forall c, 0 <= c < Z.of_nat 256 -> implb (negb (HexDigit c =? -1)) (negb (isspace c) && negb (tolower c =? 120)) = true)
        by eauto with lia.
      apply (range_check (fun c => _) 256). vm_compute. reflexivity.
    + unfold isspace, tolower. split; [lia|]. destruct (Z.leb_spec 65 c); [lia|]. cbn [andb]. lia.
  - unfold HexDigit in H. rewrite nth_overflow in H; [done|]. cbn. lia.
Qed.

(** [SetHex] reads back the text [GetHex] prints, for every width. *)
Theorem SetHex_GetHex (n : nat) (x : list Z) (Hx : limbs_ok n x) : SetHex n (GetHex x) = x.
Proof.
  destruct (limbs_of_memory_ok n x Hx) as (M1 & M2 & M3).
  pose proof (HexStr_loop_digits true (rev (memory x)) ltac:(by apply Forall_rev)) as Hd.
  unfold SetHex, GetHex. fold (HexStr (rev (memory x)) false) in Hd. set (h := HexStr _ _) in *.
  assert (drop_while isspace h = h) as ->.
  { destruct h as [|c t]; [done|]. apply Forall_cons_iff in Hd as [Hc _]. cbn [drop_while].
    by destruct (HexDigit_not_space c Hc) as [-> _]. }
  assert ((tolower (nth 1 h 0) =? 120) = false) as ->.
  { apply Z.eqb_neq. destruct h as [|c [|c' t]]; [done|done|].
    apply Forall_cons_iff in Hd as [_ Hd]. apply Forall_cons_iff in Hd as [Hc _].
    by destruct (HexDigit_not_space c' Hc). }
  rewrite andb_false_r, take_while_all by done. unfold h.
  rewrite <- M3, SetHex_loop_HexStr by done. exact M1.
Qed.
Lemma SetHex_GetHex_witness : SetHex 8 (GetHex (of_uint64 8 0xdeadbeef1234)) = of_uint64 8 0xdeadbeef1234.
Proof. apply SetHex_GetHex. by apply of_uint64_ok; lia. Defined.
