(* ===== verification/Chain.v ===== *)
(** The block index tree and the active chain: [CBlockIndex] and [CChain] of
    [src/src/chain.h] and [src/src/chain.cpp], and the skip list of
    [src/src/main.cpp]. Blocks live in a heap addressed by pointers; a pointer
    field is an [option ptr] whose [None] is [NULL]. Dereferencing [NULL] or a
    dangling pointer makes a function return [None]. *)
From stdpp Require Import sorting.
From S2P Require Import Prelude.

Abbreviation ptr := Z.

Record CBlockIndex := mkBlockIndex {
  phashBlock : Z;             (** the block's hash, as a number *)
  pprev : option ptr;
  pskip : option ptr;
  nHeight : Z;
  nVersion : Z;
  nTime : Z;
  nBits : Z;
  nFlags : Z;
  nStakeModifier : Z;
}.

Abbreviation heap := (gmap Z CBlockIndex).

Definition BLOCK_PROOF_OF_STAKE : Z := Z.shiftl 1 0.
Definition BLOCK_STAKE_ENTROPY : Z := Z.shiftl 1 1.
Definition BLOCK_STAKE_MODIFIER : Z := Z.shiftl 1 2.

Definition GetBlockHash (b : CBlockIndex) : Z := phashBlock b.
Definition GetBlockTime (b : CBlockIndex) : Z := nTime b.
Definition IsProofOfStake (b : CBlockIndex) : bool := negb (Z.land (nFlags b) BLOCK_PROOF_OF_STAKE =? 0).
Definition IsProofOfWork (b : CBlockIndex) : bool := Z.land (nFlags b) BLOCK_PROOF_OF_STAKE =? 0.
Definition GeneratedStakeModifier (b : CBlockIndex) : bool := negb (Z.land (nFlags b) BLOCK_STAKE_MODIFIER =? 0).
(** [GetBlockHash().Get64() & 1] *)
Definition GetStakeEntropyBit (b : CBlockIndex) : Z := Z.land (u64 (GetBlockHash b)) 1.

(** Dereferencing. *)
Definition deref (h : heap) (p : option ptr) : option CBlockIndex := q ← p; h !! q.

(** ** The skip list *)

Definition InvertLowestOne (n : Z) : Z := Z.land n (n - 1).

Definition GetSkipHeight (height : Z) : Z :=
  if height <? 2 then 0
  else if negb (Z.land height 1 =? 0)
       then InvertLowestOne (InvertLowestOne (height - 1)) + 1
       else InvertLowestOne height.

(** The [while (heightWalk > height)] loop of [GetAncestor]; at most
    [heightWalk - height] rounds. *)
Fixpoint GetAncestor_loop (h : heap) (fuel : nat) (pindexWalk : option ptr) (heightWalk height : Z)
  : option (option ptr) :=
  if heightWalk <=? height then Some pindexWalk
  else
    match fuel with
    | O => None
    | S fuel' =>
        b ← deref h pindexWalk;
        let heightSkip := GetSkipHeight heightWalk in
        let heightSkipPrev := GetSkipHeight (heightWalk - 1) in
        if (heightSkip =? height) ||
           ((heightSkip >? height) &&
            negb ((heightSkipPrev <? heightSkip - 2) && (heightSkipPrev >=? height)))
        then GetAncestor_loop h fuel' (pskip b) heightSkip height
        else GetAncestor_loop h fuel' (pprev b) (heightWalk - 1) height
    end.

(** [this->GetAncestor(height)]: [Some None] is the result [NULL]. *)
Definition GetAncestor (h : heap) (this : ptr) (height : Z) : option (option ptr) :=
  b ← h !! this;
  if (height >? nHeight b) || (height <? 0) then Some None
  else GetAncestor_loop h (Z.to_nat (nHeight b)) (Some this) (nHeight b) height.

(** [BuildSkip]: the new value of [pskip] *)
Definition BuildSkip (h : heap) (b : CBlockIndex) : option (option ptr) :=
  match pprev b with
  | Some q => GetAncestor h q (GetSkipHeight (nHeight b))
  | None => Some (pskip b)
  end.

(** [LastCommonAncestor(pa, pb)]: the walk down both branches *)
Fixpoint LastCommonAncestor_loop (h : heap) (fuel : nat) (pa pb : option ptr) : option (option ptr * option ptr) :=
  if bool_decide (pa = pb) then Some (pa, pb)
  else
    match pa, pb with
    | Some a, Some b =>
        match fuel with
        | O => None
        | S fuel' =>
            ba ← h !! a; bb ← h !! b;
            LastCommonAncestor_loop h fuel' (pprev ba) (pprev bb)
        end
    | _, _ => Some (pa, pb)
    end.

(** [None] is a failed [assert(pa == pb)] or a bad dereference. *)
Definition LastCommonAncestor (h : heap) (pa pb : ptr) : option (option ptr) :=
  ba ← h !! pa; bb ← h !! pb;
  pa' ← (if nHeight ba >? nHeight bb then GetAncestor h pa (nHeight bb) else Some (Some pa));
  pb' ← (if nHeight ba >? nHeight bb then Some (Some pb)
         else if nHeight bb >? nHeight ba then GetAncestor h pb (nHeight ba) else Some (Some pb));
  '(ra, rb) ← LastCommonAncestor_loop h (S (Z.to_nat (Z.min (nHeight ba) (nHeight bb)))) pa' pb';
  if bool_decide (ra = rb) then Some ra else None.

(** ** The active chain *)

(** [CChain]: [vChain], a vector of pointers. *)
Abbreviation CChain := (list (option ptr)).

Definition chain_at (c : CChain) (height : Z) : option ptr :=
  if (height <? 0) || (height >=? Z.of_nat (length c)) then None
  else mjoin (c !! Z.to_nat height).
Definition chain_Height (c : CChain) : Z := Z.of_nat (length c) - 1.
Definition chain_Tip (c : CChain) : option ptr := chain_at c (chain_Height c).
Definition chain_Contains (h : heap) (c : CChain) (p : ptr) : option bool :=
  b ← h !! p; Some (bool_decide (chain_at c (nHeight b) = Some p)).
Definition chain_Next (h : heap) (c : CChain) (p : ptr) : option (option ptr) :=
  b ← h !! p;
  Some (if bool_decide (chain_at c (nHeight b) = Some p) then chain_at c (nHeight b + 1) else None).

(** [vChain.resize(n)]: new elements are [NULL] *)
Definition vresize (n : nat) (c : CChain) : CChain := take n c ++ replicate (n - length c) None.

(** The [while] loop of [SetTip]. *)
Fixpoint SetTip_loop (h : heap) (fuel : nat) (c : CChain) (pindex : option ptr) : option CChain :=
  match pindex with
  | None => Some c
  | Some p =>
      b ← h !! p;
      if bool_decide (c !! Z.to_nat (nHeight b) = Some (Some p)) then Some c
      else
        match fuel with
        | O => None
        | S fuel' => SetTip_loop h fuel' (<[Z.to_nat (nHeight b) := Some p]> c) (pprev b)
        end
  end.
Definition SetTip (h : heap) (c : CChain) (pindex : option ptr) : option CChain :=
  match pindex with
  | None => Some []
  | Some p =>
      b ← h !! p;
      SetTip_loop h (S (Z.to_nat (nHeight b))) (vresize (Z.to_nat (nHeight b + 1)) c) (Some p)
  end.

(** [FindFork]: [while (pindex && !Contains(pindex)) pindex = pindex->pprev] *)
Fixpoint FindFork_loop (h : heap) (fuel : nat) (c : CChain) (pindex : option ptr) : option (option ptr) :=
  match pindex with
  | None => Some None
  | Some p =>
      b ← h !! p;
      if bool_decide (chain_at c (nHeight b) = Some p) then Some (Some p)
      else match fuel with
           | O => None
           | S fuel' => FindFork_loop h fuel' c (pprev b)
           end
  end.
Definition FindFork (h : heap) (c : CChain) (pindex : ptr) : option (option ptr) :=
  b ← h !! pindex;
  p ← (if nHeight b >? chain_Height c then GetAncestor h pindex (chain_Height c) else Some (Some pindex));
  FindFork_loop h (S (Z.to_nat (nHeight b))) c p.

(** [GetLocator]: the hashes pushed by the loop, with [vHave.size()] and [nStep] *)
Fixpoint GetLocator_loop (h : heap) (c : CChain) (fuel : nat) (pindex : option ptr) (size nStep : Z)
  : option (list Z) :=
  match pindex with
  | None => Some []
  | Some p =>
      match fuel with
      | O => None
      | S fuel' =>
          b ← h !! p;
          let size := size + 1 in
          if nHeight b =? 0 then Some [GetBlockHash b]
          else
            let nHeight' := Z.max (i32 (nHeight b - nStep)) 0 in
            next ← (if bool_decide (chain_at c (nHeight b) = Some p) then Some (chain_at c nHeight')
                    else GetAncestor h p nHeight');
            let nStep := if size >? 10 then i32 (nStep * 2) else nStep in
            rest ← GetLocator_loop h c fuel' next size nStep;
            Some (GetBlockHash b :: rest)
      end
  end.
Definition GetLocator (h : heap) (c : CChain) (pindex : option ptr) : option (list Z) :=
  let pindex := match pindex with Some _ => pindex | None => chain_Tip c end in
  match pindex with
  | None => Some []
  | Some p => b ← h !! p; GetLocator_loop h c (S (Z.to_nat (nHeight b))) (Some p) 0 1
  end.

(** [GetMedianTimePast]: the times of the last [nMedianTimeSpan] blocks, sorted *)
Definition nMedianTimeSpan : nat := 11.
Fixpoint past_times (h : heap) (n : nat) (pindex : option ptr) : option (list Z) :=
  match n, pindex with
  | O, _ | _, None => Some []
  | S n', Some p => b ← h !! p; ts ← past_times h n' (pprev b); Some (GetBlockTime b :: ts)
  end.
Definition GetMedianTimePast (h : heap) (this : ptr) : option Z :=
  ts ← past_times h nMedianTimeSpan (Some this);
  merge_sort Z.le ts !! (length ts / 2)%nat.

(** [IsSuperMajority(minVersion, pstart, nRequired)], [nToCheck] from the chain
    parameters; the accumulator is [nFound]. *)
Fixpoint IsSuperMajority_loop (h : heap) (minVersion nRequired : Z) (n : nat) (pstart : option ptr) (nFound : Z)
  : option bool :=
  match n, pstart with
  | O, _ | _, None => Some (nFound >=? nRequired)
  | S n', Some p =>
      if nFound <? nRequired then
        b ← h !! p;
        IsSuperMajority_loop h minVersion nRequired n' (pprev b)
          (if nVersion b >=? minVersion then nFound + 1 else nFound)
      else Some (nFound >=? nRequired)
  end.
Definition IsSuperMajority (h : heap) (nToCheck minVersion : Z) (pstart : option ptr) (nRequired : Z) : option bool :=
  IsSuperMajority_loop h minVersion nRequired (Z.to_nat nToCheck) pstart 0.

(** ** Reference: following [pprev] *)

Definition prev (h : heap) (p : option ptr) : option ptr := b ← deref h p; pprev b.
Definition nth_prev (h : heap) (n : nat) (p : option ptr) : option ptr := Nat.iter n (prev h) p.

(** The ancestor of [p] at height [k], by walking back one block at a time. *)
Definition ancestor (h : heap) (p : ptr) (k : Z) : option ptr :=
  b ← h !! p; nth_prev h (Z.to_nat (nHeight b - k)) (Some p).

(** A well-formed block tree: heights are [int]s counting from the roots, every
    other block has its predecessor in the heap and its skip pointer leads to the
    ancestor at the height [GetSkipHeight] chooses. *)
Definition wf_block (h : heap) (p : ptr) (b : CBlockIndex) : Prop :=
  0 <= nHeight b < 2 ^ 31 - 1 /\
  (nHeight b = 0 -> pprev b = None) /\
  (0 < nHeight b -> exists q c, pprev b = Some q /\ h !! q = Some c /\ nHeight c = nHeight b - 1 /\
    pskip b = ancestor h q (GetSkipHeight (nHeight b))).
Definition wf_heap (h : heap) : Prop := map_Forall (wf_block h) h.

Lemma nth_prev_S h n p : nth_prev h (S n) p = nth_prev h n (prev h p).
Proof. unfold nth_prev. by rewrite Nat.iter_succ_r. Qed.
Lemma nth_prev_add h n m p : nth_prev h (n + m) p = nth_prev h m (nth_prev h n p).
Proof. revert p. induction n as [|n IH]; intros p; [done|]. cbn [Nat.add]. by rewrite !nth_prev_S, IH. Qed.
Lemma nth_prev_None h n : nth_prev h n None = None.
Proof. induction n as [|n IH]; [done|]. by rewrite nth_prev_S. Qed.

Section wf.
Context (h : heap) (Hwf : wf_heap h).

(** Going back [n] blocks from height [H] ends at a block of height [H - n]. *)
Lemma nth_prev_height n p b :
  h !! p = Some b -> Z.of_nat n <= nHeight b ->
  exists q c, nth_prev h n (Some p) = Some q /\ h !! q = Some c /\ nHeight c = nHeight b - Z.of_nat n.
Proof.
  revert p b. induction n as [|n IH]; intros p b Hp Hn.
  - exists p, b. repeat split; [done | lia].
  - destruct (Hwf p b Hp) as (_ & _ & (q & c & Hq & Hc & Hh & _)); [lia|].
    destruct (IH q c Hc) as (r & d & Hr & Hd & Hrh); [lia|].
    exists r, d. rewrite nth_prev_S. unfold prev, deref. cbn. rewrite Hp. cbn. rewrite Hq.
    repeat split; [done | done | lia].
Qed.

Lemma ancestor_height p b k :
  h !! p = Some b -> 0 <= k <= nHeight b ->
  exists q c, ancestor h p k = Some q /\ h !! q = Some c /\ nHeight c = k.
Proof.
  intros Hp Hk. destruct (nth_prev_height (Z.to_nat (nHeight b - k)) p b Hp) as (q & c & Hq & Hc & Hh); [lia|].
  exists q, c. unfold ancestor. rewrite Hp. cbn. repeat split; [done | done | lia].
Qed.

(** Ancestors compose. *)
Lemma ancestor_ancestor p q b k j :
  h !! p = Some b -> ancestor h p k = Some q -> 0 <= j <= k -> k <= nHeight b ->
  ancestor h q j = ancestor h p j.
Proof.
  intros Hp Hq Hj Hk. destruct (ancestor_height p b k Hp ltac:(lia)) as (q' & c & Hq' & Hc & Hh).
  rewrite Hq in Hq'. injection Hq' as <-.
  unfold ancestor in *. rewrite Hp in Hq |- *. rewrite Hc. cbn in *. rewrite Hh.
  replace (Z.to_nat (nHeight b - j)) with (Z.to_nat (nHeight b - k) + Z.to_nat (k - j))%nat by lia.
  by rewrite nth_prev_add, Hq.
Qed.
Lemma ancestor_prev p b q j :
  h !! p = Some b -> pprev b = Some q -> 0 <= j < nHeight b -> ancestor h q j = ancestor h p j.
Proof.
  intros Hp Hq Hj. destruct (Hwf p b Hp) as (_ & _ & (q' & c & Hq' & Hc & Hh & _)); [lia|].
  rewrite Hq in Hq'. injection Hq' as <-.
  unfold ancestor. rewrite Hp, Hc. cbn. rewrite Hh.
  replace (Z.to_nat (nHeight b - j)) with (S (Z.to_nat (nHeight b - 1 - j))) by lia.
  rewrite nth_prev_S. unfold prev, deref. cbn. rewrite Hp. cbn. by rewrite Hq.
Qed.
Lemma ancestor_self p b : h !! p = Some b -> ancestor h p (nHeight b) = Some p.
Proof. intros Hp. unfold ancestor. rewrite Hp. cbn. by rewrite Z.sub_diag. Qed.
End wf.

(** ** The skip heights *)

Lemma InvertLowestOne_bounds n : 0 < n -> 0 <= InvertLowestOne n < n.
Proof.
  intros Hn. unfold InvertLowestOne. pose proof (proj2 (Z.land_nonneg n (n - 1)) ltac:(lia)).
  pose proof (land_le_r n (n - 1) ltac:(lia)). lia.
Qed.

Lemma GetSkipHeight_bounds n : 1 <= n -> 0 <= GetSkipHeight n < n.
Proof.
  intros Hn. unfold GetSkipHeight. destruct (Z.ltb_spec n 2); [lia|].
  destruct (negb (Z.land n 1 =? 0)); [|apply InvertLowestOne_bounds; lia].
  pose proof (InvertLowestOne_bounds (n - 1) ltac:(lia)).
  destruct (Z.eq_dec (InvertLowestOne (n - 1)) 0) as [->|]; [change (InvertLowestOne 0) with 0; lia|].
  pose proof (InvertLowestOne_bounds (InvertLowestOne (n - 1)) ltac:(lia)). lia.
Qed.

(** ** The skip-list walk finds the ancestor *)

Section walks.
Context (h : heap) (Hwf : wf_heap h).

Lemma GetAncestor_loop_spec fuel p b height :
  h !! p = Some b -> 0 <= height <= nHeight b -> nHeight b - height <= Z.of_nat fuel ->
  GetAncestor_loop h fuel (Some p) (nHeight b) height = Some (ancestor h p height).
Proof.
  revert p b. induction fuel as [|fuel IH]; intros p b Hp Hh Hf; cbn [GetAncestor_loop];
    destruct (Z.leb_spec (nHeight b) height) as [Hle|Hgt];
    try (replace height with (nHeight b) by lia; by rewrite (ancestor_self h p b)); [lia|].
  cbn [deref mbind option_bind]. rewrite Hp. cbn [mbind option_bind].
  destruct (Hwf p b Hp) as (_ & _ & (q & c & Hq & Hc & Hqh & Hskip)); [lia|].
  pose proof (GetSkipHeight_bounds (nHeight b) ltac:(lia)) as Hs.
  set (sk := GetSkipHeight (nHeight b)) in *.
  case_match eqn:Hcond.
  - destruct (ancestor_height h Hwf q c sk Hc ltac:(lia)) as (r & d & Hr & Hd & Hdh).
    rewrite Hskip, Hr. rewrite <- Hdh at 1. rewrite (IH r d Hd) by lia.
    f_equal. rewrite <- (ancestor_prev h Hwf p b q) by (done || lia).
    apply (ancestor_ancestor h Hwf q r c sk); [done | done | lia | lia].
  - rewrite Hq. rewrite <- Hqh. rewrite (IH q c Hc) by lia. f_equal. by apply (ancestor_prev h Hwf p b q); [| |lia].
Qed.

Lemma GetAncestor_spec p b height :
  h !! p = Some b ->
  GetAncestor h p height =
  Some (if (height >? nHeight b) || (height <? 0) then None else ancestor h p height).
Proof.
  intros Hp. unfold GetAncestor. rewrite Hp. cbn [mbind option_bind].
  destruct (Z.gtb_spec height (nHeight b)), (Z.ltb_spec height 0); cbn [orb]; try done.
  apply GetAncestor_loop_spec; [done | lia | lia].
Qed.

(** Walking both branches back from equal heights. *)
Lemma LastCommonAncestor_loop_spec fuel p q bp bq :
  h !! p = Some bp -> h !! q = Some bq -> nHeight bp = nHeight bq -> nHeight bp < Z.of_nat fuel ->
  (forall x y bx by', h !! x = Some bx -> h !! y = Some by' -> nHeight bx = 0 -> nHeight by' = 0 -> x = y) ->
  exists r br, LastCommonAncestor_loop h fuel (Some p) (Some q) = Some (Some r, Some r) /\
    h !! r = Some br /\ nHeight br <= nHeight bp /\
    ancestor h p (nHeight br) = Some r /\ ancestor h q (nHeight br) = Some r /\
    (forall k, nHeight br < k <= nHeight bp -> ancestor h p k <> ancestor h q k).
Proof.
  intros Hp Hq Heq Hf Hroot. revert p q bp bq Hp Hq Heq Hf.
  induction fuel as [|fuel IH]; intros p q bp bq Hp Hq Heq Hf.
  { destruct (Hwf p bp Hp). lia. }
  cbn [LastCommonAncestor_loop]. case_bool_decide as Hpq.
  - injection Hpq as <-. exists p, bp. rewrite Hp in Hq. injection Hq as <-.
    rewrite (ancestor_self h p bp Hp). repeat split; auto; lia.
  - rewrite Hp, Hq. cbn [mbind option_bind].
    destruct (Z.eq_dec (nHeight bp) 0) as [Hz|Hz].
    { destruct Hpq. f_equal. eapply Hroot; eauto. lia. }
    destruct (Hwf p bp Hp) as (Hb & _ & (p' & bp' & Hp' & Hbp' & Hph & _)); [destruct (Hwf p bp Hp); lia|].
    destruct (Hwf q bq Hq) as (_ & _ & (q' & bq' & Hq' & Hbq' & Hqh & _)); [lia|].
    rewrite Hp', Hq'.
    destruct (IH p' q' bp' bq' Hbp' Hbq') as (r & br & Hr & Hbr & Hle & Ha1 & Ha2 & Hmax); [lia|lia|].
    exists r, br. destruct (Hwf r br Hbr) as [Hr0 _].
    rewrite <- (ancestor_prev h Hwf p bp p'), <- (ancestor_prev h Hwf q bq q') by (done || lia).
    repeat split; auto; [lia|]. intros k Hk.
    destruct (Z.eq_dec k (nHeight bp)) as [->|Hne].
    + rewrite (ancestor_self h p bp Hp), Heq, (ancestor_self h q bq Hq). congruence.
    + rewrite <- (ancestor_prev h Hwf p bp p'), <- (ancestor_prev h Hwf q bq q') by (done || lia).
      apply Hmax. lia.
Qed.
End walks.

(** ** Adding a block *)

Section insertion.
Context (h : heap) (Hwf : wf_heap h) (p : ptr) (b' : CBlockIndex) (Hfresh : h !! p = None).

Lemma nth_prev_insert n x bx :
  h !! x = Some bx -> Z.of_nat n <= nHeight bx ->
  nth_prev (<[p := b']> h) n (Some x) = nth_prev h n (Some x).
Proof.
  revert x bx. induction n as [|n IH]; intros x bx Hx Hn; [done|].
  destruct (Hwf x bx Hx) as (_ & _ & (q & c & Hq & Hc & Hh & _)); [lia|].
  rewrite !nth_prev_S. unfold prev, deref. cbn [mbind option_bind].
  rewrite lookup_insert_ne by congruence. rewrite Hx. cbn [mbind option_bind]. rewrite Hq.
  apply (IH q c Hc). lia.
Qed.
Lemma ancestor_insert x bx k :
  h !! x = Some bx -> 0 <= k -> ancestor (<[p := b']> h) x k = ancestor h x k.
Proof.
  intros Hx Hk. unfold ancestor. rewrite lookup_insert_ne by congruence. rewrite Hx. cbn [mbind option_bind].
  destruct (Hwf x bx Hx) as [Hb _]. apply (nth_prev_insert _ x bx Hx). lia.
Qed.
Lemma wf_block_insert x bx : h !! x = Some bx -> wf_block (<[p := b']> h) x bx.
Proof.
  intros Hx. destruct (Hwf x bx Hx) as (H1 & H2 & H3). split; [done|]. split; [done|].
  intros Hpos. destruct (H3 Hpos) as (q & c & Hq & Hc & Hh & Hs). exists q, c.
  rewrite lookup_insert_ne by congruence. repeat split; [done | done | done |].
  rewrite Hs. symmetry. apply (ancestor_insert q c); [done|]. apply GetSkipHeight_bounds. lia.
Qed.
End insertion.

(** A new block index entry as [AddToBlockIndex] completes it: linked to its
    predecessor, one higher, with its skip pointer built. *)
Definition link_block (h : heap) (b : CBlockIndex) (q : ptr) : option CBlockIndex :=
  c ← h !! q;
  let b := mkBlockIndex (phashBlock b) (Some q) (pskip b) (nHeight c + 1) (nVersion b) (nTime b)
             (nBits b) (nFlags b) (nStakeModifier b) in
  s ← BuildSkip h b;
  Some (mkBlockIndex (phashBlock b) (Some q) s (nHeight b) (nVersion b) (nTime b)
          (nBits b) (nFlags b) (nStakeModifier b)).

(** On a well-formed block tree the skip-list walk of [GetAncestor]
    terminates without a bad dereference and returns exactly the block found by
    following [pprev] down to the height asked for ([NULL] outside
    [0 .. nHeight]). *)
Theorem GetAncestor_correct (h : heap) (Hwf : wf_heap h) (p : ptr) (b : CBlockIndex) (height : Z)
    (Hp : h !! p = Some b) :
  GetAncestor h p height =
  Some (if (height >? nHeight b) || (height <? 0) then None
        else nth_prev h (Z.to_nat (nHeight b - height)) (Some p)).
Proof. rewrite (GetAncestor_spec h Hwf p b height Hp). unfold ancestor. by rewrite Hp. Qed.

Lemma link_block_core h p q b c :
  wf_heap h -> h !! p = None -> h !! q = Some c -> nHeight c + 1 < 2 ^ 31 - 1 ->
  exists b', link_block h b q = Some b' /\ wf_heap (<[p := b']> h).
Proof.
  intros Hwf Hfresh Hq Hmax.
  destruct (Hwf q c Hq) as [Hc0 _].
  pose proof (GetSkipHeight_bounds (nHeight c + 1) ltac:(lia)) as Hs.
  unfold link_block, BuildSkip. rewrite Hq. cbn [mbind option_bind pprev nHeight].
  rewrite (GetAncestor_spec h Hwf q c) by done. cbn [mbind option_bind phashBlock nVersion nTime nBits nFlags nStakeModifier].
  destruct (Z.gtb_spec (GetSkipHeight (nHeight c + 1)) (nHeight c)); [lia|].
  destruct (Z.ltb_spec (GetSkipHeight (nHeight c + 1)) 0); [lia|]. cbn [orb].
  eexists. split; [reflexivity|]. apply map_Forall_insert_2; [|by intros x bx Hx; apply wf_block_insert].
  split; [cbn; lia|]. split; [cbn; lia|]. intros _. exists q, c. cbn [pprev nHeight pskip].
  rewrite lookup_insert_ne by congruence. repeat split; [done | lia |].
  symmetry. apply (ancestor_insert h Hwf p _ Hfresh q c); [done | lia].
Qed.

(** C38: linking a new block to a block of the tree with [BuildSkip] keeps the
    tree well-formed: the invariant [GetAncestor] relies on is inductive. *)
Theorem link_block_wf (h : heap) (Hwf : wf_heap h) (p q : ptr) (b c : CBlockIndex)
    (Hfresh : h !! p = None) (Hq : h !! q = Some c) (Hmax : nHeight c + 1 < 2 ^ 31 - 1) :
  exists b', link_block h b q = Some b' /\ wf_heap (<[p := b']> h).
Proof. by apply (link_block_core h p q b c). Qed.

(** ** Setting the tip *)

(** The active chain ending in [p]: its ancestors, genesis first. *)
Definition chain_of (h : heap) (p : ptr) (H : Z) : CChain :=
  (fun i => ancestor h p (Z.of_nat i)) <$> seq 0 (Z.to_nat (H + 1)).

Lemma chain_of_lookup h p H i :
  0 <= H -> chain_of h p H !! i = if decide (Z.of_nat i <= H) then Some (ancestor h p (Z.of_nat i)) else None.
Proof.
  intros HH. unfold chain_of. rewrite list_lookup_fmap.
  destruct (decide (Z.of_nat i <= H)).
  - by rewrite lookup_seq_lt by lia.
  - rewrite lookup_ge_None_2; [done|]. rewrite length_seq. lia.
Qed.
Lemma chain_of_length h p H : length (chain_of h p H) = Z.to_nat (H + 1).
Proof. unfold chain_of. by rewrite length_fmap, length_seq. Qed.

(** What [CChain] maintains. *)
Definition chain_ok (h : heap) (c : CChain) : Prop :=
  c = [] \/ exists t bt, h !! t = Some bt /\ c = chain_of h t (nHeight bt).

(** A vector whose non-null entries below [n] carry their whole prefix. *)
Definition prefix_ok (h : heap) (n : nat) (c : CChain) : Prop :=
  forall j y, (j < n)%nat -> c !! j = Some (Some y) ->
    (exists by', h !! y = Some by' /\ nHeight by' = Z.of_nat j) /\
    forall i, (i <= j)%nat -> c !! i = Some (ancestor h y (Z.of_nat i)).

Lemma chain_ok_prefix h c n m : wf_heap h -> chain_ok h c -> prefix_ok h n (vresize m c).
Proof.
  intros Hwf Hok j y _ Hj. unfold vresize in *.
  assert (j < length (take m c))%nat as Hjt.
  { destruct (Nat.lt_ge_cases j (length (take m c))) as [|Hge]; [done|].
    rewrite lookup_app_r in Hj by done. apply lookup_replicate in Hj as [[=] _]. }
  rewrite lookup_app_l in Hj by done. pose proof Hjt as Hjm. rewrite length_take in Hjm.
  rewrite lookup_take_lt in Hj by lia.
  destruct Hok as [-> | (t & bt & Ht & ->)]; [done|].
  destruct (Hwf t bt Ht) as [Hb _]. rewrite chain_of_lookup in Hj by lia.
  destruct (decide (Z.of_nat j <= nHeight bt)); [|done]. injection Hj as Hj.
  destruct (ancestor_height h Hwf t bt (Z.of_nat j) Ht ltac:(lia)) as (y' & by' & Hy' & Hby' & Hhy).
  rewrite Hj in Hy'. injection Hy' as <-. split; [eauto|]. intros i Hi.
  rewrite lookup_app_l by lia. rewrite lookup_take_lt, chain_of_lookup by lia.
  destruct (decide (Z.of_nat i <= nHeight bt)); [|lia]. f_equal. symmetry.
  by apply (ancestor_ancestor h Hwf t y bt (Z.of_nat j)); [done | done | lia | lia].
Qed.

Lemma SetTip_loop_spec h fuel c p bp x bx :
  wf_heap h -> h !! p = Some bp -> h !! x = Some bx -> nHeight bx <= nHeight bp ->
  ancestor h p (nHeight bx) = Some x -> nHeight bx < Z.of_nat fuel ->
  length c = Z.to_nat (nHeight bp + 1) ->
  prefix_ok h (S (Z.to_nat (nHeight bx))) c ->
  (forall j, nHeight bx < Z.of_nat j <= nHeight bp -> c !! j = Some (ancestor h p (Z.of_nat j))) ->
  SetTip_loop h fuel c (Some x) = Some (chain_of h p (nHeight bp)).
Proof.
  intros Hwf Hp. revert c x bx. induction fuel as [|fuel IH]; intros c x bx Hx Hle Hanc Hf Hlen Hpre Hhi;
    destruct (Hwf x bx Hx) as (Hb & Hb0 & Hb1); [lia|].
  destruct (Hwf p bp Hp) as (Hbp & _ & _).
  cbn [SetTip_loop]. rewrite Hx. cbn [mbind option_bind]. case_bool_decide as Hin.
  - (* already in place: the rest of the vector is right *)
    f_equal. apply list_eq. intros i. rewrite chain_of_lookup by lia.
    destruct (Hpre (Z.to_nat (nHeight bx)) x ltac:(lia) Hin) as [_ Hlow].
    destruct (decide (Z.of_nat i <= nHeight bp)) as [Hi|Hi]; [|apply lookup_ge_None_2; lia].
    destruct (Z.le_gt_cases (Z.of_nat i) (nHeight bx)) as [Hix|Hix]; [|by apply Hhi].
    rewrite Hlow by lia. f_equal. by apply (ancestor_ancestor h Hwf p x bp (nHeight bx)); [done | done | lia | lia].
  - assert (forall j, nHeight bx <= Z.of_nat j <= nHeight bp ->
      <[Z.to_nat (nHeight bx):=Some x]> c !! j = Some (ancestor h p (Z.of_nat j))) as Hhi'.
    { intros j Hj. destruct (decide (j = Z.to_nat (nHeight bx))) as [->|Hne].
      - rewrite list_lookup_insert_eq by lia. by rewrite Z2Nat.id, Hanc by lia.
      - rewrite list_lookup_insert_ne by done. apply Hhi. lia. }
    destruct (Z.eq_dec (nHeight bx) 0) as [Hz|Hz].
    + rewrite (Hb0 Hz). destruct fuel; cbn [SetTip_loop]; f_equal; apply list_eq; intros i;
        rewrite chain_of_lookup by lia;
        (destruct (decide (Z.of_nat i <= nHeight bp)); [apply Hhi'; lia | apply lookup_ge_None_2; rewrite length_insert; lia]).
    + destruct Hb1 as (q & cq & Hq & Hcq & Hhq & _); [lia|]. rewrite Hq.
      apply (IH _ q cq); [done | lia | | lia | by rewrite length_insert | | intros; apply Hhi'; lia].
      * assert (ancestor h q (nHeight cq) = Some q) as <- by by apply ancestor_self.
        symmetry. rewrite <- (ancestor_ancestor h Hwf p x bp (nHeight bx)) by (done || lia).
        apply (ancestor_prev h Hwf x bx q); [done | done | lia].
      * intros j y Hj Hy. rewrite list_lookup_insert_ne in Hy by lia.
        destruct (Hpre j y ltac:(lia) Hy) as [Hex Hlow]. split; [done|].
        intros i Hi. rewrite list_lookup_insert_ne by lia. by apply Hlow.
Qed.

(** [SetTip] turns a consistent active chain into the active chain of the new
    tip, that is the vector of all its ancestors, although it stops rewriting the
    vector at the first block already in place; on [NULL] the chain is cleared. *)
Theorem SetTip_correct (h : heap) (Hwf : wf_heap h) (c : CChain) (Hc : chain_ok h c) :
  SetTip h c None = Some [] /\
  forall p b, h !! p = Some b -> SetTip h c (Some p) = Some (chain_of h p (nHeight b)).
Proof.
  split; [done|]. intros p b Hp. unfold SetTip. rewrite Hp. cbn [mbind option_bind].
  destruct (Hwf p b Hp) as [Hb _].
  apply (SetTip_loop_spec h _ _ p b p b); auto using ancestor_self, chain_ok_prefix; try lia.
  unfold vresize. rewrite length_app, length_take, length_replicate. lia.
Qed.

(** ** Forks *)

Lemma chain_at_lookup c k : 0 <= k -> chain_at c k = mjoin (c !! Z.to_nat k).
Proof.
  intros Hk. unfold chain_at. destruct (Z.ltb_spec k 0); [lia|].
  destruct (Z.geb_spec k (Z.of_nat (length c))); [|done]. cbn [orb].
  by rewrite lookup_ge_None_2 by lia.
Qed.

Lemma FindFork_loop_spec h fuel c p bp :
  wf_heap h -> h !! p = Some bp -> nHeight bp < Z.of_nat fuel ->
  exists r, FindFork_loop h fuel c (Some p) = Some r /\
    match r with
    | Some f => exists bf, h !! f = Some bf /\ nHeight bf <= nHeight bp /\
        ancestor h p (nHeight bf) = Some f /\ chain_at c (nHeight bf) = Some f /\
        forall k, nHeight bf < k <= nHeight bp -> chain_at c k <> ancestor h p k
    | None => forall k, 0 <= k <= nHeight bp -> chain_at c k <> ancestor h p k
    end.
Proof.
  intros Hwf. revert p bp. induction fuel as [|fuel IH]; intros p bp Hp Hf;
    destruct (Hwf p bp Hp) as (Hb & Hb0 & Hb1); [lia|].
  cbn [FindFork_loop]. rewrite Hp. cbn [mbind option_bind]. case_bool_decide as Hin.
  - exists (Some p). split; [done|]. exists bp. rewrite (ancestor_self h p bp Hp). repeat split; auto; lia.
  - destruct (Z.eq_dec (nHeight bp) 0) as [Hz|Hz].
    + rewrite (Hb0 Hz). exists None. split; [by destruct fuel|]. intros k Hk.
      replace k with (nHeight bp) by lia. by rewrite (ancestor_self h p bp Hp).
    + destruct Hb1 as (q & cq & Hq & Hcq & Hhq & _); [lia|]. rewrite Hq.
      destruct (IH q cq Hcq ltac:(lia)) as (r & Hr & Hspec). exists r. split; [done|].
      assert (forall k, 0 <= k < nHeight bp -> ancestor h p k = ancestor h q k) as Hpq
        by (intros; symmetry; by apply (ancestor_prev h Hwf p bp q)).
      assert (chain_at c (nHeight bp) <> ancestor h p (nHeight bp)) as Htop
        by by rewrite (ancestor_self h p bp Hp).
      destruct r as [f|].
      * destruct Hspec as (bf & Hf1 & Hf2 & Hf3 & Hf4 & Hf5). exists bf.
        destruct (Hwf f bf Hf1) as [Hf0 _]. repeat split; auto; [lia | by rewrite Hpq by lia |].
        intros k Hk. destruct (Z.eq_dec k (nHeight bp)) as [->|]; [done|]. rewrite Hpq by lia. apply Hf5. lia.
      * intros k Hk. destruct (Z.eq_dec k (nHeight bp)) as [->|]; [done|]. rewrite Hpq by lia. apply Hspec. lia.
Qed.

Lemma chain_at_high c k : chain_Height c < k -> chain_at c k = None.
Proof.
  intros Hk. unfold chain_at, chain_Height in *.
  destruct (Z.geb_spec k (Z.of_nat (length c))); [by rewrite orb_true_r | lia].
Qed.

(** [FindFork] returns the highest block that is on the branch of the given
    block and in the chain, and [NULL] exactly when there is none; the loop
    terminates. *)
Theorem FindFork_correct (h : heap) (Hwf : wf_heap h) (c : CChain) (p : ptr) (b : CBlockIndex)
    (Hp : h !! p = Some b) (Hc : c <> []) :
  exists r, FindFork h c p = Some r /\
    match r with
    | Some f => exists bf, h !! f = Some bf /\ nHeight bf <= nHeight b /\
        ancestor h p (nHeight bf) = Some f /\ chain_at c (nHeight bf) = Some f /\
        forall k, nHeight bf < k <= nHeight b -> chain_at c k <> ancestor h p k
    | None => forall k, 0 <= k <= nHeight b -> chain_at c k <> ancestor h p k
    end.
Proof.
  destruct (Hwf p b Hp) as [Hb _]. unfold FindFork. rewrite Hp. cbn [mbind option_bind].
  assert (0 <= chain_Height c) by (destruct c; [done | unfold chain_Height; cbn [length]; lia]).
  assert (forall k, chain_Height c < k -> 0 <= k <= nHeight b -> chain_at c k <> ancestor h p k) as Hhigh.
  { intros k Hk Hk'. rewrite chain_at_high by done.
    by destruct (ancestor_height h Hwf p b k Hp Hk') as (q & _ & -> & _). }
  destruct (Z.gtb_spec (nHeight b) (chain_Height c)) as [Hgt|Hle]; cbn [mbind option_bind].
  - rewrite (GetAncestor_spec h Hwf p b) by done. cbn [mbind option_bind].
    destruct (Z.gtb_spec (chain_Height c) (nHeight b)), (Z.ltb_spec (chain_Height c) 0); try lia. cbn [orb].
    destruct (ancestor_height h Hwf p b (chain_Height c) Hp ltac:(lia)) as (q & cq & Hq & Hcq & Hhq). rewrite Hq.
    assert (forall k, 0 <= k <= nHeight cq -> ancestor h q k = ancestor h p k) as Hqp.
    { intros k Hk. by apply (ancestor_ancestor h Hwf p q b (chain_Height c)); [done | done | lia | lia]. }
    destruct (FindFork_loop_spec h (S (Z.to_nat (nHeight b))) c q cq Hwf Hcq ltac:(lia)) as (r & Hr & Hspec).
    exists r. split; [done|]. destruct r as [f|].
    + destruct Hspec as (bf & Hf1 & Hf2 & Hf3 & Hf4 & Hf5). exists bf.
      destruct (Hwf f bf Hf1) as [Hf0 _]. repeat split; auto; [lia | by rewrite <- Hqp by lia |].
      intros k Hk. destruct (Z.le_gt_cases k (nHeight cq)); [rewrite <- Hqp by lia; apply Hf5; lia | apply Hhigh; lia].
    + intros k Hk. destruct (Z.le_gt_cases k (nHeight cq)); [rewrite <- Hqp by lia; apply Hspec; lia | apply Hhigh; lia].
  - apply FindFork_loop_spec; [done | done | lia].
Qed.

(** The tree has a single root. *)
Definition single_root (h : heap) : Prop :=
  forall x y bx by', h !! x = Some bx -> h !! y = Some by' -> nHeight bx = 0 -> nHeight by' = 0 -> x = y.

(** On a tree with one genesis block [LastCommonAncestor] never fails its
    assertion and returns the highest block both branches share. *)
Theorem LastCommonAncestor_correct (h : heap) (Hwf : wf_heap h) (Hroot : single_root h)
    (pa pb : ptr) (ba bb : CBlockIndex) (Ha : h !! pa = Some ba) (Hb : h !! pb = Some bb) :
  exists r br, LastCommonAncestor h pa pb = Some (Some r) /\ h !! r = Some br /\
    nHeight br <= Z.min (nHeight ba) (nHeight bb) /\
    ancestor h pa (nHeight br) = Some r /\ ancestor h pb (nHeight br) = Some r /\
    forall k, nHeight br < k <= Z.min (nHeight ba) (nHeight bb) -> ancestor h pa k <> ancestor h pb k.
Proof.
  destruct (Hwf pa ba Ha) as [Ha0 _], (Hwf pb bb Hb) as [Hb0 _].
  set (m := Z.min (nHeight ba) (nHeight bb)).
  destruct (ancestor_height h Hwf pa ba m Ha ltac:(lia)) as (qa & ca & Hqa & Hca & Hha).
  destruct (ancestor_height h Hwf pb bb m Hb ltac:(lia)) as (qb & cb & Hqb & Hcb & Hhb).
  destruct (LastCommonAncestor_loop_spec h Hwf (S (Z.to_nat m)) qa qb ca cb Hca Hcb) as
    (r & br & Hr & Hbr & Hle & H1 & H2 & Hmax); [lia | lia | done |].
  destruct (Hwf r br Hbr) as [Hr0 _].
  assert (forall k, 0 <= k <= m -> ancestor h qa k = ancestor h pa k) as Ea
    by (intros; apply (ancestor_ancestor h Hwf pa qa ba m); [done | done | lia | lia]).
  assert (forall k, 0 <= k <= m -> ancestor h qb k = ancestor h pb k) as Eb
    by (intros; apply (ancestor_ancestor h Hwf pb qb bb m); [done | done | lia | lia]).
  assert (forall p q b, h !! p = Some b -> nHeight b = m -> ancestor h p m = Some q -> p = q) as Hself.
  { intros p q b Hp Hm Hq. rewrite <- Hm, (ancestor_self h p b Hp) in Hq. congruence. }
  exists r, br. split.
  - unfold LastCommonAncestor. rewrite Ha, Hb. cbn [mbind option_bind]. fold m.
    rewrite (GetAncestor_spec h Hwf pa ba), (GetAncestor_spec h Hwf pb bb) by done.
    destruct (Z.gtb_spec (nHeight ba) (nHeight bb)) as [G|G], (Z.gtb_spec (nHeight bb) (nHeight ba)) as [G'|G']; try lia.
    + destruct (Z.ltb_spec (nHeight bb) 0); [lia|]. cbn [orb mbind option_bind].
      replace (nHeight bb) with m by lia. rewrite Hqa. cbn [mbind option_bind].
      rewrite (Hself pb qb bb), Hr by (done || lia). cbn. by rewrite bool_decide_eq_true_2.
    + destruct (Z.ltb_spec (nHeight ba) 0); [lia|]. cbn [orb mbind option_bind].
      replace (nHeight ba) with m by lia. rewrite Hqb. cbn [mbind option_bind].
      rewrite (Hself pa qa ba), Hr by (done || lia). cbn. by rewrite bool_decide_eq_true_2.
    + cbn [mbind option_bind].
      rewrite (Hself pa qa ba), (Hself pb qb bb), Hr by (done || lia). cbn. by rewrite bool_decide_eq_true_2.
  - split; [done|]. split; [lia|]. rewrite <- Ea, <- Eb by lia. split; [done|]. split; [done|].
    intros k Hk. rewrite <- Ea, <- Eb by lia. apply Hmax. lia.
Qed.

(** ** Locators *)

(** Strictly descending heights ending at the genesis block. *)
Fixpoint descends_to_zero (hs : list Z) : Prop :=
  match hs with
  | [] => False
  | [x] => x = 0
  | x :: ((y :: _) as t) => 0 <= y < x /\ descends_to_zero t
  end.

Definition hash_at (h : heap) (p : ptr) (k : Z) : option Z := GetBlockHash <$> deref h (ancestor h p k).

Lemma GetLocator_loop_spec h c p bp fuel x bx size nStep :
  wf_heap h -> chain_ok h c -> h !! p = Some bp -> h !! x = Some bx -> nHeight bx <= nHeight bp ->
  ancestor h p (nHeight bx) = Some x -> nHeight bx < Z.of_nat fuel ->
  1 <= nStep -> nHeight bx + nStep <= 2 ^ 31 - 1 ->
  exists hs l, GetLocator_loop h c fuel (Some x) size nStep = Some l /\
    descends_to_zero (nHeight bx :: hs) /\
    Some <$> l = hash_at h p <$> (nHeight bx :: hs).
Proof.
  intros Hwf Hc Hp. revert x bx size nStep.
  induction fuel as [|fuel IH]; intros x bx size nStep Hx Hle Hanc Hf Hs1 Hs2;
    destruct (Hwf x bx Hx) as (Hb & Hb0 & Hb1); [lia|].
  assert (hash_at h p (nHeight bx) = Some (GetBlockHash bx)) as Hhash
    by (unfold hash_at; rewrite Hanc; cbn; by rewrite Hx).
  cbn [GetLocator_loop]. rewrite Hx. cbn [mbind option_bind].
  destruct (Z.eqb_spec (nHeight bx) 0) as [Hz|Hz].
  { exists [], [GetBlockHash bx]. split; [done|]. split; [done|]. cbn. by rewrite Hhash. }
  rewrite (i32_small (nHeight bx - nStep)) by lia. set (k := Z.max (nHeight bx - nStep) 0).
  destruct (ancestor_height h Hwf x bx k Hx ltac:(lia)) as (y & cy & Hy & Hcy & Hhy).
  assert ((if bool_decide (chain_at c (nHeight bx) = Some x) then Some (chain_at c k)
           else GetAncestor h x k) = Some (Some y)) as ->.
  { case_bool_decide as Hin.
    - f_equal. destruct Hc as [-> | (t & bt & Ht & ->)]; [by rewrite chain_at_lookup in Hin by lia|].
      destruct (Hwf t bt Ht) as [Ht0 _].
      rewrite chain_at_lookup, chain_of_lookup, Z2Nat.id in Hin by lia.
      rewrite chain_at_lookup, chain_of_lookup, Z2Nat.id by lia.
      destruct (decide (nHeight bx <= nHeight bt)); [|done]. destruct (decide (k <= nHeight bt)); [|lia].
      cbn in *. rewrite <- Hy. symmetry. by apply (ancestor_ancestor h Hwf t x bt (nHeight bx)); [done | done | lia | lia].
    - rewrite (GetAncestor_spec h Hwf x bx) by done.
      destruct (Z.gtb_spec k (nHeight bx)), (Z.ltb_spec k 0); try lia. cbn [orb]. by rewrite Hy. }
  cbn [mbind option_bind].
  assert (ancestor h p k = Some y) as Hanc'
    by (rewrite <- Hy; symmetry; by apply (ancestor_ancestor h Hwf p x bp (nHeight bx)); [done | done | lia | lia]).
  set (nStep' := if size + 1 >? 10 then i32 (nStep * 2) else nStep).
  destruct (Z.eq_dec (nHeight cy) 0) as [Hcz|Hcz].
  - (* the next block is the genesis block, whatever the step *)
    destruct fuel as [|fuel]; [lia|]. exists [0], [GetBlockHash bx; GetBlockHash cy].
    cbn [GetLocator_loop]. rewrite Hcy. cbn [mbind option_bind]. rewrite Hcz. cbn [Z.eqb mbind option_bind].
    split; [done|]. split; [cbn; lia|]. cbn [fmap list_fmap]. rewrite Hhash. do 2 f_equal.
    unfold hash_at. replace 0 with k by lia. rewrite Hanc'. cbn. by rewrite Hcy.
  - destruct (IH y cy (size + 1) nStep' Hcy) as (hs & l & Hl & Hd & Hm).
    + lia.
    + by rewrite Hhy.
    + lia.
    + unfold nStep'. destruct (size + 1 >? 10); [rewrite i32_small|]; lia.
    + unfold nStep'. destruct (size + 1 >? 10); [rewrite i32_small|]; lia.
    + rewrite Hl. cbn [mbind option_bind]. exists (nHeight cy :: hs), (GetBlockHash bx :: l).
      split; [done|]. split; [split; [lia | exact Hd]|]. cbn [fmap list_fmap] in *. by rewrite Hhash, Hm.
Qed.

(** [GetLocator] of a block terminates, without overflow of its doubling step,
    and lists the hashes of ancestors of the block at strictly descending heights,
    from the block itself down to the genesis block; on and off the active chain. *)
Theorem GetLocator_correct (h : heap) (Hwf : wf_heap h) (c : CChain) (Hc : chain_ok h c)
    (p : ptr) (b : CBlockIndex) (Hp : h !! p = Some b) :
  exists hs l, GetLocator h c (Some p) = Some l /\
    descends_to_zero (nHeight b :: hs) /\ Some <$> l = hash_at h p <$> (nHeight b :: hs).
Proof.
  destruct (Hwf p b Hp) as [Hb _]. unfold GetLocator. rewrite Hp. cbn [mbind option_bind].
  apply (GetLocator_loop_spec h c p b); auto using ancestor_self; lia.
Qed.

(** ** A concrete tree

    Genesis (1), two blocks on it (2 and 3), and a third on block 2 (4). *)

Definition ex_block (hash : Z) : CBlockIndex := mkBlockIndex hash None None 0 1 (1597078000 + 30 * hash) 0x207fffff 0 0.
Definition ex_link (h : heap) (p q : ptr) : heap :=
  match link_block h (ex_block p) q with Some b => <[p := b]> h | None => h end.
Definition ex_heap1 : heap := {[ 1 := ex_block 1 ]}.
Definition ex_heap2 : heap := ex_link ex_heap1 2 1.
Definition ex_heap3 : heap := ex_link ex_heap2 3 1.
Definition ex_heap : heap := ex_link ex_heap3 4 2.

Lemma ex_link_wf h p q c :
  wf_heap h -> h !! p = None -> h !! q = Some c -> nHeight c + 1 < 2 ^ 31 - 1 -> wf_heap (ex_link h p q).
Proof.
  intros Hwf Hp Hq Hc. unfold ex_link.
  by destruct (link_block_core h p q (ex_block p) c Hwf Hp Hq Hc) as (b' & -> & Hb').
Qed.
Lemma ex_heap1_wf : wf_heap ex_heap1.
Proof. apply map_Forall_singleton. split; [cbn; lia|]. split; [done|]. cbn. lia. Qed.
Lemma ex_heap2_wf : wf_heap ex_heap2.
Proof. eapply ex_link_wf; [apply ex_heap1_wf | reflexivity | reflexivity | done]. Qed.
Lemma ex_heap3_wf : wf_heap ex_heap3.
Proof. eapply ex_link_wf; [apply ex_heap2_wf | reflexivity | reflexivity | done]. Qed.
Lemma ex_heap_wf : wf_heap ex_heap.
Proof. eapply ex_link_wf; [apply ex_heap3_wf | reflexivity | reflexivity | done]. Qed.
Lemma ex_heap_root : single_root ex_heap.
Proof.
  assert (map_Forall (fun x bx => nHeight bx = 0 -> x = 1) ex_heap) as H.
  { apply map_Forall_to_list. vm_compute. repeat constructor; intros; lia. }
  intros x y bx by' Hx Hy Hx0 Hy0. rewrite (H x bx Hx Hx0). by rewrite (H y by' Hy Hy0).
Qed.

Definition ex_get (p : ptr) : CBlockIndex := default (ex_block 0) (ex_heap !! p).
Definition ex_chain : CChain := chain_of ex_heap 4 2.
Lemma ex_chain_ok : chain_ok ex_heap ex_chain.
Proof. right. exists 4, (ex_get 4). split; reflexivity. Qed.

Lemma GetAncestor_correct_witness :
  GetAncestor ex_heap 4 0 =
  Some (if (0 >? nHeight (ex_get 4)) || (0 <? 0) then None
        else nth_prev ex_heap (Z.to_nat (nHeight (ex_get 4) - 0)) (Some 4)).
Proof. apply (GetAncestor_correct ex_heap ex_heap_wf 4 (ex_get 4) 0). reflexivity. Defined.
Lemma link_block_wf_witness :
  exists b', link_block ex_heap (ex_block 5) 4 = Some b' /\ wf_heap (<[5 := b']> ex_heap).
Proof. by apply (link_block_wf ex_heap ex_heap_wf 5 4 (ex_block 5) (ex_get 4)). Defined.
Lemma SetTip_correct_witness :
  SetTip ex_heap ex_chain None = Some [] /\
  forall p b, ex_heap !! p = Some b -> SetTip ex_heap ex_chain (Some p) = Some (chain_of ex_heap p (nHeight b)).
Proof. apply (SetTip_correct ex_heap ex_heap_wf ex_chain ex_chain_ok). Defined.
Lemma FindFork_correct_witness :
  exists r, FindFork ex_heap ex_chain 3 = Some r /\
    match r with
    | Some f => exists bf, ex_heap !! f = Some bf /\ nHeight bf <= nHeight (ex_get 3) /\
        ancestor ex_heap 3 (nHeight bf) = Some f /\ chain_at ex_chain (nHeight bf) = Some f /\
        forall k, nHeight bf < k <= nHeight (ex_get 3) -> chain_at ex_chain k <> ancestor ex_heap 3 k
    | None => forall k, 0 <= k <= nHeight (ex_get 3) -> chain_at ex_chain k <> ancestor ex_heap 3 k
    end.
Proof. by apply (FindFork_correct ex_heap ex_heap_wf ex_chain 3 (ex_get 3)). Defined.
Lemma LastCommonAncestor_correct_witness :
  exists r br, LastCommonAncestor ex_heap 4 3 = Some (Some r) /\ ex_heap !! r = Some br /\
    nHeight br <= Z.min (nHeight (ex_get 4)) (nHeight (ex_get 3)) /\
    ancestor ex_heap 4 (nHeight br) = Some r /\ ancestor ex_heap 3 (nHeight br) = Some r /\
    forall k, nHeight br < k <= Z.min (nHeight (ex_get 4)) (nHeight (ex_get 3)) -> ancestor ex_heap 4 k <> ancestor ex_heap 3 k.
Proof. by apply (LastCommonAncestor_correct ex_heap ex_heap_wf ex_heap_root 4 3 (ex_get 4) (ex_get 3)). Defined.
Lemma GetLocator_correct_witness :
  exists hs l, GetLocator ex_heap ex_chain (Some 4) = Some l /\
    descends_to_zero (nHeight (ex_get 4) :: hs) /\ Some <$> l = hash_at ex_heap 4 <$> (nHeight (ex_get 4) :: hs).
Proof. by apply (GetLocator_correct ex_heap ex_heap_wf ex_chain ex_chain_ok 4 (ex_get 4)). Defined.
