(* ===== verification/Pow.v ===== *)
(** Difficulty: [src/src/pow.cpp] (the DarkGravityWave and proof-of-stake retargets,
    the proof-of-work check, the work of a block) and [CBlockIndex::GetBlockTrust]
    of [src/src/chain.cpp]. *)
From S2P Require Import Prelude Uint256 Encodings Compact Chain.
Import base_uint.

Definition W : nat := WIDTH256.

(** The consensus parameters of [src/src/chainparams.cpp] these functions read. *)
Record CChainParams := {
  ProofOfWorkLimit : list Z;
  LAST_POW_BLOCK : Z;
  TargetSpacing : Z;
  SkipProofOfWorkCheck : bool;
}.

(** [CMainParams] *)
Definition CMainParams : CChainParams := {|
  ProofOfWorkLimit := shr W (compl (of_uint64 W 0)) 1;
  LAST_POW_BLOCK := 500;
  TargetSpacing := 30;
  SkipProofOfWorkCheck := false;
|}.

(** The number a code stands for, the flags dropped. *)
Definition target (nBits : Z) : list Z := fst (fst (SetCompact nBits)).

(** [x *= n] and [x /= n] for an [int64_t] argument: the product converts it to
    [uint32_t], the quotient to [uint64_t] and then to [base_uint]. *)
Definition mul_i64 (x : list Z) (n : Z) : list Z := mul32 x (u32 n).
Definition div_i64 (x : list Z) (n : Z) : option (list Z) := div W x (of_uint64 W (u64 n)).

(** The state of the averaging loop. *)
Record dgw := mkDgw {
  nActualTimespan : Z;
  LastBlockTime : Z;
  CountBlocks : Z;
  PastDifficultyAverage : list Z;
  PastDifficultyAveragePrev : list Z;
}.
Definition PastBlocksMin : Z := 24.
Definition PastBlocksMax : Z := 24.

(** One round on the block [b], without the step to its predecessor. *)
Definition dgw_step (b : CBlockIndex) (st : dgw) : option dgw :=
  let CountBlocks := CountBlocks st + 1 in
  '(avg, avgPrev) ←
    (if CountBlocks <=? PastBlocksMin then
       avg ← (if CountBlocks =? 1 then Some (target (nBits b))
              else div_i64 (add (mul_i64 (PastDifficultyAveragePrev st) CountBlocks) (target (nBits b)))
                     (CountBlocks + 1));
       Some (avg, avg)
     else Some (PastDifficultyAverage st, PastDifficultyAveragePrev st));
  let nActualTimespan :=
    if LastBlockTime st >? 0 then i64 (nActualTimespan st + i64 (LastBlockTime st - GetBlockTime b))
    else nActualTimespan st in
  Some (mkDgw nActualTimespan (GetBlockTime b) CountBlocks avg avgPrev).

(** [for (unsigned int i = 1; BlockReading && BlockReading->nHeight > 0; i++)];
    the loop leaves after [PastBlocksMax] rounds, [n] are left. *)
Fixpoint dgw_loop (h : heap) (n : nat) (BlockReading : option ptr) (st : dgw) : option dgw :=
  match n, BlockReading with
  | O, _ | _, None => Some st
  | S n', Some p =>
      b ← h !! p;
      if nHeight b >? 0 then st' ← dgw_step b st; dgw_loop h n' (pprev b) st'
      else Some st
  end.

(** The proof-of-stake branch of [GetNextWorkRequired]. *)
Definition stake_target_limit : list Z := shr W (compl (of_uint64 W 0)) 24.
Definition stake_retarget (bits nActualSpacing : Z) : option Z :=
  let nTargetSpacing := 30 in
  let nTargetTimespan := 30 in
  let nActualSpacing := if nActualSpacing <? 0 then 1 else nActualSpacing in
  let nInterval := cdiv nTargetTimespan nTargetSpacing in
  let bnNew := target bits in
  let bnNew := mul_i64 bnNew ((nInterval - 1) * nTargetSpacing + nActualSpacing + nActualSpacing) in
  bnNew ← div_i64 bnNew ((nInterval + 1) * nTargetSpacing);
  let bnNew := if le bnNew (of_uint64 W 0) || gt bnNew stake_target_limit then stake_target_limit else bnNew in
  GetCompact bnNew false.

(** The end of the DarkGravityWave branch. *)
Definition dgw_retarget (params : CChainParams) (st : dgw) : option Z :=
  let bnNew := PastDifficultyAverage st in
  let _nTargetTimespan := CountBlocks st * TargetSpacing params in
  let ts := nActualTimespan st in
  let ts := if ts <? cdiv _nTargetTimespan 3 then cdiv _nTargetTimespan 3 else ts in
  let ts := if ts >? _nTargetTimespan * 3 then _nTargetTimespan * 3 else ts in
  bnNew ← div_i64 (mul_i64 bnNew ts) _nTargetTimespan;
  let bnNew := if gt bnNew (ProofOfWorkLimit params) then ProofOfWorkLimit params else bnNew in
  GetCompact bnNew false.

(** [None] is an exception, a failed assertion or a bad dereference. *)
Definition GetNextWorkRequired (params : CChainParams) (h : heap) (pindexLast : option ptr) : option Z :=
  match pindexLast with
  | None => GetCompact (ProofOfWorkLimit params) false
  | Some p =>
      b ← h !! p;
      if (nHeight b =? 0) || (nHeight b <? PastBlocksMin) then GetCompact (ProofOfWorkLimit params) false
      else if nHeight b >? LAST_POW_BLOCK params then
        pp ← pprev b; bp ← h !! pp;
        stake_retarget (nBits b) (if nHeight b =? 0 then 0 else GetBlockTime b - GetBlockTime bp)
      else
        st ← dgw_loop h (Z.to_nat PastBlocksMax) (Some p) (mkDgw 0 0 0 (zero W) (zero W));
        dgw_retarget params st
  end.

Definition CheckProofOfWork (params : CChainParams) (hash : list Z) (bits : Z) : bool :=
  if SkipProofOfWorkCheck params then true
  else
    let '(bnTarget, fNegative, fOverflow) := SetCompact bits in
    if fNegative || equal_to bnTarget 0 || fOverflow || gt bnTarget (ProofOfWorkLimit params) then false
    else true.

(** [x + 1] for a [uint256] *)
Definition add1 (x : list Z) : list Z := add x (of_uint64 W 1).

Definition GetBlockProof (b : CBlockIndex) : option (list Z) :=
  let '(bnTarget, fNegative, fOverflow) := SetCompact (nBits b) in
  if fNegative || fOverflow || equal_to bnTarget 0 then Some (of_uint64 W 0)
  else q ← div W (compl bnTarget) (add1 bnTarget); Some (add1 q).

Definition GetBlockTrust (b : CBlockIndex) : option (list Z) :=
  let bnTarget := target (nBits b) in
  if le bnTarget (of_uint64 W 0) then Some (of_uint64 W 0)
  else if IsProofOfStake b then div W (shl W (of_uint64 W 1) 256) (add1 bnTarget)
  else
    bnPoWTrust ← div W (shr W (compl (of_uint64 W 0)) 20) (add1 bnTarget);
    Some (if gt bnPoWTrust (of_uint64 W 1) then bnPoWTrust else of_uint64 W 1).

(** ** Arithmetic of targets *)

Definition limit_ok (params : CChainParams) : Prop :=
  uint256_ok (ProofOfWorkLimit params) /\ 0 < TargetSpacing params < 2 ^ 31.

Lemma target_spec c : is_u32 c -> uint256_ok (target c) /\ val (target c) = compact_value c mod 2 ^ 256.
Proof.
  intros Hc. pose proof (SetCompact_correct' c Hc) as H. unfold target.
  destruct (SetCompact c) as [[t n] o]. by destruct H as (H1 & H2 & _).
Qed.

(** A decoded target is never the all-ones number, so [target + 1] does not wrap. *)
Lemma target_not_max c : is_u32 c -> compact_value c mod 2 ^ 256 < 2 ^ 256 - 1.
Proof.
  intros Hc. destruct (compact_fields c Hc) as (_ & F2 & _ & F4).
  assert (compact_value c mod 2 ^ 256 <> 2 ^ 256 - 1) as H; [|pose proof (Z.mod_pos_bound (compact_value c) (2 ^ 256)); lia].
  unfold compact_value. destruct (Z.leb_spec (c / 2 ^ 24) 3).
  - pose proof (div_pow_range (c mod 2 ^ 23) (8 * (3 - c / 2 ^ 24)) (2 ^ 23) ltac:(lia) ltac:(lia)).
    rewrite Z.mod_small by lia. lia.
  - intros E. apply (f_equal (fun z => Z.testbit z 0)) in E.
    rewrite Z.mod_pow2_bits_low, Z.mul_pow2_bits_low in E by lia. done.
Qed.

Lemma bits256 : bmod W = 2 ^ 256.
Proof. reflexivity. Qed.

Lemma small_ok n : 0 <= n < 2 ^ 64 -> uint256_ok (of_uint64 W n) /\ val (of_uint64 W n) = n.
Proof. apply val_small_uint256. Qed.

Lemma add1_spec x : uint256_ok x -> uint256_ok (add1 x) /\ val (add1 x) = (val x + 1) mod 2 ^ 256.
Proof.
  intros Hx. destruct (small_ok 1) as [O1 V1]; [lia|]. unfold add1. split; [by apply add_ok|].
  by rewrite (val_add W), V1, bits256.
Qed.
Lemma mul_i64_spec x n : uint256_ok x -> uint256_ok (mul_i64 x n) /\ val (mul_i64 x n) = (val x * u32 n) mod 2 ^ 256.
Proof.
  intros Hx. unfold mul_i64. split; [by apply mul32_ok|]. rewrite (val_mul32 W), bits256; [done | done | apply u32_bound].
Qed.
Lemma div_i64_spec x n : uint256_ok x -> 0 < n < 2 ^ 63 ->
  exists q, div_i64 x n = Some q /\ uint256_ok q /\ val q = val x / n.
Proof.
  intros Hx Hn. unfold div_i64. rewrite u64_small by lia. destruct (small_ok n) as [On Vn]; [lia|].
  pose proof (div_spec W x (of_uint64 W n) Hx On) as H. destruct (div W x _) as [q|]; [|lia].
  destruct H as (_ & H1 & H2). rewrite Vn in H2. eauto.
Qed.
Lemma GetCompact_some x : uint256_ok x -> GetCompact x false = Some (compact_code (val x)).
Proof.
  intros Hx. pose proof (GetCompact_correct x false Hx) as G.
  destruct (compact_parts (val x)). rewrite G. cbn [andb]. by rewrite Z.add_0_r.
Qed.
Lemma val_range x : uint256_ok x -> 0 <= val x < 2 ^ 256.
Proof. rewrite <- bits256. apply val_bound. Qed.

Lemma stake_limit_spec : uint256_ok stake_target_limit /\ val stake_target_limit = 2 ^ 232 - 1.
Proof.
  assert (stake_target_limit = replicate 7 (2 ^ 32 - 1) ++ [2 ^ 8 - 1]) as -> by by vm_compute.
  split; [|by vm_compute]. split; [done|]. repeat constructor; unfold is_u32; lia.
Qed.

(** ** The proof-of-stake retarget *)

(** Its arithmetic, on numbers: the target is scaled by [2 * spacing / 60] in 256-bit
    arithmetic and clamped. *)
Definition stake_next (t spacing : Z) : Z :=
  let v := (t * u32 (2 * spacing)) mod 2 ^ 256 / 60 in
  if (v <=? 0) || (v >? 2 ^ 232 - 1) then 2 ^ 232 - 1 else v.

Lemma stake_retarget_spec c s :
  is_u32 c -> stake_retarget c s = Some (compact_code (stake_next (compact_value c mod 2 ^ 256) (if s <? 0 then 1 else s))).
Proof.
  intros Hc. destruct (target_spec c Hc) as [T1 T2]. unfold stake_retarget, stake_next.
  change (cdiv 30 30) with 1. change ((1 - 1) * 30) with 0. change ((1 + 1) * 30) with 60.
  set (s' := if s <? 0 then 1 else s). replace (0 + s' + s') with (2 * s') by lia.
  destruct (mul_i64_spec (target c) (2 * s') T1) as [M1 M2].
  destruct (div_i64_spec _ 60 M1 ltac:(lia)) as (q & -> & Q1 & Q2). cbn [mbind option_bind].
  destruct stake_limit_spec as [L1 L2]. destruct (small_ok 0) as [Z1 Z2]; [lia|].
  rewrite (leb_spec' W), (gtb_spec' W), Z2, L2, Q2, M2, T2 by done.
  set (v := _ / 60). destruct ((v <=? 0) || (v >? 2 ^ 232 - 1)).
  - by rewrite GetCompact_some, L2 by done.
  - rewrite GetCompact_some by done. by rewrite Q2, M2, T2.
Qed.

Lemma stake_next_range t s : 0 <= t -> 0 < stake_next t s <= 2 ^ 232 - 1.
Proof. intros Ht. unfold stake_next. destruct (Z.leb_spec ((t * u32 (2 * s)) mod 2 ^ 256 / 60) 0), (Z.gtb_spec ((t * u32 (2 * s)) mod 2 ^ 256 / 60) (2 ^ 232 - 1)); cbn [orb]; lia. Qed.

(** The proof-of-stake retarget always yields a code; while the product fits in
    256 bits and the spacing in 31 bits the coded target is the old one scaled by
    [2 * spacing / 60] (a negative spacing counts as one second), clamped to
    [2 ^ 232 - 1]; and a chain running at the intended 30 seconds keeps its bits. *)
Theorem stake_retarget_correct (v s : Z) (Hv : 0 < v < 2 ^ 256)
    (Hlim : compact_value (compact_code v) <= 2 ^ 232 - 1) (Hs : 0 <= s < 2 ^ 31)
    (Hfit : compact_value (compact_code v) * (2 * s) < 2 ^ 256) :
  let t := compact_value (compact_code v) in
  stake_retarget (compact_code v) s =
    Some (compact_code (let n := t * (2 * s) / 60 in
                        if (n <=? 0) || (n >? 2 ^ 232 - 1) then 2 ^ 232 - 1 else n)) /\
  stake_retarget (compact_code v) (-1 - s) = stake_retarget (compact_code v) 1 /\
  stake_retarget (compact_code v) 30 = Some (compact_code v).
Proof.
  intros t. destruct (compact_code_range v ltac:(lia)) as (R1 & _ & R3). fold t in R3, Hlim, Hfit.
  pose proof (compact_value_nonneg _ R1) as Hn. fold t in Hn.
  destruct (compact_truncates v ltac:(lia)) as (_ & _ & T3 & _). fold t in T3.
  assert (0 < t) by (pose proof (pow8_bounds (byte_len v - 1)); destruct (byte_len_bounds v ltac:(lia)); lia).
  rewrite !stake_retarget_spec by done. fold t. rewrite (Z.mod_small t) by lia.
  destruct (Z.ltb_spec s 0), (Z.ltb_spec (-1 - s) 0), (Z.ltb_spec 1 0), (Z.ltb_spec 30 0); try lia.
  unfold stake_next. split; [|split; [done|]].
  - rewrite (u32_small (2 * s)), Z.mod_small by lia. reflexivity.
  - change (u32 (2 * 30)) with 60. rewrite Z.mod_small by lia. rewrite Z.div_mul by lia.
    destruct (Z.leb_spec t 0), (Z.gtb_spec t (2 ^ 232 - 1)); try lia. cbn [orb].
    unfold t. unfold compact_code at 1. by rewrite compact_code_stable by lia.
Qed.
Lemma stake_retarget_correct_witness :
  let t := compact_value (compact_code 0xffff0000) in
  stake_retarget (compact_code 0xffff0000) 45 =
    Some (compact_code (let n := t * (2 * 45) / 60 in
                        if (n <=? 0) || (n >? 2 ^ 232 - 1) then 2 ^ 232 - 1 else n)) /\
  stake_retarget (compact_code 0xffff0000) (-1 - 45) = stake_retarget (compact_code 0xffff0000) 1 /\
  stake_retarget (compact_code 0xffff0000) 30 = Some (compact_code 0xffff0000).
Proof. apply (stake_retarget_correct 0xffff0000 45); [lia | by vm_compute | lia | by vm_compute]. Defined.

(** ** The averaging loop *)

Definition dgw_ok (st : dgw) : Prop :=
  uint256_ok (PastDifficultyAverage st) /\ uint256_ok (PastDifficultyAveragePrev st) /\ 0 <= CountBlocks st < 2 ^ 31.

Lemma dgw_step_ok b st :
  is_u32 (nBits b) -> dgw_ok st -> CountBlocks st < 2 ^ 30 ->
  exists st', dgw_step b st = Some st' /\ dgw_ok st' /\ CountBlocks st' = CountBlocks st + 1.
Proof.
  intros Hb (O1 & O2 & Hc) Hc2. destruct (target_spec _ Hb) as [T1 _]. unfold dgw_step.
  destruct (CountBlocks st + 1 <=? PastBlocksMin); cbn [mbind option_bind].
  - destruct (CountBlocks st + 1 =? 1); cbn [mbind option_bind].
    + eexists. split; [reflexivity|]. unfold dgw_ok. cbn. repeat split; try done; try apply T1; lia.
    + destruct (mul_i64_spec (PastDifficultyAveragePrev st) (CountBlocks st + 1) O2) as [M1 _].
      destruct (div_i64_spec (add (mul_i64 (PastDifficultyAveragePrev st) (CountBlocks st + 1)) (target (nBits b)))
        (CountBlocks st + 1 + 1)) as (q & -> & Q1 & _); [by apply add_ok | lia |].
      cbn [mbind option_bind]. eexists. split; [reflexivity|].
      unfold dgw_ok. cbn. repeat split; try done; try apply Q1; lia.
  - eexists. split; [reflexivity|]. unfold dgw_ok. cbn. repeat split; try apply O1; try apply O2; lia.
Qed.

(** Every block of the tree has 32-bit fields. *)
Definition header_ok (_ : ptr) (b : CBlockIndex) : Prop := is_u32 (nBits b) /\ is_u32 (nTime b).

Lemma dgw_loop_ok h n p b st :
  wf_heap h -> map_Forall header_ok h -> h !! p = Some b -> Z.of_nat n <= nHeight b ->
  dgw_ok st -> CountBlocks st + Z.of_nat n < 2 ^ 30 ->
  exists st', dgw_loop h n (Some p) st = Some st' /\ dgw_ok st' /\ CountBlocks st' = CountBlocks st + Z.of_nat n.
Proof.
  intros Hwf Hh. revert p b st. induction n as [|n IH]; intros p b st Hp Hn Hst Hc.
  - exists st. cbn. repeat split; try apply Hst. lia.
  - cbn [dgw_loop]. rewrite Hp. cbn [mbind option_bind].
    destruct (Z.gtb_spec (nHeight b) 0); [|lia].
    destruct (dgw_step_ok b st (proj1 (Hh p b Hp)) Hst ltac:(lia)) as (st1 & -> & Hok1 & Hc1). cbn [mbind option_bind].
    destruct (Hwf p b Hp) as (_ & _ & (q & c & Hq & Hcq & Hhq & _)); [lia|]. rewrite Hq.
    destruct n as [|n].
    + exists st1. cbn. split; [done|]. split; [done|]. lia.
    + destruct (IH q c st1 Hcq ltac:(lia) Hok1 ltac:(lia)) as (st' & H1 & H2 & H3).
      exists st'. split; [done|]. split; [done|]. lia.
Qed.

Lemma dgw_retarget_ok params st :
  limit_ok params -> dgw_ok st -> 0 < CountBlocks st < 2 ^ 30 ->
  exists v, dgw_retarget params st = Some (compact_code v) /\ 0 <= v <= val (ProofOfWorkLimit params).
Proof.
  intros [L1 L2] (O1 & _ & _) Hc. unfold dgw_retarget.
  set (T := CountBlocks st * TargetSpacing params). assert (0 < T < 2 ^ 63) by (unfold T; nia).
  set (ts := if _ >? T * 3 then _ else _).
  destruct (mul_i64_spec (PastDifficultyAverage st) ts O1) as [M1 M2].
  destruct (div_i64_spec _ T M1 ltac:(lia)) as (q & -> & Q1 & Q2). cbn [mbind option_bind].
  rewrite (gtb_spec' W) by done. pose proof (val_range _ L1). pose proof (val_range _ Q1).
  destruct (Z.gtb_spec (val q) (val (ProofOfWorkLimit params))).
  - rewrite GetCompact_some by done. eexists. split; [reflexivity|]. lia.
  - rewrite GetCompact_some by done. eexists. split; [reflexivity|]. lia.
Qed.

(** A target that was put into compact form is read back, rounded down. *)
Lemma code_target v : 0 <= v < 2 ^ 256 -> exists t, SetCompact (compact_code v) = (t, false, false) /\ val t <= v.
Proof.
  intros Hv. destruct (compact_code_range v ltac:(lia)) as (R1 & R2 & R3). pose proof (compact_value_nonneg _ R1).
  destruct (SetCompact_value _ R1 R2 ltac:(lia)) as (t & T1 & T2 & T3). exists t. split; [done|]. lia.
Qed.
(** C39: [GetNextWorkRequired] is total on a well-formed tree: no division by zero, no failed
    assertion, no bad dereference, whatever the times and bits of the blocks; and the code it
    returns decodes without sign or overflow.  Below height 24 it is that of the
    proof-of-work limit.  After the last block of proof of work it is the target of the last
    block times twice the time it took, modulo [2 ^ 256], over 60 (a negative time counts as
    one second, and twice the time is taken modulo [2 ^ 32]), or [2 ^ 232 - 1] where that is
    zero or above this limit.  In between, the target of DarkGravityWave is no greater than
    the proof-of-work limit. *)
Theorem GetNextWorkRequired_total (params : CChainParams) (Hlim : limit_ok params) (h : heap)
    (Hwf : wf_heap h) (Hh : map_Forall header_ok h) (p : ptr) (b : CBlockIndex) (Hp : h !! p = Some b) :
  exists c t, GetNextWorkRequired params h (Some p) = Some c /\ SetCompact c = (t, false, false) /\
    (nHeight b < 24 -> c = compact_code (val (ProofOfWorkLimit params)) /\ val t <= val (ProofOfWorkLimit params)) /\
    (24 <= nHeight b -> LAST_POW_BLOCK params < nHeight b -> exists q bq, pprev b = Some q /\ h !! q = Some bq /\
      c = compact_code (stake_next (compact_value (nBits b) mod 2 ^ 256) (if GetBlockTime b <? GetBlockTime bq then 1 else GetBlockTime b - GetBlockTime bq)) /\
      val t <= 2 ^ 232 - 1) /\
    (24 <= nHeight b <= LAST_POW_BLOCK params -> val t <= val (ProofOfWorkLimit params)).
Proof.
  destruct (Hh p b Hp) as [Hb Ht]. destruct (Hwf p b Hp) as (Hb0 & _ & Hb1). pose proof Hlim as [L1 _]. pose proof (val_range _ L1) as Lr.
  unfold GetNextWorkRequired. rewrite Hp. cbn [mbind option_bind]. unfold PastBlocksMin.
  destruct (Z.ltb_spec (nHeight b) 24) as [Hlow|Hhigh]; [|destruct (Z.gtb_spec (nHeight b) (LAST_POW_BLOCK params)) as [Hpos|Hpow]].
  - rewrite orb_true_r, GetCompact_some by done. destruct (code_target _ Lr) as (t & E & Hv). eexists _, t.
    split; [reflexivity|]. split; [exact E|]. split; [intros _; done|]. split; [lia|lia].
  - replace (nHeight b =? 0) with false by lia. cbn [orb]. destruct Hb1 as (q & cq & -> & Hcq & _); [lia|]. cbn [mbind option_bind]. rewrite Hcq. cbn [mbind option_bind].
    rewrite stake_retarget_spec by done.
    replace (GetBlockTime b - GetBlockTime cq <? 0) with (GetBlockTime b <? GetBlockTime cq) by lia.
    set (v := stake_next _ _). pose proof (stake_next_range (compact_value (nBits b) mod 2 ^ 256) (if GetBlockTime b <? GetBlockTime cq then 1 else GetBlockTime b - GetBlockTime cq)
      ltac:(apply Z.mod_pos_bound; lia)) as Hv. fold v in Hv. destruct (code_target v ltac:(lia)) as (t & E & Hvt). eexists _, t.
    split; [reflexivity|]. split; [exact E|]. split; [lia|]. split; [|lia]. intros _ _. exists q, cq. split; [done|]. split; [done|]. split; [done|]. lia.
  - replace (nHeight b =? 0) with false by lia. cbn [orb]. change (Z.to_nat PastBlocksMax) with 24%nat.
    assert (dgw_ok (mkDgw 0 0 0 (zero W) (zero W))) as Hd0
      by (unfold dgw_ok; cbn [PastDifficultyAverage PastDifficultyAveragePrev CountBlocks]; repeat split; try apply (zero_ok W); lia).
    destruct (dgw_loop_ok h 24 p b _ Hwf Hh Hp ltac:(lia) Hd0 ltac:(cbn; lia)) as (st & -> & Hst & Hc). cbn [mbind option_bind CountBlocks] in *.
    destruct (dgw_retarget_ok params st Hlim Hst ltac:(lia)) as (v & -> & Hr). destruct (code_target v ltac:(lia)) as (t & E & Hv). eexists _, t.
    split; [reflexivity|]. split; [exact E|]. split; [lia|]. split; [lia|]. intros _. lia.
Qed.

Lemma CMainParams_ok : limit_ok CMainParams.
Proof.
  split; [|cbn; lia].
  destruct (small_ok 0) as [O _]; [lia|]. apply (shr_spec W); [by apply (compl_ok W) | lia].
Qed.

(** A chain of [n] blocks with the same bits, one every 30 seconds. *)
Definition steady_block (bits n : Z) : CBlockIndex :=
  mkBlockIndex n None None 0 1 (1597078000 + 30 * n) bits 0 0.
Definition steady_chain (bits : Z) (n : nat) : heap :=
  for_range n (fun h i =>
    match link_block h (steady_block bits (Z.of_nat i + 1)) (Z.of_nat i) with
    | Some b => <[Z.of_nat i + 1 := b]> h
    | None => h
    end) {[ 0 := steady_block bits 0 ]}.

Lemma steady_chain_ok bits n : is_u32 bits -> Z.of_nat n < 2 ^ 20 ->
  wf_heap (steady_chain bits n) /\ map_Forall header_ok (steady_chain bits n) /\
  (exists b, steady_chain bits n !! Z.of_nat n = Some b /\ nHeight b = Z.of_nat n) /\
  map_Forall (fun _ b => nBits b = bits) (steady_chain bits n) /\ (forall p, Z.of_nat n < p -> steady_chain bits n !! p = None).
Proof.
  intros Hbits Hn. unfold steady_chain.
  apply (for_range_ind (fun i h => wf_heap h /\ map_Forall header_ok h /\
    (exists b, h !! Z.of_nat i = Some b /\ nHeight b = Z.of_nat i) /\
    map_Forall (fun _ b => nBits b = bits) h /\ (forall p, Z.of_nat i < p -> h !! p = None))).
  - split; [|split; [|split; [|split]]].
    + apply map_Forall_singleton. split; [cbn; lia|]. split; [done|]. cbn. lia.
    + apply map_Forall_singleton. split; [exact Hbits|]. unfold is_u32. cbn. lia.
    + eexists. split; reflexivity.
    + by apply map_Forall_singleton.
    + intros p Hp. apply lookup_singleton_ne. lia.
  - intros i h Hi (Hwf & Hh & (b & Hb & Hbh) & Hbb & Hfresh).
    destruct (link_block_core h (Z.of_nat i + 1) (Z.of_nat i) (steady_block bits (Z.of_nat i + 1)) b) as (b' & Hl & Hwf');
      [done | apply Hfresh; lia | done | lia |].
    rewrite Hl. split; [done|].
    unfold link_block in Hl. rewrite Hb in Hl. cbn [mbind option_bind] in Hl.
    destruct (BuildSkip _ _); [|done]. cbn [mbind option_bind] in Hl. injection Hl as <-.
    split; [|split; [|split]].
    + apply map_Forall_insert_2; [|done]. split; [exact Hbits|]. unfold is_u32. cbn. lia.
    + replace (Z.of_nat (S i)) with (Z.of_nat i + 1) by lia. rewrite lookup_insert_eq.
      eexists. split; [reflexivity|]. cbn. lia.
    + by apply map_Forall_insert_2.
    + intros p Hp. rewrite lookup_insert_ne by lia. apply Hfresh. lia.
Qed.

Lemma GetNextWorkRequired_total_witness :
  exists c t, GetNextWorkRequired CMainParams (steady_chain 0x207fffff 30) (Some 30) = Some c /\ SetCompact c = (t, false, false) /\
    val t <= val (ProofOfWorkLimit CMainParams).
Proof.
  destruct (steady_chain_ok 0x207fffff 30 ltac:(unfold is_u32; lia) ltac:(lia)) as (H1 & H2 & (b & Hb & Hh) & _).
  destruct (GetNextWorkRequired_total CMainParams CMainParams_ok (steady_chain 0x207fffff 30) H1 H2 30 b Hb) as (c & t & E & Ht & _ & _ & Hr).
  exists c, t. split; [exact E|]. split; [exact Ht|]. apply Hr. rewrite Hh. cbn. lia.
Defined.

(** *** The average without overflow *)

(** The running average of the loop stays within the bounds of the targets read. *)
Definition avg_within (lo hi : Z) (st : dgw) : Prop :=
  dgw_ok st /\ (0 < CountBlocks st -> PastDifficultyAverage st = PastDifficultyAveragePrev st /\
    lo <= val (PastDifficultyAverage st) <= hi).

Lemma dgw_step_avg lo hi b st :
  is_u32 (nBits b) -> lo <= val (target (nBits b)) <= hi -> hi * 25 < 2 ^ 256 ->
  avg_within lo hi st -> CountBlocks st < PastBlocksMin ->
  exists st', dgw_step b st = Some st' /\ avg_within lo hi st' /\ CountBlocks st' = CountBlocks st + 1.
Proof.
  intros Hb Ht Hhi [Hok Havg] Hc. pose proof Hok as (O1 & O2 & Hc0). destruct (target_spec _ Hb) as [T1 _].
  pose proof (val_range _ T1). unfold PastBlocksMin in *.
  destruct (dgw_step_ok b st Hb Hok ltac:(lia)) as (st' & Hs & Hok' & Hc'). exists st'.
  split; [done|]. split; [|done]. split; [done|]. intros _. unfold dgw_step, PastBlocksMin in Hs.
  destruct (Z.leb_spec (CountBlocks st + 1) 24); [|lia].
  destruct (Z.eqb_spec (CountBlocks st + 1) 1) as [E|E]; cbn [mbind option_bind] in Hs.
  - injection Hs as <-. cbn. split; [done | lia].
  - destruct (Havg ltac:(lia)) as [Ep Hp]. set (n := CountBlocks st + 1) in *.
    destruct (mul_i64_spec (PastDifficultyAveragePrev st) n O2) as [M1 M2].
    destruct (div_i64_spec (add (mul_i64 (PastDifficultyAveragePrev st) n) (target (nBits b))) (n + 1))
      as (q & Hq & Q1 & Q2); [by apply add_ok | lia |].
    rewrite Hq in Hs. cbn [mbind option_bind] in Hs. injection Hs as <-. cbn [PastDifficultyAverage PastDifficultyAveragePrev].
    split; [done|]. rewrite Ep in Hp. pose proof (val_range _ O2).
    set (v := val (PastDifficultyAveragePrev st)) in *.
    assert (lo * n <= v * n <= hi * n /\ hi * (n + 1) <= hi * 25) as [B1 B2] by nia.
    rewrite (val_add W), M2, bits256, u32_small in Q2 by (done || lia).
    rewrite (Z.mod_small (v * n)), Z.mod_small in Q2 by lia. rewrite Q2.
    split; [apply Z.div_le_lower_bound; lia | apply Z.div_le_upper_bound; lia].
Qed.

Lemma dgw_loop_avg lo hi h n p b st :
  wf_heap h -> map_Forall header_ok h -> hi * 25 < 2 ^ 256 ->
  map_Forall (fun _ b => lo <= val (target (nBits b)) <= hi) h ->
  h !! p = Some b -> Z.of_nat n <= nHeight b ->
  avg_within lo hi st -> CountBlocks st + Z.of_nat n <= PastBlocksMin ->
  exists st', dgw_loop h n (Some p) st = Some st' /\ avg_within lo hi st' /\ CountBlocks st' = CountBlocks st + Z.of_nat n.
Proof.
  intros Hwf Hh Hhi Ht. revert p b st. induction n as [|n IH]; intros p b st Hp Hn Hst Hc.
  - exists st. cbn. split; [done|]. split; [done|]. lia.
  - cbn [dgw_loop]. rewrite Hp. cbn [mbind option_bind].
    destruct (Z.gtb_spec (nHeight b) 0); [|lia].
    destruct (dgw_step_avg lo hi b st (proj1 (Hh p b Hp)) (Ht p b Hp) Hhi Hst ltac:(lia)) as (st1 & -> & Hok1 & Hc1).
    cbn [mbind option_bind].
    destruct (Hwf p b Hp) as (_ & _ & (q & c & Hq & Hcq & Hhq & _)); [lia|]. rewrite Hq.
    destruct n as [|n]; [exists st1; cbn; split; [done|]; split; [done|]; lia|].
    destruct (IH q c st1 Hcq ltac:(lia) Hok1 ltac:(lia)) as (st' & H1 & H2 & H3).
    exists st'. split; [done|]. split; [done|]. lia.
Qed.

(** The retarget of a state whose average is in range. *)
Lemma dgw_retarget_avg params lo hi st :
  limit_ok params -> avg_within lo hi st -> CountBlocks st = 24 -> TargetSpacing params < 2 ^ 24 ->
  0 <= lo -> hi * (24 * TargetSpacing params * 3) < 2 ^ 256 ->
  exists v, dgw_retarget params st = Some (compact_code v) /\
    Z.min (lo / 3) (val (ProofOfWorkLimit params)) <= v /\ v <= hi * 3 /\
    v <= val (ProofOfWorkLimit params).
Proof.
  intros [L1 L2] [(O1 & _ & _) Havg] Hc Hsp Hlo Hfit. destruct (Havg ltac:(lia)) as [_ Ha].
  unfold dgw_retarget. rewrite Hc. set (T := 24 * TargetSpacing params) in *.
  assert (24 <= T < 2 ^ 29) as HT by (unfold T; lia).
  assert (T / 3 * 3 = T) as HT3.
  { unfold T. replace (24 * TargetSpacing params) with (8 * TargetSpacing params * 3) by lia. by rewrite Z.div_mul by lia. }
  clearbody T.
  assert (cdiv T 3 = T / 3) as -> by (unfold cdiv; apply Z.quot_div_nonneg; lia).
  set (ts := if _ >? T * 3 then _ else _).
  assert (T / 3 <= ts <= T * 3) as Hts.
  { unfold ts. destruct (Z.ltb_spec (nActualTimespan st) (T / 3));
      match goal with |- context [?a >? T * 3] => destruct (Z.gtb_spec a (T * 3)) end; lia. }
  destruct (mul_i64_spec (PastDifficultyAverage st) ts O1) as [M1 M2].
  destruct (div_i64_spec _ T M1 ltac:(lia)) as (q & -> & Q1 & Q2). cbn [mbind option_bind].
  rewrite (gtb_spec' W) by done. pose proof (val_range _ L1). pose proof (val_range _ O1).
  set (a := val (PastDifficultyAverage st)) in *.
  rewrite u32_small in M2 by lia.
  assert (a * (T / 3) <= a * ts <= hi * (T * 3)) as Hm by nia.
  rewrite Z.mod_small in M2 by lia. rewrite M2 in Q2.
  assert (val q <= hi * 3) as Hq1 by (rewrite Q2; apply Z.div_le_upper_bound; nia).
  assert (lo / 3 <= val q) as Hq2.
  { rewrite Q2, <- (Z.div_mul_cancel_r lo 3 (T / 3)) by lia.
    replace (3 * (T / 3)) with T by lia. apply Z.div_le_mono; nia. }
  destruct (Z.gtb_spec (val q) (val (ProofOfWorkLimit params))); rewrite GetCompact_some by done; eexists; (split; [reflexivity|]); lia.
Qed.

(** While no intermediate product leaves 256 bits, DarkGravityWave is the
    bounded retarget it means to be: with the targets of the blocks between [lo] and
    [hi], the new target is between [lo / 3] and [3 * hi], never above the limit. *)
Theorem dark_gravity_bounds (params : CChainParams) (Hlim : limit_ok params) (Hsp : TargetSpacing params < 2 ^ 24)
    (h : heap) (Hwf : wf_heap h) (Hh : map_Forall header_ok h) (lo hi : Z) (Hlo : 0 <= lo)
    (Ht : map_Forall (fun _ b => lo <= val (target (nBits b)) <= hi) h)
    (Hfit : hi * (24 * TargetSpacing params * 3) < 2 ^ 256)
    (p : ptr) (b : CBlockIndex) (Hp : h !! p = Some b) (Hb : 24 <= nHeight b <= LAST_POW_BLOCK params) :
  exists v, GetNextWorkRequired params h (Some p) = Some (compact_code v) /\
    Z.min (lo / 3) (val (ProofOfWorkLimit params)) <= v <= Z.min (hi * 3) (val (ProofOfWorkLimit params)).
Proof.
  unfold GetNextWorkRequired. rewrite Hp. cbn [mbind option_bind]. unfold PastBlocksMin.
  destruct (Z.eqb_spec (nHeight b) 0), (Z.ltb_spec (nHeight b) 24); try lia. cbn [orb].
  destruct (Z.gtb_spec (nHeight b) (LAST_POW_BLOCK params)); [lia|]. change (Z.to_nat PastBlocksMax) with 24%nat.
  assert (hi * 25 < 2 ^ 256) as H25.
  { destruct Hlim as [_ L2]. pose proof (Ht p b Hp) as Hr. cbn beta in Hr. clear -L2 Hr Hlo Hfit.
    apply (Z.le_lt_trans _ (hi * (24 * TargetSpacing params * 3))); [|done]. clear Hfit.
    apply Z.mul_le_mono_nonneg_l; [|destruct L2; lia]. destruct Hr as [R1 R2]. exact (Z.le_trans _ _ _ Hlo (Z.le_trans _ _ _ R1 R2)). }
  destruct (dgw_loop_avg lo hi h 24 p b (mkDgw 0 0 0 (zero W) (zero W)) Hwf Hh H25 Ht Hp ltac:(lia))
    as (st & -> & Hst & Hc); [|by vm_compute|].
  { split; [|cbn [CountBlocks]; lia].
    unfold dgw_ok. cbn [PastDifficultyAverage PastDifficultyAveragePrev CountBlocks]. repeat split; try apply (zero_ok W); lia. }
  cbn [mbind option_bind CountBlocks] in *.
  destruct (dgw_retarget_avg params lo hi st Hlim Hst ltac:(lia) Hsp Hlo Hfit) as (v & Hv & B1 & B2 & B3).
  exists v. split; [done|]. lia.
Qed.

Lemma dark_gravity_bounds_witness :
  exists v, GetNextWorkRequired CMainParams (steady_chain 0x1e0fffff 40) (Some 40) = Some (compact_code v) /\
    Z.min (0x0fffff * 2 ^ 216 / 3) (val (ProofOfWorkLimit CMainParams)) <= v <=
    Z.min (0x0fffff * 2 ^ 216 * 3) (val (ProofOfWorkLimit CMainParams)).
Proof.
  destruct (steady_chain_ok 0x1e0fffff 40 ltac:(unfold is_u32; lia) ltac:(lia)) as (H1 & H2 & (b & Hb & Hn) & H4 & _).
  apply (dark_gravity_bounds CMainParams CMainParams_ok ltac:(by vm_compute) (steady_chain 0x1e0fffff 40) H1 H2
    (0x0fffff * 2 ^ 216) (0x0fffff * 2 ^ 216) ltac:(lia)) with (b := b); [| by vm_compute | done | rewrite Hn; cbn; lia].
  intros p c Hc. rewrite (H4 p c Hc). assert (val (target 0x1e0fffff) = 0x0fffff * 2 ^ 216) as -> by by vm_compute. lia.
Defined.

(** The 256-bit products of DarkGravityWave overflow for the easiest targets
    the limit allows: on a chain exactly on schedule with every block at
    [0x207fffff] (within the proof-of-work limit [~0 >> 1]) the next target is not
    that one but more than two hundred times smaller. *)
Theorem dark_gravity_overflows :
  le (target 0x207fffff) (ProofOfWorkLimit CMainParams) = true /\
  map_Forall (fun _ b => nBits b = 0x207fffff) (steady_chain 0x207fffff 30) /\
  exists c, GetNextWorkRequired CMainParams (steady_chain 0x207fffff 30) (Some 30) = Some c /\
    200 * val (target c) < val (target 0x207fffff).
Proof.
  split; [by vm_compute|]. split.
  - by destruct (steady_chain_ok 0x207fffff 30 ltac:(unfold is_u32; lia) ltac:(lia)) as (_ & _ & _ & H & _).
  - eexists. split; [by vm_compute|]. by vm_compute.
Qed.

(** ** The work of a block *)

Lemma target_succ c : is_u32 c ->
  let t := val (target c) in
  0 <= t < 2 ^ 256 - 1 /\ uint256_ok (add1 (target c)) /\ val (add1 (target c)) = t + 1.
Proof.
  intros Hc. cbn zeta. destruct (target_spec c Hc) as [T1 T2]. pose proof (target_not_max c Hc) as Hm.
  rewrite <- T2 in Hm. pose proof (val_range _ T1). destruct (add1_spec _ T1) as [A1 A2].
  rewrite Z.mod_small in A2 by lia. auto with lia.
Qed.

(** The division by [target + 1] never fails. *)
Lemma div_target_succ x c : uint256_ok x -> is_u32 c ->
  exists q, div W x (add1 (target c)) = Some q /\ uint256_ok q /\ val q = val x / (val (target c) + 1).
Proof.
  intros Hx Hc. destruct (target_succ c Hc) as (H1 & H2 & H3).
  pose proof (div_spec W _ _ Hx H2) as D. destruct (div W x _) as [q|]; [|lia].
  destruct D as (_ & D1 & D2). rewrite H3 in D2. eauto.
Qed.

(** The work credited to a block is [2 ^ 256 / (target + 1)] rounded down,
    computed without leaving 256 bits, and zero exactly for the codes that are
    zero, negative or overflowing; the division never throws. *)
Theorem GetBlockProof_correct (b : CBlockIndex) (Hb : is_u32 (nBits b)) :
  let t := compact_value (nBits b) in
  exists w, GetBlockProof b = Some w /\ uint256_ok w /\
    val w = (if (t =? 0) || Z.testbit (nBits b) 23 || (2 ^ 256 <=? t) then 0 else 2 ^ 256 / (t + 1)) /\
    (val w = 0 <-> t = 0 \/ Z.testbit (nBits b) 23 = true \/ 2 ^ 256 <= t).
Proof.
  intros t. pose proof (SetCompact_correct' _ Hb) as HS. fold t in HS.
  pose proof (compact_value_nonneg _ Hb) as Hn. fold t in Hn.
  destruct (target_succ _ Hb) as (S1 & S2 & S3). destruct (small_ok 0) as [Z1 Z2]; [lia|].
  unfold GetBlockProof. unfold target in S1, S2, S3. destruct (SetCompact (nBits b)) as [[bn neg] ov] eqn:E.
  cbn [fst] in *. destruct HS as (H1 & H2 & -> & ->).
  rewrite (equal_to_spec W) by (done || unfold W, WIDTH256; lia). rewrite H2.
  assert ((t mod 2 ^ 256 =? 0) = (t =? 0) \/ 2 ^ 256 <= t) as Hz.
  { destruct (Z.leb_spec (2 ^ 256) t); [by right | left]. by rewrite Z.mod_small by lia. }
  assert (negb (t =? 0) && Z.testbit (nBits b) 23 || (2 ^ 256 <=? t) || (t mod 2 ^ 256 =? 0) =
          (t =? 0) || Z.testbit (nBits b) 23 || (2 ^ 256 <=? t)) as ->.
  { destruct Hz as [->|Hz].
    - by destruct (t =? 0), (Z.testbit _ 23), (2 ^ 256 <=? t).
    - apply Z.leb_le in Hz. rewrite Hz. by rewrite !orb_true_r. }
  destruct ((t =? 0) || Z.testbit (nBits b) 23 || (2 ^ 256 <=? t)) eqn:G.
  - eexists. split; [reflexivity|]. split; [done|]. split; [done|]. split; [|done].
    intros _. apply orb_true_iff in G as [G|G]; [apply orb_true_iff in G as [G|G]|]; lia || auto.
  - apply orb_false_iff in G as [G G3]. apply orb_false_iff in G as [G1 G2].
    rewrite Z.mod_small in H2 by lia.
    pose proof (div_spec W _ _ (compl_ok W _ H1) S2) as D. destruct (div W _ _) as [q|]; [|lia].
    destruct D as (_ & D1 & D2). rewrite (val_compl W), bits256, S3, H2 in D2 by done.
    destruct (add1_spec q D1) as [A1 A2].
    assert (val q = 2 ^ 256 / (t + 1) - 1) as Hq.
    { rewrite D2. replace (2 ^ 256 - 1 - t) with (2 ^ 256 + (-1) * (t + 1)) by lia. rewrite Z.div_add by lia. lia. }
    assert (2 ^ 256 / (t + 1) <= 2 ^ 256 / 2) as Hd by (apply Z.div_le_compat_l; lia).
    change (2 ^ 256 / 2) with (2 ^ 255) in Hd. pose proof (val_range _ D1) as Hq0. clear D2.
    set (d := 2 ^ 256 / (t + 1)) in *. clearbody d. rewrite Hq, Z.mod_small in A2 by lia.
    eexists. split; [reflexivity|]. split; [done|]. split; [lia|]. rewrite A2. split; [lia|]. intros [?|[?|?]]; [lia|congruence|lia].
Qed.
Lemma GetBlockProof_correct_witness :
  let t := compact_value 0x1d00ffff in
  exists w, GetBlockProof (steady_block 0x1d00ffff 1) = Some w /\ uint256_ok w /\
    val w = (if (t =? 0) || Z.testbit 0x1d00ffff 23 || (2 ^ 256 <=? t) then 0 else 2 ^ 256 / (t + 1)) /\
    (val w = 0 <-> t = 0 \/ Z.testbit 0x1d00ffff 23 = true \/ 2 ^ 256 <= t).
Proof. apply (GetBlockProof_correct (steady_block 0x1d00ffff 1)). cbn. unfold is_u32. lia. Defined.

(** [GetBlockTrust] never throws, but it credits every proof-of-stake block
    with zero trust: the dividend [uint256(1) << 256] is zero. A proof-of-work block gets
    [(2 ^ 236 - 1) / (target + 1)], at least 1. *)
Theorem GetBlockTrust_correct (b : CBlockIndex) (Hb : is_u32 (nBits b)) :
  let t := compact_value (nBits b) mod 2 ^ 256 in
  exists w, GetBlockTrust b = Some w /\ uint256_ok w /\
    val w = (if (t =? 0) || IsProofOfStake b then 0 else Z.max 1 ((2 ^ 236 - 1) / (t + 1))).
Proof.
  intros t. destruct (target_spec _ Hb) as [T1 T2]. fold t in T2. destruct (small_ok 0) as [Z1 Z2]; [lia|].
  destruct (small_ok 1) as [O1 O2]; [lia|]. destruct (target_succ _ Hb) as (S1 & S2 & S3).
  assert (0 <= t) by (apply Z.mod_pos_bound; lia).
  unfold GetBlockTrust. rewrite (leb_spec' W), Z2, T2 by done.
  destruct (Z.leb_spec t 0), (Z.eqb_spec t 0); try lia; cbn [orb].
  - eexists. split; [reflexivity|]. done.
  - destruct (IsProofOfStake b).
    + destruct (shl_spec W (of_uint64 W 1) 256 O1 ltac:(lia)) as [L1 L2].
      rewrite O2, bits256, Z.mul_1_l, Z.mod_same in L2 by done.
      destruct (div_target_succ _ (nBits b) L1 Hb) as (q & -> & Q1 & Q2). rewrite L2, Z.div_0_l in Q2 by lia. eauto.
    + destruct (shr_spec W (compl (of_uint64 W 0)) 20 (compl_ok W _ Z1) ltac:(lia)) as [L1 L2].
      rewrite (val_compl W), Z2, bits256 in L2 by done. change ((2 ^ 256 - 1 - 0) / 2 ^ 20) with (2 ^ 236 - 1) in L2.
      destruct (div_target_succ _ (nBits b) L1 Hb) as (q & -> & Q1 & Q2). cbn [mbind option_bind].
      rewrite L2, T2 in Q2. rewrite (gtb_spec' W), O2 by done. eexists. split; [reflexivity|].
      destruct (Z.gtb_spec (val q) 1); [split; [done | lia] | split; [done | rewrite O2; lia]].
Qed.
Lemma GetBlockTrust_correct_witness :
  let t := compact_value 0x1d00ffff mod 2 ^ 256 in
  exists w, GetBlockTrust (mkBlockIndex 1 None None 600 1 1597078000 0x1d00ffff 1 0) = Some w /\ uint256_ok w /\
    val w = (if (t =? 0) || IsProofOfStake (mkBlockIndex 1 None None 600 1 1597078000 0x1d00ffff 1 0) then 0
             else Z.max 1 ((2 ^ 236 - 1) / (t + 1))).
Proof.
  apply (GetBlockTrust_correct (mkBlockIndex 1 None None 600 1 1597078000 0x1d00ffff 1 0)). cbn. unfold is_u32. lia.
Defined.

(** [CheckProofOfWork] accepts exactly the codes of a positive target up to the
    limit, and its answer does not depend on the hash at all: the comparison that
    would make it a proof-of-work check is commented out. *)
Theorem CheckProofOfWork_ignores_hash (params : CChainParams) (Hlim : limit_ok params)
    (Hskip : SkipProofOfWorkCheck params = false) (hash : list Z) (bits : Z) (Hbits : is_u32 bits) :
  let t := compact_value bits in
  CheckProofOfWork params hash bits =
    (0 <? t) && negb (Z.testbit bits 23) && (t <=? val (ProofOfWorkLimit params)) /\
  forall hash', CheckProofOfWork params hash' bits = CheckProofOfWork params hash bits.
Proof.
  intros t. split; [|reflexivity]. unfold CheckProofOfWork. rewrite Hskip.
  pose proof (SetCompact_correct' _ Hbits) as HS. fold t in HS.
  pose proof (compact_value_nonneg _ Hbits) as Hn. fold t in Hn.
  destruct (SetCompact bits) as [[bn neg] ov]. destruct HS as (H1 & H2 & -> & ->). destruct Hlim as [L1 _].
  pose proof (val_range _ L1).
  rewrite (equal_to_spec W), (gtb_spec' W), H2 by (done || unfold W, WIDTH256; lia).
  destruct (Z.leb_spec (2 ^ 256) t).
  - rewrite !orb_true_r. cbn [orb]. destruct (Z.leb_spec t (val (ProofOfWorkLimit params))); [lia|]. by rewrite andb_false_r.
  - rewrite !Z.mod_small by lia.
    destruct (Z.eqb_spec t 0), (Z.ltb_spec 0 t), (Z.testbit bits 23), (Z.gtb_spec t (val (ProofOfWorkLimit params))),
      (Z.leb_spec t (val (ProofOfWorkLimit params))); cbn; try lia; done.
Qed.
Lemma CheckProofOfWork_ignores_hash_witness :
  let t := compact_value 0x1d00ffff in
  CheckProofOfWork CMainParams (compl (zero W)) 0x1d00ffff =
    (0 <? t) && negb (Z.testbit 0x1d00ffff 23) && (t <=? val (ProofOfWorkLimit CMainParams)) /\
  forall hash', CheckProofOfWork CMainParams hash' 0x1d00ffff = CheckProofOfWork CMainParams (compl (zero W)) 0x1d00ffff.
Proof.
  apply (CheckProofOfWork_ignores_hash CMainParams CMainParams_ok); [done | unfold is_u32; lia].
Defined.
