(* ===== verification/Stream.v ===== *)
(** The buffering every hasher of [src/src/crypto/] shares: [Write], [Finalize] and
    [Reset] of [CSHA256], [CSHA512], [CSHA1] and [CRIPEMD160] are the same text, up to
    the block size, the compression function and the way words are stored. The class
    [Algo] states what changes, and the theorems of this file reduce a hasher that is
    fed a message in pieces to its one-shot padded definition. *)
From S2P Require Import Prelude.

(** What one algorithm brings: the block and length-field sizes, the initial state,
    the compression function, the length field and the output. *)
Record Algo := mkAlgo {
  State : Type;
  block : nat;
  lenfield : nat;
  Initialize : State;
  Transform : State -> list Z -> State;
  sizedesc : Z -> list Z;
  output : State -> list Z;
}.

(** A hasher object: [s], the array [buf] and the [size_t] counter [bytes]. *)
Record hasher (A : Algo) := mkHasher {
  s : State A;
  buf : list Z;
  bytes : Z;
}.
Arguments mkHasher {A} _ _ _.
Arguments s {A} _.
Arguments buf {A} _.
Arguments bytes {A} _.

(** [memcpy(dst + off, src, |src|)] *)
Definition memcpy (dst : list Z) (off : nat) (src : list Z) : list Z :=
  take off dst ++ src ++ drop (off + length src) dst.

Section hashers.
Context (A : Algo).

(** The constructor; the array is not initialised, its content is [junk]. *)
Definition construct (junk : list Z) : hasher A := mkHasher (Initialize A) junk 0.
Definition Reset (h : hasher A) : hasher A := mkHasher (Initialize A) (buf h) 0.

(** [while (end >= data + 64)]: full blocks straight from the source. *)
Fixpoint Write_loop (fuel : nat) (st : State A) (bytes : Z) (data : list Z) : State A * Z * list Z :=
  match fuel with
  | O => (st, bytes, data)
  | S fuel' =>
      if (block A <=? length data)%nat then
        Write_loop fuel' (Transform A st (take (block A) data)) (u64 (bytes + Z.of_nat (block A))) (drop (block A) data)
      else (st, bytes, data)
  end.

Definition Write (h : hasher A) (data : list Z) : hasher A :=
  let len := Z.of_nat (length data) in
  let bufsize := Z.to_nat (bytes h mod Z.of_nat (block A)) in
  let '(st, b, n, data, bufsize) :=
    if negb (bufsize =? 0)%nat && (u64 (Z.of_nat bufsize + len) >=? Z.of_nat (block A)) then
      let b := memcpy (buf h) bufsize (take (block A - bufsize) data) in
      (Transform A (s h) b, b, u64 (bytes h + Z.of_nat (block A - bufsize)), drop (block A - bufsize) data, O)
    else (s h, buf h, bytes h, data, bufsize) in
  let '(st, n, data) := Write_loop (length data) st n data in
  match data with
  | [] => mkHasher st b n
  | _ => mkHasher st (memcpy b bufsize data) (u64 (n + Z.of_nat (length data)))
  end.

(** The object after the call, and the bytes written to [hash]. *)
Definition Finalize (h : hasher A) : hasher A * list Z :=
  let sizedesc := sizedesc A (u64 (Z.shiftl (bytes h) 3)) in
  let pad := 0x80 :: replicate (block A - 1) 0 in
  let n := 1 + (Z.of_nat (block A) + (Z.of_nat (block A) - Z.of_nat (lenfield A)) - 1 - bytes h mod Z.of_nat (block A))
             mod Z.of_nat (block A) in
  let h := Write h (take (Z.to_nat n) pad) in
  let h := Write h sizedesc in
  (h, output A (s h)).

(** ** The one-shot definition *)

(** The compression function over the full blocks of [m]. *)
Fixpoint absorb_loop (fuel : nat) (st : State A) (m : list Z) : State A :=
  match fuel with
  | O => st
  | S fuel' => if (block A <=? length m)%nat then absorb_loop fuel' (Transform A st (take (block A) m)) (drop (block A) m) else st
  end.
Definition absorb (st : State A) (m : list Z) : State A := absorb_loop (length m) st m.

(** A one bit, the least number of zero bytes, and the length of the message in bits. *)
Definition zeros (len : nat) : nat :=
  Z.to_nat ((Z.of_nat (block A) - Z.of_nat (lenfield A) - 1 - Z.of_nat len) mod Z.of_nat (block A)).
Definition padded (m : list Z) : list Z :=
  m ++ 0x80 :: replicate (zeros (length m)) 0 ++ sizedesc A (8 * Z.of_nat (length m) mod 2 ^ 64).
Definition digest (m : list Z) : list Z := output A (absorb (Initialize A) (padded m)).

(** ** Blocks *)

(** What the proofs need of an algorithm. *)
Definition algo_ok : Prop :=
  (0 < lenfield A < block A)%nat /\ Z.of_nat (block A) < 2 ^ 32 /\ (exists k, 2 ^ 64 = Z.of_nat (block A) * k) /\
  forall n, length (sizedesc A n) = lenfield A.
Context (HA : algo_ok).

Lemma absorb_fuel f1 f2 st m :
  (length m <= f1)%nat -> (length m <= f2)%nat -> absorb_loop f1 st m = absorb_loop f2 st m.
Proof using HA.
  destruct HA as (HB & _). revert f2 st m. induction f1 as [|f1 IH]; intros [|f2] st m H1 H2.
  - done.
  - cbn. destruct (Nat.leb_spec (block A) (length m)); [lia | done].
  - cbn. destruct (Nat.leb_spec (block A) (length m)); [lia | done].
  - cbn. destruct (Nat.leb_spec (block A) (length m)); [|done]. apply IH; rewrite length_drop; lia.
Qed.

Lemma absorb_short st m : (length m < block A)%nat -> absorb st m = st.
Proof using HA.
  intros H. unfold absorb. destruct m as [|x m]; [done|]. cbn [absorb_loop length] in *.
  destruct (Nat.leb_spec (block A) (S (length m))); [lia | done].
Qed.
Lemma absorb_block st b m : length b = block A -> absorb st (b ++ m) = absorb (Transform A st b) m.
Proof using HA.
  intros Hb. destruct HA as (HB & _). unfold absorb at 1.
  destruct (length (b ++ m)) as [|n] eqn:E; rewrite length_app in E; [lia|].
  cbn [absorb_loop]. rewrite length_app. destruct (Nat.leb_spec (block A) (length b + length m)); [|lia].
  rewrite <- Hb, take_app_length, drop_app_length. apply absorb_fuel; lia.
Qed.
Lemma absorb_one st b : length b = block A -> absorb st b = Transform A st b.
Proof using HA.
  intros Hb. pose proof HA as (HB & _). rewrite <- (app_nil_r b) at 1. rewrite absorb_block by done.
  apply absorb_short. cbn. lia.
Qed.
Lemma absorb_app k st m1 m2 : length m1 = (k * block A)%nat -> absorb st (m1 ++ m2) = absorb (absorb st m1) m2.
Proof using HA.
  destruct HA as (HB & _). revert st m1. induction k as [|k IH]; intros st m1 H.
  - destruct m1; [|done]. by rewrite (absorb_short st []) by (cbn; lia).
  - assert (length (take (block A) m1) = block A) as Ht by (rewrite length_take; lia).
    assert (length (drop (block A) m1) = (k * block A)%nat) as Hd by (rewrite length_drop; lia).
    rewrite <- (take_drop (block A) m1). revert Ht Hd.
    generalize (drop (block A) m1), (take (block A) m1). intros r b Ht Hd.
    rewrite <- (assoc_L (++)), (absorb_block st b), (absorb_block st b) by done. by apply IH.
Qed.

(** ** The buffer invariant *)

(** The hasher has seen [m]: the full blocks are in the state, the rest in the buffer. *)
Definition seen (h : hasher A) (m : list Z) : Prop :=
  exists k m1 t, m = m1 ++ t /\ length m1 = (k * block A)%nat /\ (length t < block A)%nat /\
    s h = absorb (Initialize A) m1 /\ length (buf h) = block A /\ take (length t) (buf h) = t /\
    bytes h = u64 (Z.of_nat (length m)).

Lemma bytes_mod (n : Z) : u64 n mod Z.of_nat (block A) = n mod Z.of_nat (block A).
Proof using HA.
  destruct HA as (HB & _ & (k & Hk) & _). unfold u64. rewrite Hk.
  assert (k <> 0) by lia.
  rewrite Z.rem_mul_r by lia. rewrite (Z.mul_comm (Z.of_nat (block A))), Z.mod_add by lia. by rewrite Z.mod_mod by lia.
Qed.
Lemma seen_bufsize (h : hasher A) (k : nat) (m1 t : list Z) :
  length m1 = (k * block A)%nat -> (length t < block A)%nat -> bytes h = u64 (Z.of_nat (length (m1 ++ t))) ->
  bytes h mod Z.of_nat (block A) = Z.of_nat (length t).
Proof using HA.
  intros H1 H2 ->. destruct HA as (HB & _). rewrite bytes_mod, length_app, H1, Nat2Z.inj_add, Nat2Z.inj_mul, Z.add_comm.
  rewrite Z.mod_add by lia. apply Z.mod_small. lia.
Qed.

Lemma Write_loop_spec fuel st n data :
  (length data <= fuel)%nat ->
  exists k d1 d2, Write_loop fuel st n data = (absorb st d1, if (length d1 =? 0)%nat then n else u64 (n + Z.of_nat (length d1)), d2) /\
    data = d1 ++ d2 /\ length d1 = (k * block A)%nat /\ (length d2 < block A)%nat.
Proof using HA.
  destruct HA as (HB & _). revert st n data. induction fuel as [|fuel IH]; intros st n data Hf.
  - exists O, [], data. destruct data; [|cbn in Hf; lia]. cbn. split; [done|]. split; [done|]. lia.
  - cbn [Write_loop]. destruct (Nat.leb_spec (block A) (length data)) as [Hl|Hl].
    + destruct (IH (Transform A st (take (block A) data)) (u64 (n + Z.of_nat (block A))) (drop (block A) data))
        as (k & d1 & d2 & -> & Hd & Hk & H2); [rewrite length_drop; lia|].
      exists (S k), (take (block A) data ++ d1), d2.
      assert (length (take (block A) data) = block A) as Ht by (rewrite length_take; lia).
      rewrite absorb_block by done. rewrite <- (assoc_L (++)), <- Hd, take_drop, length_app, Ht.
      split; [|split; [done | split; lia]]. f_equal. f_equal.
      destruct (Nat.eqb_spec (length d1) 0) as [E|E], (Nat.eqb_spec (block A + length d1) 0) as [F|F]; try lia.
      * rewrite E. by rewrite Nat.add_0_r.
      * unfold u64. rewrite Zplus_mod_idemp_l. f_equal. lia.
    + exists O, [], data. split; [|split; [done | split; [done | lia]]]. by rewrite absorb_short by (cbn; lia).
Qed.

Lemma take_memcpy dst off src :
  (off + length src <= length dst)%nat ->
  length (memcpy dst off src) = length dst /\ take (off + length src) (memcpy dst off src) = take off dst ++ src.
Proof using.
  intros H. unfold memcpy. assert (length (take off dst) = off) as Ho by (rewrite length_take; lia).
  split; [rewrite !length_app, length_drop, Ho; lia|].
  rewrite (assoc_L (++)). apply take_app_length'. by rewrite length_app, Ho.
Qed.

Lemma u64_assoc a b : u64 (u64 a + b) = u64 (a + b).
Proof using. unfold u64. apply Zplus_mod_idemp_l. Qed.

(** The tail of [Write]: full blocks of the source, then the rest into the buffer. *)
Lemma Write_tail st b k m1 t n data :
  length m1 = (k * block A)%nat -> length b = block A -> take (length t) b = t ->
  st = absorb (Initialize A) m1 -> n = u64 (Z.of_nat (length (m1 ++ t))) ->
  t = [] \/ (length t + length data < block A)%nat ->
  seen (let '(st, n, data) := Write_loop (length data) st n data in
        match data with
        | [] => mkHasher st b n
        | _ => mkHasher st (memcpy b (length t) data) (u64 (n + Z.of_nat (length data)))
        end) ((m1 ++ t) ++ data).
Proof using HA.
  intros H1 Hb Ht -> -> Hcase. pose proof HA as (HB & _).
  destruct (Write_loop_spec (length data) (absorb (Initialize A) m1) (u64 (Z.of_nat (length (m1 ++ t)))) data)
    as (j & d1 & d2 & -> & Hd & Hj & H2); [lia|].
  assert (t = [] \/ d1 = []) as Hc.
  { destruct Hcase as [->|Hc]; [by left | right].
    apply (f_equal length) in Hd. rewrite length_app in Hd. destruct d1; [done|]. cbn [length] in *. destruct j; lia. }
  assert ((if (length d1 =? 0)%nat then u64 (Z.of_nat (length (m1 ++ t))) else
           u64 (u64 (Z.of_nat (length (m1 ++ t))) + Z.of_nat (length d1))) = u64 (Z.of_nat (length ((m1 ++ t) ++ d1)))) as ->.
  { destruct (Nat.eqb_spec (length d1) 0) as [E|E].
    - destruct d1; [|done]. by rewrite app_nil_r.
    - rewrite u64_assoc. f_equal. rewrite !length_app. lia. }
  rewrite <- (absorb_app k) by done.
  assert (length (m1 ++ d1) = ((k + j) * block A)%nat) as Hl by (rewrite length_app; lia).
  assert ((m1 ++ t) ++ data = (m1 ++ d1) ++ t ++ d2) as ->.
  { subst data. destruct Hc as [-> | ->]; cbn; rewrite ?app_nil_r, ?(assoc_L (++)); done. }
  assert (length t + length d2 < block A)%nat as Hlt.
  { destruct Hcase as [->|Hc']; [cbn; lia|]. subst data. rewrite length_app in Hc'. lia. }
  exists (k + j)%nat, (m1 ++ d1), (t ++ d2). rewrite (length_app t). split; [done|]. split; [done|]. split; [lia|].
  assert (length ((m1 ++ d1) ++ t ++ d2) = (length ((m1 ++ t) ++ d1) + length d2)%nat) as -> by (rewrite !length_app; lia).
  destruct d2 as [|x d2]; cbn [s buf bytes].
  - rewrite app_nil_r. repeat split; try done; cbn [length]; by rewrite Nat.add_0_r.
  - destruct (take_memcpy b (length t) (x :: d2)) as [M1 M2]; [lia|].
    rewrite M1, M2, Ht, u64_assoc, Nat2Z.inj_add. done.
Qed.

Lemma Write_seen h m data :
  seen h m -> Z.of_nat (length data) < 2 ^ 63 -> seen (Write h data) (m ++ data).
Proof using HA.
  intros (k & m1 & t & -> & H1 & H2 & Hs & Hb & Ht & Hn) Hlen. pose proof HA as (HB & HB' & _).
  unfold Write. rewrite (seen_bufsize h k m1 t) by done. rewrite Nat2Z.id, u64_small by lia.
  destruct (Nat.eqb_spec (length t) 0) as [E|E].
  - destruct t; [|done]. cbn [negb andb length] in *.
    apply (Write_tail _ _ k m1 [] _ data); try done. by left.
  - cbn [negb andb]. destruct (Z.geb_spec (Z.of_nat (length t) + Z.of_nat (length data)) (Z.of_nat (block A))) as [G|G].
    + set (d1 := take (block A - length t) data).
      assert (length d1 = (block A - length t)%nat) as Hd1 by (unfold d1; rewrite length_take; lia).
      destruct (take_memcpy (buf h) (length t) d1) as [M1 M2]; [lia|].
      rewrite take_ge, Ht in M2 by lia. rewrite M2.
      assert (length (t ++ d1) = block A) as Hf by (rewrite length_app; lia).
      replace ((m1 ++ t) ++ data) with (((m1 ++ (t ++ d1)) ++ []) ++ drop (block A - length t) data).
      2: { rewrite app_nil_r, <- !(assoc_L (++)). unfold d1. by rewrite take_drop. }
      apply (Write_tail _ _ (S k) (m1 ++ (t ++ d1)) []); try done.
      * rewrite length_app, H1, Hf. lia.
      * by rewrite (absorb_app k), absorb_one, Hs by done.
      * rewrite app_nil_r, Hn, u64_assoc. f_equal. rewrite !length_app. lia.
      * by left.
    + apply (Write_tail _ _ k m1 t _ data); try done. right. lia.
Qed.

Lemma construct_seen junk : length junk = block A -> seen (construct junk) [].
Proof using HA.
  intros Hj. pose proof HA as (HB & _). exists O, [], []. cbn. repeat split; try done; try lia.
Qed.
Lemma Reset_seen h m : seen h m -> seen (Reset h) [].
Proof using HA.
  intros (k & m1 & t & -> & _ & _ & _ & Hb & _). pose proof HA as (HB & _). exists O, [], []. cbn. repeat split; try done; try lia.
Qed.

(** A hasher that has seen [m] finalizes to the one-shot digest of [m]. *)
Lemma Finalize_seen h m : seen h m -> exists h', Finalize h = (h', digest m) /\ seen h' (padded m).
Proof using HA.
  intros Hs. pose proof HA as (HB & HB' & _ & HL). pose proof Hs as (k & m1 & t & Hm & H1 & H2 & _ & _ & _ & Hn).
  set (Bz := Z.of_nat (block A)). set (Lz := Z.of_nat (lenfield A)).
  assert (bytes h mod Bz = Z.of_nat (length t)) as Hbm by (apply (seen_bufsize h k m1 t); by rewrite <- ?Hm).
  assert (Z.of_nat (length m) mod Bz = Z.of_nat (length t)) as Hmm by (by rewrite <- Hbm, Hn, bytes_mod).
  unfold Finalize, digest. fold Bz Lz. rewrite Hbm.
  set (n := (Bz + (Bz - Lz) - 1 - Z.of_nat (length t)) mod Bz).
  assert (Z.of_nat (zeros (length m)) = n) as Hz.
  { unfold zeros. fold Bz Lz. rewrite Z2Nat.id by (apply Z.mod_pos_bound; lia). unfold n.
    rewrite <- (Z.mod_add (Bz - Lz - 1 - Z.of_nat (length m)) 1) by lia.
    rewrite <- Hmm. rewrite Zminus_mod_idemp_r. f_equal. lia. }
  assert (0 <= n < Bz) as Hn1 by (apply Z.mod_pos_bound; lia).
  replace (Z.to_nat (1 + n)) with (S (zeros (length m))) by lia.
  set (pad := take _ _). assert (pad = 0x80 :: replicate (zeros (length m)) 0) as Hpad.
  { unfold pad. cbn [take]. f_equal. rewrite take_replicate. f_equal. lia. }
  assert (Z.of_nat (length pad) = 1 + n) as Hlp by (rewrite Hpad; cbn [length]; rewrite length_replicate; lia).
  pose proof (Write_seen h m pad Hs ltac:(lia)) as W1.
  assert (u64 (Z.shiftl (bytes h) 3) = 8 * Z.of_nat (length m) mod 2 ^ 64) as ->.
  { rewrite Hn. unfold u64. rewrite Z.shiftl_mul_pow2 by lia. rewrite Zmult_mod_idemp_l. f_equal. lia. }
  pose proof (Write_seen _ _ (sizedesc A (8 * Z.of_nat (length m) mod 2 ^ 64)) W1 ltac:(rewrite HL; lia)) as W2.
  assert ((m ++ pad) ++ sizedesc A (8 * Z.of_nat (length m) mod 2 ^ 64) = padded m) as Hp.
  { unfold padded. rewrite Hpad, <- (assoc_L (++)). done. }
  rewrite Hp in W2. eexists. split; [|exact W2]. f_equal. destruct W2 as (k' & p1 & t' & Hpp & Hk & Hlt & -> & _ & _ & _).
  assert (length (padded m) mod block A = 0)%nat as Hdiv.
  { apply Nat2Z.inj. rewrite Nat2Z.inj_mod. fold Bz.
    rewrite <- Hp, !length_app, HL, !Nat2Z.inj_add, Hlp. fold Lz.
    unfold n. rewrite <- Hmm. rewrite Zminus_mod_idemp_r.
    rewrite <- Zplus_mod_idemp_l. rewrite Z.add_assoc, Zplus_mod_idemp_r, Zplus_mod_idemp_l.
    replace (Z.of_nat (length m) + 1 + (Bz + (Bz - Lz) - 1 - Z.of_nat (length m)) + Lz) with (0 + 2 * Bz) by lia.
    by rewrite Z.mod_add by lia. }
  assert (t' = []) as ->.
  { rewrite Hpp, length_app, Hk, Nat.add_comm, Nat.Div0.mod_add, Nat.mod_small in Hdiv by lia. by destruct t'. }
  by rewrite Hpp, app_nil_r.
Qed.

Lemma pieces_seen h m pieces :
  seen h m -> Forall (fun d => Z.of_nat (length d) < 2 ^ 63) pieces -> seen (foldl Write h pieces) (m ++ concat pieces).
Proof using HA.
  intros Hs Hp. revert h m Hs. induction Hp as [|d ds Hd Hds IH]; intros h m Hs; cbn; [by rewrite app_nil_r|].
  rewrite (assoc_L (++)). apply IH. by apply Write_seen.
Qed.

(** Feeding a hasher the pieces of a message, then finalizing, is hashing the message. *)
Lemma digest_pieces junk pieces :
  length junk = block A -> Forall (fun d => Z.of_nat (length d) < 2 ^ 63) pieces ->
  snd (Finalize (foldl Write (construct junk) pieces)) = digest (concat pieces).
Proof using HA.
  intros Hj Hp. pose proof (pieces_seen _ [] pieces (construct_seen junk Hj) Hp) as Hs.
  destruct (Finalize_seen _ _ Hs) as (h' & -> & _). done.
Qed.
End hashers.

(** Compression functions and length fields that agree give the same digests. *)
Lemma absorb_loop_ext St b l i T T' sd sd' out n st p :
  (forall st c, T st c = T' st c) ->
  absorb_loop (mkAlgo St b l i T sd out) n st p = absorb_loop (mkAlgo St b l i T' sd' out) n st p.
Proof.
  intros HT. revert st p. induction n as [|n IH]; intros st p; [reflexivity|]. cbn [absorb_loop block Transform].
  rewrite HT. destruct (b <=? length p)%nat; [apply IH | reflexivity].
Qed.
Lemma digest_ext St b l i T T' sd sd' out m :
  (forall st c, T st c = T' st c) -> (forall n, 0 <= n < 2 ^ 64 -> sd n = sd' n) ->
  digest (mkAlgo St b l i T sd out) m = digest (mkAlgo St b l i T' sd' out) m.
Proof.
  intros HT Hsd. unfold digest, absorb. cbn [output Initialize]. f_equal.
  assert (padded (mkAlgo St b l i T sd out) m = padded (mkAlgo St b l i T' sd' out) m) as ->.
  { unfold padded, zeros. cbn [block lenfield sizedesc]. rewrite Hsd by (apply Z.mod_pos_bound; lia). reflexivity. }
  by apply absorb_loop_ext.
Qed.
