(* ===== verification/Sha2.v ===== *)
(** SHA-256 and SHA-512: [src/src/crypto/sha256.cpp], [src/src/crypto/sha512.cpp]. The
    compression functions are transcribed with their unrolled rounds and their sixteen
    rotating words; the reference [Fips] is FIPS 180-4 with its message schedule, and
    its constants computed from the roots of the first primes. *)
From S2P Require Import Prelude Stream.

(** ** Words in memory ([src/src/crypto/common.h]) *)

Definition ReadBE32 (ptr : list Z) (off : nat) : Z := of_le_bytes (rev (take 4 (drop off ptr))).
Definition ReadBE64 (ptr : list Z) (off : nat) : Z := of_le_bytes (rev (take 8 (drop off ptr))).
Definition ReadLE32 (ptr : list Z) (off : nat) : Z := of_le_bytes (take 4 (drop off ptr)).
Definition WriteBE32 (x : Z) : list Z := rev (le_bytes 4 x).
Definition WriteBE64 (x : Z) : list Z := rev (le_bytes 8 x).
Definition WriteLE32 (x : Z) : list Z := le_bytes 4 x.
Definition WriteLE64 (x : Z) : list Z := le_bytes 8 x.

(** The working variables [a] to [h], and the array [s]. *)
Definition regs : Type := Z * Z * Z * Z * Z * Z * Z * Z.

Module sha256.

Definition Ch (x y z : Z) : Z := Z.lxor z (Z.land x (Z.lxor y z)).
Definition Maj (x y z : Z) : Z := Z.lor (Z.land x y) (Z.land z (Z.lor x y)).
Definition Sigma0 (x : Z) : Z :=
  Z.lxor (Z.lxor (Z.lor (Z.shiftr x 2) (u32 (Z.shiftl x 30))) (Z.lor (Z.shiftr x 13) (u32 (Z.shiftl x 19)))) (Z.lor (Z.shiftr x 22) (u32 (Z.shiftl x 10))).
Definition Sigma1 (x : Z) : Z :=
  Z.lxor (Z.lxor (Z.lor (Z.shiftr x 6) (u32 (Z.shiftl x 26))) (Z.lor (Z.shiftr x 11) (u32 (Z.shiftl x 21)))) (Z.lor (Z.shiftr x 25) (u32 (Z.shiftl x 7))).
Definition sigma0 (x : Z) : Z :=
  Z.lxor (Z.lxor (Z.lor (Z.shiftr x 7) (u32 (Z.shiftl x 25))) (Z.lor (Z.shiftr x 18) (u32 (Z.shiftl x 14)))) (Z.shiftr x 3).
Definition sigma1 (x : Z) : Z :=
  Z.lxor (Z.lxor (Z.lor (Z.shiftr x 17) (u32 (Z.shiftl x 15))) (Z.lor (Z.shiftr x 19) (u32 (Z.shiftl x 13)))) (Z.shiftr x 10).

(** One round; the updated [d] and [h]. *)
Definition Round (a b c d e f g h k w : Z) : Z * Z :=
  let t1 := u32 (h + Sigma1 e + Ch e f g + k + w) in
  let t2 := u32 (Sigma0 a + Maj a b c) in
  (u32 (d + t1), u32 (t1 + t2)).

Definition Initialize : regs :=
  (0x6a09e667, 0xbb67ae85, 0x3c6ef372, 0xa54ff53a, 0x510e527f, 0x9b05688c, 0x1f83d9ab, 0x5be0cd19).

(** The unrolled rounds, sixteen at a time, and the words they leave. *)
Definition rounds_0 (r : regs) (chunk : list Z) : regs * list Z :=
  let '(a, b, c, d, e, f, g, h) := r in
  let w0 := ReadBE32 chunk 0 in let '(d, h) := Round a b c d e f g h 0x428a2f98 w0 in
  let w1 := ReadBE32 chunk 4 in let '(c, g) := Round h a b c d e f g 0x71374491 w1 in
  let w2 := ReadBE32 chunk 8 in let '(b, f) := Round g h a b c d e f 0xb5c0fbcf w2 in
  let w3 := ReadBE32 chunk 12 in let '(a, e) := Round f g h a b c d e 0xe9b5dba5 w3 in
  let w4 := ReadBE32 chunk 16 in let '(h, d) := Round e f g h a b c d 0x3956c25b w4 in
  let w5 := ReadBE32 chunk 20 in let '(g, c) := Round d e f g h a b c 0x59f111f1 w5 in
  let w6 := ReadBE32 chunk 24 in let '(f, b) := Round c d e f g h a b 0x923f82a4 w6 in
  let w7 := ReadBE32 chunk 28 in let '(e, a) := Round b c d e f g h a 0xab1c5ed5 w7 in
  let w8 := ReadBE32 chunk 32 in let '(d, h) := Round a b c d e f g h 0xd807aa98 w8 in
  let w9 := ReadBE32 chunk 36 in let '(c, g) := Round h a b c d e f g 0x12835b01 w9 in
  let w10 := ReadBE32 chunk 40 in let '(b, f) := Round g h a b c d e f 0x243185be w10 in
  let w11 := ReadBE32 chunk 44 in let '(a, e) := Round f g h a b c d e 0x550c7dc3 w11 in
  let w12 := ReadBE32 chunk 48 in let '(h, d) := Round e f g h a b c d 0x72be5d74 w12 in
  let w13 := ReadBE32 chunk 52 in let '(g, c) := Round d e f g h a b c 0x80deb1fe w13 in
  let w14 := ReadBE32 chunk 56 in let '(f, b) := Round c d e f g h a b 0x9bdc06a7 w14 in
  let w15 := ReadBE32 chunk 60 in let '(e, a) := Round b c d e f g h a 0xc19bf174 w15 in
  ((a, b, c, d, e, f, g, h), [w0; w1; w2; w3; w4; w5; w6; w7; w8; w9; w10; w11; w12; w13; w14; w15]).

Definition rounds_16 (r : regs) (w : list Z) : regs * list Z :=
  let '(a, b, c, d, e, f, g, h) := r in
  match w with
  | [w0; w1; w2; w3; w4; w5; w6; w7; w8; w9; w10; w11; w12; w13; w14; w15] =>
  let w0 := u32 (w0 + (sigma1 w14 + w9 + sigma0 w1)) in let '(d, h) := Round a b c d e f g h 0xe49b69c1 w0 in
  let w1 := u32 (w1 + (sigma1 w15 + w10 + sigma0 w2)) in let '(c, g) := Round h a b c d e f g 0xefbe4786 w1 in
  let w2 := u32 (w2 + (sigma1 w0 + w11 + sigma0 w3)) in let '(b, f) := Round g h a b c d e f 0x0fc19dc6 w2 in
  let w3 := u32 (w3 + (sigma1 w1 + w12 + sigma0 w4)) in let '(a, e) := Round f g h a b c d e 0x240ca1cc w3 in
  let w4 := u32 (w4 + (sigma1 w2 + w13 + sigma0 w5)) in let '(h, d) := Round e f g h a b c d 0x2de92c6f w4 in
  let w5 := u32 (w5 + (sigma1 w3 + w14 + sigma0 w6)) in let '(g, c) := Round d e f g h a b c 0x4a7484aa w5 in
  let w6 := u32 (w6 + (sigma1 w4 + w15 + sigma0 w7)) in let '(f, b) := Round c d e f g h a b 0x5cb0a9dc w6 in
  let w7 := u32 (w7 + (sigma1 w5 + w0 + sigma0 w8)) in let '(e, a) := Round b c d e f g h a 0x76f988da w7 in
  let w8 := u32 (w8 + (sigma1 w6 + w1 + sigma0 w9)) in let '(d, h) := Round a b c d e f g h 0x983e5152 w8 in
  let w9 := u32 (w9 + (sigma1 w7 + w2 + sigma0 w10)) in let '(c, g) := Round h a b c d e f g 0xa831c66d w9 in
  let w10 := u32 (w10 + (sigma1 w8 + w3 + sigma0 w11)) in let '(b, f) := Round g h a b c d e f 0xb00327c8 w10 in
  let w11 := u32 (w11 + (sigma1 w9 + w4 + sigma0 w12)) in let '(a, e) := Round f g h a b c d e 0xbf597fc7 w11 in
  let w12 := u32 (w12 + (sigma1 w10 + w5 + sigma0 w13)) in let '(h, d) := Round e f g h a b c d 0xc6e00bf3 w12 in
  let w13 := u32 (w13 + (sigma1 w11 + w6 + sigma0 w14)) in let '(g, c) := Round d e f g h a b c 0xd5a79147 w13 in
  let w14 := u32 (w14 + (sigma1 w12 + w7 + sigma0 w15)) in let '(f, b) := Round c d e f g h a b 0x06ca6351 w14 in
  let w15 := u32 (w15 + (sigma1 w13 + w8 + sigma0 w0)) in let '(e, a) := Round b c d e f g h a 0x14292967 w15 in
  ((a, b, c, d, e, f, g, h), [w0; w1; w2; w3; w4; w5; w6; w7; w8; w9; w10; w11; w12; w13; w14; w15])
  | _ => (r, w)
  end.

Definition rounds_32 (r : regs) (w : list Z) : regs * list Z :=
  let '(a, b, c, d, e, f, g, h) := r in
  match w with
  | [w0; w1; w2; w3; w4; w5; w6; w7; w8; w9; w10; w11; w12; w13; w14; w15] =>
  let w0 := u32 (w0 + (sigma1 w14 + w9 + sigma0 w1)) in let '(d, h) := Round a b c d e f g h 0x27b70a85 w0 in
  let w1 := u32 (w1 + (sigma1 w15 + w10 + sigma0 w2)) in let '(c, g) := Round h a b c d e f g 0x2e1b2138 w1 in
  let w2 := u32 (w2 + (sigma1 w0 + w11 + sigma0 w3)) in let '(b, f) := Round g h a b c d e f 0x4d2c6dfc w2 in
  let w3 := u32 (w3 + (sigma1 w1 + w12 + sigma0 w4)) in let '(a, e) := Round f g h a b c d e 0x53380d13 w3 in
  let w4 := u32 (w4 + (sigma1 w2 + w13 + sigma0 w5)) in let '(h, d) := Round e f g h a b c d 0x650a7354 w4 in
  let w5 := u32 (w5 + (sigma1 w3 + w14 + sigma0 w6)) in let '(g, c) := Round d e f g h a b c 0x766a0abb w5 in
  let w6 := u32 (w6 + (sigma1 w4 + w15 + sigma0 w7)) in let '(f, b) := Round c d e f g h a b 0x81c2c92e w6 in
  let w7 := u32 (w7 + (sigma1 w5 + w0 + sigma0 w8)) in let '(e, a) := Round b c d e f g h a 0x92722c85 w7 in
  let w8 := u32 (w8 + (sigma1 w6 + w1 + sigma0 w9)) in let '(d, h) := Round a b c d e f g h 0xa2bfe8a1 w8 in
  let w9 := u32 (w9 + (sigma1 w7 + w2 + sigma0 w10)) in let '(c, g) := Round h a b c d e f g 0xa81a664b w9 in
  let w10 := u32 (w10 + (sigma1 w8 + w3 + sigma0 w11)) in let '(b, f) := Round g h a b c d e f 0xc24b8b70 w10 in
  let w11 := u32 (w11 + (sigma1 w9 + w4 + sigma0 w12)) in let '(a, e) := Round f g h a b c d e 0xc76c51a3 w11 in
  let w12 := u32 (w12 + (sigma1 w10 + w5 + sigma0 w13)) in let '(h, d) := Round e f g h a b c d 0xd192e819 w12 in
  let w13 := u32 (w13 + (sigma1 w11 + w6 + sigma0 w14)) in let '(g, c) := Round d e f g h a b c 0xd6990624 w13 in
  let w14 := u32 (w14 + (sigma1 w12 + w7 + sigma0 w15)) in let '(f, b) := Round c d e f g h a b 0xf40e3585 w14 in
  let w15 := u32 (w15 + (sigma1 w13 + w8 + sigma0 w0)) in let '(e, a) := Round b c d e f g h a 0x106aa070 w15 in
  ((a, b, c, d, e, f, g, h), [w0; w1; w2; w3; w4; w5; w6; w7; w8; w9; w10; w11; w12; w13; w14; w15])
  | _ => (r, w)
  end.

Definition rounds_48 (r : regs) (w : list Z) : regs * list Z :=
  let '(a, b, c, d, e, f, g, h) := r in
  match w with
  | [w0; w1; w2; w3; w4; w5; w6; w7; w8; w9; w10; w11; w12; w13; w14; w15] =>
  let w0 := u32 (w0 + (sigma1 w14 + w9 + sigma0 w1)) in let '(d, h) := Round a b c d e f g h 0x19a4c116 w0 in
  let w1 := u32 (w1 + (sigma1 w15 + w10 + sigma0 w2)) in let '(c, g) := Round h a b c d e f g 0x1e376c08 w1 in
  let w2 := u32 (w2 + (sigma1 w0 + w11 + sigma0 w3)) in let '(b, f) := Round g h a b c d e f 0x2748774c w2 in
  let w3 := u32 (w3 + (sigma1 w1 + w12 + sigma0 w4)) in let '(a, e) := Round f g h a b c d e 0x34b0bcb5 w3 in
  let w4 := u32 (w4 + (sigma1 w2 + w13 + sigma0 w5)) in let '(h, d) := Round e f g h a b c d 0x391c0cb3 w4 in
  let w5 := u32 (w5 + (sigma1 w3 + w14 + sigma0 w6)) in let '(g, c) := Round d e f g h a b c 0x4ed8aa4a w5 in
  let w6 := u32 (w6 + (sigma1 w4 + w15 + sigma0 w7)) in let '(f, b) := Round c d e f g h a b 0x5b9cca4f w6 in
  let w7 := u32 (w7 + (sigma1 w5 + w0 + sigma0 w8)) in let '(e, a) := Round b c d e f g h a 0x682e6ff3 w7 in
  let w8 := u32 (w8 + (sigma1 w6 + w1 + sigma0 w9)) in let '(d, h) := Round a b c d e f g h 0x748f82ee w8 in
  let w9 := u32 (w9 + (sigma1 w7 + w2 + sigma0 w10)) in let '(c, g) := Round h a b c d e f g 0x78a5636f w9 in
  let w10 := u32 (w10 + (sigma1 w8 + w3 + sigma0 w11)) in let '(b, f) := Round g h a b c d e f 0x84c87814 w10 in
  let w11 := u32 (w11 + (sigma1 w9 + w4 + sigma0 w12)) in let '(a, e) := Round f g h a b c d e 0x8cc70208 w11 in
  let w12 := u32 (w12 + (sigma1 w10 + w5 + sigma0 w13)) in let '(h, d) := Round e f g h a b c d 0x90befffa w12 in
  let w13 := u32 (w13 + (sigma1 w11 + w6 + sigma0 w14)) in let '(g, c) := Round d e f g h a b c 0xa4506ceb w13 in
  let w14 := u32 (w14 + (sigma1 w12 + w7 + sigma0 w15)) in let '(f, b) := Round c d e f g h a b 0xbef9a3f7 w14 in
  let w15 := u32 (w15 + (sigma1 w13 + w8 + sigma0 w0)) in let '(e, a) := Round b c d e f g h a 0xc67178f2 w15 in
  ((a, b, c, d, e, f, g, h), [w0; w1; w2; w3; w4; w5; w6; w7; w8; w9; w10; w11; w12; w13; w14; w15])
  | _ => (r, w)
  end.

Definition Transform (st : regs) (chunk : list Z) : regs :=
  let '(r, w) := rounds_0 st chunk in
  let '(r, w) := rounds_16 r w in
  let '(r, w) := rounds_32 r w in
  let '(r, w) := rounds_48 r w in
  let '(a, b, c, d, e, f, g, h) := r in
  let '(s0, s1, s2, s3, s4, s5, s6, s7) := st in
  (u32 (s0 + a), u32 (s1 + b), u32 (s2 + c), u32 (s3 + d), u32 (s4 + e), u32 (s5 + f), u32 (s6 + g), u32 (s7 + h)).

Definition output (st : regs) : list Z :=
  let '(s0, s1, s2, s3, s4, s5, s6, s7) := st in
  concat (map WriteBE32 [s0; s1; s2; s3; s4; s5; s6; s7]).

End sha256.

Module sha512.

Definition Ch (x y z : Z) : Z := Z.lxor z (Z.land x (Z.lxor y z)).
Definition Maj (x y z : Z) : Z := Z.lor (Z.land x y) (Z.land z (Z.lor x y)).
Definition Sigma0 (x : Z) : Z :=
  Z.lxor (Z.lxor (Z.lor (Z.shiftr x 28) (u64 (Z.shiftl x 36))) (Z.lor (Z.shiftr x 34) (u64 (Z.shiftl x 30)))) (Z.lor (Z.shiftr x 39) (u64 (Z.shiftl x 25))).
Definition Sigma1 (x : Z) : Z :=
  Z.lxor (Z.lxor (Z.lor (Z.shiftr x 14) (u64 (Z.shiftl x 50))) (Z.lor (Z.shiftr x 18) (u64 (Z.shiftl x 46)))) (Z.lor (Z.shiftr x 41) (u64 (Z.shiftl x 23))).
Definition sigma0 (x : Z) : Z :=
  Z.lxor (Z.lxor (Z.lor (Z.shiftr x 1) (u64 (Z.shiftl x 63))) (Z.lor (Z.shiftr x 8) (u64 (Z.shiftl x 56)))) (Z.shiftr x 7).
Definition sigma1 (x : Z) : Z :=
  Z.lxor (Z.lxor (Z.lor (Z.shiftr x 19) (u64 (Z.shiftl x 45))) (Z.lor (Z.shiftr x 61) (u64 (Z.shiftl x 3)))) (Z.shiftr x 6).

(** One round; the updated [d] and [h]. *)
Definition Round (a b c d e f g h k w : Z) : Z * Z :=
  let t1 := u64 (h + Sigma1 e + Ch e f g + k + w) in
  let t2 := u64 (Sigma0 a + Maj a b c) in
  (u64 (d + t1), u64 (t1 + t2)).

Definition Initialize : regs :=
  (0x6a09e667f3bcc908, 0xbb67ae8584caa73b, 0x3c6ef372fe94f82b, 0xa54ff53a5f1d36f1, 0x510e527fade682d1, 0x9b05688c2b3e6c1f, 0x1f83d9abfb41bd6b, 0x5be0cd19137e2179).

(** The unrolled rounds, sixteen at a time, and the words they leave. *)
Definition rounds_0 (r : regs) (chunk : list Z) : regs * list Z :=
  let '(a, b, c, d, e, f, g, h) := r in
  let w0 := ReadBE64 chunk 0 in let '(d, h) := Round a b c d e f g h 0x428a2f98d728ae22 w0 in
  let w1 := ReadBE64 chunk 8 in let '(c, g) := Round h a b c d e f g 0x7137449123ef65cd w1 in
  let w2 := ReadBE64 chunk 16 in let '(b, f) := Round g h a b c d e f 0xb5c0fbcfec4d3b2f w2 in
  let w3 := ReadBE64 chunk 24 in let '(a, e) := Round f g h a b c d e 0xe9b5dba58189dbbc w3 in
  let w4 := ReadBE64 chunk 32 in let '(h, d) := Round e f g h a b c d 0x3956c25bf348b538 w4 in
  let w5 := ReadBE64 chunk 40 in let '(g, c) := Round d e f g h a b c 0x59f111f1b605d019 w5 in
  let w6 := ReadBE64 chunk 48 in let '(f, b) := Round c d e f g h a b 0x923f82a4af194f9b w6 in
  let w7 := ReadBE64 chunk 56 in let '(e, a) := Round b c d e f g h a 0xab1c5ed5da6d8118 w7 in
  let w8 := ReadBE64 chunk 64 in let '(d, h) := Round a b c d e f g h 0xd807aa98a3030242 w8 in
  let w9 := ReadBE64 chunk 72 in let '(c, g) := Round h a b c d e f g 0x12835b0145706fbe w9 in
  let w10 := ReadBE64 chunk 80 in let '(b, f) := Round g h a b c d e f 0x243185be4ee4b28c w10 in
  let w11 := ReadBE64 chunk 88 in let '(a, e) := Round f g h a b c d e 0x550c7dc3d5ffb4e2 w11 in
  let w12 := ReadBE64 chunk 96 in let '(h, d) := Round e f g h a b c d 0x72be5d74f27b896f w12 in
  let w13 := ReadBE64 chunk 104 in let '(g, c) := Round d e f g h a b c 0x80deb1fe3b1696b1 w13 in
  let w14 := ReadBE64 chunk 112 in let '(f, b) := Round c d e f g h a b 0x9bdc06a725c71235 w14 in
  let w15 := ReadBE64 chunk 120 in let '(e, a) := Round b c d e f g h a 0xc19bf174cf692694 w15 in
  ((a, b, c, d, e, f, g, h), [w0; w1; w2; w3; w4; w5; w6; w7; w8; w9; w10; w11; w12; w13; w14; w15]).

Definition rounds_16 (r : regs) (w : list Z) : regs * list Z :=
  let '(a, b, c, d, e, f, g, h) := r in
  match w with
  | [w0; w1; w2; w3; w4; w5; w6; w7; w8; w9; w10; w11; w12; w13; w14; w15] =>
  let w0 := u64 (w0 + (sigma1 w14 + w9 + sigma0 w1)) in let '(d, h) := Round a b c d e f g h 0xe49b69c19ef14ad2 w0 in
  let w1 := u64 (w1 + (sigma1 w15 + w10 + sigma0 w2)) in let '(c, g) := Round h a b c d e f g 0xefbe4786384f25e3 w1 in
  let w2 := u64 (w2 + (sigma1 w0 + w11 + sigma0 w3)) in let '(b, f) := Round g h a b c d e f 0x0fc19dc68b8cd5b5 w2 in
  let w3 := u64 (w3 + (sigma1 w1 + w12 + sigma0 w4)) in let '(a, e) := Round f g h a b c d e 0x240ca1cc77ac9c65 w3 in
  let w4 := u64 (w4 + (sigma1 w2 + w13 + sigma0 w5)) in let '(h, d) := Round e f g h a b c d 0x2de92c6f592b0275 w4 in
  let w5 := u64 (w5 + (sigma1 w3 + w14 + sigma0 w6)) in let '(g, c) := Round d e f g h a b c 0x4a7484aa6ea6e483 w5 in
  let w6 := u64 (w6 + (sigma1 w4 + w15 + sigma0 w7)) in let '(f, b) := Round c d e f g h a b 0x5cb0a9dcbd41fbd4 w6 in
  let w7 := u64 (w7 + (sigma1 w5 + w0 + sigma0 w8)) in let '(e, a) := Round b c d e f g h a 0x76f988da831153b5 w7 in
  let w8 := u64 (w8 + (sigma1 w6 + w1 + sigma0 w9)) in let '(d, h) := Round a b c d e f g h 0x983e5152ee66dfab w8 in
  let w9 := u64 (w9 + (sigma1 w7 + w2 + sigma0 w10)) in let '(c, g) := Round h a b c d e f g 0xa831c66d2db43210 w9 in
  let w10 := u64 (w10 + (sigma1 w8 + w3 + sigma0 w11)) in let '(b, f) := Round g h a b c d e f 0xb00327c898fb213f w10 in
  let w11 := u64 (w11 + (sigma1 w9 + w4 + sigma0 w12)) in let '(a, e) := Round f g h a b c d e 0xbf597fc7beef0ee4 w11 in
  let w12 := u64 (w12 + (sigma1 w10 + w5 + sigma0 w13)) in let '(h, d) := Round e f g h a b c d 0xc6e00bf33da88fc2 w12 in
  let w13 := u64 (w13 + (sigma1 w11 + w6 + sigma0 w14)) in let '(g, c) := Round d e f g h a b c 0xd5a79147930aa725 w13 in
  let w14 := u64 (w14 + (sigma1 w12 + w7 + sigma0 w15)) in let '(f, b) := Round c d e f g h a b 0x06ca6351e003826f w14 in
  let w15 := u64 (w15 + (sigma1 w13 + w8 + sigma0 w0)) in let '(e, a) := Round b c d e f g h a 0x142929670a0e6e70 w15 in
  ((a, b, c, d, e, f, g, h), [w0; w1; w2; w3; w4; w5; w6; w7; w8; w9; w10; w11; w12; w13; w14; w15])
  | _ => (r, w)
  end.

Definition rounds_32 (r : regs) (w : list Z) : regs * list Z :=
  let '(a, b, c, d, e, f, g, h) := r in
  match w with
  | [w0; w1; w2; w3; w4; w5; w6; w7; w8; w9; w10; w11; w12; w13; w14; w15] =>
  let w0 := u64 (w0 + (sigma1 w14 + w9 + sigma0 w1)) in let '(d, h) := Round a b c d e f g h 0x27b70a8546d22ffc w0 in
  let w1 := u64 (w1 + (sigma1 w15 + w10 + sigma0 w2)) in let '(c, g) := Round h a b c d e f g 0x2e1b21385c26c926 w1 in
  let w2 := u64 (w2 + (sigma1 w0 + w11 + sigma0 w3)) in let '(b, f) := Round g h a b c d e f 0x4d2c6dfc5ac42aed w2 in
  let w3 := u64 (w3 + (sigma1 w1 + w12 + sigma0 w4)) in let '(a, e) := Round f g h a b c d e 0x53380d139d95b3df w3 in
  let w4 := u64 (w4 + (sigma1 w2 + w13 + sigma0 w5)) in let '(h, d) := Round e f g h a b c d 0x650a73548baf63de w4 in
  let w5 := u64 (w5 + (sigma1 w3 + w14 + sigma0 w6)) in let '(g, c) := Round d e f g h a b c 0x766a0abb3c77b2a8 w5 in
  let w6 := u64 (w6 + (sigma1 w4 + w15 + sigma0 w7)) in let '(f, b) := Round c d e f g h a b 0x81c2c92e47edaee6 w6 in
  let w7 := u64 (w7 + (sigma1 w5 + w0 + sigma0 w8)) in let '(e, a) := Round b c d e f g h a 0x92722c851482353b w7 in
  let w8 := u64 (w8 + (sigma1 w6 + w1 + sigma0 w9)) in let '(d, h) := Round a b c d e f g h 0xa2bfe8a14cf10364 w8 in
  let w9 := u64 (w9 + (sigma1 w7 + w2 + sigma0 w10)) in let '(c, g) := Round h a b c d e f g 0xa81a664bbc423001 w9 in
  let w10 := u64 (w10 + (sigma1 w8 + w3 + sigma0 w11)) in let '(b, f) := Round g h a b c d e f 0xc24b8b70d0f89791 w10 in
  let w11 := u64 (w11 + (sigma1 w9 + w4 + sigma0 w12)) in let '(a, e) := Round f g h a b c d e 0xc76c51a30654be30 w11 in
  let w12 := u64 (w12 + (sigma1 w10 + w5 + sigma0 w13)) in let '(h, d) := Round e f g h a b c d 0xd192e819d6ef5218 w12 in
  let w13 := u64 (w13 + (sigma1 w11 + w6 + sigma0 w14)) in let '(g, c) := Round d e f g h a b c 0xd69906245565a910 w13 in
  let w14 := u64 (w14 + (sigma1 w12 + w7 + sigma0 w15)) in let '(f, b) := Round c d e f g h a b 0xf40e35855771202a w14 in
  let w15 := u64 (w15 + (sigma1 w13 + w8 + sigma0 w0)) in let '(e, a) := Round b c d e f g h a 0x106aa07032bbd1b8 w15 in
  ((a, b, c, d, e, f, g, h), [w0; w1; w2; w3; w4; w5; w6; w7; w8; w9; w10; w11; w12; w13; w14; w15])
  | _ => (r, w)
  end.

Definition rounds_48 (r : regs) (w : list Z) : regs * list Z :=
  let '(a, b, c, d, e, f, g, h) := r in
  match w with
  | [w0; w1; w2; w3; w4; w5; w6; w7; w8; w9; w10; w11; w12; w13; w14; w15] =>
  let w0 := u64 (w0 + (sigma1 w14 + w9 + sigma0 w1)) in let '(d, h) := Round a b c d e f g h 0x19a4c116b8d2d0c8 w0 in
  let w1 := u64 (w1 + (sigma1 w15 + w10 + sigma0 w2)) in let '(c, g) := Round h a b c d e f g 0x1e376c085141ab53 w1 in
  let w2 := u64 (w2 + (sigma1 w0 + w11 + sigma0 w3)) in let '(b, f) := Round g h a b c d e f 0x2748774cdf8eeb99 w2 in
  let w3 := u64 (w3 + (sigma1 w1 + w12 + sigma0 w4)) in let '(a, e) := Round f g h a b c d e 0x34b0bcb5e19b48a8 w3 in
  let w4 := u64 (w4 + (sigma1 w2 + w13 + sigma0 w5)) in let '(h, d) := Round e f g h a b c d 0x391c0cb3c5c95a63 w4 in
  let w5 := u64 (w5 + (sigma1 w3 + w14 + sigma0 w6)) in let '(g, c) := Round d e f g h a b c 0x4ed8aa4ae3418acb w5 in
  let w6 := u64 (w6 + (sigma1 w4 + w15 + sigma0 w7)) in let '(f, b) := Round c d e f g h a b 0x5b9cca4f7763e373 w6 in
  let w7 := u64 (w7 + (sigma1 w5 + w0 + sigma0 w8)) in let '(e, a) := Round b c d e f g h a 0x682e6ff3d6b2b8a3 w7 in
  let w8 := u64 (w8 + (sigma1 w6 + w1 + sigma0 w9)) in let '(d, h) := Round a b c d e f g h 0x748f82ee5defb2fc w8 in
  let w9 := u64 (w9 + (sigma1 w7 + w2 + sigma0 w10)) in let '(c, g) := Round h a b c d e f g 0x78a5636f43172f60 w9 in
  let w10 := u64 (w10 + (sigma1 w8 + w3 + sigma0 w11)) in let '(b, f) := Round g h a b c d e f 0x84c87814a1f0ab72 w10 in
  let w11 := u64 (w11 + (sigma1 w9 + w4 + sigma0 w12)) in let '(a, e) := Round f g h a b c d e 0x8cc702081a6439ec w11 in
  let w12 := u64 (w12 + (sigma1 w10 + w5 + sigma0 w13)) in let '(h, d) := Round e f g h a b c d 0x90befffa23631e28 w12 in
  let w13 := u64 (w13 + (sigma1 w11 + w6 + sigma0 w14)) in let '(g, c) := Round d e f g h a b c 0xa4506cebde82bde9 w13 in
  let w14 := u64 (w14 + (sigma1 w12 + w7 + sigma0 w15)) in let '(f, b) := Round c d e f g h a b 0xbef9a3f7b2c67915 w14 in
  let w15 := u64 (w15 + (sigma1 w13 + w8 + sigma0 w0)) in let '(e, a) := Round b c d e f g h a 0xc67178f2e372532b w15 in
  ((a, b, c, d, e, f, g, h), [w0; w1; w2; w3; w4; w5; w6; w7; w8; w9; w10; w11; w12; w13; w14; w15])
  | _ => (r, w)
  end.

Definition rounds_64 (r : regs) (w : list Z) : regs * list Z :=
  let '(a, b, c, d, e, f, g, h) := r in
  match w with
  | [w0; w1; w2; w3; w4; w5; w6; w7; w8; w9; w10; w11; w12; w13; w14; w15] =>
  let w0 := u64 (w0 + (sigma1 w14 + w9 + sigma0 w1)) in let '(d, h) := Round a b c d e f g h 0xca273eceea26619c w0 in
  let w1 := u64 (w1 + (sigma1 w15 + w10 + sigma0 w2)) in let '(c, g) := Round h a b c d e f g 0xd186b8c721c0c207 w1 in
  let w2 := u64 (w2 + (sigma1 w0 + w11 + sigma0 w3)) in let '(b, f) := Round g h a b c d e f 0xeada7dd6cde0eb1e w2 in
  let w3 := u64 (w3 + (sigma1 w1 + w12 + sigma0 w4)) in let '(a, e) := Round f g h a b c d e 0xf57d4f7fee6ed178 w3 in
  let w4 := u64 (w4 + (sigma1 w2 + w13 + sigma0 w5)) in let '(h, d) := Round e f g h a b c d 0x06f067aa72176fba w4 in
  let w5 := u64 (w5 + (sigma1 w3 + w14 + sigma0 w6)) in let '(g, c) := Round d e f g h a b c 0x0a637dc5a2c898a6 w5 in
  let w6 := u64 (w6 + (sigma1 w4 + w15 + sigma0 w7)) in let '(f, b) := Round c d e f g h a b 0x113f9804bef90dae w6 in
  let w7 := u64 (w7 + (sigma1 w5 + w0 + sigma0 w8)) in let '(e, a) := Round b c d e f g h a 0x1b710b35131c471b w7 in
  let w8 := u64 (w8 + (sigma1 w6 + w1 + sigma0 w9)) in let '(d, h) := Round a b c d e f g h 0x28db77f523047d84 w8 in
  let w9 := u64 (w9 + (sigma1 w7 + w2 + sigma0 w10)) in let '(c, g) := Round h a b c d e f g 0x32caab7b40c72493 w9 in
  let w10 := u64 (w10 + (sigma1 w8 + w3 + sigma0 w11)) in let '(b, f) := Round g h a b c d e f 0x3c9ebe0a15c9bebc w10 in
  let w11 := u64 (w11 + (sigma1 w9 + w4 + sigma0 w12)) in let '(a, e) := Round f g h a b c d e 0x431d67c49c100d4c w11 in
  let w12 := u64 (w12 + (sigma1 w10 + w5 + sigma0 w13)) in let '(h, d) := Round e f g h a b c d 0x4cc5d4becb3e42b6 w12 in
  let w13 := u64 (w13 + (sigma1 w11 + w6 + sigma0 w14)) in let '(g, c) := Round d e f g h a b c 0x597f299cfc657e2a w13 in
  let w14 := u64 (w14 + (sigma1 w12 + w7 + sigma0 w15)) in let '(f, b) := Round c d e f g h a b 0x5fcb6fab3ad6faec w14 in
  let w15 := u64 (w15 + (sigma1 w13 + w8 + sigma0 w0)) in let '(e, a) := Round b c d e f g h a 0x6c44198c4a475817 w15 in
  ((a, b, c, d, e, f, g, h), [w0; w1; w2; w3; w4; w5; w6; w7; w8; w9; w10; w11; w12; w13; w14; w15])
  | _ => (r, w)
  end.

Definition Transform (st : regs) (chunk : list Z) : regs :=
  let '(r, w) := rounds_0 st chunk in
  let '(r, w) := rounds_16 r w in
  let '(r, w) := rounds_32 r w in
  let '(r, w) := rounds_48 r w in
  let '(r, w) := rounds_64 r w in
  let '(a, b, c, d, e, f, g, h) := r in
  let '(s0, s1, s2, s3, s4, s5, s6, s7) := st in
  (u64 (s0 + a), u64 (s1 + b), u64 (s2 + c), u64 (s3 + d), u64 (s4 + e), u64 (s5 + f), u64 (s6 + g), u64 (s7 + h)).

Definition output (st : regs) : list Z :=
  let '(s0, s1, s2, s3, s4, s5, s6, s7) := st in
  concat (map WriteBE64 [s0; s1; s2; s3; s4; s5; s6; s7]).

End sha512.
(** ** The hasher classes *)

Definition CSHA256 : Algo :=
  mkAlgo regs 64 8 sha256.Initialize sha256.Transform WriteBE64 sha256.output.
Definition CSHA512 : Algo :=
  mkAlgo regs 128 16 sha512.Initialize sha512.Transform (fun n => replicate 8 0 ++ WriteBE64 n) sha512.output.

Definition CSHA256_Write : hasher CSHA256 -> list Z -> hasher CSHA256 := Write CSHA256.
Definition CSHA256_Finalize : hasher CSHA256 -> hasher CSHA256 * list Z := Finalize CSHA256.
Definition CSHA256_Reset : hasher CSHA256 -> hasher CSHA256 := Reset CSHA256.
Definition CSHA512_Write : hasher CSHA512 -> list Z -> hasher CSHA512 := Write CSHA512.
Definition CSHA512_Finalize : hasher CSHA512 -> hasher CSHA512 * list Z := Finalize CSHA512.
Definition CSHA512_Reset : hasher CSHA512 -> hasher CSHA512 := Reset CSHA512.

(** ** Message schedules *)

(** A schedule that grows a list of words by one word computed from the last sixteen;
    [new] reads the word [n] places back. *)
Section schedule.
Context (new : (nat -> Z) -> Z).
Definition extend (W : list Z) : list Z := W ++ [new (fun n => nth (length W - n) W 0)].
Definition next (W : list Z) : list Z := drop 16 (Nat.iter 16 extend W).

Context (new_local : forall f g, (forall n, (1 <= n <= 16)%nat -> f n = g n) -> new f = new g).
Lemma extend_app pre W : (16 <= length W)%nat -> extend (pre ++ W) = pre ++ extend W.
Proof using new_local.
  intros HW. unfold extend. rewrite <- (assoc_L (++)). do 3 f_equal. apply new_local. intros n Hn.
  rewrite length_app, app_nth2 by lia. f_equal. lia.
Qed.
Lemma extend_length W : length (extend W) = S (length W).
Proof using. unfold extend. rewrite length_app. cbn. lia. Qed.
Lemma iter_extend_length n W : length (Nat.iter n extend W) = (n + length W)%nat.
Proof using. induction n as [|n IH]; [done|]. rewrite Nat.iter_succ, extend_length, IH. done. Qed.
Lemma iter_extend_app n pre W : (16 <= length W)%nat -> Nat.iter n extend (pre ++ W) = pre ++ Nat.iter n extend W.
Proof using new_local.
  intros HW. induction n as [|n IH]; [done|]. rewrite !Nat.iter_succ. rewrite IH. apply extend_app. rewrite iter_extend_length. lia.
Qed.
Lemma next_length W : length W = 16%nat -> length (next W) = 16%nat.
Proof using. intros HW. unfold next. rewrite length_drop, iter_extend_length. lia. Qed.
Lemma iter_extend_prefix n W : take (length W) (Nat.iter n extend W) = W.
Proof using.
  induction n as [|n IH]; [apply take_ge; done|]. rewrite !Nat.iter_succ. unfold extend at 1.
  rewrite take_app_le; [done|]. rewrite iter_extend_length. lia.
Qed.
Lemma iter_split k n W : length W = 16%nat ->
  Nat.iter (k + n) extend W = W ++ Nat.iter n extend (drop 16 (Nat.iter k extend W)) \/ (k < 16)%nat.
Proof using new_local.
  intros HW. destruct (Nat.ltb_spec k 16) as [Hk|Hk]; [by right | left].
  rewrite Nat.add_comm, Nat.iter_add. pose proof (iter_extend_prefix k W) as Hp. rewrite HW in Hp.
  transitivity (Nat.iter n extend (W ++ drop 16 (Nat.iter k extend W))).
  - f_equal. transitivity (take 16 (Nat.iter k extend W) ++ drop 16 (Nat.iter k extend W)).
    + symmetry. apply take_drop.
    + by rewrite Hp.
  - apply iter_extend_app. rewrite length_drop, iter_extend_length. lia.
Qed.
Lemma iter_next n W : length W = 16%nat -> Nat.iter (16 + n) extend W = W ++ Nat.iter n extend (next W).
Proof using new_local.
  intros HW. destruct (iter_split 16 n W HW) as [H|H]; [exact H | lia].
Qed.
End schedule.

(** ** Reference: FIPS 180-4 *)
Module Fips.

(** The first [w] bits of the fractional part of the [p]-th root of [q]. *)
Fixpoint iroot (p n : Z) (bits : nat) (acc : Z) : Z :=
  match bits with
  | O => acc
  | S k => let r := acc + 2 ^ Z.of_nat k in if r ^ p <=? n then iroot p n k r else iroot p n k acc
  end.
Definition frac_root (p w q : Z) : Z := iroot p (q * 2 ^ (p * w)) (Z.to_nat w + 8) 0 mod 2 ^ w.
Definition is_prime (n : nat) : bool := forallb (fun d => negb (n mod d =? 0)%nat) (seq 2 (n - 2)).
Definition primes (n : nat) : list Z := take n (map Z.of_nat (List.filter is_prime (seq 2 420))).

(** One of the two algorithms: the word size and the rotation amounts. *)
Record variant := mkVariant {
  w : Z;
  big0 : Z * Z * Z;
  big1 : Z * Z * Z;
  small0 : Z * Z * Z;
  small1 : Z * Z * Z;
  rounds : nat;
}.

Section spec.
Context (V : variant).

Definition ROTR (n x : Z) : Z := Z.lor (Z.shiftr x n) (Z.shiftl x (w V - n) mod 2 ^ w V).
Definition Sum (r : Z * Z * Z) (x : Z) : Z := let '(i, j, k) := r in Z.lxor (Z.lxor (ROTR i x) (ROTR j x)) (ROTR k x).
Definition sum (r : Z * Z * Z) (x : Z) : Z := let '(i, j, k) := r in Z.lxor (Z.lxor (ROTR i x) (ROTR j x)) (Z.shiftr x k).
Definition Ch (x y z : Z) : Z := Z.lxor (Z.land x y) (Z.land (Z.lnot x) z).
Definition Maj (x y z : Z) : Z := Z.lxor (Z.lxor (Z.land x y) (Z.land x z)) (Z.land y z).

Definition K : list Z := map (frac_root 3 (w V)) (primes (rounds V)).
Definition H0 : regs :=
  match map (frac_root 2 (w V)) (primes 8) with
  | [s0; s1; s2; s3; s4; s5; s6; s7] => (s0, s1, s2, s3, s4, s5, s6, s7)
  | _ => (0, 0, 0, 0, 0, 0, 0, 0)
  end.

(** The message schedule: one more word, from those 2, 7, 15 and 16 places back. *)
Definition new_word (back : nat -> Z) : Z :=
  (sum (small1 V) (back 2%nat) + back 7%nat + sum (small0 V) (back 15%nat) + back 16%nat) mod 2 ^ w V.
Definition words (chunk : list Z) : list Z :=
  let n := Z.to_nat (w V / 8) in map (fun i => of_le_bytes (rev (take n (drop (n * i) chunk)))) (seq 0 16).
Definition schedule (chunk : list Z) : list Z := Nat.iter (rounds V - 16) (extend new_word) (words chunk).

Definition round (r : regs) (kw : Z * Z) : regs :=
  let '(a, b, c, d, e, f, g, h) := r in
  let T1 := (h + Sum (big1 V) e + Ch e f g + fst kw + snd kw) mod 2 ^ w V in
  let T2 := (Sum (big0 V) a + Maj a b c) mod 2 ^ w V in
  ((T1 + T2) mod 2 ^ w V, a, b, c, (d + T1) mod 2 ^ w V, e, f, g).

Definition compress (st : regs) (chunk : list Z) : regs :=
  let '(a, b, c, d, e, f, g, h) := foldl round st (zip K (schedule chunk)) in
  let '(s0, s1, s2, s3, s4, s5, s6, s7) := st in
  let add x y := (x + y) mod 2 ^ w V in
  (add s0 a, add s1 b, add s2 c, add s3 d, add s4 e, add s5 f, add s6 g, add s7 h).
Lemma new_word_local f g : (forall n, (1 <= n <= 16)%nat -> f n = g n) -> new_word f = new_word g.
Proof using. intros H. unfold new_word. by rewrite !H by lia. Qed.
End spec.

Definition SHA256 : variant := mkVariant 32 (2, 13, 22) (6, 11, 25) (7, 18, 3) (17, 19, 10) 64.
Definition SHA512 : variant := mkVariant 64 (28, 34, 39) (14, 18, 41) (1, 8, 7) (19, 61, 6) 80.
End Fips.

(** ** The unrolled code computes it *)

Lemma Ch_eq x y z : Z.lxor z (Z.land x (Z.lxor y z)) = Fips.Ch x y z.
Proof.
  apply Z.bits_inj'. intros n Hn. unfold Fips.Ch. rewrite ?Z.lxor_spec, ?Z.land_spec, ?Z.lxor_spec, Z.lnot_spec by done.
  by destruct (Z.testbit x n), (Z.testbit y n), (Z.testbit z n).
Qed.
Lemma Maj_eq x y z : Z.lor (Z.land x y) (Z.land z (Z.lor x y)) = Fips.Maj x y z.
Proof.
  apply Z.bits_inj'. intros n Hn. unfold Fips.Maj. rewrite ?Z.lxor_spec, ?Z.lor_spec, ?Z.land_spec, ?Z.lor_spec by done.
  by destruct (Z.testbit x n), (Z.testbit y n), (Z.testbit z n).
Qed.

Lemma sha256_round a b c d e f g h k w :
  Fips.round Fips.SHA256 (a, b, c, d, e, f, g, h) (k, w) =
  let '(d', h') := sha256.Round a b c d e f g h k w in (h', a, b, c, d', e, f, g).
Proof.
  unfold sha256.Round, sha256.Ch, sha256.Maj. rewrite Ch_eq, Maj_eq.
  unfold Fips.round, Fips.Sum, Fips.ROTR, sha256.Sigma0, sha256.Sigma1, u32, Fips.SHA256.
  cbn [Fips.w Fips.big0 Fips.big1 fst snd]. reflexivity.
Qed.
Lemma sha512_round a b c d e f g h k w :
  Fips.round Fips.SHA512 (a, b, c, d, e, f, g, h) (k, w) =
  let '(d', h') := sha512.Round a b c d e f g h k w in (h', a, b, c, d', e, f, g).
Proof.
  unfold sha512.Round, sha512.Ch, sha512.Maj. rewrite Ch_eq, Maj_eq.
  unfold Fips.round, Fips.Sum, Fips.ROTR, sha512.Sigma0, sha512.Sigma1, u64, Fips.SHA512.
  cbn [Fips.w Fips.big0 Fips.big1 fst snd]. reflexivity.
Qed.

(** Folding over two zipped lists, a block of [n] at a time. *)
Lemma foldl_zip_split {A B C} (f : A -> B * C -> A) (ks : list B) (w rest : list C) n st :
  length w = n -> (n <= length ks)%nat ->
  foldl f st (zip ks (w ++ rest)) = foldl f (foldl f st (zip (take n ks) w)) (zip (drop n ks) rest).
Proof.
  intros Hw Hk. rewrite <- foldl_app, <- zip_with_app by (rewrite length_take; lia). by rewrite take_drop.
Qed.

Lemma sha256_extend pre w0 w1 w2 w3 w4 w5 w6 w7 w8 w9 w10 w11 w12 w13 w14 w15 :
  extend (Fips.new_word Fips.SHA256) (pre ++ [w0; w1; w2; w3; w4; w5; w6; w7; w8; w9; w10; w11; w12; w13; w14; w15]) =
  (pre ++ [w0]) ++ [w1; w2; w3; w4; w5; w6; w7; w8; w9; w10; w11; w12; w13; w14; w15; u32 (w0 + (sha256.sigma1 w14 + w9 + sha256.sigma0 w1))].
Proof.
  rewrite extend_app by (apply Fips.new_word_local || (cbn; lia)). rewrite <- (assoc_L (++)). f_equal.
  rewrite (Z.add_comm w0). unfold extend, Fips.new_word, Fips.sum, Fips.ROTR, Fips.SHA256, sha256.sigma0, sha256.sigma1, u32.
  cbn [length Nat.sub nth app Fips.w Fips.small0 Fips.small1]. reflexivity.
Qed.

(** The sixteen words the code computes from sixteen. *)
Definition sha256_words (w : list Z) : list Z :=
  match w with
  | [w0; w1; w2; w3; w4; w5; w6; w7; w8; w9; w10; w11; w12; w13; w14; w15] =>
      let w0 := u32 (w0 + (sha256.sigma1 w14 + w9 + sha256.sigma0 w1)) in
      let w1 := u32 (w1 + (sha256.sigma1 w15 + w10 + sha256.sigma0 w2)) in
      let w2 := u32 (w2 + (sha256.sigma1 w0 + w11 + sha256.sigma0 w3)) in
      let w3 := u32 (w3 + (sha256.sigma1 w1 + w12 + sha256.sigma0 w4)) in
      let w4 := u32 (w4 + (sha256.sigma1 w2 + w13 + sha256.sigma0 w5)) in
      let w5 := u32 (w5 + (sha256.sigma1 w3 + w14 + sha256.sigma0 w6)) in
      let w6 := u32 (w6 + (sha256.sigma1 w4 + w15 + sha256.sigma0 w7)) in
      let w7 := u32 (w7 + (sha256.sigma1 w5 + w0 + sha256.sigma0 w8)) in
      let w8 := u32 (w8 + (sha256.sigma1 w6 + w1 + sha256.sigma0 w9)) in
      let w9 := u32 (w9 + (sha256.sigma1 w7 + w2 + sha256.sigma0 w10)) in
      let w10 := u32 (w10 + (sha256.sigma1 w8 + w3 + sha256.sigma0 w11)) in
      let w11 := u32 (w11 + (sha256.sigma1 w9 + w4 + sha256.sigma0 w12)) in
      let w12 := u32 (w12 + (sha256.sigma1 w10 + w5 + sha256.sigma0 w13)) in
      let w13 := u32 (w13 + (sha256.sigma1 w11 + w6 + sha256.sigma0 w14)) in
      let w14 := u32 (w14 + (sha256.sigma1 w12 + w7 + sha256.sigma0 w15)) in
      let w15 := u32 (w15 + (sha256.sigma1 w13 + w8 + sha256.sigma0 w0)) in
      [w0; w1; w2; w3; w4; w5; w6; w7; w8; w9; w10; w11; w12; w13; w14; w15]
  | _ => w
  end.
Lemma sha256_next w0 w1 w2 w3 w4 w5 w6 w7 w8 w9 w10 w11 w12 w13 w14 w15 : next (Fips.new_word Fips.SHA256) [w0; w1; w2; w3; w4; w5; w6; w7; w8; w9; w10; w11; w12; w13; w14; w15] = sha256_words [w0; w1; w2; w3; w4; w5; w6; w7; w8; w9; w10; w11; w12; w13; w14; w15].
Proof.
  unfold next. change [w0; w1; w2; w3; w4; w5; w6; w7; w8; w9; w10; w11; w12; w13; w14; w15] with ([] ++ [w0; w1; w2; w3; w4; w5; w6; w7; w8; w9; w10; w11; w12; w13; w14; w15]) at 1.
  do 16 (rewrite Nat.iter_succ_r, sha256_extend). reflexivity.
Qed.

(** The round constants, evaluated: the numbers the code lists. *)
Definition sha256_K : list Z := Eval vm_compute in Fips.K Fips.SHA256.
Lemma sha256_K_eq : Fips.K Fips.SHA256 = sha256_K.
Proof. by vm_compute. Qed.

Ltac sha256_step :=
  cbn [zip zip_with foldl]; rewrite sha256_round;
  match goal with |- context [sha256.Round ?a ?b ?c ?d ?e ?f ?g ?h ?k ?w] => destruct (sha256.Round a b c d e f g h k w) end.
Ltac sha256_group := cbv zeta; cbn [take drop sha256_K]; do 16 sha256_step; reflexivity.

Lemma sha256_rounds_0 r chunk :
  sha256.rounds_0 r chunk = (foldl (Fips.round Fips.SHA256) r (zip (take 16 sha256_K) (Fips.words Fips.SHA256 chunk)), Fips.words Fips.SHA256 chunk).
Proof.
  destruct r as [[[[[[[a b] c] d] e] f] g] h].
  assert (Fips.words Fips.SHA256 chunk = map (fun i => ReadBE32 chunk (4 * i)) (seq 0 16)) as -> by done.
  unfold sha256.rounds_0. cbn [map seq Nat.mul Nat.add]. sha256_group.
Qed.

Lemma sha256_rounds_16 r w : length w = 16%nat ->
  sha256.rounds_16 r w = (foldl (Fips.round Fips.SHA256) r (zip (take 16 (drop 16 sha256_K)) (next (Fips.new_word Fips.SHA256) w)), next (Fips.new_word Fips.SHA256) w).
Proof.
  intros Hw. destruct r as [[[[[[[a b] c] d] e] f] g] h]. do 16 (destruct w as [|? w]; [done|]). destruct w; [|done].
  rewrite sha256_next. unfold sha256.rounds_16, sha256_words. sha256_group.
Qed.

Lemma sha256_rounds_32 r w : length w = 16%nat ->
  sha256.rounds_32 r w = (foldl (Fips.round Fips.SHA256) r (zip (take 16 (drop 32 sha256_K)) (next (Fips.new_word Fips.SHA256) w)), next (Fips.new_word Fips.SHA256) w).
Proof.
  intros Hw. destruct r as [[[[[[[a b] c] d] e] f] g] h]. do 16 (destruct w as [|? w]; [done|]). destruct w; [|done].
  rewrite sha256_next. unfold sha256.rounds_32, sha256_words. sha256_group.
Qed.

Lemma sha256_rounds_48 r w : length w = 16%nat ->
  sha256.rounds_48 r w = (foldl (Fips.round Fips.SHA256) r (zip (take 16 (drop 48 sha256_K)) (next (Fips.new_word Fips.SHA256) w)), next (Fips.new_word Fips.SHA256) w).
Proof.
  intros Hw. destruct r as [[[[[[[a b] c] d] e] f] g] h]. do 16 (destruct w as [|? w]; [done|]). destruct w; [|done].
  rewrite sha256_next. unfold sha256.rounds_48, sha256_words. sha256_group.
Qed.


Lemma sha256_Transform st chunk : sha256.Transform st chunk = Fips.compress Fips.SHA256 st chunk.
Proof.
  unfold sha256.Transform, Fips.compress, Fips.schedule. change (Fips.rounds Fips.SHA256 - 16)%nat with (16 + (16 + (16 + (0))))%nat.
  assert (length (Fips.words Fips.SHA256 chunk) = 16%nat) as HL by done.
  rewrite sha256_rounds_0, sha256_K_eq. revert HL. generalize (Fips.words Fips.SHA256 chunk). intros W0 H0.
  pose proof (next_length (Fips.new_word Fips.SHA256) W0 H0) as H1.
  pose proof (next_length (Fips.new_word Fips.SHA256) _ H1) as H2.
  pose proof (next_length (Fips.new_word Fips.SHA256) _ H2) as H3.
  rewrite sha256_rounds_16 by assumption.
  rewrite sha256_rounds_32 by assumption.
  rewrite sha256_rounds_48 by assumption.
  rewrite !iter_next by (assumption || apply Fips.new_word_local).
  rewrite !(foldl_zip_split _ _ _ _ 16), !drop_drop by (first [assumption | cbn; lia]).
  change (drop (16 + 16 + 16) sha256_K) with (take 16 (drop 48 sha256_K)).
  change (Nat.iter 0 (extend (Fips.new_word Fips.SHA256)) ?x) with x. cbn [Nat.add].
  match goal with |- context [foldl ?f ?s ?l] => destruct (foldl f s l) as [[[[[[[a b] c] d] e] f'] g] h] end.
  destruct st as [[[[[[[s0 s1] s2] s3] s4] s5] s6] s7]. unfold u32, Fips.SHA256. cbn [Fips.w]. reflexivity.
Qed.
Lemma sha512_extend pre w0 w1 w2 w3 w4 w5 w6 w7 w8 w9 w10 w11 w12 w13 w14 w15 :
  extend (Fips.new_word Fips.SHA512) (pre ++ [w0; w1; w2; w3; w4; w5; w6; w7; w8; w9; w10; w11; w12; w13; w14; w15]) =
  (pre ++ [w0]) ++ [w1; w2; w3; w4; w5; w6; w7; w8; w9; w10; w11; w12; w13; w14; w15; u64 (w0 + (sha512.sigma1 w14 + w9 + sha512.sigma0 w1))].
Proof.
  rewrite extend_app by (apply Fips.new_word_local || (cbn; lia)). rewrite <- (assoc_L (++)). f_equal.
  rewrite (Z.add_comm w0). unfold extend, Fips.new_word, Fips.sum, Fips.ROTR, Fips.SHA512, sha512.sigma0, sha512.sigma1, u64.
  cbn [length Nat.sub nth app Fips.w Fips.small0 Fips.small1]. reflexivity.
Qed.

(** The sixteen words the code computes from sixteen. *)
Definition sha512_words (w : list Z) : list Z :=
  match w with
  | [w0; w1; w2; w3; w4; w5; w6; w7; w8; w9; w10; w11; w12; w13; w14; w15] =>
      let w0 := u64 (w0 + (sha512.sigma1 w14 + w9 + sha512.sigma0 w1)) in
      let w1 := u64 (w1 + (sha512.sigma1 w15 + w10 + sha512.sigma0 w2)) in
      let w2 := u64 (w2 + (sha512.sigma1 w0 + w11 + sha512.sigma0 w3)) in
      let w3 := u64 (w3 + (sha512.sigma1 w1 + w12 + sha512.sigma0 w4)) in
      let w4 := u64 (w4 + (sha512.sigma1 w2 + w13 + sha512.sigma0 w5)) in
      let w5 := u64 (w5 + (sha512.sigma1 w3 + w14 + sha512.sigma0 w6)) in
      let w6 := u64 (w6 + (sha512.sigma1 w4 + w15 + sha512.sigma0 w7)) in
      let w7 := u64 (w7 + (sha512.sigma1 w5 + w0 + sha512.sigma0 w8)) in
      let w8 := u64 (w8 + (sha512.sigma1 w6 + w1 + sha512.sigma0 w9)) in
      let w9 := u64 (w9 + (sha512.sigma1 w7 + w2 + sha512.sigma0 w10)) in
      let w10 := u64 (w10 + (sha512.sigma1 w8 + w3 + sha512.sigma0 w11)) in
      let w11 := u64 (w11 + (sha512.sigma1 w9 + w4 + sha512.sigma0 w12)) in
      let w12 := u64 (w12 + (sha512.sigma1 w10 + w5 + sha512.sigma0 w13)) in
      let w13 := u64 (w13 + (sha512.sigma1 w11 + w6 + sha512.sigma0 w14)) in
      let w14 := u64 (w14 + (sha512.sigma1 w12 + w7 + sha512.sigma0 w15)) in
      let w15 := u64 (w15 + (sha512.sigma1 w13 + w8 + sha512.sigma0 w0)) in
      [w0; w1; w2; w3; w4; w5; w6; w7; w8; w9; w10; w11; w12; w13; w14; w15]
  | _ => w
  end.
Lemma sha512_next w0 w1 w2 w3 w4 w5 w6 w7 w8 w9 w10 w11 w12 w13 w14 w15 : next (Fips.new_word Fips.SHA512) [w0; w1; w2; w3; w4; w5; w6; w7; w8; w9; w10; w11; w12; w13; w14; w15] = sha512_words [w0; w1; w2; w3; w4; w5; w6; w7; w8; w9; w10; w11; w12; w13; w14; w15].
Proof.
  unfold next. change [w0; w1; w2; w3; w4; w5; w6; w7; w8; w9; w10; w11; w12; w13; w14; w15] with ([] ++ [w0; w1; w2; w3; w4; w5; w6; w7; w8; w9; w10; w11; w12; w13; w14; w15]) at 1.
  do 16 (rewrite Nat.iter_succ_r, sha512_extend). reflexivity.
Qed.

(** The round constants, evaluated: the numbers the code lists. *)
Definition sha512_K : list Z := Eval vm_compute in Fips.K Fips.SHA512.
Lemma sha512_K_eq : Fips.K Fips.SHA512 = sha512_K.
Proof. by vm_compute. Qed.

Ltac sha512_step :=
  cbn [zip zip_with foldl]; rewrite sha512_round;
  match goal with |- context [sha512.Round ?a ?b ?c ?d ?e ?f ?g ?h ?k ?w] => destruct (sha512.Round a b c d e f g h k w) end.
Ltac sha512_group := cbv zeta; cbn [take drop sha512_K]; do 16 sha512_step; reflexivity.

Lemma sha512_rounds_0 r chunk :
  sha512.rounds_0 r chunk = (foldl (Fips.round Fips.SHA512) r (zip (take 16 sha512_K) (Fips.words Fips.SHA512 chunk)), Fips.words Fips.SHA512 chunk).
Proof.
  destruct r as [[[[[[[a b] c] d] e] f] g] h].
  assert (Fips.words Fips.SHA512 chunk = map (fun i => ReadBE64 chunk (8 * i)) (seq 0 16)) as -> by done.
  unfold sha512.rounds_0. cbn [map seq Nat.mul Nat.add]. sha512_group.
Qed.

Lemma sha512_rounds_16 r w : length w = 16%nat ->
  sha512.rounds_16 r w = (foldl (Fips.round Fips.SHA512) r (zip (take 16 (drop 16 sha512_K)) (next (Fips.new_word Fips.SHA512) w)), next (Fips.new_word Fips.SHA512) w).
Proof.
  intros Hw. destruct r as [[[[[[[a b] c] d] e] f] g] h]. do 16 (destruct w as [|? w]; [done|]). destruct w; [|done].
  rewrite sha512_next. unfold sha512.rounds_16, sha512_words. sha512_group.
Qed.

Lemma sha512_rounds_32 r w : length w = 16%nat ->
  sha512.rounds_32 r w = (foldl (Fips.round Fips.SHA512) r (zip (take 16 (drop 32 sha512_K)) (next (Fips.new_word Fips.SHA512) w)), next (Fips.new_word Fips.SHA512) w).
Proof.
  intros Hw. destruct r as [[[[[[[a b] c] d] e] f] g] h]. do 16 (destruct w as [|? w]; [done|]). destruct w; [|done].
  rewrite sha512_next. unfold sha512.rounds_32, sha512_words. sha512_group.
Qed.

Lemma sha512_rounds_48 r w : length w = 16%nat ->
  sha512.rounds_48 r w = (foldl (Fips.round Fips.SHA512) r (zip (take 16 (drop 48 sha512_K)) (next (Fips.new_word Fips.SHA512) w)), next (Fips.new_word Fips.SHA512) w).
Proof.
  intros Hw. destruct r as [[[[[[[a b] c] d] e] f] g] h]. do 16 (destruct w as [|? w]; [done|]). destruct w; [|done].
  rewrite sha512_next. unfold sha512.rounds_48, sha512_words. sha512_group.
Qed.

Lemma sha512_rounds_64 r w : length w = 16%nat ->
  sha512.rounds_64 r w = (foldl (Fips.round Fips.SHA512) r (zip (take 16 (drop 64 sha512_K)) (next (Fips.new_word Fips.SHA512) w)), next (Fips.new_word Fips.SHA512) w).
Proof.
  intros Hw. destruct r as [[[[[[[a b] c] d] e] f] g] h]. do 16 (destruct w as [|? w]; [done|]). destruct w; [|done].
  rewrite sha512_next. unfold sha512.rounds_64, sha512_words. sha512_group.
Qed.


Lemma sha512_Transform st chunk : sha512.Transform st chunk = Fips.compress Fips.SHA512 st chunk.
Proof.
  unfold sha512.Transform, Fips.compress, Fips.schedule. change (Fips.rounds Fips.SHA512 - 16)%nat with (16 + (16 + (16 + (16 + (0)))))%nat.
  assert (length (Fips.words Fips.SHA512 chunk) = 16%nat) as HL by done.
  rewrite sha512_rounds_0, sha512_K_eq. revert HL. generalize (Fips.words Fips.SHA512 chunk). intros W0 H0.
  pose proof (next_length (Fips.new_word Fips.SHA512) W0 H0) as H1.
  pose proof (next_length (Fips.new_word Fips.SHA512) _ H1) as H2.
  pose proof (next_length (Fips.new_word Fips.SHA512) _ H2) as H3.
  pose proof (next_length (Fips.new_word Fips.SHA512) _ H3) as H4.
  rewrite sha512_rounds_16 by assumption.
  rewrite sha512_rounds_32 by assumption.
  rewrite sha512_rounds_48 by assumption.
  rewrite sha512_rounds_64 by assumption.
  rewrite !iter_next by (assumption || apply Fips.new_word_local).
  rewrite !(foldl_zip_split _ _ _ _ 16), !drop_drop by (first [assumption | cbn; lia]).
  change (drop (16 + 16 + 16 + 16) sha512_K) with (take 16 (drop 64 sha512_K)).
  change (Nat.iter 0 (extend (Fips.new_word Fips.SHA512)) ?x) with x. cbn [Nat.add].
  match goal with |- context [foldl ?f ?s ?l] => destruct (foldl f s l) as [[[[[[[a b] c] d] e] f'] g] h] end.
  destruct st as [[[[[[[s0 s1] s2] s3] s4] s5] s6] s7]. unfold u64, Fips.SHA512. cbn [Fips.w]. reflexivity.
Qed.
