(* ===== verification/Sha1.v ===== *)
(** SHA-1: [src/src/crypto/sha1.cpp], the unrolled rounds transcribed, and the FIPS 180-4
    definition they compute. *)
From S2P Require Import Prelude Stream Sha2.

(** The working variables [a] to [e]. *)
Definition regs5 : Type := Z * Z * Z * Z * Z.

Module sha1.

(** One round; the updated [b] and [e]. *)
Definition Round (a b c d e f k w : Z) : Z * Z :=
  let e := u32 (e + Z.lor (u32 (Z.shiftl a 5)) (Z.shiftr a 27) + f + k + w) in
  let b := Z.lor (u32 (Z.shiftl b 30)) (Z.shiftr b 2) in
  (b, e).
Definition f1 (b c d : Z) : Z := Z.lxor d (Z.land b (Z.lxor c d)).
Definition f2 (b c d : Z) : Z := Z.lxor (Z.lxor b c) d.
Definition f3 (b c d : Z) : Z := Z.lor (Z.land b c) (Z.land d (Z.lor b c)).
(** [left] *)
Definition rol1 (x : Z) : Z := Z.lor (u32 (Z.shiftl x 1)) (Z.shiftr x 31).

Definition Initialize : regs5 := (0x67452301, 0xEFCDAB89, 0x98BADCFE, 0x10325476, 0xC3D2E1F0).
Definition k1 : Z := 0x5A827999.
Definition k2 : Z := 0x6ED9EBA1.
Definition k3 : Z := 0x8F1BBCDC.
Definition k4 : Z := 0xCA62C1D6.

(** The unrolled rounds, sixteen at a time, and the words they leave. *)
Definition rounds_0 (r : regs5) (chunk : list Z) : regs5 * list Z :=
  let '(a, b, c, d, e) := r in
  let w0 := ReadBE32 chunk 0 in let '(b, e) := Round a b c d e (f1 b c d) k1 w0 in
  let w1 := ReadBE32 chunk 4 in let '(a, d) := Round e a b c d (f1 a b c) k1 w1 in
  let w2 := ReadBE32 chunk 8 in let '(e, c) := Round d e a b c (f1 e a b) k1 w2 in
  let w3 := ReadBE32 chunk 12 in let '(d, b) := Round c d e a b (f1 d e a) k1 w3 in
  let w4 := ReadBE32 chunk 16 in let '(c, a) := Round b c d e a (f1 c d e) k1 w4 in
  let w5 := ReadBE32 chunk 20 in let '(b, e) := Round a b c d e (f1 b c d) k1 w5 in
  let w6 := ReadBE32 chunk 24 in let '(a, d) := Round e a b c d (f1 a b c) k1 w6 in
  let w7 := ReadBE32 chunk 28 in let '(e, c) := Round d e a b c (f1 e a b) k1 w7 in
  let w8 := ReadBE32 chunk 32 in let '(d, b) := Round c d e a b (f1 d e a) k1 w8 in
  let w9 := ReadBE32 chunk 36 in let '(c, a) := Round b c d e a (f1 c d e) k1 w9 in
  let w10 := ReadBE32 chunk 40 in let '(b, e) := Round a b c d e (f1 b c d) k1 w10 in
  let w11 := ReadBE32 chunk 44 in let '(a, d) := Round e a b c d (f1 a b c) k1 w11 in
  let w12 := ReadBE32 chunk 48 in let '(e, c) := Round d e a b c (f1 e a b) k1 w12 in
  let w13 := ReadBE32 chunk 52 in let '(d, b) := Round c d e a b (f1 d e a) k1 w13 in
  let w14 := ReadBE32 chunk 56 in let '(c, a) := Round b c d e a (f1 c d e) k1 w14 in
  let w15 := ReadBE32 chunk 60 in let '(b, e) := Round a b c d e (f1 b c d) k1 w15 in
  ((a, b, c, d, e), [w0; w1; w2; w3; w4; w5; w6; w7; w8; w9; w10; w11; w12; w13; w14; w15]).

Definition rounds_16 (r : regs5) (w : list Z) : regs5 * list Z :=
  let '(a, b, c, d, e) := r in
  match w with
  | [w0; w1; w2; w3; w4; w5; w6; w7; w8; w9; w10; w11; w12; w13; w14; w15] =>
  let w0 := rol1 (Z.lxor (Z.lxor (Z.lxor w0 w13) w8) w2) in let '(a, d) := Round e a b c d (f1 a b c) k1 w0 in
  let w1 := rol1 (Z.lxor (Z.lxor (Z.lxor w1 w14) w9) w3) in let '(e, c) := Round d e a b c (f1 e a b) k1 w1 in
  let w2 := rol1 (Z.lxor (Z.lxor (Z.lxor w2 w15) w10) w4) in let '(d, b) := Round c d e a b (f1 d e a) k1 w2 in
  let w3 := rol1 (Z.lxor (Z.lxor (Z.lxor w3 w0) w11) w5) in let '(c, a) := Round b c d e a (f1 c d e) k1 w3 in
  let w4 := rol1 (Z.lxor (Z.lxor (Z.lxor w4 w1) w12) w6) in let '(b, e) := Round a b c d e (f2 b c d) k2 w4 in
  let w5 := rol1 (Z.lxor (Z.lxor (Z.lxor w5 w2) w13) w7) in let '(a, d) := Round e a b c d (f2 a b c) k2 w5 in
  let w6 := rol1 (Z.lxor (Z.lxor (Z.lxor w6 w3) w14) w8) in let '(e, c) := Round d e a b c (f2 e a b) k2 w6 in
  let w7 := rol1 (Z.lxor (Z.lxor (Z.lxor w7 w4) w15) w9) in let '(d, b) := Round c d e a b (f2 d e a) k2 w7 in
  let w8 := rol1 (Z.lxor (Z.lxor (Z.lxor w8 w5) w0) w10) in let '(c, a) := Round b c d e a (f2 c d e) k2 w8 in
  let w9 := rol1 (Z.lxor (Z.lxor (Z.lxor w9 w6) w1) w11) in let '(b, e) := Round a b c d e (f2 b c d) k2 w9 in
  let w10 := rol1 (Z.lxor (Z.lxor (Z.lxor w10 w7) w2) w12) in let '(a, d) := Round e a b c d (f2 a b c) k2 w10 in
  let w11 := rol1 (Z.lxor (Z.lxor (Z.lxor w11 w8) w3) w13) in let '(e, c) := Round d e a b c (f2 e a b) k2 w11 in
  let w12 := rol1 (Z.lxor (Z.lxor (Z.lxor w12 w9) w4) w14) in let '(d, b) := Round c d e a b (f2 d e a) k2 w12 in
  let w13 := rol1 (Z.lxor (Z.lxor (Z.lxor w13 w10) w5) w15) in let '(c, a) := Round b c d e a (f2 c d e) k2 w13 in
  let w14 := rol1 (Z.lxor (Z.lxor (Z.lxor w14 w11) w6) w0) in let '(b, e) := Round a b c d e (f2 b c d) k2 w14 in
  let w15 := rol1 (Z.lxor (Z.lxor (Z.lxor w15 w12) w7) w1) in let '(a, d) := Round e a b c d (f2 a b c) k2 w15 in
  ((a, b, c, d, e), [w0; w1; w2; w3; w4; w5; w6; w7; w8; w9; w10; w11; w12; w13; w14; w15])
  | _ => (r, w)
  end.

Definition rounds_32 (r : regs5) (w : list Z) : regs5 * list Z :=
  let '(a, b, c, d, e) := r in
  match w with
  | [w0; w1; w2; w3; w4; w5; w6; w7; w8; w9; w10; w11; w12; w13; w14; w15] =>
  let w0 := rol1 (Z.lxor (Z.lxor (Z.lxor w0 w13) w8) w2) in let '(e, c) := Round d e a b c (f2 e a b) k2 w0 in
  let w1 := rol1 (Z.lxor (Z.lxor (Z.lxor w1 w14) w9) w3) in let '(d, b) := Round c d e a b (f2 d e a) k2 w1 in
  let w2 := rol1 (Z.lxor (Z.lxor (Z.lxor w2 w15) w10) w4) in let '(c, a) := Round b c d e a (f2 c d e) k2 w2 in
  let w3 := rol1 (Z.lxor (Z.lxor (Z.lxor w3 w0) w11) w5) in let '(b, e) := Round a b c d e (f2 b c d) k2 w3 in
  let w4 := rol1 (Z.lxor (Z.lxor (Z.lxor w4 w1) w12) w6) in let '(a, d) := Round e a b c d (f2 a b c) k2 w4 in
  let w5 := rol1 (Z.lxor (Z.lxor (Z.lxor w5 w2) w13) w7) in let '(e, c) := Round d e a b c (f2 e a b) k2 w5 in
  let w6 := rol1 (Z.lxor (Z.lxor (Z.lxor w6 w3) w14) w8) in let '(d, b) := Round c d e a b (f2 d e a) k2 w6 in
  let w7 := rol1 (Z.lxor (Z.lxor (Z.lxor w7 w4) w15) w9) in let '(c, a) := Round b c d e a (f2 c d e) k2 w7 in
  let w8 := rol1 (Z.lxor (Z.lxor (Z.lxor w8 w5) w0) w10) in let '(b, e) := Round a b c d e (f3 b c d) k3 w8 in
  let w9 := rol1 (Z.lxor (Z.lxor (Z.lxor w9 w6) w1) w11) in let '(a, d) := Round e a b c d (f3 a b c) k3 w9 in
  let w10 := rol1 (Z.lxor (Z.lxor (Z.lxor w10 w7) w2) w12) in let '(e, c) := Round d e a b c (f3 e a b) k3 w10 in
  let w11 := rol1 (Z.lxor (Z.lxor (Z.lxor w11 w8) w3) w13) in let '(d, b) := Round c d e a b (f3 d e a) k3 w11 in
  let w12 := rol1 (Z.lxor (Z.lxor (Z.lxor w12 w9) w4) w14) in let '(c, a) := Round b c d e a (f3 c d e) k3 w12 in
  let w13 := rol1 (Z.lxor (Z.lxor (Z.lxor w13 w10) w5) w15) in let '(b, e) := Round a b c d e (f3 b c d) k3 w13 in
  let w14 := rol1 (Z.lxor (Z.lxor (Z.lxor w14 w11) w6) w0) in let '(a, d) := Round e a b c d (f3 a b c) k3 w14 in
  let w15 := rol1 (Z.lxor (Z.lxor (Z.lxor w15 w12) w7) w1) in let '(e, c) := Round d e a b c (f3 e a b) k3 w15 in
  ((a, b, c, d, e), [w0; w1; w2; w3; w4; w5; w6; w7; w8; w9; w10; w11; w12; w13; w14; w15])
  | _ => (r, w)
  end.

Definition rounds_48 (r : regs5) (w : list Z) : regs5 * list Z :=
  let '(a, b, c, d, e) := r in
  match w with
  | [w0; w1; w2; w3; w4; w5; w6; w7; w8; w9; w10; w11; w12; w13; w14; w15] =>
  let w0 := rol1 (Z.lxor (Z.lxor (Z.lxor w0 w13) w8) w2) in let '(d, b) := Round c d e a b (f3 d e a) k3 w0 in
  let w1 := rol1 (Z.lxor (Z.lxor (Z.lxor w1 w14) w9) w3) in let '(c, a) := Round b c d e a (f3 c d e) k3 w1 in
  let w2 := rol1 (Z.lxor (Z.lxor (Z.lxor w2 w15) w10) w4) in let '(b, e) := Round a b c d e (f3 b c d) k3 w2 in
  let w3 := rol1 (Z.lxor (Z.lxor (Z.lxor w3 w0) w11) w5) in let '(a, d) := Round e a b c d (f3 a b c) k3 w3 in
  let w4 := rol1 (Z.lxor (Z.lxor (Z.lxor w4 w1) w12) w6) in let '(e, c) := Round d e a b c (f3 e a b) k3 w4 in
  let w5 := rol1 (Z.lxor (Z.lxor (Z.lxor w5 w2) w13) w7) in let '(d, b) := Round c d e a b (f3 d e a) k3 w5 in
  let w6 := rol1 (Z.lxor (Z.lxor (Z.lxor w6 w3) w14) w8) in let '(c, a) := Round b c d e a (f3 c d e) k3 w6 in
  let w7 := rol1 (Z.lxor (Z.lxor (Z.lxor w7 w4) w15) w9) in let '(b, e) := Round a b c d e (f3 b c d) k3 w7 in
  let w8 := rol1 (Z.lxor (Z.lxor (Z.lxor w8 w5) w0) w10) in let '(a, d) := Round e a b c d (f3 a b c) k3 w8 in
  let w9 := rol1 (Z.lxor (Z.lxor (Z.lxor w9 w6) w1) w11) in let '(e, c) := Round d e a b c (f3 e a b) k3 w9 in
  let w10 := rol1 (Z.lxor (Z.lxor (Z.lxor w10 w7) w2) w12) in let '(d, b) := Round c d e a b (f3 d e a) k3 w10 in
  let w11 := rol1 (Z.lxor (Z.lxor (Z.lxor w11 w8) w3) w13) in let '(c, a) := Round b c d e a (f3 c d e) k3 w11 in
  let w12 := rol1 (Z.lxor (Z.lxor (Z.lxor w12 w9) w4) w14) in let '(b, e) := Round a b c d e (f2 b c d) k4 w12 in
  let w13 := rol1 (Z.lxor (Z.lxor (Z.lxor w13 w10) w5) w15) in let '(a, d) := Round e a b c d (f2 a b c) k4 w13 in
  let w14 := rol1 (Z.lxor (Z.lxor (Z.lxor w14 w11) w6) w0) in let '(e, c) := Round d e a b c (f2 e a b) k4 w14 in
  let w15 := rol1 (Z.lxor (Z.lxor (Z.lxor w15 w12) w7) w1) in let '(d, b) := Round c d e a b (f2 d e a) k4 w15 in
  ((a, b, c, d, e), [w0; w1; w2; w3; w4; w5; w6; w7; w8; w9; w10; w11; w12; w13; w14; w15])
  | _ => (r, w)
  end.

Definition rounds_64 (r : regs5) (w : list Z) : regs5 * list Z :=
  let '(a, b, c, d, e) := r in
  match w with
  | [w0; w1; w2; w3; w4; w5; w6; w7; w8; w9; w10; w11; w12; w13; w14; w15] =>
  let w0 := rol1 (Z.lxor (Z.lxor (Z.lxor w0 w13) w8) w2) in let '(c, a) := Round b c d e a (f2 c d e) k4 w0 in
  let w1 := rol1 (Z.lxor (Z.lxor (Z.lxor w1 w14) w9) w3) in let '(b, e) := Round a b c d e (f2 b c d) k4 w1 in
  let w2 := rol1 (Z.lxor (Z.lxor (Z.lxor w2 w15) w10) w4) in let '(a, d) := Round e a b c d (f2 a b c) k4 w2 in
  let w3 := rol1 (Z.lxor (Z.lxor (Z.lxor w3 w0) w11) w5) in let '(e, c) := Round d e a b c (f2 e a b) k4 w3 in
  let w4 := rol1 (Z.lxor (Z.lxor (Z.lxor w4 w1) w12) w6) in let '(d, b) := Round c d e a b (f2 d e a) k4 w4 in
  let w5 := rol1 (Z.lxor (Z.lxor (Z.lxor w5 w2) w13) w7) in let '(c, a) := Round b c d e a (f2 c d e) k4 w5 in
  let w6 := rol1 (Z.lxor (Z.lxor (Z.lxor w6 w3) w14) w8) in let '(b, e) := Round a b c d e (f2 b c d) k4 w6 in
  let w7 := rol1 (Z.lxor (Z.lxor (Z.lxor w7 w4) w15) w9) in let '(a, d) := Round e a b c d (f2 a b c) k4 w7 in
  let w8 := rol1 (Z.lxor (Z.lxor (Z.lxor w8 w5) w0) w10) in let '(e, c) := Round d e a b c (f2 e a b) k4 w8 in
  let w9 := rol1 (Z.lxor (Z.lxor (Z.lxor w9 w6) w1) w11) in let '(d, b) := Round c d e a b (f2 d e a) k4 w9 in
  let w10 := rol1 (Z.lxor (Z.lxor (Z.lxor w10 w7) w2) w12) in let '(c, a) := Round b c d e a (f2 c d e) k4 w10 in
  let w11 := rol1 (Z.lxor (Z.lxor (Z.lxor w11 w8) w3) w13) in let '(b, e) := Round a b c d e (f2 b c d) k4 w11 in
  let w12 := rol1 (Z.lxor (Z.lxor (Z.lxor w12 w9) w4) w14) in let '(a, d) := Round e a b c d (f2 a b c) k4 w12 in
  let w13 := rol1 (Z.lxor (Z.lxor (Z.lxor w13 w10) w5) w15) in let '(e, c) := Round d e a b c (f2 e a b) k4 w13 in
  let w14 := rol1 (Z.lxor (Z.lxor (Z.lxor w14 w11) w6) w0) in let '(d, b) := Round c d e a b (f2 d e a) k4 w14 in
  let w15 := rol1 (Z.lxor (Z.lxor (Z.lxor w15 w12) w7) w1) in let '(c, a) := Round b c d e a (f2 c d e) k4 w15 in
  ((a, b, c, d, e), [w0; w1; w2; w3; w4; w5; w6; w7; w8; w9; w10; w11; w12; w13; w14; w15])
  | _ => (r, w)
  end.

Definition Transform (st : regs5) (chunk : list Z) : regs5 :=
  let '(r, w) := rounds_0 st chunk in
  let '(r, w) := rounds_16 r w in
  let '(r, w) := rounds_32 r w in
  let '(r, w) := rounds_48 r w in
  let '(r, w) := rounds_64 r w in
  let '(a, b, c, d, e) := r in
  let '(s0, s1, s2, s3, s4) := st in
  (u32 (s0 + a), u32 (s1 + b), u32 (s2 + c), u32 (s3 + d), u32 (s4 + e)).

Definition output (st : regs5) : list Z :=
  let '(s0, s1, s2, s3, s4) := st in concat (map WriteBE32 [s0; s1; s2; s3; s4]).

End sha1.

Definition CSHA1 : Algo := mkAlgo regs5 64 8 sha1.Initialize sha1.Transform WriteBE64 sha1.output.
Definition CSHA1_Write : hasher CSHA1 -> list Z -> hasher CSHA1 := Write CSHA1.
Definition CSHA1_Finalize : hasher CSHA1 -> hasher CSHA1 * list Z := Finalize CSHA1.
Definition CSHA1_Reset : hasher CSHA1 -> hasher CSHA1 := Reset CSHA1.

(** ** Reference: FIPS 180-4 *)
Module Fips1.

Inductive phase := P0 | P1 | P2 | P3.
Definition phases : list phase := replicate 20 P0 ++ replicate 20 P1 ++ replicate 20 P2 ++ replicate 20 P3.
Definition ROTL (n x : Z) : Z := Z.lor (Z.shiftl x n mod 2 ^ 32) (Z.shiftr x (32 - n)).
Definition f (p : phase) (x y z : Z) : Z :=
  match p with
  | P0 => Fips.Ch x y z
  | P2 => Fips.Maj x y z
  | P1 | P3 => Z.lxor (Z.lxor x y) z
  end.
(** [2 ^ 30] times the square roots of 2, 3, 5 and 10 *)
Definition K (p : phase) : Z :=
  Z.sqrt (match p with P0 => 2 | P1 => 3 | P2 => 5 | P3 => 10 end * 2 ^ 60).

Definition new_word (back : nat -> Z) : Z :=
  ROTL 1 (Z.lxor (Z.lxor (Z.lxor (back 3%nat) (back 8%nat)) (back 14%nat)) (back 16%nat)).
Definition words (chunk : list Z) : list Z :=
  map (fun i => of_le_bytes (rev (take 4 (drop (4 * i) chunk)))) (seq 0 16).
Definition schedule (chunk : list Z) : list Z := Nat.iter 64 (extend new_word) (words chunk).
Definition round (r : regs5) (pw : phase * Z) : regs5 :=
  let '(a, b, c, d, e) := r in
  let T := (ROTL 5 a + f (fst pw) b c d + e + K (fst pw) + snd pw) mod 2 ^ 32 in
  (T, a, ROTL 30 b, c, d).
Definition compress (st : regs5) (chunk : list Z) : regs5 :=
  let '(a, b, c, d, e) := foldl round st (zip phases (schedule chunk)) in
  let '(s0, s1, s2, s3, s4) := st in
  let add x y := (x + y) mod 2 ^ 32 in
  (add s0 a, add s1 b, add s2 c, add s3 d, add s4 e).

Lemma sha1_word_local g h : (forall n, (1 <= n <= 16)%nat -> g n = h n) -> new_word g = new_word h.
Proof. intros H. unfold new_word. by rewrite !H by lia. Qed.
End Fips1.

(** ** The unrolled code computes it *)

(** The function and constant of a phase, as the code has them. *)
Definition sha1_f (p : Fips1.phase) : Z -> Z -> Z -> Z :=
  match p with Fips1.P0 => sha1.f1 | Fips1.P2 => sha1.f3 | _ => sha1.f2 end.
Definition sha1_k (p : Fips1.phase) : Z :=
  match p with Fips1.P0 => sha1.k1 | Fips1.P1 => sha1.k2 | Fips1.P2 => sha1.k3 | Fips1.P3 => sha1.k4 end.

Lemma sha1_round a b c d e p w :
  Fips1.round (a, b, c, d, e) (p, w) =
  let '(b', e') := sha1.Round a b c d e (sha1_f p b c d) (sha1_k p) w in (e', a, b', c, d).
Proof.
  assert (Fips1.K p = sha1_k p) as HK by (by destruct p; vm_compute).
  assert (Fips1.f p b c d = sha1_f p b c d) as Hf.
  { destruct p; cbn [sha1_f Fips1.f]; try done; symmetry; [apply Ch_eq | apply Maj_eq]. }
  unfold Fips1.round, sha1.Round. cbn [fst snd]. rewrite HK, Hf. unfold Fips1.ROTL, u32.
  change (32 - 30) with 2. change (32 - 5) with 27. do 4 f_equal. f_equal. lia.
Qed.

Lemma sha1_extend pre w0 w1 w2 w3 w4 w5 w6 w7 w8 w9 w10 w11 w12 w13 w14 w15 :
  extend Fips1.new_word (pre ++ [w0; w1; w2; w3; w4; w5; w6; w7; w8; w9; w10; w11; w12; w13; w14; w15]) =
  (pre ++ [w0]) ++ [w1; w2; w3; w4; w5; w6; w7; w8; w9; w10; w11; w12; w13; w14; w15; sha1.rol1 (Z.lxor (Z.lxor (Z.lxor w0 w13) w8) w2)].
Proof.
  rewrite extend_app by (apply Fips1.sha1_word_local || (cbn; lia)). rewrite <- (assoc_L (++)). f_equal.
  assert (Z.lxor (Z.lxor (Z.lxor w0 w13) w8) w2 = Z.lxor (Z.lxor (Z.lxor w13 w8) w2) w0) as ->.
  { rewrite (Z.lxor_comm _ w0), !Z.lxor_assoc. done. }
  unfold extend, Fips1.new_word, Fips1.ROTL, sha1.rol1, u32.
  cbn [length Nat.sub nth app]. reflexivity.
Qed.

(** The sixteen words the code computes from sixteen. *)
Definition sha1_words (w : list Z) : list Z :=
  match w with
  | [w0; w1; w2; w3; w4; w5; w6; w7; w8; w9; w10; w11; w12; w13; w14; w15] =>
      let w0 := sha1.rol1 (Z.lxor (Z.lxor (Z.lxor w0 w13) w8) w2) in
      let w1 := sha1.rol1 (Z.lxor (Z.lxor (Z.lxor w1 w14) w9) w3) in
      let w2 := sha1.rol1 (Z.lxor (Z.lxor (Z.lxor w2 w15) w10) w4) in
      let w3 := sha1.rol1 (Z.lxor (Z.lxor (Z.lxor w3 w0) w11) w5) in
      let w4 := sha1.rol1 (Z.lxor (Z.lxor (Z.lxor w4 w1) w12) w6) in
      let w5 := sha1.rol1 (Z.lxor (Z.lxor (Z.lxor w5 w2) w13) w7) in
      let w6 := sha1.rol1 (Z.lxor (Z.lxor (Z.lxor w6 w3) w14) w8) in
      let w7 := sha1.rol1 (Z.lxor (Z.lxor (Z.lxor w7 w4) w15) w9) in
      let w8 := sha1.rol1 (Z.lxor (Z.lxor (Z.lxor w8 w5) w0) w10) in
      let w9 := sha1.rol1 (Z.lxor (Z.lxor (Z.lxor w9 w6) w1) w11) in
      let w10 := sha1.rol1 (Z.lxor (Z.lxor (Z.lxor w10 w7) w2) w12) in
      let w11 := sha1.rol1 (Z.lxor (Z.lxor (Z.lxor w11 w8) w3) w13) in
      let w12 := sha1.rol1 (Z.lxor (Z.lxor (Z.lxor w12 w9) w4) w14) in
      let w13 := sha1.rol1 (Z.lxor (Z.lxor (Z.lxor w13 w10) w5) w15) in
      let w14 := sha1.rol1 (Z.lxor (Z.lxor (Z.lxor w14 w11) w6) w0) in
      let w15 := sha1.rol1 (Z.lxor (Z.lxor (Z.lxor w15 w12) w7) w1) in
      [w0; w1; w2; w3; w4; w5; w6; w7; w8; w9; w10; w11; w12; w13; w14; w15]
  | _ => w
  end.
Lemma sha1_next w0 w1 w2 w3 w4 w5 w6 w7 w8 w9 w10 w11 w12 w13 w14 w15 : next Fips1.new_word [w0; w1; w2; w3; w4; w5; w6; w7; w8; w9; w10; w11; w12; w13; w14; w15] = sha1_words [w0; w1; w2; w3; w4; w5; w6; w7; w8; w9; w10; w11; w12; w13; w14; w15].
Proof.
  unfold next. change [w0; w1; w2; w3; w4; w5; w6; w7; w8; w9; w10; w11; w12; w13; w14; w15] with ([] ++ [w0; w1; w2; w3; w4; w5; w6; w7; w8; w9; w10; w11; w12; w13; w14; w15]) at 1.
  do 16 (rewrite Nat.iter_succ_r, sha1_extend). reflexivity.
Qed.

Ltac sha1_step :=
  cbn [zip zip_with foldl]; rewrite sha1_round; cbn [sha1_f sha1_k];
  match goal with |- context [sha1.Round ?a ?b ?c ?d ?e ?f ?k ?w] => destruct (sha1.Round a b c d e f k w) end.

(** The code renames its variables where the standard shifts the state: after sixteen
    rounds the names are off by one. *)
Definition rot (r : regs5) : regs5 := let '(a, b, c, d, e) := r in (e, a, b, c, d).

Lemma sha1_rounds_0 r chunk :
  let '(r', w') := sha1.rounds_0 r chunk in
  rot r' = foldl Fips1.round r (zip (take 16 Fips1.phases) (Fips1.words chunk)) /\ w' = Fips1.words chunk.
Proof.
  destruct r as [[[[a b] c] d] e].
  assert (Fips1.words chunk = map (fun i => ReadBE32 chunk (4 * i)) (seq 0 16)) as -> by done.
  unfold sha1.rounds_0. cbn [map seq Nat.mul Nat.add]. cbv zeta.
  cbn [take drop Fips1.phases replicate app]. do 16 sha1_step. split; reflexivity.
Qed.

Lemma sha1_rounds_16 r w : length w = 16%nat ->
  let '(r', w') := sha1.rounds_16 r w in
  rot (rot r') = foldl Fips1.round (rot r) (zip (take 16 (drop 16 Fips1.phases)) (next Fips1.new_word w)) /\
  w' = next Fips1.new_word w.
Proof.
  intros Hw. destruct r as [[[[a b] c] d] e]. do 16 (destruct w as [|? w]; [done|]). destruct w; [|done].
  rewrite sha1_next. unfold sha1.rounds_16, sha1_words. cbv zeta. cbn [rot].
  cbn [take drop Fips1.phases replicate app]. do 16 sha1_step. split; reflexivity.
Qed.

Lemma sha1_rounds_32 r w : length w = 16%nat ->
  let '(r', w') := sha1.rounds_32 r w in
  rot (rot (rot r')) = foldl Fips1.round (rot (rot r)) (zip (take 16 (drop 32 Fips1.phases)) (next Fips1.new_word w)) /\
  w' = next Fips1.new_word w.
Proof.
  intros Hw. destruct r as [[[[a b] c] d] e]. do 16 (destruct w as [|? w]; [done|]). destruct w; [|done].
  rewrite sha1_next. unfold sha1.rounds_32, sha1_words. cbv zeta. cbn [rot].
  cbn [take drop Fips1.phases replicate app]. do 16 sha1_step. split; reflexivity.
Qed.

Lemma sha1_rounds_48 r w : length w = 16%nat ->
  let '(r', w') := sha1.rounds_48 r w in
  rot (rot (rot (rot r'))) = foldl Fips1.round (rot (rot (rot r))) (zip (take 16 (drop 48 Fips1.phases)) (next Fips1.new_word w)) /\
  w' = next Fips1.new_word w.
Proof.
  intros Hw. destruct r as [[[[a b] c] d] e]. do 16 (destruct w as [|? w]; [done|]). destruct w; [|done].
  rewrite sha1_next. unfold sha1.rounds_48, sha1_words. cbv zeta. cbn [rot].
  cbn [take drop Fips1.phases replicate app]. do 16 sha1_step. split; reflexivity.
Qed.

Lemma sha1_rounds_64 r w : length w = 16%nat ->
  let '(r', w') := sha1.rounds_64 r w in
  rot (rot (rot (rot (rot r')))) = foldl Fips1.round (rot (rot (rot (rot r)))) (zip (take 16 (drop 64 Fips1.phases)) (next Fips1.new_word w)) /\
  w' = next Fips1.new_word w.
Proof.
  intros Hw. destruct r as [[[[a b] c] d] e]. do 16 (destruct w as [|? w]; [done|]). destruct w; [|done].
  rewrite sha1_next. unfold sha1.rounds_64, sha1_words. cbv zeta. cbn [rot].
  cbn [take drop Fips1.phases replicate app]. do 16 sha1_step. split; reflexivity.
Qed.

Lemma rot5 r : rot (rot (rot (rot (rot r)))) = r.
Proof. by destruct r as [[[[a b] c] d] e]. Qed.

Lemma sha1_Transform st chunk : sha1.Transform st chunk = Fips1.compress st chunk.
Proof.
  unfold sha1.Transform, Fips1.compress, Fips1.schedule. change 64%nat with (16 + (16 + (16 + (16 + 0))))%nat.
  assert (length (Fips1.words chunk) = 16%nat) as HL by done.
  pose proof (sha1_rounds_0 st chunk) as S0. destruct (sha1.rounds_0 st chunk) as [r0 w]. destruct S0 as [S0 ->].
  revert HL S0. generalize (Fips1.words chunk). intros W0 H0 S0.
  pose proof (next_length Fips1.new_word W0 H0) as H1.
  pose proof (next_length Fips1.new_word _ H1) as H2.
  pose proof (next_length Fips1.new_word _ H2) as H3.
  pose proof (sha1_rounds_16 r0 W0 H0) as S1. destruct (sha1.rounds_16 r0 W0) as [r1 w]. destruct S1 as [S1 ->].
  pose proof (sha1_rounds_32 r1 _ H1) as S2. destruct (sha1.rounds_32 r1 _) as [r2 w]. destruct S2 as [S2 ->].
  pose proof (sha1_rounds_48 r2 _ H2) as S3. destruct (sha1.rounds_48 r2 _) as [r3 w]. destruct S3 as [S3 ->].
  pose proof (sha1_rounds_64 r3 _ H3) as S4. destruct (sha1.rounds_64 r3 _) as [r4 w]. destruct S4 as [S4 _].
  rewrite rot5, S3, S2, S1, S0 in S4.
  rewrite !iter_next by (assumption || apply Fips1.sha1_word_local).
  rewrite !(foldl_zip_split _ _ _ _ 16), !drop_drop by (first [assumption | cbn; lia]).
  change (drop (16 + 16 + 16 + 16) Fips1.phases) with (take 16 (drop 64 Fips1.phases)).
  change (Nat.iter 0 (extend Fips1.new_word) ?x) with x. cbn [Nat.add]. rewrite <- S4.
  destruct r4 as [[[[a b] c] d] e]. destruct st as [[[[s0 s1] s2] s3] s4]. reflexivity.
Qed.
