(* ===== verification/Ripemd160.v ===== *)
(** RIPEMD-160: [src/src/crypto/ripemd160.cpp], its two interleaved lanes of unrolled rounds
    transcribed, and the published definition they compute. *)
From S2P Require Import Prelude Stream Sha2 Sha1.

Module ripemd160.

Definition not32 (x : Z) : Z := u32 (Z.lnot x).
Definition f1 (x y z : Z) : Z := Z.lxor (Z.lxor x y) z.
Definition f2 (x y z : Z) : Z := Z.lor (Z.land x y) (Z.land (not32 x) z).
Definition f3 (x y z : Z) : Z := Z.lxor (Z.lor x (not32 y)) z.
Definition f4 (x y z : Z) : Z := Z.lor (Z.land x z) (Z.land y (not32 z)).
Definition f5 (x y z : Z) : Z := Z.lxor x (Z.lor y (not32 z)).

Definition Initialize : regs5 := (0x67452301, 0xEFCDAB89, 0x98BADCFE, 0x10325476, 0xC3D2E1F0).
Definition rol (x i : Z) : Z := Z.lor (u32 (Z.shiftl x i)) (Z.shiftr x (32 - i)).

(** One round; the updated [a] and [c]. *)
Definition Round (a b c d e f x k r : Z) : Z * Z :=
  let a := u32 (rol (u32 (a + f + x + k)) r + e) in
  let c := rol c 10 in
  (a, c).
Definition R11 (a b c d e x r : Z) : Z * Z := Round a b c d e (f1 b c d) x 0 r.
Definition R21 (a b c d e x r : Z) : Z * Z := Round a b c d e (f2 b c d) x 0x5A827999 r.
Definition R31 (a b c d e x r : Z) : Z * Z := Round a b c d e (f3 b c d) x 0x6ED9EBA1 r.
Definition R41 (a b c d e x r : Z) : Z * Z := Round a b c d e (f4 b c d) x 0x8F1BBCDC r.
Definition R51 (a b c d e x r : Z) : Z * Z := Round a b c d e (f5 b c d) x 0xA953FD4E r.
Definition R12 (a b c d e x r : Z) : Z * Z := Round a b c d e (f5 b c d) x 0x50A28BE6 r.
Definition R22 (a b c d e x r : Z) : Z * Z := Round a b c d e (f4 b c d) x 0x5C4DD124 r.
Definition R32 (a b c d e x r : Z) : Z * Z := Round a b c d e (f3 b c d) x 0x6D703EF3 r.
Definition R42 (a b c d e x r : Z) : Z * Z := Round a b c d e (f2 b c d) x 0x7A6D76E9 r.
Definition R52 (a b c d e x r : Z) : Z * Z := Round a b c d e (f1 b c d) x 0 r.

(** The unrolled rounds, sixteen of each lane at a time. *)
Definition rounds_0 (l r : regs5) (w : list Z) : regs5 * regs5 :=
  let '(a1, b1, c1, d1, e1) := l in
  let '(a2, b2, c2, d2, e2) := r in
  match w with
  | [w0; w1; w2; w3; w4; w5; w6; w7; w8; w9; w10; w11; w12; w13; w14; w15] =>
  let '(a1, c1) := R11 a1 b1 c1 d1 e1 w0 11 in let '(a2, c2) := R12 a2 b2 c2 d2 e2 w5 8 in
  let '(e1, b1) := R11 e1 a1 b1 c1 d1 w1 14 in let '(e2, b2) := R12 e2 a2 b2 c2 d2 w14 9 in
  let '(d1, a1) := R11 d1 e1 a1 b1 c1 w2 15 in let '(d2, a2) := R12 d2 e2 a2 b2 c2 w7 9 in
  let '(c1, e1) := R11 c1 d1 e1 a1 b1 w3 12 in let '(c2, e2) := R12 c2 d2 e2 a2 b2 w0 11 in
  let '(b1, d1) := R11 b1 c1 d1 e1 a1 w4 5 in let '(b2, d2) := R12 b2 c2 d2 e2 a2 w9 13 in
  let '(a1, c1) := R11 a1 b1 c1 d1 e1 w5 8 in let '(a2, c2) := R12 a2 b2 c2 d2 e2 w2 15 in
  let '(e1, b1) := R11 e1 a1 b1 c1 d1 w6 7 in let '(e2, b2) := R12 e2 a2 b2 c2 d2 w11 15 in
  let '(d1, a1) := R11 d1 e1 a1 b1 c1 w7 9 in let '(d2, a2) := R12 d2 e2 a2 b2 c2 w4 5 in
  let '(c1, e1) := R11 c1 d1 e1 a1 b1 w8 11 in let '(c2, e2) := R12 c2 d2 e2 a2 b2 w13 7 in
  let '(b1, d1) := R11 b1 c1 d1 e1 a1 w9 13 in let '(b2, d2) := R12 b2 c2 d2 e2 a2 w6 7 in
  let '(a1, c1) := R11 a1 b1 c1 d1 e1 w10 14 in let '(a2, c2) := R12 a2 b2 c2 d2 e2 w15 8 in
  let '(e1, b1) := R11 e1 a1 b1 c1 d1 w11 15 in let '(e2, b2) := R12 e2 a2 b2 c2 d2 w8 11 in
  let '(d1, a1) := R11 d1 e1 a1 b1 c1 w12 6 in let '(d2, a2) := R12 d2 e2 a2 b2 c2 w1 14 in
  let '(c1, e1) := R11 c1 d1 e1 a1 b1 w13 7 in let '(c2, e2) := R12 c2 d2 e2 a2 b2 w10 14 in
  let '(b1, d1) := R11 b1 c1 d1 e1 a1 w14 9 in let '(b2, d2) := R12 b2 c2 d2 e2 a2 w3 12 in
  let '(a1, c1) := R11 a1 b1 c1 d1 e1 w15 8 in let '(a2, c2) := R12 a2 b2 c2 d2 e2 w12 6 in
  ((a1, b1, c1, d1, e1), (a2, b2, c2, d2, e2))
  | _ => (l, r)
  end.

Definition rounds_16 (l r : regs5) (w : list Z) : regs5 * regs5 :=
  let '(a1, b1, c1, d1, e1) := l in
  let '(a2, b2, c2, d2, e2) := r in
  match w with
  | [w0; w1; w2; w3; w4; w5; w6; w7; w8; w9; w10; w11; w12; w13; w14; w15] =>
  let '(e1, b1) := R21 e1 a1 b1 c1 d1 w7 7 in let '(e2, b2) := R22 e2 a2 b2 c2 d2 w6 9 in
  let '(d1, a1) := R21 d1 e1 a1 b1 c1 w4 6 in let '(d2, a2) := R22 d2 e2 a2 b2 c2 w11 13 in
  let '(c1, e1) := R21 c1 d1 e1 a1 b1 w13 8 in let '(c2, e2) := R22 c2 d2 e2 a2 b2 w3 15 in
  let '(b1, d1) := R21 b1 c1 d1 e1 a1 w1 13 in let '(b2, d2) := R22 b2 c2 d2 e2 a2 w7 7 in
  let '(a1, c1) := R21 a1 b1 c1 d1 e1 w10 11 in let '(a2, c2) := R22 a2 b2 c2 d2 e2 w0 12 in
  let '(e1, b1) := R21 e1 a1 b1 c1 d1 w6 9 in let '(e2, b2) := R22 e2 a2 b2 c2 d2 w13 8 in
  let '(d1, a1) := R21 d1 e1 a1 b1 c1 w15 7 in let '(d2, a2) := R22 d2 e2 a2 b2 c2 w5 9 in
  let '(c1, e1) := R21 c1 d1 e1 a1 b1 w3 15 in let '(c2, e2) := R22 c2 d2 e2 a2 b2 w10 11 in
  let '(b1, d1) := R21 b1 c1 d1 e1 a1 w12 7 in let '(b2, d2) := R22 b2 c2 d2 e2 a2 w14 7 in
  let '(a1, c1) := R21 a1 b1 c1 d1 e1 w0 12 in let '(a2, c2) := R22 a2 b2 c2 d2 e2 w15 7 in
  let '(e1, b1) := R21 e1 a1 b1 c1 d1 w9 15 in let '(e2, b2) := R22 e2 a2 b2 c2 d2 w8 12 in
  let '(d1, a1) := R21 d1 e1 a1 b1 c1 w5 9 in let '(d2, a2) := R22 d2 e2 a2 b2 c2 w12 7 in
  let '(c1, e1) := R21 c1 d1 e1 a1 b1 w2 11 in let '(c2, e2) := R22 c2 d2 e2 a2 b2 w4 6 in
  let '(b1, d1) := R21 b1 c1 d1 e1 a1 w14 7 in let '(b2, d2) := R22 b2 c2 d2 e2 a2 w9 15 in
  let '(a1, c1) := R21 a1 b1 c1 d1 e1 w11 13 in let '(a2, c2) := R22 a2 b2 c2 d2 e2 w1 13 in
  let '(e1, b1) := R21 e1 a1 b1 c1 d1 w8 12 in let '(e2, b2) := R22 e2 a2 b2 c2 d2 w2 11 in
  ((a1, b1, c1, d1, e1), (a2, b2, c2, d2, e2))
  | _ => (l, r)
  end.

Definition rounds_32 (l r : regs5) (w : list Z) : regs5 * regs5 :=
  let '(a1, b1, c1, d1, e1) := l in
  let '(a2, b2, c2, d2, e2) := r in
  match w with
  | [w0; w1; w2; w3; w4; w5; w6; w7; w8; w9; w10; w11; w12; w13; w14; w15] =>
  let '(d1, a1) := R31 d1 e1 a1 b1 c1 w3 11 in let '(d2, a2) := R32 d2 e2 a2 b2 c2 w15 9 in
  let '(c1, e1) := R31 c1 d1 e1 a1 b1 w10 13 in let '(c2, e2) := R32 c2 d2 e2 a2 b2 w5 7 in
  let '(b1, d1) := R31 b1 c1 d1 e1 a1 w14 6 in let '(b2, d2) := R32 b2 c2 d2 e2 a2 w1 15 in
  let '(a1, c1) := R31 a1 b1 c1 d1 e1 w4 7 in let '(a2, c2) := R32 a2 b2 c2 d2 e2 w3 11 in
  let '(e1, b1) := R31 e1 a1 b1 c1 d1 w9 14 in let '(e2, b2) := R32 e2 a2 b2 c2 d2 w7 8 in
  let '(d1, a1) := R31 d1 e1 a1 b1 c1 w15 9 in let '(d2, a2) := R32 d2 e2 a2 b2 c2 w14 6 in
  let '(c1, e1) := R31 c1 d1 e1 a1 b1 w8 13 in let '(c2, e2) := R32 c2 d2 e2 a2 b2 w6 6 in
  let '(b1, d1) := R31 b1 c1 d1 e1 a1 w1 15 in let '(b2, d2) := R32 b2 c2 d2 e2 a2 w9 14 in
  let '(a1, c1) := R31 a1 b1 c1 d1 e1 w2 14 in let '(a2, c2) := R32 a2 b2 c2 d2 e2 w11 12 in
  let '(e1, b1) := R31 e1 a1 b1 c1 d1 w7 8 in let '(e2, b2) := R32 e2 a2 b2 c2 d2 w8 13 in
  let '(d1, a1) := R31 d1 e1 a1 b1 c1 w0 13 in let '(d2, a2) := R32 d2 e2 a2 b2 c2 w12 5 in
  let '(c1, e1) := R31 c1 d1 e1 a1 b1 w6 6 in let '(c2, e2) := R32 c2 d2 e2 a2 b2 w2 14 in
  let '(b1, d1) := R31 b1 c1 d1 e1 a1 w13 5 in let '(b2, d2) := R32 b2 c2 d2 e2 a2 w10 13 in
  let '(a1, c1) := R31 a1 b1 c1 d1 e1 w11 12 in let '(a2, c2) := R32 a2 b2 c2 d2 e2 w0 13 in
  let '(e1, b1) := R31 e1 a1 b1 c1 d1 w5 7 in let '(e2, b2) := R32 e2 a2 b2 c2 d2 w4 7 in
  let '(d1, a1) := R31 d1 e1 a1 b1 c1 w12 5 in let '(d2, a2) := R32 d2 e2 a2 b2 c2 w13 5 in
  ((a1, b1, c1, d1, e1), (a2, b2, c2, d2, e2))
  | _ => (l, r)
  end.

Definition rounds_48 (l r : regs5) (w : list Z) : regs5 * regs5 :=
  let '(a1, b1, c1, d1, e1) := l in
  let '(a2, b2, c2, d2, e2) := r in
  match w with
  | [w0; w1; w2; w3; w4; w5; w6; w7; w8; w9; w10; w11; w12; w13; w14; w15] =>
  let '(c1, e1) := R41 c1 d1 e1 a1 b1 w1 11 in let '(c2, e2) := R42 c2 d2 e2 a2 b2 w8 15 in
  let '(b1, d1) := R41 b1 c1 d1 e1 a1 w9 12 in let '(b2, d2) := R42 b2 c2 d2 e2 a2 w6 5 in
  let '(a1, c1) := R41 a1 b1 c1 d1 e1 w11 14 in let '(a2, c2) := R42 a2 b2 c2 d2 e2 w4 8 in
  let '(e1, b1) := R41 e1 a1 b1 c1 d1 w10 15 in let '(e2, b2) := R42 e2 a2 b2 c2 d2 w1 11 in
  let '(d1, a1) := R41 d1 e1 a1 b1 c1 w0 14 in let '(d2, a2) := R42 d2 e2 a2 b2 c2 w3 14 in
  let '(c1, e1) := R41 c1 d1 e1 a1 b1 w8 15 in let '(c2, e2) := R42 c2 d2 e2 a2 b2 w11 14 in
  let '(b1, d1) := R41 b1 c1 d1 e1 a1 w12 9 in let '(b2, d2) := R42 b2 c2 d2 e2 a2 w15 6 in
  let '(a1, c1) := R41 a1 b1 c1 d1 e1 w4 8 in let '(a2, c2) := R42 a2 b2 c2 d2 e2 w0 14 in
  let '(e1, b1) := R41 e1 a1 b1 c1 d1 w13 9 in let '(e2, b2) := R42 e2 a2 b2 c2 d2 w5 6 in
  let '(d1, a1) := R41 d1 e1 a1 b1 c1 w3 14 in let '(d2, a2) := R42 d2 e2 a2 b2 c2 w12 9 in
  let '(c1, e1) := R41 c1 d1 e1 a1 b1 w7 5 in let '(c2, e2) := R42 c2 d2 e2 a2 b2 w2 12 in
  let '(b1, d1) := R41 b1 c1 d1 e1 a1 w15 6 in let '(b2, d2) := R42 b2 c2 d2 e2 a2 w13 9 in
  let '(a1, c1) := R41 a1 b1 c1 d1 e1 w14 8 in let '(a2, c2) := R42 a2 b2 c2 d2 e2 w9 12 in
  let '(e1, b1) := R41 e1 a1 b1 c1 d1 w5 6 in let '(e2, b2) := R42 e2 a2 b2 c2 d2 w7 5 in
  let '(d1, a1) := R41 d1 e1 a1 b1 c1 w6 5 in let '(d2, a2) := R42 d2 e2 a2 b2 c2 w10 15 in
  let '(c1, e1) := R41 c1 d1 e1 a1 b1 w2 12 in let '(c2, e2) := R42 c2 d2 e2 a2 b2 w14 8 in
  ((a1, b1, c1, d1, e1), (a2, b2, c2, d2, e2))
  | _ => (l, r)
  end.

Definition rounds_64 (l r : regs5) (w : list Z) : regs5 * regs5 :=
  let '(a1, b1, c1, d1, e1) := l in
  let '(a2, b2, c2, d2, e2) := r in
  match w with
  | [w0; w1; w2; w3; w4; w5; w6; w7; w8; w9; w10; w11; w12; w13; w14; w15] =>
  let '(b1, d1) := R51 b1 c1 d1 e1 a1 w4 9 in let '(b2, d2) := R52 b2 c2 d2 e2 a2 w12 8 in
  let '(a1, c1) := R51 a1 b1 c1 d1 e1 w0 15 in let '(a2, c2) := R52 a2 b2 c2 d2 e2 w15 5 in
  let '(e1, b1) := R51 e1 a1 b1 c1 d1 w5 5 in let '(e2, b2) := R52 e2 a2 b2 c2 d2 w10 12 in
  let '(d1, a1) := R51 d1 e1 a1 b1 c1 w9 11 in let '(d2, a2) := R52 d2 e2 a2 b2 c2 w4 9 in
  let '(c1, e1) := R51 c1 d1 e1 a1 b1 w7 6 in let '(c2, e2) := R52 c2 d2 e2 a2 b2 w1 12 in
  let '(b1, d1) := R51 b1 c1 d1 e1 a1 w12 8 in let '(b2, d2) := R52 b2 c2 d2 e2 a2 w5 5 in
  let '(a1, c1) := R51 a1 b1 c1 d1 e1 w2 13 in let '(a2, c2) := R52 a2 b2 c2 d2 e2 w8 14 in
  let '(e1, b1) := R51 e1 a1 b1 c1 d1 w10 12 in let '(e2, b2) := R52 e2 a2 b2 c2 d2 w7 6 in
  let '(d1, a1) := R51 d1 e1 a1 b1 c1 w14 5 in let '(d2, a2) := R52 d2 e2 a2 b2 c2 w6 8 in
  let '(c1, e1) := R51 c1 d1 e1 a1 b1 w1 12 in let '(c2, e2) := R52 c2 d2 e2 a2 b2 w2 13 in
  let '(b1, d1) := R51 b1 c1 d1 e1 a1 w3 13 in let '(b2, d2) := R52 b2 c2 d2 e2 a2 w13 6 in
  let '(a1, c1) := R51 a1 b1 c1 d1 e1 w8 14 in let '(a2, c2) := R52 a2 b2 c2 d2 e2 w14 5 in
  let '(e1, b1) := R51 e1 a1 b1 c1 d1 w11 11 in let '(e2, b2) := R52 e2 a2 b2 c2 d2 w0 15 in
  let '(d1, a1) := R51 d1 e1 a1 b1 c1 w6 8 in let '(d2, a2) := R52 d2 e2 a2 b2 c2 w3 13 in
  let '(c1, e1) := R51 c1 d1 e1 a1 b1 w15 5 in let '(c2, e2) := R52 c2 d2 e2 a2 b2 w9 11 in
  let '(b1, d1) := R51 b1 c1 d1 e1 a1 w13 6 in let '(b2, d2) := R52 b2 c2 d2 e2 a2 w11 11 in
  ((a1, b1, c1, d1, e1), (a2, b2, c2, d2, e2))
  | _ => (l, r)
  end.

Definition Transform (st : regs5) (chunk : list Z) : regs5 :=
  let w := map (fun i => ReadLE32 chunk (4 * i)) (seq 0 16) in
  let '(l, r) := rounds_0 st st w in
  let '(l, r) := rounds_16 l r w in
  let '(l, r) := rounds_32 l r w in
  let '(l, r) := rounds_48 l r w in
  let '(l, r) := rounds_64 l r w in
  let '(a1, b1, c1, d1, e1) := l in
  let '(a2, b2, c2, d2, e2) := r in
  let '(s0, s1, s2, s3, s4) := st in
  (u32 (s1 + c1 + d2), u32 (s2 + d1 + e2), u32 (s3 + e1 + a2), u32 (s4 + a1 + b2), u32 (s0 + b1 + c2)).

Definition output (st : regs5) : list Z :=
  let '(s0, s1, s2, s3, s4) := st in concat (map WriteLE32 [s0; s1; s2; s3; s4]).

End ripemd160.

Definition CRIPEMD160 : Algo := mkAlgo regs5 64 8 ripemd160.Initialize ripemd160.Transform WriteLE64 ripemd160.output.
Definition CRIPEMD160_Write : hasher CRIPEMD160 -> list Z -> hasher CRIPEMD160 := Write CRIPEMD160.
Definition CRIPEMD160_Finalize : hasher CRIPEMD160 -> hasher CRIPEMD160 * list Z := Finalize CRIPEMD160.
Definition CRIPEMD160_Reset : hasher CRIPEMD160 -> hasher CRIPEMD160 := Reset CRIPEMD160.

(** ** Reference: Dobbertin, Bosselaers and Preneel, 1996 *)
Module Rmd.

(** The word permutations: powers of [rho], and [pi]; the shift amounts. *)
Definition rho (i : nat) : nat := nth i [7; 4; 13; 1; 10; 6; 15; 3; 12; 0; 9; 5; 2; 14; 11; 8]%nat 0%nat.
Definition pi (i : nat) : nat := ((9 * i + 5) mod 16)%nat.
Definition shifts : list Z :=
  [11; 14; 15; 12; 5; 8; 7; 9; 11; 13; 14; 15; 6; 7; 9; 8;
   7; 6; 8; 13; 11; 9; 7; 15; 7; 12; 15; 9; 11; 7; 13; 12;
   11; 13; 6; 7; 14; 9; 13; 15; 14; 8; 13; 6; 5; 12; 7; 5;
   11; 12; 14; 15; 14; 15; 9; 8; 9; 14; 5; 6; 8; 6; 5; 12;
   9; 15; 5; 11; 6; 8; 13; 12; 5; 12; 13; 14; 11; 8; 5; 6].
Definition shifts' : list Z :=
  [8; 9; 9; 11; 13; 15; 15; 5; 7; 7; 8; 11; 14; 14; 12; 6;
   9; 13; 15; 7; 12; 8; 9; 11; 7; 7; 12; 7; 6; 15; 13; 11;
   9; 7; 15; 11; 8; 6; 6; 14; 12; 13; 5; 14; 13; 13; 7; 5;
   15; 5; 8; 11; 14; 14; 6; 14; 6; 9; 12; 9; 12; 5; 15; 8;
   8; 5; 12; 9; 12; 5; 14; 6; 8; 13; 6; 5; 15; 13; 11; 11].

(** A step: the round it belongs to, the word it reads and its shift. *)
Definition steps : list (nat * nat * Z) :=
  zip (concat (map (fun i => map (fun j => (i, Nat.iter i rho j)) (seq 0 16)) (seq 0 5))) shifts.
Definition steps' : list (nat * nat * Z) :=
  zip (concat (map (fun i => map (fun j => (i, Nat.iter i rho (pi j))) (seq 0 16)) (seq 0 5))) shifts'.

(** The Boolean functions; [2 ^ 30] times the square and cube roots of 2, 3, 5 and 7. *)
Definition compl (x : Z) : Z := Z.lnot x mod 2 ^ 32.
Definition f (i : nat) (x y z : Z) : Z :=
  match i with
  | 0 => Z.lxor (Z.lxor x y) z
  | 1 => Z.lor (Z.land x y) (Z.land (compl x) z)
  | 2 => Z.lxor (Z.lor x (compl y)) z
  | 3 => Z.lor (Z.land x z) (Z.land y (compl z))
  | _ => Z.lxor x (Z.lor y (compl z))
  end%nat.
Definition K (i : nat) : Z := match i with O => 0 | S i => Z.sqrt (nth i [2; 3; 5; 7] 0 * 2 ^ 60) end.
Definition K' (i : nat) : Z := if (i =? 4)%nat then 0 else Fips.iroot 3 (nth i [2; 3; 5; 7] 0 * 2 ^ 90) 40 0.
Definition rol (s x : Z) : Z := Z.lor (Z.shiftl x s mod 2 ^ 32) (Z.shiftr x (32 - s)).

Definition lane (f : nat -> Z -> Z -> Z -> Z) (K : nat -> Z) (X : list Z) (r : regs5) (st : nat * nat * Z) : regs5 :=
  let '(a, b, c, d, e) := r in
  let '(i, j, s) := st in
  let T := (rol s ((a + f i b c d + nth j X 0 + K i) mod 2 ^ 32) + e) mod 2 ^ 32 in
  (e, T, b, rol 10 c, d).
Definition left_lane : list Z -> regs5 -> nat * nat * Z -> regs5 := lane f K.
Definition right_lane : list Z -> regs5 -> nat * nat * Z -> regs5 := lane (fun i => f (4 - i)) K'.

Definition words (chunk : list Z) : list Z := map (fun i => of_le_bytes (take 4 (drop (4 * i) chunk))) (seq 0 16).
Definition compress (st : regs5) (chunk : list Z) : regs5 :=
  let X := words chunk in
  let '(a, b, c, d, e) := foldl (left_lane X) st steps in
  let '(a', b', c', d', e') := foldl (right_lane X) st steps' in
  let '(s0, s1, s2, s3, s4) := st in
  let add x y z := (x + y + z) mod 2 ^ 32 in
  (add s1 c d', add s2 d e', add s3 e a', add s4 a b', add s0 b c').
End Rmd.

(** ** The unrolled code computes it *)

(** The steps of the two lanes as the code lists them. *)
Definition rmd_left : list (nat * nat * Z) :=
  [(0%nat, 0%nat, 11); (0%nat, 1%nat, 14); (0%nat, 2%nat, 15); (0%nat, 3%nat, 12); (0%nat, 4%nat, 5); (0%nat, 5%nat, 8); (0%nat, 6%nat, 7); (0%nat, 7%nat, 9); (0%nat, 8%nat, 11); (0%nat, 9%nat, 13); (0%nat, 10%nat, 14); (0%nat, 11%nat, 15); (0%nat, 12%nat, 6); (0%nat, 13%nat, 7); (0%nat, 14%nat, 9); (0%nat, 15%nat, 8); (1%nat, 7%nat, 7); (1%nat, 4%nat, 6); (1%nat, 13%nat, 8); (1%nat, 1%nat, 13); (1%nat, 10%nat, 11); (1%nat, 6%nat, 9); (1%nat, 15%nat, 7); (1%nat, 3%nat, 15); (1%nat, 12%nat, 7); (1%nat, 0%nat, 12); (1%nat, 9%nat, 15); (1%nat, 5%nat, 9); (1%nat, 2%nat, 11); (1%nat, 14%nat, 7); (1%nat, 11%nat, 13); (1%nat, 8%nat, 12); (2%nat, 3%nat, 11); (2%nat, 10%nat, 13); (2%nat, 14%nat, 6); (2%nat, 4%nat, 7); (2%nat, 9%nat, 14); (2%nat, 15%nat, 9); (2%nat, 8%nat, 13); (2%nat, 1%nat, 15); (2%nat, 2%nat, 14); (2%nat, 7%nat, 8); (2%nat, 0%nat, 13); (2%nat, 6%nat, 6); (2%nat, 13%nat, 5); (2%nat, 11%nat, 12); (2%nat, 5%nat, 7); (2%nat, 12%nat, 5); (3%nat, 1%nat, 11); (3%nat, 9%nat, 12); (3%nat, 11%nat, 14); (3%nat, 10%nat, 15); (3%nat, 0%nat, 14); (3%nat, 8%nat, 15); (3%nat, 12%nat, 9); (3%nat, 4%nat, 8); (3%nat, 13%nat, 9); (3%nat, 3%nat, 14); (3%nat, 7%nat, 5); (3%nat, 15%nat, 6); (3%nat, 14%nat, 8); (3%nat, 5%nat, 6); (3%nat, 6%nat, 5); (3%nat, 2%nat, 12); (4%nat, 4%nat, 9); (4%nat, 0%nat, 15); (4%nat, 5%nat, 5); (4%nat, 9%nat, 11); (4%nat, 7%nat, 6); (4%nat, 12%nat, 8); (4%nat, 2%nat, 13); (4%nat, 10%nat, 12); (4%nat, 14%nat, 5); (4%nat, 1%nat, 12); (4%nat, 3%nat, 13); (4%nat, 8%nat, 14); (4%nat, 11%nat, 11); (4%nat, 6%nat, 8); (4%nat, 15%nat, 5); (4%nat, 13%nat, 6)].
Definition rmd_right : list (nat * nat * Z) :=
  [(0%nat, 5%nat, 8); (0%nat, 14%nat, 9); (0%nat, 7%nat, 9); (0%nat, 0%nat, 11); (0%nat, 9%nat, 13); (0%nat, 2%nat, 15); (0%nat, 11%nat, 15); (0%nat, 4%nat, 5); (0%nat, 13%nat, 7); (0%nat, 6%nat, 7); (0%nat, 15%nat, 8); (0%nat, 8%nat, 11); (0%nat, 1%nat, 14); (0%nat, 10%nat, 14); (0%nat, 3%nat, 12); (0%nat, 12%nat, 6); (1%nat, 6%nat, 9); (1%nat, 11%nat, 13); (1%nat, 3%nat, 15); (1%nat, 7%nat, 7); (1%nat, 0%nat, 12); (1%nat, 13%nat, 8); (1%nat, 5%nat, 9); (1%nat, 10%nat, 11); (1%nat, 14%nat, 7); (1%nat, 15%nat, 7); (1%nat, 8%nat, 12); (1%nat, 12%nat, 7); (1%nat, 4%nat, 6); (1%nat, 9%nat, 15); (1%nat, 1%nat, 13); (1%nat, 2%nat, 11); (2%nat, 15%nat, 9); (2%nat, 5%nat, 7); (2%nat, 1%nat, 15); (2%nat, 3%nat, 11); (2%nat, 7%nat, 8); (2%nat, 14%nat, 6); (2%nat, 6%nat, 6); (2%nat, 9%nat, 14); (2%nat, 11%nat, 12); (2%nat, 8%nat, 13); (2%nat, 12%nat, 5); (2%nat, 2%nat, 14); (2%nat, 10%nat, 13); (2%nat, 0%nat, 13); (2%nat, 4%nat, 7); (2%nat, 13%nat, 5); (3%nat, 8%nat, 15); (3%nat, 6%nat, 5); (3%nat, 4%nat, 8); (3%nat, 1%nat, 11); (3%nat, 3%nat, 14); (3%nat, 11%nat, 14); (3%nat, 15%nat, 6); (3%nat, 0%nat, 14); (3%nat, 5%nat, 6); (3%nat, 12%nat, 9); (3%nat, 2%nat, 12); (3%nat, 13%nat, 9); (3%nat, 9%nat, 12); (3%nat, 7%nat, 5); (3%nat, 10%nat, 15); (3%nat, 14%nat, 8); (4%nat, 12%nat, 8); (4%nat, 15%nat, 5); (4%nat, 10%nat, 12); (4%nat, 4%nat, 9); (4%nat, 1%nat, 12); (4%nat, 5%nat, 5); (4%nat, 8%nat, 14); (4%nat, 7%nat, 6); (4%nat, 6%nat, 8); (4%nat, 2%nat, 13); (4%nat, 13%nat, 6); (4%nat, 14%nat, 5); (4%nat, 0%nat, 15); (4%nat, 3%nat, 13); (4%nat, 9%nat, 11); (4%nat, 11%nat, 11)].
Lemma rmd_left_eq : Rmd.steps = rmd_left.
Proof. by vm_compute. Qed.
Lemma rmd_right_eq : Rmd.steps' = rmd_right.
Proof. by vm_compute. Qed.

Definition rmd_L (i : nat) : Z -> Z -> Z -> Z -> Z -> Z -> Z -> Z * Z :=
  match i with
  | 0 => ripemd160.R11 | 1 => ripemd160.R21 | 2 => ripemd160.R31 | 3 => ripemd160.R41 | _ => ripemd160.R51
  end%nat.
Definition rmd_R (i : nat) : Z -> Z -> Z -> Z -> Z -> Z -> Z -> Z * Z :=
  match i with
  | 0 => ripemd160.R12 | 1 => ripemd160.R22 | 2 => ripemd160.R32 | 3 => ripemd160.R42 | _ => ripemd160.R52
  end%nat.

Ltac rmd_unfold :=
  unfold Rmd.left_lane, Rmd.right_lane, Rmd.lane;
  repeat match goal with
  | |- context [Rmd.K ?n] => let v := eval vm_compute in (Rmd.K n) in replace (Rmd.K n) with v by by vm_compute
  | |- context [Rmd.K' ?n] => let v := eval vm_compute in (Rmd.K' n) in replace (Rmd.K' n) with v by by vm_compute
  end;
  cbn [Rmd.f rmd_L rmd_R Nat.sub];
  unfold ripemd160.R11, ripemd160.R21, ripemd160.R31, ripemd160.R41, ripemd160.R51, ripemd160.R12, ripemd160.R22,
    ripemd160.R32, ripemd160.R42, ripemd160.R52, ripemd160.Round; cbv zeta; unfold u32; reflexivity.
Lemma rmd_left_step X a b c d e i j s : (i < 5)%nat ->
  Rmd.left_lane X (a, b, c, d, e) (i, j, s) = let '(a', c') := rmd_L i a b c d e (nth j X 0) s in (e, a', b, c', d).
Proof.
  intros Hi. do 5 (destruct i as [|i]; [rmd_unfold|]). lia.
Qed.
Lemma rmd_right_step X a b c d e i j s : (i < 5)%nat ->
  Rmd.right_lane X (a, b, c, d, e) (i, j, s) = let '(a', c') := rmd_R i a b c d e (nth j X 0) s in (e, a', b, c', d).
Proof.
  intros Hi. do 5 (destruct i as [|i]; [rmd_unfold|]). lia.
Qed.

Ltac rmd_destruct :=
  match goal with
  | |- context [let '(_, _) := ?F ?a ?b ?c ?d ?e ?x ?s in _] => destruct (F a b c d e x s)
  end.
Ltac rmd_step :=
  cbn [foldl]; rewrite rmd_left_step, rmd_right_step by lia; cbn [rmd_L rmd_R nth];
  do 2 rmd_destruct.

Lemma rmd_rounds_0 l r w : length w = 16%nat ->
  let '(l', r') := ripemd160.rounds_0 l r w in
  rot l' = foldl (Rmd.left_lane w) l (take 16 (drop 0 rmd_left)) /\
  rot r' = foldl (Rmd.right_lane w) r (take 16 (drop 0 rmd_right)).
Proof.
  intros Hw. destruct l as [[[[a1 b1] c1] d1] e1], r as [[[[a2 b2] c2] d2] e2].
  do 16 (destruct w as [|? w]; [done|]). destruct w; [|done].
  unfold ripemd160.rounds_0. cbn [rot take drop rmd_left rmd_right].
  do 16 rmd_step. split; reflexivity.
Qed.

Lemma rmd_rounds_16 l r w : length w = 16%nat ->
  let '(l', r') := ripemd160.rounds_16 l r w in
  rot (rot l') = foldl (Rmd.left_lane w) (rot l) (take 16 (drop 16 rmd_left)) /\
  rot (rot r') = foldl (Rmd.right_lane w) (rot r) (take 16 (drop 16 rmd_right)).
Proof.
  intros Hw. destruct l as [[[[a1 b1] c1] d1] e1], r as [[[[a2 b2] c2] d2] e2].
  do 16 (destruct w as [|? w]; [done|]). destruct w; [|done].
  unfold ripemd160.rounds_16. cbn [rot take drop rmd_left rmd_right].
  do 16 rmd_step. split; reflexivity.
Qed.

Lemma rmd_rounds_32 l r w : length w = 16%nat ->
  let '(l', r') := ripemd160.rounds_32 l r w in
  rot (rot (rot l')) = foldl (Rmd.left_lane w) (rot (rot l)) (take 16 (drop 32 rmd_left)) /\
  rot (rot (rot r')) = foldl (Rmd.right_lane w) (rot (rot r)) (take 16 (drop 32 rmd_right)).
Proof.
  intros Hw. destruct l as [[[[a1 b1] c1] d1] e1], r as [[[[a2 b2] c2] d2] e2].
  do 16 (destruct w as [|? w]; [done|]). destruct w; [|done].
  unfold ripemd160.rounds_32. cbn [rot take drop rmd_left rmd_right].
  do 16 rmd_step. split; reflexivity.
Qed.

Lemma rmd_rounds_48 l r w : length w = 16%nat ->
  let '(l', r') := ripemd160.rounds_48 l r w in
  rot (rot (rot (rot l'))) = foldl (Rmd.left_lane w) (rot (rot (rot l))) (take 16 (drop 48 rmd_left)) /\
  rot (rot (rot (rot r'))) = foldl (Rmd.right_lane w) (rot (rot (rot r))) (take 16 (drop 48 rmd_right)).
Proof.
  intros Hw. destruct l as [[[[a1 b1] c1] d1] e1], r as [[[[a2 b2] c2] d2] e2].
  do 16 (destruct w as [|? w]; [done|]). destruct w; [|done].
  unfold ripemd160.rounds_48. cbn [rot take drop rmd_left rmd_right].
  do 16 rmd_step. split; reflexivity.
Qed.

Lemma rmd_rounds_64 l r w : length w = 16%nat ->
  let '(l', r') := ripemd160.rounds_64 l r w in
  rot (rot (rot (rot (rot l')))) = foldl (Rmd.left_lane w) (rot (rot (rot (rot l)))) (take 16 (drop 64 rmd_left)) /\
  rot (rot (rot (rot (rot r')))) = foldl (Rmd.right_lane w) (rot (rot (rot (rot r)))) (take 16 (drop 64 rmd_right)).
Proof.
  intros Hw. destruct l as [[[[a1 b1] c1] d1] e1], r as [[[[a2 b2] c2] d2] e2].
  do 16 (destruct w as [|? w]; [done|]). destruct w; [|done].
  unfold ripemd160.rounds_64. cbn [rot take drop rmd_left rmd_right].
  do 16 rmd_step. split; reflexivity.
Qed.

Lemma foldl_80 {A B} (f : A -> B -> A) (l : list B) st : length l = 80%nat ->
  foldl f st l = foldl f (foldl f (foldl f (foldl f (foldl f st (take 16 (drop 0 l))) (take 16 (drop 16 l)))
    (take 16 (drop 32 l))) (take 16 (drop 48 l))) (take 16 (drop 64 l)).
Proof.
  intros H. rewrite <- !foldl_app. f_equal. rewrite drop_0, (take_ge (drop 64 l)) by (rewrite length_drop; lia).
  assert (forall n, take 16 (drop n l) ++ drop (n + 16) l = drop n l) as E
    by (intros n; rewrite <- drop_drop; apply take_drop).
  pose proof (E 48%nat) as E3. pose proof (E 32%nat) as E2. pose proof (E 16%nat) as E1. cbn [Nat.add] in E1, E2, E3.
  rewrite E3, E2, E1. symmetry. apply take_drop.
Qed.

Lemma rmd_Transform st chunk : ripemd160.Transform st chunk = Rmd.compress st chunk.
Proof.
  unfold ripemd160.Transform, Rmd.compress. cbv zeta. rewrite rmd_left_eq, rmd_right_eq.
  change (map (fun i => ReadLE32 chunk (4 * i)) (seq 0 16)) with (Rmd.words chunk).
  assert (length (Rmd.words chunk) = 16%nat) as HL by done. revert HL. generalize (Rmd.words chunk). intros w Hw.
  pose proof (rmd_rounds_0 st st w Hw) as S0. destruct (ripemd160.rounds_0 st st w) as [l0 r0]. destruct S0 as [A0 B0].
  pose proof (rmd_rounds_16 l0 r0 w Hw) as S1. destruct (ripemd160.rounds_16 l0 r0 w) as [l1 r1]. destruct S1 as [A1 B1].
  pose proof (rmd_rounds_32 l1 r1 w Hw) as S2. destruct (ripemd160.rounds_32 l1 r1 w) as [l2 r2]. destruct S2 as [A2 B2].
  pose proof (rmd_rounds_48 l2 r2 w Hw) as S3. destruct (ripemd160.rounds_48 l2 r2 w) as [l3 r3]. destruct S3 as [A3 B3].
  pose proof (rmd_rounds_64 l3 r3 w Hw) as S4. destruct (ripemd160.rounds_64 l3 r3 w) as [l4 r4]. destruct S4 as [A4 B4].
  rewrite rot5, A3, A2, A1, A0 in A4. rewrite rot5, B3, B2, B1, B0 in B4.
  rewrite <- foldl_80 in A4, B4 by done. rewrite <- A4, <- B4.
  destruct l4 as [[[[a1 b1] c1] d1] e1], r4 as [[[[a2 b2] c2] d2] e2], st as [[[[s0 s1] s2] s3] s4]. reflexivity.
Qed.
