(* ===== verification/Hashers.v ===== *)
(** The hasher classes as their clients use them: the four streaming hashers against the
    published standards, the double hashes of [src/src/hash.h], HMAC
    ([src/src/crypto/hmac_sha256.cpp], [src/src/crypto/hmac_sha512.cpp]), the RFC 6979
    generator ([src/src/crypto/rfc6979_hmac_sha256.cpp]) and the hash functions of
    [src/src/hash.cpp]. *)
From S2P Require Import Prelude Stream Sha2 Sha1 Ripemd160 Encodings.

(** ** The standards *)

Definition SHA256 : Algo :=
  mkAlgo regs 64 8 (Fips.H0 Fips.SHA256) (Fips.compress Fips.SHA256) (fun n => rev (le_bytes 8 n)) sha256.output.
Definition SHA512 : Algo :=
  mkAlgo regs 128 16 (Fips.H0 Fips.SHA512) (Fips.compress Fips.SHA512) (fun n => rev (le_bytes 16 n)) sha512.output.
Definition SHA1 : Algo :=
  mkAlgo regs5 64 8 sha1.Initialize Fips1.compress (fun n => rev (le_bytes 8 n)) sha1.output.
Definition RIPEMD160 : Algo :=
  mkAlgo regs5 64 8 ripemd160.Initialize Rmd.compress (le_bytes 8) ripemd160.output.

Lemma CSHA256_ok : algo_ok CSHA256.
Proof. split; [cbn; lia|]. split; [cbn; lia|]. split; [by exists (2 ^ 58)|]. intros n. by cbn. Qed.
Lemma CSHA512_ok : algo_ok CSHA512.
Proof. split; [cbn; lia|]. split; [cbn; lia|]. split; [by exists (2 ^ 57)|]. intros n. by cbn. Qed.
Lemma CSHA1_ok : algo_ok CSHA1.
Proof. split; [cbn; lia|]. split; [cbn; lia|]. split; [by exists (2 ^ 58)|]. intros n. by cbn. Qed.
Lemma CRIPEMD160_ok : algo_ok CRIPEMD160.
Proof. split; [cbn; lia|]. split; [cbn; lia|]. split; [by exists (2 ^ 58)|]. intros n. by cbn. Qed.
#[export] Hint Resolve CSHA256_ok CSHA512_ok CSHA1_ok CRIPEMD160_ok : anker.

Lemma sha512_size n : 0 <= n < 2 ^ 64 -> rev (le_bytes 16 n) = replicate 8 0 ++ WriteBE64 n.
Proof.
  intros Hn. unfold WriteBE64. change 16%nat with (8 + 8)%nat. rewrite le_bytes_app, rev_app_distr. f_equal.
  rewrite Z.shiftr_div_pow2, Z.div_small by (cbn; lia). reflexivity.
Qed.

Lemma CSHA256_digest m : digest CSHA256 m = digest SHA256 m.
Proof.
  unfold CSHA256, SHA256. assert (Fips.H0 Fips.SHA256 = sha256.Initialize) as -> by by vm_compute.
  apply digest_ext; [apply sha256_Transform | reflexivity].
Qed.
Lemma CSHA1_digest m : digest CSHA1 m = digest SHA1 m.
Proof. apply digest_ext; [apply sha1_Transform | reflexivity]. Qed.
Lemma CRIPEMD160_digest m : digest CRIPEMD160 m = digest RIPEMD160 m.
Proof. apply digest_ext; [apply rmd_Transform | reflexivity]. Qed.
Lemma CSHA512_digest m : digest CSHA512 m = digest SHA512 m.
Proof.
  unfold CSHA512, SHA512. assert (Fips.H0 Fips.SHA512 = sha512.Initialize) as -> by by vm_compute.
  apply digest_ext; [apply sha512_Transform | intros n Hn; symmetry; by apply sha512_size].
Qed.

(** Test vectors of the standards. *)
Example sha256_abc : HexStr (digest CSHA256 (str "abc")) false =
  str "ba7816bf8f01cfea414140de5dae2223b00361a396177a9cb410ff61f20015ad".
Proof. by vm_compute. Qed.
Example sha512_abc : HexStr (digest CSHA512 (str "abc")) false =
  str "ddaf35a193617abacc417349ae20413112e6fa4e89a97ea20a9eeee64b55d39a2192992a274fc1a836ba3c23a3feebbd454d4423643ce80e2a9ac94fa54ca49f".
Proof. by vm_compute. Qed.
Example sha1_abc : HexStr (digest CSHA1 (str "abc")) false = str "a9993e364706816aba3e25717850c26c9cd0d89d".
Proof. by vm_compute. Qed.
Example ripemd160_abc : HexStr (digest CRIPEMD160 (str "abc")) false = str "8eb208f7e05d987a9b044a8e98c6b087f15a0bfc".
Proof. by vm_compute. Qed.

(** ** Double hashes *)

(** Local hasher objects start from an uninitialised array; what it holds is
    irrelevant ([digest_pieces]) and zeros stand for it here. *)
Definition fresh (A : Algo) : hasher A := construct A (replicate (block A) 0).
Lemma fresh_seen A : algo_ok A -> seen A (fresh A) [].
Proof. intros HA. apply construct_seen; [done|]. apply length_replicate. Qed.

(** [CHash256], [CHash512] and [CHash160] hold one hasher, [sha]. *)
Definition CHash256_Write : hasher CSHA256 -> list Z -> hasher CSHA256 := CSHA256_Write.
Definition CHash256_Finalize (sha : hasher CSHA256) : list Z :=
  let '(sha, buf) := CSHA256_Finalize sha in
  snd (CSHA256_Finalize (CSHA256_Write (CSHA256_Reset sha) buf)).
Definition CHash512_Write : hasher CSHA512 -> list Z -> hasher CSHA512 := CSHA512_Write.
Definition CHash512_Finalize (sha : hasher CSHA512) : list Z :=
  let '(sha, buf) := CSHA512_Finalize sha in
  snd (CSHA512_Finalize (CSHA512_Write (CSHA512_Reset sha) buf)).
Definition CHash160_Write : hasher CSHA256 -> list Z -> hasher CSHA256 := CSHA256_Write.
Definition CHash160_Finalize (sha : hasher CSHA256) : list Z :=
  let '(sha, buf) := CSHA256_Finalize sha in
  snd (CRIPEMD160_Finalize (CRIPEMD160_Write (fresh CRIPEMD160) buf)).

(** [Hash(p1begin, p1end, p2begin, p2end, ...)] over the bytes of its ranges, and
    [Hash512], [Hash160]; the results are the bytes of the number. *)
Definition Hash (pieces : list (list Z)) : list Z := CHash256_Finalize (foldl CHash256_Write (fresh CSHA256) pieces).
Definition Hash512 (pieces : list (list Z)) : list Z := CHash512_Finalize (foldl CHash512_Write (fresh CSHA512) pieces).
Definition Hash160 (vch : list Z) : list Z := CHash160_Finalize (CHash160_Write (fresh CSHA256) vch).

Lemma sha256_output_length st : length (sha256.output st) = 32%nat.
Proof. by destruct st as [[[[[[[s0 s1] s2] s3] s4] s5] s6] s7]. Qed.
Lemma WriteBE32_bytes x : Forall is_byte (WriteBE32 x).
Proof. unfold WriteBE32. apply Forall_rev, le_bytes_range. Qed.
Lemma concat_bytes {A} (f : A -> list Z) l : (forall x, Forall is_byte (f x)) -> Forall is_byte (concat (map f l)).
Proof. intros H. induction l; cbn; [constructor|]. by apply Forall_app. Qed.
Lemma sha256_output_bytes st : Forall is_byte (sha256.output st).
Proof. destruct st as [[[[[[[s0 s1] s2] s3] s4] s5] s6] s7]. apply concat_bytes, WriteBE32_bytes. Qed.
Lemma sha512_output_length st : length (sha512.output st) = 64%nat.
Proof. by destruct st as [[[[[[[s0 s1] s2] s3] s4] s5] s6] s7]. Qed.
Lemma ripemd160_output_length st : length (ripemd160.output st) = 20%nat.
Proof. by destruct st as [[[[s0 s1] s2] s3] s4]. Qed.

(** ** HMAC *)
Section hmac.
Context (A : Algo) (outlen : nat).

Record hmac := mkHmac {
  outer : hasher A;
  inner : hasher A;
}.

Definition hmac_construct (junk_outer junk_inner : list Z) (key : list Z) : hmac :=
  let rkey :=
    if (length key <=? block A)%nat then key ++ replicate (block A - length key) 0
    else snd (Finalize A (Write A (fresh A) key)) ++ replicate outlen 0 in
  let rkey := map (fun x => Z.lxor x 0x5c) rkey in
  let outer := Write A (construct A junk_outer) rkey in
  let rkey := map (fun x => Z.lxor x (Z.lxor 0x5c 0x36)) rkey in
  let inner := Write A (construct A junk_inner) rkey in
  mkHmac outer inner.
Definition hmac_Write (h : hmac) (data : list Z) : hmac := mkHmac (outer h) (Write A (inner h) data).
Definition hmac_Finalize (h : hmac) : list Z :=
  let '(_, temp) := Finalize A (inner h) in
  snd (Finalize A (Write A (outer h) temp)).

(** RFC 2104 *)
Definition hmac_key (key : list Z) : list Z :=
  let k := if (length key <=? block A)%nat then key else digest A key in
  k ++ replicate (block A - length k) 0.
Definition hmac_std (key m : list Z) : list Z :=
  digest A (map (fun x => Z.lxor x 0x5c) (hmac_key key) ++
            digest A (map (fun x => Z.lxor x 0x36) (hmac_key key) ++ m)).

Context (HA : algo_ok A) (Hout : forall st, (length (output A st) + outlen = block A)%nat).

Lemma hmac_key_length key : length (hmac_key key) = block A.
Proof using HA Hout.
  unfold hmac_key. destruct (Nat.leb_spec (length key) (block A)) as [H|H].
  - rewrite length_app, length_replicate. lia.
  - rewrite length_app, length_replicate. unfold digest. pose proof (Hout (absorb A (Initialize A) (padded A key))). lia.
Qed.

Lemma hmac_construct_seen jo ji key :
  length jo = block A -> length ji = block A -> Z.of_nat (length key) < 2 ^ 63 ->
  let h := hmac_construct jo ji key in
  seen A (outer h) (map (fun x => Z.lxor x 0x5c) (hmac_key key)) /\
  seen A (inner h) (map (fun x => Z.lxor x 0x36) (hmac_key key)).
Proof using HA Hout.
  intros Ho Hi Hk. unfold hmac_construct.
  assert ((if (length key <=? block A)%nat then key ++ replicate (block A - length key) 0
           else snd (Finalize A (Write A (fresh A) key)) ++ replicate outlen 0) = hmac_key key) as ->.
  { unfold hmac_key. destruct (Nat.leb_spec (length key) (block A)) as [H|H]; [done|].
    destruct (Finalize_seen A HA _ _ (Write_seen A HA _ [] key (fresh_seen A HA) Hk)) as (h' & -> & _). cbn [snd app].
    do 2 f_equal. unfold digest. pose proof (Hout (absorb A (Initialize A) (padded A key))). lia. }
  pose proof HA as (HB & HB' & _). pose proof (hmac_key_length key) as Hl.
  rewrite map_map. cbn [outer inner]. split.
  - apply (Write_seen A HA _ []); [by apply construct_seen | rewrite length_map; lia].
  - rewrite (map_ext _ (fun x => Z.lxor x 0x36)).
    + apply (Write_seen A HA _ []); [by apply construct_seen | rewrite length_map; lia].
    + intros x. by rewrite Z.lxor_assoc.
Qed.

Lemma hmac_pieces h pieces :
  outer (foldl hmac_Write h pieces) = outer h /\ inner (foldl hmac_Write h pieces) = foldl (Write A) (inner h) pieces.
Proof using. revert h. induction pieces as [|d ds IH]; intros h; [done|]. cbn [foldl]. by destruct (IH (hmac_Write h d)) as [-> ->]. Qed.

(** An HMAC object fed a message in pieces finalizes to the RFC 2104 code of it. *)
Lemma hmac_spec jo ji key pieces :
  length jo = block A -> length ji = block A -> Z.of_nat (length key) < 2 ^ 63 ->
  Forall (fun d => Z.of_nat (length d) < 2 ^ 63) pieces ->
  hmac_Finalize (foldl hmac_Write (hmac_construct jo ji key) pieces) = hmac_std key (concat pieces).
Proof using HA Hout.
  intros Ho Hi Hk Hp. destruct (hmac_construct_seen jo ji key Ho Hi Hk) as [So Si].
  unfold hmac_Finalize. destruct (hmac_pieces (hmac_construct jo ji key) pieces) as [-> ->].
  destruct (Finalize_seen A HA _ _ (pieces_seen A HA _ _ pieces Si Hp)) as (h' & -> & _).
  assert (forall m, Z.of_nat (length (digest A m)) < 2 ^ 63) as Hd.
  { intros m. unfold digest. pose proof HA as (_ & HB & _). pose proof (Hout (absorb A (Initialize A) (padded A m))). lia. }
  by destruct (Finalize_seen A HA _ _ (Write_seen A HA _ _ _ So (Hd (map (fun x => Z.lxor x 0x36) (hmac_key key) ++ concat pieces))))
    as (h2 & -> & _).
Qed.
End hmac.
Arguments mkHmac {A} _ _.
Arguments outer {A} _.
Arguments inner {A} _.

Lemma hmac_std_ext A A' key m :
  (forall m, digest A m = digest A' m) -> block A = block A' -> hmac_std A key m = hmac_std A' key m.
Proof. intros Hd Hb. unfold hmac_std, hmac_key. by rewrite !Hd, Hb. Qed.

Definition CHMAC_SHA256 := hmac_construct CSHA256 32.
Definition CHMAC_SHA256_Write := hmac_Write CSHA256.
Definition CHMAC_SHA256_Finalize := hmac_Finalize CSHA256.
Definition CHMAC_SHA512 := hmac_construct CSHA512 64.
Definition CHMAC_SHA512_Write := hmac_Write CSHA512.
Definition CHMAC_SHA512_Finalize := hmac_Finalize CSHA512.

(** [BIP32Hash] *)
Definition BIP32Hash (chainCode : list Z) (nChild header : Z) (data : list Z) : list Z :=
  let num := [Z.land (Z.shiftr nChild 24) 0xFF; Z.land (Z.shiftr nChild 16) 0xFF;
              Z.land (Z.shiftr nChild 8) 0xFF; Z.land (Z.shiftr nChild 0) 0xFF] in
  CHMAC_SHA512_Finalize (foldl CHMAC_SHA512_Write (CHMAC_SHA512 (replicate 128 0) (replicate 128 0) chainCode)
    [[header]; data; num]).

(** ** RFC 6979 *)

Record RFC6979_HMAC_SHA256 := mkRfc {
  V : list Z;
  K : list Z;
  retry : bool;
}.

(** [CHMAC_SHA256(K, sizeof(K)).Write(...)...Finalize(...)] *)
Definition hmac256 (key : list Z) (pieces : list (list Z)) : list Z :=
  CHMAC_SHA256_Finalize (foldl CHMAC_SHA256_Write (CHMAC_SHA256 (replicate 64 0) (replicate 64 0) key) pieces).

Definition rfc_construct (key msg : list Z) : RFC6979_HMAC_SHA256 :=
  let V := replicate 32 0x01 in
  let K := replicate 32 0x00 in
  let K := hmac256 K [V; [0x00]; key; msg] in
  let V := hmac256 K [V] in
  let K := hmac256 K [V; [0x01]; key; msg] in
  let V := hmac256 K [V] in
  mkRfc V K false.

(** [while (outputlen > 0)]: the new [V] and the bytes written. *)
Fixpoint Generate_loop (fuel : nat) (K V : list Z) (outputlen : nat) : list Z * list Z :=
  match fuel with
  | O => (V, [])
  | S fuel' =>
      if (outputlen =? 0)%nat then (V, [])
      else
        let V := hmac256 K [V] in
        let len := Nat.min outputlen 32 in
        let '(V', rest) := Generate_loop fuel' K V (outputlen - len) in
        (V', take len V ++ rest)
  end.
Definition Generate (r : RFC6979_HMAC_SHA256) (outputlen : nat) : RFC6979_HMAC_SHA256 * list Z :=
  let '(K, V) :=
    if retry r then let K := hmac256 (K r) [V r; [0x00]] in (K, hmac256 K [V r]) else (K r, V r) in
  let '(V, out) := Generate_loop outputlen K V outputlen in
  (mkRfc V K true, out).

(** ** MurmurHash3 *)

Definition ROTL32 (x r : Z) : Z := Z.lor (u32 (Z.shiftl x r)) (Z.shiftr x (32 - r)).
Definition murmur_c1 : Z := 0xcc9e2d51.
Definition murmur_c2 : Z := 0x1b873593.
Definition murmur_k (k1 : Z) : Z := u32 (ROTL32 (u32 (k1 * murmur_c1)) 15 * murmur_c2).
Definition MurmurHash3 (nHashSeed : Z) (vDataToHash : list Z) : Z :=
  let h1 := nHashSeed in
  let size := length vDataToHash in
  let h1 :=
    if (size =? 0)%nat then h1
    else
      let nblocks := (size / 4)%nat in
      let h1 := for_range nblocks (fun h1 i =>
        let h1 := Z.lxor h1 (murmur_k (ReadLE32 vDataToHash (4 * i))) in
        let h1 := ROTL32 h1 13 in
        u32 (h1 * 5 + 0xe6546b64)) h1 in
      let tail i := nth (nblocks * 4 + i) vDataToHash 0 in
      match (size mod 4)%nat with
      | 3%nat => Z.lxor h1 (murmur_k (Z.lxor (Z.lxor (Z.shiftl (tail 2%nat) 16) (Z.shiftl (tail 1%nat) 8)) (tail 0%nat)))
      | 2%nat => Z.lxor h1 (murmur_k (Z.lxor (Z.shiftl (tail 1%nat) 8) (tail 0%nat)))
      | 1%nat => Z.lxor h1 (murmur_k (tail 0%nat))
      | _ => h1
      end in
  let h1 := Z.lxor h1 (u32 (Z.of_nat size)) in
  let h1 := Z.lxor h1 (Z.shiftr h1 16) in
  let h1 := u32 (h1 * 0x85ebca6b) in
  let h1 := Z.lxor h1 (Z.shiftr h1 13) in
  let h1 := u32 (h1 * 0xc2b2ae35) in
  Z.lxor h1 (Z.shiftr h1 16).

(** The unit tests of [src/src/test/hash_tests.cpp]. *)
Example MurmurHash3_tests :
  MurmurHash3 0 [] = 0 /\ MurmurHash3 0xFBA4C795 [] = 0x6a396f08 /\ MurmurHash3 0 [0xff] = 0xfd6cf10d /\
  MurmurHash3 0 [0x00; 0x11; 0x22; 0x33] = 0xb4471bf8 /\
  MurmurHash3 0 [0x00; 0x11; 0x22; 0x33; 0x44; 0x55; 0x66] = 0xb074502c.
Proof. by vm_compute. Qed.

(** ** Properties *)

(** What the double hashes compute. *)
Lemma CHash256_seen sha m : seen CSHA256 sha m -> CHash256_Finalize sha = digest SHA256 (digest SHA256 m).
Proof.
  intros Hs. unfold CHash256_Finalize, CSHA256_Finalize, CSHA256_Write, CSHA256_Reset.
  destruct (Finalize_seen CSHA256 CSHA256_ok _ _ Hs) as (h' & -> & Hs').
  assert (Z.of_nat (length (digest CSHA256 m)) < 2 ^ 63) as Hd by (unfold digest; rewrite sha256_output_length; lia).
  destruct (Finalize_seen CSHA256 CSHA256_ok _ _ (Write_seen CSHA256 CSHA256_ok _ _ _ (Reset_seen CSHA256 CSHA256_ok _ _ Hs') Hd))
    as (h2 & -> & _).
  cbn [snd app]. rewrite (CSHA256_digest m). apply CSHA256_digest.
Qed.
Lemma CHash160_seen sha m : seen CSHA256 sha m -> CHash160_Finalize sha = digest RIPEMD160 (digest SHA256 m).
Proof.
  intros Hs. unfold CHash160_Finalize, CSHA256_Finalize, CRIPEMD160_Write, CRIPEMD160_Finalize.
  destruct (Finalize_seen CSHA256 CSHA256_ok _ _ Hs) as (h' & -> & _).
  assert (Z.of_nat (length (digest CSHA256 m)) < 2 ^ 63) as Hd by (unfold digest; rewrite sha256_output_length; lia).
  destruct (Finalize_seen CRIPEMD160 CRIPEMD160_ok _ _
    (Write_seen CRIPEMD160 CRIPEMD160_ok _ _ _ (fresh_seen CRIPEMD160 CRIPEMD160_ok) Hd)) as (h2 & -> & _).
  cbn [snd app]. rewrite (CSHA256_digest m). apply CRIPEMD160_digest.
Qed.

(** [Hash] over ranges is the double SHA-256 of their concatenation. *)
Lemma Hash_spec pieces : Forall (fun d => Z.of_nat (length d) < 2 ^ 63) pieces ->
  Hash pieces = digest SHA256 (digest SHA256 (concat pieces)).
Proof.
  intros Hp. apply CHash256_seen.
  exact (pieces_seen CSHA256 CSHA256_ok _ [] pieces (fresh_seen CSHA256 CSHA256_ok) Hp).
Qed.
Lemma Hash_length pieces : Forall (fun d => Z.of_nat (length d) < 2 ^ 63) pieces -> length (Hash pieces) = 32%nat.
Proof. intros Hp. rewrite Hash_spec by done. unfold digest. apply sha256_output_length. Qed.
Lemma Hash_32 pieces : length (Hash pieces) = 32%nat.
Proof. unfold Hash, CHash256_Finalize. destruct (CSHA256_Finalize _) as [sha buf]. apply sha256_output_length. Qed.
Lemma Hash_bytes pieces : Forall is_byte (Hash pieces).
Proof. unfold Hash, CHash256_Finalize. destruct (CSHA256_Finalize _) as [sha buf]. apply sha256_output_bytes. Qed.

(** ** Named messages with equal hashes *)

(** Among the messages listed, each given as the pieces it is hashed in, two different strings
    of bytes have the same double SHA-256. *)
Definition clash (l : list (list (list Z))) : Prop :=
  exists x y, x ∈ l /\ y ∈ l /\ (Forall is_byte (concat x) /\ Forall is_byte (concat y)) /\ concat x <> concat y /\ Hash x = Hash y.
Lemma clash_incl l l' : (forall x, x ∈ l -> x ∈ l') -> clash l -> clash l'.
Proof. intros Hl (x & y & Hx & Hy & Hn). exists x, y. split; [by apply Hl|]. split; [by apply Hl|exact Hn]. Qed.
(** Equal hashes, equal messages. *)
Lemma Hash_eq l x y : Forall (fun m => Forall is_byte (concat m)) l -> x ∈ l -> y ∈ l -> Hash x = Hash y -> concat x = concat y \/ clash l.
Proof.
  intros Hb Hx Hy E. destruct (decide (concat x = concat y)) as [|N]; [by left|]. right. rewrite list.Forall_forall in Hb.
  exists x, y. exact (conj Hx (conj Hy (conj (conj (Hb x Hx) (Hb y Hy)) (conj N E)))).
Qed.
Lemma Hash_eq2 a b : Forall is_byte a -> Forall is_byte b -> Hash [a] = Hash [b] -> a = b \/ clash [[a]; [b]].
Proof.
  intros Ha Hb E. destruct (Hash_eq [[a]; [b]] [a] [b]) as [Ec|]; [repeat constructor; cbn [concat]; by rewrite app_nil_r|by left|by right; left|exact E| |by right].
  cbn [concat] in Ec. rewrite !app_nil_r in Ec. by left.
Qed.

(** C36: whatever the pieces a message is fed in, and whatever the uninitialised buffer
    holds, the four hashers compute their standard: SHA-256, SHA-512 and SHA-1 of FIPS
    180-4 and RIPEMD-160, compression function, padding and length included (the length
    of a message is written from 64 bits, as the code counts it: for SHA-512 it is that of
    the standard below 2^61 bytes); no buffer boundary changes the digest. *)
Theorem hashers_correct (pieces : list (list Z)) (junk junk' : list Z)
    (Hp : Forall (fun d => Z.of_nat (length d) < 2 ^ 63) pieces)
    (Hj : length junk = 64%nat) (Hj' : length junk' = 128%nat) :
  snd (CSHA256_Finalize (foldl CSHA256_Write (construct CSHA256 junk) pieces)) = digest SHA256 (concat pieces) /\
  snd (CSHA512_Finalize (foldl CSHA512_Write (construct CSHA512 junk') pieces)) = digest SHA512 (concat pieces) /\
  snd (CSHA1_Finalize (foldl CSHA1_Write (construct CSHA1 junk) pieces)) = digest SHA1 (concat pieces) /\
  snd (CRIPEMD160_Finalize (foldl CRIPEMD160_Write (construct CRIPEMD160 junk) pieces)) = digest RIPEMD160 (concat pieces).
Proof.
  rewrite <- CSHA256_digest, <- CSHA512_digest, <- CSHA1_digest, <- CRIPEMD160_digest.
  split; [|split; [|split]]; by apply digest_pieces; auto with anker.
Qed.
Lemma hashers_correct_witness :
  let pieces := [str "abcdbcdecdefdefgefghfghighij"; []; str "hijkijkljklmklmnlmnomnopnopq"; replicate 200 7] in
  let junk := replicate 64 255 in let junk' := replicate 128 255 in
  snd (CSHA256_Finalize (foldl CSHA256_Write (construct CSHA256 junk) pieces)) = digest SHA256 (concat pieces) /\
  snd (CSHA512_Finalize (foldl CSHA512_Write (construct CSHA512 junk') pieces)) = digest SHA512 (concat pieces) /\
  snd (CSHA1_Finalize (foldl CSHA1_Write (construct CSHA1 junk) pieces)) = digest SHA1 (concat pieces) /\
  snd (CRIPEMD160_Finalize (foldl CRIPEMD160_Write (construct CRIPEMD160 junk) pieces)) = digest RIPEMD160 (concat pieces).
Proof. apply hashers_correct; [by repeat constructor | done | done]. Defined.

(** The HMAC classes implement RFC 2104 over SHA-256 and SHA-512 for every key
    length and every way of feeding the message; [Hash], [CHash256] and [Hash160] are
    SHA-256 twice and RIPEMD-160 of SHA-256. *)
Theorem keyed_and_double_hashes (key : list Z) (pieces : list (list Z)) (vch : list Z)
    (Hk : Z.of_nat (length key) < 2 ^ 63) (Hp : Forall (fun d => Z.of_nat (length d) < 2 ^ 63) pieces)
    (Hv : Z.of_nat (length vch) < 2 ^ 63) :
  CHMAC_SHA256_Finalize (foldl CHMAC_SHA256_Write (CHMAC_SHA256 (replicate 64 0) (replicate 64 0) key) pieces) =
    hmac_std SHA256 key (concat pieces) /\
  CHMAC_SHA512_Finalize (foldl CHMAC_SHA512_Write (CHMAC_SHA512 (replicate 128 0) (replicate 128 0) key) pieces) =
    hmac_std SHA512 key (concat pieces) /\
  Hash pieces = digest SHA256 (digest SHA256 (concat pieces)) /\
  Hash160 vch = digest RIPEMD160 (digest SHA256 vch).
Proof.
  split; [|split; [|split]].
  - transitivity (hmac_std CSHA256 key (concat pieces)).
    + apply hmac_spec; auto with anker. intros st. cbn [CSHA256 output block]. by rewrite sha256_output_length.
    + apply hmac_std_ext; [apply CSHA256_digest | reflexivity].
  - transitivity (hmac_std CSHA512 key (concat pieces)).
    + apply hmac_spec; auto with anker. intros st. cbn [CSHA512 output block]. by rewrite sha512_output_length.
    + apply hmac_std_ext; [apply CSHA512_digest | reflexivity].
  - by apply Hash_spec.
  - apply CHash160_seen. exact (Write_seen CSHA256 CSHA256_ok _ [] vch (fresh_seen CSHA256 CSHA256_ok) Hv).
Qed.
Lemma keyed_and_double_hashes_witness :
  let key := str "Jefe" in let pieces := [str "what do ya want "; str "for nothing?"] in let vch := str "abc" in
  CHMAC_SHA256_Finalize (foldl CHMAC_SHA256_Write (CHMAC_SHA256 (replicate 64 0) (replicate 64 0) key) pieces) =
    hmac_std SHA256 key (concat pieces) /\
  CHMAC_SHA512_Finalize (foldl CHMAC_SHA512_Write (CHMAC_SHA512 (replicate 128 0) (replicate 128 0) key) pieces) =
    hmac_std SHA512 key (concat pieces) /\
  Hash pieces = digest SHA256 (digest SHA256 (concat pieces)) /\
  Hash160 vch = digest RIPEMD160 (digest SHA256 vch).
Proof. apply keyed_and_double_hashes; [done | by repeat constructor | done]. Defined.
