(* ===== verification/Script.v ===== *)
(** Scripts: [src/src/script/script.h] and [src/src/script/script.cpp], the opcodes, the
    script numbers ([CScriptNum]), the instruction reader ([GetOp]), the push operators and the
    classification of standard scripts. A script is the list of its bytes; an iterator
    into it is the suffix it points to. *)
From S2P Require Import Prelude.

Abbreviation valtype := (list Z).
Abbreviation CScript := (list Z).

(** ** Opcodes *)

Definition OP_0 : Z := 0x00.
Definition OP_FALSE : Z := OP_0.
Definition OP_PUSHDATA1 : Z := 0x4c.
Definition OP_PUSHDATA2 : Z := 0x4d.
Definition OP_PUSHDATA4 : Z := 0x4e.
Definition OP_1NEGATE : Z := 0x4f.
Definition OP_RESERVED : Z := 0x50.
Definition OP_1 : Z := 0x51.
Definition OP_TRUE : Z := OP_1.
Definition OP_2 : Z := 0x52.
Definition OP_3 : Z := 0x53.
Definition OP_4 : Z := 0x54.
Definition OP_5 : Z := 0x55.
Definition OP_6 : Z := 0x56.
Definition OP_7 : Z := 0x57.
Definition OP_8 : Z := 0x58.
Definition OP_9 : Z := 0x59.
Definition OP_10 : Z := 0x5a.
Definition OP_11 : Z := 0x5b.
Definition OP_12 : Z := 0x5c.
Definition OP_13 : Z := 0x5d.
Definition OP_14 : Z := 0x5e.
Definition OP_15 : Z := 0x5f.
Definition OP_16 : Z := 0x60.
Definition OP_NOP : Z := 0x61.
Definition OP_VER : Z := 0x62.
Definition OP_IF : Z := 0x63.
Definition OP_NOTIF : Z := 0x64.
Definition OP_VERIF : Z := 0x65.
Definition OP_VERNOTIF : Z := 0x66.
Definition OP_ELSE : Z := 0x67.
Definition OP_ENDIF : Z := 0x68.
Definition OP_VERIFY : Z := 0x69.
Definition OP_RETURN : Z := 0x6a.
Definition OP_TOALTSTACK : Z := 0x6b.
Definition OP_FROMALTSTACK : Z := 0x6c.
Definition OP_2DROP : Z := 0x6d.
Definition OP_2DUP : Z := 0x6e.
Definition OP_3DUP : Z := 0x6f.
Definition OP_2OVER : Z := 0x70.
Definition OP_2ROT : Z := 0x71.
Definition OP_2SWAP : Z := 0x72.
Definition OP_IFDUP : Z := 0x73.
Definition OP_DEPTH : Z := 0x74.
Definition OP_DROP : Z := 0x75.
Definition OP_DUP : Z := 0x76.
Definition OP_NIP : Z := 0x77.
Definition OP_OVER : Z := 0x78.
Definition OP_PICK : Z := 0x79.
Definition OP_ROLL : Z := 0x7a.
Definition OP_ROT : Z := 0x7b.
Definition OP_SWAP : Z := 0x7c.
Definition OP_TUCK : Z := 0x7d.
Definition OP_CAT : Z := 0x7e.
Definition OP_SUBSTR : Z := 0x7f.
Definition OP_LEFT : Z := 0x80.
Definition OP_RIGHT : Z := 0x81.
Definition OP_SIZE : Z := 0x82.
Definition OP_INVERT : Z := 0x83.
Definition OP_AND : Z := 0x84.
Definition OP_OR : Z := 0x85.
Definition OP_XOR : Z := 0x86.
Definition OP_EQUAL : Z := 0x87.
Definition OP_EQUALVERIFY : Z := 0x88.
Definition OP_RESERVED1 : Z := 0x89.
Definition OP_RESERVED2 : Z := 0x8a.
Definition OP_1ADD : Z := 0x8b.
Definition OP_1SUB : Z := 0x8c.
Definition OP_2MUL : Z := 0x8d.
Definition OP_2DIV : Z := 0x8e.
Definition OP_NEGATE : Z := 0x8f.
Definition OP_ABS : Z := 0x90.
Definition OP_NOT : Z := 0x91.
Definition OP_0NOTEQUAL : Z := 0x92.
Definition OP_ADD : Z := 0x93.
Definition OP_SUB : Z := 0x94.
Definition OP_MUL : Z := 0x95.
Definition OP_DIV : Z := 0x96.
Definition OP_MOD : Z := 0x97.
Definition OP_LSHIFT : Z := 0x98.
Definition OP_RSHIFT : Z := 0x99.
Definition OP_BOOLAND : Z := 0x9a.
Definition OP_BOOLOR : Z := 0x9b.
Definition OP_NUMEQUAL : Z := 0x9c.
Definition OP_NUMEQUALVERIFY : Z := 0x9d.
Definition OP_NUMNOTEQUAL : Z := 0x9e.
Definition OP_LESSTHAN : Z := 0x9f.
Definition OP_GREATERTHAN : Z := 0xa0.
Definition OP_LESSTHANOREQUAL : Z := 0xa1.
Definition OP_GREATERTHANOREQUAL : Z := 0xa2.
Definition OP_MIN : Z := 0xa3.
Definition OP_MAX : Z := 0xa4.
Definition OP_WITHIN : Z := 0xa5.
Definition OP_RIPEMD160 : Z := 0xa6.
Definition OP_SHA1 : Z := 0xa7.
Definition OP_SHA256 : Z := 0xa8.
Definition OP_HASH160 : Z := 0xa9.
Definition OP_HASH256 : Z := 0xaa.
Definition OP_CODESEPARATOR : Z := 0xab.
Definition OP_CHECKSIG : Z := 0xac.
Definition OP_CHECKSIGVERIFY : Z := 0xad.
Definition OP_CHECKMULTISIG : Z := 0xae.
Definition OP_CHECKMULTISIGVERIFY : Z := 0xaf.
Definition OP_NOP1 : Z := 0xb0.
Definition OP_NOP2 : Z := 0xb1.
Definition OP_CHECKLOCKTIMEVERIFY : Z := OP_NOP2.
Definition OP_NOP3 : Z := 0xb2.
Definition OP_CHECKSEQUENCEVERIFY : Z := OP_NOP3.
Definition OP_NOP4 : Z := 0xb3.
Definition OP_NOP5 : Z := 0xb4.
Definition OP_NOP6 : Z := 0xb5.
Definition OP_NOP7 : Z := 0xb6.
Definition OP_NOP8 : Z := 0xb7.
Definition OP_NOP9 : Z := 0xb8.
Definition OP_NOP10 : Z := 0xb9.
Definition OP_ZEROCOINMINT : Z := 0xc1.
Definition OP_ZEROCOINSPEND : Z := 0xc2.
Definition OP_SMALLINTEGER : Z := 0xfa.
Definition OP_PUBKEYS : Z := 0xfb.
Definition OP_TIME : Z := 0xfc.
Definition OP_PUBKEYHASH : Z := 0xfd.
Definition OP_PUBKEY : Z := 0xfe.
Definition OP_INVALIDOPCODE : Z := 0xff.

Definition MAX_SCRIPT_ELEMENT_SIZE : Z := 520.
Definition MAX_OPS_PER_SCRIPT : Z := 201.
Definition MAX_PUBKEYS_PER_MULTISIG : Z := 20.
Definition LOCKTIME_THRESHOLD : Z := 500000000.

(** The length of a vector, a [size_t]. *)
Definition size {A} (l : list A) : Z := Z.of_nat (length l).
Definition back (l : list Z) : Z := nth (length l - 1) l 0.

(** ** Script numbers *)

Definition INT_MAX : Z := 2 ^ 31 - 1.
Definition INT_MIN : Z := - 2 ^ 31.

(** [CScriptNum::serialize]: the [while (absvalue)] loop, eight rounds for 64 bits. *)
Fixpoint serialize_loop (fuel : nat) (absvalue : Z) : valtype :=
  match fuel with
  | O => []
  | S fuel' => if absvalue =? 0 then [] else Z.land absvalue 0xff :: serialize_loop fuel' (Z.shiftr absvalue 8)
  end.
Definition serialize (value : Z) : valtype :=
  if value =? 0 then []
  else
    let neg := value <? 0 in
    let absvalue := u64 (if neg then - value else value) in
    let result := serialize_loop 8 absvalue in
    if negb (Z.land (back result) 0x80 =? 0) then result ++ [if neg then 0x80 else 0]
    else if neg then take (length result - 1) result ++ [Z.lor (back result) 0x80]
    else result.

Definition set_vch (vch : valtype) : Z :=
  match vch with
  | [] => 0
  | _ =>
      let result := for_range (length vch) (fun result i =>
        i64 (Z.lor result (i64 (Z.shiftl (nth i vch 0) (8 * Z.of_nat i))))) 0 in
      if negb (Z.land (back vch) 0x80 =? 0) then
        i64 (- i64 (Z.land (u64 result) (u64 (Z.lnot (Z.shiftl 0x80 (8 * (size vch - 1)))))))
      else result
  end.

(** [CScriptNum(vch, fRequireMinimal, nMaxNumSize)]; [None] is a [scriptnum_error]. *)
Definition nDefaultMaxNumSize : Z := 4.
Definition CScriptNum (vch : valtype) (fRequireMinimal : bool) (nMaxNumSize : Z) : option Z :=
  if size vch >? nMaxNumSize then None
  else if fRequireMinimal && (size vch >? 0) && (Z.land (back vch) 0x7f =? 0) &&
          ((size vch <=? 1) || (Z.land (nth (length vch - 2) vch 0) 0x80 =? 0)) then None
  else Some (set_vch vch).

Definition getint (m_value : Z) : Z :=
  if m_value >? INT_MAX then INT_MAX else if m_value <? INT_MIN then INT_MIN else m_value.

(** ** Pushing *)

Definition push_opcode (script : CScript) (opcode : Z) : option CScript :=
  if (opcode <? 0) || (opcode >? 0xff) then None else Some (script ++ [opcode]).
Definition push_data (script : CScript) (b : valtype) : CScript :=
  let script :=
    if size b <? OP_PUSHDATA1 then script ++ [u8 (size b)]
    else if size b <=? 0xff then (script ++ [OP_PUSHDATA1]) ++ [u8 (size b)]
    else if size b <=? 0xffff then (script ++ [OP_PUSHDATA2]) ++ le_bytes 2 (u16 (size b))
    else (script ++ [OP_PUSHDATA4]) ++ le_bytes 4 (u32 (size b)) in
  script ++ b.
Definition push_int64 (script : CScript) (n : Z) : CScript :=
  if (n =? -1) || ((n >=? 1) && (n <=? 16)) then script ++ [u8 (n + (OP_1 - 1))]
  else if n =? 0 then script ++ [OP_0]
  else push_data script (serialize n).
Definition push_num (script : CScript) (b : Z) : CScript := push_data script (serialize b).

(** Failed assertions are [None]. *)
Definition DecodeOP_N (opcode : Z) : option Z :=
  if opcode =? OP_0 then Some 0
  else if (opcode >=? OP_1) && (opcode <=? OP_16) then Some (opcode - (OP_1 - 1)) else None.
Definition EncodeOP_N (n : Z) : option Z :=
  if (n >=? 0) && (n <=? 16) then Some (if n =? 0 then OP_0 else OP_1 + n - 1) else None.

(** ** Reading *)

(** What [GetOp2] returns: success, the moved iterator, [opcodeRet] and [*pvchRet]. *)
Record op := mkOp {
  op_ok : bool;
  op_pc : CScript;
  op_code : Z;
  op_data : valtype;
}.

(** The length of the immediate operand: success, [nSize], the moved iterator. *)
Definition GetOp_size (opcode : Z) (pc : CScript) : bool * Z * CScript :=
  if opcode <? OP_PUSHDATA1 then (true, opcode, pc)
  else if opcode =? OP_PUSHDATA1 then
    match pc with
    | [] => (false, 0, pc)
    | n :: pc => (true, n, pc)
    end
  else if opcode =? OP_PUSHDATA2 then
    if size pc <? 2 then (false, 0, pc) else (true, of_le_bytes (take 2 pc), drop 2 pc)
  else
    if size pc <? 4 then (false, 0, pc) else (true, of_le_bytes (take 4 pc), drop 4 pc).
Definition GetOp (pc : CScript) : op :=
  match pc with
  | [] => mkOp false pc OP_INVALIDOPCODE []
  | opcode :: pc =>
      if opcode <=? OP_PUSHDATA4 then
        let '(ok, nSize, pc) := GetOp_size opcode pc in
        if negb ok || (u32 (size pc) <? nSize) then mkOp false pc OP_INVALIDOPCODE []
        else mkOp true (drop (Z.to_nat nSize) pc) opcode (take (Z.to_nat nSize) pc)
      else mkOp true pc opcode []
  end.

(** [FindAndDelete]: the inner loop erases at the iterator, the outer one moves it;
    [done] are the bytes before it. *)
Fixpoint FindAndDelete_erase (fuel : nat) (pc b : CScript) (nFound : Z) : CScript * Z :=
  match fuel with
  | O => (pc, nFound)
  | S fuel' =>
      if bool_decide (take (length b) pc = b) then FindAndDelete_erase fuel' (drop (length b) pc) b (nFound + 1)
      else (pc, nFound)
  end.
Fixpoint FindAndDelete_loop (fuel : nat) (done pc b : CScript) (nFound : Z) : CScript * Z :=
  match fuel with
  | O => (done ++ pc, nFound)
  | S fuel' =>
      let '(pc, nFound) := FindAndDelete_erase (length pc) pc b nFound in
      let o := GetOp pc in
      if op_ok o then FindAndDelete_loop fuel' (done ++ take (length pc - length (op_pc o)) pc) (op_pc o) b nFound
      else (done ++ pc, nFound)
  end.
Definition FindAndDelete (script b : CScript) : CScript * Z :=
  match b with
  | [] => (script, 0)
  | _ => FindAndDelete_loop (S (length script)) [] script b 0
  end.

(** ** Classification *)

Fixpoint Find_loop (fuel : nat) (pc : CScript) (opcode nFound : Z) : Z :=
  match fuel with
  | O => nFound
  | S fuel' =>
      let o := GetOp pc in
      if op_ok o then Find_loop fuel' (op_pc o) opcode (if op_code o =? opcode then nFound + 1 else nFound) else nFound
  end.
Definition Find (script : CScript) (opcode : Z) : Z := Find_loop (length script) script opcode 0.

Fixpoint GetSigOpCount_loop (fuel : nat) (fAccurate : bool) (pc : CScript) (lastOpcode n : Z) : Z :=
  match fuel with
  | O => n
  | S fuel' =>
      let o := GetOp pc in
      if op_ok o then
        let opcode := op_code o in
        let n :=
          if (opcode =? OP_CHECKSIG) || (opcode =? OP_CHECKSIGVERIFY) then u32 (n + 1)
          else if (opcode =? OP_CHECKMULTISIG) || (opcode =? OP_CHECKMULTISIGVERIFY) then
            if fAccurate && (lastOpcode >=? OP_1) && (lastOpcode <=? OP_16)
            then u32 (n + (lastOpcode - (OP_1 - 1)))
            else u32 (n + 20)
          else n in
        GetSigOpCount_loop fuel' fAccurate (op_pc o) opcode n
      else n
  end.
Definition GetSigOpCount (script : CScript) (fAccurate : bool) : Z :=
  GetSigOpCount_loop (length script) fAccurate script OP_INVALIDOPCODE 0.

Definition at_ (script : CScript) (i : nat) : Z := nth i script 0.
Definition IsPayToScriptHash (script : CScript) : bool :=
  (size script =? 23) && (at_ script 0 =? OP_HASH160) && (at_ script 1 =? 0x14) && (at_ script 22 =? OP_EQUAL).
Definition IsZerocoinMint (script : CScript) : bool := (size script >? 0) && (at_ script 0 =? OP_ZEROCOINMINT).
Definition IsZerocoinSpend (script : CScript) : bool :=
  match script with [] => false | _ => at_ script 0 =? OP_ZEROCOINSPEND end.
Definition IsPayToWitnessScriptHash (script : CScript) : bool :=
  (size script =? 34) && (at_ script 0 =? OP_0) && (at_ script 1 =? 0x20).
Definition IsUnspendable (script : CScript) : bool := (size script >? 0) && (at_ script 0 =? OP_RETURN).

(** The version and the program; the assertion of [DecodeOP_N] cannot fail here. *)
Definition IsWitnessProgram (script : CScript) : option (Z * valtype) :=
  if (size script <? 4) || (size script >? 42) then None
  else if negb (at_ script 0 =? OP_0) && ((at_ script 0 <? OP_1) || (at_ script 0 >? OP_16)) then None
  else if at_ script 1 + 2 =? size script then
    version ← DecodeOP_N (at_ script 0); Some (version, drop 2 script)
  else None.

Fixpoint IsPushOnly_loop (fuel : nat) (pc : CScript) : bool :=
  match fuel, pc with
  | O, _ | _, [] => true
  | S fuel', _ =>
      let o := GetOp pc in
      if negb (op_ok o) then false
      else if op_code o >? OP_16 then false
      else IsPushOnly_loop fuel' (op_pc o)
  end.
Definition IsPushOnly (script : CScript) : bool := IsPushOnly_loop (length script) script.

(** [IsNormalPaymentScript]: the result of [GetOp] is not looked at. *)
Fixpoint IsNormalPaymentScript_loop (fuel : nat) (pc : CScript) (i : Z) : bool :=
  match fuel, pc with
  | O, _ | _, [] => true
  | S fuel', _ =>
      let o := GetOp pc in
      let opcode := op_code o in
      if (i =? 0) && negb (opcode =? OP_DUP) then false
      else if (i =? 1) && negb (opcode =? OP_HASH160) then false
      else if (i =? 3) && negb (opcode =? OP_EQUALVERIFY) then false
      else if (i =? 4) && negb (opcode =? OP_CHECKSIG) then false
      else if i =? 5 then false
      else IsNormalPaymentScript_loop fuel' (op_pc o) (i + 1)
  end.
Definition IsNormalPaymentScript (script : CScript) : bool :=
  if negb (size script =? 25) then false else IsNormalPaymentScript_loop (length script) script 0.

(** [GetSigOpCount(scriptSig)]: the last item the input pushes is the script counted. *)
Fixpoint last_push_loop (fuel : nat) (pc : CScript) (data : valtype) : option valtype :=
  match fuel, pc with
  | O, _ | _, [] => Some data
  | S fuel', _ =>
      let o := GetOp pc in
      if negb (op_ok o) then None
      else if op_code o >? OP_16 then None
      else last_push_loop fuel' (op_pc o) (op_data o)
  end.
Definition GetSigOpCount_p2sh (script scriptSig : CScript) : Z :=
  if negb (IsPayToScriptHash script) then GetSigOpCount script true
  else
    match last_push_loop (length scriptSig) scriptSig [] with
    | None => 0
    | Some data => GetSigOpCount data true
    end.

(** ** Script numbers: the encoding *)

Lemma back_snoc l b : back (l ++ [b]) = b.
Proof. unfold back. rewrite length_app. cbn. rewrite Nat.add_sub, nth_middle. done. Qed.
Lemma size_snoc (l : list Z) b : size (l ++ [b]) = size l + 1.
Proof. unfold size. rewrite length_app. cbn. lia. Qed.
Lemma second_snoc (l : list Z) a b : nth (length ((l ++ [a]) ++ [b]) - 2) ((l ++ [a]) ++ [b]) 0 = a.
Proof.
  rewrite !length_app. cbn. rewrite app_nth1 by (rewrite length_app; cbn; lia).
  replace (length l + 1 + 1 - 2)%nat with (length l) by lia. by rewrite nth_middle.
Qed.

(** The value of an encoding: magnitude and sign bit. *)
Definition num_value (vch : valtype) : Z :=
  match vch with
  | [] => 0
  | _ =>
      let m := of_le_bytes vch in
      if back vch >=? 128 then - (m - 2 ^ (8 * size vch - 1)) else m
  end.

Lemma serialize_loop_spec n v :
  0 <= v < 2 ^ (8 * Z.of_nat n) ->
  let l := serialize_loop n v in
  of_le_bytes l = v /\ Forall is_byte l /\ (length l <= n)%nat /\ (0 < v -> exists l' b, l = l' ++ [b] /\ 0 < b).
Proof.
  revert v. induction n as [|n IH]; intros v Hv; cbn [serialize_loop].
  - cbn in Hv. assert (v = 0) as -> by lia. cbn. repeat split; try constructor; lia.
  - destruct (Z.eqb_spec v 0) as [->|Hv0].
    + cbn. repeat split; try constructor; lia.
    + rewrite land_mask8. rewrite pow256_S in Hv. rewrite Z.shiftr_div_pow2 by lia.
      destruct (IH (v / 2 ^ 8)) as (I1 & I2 & I3 & I4).
      { split; [apply Z.div_pos; lia | apply Z.div_lt_upper_bound; lia]. }
      cbn [of_le_bytes length]. rewrite I1. unfold u8. split; [|split; [|split]].
      * pose proof (Z.div_mod v (2 ^ 8)). lia.
      * constructor; [|done]. apply u8_bound.
      * lia.
      * intros _. destruct (Z.eqb_spec (v / 2 ^ 8) 0) as [E|E].
        -- exists [], (v mod 2 ^ 8). rewrite E. replace (serialize_loop n 0) with (@nil Z) by (by destruct n).
           split; [done|]. pose proof (Z.div_mod v (2 ^ 8)). lia.
        -- destruct I4 as (l' & b & Hl & Hb); [pose proof (Z.div_pos v (2 ^ 8)); lia|].
           exists (v mod 2 ^ 8 :: l'), b. by rewrite Hl.
Qed.

Lemma serialize_loop_bytes n l b :
  Forall is_byte (l ++ [b]) -> 0 < b -> (length l < n)%nat -> serialize_loop n (of_le_bytes (l ++ [b])) = l ++ [b].
Proof.
  intros Hl Hb. revert n. induction l as [|x l IH]; intros n Hn; (destruct n as [|n]; [cbn in Hn; lia|]); cbn [app] in *.
  - inversion Hl as [|? ? B _]; subst. unfold is_byte in B. cbn [serialize_loop of_le_bytes].
    destruct (Z.eqb_spec (b + 2 ^ 8 * 0) 0); [lia|]. rewrite land_mask8, Z.shiftr_div_pow2 by lia.
    rewrite u8_small by lia. replace (b + 2 ^ 8 * 0) with b by lia. rewrite Z.div_small by lia. by destruct n.
  - inversion Hl as [|? ? B Hl']; subst. unfold is_byte in B. cbn [serialize_loop of_le_bytes].
    pose proof (of_le_bytes_bound _ Hl') as Hr. set (r := of_le_bytes (l ++ [b])) in *.
    assert (0 < r) as Hr0.
    { unfold r. rewrite of_le_bytes_app. cbn [of_le_bytes]. apply Forall_app in Hl' as [Hl1 _].
      pose proof (of_le_bytes_bound l Hl1). pose proof (Z.pow_pos_nonneg 2 (8 * Z.of_nat (length l))). nia. }
    destruct (Z.eqb_spec (x + 2 ^ 8 * r) 0); [lia|]. rewrite land_mask8, Z.shiftr_div_pow2 by lia.
    unfold u8. rewrite (Z.mul_comm (2 ^ 8)), Z.mod_add, Z.div_add, Z.mod_small, Z.div_small by lia.
    rewrite Z.add_0_l. cbn [length] in Hn. by rewrite IH by (done || lia).
Qed.

Lemma of_le_snoc l b : of_le_bytes (l ++ [b]) = of_le_bytes l + b * 2 ^ (8 * Z.of_nat (length l)).
Proof. rewrite of_le_bytes_app. cbn [of_le_bytes]. lia. Qed.

(** Clearing the top bit. *)
Lemma clear_top m k : 0 <= k < 63 -> 2 ^ k <= m < 2 ^ (k + 1) -> Z.land (u64 m) (u64 (Z.lnot (2 ^ k))) = m - 2 ^ k.
Proof.
  intros Hk Hm. assert (2 ^ (k + 1) = 2 * 2 ^ k) as E by (rewrite Z.pow_add_r; lia).
  assert (2 ^ (k + 1) <= 2 ^ 63) by (apply Z.pow_le_mono_r; lia). rewrite u64_small by lia.
  assert (exists lo, 0 <= lo < 2 ^ k /\ m = lo + 1 * 2 ^ k) as (lo & Hlo & ->) by (exists (m - 2 ^ k); lia).
  replace (lo + 1 * 2 ^ k - 2 ^ k) with lo by lia. rewrite <- lor_shiftl_add by lia.
  apply Z.bits_inj'. intros n Hn. unfold u64. rewrite Z.land_spec, Z.lor_spec, Z.shiftl_1_l.
  destruct (Z.ltb_spec n 64).
  - rewrite Z.mod_pow2_bits_low, Z.lnot_spec, Z.pow2_bits_eqb by lia.
    destruct (Z.eqb_spec k n) as [->|Hne]; cbn.
    + rewrite andb_false_r. symmetry. apply (testbit_high lo n n); lia.
    + by rewrite orb_false_r, andb_true_r.
  - rewrite Z.mod_pow2_bits_high by lia. rewrite andb_false_r. symmetry. apply (testbit_high lo k n); lia.
Qed.

Lemma set_vch_spec vch : Forall is_byte vch -> (length vch <= 7)%nat -> set_vch vch = num_value vch.
Proof.
  intros Hb Hl. unfold set_vch, num_value. destruct vch as [|v0 vs]; [done|]. set (vch := v0 :: vs) in *.
  assert (for_range (length vch) (fun result i =>
    i64 (Z.lor result (i64 (Z.shiftl (nth i vch 0) (8 * Z.of_nat i))))) 0 = of_le_bytes vch) as ->.
  { cut (for_range (length vch) (fun result i =>
      i64 (Z.lor result (i64 (Z.shiftl (nth i vch 0) (8 * Z.of_nat i))))) 0 = of_le_bytes (take (length vch) vch));
      [by rewrite firstn_all|].
    apply (for_range_ind (fun i r => r = of_le_bytes (take i vch))); [done|].
    intros i r Hi ->. destruct (lookup_lt_is_Some_2 vch i Hi) as [x Hx].
    rewrite (take_S_r vch i x Hx), of_le_snoc, length_take, (nth_lookup_Some vch i 0 x Hx).
    rewrite Nat.min_l by lia. pose proof (Forall_lookup_1 _ _ _ _ Hb Hx) as Bx. unfold is_byte in Bx.
    pose proof (of_le_bytes_bound (take i vch) ltac:(by apply Forall_take)) as Br. rewrite length_take, Nat.min_l in Br by lia.
    assert (2 ^ (8 * Z.of_nat i) <= 2 ^ 48) by (apply Z.pow_le_mono_r; lia).
    rewrite Z.shiftl_mul_pow2 by lia. rewrite (i64_small (x * _)) by nia.
    rewrite <- Z.shiftl_mul_pow2, lor_shiftl_add, Z.shiftl_mul_pow2 by lia. apply i64_small. nia. }
  assert (exists l b, vch = l ++ [b]) as (l & b & E) by (exists (removelast vch), (List.last vch 0); by apply app_removelast_last).
  clearbody vch. subst vch. rewrite back_snoc, of_le_snoc. apply Forall_app in Hb as [Hl1 Hb].
  inversion Hb as [|? ? B _]; subst. unfold is_byte in B. pose proof (of_le_bytes_bound _ Hl1) as Hr.
  rewrite size_snoc. unfold size. rewrite length_app in Hl. cbn in Hl.
  change 0x80 with (2 ^ 7) at 1. rewrite land_pow2_eqb by lia. rewrite negb_involutive.
  replace (8 * (Z.of_nat (length l) + 1 - 1)) with (8 * Z.of_nat (length l)) by lia.
  assert (Z.testbit b 7 = (b >=? 128)) as ->.
  { apply Bool.eq_iff_eq_true. rewrite Z.testbit_true by lia. rewrite Z.geb_le. change (2 ^ 7) with 128.
    Z.to_euclidean_division_equations. lia. }
  destruct (Z.geb_spec b 128); [|done].
  set (P := 2 ^ (8 * Z.of_nat (length l))) in *.
  assert (0 < P <= 2 ^ 48) as HP by (split; [apply Z.pow_pos_nonneg; lia | apply Z.pow_le_mono_r; lia]).
  assert (Z.shiftl 128 (8 * Z.of_nat (length l)) = 2 ^ (8 * Z.of_nat (length l) + 7)) as ->.
  { rewrite Z.shiftl_mul_pow2, Z.pow_add_r by lia. fold P. lia. }
  assert (2 ^ (8 * Z.of_nat (length l) + 7) = 128 * P) as E1 by (rewrite Z.pow_add_r by lia; fold P; lia).
  assert (2 ^ (8 * Z.of_nat (length l) + 7 + 1) = 256 * P) as E2 by (rewrite !Z.pow_add_r by lia; fold P; lia).
  rewrite clear_top by (rewrite ?E1, ?E2; nia).
  replace (8 * (Z.of_nat (length l) + 1) - 1) with (8 * Z.of_nat (length l) + 7) by lia. rewrite E1.
  rewrite (i64_small (_ - _)) by nia. apply i64_small. nia.
Qed.

Lemma land_top b : is_byte b -> negb (Z.land b 0x80 =? 0) = (b >=? 128).
Proof.
  intros Hb. assert (forallb (fun b => Bool.eqb (negb (Z.land b 0x80 =? 0)) (b >=? 128)) (map Z.of_nat (seq 0 256)) = true) as H
    by by vm_compute.
  rewrite forallb_forall in H. apply Bool.eqb_prop, H. unfold is_byte in Hb.
  apply in_map_iff. exists (Z.to_nat b). split; [lia|]. apply in_seq. lia.
Qed.
Lemma land_low7 b : is_byte b -> Z.land b 0x7f = if b >=? 128 then b - 128 else b.
Proof.
  intros Hb. change 0x7f with (2 ^ 7 - 1). rewrite land_ones_mod by lia. unfold is_byte in Hb.
  destruct (Z.geb_spec b 128); change (2 ^ 7) with 128; Z.to_euclidean_division_equations; lia.
Qed.
Lemma lor_top b : 0 <= b < 128 -> Z.lor b 0x80 = b + 128.
Proof. intros Hb. change 0x80 with (Z.shiftl 1 7). rewrite lor_shiftl_add by lia. done. Qed.

(** The two shapes of an encoding. *)
Lemma serialize_shape v :
  v <> 0 -> Z.abs v < 2 ^ 63 ->
  exists l b, Forall is_byte (l ++ [b]) /\ 0 < b /\ of_le_bytes (l ++ [b]) = Z.abs v /\
    serialize v = if b >=? 128 then (l ++ [b]) ++ [if v <? 0 then 128 else 0] else l ++ [b + if v <? 0 then 128 else 0].
Proof.
  intros Hv Hr. unfold serialize. destruct (Z.eqb_spec v 0); [lia|].
  assert (u64 (if v <? 0 then - v else v) = Z.abs v) as ->.
  { rewrite u64_small; destruct (Z.ltb_spec v 0); lia. }
  destruct (serialize_loop_spec 8 (Z.abs v) ltac:(cbn; lia)) as (S1 & S2 & S3 & S4).
  destruct S4 as (l & b & E & Hb); [lia|]. rewrite E in *. exists l, b. split; [done|]. split; [done|]. split; [done|].
  rewrite back_snoc. apply Forall_app in S2 as [_ B]. inversion B as [|? ? Bb _]; subst.
  rewrite land_top by done. destruct (Z.geb_spec b 128); [done|].
  rewrite length_app. cbn [length]. rewrite Nat.add_sub, take_app_length.
  rewrite lor_top by lia. destruct (v <? 0); [done|]. by rewrite Z.add_0_r.
Qed.

Lemma num_value_snoc l b : num_value (l ++ [b]) =
  let m := of_le_bytes l + b * 2 ^ (8 * Z.of_nat (length l)) in
  if b >=? 128 then - (m - 128 * 2 ^ (8 * Z.of_nat (length l))) else m.
Proof.
  unfold num_value. destruct (l ++ [b]) as [|x r] eqn:E; [by destruct l|]. rewrite <- E, back_snoc, of_le_snoc, size_snoc.
  unfold size. replace (8 * (Z.of_nat (length l) + 1) - 1) with (8 * Z.of_nat (length l) + 7) by lia.
  rewrite Z.pow_add_r by lia. by rewrite (Z.mul_comm (2 ^ (8 * _)) (2 ^ 7)).
Qed.

(** No shorter encoding of the same number exists. *)
Definition minimal (vch : valtype) : bool :=
  negb ((size vch >? 0) && (Z.land (back vch) 0x7f =? 0) &&
        ((size vch <=? 1) || (Z.land (nth (length vch - 2) vch 0) 0x80 =? 0))).

Lemma serialize_value v : Z.abs v < 2 ^ 63 ->
  num_value (serialize v) = v /\ minimal (serialize v) = true /\ Forall is_byte (serialize v).
Proof.
  intros Hr. destruct (Z.eq_dec v 0) as [->|Hv]; [by repeat split|].
  destruct (serialize_shape v Hv Hr) as (l & b & Hb & Hb0 & Hm & ->).
  apply Forall_app in Hb as [Hl B]. inversion B as [|? ? Bb _]; subst. unfold is_byte in Bb.
  rewrite of_le_snoc in Hm. destruct (Z.geb_spec b 128) as [G|G].
  - rewrite num_value_snoc. cbv zeta. rewrite of_le_snoc. split; [|split].
    + destruct (Z.ltb_spec v 0), (Z.geb_spec (if v <? 0 then 128 else 0) 128); cbn in *; lia.
    + unfold minimal. rewrite second_snoc, !size_snoc. rewrite <- (negb_involutive (Z.land b 0x80 =? 0)), land_top by (unfold is_byte; lia).
      destruct (Z.geb_spec b 128); [|lia]. destruct (Z.leb_spec (size l + 1 + 1) 1); [unfold size in *; lia|]. cbn. by rewrite andb_false_r.
    + apply Forall_app. split; [apply Forall_app; split; [done | by constructor]|]. repeat constructor; destruct (v <? 0); unfold is_byte; lia.
  - rewrite num_value_snoc. cbv zeta. set (c := b + _). assert (is_byte c) as Bc by (unfold c, is_byte; destruct (v <? 0); lia).
    split; [|split].
    + unfold c. destruct (Z.ltb_spec v 0); destruct (Z.geb_spec (b + 128) 128), (Z.geb_spec (b + 0) 128); lia.
    + unfold minimal. rewrite back_snoc, land_low7 by done.
      destruct (Z.eqb_spec (if c >=? 128 then c - 128 else c) 0) as [E|E]; [|by rewrite andb_false_r].
      exfalso. unfold c in E. destruct (v <? 0); destruct (Z.geb_spec (b + 128) 128), (Z.geb_spec (b + 0) 128); lia.
    + apply Forall_app. split; [done|]. by constructor.
Qed.

Lemma of_le_pos l b : Forall is_byte l -> 0 < b -> 0 < of_le_bytes (l ++ [b]).
Proof.
  intros Hl Hb. rewrite of_le_snoc. pose proof (of_le_bytes_bound l Hl).
  pose proof (Z.pow_pos_nonneg 2 (8 * Z.of_nat (length l))). nia.
Qed.

(** A magnitude with a sign encodes to its bytes and the sign bit. *)
Lemma serialize_magnitude l b (neg : bool) :
  Forall is_byte (l ++ [b]) -> 0 < b -> (length l < 7)%nat ->
  serialize (if neg then - of_le_bytes (l ++ [b]) else of_le_bytes (l ++ [b])) =
  if b >=? 128 then (l ++ [b]) ++ [if neg then 128 else 0] else l ++ [b + if neg then 128 else 0].
Proof.
  intros Hb Hb0 Hl. pose proof (of_le_bytes_bound _ Hb) as Hr. rewrite length_app in Hr. cbn in Hr.
  assert (2 ^ (8 * Z.of_nat (length l + 1)) <= 2 ^ 56) by (apply Z.pow_le_mono_r; lia).
  pose proof Hb as Hb2. apply Forall_app in Hb2 as [Hl1 _]. pose proof (of_le_pos l b Hl1 Hb0) as Hp.
  set (m := of_le_bytes (l ++ [b])) in *.
  destruct (serialize_shape (if neg then - m else m)) as (l' & b' & S1 & S2 & S3 & ->); [destruct neg; lia | destruct neg; lia |].
  assert (l' ++ [b'] = l ++ [b]) as E.
  { pose proof S1 as S1'. apply Forall_app in S1' as [L1 _].
    assert (length l' < 8)%nat as Hl'.
    { pose proof (of_le_bytes_bound l' L1). rewrite of_le_snoc in S3.
      destruct (Nat.lt_ge_cases (length l') 8) as [?|Hge]; [done|].
      assert (2 ^ 64 <= 2 ^ (8 * Z.of_nat (length l'))) by (apply Z.pow_le_mono_r; lia).
      destruct neg; nia. }
    rewrite <- (serialize_loop_bytes 8 l' b' S1 S2 Hl'), <- (serialize_loop_bytes 8 l b Hb Hb0) by lia.
    f_equal. fold m. rewrite S3. destruct neg; lia. }
  apply app_inj_tail in E as [-> ->].
  assert (((if neg then - m else m) <? 0) = neg) as -> by (destruct neg; destruct (Z.ltb_spec (- m) 0), (Z.ltb_spec m 0); lia || done).
  done.
Qed.

Lemma serialize_num_value vch :
  Forall is_byte vch -> (length vch <= 7)%nat -> minimal vch = true -> serialize (num_value vch) = vch.
Proof.
  intros Hb Hl Hm. destruct vch as [|b l _] using rev_ind; [done|].
  rewrite num_value_snoc. cbv zeta. rewrite length_app in Hl. cbn in Hl.
  pose proof Hb as Hb'. apply Forall_app in Hb' as [Hl1 B]. inversion B as [|? ? Bb _]; subst.
  set (P := 2 ^ (8 * Z.of_nat (length l))). set (neg := b >=? 128). set (low := if neg then b - 128 else b).
  assert ((if neg then - (of_le_bytes l + b * P - 128 * P) else of_le_bytes l + b * P) =
          (if neg then - (of_le_bytes l + low * P) else of_le_bytes l + low * P)) as -> by (unfold low; destruct neg; lia).
  assert (is_byte low /\ low < 128 /\ b = low + (if neg then 128 else 0)) as (Blow & Hlow & Eb).
  { unfold low, neg, is_byte in *. destruct (Z.geb_spec b 128); lia. }
  unfold minimal in Hm. rewrite back_snoc, land_low7 in Hm by done. change (if b >=? 128 then b - 128 else b) with low in Hm.
  destruct (Z.eqb_spec low 0) as [E0|E0].
  - rewrite E0, Z.mul_0_l, Z.add_0_r in *.
    destruct l as [|a l2 _] using rev_ind; [cbn in Hm; done|].
    rewrite second_snoc, !size_snoc in Hm. pose proof Hl1 as Hl2. apply Forall_app in Hl2 as [_ A].
    inversion_clear A as [|? ? Ba _]. rewrite <- (negb_involutive (Z.land a 0x80 =? 0)), land_top in Hm by done.
    destruct (Z.geb_spec a 128) as [G|G]; [|cbn in Hm; unfold size in Hm; destruct (Z.gtb_spec (Z.of_nat (length l2) + 1 + 1) 0); [|lia];
      cbn in Hm; by rewrite orb_true_r in Hm].
    rewrite serialize_magnitude by (done || lia || (rewrite length_app in Hl; cbn in Hl; lia)).
    destruct (Z.geb_spec a 128); [|lia]. by rewrite Eb.
  - replace (of_le_bytes l + low * P) with (of_le_bytes (l ++ [low])) by apply of_le_snoc.
    rewrite serialize_magnitude; [| apply Forall_app; split; [done | by constructor] | unfold is_byte in Blow; lia | lia].
    destruct (Z.geb_spec low 128); [lia|]. by rewrite <- Eb.
Qed.

Lemma CScriptNum_minimal vch n :
  CScriptNum vch true n = if size vch >? n then None else if minimal vch then Some (set_vch vch) else None.
Proof. unfold CScriptNum, minimal. destruct (size vch >? n); [done|]. cbn [andb]. by destruct (_ && _). Qed.

(** The numbers of scripts have one encoding: with minimality required,
    reading a byte string gives [v] exactly when the string is the serialization of
    [v] and is not too long; and the default four bytes are the range
    [-2^31 + 1 .. 2^31 - 1] the comment promises. *)
Theorem CScriptNum_serialize (vch : valtype) (n v : Z) (Hb : Forall is_byte vch) (Hn : n <= 7)
    (Hv : Z.abs v < 2 ^ 63) :
  (CScriptNum vch true n = Some v <-> vch = serialize v /\ size vch <= n) /\
  (size (serialize v) <= nDefaultMaxNumSize <-> - 2 ^ 31 < v < 2 ^ 31).
Proof.
  split.
  - rewrite CScriptNum_minimal. unfold size in *. destruct (Z.gtb_spec (Z.of_nat (length vch)) n) as [G|G].
    + split; [done | lia].
    + rewrite set_vch_spec by (done || lia). split.
      * destruct (minimal vch) eqn:E; [|done]. intros H. injection H as Hv0. rewrite <- Hv0.
        rewrite serialize_num_value by (done || lia). split; [done | lia].
      * intros [-> _]. destruct (serialize_value v Hv) as (-> & -> & _). done.
  - unfold nDefaultMaxNumSize. destruct (Z.eq_dec v 0) as [->|Hv0]; [split; [lia | by vm_compute]|].
    destruct (serialize_shape v Hv0 Hv) as (l & b & Sb & Hb0 & Hm & ->).
    apply Forall_app in Sb as [Hl B]. inversion B as [|? ? Bb _]; subst. unfold is_byte in Bb.
    rewrite of_le_snoc in Hm. pose proof (of_le_bytes_bound l Hl) as Hr. set (k := length l) in *.
    assert (forall n, (k < n)%nat -> 2 ^ (8 * Z.of_nat k) * 2 ^ 8 <= 2 ^ (8 * Z.of_nat n)) as Hup
      by (intros j Hj; rewrite <- Z.pow_add_r by lia; apply Z.pow_le_mono_r; lia).
    assert (forall n, (n <= k)%nat -> 2 ^ (8 * Z.of_nat n) <= 2 ^ (8 * Z.of_nat k)) as Hlo
      by (intros j Hj; apply Z.pow_le_mono_r; lia).
    pose proof (Hup 4%nat) as U4. pose proof (Hup 3%nat) as U3. pose proof (Hlo 4%nat) as L4. pose proof (Hlo 3%nat) as L3.
    change (2 ^ (8 * Z.of_nat 3)) with (2 ^ 24) in *. change (2 ^ (8 * Z.of_nat 4)) with (2 ^ 32) in *.
    set (P := 2 ^ (8 * Z.of_nat k)) in *. destruct (Z.geb_spec b 128); rewrite !size_snoc; unfold size; fold k; split; intros H1.
    + assert (k < 3)%nat by lia. nia.
    + assert (k < 3)%nat; [|lia]. destruct (Nat.lt_ge_cases k 3%nat); [done|]. nia.
    + assert (k < 4)%nat by lia. destruct (Nat.eq_dec k 3%nat) as [E|E]; [|nia].
      assert (P = 2 ^ 24) as EP by (unfold P; by rewrite E). nia.
    + assert (k < 4)%nat; [|lia]. destruct (Nat.lt_ge_cases k 4%nat); [done|]. nia.
Qed.
Lemma CScriptNum_serialize_witness :
  (CScriptNum [0xff; 0x80] true 4 = Some (-255) <-> [0xff; 0x80] = serialize (-255) /\ size [0xff; 0x80] <= 4) /\
  (size (serialize (-255)) <= nDefaultMaxNumSize <-> - 2 ^ 31 < -255 < 2 ^ 31).
Proof. apply CScriptNum_serialize; [by repeat constructor | lia | lia]. Defined.

(** ** Reading back what was pushed *)

Lemma size_app {A} (l r : list A) : size (l ++ r) = size l + size r.
Proof. unfold size. rewrite length_app. lia. Qed.
Lemma size_nonneg {A} (l : list A) : 0 <= size l.
Proof. unfold size. lia. Qed.

(** The opcode [operator<<] chooses for [b]. *)
Definition push_code (b : valtype) : Z :=
  if size b <? OP_PUSHDATA1 then size b
  else if size b <=? 0xff then OP_PUSHDATA1 else if size b <=? 0xffff then OP_PUSHDATA2 else OP_PUSHDATA4.

Lemma GetOp_push_data b rest :
  size (b ++ rest) < 2 ^ 32 -> GetOp (push_data [] b ++ rest) = mkOp true rest (push_code b) b.
Proof.
  intros Hs. pose proof (size_nonneg b). pose proof (size_nonneg rest). rewrite size_app in Hs.
  unfold push_data, push_code. assert (forall n, n = size b -> drop (Z.to_nat n) (b ++ rest) = rest /\ take (Z.to_nat n) (b ++ rest) = b) as Hn.
  { intros n ->. unfold size. rewrite Nat2Z.id. split; [apply drop_app_length | apply take_app_length]. }
  assert ((u32 (size (b ++ rest)) <? size b) = false) as Hu.
  { rewrite size_app, u32_small by lia. apply Z.ltb_ge. lia. }
  destruct (Z.ltb_spec (size b) OP_PUSHDATA1) as [G|G]; unfold OP_PUSHDATA1 in G.
  - rewrite u8_small by lia. cbn [app GetOp]. unfold OP_PUSHDATA4. destruct (Z.leb_spec (size b) 0x4e); [|lia].
    unfold GetOp_size, OP_PUSHDATA1. destruct (Z.ltb_spec (size b) 0x4c); [|lia]. cbn [negb orb]. rewrite Hu.
    destruct (Hn (size b) eq_refl) as [-> ->]. done.
  - destruct (Z.leb_spec (size b) 0xff).
    + rewrite u8_small by lia. rewrite <- (assoc_L (++)). cbn [app GetOp]. change (OP_PUSHDATA1 <=? OP_PUSHDATA4) with true.
      unfold GetOp_size. rewrite Z.ltb_irrefl, Z.eqb_refl. cbn [negb orb]. rewrite Hu.
      destruct (Hn (size b) eq_refl) as [-> ->]. done.
    + destruct (Z.leb_spec (size b) 0xffff).
      * rewrite <- !(assoc_L (++)). cbn [app GetOp]. change (OP_PUSHDATA2 <=? OP_PUSHDATA4) with true.
        unfold GetOp_size. change (OP_PUSHDATA2 <? OP_PUSHDATA1) with false. change (OP_PUSHDATA2 =? OP_PUSHDATA1) with false.
        rewrite Z.eqb_refl. change (u16 (size b)) with (size b mod 2 ^ 16). rewrite Z.mod_small by lia.
        rewrite size_app. unfold size at 1. rewrite le_bytes_length.
        destruct (Z.ltb_spec (Z.of_nat 2 + size (b ++ rest)) 2); [pose proof (size_nonneg (b ++ rest)); lia|].
        rewrite take_app_length', drop_app_length' by (by rewrite le_bytes_length). rewrite of_le_bytes_le_bytes, Z.mod_small by (cbn; lia).
        cbn [negb orb]. rewrite Hu. destruct (Hn (size b) eq_refl) as [-> ->]. done.
      * rewrite <- !(assoc_L (++)). cbn [app GetOp]. change (OP_PUSHDATA4 <=? OP_PUSHDATA4) with true.
        unfold GetOp_size. change (OP_PUSHDATA4 <? OP_PUSHDATA1) with false. change (OP_PUSHDATA4 =? OP_PUSHDATA1) with false.
        change (OP_PUSHDATA4 =? OP_PUSHDATA2) with false. rewrite u32_small by lia.
        rewrite size_app. unfold size at 1. rewrite le_bytes_length.
        destruct (Z.ltb_spec (Z.of_nat 4 + size (b ++ rest)) 4); [pose proof (size_nonneg (b ++ rest)); lia|].
        rewrite take_app_length', drop_app_length' by (by rewrite le_bytes_length). rewrite of_le_bytes_le_bytes, Z.mod_small by (cbn; lia).
        cbn [negb orb]. rewrite Hu. destruct (Hn (size b) eq_refl) as [-> ->]. done.
Qed.

Lemma push_data_app s b : push_data s b = s ++ push_data [] b.
Proof.
  unfold push_data. destruct (size b <? OP_PUSHDATA1); [by rewrite <- (assoc_L (++))|].
  destruct (size b <=? 0xff); [by rewrite <- !(assoc_L (++))|].
  destruct (size b <=? 0xffff); by rewrite <- !(assoc_L (++)).
Qed.
Lemma push_code_le b : push_code b <= OP_PUSHDATA4.
Proof. unfold push_code, OP_PUSHDATA1, OP_PUSHDATA2, OP_PUSHDATA4. repeat case_match; lia. Qed.

(** Every instruction moves the iterator forward: the loops terminate. *)
Lemma GetOp_size_suffix opcode pc :
  let '(_, _, pc') := GetOp_size opcode pc in exists d, pc = d ++ pc'.
Proof.
  unfold GetOp_size. destruct (opcode <? OP_PUSHDATA1); [by exists []|].
  destruct (opcode =? OP_PUSHDATA1).
  - destruct pc as [|n pc]; [by exists [] | by exists [n]].
  - destruct (opcode =? OP_PUSHDATA2).
    + destruct (size pc <? 2); [by exists []|]. exists (take 2 pc). by rewrite take_drop.
    + destruct (size pc <? 4); [by exists []|]. exists (take 4 pc). by rewrite take_drop.
Qed.
Lemma GetOp_suffix pc : exists d, pc = d ++ op_pc (GetOp pc) /\ (pc <> [] -> d <> []).
Proof.
  destruct pc as [|opcode pc]; [by exists []|]. cbn [GetOp].
  destruct (opcode <=? OP_PUSHDATA4); [|by exists [opcode]].
  pose proof (GetOp_size_suffix opcode pc) as H. destruct (GetOp_size opcode pc) as [[ok n] pc'].
  destruct H as [d ->]. destruct (negb ok || (u32 (size pc') <? n)); cbn [op_pc].
  - by exists (opcode :: d).
  - exists (opcode :: d ++ take (Z.to_nat n) pc'). split; [|done]. cbn. by rewrite <- (assoc_L (++)), take_drop.
Qed.
Lemma GetOp_shorter pc : pc <> [] -> (length (op_pc (GetOp pc)) < length pc)%nat.
Proof.
  intros H. destruct (GetOp_suffix pc) as (d & E & Hd). specialize (Hd H). rewrite E at 2. rewrite length_app.
  destruct d; [done|]. cbn. lia.
Qed.
Lemma GetOp_nil : GetOp [] = mkOp false [] OP_INVALIDOPCODE [].
Proof. done. Qed.

Lemma IsPushOnly_fuel f1 f2 pc : (length pc <= f1)%nat -> (length pc <= f2)%nat -> IsPushOnly_loop f1 pc = IsPushOnly_loop f2 pc.
Proof.
  revert f2 pc. induction f1 as [|f1 IH]; intros f2 pc H1 H2; (destruct pc as [|x pc]; [by destruct f1, f2 || by destruct f2|]);
    [cbn in H1; lia|]. destruct f2 as [|f2]; [cbn in H2; lia|]. cbn [IsPushOnly_loop].
  destruct (negb _); [done|]. destruct (_ >? _); [done|].
  pose proof (GetOp_shorter (x :: pc) ltac:(done)). apply IH; cbn [length] in *; lia.
Qed.

(** The instructions of a script, when all of it can be read. *)
Fixpoint instructions_loop (fuel : nat) (pc : CScript) : option (list (Z * valtype)) :=
  match fuel, pc with
  | O, _ | _, [] => Some []
  | S fuel', _ =>
      let o := GetOp pc in
      if op_ok o then r ← instructions_loop fuel' (op_pc o); Some ((op_code o, op_data o) :: r) else None
  end.
Definition instructions (script : CScript) : option (list (Z * valtype)) := instructions_loop (length script) script.

Definition pushes (items : list valtype) : CScript := foldl push_data [] items.
Lemma pushes_from s items : foldl push_data s items = s ++ concat (map (push_data []) items).
Proof.
  revert s. induction items as [|b bs IH]; intros s; cbn; [by rewrite app_nil_r|].
  rewrite IH, push_data_app. by rewrite <- (assoc_L (++)).
Qed.
Lemma pushes_cons b bs : pushes (b :: bs) = push_data [] b ++ pushes bs.
Proof. unfold pushes. by rewrite !pushes_from. Qed.
Lemma push_data_length b : (length (push_data [] b) > length b)%nat.
Proof. unfold push_data. repeat case_match; rewrite ?length_app; cbn; lia. Qed.

(** Loops that read pushes see the items one by one. *)
Lemma pushes_step b bs : size (pushes (b :: bs)) < 2 ^ 32 ->
  pushes (b :: bs) <> [] /\ GetOp (pushes (b :: bs)) = mkOp true (pushes bs) (push_code b) b /\
  (length (pushes bs) < length (pushes (b :: bs)))%nat.
Proof.
  intros Hs. rewrite pushes_cons in *. pose proof (push_data_length b). split; [|split].
  - intros E. apply (f_equal length) in E. rewrite length_app in E. cbn in E. lia.
  - apply GetOp_push_data. unfold size in *. rewrite !length_app in *. lia.
  - rewrite length_app. lia.
Qed.

Lemma instructions_pushes fuel items : size (pushes items) < 2 ^ 32 -> (length (pushes items) <= fuel)%nat ->
  instructions_loop fuel (pushes items) = Some (map (fun b => (push_code b, b)) items).
Proof.
  revert fuel. induction items as [|b bs IH]; intros fuel Hs Hf; [by destruct fuel|].
  destruct (pushes_step b bs Hs) as (Hne & Hg & Hl). destruct fuel as [|fuel]; [lia|].
  cbn [instructions_loop]. destruct (pushes (b :: bs)) as [|x r] eqn:E; [done|]. rewrite <- E in *. clear x r E Hne.
  rewrite Hg. cbn [op_ok op_pc op_code op_data]. rewrite IH by (unfold size in *; lia). done.
Qed.
Lemma IsPushOnly_pushes fuel items : size (pushes items) < 2 ^ 32 -> (length (pushes items) <= fuel)%nat ->
  IsPushOnly_loop fuel (pushes items) = true.
Proof.
  revert fuel. induction items as [|b bs IH]; intros fuel Hs Hf; [by destruct fuel|].
  destruct (pushes_step b bs Hs) as (Hne & Hg & Hl). destruct fuel as [|fuel]; [lia|].
  cbn [IsPushOnly_loop]. destruct (pushes (b :: bs)) as [|x r] eqn:E; [done|]. rewrite <- E in *. clear x r E Hne.
  rewrite Hg. cbn [op_ok op_pc op_code negb].
  destruct (Z.gtb_spec (push_code b) OP_16); [pose proof (push_code_le b); unfold OP_PUSHDATA4, OP_16 in *; lia|].
  apply IH; [unfold size in *; lia | lia].
Qed.
Lemma last_default {A} (x : A) l d d' : List.last (x :: l) d = List.last (x :: l) d'.
Proof. revert x. induction l as [|y l IH]; intros x; [done|]. exact (IH y). Qed.
Lemma last_push_pushes fuel items d : size (pushes items) < 2 ^ 32 -> (length (pushes items) <= fuel)%nat ->
  last_push_loop fuel (pushes items) d = Some (List.last items d).
Proof.
  revert fuel d. induction items as [|b bs IH]; intros fuel d Hs Hf; [by destruct fuel|].
  destruct (pushes_step b bs Hs) as (Hne & Hg & Hl). destruct fuel as [|fuel]; [lia|].
  cbn [last_push_loop]. destruct (pushes (b :: bs)) as [|x r] eqn:E; [done|]. rewrite <- E in *. clear x r E Hne.
  rewrite Hg. cbn [op_ok op_pc op_code op_data negb].
  destruct (Z.gtb_spec (push_code b) OP_16); [pose proof (push_code_le b); unfold OP_PUSHDATA4, OP_16 in *; lia|].
  rewrite IH by (unfold size in *; lia). f_equal. destruct bs as [|c cs]; [done|]. apply (last_default c cs b d).
Qed.

(** A script built by pushing items parses back, instruction by instruction, to
    exactly those items whatever their lengths (up to the 32-bit sizes the format
    can express); it is push-only, and what pay-to-script-hash takes as the script is
    its last item. *)
Theorem pushes_parse (items : list valtype) (Hs : size (pushes items) < 2 ^ 32) :
  instructions (pushes items) = Some (map (fun b => (push_code b, b)) items) /\
  IsPushOnly (pushes items) = true /\
  last_push_loop (length (pushes items)) (pushes items) [] = Some (List.last items []).
Proof.
  split; [|split].
  - by apply instructions_pushes.
  - by apply IsPushOnly_pushes.
  - by apply last_push_pushes.
Qed.
Lemma pushes_parse_witness :
  let items := [[]; [7]; replicate 80 1; replicate 300 2; replicate 3000 3; [4]] in
  instructions (pushes items) = Some (map (fun b => (push_code b, b)) items) /\
  IsPushOnly (pushes items) = true /\
  last_push_loop (length (pushes items)) (pushes items) [] = Some (List.last items []).
Proof. apply (pushes_parse [[]; [7]; replicate 80 1; replicate 300 2; replicate 3000 3; [4]]). by vm_compute. Defined.

(** ** Payment scripts *)

Definition P2PKH (hash : valtype) : CScript := [OP_DUP; OP_HASH160] ++ push_data [] hash ++ [OP_EQUALVERIFY; OP_CHECKSIG].

Lemma normal_payment_run hash tail :
  size (push_data [] hash ++ tail) = 23 -> size hash < 76 ->
  IsNormalPaymentScript ([OP_DUP; OP_HASH160] ++ push_data [] hash ++ tail) = IsNormalPaymentScript_loop 22 tail 3.
Proof.
  intros Hs Hh. assert (size (hash ++ tail) < 2 ^ 32) as Hsmall.
  { pose proof (push_data_length hash). rewrite size_app in *. unfold size in *. lia. }
  unfold IsNormalPaymentScript. rewrite size_app, Hs. cbn [size length]. change (size [OP_DUP; OP_HASH160] + 23 =? 25) with true.
  cbn [negb]. rewrite length_app. unfold size in Hs. replace (length (push_data [] hash ++ tail)) with 23%nat by lia.
  cbn [length Nat.add app].
  assert (push_data [] hash ++ tail <> []) as Hne by (intros E; rewrite E in Hs; done).
  set (r := push_data [] hash ++ tail) in *.
  change (IsNormalPaymentScript_loop 25 (OP_DUP :: OP_HASH160 :: r) 0) with (IsNormalPaymentScript_loop 23 r 2).
  cbn [IsNormalPaymentScript_loop]. destruct r as [|x r'] eqn:E; [done|]. rewrite <- E. unfold r in *.
  rewrite GetOp_push_data by done.
  cbn [op_code op_pc]. done.
Qed.

(** [IsNormalPaymentScript] accepts every pay-to-public-key-hash script, but
    also scripts that are not: since the loop stops at the end of the script
    wherever that is, 25 bytes that push 22 bytes and never verify or check a
    signature are accepted. *)
Theorem IsNormalPaymentScript_loose (hash20 hash22 : valtype) (H20 : size hash20 = 20) (H22 : size hash22 = 22) :
  IsNormalPaymentScript (P2PKH hash20) = true /\
  IsNormalPaymentScript ([OP_DUP; OP_HASH160] ++ push_data [] hash22) = true /\
  instructions ([OP_DUP; OP_HASH160] ++ push_data [] hash22) = Some [(OP_DUP, []); (OP_HASH160, []); (22, hash22)].
Proof.
  assert (push_data [] hash20 = 20 :: hash20) as E20 by (unfold push_data; by rewrite H20).
  assert (push_data [] hash22 = 22 :: hash22) as E22 by (unfold push_data; by rewrite H22).
  split; [|split].
  - unfold P2PKH. rewrite normal_payment_run; [done | | lia].
    rewrite E20, size_app. unfold size in *. cbn [length]. lia.
  - rewrite <- (app_nil_r (push_data [] hash22)), normal_payment_run; [done | | lia].
    rewrite E22, app_nil_r. unfold size in *. cbn [length]. lia.
  - pose proof (GetOp_push_data hash22 []) as G. rewrite !app_nil_r in G. specialize (G ltac:(lia)).
    unfold instructions. rewrite E22 in *. cbn [app length instructions_loop].
    change (GetOp (OP_DUP :: OP_HASH160 :: 22 :: hash22)) with (mkOp true (OP_HASH160 :: 22 :: hash22) OP_DUP []).
    cbn [op_ok op_pc op_code op_data].
    change (GetOp (OP_HASH160 :: 22 :: hash22)) with (mkOp true (22 :: hash22) OP_HASH160 []).
    cbn [op_ok op_pc op_code op_data]. rewrite G. cbn [op_ok op_pc op_code op_data].
    unfold push_code. rewrite H22. by destruct (length hash22).
Qed.
Lemma IsNormalPaymentScript_loose_witness :
  IsNormalPaymentScript (P2PKH (replicate 20 1)) = true /\
  IsNormalPaymentScript ([OP_DUP; OP_HASH160] ++ push_data [] (replicate 22 1)) = true /\
  instructions ([OP_DUP; OP_HASH160] ++ push_data [] (replicate 22 1)) =
    Some [(OP_DUP, []); (OP_HASH160, []); (22, replicate 22 1)].
Proof. by apply IsNormalPaymentScript_loose. Defined.
