(* ===== verification/SigChecks.v ===== *)
(** Signature and public key encodings, and the rule on minimal pushes: the static
    functions at the head of [src/src/script/interpreter.cpp], the error codes of
    [src/src/script/script_error.h], the flags of [src/src/script/interpreter.h] and
    [src/src/eccryptoverify.cpp]. *)
From S2P Require Import Prelude Script.

Inductive ScriptError :=
| SCRIPT_ERR_OK | SCRIPT_ERR_UNKNOWN_ERROR | SCRIPT_ERR_EVAL_FALSE | SCRIPT_ERR_OP_RETURN
| SCRIPT_ERR_SCRIPT_SIZE | SCRIPT_ERR_PUSH_SIZE | SCRIPT_ERR_OP_COUNT | SCRIPT_ERR_STACK_SIZE
| SCRIPT_ERR_SIG_COUNT | SCRIPT_ERR_PUBKEY_COUNT
| SCRIPT_ERR_VERIFY | SCRIPT_ERR_EQUALVERIFY | SCRIPT_ERR_CHECKMULTISIGVERIFY | SCRIPT_ERR_CHECKSIGVERIFY
| SCRIPT_ERR_NUMEQUALVERIFY
| SCRIPT_ERR_BAD_OPCODE | SCRIPT_ERR_DISABLED_OPCODE | SCRIPT_ERR_INVALID_STACK_OPERATION
| SCRIPT_ERR_INVALID_ALTSTACK_OPERATION | SCRIPT_ERR_UNBALANCED_CONDITIONAL
| SCRIPT_ERR_NEGATIVE_LOCKTIME | SCRIPT_ERR_UNSATISFIED_LOCKTIME
| SCRIPT_ERR_SIG_HASHTYPE | SCRIPT_ERR_SIG_DER | SCRIPT_ERR_MINIMALDATA | SCRIPT_ERR_SIG_PUSHONLY
| SCRIPT_ERR_SIG_HIGH_S | SCRIPT_ERR_SIG_NULLDUMMY | SCRIPT_ERR_PUBKEYTYPE | SCRIPT_ERR_CLEANSTACK
| SCRIPT_ERR_DISCOURAGE_UPGRADABLE_NOPS | SCRIPT_ERR_DISCOURAGE_UPGRADABLE_WITNESS_PROGRAM
| SCRIPT_ERR_WITNESS_PROGRAM_WRONG_LENGTH | SCRIPT_ERR_WITNESS_PROGRAM_WITNESS_EMPTY
| SCRIPT_ERR_WITNESS_PROGRAM_MISMATCH | SCRIPT_ERR_WITNESS_MALLEATED | SCRIPT_ERR_WITNESS_MALLEATED_P2SH
| SCRIPT_ERR_WITNESS_UNEXPECTED | SCRIPT_ERR_WITNESS_PUBKEYTYPE.
#[export] Instance ScriptError_dec : EqDecision ScriptError.
Proof. solve_decision. Defined.

(** What a checking function does: return true, set an error and return false, or stop
    the program at a failed assertion. *)
Inductive outcome (A : Type) :=
| Ok (a : A)
| Err (e : ScriptError)
| Abort.
Arguments Ok {A} _.
Arguments Err {A} _.
Arguments Abort {A}.
#[export] Instance outcome_ret : MRet outcome := fun A a => Ok a.
#[export] Instance outcome_bind : MBind outcome := fun A B f m =>
  match m with
  | Ok a => f a
  | Err e => Err e
  | Abort => Abort
  end.
(** [if (b) return set_error(serror, e);] *)
Definition fail_if (b : bool) (e : ScriptError) : outcome unit := if b then Err e else Ok tt.

(** ** Flags *)

Definition SCRIPT_VERIFY_P2SH : Z := 2 ^ 0.
Definition SCRIPT_VERIFY_STRICTENC : Z := 2 ^ 1.
Definition SCRIPT_VERIFY_DERSIG : Z := 2 ^ 2.
Definition SCRIPT_VERIFY_LOW_S : Z := 2 ^ 3.
Definition SCRIPT_VERIFY_NULLDUMMY : Z := 2 ^ 4.
Definition SCRIPT_VERIFY_SIGPUSHONLY : Z := 2 ^ 5.
Definition SCRIPT_VERIFY_MINIMALDATA : Z := 2 ^ 6.
Definition SCRIPT_VERIFY_DISCOURAGE_UPGRADABLE_NOPS : Z := 2 ^ 7.
Definition SCRIPT_VERIFY_CLEANSTACK : Z := 2 ^ 8.
Definition SCRIPT_VERIFY_CHECKLOCKTIMEVERIFY : Z := 2 ^ 9.
Definition SCRIPT_VERIFY_CHECKSEQUENCEVERIFY : Z := 2 ^ 10.
Definition SCRIPT_VERIFY_WITNESS : Z := 2 ^ 11.
Definition SCRIPT_VERIFY_DISCOURAGE_UPGRADABLE_WITNESS_PROGRAM : Z := 2 ^ 12.
Definition SCRIPT_VERIFY_WITNESS_PUBKEYTYPE : Z := 2 ^ 15.
(** [(flags & bits) != 0] *)
Definition has (flags bits : Z) : bool := negb (Z.land flags bits =? 0).

Inductive SigVersion := SIGVERSION_BASE | SIGVERSION_WITNESS_V0.
#[export] Instance SigVersion_dec : EqDecision SigVersion.
Proof. solve_decision. Defined.

Definition SIGHASH_ALL : Z := 1.
Definition SIGHASH_NONE : Z := 2.
Definition SIGHASH_SINGLE : Z := 3.
Definition SIGHASH_ANYONECANPAY : Z := 0x80.

(** ** Big-endian comparison ([src/src/eccryptoverify.cpp]) *)

(** The three loops: the longer operand's leading bytes, then byte by byte. *)
Fixpoint CompareBigEndian_equal (c1 c2 : list Z) : Z :=
  match c1, c2 with
  | x :: c1, y :: c2 => if x >? y then 1 else if y >? x then -1 else CompareBigEndian_equal c1 c2
  | _, _ => 0
  end.
Fixpoint CompareBigEndian_lead (n : nat) (c : list Z) (r : Z) : Z + list Z :=
  match n, c with
  | S n', x :: c' => if negb (x =? 0) then inl r else CompareBigEndian_lead n' c' r
  | _, _ => inr c
  end.
Definition CompareBigEndian (c1 c2 : list Z) : Z :=
  match CompareBigEndian_lead (length c1 - length c2) c1 1 with
  | inl r => r
  | inr c1 =>
      match CompareBigEndian_lead (length c2 - length c1) c2 (-1) with
      | inl r => r
      | inr c2 => CompareBigEndian_equal c1 c2
      end
  end.

Definition secp256k1_order : Z := 0xFFFFFFFFFFFFFFFFFFFFFFFFFFFFFFFEBAAEDCE6AF48A03BBFD25E8CD0364141.
Definition vchMaxModOrder : list Z :=
  [0xFF; 0xFF; 0xFF; 0xFF; 0xFF; 0xFF; 0xFF; 0xFF; 0xFF; 0xFF; 0xFF; 0xFF; 0xFF; 0xFF; 0xFF; 0xFE;
   0xBA; 0xAE; 0xDC; 0xE6; 0xAF; 0x48; 0xA0; 0x3B; 0xBF; 0xD2; 0x5E; 0x8C; 0xD0; 0x36; 0x41; 0x40].
Definition vchMaxModHalfOrder : list Z :=
  [0x7F; 0xFF; 0xFF; 0xFF; 0xFF; 0xFF; 0xFF; 0xFF; 0xFF; 0xFF; 0xFF; 0xFF; 0xFF; 0xFF; 0xFF; 0xFF;
   0x5D; 0x57; 0x6E; 0x73; 0x57; 0xA4; 0x50; 0x1D; 0xDF; 0xE9; 0x2F; 0x46; 0x68; 0x1B; 0x20; 0xA0].
(** [vchZero] is used with length 0. *)
Definition CheckSignatureElement (vch : list Z) (half : bool) : bool :=
  (CompareBigEndian vch [] >? 0) &&
  (CompareBigEndian vch (if half then vchMaxModHalfOrder else vchMaxModOrder) <=? 0).

Definition eccrypto_Check (vch : list Z) : bool :=
  (CompareBigEndian (take 32 vch) [] >? 0) && (CompareBigEndian (take 32 vch) vchMaxModOrder <=? 0).

(** ** Encodings *)

(** [CastToBool]: any non-zero byte, but not a lone sign bit at the end. *)
Definition CastToBool (vch : valtype) : bool :=
  (fix loop (l : valtype) : bool :=
    match l with
    | [] => false
    | x :: l' => if negb (x =? 0) then negb ((length l' =? 0)%nat && (x =? 0x80)) else loop l'
    end) vch.

Definition IsCompressedOrUncompressedPubKey (vchPubKey : valtype) : bool :=
  if size vchPubKey <? 33 then false
  else if at_ vchPubKey 0 =? 0x04 then size vchPubKey =? 65
  else if (at_ vchPubKey 0 =? 0x02) || (at_ vchPubKey 0 =? 0x03) then size vchPubKey =? 33
  else false.
Definition IsCompressedPubKey (vchPubKey : valtype) : bool :=
  if negb (size vchPubKey =? 33) then false
  else if negb (at_ vchPubKey 0 =? 0x02) && negb (at_ vchPubKey 0 =? 0x03) then false
  else true.

Definition IsValidSignatureEncoding (sig : valtype) : bool :=
  let at' i := at_ sig (Z.to_nat i) in
  if size sig <? 9 then false
  else if size sig >? 73 then false
  else if negb (at' 0 =? 0x30) then false
  else if negb (at' 1 =? size sig - 3) then false
  else
    let lenR := at' 3 in
    if 5 + lenR >=? size sig then false
    else
      let lenS := at' (5 + lenR) in
      if negb (lenR + lenS + 7 =? size sig) then false
      else if negb (at' 2 =? 0x02) then false
      else if lenR =? 0 then false
      else if negb (Z.land (at' 4) 0x80 =? 0) then false
      else if (lenR >? 1) && (at' 4 =? 0x00) && (Z.land (at' 5) 0x80 =? 0) then false
      else if negb (at' (lenR + 4) =? 0x02) then false
      else if lenS =? 0 then false
      else if negb (Z.land (at' (lenR + 6)) 0x80 =? 0) then false
      else if (lenS >? 1) && (at' (lenR + 6) =? 0x00) && (Z.land (at' (lenR + 7)) 0x80 =? 0) then false
      else true.

Definition IsLowDERSignature (vchSig : valtype) : outcome unit :=
  if negb (IsValidSignatureEncoding vchSig) then Err SCRIPT_ERR_SIG_DER
  else
    let nLenR := Z.to_nat (at_ vchSig 3) in
    let nLenS := Z.to_nat (at_ vchSig (5 + nLenR)) in
    let S := take nLenS (drop (6 + nLenR) vchSig) in
    if negb (CheckSignatureElement S true) then Err SCRIPT_ERR_SIG_HIGH_S else Ok tt.

Definition IsDefinedHashtypeSignature (vchSig : valtype) : bool :=
  if size vchSig =? 0 then false
  else
    let nHashType := Z.land (back vchSig) (Z.lnot SIGHASH_ANYONECANPAY) in
    negb ((nHashType <? SIGHASH_ALL) || (nHashType >? SIGHASH_SINGLE)).

Definition CheckSignatureEncoding (vchSig : valtype) (flags : Z) : outcome unit :=
  if size vchSig =? 0 then Ok tt
  else if has flags (Z.lor (Z.lor SCRIPT_VERIFY_DERSIG SCRIPT_VERIFY_LOW_S) SCRIPT_VERIFY_STRICTENC) &&
          negb (IsValidSignatureEncoding vchSig) then Err SCRIPT_ERR_SIG_DER
  else
    _ ← (if has flags SCRIPT_VERIFY_LOW_S then IsLowDERSignature vchSig else Ok tt);
    fail_if (has flags SCRIPT_VERIFY_STRICTENC && negb (IsDefinedHashtypeSignature vchSig)) SCRIPT_ERR_SIG_HASHTYPE.

Definition CheckPubKeyEncoding (vchPubKey : valtype) (flags : Z) (sigversion : SigVersion) : outcome unit :=
  _ ← fail_if (has flags SCRIPT_VERIFY_STRICTENC && negb (IsCompressedOrUncompressedPubKey vchPubKey)) SCRIPT_ERR_PUBKEYTYPE;
  fail_if (has flags SCRIPT_VERIFY_WITNESS_PUBKEYTYPE && bool_decide (sigversion = SIGVERSION_WITNESS_V0) &&
           negb (IsCompressedPubKey vchPubKey)) SCRIPT_ERR_WITNESS_PUBKEYTYPE.

Definition CheckMinimalPush (data : valtype) (opcode : Z) : bool :=
  if size data =? 0 then opcode =? OP_0
  else if (size data =? 1) && (at_ data 0 >=? 1) && (at_ data 0 <=? 16) then opcode =? OP_1 + (at_ data 0 - 1)
  else if (size data =? 1) && (at_ data 0 =? 0x81) then opcode =? OP_1NEGATE
  else if size data <=? 75 then opcode =? size data
  else if size data <=? 255 then opcode =? OP_PUSHDATA1
  else if size data <=? 65535 then opcode =? OP_PUSHDATA2
  else true.

(** ** Values of big-endian strings *)

Definition be_value (l : list Z) : Z := foldl (fun a x => a * 256 + x) 0 l.
Lemma be_value_from a l : foldl (fun a x => a * 256 + x) a l = a * 256 ^ size l + be_value l.
Proof.
  revert a; induction l as [|x l IH]; intros a; unfold be_value, size; simpl.
  - lia.
  - rewrite IH, (IH (0 * 256 + x)). unfold size. rewrite Nat2Z.inj_succ, Z.pow_succ_r by lia. lia.
Qed.
Lemma be_value_cons x l : be_value (x :: l) = x * 256 ^ size l + be_value l.
Proof. unfold be_value at 1; simpl. rewrite be_value_from. lia. Qed.
Lemma be_value_bound l : Forall is_byte l -> 0 <= be_value l < 256 ^ size l.
Proof.
  induction 1 as [|x l Hx Hl IH]; [done|].
  rewrite be_value_cons. unfold size, is_byte in *. cbn [length]. rewrite Nat2Z.inj_succ, Z.pow_succ_r by lia. nia.
Qed.

Definition sign_of (c : comparison) : Z := match c with Eq => 0 | Lt => -1 | Gt => 1 end.
Lemma CompareBigEndian_equal_spec c1 c2 :
  Forall is_byte c1 -> Forall is_byte c2 -> length c1 = length c2 ->
  CompareBigEndian_equal c1 c2 = sign_of (be_value c1 ?= be_value c2).
Proof.
  intros H; revert c2; induction H as [|x c1 Hx Hc1 IH]; intros [|y c2] Hc2 Hl; try done.
  inversion_clear Hc2 as [|? ? Hy Hc2']. injection Hl as Hl. cbn [CompareBigEndian_equal].
  rewrite !be_value_cons. unfold size in *. rewrite Hl.
  pose proof (be_value_bound c1 Hc1) as B1. pose proof (be_value_bound c2 Hc2') as B2. unfold size in B1, B2. rewrite Hl in B1.
  set (w := 256 ^ Z.of_nat (length c2)) in *. clearbody w.
  destruct (Z.gtb_spec x y); [|destruct (Z.gtb_spec y x)].
  - rewrite (proj2 (Z.compare_gt_iff _ _)) by nia. done.
  - rewrite (proj2 (Z.compare_lt_iff _ _)) by nia. done.
  - assert (x = y) as -> by lia. rewrite IH by (lia || done).
    f_equal. symmetry. apply Zcompare_plus_compat.
Qed.
Lemma CompareBigEndian_lead_spec n c r : Forall is_byte c -> (n <= length c)%nat ->
  match CompareBigEndian_lead n c r with
  | inl r' => r' = r /\ 256 ^ (size c - Z.of_nat n) <= be_value c
  | inr c' => be_value c' = be_value c /\ length c' = (length c - n)%nat /\ Forall is_byte c'
  end.
Proof.
  revert c; induction n as [|n IH]; intros c Hc Hn; simpl.
  - destruct c; split_and!; (done || lia).
  - destruct c as [|x c]; simpl in Hn; [lia|]. inversion_clear Hc as [|? ? Hx Hc'].
    pose proof (be_value_bound c Hc') as Hb. rewrite be_value_cons. unfold is_byte in Hx.
    destruct (Z.eqb_spec x 0) as [->|Hx0]; simpl.
    + specialize (IH c Hc' ltac:(lia)).
      destruct (CompareBigEndian_lead n c r); [|naive_solver lia].
      destruct IH as [-> IH]; split; [done|]. unfold size in *. cbn [length].
      replace (Z.of_nat (S (length c)) - Z.of_nat (S n)) with (Z.of_nat (length c) - Z.of_nat n) by lia. lia.
    + split; [done|]. unfold size in *. cbn [length].
      assert (256 ^ (Z.of_nat (S (length c)) - Z.of_nat (S n)) <= 256 ^ Z.of_nat (length c)) by (apply Z.pow_le_mono_r; lia).
      nia.
Qed.
Lemma CompareBigEndian_spec c1 c2 : Forall is_byte c1 -> Forall is_byte c2 ->
  CompareBigEndian c1 c2 = sign_of (be_value c1 ?= be_value c2).
Proof.
  intros H1 H2. unfold CompareBigEndian.
  pose proof (be_value_bound c1 H1) as B1. pose proof (be_value_bound c2 H2) as B2.
  pose proof (CompareBigEndian_lead_spec (length c1 - length c2) c1 1 H1 ltac:(lia)) as L1.
  pose proof (CompareBigEndian_lead_spec (length c2 - length c1) c2 (-1) H2 ltac:(lia)) as L2.
  destruct (le_ge_dec (length c1) (length c2)) as [Hle|Hge].
  - replace (length c1 - length c2)%nat with 0%nat in * by lia. simpl.
    replace (match c1 with [] => inr c1 | _ :: _ => inr c1 end) with (@inr Z _ c1) by (by destruct c1).
    destruct (CompareBigEndian_lead (length c2 - length c1) c2 (-1)) as [r|c2'].
    + destruct L2 as [-> L2]. unfold size in *.
      replace (Z.of_nat (length c2) - Z.of_nat (length c2 - length c1)) with (Z.of_nat (length c1)) in L2 by lia.
      rewrite (proj2 (Z.compare_lt_iff _ _)) by lia. done.
    + destruct L2 as (<- & Hl & Hb). apply CompareBigEndian_equal_spec; (done || lia).
  - replace (length c2 - length c1)%nat with 0%nat in * by lia.
    destruct (CompareBigEndian_lead (length c1 - length c2) c1 1) as [r|c1'].
    + destruct L1 as [-> L1]. unfold size in *.
      replace (Z.of_nat (length c1) - Z.of_nat (length c1 - length c2)) with (Z.of_nat (length c2)) in L1 by lia.
      rewrite (proj2 (Z.compare_gt_iff _ _)) by lia. done.
    + destruct L1 as (<- & Hl & Hb).
      replace (length c2 - length c1')%nat with 0%nat by lia. simpl.
      replace (match c2 with [] => inr c2 | _ :: _ => inr c2 end) with (@inr Z _ c2) by (by destruct c2).
      apply CompareBigEndian_equal_spec; (done || lia).
Qed.

Lemma sign_of_gt a b : (sign_of (a ?= b) >? 0) = (b <? a).
Proof. destruct (Z.compare_spec a b), (Z.ltb_spec b a); (done || lia). Qed.
Lemma sign_of_le a b : (sign_of (a ?= b) <=? 0) = (a <=? b).
Proof. destruct (Z.compare_spec a b), (Z.leb_spec a b); (done || lia). Qed.
Lemma max_order_value (half : bool) :
  be_value (if half then vchMaxModHalfOrder else vchMaxModOrder) =
  if half then (secp256k1_order - 1) / 2 else secp256k1_order - 1.
Proof. by destruct half. Qed.
Lemma max_order_bytes (half : bool) : Forall is_byte (if half then vchMaxModHalfOrder else vchMaxModOrder).
Proof. destruct half; by apply bytes_check. Qed.
Lemma CheckSignatureElement_spec vch half : Forall is_byte vch ->
  CheckSignatureElement vch half =
  (0 <? be_value vch) && (be_value vch <=? if half then (secp256k1_order - 1) / 2 else secp256k1_order - 1).
Proof.
  intros H. unfold CheckSignatureElement.
  rewrite (CompareBigEndian_spec vch []) by (done || constructor).
  rewrite (CompareBigEndian_spec vch _) by (done || apply max_order_bytes).
  rewrite sign_of_gt, sign_of_le, max_order_value. done.
Qed.

(** ** DER *)

(** A DER integer that is not negative: the shortest two's complement form of its value. *)
Definition der_integer (l : list Z) : Prop :=
  l <> [] /\ be_value l < 2 ^ (8 * size l - 1) /\ forall n, 1 <= n -> be_value l < 2 ^ (8 * n - 1) -> size l <= n.
Definition der_integer_b (l : list Z) : bool :=
  match l with
  | [] => false
  | x :: l' => (x <? 128) && negb ((x =? 0) && match l' with [] => false | y :: _ => y <? 128 end)
  end.
Lemma pow256 n : 0 <= n -> 256 ^ n = 2 ^ (8 * n).
Proof. intros Hn. change 256 with (2 ^ 8). rewrite <- Z.pow_mul_r by lia. done. Qed.
Lemma half_pow n : 1 <= n -> 2 ^ (8 * n) = 2 * 2 ^ (8 * n - 1).
Proof. intros Hn. rewrite <- Z.pow_succ_r by lia. f_equal; lia. Qed.
Lemma der_integer_dec l : Forall is_byte l -> der_integer_b l = true <-> der_integer l.
Proof.
  intros H. destruct l as [|x l]; [split; [done|by intros [? _]]|].
  inversion_clear H as [|? ? Hx Hl]. unfold is_byte in Hx.
  pose proof (be_value_bound l Hl) as Hb. unfold der_integer, der_integer_b. rewrite be_value_cons.
  pose proof (size_nonneg l) as Hp. replace (size (x :: l)) with (size l + 1) in * by (unfold size; cbn; lia).
  rewrite (pow256 (size l)) in * by lia.
  replace (8 * (size l + 1) - 1) with (8 * size l + 7) by lia. rewrite (Z.pow_add_r 2 (8 * size l) 7) by lia.
  assert (0 < 2 ^ (8 * size l)) by lia. set (w := 2 ^ (8 * size l)) in *.
  rewrite andb_true_iff, negb_true_iff, Z.ltb_lt. split.
  - intros [H1 H2]. split_and!; [done|nia|]. intros n Hn Hv.
    destruct (Z.le_gt_cases (size l + 1) n) as [|Hlt]; [done|exfalso].
    assert (2 ^ (8 * n - 1) <= 2 ^ (8 * size l - 1)) as Hm by (apply Z.pow_le_mono_r; lia).
    pose proof (half_pow (size l) ltac:(lia)) as Hh. fold w in Hh.
    destruct (Z.eqb_spec x 0) as [->|]; [|nia].
    destruct l as [|y l]; [unfold size in *; cbn in *; lia|]. cbn [andb] in H2. apply Z.ltb_ge in H2.
    rewrite be_value_cons in Hv. inversion_clear Hl as [|? ? Hy Hl'].
    pose proof (be_value_bound l Hl') as Hb'. rewrite (pow256 (size l)) in * by apply size_nonneg.
    replace (8 * size (y :: l) - 1) with (8 * size l + 7) in Hm by (unfold size; cbn; lia).
    rewrite (Z.pow_add_r 2 (8 * size l) 7) in Hm by (pose proof (size_nonneg l); lia). nia.
  - intros (_ & Hv & Hmin). split; [nia|].
    destruct (Z.eqb_spec x 0) as [->|]; [cbn [andb]|done].
    destruct l as [|y l]; [done|]. apply Z.ltb_ge. destruct (Z.le_gt_cases 128 y) as [|Hlt]; [done|exfalso].
    inversion_clear Hl as [|? ? Hy Hl']. unfold is_byte in Hy.
    pose proof (be_value_bound l Hl') as Hb'. rewrite be_value_cons, (pow256 (size l)) in * by apply size_nonneg.
    specialize (Hmin (size (y :: l))). replace (8 * size (y :: l) - 1) with (8 * size l + 7) in Hmin by (unfold size; cbn; lia).
    rewrite (Z.pow_add_r 2 (8 * size l) 7) in Hmin by (pose proof (size_nonneg l); lia).
    assert (1 <= size (y :: l)) by (unfold size; cbn; lia). nia.
Qed.

(** <30> <total len> <02> <len R> <R> <02> <len S> <S> <hashtype> *)
Definition der_signature (R S : list Z) (hashtype : Z) : valtype :=
  [0x30; size R + size S + 4; 0x02; size R] ++ R ++ [0x02; size S] ++ S ++ [hashtype].
Lemma der_size R S h : size (der_signature R S h) = size R + size S + 7.
Proof. unfold der_signature. rewrite !size_app. unfold size; cbn [length]. lia. Qed.
Lemma der_at_R R S h i : (i < length R)%nat -> at_ (der_signature R S h) (4 + i) = at_ R i.
Proof. intros H. unfold at_, der_signature. cbn [app nth Nat.add]. by rewrite app_nth1 by lia. Qed.
Lemma der_at_S R S h i : (i < length S)%nat -> at_ (der_signature R S h) (length R + 6 + i) = at_ S i.
Proof.
  intros H. unfold at_, der_signature. cbn [app].
  replace (length R + 6 + i)%nat with (4 + (length R + (2 + i)))%nat by lia. cbn [nth Nat.add].
  rewrite app_nth2 by lia. replace (length R + Datatypes.S (Datatypes.S i) - length R)%nat with (2 + i)%nat by lia.
  cbn [nth Nat.add]. by rewrite app_nth1 by lia.
Qed.
Lemma der_byte_R R S h : at_ (der_signature R S h) 3 = size R. Proof. done. Qed.
Lemma der_byte_S R S h : at_ (der_signature R S h) (length R + 5) = size S.
Proof.
  unfold at_, der_signature. cbn [app]. replace (length R + 5)%nat with (4 + (length R + 1))%nat by lia.
  cbn [nth Nat.add]. rewrite app_nth2 by lia. replace (length R + 1 - length R)%nat with 1%nat by lia. done.
Qed.
Lemma der_tag_S R S h : at_ (der_signature R S h) (length R + 4) = 0x02.
Proof.
  unfold at_, der_signature. cbn [app]. replace (length R + 4)%nat with (4 + (length R + 0))%nat by lia.
  cbn [nth Nat.add]. rewrite app_nth2 by lia. replace (length R + 0 - length R)%nat with 0%nat by lia. done.
Qed.
Lemma der_integer_b_at l : Forall is_byte l ->
  der_integer_b l = negb ((size l =? 0) || negb (Z.land (at_ l 0) 0x80 =? 0) ||
                          ((size l >? 1) && (at_ l 0 =? 0) && (Z.land (at_ l 1) 0x80 =? 0))).
Proof.
  intros H. destruct l as [|x l]; [done|]. inversion_clear H as [|? ? Hx Hl]. cbn [at_ nth].
  rewrite (land_top x Hx). unfold at_; cbn [nth].
  destruct l as [|y l].
  - unfold der_integer_b, size; cbn. destruct (Z.ltb_spec x 128), (Z.geb_spec x 128), (x =? 0); (done || lia).
  - inversion_clear Hl as [|? ? Hy Hl']. cbn [nth].
    assert ((Z.land y 0x80 =? 0) = (y <? 128)) as ->.
    { pose proof (land_top y Hy) as Ht. destruct (Z.land y 0x80 =? 0), (Z.geb_spec y 128), (Z.ltb_spec y 128); (done || lia). }
    unfold der_integer_b, size. cbn [length].
    replace (Z.of_nat (Datatypes.S (Datatypes.S (length l))) =? 0) with false by (symmetry; apply Z.eqb_neq; lia).
    replace (Z.of_nat (Datatypes.S (Datatypes.S (length l))) >? 1) with true by (symmetry; apply Z.gtb_gt; lia).
    destruct (Z.ltb_spec x 128), (Z.geb_spec x 128), (x =? 0), (y <? 128); (done || lia).
Qed.

(** The order of the checks does not matter. *)
Lemma IsValidSignatureEncoding_der R S h : Forall is_byte R -> Forall is_byte S ->
  IsValidSignatureEncoding (der_signature R S h) = (size R + size S + 7 <=? 73) && der_integer_b R && der_integer_b S.
Proof.
  intros HR HS. unfold IsValidSignatureEncoding. cbn zeta. rewrite der_size.
  pose proof (size_nonneg R) as PR. pose proof (size_nonneg S) as PS.
  replace (Z.to_nat 3) with 3%nat by lia. rewrite der_byte_R.
  replace (Z.to_nat (5 + size R)) with (length R + 5)%nat by (unfold size; lia). rewrite der_byte_S.
  replace (Z.to_nat (size R + 4)) with (length R + 4)%nat by (unfold size; lia). rewrite der_tag_S.
  change (at_ (der_signature R S h) (Z.to_nat 0)) with 0x30.
  change (at_ (der_signature R S h) (Z.to_nat 1)) with (size R + size S + 4).
  change (at_ (der_signature R S h) (Z.to_nat 2)) with 0x02.
  rewrite (der_integer_b_at R HR), (der_integer_b_at S HS).
  destruct (Z.eqb_spec (size R) 0) as [ER|ER].
  { rewrite andb_false_r, andb_false_l. repeat (case_match; try done; try lia). }
  destruct (Z.eqb_spec (size S) 0) as [ES|ES].
  { rewrite andb_false_r. repeat (case_match; try done; try lia). }
  replace (size R + size S + 7 <? 9) with false by (symmetry; apply Z.ltb_ge; lia).
  replace (Z.to_nat 4) with (4 + 0)%nat by lia. rewrite der_at_R by (unfold size in *; lia).
  replace (Z.to_nat (size R + 6)) with (length R + 6 + 0)%nat by (unfold size; lia). rewrite der_at_S by (unfold size in *; lia).
  assert (((size R >? 1) && (at_ R 0 =? 0) && (Z.land (at_ (der_signature R S h) (Z.to_nat 5)) 0x80 =? 0)) =
          ((size R >? 1) && (at_ R 0 =? 0) && (Z.land (at_ R 1) 0x80 =? 0))) as ->.
  { destruct (Z.gtb_spec (size R) 1); [|done]. replace (Z.to_nat 5) with (4 + 1)%nat by lia.
    rewrite der_at_R by (unfold size in *; lia). done. }
  assert (((size S >? 1) && (at_ S 0 =? 0) && (Z.land (at_ (der_signature R S h) (Z.to_nat (size R + 7))) 0x80 =? 0)) =
          ((size S >? 1) && (at_ S 0 =? 0) && (Z.land (at_ S 1) 0x80 =? 0))) as ->.
  { destruct (Z.gtb_spec (size S) 1); [|done]. replace (Z.to_nat (size R + 7)) with (length R + 6 + 1)%nat by (unfold size in *; lia).
    rewrite der_at_S by (unfold size in *; lia). done. }
  change (0x30 =? 0x30) with true. change (0x02 =? 0x02) with true. cbn [negb].
  replace (size R + size S + 4 =? size R + size S + 7 - 3) with true by (symmetry; apply Z.eqb_eq; lia).
  rewrite Z.eqb_refl. replace (5 + size R >=? size R + size S + 7) with false by (symmetry; apply not_true_is_false; rewrite Z.geb_le; lia).
  cbn [negb orb].
  destruct (Z.gtb_spec (size R + size S + 7) 73), (Z.leb_spec (size R + size S + 7) 73); try lia; try done.
  repeat match goal with |- context [negb (Z.land ?a ?b =? 0)] => destruct (Z.land a b =? 0) end; cbn [negb orb andb];
  repeat match goal with |- context [if ?b then _ else _] => destruct b end; done.
Qed.
Lemma at_byte l i : Forall is_byte l -> is_byte (at_ l i).
Proof.
  intros H. unfold at_. destruct (le_lt_dec (length l) i).
  - rewrite nth_overflow by done. unfold is_byte; lia.
  - by apply Forall_nth.
Qed.
Lemma der_shape sig : Forall is_byte sig -> IsValidSignatureEncoding sig = true ->
  exists R S h, sig = der_signature R S h.
Proof.
  unfold IsValidSignatureEncoding. cbn zeta. intros Hb H.
  destruct (Z.ltb_spec (size sig) 9) as [|L9]; [done|]. destruct (size sig >? 73); [done|].
  destruct sig as [|b0 [|b1 [|b2 [|b3 t]]]]; try (unfold size in *; cbn in *; lia).
  destruct (Z.eqb_spec (at_ (b0 :: b1 :: b2 :: b3 :: t) (Z.to_nat 0)) 0x30) as [E0|]; [|done].
  destruct (Z.eqb_spec (at_ (b0 :: b1 :: b2 :: b3 :: t) (Z.to_nat 1)) (size (b0 :: b1 :: b2 :: b3 :: t) - 3)) as [E1|]; [|done].
  cbn [negb] in H. change (at_ (b0 :: b1 :: b2 :: b3 :: t) (Z.to_nat 3)) with b3 in H.
  change (at_ _ _) with b0 in E0. change (at_ _ _) with b1 in E1.
  destruct (Z.geb_spec (5 + b3) (size (b0 :: b1 :: b2 :: b3 :: t))) as [|L5]; [done|].
  assert (is_byte b3) as B3 by (apply (at_byte _ 3) in Hb; done). unfold is_byte in B3.
  replace (Z.to_nat (5 + b3)) with (4 + (Z.to_nat b3 + 1))%nat in H by lia.
  replace (Z.to_nat (b3 + 4)) with (4 + Z.to_nat b3)%nat in H by lia.
  unfold at_ in H. cbn [nth Nat.add] in H. replace (Z.to_nat b3 + 1)%nat with (Datatypes.S (Z.to_nat b3)) in H by lia.
  assert (size (b0 :: b1 :: b2 :: b3 :: t) = size t + 4) as Es by (unfold size; cbn [length]; lia). rewrite Es in *.
  destruct (Z.eqb_spec (b3 + nth (Datatypes.S (Z.to_nat b3)) t 0 + 7) (size t + 4)) as [E7|]; [|done].
  change (Z.to_nat 2) with 2%nat in H. cbn [nth negb] in H.
  destruct (Z.eqb_spec b2 0x02) as [->|]; [|done]. cbn [negb] in H.
  destruct (b3 =? 0); [done|]. destruct (negb (Z.land _ _ =? 0)); [done|]. destruct (_ && _ && _); [done|].
  destruct (Z.eqb_spec (nth (Z.to_nat b3) t 0) 0x02) as [E2|]; [|done]. clear H.
  set (R := take (Z.to_nat b3) t). set (u := drop (Z.to_nat b3) t).
  assert (t = R ++ u) as Et by (symmetry; apply take_drop).
  assert (length R = Z.to_nat b3) as LR by (apply length_take_le; unfold size in *; lia).
  assert (length u = (length t - Z.to_nat b3)%nat) as Lu by apply length_drop. clearbody R u. subst t.
  rewrite app_nth2 in E2, E7 by lia. rewrite LR in *.
  replace (Z.to_nat b3 - Z.to_nat b3)%nat with 0%nat in E2 by lia.
  replace (Datatypes.S (Z.to_nat b3) - Z.to_nat b3)%nat with 1%nat in E7 by lia.
  assert (is_byte (nth 1 u 0)) as Bs.
  { apply at_byte. apply (Forall_drop _ (4 + length R)) in Hb. cbn [drop Nat.add] in Hb. by rewrite drop_app_length in Hb. }
  unfold is_byte in Bs. rewrite size_app in *. unfold size in *.
  destruct u as [|x [|y v]]; cbn [nth length] in *; try lia.
  assert (v <> []) as Nv by (intros ->; cbn [length] in *; lia).
  destruct (exists_last Nv) as (S & h & ->). rewrite length_app in *. cbn [length] in *.
  exists R, S, h. unfold der_signature, size. cbn [app].
  replace b3 with (Z.of_nat (length R)) in * by lia. replace y with (Z.of_nat (length S)) in * by lia.
  rewrite E0, E1, E2. repeat f_equal; lia.
Qed.

Lemma der_bytes R S h : Forall is_byte (der_signature R S h) -> Forall is_byte R /\ Forall is_byte S.
Proof.
  unfold der_signature. rewrite !Forall_app. by intros (_ & ? & _ & ? & _).
Qed.

(** A signature passes the encoding check exactly when it has the form
    <30> <total len> <02> <len R> <R> <02> <len S> <S> <hashtype> with at most 73 bytes,
    where R and S are the shortest non-negative two's complement encodings of their
    values; and on such a signature the low-S check accepts exactly 0 < S <= (n - 1) / 2
    for the order n of secp256k1. *)
Theorem signature_encoding_correct (sig : valtype) (Hb : Forall is_byte sig) :
  (IsValidSignatureEncoding sig = true <->
   exists R S hashtype, sig = der_signature R S hashtype /\ der_integer R /\ der_integer S /\ size sig <= 73) /\
  (IsLowDERSignature sig =
   match bool_decide (IsValidSignatureEncoding sig = true) with
   | false => Err SCRIPT_ERR_SIG_DER
   | true => let S := take (Z.to_nat (at_ sig (Z.to_nat (5 + at_ sig 3)))) (drop (Z.to_nat (6 + at_ sig 3)) sig) in
             if (0 <? be_value S) && (be_value S <=? (secp256k1_order - 1) / 2) then Ok tt else Err SCRIPT_ERR_SIG_HIGH_S
   end) /\
  (forall R S hashtype, sig = der_signature R S hashtype ->
   take (Z.to_nat (at_ sig (Z.to_nat (5 + at_ sig 3)))) (drop (Z.to_nat (6 + at_ sig 3)) sig) = S).
Proof.
  split_and!.
  - split.
    + intros H. destruct (der_shape sig Hb H) as (R & S & h & ->).
      assert (Forall is_byte R /\ Forall is_byte S) as [HR HS] by (by apply der_bytes in Hb).
      rewrite IsValidSignatureEncoding_der in H by done.
      apply andb_true_iff in H as [H H3]. apply andb_true_iff in H as [H1 H2]. apply Z.leb_le in H1.
      exists R, S, h. rewrite der_size. by split_and!; try apply der_integer_dec.
    + intros (R & S & h & -> & H1 & H2 & H3). rewrite der_size in H3.
      assert (Forall is_byte R /\ Forall is_byte S) as [HR HS] by (by apply der_bytes in Hb).
      rewrite IsValidSignatureEncoding_der by done. apply der_integer_dec in H1, H2; [|done..].
      rewrite H1, H2. by rewrite (proj2 (Z.leb_le _ _)) by lia.
  - unfold IsLowDERSignature. case_bool_decide as E; [rewrite E|by rewrite (not_true_is_false _ E)]. cbn [negb].
    replace (5 + Z.to_nat (at_ sig 3))%nat with (Z.to_nat (5 + at_ sig 3))
      by (pose proof (at_byte sig 3 Hb); unfold is_byte in *; lia).
    replace (6 + Z.to_nat (at_ sig 3))%nat with (Z.to_nat (6 + at_ sig 3))
      by (pose proof (at_byte sig 3 Hb); unfold is_byte in *; lia).
    rewrite CheckSignatureElement_spec by (by apply Forall_take, Forall_drop).
    by destruct (_ && _).
  - intros R S h ->. rewrite der_byte_R.
    replace (Z.to_nat (5 + size R)) with (length R + 5)%nat by (unfold size; lia). rewrite der_byte_S.
    replace (Z.to_nat (6 + size R)) with (4 + (length R + 2))%nat by (unfold size; lia).
    unfold der_signature. cbn [app drop Nat.add]. rewrite drop_app_add. cbn [drop].
    unfold size. rewrite Nat2Z.id. apply take_app_length.
Qed.
(** A signature of 71 bytes with 32-byte R and S, and S = 1. *)
Lemma signature_encoding_correct_witness :
  IsValidSignatureEncoding (der_signature (1 :: replicate 31 7) [1] 1) = true /\
  IsLowDERSignature (der_signature (1 :: replicate 31 7) [1] 1) = Ok tt.
Proof.
  split; [|vm_compute; reflexivity].
  apply (signature_encoding_correct (der_signature (1 :: replicate 31 7) [1] 1)).
  - by apply bytes_check.
  - exists (1 :: replicate 31 7), [1], 1. split; [reflexivity|].
    rewrite <- !der_integer_dec by (by apply bytes_check). split_and!; vm_compute; done.
Defined.
