(* ===== verification/Interp.v ===== *)
(** The script interpreter: [EvalScript] and [VerifyScript] of
    [src/src/script/interpreter.cpp]. The stack machine's state is a record whose stacks are
    lists with the top first; the switch over opcodes is split by the groups its
    comments name; signature checks go through the class [BaseSignatureChecker], as in
    the code. *)
From S2P Require Import Prelude Stream Sha2 Sha1 Ripemd160 Hashers Script SigChecks.

(** The virtual functions of [BaseSignatureChecker]. *)
Class BaseSignatureChecker := {
  CheckSig : valtype -> valtype -> CScript -> SigVersion -> bool;
  CheckLockTime : Z -> bool;
  CheckSequence : Z -> bool;
}.

(** The class's own bodies: nothing is accepted. *)
Definition base_checker : BaseSignatureChecker := {|
  CheckSig := fun _ _ _ _ => false;
  CheckLockTime := fun _ => false;
  CheckSequence := fun _ => false;
|}.

(** The locals of [EvalScript]; [vfExec] has its back first. *)
Record estate := mkEstate {
  stack : list valtype;
  altstack : list valtype;
  vfExec : list bool;
  pbegincodehash : CScript;
  nOpCount : Z;
}.
Definition set_stack (st : estate) (s : list valtype) : estate :=
  mkEstate s (altstack st) (vfExec st) (pbegincodehash st) (nOpCount st).
Definition set_vfExec (st : estate) (v : list bool) : estate :=
  mkEstate (stack st) (altstack st) v (pbegincodehash st) (nOpCount st).

Definition vchFalse : valtype := [].
Definition vchTrue : valtype := [1].
Definition vch_bool (b : bool) : valtype := if b then vchTrue else vchFalse.

(** An exception thrown inside the [try] block. *)
Definition throw {A} : outcome A := Err SCRIPT_ERR_UNKNOWN_ERROR.
(** [stacktop(-i)] *)
Definition stacktop (s : list valtype) (i : Z) : outcome valtype :=
  if i <? 1 then throw else match s !! Z.to_nat (i - 1) with Some v => Ok v | None => throw end.
Definition popstack (s : list valtype) : outcome (list valtype) :=
  match s with [] => throw | _ :: s => Ok s end.
Definition num (vch : valtype) (fRequireMinimal : bool) (nMaxNumSize : Z) : outcome Z :=
  match CScriptNum vch fRequireMinimal nMaxNumSize with Some n => Ok n | None => throw end.

Definition INT64_MIN : Z := - 2 ^ 63.
Definition INT64_MAX : Z := 2 ^ 63 - 1.
(** [bn += rhs], [bn -= rhs] and [-bn], with their assertions. *)
Definition num_add_assign (m_value rhs : Z) : outcome Z :=
  if (rhs =? 0) || ((rhs >? 0) && (m_value <=? INT64_MAX - rhs)) || ((rhs <? 0) && (m_value >=? INT64_MIN - rhs))
  then Ok (m_value + rhs) else Abort.
Definition num_sub_assign (m_value rhs : Z) : outcome Z :=
  if (rhs =? 0) || ((rhs >? 0) && (m_value >=? INT64_MIN + rhs)) || ((rhs <? 0) && (m_value <=? INT64_MAX + rhs))
  then Ok (m_value - rhs) else Abort.
Definition num_opp (m_value : Z) : outcome Z := if m_value =? INT64_MIN then Abort else Ok (- m_value).

Definition disabled (opcode : Z) : bool :=
  (opcode =? OP_CAT) || (opcode =? OP_SUBSTR) || (opcode =? OP_LEFT) || (opcode =? OP_RIGHT) ||
  (opcode =? OP_INVERT) || (opcode =? OP_AND) || (opcode =? OP_OR) || (opcode =? OP_XOR) ||
  (opcode =? OP_2MUL) || (opcode =? OP_2DIV) || (opcode =? OP_MUL) || (opcode =? OP_DIV) ||
  (opcode =? OP_MOD) || (opcode =? OP_LSHIFT) || (opcode =? OP_RSHIFT).

Section interp.
Context `{checker : BaseSignatureChecker}.

(** *** Control *)

Definition op_checklocktimeverify (flags : Z) (fRequireMinimal : bool) (st : estate) : outcome estate :=
  if negb (has flags SCRIPT_VERIFY_CHECKLOCKTIMEVERIFY) then
    _ ← fail_if (has flags SCRIPT_VERIFY_DISCOURAGE_UPGRADABLE_NOPS) SCRIPT_ERR_DISCOURAGE_UPGRADABLE_NOPS;
    Ok st
  else
    match stack st with
    | [] => Err SCRIPT_ERR_INVALID_STACK_OPERATION
    | top :: _ =>
        nLockTime ← num top fRequireMinimal 5;
        _ ← fail_if (nLockTime <? 0) SCRIPT_ERR_NEGATIVE_LOCKTIME;
        _ ← fail_if (negb (CheckLockTime nLockTime)) SCRIPT_ERR_UNSATISFIED_LOCKTIME;
        Ok st
    end.

Definition SEQUENCE_LOCKTIME_DISABLE_FLAG : Z := 2 ^ 31.
Definition op_checksequenceverify (flags : Z) (fRequireMinimal : bool) (st : estate) : outcome estate :=
  if negb (has flags SCRIPT_VERIFY_CHECKSEQUENCEVERIFY) then
    _ ← fail_if (has flags SCRIPT_VERIFY_DISCOURAGE_UPGRADABLE_NOPS) SCRIPT_ERR_DISCOURAGE_UPGRADABLE_NOPS;
    Ok st
  else
    match stack st with
    | [] => Err SCRIPT_ERR_INVALID_STACK_OPERATION
    | top :: _ =>
        nSequence ← num top fRequireMinimal 5;
        _ ← fail_if (nSequence <? 0) SCRIPT_ERR_NEGATIVE_LOCKTIME;
        if negb (Z.land nSequence SEQUENCE_LOCKTIME_DISABLE_FLAG =? 0) then Ok st
        else
          _ ← fail_if (negb (CheckSequence nSequence)) SCRIPT_ERR_UNSATISFIED_LOCKTIME;
          Ok st
    end.

Definition op_if (opcode : Z) (fExec : bool) (st : estate) : outcome estate :=
  if fExec then
    match stack st with
    | [] => Err SCRIPT_ERR_UNBALANCED_CONDITIONAL
    | vch :: s =>
        let fValue := CastToBool vch in
        let fValue := if opcode =? OP_NOTIF then negb fValue else fValue in
        Ok (set_vfExec (set_stack st s) (fValue :: vfExec st))
    end
  else Ok (set_vfExec st (false :: vfExec st)).

(** The group "Control" of the switch; [None] when the opcode is not of it. *)
Definition op_control (flags : Z) (fRequireMinimal : bool) (opcode : Z) (fExec : bool) (st : estate)
  : option (outcome estate) :=
  if opcode =? OP_NOP then Some (Ok st)
  else if opcode =? OP_CHECKLOCKTIMEVERIFY then Some (op_checklocktimeverify flags fRequireMinimal st)
  else if opcode =? OP_CHECKSEQUENCEVERIFY then Some (op_checksequenceverify flags fRequireMinimal st)
  else if (opcode =? OP_NOP1) || ((OP_NOP4 <=? opcode) && (opcode <=? OP_NOP10)) then
    Some (_ ← fail_if (has flags SCRIPT_VERIFY_DISCOURAGE_UPGRADABLE_NOPS) SCRIPT_ERR_DISCOURAGE_UPGRADABLE_NOPS; Ok st)
  else if (opcode =? OP_IF) || (opcode =? OP_NOTIF) then Some (op_if opcode fExec st)
  else if opcode =? OP_ELSE then
    Some (match vfExec st with
          | [] => Err SCRIPT_ERR_UNBALANCED_CONDITIONAL
          | b :: v => Ok (set_vfExec st (negb b :: v))
          end)
  else if opcode =? OP_ENDIF then
    Some (match vfExec st with
          | [] => Err SCRIPT_ERR_UNBALANCED_CONDITIONAL
          | _ :: v => Ok (set_vfExec st v)
          end)
  else if opcode =? OP_VERIFY then
    Some (match stack st with
          | [] => Err SCRIPT_ERR_INVALID_STACK_OPERATION
          | vch :: s => if CastToBool vch then Ok (set_stack st s) else Err SCRIPT_ERR_VERIFY
          end)
  else if opcode =? OP_RETURN then Some (Err SCRIPT_ERR_OP_RETURN)
  else None.

(** *** Stack ops *)

Definition op_pick_roll (fRequireMinimal : bool) (opcode : Z) (st : estate) : outcome estate :=
  match stack st with
  | top :: (_ :: _) as s =>
      n ← num top fRequireMinimal nDefaultMaxNumSize;
      let n := getint n in
      s ← popstack (stack st);
      if (n <? 0) || (n >=? i32 (size s)) then Err SCRIPT_ERR_INVALID_STACK_OPERATION
      else
        vch ← stacktop s (n + 1);
        let s := if opcode =? OP_ROLL then take (Z.to_nat n) s ++ drop (S (Z.to_nat n)) s else s in
        Ok (set_stack st (vch :: s))
  | _ => Err SCRIPT_ERR_INVALID_STACK_OPERATION
  end.

Definition op_stack (fRequireMinimal : bool) (opcode : Z) (st : estate) : option (outcome estate) :=
  let s := stack st in
  let invalid := Err SCRIPT_ERR_INVALID_STACK_OPERATION in
  let put s := Ok (set_stack st s) in
  if opcode =? OP_TOALTSTACK then
    Some (match s with
          | x :: s => Ok (mkEstate s (x :: altstack st) (vfExec st) (pbegincodehash st) (nOpCount st))
          | _ => invalid end)
  else if opcode =? OP_FROMALTSTACK then
    Some (match altstack st with
          | x :: a => Ok (mkEstate (x :: s) a (vfExec st) (pbegincodehash st) (nOpCount st))
          | _ => Err SCRIPT_ERR_INVALID_ALTSTACK_OPERATION end)
  else if opcode =? OP_2DROP then Some (match s with _ :: _ :: s => put s | _ => invalid end)
  else if opcode =? OP_2DUP then Some (match s with x2 :: x1 :: _ => put (x2 :: x1 :: s) | _ => invalid end)
  else if opcode =? OP_3DUP then Some (match s with x3 :: x2 :: x1 :: _ => put (x3 :: x2 :: x1 :: s) | _ => invalid end)
  else if opcode =? OP_2OVER then Some (match s with _ :: _ :: x2 :: x1 :: _ => put (x2 :: x1 :: s) | _ => invalid end)
  else if opcode =? OP_2ROT then
    Some (match s with x6 :: x5 :: x4 :: x3 :: x2 :: x1 :: s => put (x2 :: x1 :: x6 :: x5 :: x4 :: x3 :: s) | _ => invalid end)
  else if opcode =? OP_2SWAP then
    Some (match s with x4 :: x3 :: x2 :: x1 :: s => put (x2 :: x1 :: x4 :: x3 :: s) | _ => invalid end)
  else if opcode =? OP_IFDUP then
    Some (match s with x :: _ => put (if CastToBool x then x :: s else s) | _ => invalid end)
  else if opcode =? OP_DEPTH then Some (put (serialize (size s) :: s))
  else if opcode =? OP_DROP then Some (match s with _ :: s => put s | _ => invalid end)
  else if opcode =? OP_DUP then Some (match s with x :: _ => put (x :: s) | _ => invalid end)
  else if opcode =? OP_NIP then Some (match s with x2 :: _ :: s => put (x2 :: s) | _ => invalid end)
  else if opcode =? OP_OVER then Some (match s with _ :: x1 :: _ => put (x1 :: s) | _ => invalid end)
  else if (opcode =? OP_PICK) || (opcode =? OP_ROLL) then Some (op_pick_roll fRequireMinimal opcode st)
  else if opcode =? OP_ROT then
    Some (match s with x3 :: x2 :: x1 :: s => put (x1 :: x3 :: x2 :: s) | _ => invalid end)
  else if opcode =? OP_SWAP then Some (match s with x2 :: x1 :: s => put (x1 :: x2 :: s) | _ => invalid end)
  else if opcode =? OP_TUCK then Some (match s with x2 :: x1 :: s => put (x2 :: x1 :: x2 :: s) | _ => invalid end)
  else if opcode =? OP_SIZE then Some (match s with x :: _ => put (serialize (size x) :: s) | _ => invalid end)
  else None.

(** *** Bitwise logic and numeric *)

Definition op_equal (opcode : Z) (st : estate) : outcome estate :=
  match stack st with
  | vch2 :: vch1 :: s =>
      let fEqual := bool_decide (vch1 = vch2) in
      if opcode =? OP_EQUALVERIFY then
        if fEqual then Ok (set_stack st s) else Err SCRIPT_ERR_EQUALVERIFY
      else Ok (set_stack st (vch_bool fEqual :: s))
  | _ => Err SCRIPT_ERR_INVALID_STACK_OPERATION
  end.

Definition op_unary (fRequireMinimal : bool) (opcode : Z) (st : estate) : outcome estate :=
  match stack st with
  | top :: s =>
      bn ← num top fRequireMinimal nDefaultMaxNumSize;
      bn ← (if opcode =? OP_1ADD then num_add_assign bn 1
            else if opcode =? OP_1SUB then num_sub_assign bn 1
            else if opcode =? OP_NEGATE then num_opp bn
            else if opcode =? OP_ABS then (if bn <? 0 then num_opp bn else Ok bn)
            else if opcode =? OP_NOT then Ok (Z.b2z (bn =? 0))
            else if opcode =? OP_0NOTEQUAL then Ok (Z.b2z (negb (bn =? 0)))
            else Abort);
      Ok (set_stack st (serialize bn :: s))
  | _ => Err SCRIPT_ERR_INVALID_STACK_OPERATION
  end.

Definition op_binary (fRequireMinimal : bool) (opcode : Z) (st : estate) : outcome estate :=
  match stack st with
  | x2 :: x1 :: s =>
      bn1 ← num x1 fRequireMinimal nDefaultMaxNumSize;
      bn2 ← num x2 fRequireMinimal nDefaultMaxNumSize;
      bn ← (if opcode =? OP_ADD then Ok (i64 (bn1 + bn2))
            else if opcode =? OP_SUB then Ok (i64 (bn1 - bn2))
            else if opcode =? OP_BOOLAND then Ok (Z.b2z (negb (bn1 =? 0) && negb (bn2 =? 0)))
            else if opcode =? OP_BOOLOR then Ok (Z.b2z (negb (bn1 =? 0) || negb (bn2 =? 0)))
            else if (opcode =? OP_NUMEQUAL) || (opcode =? OP_NUMEQUALVERIFY) then Ok (Z.b2z (bn1 =? bn2))
            else if opcode =? OP_NUMNOTEQUAL then Ok (Z.b2z (negb (bn1 =? bn2)))
            else if opcode =? OP_LESSTHAN then Ok (Z.b2z (bn1 <? bn2))
            else if opcode =? OP_GREATERTHAN then Ok (Z.b2z (bn1 >? bn2))
            else if opcode =? OP_LESSTHANOREQUAL then Ok (Z.b2z (bn1 <=? bn2))
            else if opcode =? OP_GREATERTHANOREQUAL then Ok (Z.b2z (bn1 >=? bn2))
            else if opcode =? OP_MIN then Ok (if bn1 <? bn2 then bn1 else bn2)
            else if opcode =? OP_MAX then Ok (if bn1 >? bn2 then bn1 else bn2)
            else Abort);
      if opcode =? OP_NUMEQUALVERIFY then
        if CastToBool (serialize bn) then Ok (set_stack st s) else Err SCRIPT_ERR_NUMEQUALVERIFY
      else Ok (set_stack st (serialize bn :: s))
  | _ => Err SCRIPT_ERR_INVALID_STACK_OPERATION
  end.

Definition op_within (fRequireMinimal : bool) (st : estate) : outcome estate :=
  match stack st with
  | x3 :: x2 :: x1 :: s =>
      bn1 ← num x1 fRequireMinimal nDefaultMaxNumSize;
      bn2 ← num x2 fRequireMinimal nDefaultMaxNumSize;
      bn3 ← num x3 fRequireMinimal nDefaultMaxNumSize;
      Ok (set_stack st (vch_bool ((bn2 <=? bn1) && (bn1 <? bn3)) :: s))
  | _ => Err SCRIPT_ERR_INVALID_STACK_OPERATION
  end.

Definition op_numeric (fRequireMinimal : bool) (opcode : Z) (st : estate) : option (outcome estate) :=
  if (opcode =? OP_EQUAL) || (opcode =? OP_EQUALVERIFY) then Some (op_equal opcode st)
  else if (opcode =? OP_1ADD) || (opcode =? OP_1SUB) || (opcode =? OP_NEGATE) || (opcode =? OP_ABS) ||
          (opcode =? OP_NOT) || (opcode =? OP_0NOTEQUAL) then Some (op_unary fRequireMinimal opcode st)
  else if (opcode =? OP_ADD) || (opcode =? OP_SUB) || ((OP_BOOLAND <=? opcode) && (opcode <=? OP_MAX)) then
    Some (op_binary fRequireMinimal opcode st)
  else if opcode =? OP_WITHIN then Some (op_within fRequireMinimal st)
  else None.

(** *** Crypto *)

(** [X().Write(...).Finalize(...)] on one element. *)
Definition hash_once (A : Algo) (vch : valtype) : valtype := snd (Finalize A (Write A (fresh A) vch)).
Definition op_hash (opcode : Z) (st : estate) : outcome estate :=
  match stack st with
  | vch :: s =>
      let vchHash :=
        if opcode =? OP_RIPEMD160 then hash_once CRIPEMD160 vch
        else if opcode =? OP_SHA1 then hash_once CSHA1 vch
        else if opcode =? OP_SHA256 then hash_once CSHA256 vch
        else if opcode =? OP_HASH160 then CHash160_Finalize (CHash160_Write (fresh CSHA256) vch)
        else CHash256_Finalize (CHash256_Write (fresh CSHA256) vch) in
      Ok (set_stack st (vchHash :: s))
  | _ => Err SCRIPT_ERR_INVALID_STACK_OPERATION
  end.

Definition op_codeseparator (pc : CScript) (st : estate) : outcome estate :=
  Ok (mkEstate (stack st) (altstack st) (vfExec st) pc (nOpCount st)).

Definition op_checksig (flags : Z) (sigversion : SigVersion) (opcode : Z) (st : estate) : outcome estate :=
  match stack st with
  | vchPubKey :: vchSig :: s =>
      let scriptCode := pbegincodehash st in
      let scriptCode :=
        if bool_decide (sigversion = SIGVERSION_BASE) then fst (FindAndDelete scriptCode (push_data [] vchSig))
        else scriptCode in
      _ ← CheckSignatureEncoding vchSig flags;
      _ ← CheckPubKeyEncoding vchPubKey flags sigversion;
      let fSuccess := CheckSig vchSig vchPubKey scriptCode sigversion in
      if opcode =? OP_CHECKSIGVERIFY then
        if fSuccess then Ok (set_stack st s) else Err SCRIPT_ERR_CHECKSIGVERIFY
      else Ok (set_stack st (vch_bool fSuccess :: s))
  | _ => Err SCRIPT_ERR_INVALID_STACK_OPERATION
  end.

(** [for (int k = 0; k < nSigsCount; k++)]: the signatures are dropped from the script. *)
Fixpoint drop_signatures (n : nat) (k isig : Z) (s : list valtype) (scriptCode : CScript) : outcome CScript :=
  match n with
  | O => Ok scriptCode
  | S n' =>
      vchSig ← stacktop s (isig + k);
      drop_signatures n' (k + 1) isig s (fst (FindAndDelete scriptCode (push_data [] vchSig)))
  end.

(** [while (fSuccess && nSigsCount > 0)]; every round uses up a key, [nKeysCount] bounds
    the rounds. *)
Fixpoint match_signatures (fuel : nat) (flags : Z) (sigversion : SigVersion) (s : list valtype) (scriptCode : CScript)
    (isig ikey nSigsCount nKeysCount : Z) : outcome bool :=
  if nSigsCount >? 0 then
    match fuel with
    | O => Ok false
    | S fuel' =>
        vchSig ← stacktop s isig;
        vchPubKey ← stacktop s ikey;
        _ ← CheckSignatureEncoding vchSig flags;
        _ ← CheckPubKeyEncoding vchPubKey flags sigversion;
        let fOk := CheckSig vchSig vchPubKey scriptCode sigversion in
        let isig := if fOk then isig + 1 else isig in
        let nSigsCount := if fOk then nSigsCount - 1 else nSigsCount in
        let ikey := ikey + 1 in
        let nKeysCount := nKeysCount - 1 in
        if nSigsCount >? nKeysCount then Ok false
        else match_signatures fuel' flags sigversion s scriptCode isig ikey nSigsCount nKeysCount
    end
  else Ok true.

(** [while (i-- > 1) popstack(stack);] *)
Fixpoint pop_n (n : nat) (s : list valtype) : outcome (list valtype) :=
  match n with
  | O => Ok s
  | S n' => s ← popstack s; pop_n n' s
  end.

Definition op_checkmultisig (flags : Z) (fRequireMinimal : bool) (sigversion : SigVersion) (opcode : Z) (st : estate)
  : outcome estate :=
  let s := stack st in
  let i := 1 in
  _ ← fail_if (i32 (size s) <? i) SCRIPT_ERR_INVALID_STACK_OPERATION;
  top ← stacktop s i;
  nKeysCount ← num top fRequireMinimal nDefaultMaxNumSize;
  let nKeysCount := getint nKeysCount in
  _ ← fail_if ((nKeysCount <? 0) || (nKeysCount >? MAX_PUBKEYS_PER_MULTISIG)) SCRIPT_ERR_PUBKEY_COUNT;
  let nOpCount := u32 (nOpCount st + nKeysCount) in
  _ ← fail_if (nOpCount >? MAX_OPS_PER_SCRIPT) SCRIPT_ERR_OP_COUNT;
  let i := i + 1 in
  let ikey := i in
  let i := i + nKeysCount in
  _ ← fail_if (i32 (size s) <? i) SCRIPT_ERR_INVALID_STACK_OPERATION;
  top ← stacktop s i;
  nSigsCount ← num top fRequireMinimal nDefaultMaxNumSize;
  let nSigsCount := getint nSigsCount in
  _ ← fail_if ((nSigsCount <? 0) || (nSigsCount >? nKeysCount)) SCRIPT_ERR_SIG_COUNT;
  let i := i + 1 in
  let isig := i in
  let i := i + nSigsCount in
  _ ← fail_if (i32 (size s) <? i) SCRIPT_ERR_INVALID_STACK_OPERATION;
  scriptCode ← (if bool_decide (sigversion = SIGVERSION_BASE)
                then drop_signatures (Z.to_nat nSigsCount) 0 isig s (pbegincodehash st)
                else Ok (pbegincodehash st));
  fSuccess ← match_signatures (Z.to_nat nKeysCount) flags sigversion s scriptCode isig ikey nSigsCount nKeysCount;
  s ← pop_n (Z.to_nat (i - 1)) s;
  match s with
  | [] => Err SCRIPT_ERR_INVALID_STACK_OPERATION
  | dummy :: s =>
      _ ← fail_if (has flags SCRIPT_VERIFY_NULLDUMMY && negb (size dummy =? 0)) SCRIPT_ERR_SIG_NULLDUMMY;
      let put s := mkEstate s (altstack st) (vfExec st) (pbegincodehash st) nOpCount in
      if opcode =? OP_CHECKMULTISIGVERIFY then
        if (fSuccess : bool) then Ok (put s) else Err SCRIPT_ERR_CHECKMULTISIGVERIFY
      else Ok (put (vch_bool fSuccess :: s))
  end.

Definition op_crypto (flags : Z) (fRequireMinimal : bool) (sigversion : SigVersion) (opcode : Z) (pc : CScript)
    (st : estate) : option (outcome estate) :=
  if (opcode =? OP_RIPEMD160) || (opcode =? OP_SHA1) || (opcode =? OP_SHA256) || (opcode =? OP_HASH160) ||
     (opcode =? OP_HASH256) then Some (op_hash opcode st)
  else if opcode =? OP_CODESEPARATOR then Some (op_codeseparator pc st)
  else if (opcode =? OP_CHECKSIG) || (opcode =? OP_CHECKSIGVERIFY) then Some (op_checksig flags sigversion opcode st)
  else if (opcode =? OP_CHECKMULTISIG) || (opcode =? OP_CHECKMULTISIGVERIFY) then
    Some (op_checkmultisig flags fRequireMinimal sigversion opcode st)
  else None.

(** *** The main loop *)

(** [switch (opcode)] *)
Definition exec_op (flags : Z) (fRequireMinimal : bool) (sigversion : SigVersion) (opcode : Z) (pc : CScript)
    (fExec : bool) (st : estate) : outcome estate :=
  if (opcode =? OP_1NEGATE) || ((OP_1 <=? opcode) && (opcode <=? OP_16)) then
    Ok (set_stack st (serialize (opcode - (OP_1 - 1)) :: stack st))
  else
    match op_control flags fRequireMinimal opcode fExec st with Some r => r | None =>
    match op_stack fRequireMinimal opcode st with Some r => r | None =>
    match op_numeric fRequireMinimal opcode st with Some r => r | None =>
    match op_crypto flags fRequireMinimal sigversion opcode pc st with Some r => r | None =>
    Err SCRIPT_ERR_BAD_OPCODE end end end end.

(** One round of [while (pc < pend)]: the new iterator and state. *)
Definition eval_step (flags : Z) (sigversion : SigVersion) (pc : CScript) (st : estate) : outcome (CScript * estate) :=
  let fRequireMinimal := has flags SCRIPT_VERIFY_MINIMALDATA in
  let fExec := forallb id (vfExec st) in
  let o := GetOp pc in
  if negb (op_ok o) then Err SCRIPT_ERR_BAD_OPCODE
  else
    let opcode := op_code o in
    let vchPushValue := op_data o in
    let pc := op_pc o in
    _ ← fail_if (size vchPushValue >? MAX_SCRIPT_ELEMENT_SIZE) SCRIPT_ERR_PUSH_SIZE;
    let n := if opcode >? OP_16 then u32 (nOpCount st + 1) else nOpCount st in
    _ ← fail_if ((opcode >? OP_16) && (n >? MAX_OPS_PER_SCRIPT)) SCRIPT_ERR_OP_COUNT;
    let st := mkEstate (stack st) (altstack st) (vfExec st) (pbegincodehash st) n in
    _ ← fail_if (disabled opcode) SCRIPT_ERR_DISABLED_OPCODE;
    st ← (if fExec && (0 <=? opcode) && (opcode <=? OP_PUSHDATA4) then
            _ ← fail_if (fRequireMinimal && negb (CheckMinimalPush vchPushValue opcode)) SCRIPT_ERR_MINIMALDATA;
            Ok (set_stack st (vchPushValue :: stack st))
          else if fExec || ((OP_IF <=? opcode) && (opcode <=? OP_ENDIF)) then
            exec_op flags fRequireMinimal sigversion opcode pc fExec st
          else Ok st);
    _ ← fail_if (size (stack st) + size (altstack st) >? 1000) SCRIPT_ERR_STACK_SIZE;
    Ok (pc, st).

Fixpoint eval_loop (fuel : nat) (flags : Z) (sigversion : SigVersion) (pc : CScript) (st : estate) : outcome estate :=
  match pc with
  | [] => Ok st
  | _ =>
      match fuel with
      | O => Err SCRIPT_ERR_UNKNOWN_ERROR
      | S fuel' =>
          '(pc, st) ← eval_step flags sigversion pc st;
          eval_loop fuel' flags sigversion pc st
      end
  end.

(** The resulting stack. A round reads at least one byte, the length of the script
    bounds the rounds. *)
Definition EvalScript (s : list valtype) (script : CScript) (flags : Z) (sigversion : SigVersion) : outcome (list valtype) :=
  if size script >? 10000 then Err SCRIPT_ERR_SCRIPT_SIZE
  else
    st ← eval_loop (length script) flags sigversion script (mkEstate s [] [] script 0);
    match vfExec st with
    | [] => Ok (stack st)
    | _ => Err SCRIPT_ERR_UNBALANCED_CONDITIONAL
    end.

(** *** Witness programs and [VerifyScript] *)

(** [scriptPubKey << OP_DUP << OP_HASH160 << program << OP_EQUALVERIFY << OP_CHECKSIG] *)
Definition witness_pubkeyhash (program : valtype) : CScript :=
  push_data [OP_DUP; OP_HASH160] program ++ [OP_EQUALVERIFY; OP_CHECKSIG].

(** [witness] is in the order of the vector, the stack has its top first. *)
Definition VerifyWitnessProgram (witness : list valtype) (witversion : Z) (program : valtype) (flags : Z) : outcome unit :=
  if witversion =? 0 then
    '(scriptPubKey, s) ←
      (if size program =? 32 then
         match rev witness with
         | [] => Err SCRIPT_ERR_WITNESS_PROGRAM_WITNESS_EMPTY
         | last :: rest =>
             if bool_decide (hash_once CSHA256 last = program) then Ok (last, rest)
             else Err SCRIPT_ERR_WITNESS_PROGRAM_MISMATCH
         end
       else if size program =? 20 then
         if negb (size witness =? 2) then Err SCRIPT_ERR_WITNESS_PROGRAM_MISMATCH
         else Ok (witness_pubkeyhash program, rev witness)
       else Err SCRIPT_ERR_WITNESS_PROGRAM_WRONG_LENGTH);
    _ ← fail_if (existsb (fun e => size e >? MAX_SCRIPT_ELEMENT_SIZE) s) SCRIPT_ERR_PUSH_SIZE;
    s ← EvalScript s scriptPubKey flags SIGVERSION_WITNESS_V0;
    match s with
    | [top] => if CastToBool top then Ok tt else Err SCRIPT_ERR_EVAL_FALSE
    | _ => Err SCRIPT_ERR_EVAL_FALSE
    end
  else if has flags SCRIPT_VERIFY_DISCOURAGE_UPGRADABLE_WITNESS_PROGRAM then
    Err SCRIPT_ERR_DISCOURAGE_UPGRADABLE_WITNESS_PROGRAM
  else Ok tt.

(** The evaluation of a script that must leave a true element on top. *)
Definition eval_true (s : list valtype) : outcome unit :=
  match s with
  | [] => Err SCRIPT_ERR_EVAL_FALSE
  | top :: _ => if CastToBool top then Ok tt else Err SCRIPT_ERR_EVAL_FALSE
  end.
(** [stack.resize(1)]: the bottom element stays. *)
Definition resize1 (s : list valtype) : list valtype :=
  match rev s with [] => [[]] | bottom :: _ => [bottom] end.

(** "Bare witness programs": whether there was one, and the stack. *)
Definition bare_witness (scriptSig scriptPubKey : CScript) (witness : list valtype) (flags : Z) (s : list valtype)
  : outcome (bool * list valtype) :=
  if has flags SCRIPT_VERIFY_WITNESS then
    match IsWitnessProgram scriptPubKey with
    | Some (witnessversion, witnessprogram) =>
        _ ← fail_if (negb (size scriptSig =? 0)) SCRIPT_ERR_WITNESS_MALLEATED;
        _ ← VerifyWitnessProgram witness witnessversion witnessprogram flags;
        Ok (true, resize1 s)
    | None => Ok (false, s)
    end
  else Ok (false, s).

(** "Additional validation for spend-to-script-hash transactions"; [stackCopy] is the stack
    after the input script. *)
Definition p2sh_validation (scriptSig scriptPubKey : CScript) (witness : list valtype) (flags : Z)
    (stackCopy : list valtype) (hadWitness : bool) (s : list valtype) : outcome (bool * list valtype) :=
  if has flags SCRIPT_VERIFY_P2SH && IsPayToScriptHash scriptPubKey then
    _ ← fail_if (negb (IsPushOnly scriptSig)) SCRIPT_ERR_SIG_PUSHONLY;
    match stackCopy with
    | [] => Abort
    | pubKey2 :: s =>
        s ← EvalScript s pubKey2 flags SIGVERSION_BASE;
        _ ← eval_true s;
        if has flags SCRIPT_VERIFY_WITNESS then
          match IsWitnessProgram pubKey2 with
          | Some (witnessversion, witnessprogram) =>
              _ ← fail_if (negb (bool_decide (scriptSig = push_data [] pubKey2))) SCRIPT_ERR_WITNESS_MALLEATED_P2SH;
              _ ← VerifyWitnessProgram witness witnessversion witnessprogram flags;
              Ok (true, resize1 s)
          | None => Ok (hadWitness, s)
          end
        else Ok (hadWitness, s)
    end
  else Ok (hadWitness, s).

(** [assert(b)] *)
Definition assert_ (b : bool) : outcome unit := if b then Ok tt else Abort.

Definition VerifyScript (scriptSig scriptPubKey : CScript) (witness : list valtype) (flags : Z) : outcome unit :=
  _ ← fail_if (has flags SCRIPT_VERIFY_SIGPUSHONLY && negb (IsPushOnly scriptSig)) SCRIPT_ERR_SIG_PUSHONLY;
  s ← EvalScript [] scriptSig flags SIGVERSION_BASE;
  let stackCopy := if has flags SCRIPT_VERIFY_P2SH then s else [] in
  s ← EvalScript s scriptPubKey flags SIGVERSION_BASE;
  _ ← eval_true s;
  '(hadWitness, s) ← bare_witness scriptSig scriptPubKey witness flags s;
  '(hadWitness, s) ← p2sh_validation scriptSig scriptPubKey witness flags stackCopy hadWitness s;
  _ ← (if has flags SCRIPT_VERIFY_CLEANSTACK then
         _ ← assert_ (has flags SCRIPT_VERIFY_P2SH);
         _ ← assert_ (has flags SCRIPT_VERIFY_WITNESS);
         fail_if (negb (size s =? 1)) SCRIPT_ERR_CLEANSTACK
       else Ok tt);
  if has flags SCRIPT_VERIFY_WITNESS then
    _ ← assert_ (has flags SCRIPT_VERIFY_P2SH);
    fail_if (negb hadWitness && negb (size witness =? 0)) SCRIPT_ERR_WITNESS_UNEXPECTED
  else Ok tt.
End interp.

(** [WitnessSigOps] and [CountWitnessSigOps] *)
Definition WitnessSigOps (witversion : Z) (witprogram : valtype) (witness : list valtype) : Z :=
  if witversion =? 0 then
    if size witprogram =? 20 then 1
    else if (size witprogram =? 32) && (size witness >? 0) then
      GetSigOpCount (List.last witness []) true
    else 0
  else 0.
(** The last data read, whatever the opcodes, until the end or an unreadable byte. *)
Fixpoint last_data_loop (fuel : nat) (pc : CScript) (data : valtype) : valtype :=
  match fuel, pc with
  | O, _ | _, [] => data
  | S fuel', _ => let o := GetOp pc in last_data_loop fuel' (op_pc o) (op_data o)
  end.
Definition CountWitnessSigOps (scriptSig scriptPubKey : CScript) (witness : list valtype) (flags : Z) : option Z :=
  if negb (has flags SCRIPT_VERIFY_WITNESS) then Some 0
  else if negb (has flags SCRIPT_VERIFY_P2SH) then None
  else
    match IsWitnessProgram scriptPubKey with
    | Some (witnessversion, witnessprogram) => Some (WitnessSigOps witnessversion witnessprogram witness)
    | None =>
        if IsPayToScriptHash scriptPubKey && IsPushOnly scriptSig then
          let subscript := last_data_loop (length scriptSig) scriptSig [] in
          match IsWitnessProgram subscript with
          | Some (witnessversion, witnessprogram) => Some (WitnessSigOps witnessversion witnessprogram witness)
          | None => Some 0
          end
        else Some 0
    end.
