(* ===== verification/InterpSafety.v ===== *)
(** Safety of the script interpreter of [Interp.v]: whatever the script, the flags and the
    checker, no assertion fails, the limits on the stack, its elements and the operation
    count hold throughout, and the loop ends; [VerifyScript]'s own assertions fail only on
    the flag combinations its comments exclude. *)
From S2P Require Import Prelude Stream Sha2 Sha1 Ripemd160 Hashers Script SigChecks Interp.

(** ** Reasoning about outcomes *)

(** The call does not abort, and what it returns satisfies [P]. *)
Definition holds {A} (P : A -> Prop) (r : outcome A) : Prop :=
  match r with
  | Ok a => P a
  | Err _ => True
  | Abort => False
  end.
Lemma holds_bind {A B} (P : A -> Prop) (Q : B -> Prop) (m : outcome A) (f : A -> outcome B) :
  holds P m -> (forall a, P a -> holds Q (f a)) -> holds Q (m ≫= f).
Proof. destruct m; simpl; auto. Qed.
Lemma holds_mono {A} (P Q : A -> Prop) r : holds P r -> (forall a, P a -> Q a) -> holds Q r.
Proof. destruct r; simpl; auto. Qed.
Lemma holds_fail_if b e : holds (fun _ => b = false) (fail_if b e).
Proof. by destruct b. Qed.
Lemma holds_if {A} (P : A -> Prop) (b : bool) (r r' : outcome A) :
  (b = true -> holds P r) -> (b = false -> holds P r') -> holds P (if b then r else r').
Proof. destruct b; auto. Qed.
Lemma holds_throw {A} (P : A -> Prop) : holds P throw.
Proof. done. Qed.
Lemma holds_err {A} (P : A -> Prop) e : holds P (Err e).
Proof. done. Qed.

(** ** Elements *)

(** What the stack may hold. *)
Definition item_ok (v : valtype) : Prop := Forall is_byte v /\ size v <= MAX_SCRIPT_ELEMENT_SIZE.

Lemma num_value_bound vch : Forall is_byte vch -> vch <> [] -> Z.abs (num_value vch) < 2 ^ (8 * size vch - 1).
Proof.
  intros H Hn. destruct vch as [|b l _] using rev_ind; [done|]. apply Forall_app in H as [Hl B].
  inversion_clear B as [|? ? Hb _]. unfold is_byte in Hb. rewrite num_value_snoc. cbv zeta.
  pose proof (of_le_bytes_bound l Hl) as Hr. rewrite size_snoc. unfold size.
  replace (8 * (Z.of_nat (length l) + 1) - 1) with (8 * Z.of_nat (length l) + 7) by lia.
  rewrite Z.pow_add_r by lia. set (P := 2 ^ (8 * Z.of_nat (length l))) in *.
  destruct (Z.geb_spec b 128); nia.
Qed.
Lemma num_range vch fRequireMinimal n : item_ok vch -> 1 <= n <= 7 ->
  holds (fun v => Z.abs v < 2 ^ (8 * n - 1)) (num vch fRequireMinimal n).
Proof.
  intros [H _] Hn. unfold num, CScriptNum.
  destruct (Z.gtb_spec (size vch) n) as [|Hs]; [done|]. destruct (_ && _ && _ && _); [done|]. cbn.
  rewrite set_vch_spec by (done || unfold size in *; lia).
  destruct vch as [|x vch]; [cbn; lia|].
  eapply Z.lt_le_trans; [apply num_value_bound; done|]. apply Z.pow_le_mono_r; lia.
Qed.
Lemma serialize_ok v : Z.abs v < 2 ^ 63 -> item_ok (serialize v).
Proof.
  intros Hv. split; [by apply serialize_value|].
  unfold MAX_SCRIPT_ELEMENT_SIZE. destruct (Z.eq_dec v 0) as [->|H0]; [by vm_compute|].
  unfold serialize. cbv zeta. destruct (v =? 0); [by vm_compute|].
  pose proof (serialize_loop_spec 8 (u64 (if v <? 0 then - v else v)) ltac:(apply u64_bound)) as Hl.
  cbv zeta in Hl. destruct Hl as (_ & _ & Hl & _).
  set (l := serialize_loop 8 (u64 (if v <? 0 then - v else v))) in *. clearbody l.
  destruct (negb _); [rewrite size_app; unfold size; cbn [length]; lia|].
  destruct (v <? 0); [rewrite size_app; unfold size; cbn [length]; rewrite length_take; lia|unfold size; lia].
Qed.
Lemma vch_bool_ok b : item_ok (vch_bool b).
Proof. destruct b; (split; [by apply bytes_check|]); unfold size, MAX_SCRIPT_ELEMENT_SIZE; cbn; lia. Qed.

Lemma digest_bytes_ok (l : list Z) : Forall is_byte l -> (length l <= 64)%nat -> item_ok l.
Proof. intros H Hl. split; [done|]. unfold size, MAX_SCRIPT_ELEMENT_SIZE. lia. Qed.
Lemma sha256_output_ok st : item_ok (sha256.output st).
Proof.
  apply digest_bytes_ok; [|rewrite sha256_output_length; lia].
  apply sha256_output_bytes.
Qed.
Lemma sha1_output_ok st : item_ok (sha1.output st).
Proof.
  apply digest_bytes_ok; destruct st as [[[[s0 s1] s2] s3] s4]; [apply concat_bytes, WriteBE32_bytes|].
  cbn -[WriteBE32]. rewrite !length_app. unfold WriteBE32. rewrite !length_rev, !le_bytes_length. cbn; lia.
Qed.
Lemma ripemd160_output_ok st : item_ok (ripemd160.output st).
Proof.
  apply digest_bytes_ok; [|rewrite ripemd160_output_length; lia].
  destruct st as [[[[s0 s1] s2] s3] s4]. apply concat_bytes. intros x. apply le_bytes_range.
Qed.
Lemma hash_once_ok A v : (forall st, item_ok (output A st)) -> item_ok (hash_once A v).
Proof. intros H. apply H. Qed.
Lemma CHash256_Finalize_ok h : item_ok (CHash256_Finalize h).
Proof. unfold CHash256_Finalize. destruct (CSHA256_Finalize h). apply sha256_output_ok. Qed.
Lemma CHash160_Finalize_ok h : item_ok (CHash160_Finalize h).
Proof. unfold CHash160_Finalize. destruct (CSHA256_Finalize h). apply ripemd160_output_ok. Qed.

(** ** The state *)

(** What holds between two rounds, the limit on the number of elements apart. *)
Record items_ok (script : CScript) (st : estate) : Prop := {
  stack_ok : Forall item_ok (stack st);
  altstack_ok : Forall item_ok (altstack st);
  ops_ok : 0 <= nOpCount st <= MAX_OPS_PER_SCRIPT;
  code_ok : exists read, script = read ++ pbegincodehash st;
}.
Definition elements (st : estate) : Z := size (stack st) + size (altstack st).

Lemma set_stack_ok script st s : items_ok script st -> Forall item_ok s -> items_ok script (set_stack st s).
Proof. by intros [] ?; constructor. Qed.
Lemma set_vfExec_ok script st v : items_ok script st -> items_ok script (set_vfExec st v).
Proof. by intros []; constructor. Qed.
Lemma fail_if_safe b e : holds (fun _ => True) (fail_if b e).
Proof. by destruct b. Qed.
Lemma stacktop_ok s i : Forall item_ok s -> holds item_ok (stacktop s i).
Proof.
  intros H. unfold stacktop. destruct (i <? 1); [done|]. destruct (s !! Z.to_nat (i - 1)) eqn:E; [|done].
  simpl. by eapply Forall_lookup_1.
Qed.
Lemma popstack_ok s : Forall item_ok s -> holds (Forall item_ok) (popstack s).
Proof. by intros []. Qed.
Lemma pop_n_ok n s : Forall item_ok s -> holds (Forall item_ok) (pop_n n s).
Proof.
  revert s; induction n as [|n IH]; intros s Hs; simpl; [done|].
  eapply holds_bind; [by apply popstack_ok|]. auto.
Qed.
Lemma num_default_range vch m : item_ok vch -> holds (fun v => Z.abs v < 2 ^ 31) (num vch m nDefaultMaxNumSize).
Proof. intros H. eapply holds_mono; [apply num_range; [done|unfold nDefaultMaxNumSize; lia]|done]. Qed.
Lemma num_five_range vch m : item_ok vch -> holds (fun v => Z.abs v < 2 ^ 39) (num vch m 5).
Proof. intros H. eapply holds_mono; [apply num_range; [done|lia]|done]. Qed.
Lemma num_add_safe a b : Z.abs a < 2 ^ 31 -> Z.abs b < 2 ^ 31 -> holds (fun v => Z.abs v < 2 ^ 32) (num_add_assign a b).
Proof.
  intros. unfold num_add_assign, INT64_MAX, INT64_MIN.
  destruct (_ || _) eqn:E; simpl; [lia|]. apply orb_false_iff in E as [E E3]. apply orb_false_iff in E as [E1 E2].
  destruct (Z.eqb_spec b 0), (Z.gtb_spec b 0), (Z.ltb_spec b 0); try done; try lia.
Qed.
Lemma num_sub_safe a b : Z.abs a < 2 ^ 31 -> Z.abs b < 2 ^ 31 -> holds (fun v => Z.abs v < 2 ^ 32) (num_sub_assign a b).
Proof.
  intros. unfold num_sub_assign, INT64_MAX, INT64_MIN.
  destruct (_ || _) eqn:E; simpl; [lia|]. apply orb_false_iff in E as [E E3]. apply orb_false_iff in E as [E1 E2].
  destruct (Z.eqb_spec b 0), (Z.gtb_spec b 0), (Z.ltb_spec b 0); try done; try lia.
Qed.
Lemma num_opp_safe a : Z.abs a < 2 ^ 31 -> holds (fun v => Z.abs v < 2 ^ 32) (num_opp a).
Proof. intros. unfold num_opp, INT64_MIN. destruct (Z.eqb_spec a (- 2 ^ 63)); simpl; lia. Qed.
Lemma CheckSignatureEncoding_safe v flags : holds (fun _ => True) (CheckSignatureEncoding v flags).
Proof.
  unfold CheckSignatureEncoding. destruct (_ =? 0); [done|]. destruct (_ && _); [done|].
  eapply holds_bind with (P := fun _ => True); [|intros; apply fail_if_safe].
  destruct (has _ _); [|done]. unfold IsLowDERSignature. repeat case_match; done.
Qed.
Lemma CheckPubKeyEncoding_safe v flags sv : holds (fun _ => True) (CheckPubKeyEncoding v flags sv).
Proof. unfold CheckPubKeyEncoding. eapply holds_bind; [apply fail_if_safe|]. intros; apply fail_if_safe. Qed.

Create HintDb safe discriminated.
#[export] Hint Resolve fail_if_safe CheckSignatureEncoding_safe CheckPubKeyEncoding_safe stacktop_ok popstack_ok pop_n_ok
  num_default_range num_five_range num_add_safe num_sub_safe num_opp_safe serialize_ok vch_bool_ok
  set_stack_ok set_vfExec_ok stack_ok altstack_ok ops_ok code_ok Forall_cons_2 Forall_nil_2 Forall_app_2
  Forall_take Forall_drop : safe.
(** One step of a checking function: an error, a call whose lemma is a hint, a branch. *)
Ltac safe_step :=
  match goal with
  | |- holds _ (Err _) => exact I
  | |- holds _ throw => exact I
  | |- holds _ (_ ≫= _) => eapply holds_bind; [solve [eauto with safe]|intros; cbv beta in *]
  | |- holds _ (if _ then _ else _) => apply holds_if; intros
  | |- holds _ (match ?l with [] => _ | _ :: _ => _ end) =>
      first [is_var l; destruct l
            | let E := fresh "E" in destruct l eqn:E;
              repeat match goal with H : Forall _ l |- _ => rewrite E in H end]
  end.
(** The elements of a stack that is known to be well formed. *)
Ltac split_items :=
  repeat match goal with
  | H : Forall item_ok (_ :: _) |- _ => apply Forall_cons_iff in H as [? ?]
  end.

(** ** Every opcode *)
Section safety.
Context `{checker : BaseSignatureChecker} (script : CScript) (limit : Z) (Hlimit : 1000 <= limit < 2 ^ 31).

(** What an opcode may assume: the invariant and a limit on the elements, 1000 or the
    number of inputs if there are more. *)
Definition pre (st : estate) : Prop := items_ok script st /\ elements st <= limit.

Lemma op_checklocktimeverify_safe flags m st : items_ok script st -> holds (items_ok script) (op_checklocktimeverify flags m st).
Proof.
  intros H. pose proof (stack_ok _ _ H) as Hs. unfold op_checklocktimeverify.
  repeat (safe_step; split_items); simpl; auto with safe.
Qed.
Lemma op_checksequenceverify_safe flags m st : items_ok script st -> holds (items_ok script) (op_checksequenceverify flags m st).
Proof.
  intros H. pose proof (stack_ok _ _ H) as Hs. unfold op_checksequenceverify.
  repeat (safe_step; split_items); simpl; auto with safe.
Qed.
Lemma op_if_safe opcode fExec st : items_ok script st -> holds (items_ok script) (op_if opcode fExec st).
Proof.
  intros H. pose proof (stack_ok _ _ H) as Hs. unfold op_if.
  repeat (safe_step; split_items); simpl; auto with safe.
Qed.
Definition opt_holds (r : option (outcome estate)) : Prop :=
  match r with Some r => holds (items_ok script) r | None => True end.
Lemma opt_holds_if (b : bool) r r' : opt_holds r -> opt_holds r' -> opt_holds (if b then r else r').
Proof. by destruct b. Qed.
Hint Resolve op_checklocktimeverify_safe op_checksequenceverify_safe op_if_safe : safe.

Lemma op_control_safe flags m opcode fExec st : items_ok script st -> opt_holds (op_control flags m opcode fExec st).
Proof.
  intros H. pose proof (stack_ok _ _ H) as Hs. unfold op_control.
  repeat apply opt_holds_if; simpl; auto with safe.
  - eapply holds_bind; [apply fail_if_safe|done].
  - destruct (vfExec st); simpl; auto with safe.
  - destruct (vfExec st); simpl; auto with safe.
  - destruct (stack st); simpl; split_items; [done|]. case_match; simpl; auto with safe.
Qed.
Lemma op_pick_roll_safe m opcode st : items_ok script st -> holds (items_ok script) (op_pick_roll m opcode st).
Proof.
  intros H. pose proof (stack_ok _ _ H) as Hs. unfold op_pick_roll.
  destruct (stack st) as [|top [|x s]] eqn:E; [done..|]. pose proof Hs as Hs'. split_items.
  repeat safe_step. simpl. apply set_stack_ok; [done|]. apply Forall_cons_2; [done|].
  case_match; auto with safe.
Qed.
Lemma op_stack_safe m opcode st : pre st -> opt_holds (op_stack m opcode st).
Proof using Hlimit.
  intros [H Hn]. pose proof (stack_ok _ _ H) as Hs. pose proof (altstack_ok _ _ H) as Ha.
  assert (item_ok (serialize (size (stack st)))) as Hd.
  { apply serialize_ok. unfold elements, size in *. lia. }
  assert (forall x, item_ok x -> item_ok (serialize (size x))) as Hz.
  { intros x [_ Hx]. apply serialize_ok. unfold MAX_SCRIPT_ELEMENT_SIZE, size in *. lia. }
  unfold op_stack. cbv zeta. repeat apply opt_holds_if; simpl; auto using op_pick_roll_safe with safe;
  repeat match goal with
  | |- holds _ (match ?l with [] => _ | _ :: _ => _ end) => destruct l; split_items; [done|]
  end; try destruct H; simpl; constructor; simpl; auto 10 with safe.
  case_match; auto with safe.
Qed.
Lemma op_equal_safe opcode st : items_ok script st -> holds (items_ok script) (op_equal opcode st).
Proof.
  intros H. pose proof (stack_ok _ _ H) as Hs. unfold op_equal. cbv zeta.
  repeat (safe_step; split_items); simpl; auto with safe.
Qed.
Lemma op_within_safe m st : items_ok script st -> holds (items_ok script) (op_within m st).
Proof.
  intros H. pose proof (stack_ok _ _ H) as Hs. unfold op_within.
  repeat (safe_step; split_items); simpl; auto with safe.
Qed.
Lemma op_hash_safe opcode st : items_ok script st -> holds (items_ok script) (op_hash opcode st).
Proof.
  intros H. pose proof (stack_ok _ _ H) as Hs. unfold op_hash. cbv zeta.
  safe_step; split_items; [done|]. simpl. apply set_stack_ok; [done|]. apply Forall_cons_2; [|done].
  repeat case_match; auto using CHash160_Finalize_ok, CHash256_Finalize_ok, hash_once_ok,
    sha256_output_ok, sha1_output_ok, ripemd160_output_ok.
Qed.
Lemma op_codeseparator_safe pc st : (exists read, script = read ++ pc) -> items_ok script st ->
  holds (items_ok script) (op_codeseparator pc st).
Proof. intros Hpc []. constructor; done. Qed.
Lemma op_checksig_safe flags sv opcode st : items_ok script st -> holds (items_ok script) (op_checksig flags sv opcode st).
Proof.
  intros H. pose proof (stack_ok _ _ H) as Hs. unfold op_checksig. cbv zeta.
  repeat (safe_step; split_items); simpl; auto with safe.
Qed.

(** The opcodes of the two numeric groups: the inner switches miss none of them. *)
Definition unary_op (opcode : Z) : bool :=
  (opcode =? OP_1ADD) || (opcode =? OP_1SUB) || (opcode =? OP_NEGATE) || (opcode =? OP_ABS) ||
  (opcode =? OP_NOT) || (opcode =? OP_0NOTEQUAL).
Definition binary_op (opcode : Z) : bool :=
  (opcode =? OP_ADD) || (opcode =? OP_SUB) || ((OP_BOOLAND <=? opcode) && (opcode <=? OP_MAX)).

Lemma b2z_small b : Z.abs (Z.b2z b) < 2 ^ 32.
Proof. destruct b; cbn; lia. Qed.
Lemma op_unary_safe m opcode st : unary_op opcode = true -> items_ok script st -> holds (items_ok script) (op_unary m opcode st).
Proof.
  intros Ho H. pose proof (stack_ok _ _ H) as Hs. unfold op_unary.
  safe_step; split_items; [done|]. safe_step.
  eapply (holds_bind (fun v => Z.abs v < 2 ^ 32)).
  - unfold unary_op in Ho. repeat match goal with |- holds _ (if _ then _ else _) => apply holds_if; intros ? end;
      try exact (b2z_small _).
    + apply num_add_safe; lia.
    + apply num_sub_safe; lia.
    + by apply num_opp_safe.
    + by apply num_opp_safe.
    + simpl. lia.
    + repeat match goal with E : (opcode =? _) = false |- _ => rewrite E in Ho; clear E end. done.
  - intros bn Hbn. simpl. apply set_stack_ok; [done|]. apply Forall_cons_2; [|done]. apply serialize_ok. lia.
Qed.
Lemma op_binary_result opcode bn1 bn2 : binary_op opcode = true -> Z.abs bn1 < 2 ^ 31 -> Z.abs bn2 < 2 ^ 31 ->
  holds (fun v => Z.abs v < 2 ^ 63)
    (if opcode =? OP_ADD then Ok (i64 (bn1 + bn2))
     else if opcode =? OP_SUB then Ok (i64 (bn1 - bn2))
     else if opcode =? OP_BOOLAND then Ok (Z.b2z (negb (bn1 =? 0) && negb (bn2 =? 0)))
     else if opcode =? OP_BOOLOR then Ok (Z.b2z (negb (bn1 =? 0) || negb (bn2 =? 0)))
     else if (opcode =? OP_NUMEQUAL) || (opcode =? OP_NUMEQUALVERIFY) then Ok (Z.b2z (bn1 =? bn2))
     else if opcode =? OP_NUMNOTEQUAL then Ok (Z.b2z (negb (bn1 =? bn2)))
     else if opcode =? OP_LESSTHAN then Ok (Z.b2z (bn1 <? bn2))
     else if opcode =? OP_GREATERTHAN then Ok (Z.b2z (bn1 >? bn2))
     else if opcode =? OP_LESSTHANOREQUAL then Ok (Z.b2z (bn1 <=? bn2))
     else if opcode =? OP_GREATERTHANOREQUAL then Ok (Z.b2z (bn1 >=? bn2))
     else if opcode =? OP_MIN then Ok (if bn1 <? bn2 then bn1 else bn2)
     else if opcode =? OP_MAX then Ok (if bn1 >? bn2 then bn1 else bn2)
     else Abort).
Proof.
  intros Ho H1 H2.
  assert (forall b, Z.abs (Z.b2z b) < 2 ^ 63) as Hb by (intros b; pose proof (b2z_small b); lia).
  repeat match goal with |- holds _ (if _ then _ else _) => apply holds_if; intros ? end; try (exact (Hb _)); simpl.
  - rewrite i64_small by lia. lia.
  - rewrite i64_small by lia. lia.
  - case_match; lia.
  - case_match; lia.
  - unfold binary_op in Ho. unfold OP_ADD, OP_SUB, OP_BOOLAND, OP_BOOLOR, OP_NUMEQUAL, OP_NUMEQUALVERIFY, OP_NUMNOTEQUAL,
      OP_LESSTHAN, OP_GREATERTHAN, OP_LESSTHANOREQUAL, OP_GREATERTHANOREQUAL, OP_MIN, OP_MAX in *.
    rewrite !orb_true_iff, andb_true_iff in Ho. rewrite ?orb_false_iff in *. lia.
Qed.
Lemma op_binary_safe m opcode st : binary_op opcode = true -> items_ok script st -> holds (items_ok script) (op_binary m opcode st).
Proof.
  intros Ho H. pose proof (stack_ok _ _ H) as Hs. unfold op_binary.
  do 2 (safe_step; split_items; [done|]). do 2 safe_step.
  eapply holds_bind; [by apply op_binary_result|]. intros bn Hbn. cbv beta in Hbn.
  repeat safe_step; simpl; auto with safe.
Qed.
Lemma op_numeric_safe m opcode st : items_ok script st -> opt_holds (op_numeric m opcode st).
Proof.
  intros H. unfold op_numeric. apply opt_holds_if; [by apply op_equal_safe|].
  destruct (_ || _) eqn:E1; [by apply op_unary_safe|]. destruct (_ || _) eqn:E2 in |- *; [by apply op_binary_safe|].
  apply opt_holds_if; [by apply op_within_safe|done].
Qed.

Lemma stacktop_safe s i : holds (fun _ => True) (stacktop s i).
Proof. unfold stacktop. repeat case_match; done. Qed.
Lemma drop_signatures_safe n k isig s code : holds (fun _ => True) (drop_signatures n k isig s code).
Proof.
  revert k code; induction n as [|n IH]; intros k code; simpl; [done|].
  eapply holds_bind; [apply stacktop_safe|]. intros; apply IH.
Qed.
Lemma match_signatures_safe fuel flags sv s code isig ikey nSigs nKeys :
  holds (fun _ => True) (match_signatures fuel flags sv s code isig ikey nSigs nKeys).
Proof.
  revert isig ikey nSigs nKeys; induction fuel as [|fuel IH]; intros; simpl; [by case_match|].
  destruct (nSigs >? 0); [|done].
  do 2 (eapply holds_bind; [apply stacktop_safe|intros]).
  do 2 safe_step. apply holds_if; intros; [done|apply IH].
Qed.
Lemma op_checkmultisig_safe flags m sv opcode st : items_ok script st ->
  holds (items_ok script) (op_checkmultisig flags m sv opcode st).
Proof.
  intros H. pose proof (stack_ok _ _ H) as Hs. pose proof (ops_ok _ _ H) as Hops. unfold op_checkmultisig. cbv zeta.
  eapply holds_bind; [apply fail_if_safe|intros _ _].
  eapply holds_bind; [by apply stacktop_ok|intros top Ht]. safe_step.
  eapply holds_bind; [apply holds_fail_if|intros ? Hk]. cbv beta in Hk. apply orb_false_iff in Hk as [Hk1 Hk2].
  eapply holds_bind; [apply holds_fail_if|intros ? Hn]. cbv beta in Hn. rewrite Z.gtb_ltb, Z.ltb_ge in Hk2, Hn. apply Z.ltb_ge in Hk1.
  eapply holds_bind; [apply fail_if_safe|intros _ _].
  eapply holds_bind; [by apply stacktop_ok|intros top' Ht']. safe_step.
  do 2 (eapply holds_bind; [apply fail_if_safe|intros _ _]).
  eapply (holds_bind (fun _ => True)); [apply holds_if; [intros _; apply drop_signatures_safe|done]|intros code _].
  eapply holds_bind; [apply match_signatures_safe|intros fSuccess _].
  eapply holds_bind; [by apply pop_n_ok|intros s Hs']. destruct s as [|dummy s]; [done|]. split_items.
  eapply holds_bind; [apply fail_if_safe|intros _ _].
  assert (forall s, Forall item_ok s -> items_ok script
    (mkEstate s (altstack st) (vfExec st) (pbegincodehash st) (u32 (nOpCount st + getint a)))) as Hput.
  { intros s' Hs2. destruct H. constructor; simpl; try done. pose proof (u32_bound (nOpCount st + getint a)). lia. }
  repeat safe_step; apply Hput; auto with safe.
Qed.
Lemma op_crypto_safe flags m sv opcode pc st : (exists read, script = read ++ pc) -> items_ok script st ->
  opt_holds (op_crypto flags m sv opcode pc st).
Proof.
  intros Hpc H. unfold op_crypto. repeat apply opt_holds_if; cbn [opt_holds]; [| | | |done].
  - by apply op_hash_safe.
  - by apply op_codeseparator_safe.
  - by apply op_checksig_safe.
  - by apply op_checkmultisig_safe.
Qed.
Lemma exec_op_safe flags m sv opcode pc fExec st : opcode <= 255 -> (exists read, script = read ++ pc) -> pre st ->
  holds (items_ok script) (exec_op flags m sv opcode pc fExec st).
Proof using Hlimit.
  intros Hop Hpc Hpre. pose proof Hpre as [H _]. pose proof (stack_ok _ _ H) as Hs. unfold exec_op.
  apply holds_if; intros E.
  - simpl. apply set_stack_ok; [done|]. apply Forall_cons_2; [|done]. apply serialize_ok.
    unfold OP_1NEGATE, OP_1, OP_16 in *. lia.
  - pose proof (op_control_safe flags m opcode fExec st H) as H1. destruct (op_control _ _ _ _ _); [done|].
    pose proof (op_stack_safe m opcode st Hpre) as H2. destruct (op_stack _ _ _); [done|].
    pose proof (op_numeric_safe m opcode st H) as H3. destruct (op_numeric _ _ _); [done|].
    pose proof (op_crypto_safe flags m sv opcode pc st Hpc H) as H4. by destruct (op_crypto _ _ _ _ _).
Qed.
End safety.

(** ** The loop *)

Lemma GetOp_bytes pc : Forall is_byte pc -> op_ok (GetOp pc) = true ->
  op_code (GetOp pc) <= 255 /\ Forall is_byte (op_data (GetOp pc)).
Proof.
  intros H. destruct pc as [|opcode pc]; [done|]. cbn [GetOp]. apply Forall_cons_iff in H as [Ho H]. unfold is_byte in Ho.
  destruct (opcode <=? OP_PUSHDATA4); [|intros _; split; [simpl; lia|constructor]].
  pose proof (GetOp_size_suffix opcode pc) as Hs. destruct (GetOp_size opcode pc) as [[ok n] pc'].
  destruct Hs as [d ->]. apply Forall_app in H as [_ H].
  destruct (negb ok || (u32 (size pc') <? n)); [done|]. intros _. split; [simpl; lia|]. by apply Forall_take.
Qed.

Section loop.
Context `{checker : BaseSignatureChecker} (flags : Z) (sigversion : SigVersion) (limit : Z) (Hlimit : 1000 <= limit < 2 ^ 31).

(** One round of the loop, on the iterator and the state. *)
Definition round (c c' : CScript * estate) : Prop :=
  c.1 <> [] /\ eval_step flags sigversion c.1 c.2 = Ok c'.
(** The configuration is one the loop on [script] may be in. *)
Definition loop_ok (script : CScript) (c : CScript * estate) : Prop :=
  pre script limit c.2 /\ exists read, script = read ++ c.1.

Lemma eval_step_safe script pc st : Forall is_byte script -> pc <> [] -> loop_ok script (pc, st) ->
  holds (fun c => loop_ok script c /\ elements c.2 <= 1000 /\ (length c.1 < length pc)%nat) (eval_step flags sigversion pc st).
Proof using Hlimit.
  intros Hb Hpc [[H Hn] [read Hr]]. cbn [fst snd] in *.
  assert (Forall is_byte pc) as Hbp by (rewrite Hr in Hb; by apply Forall_app in Hb as [_ Hb]).
  unfold eval_step. cbv zeta. destruct (op_ok (GetOp pc)) eqn:Eok; cbn [negb]; [|done].
  destruct (GetOp_bytes pc Hbp Eok) as [Hop Hdata]. destruct (GetOp_suffix pc) as (d & Ed & _).
  pose proof (GetOp_shorter pc Hpc) as Hlt. set (o := GetOp pc) in *. clearbody o.
  eapply holds_bind; [apply holds_fail_if|intros ? Hp; cbv beta in Hp]. rewrite Z.gtb_ltb, Z.ltb_ge in Hp.
  eapply holds_bind; [apply holds_fail_if|intros ? Hc; cbv beta in Hc].
  eapply holds_bind; [apply fail_if_safe|intros ? _].
  set (st1 := mkEstate _ _ _ _ _).
  assert (items_ok script st1) as H1.
  { destruct H as [? ? Hops ?]. constructor; simpl; try done. destruct (op_code o >? OP_16); [|done].
    cbn [andb] in Hc. rewrite Z.gtb_ltb, Z.ltb_ge in Hc. pose proof (u32_bound (nOpCount st + 1)). lia. }
  assert (exists read, script = read ++ op_pc o) as Hpc'.
  { exists (read ++ d). by rewrite <- (assoc_L (++)), <- Ed. }
  eapply (holds_bind (items_ok script)).
  - apply holds_if; intros E1.
    + eapply holds_bind; [apply fail_if_safe|intros ? _]. simpl. apply set_stack_ok; [done|].
      apply Forall_cons_2; [done|]. apply (stack_ok _ _ H1).
    + apply holds_if; intros E2; [|done]. by apply (exec_op_safe _ limit Hlimit).
  - intros st' H'. eapply holds_bind; [apply holds_fail_if|intros ? Hs; cbv beta in Hs].
    rewrite Z.gtb_ltb, Z.ltb_ge in Hs. cbn [holds fst snd]. unfold loop_ok, pre. cbn [fst snd].
    change (size (stack st') + size (altstack st')) with (elements st') in Hs. split_and!; (done || lia).
Qed.
Lemma rounds_ok script c c' : Forall is_byte script -> loop_ok script c -> rtc round c c' -> loop_ok script c'.
Proof using Hlimit.
  intros Hb Hc Hr. induction Hr as [|[pc st] [pc' st'] c'' [Hn He] Hr IH]; [done|]. cbn [fst snd] in *. apply IH.
  pose proof (eval_step_safe script pc st Hb Hn Hc) as Hs. rewrite He in Hs. by destruct Hs as [Hs _].
Qed.
(** Enough fuel reaches the end of the script or an error. *)
Lemma eval_loop_rounds script fuel pc st : Forall is_byte script -> loop_ok script (pc, st) -> (length pc <= fuel)%nat ->
  exists n pc' st', (n <= length pc)%nat /\ nsteps round n (pc, st) (pc', st') /\
    (pc' = [] /\ eval_loop fuel flags sigversion pc st = Ok st' \/
     pc' <> [] /\ exists e, eval_step flags sigversion pc' st' = Err e /\ eval_loop fuel flags sigversion pc st = Err e).
Proof using Hlimit.
  intros Hb. revert pc st; induction fuel as [|fuel IH]; intros [|x pc] st Hok Hf.
  - exists 0%nat, [], st. split_and!; [done|constructor|by left].
  - simpl in Hf; lia.
  - exists 0%nat, [], st. split_and!; [done|constructor|by left].
  - pose proof (eval_step_safe script (x :: pc) st Hb ltac:(done) Hok) as Hs. cbn [eval_loop].
    destruct (eval_step flags sigversion (x :: pc) st) as [[pc1 st1]|e|] eqn:E; [| |done].
    + destruct Hs as (Hok1 & _ & Hl). cbn [fst] in Hl.
      destruct (IH pc1 st1 Hok1 ltac:(simpl in *; lia)) as (n & pc' & st' & Hn & Hsteps & Hend).
      exists (S n), pc', st'. split_and!; [simpl in *; lia| |done]. econstructor; [|done]. by split.
    + exists 0%nat, (x :: pc), st. split_and!; [lia|constructor|]. right. split; [done|]. by exists e.
Qed.
Definition initial (s : list valtype) (script : CScript) : estate := mkEstate s [] [] script 0.
Definition inputs_ok (s : list valtype) (script : CScript) : Prop :=
  Forall is_byte script /\ Forall item_ok s /\ size s <= limit.
Lemma initial_ok s script : inputs_ok s script -> loop_ok script (script, initial s script).
Proof using Hlimit.
  intros (Hb & Hs & Hn). split; [split|by exists []].
  - constructor; simpl; [done|constructor|unfold MAX_OPS_PER_SCRIPT; lia|by exists []].
  - unfold elements, size in *; simpl. lia.
Qed.
Lemma EvalScript_ok s script : inputs_ok s script ->
  holds (fun s' => Forall item_ok s' /\ size s' <= limit) (EvalScript s script flags sigversion).
Proof using Hlimit.
  intros Hin. unfold EvalScript. destruct (_ >? _); [done|].
  destruct (eval_loop_rounds script (length script) script (initial s script)) as (n & pc' & st' & _ & Hst & Hend);
    [apply Hin|by apply initial_ok|done|].
  apply rtc_nsteps_2 in Hst. apply (rounds_ok script) in Hst; [|apply Hin|by apply initial_ok].
  fold (initial s script). destruct Hend as [[-> ->]|[_ (e & _ & ->)]]; [|done]. cbn.
  destruct Hst as [[H Hn] _]. cbn [snd] in *. destruct (vfExec st'); [|done]. simpl. split; [apply H|].
  unfold elements in Hn. pose proof (size_nonneg (altstack st')). lia.
Qed.
End loop.

(** C3: for every script and checker, every configuration the main loop can reach from
    well-formed inputs keeps the limits: elements are byte strings of at most 520
    bytes, at most 201 operations are counted, after each round the two stacks hold at
    most 1000 elements together, the signed part of the script is a suffix of it; and
    no round fails one of the assertions of the numeric opcodes. *)
Theorem EvalScript_invariant (checker : BaseSignatureChecker) (flags : Z) (sigversion : SigVersion)
    (s : list valtype) (script : CScript) (c c' : CScript * estate)
    (Hin : inputs_ok (2 ^ 31 - 1) s script)
    (Hr : rtc (round flags sigversion) (script, initial s script) c)
    (Hround : round flags sigversion c c') :
  items_ok script c'.2 /\ elements c'.2 <= 1000 /\ (exists read, script = read ++ c'.1) /\
  (length c'.1 < length c.1)%nat /\ (c'.1 <> [] -> eval_step flags sigversion c'.1 c'.2 <> Abort).
Proof.
  assert (1000 <= 2 ^ 31 - 1 < 2 ^ 31) as Hl by lia. pose proof Hin as (Hb & _).
  pose proof (rounds_ok flags sigversion _ Hl script _ _ Hb (initial_ok _ Hl s script Hin) Hr) as Hc.
  destruct c as [pc st], Hround as [Hn He]. cbn [fst snd] in *.
  pose proof (eval_step_safe flags sigversion _ Hl script pc st Hb Hn Hc) as Hs. rewrite He in Hs.
  destruct Hs as (Hc' & H1000 & Hlt). split_and!; try done; [apply Hc'|apply Hc'|].
  intros Hn' Ha. destruct c' as [pc' st']. cbn [fst snd] in *.
  pose proof (eval_step_safe flags sigversion _ Hl script pc' st' Hb Hn' Hc') as Hs'. by rewrite Ha in Hs'.
Qed.
Lemma EvalScript_invariant_witness :
  let c := ([OP_1], mkEstate [[2]] [] [] [OP_2; OP_1] 0) in
  items_ok [OP_2; OP_1] c.2 /\ elements c.2 <= 1000 /\ (exists read, [OP_2; OP_1] = read ++ c.1) /\
  (length c.1 < 2)%nat /\ (c.1 <> [] -> @eval_step base_checker 0 SIGVERSION_BASE c.1 c.2 <> Abort).
Proof.
  apply (EvalScript_invariant base_checker 0 SIGVERSION_BASE [] [OP_2; OP_1]
           ([OP_2; OP_1], initial [] [OP_2; OP_1]) ([OP_1], mkEstate [[2]] [] [] [OP_2; OP_1] 0)).
  - split_and!; [by apply bytes_check|constructor|done].
  - apply rtc_refl.
  - split; [done|by vm_compute].
Defined.

(** The interpreter terminates: on a script of at most 10,000 bytes the loop makes at
    most as many rounds as the script has bytes, and what [EvalScript] returns is what
    its last configuration says: the stack when the script is used up and no
    conditional is open, otherwise the error; longer scripts are refused. *)
Theorem EvalScript_terminates (checker : BaseSignatureChecker) (flags : Z) (sigversion : SigVersion)
    (s : list valtype) (script : CScript) (Hin : inputs_ok (2 ^ 31 - 1) s script) :
  (10000 < size script -> EvalScript s script flags sigversion = Err SCRIPT_ERR_SCRIPT_SIZE) /\
  (size script <= 10000 ->
   exists n pc st, (n <= length script)%nat /\ nsteps (round flags sigversion) n (script, initial s script) (pc, st) /\
   (pc = [] /\ vfExec st = [] /\ EvalScript s script flags sigversion = Ok (stack st) \/
    pc = [] /\ vfExec st <> [] /\ EvalScript s script flags sigversion = Err SCRIPT_ERR_UNBALANCED_CONDITIONAL \/
    pc <> [] /\ exists e, eval_step flags sigversion pc st = Err e /\ EvalScript s script flags sigversion = Err e)).
Proof.
  assert (1000 <= 2 ^ 31 - 1 < 2 ^ 31) as Hl by lia. unfold EvalScript. fold (initial s script).
  split; intros Hsz.
  { destruct (Z.gtb_spec (size script) 10000); [done|lia]. }
  destruct (Z.gtb_spec (size script) 10000); [lia|].
  destruct (eval_loop_rounds flags sigversion _ Hl script (length script) script (initial s script))
    as (n & pc & st & Hn & Hst & Hend); [apply Hin|by apply initial_ok|done|].
  exists n, pc, st. split; [done|]. split; [done|]. destruct Hend as [[-> ->]|[Hpc (e & He & ->)]].
  - destruct (vfExec st) eqn:E; cbn; rewrite E; auto.
  - right; right. split; [done|]. by exists e.
Qed.
Lemma EvalScript_terminates_witness :
  inputs_ok (2 ^ 31 - 1) [] [OP_1; OP_IF; OP_DEPTH; OP_ENDIF] /\
  exists n pc st, (n <= 4)%nat /\
    nsteps (@round base_checker 0 SIGVERSION_BASE) n ([OP_1; OP_IF; OP_DEPTH; OP_ENDIF], initial [] [OP_1; OP_IF; OP_DEPTH; OP_ENDIF]) (pc, st).
Proof.
  assert (inputs_ok (2 ^ 31 - 1) [] [OP_1; OP_IF; OP_DEPTH; OP_ENDIF]) as H
    by (split_and!; [by apply bytes_check|constructor|done]).
  split; [exact H|].
  destruct (proj2 (EvalScript_terminates base_checker 0 SIGVERSION_BASE [] [OP_1; OP_IF; OP_DEPTH; OP_ENDIF] H))
    as (n & pc & st & Hn & Hs & _); [done|]. by exists n, pc, st.
Defined.

(** ** [VerifyScript] *)
Section verify.
Context `{checker : BaseSignatureChecker}.

Lemma EvalScript_safe limit s script flags sv : 1000 <= limit < 2 ^ 31 -> inputs_ok limit s script ->
  holds (fun s' => inputs_ok limit s' script) (EvalScript s script flags sv).
Proof.
  intros Hl Hin. eapply holds_mono; [by apply (EvalScript_ok flags sv limit Hl)|].
  intros s' [H1 H2]. split; [apply Hin|done].
Qed.
Lemma eval_true_safe s : holds (fun _ => s <> []) (eval_true s).
Proof. destruct s; simpl; [done|]. by case_match. Qed.

(** An empty stack fails the hash of a pay-to-script-hash output. *)
Lemma p2sh_needs_input script flags sv : IsPayToScriptHash script = true ->
  EvalScript [] script flags sv = Err SCRIPT_ERR_INVALID_STACK_OPERATION.
Proof.
  unfold IsPayToScriptHash. intros H. repeat (apply andb_true_iff in H as [H ?]).
  destruct script as [|x script]; [done|]. unfold at_ in *. cbn [nth] in *.
  apply Z.eqb_eq in H.
  repeat match goal with E : (_ =? _) = true |- _ => apply Z.eqb_eq in E end. subst x.
  unfold EvalScript. destruct (Z.gtb_spec (size (OP_HASH160 :: script)) 10000); [lia|].
  cbn [length eval_loop]. reflexivity.
Qed.

Lemma IsWitnessProgram_bytes script v program : Forall is_byte script ->
  IsWitnessProgram script = Some (v, program) -> Forall is_byte program.
Proof.
  intros H. unfold IsWitnessProgram. destruct (_ || _); [done|]. destruct (_ && _); [done|]. destruct (_ =? _); [|done].
  destruct (DecodeOP_N _); [|done]. intros E. injection E as _ <-.
  by apply Forall_drop.
Qed.
Lemma push_data_bytes s b : Forall is_byte s -> Forall is_byte b -> Forall is_byte (push_data s b).
Proof.
  intros Hs Hb. assert (forall x, Forall is_byte [u8 x]) as Hu by (intros x; constructor; [apply u8_bound|constructor]).
  assert (Forall is_byte [OP_PUSHDATA1] /\ Forall is_byte [OP_PUSHDATA2] /\ Forall is_byte [OP_PUSHDATA4]) as (H1 & H2 & H4)
    by (split_and!; by apply bytes_check).
  unfold push_data. repeat case_match; repeat (apply Forall_app; split); auto using le_bytes_range.
Qed.
(** The witness is made of byte strings, fewer than 2^31. *)
Definition witness_ok (witness : list valtype) : Prop := Forall (Forall is_byte) witness /\ size witness < 2 ^ 31.
Lemma VerifyWitnessProgram_safe witness v program flags :
  witness_ok witness -> Forall is_byte program -> holds (fun _ => True) (VerifyWitnessProgram witness v program flags).
Proof.
  intros [Hw Hn] Hp. unfold VerifyWitnessProgram. destruct (v =? 0); [|by case_match].
  eapply (holds_bind (fun '(spk, s) => Forall is_byte spk /\ Forall (Forall is_byte) s /\ size s < 2 ^ 31)).
  - apply Forall_rev in Hw. destruct (size program =? 32).
    + destruct (rev witness) as [|l rest] eqn:E; [done|]. case_bool_decide; [|done].
      apply Forall_cons_iff in Hw as [H1 H2]. simpl. split_and!; try done.
      apply (f_equal length) in E. rewrite length_rev in E. unfold size in *. simpl in E. lia.
    + destruct (size program =? 20); [|done]. destruct (negb _); [done|]. simpl. split_and!; [|done|].
      * unfold witness_pubkeyhash. apply Forall_app; split; [|by apply bytes_check].
        apply push_data_bytes; [by apply bytes_check|done].
      * unfold size in *. rewrite length_rev. done.
  - intros [spk s] (Hspk & Hs & Hns). cbn beta iota.
    eapply holds_bind; [apply holds_fail_if|intros ? He; cbv beta in He].
    eapply holds_bind.
    + apply (EvalScript_safe (Z.max 1000 (size s))); [lia|]. split; [done|]. split; [|lia].
      rewrite Forall_forall in Hs. apply Forall_forall. intros x Hx. split; [by apply Hs|].
      destruct (Z.leb_spec (size x) MAX_SCRIPT_ELEMENT_SIZE) as [|Hgt]; [done|exfalso].
      apply not_true_iff_false in He. apply He, existsb_exists. exists x. split; [first [done | by apply list_elem_of_In]|].
      apply Z.gtb_lt. lia.
    + intros s' _. destruct s' as [|top []]; simpl; try done. by case_match.
Qed.
Lemma bare_witness_safe scriptSig spk witness flags s : witness_ok witness -> Forall is_byte spk ->
  holds (fun _ => True) (bare_witness scriptSig spk witness flags s).
Proof.
  intros Hw Hb. unfold bare_witness. destruct (has _ _); [|done].
  destruct (IsWitnessProgram spk) as [[v program]|] eqn:E; [|done]. apply IsWitnessProgram_bytes in E; [|done].
  eapply holds_bind; [apply fail_if_safe|intros _ _].
  eapply holds_bind; [by apply VerifyWitnessProgram_safe|done].
Qed.
Lemma p2sh_validation_safe scriptSig spk witness flags stackCopy h s limit : witness_ok witness ->
  1000 <= limit < 2 ^ 31 -> Forall item_ok stackCopy -> size stackCopy <= limit ->
  (has flags SCRIPT_VERIFY_P2SH = true -> IsPayToScriptHash spk = true -> stackCopy <> []) ->
  holds (fun _ => True) (p2sh_validation scriptSig spk witness flags stackCopy h s).
Proof.
  intros Hw Hl Hc Hn Hne. unfold p2sh_validation. destruct (_ && _) eqn:E; [|done].
  apply andb_true_iff in E as [E1 E2]. specialize (Hne E1 E2).
  eapply holds_bind; [apply fail_if_safe|intros _ _].
  destruct stackCopy as [|pubKey2 st]; [done|]. apply Forall_cons_iff in Hc as [[Hpk _] Hc].
  assert (inputs_ok limit st pubKey2) as Hin by (split_and!; [done|done|unfold size in *; simpl in Hn; lia]).
  eapply holds_bind; [by apply (EvalScript_safe limit)|].
  intros s' _. eapply holds_bind; [apply eval_true_safe|intros _ _].
  destruct (has flags SCRIPT_VERIFY_WITNESS); [|done]. destruct (IsWitnessProgram pubKey2) as [[v program]|] eqn:E; [|done].
  apply IsWitnessProgram_bytes in E; [|done].
  eapply holds_bind; [apply fail_if_safe|intros _ _].
  eapply holds_bind; [by apply VerifyWitnessProgram_safe|done].
Qed.
Lemma assert_safe b : b = true -> holds (fun _ => True) (assert_ b).
Proof. by intros ->. Qed.
End verify.

(** C11: with [WITNESS] only together with [P2SH] and [CLEANSTACK] only together with both,
    no assertion of [VerifyScript] fails, whatever the scripts, the witness and the
    checker: in particular the stack restored for a pay-to-script-hash output is not
    empty, as the comment in the code argues. *)
Theorem VerifyScript_assertions (checker : BaseSignatureChecker) (scriptSig scriptPubKey : CScript)
    (witness : list valtype) (flags : Z)
    (Hsig : Forall is_byte scriptSig) (Hpk : Forall is_byte scriptPubKey) (Hw : witness_ok witness)
    (Hclean : has flags SCRIPT_VERIFY_CLEANSTACK = true -> has flags SCRIPT_VERIFY_WITNESS = true)
    (Hwit : has flags SCRIPT_VERIFY_WITNESS = true -> has flags SCRIPT_VERIFY_P2SH = true) :
  VerifyScript scriptSig scriptPubKey witness flags <> Abort.
Proof.
  intros Ha. enough (holds (fun _ => True) (VerifyScript scriptSig scriptPubKey witness flags)) as Hh by (by rewrite Ha in Hh).
  clear Ha. assert (1000 <= 1000 < 2 ^ 31) as Hl by lia. unfold VerifyScript.
  eapply holds_bind; [apply fail_if_safe|intros _ _].
  eapply holds_bind; [apply (EvalScript_safe 1000 _ _ _ _ Hl); split_and!; [done|constructor|by vm_compute]|].
  intros s (_ & Hs & Hn).
  destruct (EvalScript s scriptPubKey flags SIGVERSION_BASE) as [s1| |] eqn:E; [|done|].
  2: { pose proof (EvalScript_safe 1000 s scriptPubKey flags SIGVERSION_BASE Hl ltac:(done)) as H. by rewrite E in H. }
  cbn [mbind outcome_bind].
  eapply holds_bind; [apply eval_true_safe|intros _ _].
  eapply holds_bind; [by apply bare_witness_safe|intros [h s2] _].
  eapply holds_bind.
  { apply (p2sh_validation_safe _ _ _ _ _ _ _ 1000); try done.
    - by destruct (has flags SCRIPT_VERIFY_P2SH).
    - destruct (has flags SCRIPT_VERIFY_P2SH); [done|by vm_compute].
    - intros Hp Hsh. rewrite Hp. intros ->. by rewrite (p2sh_needs_input _ flags _ Hsh) in E. }
  intros [h' s3] _. eapply (holds_bind (fun _ => True)).
  - destruct (has flags SCRIPT_VERIFY_CLEANSTACK) eqn:Ec; [|done]. specialize (Hclean eq_refl).
    eapply holds_bind; [apply assert_safe, Hwit, Hclean|intros _ _].
    eapply holds_bind; [apply assert_safe, Hclean|intros _ _]. apply fail_if_safe.
  - intros _ _. destruct (has flags SCRIPT_VERIFY_WITNESS) eqn:Ec; [|done].
    eapply holds_bind; [apply assert_safe, Hwit, eq_refl|intros _ _]. apply fail_if_safe.
Qed.
Lemma VerifyScript_assertions_witness :
  @VerifyScript base_checker [] ([OP_HASH160; 0x14] ++ replicate 20 7 ++ [OP_EQUAL]) [] SCRIPT_VERIFY_P2SH <> Abort.
Proof.
  apply VerifyScript_assertions.
  - constructor.
  - by apply bytes_check.
  - split; [constructor|done].
  - by vm_compute.
  - by vm_compute.
Defined.
