(* ===== verification/Payments.v ===== *)
(** What the interpreter of [Interp.v] does on the standard payments: pay to public key
    hash in full, with the error of each way to fail. *)
From S2P Require Import Prelude Stream Sha2 Sha1 Ripemd160 Hashers Script SigChecks Interp.

(** [src/src/script/standard.h] *)
Definition MANDATORY_SCRIPT_VERIFY_FLAGS : Z := SCRIPT_VERIFY_P2SH.
Definition STANDARD_SCRIPT_VERIFY_FLAGS : Z :=
  foldl Z.lor MANDATORY_SCRIPT_VERIFY_FLAGS
    [SCRIPT_VERIFY_DERSIG; SCRIPT_VERIFY_STRICTENC; SCRIPT_VERIFY_MINIMALDATA; SCRIPT_VERIFY_NULLDUMMY;
     SCRIPT_VERIFY_DISCOURAGE_UPGRADABLE_NOPS; SCRIPT_VERIFY_WITNESS; SCRIPT_VERIFY_CLEANSTACK; SCRIPT_VERIFY_LOW_S;
     SCRIPT_VERIFY_DISCOURAGE_UPGRADABLE_WITNESS_PROGRAM; SCRIPT_VERIFY_WITNESS_PUBKEYTYPE;
     SCRIPT_VERIFY_CHECKSEQUENCEVERIFY; SCRIPT_VERIFY_CHECKLOCKTIMEVERIFY].

Section payments.
Context `{checker : BaseSignatureChecker} (flags : Z) (sigversion : SigVersion).

Lemma bind_ok {A B} (m : outcome A) (f : A -> outcome B) b : m ≫= f = Ok b -> exists a, m = Ok a /\ f a = Ok b.
Proof. destruct m; simpl; try done. eauto. Qed.
Lemma eval_step_pc pc st pc' st' : eval_step flags sigversion pc st = Ok (pc', st') -> pc' = op_pc (GetOp pc).
Proof.
  unfold eval_step. cbv zeta. destruct (negb _); [done|]. intros H.
  do 3 (apply bind_ok in H as (? & _ & H)). apply bind_ok in H as (st1 & _ & H). apply bind_ok in H as (? & _ & H).
  by injection H as <- _.
Qed.
Lemma eval_loop_fuel f1 f2 pc st : (length pc <= f1)%nat -> (length pc <= f2)%nat ->
  eval_loop f1 flags sigversion pc st = eval_loop f2 flags sigversion pc st.
Proof.
  revert f2 pc st; induction f1 as [|f1 IH]; intros [|f2] [|x pc] st H1 H2; simpl in H1, H2; try done; try lia.
  cbn [eval_loop]. destruct (eval_step flags sigversion (x :: pc) st) as [[pc' st']| |] eqn:E; try done. cbn.
  apply eval_step_pc in E as ->. pose proof (GetOp_shorter (x :: pc) ltac:(done)) as Hl. cbn [length] in Hl.
  apply IH; lia.
Qed.
(** The loop with just enough fuel. *)
Definition eval_run (pc : CScript) (st : estate) : outcome estate := eval_loop (length pc) flags sigversion pc st.
Lemma eval_run_nil st : eval_run [] st = Ok st.
Proof. done. Qed.
Lemma eval_run_step pc st : pc <> [] ->
  eval_run pc st = ('(pc', st') ← eval_step flags sigversion pc st; eval_run pc' st').
Proof.
  intros Hn. destruct pc as [|x pc]; [done|]. unfold eval_run at 1. cbn [length eval_loop].
  destruct (eval_step flags sigversion (x :: pc) st) as [[pc' st']| |] eqn:E; try done. cbn.
  apply eval_step_pc in E as ->. pose proof (GetOp_shorter (x :: pc) ltac:(done)) as Hl. cbn [length] in Hl.
  apply eval_loop_fuel; lia.
Qed.

(** The push of an element of two bytes or more with the opcode [operator<<] chooses. *)
Lemma push_code_minimal b : 2 <= size b <= MAX_SCRIPT_ELEMENT_SIZE -> CheckMinimalPush b (push_code b) = true.
Proof.
  unfold MAX_SCRIPT_ELEMENT_SIZE. intros H. unfold CheckMinimalPush, push_code, OP_PUSHDATA1.
  destruct (Z.eqb_spec (size b) 0); [lia|]. destruct (Z.eqb_spec (size b) 1); [lia|]. cbn [andb].
  destruct (Z.leb_spec (size b) 75), (Z.ltb_spec (size b) 76); try lia.
  destruct (Z.leb_spec (size b) 0xff); [done|]. destruct (Z.leb_spec (size b) 0xffff); [done|lia].
Qed.
Lemma push_code_nonneg b : 0 <= push_code b.
Proof. unfold push_code, OP_PUSHDATA1, OP_PUSHDATA2, OP_PUSHDATA4. pose proof (size_nonneg b). repeat case_match; lia. Qed.
Lemma eval_push b rest s a code n : 2 <= size b <= MAX_SCRIPT_ELEMENT_SIZE -> size rest < 2 ^ 31 ->
  size s + size a < 1000 ->
  eval_step flags sigversion (push_data [] b ++ rest) (mkEstate s a [] code n) = Ok (rest, mkEstate (b :: s) a [] code n).
Proof.
  intros Hb Hr Hn. unfold eval_step. cbv zeta.
  rewrite GetOp_push_data by (rewrite size_app; unfold MAX_SCRIPT_ELEMENT_SIZE in *; lia). cbn [op_ok op_code op_data op_pc negb].
  pose proof (push_code_le b) as Hc. pose proof (push_code_nonneg b) as Hc0. unfold OP_PUSHDATA4 in *.
  replace (size b >? MAX_SCRIPT_ELEMENT_SIZE) with false by (symmetry; rewrite Z.gtb_ltb; apply Z.ltb_ge; lia).
  replace (push_code b >? OP_16) with false by (symmetry; rewrite Z.gtb_ltb; apply Z.ltb_ge; unfold OP_16; lia).
  assert (disabled (push_code b) = false) as Hd.
  { unfold disabled, OP_CAT, OP_SUBSTR, OP_LEFT, OP_RIGHT, OP_INVERT, OP_AND, OP_OR, OP_XOR, OP_2MUL, OP_2DIV, OP_MUL, OP_DIV,
      OP_MOD, OP_LSHIFT, OP_RSHIFT.
    repeat match goal with |- context [push_code b =? ?k] => replace (push_code b =? k) with false by (symmetry; apply Z.eqb_neq; lia) end.
    done. }
  rewrite Hd. cbn [andb fail_if mbind outcome_bind vfExec forallb stack altstack pbegincodehash nOpCount].
  replace (0 <=? push_code b) with true by (symmetry; apply Z.leb_le; lia).
  replace (push_code b <=? 0x4e) with true by (symmetry; apply Z.leb_le; lia). cbn [andb].
  rewrite push_code_minimal, andb_false_r by done. cbn.
  replace (size (b :: s) + size a >? 1000) with false; [done|].
  symmetry. rewrite Z.gtb_ltb. apply Z.ltb_ge. unfold size in *. cbn [length]. lia.
Qed.
Lemma eval_run_push b rest s a code n : 2 <= size b <= MAX_SCRIPT_ELEMENT_SIZE -> size rest < 2 ^ 31 ->
  size s + size a < 1000 ->
  eval_run (push_data [] b ++ rest) (mkEstate s a [] code n) = eval_run rest (mkEstate (b :: s) a [] code n).
Proof.
  intros Hb Hr Hn. rewrite eval_run_step, eval_push by (done || (intros E; apply app_eq_nil in E as [E _];
    pose proof (push_data_length b) as Hl; rewrite E in Hl; simpl in Hl; lia)). done.
Qed.
Lemma EvalScript_run s script : size script <= 10000 ->
  EvalScript s script flags sigversion =
  (st ← eval_run script (mkEstate s [] [] script 0);
   match vfExec st with [] => Ok (stack st) | _ => Err SCRIPT_ERR_UNBALANCED_CONDITIONAL end).
Proof. intros H. unfold EvalScript. destruct (Z.gtb_spec (size script) 10000); [lia|done]. Qed.

(** ** Opcodes that count *)

Lemma eval_op c rest s a code n : OP_16 < c -> disabled c = false -> 0 <= n < MAX_OPS_PER_SCRIPT ->
  eval_step flags sigversion (c :: rest) (mkEstate s a [] code n) =
  (st ← exec_op flags (has flags SCRIPT_VERIFY_MINIMALDATA) sigversion c rest true (mkEstate s a [] code (n + 1));
   _ ← fail_if (size (stack st) + size (altstack st) >? 1000) SCRIPT_ERR_STACK_SIZE;
   Ok (rest, st)).
Proof.
  intros Hc Hd Hn. unfold eval_step, OP_16, MAX_OPS_PER_SCRIPT in *. cbv zeta.
  assert (GetOp (c :: rest) = mkOp true rest c []) as ->.
  { cbn [GetOp]. unfold OP_PUSHDATA4. destruct (Z.leb_spec c 0x4e); [lia|done]. }
  cbn [op_ok op_code op_data op_pc negb]. rewrite Hd. change (size [] >? MAX_SCRIPT_ELEMENT_SIZE) with false.
  replace (c >? 0x60) with true by (symmetry; apply Z.gtb_gt; lia). cbn [andb nOpCount vfExec stack altstack pbegincodehash].
  rewrite u32_small by lia. replace (n + 1 >? 201) with false by (symmetry; rewrite Z.gtb_ltb; apply Z.ltb_ge; lia).
  cbn [fail_if mbind outcome_bind forallb]. unfold OP_PUSHDATA4.
  replace (c <=? 0x4e) with false by (symmetry; apply Z.leb_gt; lia). by rewrite andb_false_r.
Qed.
Lemma op_hash160 v s a e code n :
  op_hash OP_HASH160 (mkEstate (v :: s) a e code n) = Ok (mkEstate (Hash160 v :: s) a e code n).
Proof.
  unfold op_hash, Hash160. cbn [stack].
  change (OP_HASH160 =? OP_RIPEMD160) with false. change (OP_HASH160 =? OP_SHA1) with false.
  change (OP_HASH160 =? OP_SHA256) with false. rewrite Z.eqb_refl. reflexivity.
Qed.
Lemma exec_dup m pc st : exec_op flags m sigversion OP_DUP pc true st =
  match stack st with x :: _ => Ok (set_stack st (x :: stack st)) | _ => Err SCRIPT_ERR_INVALID_STACK_OPERATION end.
Proof. reflexivity. Qed.
Lemma exec_hash160 m pc st : exec_op flags m sigversion OP_HASH160 pc true st = op_hash OP_HASH160 st.
Proof. reflexivity. Qed.
Lemma exec_equalverify m pc st : exec_op flags m sigversion OP_EQUALVERIFY pc true st = op_equal OP_EQUALVERIFY st.
Proof. reflexivity. Qed.
Lemma exec_checksig m pc st : exec_op flags m sigversion OP_CHECKSIG pc true st = op_checksig flags sigversion OP_CHECKSIG st.
Proof. reflexivity. Qed.

Lemma depth_ok (s a : list valtype) : (length s + length a <= 1000)%nat ->
  fail_if (size s + size a >? 1000) SCRIPT_ERR_STACK_SIZE = Ok tt.
Proof.
  intros H. unfold fail_if. destruct (Z.gtb_spec (size s + size a) 1000); [unfold size in *; lia|done].
Qed.

(** ** Pay to public key hash *)

Lemma p2pkh_shape h : P2PKH h = OP_DUP :: OP_HASH160 :: push_data [] h ++ [OP_EQUALVERIFY; OP_CHECKSIG].
Proof. done. Qed.
(** One counted opcode on a short stack. *)
Ltac run_op lem :=
  rewrite eval_run_step by done; rewrite eval_op by (done || (unfold MAX_OPS_PER_SCRIPT; lia)); rewrite lem;
  cbn [mbind outcome_bind stack altstack set_stack].
Ltac short_stack :=
  rewrite depth_ok by (cbn [length]; lia); cbn [mbind outcome_bind]; unfold set_stack;
  cbn [vfExec pbegincodehash nOpCount altstack].
(** What the signature opcode leaves. *)
Definition checked (scriptCode : CScript) (sig pk : valtype) : outcome bool :=
  _ ← CheckSignatureEncoding sig flags;
  _ ← CheckPubKeyEncoding pk flags sigversion;
  Ok (CheckSig sig pk scriptCode sigversion).
(** The signed script: without the signature itself, for the old signature version. *)
Definition signed_code (code : CScript) (sig : valtype) : CScript :=
  if bool_decide (sigversion = SIGVERSION_BASE) then fst (FindAndDelete code (push_data [] sig)) else code.
Lemma op_checksig_checked sig pk s a e code n :
  op_checksig flags sigversion OP_CHECKSIG (mkEstate (pk :: sig :: s) a e code n) =
  (b ← checked (signed_code code sig) sig pk; Ok (mkEstate (vch_bool b :: s) a e code n)).
Proof.
  unfold op_checksig, checked, signed_code. cbn [stack pbegincodehash].
  destruct (CheckSignatureEncoding sig flags); try done. cbn [mbind outcome_bind].
  destruct (CheckPubKeyEncoding pk flags sigversion); done.
Qed.
(** The output script on a public key and a signature, whose own code is [code]. *)
Lemma eval_p2pkh sig pk h code : size h = 20 ->
  eval_run (P2PKH h) (mkEstate [pk; sig] [] [] code 0) =
  if bool_decide (Hash160 pk = h) then
    b ← checked (signed_code code sig) sig pk; Ok (mkEstate [vch_bool b] [] [] code 4)
  else Err SCRIPT_ERR_EQUALVERIFY.
Proof.
  intros Hh. rewrite p2pkh_shape. run_op exec_dup. short_stack.
  run_op exec_hash160. rewrite op_hash160. cbn [mbind outcome_bind stack altstack]. short_stack.
  rewrite eval_run_push by (unfold size, MAX_SCRIPT_ELEMENT_SIZE in *; simpl; lia).
  run_op exec_equalverify. unfold op_equal. cbn [stack].
  change (OP_EQUALVERIFY =? OP_EQUALVERIFY) with true. cbn match.
  case_bool_decide as E; [|done]. cbn [mbind outcome_bind stack altstack set_stack]. short_stack. run_op exec_checksig. rewrite op_checksig_checked.
  destruct (checked _ _ _); done.
Qed.
End payments.

(** ** What the signature signs *)

Lemma push_head b : size b <= MAX_SCRIPT_ELEMENT_SIZE -> exists t, push_data [] b = push_code b :: t.
Proof.
  unfold MAX_SCRIPT_ELEMENT_SIZE. intros H. pose proof (size_nonneg b). unfold push_data, push_code, OP_PUSHDATA1.
  destruct (Z.ltb_spec (size b) 76); [rewrite u8_small by lia; eauto|].
  destruct (size b <=? 0xff); [cbn; eauto|]. destruct (size b <=? 0xffff); cbn [app]; eauto.
Qed.
Lemma erase_none fuel pc x t n : head pc <> Some x -> FindAndDelete_erase fuel pc (x :: t) n = (pc, n).
Proof.
  intros H. destruct fuel; [done|]. cbn [FindAndDelete_erase]. case_bool_decide as E; [|done].
  destruct pc as [|y pc]; [done|]. cbn in E, H. congruence.
Qed.
(** No instruction of the script starts with the byte [x]. *)
Fixpoint heads_avoid (fuel : nat) (pc : CScript) (x : Z) : bool :=
  match fuel with
  | O => true
  | S fuel' => bool_decide (head pc <> Some x) && (negb (op_ok (GetOp pc)) || heads_avoid fuel' (op_pc (GetOp pc)) x)
  end.
Lemma FindAndDelete_loop_avoid fuel dn pc x t n : heads_avoid fuel pc x = true ->
  FindAndDelete_loop fuel dn pc (x :: t) n = (dn ++ pc, n).
Proof.
  revert dn pc; induction fuel as [|fuel IH]; intros dn pc H; [done|].
  cbn [FindAndDelete_loop heads_avoid] in *. apply andb_true_iff in H as [H1 H2]. apply bool_decide_eq_true in H1.
  rewrite erase_none by done. destruct (op_ok (GetOp pc)); [|done]. cbn [negb orb] in H2. rewrite IH by done.
  destruct (GetOp_suffix pc) as (d & E & _). f_equal. rewrite <- (assoc_L (++)). f_equal.
  set (pc' := op_pc (GetOp pc)) in *. clearbody pc'. subst pc.
  rewrite length_app, Nat.add_sub. by rewrite take_app_length.
Qed.
(** No instruction of the output starts like a push of a signature of any usual length. *)
Lemma FindAndDelete_p2pkh h sig : size h = 20 -> size sig <= MAX_SCRIPT_ELEMENT_SIZE -> size sig <> 20 ->
  FindAndDelete (P2PKH h) (push_data [] sig) = (P2PKH h, 0).
Proof.
  intros Hh Hs Hn. destruct (push_head sig Hs) as [t ->].
  assert (push_code sig <> 0x76 /\ push_code sig <> 0xa9 /\ push_code sig <> 0x14 /\ push_code sig <> 0x88 /\ push_code sig <> 0xac)
    as (N1 & N2 & N3 & N4 & N5).
  { unfold push_code, OP_PUSHDATA1, OP_PUSHDATA2, OP_PUSHDATA4.
    destruct (Z.ltb_spec (size sig) 76); [lia|]. repeat case_match; lia. }
  set (x := push_code sig) in *. clearbody x. unfold FindAndDelete.
  rewrite FindAndDelete_loop_avoid; [done|].
  assert (push_data [] h = 0x14 :: h) as Ep by (unfold push_data; rewrite Hh; done).
  assert (length (P2PKH h) = 25%nat) as ->.
  { rewrite p2pkh_shape, Ep. cbn [length app]. rewrite length_app. unfold size in Hh. cbn [length]. lia. }
  rewrite p2pkh_shape. cbn [heads_avoid]. change (GetOp (OP_DUP :: ?r)) with (mkOp true r OP_DUP []).
  cbn [op_ok op_pc negb orb]. change (GetOp (OP_HASH160 :: ?r)) with (mkOp true r OP_HASH160 []).
  cbn [op_ok op_pc negb orb]. rewrite GetOp_push_data by (rewrite size_app; unfold size in *; cbn [length]; lia).
  rewrite Ep. cbn. unfold OP_DUP, OP_HASH160, OP_EQUALVERIFY, OP_CHECKSIG. rewrite !bool_decide_eq_true_2 by congruence. done.
Qed.


(** The flag combinations the comments of [VerifyScript] allow. *)
Definition flags_ok (flags : Z) : Prop :=
  (has flags SCRIPT_VERIFY_CLEANSTACK = true -> has flags SCRIPT_VERIFY_WITNESS = true) /\
  (has flags SCRIPT_VERIFY_WITNESS = true -> has flags SCRIPT_VERIFY_P2SH = true).

Lemma eval_true_bool b s : eval_true (vch_bool b :: s) = if b then Ok tt else Err SCRIPT_ERR_EVAL_FALSE.
Proof. by destruct b. Qed.

Lemma pushes_small sig pk : 2 <= size sig <= MAX_SCRIPT_ELEMENT_SIZE -> 2 <= size pk <= MAX_SCRIPT_ELEMENT_SIZE ->
  size (pushes [sig; pk]) <= 2000.
Proof.
  assert (forall b, size b <= MAX_SCRIPT_ELEMENT_SIZE -> size (push_data [] b) <= 1000) as Hb.
  { unfold MAX_SCRIPT_ELEMENT_SIZE. intros b H. unfold push_data, size. unfold size in H.
    repeat case_match; rewrite !length_app, ?le_bytes_length; cbn [length]; lia. }
  intros H1 H2. rewrite !pushes_cons, !size_app. pose proof (Hb sig ltac:(lia)). pose proof (Hb pk ltac:(lia)).
  change (size (pushes [])) with 0. lia.
Qed.
Lemma eval_pushes_two {checker : BaseSignatureChecker} flags sig pk :
  2 <= size sig <= MAX_SCRIPT_ELEMENT_SIZE -> 2 <= size pk <= MAX_SCRIPT_ELEMENT_SIZE ->
  EvalScript [] (pushes [sig; pk]) flags SIGVERSION_BASE = Ok [pk; sig].
Proof.
  intros H1 H2. pose proof (pushes_small sig pk H1 H2) as Hs. rewrite EvalScript_run by lia.
  set (code := pushes [sig; pk]) at 2. clearbody code. rewrite !pushes_cons, size_app, size_app in *.
  change (pushes []) with (@nil Z) in *. pose proof (size_nonneg (push_data [] sig)). pose proof (size_nonneg (push_data [] pk)).
  rewrite eval_run_push; [|done|rewrite size_app; unfold size in *; cbn [length] in *; lia|done].
  rewrite eval_run_push; [|done|done|done]. done.
Qed.
Lemma p2pkh_size h : size h = 20 -> size (P2PKH h) = 25.
Proof.
  intros H. assert (push_data [] h = 0x14 :: h) as Ep by (unfold push_data; rewrite H; done).
  unfold P2PKH. rewrite Ep, !size_app. unfold size in *. cbn [length]. lia.
Qed.
Lemma p2pkh_not_witness h : size h = 20 -> IsWitnessProgram (P2PKH h) = None.
Proof. intros H. unfold IsWitnessProgram. by rewrite (p2pkh_size h H). Qed.
Lemma p2pkh_not_p2sh h : size h = 20 -> IsPayToScriptHash (P2PKH h) = false.
Proof. intros H. unfold IsPayToScriptHash. by rewrite (p2pkh_size h H). Qed.

(** A payment to the hash of a public key, spent by a push of a signature and a push
    of a key: the hash of the key is compared first, then the encodings are checked,
    then the signature over the output script itself; the result is the first
    failure, or acceptance exactly when the checker accepts the signature; under every
    valid combination of flags, the clean stack rule included. *)
Theorem VerifyScript_P2PKH (checker : BaseSignatureChecker) (flags : Z) (sig pk h : valtype)
    (Hsig : 2 <= size sig <= MAX_SCRIPT_ELEMENT_SIZE) (Hsig20 : size sig <> 20)
    (Hpk : 2 <= size pk <= MAX_SCRIPT_ELEMENT_SIZE) (Hh : size h = 20) (Hflags : flags_ok flags) :
  VerifyScript (pushes [sig; pk]) (P2PKH h) [] flags =
  if bool_decide (Hash160 pk = h) then
    _ ← CheckSignatureEncoding sig flags;
    _ ← CheckPubKeyEncoding pk flags SIGVERSION_BASE;
    if CheckSig sig pk (P2PKH h) SIGVERSION_BASE then Ok tt else Err SCRIPT_ERR_EVAL_FALSE
  else Err SCRIPT_ERR_EQUALVERIFY.
Proof.
  destruct Hflags as [Hclean Hwit]. unfold VerifyScript.
  pose proof (pushes_small sig pk Hsig Hpk) as Hsz.
  assert (IsPushOnly (pushes [sig; pk]) = true) as Hpo by (apply IsPushOnly_pushes; [lia|done]).
  rewrite Hpo. rewrite andb_false_r. cbn [fail_if mbind outcome_bind].
  rewrite eval_pushes_two by done. cbn [mbind outcome_bind].
  rewrite EvalScript_run by (rewrite (p2pkh_size h Hh); lia). rewrite eval_p2pkh by done.
  case_bool_decide; [|done]. unfold signed_code, checked. cbn [bool_decide].
  rewrite bool_decide_eq_true_2 by done. rewrite FindAndDelete_p2pkh by (done || lia). cbn [fst].
  destruct (CheckSignatureEncoding sig flags) as [[]| |]; [|done..]. cbn [mbind outcome_bind].
  destruct (CheckPubKeyEncoding pk flags SIGVERSION_BASE) as [[]| |]; [|done..].
  cbn [mbind outcome_bind vfExec stack]. rewrite eval_true_bool.
  destruct (CheckSig _ _ _ _); [|done]. cbn [mbind outcome_bind].
  unfold bare_witness, p2sh_validation. rewrite (p2pkh_not_witness h Hh), (p2pkh_not_p2sh h Hh), andb_false_r.
  destruct (has flags SCRIPT_VERIFY_WITNESS) eqn:EW.
  - rewrite Hwit by done. destruct (has flags SCRIPT_VERIFY_CLEANSTACK); done.
  - destruct (has flags SCRIPT_VERIFY_CLEANSTACK); [by discriminate Hclean|done].
Qed.
(** A checker that accepts every signature. *)
Definition accepting : BaseSignatureChecker := {|
  CheckSig := fun _ _ _ _ => true;
  CheckLockTime := fun _ => true;
  CheckSequence := fun _ => true;
|}.
Lemma VerifyScript_P2PKH_witness :
  let sig := der_signature (replicate 32 1) (replicate 32 1) 1 in
  let pk := 2 :: replicate 32 7 in
  @VerifyScript accepting (pushes [sig; pk]) (P2PKH (Hash160 pk)) [] STANDARD_SCRIPT_VERIFY_FLAGS = Ok tt.
Proof.
  intros sig pk. rewrite (VerifyScript_P2PKH accepting STANDARD_SCRIPT_VERIFY_FLAGS sig pk (Hash160 pk)).
  - vm_compute. reflexivity.
  - split; vm_compute; discriminate.
  - vm_compute. discriminate.
  - split; vm_compute; discriminate.
  - vm_compute. reflexivity.
  - split; intros _; vm_compute; reflexivity.
Defined.
