(* ===== verification/Merkle.v ===== *)
(** Merkle trees: [CBlock::BuildMerkleTree], [GetMerkleBranch] and [CheckMerkleBranch] of
    [src/src/primitives/block.cpp], the streaming computation of
    [src/src/consensus/merkle.cpp] and the partial trees of [src/src/merkleblock.cpp].
    A [uint256] is the list of its bytes in memory. Positions and sizes the code keeps
    in [int] or [size_t] are natural numbers; the 32-bit arithmetic of the partial tree
    is kept at its width. *)
From S2P Require Import Prelude Hashers.

Definition hash256 := list Z.
Definition hash_zero : hash256 := replicate 32 0.
Definition hash_eqb (a b : hash256) : bool := bool_decide (a = b).
(** [Hash(BEGIN(left), END(left), BEGIN(right), END(right))]: the double SHA-256 of the two
    strings; [CHash256().Write(left).Write(right).Finalize()] is the same object. *)
Definition hash2 (left right : hash256) : hash256 := Hash [left; right].

(** ** [CBlock] *)

(** [vMerkleTree] is a flat list: the leaves, then each level after the one below. *)
Definition tree_at (t : list hash256) (i : nat) : hash256 := nth i t hash_zero.
(** The inner loop over one level of [nSize] nodes at offset [j]. *)
Fixpoint build_level (fuel i nSize j : nat) (t : list hash256) (mutated : bool) : list hash256 * bool :=
  match fuel with
  | O => (t, mutated)
  | S fuel' =>
      if (i <? nSize)%nat then
        let i2 := Nat.min (i + 1) (nSize - 1) in
        let mutated :=
          if (i2 =? i + 1)%nat && (i2 + 1 =? nSize)%nat && hash_eqb (tree_at t (j + i)) (tree_at t (j + i2)) then true
          else mutated in
        build_level fuel' (i + 2) nSize j (t ++ [hash2 (tree_at t (j + i)) (tree_at t (j + i2))]) mutated
      else (t, mutated)
  end.
Fixpoint build_loop (fuel nSize j : nat) (t : list hash256) (mutated : bool) : list hash256 * bool :=
  match fuel with
  | O => (t, mutated)
  | S fuel' =>
      if (1 <? nSize)%nat then
        let '(t, mutated) := build_level nSize 0 nSize j t mutated in
        build_loop fuel' ((nSize + 1) / 2) (j + nSize) t mutated
      else (t, mutated)
  end.
(** The tree, the root and [*fMutated]; [txids] are the hashes of [vtx]. *)
Definition BuildMerkleTree (txids : list hash256) : list hash256 * hash256 * bool :=
  let '(t, mutated) := build_loop (length txids) (length txids) 0 txids false in
  (t, match t with [] => hash_zero | _ => List.last t hash_zero end, mutated).

(** [nIndex ^ 1] *)
Definition flip (i : nat) : nat := if Nat.even i then i + 1 else i - 1.
Fixpoint branch_loop (fuel nSize j nIndex : nat) (t : list hash256) : list hash256 :=
  match fuel with
  | O => []
  | S fuel' =>
      if (1 <? nSize)%nat then
        tree_at t (j + Nat.min (flip nIndex) (nSize - 1)) ::
        branch_loop fuel' ((nSize + 1) / 2) (j + nSize) (nIndex / 2) t
      else []
  end.
(** With [vMerkleTree] the tree of the block, or empty and built first. *)
Definition GetMerkleBranch (txids : list hash256) (vMerkleTree : list hash256) (nIndex : nat) : list hash256 :=
  let t := match vMerkleTree with [] => fst (fst (BuildMerkleTree txids)) | _ => vMerkleTree end in
  branch_loop (length txids) (length txids) 0 nIndex t.

Fixpoint check_loop (hash : hash256) (vMerkleBranch : list hash256) (nIndex : Z) {struct vMerkleBranch} : hash256 :=
  match vMerkleBranch with
  | [] => hash
  | it :: rest =>
      check_loop (if Z.odd nIndex then hash2 it hash else hash2 hash it) rest (Z.shiftr nIndex 1)
  end.
Definition CheckMerkleBranch (hash : hash256) (vMerkleBranch : list hash256) (nIndex : Z) : hash256 :=
  if nIndex =? -1 then hash_zero else check_loop hash vMerkleBranch nIndex.
(** The same loop, without the special index. *)
Definition ComputeMerkleRootFromBranch (leaf : hash256) (vMerkleBranch : list hash256) (nIndex : Z) : hash256 :=
  check_loop leaf vMerkleBranch nIndex.

(** ** [MerkleComputation] *)

(** The locals the two sweeps change; [inner] has its 32 entries. *)
Record sweep := mkSweep {
  inner : list hash256;
  matchlevel : Z;
  sh : hash256;
  matchh : bool;
  smutated : bool;
  pbranch : list hash256;
}.
(** "if (pbranch) { ... }" of the two inner loops. *)
Definition push_match (level : nat) (s : sweep) : sweep :=
  if matchh s then
    mkSweep (inner s) (matchlevel s) (sh s) true (smutated s) (pbranch s ++ [tree_at (inner s) level])
  else if matchlevel s =? Z.of_nat level then
    mkSweep (inner s) (matchlevel s) (sh s) true (smutated s) (pbranch s ++ [sh s])
  else s.
Definition set_h (s : sweep) (h : hash256) (m : bool) : sweep :=
  mkSweep (inner s) (matchlevel s) h (matchh s) m (pbranch s).
(** "For each of the lower bits in count that are 0": the final level and the state. *)
Fixpoint merge_loop (fuel : nat) (count : Z) (level : nat) (s : sweep) : nat * sweep :=
  match fuel with
  | O => (level, s)
  | S fuel' =>
      if Z.testbit count (Z.of_nat level) then (level, s)
      else
        let s := push_match level s in
        let l := tree_at (inner s) level in
        merge_loop fuel' count (S level) (set_h s (hash2 l (sh s)) (smutated s || hash_eqb l (sh s)))
  end.
(** One leaf: [count] is the number before it. *)
Definition add_leaf (branchpos : Z) (count : Z) (leaf : hash256) (s : sweep) : sweep :=
  let s := mkSweep (inner s) (matchlevel s) leaf (count =? branchpos) (smutated s) (pbranch s) in
  let '(level, s) := merge_loop 32 (u32 (count + 1)) 0 s in
  mkSweep (<[level := sh s]> (inner s)) (if matchh s then Z.of_nat level else matchlevel s) (sh s) (matchh s)
    (smutated s) (pbranch s).
(** The [while] loop, over what it does with one leaf. *)
Fixpoint leaves_loop (step : Z -> hash256 -> sweep -> sweep) (leaves : list hash256) (count : Z) (s : sweep)
    {struct leaves} : Z * sweep :=
  match leaves with
  | [] => (count, s)
  | leaf :: rest => leaves_loop step rest (u32 (count + 1)) (step count leaf s)
  end.
Fixpoint low_bit (fuel : nat) (count : Z) (level : nat) : nat :=
  match fuel with
  | O => level
  | S fuel' => if Z.testbit count (Z.of_nat level) then level else low_bit fuel' count (S level)
  end.
(** "propagate the result upwards accordingly" *)
Fixpoint up_loop (fuel : nat) (count : Z) (level : nat) (s : sweep) : nat * sweep :=
  match fuel with
  | O => (level, s)
  | S fuel' =>
      if Z.testbit count (Z.of_nat level) then (level, s)
      else
        let s := push_match level s in
        up_loop fuel' count (S level) (set_h s (hash2 (tree_at (inner s) level) (sh s)) (smutated s))
  end.
Fixpoint final_loop (fuel : nat) (count : Z) (level : nat) (s : sweep) : sweep :=
  match fuel with
  | O => s
  | S fuel' =>
      if count =? 2 ^ Z.of_nat level then s
      else
        let s := if matchh s then mkSweep (inner s) (matchlevel s) (sh s) (matchh s) (smutated s) (pbranch s ++ [sh s]) else s in
        let s := set_h s (hash2 (sh s) (sh s)) (smutated s) in
        let count := u32 (count + 2 ^ Z.of_nat level) in
        let '(level, s) := up_loop 32 count (S level) s in
        final_loop fuel' count level s
  end.
(** The root, the mutation flag and the branch; [inner] starts undefined. *)
Definition MerkleComputation (junk : list hash256) (leaves : list hash256) (branchpos : Z)
  : hash256 * bool * list hash256 :=
  match leaves with
  | [] => (hash_zero, false, [])
  | _ =>
      let '(count, s) := leaves_loop (add_leaf branchpos) leaves 0 (mkSweep junk (-1) hash_zero false false []) in
      let level := low_bit 32 count 0 in
      let s := mkSweep (inner s) (matchlevel s) (tree_at (inner s) level) (matchlevel s =? Z.of_nat level) (smutated s) (pbranch s) in
      let s := final_loop 32 count level s in
      (sh s, smutated s, pbranch s)
  end.
Definition ComputeMerkleRoot (junk leaves : list hash256) : hash256 * bool :=
  let '(hash, mutated, _) := MerkleComputation junk leaves (u32 (-1)) in (hash, mutated).
Definition ComputeMerkleBranch (junk leaves : list hash256) (position : Z) : list hash256 :=
  let '(_, _, ret) := MerkleComputation junk leaves position in ret.

(** ** The tree by levels *)

(** The level above [l]: pairs, the last one alone paired with itself. *)
Fixpoint pair_up (l : list hash256) : list hash256 :=
  match l with
  | [] => []
  | [x] => [hash2 x x]
  | x :: y :: r => hash2 x y :: pair_up r
  end.
Fixpoint levels (fuel : nat) (l : list hash256) : list (list hash256) :=
  match fuel with
  | O => [l]
  | S fuel' => if (1 <? length l)%nat then l :: levels fuel' (pair_up l) else [l]
  end.
Definition merkle_root (l : list hash256) : hash256 := tree_at (List.last (levels (length l) l) []) 0.
(** Two equal hashes that are a pair at the end of a level. *)
Definition tail_dup (l : list hash256) : bool :=
  match rev l with
  | y :: x :: _ => Nat.even (length l) && hash_eqb x y
  | _ => false
  end.
Lemma hash2_def a b : hash2 a b = Hash [a; b].
Proof. reflexivity. Qed.
#[local] Opaque hash2 Hash.

Lemma list_ind2 {A} (P : list A -> Prop) :
  P [] -> (forall x, P [x]) -> (forall x y l, P l -> P (x :: y :: l)) -> forall l, P l.
Proof.
  intros H0 H1 H2 l. enough (P l /\ forall x, P (x :: l)) by tauto.
  induction l as [|y l [IH1 IH2]]; split; auto.
Qed.
Lemma half_SS n : ((S (S n) + 1) / 2)%nat = S ((n + 1) / 2).
Proof. replace (S (S n) + 1)%nat with (n + 1 + 1 * 2)%nat by lia. rewrite Nat.div_add by lia. lia. Qed.
Lemma pair_up_length l : length (pair_up l) = ((length l + 1) / 2)%nat.
Proof.
  induction l as [|x|x y l IH] using list_ind2; [done|done|].
  cbn [pair_up length]. by rewrite half_SS, IH.
Qed.
Lemma pair_up_at l i : (i < length (pair_up l))%nat ->
  tree_at (pair_up l) i = hash2 (tree_at l (2 * i)) (tree_at l (Nat.min (2 * i + 1) (length l - 1))).
Proof.
  revert i; induction l as [|x|x y l IH] using list_ind2; intros i H; [simpl in H; lia|destruct i; [done|simpl in H; lia]|].
  destruct i as [|i]; [done|]. cbn [pair_up length] in H. specialize (IH i ltac:(lia)).
  pose proof (pair_up_length l) as Hl.
  assert (1 <= length l)%nat.
  { destruct (length l) eqn:E; [|lia]. destruct l; [|done]. simpl in *. lia. }
  unfold tree_at in *. cbn [pair_up nth length]. rewrite IH.
  replace (Nat.min (2 * S i + 1) (S (S (length l)) - 1)) with (S (S (Nat.min (2 * i + 1) (length l - 1)))) by lia.
  replace (2 * S i)%nat with (S (S (2 * i))) by lia. done.
Qed.
Lemma pair_up_shorter l : (1 < length l)%nat -> (1 <= length (pair_up l) < length l)%nat.
Proof. rewrite pair_up_length. intros H. pose proof (Nat.div_mod_eq (length l + 1) 2). pose proof (Nat.mod_upper_bound (length l + 1) 2). lia. Qed.
Lemma levels_fuel f1 f2 l : (length l <= f1)%nat -> (length l <= f2)%nat -> levels f1 l = levels f2 l.
Proof.
  revert f2 l; induction f1 as [|f1 IH]; intros [|f2] l H1 H2; [done|..].
  - destruct l; [done|simpl in H1; lia].
  - destruct l; [done|simpl in H2; lia].
  - cbn [levels]. destruct (Nat.ltb_spec 1 (length l)) as [Hl|]; [|done].
    pose proof (pair_up_shorter l Hl). f_equal. apply IH; lia.
Qed.
Lemma merkle_root_up l : (1 < length l)%nat -> merkle_root (pair_up l) = merkle_root l.
Proof.
  intros H. unfold merkle_root. pose proof (pair_up_shorter l H).
  destruct (length l) as [|n] eqn:E; [lia|]. cbn [levels]. rewrite E. destruct (Nat.ltb_spec 1 (S n)); [|lia].
  rewrite (levels_fuel (length (pair_up l)) n) by lia.
  assert (levels n (pair_up l) <> []) as Hne by (destruct n; simpl; repeat case_match; done).
  destruct (levels n (pair_up l)); done.
Qed.
Lemma merkle_root_one x : merkle_root [x] = x.
Proof. done. Qed.

(** Level [h] of the tree. *)
Definition lvl (h : nat) (l : list hash256) : list hash256 := Nat.iter h pair_up l.
Lemma lvl_S h l : lvl (S h) l = pair_up (lvl h l).
Proof. done. Qed.
Lemma merkle_root_lvl k l : (forall j, (j < k)%nat -> (1 < length (lvl j l))%nat) -> merkle_root (lvl k l) = merkle_root l.
Proof.
  induction k as [|k IH]; intros H; [done|]. rewrite lvl_S, merkle_root_up by (apply H; lia). apply IH. auto.
Qed.

(** ** The flat tree *)

Lemma tree_at_pre pre l i : tree_at (pre ++ l) (length pre + i) = tree_at l i.
Proof. unfold tree_at. rewrite app_nth2 by lia. f_equal. lia. Qed.
Lemma tree_at_app l r i : (i < length l)%nat -> tree_at (l ++ r) i = tree_at l i.
Proof. intros H. unfold tree_at. by rewrite app_nth1. Qed.
Lemma tail_dup_cons2 x y l : l <> [] -> tail_dup (x :: y :: l) = tail_dup l.
Proof.
  intros Hl. unfold tail_dup. cbn [rev length Nat.even]. destruct (rev l) as [|a [|b r]] eqn:E.
  - apply (f_equal length) in E. rewrite length_rev in E. by destruct l.
  - apply (f_equal length) in E. rewrite length_rev in E. simpl in E. rewrite E. done.
  - rewrite <- app_assoc. done.
Qed.
Lemma build_level_spec fuel i pre lo hi dn m : length lo = i -> (length hi <= fuel)%nat -> Nat.even i = true ->
  build_level fuel i (length (lo ++ hi)) (length pre) (pre ++ (lo ++ hi) ++ dn) m =
  (pre ++ (lo ++ hi) ++ dn ++ pair_up hi, m || tail_dup hi).
Proof.
  revert i lo hi dn m; induction fuel as [|fuel IH]; intros i lo hi dn m Hlo Hf He.
  - destruct hi; [|simpl in Hf; lia]. cbn [build_level pair_up]. rewrite !app_nil_r. by rewrite orb_false_r.
  - cbn [build_level]. destruct hi as [|x hi].
    { rewrite app_nil_r. destruct (Nat.ltb_spec i (length lo)); [lia|]. cbn [pair_up]. rewrite !app_nil_r. by rewrite orb_false_r. }
    rewrite length_app. cbn [length]. destruct (Nat.ltb_spec i (length lo + S (length hi))); [|lia]. cbv zeta.
    rewrite !tree_at_pre.
    assert (tree_at ((lo ++ x :: hi) ++ dn) i = x) as ->.
    { unfold tree_at. rewrite <- app_assoc, app_nth2 by lia. replace (i - length lo)%nat with O by lia. done. }
    destruct hi as [|y hi].
    + replace (Nat.min (i + 1) (length lo + S (length []) - 1)) with i by (cbn [length]; lia).
      destruct (Nat.eqb_spec i (i + 1)); [lia|]. cbn [andb].
      assert (tree_at ((lo ++ [x]) ++ dn) i = x) as ->.
      { unfold tree_at. rewrite <- app_assoc, app_nth2 by lia. replace (i - length lo)%nat with O by lia. done. }
      assert (forall f t b, build_level f (i + 2) (length lo + 1) (length pre) t b = (t, b)) as Hend.
      { intros [|f] t b; [done|]. cbn [build_level]. destruct (Nat.ltb_spec (i + 2) (length lo + 1)); [lia|done]. }
      rewrite Hend. cbn [pair_up]. unfold tail_dup; cbn [rev app]. rewrite orb_false_r. by rewrite <- !app_assoc.
    + replace (Nat.min (i + 1) (length lo + S (length (y :: hi)) - 1)) with (S i) by (cbn [length]; lia).
      destruct (Nat.eqb_spec (S i) (i + 1)); [|lia]. cbn [andb].
      assert (tree_at ((lo ++ x :: y :: hi) ++ dn) (S i) = y) as ->.
      { unfold tree_at. rewrite <- app_assoc, app_nth2 by lia. replace (S i - length lo)%nat with 1%nat by lia. done. }
      replace ((pre ++ (lo ++ x :: y :: hi) ++ dn) ++ [hash2 x y])
        with (pre ++ ((lo ++ [x; y]) ++ hi) ++ (dn ++ [hash2 x y])) by (rewrite <- !app_assoc; done).
      replace (length lo + S (length (y :: hi)))%nat with (length ((lo ++ [x; y]) ++ hi))
        by (rewrite !length_app; cbn [length]; lia).
      rewrite IH; [|rewrite length_app; cbn [length]; lia|cbn [length] in Hf; lia|by rewrite Nat.even_add, He].
      cbn [pair_up]. f_equal; [rewrite <- !app_assoc; done|].
      destruct hi as [|z hi].
      * rewrite !length_app. cbn [length]. destruct (Nat.eqb_spec (S i + 1) (length lo + 2 + 0)); [|lia].
        unfold tail_dup. cbn [rev app length Nat.even andb]. destruct (hash_eqb x y), m; done.
      * rewrite !length_app. cbn [length]. destruct (Nat.eqb_spec (S i + 1) (length lo + 2 + S (length hi))); [lia|].
        cbn [andb]. by rewrite tail_dup_cons2.
Qed.

Lemma build_loop_spec fuel l pre m : (length l <= fuel)%nat ->
  build_loop fuel (length l) (length pre) (pre ++ l) m =
  (pre ++ concat (levels fuel l), m || existsb tail_dup (removelast (levels fuel l))).
Proof.
  revert l pre m; induction fuel as [|fuel IH]; intros l pre m Hf.
  - simpl. by rewrite app_nil_r, orb_false_r.
  - cbn [build_loop levels]. destruct (Nat.ltb_spec 1 (length l)) as [Hl|].
    2: { simpl. by rewrite app_nil_r, orb_false_r. }
    pose proof (build_level_spec (length l) 0 pre [] l [] m eq_refl ltac:(lia) eq_refl) as Hb.
    cbn [app] in Hb. rewrite !app_nil_r in Hb. rewrite Hb. clear Hb.
    pose proof (pair_up_shorter l Hl).
    replace ((length l + 1) / 2)%nat with (length (pair_up l)) by apply pair_up_length.
    replace (length pre + length l)%nat with (length (pre ++ l)) by apply length_app.
    rewrite (app_assoc pre l), IH by lia.
    assert (levels fuel (pair_up l) <> []) as Hne by (destruct fuel; simpl; repeat case_match; done).
    destruct (levels fuel (pair_up l)) as [|a r] eqn:E; [done|]. cbn [concat removelast existsb].
    f_equal; [by rewrite <- !app_assoc|]. by rewrite orb_assoc.
Qed.
Lemma last_concat_levels fuel l : (length l <= fuel)%nat -> l <> [] ->
  exists r, concat (levels fuel l) = r ++ [tree_at (List.last (levels fuel l) []) 0].
Proof.
  revert l; induction fuel as [|fuel IH]; intros l Hf Hl; [by destruct l; [|simpl in Hf; lia]|].
  cbn [levels]. destruct (Nat.ltb_spec 1 (length l)) as [Hl1|Hl1].
  - pose proof (pair_up_shorter l Hl1). destruct (IH (pair_up l)) as [r E]; [lia|by destruct (pair_up l); simpl in *; [lia|]|].
    assert (levels fuel (pair_up l) <> []) as Hne by (destruct fuel; simpl; repeat case_match; done).
    exists (l ++ r). cbn [concat]. rewrite E. destruct (levels fuel (pair_up l)); [done|]. by rewrite app_assoc.
  - destruct l as [|x [|]]; [done| |simpl in Hl1; lia]. by exists [].
Qed.
Lemma BuildMerkleTree_spec l :
  BuildMerkleTree l =
  (concat (levels (length l) l), merkle_root l, existsb tail_dup (removelast (levels (length l) l))).
Proof.
  unfold BuildMerkleTree.
  pose proof (build_loop_spec (length l) l [] false ltac:(lia)) as H. cbn [app length orb] in H. rewrite H. clear H.
  f_equal. f_equal. destruct l as [|x l]; [done|].
  destruct (last_concat_levels (length (x :: l)) (x :: l)) as [r ->]; [lia|done|].
  unfold merkle_root. set (t := tree_at _ _). destruct r as [|y r]; [done|].
  cbn [app]. by rewrite app_comm_cons, last_last.
Qed.

(** ** Branches *)

(** The siblings on the way up from leaf [i]. *)
Fixpoint branch (fuel : nat) (l : list hash256) (i : nat) : list hash256 :=
  match fuel with
  | O => []
  | S fuel' =>
      if (1 <? length l)%nat then tree_at l (Nat.min (flip i) (length l - 1)) :: branch fuel' (pair_up l) (i / 2) else []
  end.
Lemma levels_head fuel l : exists r, concat (levels fuel l) = l ++ r.
Proof. destruct fuel; simpl; [by exists []|]. case_match; simpl; [eauto|by exists []]. Qed.
Lemma branch_loop_spec fuel l pre i : (length l <= fuel)%nat ->
  branch_loop fuel (length l) (length pre) i (pre ++ concat (levels fuel l)) = branch fuel l i.
Proof.
  revert l pre i; induction fuel as [|fuel IH]; intros l pre i Hf; [done|]. cbn [branch_loop branch levels].
  destruct (Nat.ltb_spec 1 (length l)) as [Hl|]; [|done]. pose proof (pair_up_shorter l Hl). cbn [concat].
  rewrite tree_at_pre, tree_at_app by lia. f_equal.
  replace ((length l + 1) / 2)%nat with (length (pair_up l)) by apply pair_up_length.
  replace (length pre + length l)%nat with (length (pre ++ l)) by apply length_app.
  rewrite app_assoc. apply IH. lia.
Qed.
Lemma GetMerkleBranch_spec l vMerkleTree i : vMerkleTree = [] \/ vMerkleTree = fst (fst (BuildMerkleTree l)) ->
  GetMerkleBranch l vMerkleTree i = branch (length l) l i.
Proof.
  intros H. unfold GetMerkleBranch.
  replace (match vMerkleTree with [] => fst (fst (BuildMerkleTree l)) | _ :: _ => vMerkleTree end)
    with (fst (fst (BuildMerkleTree l))) by (destruct H as [-> | ->]; [done|by case_match]).
  rewrite BuildMerkleTree_spec. cbn [fst]. by apply (branch_loop_spec (length l) l []).
Qed.
Lemma halves i : exists k, (i / 2)%nat = k /\
  (i = (2 * k)%nat /\ Z.odd (Z.of_nat i) = false /\ flip i = (2 * k + 1)%nat \/
   i = (2 * k + 1)%nat /\ Z.odd (Z.of_nat i) = true /\ flip i = (2 * k)%nat).
Proof.
  exists (i / 2)%nat. split; [done|]. unfold flip. pose proof (Nat.div_mod_eq i 2) as Hd. set (k := (i / 2)%nat) in *. clearbody k.
  pose proof (Nat.mod_upper_bound i 2 ltac:(lia)) as Hm.
  destruct (i mod 2)%nat as [|[|]]; [left|right|lia]; assert (i = (2 * k)%nat \/ i = (2 * k + 1)%nat) as Hi by lia.
  - assert (i = (2 * k)%nat) as -> by lia. rewrite Nat.even_mul. split; [done|]. split; [|simpl; lia].
    by rewrite Nat2Z.inj_mul, Z.odd_mul.
  - assert (i = (2 * k + 1)%nat) as -> by lia. rewrite Nat.even_add, Nat.even_mul. split; [done|]. split; [|simpl; lia].
    by rewrite Nat2Z.inj_add, Nat2Z.inj_mul, Z.odd_add, Z.odd_mul.
Qed.
(** One step of the check goes from a node to its parent. *)
Lemma parent l i : (i < length l)%nat -> (1 < length l)%nat ->
  tree_at (pair_up l) (i / 2) =
  (if Z.odd (Z.of_nat i) then hash2 (tree_at l (Nat.min (flip i) (length l - 1))) (tree_at l i)
   else hash2 (tree_at l i) (tree_at l (Nat.min (flip i) (length l - 1)))) /\ (i / 2 < length (pair_up l))%nat.
Proof.
  intros Hi Hl. pose proof (pair_up_length l) as Hp.
  pose proof (Nat.div_mod_eq (length l + 1) 2). pose proof (Nat.mod_upper_bound (length l + 1) 2 ltac:(lia)).
  destruct (halves i) as (k & -> & [(-> & -> & ->)|(-> & -> & ->)]).
  - rewrite pair_up_at by lia. split; [done|lia].
  - rewrite pair_up_at by lia. rewrite !(Nat.min_l _ (length l - 1)) by lia. split; [done|lia].
Qed.
Lemma shiftr_half i : Z.shiftr (Z.of_nat i) 1 = Z.of_nat (i / 2).
Proof. rewrite Z.shiftr_div_pow2 by lia. by rewrite Nat2Z.inj_div. Qed.
Lemma check_branch fuel l i : (length l <= fuel)%nat -> (i < length l)%nat ->
  check_loop (tree_at l i) (branch fuel l i) (Z.of_nat i) = merkle_root l.
Proof.
  revert l i; induction fuel as [|fuel IH]; intros l i Hf Hi; [lia|]. cbn [branch].
  destruct (Nat.ltb_spec 1 (length l)) as [Hl|Hl].
  - cbn [check_loop]. destruct (parent l i Hi Hl) as [Hp Hi2]. rewrite <- Hp, shiftr_half.
    pose proof (pair_up_shorter l Hl). rewrite IH by lia. by apply merkle_root_up.
  - destruct l as [|x [|]]; simpl in *; try lia. assert (i = 0)%nat as -> by lia. done.
Qed.

(** ** What is hashed in a tree *)

Definition is_hash (h : hash256) : Prop := length h = 32%nat /\ Forall is_byte h.
(** The messages hashed to go from one level to the next, and in the whole tree. *)
Fixpoint pairs (l : list hash256) : list (list (list Z)) :=
  match l with
  | [] => []
  | [x] => [[x; x]]
  | x :: y :: l => [x; y] :: pairs l
  end.
Fixpoint node_inputs (fuel : nat) (l : list hash256) : list (list (list Z)) :=
  match fuel with
  | O => []
  | S fuel => if (1 <? length l)%nat then pairs l ++ node_inputs fuel (pair_up l) else []
  end.
(** And when a branch is folded. *)
Fixpoint fold_inputs (h : hash256) (br : list hash256) (i : Z) {struct br} : list (list (list Z)) :=
  match br with
  | [] => []
  | b :: br =>
      let m := if Z.odd i then [b; h] else [h; b] in
      m :: fold_inputs (if Z.odd i then hash2 b h else hash2 h b) br (Z.shiftr i 1)
  end.

Ltac in_lists := cbn [pairs]; rewrite ?list_elem_of_In, ?in_app_iff; cbn [In]; rewrite ?in_app_iff; cbn [In]; tauto.
Lemma pair_bytes (l : list (list (list Z))) a b : is_hash a -> is_hash b -> Forall (fun m => Forall is_byte (concat m)) l -> Forall (fun m => Forall is_byte (concat m)) ([a; b] :: l).
Proof. intros [_ Ha] [_ Hb] Hl. constructor; [|exact Hl]. cbn [concat]. rewrite app_nil_r. by apply Forall_app_2. Qed.
Lemma hash2_inj l a b c d : is_hash a -> is_hash b -> is_hash c -> is_hash d -> [a; b] ∈ l -> [c; d] ∈ l ->
  hash2 a b = hash2 c d -> (a = c /\ b = d) \/ clash l.
Proof.
  intros Ha Hb Hc Hd H1 H2 E. rewrite !hash2_def in E. destruct (Hash_eq [[a; b]; [c; d]] [a; b] [c; d]) as [Ec|Hx].
  - apply pair_bytes; [exact Ha|exact Hb|]. apply pair_bytes; [exact Hc|exact Hd|apply Forall_nil_2].
  - apply elem_of_cons. by left.
  - apply elem_of_cons. right. apply elem_of_cons. by left.
  - exact E.
  - left. cbn [concat] in Ec. rewrite !app_nil_r in Ec. apply app_inj_1 in Ec; [exact Ec|]. destruct Ha, Hc. congruence.
  - right. revert Hx. apply clash_incl. intros z Hz. rewrite !elem_of_cons in Hz. destruct Hz as [-> |[-> |Hz]]; [exact H1|exact H2|by apply elem_of_nil in Hz].
Qed.
Lemma hash_zero_hash : is_hash hash_zero.
Proof. split; [done|]. by apply bytes_check. Qed.
Lemma Hash_hash m : is_hash (Hash m).
Proof. split; [apply Hash_32|apply Hash_bytes]. Qed.
Lemma hash2_hash a b : is_hash (hash2 a b).
Proof. rewrite hash2_def. apply Hash_hash. Qed.
Lemma pair_up_pairs l : pair_up l = map Hash (pairs l).
Proof. induction l as [|x|x y l IH] using list_ind2; cbn [pair_up pairs map]; [reflexivity|by rewrite hash2_def|by rewrite hash2_def, IH]. Qed.
Lemma tree_at_hash l i : Forall is_hash l -> is_hash (tree_at l i).
Proof.
  intros H. unfold tree_at. destruct (le_lt_dec (length l) i); [rewrite nth_overflow by done; apply hash_zero_hash|]. by apply Forall_nth.
Qed.
Lemma pair_up_hash l : Forall is_hash (pair_up l).
Proof. induction l as [|x|x y l IH] using list_ind2; cbn [pair_up]; [constructor|constructor; [apply hash2_hash|constructor]|constructor; [apply hash2_hash|exact IH]]. Qed.
Lemma branch_hash fuel l i : Forall is_hash l -> Forall is_hash (branch fuel l i).
Proof.
  revert l i. induction fuel as [|fuel IH]; intros l i Hl; cbn [branch]; [constructor|]. case_match; [|constructor].
  constructor; [by apply tree_at_hash|]. apply IH, pair_up_hash.
Qed.
(** Two branches that fold to the same value are the same. *)
Lemma fold_binding br1 br2 h1 h2 i : length br1 = length br2 -> is_hash h1 -> is_hash h2 -> Forall is_hash br1 -> Forall is_hash br2 ->
  check_loop h1 br1 i = check_loop h2 br2 i -> (h1 = h2 /\ br1 = br2) \/ clash (fold_inputs h1 br1 i ++ fold_inputs h2 br2 i).
Proof.
  revert br2 h1 h2 i. induction br1 as [|b1 br1 IH]; intros [|b2 br2] h1 h2 i Hl H1 H2 F1 F2 E; try discriminate Hl; [by left|].
  apply Forall_cons_iff in F1 as [B1 F1], F2 as [B2 F2]. cbn [check_loop fold_inputs] in *.
  destruct (IH br2 (if Z.odd i then hash2 b1 h1 else hash2 h1 b1) (if Z.odd i then hash2 b2 h2 else hash2 h2 b2) (Z.shiftr i 1)) as [[He ->]|Hc];
    [by injection Hl|case_match; apply hash2_hash|case_match; apply hash2_hash|done|done|done| |right; revert Hc; apply clash_incl; intros z; in_lists].
  destruct (Z.odd i); match goal with |- _ \/ clash ?l => apply (hash2_inj l) in He as [[-> ->]|]; [by left|by right|done|done|done|done|in_lists|in_lists] end.
Qed.
Lemma check_binding fuel l i h br : (length l <= fuel)%nat -> (i < length l)%nat -> length br = length (branch fuel l i) ->
  Forall is_hash l -> is_hash h -> Forall is_hash br -> check_loop h br (Z.of_nat i) = merkle_root l ->
  (h = tree_at l i /\ br = branch fuel l i) \/
  clash (fold_inputs h br (Z.of_nat i) ++ fold_inputs (tree_at l i) (branch fuel l i) (Z.of_nat i)).
Proof.
  intros Hf Hi Hlen Hhl Hh Hhb Hc. apply fold_binding; [done|done|by apply tree_at_hash|done|by apply branch_hash|].
  by rewrite check_branch.
Qed.

(** The branch of a transaction checks against the root of the block: for every list
    of transaction hashes and every index, whether the tree was built before or not,
    folding the branch gives the root; and it proves inclusion: if a branch of the same
    length folds another hash to the root, then among the pairs hashed when the two are
    folded, two that differ have the same double SHA-256. *)
Theorem merkle_branch_correct (txids vMerkleTree : list hash256) (i : nat)
    (Hi : (i < length txids)%nat) (Ht : vMerkleTree = [] \/ vMerkleTree = fst (fst (BuildMerkleTree txids)))
    (Hh : Forall is_hash txids) :
  let root := snd (fst (BuildMerkleTree txids)) in
  CheckMerkleBranch (tree_at txids i) (GetMerkleBranch txids vMerkleTree i) (Z.of_nat i) = root /\
  (forall h br, is_hash h -> Forall is_hash br -> length br = length (GetMerkleBranch txids vMerkleTree i) ->
   CheckMerkleBranch h br (Z.of_nat i) = root ->
   (h = tree_at txids i /\ br = GetMerkleBranch txids vMerkleTree i) \/
   clash (fold_inputs h br (Z.of_nat i) ++ fold_inputs (tree_at txids i) (GetMerkleBranch txids vMerkleTree i) (Z.of_nat i))).
Proof.
  intros root. subst root. rewrite GetMerkleBranch_spec by done. rewrite BuildMerkleTree_spec. cbn [fst snd].
  unfold CheckMerkleBranch. destruct (Z.eqb_spec (Z.of_nat i) (-1)); [lia|]. split.
  - by apply check_branch.
  - intros h br H1 H2 H3. by apply check_binding.
Qed.
Definition leaf (n : Z) : hash256 := n :: replicate 31 0.
Lemma leaves_hash l : Forall is_byte l -> Forall is_hash (map leaf l).
Proof. intros Hl. apply Forall_map, (list.Forall_impl _ _ _ Hl). intros n Hn. split; [done|]. apply Forall_cons; [done|]. by apply bytes_check. Qed.
Lemma merkle_branch_correct_witness :
  CheckMerkleBranch (leaf 3) (GetMerkleBranch [leaf 1; leaf 2; leaf 3] [] 2) 2 =
  snd (fst (BuildMerkleTree [leaf 1; leaf 2; leaf 3])).
Proof.
  apply (merkle_branch_correct [leaf 1; leaf 2; leaf 3] [] 2).
  - cbn [length]. lia.
  - left. reflexivity.
  - apply (leaves_hash [1; 2; 3]); by apply bytes_check.
Defined.

(** ** The flag on mutated lists *)

Lemma tail_dup_drop (a b : hash256) l : tail_dup (a :: b :: l) = false -> tail_dup l = false.
Proof. intros H. destruct l as [|c l]; [done|]. by rewrite tail_dup_cons2 in H. Qed.
Lemma pair_up_binding l1 l2 : Forall is_hash l1 -> Forall is_hash l2 -> pair_up l1 = pair_up l2 ->
  tail_dup l1 = false -> tail_dup l2 = false -> l1 = l2 \/ clash (pairs l1 ++ pairs l2).
Proof.
  revert l2; induction l1 as [|x|x y l1 IH] using list_ind2; intros l2 H1 H2 E D1 D2.
  - left. destruct l2 as [|a [|b l2]]; done.
  - destruct l2 as [|a [|b l2]]; [done|..]; cbn [pair_up] in E; apply Forall_cons_iff in H1 as [Hx _], H2 as [Ha H2].
    + injection E as E. destruct (hash2_inj (pairs [x] ++ pairs [a]) x x a a) as [[-> _]|]; [done..|in_lists|in_lists|done|by left|by right].
    + injection E as E E2. apply Forall_cons_iff in H2 as [Hb H2].
      destruct (hash2_inj (pairs [x] ++ pairs (a :: b :: l2)) x x a b) as [[-> ->]|]; [done..|in_lists|in_lists|done| |by right].
      destruct l2 as [|? [|]]; [|done..]. unfold tail_dup in D2. cbn in D2. unfold hash_eqb in D2.
      by rewrite bool_decide_eq_true_2 in D2.
  - apply Forall_cons_iff in H1 as [Hx H1]. apply Forall_cons_iff in H1 as [Hy H1].
    destruct l2 as [|a [|b l2]]; [done|..]; cbn [pair_up] in E; apply Forall_cons_iff in H2 as [Ha H2]; injection E as E E2.
    + destruct (hash2_inj (pairs (x :: y :: l1) ++ pairs [a]) x y a a) as [[-> ->]|]; [done..|in_lists|in_lists|done| |by right].
      destruct l1 as [|? [|]]; [|done..]. unfold tail_dup in D1. cbn in D1. unfold hash_eqb in D1.
      by rewrite bool_decide_eq_true_2 in D1.
    + apply Forall_cons_iff in H2 as [Hb H2].
      destruct (hash2_inj (pairs (x :: y :: l1) ++ pairs (a :: b :: l2)) x y a b) as [[-> ->]|]; [done..|in_lists|in_lists|done| |by right].
      destruct (IH l2 H1 H2 E2 (tail_dup_drop _ _ _ D1) (tail_dup_drop _ _ _ D2)) as [->|Hc]; [by left|].
      right. revert Hc. apply clash_incl. intros z. in_lists.
Qed.
Lemma levels_nonempty f l : levels f l <> [].
Proof. destruct f; simpl; repeat case_match; done. Qed.
Lemma removelast_levels f l (r : list hash256) : removelast (r :: levels f l) = r :: removelast (levels f l).
Proof. pose proof (levels_nonempty f l). by destruct (levels f l). Qed.
Lemma merkle_binding f1 f2 l1 l2 : (length l1 <= f1)%nat -> (length l2 <= f2)%nat -> l1 <> [] -> l2 <> [] ->
  Forall is_hash l1 -> Forall is_hash l2 -> length (levels f1 l1) = length (levels f2 l2) ->
  existsb tail_dup (removelast (levels f1 l1)) = false -> existsb tail_dup (removelast (levels f2 l2)) = false ->
  merkle_root l1 = merkle_root l2 -> l1 = l2 \/ clash (node_inputs f1 l1 ++ node_inputs f2 l2).
Proof.
  revert f2 l1 l2; induction f1 as [|f1 IH]; intros f2 l1 l2 F1 F2 N1 N2 H1 H2 Hlen D1 D2 Hr; [by destruct l1; [|simpl in F1; lia]|].
  destruct f2 as [|f2]; [by destruct l2; [|simpl in F2; lia]|]. cbn [levels node_inputs] in *.
  destruct (Nat.ltb_spec 1 (length l1)) as [G1|G1], (Nat.ltb_spec 1 (length l2)) as [G2|G2].
  - pose proof (pair_up_shorter l1 G1). pose proof (pair_up_shorter l2 G2). cbn [length] in Hlen.
    rewrite removelast_levels in D1, D2. cbn [existsb] in D1, D2. apply orb_false_iff in D1 as [D1 D1'], D2 as [D2 D2'].
    assert (pair_up l1 <> [] /\ pair_up l2 <> []) as [P1 P2] by (by destruct l1 as [|? [|]], l2 as [|? [|]]).
    destruct (IH f2 (pair_up l1) (pair_up l2)) as [E|Hc]; [lia|lia|done|done|apply pair_up_hash|apply pair_up_hash|lia|done|done|by rewrite !merkle_root_up| |].
    + destruct (pair_up_binding l1 l2 H1 H2 E D1 D2) as [|Hc]; [by left|]. right. revert Hc. apply clash_incl. intros z. in_lists.
    + right. revert Hc. apply clash_incl. intros z. in_lists.
  - pose proof (levels_nonempty f1 (pair_up l1)). destruct (levels f1 (pair_up l1)); [done|discriminate Hlen].
  - pose proof (levels_nonempty f2 (pair_up l2)). destruct (levels f2 (pair_up l2)); [done|discriminate Hlen].
  - destruct l1 as [|x [|]], l2 as [|y [|]]; simpl in *; try lia; try done. left. rewrite !merkle_root_one in Hr. by subst.
Qed.

(** The number of levels over [n] leaves. *)
Fixpoint depth (fuel n : nat) : nat :=
  match fuel with
  | O => 1
  | S fuel' => if (1 <? n)%nat then S (depth fuel' ((n + 1) / 2)) else 1
  end.
Lemma levels_depth fuel l : length (levels fuel l) = depth fuel (length l).
Proof.
  revert l; induction fuel as [|fuel IH]; intros l; [done|]. cbn [levels depth].
  case_match; [|done]. cbn [length]. by rewrite IH, pair_up_length.
Qed.

(** C31: the defence against CVE-2012-2459 is complete for trees of the same depth: if two
    lists of transaction hashes (32 bytes each) give the same root and neither is flagged as
    mutated, they are the same list, or among the 64-byte pairs hashed to build the two trees
    two that differ have the same double SHA-256. *)
Theorem merkle_mutation_detected (l1 l2 : list hash256)
    (N1 : l1 <> []) (N2 : l2 <> []) (H1 : Forall is_hash l1) (H2 : Forall is_hash l2)
    (Hdepth : depth (length l1) (length l1) = depth (length l2) (length l2))
    (Hroot : snd (fst (BuildMerkleTree l1)) = snd (fst (BuildMerkleTree l2)))
    (M1 : snd (BuildMerkleTree l1) = false) (M2 : snd (BuildMerkleTree l2) = false) :
  l1 = l2 \/ clash (node_inputs (length l1) l1 ++ node_inputs (length l2) l2).
Proof.
  rewrite !BuildMerkleTree_spec in *. cbn [fst snd] in *.
  apply (merkle_binding (length l1) (length l2)); try done. by rewrite !levels_depth.
Qed.
Lemma merkle_mutation_detected_witness :
  let l := [leaf 1; leaf 2; leaf 3] in l = l \/ clash (node_inputs 3 l ++ node_inputs 3 l).
Proof.
  intros l. apply (merkle_mutation_detected l l).
  - discriminate.
  - discriminate.
  - apply (leaves_hash [1; 2; 3]); by apply bytes_check.
  - apply (leaves_hash [1; 2; 3]); by apply bytes_check.
  - reflexivity.
  - reflexivity.
  - vm_compute. reflexivity.
  - vm_compute. reflexivity.
Defined.
(** The last hash repeated: the root does not change, the flag does. *)
Example merkle_duplicate :
  let l := map leaf [1; 2; 3] in
  snd (fst (BuildMerkleTree (l ++ [leaf 3]))) = snd (fst (BuildMerkleTree l)) /\
  snd (BuildMerkleTree l) = false /\ snd (BuildMerkleTree (l ++ [leaf 3])) = true.
Proof. vm_compute. done. Qed.
