(* ===== verification/PartialMerkle.v ===== *)
(** Partial Merkle trees: [src/src/merkleblock.cpp] and the class of
    [src/src/merkleblock.h]. Positions and counts are [unsigned int]. *)
From S2P Require Import Prelude Hashers Merkle.

Definition MAX_BLOCK_SIZE_CURRENT : Z := 3000000.

Record CPartialMerkleTree := mkPartial {
  nTransactions : Z;
  vBits : list bool;
  vHash : list hash256;
  fBad : bool;
}.

(** [(nTransactions + (1 << height) - 1) >> height] *)
Definition CalcTreeWidth (n : Z) (height : nat) : Z :=
  Z.shiftr (u32 (u32 (n + 2 ^ Z.of_nat height) - 1)) (Z.of_nat height).

Fixpoint CalcHash (n : Z) (height : nat) (pos : Z) (vTxid : list hash256) : hash256 :=
  match height with
  | O => nth (Z.to_nat pos) vTxid hash_zero
  | S height' =>
      let left := CalcHash n height' (u32 (pos * 2)) vTxid in
      let right :=
        if u32 (u32 (pos * 2) + 1) <? CalcTreeWidth n height' then CalcHash n height' (u32 (u32 (pos * 2) + 1)) vTxid
        else left in
      hash2 left right
  end.

(** [for (p = pos << height; p < (pos + 1) << height && p < nTransactions; p++)] *)
Definition parent_of_match (n : Z) (height : nat) (pos : Z) (vMatch : list bool) : bool :=
  let first := u32 (Z.shiftl pos (Z.of_nat height)) in
  let last := Z.min (u32 (Z.shiftl (u32 (pos + 1)) (Z.of_nat height))) n in
  foldl (fun f p => f || nth (Z.to_nat p) vMatch false) false (seqZ first (last - first)).
Fixpoint TraverseAndBuild (n : Z) (height : nat) (pos : Z) (vTxid : list hash256) (vMatch : list bool)
    (bits : list bool) (hashes : list hash256) : list bool * list hash256 :=
  let fParentOfMatch := parent_of_match n height pos vMatch in
  let bits := bits ++ [fParentOfMatch] in
  match height with
  | O => (bits, hashes ++ [CalcHash n height pos vTxid])
  | S height' =>
      if negb fParentOfMatch then (bits, hashes ++ [CalcHash n height pos vTxid])
      else
        let '(bits, hashes) := TraverseAndBuild n height' (u32 (pos * 2)) vTxid vMatch bits hashes in
        if u32 (u32 (pos * 2) + 1) <? CalcTreeWidth n height' then
          TraverseAndBuild n height' (u32 (u32 (pos * 2) + 1)) vTxid vMatch bits hashes
        else (bits, hashes)
  end.

(** The counters of the extraction and what it collects. *)
Record extract := mkExtract {
  nBitsUsed : nat;
  nHashUsed : nat;
  matches : list hash256;
  bad : bool;
}.
Fixpoint TraverseAndExtract (t : CPartialMerkleTree) (height : nat) (pos : Z) (e : extract) : hash256 * extract :=
  match vBits t !! nBitsUsed e with
  | None => (hash_zero, mkExtract (nBitsUsed e) (nHashUsed e) (matches e) true)
  | Some fParentOfMatch =>
      let e := mkExtract (S (nBitsUsed e)) (nHashUsed e) (matches e) (bad e) in
      let stored (match_ : bool) :=
        match vHash t !! nHashUsed e with
        | None => (hash_zero, mkExtract (nBitsUsed e) (nHashUsed e) (matches e) true)
        | Some hash =>
            (hash, mkExtract (nBitsUsed e) (S (nHashUsed e)) (if match_ then matches e ++ [hash] else matches e) (bad e))
        end in
      match height with
      | O => stored fParentOfMatch
      | S height' =>
          if negb fParentOfMatch then stored false
          else
            let '(left_, e) := TraverseAndExtract t height' (u32 (pos * 2)) e in
            let '(right_, e) :=
              if u32 (u32 (pos * 2) + 1) <? CalcTreeWidth (nTransactions t) height' then
                TraverseAndExtract t height' (u32 (u32 (pos * 2) + 1)) e
              else (left_, e) in
            (hash2 left_ right_, e)
      end
  end.

(** [while (CalcTreeWidth(nHeight) > 1) nHeight++;] *)
Fixpoint tree_height (fuel : nat) (n : Z) (nHeight : nat) : nat :=
  match fuel with
  | O => nHeight
  | S fuel' => if CalcTreeWidth n nHeight >? 1 then tree_height fuel' n (S nHeight) else nHeight
  end.

(** The constructor from the hashes and the mask. *)
Definition construct_partial (vTxid : list hash256) (vMatch : list bool) : CPartialMerkleTree :=
  let n := u32 (Z.of_nat (length vTxid)) in
  let '(bits, hashes) := TraverseAndBuild n (tree_height 32 n 0) 0 vTxid vMatch [] [] in
  mkPartial n bits hashes false.
Definition empty_partial : CPartialMerkleTree := mkPartial 0 [] [] true.

(** The root, or zero, and [vMatch]; [fBad] is an object member and stays set. *)
Definition ExtractMatches (t : CPartialMerkleTree) : hash256 * list hash256 * CPartialMerkleTree :=
  if nTransactions t =? 0 then (hash_zero, [], t)
  else if nTransactions t >? MAX_BLOCK_SIZE_CURRENT / 60 then (hash_zero, [], t)
  else if Z.of_nat (length (vHash t)) >? nTransactions t then (hash_zero, [], t)
  else if (length (vBits t) <? length (vHash t))%nat then (hash_zero, [], t)
  else
    let '(hashMerkleRoot, e) := TraverseAndExtract t (tree_height 32 (nTransactions t) 0) 0 (mkExtract 0 0 [] (fBad t)) in
    let t' := mkPartial (nTransactions t) (vBits t) (vHash t) (bad e) in
    if bad e then (hash_zero, matches e, t')
    else if negb ((nBitsUsed e + 7) / 8 =? (length (vBits t) + 7) / 8)%nat then (hash_zero, matches e, t')
    else if negb (nHashUsed e =? length (vHash t))%nat then (hash_zero, matches e, t')
    else (hashMerkleRoot, matches e, t').

(** The bytes of [vBits] in a message, and back ([us.vBits.resize(vBytes.size() * 8)]). *)
Definition bits_byte (l : list bool) : Z := foldr (fun (b : bool) a => Z.b2z b + 2 * a) 0 l.
Fixpoint bits_to_bytes (fuel : nat) (l : list bool) : list Z :=
  match fuel, l with
  | O, _ | _, [] => []
  | S fuel', _ => bits_byte (take 8 l) :: bits_to_bytes fuel' (drop 8 l)
  end.
Definition bytes_to_bits (l : list Z) : list bool :=
  concat (map (fun b => map (fun i => Z.testbit b (Z.of_nat i)) (seq 0 8)) l).
Definition serialized (t : CPartialMerkleTree) : Z * list hash256 * list Z :=
  (nTransactions t, vHash t, bits_to_bytes (length (vBits t)) (vBits t)).
Definition deserialized (m : Z * list hash256 * list Z) : CPartialMerkleTree :=
  let '(n, hashes, vBytes) := m in mkPartial n (bytes_to_bits vBytes) hashes false.

(** ** The nodes of the tree *)

#[local] Opaque hash2.
(** The size of the blocks the extraction accepts, and heights that do not wrap. *)
Definition small (n : Z) : Prop := 0 < n <= MAX_BLOCK_SIZE_CURRENT / 60.

Lemma width_div n h : small n -> (h <= 20)%nat -> CalcTreeWidth n h = (n + 2 ^ Z.of_nat h - 1) / 2 ^ Z.of_nat h.
Proof.
  intros Hn Hh. unfold CalcTreeWidth, small in *. change (MAX_BLOCK_SIZE_CURRENT / 60) with 50000 in Hn.
  assert (0 < 2 ^ Z.of_nat h <= 2 ^ 20) by (split; [lia|apply Z.pow_le_mono_r; lia]).
  rewrite (u32_small (n + _)), u32_small, Z.shiftr_div_pow2 by lia. done.
Qed.
Lemma width_S n h : small n -> (h < 20)%nat -> CalcTreeWidth n (S h) = (CalcTreeWidth n h + 1) / 2.
Proof.
  intros Hn Hh. rewrite !width_div by (done || lia). rewrite Nat2Z.inj_succ, Z.pow_succ_r by lia.
  assert (0 < 2 ^ Z.of_nat h) by lia. set (w := 2 ^ Z.of_nat h) in *. clearbody w.
  rewrite <- (Z.div_add (n + w - 1) 1 w) by lia. rewrite Z.div_div by lia. f_equal; lia.
Qed.
Lemma lvl_length n h l : small n -> n = Z.of_nat (length l) -> (h <= 20)%nat ->
  CalcTreeWidth n h = Z.of_nat (length (lvl h l)).
Proof.
  intros Hs Hn. induction h as [|h IH]; intros Hh.
  - rewrite width_div by (done || lia). change (2 ^ Z.of_nat 0) with 1. rewrite Z.div_1_r. cbn. lia.
  - rewrite width_S, IH by (done || lia). rewrite lvl_S. rewrite pair_up_length.
    rewrite Nat2Z.inj_div, Nat2Z.inj_add. done.
Qed.
Lemma lvl_pos n h p l : small n -> n = Z.of_nat (length l) -> (h <= 20)%nat -> (p < length (lvl h l))%nat ->
  (p * 2 ^ h < length l)%nat /\ Z.of_nat p < 2 ^ 20.
Proof.
  intros Hs Hn Hh Hp. pose proof (lvl_length n h l Hs Hn Hh) as Hw. rewrite width_div in Hw by done.
  assert (0 < 2 ^ Z.of_nat h) as H0 by lia. pose proof (Z.div_mod (n + 2 ^ Z.of_nat h - 1) (2 ^ Z.of_nat h) ltac:(lia)) as Hd.
  pose proof (Z.mod_pos_bound (n + 2 ^ Z.of_nat h - 1) (2 ^ Z.of_nat h) H0). rewrite Hw in Hd.
  assert (Z.of_nat (p * 2 ^ h) < n) as Hlt.
  { rewrite Nat2Z.inj_mul, Nat2Z.inj_pow. change (Z.of_nat 2) with 2. nia. }
  split; [lia|]. unfold small in Hs. change (MAX_BLOCK_SIZE_CURRENT / 60) with 50000 in Hs.
  rewrite Nat2Z.inj_mul, Nat2Z.inj_pow in Hlt. change (Z.of_nat 2) with 2 in Hlt. nia.
Qed.
(** The children of a node: the second may be missing, at the right end only. *)
Lemma children n h p l : small n -> n = Z.of_nat (length l) -> (h < 20)%nat -> (p < length (lvl (S h) l))%nat ->
  u32 (Z.of_nat p * 2) = Z.of_nat (2 * p) /\ u32 (u32 (Z.of_nat p * 2) + 1) = Z.of_nat (2 * p + 1) /\
  (u32 (u32 (Z.of_nat p * 2) + 1) <? CalcTreeWidth n h) = (2 * p + 1 <? length (lvl h l))%nat /\
  (2 * p < length (lvl h l))%nat /\
  ((2 * p + 1 < length (lvl h l))%nat \/ length (lvl h l) = (2 * p + 1)%nat).
Proof.
  intros Hs Hn Hh Hp. destruct (lvl_pos n (S h) p l Hs Hn ltac:(lia) Hp) as [_ Hb].
  rewrite (u32_small (Z.of_nat p * 2)) by lia. rewrite u32_small by lia.
  rewrite (lvl_length n h l) by (done || lia).
  assert (2 * p < length (lvl h l))%nat as H2.
  { rewrite lvl_S in Hp. rewrite pair_up_length in Hp.
    pose proof (Nat.div_mod_eq (length (lvl h l) + 1) 2). pose proof (Nat.mod_upper_bound (length (lvl h l) + 1) 2 ltac:(lia)). lia. }
  split_and!; try lia.
  destruct (Z.ltb_spec (Z.of_nat p * 2 + 1) (Z.of_nat (length (lvl h l)))), (Nat.ltb_spec (2 * p + 1) (length (lvl h l))); (done || lia).
Qed.
Lemma CalcHash_lvl n h p l : small n -> n = Z.of_nat (length l) -> (h <= 20)%nat -> (p < length (lvl h l))%nat ->
  CalcHash n h (Z.of_nat p) l = tree_at (lvl h l) p.
Proof.
  intros Hs Hn. revert p; induction h as [|h IH]; intros p Hh Hp; cbn [CalcHash].
  - by rewrite Nat2Z.id.
  - destruct (children n h p l Hs Hn ltac:(lia) Hp) as (-> & E2 & E3 & H2 & Hc).
    rewrite E2 in *. rewrite E3. rewrite lvl_S in *. rewrite pair_up_at by done.
    rewrite IH by lia. destruct (Nat.ltb_spec (2 * p + 1) (length (lvl h l))).
    + rewrite IH by lia. f_equal. f_equal. lia.
    + f_equal. f_equal. lia.
Qed.

(** ** The matched leaves under a node *)
Definition under (z : list (bool * hash256)) (h p : nat) : list (bool * hash256) := take (2 ^ h) (drop (p * 2 ^ h) z).
Definition pick (z : list (bool * hash256)) : list hash256 := map snd (filter (fun x => x.1 = true) z).

Lemma under_S z h p : under z (S h) p = under z h (2 * p) ++ under z h (2 * p + 1).
Proof.
  unfold under. replace (2 ^ S h)%nat with (2 ^ h + 2 ^ h)%nat by (simpl; lia).
  replace (p * (2 ^ h + 2 ^ h))%nat with (2 * p * 2 ^ h)%nat by lia.
  rewrite <- take_take_drop, drop_drop. f_equal. f_equal. f_equal. lia.
Qed.
Lemma pick_app z1 z2 : pick (z1 ++ z2) = pick z1 ++ pick z2.
Proof. unfold pick. by rewrite list.filter_app, map_app. Qed.
Lemma under_beyond z h p : (length z <= p * 2 ^ h)%nat -> under z h p = [].
Proof. intros H. unfold under. by rewrite drop_ge, take_nil. Qed.
Lemma pick_none z : existsb fst z = false -> pick z = [].
Proof.
  induction z as [|[b x] z IH]; [done|]. cbn [existsb fst]. intros H. apply orb_false_iff in H as [-> H].
  unfold pick in *. rewrite filter_cons_False by done. auto.
Qed.
Lemma foldl_orb {A} (g : A -> bool) l b : foldl (fun f p => f || g p) b l = b || existsb g l.
Proof. revert b; induction l as [|x l IH]; intros b; cbn; [by rewrite orb_false_r|]. by rewrite IH, orb_assoc. Qed.

Lemma parent_of_match_spec n h p (l : list hash256) m : small n -> n = Z.of_nat (length l) -> length m = length l -> (h <= 20)%nat ->
  (p < length (lvl h l))%nat ->
  parent_of_match n h (Z.of_nat p) m = existsb fst (under (zip m l) h p).
Proof.
  intros Hs Hn Hm Hh Hp. destruct (lvl_pos n h p l Hs Hn Hh Hp) as [Hlt Hp20].
  assert (n <= 50000) as Hn5 by (unfold small in Hs; change (MAX_BLOCK_SIZE_CURRENT / 60) with 50000 in Hs; lia).
  unfold parent_of_match. rewrite foldl_orb. cbn [orb].
  assert (0 < 2 ^ Z.of_nat h <= 2 ^ 20) as Hw by (split; [lia|apply Z.pow_le_mono_r; lia]).
  assert (Z.of_nat (2 ^ h) = 2 ^ Z.of_nat h) as Ew by (rewrite Nat2Z.inj_pow; done).
  assert (Z.of_nat p * 2 ^ Z.of_nat h < n) as Hlt' by (rewrite <- Ew; lia).
  rewrite (u32_small (Z.of_nat p + 1)) by lia. rewrite !Z.shiftl_mul_pow2 by lia. rewrite !u32_small by lia.
  apply eq_iff_eq_true. rewrite !existsb_exists. split.
  - intros (q & Hq & Hmq). rewrite <- list_elem_of_In in Hq. apply elem_of_seqZ in Hq. rewrite <- Ew in Hq.
    destruct (lookup_lt_is_Some_2 l (Z.to_nat q) ltac:(lia)) as [x Hx].
    exists (true, x). split; [|done]. rewrite <- list_elem_of_In. apply list_elem_of_lookup.
    exists (Z.to_nat q - p * 2 ^ h)%nat. unfold under. rewrite lookup_take_lt by lia. rewrite lookup_drop.
    replace (p * 2 ^ h + (Z.to_nat q - p * 2 ^ h))%nat with (Z.to_nat q) by lia.
    apply lookup_zip_with_Some. exists true, x. split_and!; [done| |done].
    destruct (lookup_lt_is_Some_2 m (Z.to_nat q) ltac:(lia)) as [b Hb]. rewrite Hb. f_equal.
    by rewrite (nth_lookup_Some _ _ _ _ Hb) in Hmq.
  - intros ([b x] & Hin & Hb). cbn in Hb. subst b. rewrite <- list_elem_of_In in Hin. apply list_elem_of_lookup in Hin as [i Hi].
    unfold under in Hi. apply lookup_take_Some in Hi as [Hi Hi2]. rewrite lookup_drop in Hi.
    apply lookup_zip_with_Some in Hi as (b' & x' & E & Hb & Hx). injection E as <- <-.
    pose proof (lookup_lt_Some _ _ _ Hx). exists (Z.of_nat (p * 2 ^ h + i)). split.
    + rewrite <- list_elem_of_In. apply elem_of_seqZ. rewrite <- Ew. lia.
    + rewrite Nat2Z.id. by rewrite (nth_lookup_Some _ _ _ _ Hb).
Qed.

(** ** Building, then extracting *)

Lemma lookup_at {A} (l r r' : list A) x : (l ++ (x :: r) ++ r') !! length l = Some x.
Proof. cbn [app]. by rewrite list_lookup_middle. Qed.
(** What the traversal of a node appends, and what reading it back gives. *)
Lemma traverse_spec n h p l m : small n -> n = Z.of_nat (length l) -> length m = length l -> (h <= 20)%nat ->
  (p < length (lvl h l))%nat ->
  exists bs hs,
    (1 <= length hs <= length bs)%nat /\ (length hs <= length (under (zip m l) h p))%nat /\
    (forall bits hashes, TraverseAndBuild n h (Z.of_nat p) l m bits hashes = (bits ++ bs, hashes ++ hs)) /\
    (forall bits hashes bits' hashes' fb ms b,
       TraverseAndExtract (mkPartial n (bits ++ bs ++ bits') (hashes ++ hs ++ hashes') fb) h (Z.of_nat p)
         (mkExtract (length bits) (length hashes) ms b) =
       (tree_at (lvl h l) p,
        mkExtract (length (bits ++ bs)) (length (hashes ++ hs)) (ms ++ pick (under (zip m l) h p)) b)).
Proof.
  intros Hs Hn Hm. revert p; induction h as [|h IH]; intros p Hh Hp.
  - pose proof (parent_of_match_spec n 0 p l m Hs Hn Hm Hh Hp) as Hpm.
    pose proof (CalcHash_lvl n 0 p l Hs Hn Hh Hp) as Hch. cbn in Hp.
    destruct (lookup_lt_is_Some_2 l p Hp) as [x Hx]. destruct (lookup_lt_is_Some_2 m p ltac:(lia)) as [b Hb].
    assert (under (zip m l) 0 p = [(b, x)]) as Hu.
    { unfold under. change (2 ^ 0)%nat with 1%nat. rewrite Nat.mul_1_r.
      rewrite (drop_S _ (b, x)); [done|]. apply lookup_zip_with_Some. by exists b, x. }
    rewrite Hu in *. cbn [existsb fst orb] in Hpm. rewrite orb_false_r in Hpm.
    exists [b], [tree_at (lvl 0 l) p]. split_and!; [simpl; lia..| |].
    + intros bits hashes. cbn [TraverseAndBuild]. by rewrite Hpm, Hch.
    + intros. cbn [TraverseAndExtract vBits vHash nBitsUsed nHashUsed].
      rewrite lookup_at. cbn [nHashUsed]. rewrite lookup_at.
      cbn [nBitsUsed nHashUsed matches bad]. rewrite !length_app. cbn [length]. rewrite !Nat.add_1_r.
      assert (tree_at (lvl 0 l) p = x) as -> by (by apply nth_lookup_Some).
      f_equal. destruct b; unfold pick; cbn; [done|by rewrite app_nil_r].
  - destruct (children n h p l Hs Hn ltac:(lia) Hp) as (E1 & E2 & E3 & H2 & Hc). rewrite E2 in E3.
    pose proof (parent_of_match_spec n (S h) p l m Hs Hn Hm Hh Hp) as Hpm.
    destruct (lvl_pos n (S h) p l Hs Hn Hh Hp) as [Hpos _].
    assert (1 <= length (under (zip m l) (S h) p))%nat as Hne.
    { unfold under. rewrite length_take, length_drop, length_zip_with. pose proof (Nat.pow_nonzero 2 (S h)). lia. }
    destruct (existsb fst (under (zip m l) (S h) p)) eqn:Ex.
    2: { exists [false], [tree_at (lvl (S h) l) p]. split_and!; [simpl; lia..|simpl; lia| |].
      - intros bits hashes. cbn [TraverseAndBuild]. rewrite Hpm. cbn [negb].
        by rewrite (CalcHash_lvl n (S h) p l Hs Hn Hh Hp).
      - intros. cbn [TraverseAndExtract vBits vHash nBitsUsed nHashUsed].
        rewrite lookup_at. cbn [nHashUsed negb]. rewrite lookup_at.
        cbn [nBitsUsed nHashUsed matches bad]. rewrite !length_app. cbn [length]. rewrite !Nat.add_1_r.
        by rewrite (pick_none _ Ex), app_nil_r. }
    destruct (IH (2 * p)%nat ltac:(lia) H2) as (bs1 & hs1 & L1 & M1 & B1 & X1).
    assert (tree_at (lvl (S h) l) p =
            hash2 (tree_at (lvl h l) (2 * p)) (tree_at (lvl h l) (Nat.min (2 * p + 1) (length (lvl h l) - 1)))) as Hnode.
    { rewrite lvl_S in *. by apply pair_up_at. }
    destruct Hc as [Hc|Hc].
    + destruct (IH (2 * p + 1)%nat ltac:(lia) Hc) as (bs2 & hs2 & L2 & M2 & B2 & X2).
      assert ((2 * p + 1 <? length (lvl h l))%nat = true) as E4 by (by apply Nat.ltb_lt). rewrite E4 in E3.
      exists (true :: bs1 ++ bs2), (hs1 ++ hs2). rewrite under_S.
      split_and!; [rewrite !length_app; lia|cbn [length]; rewrite !length_app; lia|rewrite !length_app; lia| |].
      * intros bits hashes. cbn [TraverseAndBuild]. rewrite Hpm. cbn [negb]. rewrite E2, E1, B1, E3, B2.
        by rewrite <- !app_assoc.
      * intros. cbn [TraverseAndExtract vBits vHash nBitsUsed nHashUsed nTransactions].
        rewrite lookup_at. cbn [nHashUsed negb nBitsUsed matches bad]. rewrite E2, E1, E3.
        specialize (X1 (bits ++ [true]) hashes (bs2 ++ bits') (hs2 ++ hashes') fb ms b).
        specialize (X2 ((bits ++ [true]) ++ bs1) (hashes ++ hs1) bits' hashes' fb (ms ++ pick (under (zip m l) h (2 * p))) b).
        assert ((bits ++ [true]) ++ bs1 ++ bs2 ++ bits' = bits ++ (true :: bs1 ++ bs2) ++ bits') as Eb
          by (rewrite <- !app_assoc; cbn [app]; by rewrite <- !app_assoc).
        rewrite <- !app_assoc in X2. rewrite (app_assoc bits) in X2.
        rewrite Eb in X1, X2. rewrite <- (app_assoc hs1).
        replace (S (length bits)) with (length (bits ++ [true])) by (rewrite length_app; cbn; lia).
        rewrite X1. rewrite <- app_assoc. rewrite X2. rewrite pick_app. f_equal.
        rewrite Hnode. f_equal. f_equal. lia.
    + assert ((2 * p + 1 <? length (lvl h l))%nat = false) as E4 by (apply Nat.ltb_ge; lia). rewrite E4 in E3.
      exists (true :: bs1), hs1.
      assert (under (zip m l) (S h) p = under (zip m l) h (2 * p)) as ->.
      { rewrite under_S, (under_beyond _ h (2 * p + 1)); [by rewrite app_nil_r|].
        pose proof (lvl_length n h l Hs Hn ltac:(lia)) as Hw. rewrite width_div in Hw by (done || lia).
        rewrite length_zip_with. rewrite Hc in Hw.
        assert (0 < 2 ^ Z.of_nat h) by lia. pose proof (Z.mul_succ_div_gt (n + 2 ^ Z.of_nat h - 1) (2 ^ Z.of_nat h) ltac:(lia)).
        assert (Z.of_nat ((2 * p + 1) * 2 ^ h) >= n); [|lia].
        rewrite Nat2Z.inj_mul, Nat2Z.inj_pow. change (Z.of_nat 2) with 2. nia. }
      split_and!; [lia|cbn [length]; lia|done| |].
      * intros bits hashes. cbn [TraverseAndBuild]. rewrite Hpm. cbn [negb]. rewrite E2, E1, B1, E3.
        by rewrite <- !app_assoc.
      * intros. cbn [TraverseAndExtract vBits vHash nBitsUsed nHashUsed nTransactions].
        rewrite lookup_at. cbn [nHashUsed negb nBitsUsed matches bad]. rewrite E2, E1, E3.
        specialize (X1 (bits ++ [true]) hashes bits' hashes' fb ms b).
        rewrite <- !app_assoc in X1. cbn [app] in *.
        replace (S (length bits)) with (length (bits ++ [true])) by (rewrite length_app; cbn; lia).
        rewrite X1. f_equal. rewrite Hnode. f_equal. f_equal. lia.
Qed.

Lemma tree_height_spec fuel n k l : small n -> n = Z.of_nat (length l) -> (k + fuel >= 17)%nat -> (k <= 16)%nat ->
  (forall j, (j < k)%nat -> (1 < length (lvl j l))%nat) ->
  exists H, tree_height fuel n k = H /\ (H <= 16)%nat /\ length (lvl H l) = 1%nat /\
    (forall j, (j < H)%nat -> (1 < length (lvl j l))%nat).
Proof.
  intros Hs Hn. revert k; induction fuel as [|fuel IH]; intros k Hf Hk Hj; [lia|].
  cbn [tree_height]. rewrite (lvl_length n k l Hs Hn ltac:(lia)).
  destruct (Z.gtb_spec (Z.of_nat (length (lvl k l))) 1) as [Hgt|Hle].
  - assert (k <> 16)%nat as H16.
    { intros ->. pose proof (lvl_length n 16 l Hs Hn ltac:(lia)) as Hw. rewrite width_div in Hw by (done || lia).
      unfold small in Hs. change (MAX_BLOCK_SIZE_CURRENT / 60) with 50000 in Hs.
      assert ((n + 2 ^ Z.of_nat 16 - 1) / 2 ^ Z.of_nat 16 < 2); [|lia].
      apply Z.div_lt_upper_bound; [lia|]. change (2 ^ Z.of_nat 16) with 65536. lia. }
    apply IH; [lia|lia|]. intros j Hjk. destruct (Nat.eq_dec j k) as [->|]; [lia|apply Hj; lia].
  - exists k. split_and!; [done|done| |done].
    assert (0 < Z.of_nat (length (lvl k l))); [|lia].
    rewrite <- (lvl_length n k l Hs Hn) by lia. rewrite width_div by (done || lia). unfold small in Hs.
    apply Z.div_str_pos. lia.
Qed.
(** The partial tree of a block, with [vBits] padded as long as the byte count is the
    same, gives the root and the matched hashes back. *)
Lemma extract_construct l m pad : small (Z.of_nat (length l)) -> length m = length l ->
  let t := construct_partial l m in
  let t' := mkPartial (nTransactions t) (vBits t ++ pad) (vHash t) false in
  ((length (vBits t ++ pad) + 7) / 8 = (length (vBits t) + 7) / 8)%nat ->
  ExtractMatches t' = (merkle_root l, pick (zip m l), t').
Proof.
  intros Hs Hm. set (n := Z.of_nat (length l)) in *.
  assert (n <= 50000) as Hn5 by (unfold small in Hs; change (MAX_BLOCK_SIZE_CURRENT / 60) with 50000 in Hs; lia).
  destruct (tree_height_spec 32 n 0 l Hs eq_refl ltac:(lia) ltac:(lia) ltac:(lia)) as (H & EH & H16 & H1 & Hj).
  destruct (traverse_spec n H 0 l m Hs eq_refl Hm ltac:(lia) ltac:(lia)) as (bs & hs & L & M & B & X).
  assert (construct_partial l m = mkPartial n bs hs false) as Et.
  { unfold construct_partial. fold n. rewrite u32_small by (unfold small in Hs; lia). rewrite EH.
    change 0 with (Z.of_nat 0). by rewrite B. }
  cbv zeta. rewrite Et. cbn [nTransactions vBits vHash]. intros Hpad.
  assert (length (under (zip m l) H 0) <= length l)%nat as Hu.
  { unfold under. rewrite length_take, length_drop, length_zip_with. lia. }
  unfold ExtractMatches. cbn [nTransactions vBits vHash fBad].
  destruct (Z.eqb_spec n 0); [unfold small in Hs; lia|].
  change (MAX_BLOCK_SIZE_CURRENT / 60) with 50000.
  destruct (Z.gtb_spec n 50000); [lia|].
  destruct (Z.gtb_spec (Z.of_nat (length hs)) n); [subst n; lia|].
  destruct (Nat.ltb_spec (length (bs ++ pad)) (length hs)); [rewrite length_app in *; lia|]. rewrite EH.
  specialize (X [] [] pad [] false [] false). cbn [app length] in X. rewrite app_nil_r in X.
  change (Z.of_nat 0) with 0 in X. rewrite X. cbn [bad nBitsUsed nHashUsed matches].
  rewrite Hpad, Nat.eqb_refl, Nat.eqb_refl. cbn [negb].
  f_equal. f_equal.
  - rewrite <- (merkle_root_lvl H l Hj). destruct (lvl H l) as [|x [|]]; done.
  - f_equal. unfold under. rewrite Nat.mul_0_l, drop_0. apply take_ge. rewrite length_zip_with.
    assert (length l <= 2 ^ H)%nat; [|lia].
    pose proof (lvl_length n H l Hs eq_refl ltac:(lia)) as Hw. rewrite width_div, H1 in Hw by (done || lia).
    pose proof (Z.mul_succ_div_gt (n + 2 ^ Z.of_nat H - 1) (2 ^ Z.of_nat H) ltac:(lia)) as Hg. rewrite Hw in Hg.
    apply Nat2Z.inj_le. rewrite Nat2Z.inj_pow. change (Z.of_nat 2) with 2. fold n. lia.
Qed.

(** ** Messages *)

Lemma bits_byte_testbit l i : Z.testbit (bits_byte l) (Z.of_nat i) = nth i l false.
Proof.
  revert i; induction l as [|b l IH]; intros i; cbn [bits_byte foldr].
  - rewrite Z.testbit_0_l. by destruct i.
  - fold (bits_byte l). rewrite Z.add_comm. destruct i as [|i].
    + apply Z.testbit_0_r.
    + rewrite Nat2Z.inj_succ, Z.testbit_succ_r by lia. apply IH.
Qed.
Lemma bits_roundtrip fuel l : (length l <= fuel)%nat ->
  exists k, bytes_to_bits (bits_to_bytes fuel l) = l ++ replicate k false /\ ((length l + k + 7) / 8 = (length l + 7) / 8)%nat.
Proof.
  revert l; induction fuel as [|fuel IH]; intros l Hf; [destruct l; [by exists 0%nat|simpl in Hf; lia]|].
  destruct l as [|b l]; [by exists 0%nat|]. cbn [bits_to_bytes bytes_to_bits map concat].
  set (l8 := b :: l) in *. destruct (le_lt_dec 8 (length l8)) as [H8|H8].
  - destruct (IH (drop 8 l8)) as (k & E & Hk); [rewrite length_drop; subst l8; cbn [length] in *; lia|].
    exists k. unfold bytes_to_bits in E. rewrite E. rewrite length_drop in Hk. split.
    + rewrite app_assoc. f_equal. rewrite <- (take_drop 8 l8) at 2. f_equal.
      apply list_eq. intros i. destruct (le_lt_dec 8 i).
      * rewrite !lookup_ge_None_2; [done|rewrite length_take; lia|rewrite length_map, length_seq; lia].
      * rewrite list_lookup_fmap, lookup_seq_lt by done. cbn [fmap option_fmap option_map]. rewrite Nat.add_0_l, bits_byte_testbit.
        destruct (lookup_lt_is_Some_2 (take 8 l8) i) as [x Hx]; [rewrite length_take; lia|].
        by rewrite Hx, (nth_lookup_Some _ _ _ _ Hx).
    + replace (length l8 + k + 7)%nat with (length l8 - 8 + k + 7 + 1 * 8)%nat by lia.
      replace (length l8 + 7)%nat with (length l8 - 8 + 7 + 1 * 8)%nat by lia. rewrite !Nat.div_add by lia. lia.
  - exists (8 - length l8)%nat. rewrite (drop_ge l8 8) by lia.
    replace (bits_to_bytes fuel []) with (@nil Z) by (by destruct fuel). cbn [map concat]. rewrite app_nil_r. split.
    + rewrite take_ge by lia. apply list_eq. intros i. destruct (le_lt_dec 8 i).
      * rewrite !lookup_ge_None_2; [done|rewrite length_app, length_replicate; lia|rewrite length_map, length_seq; lia].
      * rewrite list_lookup_fmap, lookup_seq_lt by done. cbn [fmap option_fmap option_map]. rewrite Nat.add_0_l, bits_byte_testbit.
        destruct (le_lt_dec (length l8) i).
        -- rewrite nth_overflow by done. rewrite lookup_app_r, lookup_replicate_2 by lia. done.
        -- rewrite lookup_app_l by done. destruct (lookup_lt_is_Some_2 l8 i) as [x Hx]; [done|].
           by rewrite Hx, (nth_lookup_Some _ _ _ _ Hx).
    + replace (length l8 + (8 - length l8) + 7)%nat with 15%nat by lia. subst l8. cbn [length] in *.
      change (15 / 8)%nat with 1%nat. apply Nat.div_unique with (r := length l); lia.
Qed.

(** C33: a partial Merkle tree proves what it was built for: from the hashes of a block
    (up to the 50,000 the extraction accepts) and a mask, the tree, also after it went
    through a message, extracts the Merkle root of the block that [BuildMerkleTree]
    computes and exactly the selected hashes, in order. *)
Theorem partial_merkle_roundtrip (vTxid : list hash256) (vMatch : list bool)
    (Hn : 0 < Z.of_nat (length vTxid) <= 50000) (Hm : length vMatch = length vTxid) :
  let t := construct_partial vTxid vMatch in
  let root := snd (fst (BuildMerkleTree vTxid)) in
  let selected := map snd (filter (fun x => x.1 = true) (zip vMatch vTxid)) in
  ExtractMatches t = (root, selected, t) /\
  ExtractMatches (deserialized (serialized t)) = (root, selected, deserialized (serialized t)).
Proof.
  intros t root selected. assert (root = merkle_root vTxid) as -> by (subst root; by rewrite BuildMerkleTree_spec).
  pose proof (extract_construct vTxid vMatch [] Hn Hm) as H0. cbn zeta in H0. rewrite app_nil_r in H0. specialize (H0 eq_refl).
  assert (t = mkPartial (nTransactions t) (vBits t) (vHash t) false) as Et.
  { subst t. unfold construct_partial. by case_match. }
  split; [rewrite Et; apply H0|].
  unfold serialized, deserialized. destruct (bits_roundtrip (length (vBits t)) (vBits t) ltac:(lia)) as (k & -> & Hk).
  apply (extract_construct vTxid vMatch (replicate k false) Hn Hm). rewrite length_app, length_replicate. exact Hk.
Qed.
Lemma partial_merkle_roundtrip_witness :
  let t := construct_partial [leaf 1; leaf 2; leaf 3] [false; true; false] in
  ExtractMatches t = (snd (fst (BuildMerkleTree [leaf 1; leaf 2; leaf 3])), [leaf 2], t).
Proof. apply (partial_merkle_roundtrip [leaf 1; leaf 2; leaf 3] [false; true; false]); [cbn; lia|reflexivity]. Defined.
