(* ===== verification/MerkleStream.v ===== *)
(** The constant-space computation of [src/src/consensus/merkle.cpp], modelled in
    [Merkle.v], against the tree: after [c] leaves the array [inner] holds, for each bit
    of [c] that is set, the last complete node of that level. *)
From S2P Require Import Prelude Hashers Merkle.

#[local] Opaque hash2.

Lemma odd_of_nat n : Z.odd (Z.of_nat n) = Nat.odd n.
Proof.
  destruct (halves n) as (k & _ & [(-> & -> & _)|(-> & -> & _)]).
  - by rewrite Nat.odd_mul.
  - by rewrite Nat.odd_add, Nat.odd_mul.
Qed.
Lemma bit_spec c k : Z.testbit (Z.of_nat c) (Z.of_nat k) = Nat.odd (c / 2 ^ k).
Proof.
  rewrite Z.testbit_odd, Z.shiftr_div_pow2 by lia. rewrite <- odd_of_nat, Nat2Z.inj_div, Nat2Z.inj_pow. done.
Qed.
Lemma pow_pos k : (0 < 2 ^ k)%nat.
Proof. pose proof (Nat.pow_nonzero 2 k). lia. Qed.
Lemma div_pow_S c k : (c / 2 ^ S k = c / 2 ^ k / 2)%nat.
Proof. rewrite Nat.pow_succ_r', Nat.mul_comm. by rewrite Nat.Div0.div_div. Qed.
Lemma odd_cases w : (Nat.odd w = false /\ exists m, w = 2 * m)%nat \/ (Nat.odd w = true /\ exists m, w = 2 * m + 1)%nat.
Proof.
  destruct (halves w) as (k & _ & [(-> & _)|(-> & _)]); [left|right].
  - split; [by rewrite Nat.odd_mul|by exists k].
  - split; [by rewrite Nat.odd_add, Nat.odd_mul|by exists k].
Qed.
(** The least level whose bit is set is below 32. *)
Lemma some_bit c : (0 < c)%nat -> Z.of_nat c < 2 ^ 32 -> exists k, (k < 32)%nat /\ Nat.odd (c / 2 ^ k) = true /\
  forall j, (j < k)%nat -> Nat.odd (c / 2 ^ j) = false.
Proof.
  intros Hc Hc32.
  assert (forall f k, (k + f = 32)%nat -> (forall j, (j < k)%nat -> Nat.odd (c / 2 ^ j) = false) -> (c / 2 ^ k > 0)%nat ->
    (c = c / 2 ^ k * 2 ^ k)%nat ->
    exists k', (k' < 32)%nat /\ Nat.odd (c / 2 ^ k') = true /\ forall j, (j < k')%nat -> Nat.odd (c / 2 ^ j) = false) as Hgo.
  2: { apply (Hgo 32%nat 0%nat); [lia|lia|rewrite Nat.pow_0_r, Nat.div_1_r; lia|rewrite Nat.pow_0_r, Nat.div_1_r; lia]. }
  induction f as [|f IH]; intros k Hk Hj Hp He.
  - exfalso. assert (k = 32)%nat as -> by lia. rewrite Nat.div_small in Hp; [lia|]. apply Nat2Z.inj_lt. rewrite Nat2Z.inj_pow. exact Hc32.
  - destruct (odd_cases (c / 2 ^ k)) as [[Ho [q Hq]]|[Ho _]].
    + apply (IH (S k)); [lia| |rewrite div_pow_S, Hq, Nat.mul_comm, Nat.div_mul by lia; lia|].
      * intros j Hlt. destruct (Nat.eq_dec j k) as [->|]; [done|apply Hj; lia].
      * rewrite div_pow_S, Hq at 1. rewrite (Nat.mul_comm 2), Nat.div_mul by lia.
        rewrite Hq in He. rewrite Nat.pow_succ_r'. lia.
    + exists k. split; [lia|done].
Qed.

Section stream.
Context (l : list hash256).
Abbreviation n := (length l).

Lemma lvl_bounds k : (0 < n)%nat -> ((length (lvl k l) - 1) * 2 ^ k < n <= length (lvl k l) * 2 ^ k)%nat.
Proof.
  intros Hn. induction k as [|k IH]; [rewrite Nat.pow_0_r; cbn; lia|].
  rewrite lvl_S, pair_up_length, Nat.pow_succ_r'. set (w := length (lvl k l)) in *. clearbody w.
  pose proof (Nat.div_mod_eq (w + 1) 2). pose proof (Nat.mod_upper_bound (w + 1) 2 ltac:(lia)).
  set (h := ((w + 1) / 2)%nat) in *. clearbody h. set (p := (2 ^ k)%nat) in *. clearbody p. nia.
Qed.
(** A node whose two children exist. *)
Lemma node_pair k q : (2 * q + 1 < length (lvl k l))%nat ->
  tree_at (lvl (S k) l) q = hash2 (tree_at (lvl k l) (2 * q)) (tree_at (lvl k l) (2 * q + 1)).
Proof.
  intros H. rewrite lvl_S, pair_up_at; [do 2 f_equal; lia|]. rewrite pair_up_length.
  pose proof (Nat.div_mod_eq (length (lvl k l) + 1) 2). pose proof (Nat.mod_upper_bound (length (lvl k l) + 1) 2 ltac:(lia)). lia.
Qed.
Lemma node_exists k q : (q * 2 ^ k < n)%nat -> (q < length (lvl k l))%nat.
Proof.
  intros H. destruct (lvl_bounds k ltac:(lia)) as [_ Hb]. pose proof (pow_pos k). nia.
Qed.

(** [inner] after [c] leaves. *)
Definition inner_ok (c : nat) (inn : list hash256) : Prop :=
  length inn = 32%nat /\
  forall k, Nat.odd (c / 2 ^ k) = true -> (k < 32)%nat -> tree_at inn k = tree_at (lvl k l) (c / 2 ^ k - 1).

Lemma push_match_keeps level s : inner (push_match level s) = inner s /\ sh (push_match level s) = sh s.
Proof. unfold push_match. by repeat case_match. Qed.

(** With the low bits zero, the number is a multiple. *)
Lemma low_zero a j : (forall i, (i < j)%nat -> Nat.odd (a / 2 ^ i) = false) -> (a = a / 2 ^ j * 2 ^ j)%nat.
Proof.
  induction j as [|j IH]; intros H; [rewrite Nat.pow_0_r, Nat.div_1_r; lia|].
  specialize (IH ltac:(intros; apply H; lia)). specialize (H j ltac:(lia)).
  destruct (odd_cases (a / 2 ^ j)) as [[_ [q Hq]]|[Ho _]]; [|congruence].
  rewrite div_pow_S, Hq, (Nat.mul_comm 2 q), Nat.div_mul by lia. rewrite Hq in IH. rewrite Nat.pow_succ_r'. lia.
Qed.
Lemma carry c j : (forall i, (i < j)%nat -> Nat.odd ((c + 1) / 2 ^ i) = false) -> (c / 2 ^ j = (c + 1) / 2 ^ j - 1)%nat.
Proof.
  intros H. apply low_zero in H. pose proof (pow_pos j). set (m := ((c + 1) / 2 ^ j)%nat) in *. clearbody m.
  destruct m as [|m]; [lia|]. symmetry. apply Nat.div_unique with (r := (2 ^ j - 1)%nat); lia.
Qed.

Lemma merge_loop_spec fuel c j s : (c < n)%nat -> inner_ok c (inner s) -> Z.of_nat (c + 1) < 2 ^ 32 -> (j + fuel = 32)%nat ->
  (forall i, (i < j)%nat -> Nat.odd ((c + 1) / 2 ^ i) = false) ->
  sh s = tree_at (lvl j l) ((c + 1) / 2 ^ j - 1) ->
  exists k s', merge_loop fuel (Z.of_nat (c + 1)) j s = (k, s') /\ (k < 32)%nat /\ inner s' = inner s /\
    Nat.odd ((c + 1) / 2 ^ k) = true /\ (forall i, (i < k)%nat -> Nat.odd ((c + 1) / 2 ^ i) = false) /\
    sh s' = tree_at (lvl k l) ((c + 1) / 2 ^ k - 1).
Proof.
  intros Hc Hin Hn32. revert j s Hin; induction fuel as [|fuel IH]; intros j s Hin Hj Hlow Hh.
  - exfalso. assert (j = 32)%nat as -> by lia. destruct (some_bit (c + 1)) as (k & Hk & Ho & _); [lia|lia|].
    rewrite Hlow in Ho by done. done.
  - cbn [merge_loop]. rewrite bit_spec. destruct (Nat.odd ((c + 1) / 2 ^ j)) eqn:Ho.
    { exists j, s. split_and!; (done || lia). }
    destruct (push_match_keeps j s) as [Ei Es]. rewrite Ei, Es.
    destruct (IH (S j) (set_h (push_match j s) (hash2 (tree_at (inner s) j) (sh s))
                 (smutated (push_match j s) || hash_eqb (tree_at (inner s) j) (sh s))))
      as (k & s' & E & Hk & Ein & Hok & Hlo & Hsh).
    + unfold set_h. cbn [inner]. by rewrite Ei.
    + lia.
    + intros i Hi. destruct (Nat.eq_dec i j) as [->|]; [done|apply Hlow; lia].
    + unfold set_h. cbn [sh]. pose proof (carry c j Hlow) as Hcar. pose proof (low_zero (c + 1) j Hlow) as Hmul.
      destruct (odd_cases ((c + 1) / 2 ^ j)) as [[_ [q Hq]]|[Ho' _]]; [|congruence].
      pose proof (pow_pos j). destruct q as [|q]; [rewrite Hq in Hmul; lia|].
      rewrite div_pow_S, Hq, (Nat.mul_comm 2 (S q)), Nat.div_mul by lia.
      destruct Hin as [_ Hin]. rewrite Hin; [| |lia].
      2: { rewrite Hcar, Hq. replace (2 * S q - 1)%nat with (2 * q + 1)%nat by lia. by rewrite Nat.odd_add, Nat.odd_mul. }
      rewrite Hh, Hcar, Hq. replace (2 * S q - 1 - 1)%nat with (2 * q)%nat by lia.
      replace (2 * S q - 1)%nat with (2 * q + 1)%nat by lia. replace (S q - 1)%nat with q by lia.
      symmetry. apply node_pair. apply node_exists. rewrite Hq in Hmul. nia.
    + exists k, s'. unfold set_h in Ein. cbn [inner] in Ein. rewrite Ei in Ein. split_and!; done.
Qed.
Lemma store_ok c k inn h : inner_ok c inn -> (k < 32)%nat ->
  Nat.odd ((c + 1) / 2 ^ k) = true -> (forall i, (i < k)%nat -> Nat.odd ((c + 1) / 2 ^ i) = false) ->
  h = tree_at (lvl k l) ((c + 1) / 2 ^ k - 1) -> inner_ok (c + 1) (<[k := h]> inn).
Proof.
  intros [Hl Hin] Hk Ho Hlo Hh. split; [by rewrite length_insert|].
  intros i Hi Hi32. unfold tree_at at 1. destruct (Nat.eq_dec i k) as [->|Hne].
  - rewrite (nth_lookup_Some _ _ _ h); [exact Hh|]. apply list_lookup_insert_eq. lia.
  - rewrite nth_lookup, list_lookup_insert_ne by done. rewrite <- nth_lookup. fold (tree_at inn i).
    assert (k < i)%nat as Hki by (destruct (Nat.lt_ge_cases i k) as [Hlt|]; [rewrite Hlo in Hi by done; done|lia]).
    assert (c / 2 ^ i = (c + 1) / 2 ^ i)%nat as E.
    { pose proof (carry c k Hlo) as Hcar.
      destruct (odd_cases ((c + 1) / 2 ^ k)) as [[Hf _]|[_ [q Hq]]]; [congruence|].
      replace i with (k + S (i - k - 1))%nat by lia. rewrite Nat.pow_add_r.
      rewrite <- !Nat.Div0.div_div. rewrite Hcar, Hq. rewrite Nat.pow_succ_r'. rewrite <- !Nat.Div0.div_div.
      f_equal. rewrite Nat.add_sub. rewrite (Nat.mul_comm 2 q), Nat.div_mul, Nat.div_add_l by lia. simpl. lia. }
    rewrite <- E. apply Hin; [by rewrite E|done].
Qed.
Lemma add_leaf_inner bp count leaf s :
  inner (add_leaf bp count leaf s) =
  let '(level, s') := merge_loop 32 (u32 (count + 1)) 0
    (mkSweep (inner s) (matchlevel s) leaf (count =? bp) (smutated s) (pbranch s)) in
  <[level := sh s']> (inner s').
Proof. unfold add_leaf. cbv zeta. by destruct (merge_loop _ _ _ _). Qed.
Lemma merge_ok c s0 : (c < n)%nat -> Z.of_nat (c + 1) < 2 ^ 32 -> inner_ok c (inner s0) -> sh s0 = tree_at l c ->
  exists k s', merge_loop 32 (Z.of_nat (c + 1)) 0 s0 = (k, s') /\ inner_ok (c + 1) (<[k := sh s']> (inner s')).
Proof.
  intros Hc Hn Hin Hs.
  assert (forall i, (i < 0)%nat -> Nat.odd ((c + 1) / 2 ^ i) = false) as H1 by (intros i Hi; inversion Hi).
  assert (sh s0 = tree_at (lvl 0 l) ((c + 1) / 2 ^ 0 - 1)) as H2.
  { rewrite Nat.pow_0_r, Nat.div_1_r, Nat.add_sub. exact Hs. }
  destruct (merge_loop_spec 32 c 0 s0 Hc Hin Hn eq_refl H1 H2) as (k & s' & E & Hk & Ein & Ho & Hlo & Hsh).
  exists k, s'. split; [exact E|]. rewrite Ein. exact (store_ok c k (inner s0) (sh s') Hin Hk Ho Hlo Hsh).
Qed.
Lemma add_leaf_ok bp c s : (c < n)%nat -> Z.of_nat (c + 1) < 2 ^ 32 -> inner_ok c (inner s) ->
  inner_ok (c + 1) (inner (add_leaf bp (Z.of_nat c) (tree_at l c) s)).
Proof.
  intros Hc Hn32 Hin. rewrite add_leaf_inner.
  assert (u32 (Z.of_nat c + 1) = Z.of_nat (c + 1)) as -> by (rewrite u32_small; lia).
  destruct (merge_ok c (mkSweep (inner s) (matchlevel s) (tree_at l c) (Z.of_nat c =? bp) (smutated s) (pbranch s))
    Hc Hn32 Hin eq_refl) as (k & s' & -> & H). exact H.
Qed.
Lemma leaves_loop_cons step x r count s :
  leaves_loop step (x :: r) count s = leaves_loop step r (u32 (count + 1)) (step count x s).
Proof. reflexivity. Qed.
Lemma leaves_loop_ok bp c s : (c <= n)%nat -> Z.of_nat n < 2 ^ 32 -> inner_ok c (inner s) ->
  exists s', leaves_loop (add_leaf bp) (drop c l) (Z.of_nat c) s = (Z.of_nat n, s') /\ inner_ok n (inner s').
Proof.
  intros Hc Hn. remember (n - c)%nat as r eqn:Er. revert c s Hc Er; induction r as [|r IH]; intros c s Hc Er Hin.
  - assert (c = n) as -> by lia. rewrite drop_all. by exists s.
  - destruct (lookup_lt_is_Some_2 l c ltac:(lia)) as [x Hx]. rewrite (drop_S _ _ _ Hx), leaves_loop_cons.
    assert (u32 (Z.of_nat c + 1) = Z.of_nat (c + 1)) as -> by (rewrite u32_small; lia).
    assert (x = tree_at l c) as -> by (symmetry; by apply nth_lookup_Some).
    replace (S c) with (c + 1)%nat by lia.
    apply IH; [lia|lia|]. apply add_leaf_ok; [lia|lia|exact Hin].
Qed.

Lemma low_bit_spec fuel c j : (0 < c)%nat -> Z.of_nat c < 2 ^ 32 -> (j + fuel = 32)%nat ->
  (forall i, (i < j)%nat -> Nat.odd (c / 2 ^ i) = false) ->
  let k := low_bit fuel (Z.of_nat c) j in
  (k < 32)%nat /\ Nat.odd (c / 2 ^ k) = true /\ forall i, (i < k)%nat -> Nat.odd (c / 2 ^ i) = false.
Proof.
  intros Hc Hc32. revert j; induction fuel as [|fuel IH]; intros j Hj Hlow; cbn [low_bit].
  - exfalso. assert (j = 32)%nat as -> by lia. destruct (some_bit c Hc Hc32) as (k & Hk & Ho & _).
    rewrite Hlow in Ho by done. done.
  - rewrite bit_spec. destruct (Nat.odd (c / 2 ^ j)) eqn:Ho; [split_and!; (done || lia)|].
    apply IH; [lia|]. intros i Hi. destruct (Nat.eq_dec i j) as [->|]; [done|apply Hlow; lia].
Qed.

(** The state of the final sweep at a level: [count] is the number of leaves rounded up to
    the level, [sh] the last node. *)
Record sweeping (level : nat) (count : Z) (s : sweep) : Prop := {
  sw_count : count = Z.of_nat (length (lvl level l)) * 2 ^ Z.of_nat level;
  sw_sh : sh s = tree_at (lvl level l) (length (lvl level l) - 1);
  sw_inner : inner_ok n (inner s);
  sw_below : forall j, (j < level)%nat -> (1 < length (lvl j l))%nat;
  sw_level : (level <= 31)%nat;
}.
Hypothesis (Hn : (0 < n)%nat) (Hcap : Z.of_nat n <= 2 ^ 31).

Lemma lvl_cap k : (k <= 31)%nat -> Z.of_nat (length (lvl k l)) * 2 ^ Z.of_nat k <= 2 ^ 31.
Proof using Hn Hcap.
  intros Hk. destruct (lvl_bounds k Hn) as [Hb _].
  assert (2 ^ 31 = 2 ^ (31 - Z.of_nat k) * 2 ^ Z.of_nat k) as E by (rewrite <- Z.pow_add_r by lia; f_equal; lia).
  apply Nat2Z.inj_lt in Hb. rewrite Nat2Z.inj_mul, Nat2Z.inj_pow in Hb. change (Z.of_nat 2) with 2 in Hb.
  rewrite E in Hcap |- *. assert (0 < 2 ^ Z.of_nat k) by lia.
  apply Z.mul_le_mono_nonneg_r; [lia|]. nia.
Qed.
Lemma lvl_nonempty k : (1 <= length (lvl k l))%nat.
Proof using Hn. destruct (lvl_bounds k Hn). destruct (length (lvl k l)); simpl in *; lia. Qed.
(** A level that is not the top is below 31, and has room for one more. *)
Lemma level_room k w : w = length (lvl k l) -> (k <= 31)%nat -> (2 <= w)%nat -> (k <= 30)%nat.
Proof using Hn Hcap.
  intros -> Hk Hw. pose proof (lvl_cap k Hk) as Hc. destruct (Nat.eq_dec k 31%nat) as [->|]; [|lia].
  exfalso. change (2 ^ Z.of_nat 31) with (2 ^ 31) in Hc. nia.
Qed.
Lemma testbit_level w k : Z.testbit (Z.of_nat w * 2 ^ Z.of_nat k) (Z.of_nat k) = Nat.odd w.
Proof. rewrite Z.mul_pow2_bits by lia. rewrite Z.sub_diag, Z.bit0_odd. apply odd_of_nat. Qed.
Lemma up_length k q : length (lvl k l) = (2 * q)%nat \/ (length (lvl k l) + 1 = 2 * q)%nat -> length (lvl (S k) l) = q.
Proof.
  intros H. rewrite lvl_S, pair_up_length. destruct H as [-> | ->].
  - rewrite (Nat.mul_comm 2), Nat.div_add_l by lia. simpl. lia.
  - rewrite (Nat.mul_comm 2), Nat.div_mul by lia. done.
Qed.

Lemma up_loop_spec fuel level count s : sweeping level count s -> (forall m, n <> m * 2 ^ level)%nat -> (32 <= level + fuel)%nat ->
  exists k s', up_loop fuel count level s = (k, s') /\ sweeping k count s' /\ (forall m, n <> m * 2 ^ k)%nat /\
    Nat.odd (length (lvl k l)) = true /\ (level <= k)%nat.
Proof using Hn Hcap.
  revert level s; induction fuel as [|fuel IH]; intros level s Hs Hm Hf; [destruct Hs; lia|].
  pose proof Hs as [Ec Esh Hin Hbelow Hlev]. cbn [up_loop]. rewrite Ec, testbit_level, <- Ec.
  destruct (Nat.odd (length (lvl level l))) eqn:Ho; [exists level, s; split_and!; (done || lia)|].
  destruct (odd_cases (length (lvl level l))) as [[_ [q Hq]]|[? _]]; [|congruence].
  destruct (push_match_keeps level s) as [Ei Es]. rewrite Ei, Es.
  pose proof (lvl_nonempty level) as H1. pose proof (level_room level _ eq_refl Hlev ltac:(lia)) as H30.
  destruct q as [|q]; [lia|]. pose proof (pow_pos level).
  assert (n / 2 ^ level = 2 * q + 1)%nat as Hdiv.
  { destruct (lvl_bounds level Hn) as [B1 B2]. rewrite Hq in B1, B2. specialize (Hm (2 * S q)%nat).
    symmetry. apply Nat.div_unique with (r := (n - (2 * q + 1) * 2 ^ level)%nat); nia. }
  pose proof (up_length level (S q) ltac:(left; lia)) as HS.
  set (s1 := set_h _ _ _).
  destruct (IH (S level) s1) as (k & s' & E & Hk & Hmk & Hok & Hle).
  - constructor.
    + rewrite Ec, Hq, HS. rewrite (Nat2Z.inj_mul 2), (Nat2Z.inj_succ level), Z.pow_succ_r by lia.
      change (Z.of_nat 2) with 2. ring.
    + unfold s1, set_h. cbn [sh]. rewrite HS. replace (S q - 1)%nat with q by lia. rewrite node_pair by lia.
      rewrite Esh, Hq. destruct Hin as [_ Hin]. rewrite Hin; [|rewrite Hdiv; by rewrite Nat.odd_add, Nat.odd_mul|lia].
      rewrite Hdiv. do 2 f_equal; lia.
    + unfold s1, set_h. cbn [inner]. by rewrite Ei.
    + intros j Hj. destruct (Nat.eq_dec j level) as [->|]; [lia|apply Hbelow; lia].
    + lia.
  - intros m E. apply (Hm (m * 2)%nat). rewrite E, Nat.pow_succ_r'. lia.
  - lia.
  - exists k, s'. split_and!; (done || lia).
Qed.
Lemma final_loop_spec fuel level count s : sweeping level count s -> Nat.odd (length (lvl level l)) = true ->
  (n = length (lvl level l) * 2 ^ level \/ forall m, n <> m * 2 ^ level)%nat -> (32 <= level + fuel)%nat ->
  sh (final_loop fuel count level s) = merkle_root l.
Proof using Hn Hcap.
  revert level count s; induction fuel as [|fuel IH]; intros level count s Hs Ho Hm Hf; [destruct Hs; lia|].
  pose proof Hs as [Ec Esh Hin Hbelow Hlev]. cbn [final_loop].
  pose proof (lvl_nonempty level) as H1. assert (0 < 2 ^ Z.of_nat level) as Hp by lia.
  destruct (Z.eqb_spec count (2 ^ Z.of_nat level)) as [E1|N1].
  - assert (length (lvl level l) = 1)%nat as Hw by nia. rewrite Esh, Hw, <- (merkle_root_lvl level l Hbelow).
    destruct (lvl level l) as [|x [|]]; done.
  - assert (length (lvl level l) <> 1)%nat as Hw1 by (intros Hw; rewrite Hw in Ec; lia).
    destruct (odd_cases (length (lvl level l))) as [[? _]|[_ [q Hq]]]; [congruence|].
    pose proof (level_room level _ eq_refl Hlev ltac:(lia)) as H30.
    pose proof (up_length level (S q) ltac:(right; lia)) as HS. pose proof (lvl_cap level Hlev) as Hcl. rewrite <- Ec in Hcl.
    assert (u32 (count + 2 ^ Z.of_nat level) = Z.of_nat (length (lvl (S level) l)) * 2 ^ Z.of_nat (S level)) as Ecount.
    { rewrite u32_small by nia. rewrite Ec, Hq, HS, (Nat2Z.inj_succ level), Z.pow_succ_r by lia.
      replace (Z.of_nat (2 * q + 1)) with (2 * Z.of_nat (S q) - 1) by lia. ring. }
    set (s1 := if matchh s then _ else s). assert (inner s1 = inner s /\ sh s1 = sh s) as [Ei Es] by (subst s1; by case_match).
    clearbody s1. rewrite Ecount.
    destruct (up_loop_spec 32 (S level) (Z.of_nat (length (lvl (S level) l)) * 2 ^ Z.of_nat (S level))
      (set_h s1 (hash2 (sh s1) (sh s1)) (smutated s1))) as (k & s' & -> & Hk & Hmk & Hok & Hle).
    + constructor.
      * done.
      * unfold set_h. cbn [sh]. rewrite HS, Es, Esh. replace (S q - 1)%nat with q by lia.
        rewrite lvl_S, pair_up_at; [|rewrite <- lvl_S, HS; lia]. rewrite Hq. do 2 f_equal; lia.
      * unfold set_h. cbn [inner]. by rewrite Ei.
      * intros j Hj. destruct (Nat.eq_dec j level) as [->|]; [lia|apply Hbelow; lia].
      * lia.
    + intros m Em. rewrite Nat.pow_succ_r' in Em. pose proof (pow_pos level). destruct Hm as [Hm|Hm].
      * rewrite Hq, Em in Hm. assert (2 * m = 2 * q + 1)%nat by nia. lia.
      * apply (Hm (m * 2)%nat). rewrite Em. lia.
    + lia.
    + apply IH; [done|done|by right|lia].
Qed.
End stream.

Lemma ComputeMerkleRoot_spec (leaves junk : list hash256) : length junk = 32%nat -> Z.of_nat (length leaves) <= 2 ^ 31 ->
  fst (ComputeMerkleRoot junk leaves) = merkle_root leaves.
Proof.
  intros Hjunk Hn.
  destruct leaves as [|x r]; [done|]. set (l := x :: r) in *.
  assert (0 < length l)%nat as H0 by (subst l; cbn; lia).
  assert (MerkleComputation junk l (u32 (-1)) =
    let '(count, s) := leaves_loop (add_leaf (u32 (-1))) l 0 (mkSweep junk (-1) hash_zero false false []) in
    let level := low_bit 32 count 0 in
    let s := mkSweep (inner s) (matchlevel s) (tree_at (inner s) level) (matchlevel s =? Z.of_nat level) (smutated s) (pbranch s) in
    let s := final_loop 32 count level s in (sh s, smutated s, pbranch s)) as E by reflexivity.
  unfold ComputeMerkleRoot. rewrite E. clear E.
  destruct (leaves_loop_ok l (u32 (-1)) 0 (mkSweep junk (-1) hash_zero false false [])) as (s' & E & Hin); [lia|lia| |].
  { split; [done|]. intros k Hk. by rewrite Nat.Div0.div_0_l in Hk. }
  change (Z.of_nat 0) with 0 in E. rewrite drop_0 in E. rewrite E. cbn [fst].
  destruct (low_bit_spec 32 (length l) 0 H0 ltac:(lia) eq_refl ltac:(lia)) as (Hk & Ho & Hlo).
  set (k := low_bit 32 (Z.of_nat (length l)) 0) in *. clearbody k.
  pose proof (low_zero (length l) k Hlo) as Hmul.
  assert (length (lvl k l) = length l / 2 ^ k)%nat as Hw.
  { destruct (lvl_bounds l k H0) as [B1 B2]. pose proof (pow_pos k). set (m := (length l / 2 ^ k)%nat) in *. clearbody m. nia. }
  apply (final_loop_spec l H0 Hn).
  - constructor; cbn [sh inner].
    + rewrite Hw. rewrite Hmul at 1. rewrite Nat2Z.inj_mul, Nat2Z.inj_pow. done.
    + rewrite Hw. apply Hin; done.
    + done.
    + intros j Hj. destruct (lvl_bounds l j H0) as [_ B2]. destruct (Nat.le_gt_cases (length (lvl j l)) 1) as [Hle|]; [exfalso|done].
      assert (2 ^ S j <= 2 ^ k)%nat by (apply Nat.pow_le_mono_r; lia). rewrite Nat.pow_succ_r' in *. pose proof (pow_pos j).
      set (m := (length l / 2 ^ k)%nat) in *. clearbody m. destruct m; [lia|]. nia.
    + lia.
  - by rewrite Hw.
  - left. rewrite Hw. exact Hmul.
  - lia.
Qed.

(** C32: the constant-space computation agrees with the tree: on up to 2^31 transaction
    hashes, whatever the initial contents of its array, [ComputeMerkleRoot] returns the
    root that [BuildMerkleTree] computes. *)
Theorem ComputeMerkleRoot_correct (leaves junk : list hash256)
    (Hjunk : length junk = 32%nat) (Hn : Z.of_nat (length leaves) <= 2 ^ 31) :
  fst (ComputeMerkleRoot junk leaves) = snd (fst (BuildMerkleTree leaves)).
Proof. rewrite BuildMerkleTree_spec. by apply ComputeMerkleRoot_spec. Qed.
Lemma ComputeMerkleRoot_correct_witness :
  let l := [leaf 1; leaf 2; leaf 3] in
  fst (ComputeMerkleRoot (replicate 32 (leaf 9)) l) = snd (fst (BuildMerkleTree l)).
Proof. apply (ComputeMerkleRoot_correct [leaf 1; leaf 2; leaf 3] (replicate 32 (leaf 9))); [reflexivity|]. cbn [length]. lia. Defined.
