(* ===== verification/Serialize.v ===== *)
(** Serialisation ([src/src/serialize.h], [src/src/streams.h]): what is written to a stream
    and read back.  A writer is the list of the bytes it writes; a reader takes the bytes
    left in the stream and throws, or returns a value and what is left.  [Codec] is what the
    templates of serialize.h ask of a type, [CodecLaws] what they owe their callers: a value
    that was written is read back, and only what would be written is accepted. *)
From S2P Require Import Prelude.

(** The exceptions of the reading side ([std::ios_base::failure] with its message). *)
Inductive read_error :=
  | EndOfData | NonCanonicalSize | SizeTooLarge | StringTooLong | SuperfluousWitness | UnknownOptionalData.

Definition reader (A : Type) : Type := list Z -> read_error + A * list Z.
#[export] Instance reader_ret : MRet reader := fun A a s => inr (a, s).
#[export] Instance reader_bind : MBind reader := fun A B f m s =>
  match m s with inl e => inl e | inr (a, s') => f a s' end.
Definition fail_read {A} (e : read_error) : reader A := fun _ => inl e.

(** ** Streams *)

(** [CDataStream]: bytes and the position of the next read. *)
Record CDataStream := mkDataStream { vch : list Z; nReadPos : Z }.

Definition ds_size (d : CDataStream) : Z := Z.of_nat (length (vch d)) - nReadPos d.
Definition ds_left (d : CDataStream) : list Z := drop (Z.to_nat (nReadPos d)) (vch d).
Definition ds_write (d : CDataStream) (b : list Z) : CDataStream := mkDataStream (vch d ++ b) (nReadPos d).
(** The position is an [unsigned int]: the sum wraps. *)
Definition ds_read (d : CDataStream) (nSize : Z) : read_error + list Z * CDataStream :=
  let nReadPosNext := u32 (nReadPos d + nSize) in
  let n := Z.of_nat (length (vch d)) in
  let b := take (Z.to_nat nSize) (ds_left d) in
  if n <=? nReadPosNext then
    if n <? nReadPosNext then inl EndOfData
    else inr (b, mkDataStream [] 0)
  else inr (b, mkDataStream (vch d) nReadPosNext).
Definition ds_ignore (d : CDataStream) (nSize : Z) : read_error + CDataStream :=
  let nReadPosNext := u32 (nReadPos d + nSize) in
  let n := Z.of_nat (length (vch d)) in
  if n <=? nReadPosNext then
    if n <? nReadPosNext then inl EndOfData else inr (mkDataStream [] 0)
  else inr (mkDataStream (vch d) nReadPosNext).
Definition ds_Compact (d : CDataStream) : CDataStream := mkDataStream (ds_left d) 0.
Definition ds_Rewind (d : CDataStream) (n : Z) : option CDataStream :=
  if nReadPos d <? n then None else Some (mkDataStream (vch d) (nReadPos d - n)).

(** What the readers below ask of a stream: [s.read(p, nSize)] on the bytes left. *)
Definition read_bytes (nSize : Z) : reader (list Z) := fun s =>
  if Z.of_nat (length s) <? nSize then inl EndOfData
  else inr (take (Z.to_nat nSize) s, drop (Z.to_nat nSize) s).

(** [WRITEDATA] and [READDATA] of an integer of [n] bytes, the host being little-endian. *)
Definition write_int (n : nat) (a : Z) : list Z := le_bytes n a.
Definition read_uint (n : nat) : reader Z := b ← read_bytes (Z.of_nat n); mret (of_le_bytes b).
Definition read_int32 : reader Z := a ← read_uint 4; mret (i32 a).
Definition read_int64 : reader Z := a ← read_uint 8; mret (i64 a).

(** ** Sizes *)

Definition MAX_SIZE : Z := 0x02000000.

Definition GetSizeOfCompactSize (nSize : Z) : Z :=
  if nSize <? 253 then 1 else if nSize <=? 0xffff then 3 else if nSize <=? 0xffffffff then 5 else 9.

Definition WriteCompactSize (nSize : Z) : list Z :=
  if nSize <? 253 then write_int 1 nSize
  else if nSize <=? 0xffff then write_int 1 253 ++ write_int 2 nSize
  else if nSize <=? 0xffffffff then write_int 1 254 ++ write_int 4 nSize
  else write_int 1 255 ++ write_int 8 nSize.

Definition ReadCompactSize : reader Z :=
  chSize ← read_uint 1;
  nSizeRet ← (if chSize <? 253 then mret chSize
    else if chSize =? 253 then
      xSize ← read_uint 2; if xSize <? 253 then fail_read NonCanonicalSize else mret xSize
    else if chSize =? 254 then
      xSize ← read_uint 4; if xSize <? 0x10000 then fail_read NonCanonicalSize else mret xSize
    else
      xSize ← read_uint 8; if xSize <? 0x100000000 then fail_read NonCanonicalSize else mret xSize) : reader Z;
  if MAX_SIZE <? nSizeRet then fail_read SizeTooLarge else mret nSizeRet.

(** Variable-length integers of an unsigned type of [w] bits; [w] rounds are enough, since
    every round shifts by seven. *)
Fixpoint GetSizeOfVarInt_loop (fuel : nat) (n : Z) : Z :=
  match fuel with
  | O => 0
  | S fuel' => if n <=? 0x7f then 1 else 1 + GetSizeOfVarInt_loop fuel' (Z.shiftr n 7 - 1)
  end.
Definition GetSizeOfVarInt (w : nat) (n : Z) : Z := GetSizeOfVarInt_loop w n.

(** [tmp] is written back to front, so the bytes come out last digit last. *)
Fixpoint WriteVarInt_loop (fuel : nat) (n : Z) (out : list Z) : list Z :=
  match fuel with
  | O => out
  | S fuel' =>
      let out := Z.lor (Z.land n 0x7f) (match out with [] => 0 | _ => 0x80 end) :: out in
      if n <=? 0x7f then out else WriteVarInt_loop fuel' (Z.shiftr n 7 - 1) out
  end.
Definition WriteVarInt (w : nat) (n : Z) : list Z := WriteVarInt_loop w n [].

Fixpoint ReadVarInt_loop (w : Z) (n : Z) (s : list Z) : read_error + Z * list Z :=
  match s with
  | [] => inl EndOfData
  | chData :: s' =>
      let n := Z.lor (Z.shiftl n 7 mod 2 ^ w) (Z.land chData 0x7f) in
      if negb (Z.land chData 0x80 =? 0) then ReadVarInt_loop w ((n + 1) mod 2 ^ w) s'
      else inr (n, s')
  end.
Definition ReadVarInt (w : Z) : reader Z := ReadVarInt_loop w 0.

(** ** What serialize.h asks of a type *)

Class Codec (A : Type) := {
  Serialize : A -> list Z;
  Unserialize : reader A;
  GetSerializeSize : A -> Z
}.

Class CodecLaws (A : Type) `{Codec A} (ok : A -> Prop) := {
  codec_read : forall a rest, ok a -> Unserialize (Serialize a ++ rest) = inr (a, rest);
  codec_canonical : forall s a rest, Forall is_byte s -> Unserialize s = inr (a, rest) ->
    ok a /\ s = Serialize a ++ rest;
  codec_size : forall a, ok a -> Z.of_nat (length (Serialize a)) < 2 ^ 32 -> GetSerializeSize a = Z.of_nat (length (Serialize a))
}.

(** The sizes are [unsigned int]s: they wrap beyond 4 GB. *)

(** *** Vectors of bytes and scripts *)

(** Read in blocks, so that a bogus size does not reserve memory.  A size is at most
    [MAX_SIZE], hence eight rounds. *)
Definition BLOCK_BYTES : Z := 1 + 4999999.
Fixpoint read_blocks (fuel : nat) (nSize i : Z) : reader (list Z) :=
  match fuel with
  | O => mret []
  | S fuel' =>
      if i <? nSize then
        let blk := Z.min (nSize - i) BLOCK_BYTES in
        b ← read_bytes blk;
        r ← read_blocks fuel' nSize (i + blk);
        mret (b ++ r)
      else mret []
  end.

Definition Serialize_bytes (v : list Z) : list Z := WriteCompactSize (Z.of_nat (length v)) ++ v.
Definition Unserialize_bytes : reader (list Z) := nSize ← ReadCompactSize; read_blocks 8 nSize 0.
Definition GetSerializeSize_bytes (v : list Z) : Z :=
  u32 (GetSizeOfCompactSize (Z.of_nat (length v)) + Z.of_nat (length v)).

#[export] Instance bytes_codec : Codec (list Z) :=
  {| Serialize := Serialize_bytes; Unserialize := Unserialize_bytes; GetSerializeSize := GetSerializeSize_bytes |}.

(** *** Vectors of other types *)

Section vector.
Context {A : Type} `{Codec A}.
Definition Serialize_vector (v : list A) : list Z := WriteCompactSize (Z.of_nat (length v)) ++ concat (map Serialize v).
Fixpoint read_elements (n : nat) : reader (list A) :=
  match n with
  | O => mret []
  | S n' => a ← Unserialize; v ← read_elements n'; mret (a :: v)
  end.
Definition Unserialize_vector : reader (list A) := nSize ← ReadCompactSize; read_elements (Z.to_nat nSize).
Definition GetSerializeSize_vector (v : list A) : Z :=
  foldl (fun nSize a => u32 (nSize + GetSerializeSize a)) (GetSizeOfCompactSize (Z.of_nat (length v))) v.
#[export] Instance vector_codec : Codec (list A) :=
  {| Serialize := Serialize_vector; Unserialize := Unserialize_vector; GetSerializeSize := GetSerializeSize_vector |}.
End vector.

(** *** Pairs *)

Section pair.
Context {A B : Type} `{Codec A, Codec B}.
Definition Serialize_pair (p : A * B) : list Z := Serialize p.1 ++ Serialize p.2.
Definition Unserialize_pair : reader (A * B) := a ← Unserialize; b ← Unserialize; mret (a, b).
Definition GetSerializeSize_pair (p : A * B) : Z := u32 (GetSerializeSize p.1 + GetSerializeSize p.2).
#[export] Instance pair_codec : Codec (A * B) :=
  {| Serialize := Serialize_pair; Unserialize := Unserialize_pair; GetSerializeSize := GetSerializeSize_pair |}.
End pair.

(** [LimitedString<Limit>] *)
Definition Unserialize_LimitedString (Limit : Z) : reader (list Z) :=
  size ← ReadCompactSize; if Limit <? size then fail_read StringTooLong else read_bytes size.

(** ** Readers and the encodings they accept *)

(** [m] reads exactly the encodings [enc] of the values [ok], whatever follows them. *)
Definition codes {A} (m : reader A) (enc : A -> list Z) (ok : A -> Prop) : Prop :=
  (forall a rest, ok a -> m (enc a ++ rest) = inr (a, rest)) /\
  (forall s a rest, Forall is_byte s -> m s = inr (a, rest) -> ok a /\ s = enc a ++ rest).

Lemma bind_inr {A B} (m : reader A) (f : A -> reader B) s b rest :
  (m ≫= f) s = inr (b, rest) -> exists a s', m s = inr (a, s') /\ f a s' = inr (b, rest).
Proof. unfold mbind, reader_bind. destruct (m s) as [|[a s']]; [done|]. eauto. Qed.

Lemma codes_bind {A C} (m : reader A) (f : A -> reader C) e1 ok1 (p : C -> A) e2 ok2 :
  codes m e1 ok1 -> (forall a, ok1 a -> codes (f a) e2 (fun c => ok2 c /\ p c = a)) ->
  codes (m ≫= f) (fun c => e1 (p c) ++ e2 c) (fun c => ok1 (p c) /\ ok2 c).
Proof.
  intros [H1 H1'] H2. split.
  - intros c rest [Ha Hc]. unfold mbind, reader_bind. rewrite <- app_assoc, H1 by done. by apply (H2 (p c)).
  - intros s c rest Hs (a & s' & Hm & Hf)%bind_inr. apply H1' in Hm as [Ha ->]; [|done].
    apply Forall_app in Hs as [_ Hs]. apply (H2 a) in Hf as [[Hc Hp] ->]; [|done..]. rewrite Hp, app_assoc. done.
Qed.
Lemma codes_weaken {A} (m : reader A) e1 e2 (ok1 ok2 : A -> Prop) :
  codes m e1 ok1 -> (forall a, ok2 a <-> ok1 a) -> (forall a, ok1 a -> e1 a = e2 a) -> codes m e2 ok2.
Proof.
  intros [H H'] Hok He. split.
  - intros a rest Ha%Hok. rewrite <- He by done. auto.
  - intros s a rest Hs Hm. apply H' in Hm as [Ha ->]; [|done]. rewrite <- He by done. by rewrite Hok.
Qed.
Lemma codes_ret {A} (c : A) : codes (mret c) (fun _ => []) (fun x => x = c).
Proof. split; [by intros a rest ->|]. by intros s a rest _ [= -> ->]. Qed.
Lemma codes_fail {A} e (enc : A -> list Z) : codes (fail_read e) enc (fun _ => False).
Proof. split; [done|]. by intros s a rest _ ?. Qed.
Lemma codes_if {A} (b : bool) (m1 m2 : reader A) enc ok :
  (b = true -> codes m1 enc ok) -> (b = false -> codes m2 enc ok) -> codes (if b then m1 else m2) enc ok.
Proof. destruct b; auto. Qed.

Lemma codes_bytes n : 0 <= n -> codes (read_bytes n) id (fun b => Z.of_nat (length b) = n /\ Forall is_byte b).
Proof.
  intros Hn. unfold read_bytes. split.
  - intros a rest [Ha _]. rewrite length_app. unfold id. destruct (Z.ltb_spec (Z.of_nat (length a + length rest)) n); [lia|].
    by rewrite <- Ha, Nat2Z.id, take_app_length, drop_app_length.
  - intros s a rest Hs. destruct (Z.ltb_spec (Z.of_nat (length s)) n); [done|]. intros [= <- <-]. unfold id.
    rewrite length_take, take_drop. split_and!; [lia|by apply Forall_take|done].
Qed.
Lemma codes_uint n : codes (read_uint n) (write_int n) (fun a => 0 <= a < 2 ^ (8 * Z.of_nat n)).
Proof.
  unfold read_uint, write_int. eapply codes_weaken.
  - eapply (codes_bind _ _ _ _ (le_bytes n) (fun _ => []) (fun a => 0 <= a < 2 ^ (8 * Z.of_nat n))); [apply codes_bytes; lia|].
    intros b [Hl Hb]. apply Nat2Z.inj in Hl. eapply codes_weaken; [apply codes_ret| |done]. intros a. split.
    + intros [Ha <-]. rewrite of_le_bytes_le_bytes. symmetry. by apply Z.mod_small.
    + intros ->. rewrite <- Hl. split; [by apply of_le_bytes_bound|by apply le_bytes_of_le_bytes].
  - intros a. cbn. split; [|by intros []]. intros Ha. rewrite le_bytes_length. auto using le_bytes_range.
  - intros a _. unfold id. by rewrite app_nil_r.
Qed.

(** One field of a record, then the rest of it. *)
Lemma codes_field {A C} (m : reader A) (f : A -> reader C) (p : C -> A) e1 ok1 e2 ok2 e ok :
  codes m e1 ok1 -> (forall a, ok1 a -> codes (f a) e2 (fun c => ok2 c /\ p c = a)) ->
  (forall c, ok c <-> ok1 (p c) /\ ok2 c) -> (forall c, e c = e1 (p c) ++ e2 c) -> codes (m ≫= f) e ok.
Proof. intros Hm Hf Hok He. eapply codes_weaken; [by apply codes_bind|done|done]. Qed.
(** The last field. *)
Lemma codes_map {A B} (m : reader A) (f : A -> B) (g : B -> A) enc (ok : A -> Prop) (ok' : B -> Prop) :
  codes m enc ok -> (forall b, ok' b <-> ok (g b) /\ f (g b) = b) -> (forall a, ok a -> g (f a) = a) ->
  codes (a ← m; mret (f a)) (fun b => enc (g b)) ok'.
Proof.
  intros Hm Hok Hgf. eapply codes_weaken.
  - eapply (codes_bind _ _ _ _ g (fun _ => []) (fun b => f (g b) = b)); [exact Hm|].
    intros a Ha. eapply codes_weaken; [apply codes_ret| |done].
    intros b. split; [by intros [Hb <-]|intros ->; rewrite Hgf by done; done].
  - intros b. by rewrite Hok.
  - intros a _. unfold id. apply app_nil_r.
Qed.

Lemma codes_int32 : codes read_int32 (write_int 4) (fun a => - 2 ^ 31 <= a < 2 ^ 31).
Proof.
  eapply codes_weaken; [apply (codes_map _ i32 u32 _ _ (fun a => - 2 ^ 31 <= a < 2 ^ 31) (codes_uint 4))|done|].
  - intros b. change (8 * Z.of_nat 4) with 32. pose proof (u32_bound b). split.
    + intros Hb. split; [done|]. zwrap.
    + intros [_ <-]. apply i32_bound.
  - change (8 * Z.of_nat 4) with 32. intros a Ha. zwrap.
  - intros a _. apply (le_bytes_mod 4).
Qed.
Lemma codes_int64 : codes read_int64 (write_int 8) (fun a => - 2 ^ 63 <= a < 2 ^ 63).
Proof.
  eapply codes_weaken; [apply (codes_map _ i64 u64 _ _ (fun a => - 2 ^ 63 <= a < 2 ^ 63) (codes_uint 8))|done|].
  - intros b. change (8 * Z.of_nat 8) with 64. pose proof (u64_bound b). split.
    + intros Hb. split; [done|]. zwrap.
    + intros [_ <-]. apply i64_bound.
  - change (8 * Z.of_nat 8) with 64. intros a Ha. zwrap.
  - intros a _. apply (le_bytes_mod 8).
Qed.

(** ** Sizes *)

Lemma read_uint_write n a rest : 0 <= a < 2 ^ (8 * Z.of_nat n) -> read_uint n (write_int n a ++ rest) = inr (a, rest).
Proof. apply (codes_uint n). Qed.
Lemma read_uint_inv n s a rest : Forall is_byte s -> read_uint n s = inr (a, rest) ->
  (0 <= a < 2 ^ (8 * Z.of_nat n) /\ Forall is_byte rest) /\ s = write_int n a ++ rest.
Proof.
  intros Hs H. apply (codes_uint n) in H as [Ha ->]; [|done]. by apply Forall_app in Hs as [_ Hs].
Qed.
Lemma bind_eq {A B} (m : reader A) (f : A -> reader B) s a s' : m s = inr (a, s') -> (m ≫= f) s = f a s'.
Proof. intros H. unfold mbind, reader_bind. by rewrite H. Qed.

(** The three longer forms: a marker, then the size, which must need that many bytes. *)
Definition long_size (n : nat) (low : Z) : reader Z :=
  xSize ← read_uint n; if xSize <? low then fail_read NonCanonicalSize else mret xSize.
Lemma codes_long_size n low : codes (long_size n low) (write_int n) (fun a => low <= a /\ 0 <= a < 2 ^ (8 * Z.of_nat n)).
Proof.
  split.
  - intros a rest [Hl Ha]. unfold long_size. rewrite (bind_eq _ _ _ a rest) by by apply read_uint_write.
    destruct (Z.ltb_spec a low); [lia|done].
  - intros s a rest Hs (x & s' & Hx & H)%bind_inr. apply read_uint_inv in Hx as [[Hx Hs'] ->]; [|done].
    destruct (Z.ltb_spec x low); [done|]. injection H as <- <-. split; [split|]; done.
Qed.

Lemma codes_CompactSize : codes ReadCompactSize WriteCompactSize (fun n => 0 <= n <= MAX_SIZE).
Proof.
  unfold ReadCompactSize. fold (long_size 2 253) (long_size 4 0x10000) (long_size 8 0x100000000). unfold MAX_SIZE. split.
  - intros n rest Hn. unfold WriteCompactSize.
    destruct (Z.ltb_spec n 253); [|destruct (Z.leb_spec n 0xffff); [|destruct (Z.leb_spec n 0xffffffff)]];
      rewrite <- ?app_assoc; try lia;
      (erewrite bind_eq by (apply (read_uint_write 1); lia)); cbn [Z.ltb Z.eqb Z.compare Pos.compare Pos.compare_cont Pos.eqb].
    + destruct (Z.ltb_spec n 253); [|lia]. rewrite (bind_eq (mret n) _ _ n rest eq_refl). by destruct (Z.ltb_spec 0x02000000 n); [lia|].
    + rewrite (bind_eq _ _ _ n rest) by (apply codes_long_size; lia). by destruct (Z.ltb_spec 0x02000000 n); [lia|].
    + rewrite (bind_eq _ _ _ n rest) by (apply codes_long_size; lia). by destruct (Z.ltb_spec 0x02000000 n); [lia|].
  - intros s n rest Hs (c & s1 & Hc & H)%bind_inr. apply read_uint_inv in Hc as [[Hc Hs1] ->]; [|done].
    apply bind_inr in H as (m & s2 & Hm & H). destruct (Z.ltb_spec 0x02000000 m); [done|]. injection H as -> ->.
    change (8 * Z.of_nat 1) with 8 in Hc. unfold WriteCompactSize.
    destruct (Z.ltb_spec c 253); [|destruct (Z.eqb_spec c 253); [|destruct (Z.eqb_spec c 254)]].
    + injection Hm as -> ->. destruct (Z.ltb_spec n 253); [|lia]. split; [lia|done].
    + apply codes_long_size in Hm as [[Hl Hn] ->]; [|done]. change (8 * Z.of_nat 2) with 16 in Hn.
      destruct (Z.ltb_spec n 253); [lia|]. destruct (Z.leb_spec n 0xffff); [|lia]. subst c. rewrite app_assoc. split; [lia|done].
    + apply codes_long_size in Hm as [[Hl Hn] ->]; [|done]. change (8 * Z.of_nat 4) with 32 in Hn.
      destruct (Z.ltb_spec n 253); [lia|]. destruct (Z.leb_spec n 0xffff); [lia|]. destruct (Z.leb_spec n 0xffffffff); [|lia].
      subst c. rewrite app_assoc. split; [lia|done].
    + apply codes_long_size in Hm as [[Hl Hn] ->]; [|done]. lia.
Qed.
Lemma WriteCompactSize_length n : length (WriteCompactSize n) = Z.to_nat (GetSizeOfCompactSize n).
Proof. unfold WriteCompactSize, GetSizeOfCompactSize, write_int. repeat case_match; rewrite ?length_app, ?le_bytes_length; done. Qed.

(** ** Variable-length integers *)

(** A continuation byte is a digit with its high bit set; the digits count from one. *)
Lemma digit_bits n : 0 <= n -> Z.land n 0x7f = n mod 128.
Proof. intros _. apply (land_ones_mod n 7). lia. Qed.
Lemma cont_byte d : 0 <= d < 128 -> Z.lor d 0x80 = d + 128.
Proof. intros Hd. pose proof (lor_shiftl_add d 1 7 ltac:(lia) ltac:(lia)) as H. change (Z.shiftl 1 7) with 0x80 in H. lia. Qed.
Lemma read_digit w n c s : 0 <= n < 2 ^ w -> 7 <= w -> 0 <= c < 256 ->
  ReadVarInt_loop w n (c :: s) =
    let n' := (n * 128) mod 2 ^ w + c mod 128 in
    if 128 <=? c then ReadVarInt_loop w ((n' + 1) mod 2 ^ w) s else inr (n', s).
Proof.
  intros Hn Hw Hc. cbn [ReadVarInt_loop]. rewrite digit_bits, Z.shiftl_mul_pow2 by lia. change (2 ^ 7) with 128.
  assert (Z.lor ((n * 128) mod 2 ^ w) (c mod 128) = (n * 128) mod 2 ^ w + c mod 128) as ->.
  { replace (2 ^ w) with (128 * 2 ^ (w - 7)) by (change 128 with (2 ^ 7); rewrite <- Z.pow_add_r by lia; f_equal; lia).
    rewrite (Z.mul_comm n), Z.mul_mod_distr_l by lia. set (q := n mod 2 ^ (w - 7)).
    rewrite Z.lor_comm. replace (128 * q) with (Z.shiftl q 7) by (rewrite Z.shiftl_mul_pow2; lia).
    rewrite lor_shiftl_add by (pose proof (Z.mod_pos_bound c 128); lia). rewrite Z.shiftl_mul_pow2 by lia. lia. }
  assert (negb (Z.land c 0x80 =? 0) = (128 <=? c)) as ->; [|done].
  change 0x80 with (2 ^ 7). rewrite land_pow2_eqb, negb_involutive by lia. rewrite Z.testbit_eqb by lia.
  destruct (Z.leb_spec (2 ^ 7) c); zwrap.
Qed.

Lemma shift_digit n : 0x7f < n -> Z.shiftr n 7 = n / 128 /\ 1 <= n / 128 /\ n = n / 128 * 128 + n mod 128 /\ 0 <= n mod 128 < 128.
Proof. intros Hn. rewrite Z.shiftr_div_pow2 by lia. change (2 ^ 7) with 128. zwrap. Qed.
(** The bytes of [n], the last of which is a continuation when [cont]. *)
Fixpoint digits (fuel : nat) (cont : bool) (n : Z) : list Z :=
  match fuel with
  | O => []
  | S fuel' =>
      (if n <=? 0x7f then [] else digits fuel' true (Z.shiftr n 7 - 1)) ++ [n mod 128 + (if cont then 128 else 0)]
  end.
Lemma WriteVarInt_digits fuel n out : 0 <= n ->
  WriteVarInt_loop fuel n out = digits fuel (match out with [] => false | _ => true end) n ++ out.
Proof.
  revert n out. induction fuel as [|fuel IH]; intros n out Hn; [done|]. cbn [WriteVarInt_loop digits].
  assert (Z.lor (Z.land n 0x7f) match out with [] => 0 | _ => 0x80 end
    = n mod 128 + (if match out with [] => false | _ => true end then 128 else 0)) as ->.
  { rewrite digit_bits by lia. pose proof (Z.mod_pos_bound n 128). destruct out; [|by apply cont_byte; lia].
    rewrite Z.lor_0_r. lia. }
  destruct (Z.leb_spec n 0x7f); [done|]. rewrite IH, <- app_assoc; [done|].
  destruct (shift_digit n) as (-> & ?); lia.
Qed.

Lemma read_digits w fuel n s : 7 <= w -> 0 <= n < 2 ^ w -> n < Z.of_nat fuel * 128 ->
  ReadVarInt_loop w 0 (digits fuel true n ++ s) = ReadVarInt_loop w ((n + 1) mod 2 ^ w) s.
Proof.
  intros Hw. revert n s. induction fuel as [|fuel IH]; intros n s Hn Hf; [lia|]. cbn [digits].
  assert (2 ^ 7 <= 2 ^ w) by (apply Z.pow_le_mono_r; lia).
  destruct (Z.leb_spec n 0x7f).
  - cbn [app]. rewrite read_digit by (pose proof (Z.mod_pos_bound n 128); lia). cbv zeta.
    replace (128 <=? n mod 128 + 128) with true by (pose proof (Z.mod_pos_bound n 128); lia).
    replace ((0 * 128) mod 2 ^ w + (n mod 128 + 128) mod 128) with n; [done|].
    rewrite Z.mod_0_l by lia. zwrap.
  - destruct (shift_digit n) as (-> & H1 & H2 & H3); [done|]. rewrite <- app_assoc, IH by lia. cbn [app].
    replace (n / 128 - 1 + 1) with (n / 128) by lia. rewrite (Z.mod_small (n / 128)) by lia.
    rewrite read_digit by lia. cbv zeta. rewrite (Z.mod_small (n / 128 * 128)) by lia.
    replace (128 <=? n mod 128 + 128) with true by lia.
    by replace (n / 128 * 128 + (n mod 128 + 128) mod 128) with n by zwrap.
Qed.
Lemma ReadVarInt_Write w n rest : (7 <= w)%nat -> 0 <= n < 2 ^ Z.of_nat w ->
  ReadVarInt (Z.of_nat w) (WriteVarInt (S (Z.to_nat n)) n ++ rest) = inr (n, rest).
Proof.
  intros Hw Hn. unfold ReadVarInt, WriteVarInt. rewrite WriteVarInt_digits, app_nil_r by lia. cbn [digits].
  assert (2 ^ 7 <= 2 ^ Z.of_nat w) by (apply Z.pow_le_mono_r; lia).
  destruct (Z.leb_spec n 0x7f).
  - cbn [app]. rewrite read_digit by (pose proof (Z.mod_pos_bound n 128); lia). cbv zeta.
    rewrite Z.mod_0_l by lia. destruct (Z.leb_spec 128 (n mod 128 + 0)); [zwrap|]. do 2 f_equal. zwrap.
  - destruct (shift_digit n) as (-> & H1 & H2 & H3); [done|]. rewrite <- app_assoc, read_digits by lia. cbn [app].
    replace (n / 128 - 1 + 1) with (n / 128) by lia. rewrite (Z.mod_small (n / 128)) by lia.
    rewrite read_digit by lia. cbv zeta. rewrite (Z.mod_small (n / 128 * 128)) by lia.
    destruct (Z.leb_spec 128 (n mod 128 + 0)); [lia|]. do 2 f_equal. zwrap.
Qed.
(** As many rounds as the type has bits are enough. *)
Lemma digits_fuel f1 f2 cont n k : 0 <= n < 2 ^ Z.of_nat k -> (k <= f1)%nat -> (k <= f2)%nat -> (0 < f1)%nat -> (0 < f2)%nat ->
  digits f1 cont n = digits f2 cont n.
Proof.
  revert f1 f2 cont n. induction k as [|k IH]; intros [|f1] [|f2] cont n Hn H1 H2 Hf1 Hf2; try lia; cbn [digits];
    (destruct (Z.leb_spec n 0x7f); [done|]); [cbn in Hn; lia|].
  destruct (shift_digit n) as (-> & H3 & H4 & H5); [done|].
  assert (2 ^ 7 <= 2 ^ Z.of_nat k).
  { apply Z.pow_le_mono_r; [lia|]. destruct (Z.lt_ge_cases (Z.of_nat k) 7) as [Hk|Hk]; [|done].
    assert (2 ^ Z.of_nat (S k) <= 2 ^ 7) by (apply Z.pow_le_mono_r; lia). lia. }
  assert (k <> 0)%nat by (intros ->; cbn in *; lia).
  f_equal. apply IH; try lia. replace (Z.of_nat (S k)) with (1 + Z.of_nat k) in Hn by lia. rewrite Z.pow_add_r in Hn by lia. lia.
Qed.
Lemma digits_length fuel cont n (k : nat) : (1 <= k)%nat -> 0 <= n < 2 ^ (7 * Z.of_nat k) -> (length (digits fuel cont n) <= k)%nat.
Proof.
  revert cont n k. induction fuel as [|fuel IH]; intros cont n k Hk Hn; [cbn; lia|]. cbn [digits]. rewrite length_app. cbn [length].
  destruct (Z.leb_spec n 0x7f); [cbn; lia|]. destruct (shift_digit n) as (-> & H1 & H2 & H3); [done|].
  destruct k as [|[|k]]; [lia|cbn in Hn; lia|].
  assert (length (digits fuel true (n / 128 - 1)) <= S k)%nat; [|lia]. apply IH; [lia|].
  replace (7 * Z.of_nat (S (S k))) with (7 + 7 * Z.of_nat (S k)) in Hn by lia. rewrite Z.pow_add_r in Hn by lia.
  change (2 ^ 7) with 128 in Hn. lia.
Qed.
Lemma GetSizeOfVarInt_digits fuel cont n : GetSizeOfVarInt_loop fuel n = Z.of_nat (length (digits fuel cont n)).
Proof.
  revert cont n. induction fuel as [|fuel IH]; intros cont n; [done|]. cbn [GetSizeOfVarInt_loop digits].
  rewrite length_app. cbn [length]. destruct (n <=? 0x7f); [done|]. rewrite (IH true). lia.
Qed.

Lemma ReadVarInt_WriteVarInt (w : nat) n rest : (7 <= w)%nat -> 0 <= n < 2 ^ Z.of_nat w ->
  ReadVarInt (Z.of_nat w) (WriteVarInt w n ++ rest) = inr (n, rest).
Proof.
  intros Hw Hn.
  rewrite <- (ReadVarInt_Write w n rest) by done. unfold WriteVarInt. rewrite !WriteVarInt_digits by lia. do 3 f_equal.
  destruct (decide (n = 0)) as [->|Hn0]; [by destruct w; [lia|]|].
  apply (digits_fuel _ _ _ _ (Z.to_nat (Z.log2 n + 1))); try lia.
  - rewrite Z2Nat.id by (pose proof (Z.log2_nonneg n); lia). pose proof (Z.log2_spec n ltac:(lia)).
      replace (Z.succ (Z.log2 n)) with (Z.log2 n + 1) in * by lia. lia.
  - pose proof (proj1 (Z.log2_lt_pow2 n (Z.of_nat w) ltac:(lia)) ltac:(lia)). lia.
  - pose proof (Z.log2_lt_lin n). lia.
Qed.

(** Variable-length integers, of every unsigned width of at least seven bits: what is
    written is read back, whatever follows it; the size announced is the number of bytes;
    and that number fits the buffer of [(w + 6) / 7] bytes into which [WriteVarInt] writes
    without checking. *)
Theorem varint_correct (w : nat) (n : Z) (rest : list Z) : (7 <= w)%nat -> 0 <= n < 2 ^ Z.of_nat w ->
  ReadVarInt (Z.of_nat w) (WriteVarInt w n ++ rest) = inr (n, rest) /\
  GetSizeOfVarInt w n = Z.of_nat (length (WriteVarInt w n)) /\
  Z.of_nat (length (WriteVarInt w n)) <= (Z.of_nat w + 6) / 7.
Proof.
  intros Hw Hn. split_and!.
  - by apply ReadVarInt_WriteVarInt.
  - unfold GetSizeOfVarInt, WriteVarInt. rewrite WriteVarInt_digits, app_nil_r by lia. apply GetSizeOfVarInt_digits.
  - unfold WriteVarInt. rewrite WriteVarInt_digits, app_nil_r by lia.
    pose proof (digits_length w false n (Z.to_nat ((Z.of_nat w + 6) / 7))) as H. cbn in H |- *.
    assert (1 <= (Z.of_nat w + 6) / 7 /\ Z.of_nat w <= 7 * ((Z.of_nat w + 6) / 7)) as [H1 H2] by zwrap.
    rewrite <- (Z2Nat.id ((Z.of_nat w + 6) / 7)) by lia. apply inj_le, H; [lia|].
    rewrite Z2Nat.id by lia. split; [lia|]. eapply Z.lt_le_trans; [apply Hn|]. apply Z.pow_le_mono_r; lia.
Qed.
Lemma varint_correct_witness : ReadVarInt 32 (WriteVarInt 32 (2 ^ 32 - 1) ++ [7]) = inr (2 ^ 32 - 1, [7]).
Proof. apply (varint_correct 32 (2 ^ 32 - 1) [7]); lia. Defined.

(** The converse fails: the reader drops the bits that do not fit, so a value has more than
    one encoding. *)
Example varint_not_unique : ReadVarInt 32 [0x8e; 0xfe; 0xfe; 0xff; 0] = inr (0, []) /\ WriteVarInt 32 0 = [0].
Proof. by vm_compute. Qed.

(** ** The laws of the built-in codecs *)

Lemma law_codes {A} `{CodecLaws A ok} : codes Unserialize Serialize ok.
Proof. split; [apply codec_read|apply codec_canonical]. Qed.

Lemma codes_read_blocks fuel nSize i : 0 <= i <= nSize -> nSize - i <= Z.of_nat fuel * BLOCK_BYTES ->
  codes (read_blocks fuel nSize i) id (fun b => Z.of_nat (length b) = nSize - i /\ Forall is_byte b).
Proof.
  revert i. induction fuel as [|fuel IH]; intros i Hi Hf; cbn [read_blocks].
  - eapply codes_weaken; [apply (codes_ret [])| |by intros a ->].
    intros a. split; [intros [Ha _]; by destruct a; cbn in Ha; [|lia]|intros ->]. split; [cbn; lia|constructor].
  - apply codes_if; intros Hb.
    + unfold BLOCK_BYTES in *. set (blk := Z.min _ _). eapply codes_weaken.
      * eapply (codes_bind _ _ _ _ (take (Z.to_nat blk)) (drop (Z.to_nat blk))
          (fun b => Z.of_nat (length b) = nSize - i /\ Forall is_byte b)); [apply codes_bytes; lia|].
        intros b [Hl Hb']. cbn beta.
        eapply codes_weaken; [apply (codes_map _ (app b) (drop (Z.to_nat blk)) _ _
          (fun c => (Z.of_nat (length c) = nSize - i /\ Forall is_byte c) /\ take (Z.to_nat blk) c = b) (IH (i + blk) ltac:(lia) ltac:(lia)))| |done].
        -- intros c. rewrite length_drop. split.
           ++ intros [[Hc Hc'] <-]. rewrite take_drop. split; [|done]. split; [lia|by apply Forall_drop].
           ++ intros [[Hc Hc'] <-]. rewrite length_app, length_drop, take_app_length' by lia. split; [|done].
              split; [lia|by apply Forall_app].
        -- intros c _. by rewrite drop_app_length' by lia.
        -- done.
      * intros c. cbn beta. rewrite length_take. split; [|by intros []]. intros [Hc Hc'].
        split; [split; [lia|by apply Forall_take]|done].
      * intros c _. apply take_drop.
    + eapply codes_weaken; [apply (codes_ret [])| |by intros a ->].
      intros a. split; [intros [Ha _]; destruct a; [done|cbn in Ha; lia]|intros ->]. split; [cbn; lia|constructor].
Qed.

Definition bytes_ok (v : list Z) : Prop := Z.of_nat (length v) <= MAX_SIZE /\ Forall is_byte v.
Lemma CompactSize_bytes n : Forall is_byte (WriteCompactSize n).
Proof. unfold WriteCompactSize, write_int. repeat case_match; repeat apply Forall_app_2; apply le_bytes_range. Qed.
Lemma Serialize_bytes_bytes v : Forall is_byte v -> Forall is_byte (Serialize_bytes v).
Proof. intros Hv. apply Forall_app_2; [apply CompactSize_bytes|exact Hv]. Qed.
Lemma Serialize_vector_bytes {A} `{Codec A} (v : list A) : Forall (fun a => Forall is_byte (Serialize a)) v -> Forall is_byte (Serialize_vector v).
Proof. intros Hv. apply Forall_app_2; [apply CompactSize_bytes|]. by apply Forall_concat, Forall_map. Qed.
Lemma codes_vector_bytes : codes Unserialize_bytes Serialize_bytes bytes_ok.
Proof.
  eapply codes_weaken.
  - eapply (codes_bind _ _ _ _ (fun v => Z.of_nat (length v)) id (Forall is_byte)); [apply codes_CompactSize|].
    intros n Hn. cbn beta. eapply codes_weaken; [apply (codes_read_blocks 8 n 0); unfold BLOCK_BYTES, MAX_SIZE in *; lia| |done].
    intros v. rewrite Z.sub_0_r. tauto.
  - intros v. unfold bytes_ok. split; [intros [H1 H2]; split; [lia|done]|intros [[_ H1] H2]; done].
  - done.
Qed.

#[export] Instance bytes_laws : CodecLaws (list Z) bytes_ok.
Proof.
  split; [apply codes_vector_bytes|apply codes_vector_bytes|]. intros v _. cbn. unfold Serialize_bytes, GetSerializeSize_bytes.
  rewrite length_app, WriteCompactSize_length. intros Hs.
  assert (0 <= GetSizeOfCompactSize (Z.of_nat (length v))) by (unfold GetSizeOfCompactSize; repeat case_match; lia).
  rewrite u32_small; lia.
Qed.

Section vector_laws.
Context `{CodecLaws A ok}.
Definition vector_ok (v : list A) : Prop := Z.of_nat (length v) <= MAX_SIZE /\ Forall ok v.
Lemma codes_elements n : codes (read_elements n) (fun v => concat (map Serialize v)) (fun v => length v = n /\ Forall ok v).
Proof.
  induction n as [|n IH]; cbn [read_elements].
  - eapply codes_weaken; [apply (codes_ret [])| |by intros a ->].
    intros v. split; [by intros [Hv _]; destruct v|by intros ->].
  - destruct law_codes as [L1 L2]. destruct IH as [I1 I2]. split.
    + intros v rest [Hl Hv]. destruct v as [|a v]; [done|]. apply Forall_cons_iff in Hv as [Ha Hv]. cbn [map concat].
      rewrite <- app_assoc. erewrite bind_eq by by apply L1. erewrite bind_eq; [done|]. apply I1. by injection Hl.
    + intros s v rest Hs (a & s1 & Ha & (v' & s2 & Hv & Hr)%bind_inr)%bind_inr. injection Hr as <- <-.
      apply L2 in Ha as [Ha ->]; [|done]. apply Forall_app in Hs as [_ Hs]. apply I2 in Hv as [[Hl Hv] ->]; [|done].
      cbn [map concat length]. rewrite app_assoc. split; [split; [by f_equal|by constructor]|done].
Qed.
Lemma codes_vector : codes Unserialize_vector Serialize_vector vector_ok.
Proof.
  eapply codes_weaken.
  - eapply (codes_bind _ _ _ _ (fun v : list A => Z.of_nat (length v)) (fun v => concat (map Serialize v)) (Forall ok)); [apply codes_CompactSize|].
    intros n Hn. cbn beta in Hn |- *. eapply codes_weaken; [apply (codes_elements (Z.to_nat n))| |done].
    intros v. split; [intros [Hv Hl]; split; [lia|done]|intros [Hl Hv]; split; [done|lia]].
  - intros v. unfold vector_ok. split; [intros [H1 H2]; split; [lia|done]|intros [[_ ?] ?]; done].
  - done.
Qed.
Lemma vector_size (v : list A) : vector_ok v -> Z.of_nat (length (Serialize_vector v)) < 2 ^ 32 ->
  GetSerializeSize_vector v = Z.of_nat (length (Serialize_vector v)).
Proof.
  intros [Hl Hv] Hs. unfold Serialize_vector, GetSerializeSize_vector in *. rewrite length_app, WriteCompactSize_length in *.
  set (k := GetSizeOfCompactSize _) in *. assert (0 <= k) as Hk by (subst k; unfold GetSizeOfCompactSize; repeat case_match; lia).
  clearbody k. clear Hl. revert k Hk Hs. induction Hv as [|a v Ha Hv IH]; intros k Hk Hs; cbn [map concat foldl length] in *; [lia|].
  rewrite length_app in *. rewrite codec_size, u32_small by (done || lia).
  rewrite IH; lia.
Qed.
#[export] Instance vector_laws : CodecLaws (list A) vector_ok.
Proof. split; [apply codes_vector|apply codes_vector|apply vector_size]. Qed.
End vector_laws.

Section pair_laws.
Context `{CodecLaws A okA, CodecLaws B okB}.
Definition pair_ok (p : A * B) : Prop := okA p.1 /\ okB p.2.
#[export] Instance pair_laws : CodecLaws (A * B) pair_ok.
Proof.
  assert (codes Unserialize_pair Serialize_pair pair_ok) as [H1' H2'].
  { eapply (codes_bind _ _ _ _ fst (fun p : A * B => Serialize p.2) (fun p => okB p.2)); [apply law_codes|].
    intros a _. apply (codes_map _ (pair a) snd _ _ _ law_codes); [|done].
    intros [x y]. cbn. split; [by intros [? ->]|by intros [? [= ->]]]. }
  split; [done|done|]. intros [a b] [Ha Hb]. cbn. unfold Serialize_pair, GetSerializeSize_pair. cbn.
  cbn in Ha, Hb. rewrite length_app. intros Hs. rewrite !codec_size, u32_small by (done || lia). lia.
Qed.
End pair_laws.

Lemma codes_LimitedString Limit : 0 <= Limit ->
  codes (Unserialize_LimitedString Limit) Serialize_bytes (fun v => Z.of_nat (length v) <= Z.min Limit MAX_SIZE /\ Forall is_byte v).
Proof.
  intros HL. eapply codes_weaken.
  - eapply (codes_bind _ _ _ _ (fun v => Z.of_nat (length v)) id (fun v => Z.of_nat (length v) <= Limit /\ Forall is_byte v)); [apply codes_CompactSize|].
    intros n Hn. cbn beta in Hn. apply codes_if; intros Hb.
    + eapply codes_weaken; [apply codes_fail| |done]. intros v. split; [|done]. intros [[H1 _] H2]. lia.
    + eapply codes_weaken; [apply codes_bytes; lia| |done]. intros v. split; [intros [[_ ?] ?]|intros [? ?]]; split_and?; try done; lia.
  - intros v. split; [intros [H1 H2]|intros [H1 [H2 H3]]]; split_and?; try done; lia.
  - done.
Qed.

(** ** [CDataStream] is such a stream *)

(** Reading at the position of the stream is reading the bytes left: the reader above, for
    a buffer whose length leaves room for the sum of [read] (reads are of at most [MAX_SIZE]
    bytes). *)
Lemma ds_read_refines d nSize : 0 <= nReadPos d <= Z.of_nat (length (vch d)) -> 0 <= nSize ->
  nReadPos d + nSize < 2 ^ 32 ->
  match ds_read d nSize, read_bytes nSize (ds_left d) with
  | inl e, inl e' => e = e'
  | inr (b, d'), inr (b', s') => b = b' /\ ds_left d' = s' /\ 0 <= nReadPos d' <= Z.of_nat (length (vch d'))
  | _, _ => False
  end.
Proof.
  intros Hp Hn Hw. unfold ds_read, read_bytes. rewrite u32_small by lia.
  replace (length (ds_left d)) with (length (vch d) - Z.to_nat (nReadPos d))%nat by (unfold ds_left; by rewrite length_drop).
  destruct (Z.leb_spec (Z.of_nat (length (vch d))) (nReadPos d + nSize)) as [H1|H1].
  - destruct (Z.ltb_spec (Z.of_nat (length (vch d))) (nReadPos d + nSize)) as [H2|H2].
    + destruct (Z.ltb_spec (Z.of_nat (length (vch d) - Z.to_nat (nReadPos d))) nSize); [done|lia].
    + destruct (Z.ltb_spec (Z.of_nat (length (vch d) - Z.to_nat (nReadPos d))) nSize); [lia|]. split; [done|]. split; [|cbn; lia].
      symmetry. apply drop_ge. unfold ds_left. rewrite length_drop. lia.
  - destruct (Z.ltb_spec (Z.of_nat (length (vch d) - Z.to_nat (nReadPos d))) nSize); [lia|]. split; [done|].
    split; [|cbn; lia]. unfold ds_left. cbn. rewrite drop_drop. f_equal. lia.
Qed.
Lemma ds_Rewind_read d b d' n : ds_read d n = inr (b, d') -> 0 <= n -> 0 <= nReadPos d -> nReadPos d + n < Z.of_nat (length (vch d)) ->
  Z.of_nat (length (vch d)) < 2 ^ 32 -> ds_Rewind d' n = Some d.
Proof.
  intros H Hn Hp Hl Hw. unfold ds_read in H. rewrite u32_small in H by lia.
  destruct (Z.leb_spec (Z.of_nat (length (vch d))) (nReadPos d + n)); [lia|]. injection H as <- <-. unfold ds_Rewind. cbn.
  destruct (Z.ltb_spec (nReadPos d + n) n); [lia|]. destruct d. cbn. do 2 f_equal. lia.
Qed.
