(* ===== verification/Transaction.v ===== *)
(** Transactions ([src/src/primitives/transaction.h], [transaction.cpp], [src/src/amount.cpp]):
    outpoints, inputs, outputs and witnesses, the two wire formats, identifiers and sums.
    The codecs of the parts are instances of the interface of [Serialize.v]. *)
From S2P Require Import Prelude Serialize Stream Sha2 Hashers Script Merkle.

(** ** Amounts and fee rates *)

Definition CAmount := Z.
Definition COIN : CAmount := 100000000.

(** [CFeeRate(nFeePaid, nSize)]: the division is in [size_t], unsigned. *)
Definition CFeeRate := CAmount.
Definition CFeeRate_of (nFeePaid nSize : Z) : CFeeRate :=
  if 0 <? nSize then i64 (u64 (i64 (nFeePaid * 1000)) / nSize) else 0.
Definition GetFee (nSatoshisPerK : CFeeRate) (nSize : Z) : CAmount :=
  let nFee := i64 (u64 (nSatoshisPerK * nSize) / 1000) in
  if (nFee =? 0) && (0 <? nSatoshisPerK) then nSatoshisPerK else nFee.

(** ** Data *)

Definition SERIALIZE_TRANSACTION_NO_WITNESS : Z := 0x40000000.
Definition WITNESS_SCALE_FACTOR : Z := 4.
Definition SEQUENCE_FINAL : Z := 0xffffffff.
Definition UINT32_MAX : Z := 0xffffffff.

Record COutPoint := mkOutPoint { out_hash : hash256; out_n : Z }.
Definition COutPoint_null : COutPoint := mkOutPoint hash_zero UINT32_MAX.
Definition OutPoint_IsNull (o : COutPoint) : bool := bool_decide (out_hash o = hash_zero) && (out_n o =? UINT32_MAX).
Definition OutPoint_eqb (a b : COutPoint) : bool := bool_decide (out_hash a = out_hash b) && (out_n a =? out_n b).
(** [uint256] compares as a number, its bytes are little-endian. *)
Definition OutPoint_ltb (a b : COutPoint) : bool :=
  (of_le_bytes (out_hash a) <? of_le_bytes (out_hash b)) || (bool_decide (out_hash a = out_hash b) && (out_n a <? out_n b)).

(** [prevPubKey] is in memory only. *)
Record CTxIn := mkTxIn { prevout : COutPoint; scriptSig : CScript; nSequence : Z; prevPubKey : CScript }.
Definition IsFinal (i : CTxIn) : bool := nSequence i =? UINT32_MAX.

(** [nRounds] is in memory only. *)
Record CTxOut := mkTxOut { nValue : CAmount; scriptPubKey : CScript; nRounds : Z }.
Definition TxOut_null : CTxOut := mkTxOut (-1) [] (-10).
Definition TxOut_IsNull (o : CTxOut) : bool := nValue o =? -1.
Definition TxOut_SetEmpty (o : CTxOut) : CTxOut := mkTxOut 0 [] (nRounds o).
Definition TxOut_IsEmpty (o : CTxOut) : bool := (nValue o =? 0) && bool_decide (scriptPubKey o = []).
Definition TxOut_IsZerocoinMint (o : CTxOut) : bool := negb (bool_decide (scriptPubKey o = [])) && IsZerocoinMint (scriptPubKey o).

(** [CTxinWitness] holds the stack of a [CScriptWitness], [CTxWitness] one per input. *)
Definition CTxinWitness := list valtype.
Definition TxinWitness_IsNull (w : CTxinWitness) : bool := bool_decide (w = []).
Definition CTxWitness := list CTxinWitness.
Definition Witness_IsNull (w : CTxWitness) : bool := forallb TxinWitness_IsNull w.
Definition Witness_IsEmpty (w : CTxWitness) : bool := bool_decide (w = []).

Record CMutableTransaction := mkTx {
  nVersion : Z;
  vin : list CTxIn;
  vout : list CTxOut;
  wit : CTxWitness;
  nLockTime : Z
}.
Definition CURRENT_VERSION : Z := 1.
Definition CMutableTransaction_default : CMutableTransaction := mkTx CURRENT_VERSION [] [] [] 0.

(** [CTransaction] adds the identifier computed when it was built or read. *)
Record CTransaction := mkCTx { cached_hash : hash256; tx :> CMutableTransaction }.

(** ** Wire formats *)

Definition Serialize_OutPoint (o : COutPoint) : list Z := out_hash o ++ write_int 4 (out_n o).
Definition Unserialize_OutPoint : reader COutPoint := h ← read_bytes 32; n ← read_uint 4; mret (mkOutPoint h n).
#[export] Instance OutPoint_codec : Codec COutPoint :=
  {| Serialize := Serialize_OutPoint; Unserialize := Unserialize_OutPoint; GetSerializeSize := fun _ => 36 |}.

Definition Serialize_TxIn (i : CTxIn) : list Z := Serialize (prevout i) ++ Serialize (scriptSig i) ++ write_int 4 (nSequence i).
Definition Unserialize_TxIn : reader CTxIn :=
  o ← Unserialize; s ← Unserialize; n ← read_uint 4; mret (mkTxIn o s n []).
#[export] Instance TxIn_codec : Codec CTxIn :=
  {| Serialize := Serialize_TxIn; Unserialize := Unserialize_TxIn;
     GetSerializeSize := fun i => u32 (Z.of_nat (length (Serialize_TxIn i))) |}.

Definition Serialize_TxOut (o : CTxOut) : list Z := write_int 8 (nValue o) ++ Serialize (scriptPubKey o).
Definition Unserialize_TxOut : reader CTxOut := v ← read_int64; s ← Unserialize; mret (mkTxOut v s (-10)).
#[export] Instance TxOut_codec : Codec CTxOut :=
  {| Serialize := Serialize_TxOut; Unserialize := Unserialize_TxOut;
     GetSerializeSize := fun o => u32 (Z.of_nat (length (Serialize_TxOut o))) |}.

(** [CTxWitness::SerializationOp]: one stack per input, no count.  A witness that is null may
    not be written nor read: [None], [SuperfluousWitness]. *)
Definition Serialize_Witness (w : CTxWitness) : option (list Z) :=
  if Witness_IsNull w then None else Some (concat (map Serialize w)).
Definition Unserialize_Witness (nInputs : nat) : reader CTxWitness :=
  w ← read_elements nInputs; if Witness_IsNull w then fail_read SuperfluousWitness else mret w.

(** [std::vector::resize] of the witness to the number of inputs. *)
Definition resize_witness (n : nat) (w : CTxWitness) : CTxWitness := take n w ++ replicate (n - length w) [].

(** [SerializeTransaction] writes, and pads the witness of the transaction in place; [None]
    is its assertion failing or an exception. *)
Definition SerializeTransaction (fAllowWitness : bool) (t : CMutableTransaction) : option (list Z * CMutableTransaction) :=
  if negb (Nat.leb (length (wit t)) (length (vin t))) then None else
  let flags := if fAllowWitness && negb (Witness_IsNull (wit t)) then 1 else 0 in
  let header := write_int 4 (nVersion t) ++ (if flags =? 0 then [] else Serialize ([] : list CTxIn) ++ write_int 1 flags) in
  let body := Serialize (vin t) ++ Serialize (vout t) in
  let lock := write_int 4 (nLockTime t) in
  if negb (Z.land flags 1 =? 0) then
    let w := resize_witness (length (vin t)) (wit t) in
    b ← Serialize_Witness w;
    Some (header ++ body ++ b ++ lock, mkTx (nVersion t) (vin t) (vout t) w (nLockTime t))
  else Some (header ++ body ++ lock, t).

Definition read_in_out (fAllowWitness : bool) : reader (Z * list CTxIn * list CTxOut) :=
  vin ← (Unserialize : reader (list CTxIn));
  if Nat.eqb (length vin) 0 && fAllowWitness then
    flags ← read_uint 1;
    if flags =? 0 then mret (flags, vin, []) else
    vin ← (Unserialize : reader (list CTxIn)); vout ← (Unserialize : reader (list CTxOut)); mret (flags, vin, vout)
  else vout ← (Unserialize : reader (list CTxOut)); mret (0, vin, vout).
Definition UnserializeTransaction (fAllowWitness : bool) : reader CMutableTransaction :=
  version ← read_int32;
  '(flags, vin, vout) ← read_in_out fAllowWitness;
  '(flags, w) ← (if negb (Z.land flags 1 =? 0) && fAllowWitness then
      w ← Unserialize_Witness (length vin); mret (Z.lxor flags 1, w)
    else mret (flags, []) : reader (Z * CTxWitness));
  if negb (flags =? 0) then fail_read UnknownOptionalData else
  lock ← read_uint 4; mret (mkTx version vin vout w lock).

(** What [CHashWriter] and [CSizeComputer] see: the bytes written. *)
Definition tx_bytes (fAllowWitness : bool) (t : CMutableTransaction) : list Z := from_option fst [] (SerializeTransaction fAllowWitness t).
Definition fAllowWitness (nVersion : Z) : bool := Z.land nVersion SERIALIZE_TRANSACTION_NO_WITNESS =? 0.
Definition PROTOCOL_VERSION : Z := 70004.

(** ** Identifiers *)

Definition GetHash (t : CMutableTransaction) : hash256 := Hash [tx_bytes (fAllowWitness SERIALIZE_TRANSACTION_NO_WITNESS) t].
Definition GetWitnessHash (t : CMutableTransaction) : hash256 := Hash [tx_bytes (fAllowWitness PROTOCOL_VERSION) t].
Definition UpdateHash (t : CTransaction) : CTransaction := mkCTx (GetHash t) t.
Definition CTransaction_of (t : CMutableTransaction) : CTransaction := mkCTx (GetHash t) t.
Definition CTransaction_default : CTransaction := mkCTx hash_zero CMutableTransaction_default.
(** Reading a [CTransaction] refreshes its identifier. *)
Definition Unserialize_CTransaction (fAllowWitness : bool) : reader CTransaction :=
  t ← UnserializeTransaction fAllowWitness; mret (CTransaction_of t).

(** ** Classification and sums *)

Definition Tx_IsNull (t : CMutableTransaction) : bool := bool_decide (length (vin t) = 0%nat) && bool_decide (length (vout t) = 0%nat).
Definition Tx_IsZerocoinSpend (t : CMutableTransaction) : bool :=
  match vin t with
  | i :: _ => bool_decide (out_hash (prevout i) = hash_zero) &&
      match scriptSig i with op :: _ => op =? OP_ZEROCOINSPEND | [] => false end
  | [] => false
  end.
Definition Tx_IsZerocoinMint (t : CMutableTransaction) : bool := existsb (fun o => IsZerocoinMint (scriptPubKey o)) (vout t).
Definition ContainsZerocoins (t : CMutableTransaction) : bool := Tx_IsZerocoinSpend t || Tx_IsZerocoinMint t.
Definition IsCoinBase (t : CMutableTransaction) : bool :=
  match vin t with [i] => OutPoint_IsNull (prevout i) && negb (ContainsZerocoins t) | _ => false end.
Definition IsCoinStake (t : CMutableTransaction) : bool :=
  match vin t, vout t with
  | i :: _, o :: _ :: _ => negb (OutPoint_IsNull (prevout i)) && TxOut_IsEmpty o
  | _, _ => false
  end.
Definition IsMasternodeReward (o : COutPoint) (t : CMutableTransaction) : bool :=
  if negb (IsCoinStake t) then false else
  (out_n o =? Z.of_nat (length (vout t)) - 1) &&
  negb (bool_decide (scriptPubKey (nth 1 (vout t) TxOut_null) = scriptPubKey (nth (Z.to_nat (out_n o)) (vout t) TxOut_null))).

(** [GetValueOut]: [None] is its exception; a sum that passes 2^63 wraps and is caught. *)
Fixpoint GetValueOut_loop (l : list CTxOut) (nValueOut : CAmount) : option CAmount :=
  match l with
  | [] => Some nValueOut
  | o :: l' =>
      if nValue o <? 0 then None
      else if i64 (nValueOut + nValue o) <? nValueOut then None
      else GetValueOut_loop l' (i64 (nValueOut + nValue o))
  end.
Definition GetValueOut (t : CMutableTransaction) : option CAmount := GetValueOut_loop (vout t) 0.

Definition GetZerocoinMinted (t : CMutableTransaction) : CAmount :=
  match List.find (fun o => IsZerocoinMint (scriptPubKey o)) (vout t) with Some o => nValue o | None => 0 end.
Definition GetZerocoinMintCount (t : CMutableTransaction) : Z :=
  foldl (fun nCount o => if IsZerocoinMint (scriptPubKey o) then nCount + 1 else nCount) 0 (vout t).
Definition GetZerocoinSpent (t : CMutableTransaction) : CAmount :=
  if negb (Tx_IsZerocoinSpend t) then 0 else
  foldl (fun nValueOut i => if IsZerocoinSpend (scriptSig i) then i64 (nValueOut + nSequence i * COIN) else nValueOut) 0 (vin t).
Definition UsesUTXO (t : CMutableTransaction) (out : COutPoint) : bool := existsb (fun i => OutPoint_eqb (prevout i) out) (vin t).
Definition GetOutPoints (t : CTransaction) : list COutPoint := imap (fun i _ => mkOutPoint (cached_hash t) (Z.of_nat i)) (vout t).

(** ** Sizes ([unsigned int]s) *)

Definition GetTransactionCost (t : CMutableTransaction) : Z :=
  u32 (Z.of_nat (length (tx_bytes (fAllowWitness (Z.lor PROTOCOL_VERSION SERIALIZE_TRANSACTION_NO_WITNESS)) t)) * (WITNESS_SCALE_FACTOR - 1)
    + Z.of_nat (length (tx_bytes (fAllowWitness 0) t))).
Definition CalculateModifiedSize (t : CMutableTransaction) (nTxSize : Z) : Z :=
  let nTxSize := if nTxSize =? 0 then u32 ((GetTransactionCost t + WITNESS_SCALE_FACTOR - 1) / WITNESS_SCALE_FACTOR) else nTxSize in
  foldl (fun nTxSize i =>
    let offset := 41 + Z.min 110 (Z.of_nat (length (scriptSig i))) in
    if offset <? nTxSize then nTxSize - offset else nTxSize) nTxSize (vin t).
Definition GetDustThreshold (o : CTxOut) (minRelayTxFee : CFeeRate) : CAmount :=
  if IsUnspendable (scriptPubKey o) then 0 else i64 (3 * GetFee minRelayTxFee (Z.of_nat (length (Serialize_TxOut o)) + 148)).
Definition IsDust (o : CTxOut) (minRelayTxFee : CFeeRate) : bool := nValue o <? GetDustThreshold o minRelayTxFee.

(** ** The laws of the parts *)

Definition OutPoint_ok (o : COutPoint) : Prop := (Z.of_nat (length (out_hash o)) = 32 /\ Forall is_byte (out_hash o)) /\ 0 <= out_n o < 2 ^ 32.
Definition TxIn_ok (i : CTxIn) : Prop :=
  OutPoint_ok (prevout i) /\ bytes_ok (scriptSig i) /\ 0 <= nSequence i < 2 ^ 32 /\ prevPubKey i = [].
Definition TxOut_ok (o : CTxOut) : Prop := - 2 ^ 63 <= nValue o < 2 ^ 63 /\ bytes_ok (scriptPubKey o) /\ nRounds o = -10.

Lemma codes_OutPoint : codes Unserialize_OutPoint Serialize_OutPoint OutPoint_ok.
Proof.
  eapply (codes_field _ _ out_hash _ _ (fun o => write_int 4 (out_n o)) (fun o => 0 <= out_n o < 2 ^ 32));
    [apply (codes_bytes 32); lia| |done|done].
  intros h _. apply (codes_map _ (mkOutPoint h) out_n _ _ _ (codes_uint 4)); [|done].
  intros [h' n]. cbn. split; [by intros [? ->]|by intros [? [= ->]]].
Qed.
Lemma codes_TxIn : codes Unserialize_TxIn Serialize_TxIn TxIn_ok.
Proof.
  eapply (codes_field _ _ prevout _ _ (fun i => Serialize (scriptSig i) ++ write_int 4 (nSequence i))
    (fun i => bytes_ok (scriptSig i) /\ 0 <= nSequence i < 2 ^ 32 /\ prevPubKey i = [])); [apply codes_OutPoint| |done|done]. intros o _.
  eapply (codes_field _ _ scriptSig _ _ (fun i => write_int 4 (nSequence i))
    (fun i => (0 <= nSequence i < 2 ^ 32 /\ prevPubKey i = []) /\ prevout i = o)); [apply law_codes| |cbn; tauto|done].
  intros s _. apply (codes_map _ (fun n => mkTxIn o s n []) nSequence _ _ _ (codes_uint 4)); [|done].
  intros [o' s' n p]. cbn. split; [by intros [[[? ->] ->] ->]|by intros [? [= -> -> ->]]].
Qed.
Lemma codes_TxOut : codes Unserialize_TxOut Serialize_TxOut TxOut_ok.
Proof.
  eapply (codes_field _ _ nValue _ _ (fun o => Serialize (scriptPubKey o)) (fun o => bytes_ok (scriptPubKey o) /\ nRounds o = -10));
    [apply codes_int64| |done|done].
  intros v _. apply (codes_map _ (fun s => mkTxOut v s (-10)) scriptPubKey _ _ _ law_codes); [|done].
  intros [v' s r]. cbn. split; [by intros [[? ->] ->]|by intros [? [= -> ->]]].
Qed.
#[export] Instance OutPoint_laws : CodecLaws COutPoint OutPoint_ok.
Proof.
  split; [apply codes_OutPoint|apply codes_OutPoint|]. intros o [[Hl _] _] _. cbn. unfold Serialize_OutPoint, write_int.
  rewrite length_app, le_bytes_length. lia.
Qed.
#[export] Instance TxIn_laws : CodecLaws CTxIn TxIn_ok.
Proof. split; [apply codes_TxIn|apply codes_TxIn|]. intros i _ Hs. cbn in *. apply u32_small. lia. Qed.
#[export] Instance TxOut_laws : CodecLaws CTxOut TxOut_ok.
Proof. split; [apply codes_TxOut|apply codes_TxOut|]. intros i _ Hs. cbn in *. apply u32_small. lia. Qed.

(** ** Round trip of transactions *)

Definition fields_ok (t : CMutableTransaction) : Prop :=
  - 2 ^ 31 <= nVersion t < 2 ^ 31 /\ vector_ok (ok := TxIn_ok) (vin t) /\ vector_ok (ok := TxOut_ok) (vout t) /\
  Forall (vector_ok (ok := bytes_ok)) (wit t) /\ 0 <= nLockTime t < 2 ^ 32.
(** With witnesses allowed, an empty list of inputs announces the extended format. *)
Definition unambiguous (allow : bool) (t : CMutableTransaction) : Prop := allow = true -> vin t <> [] \/ vout t = [].
(** What is left of a transaction that was written and read back. *)
Definition as_read (allow : bool) (t : CMutableTransaction) : CMutableTransaction :=
  mkTx (nVersion t) (vin t) (vout t)
    (if allow && negb (Witness_IsNull (wit t)) then resize_witness (length (vin t)) (wit t) else []) (nLockTime t).
(** The values read. *)
Definition read_ok (allow : bool) (t : CMutableTransaction) : Prop :=
  fields_ok t /\ unambiguous allow t /\
  (wit t = [] \/ allow = true /\ length (wit t) = length (vin t) /\ Witness_IsNull (wit t) = false).

Section roundtrip.
Context (allow : bool).
Definition in_out_bytes (x : Z * list CTxIn * list CTxOut) : list Z :=
  let '(flags, i, o) := x in
  (if flags =? 0 then [] else Serialize ([] : list CTxIn) ++ write_int 1 flags) ++ Serialize i ++ Serialize o.
Definition in_out_ok (x : Z * list CTxIn * list CTxOut) : Prop :=
  let '(flags, i, o) := x in
  vector_ok (ok := TxIn_ok) i /\ vector_ok (ok := TxOut_ok) o /\ 0 <= flags < 256 /\
  (flags = 0 -> allow = true -> i <> [] \/ o = []) /\ (flags <> 0 -> allow = true).

Lemma vector_ok_nil {A ok} `{CodecLaws A ok} : vector_ok (ok := ok) [].
Proof. split; [cbn; unfold MAX_SIZE; lia|constructor]. Qed.
Lemma Serialize_nil {A} `{Codec A} : Serialize ([] : list A) = [0].
Proof. done. Qed.
Lemma read_in_out_Serialize x rest : in_out_ok x -> read_in_out allow (in_out_bytes x ++ rest) = inr (x, rest).
Proof.
  destruct x as [[flags i] o]. intros (Hi & Ho & Hf & H0 & H1). unfold read_in_out, in_out_bytes.
  destruct (Z.eqb_spec flags 0) as [->|Hn]; rewrite <- ?app_assoc; cbn [app].
  - erewrite bind_eq by by apply codec_read. destruct i as [|x i]; cbn [length Nat.eqb andb].
    + destruct allow eqn:Ea; [|by erewrite bind_eq by by apply codec_read].
      destruct (H0 eq_refl eq_refl) as [| ->]; [done|]. change (Serialize ([] : list CTxOut)) with (write_int 1 0).
      by erewrite bind_eq by (apply (codes_uint 1); lia).
    + by erewrite bind_eq by by apply codec_read.
  - rewrite (H1 Hn) in *. erewrite bind_eq by apply codec_read, vector_ok_nil. cbn [length Nat.eqb andb].
    erewrite bind_eq by (apply (codes_uint 1); lia). destruct (Z.eqb_spec flags 0); [done|].
    erewrite bind_eq by by apply codec_read. by erewrite bind_eq by by apply codec_read.
Qed.
Lemma read_canonical {A ok} `{CodecLaws A ok} s (a : A) rest : Forall is_byte s -> Unserialize s = inr (a, rest) ->
  ok a /\ s = Serialize a ++ rest /\ Forall is_byte rest.
Proof. intros Hs Hr. apply codec_canonical in Hr as [Ha ->]; [|done]. by apply Forall_app in Hs as [_ ?]. Qed.
Lemma read_in_out_canonical s x rest : Forall is_byte s -> read_in_out allow s = inr (x, rest) ->
  in_out_ok x /\ s = in_out_bytes x ++ rest.
Proof.
  intros Hs (i & s1 & Hi & H)%bind_inr. apply read_canonical in Hi as (Hi & -> & Hs1); [|done].
  assert (Hnorm : (o ← (Unserialize : reader (list CTxOut)); mret (0, i, o)) s1 = inr (x, rest) ->
    (i = [] -> allow = false) -> in_out_ok x /\ Serialize i ++ s1 = in_out_bytes x ++ rest).
  { intros (o & s2 & Ho & [= <- <-])%bind_inr Ha. apply read_canonical in Ho as (Ho & -> & _); [|done].
    unfold in_out_ok, in_out_bytes. cbn [Z.eqb app]. rewrite app_assoc. split; [|done]. split_and!; try done; try lia.
    intros _ Ht. left. intros ->. by rewrite Ha in Ht. }
  destruct i as [|x0 i]; cbn [length Nat.eqb andb] in H; [|by apply Hnorm].
  destruct allow eqn:Ea; [|by apply Hnorm]. clear Hnorm.
  apply bind_inr in H as (flags & s2 & Hf & H). apply read_uint_inv in Hf as [[Hf Hs2] ->]; [|done].
  change (8 * Z.of_nat 1) with 8 in Hf. destruct (Z.eqb_spec flags 0) as [->|Hn].
  - injection H as <- <-. unfold in_out_ok, in_out_bytes. rewrite Serialize_nil. split; [|done].
    split_and!; try done; try lia; intros _ _. by right.
  - apply bind_inr in H as (i & s3 & Hi' & (o & s4 & Ho & [= <- <-])%bind_inr).
    apply read_canonical in Hi' as (Hi' & -> & Hs3); [|done]. apply read_canonical in Ho as (Ho & -> & Hs4); [|done].
    unfold in_out_ok, in_out_bytes. destruct (Z.eqb_spec flags 0); [done|]. rewrite <- !app_assoc. split; [|done].
    split_and!; try done; lia.
Qed.
Lemma codes_in_out : codes (read_in_out allow) in_out_bytes in_out_ok.
Proof. split; [apply read_in_out_Serialize|apply read_in_out_canonical]. Qed.

Lemma codes_Witness n : codes (Unserialize_Witness n) (fun w => concat (map Serialize w))
  (fun w => (length w = n /\ Forall (vector_ok (ok := bytes_ok)) w) /\ Witness_IsNull w = false).
Proof.
  destruct (codes_elements (A := CTxinWitness) n) as [H1 H2]. split.
  - intros w rest [Hw Hnn]. unfold Unserialize_Witness. erewrite bind_eq by by apply H1. by rewrite Hnn.
  - intros s w rest Hs (w' & s' & Hw & H)%bind_inr. apply H2 in Hw as [Hw ->]; [|done].
    destruct (Witness_IsNull w') eqn:E; [done|]. by injection H as <- <-.
Qed.

Lemma resize_witness_same n w : length w = n -> resize_witness n w = w.
Proof. intros Hl. unfold resize_witness. rewrite take_ge, Hl, Nat.sub_diag by lia. apply app_nil_r. Qed.
Definition flag (t : CMutableTransaction) : Z := if Witness_IsNull (wit t) then 0 else 1.
Definition witness_bytes (w : CTxWitness) : list Z := if Witness_IsNull w then [] else concat (map Serialize w).

Lemma Serialize_read_ok t : read_ok allow t ->
  SerializeTransaction allow t =
    Some (write_int 4 (nVersion t) ++ in_out_bytes (flag t, vin t, vout t) ++ witness_bytes (wit t) ++ write_int 4 (nLockTime t), t).
Proof.
  intros (_ & _ & Hw). unfold SerializeTransaction, flag, witness_bytes, in_out_bytes. destruct Hw as [Hw|(Ha & Hl & Hw)].
  - rewrite Hw. cbn [length Nat.leb negb Witness_IsNull forallb andb]. rewrite andb_false_r. cbn [Z.eqb Z.land negb].
    by rewrite app_nil_r.
  - rewrite Hw, Ha, Hl, Nat.leb_refl. cbn [negb andb]. change (negb (Z.land 1 1 =? 0)) with true. change (1 =? 0) with false. cbn [negb].
    rewrite resize_witness_same by done. unfold Serialize_Witness. rewrite Hw. cbn [mbind option_bind].
    rewrite <- !app_assoc. by destruct t.
Qed.

Lemma read_back t rest : read_ok allow t -> UnserializeTransaction allow (tx_bytes allow t ++ rest) = inr (t, rest).
Proof.
  intros Hok. unfold tx_bytes. rewrite Serialize_read_ok by done. cbn [from_option fst]. rewrite <- !app_assoc.
  destruct Hok as ((Hv & Hi & Ho & Hws & Hl) & Hu & Hw).
  unfold UnserializeTransaction. erewrite bind_eq by by apply codes_int32.
  erewrite bind_eq.
  2:{ apply codes_in_out. unfold in_out_ok. split_and!; try done; unfold flag; destruct (Witness_IsNull (wit t)) eqn:E; try lia; try done.
      intros _. destruct Hw as [Hw|[? _]]; [by rewrite Hw in E|done]. }
  unfold flag, witness_bytes. destruct Hw as [Hw|(-> & Hl' & Hw)].
  - rewrite Hw. cbn [Witness_IsNull forallb app]. cbn [Z.land Z.eqb negb andb]. erewrite bind_eq by reflexivity. cbv beta iota.
    cbn [Z.eqb negb]. erewrite bind_eq by by apply (codes_uint 4). destruct t. cbn in *. by subst.
  - rewrite Hw. change (negb (Z.land 1 1 =? 0) && true) with true. cbv iota.
    erewrite (bind_eq (_ ≫= _)); [|erewrite bind_eq; [done|by apply (codes_Witness (length (vin t)))]].
    change (Z.lxor 1 1) with 0. cbv beta iota. change (negb (0 =? 0)) with false. cbv iota. erewrite bind_eq by by apply (codes_uint 4). by destruct t.
Qed.

Lemma read_writes s t rest : Forall is_byte s -> UnserializeTransaction allow s = inr (t, rest) ->
  read_ok allow t /\ s = tx_bytes allow t ++ rest.
Proof.
  intros Hs (v & s1 & Hv & H)%bind_inr. apply codes_int32 in Hv as [Hv ->]; [|done]. apply Forall_app in Hs as [_ Hs1].
  apply bind_inr in H as ([[flags i] o] & s2 & Hio & H). apply codes_in_out in Hio as [Hio ->]; [|done].
  apply Forall_app in Hs1 as [_ Hs2]. destruct Hio as (Hi & Ho & Hf & H0 & H1).
  apply bind_inr in H as ([flags' w] & s3 & Hw & H). destruct (Z.eqb_spec flags' 0) as [->|]; [|done].
  cbn [negb] in H. apply bind_inr in H as (lock & s4 & Hl & [= <- <-]).
  assert (Hgoal : forall t, t = mkTx v i o w lock -> flags = flag t -> s2 = witness_bytes w ++ s3 -> Forall is_byte s3 ->
    Forall (vector_ok (ok := bytes_ok)) w -> (w = [] \/ allow = true /\ length w = length i /\ Witness_IsNull w = false) ->
    read_ok allow t /\ write_int 4 v ++ in_out_bytes (flags, i, o) ++ s2 = tx_bytes allow t ++ s4).
  { intros t -> Hflag -> Hs3 Hws Hw'. apply read_uint_inv in Hl as [[Hl _] ->]; [|done].
    assert (read_ok allow (mkTx v i o w lock)) as Hok.
    { split_and!; cbn; try done. intros Ha. cbn. destruct Hw' as [->|(_ & Hlen & Hnn)]; [by apply H0|].
      left. intros ->. by destruct w. }
    split; [done|]. unfold tx_bytes. rewrite Serialize_read_ok by done. cbn [from_option fst vin vout wit nLockTime nVersion].
    rewrite Hflag, <- !app_assoc. done. }
  destruct (negb (Z.land flags 1 =? 0) && allow) eqn:E.
  - apply bind_inr in Hw as (w' & s5 & Hw & [= Hx <- <-]). apply Z.lxor_eq in Hx as ->.
    apply andb_true_iff in E as [_ Ea]. apply codes_Witness in Hw as [[[Hlw Hws] Hnn] ->]; [|done].
    apply Forall_app in Hs2 as [_ Hs3]. apply (Hgoal _ eq_refl); unfold flag, witness_bytes; cbn [wit]; rewrite ?Hnn; auto.
  - injection Hw as -> <- <-. apply (Hgoal _ eq_refl); unfold flag, witness_bytes; cbn [wit]; auto.
Qed.
End roundtrip.

Lemma resize_witness_length n w : length (resize_witness n w) = n.
Proof. unfold resize_witness. rewrite length_app, length_take, length_replicate. lia. Qed.
Lemma resize_witness_null n w : (length w <= n)%nat -> Witness_IsNull (resize_witness n w) = Witness_IsNull w.
Proof.
  intros Hl. unfold resize_witness, Witness_IsNull. rewrite take_ge, forallb_app by done.
  assert (forallb TxinWitness_IsNull (replicate (n - length w) []) = true) as ->; [|by rewrite andb_true_r].
  generalize (n - length w)%nat. intros k. induction k; [done|]. cbn. by rewrite IHk.
Qed.
Lemma as_read_ok allow t : fields_ok t -> (length (wit t) <= length (vin t))%nat -> unambiguous allow t -> read_ok allow (as_read allow t).
Proof.
  intros (Hv & Hi & Ho & Hw & Hl) Hlen Hu. unfold as_read, read_ok, fields_ok. split_and!; cbn; try done; try lia.
  - destruct (allow && negb (Witness_IsNull (wit t))); [|constructor]. unfold resize_witness. apply Forall_app. split; [by apply Forall_take|].
    apply Forall_replicate. split; [cbn; unfold MAX_SIZE; lia|constructor].
  - destruct allow; cbn; [|auto]. destruct (Witness_IsNull (wit t)) eqn:E; cbn; [auto|right].
    rewrite resize_witness_length, resize_witness_null; auto.
Qed.
Lemma Serialize_as_read allow t : fields_ok t -> (length (wit t) <= length (vin t))%nat -> unambiguous allow t ->
  tx_bytes allow (as_read allow t) = tx_bytes allow t /\ exists t', SerializeTransaction allow t = Some (tx_bytes allow t, t') /\
    (allow = true -> Witness_IsNull (wit t) = false -> t' = as_read allow t).
Proof.
  intros Hf Hlen Hu. pose proof (as_read_ok allow t Hf Hlen Hu) as Hok. apply Serialize_read_ok in Hok. unfold tx_bytes. rewrite Hok.
  unfold SerializeTransaction, as_read, flag, witness_bytes in *. cbn [vin vout wit nVersion nLockTime from_option fst] in *.
  replace (Nat.leb (length (wit t)) (length (vin t))) with true by (symmetry; by apply Nat.leb_le). cbn [negb].
  destruct (Witness_IsNull (wit t)) eqn:E; rewrite ?andb_false_r, ?andb_true_r in *; cbn [negb] in *; rewrite ?andb_false_r, ?andb_true_r in *.
  - cbn [Witness_IsNull forallb]. change (negb (Z.land 0 1 =? 0)) with false. cbv iota. cbn [from_option fst in_out_bytes]. cbn [Z.eqb].
    rewrite app_nil_r. split; [done|]. by eexists.
  - destruct allow; cbv iota.
    + change (negb (Z.land 1 1 =? 0)) with true. cbv iota. unfold Serialize_Witness. rewrite resize_witness_null, E by done.
      cbn [mbind option_bind from_option fst in_out_bytes]. rewrite <- !app_assoc. split; [done|]. by eexists.
    + change (negb (Z.land 0 1 =? 0)) with false. cbn [Witness_IsNull forallb from_option fst in_out_bytes]. cbv iota. cbn [Z.eqb].
      rewrite app_nil_r. split; [done|]. by eexists.
Qed.

Lemma GetHash_bytes t : GetHash t = Hash [tx_bytes false t].
Proof. unfold GetHash. by replace (fAllowWitness SERIALIZE_TRANSACTION_NO_WITNESS) with false. Qed.

(** Transactions whose strings are bytes are written as bytes. *)
Definition of_bytes (t : CMutableTransaction) : Prop :=
  Forall (fun i => Forall is_byte (out_hash (prevout i)) /\ Forall is_byte (scriptSig i)) (vin t) /\
  Forall (fun o => Forall is_byte (scriptPubKey o)) (vout t) /\ Forall (Forall (Forall is_byte)) (wit t).
Lemma fields_of_bytes t : fields_ok t -> of_bytes t.
Proof.
  intros (_ & [_ Hi] & [_ Ho] & Hw & _). split_and!.
  - apply (list.Forall_impl _ _ _ Hi). intros i (((_ & ?) & _) & (_ & ?) & _). done.
  - apply (list.Forall_impl _ _ _ Ho). intros o (_ & (_ & ?) & _). done.
  - apply (list.Forall_impl _ _ _ Hw). intros w (_ & H). apply (list.Forall_impl _ _ _ H). by intros v [_ ?].
Qed.
Lemma OutPoint_bytes o : Forall is_byte (out_hash o) -> Forall is_byte (Serialize o).
Proof. intros Hh. change (Forall is_byte (Serialize_OutPoint o)). apply Forall_app_2; [exact Hh|apply le_bytes_range]. Qed.
Lemma TxOut_bytes o : Forall is_byte (scriptPubKey o) -> Forall is_byte (Serialize o).
Proof. intros Hs. change (Forall is_byte (Serialize_TxOut o)). apply Forall_app_2; [apply le_bytes_range|exact (Serialize_bytes_bytes _ Hs)]. Qed.
Lemma tx_bytes_bytes allow t : of_bytes t -> Forall is_byte (tx_bytes allow t).
Proof.
  intros (Hi & Ho & Hw).
  assert (Forall is_byte (Serialize (vin t))) as Bi.
  { apply Serialize_vector_bytes, (list.Forall_impl _ _ _ Hi). intros i [Hh Hs]. change (Forall is_byte (Serialize_TxIn i)).
    apply Forall_app_2; [by apply OutPoint_bytes|].
    apply Forall_app_2; [exact (Serialize_bytes_bytes _ Hs)|apply le_bytes_range]. }
  assert (Forall is_byte (Serialize (vout t))) as Bo.
  { apply Serialize_vector_bytes, (list.Forall_impl _ _ _ Ho). intros o Hs. by apply TxOut_bytes. }
  assert (Forall is_byte (concat (map (Serialize : list (list Z) -> list Z) (resize_witness (length (vin t)) (wit t))))) as Bw.
  { apply Forall_concat, Forall_map. unfold resize_witness. apply Forall_app_2; [apply Forall_take|apply Forall_replicate, (Serialize_vector_bytes []); constructor].
    apply (list.Forall_impl _ _ _ Hw). intros v Hv. apply Serialize_vector_bytes, (list.Forall_impl _ _ _ Hv). intros s Hs. by apply Serialize_bytes_bytes. }
  unfold tx_bytes, SerializeTransaction, write_int. destruct (negb (Nat.leb _ _)); [constructor|]. cbv zeta.
  assert (forall f, Forall is_byte (if f =? 0 then [] else Serialize ([] : list CTxIn) ++ le_bytes 1 f)) as Bf
    by (intros f; case_match; [by apply Forall_nil|apply Forall_app_2; [apply (Serialize_vector_bytes ([] : list CTxIn)); by apply Forall_nil|apply le_bytes_range]]).
  destruct (negb (Z.land _ 1 =? 0)).
  - unfold Serialize_Witness. destruct (Witness_IsNull (resize_witness _ _)); [constructor|]. cbn [mbind option_bind from_option fst].
    rewrite !Forall_app; split_and!; first [assumption|apply le_bytes_range|apply Bf].
  - cbn [from_option fst]. rewrite !Forall_app; split_and!; first [assumption|apply le_bytes_range|apply Bf].
Qed.

(** C8: both wire formats of transactions.  A transaction of well-formed parts (as many
    witnesses as inputs at most and, where witnesses are allowed, not outputs without
    inputs) is written, and what was written is read back, whatever follows it, as the same
    transaction with its witness padded to the inputs, or dropped where the format has none.
    Conversely nothing but what is written is accepted: bytes that are read as a transaction
    are the bytes that transaction writes, so a message is not malleable.  And since the
    identifier hashes the format without witness, transactions with the same identifier
    differ in their witnesses only, unless the two strings written for these two transactions
    are different and have the same double SHA-256. *)
Theorem transaction_roundtrip (allow : bool) :
  (forall t rest, fields_ok t -> (length (wit t) <= length (vin t))%nat -> unambiguous allow t ->
    exists b t', SerializeTransaction allow t = Some (b, t') /\ UnserializeTransaction allow (b ++ rest) = inr (as_read allow t, rest)) /\
  (forall s t rest, Forall is_byte s -> UnserializeTransaction allow s = inr (t, rest) ->
    fields_ok t /\ exists b, SerializeTransaction allow t = Some (b, t) /\ s = b ++ rest) /\
  (forall t1 t2, fields_ok t1 -> fields_ok t2 -> (length (wit t1) <= length (vin t1))%nat -> (length (wit t2) <= length (vin t2))%nat ->
    GetHash t1 = GetHash t2 -> as_read false t1 = as_read false t2 \/ clash [[tx_bytes false t1]; [tx_bytes false t2]]).
Proof.
  split; [|split].
  - intros t rest Hf Hl Hu. destruct (Serialize_as_read allow t Hf Hl Hu) as (Hb & t' & Hs & _).
    exists (tx_bytes allow t), t'. split; [done|]. rewrite <- Hb. by apply read_back, as_read_ok.
  - intros s t rest Hs Hr. apply read_writes in Hr as [Hok ->]; [|done]. split; [apply Hok|].
    exists (tx_bytes allow t). split; [|done]. unfold tx_bytes. by rewrite Serialize_read_ok.
  - intros t1 t2 H1 H2 L1 L2 HH. rewrite !GetHash_bytes in HH.
    destruct (Hash_eq2 (tx_bytes false t1) (tx_bytes false t2)) as [E|]; [by apply tx_bytes_bytes, fields_of_bytes..|exact HH|left|by right].
    pose proof (read_back false _ [] (as_read_ok false t1 H1 L1 ltac:(done))) as R1.
    pose proof (read_back false _ [] (as_read_ok false t2 H2 L2 ltac:(done))) as R2.
    rewrite (proj1 (Serialize_as_read false t1 H1 L1 ltac:(done))) in R1.
    rewrite (proj1 (Serialize_as_read false t2 H2 L2 ltac:(done))) in R2.
    rewrite E in R1. congruence.
Qed.

(** ** Sums of outputs *)

(** The sum is exact where it is returned. *)
Lemma GetValueOut_loop_spec l acc r : 0 <= acc < 2 ^ 63 -> Forall (fun o => - 2 ^ 63 <= nValue o < 2 ^ 63) l ->
  GetValueOut_loop l acc = Some r <->
    r = acc + foldr (fun o a => nValue o + a) 0 l /\ Forall (fun o => 0 <= nValue o) l /\ r < 2 ^ 63.
Proof.
  intros Ha Hl. revert acc Ha. induction Hl as [|o l Ho Hl IH]; intros acc Ha; cbn [GetValueOut_loop foldr].
  - split; [intros [= <-]; split; [lia|split; [constructor|lia]]|intros (-> & _); f_equal; lia].
  - assert (Hnn : Forall (fun o => 0 <= nValue o) l -> 0 <= foldr (fun o a => nValue o + a) 0 l).
    { clear. induction 1; cbn; lia. }
    rewrite Forall_cons_iff. destruct (Z.ltb_spec (nValue o) 0); [split; [done|]; intros (_ & [? _] & _); lia|].
    destruct (Z.lt_ge_cases (acc + nValue o) (2 ^ 63)) as [Hs|Hs].
    + rewrite i64_small by lia. destruct (Z.ltb_spec (acc + nValue o) acc); [lia|]. rewrite IH by lia. rewrite Z.add_assoc. tauto.
    + assert (i64 (acc + nValue o) = acc + nValue o - 2 ^ 64) as -> by zwrap.
      destruct (Z.ltb_spec (acc + nValue o - 2 ^ 64) acc); [|lia]. split; [done|]. intros (-> & [_ Hl'] & Hr). apply Hnn in Hl'. lia.
Qed.
Lemma GetValueOut_spec t r : fields_ok t ->
  GetValueOut t = Some r <->
    r = foldr (fun o a => nValue o + a) 0 (vout t) /\ Forall (fun o => 0 <= nValue o) (vout t) /\ r < 2 ^ 63.
Proof.
  intros (_ & _ & [_ Ho] & _). unfold GetValueOut. rewrite GetValueOut_loop_spec; [by rewrite Z.add_0_l|lia|].
  induction Ho as [|o l [? _] _ IH]; by constructor.
Qed.

(** A coin base is not a coin stake, and neither is null. *)
Lemma coinbase_not_coinstake t : IsCoinBase t = true -> IsCoinStake t = false /\ Tx_IsNull t = false.
Proof.
  unfold IsCoinBase, IsCoinStake, Tx_IsNull. destruct (vin t) as [|i [|]]; try done. intros [H _]%andb_true_iff. rewrite H.
  split; [|done]. by destruct (vout t) as [|? [|]].
Qed.

(** Well-formedness of concrete transactions. *)
Ltac fields_check :=
  unfold fields_ok, vector_ok, TxIn_ok, TxOut_ok, OutPoint_ok, bytes_ok; cbn [nVersion vin vout wit nLockTime];
  repeat match goal with
  | |- Forall is_byte _ => apply bytes_check; reflexivity
  | |- _ /\ _ => split
  | |- _ < _ => apply Z.ltb_lt; reflexivity
  | |- _ <= _ => apply Z.leb_le; reflexivity
  | |- Forall _ _ => constructor
  | |- _ = _ => reflexivity
  end.
(** A transaction that spends output 1 of [7...] with one witness and pays 5 coins. *)
Definition sample_tx : CMutableTransaction :=
  mkTx 2 [mkTxIn (mkOutPoint (leaf 7) 1) [] 0xfffffffe []; mkTxIn (mkOutPoint (leaf 8) 0) [81] SEQUENCE_FINAL []]
    [mkTxOut (5 * COIN) [118; 169; 1; 3; 136; 172] (-10)] [[[1; 2; 3]; []]] 500.
Lemma transaction_roundtrip_witness :
  fields_ok sample_tx /\ exists b t', SerializeTransaction true sample_tx = Some (b, t') /\
    UnserializeTransaction true (b ++ [42]) = inr (as_read true sample_tx, [42]) /\ wit t' = [[[1; 2; 3]; []]; []].
Proof.
  assert (H : fields_ok sample_tx).
  { unfold sample_tx. fields_check. }
  split; [exact H|]. destruct (proj1 (transaction_roundtrip true) sample_tx [42]) as (b & t' & Hs & Hr);
    [exact H|cbn; lia|by left|].
  exists b, t'. split; [exact Hs|split; [exact Hr|]]. vm_compute in Hs. by injection Hs as _ <-.
Defined.
