(* ===== verification/SigHash.v ===== *)
(** What a signature signs ([src/src/script/interpreter.cpp]: [CTransactionSignatureSerializer],
    [SignatureHash], [TransactionSignatureChecker]; [src/src/pubkey.h]), and the proof that the
    serializer that skips and blanks fields in place writes what the original algorithm writes:
    the serialisation of a modified copy of the transaction. *)
From S2P Require Import Prelude Serialize Stream Sha2 Hashers Script SigChecks Interp Merkle Transaction.

(** ** The serializer of the base version *)

Record CTransactionSignatureSerializer := mkSigSer {
  txTo : CMutableTransaction;
  scriptCode : CScript;
  nIn : nat;
  fAnyoneCanPay : bool;
  fHashSingle : bool;
  fHashNone : bool
}.
Definition base_type (nHashType : Z) : Z := Z.land nHashType 0x1f.
Definition sig_serializer (t : CMutableTransaction) (code : CScript) (n : nat) (nHashType : Z) : CTransactionSignatureSerializer :=
  mkSigSer t code n (negb (Z.land nHashType SIGHASH_ANYONECANPAY =? 0)) (base_type nHashType =? SIGHASH_SINGLE)
    (base_type nHashType =? SIGHASH_NONE).

(** The bytes an instruction took. *)
Definition consumed (pc : CScript) (o : op) : list Z := take (length pc - length (op_pc o)) pc.

Fixpoint count_separators (fuel : nat) (pc : CScript) (n : Z) : Z :=
  match fuel with
  | O => n
  | S fuel' =>
      let o := GetOp pc in
      if op_ok o then count_separators fuel' (op_pc o) (if op_code o =? OP_CODESEPARATOR then n + 1 else n) else n
  end.
(** [it] is at [pc], the bytes from [itBegin] to it are [pending].  An instruction that does
    not parse leaves [it] behind its opcode, and only what is before [it] is written. *)
Fixpoint separator_loop (fuel : nat) (pending : list Z) (pc : CScript) : list Z :=
  match fuel with
  | O => pending
  | S fuel' =>
      let o := GetOp pc in
      let upto := pending ++ consumed pc o in
      if op_ok o then
        if op_code o =? OP_CODESEPARATOR then take (length upto - 1) upto ++ separator_loop fuel' [] (op_pc o)
        else separator_loop fuel' upto (op_pc o)
      else upto
  end.
Definition SerializeScriptCode (code : CScript) : list Z :=
  WriteCompactSize (Z.of_nat (length code) - count_separators (S (length code)) code 0) ++ separator_loop (S (length code)) [] code.

Section serializer.
Context (s : CTransactionSignatureSerializer).
Definition null_txin : CTxIn := mkTxIn COutPoint_null [] SEQUENCE_FINAL [].
Definition input (n : nat) : CTxIn := nth n (vin (txTo s)) null_txin.
Definition SerializeInput (nInput : nat) : list Z :=
  let nInput := if fAnyoneCanPay s then nIn s else nInput in
  Serialize (prevout (input nInput)) ++
  (if negb (Nat.eqb nInput (nIn s)) then Serialize ([] : list Z) else SerializeScriptCode (scriptCode s)) ++
  (if negb (Nat.eqb nInput (nIn s)) && (fHashSingle s || fHashNone s) then write_int 4 0
   else write_int 4 (nSequence (input nInput))).
Definition SerializeOutput (nOutput : nat) : list Z :=
  if fHashSingle s && negb (Nat.eqb nOutput (nIn s)) then Serialize TxOut_null
  else Serialize (nth nOutput (vout (txTo s)) TxOut_null).
Definition sig_Serialize : list Z :=
  let nInputs := if fAnyoneCanPay s then 1%nat else length (vin (txTo s)) in
  let nOutputs := if fHashNone s then 0%nat else if fHashSingle s then (nIn s + 1)%nat else length (vout (txTo s)) in
  write_int 4 (nVersion (txTo s)) ++
  WriteCompactSize (Z.of_nat nInputs) ++ concat (map SerializeInput (seq 0 nInputs)) ++
  WriteCompactSize (Z.of_nat nOutputs) ++ concat (map SerializeOutput (seq 0 nOutputs)) ++
  write_int 4 (nLockTime (txTo s)).
End serializer.

(** ** [SignatureHash] *)

Definition hash_one : hash256 := le_bytes 32 1.
Definition anyone_can_pay (nHashType : Z) : bool := has nHashType SIGHASH_ANYONECANPAY.
Definition is_single (nHashType : Z) : bool := base_type nHashType =? SIGHASH_SINGLE.
Definition is_none (nHashType : Z) : bool := base_type nHashType =? SIGHASH_NONE.

(** The three digests of the witness version. *)
Definition hashPrevouts (t : CMutableTransaction) (nHashType : Z) : hash256 :=
  if negb (anyone_can_pay nHashType) then Hash [concat (map (fun i => Serialize (prevout i)) (vin t))] else hash_zero.
Definition hashSequence (t : CMutableTransaction) (nHashType : Z) : hash256 :=
  if negb (anyone_can_pay nHashType) && negb (is_single nHashType) && negb (is_none nHashType)
  then Hash [concat (map (fun i => write_int 4 (nSequence i)) (vin t))] else hash_zero.
Definition hashOutputs (t : CMutableTransaction) (nIn : nat) (nHashType : Z) : hash256 :=
  if negb (is_single nHashType) && negb (is_none nHashType) then Hash [concat (map Serialize (vout t))]
  else if is_single nHashType && Nat.ltb nIn (length (vout t)) then Hash [Serialize (nth nIn (vout t) TxOut_null)]
  else hash_zero.
Definition witness_preimage (code : CScript) (t : CMutableTransaction) (nIn : nat) (nHashType amount : Z) (i : CTxIn) : list Z :=
  write_int 4 (nVersion t) ++ hashPrevouts t nHashType ++ hashSequence t nHashType ++
  Serialize (prevout i) ++ Serialize (code : list Z) ++ write_int 8 amount ++ write_int 4 (nSequence i) ++
  hashOutputs t nIn nHashType ++ write_int 4 (nLockTime t) ++ write_int 4 nHashType.

(** [None]: the witness version indexes the inputs without checking [nIn]. *)
Definition SignatureHash (code : CScript) (t : CMutableTransaction) (nIn : nat) (nHashType amount : Z) (v : SigVersion) : option hash256 :=
  match v with
  | SIGVERSION_WITNESS_V0 => i ← vin t !! nIn; Some (Hash [witness_preimage code t nIn nHashType amount i])
  | SIGVERSION_BASE =>
      if Nat.leb (length (vin t)) nIn then Some hash_one
      else if is_single nHashType && Nat.leb (length (vout t)) nIn then Some hash_one
      else Some (Hash [sig_Serialize (sig_serializer t code nIn nHashType) ++ write_int 4 nHashType])
  end.

(** ** Public keys *)

(** [CPubKey]: the bytes of the key, cut to the length its first byte announces; [None] is
    an invalidated key. *)
Definition GetLen (chHeader : Z) : Z :=
  if (chHeader =? 2) || (chHeader =? 3) then 33
  else if (chHeader =? 4) || (chHeader =? 6) || (chHeader =? 7) then 65
  else 0.
Definition CPubKey := option valtype.
Definition CPubKey_Set (vch : valtype) : CPubKey :=
  let len := match vch with [] => 0 | chHeader :: _ => GetLen chHeader end in
  if negb (len =? 0) && (len =? size vch) then Some vch else None.
Definition CPubKey_size (k : CPubKey) : Z := match k with Some (chHeader :: _) => GetLen chHeader | _ => 0 end.
Definition CPubKey_IsValid (k : CPubKey) : bool := 0 <? CPubKey_size k.
Definition CPubKey_IsCompressed (k : CPubKey) : bool := CPubKey_size k =? 33.

(** ** [TransactionSignatureChecker] *)

Definition SEQUENCE_LOCKTIME_TYPE_FLAG : Z := 2 ^ 22.
Definition SEQUENCE_LOCKTIME_MASK : Z := 0x0000ffff.

Section checker.
(** [CPubKey::Verify] is elliptic-curve code outside the repository. *)
Context (Verify : valtype -> hash256 -> valtype -> bool).
Context (t : CMutableTransaction) (nIn : nat) (amount : CAmount).

Definition checker_CheckSig (vchSigIn vchPubKey : valtype) (code : CScript) (v : SigVersion) : bool :=
  let pubkey := CPubKey_Set vchPubKey in
  if negb (CPubKey_IsValid pubkey) then false else
  match vchSigIn with
  | [] => false
  | _ =>
      let nHashType := List.last vchSigIn 0 in
      let vchSig := removelast vchSigIn in
      match pubkey, SignatureHash code t nIn nHashType amount v with
      | Some k, Some sighash => Verify k sighash vchSig
      | _, _ => false
      end
  end.
Definition checker_CheckLockTime (lockTime : Z) : bool :=
  if negb (((nLockTime t <? LOCKTIME_THRESHOLD) && (lockTime <? LOCKTIME_THRESHOLD)) ||
           ((LOCKTIME_THRESHOLD <=? nLockTime t) && (LOCKTIME_THRESHOLD <=? lockTime))) then false
  else if nLockTime t <? lockTime then false
  else if IsFinal (nth nIn (vin t) null_txin) then false
  else true.
Definition checker_CheckSequence (sequence : Z) : bool :=
  let txToSequence := nSequence (nth nIn (vin t) null_txin) in
  if u32 (nVersion t) <? 2 then false
  else if negb (Z.land txToSequence SEQUENCE_LOCKTIME_DISABLE_FLAG =? 0) then false
  else
    let nLockTimeMask := Z.lor SEQUENCE_LOCKTIME_TYPE_FLAG SEQUENCE_LOCKTIME_MASK in
    let txToSequenceMasked := Z.land txToSequence nLockTimeMask in
    let nSequenceMasked := Z.land sequence nLockTimeMask in
    if negb (((txToSequenceMasked <? SEQUENCE_LOCKTIME_TYPE_FLAG) && (nSequenceMasked <? SEQUENCE_LOCKTIME_TYPE_FLAG)) ||
             ((SEQUENCE_LOCKTIME_TYPE_FLAG <=? txToSequenceMasked) && (SEQUENCE_LOCKTIME_TYPE_FLAG <=? nSequenceMasked))) then false
    else negb (txToSequenceMasked <? nSequenceMasked).

(** The class the interpreter is run with. *)
Definition TransactionSignatureChecker : BaseSignatureChecker := {|
  CheckSig := checker_CheckSig;
  CheckLockTime := checker_CheckLockTime;
  CheckSequence := checker_CheckSequence;
|}.
End checker.

(** ** The original algorithm *)

(** Copy the transaction; empty every script but the one being signed, which becomes the
    script code without its separators; drop what the hash type leaves open. *)
Definition blank_input (code : CScript) (nIn : nat) (keep_sequence : bool) (n : nat) (i : CTxIn) : CTxIn :=
  if Nat.eqb n nIn then mkTxIn (prevout i) code (nSequence i) []
  else mkTxIn (prevout i) [] (if keep_sequence then nSequence i else 0) [].
Definition signed_copy (code : CScript) (t : CMutableTransaction) (nIn : nat) (nHashType : Z) : CMutableTransaction :=
  let code := fst (FindAndDelete code [OP_CODESEPARATOR]) in
  let all := negb (is_single nHashType) && negb (is_none nHashType) in
  let inputs := imap (blank_input code nIn all) (vin t) in
  mkTx (nVersion t)
    (if anyone_can_pay nHashType then take 1 (drop nIn inputs) else inputs)
    (if is_none nHashType then []
     else if is_single nHashType then replicate nIn TxOut_null ++ take 1 (drop nIn (vout t))
     else vout t)
    [] (nLockTime t).

(** Every instruction of a script parses. *)
Fixpoint parses_loop (fuel : nat) (pc : CScript) : bool :=
  match fuel with
  | O => true
  | S fuel' => match pc with [] => true | _ => op_ok (GetOp pc) && parses_loop fuel' (op_pc (GetOp pc)) end
  end.
Definition parses (pc : CScript) : bool := parses_loop (length pc) pc.

(** *** Separators *)

(** The instructions of a script but its separators. *)
Fixpoint body (fuel : nat) (pc : CScript) : list Z :=
  match fuel with
  | O => []
  | S fuel' =>
      match pc with
      | [] => []
      | _ => (if op_code (GetOp pc) =? OP_CODESEPARATOR then [] else consumed pc (GetOp pc)) ++ body fuel' (op_pc (GetOp pc))
      end
  end.
Lemma consumed_app pc : pc = consumed pc (GetOp pc) ++ op_pc (GetOp pc).
Proof.
  destruct (GetOp_suffix pc) as (d & Hd & _). unfold consumed. set (r := op_pc (GetOp pc)) in *. rewrite Hd.
  by rewrite length_app, Nat.add_sub, take_app_length.
Qed.
Lemma GetOp_code x pc : op_ok (GetOp (x :: pc)) = true -> op_code (GetOp (x :: pc)) = x.
Proof. cbn [GetOp]. destruct (x <=? OP_PUSHDATA4); [|done]. destruct (GetOp_size x pc) as [[ok n] pc']. by destruct (_ || _). Qed.
Lemma GetOp_separator pc : GetOp (OP_CODESEPARATOR :: pc) = mkOp true pc OP_CODESEPARATOR [].
Proof. done. Qed.

Lemma parses_loop_fuel f1 f2 pc : (length pc <= f1)%nat -> (length pc <= f2)%nat -> parses_loop f1 pc = parses_loop f2 pc.
Proof.
  revert f2 pc. induction f1 as [|f1 IH]; intros [|f2] [|x pc] H1 H2; cbn in H1, H2; try done; try lia.
  cbn [parses_loop]. pose proof (GetOp_shorter (x :: pc) ltac:(done)). cbn [length] in *. f_equal. apply IH; lia.
Qed.
Lemma body_fuel f1 f2 pc : (length pc <= f1)%nat -> (length pc <= f2)%nat -> body f1 pc = body f2 pc.
Proof.
  revert f2 pc. induction f1 as [|f1 IH]; intros [|f2] [|x pc] H1 H2; cbn in H1, H2; try done; try lia.
  cbn [body]. pose proof (GetOp_shorter (x :: pc) ltac:(done)). cbn [length] in *. f_equal. apply IH; lia.
Qed.
(** Induction along the instructions of a script that parses. *)
Lemma parses_ind (P : CScript -> Prop) :
  P [] -> (forall x pc, op_ok (GetOp (x :: pc)) = true -> parses (op_pc (GetOp (x :: pc))) = true ->
    P (op_pc (GetOp (x :: pc))) -> P (x :: pc)) ->
  forall pc, parses pc = true -> P pc.
Proof.
  intros H0 HS pc. remember (length pc) as n eqn:Hn. revert pc Hn. induction n as [n IH] using lt_wf_ind; intros [|x pc] -> Hp; [done|].
  unfold parses in Hp. cbn [length parses_loop] in Hp. apply andb_true_iff in Hp as [Hok Hp].
  pose proof (GetOp_shorter (x :: pc) ltac:(done)) as Hl. cbn [length] in Hl.
  assert (parses (op_pc (GetOp (x :: pc))) = true) as Hp'.
  { unfold parses. rewrite <- Hp. apply parses_loop_fuel; lia. }
  apply HS; [done..|]. by apply (IH (length (op_pc (GetOp (x :: pc))))).
Qed.
Lemma body_step x pc : body (length (x :: pc)) (x :: pc) =
  (if op_code (GetOp (x :: pc)) =? OP_CODESEPARATOR then [] else consumed (x :: pc) (GetOp (x :: pc))) ++
  body (length (op_pc (GetOp (x :: pc)))) (op_pc (GetOp (x :: pc))).
Proof.
  cbn [length body]. f_equal. pose proof (GetOp_shorter (x :: pc) ltac:(done)). cbn [length] in *. apply body_fuel; lia.
Qed.
Lemma separator_loop_body pc : parses pc = true -> forall fuel pending, (length pc < fuel)%nat ->
  separator_loop fuel pending pc = pending ++ body (length pc) pc.
Proof.
  revert pc. apply (parses_ind (fun pc => forall fuel pending, (length pc < fuel)%nat ->
    separator_loop fuel pending pc = pending ++ body (length pc) pc)).
  - intros [|fuel] pending Hf; [lia|]. cbn. by rewrite app_nil_r.
  - intros x pc Hok _ IH [|fuel] pending Hf; [lia|]. rewrite body_step. cbn [separator_loop]. rewrite Hok.
    pose proof (GetOp_shorter (x :: pc) ltac:(done)). rewrite !IH by lia.
    destruct (Z.eqb_spec (op_code (GetOp (x :: pc))) OP_CODESEPARATOR) as [E|E]; [|by rewrite app_assoc].
    rewrite GetOp_code in E by done. subst x. rewrite GetOp_separator. cbn [app]. f_equal. unfold consumed. cbn [op_pc length].
    replace (S (length pc) - length pc)%nat with 1%nat by lia. rewrite take_0 || cbn [take]. rewrite length_app. cbn [length].
    by rewrite Nat.add_sub, take_app_length.
Qed.
Lemma count_separators_body pc : parses pc = true -> forall fuel n, (length pc < fuel)%nat ->
  count_separators fuel pc n = n + Z.of_nat (length pc) - Z.of_nat (length (body (length pc) pc)).
Proof.
  revert pc. apply (parses_ind (fun pc => forall fuel n, (length pc < fuel)%nat ->
    count_separators fuel pc n = n + Z.of_nat (length pc) - Z.of_nat (length (body (length pc) pc)))).
  - intros [|fuel] n Hf; [lia|]. cbn. lia.
  - intros x pc Hok _ IH [|fuel] n Hf; [lia|]. rewrite body_step. cbn [count_separators]. rewrite Hok.
    pose proof (GetOp_shorter (x :: pc) ltac:(done)). rewrite IH by lia. rewrite length_app.
    pose proof (f_equal length (consumed_app (x :: pc))) as Hc. rewrite length_app in Hc.
    destruct (Z.eqb_spec (op_code (GetOp (x :: pc))) OP_CODESEPARATOR) as [E|E]; [|lia].
    rewrite GetOp_code in E by done. subst x. rewrite GetOp_separator. cbn [op_pc length]. lia.
Qed.
Lemma FindAndDelete_separator fuel dn pc n : FindAndDelete_loop (S fuel) dn (OP_CODESEPARATOR :: pc) [OP_CODESEPARATOR] n =
  FindAndDelete_loop (S fuel) dn pc [OP_CODESEPARATOR] (n + 1).
Proof. done. Qed.
Lemma FindAndDelete_body pc : parses pc = true -> forall fuel dn n, (length pc < fuel)%nat ->
  fst (FindAndDelete_loop fuel dn pc [OP_CODESEPARATOR] n) = dn ++ body (length pc) pc.
Proof.
  revert pc. apply (parses_ind (fun pc => forall fuel dn n, (length pc < fuel)%nat ->
    fst (FindAndDelete_loop fuel dn pc [OP_CODESEPARATOR] n) = dn ++ body (length pc) pc)).
  - intros [|fuel] dn n Hf; [lia|]. done.
  - intros x pc Hok _ IH [|fuel] dn n Hf; [lia|]. rewrite body_step. pose proof (GetOp_shorter (x :: pc) ltac:(done)) as Hl.
    destruct (Z.eqb_spec (op_code (GetOp (x :: pc))) OP_CODESEPARATOR) as [E|E]; rewrite GetOp_code in E by done.
    + subst x. rewrite FindAndDelete_separator, GetOp_separator in *. cbn [op_pc app] in *. apply IH. cbn in Hf. lia.
    + cbn [FindAndDelete_loop].
      assert (FindAndDelete_erase (length (x :: pc)) (x :: pc) [OP_CODESEPARATOR] n = (x :: pc, n)) as ->.
      { cbn [length FindAndDelete_erase take]. rewrite bool_decide_eq_false_2; [done|]. intros [=]. done. }
      rewrite Hok. rewrite IH by lia. by rewrite app_assoc.
Qed.

(** *** The copy *)

Lemma SerializeScriptCode_body code : parses code = true ->
  SerializeScriptCode code = Serialize (fst (FindAndDelete code [OP_CODESEPARATOR])).
Proof.
  intros Hp. unfold SerializeScriptCode, FindAndDelete. rewrite count_separators_body, separator_loop_body, FindAndDelete_body by (done || lia).
  cbn [app]. change (Serialize ?b) with (WriteCompactSize (Z.of_nat (length b)) ++ b). do 2 f_equal. lia.
Qed.
Lemma tx_bytes_base v i o l : tx_bytes false (mkTx v i o [] l) = write_int 4 v ++ Serialize i ++ Serialize o ++ write_int 4 l.
Proof. unfold tx_bytes, SerializeTransaction. cbn [wit vin vout nVersion nLockTime length Nat.leb negb andb Z.eqb Z.land from_option fst].
  by rewrite app_nil_r, <- !app_assoc. Qed.
Lemma Serialize_list {A} `{Codec A} (l : list A) : Serialize l = WriteCompactSize (Z.of_nat (length l)) ++ concat (map Serialize l).
Proof. done. Qed.
Lemma map_seq_imap {A B} (f : nat -> B) (g : nat -> A -> B) l :
  (forall i x, l !! i = Some x -> f i = g i x) -> map f (seq 0 (length l)) = imap g l.
Proof.
  intros H. apply list_eq. intros i. rewrite list_lookup_imap. destruct (l !! i) as [x|] eqn:E; cbn.
  - assert (i < length l)%nat by by apply lookup_lt_Some in E. rewrite <- (H i x E).
    rewrite list_lookup_fmap, lookup_seq_lt by done. done.
  - apply lookup_ge_None in E. apply lookup_ge_None. by rewrite length_map, length_seq.
Qed.
Lemma nth_lookup_some {A} (l : list A) i d x : l !! i = Some x -> nth i l d = x.
Proof. intros H. rewrite nth_lookup, H. done. Qed.

Section copy.
Context (code : CScript) (t : CMutableTransaction) (n : nat) (nHashType : Z).
Let s := sig_serializer t code n nHashType.
Let copy := signed_copy code t n nHashType.
Let all := negb (is_single nHashType) && negb (is_none nHashType).

Hypothesis Hparses : parses code = true.
Hypothesis Hn : (n < length (vin t))%nat.

Lemma flag_any : fAnyoneCanPay s = anyone_can_pay nHashType.
Proof. done. Qed.
Lemma flag_single : fHashSingle s = is_single nHashType.
Proof. done. Qed.
Lemma flag_none : fHashNone s = is_none nHashType.
Proof. done. Qed.
Lemma Serialize_input k i : vin t !! k = Some i ->
  Serialize (prevout (input s k)) ++
  (if negb (Nat.eqb k n) then Serialize ([] : list Z) else SerializeScriptCode code) ++
  (if negb (Nat.eqb k n) && (fHashSingle s || fHashNone s) then write_int 4 0 else write_int 4 (nSequence (input s k))) =
  Serialize (blank_input (fst (FindAndDelete code [OP_CODESEPARATOR])) n all k i).
Proof.
  intros Hk. unfold input. cbn [txTo s sig_serializer]. rewrite (nth_lookup_some _ _ _ _ Hk), SerializeScriptCode_body by done.
  rewrite flag_single, flag_none. unfold blank_input, all. cbn [Serialize TxIn_codec]. unfold Serialize_TxIn.
  destruct (Nat.eqb_spec k n) as [->|]; cbn [negb andb prevout scriptSig nSequence]; [done|].
  by destruct (is_single nHashType), (is_none nHashType).
Qed.
Lemma SerializeInput_blank k i : anyone_can_pay nHashType = false -> vin t !! k = Some i ->
  SerializeInput s k = Serialize (blank_input (fst (FindAndDelete code [OP_CODESEPARATOR])) n all k i).
Proof. intros Ha Hk. unfold SerializeInput. rewrite flag_any, Ha. by apply Serialize_input. Qed.
Lemma SerializeInput_own i : anyone_can_pay nHashType = true -> vin t !! n = Some i ->
  SerializeInput s 0 = Serialize (blank_input (fst (FindAndDelete code [OP_CODESEPARATOR])) n all n i).
Proof. intros Ha Hk. unfold SerializeInput. rewrite flag_any, Ha. by apply Serialize_input. Qed.

Lemma inputs_copied :
  WriteCompactSize (Z.of_nat (if fAnyoneCanPay s then 1%nat else length (vin (txTo s)))) ++
  concat (map (SerializeInput s) (seq 0 (if fAnyoneCanPay s then 1%nat else length (vin (txTo s))))) = Serialize (vin copy).
Proof.
  rewrite Serialize_list, flag_any. cbn [vin copy signed_copy txTo s sig_serializer].
  destruct (anyone_can_pay nHashType) eqn:Ha.
  - destruct (lookup_lt_is_Some_2 _ _ Hn) as [i Hi].
    rewrite (drop_S _ (blank_input (fst (FindAndDelete code [OP_CODESEPARATOR])) n all n i)) by (by rewrite list_lookup_imap, Hi).
    cbn [take length seq map]. rewrite take_0. cbn [length map concat]. by rewrite (SerializeInput_own i) by done.
  - rewrite length_imap. do 2 f_equal.
    rewrite (map_seq_imap _ (fun k i => Serialize (blank_input (fst (FindAndDelete code [OP_CODESEPARATOR])) n all k i)))
      by exact (fun k i => SerializeInput_blank k i Ha).
    exact (eq_sym (fmap_imap (blank_input (fst (FindAndDelete code [OP_CODESEPARATOR])) n all) Serialize (vin t))).
Qed.
Lemma outputs_copied : (is_single nHashType = true -> (n < length (vout t))%nat) ->
  WriteCompactSize (Z.of_nat (if fHashNone s then 0%nat else if fHashSingle s then (nIn s + 1)%nat else length (vout (txTo s)))) ++
  concat (map (SerializeOutput s) (seq 0 (if fHashNone s then 0%nat else if fHashSingle s then (nIn s + 1)%nat else length (vout (txTo s)))))
    = Serialize (vout copy).
Proof.
  intros Hs. rewrite Serialize_list, flag_none, flag_single. cbn [vout copy signed_copy txTo nIn s sig_serializer].
  destruct (is_none nHashType); [done|]. destruct (is_single nHashType) eqn:E.
  - destruct (lookup_lt_is_Some_2 _ _ (Hs eq_refl)) as [o Ho]. rewrite (drop_S _ o) by done. cbn [take]. rewrite take_0.
    rewrite length_app, length_replicate. do 3 f_equal.
    rewrite seq_app. rewrite !map_app. f_equal.
    + rewrite <- (length_replicate n TxOut_null) at 1. rewrite (map_seq_imap _ (fun _ o => Serialize o)); [exact (imap_const Serialize _)|].
      intros k x [-> Hk]%lookup_replicate. unfold SerializeOutput. rewrite flag_single, E. cbn [nIn s sig_serializer].
      by destruct (Nat.eqb_spec k n); [lia|].
    + cbn [seq map Nat.add]. unfold SerializeOutput. rewrite flag_single, E. cbn [nIn s sig_serializer txTo].
      rewrite Nat.eqb_refl. cbn [negb andb]. by rewrite (nth_lookup_some _ _ _ _ Ho).
  - do 2 f_equal. rewrite (map_seq_imap _ (fun _ o => Serialize o)); [exact (imap_const Serialize _)|].
    intros k o Hk. unfold SerializeOutput. rewrite flag_single, E. cbn [andb txTo s sig_serializer]. by rewrite (nth_lookup_some _ _ _ _ Hk).
Qed.
Lemma sig_Serialize_copy : (is_single nHashType = true -> (n < length (vout t))%nat) -> sig_Serialize s = tx_bytes false copy.
Proof.
  intros Hs.
  assert (tx_bytes false copy = write_int 4 (nVersion t) ++ Serialize (vin copy) ++ Serialize (vout copy) ++ write_int 4 (nLockTime t))
    as -> by apply tx_bytes_base.
  rewrite <- inputs_copied, <- (outputs_copied Hs). unfold sig_Serialize. cbv zeta. by rewrite <- !app_assoc.
Qed.
End copy.

(** ** What the hashes commit to *)

#[local] Opaque Hash.

Lemma codes_app_inj {A} (m : reader A) enc ok a b r1 r2 :
  codes m enc ok -> ok a -> ok b -> enc a ++ r1 = enc b ++ r2 -> a = b /\ r1 = r2.
Proof. intros [H _] Ha Hb E. pose proof (H a r1 Ha) as H1. rewrite E, H in H1 by done. by injection H1. Qed.
Lemma codes_concat_inj {A} (m : reader A) enc ok l1 l2 :
  codes m enc ok -> (forall a, enc a <> []) -> Forall ok l1 -> Forall ok l2 ->
  concat (map enc l1) = concat (map enc l2) -> l1 = l2.
Proof.
  intros Hm Hne H1. revert l2. induction H1 as [|a l1 Ha H1 IH]; intros l2 H2 E; destruct H2 as [|b l2 Hb H2]; cbn in E.
  - done.
  - exfalso. symmetry in E. apply app_eq_nil in E as [E _]. by apply Hne in E.
  - exfalso. apply app_eq_nil in E as [E _]. by apply Hne in E.
  - apply (codes_app_inj m enc ok) in E as [-> E]; [|done..]. f_equal. by apply IH.
Qed.
Lemma body_ok fuel pc : Forall is_byte pc -> Forall is_byte (body fuel pc) /\ (length (body fuel pc) <= length pc)%nat.
Proof.
  revert pc. induction fuel as [|fuel IH]; intros [|x pc] Hb; cbn [body]; try by (split; [constructor|cbn; lia]).
  pose proof (consumed_app (x :: pc)) as Hc. set (c := consumed _ _) in *. set (r := op_pc _) in *. rewrite Hc in Hb |- *.
  apply Forall_app in Hb as [H1 H2]. destruct (IH r H2) as [H3 H4]. rewrite !length_app.
  destruct (_ =? _); cbn [app length]; [split; [done|lia]|]. split; [by apply Forall_app|lia].
Qed.
Lemma stripped_ok code : parses code = true -> bytes_ok code -> bytes_ok (fst (FindAndDelete code [OP_CODESEPARATOR])).
Proof.
  intros Hp [Hl Hb]. unfold FindAndDelete. rewrite FindAndDelete_body by (done || lia). cbn [app].
  destruct (body_ok (length code) code Hb). split; [lia|done].
Qed.
Lemma blank_input_ok code n keep k i : bytes_ok code -> TxIn_ok i -> TxIn_ok (blank_input code n keep k i).
Proof.
  intros Hc (Ho & Hs & Hq & _). unfold blank_input. destruct (Nat.eqb k n); (split; [done|split; [|split; [|done]]]); cbn; try done.
  destruct keep; lia.
Qed.
Lemma TxOut_null_ok : TxOut_ok TxOut_null.
Proof. unfold TxOut_ok, bytes_ok, TxOut_null. cbn. unfold MAX_SIZE. split_and!; try done; lia. Qed.
Lemma signed_copy_ok code t n nHashType : fields_ok t -> parses code = true -> bytes_ok code ->
  (is_single nHashType = true -> (n < length (vout t))%nat) -> read_ok false (signed_copy code t n nHashType).
Proof.
  intros (Hv & [Hil Hi] & [Hol Ho] & _ & Hl) Hp Hb Hs. split; [|split; [done|by left]]. unfold signed_copy.
  set (c := fst _). assert (Hc : bytes_ok c) by by apply stripped_ok.
  split; [done|]. cbn [vin vout wit nLockTime]. split; [|split; [|split; [constructor|done]]].
  - assert (vector_ok (ok := TxIn_ok) (imap (blank_input c n (negb (is_single nHashType) && negb (is_none nHashType))) (vin t))) as [H1 H2].
    { split; [by rewrite length_imap|]. apply Forall_lookup. intros k i' Hk. rewrite list_lookup_imap in Hk.
      apply fmap_Some in Hk as (i & Hk & ->). apply blank_input_ok; [done|]. rewrite Forall_lookup in Hi. by apply (Hi k). }
    destruct (anyone_can_pay nHashType); [|done]. split; [rewrite length_take, length_drop; lia|]. by apply Forall_take, Forall_drop.
  - destruct (is_none nHashType); [split; [cbn; unfold MAX_SIZE; lia|constructor]|]. destruct (is_single nHashType); [|done].
    specialize (Hs eq_refl). split; [rewrite length_app, length_replicate, length_take; lia|].
    apply Forall_app. split; [apply Forall_replicate, TxOut_null_ok|by apply Forall_take, Forall_drop].
Qed.

Lemma hash_type_inj a b r1 r2 : - 2 ^ 31 <= a < 2 ^ 31 -> - 2 ^ 31 <= b < 2 ^ 31 -> write_int 4 a ++ r1 = write_int 4 b ++ r2 -> a = b /\ r1 = r2.
Proof. apply (codes_app_inj _ _ _ _ _ _ _ codes_int32). Qed.

(** The digests of the witness version are 32 bytes. *)
Lemma digests_hash t n nHashType : is_hash (hashPrevouts t nHashType) /\ is_hash (hashSequence t nHashType) /\ is_hash (hashOutputs t n nHashType).
Proof.
  split; [|split]; unfold hashPrevouts, hashSequence, hashOutputs; repeat case_match; apply Hash_hash || apply hash_zero_hash.
Qed.

Lemma is_hash_app_inj (a b : hash256) r1 r2 : is_hash a -> is_hash b -> a ++ r1 = b ++ r2 -> a = b /\ r1 = r2.
Proof. intros [Ha _] [Hb _]. apply app_inj_1. by rewrite Ha, Hb. Qed.

(** What the witness version signs, field by field. *)
Lemma witness_preimage_inj c1 t1 n1 h1 a1 i1 c2 t2 n2 h2 a2 i2 :
  fields_ok t1 -> fields_ok t2 -> bytes_ok c1 -> bytes_ok c2 -> TxIn_ok i1 -> TxIn_ok i2 ->
  - 2 ^ 31 <= h1 < 2 ^ 31 -> - 2 ^ 31 <= h2 < 2 ^ 31 -> - 2 ^ 63 <= a1 < 2 ^ 63 -> - 2 ^ 63 <= a2 < 2 ^ 63 ->
  witness_preimage c1 t1 n1 h1 a1 i1 = witness_preimage c2 t2 n2 h2 a2 i2 ->
  (nVersion t1 = nVersion t2 /\ nLockTime t1 = nLockTime t2 /\ h1 = h2 /\ a1 = a2 /\ c1 = c2) /\
  (prevout i1 = prevout i2 /\ nSequence i1 = nSequence i2) /\
  hashPrevouts t1 h1 = hashPrevouts t2 h2 /\ hashSequence t1 h1 = hashSequence t2 h2 /\ hashOutputs t1 n1 h1 = hashOutputs t2 n2 h2.
Proof.
  intros F1 F2 C1 C2 (O1 & _ & Q1 & _) (O2 & _ & Q2 & _) Hh1 Hh2 A1 A2 E. unfold witness_preimage in E.
  destruct (digests_hash t1 n1 h1) as (P1 & S1 & D1), (digests_hash t2 n2 h2) as (P2 & S2 & D2).
  apply (codes_app_inj _ _ _ _ _ _ _ codes_int32) in E as [EV E]; [|by apply F1|by apply F2].
  apply is_hash_app_inj in E as [EP E]; [|done..]. apply is_hash_app_inj in E as [ES E]; [|done..].
  apply (codes_app_inj _ _ _ _ _ _ _ codes_OutPoint) in E as [EO E]; [|done..].
  apply (codes_app_inj _ _ _ _ _ _ _ codes_vector_bytes) in E as [EC E]; [|done..].
  apply (codes_app_inj _ _ _ _ _ _ _ codes_int64) in E as [EA E]; [|done..].
  apply (codes_app_inj _ _ _ _ _ _ _ (codes_uint 4)) in E as [EQ E]; [|done..].
  apply is_hash_app_inj in E as [ED E]; [|done..].
  apply (codes_app_inj _ _ _ _ _ _ _ (codes_uint 4)) in E as [EL E]; [|by apply F1|by apply F2].
  rewrite <- (app_nil_r (write_int 4 h1)), <- (app_nil_r (write_int 4 h2)) in E.
  apply hash_type_inj in E as [EH _]; [|done..]. done.
Qed.

(** What is written for the signature is bytes. *)
Lemma witness_preimage_bytes c t n h a i : bytes_ok c -> OutPoint_ok (prevout i) -> Forall is_byte (witness_preimage c t n h a i).
Proof.
  intros [_ Hc] [[_ Hi] _]. destruct (digests_hash t n h) as ([_ P] & [_ S] & [_ O]). unfold witness_preimage, write_int.
  repeat (apply Forall_app_2; [first [apply le_bytes_range|exact P|exact S|exact O|exact (Serialize_bytes_bytes c Hc)|exact (OutPoint_bytes _ Hi)]|]).
  apply le_bytes_range.
Qed.
Lemma base_preimage_bytes t h : fields_ok t -> Forall is_byte (tx_bytes false t ++ write_int 4 h).
Proof. intros Ht. apply Forall_app_2; [by apply tx_bytes_bytes, fields_of_bytes|apply le_bytes_range]. Qed.

(** Hash types that leave nothing open. *)
Definition signs_all (nHashType : Z) : bool := negb (anyone_can_pay nHashType) && negb (is_single nHashType) && negb (is_none nHashType).
(** The strings whose hashes the witness version takes in for such a type: the outpoints, the
    sequence numbers and the outputs. *)
Definition all_prevouts (t : CMutableTransaction) : list Z := concat (map Serialize (map prevout (vin t))).
Definition all_sequences (t : CMutableTransaction) : list Z := concat (map (write_int 4) (map nSequence (vin t))).
Definition all_outputs (t : CMutableTransaction) : list Z := concat (map Serialize (vout t)).
Lemma digests_all t n h : signs_all h = true ->
  hashPrevouts t h = Hash [all_prevouts t] /\ hashSequence t h = Hash [all_sequences t] /\ hashOutputs t n h = Hash [all_outputs t].
Proof.
  intros Hall. unfold signs_all in Hall. unfold hashPrevouts, hashSequence, hashOutputs, all_prevouts, all_sequences, all_outputs.
  apply andb_true_iff in Hall as [Hall Hn]. apply andb_true_iff in Hall as [Ha Hs]. rewrite Ha, Hs, Hn, !map_map. exact (conj eq_refl (conj eq_refl eq_refl)).
Qed.
Lemma all_bytes t : fields_ok t -> Forall is_byte (all_prevouts t) /\ Forall is_byte (all_sequences t) /\ Forall is_byte (all_outputs t).
Proof.
  intros (_ & [_ Hi] & [_ Ho] & _). split_and!; apply Forall_concat, Forall_map.
  - apply Forall_map, (list.Forall_impl _ _ _ Hi). intros i [[[_ Hh] _] _]. by apply OutPoint_bytes.
  - apply Forall_true. intros n. apply le_bytes_range.
  - apply (list.Forall_impl _ _ _ Ho). intros o (_ & [_ Hs] & _). by apply TxOut_bytes.
Qed.
Lemma all_inj t1 t2 : fields_ok t1 -> fields_ok t2 ->
  (all_prevouts t1 = all_prevouts t2 -> map prevout (vin t1) = map prevout (vin t2)) /\
  (all_sequences t1 = all_sequences t2 -> map nSequence (vin t1) = map nSequence (vin t2)) /\
  (all_outputs t1 = all_outputs t2 -> vout t1 = vout t2).
Proof.
  intros (_ & [_ I1] & [_ O1] & _) (_ & [_ I2] & [_ O2] & _). split_and!; intros E.
  - apply (codes_concat_inj _ _ _ _ _ codes_OutPoint) in E; [done|..].
    + intros o. cbn. unfold Serialize_OutPoint. by destruct (out_hash o).
    + apply Forall_map, (list.Forall_impl _ _ _ I1). by intros i [? _].
    + apply Forall_map, (list.Forall_impl _ _ _ I2). by intros i [? _].
  - apply (codes_concat_inj _ _ _ _ _ (codes_uint 4)) in E; [done|done|..].
    + apply Forall_map, (list.Forall_impl _ _ _ I1). by intros i (_ & _ & ? & _).
    + apply Forall_map, (list.Forall_impl _ _ _ I2). by intros i (_ & _ & ? & _).
  - by apply (codes_concat_inj _ _ _ _ _ codes_TxOut) in E.
Qed.
(** The three digests commit to all inputs and outputs, or the strings of one kind clash. *)
Lemma digests_inj t1 n1 t2 n2 h : fields_ok t1 -> fields_ok t2 -> signs_all h = true ->
  hashPrevouts t1 h = hashPrevouts t2 h -> hashSequence t1 h = hashSequence t2 h -> hashOutputs t1 n1 h = hashOutputs t2 n2 h ->
  (map prevout (vin t1) = map prevout (vin t2) \/ clash [[all_prevouts t1]; [all_prevouts t2]]) /\
  (map nSequence (vin t1) = map nSequence (vin t2) \/ clash [[all_sequences t1]; [all_sequences t2]]) /\
  (vout t1 = vout t2 \/ clash [[all_outputs t1]; [all_outputs t2]]).
Proof.
  intros F1 F2 Hall. destruct (digests_all t1 n1 h Hall) as (-> & -> & ->), (digests_all t2 n2 h Hall) as (-> & -> & ->).
  destruct (all_bytes t1 F1) as (P1 & S1 & O1), (all_bytes t2 F2) as (P2 & S2 & O2), (all_inj t1 t2 F1 F2) as (JP & JS & JO).
  intros [EP|EP]%Hash_eq2 [ES|ES]%Hash_eq2 [EO|EO]%Hash_eq2; auto.
Qed.

Definition in_range (t : CMutableTransaction) (n : nat) (nHashType : Z) : Prop :=
  (n < length (vin t))%nat /\ (is_single nHashType = true -> (n < length (vout t))%nat).
Lemma SignatureHash_base code t n nHashType amount : parses code = true -> in_range t n nHashType ->
  SignatureHash code t n nHashType amount SIGVERSION_BASE =
    Some (Hash [tx_bytes false (signed_copy code t n nHashType) ++ write_int 4 nHashType]).
Proof.
  intros Hp [Hn Hs]. unfold SignatureHash. rewrite (proj2 (Nat.leb_gt _ _) Hn).
  assert (is_single nHashType && Nat.leb (length (vout t)) n = false) as ->.
  { destruct (is_single nHashType); [|done]. apply Nat.leb_gt. by apply Hs. }
  by rewrite sig_Serialize_copy.
Qed.
Lemma signed_copy_inj c1 t1 n1 h1 c2 t2 n2 h2 :
  read_ok false (signed_copy c1 t1 n1 h1) -> read_ok false (signed_copy c2 t2 n2 h2) ->
  - 2 ^ 31 <= h1 < 2 ^ 31 -> - 2 ^ 31 <= h2 < 2 ^ 31 ->
  tx_bytes false (signed_copy c1 t1 n1 h1) ++ write_int 4 h1 = tx_bytes false (signed_copy c2 t2 n2 h2) ++ write_int 4 h2 ->
  signed_copy c1 t1 n1 h1 = signed_copy c2 t2 n2 h2 /\ h1 = h2.
Proof.
  intros R1 R2 Hh1 Hh2 E. apply (codes_app_inj _ _ _ _ _ _ _ (conj (read_back false) (read_writes false))) in E as [E1 E2]; [|done..].
  split; [done|]. rewrite <- (app_nil_r (write_int 4 h1)), <- (app_nil_r (write_int 4 h2)) in E2. by apply hash_type_inj in E2 as [? _].
Qed.

(** C5: what a signature signs.  In the base version the hash is that of the original
    algorithm, for a script code whose instructions parse: the modified copy of the
    transaction, serialised without witness, and the hash type; an input or, for
    SIGHASH_SINGLE, an output that does not exist gives the number one.  Where the input
    exists, two signatures with the same hash sign the same copy and the same hash type,
    unless the two strings that are hashed are different and have the same double SHA-256.
    In the witness version they have the same version, outpoint spent, amount, script code,
    sequence number, lock time and hash type, and for SIGHASH_ALL all outpoints, all sequence
    numbers and all outputs are the same, unless the two strings hashed last, or the two
    strings of all outpoints, of all sequence numbers or of all outputs, are different with
    the same double SHA-256. *)
Theorem SignatureHash_signs :
  (forall code t n h amount, parses code = true ->
    SignatureHash code t n h amount SIGVERSION_BASE =
      Some (if bool_decide (in_range t n h) then Hash [tx_bytes false (signed_copy code t n h) ++ write_int 4 h] else hash_one)) /\
  (forall c1 t1 n1 h1 a1 c2 t2 n2 h2 a2,
    fields_ok t1 -> fields_ok t2 -> bytes_ok c1 -> bytes_ok c2 -> parses c1 = true -> parses c2 = true ->
    in_range t1 n1 h1 -> in_range t2 n2 h2 -> - 2 ^ 31 <= h1 < 2 ^ 31 -> - 2 ^ 31 <= h2 < 2 ^ 31 ->
    SignatureHash c1 t1 n1 h1 a1 SIGVERSION_BASE = SignatureHash c2 t2 n2 h2 a2 SIGVERSION_BASE ->
    (signed_copy c1 t1 n1 h1 = signed_copy c2 t2 n2 h2 /\ h1 = h2) \/
    clash [[tx_bytes false (signed_copy c1 t1 n1 h1) ++ write_int 4 h1]; [tx_bytes false (signed_copy c2 t2 n2 h2) ++ write_int 4 h2]]) /\
  (forall c1 t1 n1 h1 a1 i1 c2 t2 n2 h2 a2 i2,
    fields_ok t1 -> fields_ok t2 -> bytes_ok c1 -> bytes_ok c2 -> vin t1 !! n1 = Some i1 -> vin t2 !! n2 = Some i2 ->
    - 2 ^ 31 <= h1 < 2 ^ 31 -> - 2 ^ 31 <= h2 < 2 ^ 31 -> - 2 ^ 63 <= a1 < 2 ^ 63 -> - 2 ^ 63 <= a2 < 2 ^ 63 ->
    SignatureHash c1 t1 n1 h1 a1 SIGVERSION_WITNESS_V0 = SignatureHash c2 t2 n2 h2 a2 SIGVERSION_WITNESS_V0 ->
    ((nVersion t1 = nVersion t2 /\ nLockTime t1 = nLockTime t2 /\ h1 = h2 /\ a1 = a2 /\ c1 = c2) /\
     (prevout i1 = prevout i2 /\ nSequence i1 = nSequence i2) /\
     (signs_all h1 = true ->
       (map prevout (vin t1) = map prevout (vin t2) \/ clash [[all_prevouts t1]; [all_prevouts t2]]) /\
       (map nSequence (vin t1) = map nSequence (vin t2) \/ clash [[all_sequences t1]; [all_sequences t2]]) /\
       (vout t1 = vout t2 \/ clash [[all_outputs t1]; [all_outputs t2]]))) \/
    clash [[witness_preimage c1 t1 n1 h1 a1 i1]; [witness_preimage c2 t2 n2 h2 a2 i2]]).
Proof.
  split; [|split].
  - intros code t n h amount Hp. case_bool_decide as Hr; [by apply SignatureHash_base|]. unfold in_range in Hr. unfold SignatureHash.
    destruct (Nat.leb_spec (length (vin t)) n) as [|Hn]; [done|].
    destruct (is_single h) eqn:Es; [|exfalso; apply Hr; by split]. destruct (Nat.leb_spec (length (vout t)) n) as [|Ho]; [done|].
    exfalso. apply Hr. by split.
  - intros c1 t1 n1 h1 a1 c2 t2 n2 h2 a2 F1 F2 B1 B2 P1 P2 R1 R2 H1 H2 E. rewrite !SignatureHash_base in E by done.
    pose proof (signed_copy_ok c1 t1 n1 h1 F1 P1 B1 (proj2 R1)) as S1. pose proof (signed_copy_ok c2 t2 n2 h2 F2 P2 B2 (proj2 R2)) as S2.
    apply Some_inj in E. apply Hash_eq2 in E; [|exact (base_preimage_bytes _ h1 (proj1 S1))|exact (base_preimage_bytes _ h2 (proj1 S2))].
    destruct E as [E|]; [left|by right]. by apply signed_copy_inj in E.
  - intros c1 t1 n1 h1 a1 i1 c2 t2 n2 h2 a2 i2 F1 F2 B1 B2 V1 V2 H1 H2 A1 A2 E. cbn [SignatureHash] in E. rewrite V1, V2 in E. cbn [mbind option_bind] in E.
    assert (TxIn_ok i1) as I1 by (destruct F1 as (_ & [_ F1] & _); rewrite Forall_lookup in F1; by apply (F1 n1)).
    assert (TxIn_ok i2) as I2 by (destruct F2 as (_ & [_ F2] & _); rewrite Forall_lookup in F2; by apply (F2 n2)).
    apply Some_inj in E. apply Hash_eq2 in E; [|exact (witness_preimage_bytes c1 t1 n1 h1 a1 i1 B1 (proj1 I1))|exact (witness_preimage_bytes c2 t2 n2 h2 a2 i2 B2 (proj1 I2))].
    destruct E as [E|]; [left|by right].
    apply witness_preimage_inj in E as (E1 & E2 & EP & ES & EO); try done. split; [exact E1|]. split; [exact E2|].
    destruct E1 as (_ & _ & -> & _). intros Hs. exact (digests_inj t1 n1 t2 n2 h2 F1 F2 Hs EP ES EO).
Qed.

Lemma SignatureHash_signs_witness :
  SignatureHash [81; 171; 172] sample_tx 1 SIGHASH_SINGLE 0 SIGVERSION_BASE = Some hash_one /\
  SignatureHash [81; 171; 172] sample_tx 1 SIGHASH_ALL 0 SIGVERSION_BASE =
    Some (Hash [tx_bytes false (signed_copy [81; 171; 172] sample_tx 1 SIGHASH_ALL) ++ write_int 4 SIGHASH_ALL]) /\
  vin (signed_copy [81; 171; 172] sample_tx 1 SIGHASH_ALL) =
    [mkTxIn (mkOutPoint (leaf 7) 1) [] 0xfffffffe []; mkTxIn (mkOutPoint (leaf 8) 0) [81; 172] SEQUENCE_FINAL []].
Proof.
  split; [|split; [|reflexivity]].
  - rewrite (proj1 SignatureHash_signs) by reflexivity. rewrite bool_decide_eq_false_2; [done|].
    intros [_ H]. specialize (H eq_refl). cbn in H. lia.
  - rewrite (proj1 SignatureHash_signs) by reflexivity. by rewrite bool_decide_eq_true_2 by (split; [cbn; lia|done]).
Defined.
