(* ===== verification/Compressor.v ===== *)
(** The compact form of outputs in the coin database ([src/src/compressor.cpp],
    [compressor.h]): amounts without their trailing zeros, standard scripts as a tag and a
    hash or key, and the proof that what is stored is read back. *)
From S2P Require Import Prelude Serialize Stream Hashers Script Merkle Transaction SigHash.

(** ** Amounts ([uint64_t]) *)

Fixpoint strip_zeros (fuel : nat) (n e : Z) : Z * Z :=
  match fuel with
  | O => (n, e)
  | S fuel' => if (n mod 10 =? 0) && (e <? 9) then strip_zeros fuel' (n / 10) (e + 1) else (n, e)
  end.
(** [None] is the assertion on the last digit. *)
Definition CompressAmount (n : Z) : option Z :=
  if n =? 0 then Some 0 else
  let '(n, e) := strip_zeros 9 n 0 in
  if e <? 9 then
    let d := n mod 10 in
    if (1 <=? d) && (d <=? 9) then Some (u64 (1 + (n / 10 * 9 + d - 1) * 10 + e)) else None
  else Some (u64 (1 + (n - 1) * 10 + 9)).

Fixpoint add_zeros (e : nat) (n : Z) : Z := match e with O => n | S e' => add_zeros e' (u64 (n * 10)) end.
Definition DecompressAmount (x : Z) : Z :=
  if x =? 0 then 0 else
  let x := x - 1 in
  let e := x mod 10 in
  let x := x / 10 in
  let n := if e <? 9 then u64 (x / 9 * 10 + (x mod 9 + 1)) else u64 (x + 1) in
  add_zeros (Z.to_nat e) n.

(** ** Scripts *)

(** What the code asks of the elliptic-curve library. *)
Class PubKeyOps := {
  IsFullyValid : valtype -> bool;
  Decompress_key : valtype -> option valtype
}.

Section compressor.
Context `{PubKeyOps}.

Definition IsToKeyID (script : CScript) : option (list Z) :=
  if (size script =? 25) && (at_ script 0 =? OP_DUP) && (at_ script 1 =? OP_HASH160) && (at_ script 2 =? 20) &&
     (at_ script 23 =? OP_EQUALVERIFY) && (at_ script 24 =? OP_CHECKSIG)
  then Some (take 20 (drop 3 script)) else None.
Definition IsToScriptID (script : CScript) : option (list Z) :=
  if (size script =? 23) && (at_ script 0 =? OP_HASH160) && (at_ script 1 =? 20) && (at_ script 22 =? OP_EQUAL)
  then Some (take 20 (drop 2 script)) else None.
Definition IsToPubKey (script : CScript) : option CPubKey :=
  if (size script =? 35) && (at_ script 0 =? 33) && (at_ script 34 =? OP_CHECKSIG) &&
     ((at_ script 1 =? 2) || (at_ script 1 =? 3))
  then Some (CPubKey_Set (take 33 (drop 1 script)))
  else if (size script =? 67) && (at_ script 0 =? 65) && (at_ script 66 =? OP_CHECKSIG) && (at_ script 1 =? 4)
  then
    let pubkey := CPubKey_Set (take 65 (drop 1 script)) in
    if match pubkey with Some k => IsFullyValid k | None => false end then Some pubkey else None
  else None.

Definition Compress (script : CScript) : option (list Z) :=
  match IsToKeyID script with
  | Some keyID => Some (0 :: keyID)
  | None =>
      match IsToScriptID script with
      | Some scriptID => Some (1 :: scriptID)
      | None =>
          match IsToPubKey script with
          | Some (Some k) =>
              let k0 := nth 0 k 0 in
              if (k0 =? 2) || (k0 =? 3) then Some (k0 :: take 32 (drop 1 k))
              else if k0 =? 4 then Some (Z.lor 4 (Z.land (nth 64 k 0) 1) :: take 32 (drop 1 k))
              else None
          | _ => None
          end
      end
  end.
Definition GetSpecialSize (nSize : Z) : Z :=
  if (nSize =? 0) || (nSize =? 1) then 20
  else if (nSize =? 2) || (nSize =? 3) || (nSize =? 4) || (nSize =? 5) then 32
  else 0.
Definition Decompress (nSize : Z) (inp : list Z) : option CScript :=
  if nSize =? 0 then Some ([OP_DUP; OP_HASH160; 20] ++ take 20 inp ++ [OP_EQUALVERIFY; OP_CHECKSIG])
  else if nSize =? 1 then Some ([OP_HASH160; 20] ++ take 20 inp ++ [OP_EQUAL])
  else if (nSize =? 2) || (nSize =? 3) then Some ([33; nSize] ++ take 32 inp ++ [OP_CHECKSIG])
  else if (nSize =? 4) || (nSize =? 5) then
    match CPubKey_Set ((nSize - 2) :: take 32 inp) with
    | Some k => k ← Decompress_key k; Some ([65] ++ take 65 k ++ [OP_CHECKSIG])
    | None => None
    end
  else None.

Definition nSpecialScripts : Z := 6.
Definition Serialize_script (script : CScript) : list Z :=
  match Compress script with
  | Some compr => compr
  | None => WriteVarInt 32 (u32 (size script + nSpecialScripts)) ++ script
  end.
Definition GetSerializeSize_script (script : CScript) : Z :=
  match Compress script with
  | Some compr => size compr
  | None => u32 (size script + GetSizeOfVarInt 32 (u32 (size script + nSpecialScripts)))
  end.
(** Into an empty script; a key that does not decompress leaves it so. *)
Definition Unserialize_script : reader CScript :=
  nSize ← ReadVarInt 32;
  if nSize <? nSpecialScripts then
    vch ← read_bytes (GetSpecialSize nSize); mret (from_option id [] (Decompress nSize vch))
  else read_bytes (nSize - nSpecialScripts).

(** [CTxOutCompressor] *)
Definition Serialize_compressed (o : CTxOut) : option (list Z) :=
  nVal ← CompressAmount (u64 (nValue o)); Some (WriteVarInt 64 nVal ++ Serialize_script (scriptPubKey o)).
Definition Unserialize_compressed : reader CTxOut :=
  nVal ← ReadVarInt 64; s ← Unserialize_script; mret (mkTxOut (i64 (DecompressAmount nVal)) s (-10)).
Definition GetSerializeSize_compressed (o : CTxOut) : option Z :=
  nVal ← CompressAmount (u64 (nValue o)); Some (GetSizeOfVarInt 64 nVal + GetSerializeSize_script (scriptPubKey o)).
End compressor.

(** The library: decompressing the compressed form of a valid key gives the key back. *)
Class PubKeyLaws `{PubKeyOps} := {
  decompress_valid : forall k, length k = 65%nat -> nth 0 k 0 = 4 -> IsFullyValid k = true ->
    Decompress_key ((2 + Z.land (nth 64 k 0) 1) :: take 32 (drop 1 k)) = Some k
}.

(** ** Round trip of amounts *)

Lemma strip_zeros_spec fuel n e : 0 < n -> 0 <= e -> e + Z.of_nat fuel = 9 ->
  let '(m, e') := strip_zeros fuel n e in
  e <= e' <= 9 /\ 0 < m /\ n = m * 10 ^ (e' - e) /\ (e' < 9 -> m mod 10 <> 0).
Proof.
  revert n e. induction fuel as [|fuel IH]; intros n e Hn He Hf; cbn [strip_zeros].
  - replace (e - e) with 0 by lia. split_and!; lia.
  - destruct (Z.eqb_spec (n mod 10) 0) as [H0|H0]; cbn [andb].
    + destruct (Z.ltb_spec e 9); [|lia].
      assert (0 < n / 10) by zwrap. specialize (IH (n / 10) (e + 1) ltac:(lia) ltac:(lia) ltac:(lia)).
      destruct (strip_zeros fuel (n / 10) (e + 1)) as [m e']. destruct IH as (G1 & G2 & G3 & G4). split; [lia|split; [lia|split; [|done]]].
      replace (e' - e) with (1 + (e' - (e + 1))) by lia. rewrite Z.pow_add_r by lia.
      rewrite Z.mul_assoc, (Z.mul_comm m), <- Z.mul_assoc, <- G3. pose proof (Z.div_mod n 10 ltac:(lia)). lia.
    + replace (e - e) with 0 by lia. split_and!; lia.
Qed.
Lemma add_zeros_spec e n : 0 <= n -> n * 10 ^ Z.of_nat e < 2 ^ 64 -> add_zeros e n = n * 10 ^ Z.of_nat e.
Proof.
  revert n. induction e as [|e IH]; intros n Hn H; cbn [add_zeros]; [cbn; lia|].
  rewrite Nat2Z.inj_succ, Z.pow_succ_r in * by lia. assert (0 < 10 ^ Z.of_nat e) by (apply Z.pow_pos_nonneg; lia).
  rewrite u64_small by nia. rewrite IH; nia.
Qed.
(** Every amount up to two billion coins; [n * 9] must not pass 2^64. *)
Definition MAX_COMPRESSIBLE : Z := 2 * 10 ^ 18.
Lemma amount_roundtrip n : 0 <= n <= MAX_COMPRESSIBLE -> exists x, CompressAmount n = Some x /\ 0 <= x < 2 ^ 64 /\ DecompressAmount x = n.
Proof.
  unfold MAX_COMPRESSIBLE. intros Hn. unfold CompressAmount. destruct (Z.eqb_spec n 0) as [->|Hn0]; [by exists 0|].
  pose proof (strip_zeros_spec 9 n 0 ltac:(lia) ltac:(lia) ltac:(lia)) as Hs. destruct (strip_zeros 9 n 0) as [m e].
  destruct Hs as (He & Hm & Hnm & Hd). rewrite Z.sub_0_r in Hnm. assert (0 < 10 ^ e) by (apply Z.pow_pos_nonneg; lia).
  assert (m <= n) by nia.
  destruct (Z.ltb_spec e 9).
  - specialize (Hd ltac:(lia)). pose proof (Z.mod_pos_bound m 10 ltac:(lia)).
    replace ((1 <=? m mod 10) && (m mod 10 <=? 9)) with true by lia.
    set (d := m mod 10) in *. set (q := m / 10). assert (m = q * 10 + d) by (subst q d; pose proof (Z.div_mod m 10); lia).
    assert (0 <= q) by lia. rewrite u64_small by lia. eexists. split; [done|]. split; [lia|].
    unfold DecompressAmount. destruct (Z.eqb_spec (1 + (q * 9 + d - 1) * 10 + e) 0); [lia|].
    replace (1 + (q * 9 + d - 1) * 10 + e - 1) with (e + (q * 9 + d - 1) * 10) by lia.
    rewrite Z.mod_add, (Z.mod_small e), Z.div_add, (Z.div_small e) by lia. destruct (Z.ltb_spec e 9); [|lia].
    replace (0 + (q * 9 + d - 1)) with ((d - 1) + q * 9) by lia. rewrite Z.div_add, Z.mod_add, (Z.div_small (d - 1)), (Z.mod_small (d - 1)) by lia.
    rewrite u64_small by lia. rewrite add_zeros_spec; rewrite ?Z2Nat.id by lia; try lia; nia.
  - assert (e = 9) by lia. subst e. rewrite u64_small by lia. eexists. split; [done|]. split; [lia|].
    unfold DecompressAmount. destruct (Z.eqb_spec (1 + (m - 1) * 10 + 9) 0); [lia|].
    replace (1 + (m - 1) * 10 + 9 - 1) with (9 + (m - 1) * 10) by lia. rewrite Z.mod_add, Z.div_add by lia. cbn [Z.modulo Z.div].
    change (9 mod 10) with 9. change (9 / 10) with 0. cbn [Z.ltb Z.compare Pos.compare Pos.compare_cont].
    rewrite u64_small by lia. rewrite add_zeros_spec; change (Z.of_nat (Z.to_nat 9)) with 9; nia.
Qed.

(** ** Round trip of scripts *)

Ltac explode l := repeat (destruct l as [|? l]; [discriminate|]); destruct l; [|discriminate].
Ltac split_tests := repeat match goal with
  | Ht : _ && _ = true |- _ => apply andb_true_iff in Ht as [? Ht]
  | Ht : (_ =? _) = true |- _ => apply Z.eqb_eq in Ht
  end.
Lemma size_length {A} (l : list A) n : Z.of_nat (length l) = Z.of_nat n -> length l = n.
Proof. lia. Qed.

(** A script whose length and some of whose bytes were tested, byte by byte. *)
Ltac explode_script s n := split_tests; unfold size in *;
  match goal with Hs : Z.of_nat (length s) = _ |- _ => apply (size_length s n) in Hs end; explode s; cbn in *; subst.

Lemma ReadVarInt_tag k s : 0 <= k < 128 -> ReadVarInt 32 (k :: s) = inr (k, s).
Proof.
  intros Hk. unfold ReadVarInt. rewrite read_digit by lia. cbv zeta. destruct (Z.leb_spec 128 k); [lia|].
  rewrite Z.mod_0_l, Z.add_0_l, Z.mod_small by lia. done.
Qed.
Lemma read_bytes_all n b rest : Z.of_nat (length b) = n -> read_bytes n (b ++ rest) = inr (b, rest).
Proof.
  intros Hl. unfold read_bytes. rewrite length_app. destruct (Z.ltb_spec (Z.of_nat (length b + length rest)) n); [lia|].
  by rewrite <- Hl, Nat2Z.id, take_app_length, drop_app_length.
Qed.

Section script_roundtrip.
Context `{PubKeyLaws}.

Lemma IsToKeyID_Some s h : IsToKeyID s = Some h -> s = [OP_DUP; OP_HASH160; 20] ++ h ++ [OP_EQUALVERIFY; OP_CHECKSIG] /\ length h = 20%nat.
Proof.
  unfold IsToKeyID. destruct (_ && _) eqn:E; [|done]. intros [= <-]. by explode_script s 25%nat.
Qed.
Lemma IsToScriptID_Some s h : IsToScriptID s = Some h -> s = [OP_HASH160; 20] ++ h ++ [OP_EQUAL] /\ length h = 20%nat.
Proof.
  unfold IsToScriptID. destruct (_ && _) eqn:E; [|done]. intros [= <-]. by explode_script s 23%nat.
Qed.
Lemma IsToPubKey_Some s pk : IsToPubKey s = Some pk -> exists k, pk = Some k /\
  ((s = [33] ++ k ++ [OP_CHECKSIG] /\ length k = 33%nat /\ (nth 0 k 0 = 2 \/ nth 0 k 0 = 3)) \/
   (s = [65] ++ k ++ [OP_CHECKSIG] /\ length k = 65%nat /\ nth 0 k 0 = 4 /\ IsFullyValid k = true)).
Proof.
  unfold IsToPubKey. destruct ((size s =? 35) && _ && _ && _) eqn:E.
  - intros [= <-]. apply andb_true_iff in E as [E Hk]. apply orb_true_iff in Hk.
    assert (at_ s 1 = 2 \/ at_ s 1 = 3) as Hk' by lia. clear Hk. explode_script s 35%nat.
    destruct Hk' as [-> | ->]; (eexists; split; [reflexivity|left; split; [reflexivity|split; [done|auto]]]).
  - destruct ((size s =? 67) && _ && _ && _) eqn:E'; [|done].
    assert (CPubKey_Set (take 65 (drop 1 s)) = Some (take 65 (drop 1 s)) /\ s = [65] ++ take 65 (drop 1 s) ++ [OP_CHECKSIG] /\
      length (take 65 (drop 1 s)) = 65%nat /\ nth 0 (take 65 (drop 1 s)) 0 = 4) as (-> & Hs & Hl & Hfirst).
    { clear E. by explode_script s 67%nat. }
    destruct (IsFullyValid _) eqn:V; [|done]. intros [= <-]. exists (take 65 (drop 1 s)). split; [done|right]. auto.
Qed.

Lemma script_roundtrip s rest : size s + nSpecialScripts < 2 ^ 32 -> Unserialize_script (Serialize_script s ++ rest) = inr (s, rest).
Proof.
  intros Hs. unfold Serialize_script, Unserialize_script, Compress.
  assert (Htag : forall k b sc, 0 <= k < 6 -> Z.of_nat (length b) = GetSpecialSize k -> Decompress k b = Some sc ->
    (nSize ← ReadVarInt 32;
     if nSize <? nSpecialScripts then vch ← read_bytes (GetSpecialSize nSize); mret (from_option id [] (Decompress nSize vch))
     else read_bytes (nSize - nSpecialScripts)) ((k :: b) ++ rest) = inr (sc, rest)).
  { intros k b sc Hk Hb Hd. cbn [app]. erewrite bind_eq by (apply ReadVarInt_tag; lia). unfold nSpecialScripts.
    destruct (Z.ltb_spec k 6); [|lia]. erewrite bind_eq by by apply read_bytes_all. by rewrite Hd. }
  destruct (IsToKeyID s) as [h|] eqn:E1.
  { apply IsToKeyID_Some in E1 as [Hh Hl]. apply Htag; [lia|by rewrite Hl|]. rewrite Hh. unfold Decompress. cbn [Z.eqb].
    by rewrite take_ge by lia. }
  destruct (IsToScriptID s) as [h|] eqn:E2.
  { apply IsToScriptID_Some in E2 as [Hh Hl]. apply Htag; [lia|by rewrite Hl|]. rewrite Hh. unfold Decompress. cbn [Z.eqb].
    by rewrite take_ge by lia. }
  destruct (IsToPubKey s) as [pk|] eqn:E3.
  - apply IsToPubKey_Some in E3 as (k & -> & [(Hsk & Hl & Hk)|(Hsk & Hl & Hk & Hv)]).
    + destruct k as [|k0 k]; [done|]. cbn [nth] in *.
      assert ((k0 =? 2) || (k0 =? 3) = true) as -> by (apply orb_true_iff; lia). cbn [drop]. rewrite drop_0.
      assert (length k = 32%nat) as Hl' by (cbn in Hl; lia). rewrite take_ge by lia.
      apply Htag; [lia|destruct Hk as [-> | ->]; cbn; lia|]. rewrite Hsk. unfold Decompress.
      destruct Hk as [-> | ->]; cbn [Z.eqb Pos.eqb orb]; rewrite take_ge by lia; done.
    + rewrite Hk. cbn [Z.eqb Pos.eqb orb]. set (b := Z.land (nth 64 k 0) 1).
      assert (b = 0 \/ b = 1) as Hb.
      { subst b. rewrite (land_ones_mod _ 1) by lia. zwrap. }
      pose proof (decompress_valid k Hl Hk Hv) as Hd. fold b in Hd.
      assert (length (take 32 (drop 1 k)) = 32%nat) as Hl' by (rewrite length_take, length_drop; lia).
      set (c := take 32 (drop 1 k)) in *. clearbody b c. apply Htag.
      * destruct Hb as [-> | ->]; [change (Z.lor 4 0) with 4|change (Z.lor 4 1) with 5]; lia.
      * rewrite Hl'. destruct Hb as [-> | ->]; done.
      * rewrite Hsk. unfold Decompress.
        assert (CPubKey_Set ((2 + b) :: take 32 c) = Some ((2 + b) :: c)) as Hset.
        { rewrite take_ge by lia. unfold CPubKey_Set, size. cbn [length]. rewrite Hl'. destruct Hb as [-> | ->]; done. }
        destruct Hb as [-> | ->]; [change (2 + 0) with 2 in *; change (Z.lor 4 0) with 4|change (2 + 1) with 3 in *; change (Z.lor 4 1) with 5];
          cbn [Z.eqb Pos.eqb orb]; [change (4 - 2) with 2|change (5 - 2) with 3]; rewrite Hset, Hd; cbn [mbind option_bind];
          by rewrite take_ge by lia.
  - unfold nSpecialScripts in *. assert (0 <= size s) by (unfold size; lia). rewrite u32_small by lia. rewrite <- app_assoc.
    erewrite bind_eq by (apply (ReadVarInt_WriteVarInt 32); lia). destruct (Z.ltb_spec (size s + 6) 6); [lia|].
    apply read_bytes_all. unfold size. lia.
Qed.
End script_roundtrip.
