(* ===== verification/Coins.v ===== *)
(** Unspent outputs of a transaction and their undo records ([src/src/coins.h], [coins.cpp]:
    [CCoins]; [src/src/undo.h]: [CTxInUndo]): spending, pruning, and the database format. *)
From S2P Require Import Prelude Serialize Stream Hashers Script Merkle Transaction SigHash Compressor.

(** ** [CCoins] *)

Record CCoins := mkCoins {
  fCoinBase : bool;
  fCoinStake : bool;
  c_vout : list CTxOut;
  nHeight : Z;
  c_nVersion : Z
}.
Definition CCoins_empty : CCoins := mkCoins false false [] 0 0.
Definition set_vout (c : CCoins) (v : list CTxOut) : CCoins := mkCoins (fCoinBase c) (fCoinStake c) v (nHeight c) (c_nVersion c).
Definition Clear (c : CCoins) : CCoins := CCoins_empty.

(** [while (vout.size() > 0 && vout.back().IsNull()) vout.pop_back()] *)
Fixpoint drop_null (rev_vout : list CTxOut) : list CTxOut :=
  match rev_vout with
  | o :: l => if TxOut_IsNull o then drop_null l else o :: l
  | [] => []
  end.
Definition Cleanup_vout (v : list CTxOut) : list CTxOut := rev (drop_null (rev v)).
Definition Cleanup (c : CCoins) : CCoins := set_vout c (Cleanup_vout (c_vout c)).
Definition ClearUnspendable (c : CCoins) : CCoins :=
  Cleanup (set_vout c (map (fun o => if IsUnspendable (scriptPubKey o) then TxOut_null else o) (c_vout c))).
Definition FromTx (t : CMutableTransaction) (nHeightIn : Z) : CCoins :=
  ClearUnspendable (mkCoins (IsCoinBase t) (IsCoinStake t) (vout t) nHeightIn (nVersion t)).

Definition IsPruned (c : CCoins) : bool := forallb TxOut_IsNull (c_vout c).
Definition IsAvailable (c : CCoins) (nPos : Z) : bool :=
  (nPos <? Z.of_nat (length (c_vout c))) &&
  (let o := nth (Z.to_nat nPos) (c_vout c) TxOut_null in negb (TxOut_IsNull o) && negb (IsZerocoinMint (scriptPubKey o))).
Definition TxOut_eqb (a b : CTxOut) : bool :=
  (nValue a =? nValue b) && bool_decide (scriptPubKey a = scriptPubKey b) && (nRounds a =? nRounds b).
Fixpoint vout_eqb (a b : list CTxOut) : bool :=
  match a, b with
  | [], [] => true
  | x :: a, y :: b => TxOut_eqb x y && vout_eqb a b
  | _, _ => false
  end.
Definition Coins_eqb (a b : CCoins) : bool :=
  if IsPruned a && IsPruned b then true else
  Bool.eqb (fCoinBase a) (fCoinBase b) && Bool.eqb (fCoinStake a) (fCoinStake b) && (nHeight a =? nHeight b) &&
  (c_nVersion a =? c_nVersion b) && vout_eqb (c_vout a) (c_vout b).

(** ** [CTxInUndo] *)

Record CTxInUndo := mkUndo {
  txout : CTxOut;
  u_fCoinBase : bool;
  u_fCoinStake : bool;
  u_nHeight : Z;
  u_nVersion : Z
}.
Definition CTxInUndo_of (o : CTxOut) : CTxInUndo := mkUndo o false false 0 0.

(** [CCoins::Spend]: [None] is [false].  The height of the undo record is an [unsigned int]. *)
Definition Spend (c : CCoins) (n : Z) : option (CCoins * CTxInUndo) :=
  if Z.of_nat (length (c_vout c)) <=? n then None else
  let o := nth (Z.to_nat n) (c_vout c) TxOut_null in
  if TxOut_IsNull o then None else
  let undo := CTxInUndo_of o in
  let c := Cleanup (set_vout c (<[Z.to_nat n := TxOut_null]> (c_vout c))) in
  let undo :=
    if Nat.eqb (length (c_vout c)) 0
    then mkUndo (txout undo) (fCoinBase c) (fCoinStake c) (u32 (nHeight c)) (c_nVersion c) else undo in
  Some (c, undo).

(** ** Database format *)

Section format.
Context `{PubKeyOps}.

(** Whether output [i] is unspent; the bitmask covers the outputs from the third on. *)
Definition unspent (v : list CTxOut) (i : nat) : bool := negb (TxOut_IsNull (nth i v TxOut_null)).
Definition mask_bytes (v : list CTxOut) : nat := (length v + 5) / 8.
Definition byte_zero (v : list CTxOut) (b : nat) : bool := forallb (fun i => negb (unspent v (2 + b * 8 + i))) (seq 0 8).
(** [CalcMaskSize]: the last byte in use and the number of non-zero bytes. *)
Definition CalcMaskSize (v : list CTxOut) : nat * Z :=
  for_range (mask_bytes v) (fun '(nLastUsedByte, nNonzeroBytes) b =>
    if byte_zero v b then (nLastUsedByte, nNonzeroBytes) else (S b, nNonzeroBytes + 1)) (0%nat, 0).
Definition fFirst (v : list CTxOut) : bool := Nat.ltb 0 (length v) && unspent v 0.
Definition fSecond (v : list CTxOut) : bool := Nat.ltb 1 (length v) && unspent v 1.
Definition chAvail (v : list CTxOut) (b : nat) : Z :=
  for_range 8 (fun ch i => if unspent v (2 + b * 8 + i) then Z.lor ch (Z.shiftl 1 (Z.of_nat i)) else ch) 0.
Definition b2z (b : bool) (z : Z) : Z := if b then z else 0.
(** The header code; [unit] is 16 in [Serialize] and 8 in [GetSerializeSize]. *)
Definition nCode (unit : Z) (c : CCoins) : Z :=
  let v := c_vout c in
  u32 (unit * (snd (CalcMaskSize v) - (if fFirst v || fSecond v then 0 else 1)) +
    b2z (fCoinBase c) 1 + b2z (fCoinStake c) 2 + b2z (fFirst v) 4 + b2z (fSecond v) 8).

(** [None]: the assertion that something is unspent, or an amount that cannot be compressed. *)
Definition serialize_outs (v : list CTxOut) : option (list Z) :=
  foldr (fun o r => if TxOut_IsNull o then r else b ← Serialize_compressed o; l ← r; Some (b ++ l)) (Some []) v.
Definition Serialize_coins (c : CCoins) : option (list Z) :=
  let v := c_vout c in
  let '(nMaskSize, nMaskCode) := CalcMaskSize v in
  if negb (fFirst v || fSecond v || negb (nMaskCode =? 0)) then None else
  outs ← serialize_outs v;
  Some (WriteVarInt 32 (c_nVersion c) ++ WriteVarInt 32 (nCode 16 c) ++ map (chAvail v) (seq 0 nMaskSize) ++ outs ++
    WriteVarInt 32 (nHeight c)).

Definition size_outs (v : list CTxOut) : option Z :=
  foldr (fun o r => if TxOut_IsNull o then r else b ← GetSerializeSize_compressed o; l ← r; Some (b + l)) (Some 0) v.
Definition GetSerializeSize_coins (c : CCoins) : option Z :=
  let v := c_vout c in
  let '(nMaskSize, nMaskCode) := CalcMaskSize v in
  if negb (fFirst v || fSecond v || negb (nMaskCode =? 0)) then None else
  outs ← size_outs v;
  Some (u32 (GetSizeOfVarInt 32 (c_nVersion c) + GetSizeOfVarInt 32 (nCode 8 c) + Z.of_nat nMaskSize + outs + GetSizeOfVarInt 32 (nHeight c))).

(** The bitmask is read until it has shown as many non-zero bytes as the code announced. *)
Definition byte_bits (ch : Z) : list bool := map (fun p => negb (Z.land ch (Z.shiftl 1 (Z.of_nat p)) =? 0)) (seq 0 8).
Fixpoint read_mask (fuel : nat) (nMaskCode : Z) : reader (list bool) :=
  if nMaskCode =? 0 then mret [] else
  match fuel with
  | O => fail_read EndOfData
  | S fuel' =>
      ch ← read_uint 1; r ← read_mask fuel' (if ch =? 0 then nMaskCode else nMaskCode - 1); mret (byte_bits ch ++ r)
  end.
Fixpoint read_outs (vAvail : list bool) : reader (list CTxOut) :=
  match vAvail with
  | [] => mret []
  | f :: l =>
      o ← (if f then Unserialize_compressed else mret TxOut_null : reader CTxOut);
      r ← read_outs l; mret (o :: r)
  end.
Definition Unserialize_coins : reader CCoins := fun s =>
  (version ← ReadVarInt 32;
   code ← ReadVarInt 32;
   let nMaskCode := code / 16 + (if Z.land code 12 =? 0 then 1 else 0) in
   mask ← read_mask (length s) nMaskCode;
   outs ← read_outs ([negb (Z.land code 4 =? 0); negb (Z.land code 8 =? 0)] ++ mask);
   height ← ReadVarInt 32;
   mret (Cleanup (mkCoins (negb (Z.land code 1 =? 0)) (negb (Z.land code 2 =? 0)) outs (i32 height) (i32 version)))) s.

Definition undo_code (u : CTxInUndo) : Z := u32 (u_nHeight u * 4 + b2z (u_fCoinBase u) 2 + b2z (u_fCoinStake u) 1).
Definition Serialize_undo (u : CTxInUndo) : option (list Z) :=
  o ← Serialize_compressed (txout u);
  Some (WriteVarInt 32 (undo_code u) ++ (if 0 <? u_nHeight u then WriteVarInt 32 (u_nVersion u) else []) ++ o).
Definition Unserialize_undo : reader CTxInUndo :=
  code ← ReadVarInt 32;
  let height := Z.shiftr code 2 in
  version ← (if 0 <? height then ReadVarInt 32 else mret 0 : reader Z);
  o ← Unserialize_compressed;
  mret (mkUndo o (negb (Z.land code 2 =? 0)) (negb (Z.land code 1 =? 0)) height (i32 version)).
End format.

(** ** Pruned lists of outputs *)

Lemma drop_null_app_null k l : drop_null (replicate k TxOut_null ++ l) = drop_null l.
Proof. induction k; [done|]. done. Qed.
Lemma rev_replicate {A} k (x : A) : rev (replicate k x) = replicate k x.
Proof. induction k as [|k IH]; [done|]. rewrite replicate_S_end at 2. cbn [replicate rev]. by rewrite IH. Qed.
Lemma Cleanup_vout_pad v k : Cleanup_vout (v ++ replicate k TxOut_null) = Cleanup_vout v.
Proof. unfold Cleanup_vout. by rewrite rev_app_distr, rev_replicate, drop_null_app_null. Qed.
(** A list is clean when it does not end in a spent output. *)
Definition clean (v : list CTxOut) : Prop := v = [] \/ unspent v (length v - 1) = true.
Lemma clean_last v o : clean (v ++ [o]) <-> TxOut_IsNull o = false.
Proof.
  unfold clean, unspent. rewrite length_app, Nat.add_sub, app_nth2, Nat.sub_diag by lia. cbn. split.
  - intros [H|H]; [by destruct v|]. by apply negb_true_iff in H.
  - intros ->. by right.
Qed.
Lemma Cleanup_vout_clean v : clean (Cleanup_vout v) /\ exists k, exists nulls, v = Cleanup_vout v ++ nulls /\ length nulls = k /\
  forallb TxOut_IsNull nulls = true.
Proof.
  induction v as [|o v IH] using rev_ind; [split; [by left|by exists 0%nat, []]|].
  unfold Cleanup_vout. rewrite rev_app_distr. cbn [rev app drop_null]. destruct (TxOut_IsNull o) eqn:E.
  - destruct IH as [IH (k & nulls & Hv & Hk & Hn)]. split; [exact IH|]. exists (S k), (nulls ++ [o]).
    rewrite app_assoc, length_app, forallb_app, Hn. cbn [length forallb]. rewrite E. fold (Cleanup_vout v). rewrite <- Hv. auto with lia.
  - cbn [rev]. rewrite rev_involutive. split; [by apply clean_last|]. exists 0%nat, []. by rewrite app_nil_r.
Qed.
Lemma Cleanup_vout_id v : clean v -> Cleanup_vout v = v.
Proof.
  destruct v as [|o v _] using rev_ind; [done|]. rewrite clean_last. intros H. unfold Cleanup_vout.
  rewrite rev_app_distr. cbn [rev app drop_null]. rewrite H. cbn [rev]. by rewrite rev_involutive.
Qed.
Lemma Cleanup_idem c : Cleanup (Cleanup c) = Cleanup c.
Proof. unfold Cleanup, set_vout. cbn. f_equal. apply Cleanup_vout_id, Cleanup_vout_clean. Qed.
Lemma pruned_clean c : clean (c_vout c) -> IsPruned c = true -> c_vout c = [].
Proof.
  unfold IsPruned. destruct (c_vout c) as [|o v _] using rev_ind; [done|]. rewrite clean_last, forallb_app. cbn. intros ->.
  by rewrite andb_false_r.
Qed.
Lemma pruned_Cleanup c : IsPruned (Cleanup c) = IsPruned c.
Proof.
  unfold IsPruned, Cleanup, set_vout. cbn. destruct (Cleanup_vout_clean (c_vout c)) as [_ (k & nulls & H & _ & Hn)].
  rewrite H at 2. by rewrite forallb_app, Hn, andb_true_r.
Qed.

(** ** The bitmask *)

Definition bits_upto (v : list CTxOut) (b k : nat) (ch : Z) : Prop :=
  0 <= ch < 2 ^ 8 /\ forall p, 0 <= p < 8 -> Z.testbit ch p = (p <? Z.of_nat k) && unspent v (2 + b * 8 + Z.to_nat p).
Lemma bits_upto_S v b i ch : (i < 8)%nat -> bits_upto v b i ch ->
  bits_upto v b (S i) (if unspent v (2 + b * 8 + i) then Z.lor ch (Z.shiftl 1 (Z.of_nat i)) else ch).
Proof.
  intros Hi [Hr Hb].
  assert (Hother : forall p, p <> Z.of_nat i -> (p <? Z.of_nat i) = (p <? Z.of_nat (S i))).
  { intros p Hp. destruct (Z.ltb_spec p (Z.of_nat i)), (Z.ltb_spec p (Z.of_nat (S i))); (done || lia). }
  destruct (unspent v (2 + b * 8 + i)) eqn:E.
  - rewrite Z.shiftl_mul_pow2, Z.mul_1_l by lia. split.
    + apply lor_bound; [lia|done|]. split; [lia|]. apply Z.pow_lt_mono_r; lia.
    + intros p Hp. rewrite Z.lor_spec, Hb, Z.pow2_bits_eqb by lia. destruct (Z.eqb_spec (Z.of_nat i) p) as [<-|].
      * rewrite Nat2Z.id, E, !andb_true_r, orb_true_r. symmetry. apply Z.ltb_lt. lia.
      * rewrite orb_false_r, Hother by done. done.
  - split; [done|]. intros p Hp. rewrite Hb by done. destruct (Z.eqb_spec (Z.of_nat i) p) as [<-|].
    + by rewrite Nat2Z.id, E, !andb_false_r.
    + by rewrite Hother by done.
Qed.
Lemma chAvail_bits v b : 0 <= chAvail v b < 256 /\ forall p, 0 <= p < 8 -> Z.testbit (chAvail v b) p = unspent v (2 + b * 8 + Z.to_nat p).
Proof.
  assert (bits_upto v b 8 (chAvail v b)) as [Hr Hb].
  { apply (for_range_ind (bits_upto v b)); [|intros i ch Hi; by apply bits_upto_S].
    split; [lia|]. intros p Hp. rewrite Z.bits_0. destruct (Z.ltb_spec p (Z.of_nat 0)); [lia|done]. }
  split; [exact Hr|]. intros p Hp. rewrite Hb by done. destruct (Z.ltb_spec p (Z.of_nat 8)); [done|lia].
Qed.
Lemma byte_bits_chAvail v b : byte_bits (chAvail v b) = map (fun p => unspent v (2 + b * 8 + p)) (seq 0 8).
Proof.
  unfold byte_bits. apply map_ext_in. intros p Hp%in_seq. rewrite Z.shiftl_mul_pow2, Z.mul_1_l by lia.
  rewrite land_pow2_eqb, negb_involutive by lia. rewrite (proj2 (chAvail_bits v b)) by lia. by rewrite Nat2Z.id.
Qed.
Lemma chAvail_zero v b : (chAvail v b =? 0) = byte_zero v b.
Proof.
  destruct (chAvail_bits v b) as [Hr Hb]. apply eq_bool_prop_intro. rewrite !Is_true_true, Z.eqb_eq. unfold byte_zero. rewrite forallb_forall. split.
  - intros H0 i Hi%in_seq. rewrite <- (Nat2Z.id i), <- Hb by lia. by rewrite H0, Z.bits_0.
  - intros H0. apply Z.bits_inj'. intros p Hp. rewrite Z.bits_0. destruct (Z.lt_ge_cases p 8).
    + rewrite Hb by lia. apply negb_true_iff, H0, in_seq. lia.
    + apply (testbit_high _ 8); lia.
Qed.

Fixpoint count_nz (l : list Z) : Z := match l with [] => 0 | ch :: l => if ch =? 0 then count_nz l else count_nz l + 1 end.
Lemma count_nz_app l r : count_nz (l ++ r) = count_nz l + count_nz r.
Proof. induction l as [|ch l IH]; [done|]. cbn [app count_nz]. rewrite IH. destruct (ch =? 0); lia. Qed.
Lemma count_nz_bound l : 0 <= count_nz l <= Z.of_nat (length l).
Proof. induction l as [|ch l IH]; [done|]. cbn [count_nz length]. destruct (ch =? 0); lia. Qed.
Lemma mask_last v : clean v -> (2 < length v)%nat ->
  exists b, mask_bytes v = S b /\ byte_zero v b = false.
Proof.
  intros [->|Hu] Hl; [cbn in Hl; lia|]. unfold mask_bytes. exists ((length v + 5) / 8 - 1)%nat.
  assert (1 <= (length v + 5) / 8)%nat by (apply Nat.div_le_lower_bound; lia). split; [lia|].
  set (b := ((length v + 5) / 8 - 1)%nat). pose proof (Nat.div_mod (length v + 5) 8 ltac:(lia)). pose proof (Nat.mod_upper_bound (length v + 5) 8 ltac:(lia)).
  apply not_true_iff_false. intros H'. unfold byte_zero in H'. rewrite forallb_forall in H'.
  specialize (H' (length v - 1 - (2 + b * 8))%nat). rewrite negb_true_iff in H'.
  replace (2 + b * 8 + (length v - 1 - (2 + b * 8)))%nat with (length v - 1)%nat in H' by lia.
  rewrite Hu in H'. discriminate H'. apply in_seq. lia.
Qed.
Lemma CalcMaskSize_clean v : clean v ->
  CalcMaskSize v = (mask_bytes v, count_nz (map (chAvail v) (seq 0 (mask_bytes v)))).
Proof.
  intros Hc.
  assert (Hcount : forall k, snd (for_range k (fun '(l, n) b => if byte_zero v b then (l, n) else (S b, n + 1)) (0%nat, 0)) =
    count_nz (map (chAvail v) (seq 0 k))).
  { induction k as [|k IH]; [done|]. rewrite for_range_S, seq_S, map_app, count_nz_app, <- IH. cbn [map count_nz Nat.add].
    rewrite chAvail_zero. destruct (for_range _ _ _) as [l n]. cbn [snd]. destruct (byte_zero v k); cbn [snd]; lia. }
  unfold CalcMaskSize. rewrite <- Hcount. rewrite (surjective_pairing (for_range _ _ _)) at 1. f_equal.
  destruct (le_lt_dec (length v) 2) as [Hl|Hl].
  - assert (mask_bytes v = 0%nat) as ->; [|done]. unfold mask_bytes. apply Nat.div_small. lia.
  - destruct (mask_last v Hc Hl) as (b & -> & Hb). rewrite for_range_S. destruct (for_range _ _ _) as [l n]. by rewrite Hb.
Qed.

Lemma read_mask_spec fuel l rest : (length l <= fuel)%nat -> Forall (fun ch => 0 <= ch < 256) l -> (l = [] \/ List.last l 0 <> 0) ->
  read_mask fuel (count_nz l) (l ++ rest) = inr (concat (map byte_bits l), rest).
Proof.
  revert l. induction fuel as [|fuel IH]; intros [|ch l] Hf Hb Hl; cbn [length] in Hf; try done; try lia.
  apply Forall_cons_iff in Hb as [Hch Hb]. destruct Hl as [|Hl]; [done|].
  assert (Hl' : l = [] \/ List.last l 0 <> 0) by (destruct l; [by left|by right]).
  assert (Hnz : count_nz (ch :: l) <> 0).
  { cbn [count_nz]. pose proof (count_nz_bound l). destruct (Z.eqb_spec ch 0) as [->|]; [|lia].
    destruct Hl' as [->|Hl']; [done|]. clear -Hl'. induction l as [|x l IHl]; [done|]. cbn [count_nz].
    pose proof (count_nz_bound l). destruct (Z.eqb_spec x 0) as [->|]; [|lia]. apply IHl. by destruct l. }
  cbn [read_mask]. rewrite (proj2 (Z.eqb_neq _ _) Hnz).
  assert (Hw : (ch :: l) ++ rest = write_int 1 ch ++ l ++ rest).
  { unfold write_int. cbn [le_bytes app]. by rewrite u8_small by exact Hch. }
  rewrite Hw. erewrite bind_eq by (apply read_uint_write; exact Hch).
  assert (read_mask fuel (if ch =? 0 then count_nz (ch :: l) else count_nz (ch :: l) - 1) (l ++ rest) = inr (concat (map byte_bits l), rest)) as Hr.
  { rewrite <- (IH l) by (done || lia). f_equal. cbn [count_nz]. destruct (ch =? 0); lia. }
  by erewrite bind_eq by exact Hr.
Qed.

(** ** Outputs *)

Section outputs.
Context `{PubKeyLaws}.
Definition compressible (o : CTxOut) : Prop :=
  0 <= nValue o <= MAX_COMPRESSIBLE /\ size (scriptPubKey o) + nSpecialScripts < 2 ^ 32 /\ nRounds o = -10.
Definition out_ok (o : CTxOut) : Prop := if TxOut_IsNull o then o = TxOut_null else compressible o.

Lemma compressed_roundtrip o rest : compressible o ->
  exists b, Serialize_compressed o = Some b /\ Unserialize_compressed (b ++ rest) = inr (o, rest).
Proof.
  intros (Hv & Hs & Hr). unfold Serialize_compressed. rewrite u64_small by (unfold MAX_COMPRESSIBLE in Hv; lia).
  destruct (amount_roundtrip (nValue o) Hv) as (x & -> & Hx & Hd). cbn [mbind option_bind]. eexists. split; [done|].
  unfold Unserialize_compressed. rewrite <- app_assoc. erewrite bind_eq by (apply (ReadVarInt_WriteVarInt 64); lia).
  erewrite bind_eq by by apply script_roundtrip. rewrite Hd, i64_small by (unfold MAX_COMPRESSIBLE in Hv; lia).
  rewrite <- Hr. by destruct o.
Qed.
Lemma read_outs_spec v rest : Forall out_ok v ->
  exists b, serialize_outs v = Some b /\ read_outs (map (fun o => negb (TxOut_IsNull o)) v) (b ++ rest) = inr (v, rest).
Proof.
  induction 1 as [|o v Ho Hv IH]; [by exists []|]. destruct IH as (b & Hb & Hr). cbn [serialize_outs foldr map read_outs].
  fold (serialize_outs v). unfold out_ok in Ho. destruct (TxOut_IsNull o) eqn:E; cbn [negb].
  - exists b. split; [done|]. subst o. rewrite (bind_eq (mret TxOut_null) _ _ TxOut_null _ eq_refl). by erewrite bind_eq by exact Hr.
  - destruct (compressed_roundtrip o (b ++ rest) Ho) as (b' & Hb' & Hr'). exists (b' ++ b). rewrite Hb', Hb. split; [done|].
    rewrite <- app_assoc. erewrite bind_eq by exact Hr'. by erewrite bind_eq by exact Hr.
Qed.
Lemma serialize_outs_pad v k : serialize_outs (v ++ replicate k TxOut_null) = serialize_outs v.
Proof.
  unfold serialize_outs. rewrite foldr_app. f_equal. induction k as [|k IH]; [done|]. cbn [replicate foldr]. by rewrite IH.
Qed.
(** The availability bits of a padded list of outputs. *)
Lemma avail_bits v M : (length v <= 2 + M * 8)%nat ->
  [unspent v 0; unspent v 1] ++ concat (map byte_bits (map (chAvail v) (seq 0 M))) =
  map (fun o => negb (TxOut_IsNull o)) (v ++ replicate (2 + M * 8 - length v) TxOut_null).
Proof.
  intros Hl. trans (map (unspent v) (seq 0 (2 + M * 8))).
  - rewrite seq_app, map_app. f_equal. cbn [Nat.add]. clear Hl. induction M as [|M IH]; [done|].
    rewrite seq_S, !map_app, concat_app, IH. replace (S M * 8)%nat with (M * 8 + 8)%nat by lia. rewrite seq_app, map_app.
    f_equal. cbn [map concat]. rewrite app_nil_r, byte_bits_chAvail. cbn [Nat.add seq map]. repeat (f_equal; try lia).
  - apply list_eq. intros i. rewrite !list_lookup_fmap. destruct (le_lt_dec (2 + M * 8) i) as [Hi|Hi].
    + rewrite lookup_seq_ge by done. rewrite lookup_ge_None_2; [done|]. rewrite length_app, length_replicate. lia.
    + rewrite lookup_seq_lt by done. cbn [fmap option_fmap option_map Nat.add]. unfold unspent. symmetry.
      destruct (le_lt_dec (length v) i) as [Hv|Hv].
      * rewrite lookup_app_r, lookup_replicate_2 by lia. by rewrite nth_overflow by done.
      * rewrite lookup_app_l by done. destruct (lookup_lt_is_Some_2 v i Hv) as [o Ho]. rewrite Ho. by rewrite (nth_lookup_some _ _ _ _ Ho).
Qed.

(** ** Round trip *)

Lemma land_low x j n : 0 <= n -> 0 <= j < 2 ^ n -> Z.land x j = Z.land (x mod 2 ^ n) j.
Proof.
  intros Hn Hj. apply Z.bits_inj'. intros i Hi. rewrite !Z.land_spec. destruct (Z.lt_ge_cases i n).
  - by rewrite Z.mod_pow2_bits_low by lia.
  - rewrite (testbit_high j n i) by lia. by rewrite !andb_false_r.
Qed.
Lemma code_bits k cb cs f g : 0 <= k -> let code := 16 * k + b2z cb 1 + b2z cs 2 + b2z f 4 + b2z g 8 in
  code / 16 = k /\ negb (Z.land code 1 =? 0) = cb /\ negb (Z.land code 2 =? 0) = cs /\ negb (Z.land code 4 =? 0) = f /\
  negb (Z.land code 8 =? 0) = g /\ (Z.land code 12 =? 0) = negb (f || g).
Proof.
  intros Hk code. set (m := b2z cb 1 + b2z cs 2 + b2z f 4 + b2z g 8).
  assert (code = m + k * 16) as -> by (subst code m; lia).
  assert (0 <= m < 16) as Hm by (subst m; destruct cb, cs, f, g; cbn; lia).
  split; [rewrite Z.div_add, Z.div_small by lia; lia|].
  assert (Hland : forall j, 0 <= j < 2 ^ 4 -> Z.land (m + k * 16) j = Z.land m j).
  { intros j Hj. rewrite (land_low _ j 4) by lia. change (2 ^ 4) with 16. by rewrite Z.mod_add, Z.mod_small by lia. }
  rewrite !Hland by lia. subst m. by destruct cb, cs, f, g.
Qed.
Lemma undo_bits h cb cs : 0 <= h -> let code := h * 4 + b2z cb 2 + b2z cs 1 in
  Z.shiftr code 2 = h /\ negb (Z.land code 2 =? 0) = cb /\ negb (Z.land code 1 =? 0) = cs.
Proof.
  intros Hh code. set (m := b2z cb 2 + b2z cs 1). assert (code = m + h * 4) as -> by (subst code m; lia).
  assert (0 <= m < 4) as Hm by (subst m; destruct cb, cs; cbn; lia).
  split; [rewrite Z.shiftr_div_pow2 by lia; change (2 ^ 2) with 4; rewrite Z.div_add, Z.div_small by lia; lia|].
  rewrite !(land_low (m + h * 4) _ 2) by lia. change (2 ^ 2) with 4. rewrite Z.mod_add, Z.mod_small by lia.
  subst m. by destruct cb, cs.
Qed.

Definition coins_ok (c : CCoins) : Prop :=
  Forall out_ok (c_vout c) /\ clean (c_vout c) /\ c_vout c <> [] /\ Z.of_nat (length (c_vout c)) <= MAX_SIZE /\
  0 <= nHeight c < 2 ^ 31 /\ 0 <= c_nVersion c < 2 ^ 31.

Lemma first_unspent v : fFirst v = unspent v 0.
Proof. unfold fFirst. by destruct v. Qed.
Lemma second_unspent v : fSecond v = unspent v 1.
Proof. unfold fSecond. by destruct v as [|? [|]]. Qed.

Lemma something_unspent v : clean v -> v <> [] -> fFirst v || fSecond v = true \/ 0 < count_nz (map (chAvail v) (seq 0 (mask_bytes v))).
Proof.
  intros Hc Hne. destruct (le_lt_dec (length v) 2) as [Hl|Hl].
  - left. destruct Hc as [->|Hu]; [done|]. rewrite first_unspent, second_unspent.
    destruct v as [|a [|b [|]]]; cbn [length Nat.sub] in *; try done; try lia; rewrite Hu; [done|by rewrite orb_true_r].
  - right. destruct (mask_last v Hc Hl) as (b & -> & Hb). rewrite seq_S, map_app, count_nz_app. cbn [map count_nz Nat.add].
    rewrite chAvail_zero, Hb. pose proof (count_nz_bound (map (chAvail v) (seq 0 b))). lia.
Qed.
Lemma nCode_clean c : coins_ok c ->
  let v := c_vout c in
  let count := count_nz (map (chAvail v) (seq 0 (mask_bytes v))) in
  let k := count - (if fFirst v || fSecond v then 0 else 1) in
  0 <= k /\ fFirst v || fSecond v || negb (count =? 0) = true /\
  nCode 16 c = 16 * k + b2z (fCoinBase c) 1 + b2z (fCoinStake c) 2 + b2z (fFirst v) 4 + b2z (fSecond v) 8 /\
  0 <= nCode 16 c < 2 ^ 32.
Proof.
  intros (_ & Hc & Hne & Hlen & _) v count k. fold v in Hc, Hne, Hlen.
  pose proof (count_nz_bound (map (chAvail v) (seq 0 (mask_bytes v)))) as Hb. fold count in Hb. rewrite length_map, length_seq in Hb.
  assert (Z.of_nat (mask_bytes v) * 8 <= Z.of_nat (length v) + 5).
  { unfold mask_bytes. pose proof (Nat.div_mod (length v + 5) 8 ltac:(lia)). lia. }
  unfold MAX_SIZE in Hlen.
  assert (0 <= k <= count) as Hk.
  { subst k. destruct (something_unspent v Hc Hne) as [E|E]; [rewrite E; lia|fold count in E]. destruct (_ || _); lia. }
  split; [lia|split].
  - destruct (something_unspent v Hc Hne) as [-> | E]; [done|fold count in E]. destruct (Z.eqb_spec count 0); [lia|]. by rewrite orb_true_r.
  - unfold nCode. fold v. rewrite CalcMaskSize_clean by done. cbn [snd]. fold count k. rewrite u32_small; [split; [done|]|];
      destruct (fCoinBase c), (fCoinStake c), (fFirst v), (fSecond v); cbn [b2z]; lia.
Qed.
Lemma mask_ends v : clean v -> let mask := map (chAvail v) (seq 0 (mask_bytes v)) in mask = [] \/ List.last mask 0 <> 0.
Proof.
  intros Hc mask. destruct (le_lt_dec (length v) 2) as [Hl|Hl].
  - left. subst mask. unfold mask_bytes. by rewrite Nat.div_small by lia.
  - right. subst mask. destruct (mask_last v Hc Hl) as (b & -> & Hb). rewrite seq_S, map_app. cbn [map Nat.add]. rewrite last_last.
    by apply Z.eqb_neq; rewrite chAvail_zero.
Qed.
Lemma read_back_coins c rest : coins_ok c ->
  exists b, Serialize_coins c = Some b /\ Unserialize_coins (b ++ rest) = inr (c, rest).
Proof.
  intros Hok. pose proof (nCode_clean c Hok) as Hcode. destruct Hok as (Ho & Hc & Hne & Hlen & Hh & Hv).
  unfold Serialize_coins. rewrite CalcMaskSize_clean by done. cbv beta iota zeta. set (v := c_vout c) in *. set (M := mask_bytes v) in *.
  pose proof (mask_ends v Hc) as Hlast. fold M in Hlast.
  set (mask := map (chAvail v) (seq 0 M)) in *. cbv zeta in Hcode, Hlast. set (count := count_nz mask) in *.
  fold M in Hcode. fold mask in Hcode. fold count in Hcode.
  destruct Hcode as (Hk & -> & Hcode & Hr). cbn [negb].
  set (code := nCode 16 c) in *.
  assert (HM : (length v <= 2 + M * 8)%nat).
  { unfold M, mask_bytes. pose proof (Nat.div_mod (length v + 5) 8 ltac:(lia)). pose proof (Nat.mod_upper_bound (length v + 5) 8 ltac:(lia)). lia. }
  set (pad := replicate (2 + M * 8 - length v) TxOut_null).
  destruct (read_outs_spec (v ++ pad) (WriteVarInt 32 (nHeight c) ++ rest)) as (outs & Hs & Hread).
  { apply Forall_app. split; [done|]. by apply Forall_replicate. }
  unfold pad in Hs. rewrite serialize_outs_pad in Hs. rewrite Hs. cbn [mbind option_bind]. eexists. split; [done|].
  rewrite <- !app_assoc. unfold Unserialize_coins.
  erewrite bind_eq by (apply (ReadVarInt_WriteVarInt 32); lia). erewrite bind_eq by (apply (ReadVarInt_WriteVarInt 32); lia).
  cbv zeta. destruct (code_bits _ (fCoinBase c) (fCoinStake c) (fFirst v) (fSecond v) Hk) as (B0 & B1 & B2 & B3 & B4 & B5).
  rewrite <- Hcode in B0, B1, B2, B3, B4, B5. rewrite B0, B1, B2, B3, B4, B5.
  replace (_ + (if negb _ then 1 else 0)) with count by (destruct (fFirst v || fSecond v); cbn [negb]; lia).
  erewrite bind_eq.
  2:{ apply read_mask_spec; [|apply Forall_map, Forall_forall; intros b _; apply chAvail_bits|exact Hlast].
      rewrite !length_app. unfold mask. lia. }
  rewrite first_unspent, second_unspent. unfold mask. rewrite avail_bits by done. fold pad.
  erewrite bind_eq by exact Hread. erewrite bind_eq by (apply (ReadVarInt_WriteVarInt 32); lia).
  unfold mret, reader_ret, Cleanup, set_vout. cbn [fCoinBase fCoinStake c_vout nHeight c_nVersion].
  unfold pad. rewrite Cleanup_vout_pad, Cleanup_vout_id by done. rewrite !i32_small by lia. by destruct c.
Qed.

Definition undo_ok (u : CTxInUndo) : Prop :=
  compressible (txout u) /\ 0 <= u_nHeight u < 2 ^ 30 /\ 0 <= u_nVersion u < 2 ^ 31 /\ (u_nHeight u = 0 -> u_nVersion u = 0).
Lemma read_back_undo u rest : undo_ok u ->
  exists b, Serialize_undo u = Some b /\ Unserialize_undo (b ++ rest) = inr (u, rest).
Proof.
  intros (Ho & Hh & Hv & Hz). unfold Serialize_undo. destruct (compressed_roundtrip (txout u) rest Ho) as (b & -> & Hr).
  cbn [mbind option_bind]. eexists. split; [done|]. unfold Unserialize_undo, undo_code. rewrite <- !app_assoc.
  rewrite u32_small by (destruct (u_fCoinBase u), (u_fCoinStake u); cbn [b2z]; lia).
  erewrite bind_eq by (apply (ReadVarInt_WriteVarInt 32); [lia|destruct (u_fCoinBase u), (u_fCoinStake u); cbn [b2z]; lia]).
  cbv zeta. destruct (undo_bits (u_nHeight u) (u_fCoinBase u) (u_fCoinStake u) ltac:(lia)) as (-> & -> & ->).
  destruct (Z.ltb_spec 0 (u_nHeight u)).
  - erewrite bind_eq by (apply (ReadVarInt_WriteVarInt 32); lia). erewrite bind_eq by exact Hr. rewrite i32_small by lia. by destruct u.
  - rewrite (bind_eq (mret 0) _ _ 0 _ eq_refl). cbn [app]. erewrite bind_eq by exact Hr. rewrite (i32_small 0) by lia.
    rewrite <- Hz by lia. by destruct u.
Qed.
End outputs.

(** Concrete outputs are well-formed. *)
Ltac outs_check :=
  repeat match goal with
  | |- Forall _ (_ ++ _) => apply Forall_app; split
  | |- Forall _ (replicate _ _) => apply Forall_replicate
  | |- Forall _ (_ :: _) => apply Forall_cons_iff; split
  | |- Forall _ [] => constructor
  | |- out_ok _ => unfold out_ok
  | |- if ?b then _ else _ => let v := eval vm_compute in b in change b with v; cbv iota
  | |- compressible _ => split; [split; apply Z.leb_le; reflexivity|split; [apply Z.ltb_lt; reflexivity|reflexivity]]
  | |- _ = _ => reflexivity
  end.

Section database.
Context `{PubKeyLaws}.
(** Seventy-four outputs of which the first two are spent: nine bytes of bitmask. *)
Definition wide_coins : CCoins :=
  mkCoins false false ([TxOut_null; TxOut_null] ++ replicate 72 (mkTxOut COIN [81] (-10))) 1000 1.
(** C28: the coin database gives back what it was given.  The unspent outputs of a
    transaction (something unspent, nothing spent at the end; heights and versions not
    negative; amounts within the range the compact form covers) and the undo record of an
    input (heights below 2^30) are written, without tripping an assertion, to bytes that are
    read back as the same value, whatever follows: bitmask, compact amounts, and standard
    scripts reduced to a hash or a key, the full key being recovered by the curve library.
    But the size announced for the outputs is computed with another unit in the header code
    and can fall short of what is written. *)
Theorem coins_database_roundtrip :
  (forall c rest, coins_ok c -> exists b, Serialize_coins c = Some b /\ Unserialize_coins (b ++ rest) = inr (c, rest)) /\
  (forall u rest, undo_ok u -> exists b, Serialize_undo u = Some b /\ Unserialize_undo (b ++ rest) = inr (u, rest)) /\
  (coins_ok wide_coins /\ exists b n, Serialize_coins wide_coins = Some b /\ GetSerializeSize_coins wide_coins = Some n /\
    n = Z.of_nat (length b) - 1).
Proof.
  split; [apply read_back_coins|split; [apply read_back_undo|]]. split.
  - unfold coins_ok, clean, wide_coins. cbn [c_vout nHeight c_nVersion]. split_and!; try done.
    + outs_check.
    + by right.
  - destruct (Serialize_coins wide_coins) as [b|] eqn:E; [|by vm_compute in E]. exists b, (Z.of_nat (length b) - 1).
    split; [done|split; [|done]]. vm_compute in E. injection E as <-. by vm_compute.
Qed.
End database.

(** A curve with one key, for the witness. *)
Definition toy_key : valtype := 4 :: replicate 63 7 ++ [1].
#[local] Instance toy_ops : PubKeyOps := {
  IsFullyValid := fun k => bool_decide (k = toy_key);
  Decompress_key := fun k => if bool_decide (k = 3 :: replicate 32 7) then Some toy_key else None
}.
#[local] Instance toy_laws : PubKeyLaws.
Proof. constructor. intros k _ _ Hv. apply bool_decide_eq_true in Hv as ->. by vm_compute. Qed.
Definition sample_coins : CCoins :=
  mkCoins false true [mkTxOut (5 * COIN) ([65] ++ toy_key ++ [OP_CHECKSIG]) (-10); TxOut_null; mkTxOut 12345 [81; 82] (-10)] 200000 1.
Lemma coins_database_roundtrip_witness :
  coins_ok sample_coins /\ exists b, Serialize_coins sample_coins = Some b /\ Unserialize_coins (b ++ [9]) = inr (sample_coins, [9]) /\
    length b = 46%nat.
Proof.
  assert (H : coins_ok sample_coins).
  { unfold coins_ok, clean, sample_coins. cbn [c_vout nHeight c_nVersion]. split_and!; try done; [outs_check|by right]. }
  split; [exact H|]. destruct (proj1 coins_database_roundtrip sample_coins [9] H) as (b & Hb & Hr). exists b. split; [exact Hb|split; [exact Hr|]].
  vm_compute in Hb. by injection Hb as <-.
Defined.
