(* ===== verification/CoinsView.v ===== *)
(** Views of the unspent outputs ([src/src/coins.h], [coins.cpp], [src/src/txdb.cpp]): the
    class [CCoinsView], the database, and the write-back cache over any view.  [CCoinsViewLaws]
    is the contract of a view; the cache is proved to keep it on any base that keeps it, so
    caches stack. *)
From S2P Require Import Prelude Serialize Stream Hashers Script Merkle Transaction SigHash Compressor Coins.

(** [flags], bit by bit. *)
Record CCoinsCacheEntry := mkEntry { coins : CCoins; DIRTY : bool; FRESH : bool }.
Abbreviation CCoinsMap := (gmap hash256 CCoinsCacheEntry).

(** The virtual functions of [CCoinsView]; a view may fill a cache when it is read.  [None]
    is an assertion that fails. *)
Class CCoinsView (S : Type) := {
  GetCoins : hash256 -> S -> option CCoins * S;
  HaveCoins : hash256 -> S -> bool * S;
  GetBestBlock : S -> hash256 * S;
  BatchWrite : CCoinsMap -> hash256 -> S -> option (bool * S)
}.

(** The class's own bodies: an empty view. *)
#[export] Instance CCoinsView_base : CCoinsView unit := {
  GetCoins := fun _ s => (None, s);
  HaveCoins := fun _ s => (false, s);
  GetBestBlock := fun s => (hash_zero, s);
  BatchWrite := fun _ _ s => Some (false, s)
}.

(** ** The database: a dictionary of coins and the best block *)

Record CCoinsViewDB := mkDB { db_coins : gmap hash256 CCoins; db_best : option hash256 }.
Definition BatchWriteCoins (m : gmap hash256 CCoins) (hash : hash256) (c : CCoins) : gmap hash256 CCoins :=
  if IsPruned c then delete hash m else <[hash := c]> m.
Definition db_BatchWrite (m : CCoinsMap) (hashBlock : hash256) (d : CCoinsViewDB) : CCoinsViewDB :=
  mkDB (foldl (fun db '(h, e) => if DIRTY e then BatchWriteCoins db h (coins e) else db) (db_coins d) (map_to_list m))
    (if bool_decide (hashBlock = hash_zero) then db_best d else Some hashBlock).
#[export] Instance CCoinsViewDB_view : CCoinsView CCoinsViewDB := {
  GetCoins := fun txid d => (db_coins d !! txid, d);
  HaveCoins := fun txid d => (bool_decide (is_Some (db_coins d !! txid)), d);
  GetBestBlock := fun d => (default hash_zero (db_best d), d);
  BatchWrite := fun m h d => Some (true, db_BatchWrite m h d)
}.

(** ** The cache *)

Record CCoinsViewCache (S : Type) := mkCache {
  base : S;
  hasModifier : bool;
  hashBlock : hash256;
  cacheCoins : CCoinsMap
}.
Arguments mkCache {S} _ _ _ _.
Arguments base {S} _.
Arguments hasModifier {S} _.
Arguments hashBlock {S} _.
Arguments cacheCoins {S} _.

Section cache.
Context {S : Type} `{CCoinsView S}.
Implicit Types c : CCoinsViewCache S.

Definition new_cache (b : S) : CCoinsViewCache S := mkCache b false hash_zero ∅.
Definition set_base c (b : S) : CCoinsViewCache S := mkCache b (hasModifier c) (hashBlock c) (cacheCoins c).
Definition set_cacheCoins c (m : CCoinsMap) : CCoinsViewCache S := mkCache (base c) (hasModifier c) (hashBlock c) m.

Definition FetchCoins (txid : hash256) c : option CCoinsCacheEntry * CCoinsViewCache S :=
  match cacheCoins c !! txid with
  | Some e => (Some e, c)
  | None =>
      let '(r, b) := GetCoins txid (base c) in
      let c := set_base c b in
      match r with
      | None => (None, c)
      | Some tmp =>
          let e := mkEntry tmp false (IsPruned tmp) in
          (Some e, set_cacheCoins c (<[txid := e]> (cacheCoins c)))
      end
  end.
Definition AccessCoins (txid : hash256) c : option CCoins * CCoinsViewCache S :=
  let '(e, c) := FetchCoins txid c in (coins <$> e, c).
Definition cache_HaveCoins (txid : hash256) c : bool * CCoinsViewCache S :=
  let '(e, c) := FetchCoins txid c in
  (match e with Some e => negb (Nat.eqb (length (c_vout (coins e))) 0) | None => false end, c).
Definition cache_GetBestBlock c : hash256 * CCoinsViewCache S :=
  if bool_decide (hashBlock c = hash_zero) then
    let '(h, b) := GetBestBlock (base c) in (h, mkCache b (hasModifier c) h (cacheCoins c))
  else (hashBlock c, c).
Definition SetBestBlock (h : hash256) c : CCoinsViewCache S := mkCache (base c) (hasModifier c) h (cacheCoins c).

(** [ModifyCoins] hands out a reference to the entry; there is one at a time. *)
Definition ModifyCoins (txid : hash256) c : option (CCoins * CCoinsViewCache S) :=
  if hasModifier c then None else
  let '(e, b) :=
    match cacheCoins c !! txid with
    | Some e => (e, base c)
    | None =>
        let '(r, b) := GetCoins txid (base c) in
        (match r with None => mkEntry CCoins_empty false true | Some tmp => mkEntry tmp false (IsPruned tmp) end, b)
    end in
  Some (coins e, mkCache b true (hashBlock c) (<[txid := mkEntry (coins e) true (FRESH e)]> (cacheCoins c))).
(** The end of the reference, with the coins it left: [~CCoinsModifier]. *)
Definition modifier_end (txid : hash256) (left : CCoins) c : option (CCoinsViewCache S) :=
  if negb (hasModifier c) then None else
  match cacheCoins c !! txid with
  | None => None
  | Some e =>
      let e := mkEntry (Cleanup left) (DIRTY e) (FRESH e) in
      Some (mkCache (base c) false (hashBlock c)
        (if FRESH e && IsPruned (coins e) then delete txid (cacheCoins c) else <[txid := e]> (cacheCoins c)))
  end.
(** [f] on the coins of [txid] through such a reference. *)
Definition with_coins {A} (txid : hash256) (f : CCoins -> option (A * CCoins)) c : option (A * CCoinsViewCache S) :=
  '(old, c) ← ModifyCoins txid c;
  '(a, new) ← f old;
  c ← modifier_end txid new c;
  Some (a, c).

(** One entry of a child against ours; the outer [None] is the assertion. *)
Definition batch_one (e : CCoinsCacheEntry) (us : option CCoinsCacheEntry) : option (option CCoinsCacheEntry) :=
  if negb (DIRTY e) then Some us else
  match us with
  | None =>
      if negb (IsPruned (coins e)) then
        if FRESH e then Some (Some (mkEntry (coins e) true true)) else None
      else Some None
  | Some us =>
      if FRESH us && IsPruned (coins e) then Some None
      else Some (Some (mkEntry (coins e) true (FRESH us)))
  end.
Fixpoint batch_loop (l : list (hash256 * CCoinsCacheEntry)) (m : CCoinsMap) : option CCoinsMap :=
  match l with
  | [] => Some m
  | (h, e) :: l => r ← batch_one e (m !! h); batch_loop l (partial_alter (fun _ => r) h m)
  end.
Definition cache_BatchWrite (m : CCoinsMap) (hashBlockIn : hash256) c : option (bool * CCoinsViewCache S) :=
  if hasModifier c then None else
  m' ← batch_loop (map_to_list m) (cacheCoins c);
  Some (true, mkCache (base c) (hasModifier c) hashBlockIn m').
Definition Flush c : option (bool * CCoinsViewCache S) :=
  '(fOk, b) ← BatchWrite (cacheCoins c) (hashBlock c) (base c);
  Some (fOk, mkCache b (hasModifier c) (hashBlock c) ∅).
Definition GetCacheSize c : nat := length (map_to_list (cacheCoins c)).

#[export] Instance CCoinsViewCache_view : CCoinsView (CCoinsViewCache S) := {
  GetCoins := AccessCoins;
  HaveCoins := cache_HaveCoins;
  GetBestBlock := cache_GetBestBlock;
  BatchWrite := cache_BatchWrite
}.

(** *** What transactions ask of the cache *)

(** [None]: the output is not available, which the code asserts. *)
Definition GetOutputFor (i : CTxIn) c : option (CTxOut * CCoinsViewCache S) :=
  let '(r, c) := AccessCoins (out_hash (prevout i)) c in
  r ← r;
  if negb (IsAvailable r (out_n (prevout i))) then None
  else Some (nth (Z.to_nat (out_n (prevout i))) (c_vout r) TxOut_null, c).
Fixpoint value_in_loop (l : list CTxIn) (nResult : CAmount) c : option (CAmount * CCoinsViewCache S) :=
  match l with
  | [] => Some (nResult, c)
  | i :: l => '(o, c) ← GetOutputFor i c; value_in_loop l (i64 (nResult + nValue o)) c
  end.
Definition GetValueIn (t : CMutableTransaction) c : option (CAmount * CCoinsViewCache S) :=
  if IsCoinBase t then Some (0, c)
  else if Tx_IsZerocoinSpend t then Some (GetZerocoinSpent t, c)
  else value_in_loop (vin t) 0 c.
Fixpoint have_inputs_loop (l : list CTxIn) c : bool * CCoinsViewCache S :=
  match l with
  | [] => (true, c)
  | i :: l =>
      let '(r, c) := AccessCoins (out_hash (prevout i)) c in
      match r with
      | Some r => if IsAvailable r (out_n (prevout i)) then have_inputs_loop l c else (false, c)
      | None => (false, c)
      end
  end.
Definition HaveInputs (t : CMutableTransaction) c : bool * CCoinsViewCache S :=
  if negb (IsCoinBase t) && negb (Tx_IsZerocoinSpend t) then have_inputs_loop (vin t) c else (true, c).
End cache.

(** ** The contract of a view *)

(** A spent transaction may be recorded or not. *)
Definition gone (o : option CCoins) : Prop := match o with Some c => IsPruned c = true | None => True end.
Definition visible (o : option CCoins) : option CCoins := c ← o; if IsPruned c then None else Some c.
#[export] Instance view_equiv : Equiv (option CCoins) := fun a b => visible a = visible b.
#[export] Instance view_equivalence : Equivalence (≡@{option CCoins}).
Proof. split; [done|by intros a b ?|]. intros a b d H1 H2. unfold equiv, view_equiv in *. congruence. Qed.
#[export] Instance visible_proper : Proper ((≡) ==> eq) visible.
Proof. by intros a b ?. Qed.
Lemma gone_visible o : gone o <-> visible o = None.
Proof. destruct o as [c|]; cbn; [|done]. by destruct (IsPruned c). Qed.
#[export] Instance gone_proper : Proper ((≡) ==> iff) gone.
Proof. intros a b E. by rewrite !gone_visible, E. Qed.
Lemma gone_equiv a b : gone a -> gone b -> a ≡ b.
Proof. unfold equiv, view_equiv. by rewrite !gone_visible; intros -> ->. Qed.

(** What a child holds, laid over what it was read from. *)
Definition overlay (m : CCoinsMap) (v : hash256 -> option CCoins) (k : hash256) : option CCoins :=
  match m !! k with Some e => Some (coins e) | None => v k end.
(** The entries of a child of a view [v]: clean ones repeat it, fresh ones are gone in it,
    and the others the parent itself holds. *)
Definition child_ok (v : hash256 -> option CCoins) (h : hash256 -> Prop) (m : CCoinsMap) : Prop :=
  forall k e, m !! k = Some e ->
    (DIRTY e = false -> v k = Some (coins e)) /\ (FRESH e = true -> gone (v k)) /\ (FRESH e = false -> h k).

Class CCoinsViewLaws (S : Type) `{CCoinsView S} := {
  inv : S -> Prop;
  view : S -> hash256 -> option CCoins;
  holds : S -> hash256 -> Prop;
  get_spec : forall s h, inv s -> exists s', GetCoins h s = (view s h, s') /\ inv s' /\
    (forall k, view s' k = view s k) /\ (forall k, holds s k -> holds s' k) /\ (view s h <> None -> holds s' h);
  batch_spec : forall s m hb, inv s -> child_ok (view s) (holds s) m ->
    exists s', BatchWrite m hb s = Some (true, s') /\ inv s' /\ forall k, view s' k ≡ overlay m (view s) k
}.

(** *** The database *)

Definition db_step (db : gmap hash256 CCoins) (x : hash256 * CCoinsCacheEntry) : gmap hash256 CCoins :=
  let '(h, e) := x in if DIRTY e then BatchWriteCoins db h (coins e) else db.
Lemma BatchWriteCoins_same db k c : BatchWriteCoins db k c !! k = visible (Some c).
Proof. unfold BatchWriteCoins. cbn. destruct (IsPruned c); [apply lookup_delete_eq|apply lookup_insert_eq]. Qed.
Lemma BatchWriteCoins_other db k j c : j <> k -> BatchWriteCoins db k c !! j = db !! j.
Proof. intros Hne. unfold BatchWriteCoins. destruct (IsPruned c); [by apply lookup_delete_ne|by apply lookup_insert_ne]. Qed.
Lemma db_batch_lookup l db : NoDup l.*1 ->
  (forall k, k ∉ l.*1 -> foldl db_step db l !! k = db !! k) /\
  (forall k e, (k, e) ∈ l -> foldl db_step db l !! k = if DIRTY e then visible (Some (coins e)) else db !! k).
Proof.
  revert db. induction l as [|[k0 e0] l IH]; intros db Hnd; [split; [done|set_solver]|].
  cbn [fmap list_fmap fst] in Hnd. apply list.NoDup_cons in Hnd as [Hk0 Hnd]. destruct (IH (db_step db (k0, e0)) Hnd) as [IH1 IH2].
  assert (Hother : forall j, j <> k0 -> db_step db (k0, e0) !! j = db !! j).
  { intros j Hj. cbn. destruct (DIRTY e0); [by apply BatchWriteCoins_other|done]. }
  cbn [foldl]. split.
  - intros k Hk. cbn [fmap list_fmap fst] in Hk. rewrite not_elem_of_cons in Hk. destruct Hk as [Hne Hk]. rewrite IH1, Hother; done.
  - intros k e [[= -> ->]|Hin]%elem_of_cons.
    + rewrite IH1 by done. cbn. destruct (DIRTY e0); [apply BatchWriteCoins_same|done].
    + rewrite (IH2 k e Hin), Hother; [done|]. intros ->. apply Hk0. apply list_elem_of_fmap. by exists (k0, e).
Qed.
#[export] Program Instance CCoinsViewDB_laws : CCoinsViewLaws CCoinsViewDB := {
  inv := fun _ => True;
  view := fun d k => db_coins d !! k;
  holds := fun _ _ => True
}.
Next Obligation. intros d h _. by exists d. Qed.
Next Obligation.
  intros d m hb _ Hm. exists (db_BatchWrite m hb d). split; [done|split; [done|]]. intros k. unfold overlay, db_BatchWrite. cbn [db_coins].
  destruct (db_batch_lookup (map_to_list m) (db_coins d) (NoDup_fst_map_to_list m)) as [H1 H2].
  destruct (m !! k) as [e|] eqn:E.
  - change (fun db '(h, e) => _) with db_step. rewrite (H2 k e) by by apply elem_of_map_to_list.
    destruct (DIRTY e) eqn:D; [|by rewrite (proj1 (Hm k e E) D)].
    unfold equiv, view_equiv. cbn. by destruct (IsPruned (coins e)) eqn:P; cbn; rewrite ?P.
  - change (fun db '(h, e) => _) with db_step. rewrite H1; [done|]. intros (x & -> & Hx)%list_elem_of_fmap.
    destruct x as [k e]. apply elem_of_map_to_list in Hx. cbn in E. pose proof (eq_trans (eq_sym E) Hx). done.
Qed.

(** *** The cache *)

Lemma batch_loop_lookup l m : NoDup l.*1 -> (forall k e, (k, e) ∈ l -> is_Some (batch_one e (m !! k))) ->
  exists m', batch_loop l m = Some m' /\ (forall k, k ∉ l.*1 -> m' !! k = m !! k) /\
    (forall k e, (k, e) ∈ l -> batch_one e (m !! k) = Some (m' !! k)).
Proof.
  revert m. induction l as [|[k0 e0] l IH]; intros m Hnd Hok; [exists m; split; [done|]; split; [done|set_solver]|].
  cbn [fmap list_fmap fst] in Hnd. apply list.NoDup_cons in Hnd as [Hk0 Hnd].
  destruct (Hok k0 e0 ltac:(left)) as [r Hr]. cbn [batch_loop]. rewrite Hr. cbn [mbind option_bind].
  assert (Hne : forall k e, (k, e) ∈ l -> k <> k0).
  { intros k e Hin ->. apply Hk0, list_elem_of_fmap. by exists (k0, e). }
  destruct (IH (partial_alter (fun _ => r) k0 m) Hnd) as (m' & Hm' & H1 & H2).
  { intros k e Hin. rewrite lookup_partial_alter_ne by (symmetry; by eapply Hne). apply Hok. by right. }
  exists m'. split; [done|]. split.
  - intros k Hk. cbn [fmap list_fmap fst] in Hk. rewrite not_elem_of_cons in Hk. destruct Hk as [Hn Hk].
    by rewrite H1, lookup_partial_alter_ne by done.
  - intros k e [[= -> ->]|Hin]%elem_of_cons.
    + by rewrite H1, lookup_partial_alter_eq by done.
    + rewrite <- (H2 k e Hin). by rewrite lookup_partial_alter_ne by (symmetry; by eapply Hne).
Qed.

Section cache_laws.
Context {S : Type} `{CCoinsViewLaws S}.
Implicit Types c : CCoinsViewCache S.

Definition cache_inv c : Prop := inv (base c) /\ hasModifier c = false /\ child_ok (view (base c)) (holds (base c)) (cacheCoins c).
Definition cache_view c : hash256 -> option CCoins := overlay (cacheCoins c) (view (base c)).
Definition cache_holds c (k : hash256) : Prop := is_Some (cacheCoins c !! k).

Lemma child_ok_mono v v' (h h' : hash256 -> Prop) m : (forall k, v' k = v k) -> (forall k, h k -> h' k) -> child_ok v h m -> child_ok v' h' m.
Proof. intros Hv Hh Hm k e He. destruct (Hm k e He) as (H1 & H2 & H3). rewrite Hv. auto. Qed.
Lemma child_ok_insert v h m k e : child_ok v h m ->
  (DIRTY e = false -> v k = Some (coins e)) -> (FRESH e = true -> gone (v k)) -> (FRESH e = false -> h k) -> child_ok v h (<[k := e]> m).
Proof.
  intros Hm H1 H2 H3 j x. destruct (decide (j = k)) as [->|Hne].
  - rewrite lookup_insert_eq. by intros [= <-].
  - rewrite lookup_insert_ne by done. apply Hm.
Qed.
Lemma child_ok_delete v h m k : child_ok v h m -> child_ok v h (delete k m).
Proof. intros Hm j x [_ Hx]%lookup_delete_Some. by apply Hm. Qed.
Lemma overlay_insert m v k e j : overlay (<[k := e]> m) v j = if decide (j = k) then Some (coins e) else overlay m v j.
Proof. unfold overlay. destruct (decide (j = k)) as [->|Hne]; [by rewrite lookup_insert_eq|by rewrite lookup_insert_ne]. Qed.
Lemma overlay_ext m v v' j : (forall k, v' k = v k) -> overlay m v' j = overlay m v j.
Proof. intros Hv. unfold overlay. by destruct (m !! j). Qed.

(** Reading fills the cache and changes nothing that can be seen. *)
Lemma FetchCoins_spec txid c : cache_inv c -> exists e c',
  FetchCoins txid c = (e, c') /\ coins <$> e = cache_view c txid /\ cache_inv c' /\ (forall k, cache_view c' k = cache_view c k) /\
  (forall k, cache_holds c k -> cache_holds c' k) /\ (e <> None -> cache_holds c' txid) /\ hashBlock c' = hashBlock c.
Proof.
  intros (Hi & Hm & Hc). unfold FetchCoins. destruct (cacheCoins c !! txid) as [e|] eqn:E.
  - exists (Some e), c. unfold cache_view, overlay, cache_holds. rewrite E. cbn. split_and!; try done.
  - destruct (get_spec (base c) txid Hi) as (b & -> & Hb & Hv & Hh & Hs). unfold cache_view, cache_holds.
    pose proof (child_ok_mono _ _ _ _ _ Hv Hh Hc) as Hc'. assert (Hov : overlay (cacheCoins c) (view (base c)) txid = view (base c) txid) by (unfold overlay; by rewrite E).
    destruct (view (base c) txid) as [tmp|] eqn:V.
    + eexists _, _. split; [done|]. unfold set_cacheCoins, set_base. cbn [base cacheCoins hasModifier hashBlock]. split_and!.
      * by rewrite Hov.
      * split; [done|split; [done|]]. cbn. apply child_ok_insert; cbn; [done|by rewrite Hv|by rewrite Hv, V|]. intros _. by apply Hs.
      * intros k. rewrite overlay_insert. cbn [coins]. destruct (decide (k = txid)) as [->|]; [by rewrite Hov|by apply overlay_ext].
      * intros k Hk. destruct (decide (k = txid)) as [->|]; [rewrite lookup_insert_eq; by eexists|by rewrite lookup_insert_ne].
      * intros _. rewrite lookup_insert_eq. by eexists.
      * done.
    + eexists None, _. split; [done|]. unfold set_base. cbn [base cacheCoins hasModifier hashBlock]. split_and!; try done.
      * intros k. by apply overlay_ext.
Qed.

(** The merge of one entry: no assertion, and the entry seen through the result. *)
Lemma batch_one_spec c k e : cache_inv c -> child_ok (cache_view c) (cache_holds c) {[k := e]} ->
  exists r, batch_one e (cacheCoins c !! k) = Some r /\
    match r with Some x => Some (coins x) | None => view (base c) k end ≡ Some (coins e) /\
    (forall x, r = Some x -> (DIRTY x = false -> view (base c) k = Some (coins x)) /\ (FRESH x = true -> gone (view (base c) k)) /\
      (FRESH x = false -> holds (base c) k)).
Proof.
  intros (_ & _ & Hc) Hm. destruct (Hm k e (lookup_singleton_eq _ _)) as (H1 & H2 & H3). unfold cache_view, overlay, cache_holds in *.
  unfold batch_one. destruct (DIRTY e) eqn:D; cbn [negb].
  - destruct (cacheCoins c !! k) as [us|] eqn:E.
    + destruct (Hc k us E) as (U1 & U2 & U3). destruct (FRESH us) eqn:F; cbn [andb].
      * destruct (IsPruned (coins e)) eqn:P.
        -- exists None. split; [done|split; [|done]]. apply gone_equiv; [by apply U2|done].
        -- eexists. split; [done|split; [done|]]. by intros x [= <-].
      * eexists. split; [done|split; [done|]]. by intros x [= <-].
    + destruct (FRESH e) eqn:F; [|destruct (H3 eq_refl) as [? [=]]].
      destruct (IsPruned (coins e)) eqn:P; cbn [negb].
      * exists None. split; [done|split; [|done]]. apply gone_equiv; [by apply H2|done].
      * eexists. split; [done|split; [done|]]. intros x [= <-]. cbn. split; [done|split; [by intros _; apply H2|done]].
  - eexists. split; [done|]. specialize (H1 eq_refl). destruct (cacheCoins c !! k) as [us|] eqn:E; [|by rewrite H1].
    split; [by rewrite H1|]. intros x [= <-]. by apply Hc.
Qed.
Lemma cache_batch_spec c m hb : cache_inv c -> child_ok (cache_view c) (cache_holds c) m ->
  exists c', cache_BatchWrite m hb c = Some (true, c') /\ cache_inv c' /\ (forall k, cache_view c' k ≡ overlay m (cache_view c) k) /\ hashBlock c' = hb.
Proof.
  intros Hinv Hm. pose proof Hinv as (Hi & Hmod & Hc). unfold cache_BatchWrite. rewrite Hmod.
  assert (Hone : forall k e, m !! k = Some e -> child_ok (cache_view c) (cache_holds c) {[k := e]}).
  { intros k e He j x [-> ->]%lookup_singleton_Some. by apply Hm. }
  destruct (batch_loop_lookup (map_to_list m) (cacheCoins c) (NoDup_fst_map_to_list m)) as (m' & -> & Hout & Hin).
  { intros k e He%elem_of_map_to_list. destruct (batch_one_spec c k e Hinv (Hone k e He)) as (r & -> & _). by eexists. }
  cbn [mbind option_bind]. eexists. split; [done|].
  assert (Hother : forall k, m !! k = None -> m' !! k = cacheCoins c !! k).
  { intros k Hk. apply Hout. intros (x & -> & Hx)%list_elem_of_fmap. destruct x as [k e]. apply elem_of_map_to_list in Hx.
    pose proof (eq_trans (eq_sym Hk) Hx). done. }
  assert (Hmerged : forall k e, m !! k = Some e -> match m' !! k with Some x => Some (coins x) | None => view (base c) k end ≡ Some (coins e) /\
    (forall x, m' !! k = Some x -> (DIRTY x = false -> view (base c) k = Some (coins x)) /\ (FRESH x = true -> gone (view (base c) k)) /\
      (FRESH x = false -> holds (base c) k))).
  { intros k e He. destruct (batch_one_spec c k e Hinv (Hone k e He)) as (r & Hr & Hv & Hx).
    pose proof (Hin k e (proj2 (elem_of_map_to_list m k e) He)) as Hr'. rewrite Hr in Hr'. injection Hr' as ->. done. }
  split; [split_and!; try done|split; [|done]].
  - cbn. intros k x Hx. destruct (m !! k) as [e|] eqn:E; [by apply (Hmerged k e E)|]. apply Hc. by rewrite <- Hother.
  - intros k. unfold cache_view at 1. unfold overlay. cbn. destruct (m !! k) as [e|] eqn:E; [apply (Hmerged k e E)|]. by rewrite Hother.
Qed.
#[export] Program Instance CCoinsViewCache_laws : CCoinsViewLaws (CCoinsViewCache S) := {
  inv := cache_inv;
  view := cache_view;
  holds := cache_holds
}.
Next Obligation.
  intros c h Hi. destruct (FetchCoins_spec h c Hi) as (e & c' & HF & He & Hi' & Hv & Hh & Hs & _). exists c'. cbn. unfold AccessCoins.
  rewrite HF, He. split_and!; try done. intros Hn. apply Hs. intros ->. by apply Hn.
Qed.
Next Obligation. intros c m hb Hi Hm. destruct (cache_batch_spec c m hb Hi Hm) as (c' & ? & ? & ? & _). by exists c'. Qed.

(** A reference and its end: the entry becomes what was left, cleaned up; the rest is as before. *)
Lemma modifier_end_spec h e left b c : inv b -> (forall k, view b k = view (base c) k) ->
  child_ok (view b) (holds b) (cacheCoins c) ->
  (FRESH e = true -> gone (view b h)) -> (FRESH e = false -> holds b h) ->
  exists c', modifier_end h left (mkCache b true (hashBlock c) (<[h := mkEntry (coins e) true (FRESH e)]> (cacheCoins c))) = Some c' /\
    cache_inv c' /\ cache_view c' h ≡ Some (Cleanup left) /\ (forall k, k <> h -> cache_view c' k = cache_view c k) /\ hashBlock c' = hashBlock c.
Proof.
  intros Hb Hv Hc Hf Hh. unfold modifier_end. cbn [hasModifier negb cacheCoins base hashBlock]. rewrite lookup_insert_eq. cbn [DIRTY FRESH coins].
  eexists. split; [done|].
  assert (Hrest : forall m k, k <> h -> m !! k = cacheCoins c !! k -> overlay m (view b) k = cache_view c k).
  { intros m k _ Hm. unfold cache_view, overlay. by rewrite Hm, Hv. }
  destruct (FRESH e && IsPruned (Cleanup left)) eqn:E; unfold cache_view at 1 2, cache_inv; cbn [base cacheCoins hasModifier hashBlock].
  - apply andb_true_iff in E as [F P]. rewrite delete_insert_eq. split_and!; try done.
    + by apply child_ok_delete.
    + unfold overlay. rewrite lookup_delete_eq. apply gone_equiv; [by apply Hf|done].
    + intros k Hk. apply Hrest; [done|]. by apply lookup_delete_ne.
  - rewrite insert_insert_eq. split_and!; try done.
    + by apply child_ok_insert.
    + unfold overlay. by rewrite lookup_insert_eq.
    + intros k Hk. apply Hrest; [done|]. by apply lookup_insert_ne.
Qed.
Lemma with_coins_spec {A} h (f : CCoins -> option (A * CCoins)) c : cache_inv c ->
  match f (default CCoins_empty (cache_view c h)) with
  | Some (a, new) => exists c', with_coins h f c = Some (a, c') /\ cache_inv c' /\ cache_view c' h ≡ Some (Cleanup new) /\
      (forall k, k <> h -> cache_view c' k = cache_view c k) /\ hashBlock c' = hashBlock c
  | None => with_coins h f c = None
  end.
Proof.
  intros (Hi & Hmod & Hc). unfold with_coins, ModifyCoins. rewrite Hmod. unfold cache_view at 1. unfold overlay.
  destruct (cacheCoins c !! h) as [e|] eqn:E.
  - cbn [from_option id mbind option_bind]. destruct (f (coins e)) as [[a new]|]; [|done]. cbn [mbind option_bind].
    destruct (Hc h e E) as (_ & H2 & H3).
    destruct (modifier_end_spec h e new (base c) c Hi ltac:(done) Hc H2 H3) as (c' & -> & Hc'). by exists c'.
  - destruct (get_spec (base c) h Hi) as (b & -> & Hb & Hv & Hh & Hs). pose proof (child_ok_mono _ _ _ _ _ Hv Hh Hc) as Hc'.
    set (e := match view (base c) h with None => mkEntry CCoins_empty false true | Some tmp => mkEntry tmp false (IsPruned tmp) end).
    assert (coins e = default CCoins_empty (view (base c) h)) as He by (subst e; by destruct (view (base c) h)).
    cbn [mbind option_bind]. rewrite <- He. cbn [from_option id mbind option_bind].
    destruct (f (coins e)) as [[a new]|]; [|done]. cbn [mbind option_bind].
    destruct (modifier_end_spec h e new b c Hb Hv Hc') as (c' & -> & Hc''); [| |by exists c'].
    + rewrite Hv. subst e. destruct (view (base c) h); [done|]. done.
    + subst e. destruct (view (base c) h) eqn:V; cbn; [|done]. intros _. by apply Hs.
Qed.

(** Flushing empties the cache into the base: nothing visible changes. *)
Lemma Flush_spec c : cache_inv c -> exists c',
  Flush c = Some (true, c') /\ cache_inv c' /\ cacheCoins c' = ∅ /\ (forall k, cache_view c' k ≡ cache_view c k) /\
  (forall k, view (base c') k ≡ cache_view c k).
Proof.
  intros (Hi & Hmod & Hc). unfold Flush. destruct (batch_spec (base c) (cacheCoins c) (hashBlock c) Hi Hc) as (b & -> & Hb & Hv).
  cbn [mbind option_bind]. eexists. split; [done|]. split_and!; try done.
Qed.
Lemma new_cache_inv b : inv b -> cache_inv (new_cache b) /\ forall k, cache_view (new_cache b) k = view b k.
Proof.
  intros Hb. split.
  - split_and!; [done|done|]. intros k e He. cbn in He. by rewrite lookup_empty in He.
  - intros k. unfold cache_view, overlay. cbn. by rewrite lookup_empty.
Qed.
End cache_laws.

(** C4: the cache refines the view it is laid over, whatever that view is (the database, or
    another cache: the cache itself keeps the contract it asks of its base).  Reading an
    entry gives the coins of the view and changes nothing that can be seen; a modification
    through a reference is seen at its transaction, cleaned up, and nowhere else; and
    [Flush] trips none of the assertions of [BatchWrite], leaves the cache empty and the
    base with exactly what was visible in the cache, up to spent transactions, which may be
    recorded or not. *)
Theorem cache_refines_view {S : Type} `{CCoinsViewLaws S} (c : CCoinsViewCache S) : cache_inv c ->
  (forall h, exists c', GetCoins h c = (cache_view c h, c') /\ cache_inv c' /\ forall k, cache_view c' k = cache_view c k) /\
  (forall A h (f : CCoins -> option (A * CCoins)) a new, f (default CCoins_empty (cache_view c h)) = Some (a, new) ->
    exists c', with_coins h f c = Some (a, c') /\ cache_inv c' /\ cache_view c' h ≡ Some (Cleanup new) /\
      forall k, k <> h -> cache_view c' k = cache_view c k) /\
  (exists c', Flush c = Some (true, c') /\ cache_inv c' /\ cacheCoins c' = ∅ /\
    (forall k, cache_view c' k ≡ cache_view c k) /\ (forall k, view (base c') k ≡ cache_view c k)).
Proof.
  intros Hc. split; [|split].
  - intros h. destruct (FetchCoins_spec h c Hc) as (e & c' & HF & He & Hi & Hv & _). exists c'. cbn. unfold AccessCoins. by rewrite HF, He.
  - intros A h f a new Hf. pose proof (with_coins_spec h f c Hc) as Hw. rewrite Hf in Hw.
    destruct Hw as (c' & ? & ? & ? & ? & _). by exists c'.
  - destruct (Flush_spec c Hc) as (c' & ? & ? & ? & ? & ?). by exists c'.
Qed.

(** Two caches over a database with one transaction: its output is spent in the upper one,
    which is flushed into the lower one. *)
Definition one_coin : CCoins := mkCoins true false [mkTxOut COIN [81] (-10)] 100 1.
Definition stack : CCoinsViewCache (CCoinsViewCache CCoinsViewDB) := new_cache (new_cache (mkDB {[leaf 5 := one_coin]} None)).
(** [inputs.ModifyCoins(out.hash)->Spend(out, undo)] on the coins. *)
Definition spend_coins (n : Z) (c : CCoins) : option (CTxInUndo * CCoins) := '(c', u) ← Spend c n; Some (u, c').
Lemma cache_refines_view_witness : cache_inv stack /\ exists c1 c2,
  with_coins (leaf 5) (spend_coins 0) stack = Some (mkUndo (mkTxOut COIN [81] (-10)) true false 100 1, c1) /\
  Flush c1 = Some (true, c2) /\ gone (view (base c2) (leaf 5)).
Proof.
  assert (Hs : cache_inv stack) by (apply new_cache_inv, new_cache_inv; exact I).
  split; [exact Hs|]. pose proof (cache_refines_view stack Hs) as (_ & Hmod & _).
  destruct (Hmod _ (leaf 5) (spend_coins 0) (mkUndo (mkTxOut COIN [81] (-10)) true false 100 1)
    (mkCoins true false [] 100 1) eq_refl) as (c1 & Hc1 & Hi1 & Hv1 & _).
  destruct (cache_refines_view c1 Hi1) as (_ & _ & c2 & Hf & _ & _ & _ & Hb).
  exists c1, c2. split; [exact Hc1|split; [exact Hf|]]. rewrite Hb, Hv1. reflexivity.
Defined.
