(* ===== verification/Subsidy.v ===== *)
(** The value of a block ([src/src/main.cpp]: [GetFullBlockValue], [GetMasternodePayment],
    [GetColdstakingPayment], [GetBlockValue]), computed as the code does in [double]s and
    truncated to [int64_t]: the constants in full, the order of rewards, and the bound that
    the shares stay below the value of the block. *)
From Stdlib Require Import Floats.SpecFloat.
From S2P Require Import Prelude Serialize Script Transaction.

(** ** Doubles: IEEE binary64, round to nearest *)

Definition double_of (z : Z) : spec_float := binary_normalize 53 1024 z 0 false.
Definition dmul : spec_float -> spec_float -> spec_float := SFmul 53 1024.
Definition dadd : spec_float -> spec_float -> spec_float := SFadd 53 1024.
(** The literal [n / 10^k]: the division is rounded correctly. *)
Definition lit (n k : Z) : spec_float := SFdiv 53 1024 (double_of n) (double_of (10 ^ k)).
(** The conversion to [int64_t] truncates. *)
Definition to_int64 (d : spec_float) : Z :=
  match d with
  | S754_finite s m e =>
      let a := if 0 <=? e then Zpos m * 2 ^ e else Zpos m / 2 ^ (- e) in
      if s then - a else a
  | _ => 0
  end.

Definition times_COIN (d : spec_float) : Z := to_int64 (dmul d (double_of COIN)).
Definition GetFullBlockValue (nHeight : Z) : Z :=
  if nHeight =? 0 then times_COIN (lit 1228922247 2)
  else if (nHeight >? 0) && (nHeight <=? 400000) then times_COIN (lit 625 2)
  else if (nHeight >? 400000) && (nHeight <=? 1451200) then times_COIN (lit 531 2)
  else if (nHeight >? 1451200) && (nHeight <=? 2502400) then times_COIN (lit 452 2)
  else if (nHeight >? 2502400) && (nHeight <=? 3553600) then times_COIN (lit 384 2)
  else if (nHeight >? 3553600) && (nHeight <=? 4604800) then times_COIN (lit 326 2)
  else if (nHeight >? 4604800) && (nHeight <=? 5656000) then times_COIN (lit 277 2)
  else if (nHeight >? 5656000) && (nHeight <=? 6707200) then times_COIN (lit 236 2)
  else if (nHeight >? 6707200) && (nHeight <=? 7758400) then 2 * COIN
  else if (nHeight >? 7758400) && (nHeight <=? 8809600) then times_COIN (lit 17 1)
  else if (nHeight >? 8809600) && (nHeight <=? 9860800) then times_COIN (lit 145 2)
  else if (nHeight >? 9860800) && (nHeight <=? 10912000) then times_COIN (lit 123 2)
  else if (nHeight >? 10912000) && (nHeight <=? 11963200) then times_COIN (lit 105 2)
  else if (nHeight >? 11963200) && (nHeight <=? 13014400) then times_COIN (lit 89 2)
  else if (nHeight >? 13014400) && (nHeight <=? 14065600) then times_COIN (lit 76 2)
  else if (nHeight >? 14065600) && (nHeight <=? 15116800) then times_COIN (lit 64 2)
  else if (nHeight >? 15116800) && (nHeight <=? 16168000) then times_COIN (lit 55 2)
  else if (nHeight >? 16168000) && (nHeight <=? 17219200) then times_COIN (lit 46 2)
  else if (nHeight >? 17219200) && (nHeight <=? 18270400) then times_COIN (lit 39 2)
  else if (nHeight >? 18270400) && (nHeight <=? 19321600) then times_COIN (lit 34 2)
  else if (nHeight >? 19321600) && (nHeight <=? 20372800) then times_COIN (lit 28 2)
  else if (nHeight >? 20372800) && (nHeight <=? 21424000) then times_COIN (lit 24 2)
  else if (nHeight >? 21424000) && (nHeight <=? 22475200) then times_COIN (lit 21 2)
  else times_COIN (lit 18 2).

(** ** Shares of the masternode and of cold staking *)

(** What is asked of the masternode lists: the signing time of the node with a payee, of the
    current node, and the payee of a height. *)
Class MasternodeLists := {
  Find : CScript -> option Z;
  GetCurrentMasterNode : option Z;
  GetBlockPayee : Z -> option CScript
}.

Section shares.
Context `{MasternodeLists} (GetTime : Z).

Definition sinceSigTime (node : option Z) : Z :=
  match node with Some sigTime => i32 (i32 (cdiv (GetTime - sigTime) 60) * 2) | None => 0 end.
Definition nMasternodeActiveHeight (nHeight : Z) (payee : option CScript) : Z :=
  match payee with
  | Some p => sinceSigTime (Find p)
  | None =>
      match GetBlockPayee (nHeight + 1) with
      | None => sinceSigTime GetCurrentMasterNode
      | Some cpayee => sinceSigTime (Find cpayee)
      end
  end.
Definition threeMonthHeight : Z := 2 * 60 * 24 * 30 * 3.
(** The part that is arithmetic: [active] is [nMasternodeActiveHeight]. *)
Definition masternode_share (nHeight active : Z) : Z :=
  let fSubsidyAdjustmentPercentage := if nHeight >? 9860800 then lit 7 1 else lit 75 2 in
  let nMnActiveCount := cdiv active threeMonthHeight in
  let nMnActiveCount := if nMnActiveCount >? 5 then 5 else nMnActiveCount in
  let ret := to_int64 (dmul (double_of (GetFullBlockValue nHeight)) fSubsidyAdjustmentPercentage) in
  to_int64 (dmul (double_of ret) (dadd (double_of 1) (dmul (lit 5 2) (double_of nMnActiveCount)))).
Definition GetMasternodePayment (nHeight : Z) (payee : option CScript) : Z :=
  masternode_share nHeight (nMasternodeActiveHeight nHeight payee).
Definition GetColdstakingPayment (nHeight : Z) : Z := to_int64 (dmul (double_of (GetFullBlockValue nHeight)) (lit 5 2)).
Definition GetBlockValue (LAST_POW_BLOCK nHeight : Z) (payee : option CScript) : Z :=
  let fStakingPercentage := if nHeight >? 9860800 then lit 15 2 else lit 1 1 in
  let FullBlockValue := GetFullBlockValue nHeight in
  if nHeight <=? LAST_POW_BLOCK then FullBlockValue
  else to_int64 (dadd (dadd (dmul fStakingPercentage (double_of FullBlockValue)) (double_of (GetMasternodePayment nHeight payee)))
    (double_of (GetColdstakingPayment nHeight))).
End shares.

(** ** The schedule as a table *)

(** Hundredths of a coin: the first era ends at 400000, the others last two years of blocks. *)
Definition rewards : list Z :=
  [625; 531; 452; 384; 326; 277; 236; 200; 170; 145; 123; 105; 89; 76; 64; 55; 46; 39; 34; 28; 24; 21; 18].
Definition era (nHeight : Z) : Z := Z.min 22 (if nHeight <=? 400000 then 0 else 1 + (nHeight - 400001) / 1051200).
(** The products 5.31 * COIN and 4.52 * COIN fall below the integer and are truncated. *)
Definition era_value (i : Z) : Z := nth (Z.to_nat i) rewards 0 * (COIN / 100) - (if (i =? 1) || (i =? 2) then 1 else 0).

Lemma era_range h : 0 < h -> 0 <= era h <= 22.
Proof. intros Hh. unfold era. destruct (Z.leb_spec h 400000); [lia|]. pose proof (Z.div_pos (h - 400001) 1051200). lia. Qed.
Lemma era_mono a b : 0 < a <= b -> era a <= era b.
Proof.
  intros Hab. unfold era. pose proof (Z.div_le_mono (a - 400001) (b - 400001) 1051200).
  pose proof (Z.div_pos (b - 400001) 1051200). destruct (Z.leb_spec a 400000), (Z.leb_spec b 400000); lia.
Qed.
Lemma era_late h : 0 < h -> (h >? 9860800) = (10 <=? era h).
Proof.
  intros Hh. unfold era. rewrite Z.gtb_ltb. destruct (Z.leb_spec h 400000).
  - destruct (Z.ltb_spec 9860800 h), (Z.leb_spec 10 (Z.min 22 0)); lia.
  - pose proof (Z.div_mod (h - 400001) 1051200). pose proof (Z.mod_pos_bound (h - 400001) 1051200).
    destruct (Z.ltb_spec 9860800 h), (Z.leb_spec 10 (Z.min 22 (1 + (h - 400001) / 1051200))); lia.
Qed.
(** Where the chain of comparisons stops. *)
Lemma era_eq h i : 0 < h -> (i = 0 /\ h <= 400000 \/ 1 <= i <= 22 /\ 400000 + (i - 1) * 1051200 < h /\ (i < 22 -> h <= 400000 + i * 1051200)) -> era h = i.
Proof.
  intros Hh Hi. unfold era. destruct (Z.leb_spec h 400000); [lia|].
  pose proof (Z.div_mod (h - 400001) 1051200). pose proof (Z.mod_pos_bound (h - 400001) 1051200). nia.
Qed.
Ltac era_step h :=
  match goal with
  | |- context [if (h >? ?a) && (h <=? ?b) then _ else _] =>
      destruct (Z.leb_spec h b);
      [replace (h >? a) with true by (rewrite Z.gtb_ltb; symmetry; apply Z.ltb_lt; lia); cbn [andb]|rewrite andb_false_r]
  end.
Ltac eras h i :=
  first [ era_step h; [rewrite (era_eq h i) by lia; vm_compute; reflexivity | let j := eval compute in (i + 1) in eras h j]
        | rewrite (era_eq h 22) by lia; vm_compute; reflexivity ].
Lemma GetFullBlockValue_era h : 0 < h -> GetFullBlockValue h = era_value (era h).
Proof.
  intros Hh. unfold GetFullBlockValue. replace (h =? 0) with false by (symmetry; apply Z.eqb_neq; lia). eras h 0.
Qed.

(** ** The shares *)

(** For every era and every bonus the sums are checked by running them. *)
Definition shares_ok (i n : Z) : bool :=
  let late := 10 <=? i in
  let full := era_value i in
  let ret := to_int64 (dmul (double_of full) (if late then lit 7 1 else lit 75 2)) in
  let mn := to_int64 (dmul (double_of ret) (dadd (double_of 1) (dmul (lit 5 2) (double_of n)))) in
  let cold := to_int64 (dmul (double_of full) (lit 5 2)) in
  let v := to_int64 (dadd (dadd (dmul (if late then lit 15 2 else lit 1 1) (double_of full)) (double_of mn)) (double_of cold)) in
  (0 <? mn) && (16 * mn <=? 15 * full) && (0 <? cold) && (20 * cold <=? full) && (mn + cold <? v) && (80 * v <=? 87 * full) &&
  (9 * full - 30 <=? 10 * v) && Bool.eqb (v <=? full) (n <=? 2).
Lemma shares_checked i n : 0 <= i <= 22 -> 0 <= n <= 5 -> shares_ok i n = true.
Proof.
  intros Hi Hn. apply (range_check2 shares_ok 23 6); [|lia|lia]. by vm_compute.
Qed.

Lemma era_values_decrease i j : 0 <= i <= j -> j <= 22 -> era_value j <= era_value i.
Proof.
  intros Hi Hj. assert (H : (negb (i <=? j) || (era_value j <=? era_value i)) = true); [|lia].
  apply (range_check2 (fun i j => negb (i <=? j) || (era_value j <=? era_value i)) 23 23); [by vm_compute|lia|lia].
Qed.
(** Whole quarters a node has been active, at most five. *)
Definition quarters (active : Z) : Z := Z.min 5 (Z.quot active threeMonthHeight).
Lemma quarters_range active : - threeMonthHeight < active -> 0 <= quarters active <= 5.
Proof.
  intros Ha. unfold quarters. change threeMonthHeight with 259200 in *. Z.to_euclidean_division_equations. lia.
Qed.
Lemma masternode_share_era h active : 0 < h -> masternode_share h active =
  to_int64 (dmul (double_of (to_int64 (dmul (double_of (era_value (era h))) (if 10 <=? era h then lit 7 1 else lit 75 2))))
    (dadd (double_of 1) (dmul (lit 5 2) (double_of (quarters active))))).
Proof.
  intros Hh. unfold masternode_share. rewrite era_late, GetFullBlockValue_era by done. do 5 f_equal. unfold quarters, cdiv.
  rewrite Z.gtb_ltb. destruct (Z.ltb_spec 5 (Z.quot active threeMonthHeight)); lia.
Qed.

Section theorem.
Context `{MasternodeLists}.

(** C37: what a block is worth.  For every height above 0 the full value is that of the era
    the height falls in, read from a table of 23 rewards (the first era of 400000 blocks, the
    others of 1051200), except that in two eras the product of doubles is one unit short of
    the decimal constant; it never rises with the height.  Beyond the proof-of-work blocks,
    for masternodes not signed a quarter or more in the future, the masternode's share and
    that of cold staking are positive, at most 15/16 and 1/20 of the full value, and together
    less than the value of the block; the value of the block lies between 9/10 (less three
    units) and 87/80 of the full value, and exceeds it exactly when the node has been active
    for three quarters of a year. *)
Theorem block_value_correct (GetTime pow h : Z) (payee : option CScript) : 0 < h ->
  let active := nMasternodeActiveHeight GetTime h payee in
  let full := GetFullBlockValue h in
  let mn := GetMasternodePayment GetTime h payee in
  let cold := GetColdstakingPayment h in
  let v := GetBlockValue GetTime pow h payee in
  full = era_value (era h) /\
  (forall h', h <= h' -> GetFullBlockValue h' <= full) /\
  (h <= pow -> v = full) /\
  (pow < h -> - threeMonthHeight < active ->
    0 < mn /\ 16 * mn <= 15 * full /\ 0 < cold /\ 20 * cold <= full /\ mn + cold < v /\
    9 * full - 30 <= 10 * v /\ 80 * v <= 87 * full /\ (full < v <-> 3 <= quarters active)).
Proof.
  intros Hh active full mn cold v. assert (Hf : full = era_value (era h)) by by apply GetFullBlockValue_era.
  split; [done|split; [|split]].
  - intros h' Hle. rewrite GetFullBlockValue_era, Hf by lia. pose proof (era_mono h h'). pose proof (era_range h Hh). pose proof (era_range h').
    apply era_values_decrease; lia.
  - intros Hle. unfold v, GetBlockValue. by rewrite (proj2 (Z.leb_le h pow) Hle).
  - intros Hlt Ha. pose proof (shares_checked (era h) (quarters active) (era_range h Hh) (quarters_range active Ha)) as Hok.
    unfold v, GetBlockValue. rewrite (proj2 (Z.leb_gt h pow) Hlt). fold full. fold mn. fold cold.
    unfold mn, cold, GetMasternodePayment, GetColdstakingPayment in *. fold active. fold full. rewrite masternode_share_era, era_late by done. rewrite Hf.
    unfold shares_ok in Hok. cbv zeta in Hok. repeat rewrite andb_true_iff in Hok. destruct Hok as [Hok Hq]. apply Bool.eqb_prop in Hq. lia.
Qed.
End theorem.

(** A node known by its payee, signed in the year before. *)
#[local] Instance one_node : MasternodeLists :=
  { Find := fun p => if bool_decide (p = [81]) then Some 1500000000 else None; GetCurrentMasterNode := None; GetBlockPayee := fun _ => Some [81] }.
Lemma block_value_correct_witness : 0 < 450000 /\ GetFullBlockValue 450000 = 530999999 /\
  GetBlockValue 1530000000 500 450000 None = 537637496 /\ 530999999 < 537637496.
Proof.
  split; [done|]. destruct (block_value_correct 1530000000 500 450000 None ltac:(done)) as (Hf & _ & _ & _).
  split; [rewrite Hf; by vm_compute|]. split; by vm_compute.
Defined.
