(* ===== verification/TxChecks.v ===== *)
(** Checks on a transaction that need no context ([src/src/main.cpp]: [CheckTransaction],
    [MoneyRange], [IsFinalTx], the counts of signature operations) and the record of a
    validation ([src/src/consensus/validation.h]: [CValidationState]). *)
From S2P Require Import Prelude Serialize Stream Hashers Script SigChecks Interp Merkle Transaction SigHash Compressor Coins CoinsView.

(** ** [CValidationState] *)

Definition REJECT_MALFORMED : Z := 0x01.
Definition REJECT_INVALID : Z := 0x10.
Definition REJECT_OBSOLETE : Z := 0x11.
Definition REJECT_DUPLICATE : Z := 0x12.
Definition REJECT_NONSTANDARD : Z := 0x40.
Definition REJECT_DUST : Z := 0x41.
Definition REJECT_INSUFFICIENTFEE : Z := 0x42.
Definition REJECT_CHECKPOINT : Z := 0x43.

Inductive mode_state := MODE_VALID | MODE_INVALID | MODE_ERROR.
Record CValidationState := mkState {
  mode : mode_state;
  nDoS : Z;
  strRejectReason : string;
  chRejectCode : Z;
  corruptionPossible : bool;
  strDebugMessage : string
}.
Definition CValidationState_new : CValidationState := mkState MODE_VALID 0 "" 0 false "".
Definition DoS (level : Z) (ret : bool) (code : Z) (reason : string) (corruption : bool) (dbg : string) (s : CValidationState) :
    bool * CValidationState :=
  match mode s with
  | MODE_ERROR => (ret, mkState MODE_ERROR (nDoS s) reason code corruption dbg)
  | _ => (ret, mkState MODE_INVALID (nDoS s + level) reason code corruption dbg)
  end.
Definition Invalid (ret : bool) (code : Z) (reason dbg : string) (s : CValidationState) : bool * CValidationState :=
  DoS 0 ret code reason false dbg s.
Definition Error (reason : string) (s : CValidationState) : bool * CValidationState :=
  (false, mkState MODE_ERROR (nDoS s) (match mode s with MODE_VALID => reason | _ => strRejectReason s end)
    (chRejectCode s) (corruptionPossible s) (strDebugMessage s)).
Definition IsValid (s : CValidationState) : bool := match mode s with MODE_VALID => true | _ => false end.
Definition IsInvalid (s : CValidationState) : bool := match mode s with MODE_INVALID => true | _ => false end.
Definition IsError (s : CValidationState) : bool := match mode s with MODE_ERROR => true | _ => false end.
Definition IsInvalid_DoS (s : CValidationState) : option Z := if IsInvalid s then Some (nDoS s) else None.

(** A check goes on with a value, or has returned [false]; either way it leaves its state. *)
Definition check (A : Type) : Type := CValidationState -> option A * CValidationState.
#[export] Instance check_ret : MRet check := fun A a s => (Some a, s).
#[export] Instance check_bind : MBind check := fun A B f m s =>
  match m s with (Some a, s') => f a s' | (None, s') => (None, s') end.
(** [if (cond) return state.DoS(level, false, code, reason);] *)
Definition reject_if (cond : bool) (level code : Z) (reason : string) : check unit := fun s =>
  if cond then (None, snd (DoS level false code reason false "" s)) else (Some tt, s).
(** [if (!f(state)) return state.DoS(level, false);] *)
Definition demand (f : CValidationState -> bool * CValidationState) (level : Z) : check unit := fun s =>
  let '(ok, s) := f s in if ok then (Some tt, s) else (None, snd (DoS level false 0 "" false "" s)).

(** ** Amounts and locks *)

(** The chain parameters these functions read. *)
Record CChainParams := mkParams {
  MaxMoneyOut : CAmount;
  Zerocoin_MaxSpendsPerTransaction : Z;
  COINBASE_MATURITY : Z
}.
Definition CMainParams : CChainParams := mkParams (247500000 * COIN) 7 50.
Definition CTestNetParams : CChainParams := mkParams (247500000 * COIN) 7 15.
Definition MAX_BLOCK_BASE_SIZE : Z := 10000000.

Definition MoneyRange (params : CChainParams) (nValueOut : CAmount) : bool := (0 <=? nValueOut) && (nValueOut <=? MaxMoneyOut params).

(** The height of the tip and the adjusted time stand in for zeros. *)
Definition IsFinalTx (tipHeight adjustedTime : Z) (t : CMutableTransaction) (nBlockHeight nBlockTime : Z) : bool :=
  if nLockTime t =? 0 then true else
  let nBlockHeight := if nBlockHeight =? 0 then tipHeight else nBlockHeight in
  let nBlockTime := if nBlockTime =? 0 then adjustedTime else nBlockTime in
  if nLockTime t <? (if nLockTime t <? LOCKTIME_THRESHOLD then nBlockHeight else nBlockTime) then true
  else forallb IsFinal (vin t).

(** ** Signature operations *)

Definition GetVirtualTransactionSize (nCost : Z) : Z := cdiv (nCost + WITNESS_SCALE_FACTOR - 1) WITNESS_SCALE_FACTOR.
Definition GetVirtualTransactionSize_tx (t : CMutableTransaction) : Z := GetVirtualTransactionSize (GetTransactionCost t).

Definition GetLegacySigOpCount (t : CMutableTransaction) : Z :=
  let nSigOps := foldl (fun n i => u32 (n + GetSigOpCount (scriptSig i) false)) 0 (vin t) in
  foldl (fun n o => u32 (n + GetSigOpCount (scriptPubKey o) false)) nSigOps (vout t).

Section sigops.
Context {S : Type} `{CCoinsView S}.
(** [None] is the assertion of [GetOutputFor]. *)
Fixpoint p2sh_loop (l : list CTxIn) (nSigOps : Z) (c : CCoinsViewCache S) : option (Z * CCoinsViewCache S) :=
  match l with
  | [] => Some (nSigOps, c)
  | i :: l =>
      '(prev, c) ← GetOutputFor i c;
      p2sh_loop l (if IsPayToScriptHash (scriptPubKey prev) then u32 (nSigOps + GetSigOpCount_p2sh (scriptPubKey prev) (scriptSig i)) else nSigOps) c
  end.
Definition GetP2SHSigOpCount (t : CMutableTransaction) (c : CCoinsViewCache S) : option (Z * CCoinsViewCache S) :=
  if IsCoinBase t || Tx_IsZerocoinSpend t then Some (0, c) else p2sh_loop (vin t) 0 c.
(** The witness of input [k], if there is one. *)
Fixpoint witness_loop (w : CTxWitness) (flags : Z) (l : list CTxIn) (k : nat) (nSigOps : Z) (c : CCoinsViewCache S) :
    option (Z * CCoinsViewCache S) :=
  match l with
  | [] => Some (nSigOps, c)
  | i :: l =>
      '(prev, c) ← GetOutputFor i c;
      n ← CountWitnessSigOps (scriptSig i) (scriptPubKey prev) (nth k w []) flags;
      witness_loop w flags l (Datatypes.S k) (i64 (nSigOps + n)) c
  end.
Definition GetTransactionSigOpCost (t : CMutableTransaction) (flags : Z) (c : CCoinsViewCache S) : option (Z * CCoinsViewCache S) :=
  let nSigOps := u32 (GetLegacySigOpCount t * WITNESS_SCALE_FACTOR) in
  if IsCoinBase t || ContainsZerocoins t then Some (nSigOps, c) else
  '(nSigOps, c) ← (if has flags SCRIPT_VERIFY_P2SH then
    '(n, c) ← GetP2SHSigOpCount t c; Some (i64 (nSigOps + u32 (n * WITNESS_SCALE_FACTOR)), c) else Some (nSigOps, c));
  witness_loop (wit t) flags (vin t) 0 nSigOps c.
End sigops.

(** ** [CheckTransaction] *)

#[export] Instance COutPoint_eq_dec : EqDecision COutPoint.
Proof. solve_decision. Defined.
#[export] Instance COutPoint_countable : Countable COutPoint :=
  inj_countable' (fun o => (out_hash o, out_n o)) (fun '(h, n) => mkOutPoint h n) (fun o => match o with mkOutPoint _ _ => eq_refl end).

(** The zerocoin part of the node: checks of one mint and of a spending transaction. *)
Class ZerocoinChecks := {
  CheckZerocoinMint : hash256 -> CTxOut -> bool -> CValidationState -> bool * CValidationState;
  CheckZerocoinSpend : CTransaction -> bool -> Z -> CValidationState -> bool * CValidationState
}.

Section check_transaction.
Context `{ZerocoinChecks} (params : CChainParams).
(** Whether the node is synchronised, and the height of its tip. *)
Context (fVerifySignature : bool) (tipHeight : Z).

Fixpoint outs_loop (fZerocoinActive : bool) (h : hash256) (l : list CTxOut) (nValueOut nZCSpendCount : Z) : check Z :=
  match l with
  | [] => mret nZCSpendCount
  | o :: l =>
      reject_if (nValue o <? 0) 100 REJECT_INVALID "bad-txns-vout-negative";;
      reject_if (nValue o >? MaxMoneyOut params) 100 REJECT_INVALID "bad-txns-vout-toolarge";;
      let nValueOut := i64 (nValueOut + nValue o) in
      reject_if (negb (MoneyRange params nValueOut)) 100 REJECT_INVALID "bad-txns-txouttotal-toolarge";;
      (if fZerocoinActive && TxOut_IsZerocoinMint o then demand (CheckZerocoinMint h o true) 100 else mret tt : check unit);;
      outs_loop fZerocoinActive h l nValueOut
        (if fZerocoinActive && IsZerocoinSpend (scriptPubKey o) then nZCSpendCount + 1 else nZCSpendCount)
  end.
Fixpoint dup_loop (l : list CTxIn) (vInOutPoints : gset COutPoint) : check unit :=
  match l with
  | [] => mret tt
  | i :: l =>
      reject_if (bool_decide (prevout i ∈ vInOutPoints)) 100 REJECT_INVALID "bad-txns-inputs-duplicate";;
      dup_loop l (if negb (IsZerocoinSpend (scriptSig i)) then {[prevout i]} ∪ vInOutPoints else vInOutPoints)
  end.
Definition zerocoin_part (t : CTransaction) (nZCSpendCount : Z) : check unit :=
  reject_if (nZCSpendCount >? Zerocoin_MaxSpendsPerTransaction params) 100 0 "";;
  (if Tx_IsZerocoinSpend t then
    reject_if (existsb (fun i => negb (IsZerocoinSpend (scriptSig i))) (vin t)) 100 0 "";;
    demand (CheckZerocoinSpend t fVerifySignature tipHeight) 100
  else mret tt : check unit).
Definition last_part (fZerocoinActive : bool) (t : CMutableTransaction) : check unit :=
  if IsCoinBase t then
    let n := match vin t with i :: _ => size (scriptSig i) | [] => 0 end in
    reject_if ((n <? 2) || (n >? 150)) 100 REJECT_INVALID "bad-cb-length"
  else if fZerocoinActive && Tx_IsZerocoinSpend t then
    reject_if (Nat.ltb (length (vin t)) 1 || (i32 (Z.of_nat (length (vin t))) >? Zerocoin_MaxSpendsPerTransaction params)) 10
      REJECT_INVALID "bad-zerocoinspend"
  else
    reject_if (existsb (fun i => OutPoint_IsNull (prevout i) && (fZerocoinActive && negb (IsZerocoinSpend (scriptSig i)))) (vin t)) 10
      REJECT_INVALID "bad-txns-prevout-null".
Definition CheckTransaction (t : CTransaction) (fZerocoinActive fRejectBadUTXO fWitnessEnabled : bool) : check unit :=
  reject_if (Nat.eqb (length (vin t)) 0) 10 REJECT_INVALID "bad-txns-vin-empty";;
  reject_if (Nat.eqb (length (vout t)) 0) 10 REJECT_INVALID "bad-txns-vout-empty";;
  reject_if (u32 (Z.of_nat (length (tx_bytes (fAllowWitness (Z.lor PROTOCOL_VERSION SERIALIZE_TRANSACTION_NO_WITNESS)) t))) >? MAX_BLOCK_BASE_SIZE)
    100 REJECT_INVALID "bad-txns-oversize";;
  nZCSpendCount ← outs_loop fZerocoinActive (cached_hash t) (vout t) 0 0;
  (if fZerocoinActive then zerocoin_part t nZCSpendCount else mret tt : check unit);;
  dup_loop (vin t) ∅;;
  last_part fZerocoinActive t.
End check_transaction.

(** ** Reasoning about checks *)

(** The state a rejected transaction leaves: invalid (unless an error came first), with a
    positive penalty and the code of an invalid transaction. *)
Definition rejected (s s' : CValidationState) : Prop :=
  exists level reason, 0 < level /\ s' = snd (DoS level false REJECT_INVALID reason false "" s).
(** [m] goes on with [a] and the state unchanged when [P] holds, and rejects otherwise. *)
Definition decides {A} (m : check A) (P : Prop) (a : A) : Prop :=
  forall s, P /\ m s = (Some a, s) \/ ~ P /\ exists s', m s = (None, s') /\ rejected s s'.
(** [m] goes on only when [P] holds. *)
Definition accepts_only {A} (m : check A) (P : Prop) : Prop := forall s a s', m s = (Some a, s') -> P.

Lemma decides_reject_if b level reason : 0 < level -> decides (reject_if b level REJECT_INVALID reason) (b = false) tt.
Proof.
  intros Hl s. unfold reject_if. destruct b; [|by left]. right. split; [done|]. eexists. split; [done|]. by exists level, reason.
Qed.
Lemma decides_bind {A B} (m : check A) (f : A -> check B) P Q a b :
  decides m P a -> (P -> decides (f a) Q b) -> decides (m ≫= f) (P /\ Q) b.
Proof.
  intros Hm Hf s. unfold mbind, check_bind. destruct (Hm s) as [[HP ->]|[HP (s' & -> & Hr)]].
  - destruct (Hf HP s) as [[HQ ->]|[HQ H']]; [by left|]. right. split; [tauto|done].
  - right. split; [tauto|]. by exists s'.
Qed.
Lemma decides_ret {A} (a : A) : decides (mret a) True a.
Proof. intros s. by left. Qed.
Lemma decides_iff {A} (m : check A) P Q a : (P <-> Q) -> decides m P a -> decides m Q a.
Proof. intros HPQ Hm s. destruct (Hm s) as [[? ?]|[? ?]]; [left|right]; tauto. Qed.
Lemma accepts_reject_if b level code reason : accepts_only (reject_if b level code reason) (b = false).
Proof. intros s a s'. unfold reject_if. by destruct b. Qed.
Lemma accepts_bind {A B} (m : check A) (f : A -> check B) P Q :
  accepts_only m P -> (P -> forall a, accepts_only (f a) Q) -> accepts_only (m ≫= f) (P /\ Q).
Proof.
  intros Hm Hf s b s'. unfold mbind, check_bind. destruct (m s) as [[a|] s1] eqn:E; [|done]. intros Hb.
  split; [by eapply Hm|]. eapply Hf; [by eapply Hm|done].
Qed.
Lemma accepts_iff {A} (m : check A) (P Q : Prop) : (P -> Q) -> accepts_only m P -> accepts_only m Q.
Proof. intros HPQ Hm s a s' Ha. eapply HPQ, Hm, Ha. Qed.
Lemma accepts_any {A} (m : check A) : accepts_only m True.
Proof. done. Qed.
(** Steps that check nothing here. *)
Lemma decides_skip {A B} (a : A) (f : A -> check B) Q b : decides (f a) Q b -> decides (mret a ≫= f) Q b.
Proof. done. Qed.
Lemma accepts_skip {A B} (m : check A) (f : A -> check B) Q : (forall a, accepts_only (f a) Q) -> accepts_only (m ≫= f) Q.
Proof. intros Hf s b s'. unfold mbind, check_bind. destruct (m s) as [[a|] s1]; [apply Hf|done]. Qed.
#[export] Hint Resolve accepts_reject_if accepts_any decides_ret : anker.

(** ** What a well-formed transaction is *)

Section check_laws.
Context `{ZerocoinChecks} (params : CChainParams) (fVerifySignature : bool) (tipHeight : Z).
Context (Hmax : 0 <= MaxMoneyOut params < 2 ^ 62).

Fixpoint total (l : list CTxOut) : Z := match l with [] => 0 | o :: l => nValue o + total l end.
Definition outs_ok (l : list CTxOut) : Prop := Forall (fun o => 0 <= nValue o) l /\ total l <= MaxMoneyOut params.
(** No earlier input has the same prevout, unless its script begins a zerocoin spend. *)
Definition inputs_distinct (l : list CTxIn) : Prop :=
  ForallOrdPairs (fun a b => prevout a = prevout b -> IsZerocoinSpend (scriptSig a) = true) l.
Definition base_size (t : CMutableTransaction) : Z :=
  u32 (Z.of_nat (length (tx_bytes (fAllowWitness (Z.lor PROTOCOL_VERSION SERIALIZE_TRANSACTION_NO_WITNESS)) t))).
Definition well_formed (t : CMutableTransaction) : Prop :=
  vin t <> [] /\ vout t <> [] /\ base_size t <= MAX_BLOCK_BASE_SIZE /\ outs_ok (vout t) /\ inputs_distinct (vin t) /\
  (IsCoinBase t = true -> forall i, head (vin t) = Some i -> 2 <= size (scriptSig i) <= 150).

Lemma total_nonneg l : Forall (fun o => 0 <= nValue o) l -> 0 <= total l.
Proof. induction 1; cbn; lia. Qed.
Lemma outs_step v o l : 0 <= v <= MaxMoneyOut params ->
  (nValue o <? 0) = false /\ (nValue o >? MaxMoneyOut params) = false /\ negb (MoneyRange params (i64 (v + nValue o))) = false /\
    (Forall (fun o => 0 <= nValue o) l /\ i64 (v + nValue o) + total l <= MaxMoneyOut params) <->
  Forall (fun o => 0 <= nValue o) (o :: l) /\ v + total (o :: l) <= MaxMoneyOut params.
Proof.
  intros Hv. rewrite Forall_cons_iff. cbn [total]. rewrite Z.gtb_ltb, !Z.ltb_ge. unfold MoneyRange. split.
  - intros (H0 & H1 & _ & H3 & H4). rewrite i64_small in H4 by lia. split; [done|lia].
  - intros [[H0 H1] H2]. pose proof (total_nonneg l H1). rewrite i64_small by lia. split_and!; try done; lia.
Qed.
Lemma step_value v o : 0 <= v <= MaxMoneyOut params -> (nValue o <? 0) = false -> negb (MoneyRange params (i64 (v + nValue o))) = false ->
  0 <= i64 (v + nValue o) <= MaxMoneyOut params.
Proof. intros Hv H0 H1. unfold MoneyRange in H1. lia. Qed.

Lemma outs_loop_decides h l v n : 0 <= v <= MaxMoneyOut params ->
  decides (outs_loop params false h l v n) (Forall (fun o => 0 <= nValue o) l /\ v + total l <= MaxMoneyOut params) n.
Proof.
  revert v n. induction l as [|o l IH]; intros v n Hv; cbn [outs_loop andb].
  - eapply decides_iff; [|apply decides_ret]. split; [|done]. intros _. split; [done|]. cbn. lia.
  - eapply decides_iff; [by apply outs_step|].
    apply (decides_bind _ _ _ _ tt); [by apply decides_reject_if|]. intros H0.
    apply (decides_bind _ _ _ _ tt); [by apply decides_reject_if|]. intros H1.
    apply (decides_bind _ _ _ _ tt); [by apply decides_reject_if|]. intros H2.
    apply decides_skip, IH. by apply step_value.
Qed.
Lemma outs_loop_accepts fz h l v n : 0 <= v <= MaxMoneyOut params ->
  accepts_only (outs_loop params fz h l v n) (Forall (fun o => 0 <= nValue o) l /\ v + total l <= MaxMoneyOut params).
Proof.
  revert v n. induction l as [|o l IH]; intros v n Hv; cbn [outs_loop].
  - intros s a s' _. split; [done|]. cbn. lia.
  - eapply accepts_iff; [by apply outs_step|].
    apply accepts_bind; [auto with anker|]. intros H0 _. apply accepts_bind; [auto with anker|]. intros H1 _.
    apply accepts_bind; [auto with anker|]. intros H2 _.
    apply accepts_skip. intros _. apply IH. by apply step_value.
Qed.

Lemma dup_step i l (seen : gset COutPoint) :
  bool_decide (prevout i ∈ seen) = false /\
    (Forall (fun j => prevout j ∉ (if negb (IsZerocoinSpend (scriptSig i)) then {[prevout i]} ∪ seen else seen)) l /\ inputs_distinct l) <->
  Forall (fun j => prevout j ∉ seen) (i :: l) /\ inputs_distinct (i :: l).
Proof.
  unfold inputs_distinct. rewrite bool_decide_eq_false, Forall_cons_iff.
  assert (Hf : ForallOrdPairs (fun a b => prevout a = prevout b -> IsZerocoinSpend (scriptSig a) = true) (i :: l) <->
    Forall (fun b => prevout i = prevout b -> IsZerocoinSpend (scriptSig i) = true) l /\
    ForallOrdPairs (fun a b => prevout a = prevout b -> IsZerocoinSpend (scriptSig a) = true) l).
  { split; [by inversion 1|]. intros [? ?]. by constructor. }
  rewrite Hf. rewrite !list.Forall_forall. destruct (IsZerocoinSpend (scriptSig i)); cbn [negb].
  - tauto.
  - split; [intros (? & H1 & ?)|intros ((? & H1) & H2 & ?)]; split_and!; try done.
    + intros j Hj. by destruct (proj1 (not_elem_of_union _ _ _) (H1 j Hj)).
    + intros j Hj He. destruct (proj1 (not_elem_of_union _ _ _) (H1 j Hj)) as [Hn _]. by rewrite not_elem_of_singleton, He in Hn.
    + intros j Hj. rewrite not_elem_of_union, not_elem_of_singleton. split; [|by apply H1]. intros He. by specialize (H2 j Hj (eq_sym He)).
Qed.
Lemma dup_loop_decides l seen : decides (dup_loop l seen) (Forall (fun j => prevout j ∉ seen) l /\ inputs_distinct l) tt.
Proof.
  revert seen. induction l as [|i l IH]; intros seen; cbn [dup_loop].
  - eapply decides_iff; [|apply decides_ret]. split; [|done]. intros _. split; constructor.
  - eapply decides_iff; [by apply dup_step|]. apply (decides_bind _ _ _ _ tt); [by apply decides_reject_if|]. intros _. apply IH.
Qed.
Lemma decides_accepts {A} (m : check A) P a : decides m P a -> accepts_only m P.
Proof. intros Hm s b s' E. destruct (Hm s) as [[? _]|[_ (s1 & E' & _)]]; [done|]. rewrite E in E'. done. Qed.

(** A coinbase is neither a zerocoin spend nor has one as first input. *)
Lemma last_part_decides t : decides (last_part params false t)
  (IsCoinBase t = true -> forall i, head (vin t) = Some i -> 2 <= size (scriptSig i) <= 150) tt.
Proof.
  unfold last_part. destruct (IsCoinBase t) eqn:E; cbn [andb].
  - eapply decides_iff; [|by apply decides_reject_if]. unfold IsCoinBase in E. destruct (vin t) as [|i [|? ?]]; try done.
    rewrite orb_false_iff, Z.gtb_ltb, !Z.ltb_ge. cbn [head]. split; [intros [? ?] _ j [= <-]; lia|intros Hc; specialize (Hc eq_refl i eq_refl); lia].
  - eapply decides_iff; [|by apply decides_reject_if]. split; [done|]. intros _. apply not_true_iff_false. intros (i & _ & Hi)%existsb_exists.
    rewrite andb_false_r in Hi. done.
Qed.
Lemma last_part_accepts fz t : accepts_only (last_part params fz t)
  (IsCoinBase t = true -> forall i, head (vin t) = Some i -> 2 <= size (scriptSig i) <= 150).
Proof.
  intros s a s' E Hc. eapply (decides_accepts _ _ _ (last_part_decides t)); [|done].
  unfold last_part in *. rewrite Hc in *. exact E.
Qed.
Lemma nonempty_iff {A} (l : list A) : Nat.eqb (length l) 0 = false <-> l <> [].
Proof. destruct l; cbn; [split; [done|intros H0; by destruct H0]|done]. Qed.
Lemma size_ok_iff t : (base_size t >? MAX_BLOCK_BASE_SIZE) = false <-> base_size t <= MAX_BLOCK_BASE_SIZE.
Proof. by rewrite Z.gtb_ltb, Z.ltb_ge. Qed.
Lemma CheckTransaction_decides t fr fw :
  decides (CheckTransaction params fVerifySignature tipHeight t false fr fw) (well_formed t) tt.
Proof.
  unfold CheckTransaction, well_formed. eapply decides_iff; cycle 1.
  - eapply (decides_bind _ _ _ _ tt); [by apply decides_reject_if|]. intros _. eapply (decides_bind _ _ _ _ tt); [by apply decides_reject_if|]. intros _.
    eapply (decides_bind _ _ _ _ tt); [by apply decides_reject_if|]. intros _. eapply decides_bind; [apply outs_loop_decides; lia|]. intros _.
    apply decides_skip. eapply (decides_bind _ _ _ _ tt); [apply dup_loop_decides|]. intros _. apply last_part_decides.
  - fold (base_size t). rewrite !nonempty_iff, size_ok_iff. unfold outs_ok. rewrite Z.add_0_l.
    assert (Forall (fun j => prevout j ∉ (∅ : gset COutPoint)) (vin t)) by (apply list.Forall_forall; intros j _; apply not_elem_of_empty). tauto.
Qed.
Lemma CheckTransaction_accepts t fz fr fw :
  accepts_only (CheckTransaction params fVerifySignature tipHeight t fz fr fw) (well_formed t).
Proof.
  unfold CheckTransaction, well_formed. eapply accepts_iff; cycle 1.
  - eapply accepts_bind; [apply accepts_reject_if|]. intros _ _. eapply accepts_bind; [apply accepts_reject_if|]. intros _ _.
    eapply accepts_bind; [apply accepts_reject_if|]. intros _ _. eapply accepts_bind; [apply outs_loop_accepts; lia|]. intros _ n.
    apply accepts_skip. intros _. eapply accepts_bind; [eapply decides_accepts, dup_loop_decides|]. intros _ _. apply last_part_accepts.
  - fold (base_size t). rewrite !nonempty_iff, size_ok_iff. unfold outs_ok. rewrite Z.add_0_l. tauto.
Qed.

(** The sum of the outputs neither throws nor wraps. *)
Lemma GetValueOut_total_loop l v : 0 <= v -> Forall (fun o => 0 <= nValue o) l -> v + total l < 2 ^ 62 -> GetValueOut_loop l v = Some (v + total l).
Proof.
  revert v. induction l as [|o l IH]; intros v Hv Hl Hs; cbn [GetValueOut_loop total] in *; [f_equal; lia|].
  apply Forall_cons_iff in Hl as [Ho Hl]. pose proof (total_nonneg l Hl). rewrite i64_small by lia.
  destruct (Z.ltb_spec (nValue o) 0); [lia|]. destruct (Z.ltb_spec (v + nValue o) v); [lia|]. rewrite IH by (done || lia). f_equal. lia.
Qed.
Lemma GetValueOut_total (t : CMutableTransaction) : outs_ok (vout t) -> GetValueOut t = Some (total (vout t)) /\ 0 <= total (vout t).
Proof.
  intros [Ho Hs]. pose proof (total_nonneg _ Ho). split; [|done]. unfold GetValueOut. rewrite GetValueOut_total_loop by (done || lia). f_equal.
Qed.
Lemma distinct_NoDup l : inputs_distinct l -> Forall (fun i => IsZerocoinSpend (scriptSig i) = false) l -> NoDup (map prevout l).
Proof.
  induction 1 as [|i l Hi Hl IH]; intros Hz; cbn [map]; [constructor|]. apply Forall_cons_iff in Hz as [Hz Hl'].
  constructor; [|by apply IH]. intros (j & He & Hj)%list_elem_of_fmap. rewrite list.Forall_forall in Hi.
  rewrite (Hi j Hj He) in Hz. done.
Qed.
End check_laws.

(** Two transactions that should not pass: one lists its only input twice, the other has a
    null prevout beside a proper one. *)
Definition zc_input : CTxIn := mkTxIn (mkOutPoint (replicate 32 7) 0) [OP_ZEROCOINSPEND] 0 [].
Definition repeated : CMutableTransaction := mkTx 1 [zc_input; zc_input] [mkTxOut 0 [81] (-10)] [] 0.
Definition null_beside : CMutableTransaction :=
  mkTx 1 [null_txin; mkTxIn (mkOutPoint (replicate 32 7) 0) [] 0 []] [mkTxOut 0 [81] (-10)] [] 0.
Lemma repeated_well_formed params : 0 <= MaxMoneyOut params -> well_formed params repeated.
Proof.
  intros Hm. unfold well_formed. split_and!; try done.
  - split; [by repeat constructor|done].
  - repeat constructor.
Qed.
Lemma null_beside_well_formed params : 0 <= MaxMoneyOut params -> well_formed params null_beside.
Proof.
  intros Hm. unfold well_formed. split_and!; try done.
  - split; [by repeat constructor|done].
  - repeat constructor. done.
Qed.
Lemma rejected_not_valid s s' : rejected s s' -> IsValid s' = false.
Proof. intros (l & r & _ & ->). unfold DoS, IsValid. by destruct (mode s). Qed.

(** C9: what [CheckTransaction] accepts, for any zerocoin component and any limit on money
    below 2^62.  Without zerocoin it accepts exactly the well-formed transactions (inputs,
    outputs, a size within the limit, outputs that are not negative and sum up to at most the
    limit, no input listed twice, a coinbase script of 2 to 150 bytes) and leaves the state as
    it was; every other transaction is refused with the code of an invalid transaction and a
    penalty, and the state is not valid any more.  With zerocoin it still accepts only
    those.  For an accepted transaction [GetValueOut] does not throw, its sum is in
    [MoneyRange], and, unless a script begins a zerocoin spend, no input occurs twice.  But an
    input whose script begins with OP_ZEROCOINSPEND may be repeated whatever it spends, and
    without zerocoin a null prevout beside other inputs is not refused. *)
Theorem CheckTransaction_correct `{ZerocoinChecks} (params : CChainParams) (fVerifySignature : bool) (tipHeight : Z)
    (fr fw : bool) (s : CValidationState) : 0 <= MaxMoneyOut params < 2 ^ 62 ->
  let run t fz := CheckTransaction params fVerifySignature tipHeight t fz fr fw s in
  (forall t : CTransaction, well_formed params t -> run t false = (Some tt, s)) /\
  (forall t : CTransaction, ~ well_formed params t -> exists s', run t false = (None, s') /\ rejected s s' /\ IsValid s' = false) /\
  (forall (t : CTransaction) fz, fst (run t fz) = Some tt -> well_formed params t /\
    (exists v, GetValueOut t = Some v /\ MoneyRange params v = true) /\
    (Forall (fun i => IsZerocoinSpend (scriptSig i) = false) (vin t) -> NoDup (map prevout (vin t)))) /\
  (exists t, run t false = (Some tt, s) /\ ~ NoDup (map prevout (vin t)) /\ Forall (fun i => OutPoint_IsNull (prevout i) = false) (vin t)) /\
  (exists t, run t false = (Some tt, s) /\ IsCoinBase t = false /\ Exists (fun i => OutPoint_IsNull (prevout i) = true) (vin t)).
Proof.
  intros Hm run.
  assert (Hgood : forall t : CTransaction, well_formed params t -> run t false = (Some tt, s)).
  { intros t Hw. destruct (CheckTransaction_decides params fVerifySignature tipHeight Hm t fr fw s) as [[_ E]|[Hn _]]; done. }
  split; [done|split; [|split; [|split]]].
  - intros t Hn. destruct (CheckTransaction_decides params fVerifySignature tipHeight Hm t fr fw s) as [[Hw _]|[_ (s' & E & Hr)]]; [done|].
    exists s'. split; [done|split; [done|by eapply rejected_not_valid]].
  - intros t fz E. destruct (run t fz) as [r s'] eqn:R. cbn in E. subst r.
    assert (Hw : well_formed params t) by by eapply (CheckTransaction_accepts params fVerifySignature tipHeight Hm t fz fr fw s).
    split; [done|]. destruct Hw as (_ & _ & _ & Ho & Hd & _). destruct (GetValueOut_total params Hm t Ho) as [Hv Hp]. split.
    + eexists. split; [done|]. unfold MoneyRange. destruct Ho as [_ Ho]. lia.
    + by apply distinct_NoDup.
  - exists (mkCTx hash_zero repeated). split; [apply Hgood, repeated_well_formed; lia|split].
    + cbn. intros [Hn _]%list.NoDup_cons. apply Hn. left.
    + by repeat constructor.
  - exists (mkCTx hash_zero null_beside). split; [apply Hgood, null_beside_well_formed; lia|split; [done|]]. by left.
Qed.

Definition no_zerocoin : ZerocoinChecks := {| CheckZerocoinMint := fun _ _ _ s => (false, s); CheckZerocoinSpend := fun _ _ _ s => (false, s) |}.
Lemma CheckTransaction_correct_witness : 0 <= MaxMoneyOut CMainParams < 2 ^ 62 /\
  exists s, CheckTransaction (H := no_zerocoin) CMainParams true 0 (mkCTx hash_zero CMutableTransaction_default) false false false CValidationState_new = (None, s) /\
    nDoS s = 10.
Proof.
  assert (Hm : 0 <= MaxMoneyOut CMainParams < 2 ^ 62) by done. split; [exact Hm|].
  destruct (CheckTransaction_correct (H := no_zerocoin) CMainParams true 0 false false CValidationState_new Hm) as (_ & Hbad & _).
  destruct (Hbad (mkCTx hash_zero CMutableTransaction_default)) as (s & E & _ & _); [by intros []|]. exists s. split; [exact E|].
  cbv in E. by injection E as <-.
Defined.
