(* ===== verification/Ledger.v ===== *)
(** Transactions against the unspent outputs ([src/src/main.cpp]: [CScriptCheck], [CheckInputs],
    [UpdateCoins]; [src/src/script/script_error.cpp]), over any view that keeps the contract of
    [CCoinsViewLaws].  The specification works on what is visible of a view. *)
From S2P Require Import Prelude Serialize Stream Hashers Script SigChecks Interp Payments Merkle Transaction SigHash Compressor Coins CoinsView TxChecks.

Definition ScriptErrorString (serror : ScriptError) : string :=
  match serror with
  | SCRIPT_ERR_OK => "No error"
  | SCRIPT_ERR_EVAL_FALSE => "Script evaluated without error but finished with a false/empty top stack element"
  | SCRIPT_ERR_VERIFY => "Script failed an OP_VERIFY operation"
  | SCRIPT_ERR_EQUALVERIFY => "Script failed an OP_EQUALVERIFY operation"
  | SCRIPT_ERR_CHECKMULTISIGVERIFY => "Script failed an OP_CHECKMULTISIGVERIFY operation"
  | SCRIPT_ERR_CHECKSIGVERIFY => "Script failed an OP_CHECKSIGVERIFY operation"
  | SCRIPT_ERR_NUMEQUALVERIFY => "Script failed an OP_NUMEQUALVERIFY operation"
  | SCRIPT_ERR_SCRIPT_SIZE => "Script is too big"
  | SCRIPT_ERR_PUSH_SIZE => "Push value size limit exceeded"
  | SCRIPT_ERR_OP_COUNT => "Operation limit exceeded"
  | SCRIPT_ERR_STACK_SIZE => "Stack size limit exceeded"
  | SCRIPT_ERR_SIG_COUNT => "Signature count negative or greater than pubkey count"
  | SCRIPT_ERR_PUBKEY_COUNT => "Pubkey count negative or limit exceeded"
  | SCRIPT_ERR_BAD_OPCODE => "Opcode missing or not understood"
  | SCRIPT_ERR_DISABLED_OPCODE => "Attempted to use a disabled opcode"
  | SCRIPT_ERR_INVALID_STACK_OPERATION => "Operation not valid with the current stack size"
  | SCRIPT_ERR_INVALID_ALTSTACK_OPERATION => "Operation not valid with the current altstack size"
  | SCRIPT_ERR_OP_RETURN => "OP_RETURN was encountered"
  | SCRIPT_ERR_UNBALANCED_CONDITIONAL => "Invalid OP_IF construction"
  | SCRIPT_ERR_NEGATIVE_LOCKTIME => "Negative locktime"
  | SCRIPT_ERR_UNSATISFIED_LOCKTIME => "Locktime requirement not satisfied"
  | SCRIPT_ERR_SIG_HASHTYPE => "Signature hash type missing or not understood"
  | SCRIPT_ERR_SIG_DER => "Non-canonical DER signature"
  | SCRIPT_ERR_MINIMALDATA => "Data push larger than necessary"
  | SCRIPT_ERR_SIG_PUSHONLY => "Only non-push operators allowed in signatures"
  | SCRIPT_ERR_SIG_HIGH_S => "Non-canonical signature: S value is unnecessarily high"
  | SCRIPT_ERR_SIG_NULLDUMMY => "Dummy CHECKMULTISIG argument must be zero"
  | SCRIPT_ERR_DISCOURAGE_UPGRADABLE_NOPS => "NOPx reserved for soft-fork upgrades"
  | SCRIPT_ERR_DISCOURAGE_UPGRADABLE_WITNESS_PROGRAM => "Witness version reserved for soft-fork upgrades"
  | SCRIPT_ERR_PUBKEYTYPE => "Public key is neither compressed or uncompressed"
  | SCRIPT_ERR_WITNESS_PROGRAM_WRONG_LENGTH => "Witness program has incorrect length"
  | SCRIPT_ERR_WITNESS_PROGRAM_WITNESS_EMPTY => "Witness program was passed an empty witness"
  | SCRIPT_ERR_WITNESS_PROGRAM_MISMATCH => "Witness program hash mismatch"
  | SCRIPT_ERR_WITNESS_MALLEATED => "Witness requires empty scriptSig"
  | SCRIPT_ERR_WITNESS_MALLEATED_P2SH => "Witness requires only-redeemscript scriptSig"
  | SCRIPT_ERR_WITNESS_UNEXPECTED => "Witness provided for non-witness script"
  | SCRIPT_ERR_CLEANSTACK => "Extra items left on stack after execution"
  | SCRIPT_ERR_WITNESS_PUBKEYTYPE => "Using non-compressed keys in segwit"
  | _ => "unknown error"
  end.
Definition STANDARD_NOT_MANDATORY_VERIFY_FLAGS : Z := Z.ldiff STANDARD_SCRIPT_VERIFY_FLAGS MANDATORY_SCRIPT_VERIFY_FLAGS.

(** ** Checks that read a view

    The outer [None] is a failed assertion or an exception; an inner one has returned [false]. *)
Definition vcheck (S A : Type) : Type := CValidationState -> CCoinsViewCache S -> option (option A * CValidationState * CCoinsViewCache S).
#[export] Instance vcheck_ret S : MRet (vcheck S) := fun A a s c => Some (Some a, s, c).
#[export] Instance vcheck_bind S : MBind (vcheck S) := fun A B f m s c =>
  match m s c with
  | Some (Some a, s', c') => f a s' c'
  | Some (None, s', c') => Some (None, s', c')
  | None => None
  end.
Definition demand_some {S A} (o : option A) : vcheck S A := fun s c => a ← o; Some (Some a, s, c).
Definition reading {S A} (f : CCoinsViewCache S -> A * CCoinsViewCache S) : vcheck S A := fun s c => let '(a, c') := f c in Some (Some a, s, c').
Definition vreject_if {S} (cond : bool) (level code : Z) (reason : string) : vcheck S unit := fun s c =>
  let '(r, s') := reject_if cond level code reason s in Some (r, s', c).

(** ** [CScriptCheck] and [CheckInputs] *)

Record CScriptCheck := mkScriptCheck {
  sc_scriptPubKey : CScript;
  sc_amount : CAmount;
  sc_nIn : nat;
  sc_nFlags : Z;
  sc_cacheStore : bool
}.

Section inputs.
Context {S : Type} `{CCoinsView S}.
(** [CPubKey::Verify], seen through the cache of valid signatures; the height of an indexed
    block. *)
Context (Verify : valtype -> hash256 -> valtype -> bool) (index_height : hash256 -> option Z).
Context (params : CChainParams).

Definition run_check (t : CMutableTransaction) (k : CScriptCheck) : outcome unit :=
  VerifyScript (checker := TransactionSignatureChecker Verify t (sc_nIn k) (sc_amount k))
    (scriptSig (nth (sc_nIn k) (vin t) null_txin)) (sc_scriptPubKey k) (nth (sc_nIn k) (wit t) []) (sc_nFlags k).
Definition spent_out (c : CCoins) (o : COutPoint) : CTxOut := nth (Z.to_nat (out_n o)) (c_vout c) TxOut_null.
Definition CScriptCheck_of (c : CCoins) (o : COutPoint) (nIn : nat) (nFlags : Z) (cacheStore : bool) : CScriptCheck :=
  mkScriptCheck (scriptPubKey (spent_out c o)) (nValue (spent_out c o)) nIn nFlags cacheStore.

Fixpoint values_loop (nSpendHeight : Z) (l : list CTxIn) (nValueIn : CAmount) : vcheck S CAmount :=
  match l with
  | [] => mret nValueIn
  | i :: l =>
      r ← reading (AccessCoins (out_hash (prevout i)));
      coins ← demand_some r;
      vreject_if ((fCoinBase coins || fCoinStake coins) && (nSpendHeight - nHeight coins <? COINBASE_MATURITY params))
        0 REJECT_INVALID "bad-txns-premature-spend-of-coinbase";;
      let v := nValue (spent_out coins (prevout i)) in
      let nValueIn := i64 (nValueIn + v) in
      vreject_if (negb (MoneyRange params v) || negb (MoneyRange params nValueIn)) 100 REJECT_INVALID "bad-txns-inputvalues-outofrange";;
      values_loop nSpendHeight l nValueIn
  end.
Definition fee_checks (t : CMutableTransaction) (nValueIn : CAmount) : vcheck S unit :=
  nValueOut ← demand_some (GetValueOut t);
  vreject_if (nValueIn <? nValueOut) 100 REJECT_INVALID "bad-txns-in-belowout";;
  let nTxFee := i64 (nValueIn - nValueOut) in
  vreject_if (nTxFee <? 0) 100 REJECT_INVALID "bad-txns-fee-negative";;
  vreject_if (negb (MoneyRange params nTxFee)) 100 REJECT_INVALID "bad-txns-fee-outofrange".
Definition check_one (t : CMutableTransaction) (coins : CCoins) (o : COutPoint) (k : nat) (flags : Z) (cacheStore : bool) : vcheck S unit :=
  match run_check t (CScriptCheck_of coins o k flags cacheStore) with
  | Ok _ => mret tt
  | Abort => demand_some None
  | Err e =>
      (if negb (Z.land flags STANDARD_NOT_MANDATORY_VERIFY_FLAGS =? 0) then
        match run_check t (CScriptCheck_of coins o k (Z.ldiff flags STANDARD_NOT_MANDATORY_VERIFY_FLAGS) cacheStore) with
        | Ok _ => vreject_if true 0 REJECT_NONSTANDARD ("non-mandatory-script-verify-flag (" ++ ScriptErrorString e ++ ")")
        | Abort => demand_some None
        | Err _ => mret tt
        end
      else mret tt : vcheck S unit);;
      vreject_if true 100 REJECT_INVALID ("mandatory-script-verify-flag-failed (" ++ ScriptErrorString e ++ ")")
  end.
(** With a list to fill ([pvChecks]) the checks are handed out instead of run. *)
Fixpoint scripts_loop (t : CMutableTransaction) (flags : Z) (cacheStore queue : bool) (l : list CTxIn) (k : nat) : vcheck S (list CScriptCheck) :=
  match l with
  | [] => mret []
  | i :: l =>
      r ← reading (AccessCoins (out_hash (prevout i)));
      coins ← demand_some r;
      if queue then
        q ← scripts_loop t flags cacheStore queue l (Datatypes.S k);
        mret (CScriptCheck_of coins (prevout i) k flags cacheStore :: q)
      else check_one t coins (prevout i) k flags cacheStore;; scripts_loop t flags cacheStore queue l (Datatypes.S k)
  end.
Definition CheckInputs (t : CTransaction) (fScriptChecks : bool) (flags : Z) (cacheStore queue : bool) : vcheck S (list CScriptCheck) :=
  if negb (IsCoinBase t) && negb (Tx_IsZerocoinSpend t) then
    have ← reading (HaveInputs t);
    vreject_if (negb have) 0 0 "";;
    best ← reading cache_GetBestBlock;
    nHeightPrev ← demand_some (index_height best);
    nValueIn ← values_loop (nHeightPrev + 1) (vin t) 0;
    (if negb (IsCoinStake t) then fee_checks t nValueIn else mret tt : vcheck S unit);;
    if fScriptChecks then scripts_loop t flags cacheStore queue (vin t) 0 else mret []
  else mret [].

(** ** [UpdateCoins] *)

Definition CTxUndo := list CTxInUndo.
Fixpoint spend_loop (l : list CTxIn) (c : CCoinsViewCache S) : option (CTxUndo * CCoinsViewCache S) :=
  match l with
  | [] => Some ([], c)
  | i :: l =>
      '(u, c) ← with_coins (out_hash (prevout i)) (spend_coins (out_n (prevout i))) c;
      '(us, c) ← spend_loop l c;
      Some (u :: us, c)
  end.
Definition UpdateCoins (t : CTransaction) (nHeight : Z) (c : CCoinsViewCache S) : option (CTxUndo * CCoinsViewCache S) :=
  '(txundo, c) ← (if negb (IsCoinBase t) && negb (Tx_IsZerocoinSpend t) then spend_loop (vin t) c else Some ([], c));
  '(_, c) ← with_coins (cached_hash t) (fun _ => Some (tt, FromTx t nHeight)) c;
  Some (txundo, c).
End inputs.

(** ** The specification: what is visible of a view *)

#[local] Arguments visible : simpl never.
Definition View : Type := hash256 -> option CCoins.
Definition upd (v : View) (h : hash256) (x : option CCoins) : View := fun k => if decide (k = h) then x else v k.
Definition vw {S} `{CCoinsViewLaws S} (c : CCoinsViewCache S) : View := fun h => visible (cache_view c h).

(** The output an outpoint refers to, while it is unspent. *)
Definition unspent_out (c : CCoins) (n : Z) : option CTxOut :=
  if Z.of_nat (length (c_vout c)) <=? n then None else
  let o := nth (Z.to_nat n) (c_vout c) TxOut_null in
  if TxOut_IsNull o then None else Some o.
Definition utxo (v : View) (o : COutPoint) : option CTxOut := c ← v (out_hash o); unspent_out c (out_n o).

Definition vspend (v : View) (o : COutPoint) : option (CTxInUndo * View) :=
  c ← v (out_hash o);
  '(c', u) ← Spend c (out_n o);
  Some (u, upd v (out_hash o) (visible (Some c'))).
Fixpoint vspends (v : View) (l : list CTxIn) : option (CTxUndo * View) :=
  match l with
  | [] => Some ([], v)
  | i :: l => '(u, v) ← vspend v (prevout i); '(us, v) ← vspends v l; Some (u :: us, v)
  end.
Definition spends (t : CMutableTransaction) : list CTxIn := if negb (IsCoinBase t) && negb (Tx_IsZerocoinSpend t) then vin t else [].
Definition vupdate (v : View) (t : CTransaction) (nHeight : Z) : option (CTxUndo * View) :=
  '(us, v) ← vspends v (spends t); Some (us, upd v (cached_hash t) (visible (Some (FromTx t nHeight)))).

Lemma upd_same v h x : upd v h x h = x.
Proof. unfold upd. by destruct (decide (h = h)). Qed.
Lemma upd_other v h x k : k <> h -> upd v h x k = v k.
Proof. intros. unfold upd. by destruct (decide (k = h)). Qed.

Lemma visible_Some o c : visible o = Some c -> o = Some c /\ IsPruned c = false.
Proof. destruct o as [d|]; [|done]. unfold visible. cbn. destruct (IsPruned d) eqn:E; [done|]. by intros [= <-]. Qed.
Lemma visible_pruned c : IsPruned c = true -> visible (Some c) = None.
Proof. unfold visible. cbn. by intros ->. Qed.
Lemma forallb_nth_true {A} (f : A -> bool) l n d : forallb f l = true -> (n < length l)%nat -> f (nth n l d) = true.
Proof. intros Hl Hn. rewrite forallb_forall in Hl. apply Hl, nth_In, Hn. Qed.
Lemma pruned_unspent c n : IsPruned c = true -> unspent_out c n = None.
Proof.
  intros Hp. unfold unspent_out. destruct (Z.leb_spec (Z.of_nat (length (c_vout c))) n); [done|].
  destruct (Nat.ltb_spec (Z.to_nat n) (length (c_vout c))).
  - by rewrite (forallb_nth_true TxOut_IsNull _ _ TxOut_null Hp) by done.
  - by rewrite nth_overflow by done.
Qed.
Lemma Spend_unspent c n : Spend c n = x ← unspent_out c n;
  let c' := Cleanup (set_vout c (<[Z.to_nat n := TxOut_null]> (c_vout c))) in
  Some (c', if Nat.eqb (length (c_vout c')) 0 then mkUndo x (fCoinBase c') (fCoinStake c') (u32 (nHeight c')) (c_nVersion c') else CTxInUndo_of x).
Proof.
  unfold Spend, unspent_out. destruct (_ <=? _); [done|]. destruct (TxOut_IsNull _); [done|]. cbn [mbind option_bind]. f_equal.
Qed.
Lemma Spend_clean c n c' u : Spend c n = Some (c', u) -> Cleanup c' = c'.
Proof. rewrite Spend_unspent. destruct (unspent_out c n); [|done]. cbn [mbind option_bind]. intros [= <- _]. apply Cleanup_idem. Qed.
Lemma Spend_pruned c n : IsPruned c = true -> Spend c n = None.
Proof. intros Hp. by rewrite Spend_unspent, pruned_unspent. Qed.

(** ** The operations refine the specification *)

Section refine.
Context {S : Type} `{CCoinsViewLaws S}.

Lemma with_spend c h n : cache_inv c ->
  match c0 ← vw c h; Spend c0 n with
  | Some (c', u) => exists d, with_coins h (spend_coins n) c = Some (u, d) /\ cache_inv d /\ hashBlock d = hashBlock c /\
      forall k, vw d k = upd (vw c) h (visible (Some c')) k
  | None => with_coins h (spend_coins n) c = None
  end.
Proof.
  intros Hc. pose proof (with_coins_spec h (spend_coins n) c Hc) as Hw. unfold vw at 1.
  assert (Hs : spend_coins n (default CCoins_empty (cache_view c h)) = '(c', u) ← (c0 ← visible (cache_view c h); Spend c0 n); Some (u, c')).
  { unfold spend_coins. destruct (cache_view c h) as [c0|]; unfold visible; cbn [from_option id mbind option_bind].
    - destruct (IsPruned c0) eqn:E; [|done]. by rewrite Spend_pruned.
    - by rewrite Spend_pruned. }
  rewrite Hs in Hw. destruct (c0 ← visible (cache_view c h); Spend c0 n) as [[c' u]|] eqn:E; cbn [mbind option_bind] in Hw; [|done].
  destruct Hw as (d & Hd & Hi & Hv & Ho & Hh). exists d. split_and!; try done. intros k. unfold upd, vw.
  destruct (decide (k = h)) as [->|Hk]; [|by rewrite Ho].
  destruct (visible (cache_view c h)) as [c0|]; [|done]. cbn [mbind option_bind] in E. rewrite (Spend_clean _ _ _ _ E) in Hv. exact Hv.
Qed.
Lemma upd_ext v w h x : (forall k, v k = w k) -> forall k, upd v h x k = upd w h x k.
Proof. intros Hv k. unfold upd. by destruct (decide (k = h)). Qed.
Lemma spend_loop_refines l c v : cache_inv c -> (forall k, vw c k = v k) ->
  match vspends v l with
  | Some (us, w) => exists d, spend_loop l c = Some (us, d) /\ cache_inv d /\ hashBlock d = hashBlock c /\ forall k, vw d k = w k
  | None => spend_loop l c = None
  end.
Proof.
  revert c v. induction l as [|i l IH]; intros c v Hc Hv; cbn [vspends spend_loop]; [by exists c|].
  pose proof (with_spend c (out_hash (prevout i)) (out_n (prevout i)) Hc) as Hw. unfold vspend. rewrite Hv in Hw.
  destruct (v (out_hash (prevout i))) as [c0|]; cbn [mbind option_bind] in *; [|by rewrite Hw].
  destruct (Spend c0 (out_n (prevout i))) as [[c' u]|]; cbn [mbind option_bind] in *; [|by rewrite Hw].
  destruct Hw as (d & -> & Hd & Hh & Hvd). cbn [mbind option_bind].
  specialize (IH d (upd v (out_hash (prevout i)) (visible (Some c'))) Hd). 
  assert (Hvd' : forall k, vw d k = upd v (out_hash (prevout i)) (visible (Some c')) k) by (intros k; rewrite Hvd; by apply upd_ext).
  specialize (IH Hvd'). destruct (vspends _ l) as [[us w]|]; cbn [mbind option_bind]; [|by rewrite IH].
  destruct IH as (e & -> & He & Hhe & Hve). exists e. cbn [mbind option_bind]. split_and!; try done. by rewrite Hhe.
Qed.
Lemma UpdateCoins_eq t n c : UpdateCoins t n c =
  '(us, d) ← spend_loop (spends t) c; '(_, d) ← with_coins (cached_hash t) (fun _ => Some (tt, FromTx t n)) d; Some (us, d).
Proof. unfold UpdateCoins, spends. by destruct (negb (IsCoinBase t) && negb (Tx_IsZerocoinSpend t)). Qed.
Lemma UpdateCoins_refines t n c v : cache_inv c -> (forall k, vw c k = v k) ->
  match vupdate v t n with
  | Some (us, w) => exists d, UpdateCoins t n c = Some (us, d) /\ cache_inv d /\ hashBlock d = hashBlock c /\ forall k, vw d k = w k
  | None => UpdateCoins t n c = None
  end.
Proof.
  intros Hc Hv. rewrite UpdateCoins_eq. unfold vupdate. pose proof (spend_loop_refines (spends t) c v Hc Hv) as Hin.
  destruct (vspends v (spends t)) as [[us w]|]; cbn [mbind option_bind]; [|by rewrite Hin].
  destruct Hin as (d & -> & Hd & Hh & Hvd). cbn [mbind option_bind].
  destruct (with_coins_spec (cached_hash t) (fun _ => Some (tt, FromTx t n)) d Hd) as (e & -> & He & Hve & Hoe & Hhe).
  cbn [mbind option_bind]. exists e. split_and!; try done; [by rewrite Hhe|]. intros k. unfold upd, vw.
  destruct (decide (k = cached_hash t)) as [->|Hk].
  - unfold FromTx, ClearUnspendable in *. rewrite Cleanup_idem in Hve. exact Hve.
  - rewrite Hoe by done. apply Hvd.
Qed.
End refine.

(** ** Unspent outputs under the operations *)

Lemma forallb_app_nth l nulls m : forallb TxOut_IsNull nulls = true -> (length l <= m)%nat ->
  TxOut_IsNull (nth m (l ++ nulls) TxOut_null) = true.
Proof.
  intros Hn Hm. rewrite app_nth2 by done. destruct (Nat.ltb_spec (m - length l) (length nulls)) as [Hlt|Hge].
  - by apply forallb_nth_true.
  - by rewrite nth_overflow by done.
Qed.
Lemma unspent_null c m : 0 <= m -> TxOut_IsNull (nth (Z.to_nat m) (c_vout c) TxOut_null) = true -> unspent_out c m = None.
Proof. intros _ Hn. unfold unspent_out. rewrite Hn. by destruct (_ <=? _). Qed.
Lemma unspent_Some c m x : 0 <= m -> unspent_out c m = Some x <->
  (Z.to_nat m < length (c_vout c))%nat /\ nth (Z.to_nat m) (c_vout c) TxOut_null = x /\ TxOut_IsNull x = false.
Proof.
  intros Hm. unfold unspent_out. destruct (Z.leb_spec (Z.of_nat (length (c_vout c))) m) as [Hle|Hlt]; [split; [done|lia]|].
  destruct (TxOut_IsNull (nth (Z.to_nat m) (c_vout c) TxOut_null)) eqn:E.
  - split; [done|]. intros (_ & <- & Hx). by rewrite E in Hx.
  - split; [intros [= <-]; split; [lia|done]|by intros (_ & -> & _)].
Qed.
Lemma unspent_Cleanup c m : 0 <= m -> unspent_out (Cleanup c) m = unspent_out c m.
Proof.
  intros Hm. destruct (Cleanup_vout_clean (c_vout c)) as (_ & k & nulls & Hv & _ & Hn).
  unfold unspent_out, Cleanup. cbn [set_vout c_vout]. set (w := Cleanup_vout (c_vout c)) in *. rewrite Hv, length_app. clearbody w.
  destruct (Z.leb_spec (Z.of_nat (length w)) m) as [Hle|Hlt].
  - rewrite (forallb_app_nth _ _ _ Hn) by lia. by destruct (_ <=? _).
  - rewrite app_nth1 by lia. by destruct (Z.leb_spec (Z.of_nat (length w + length nulls)) m); [lia|].
Qed.
Lemma unspent_insert c n x m : 0 <= n -> 0 <= m -> unspent_out (set_vout c (<[Z.to_nat n := x]> (c_vout c))) m =
  if decide (m = n) then (if (n <? Z.of_nat (length (c_vout c))) && negb (TxOut_IsNull x) then Some x else None) else unspent_out c m.
Proof.
  intros Hn Hm. unfold unspent_out. cbn [set_vout c_vout]. rewrite length_insert. destruct (decide (m = n)) as [->|Hne].
  - destruct (Z.leb_spec (Z.of_nat (length (c_vout c))) n), (Z.ltb_spec n (Z.of_nat (length (c_vout c)))); try lia; [done|].
    rewrite nth_lookup, list_lookup_insert_eq by lia. cbn. by destruct (TxOut_IsNull x).
  - destruct (_ <=? _); [done|]. rewrite !nth_lookup, list_lookup_insert_ne by lia. done.
Qed.
Lemma Spend_Some c n c' u : Spend c n = Some (c', u) <-> exists x, unspent_out c n = Some x /\
  c' = Cleanup (set_vout c (<[Z.to_nat n := TxOut_null]> (c_vout c))) /\
  u = if Nat.eqb (length (c_vout c')) 0 then mkUndo x (fCoinBase c') (fCoinStake c') (u32 (nHeight c')) (c_nVersion c') else CTxInUndo_of x.
Proof.
  rewrite Spend_unspent. destruct (unspent_out c n) as [x|]; cbn [mbind option_bind]; [|split; [done|by intros (x & ? & _)]].
  split; [intros [= <- <-]; by exists x|]. intros (y & [= <-] & -> & ->). done.
Qed.
Lemma Spend_txout c n c' u : Spend c n = Some (c', u) -> unspent_out c n = Some (txout u).
Proof. intros (x & Hx & _ & ->)%Spend_Some. by destruct (Nat.eqb _ _). Qed.
Lemma unspent_Spend c n c' u m : 0 <= n -> 0 <= m -> Spend c n = Some (c', u) ->
  unspent_out c' m = if decide (m = n) then None else unspent_out c m.
Proof.
  intros Hn Hm (x & _ & -> & _)%Spend_Some. rewrite unspent_Cleanup, unspent_insert by done.
  destruct (decide (m = n)); [|done]. by rewrite andb_false_r.
Qed.

Lemma utxo_upd v h x o : utxo (upd v h x) o = if decide (out_hash o = h) then c ← x; unspent_out c (out_n o) else utxo v o.
Proof. unfold utxo, upd. by destruct (decide (out_hash o = h)). Qed.
Lemma unspent_visible c n : (c' ← visible (Some c); unspent_out c' n) = unspent_out c n.
Proof. unfold visible. cbn. destruct (IsPruned c) eqn:E; [by rewrite pruned_unspent|done]. Qed.
Lemma vspend_total v o x : utxo v o = Some x -> exists u w, vspend v o = Some (u, w) /\ txout u = x.
Proof.
  unfold utxo, vspend. destruct (v (out_hash o)) as [c|]; cbn [mbind option_bind]; [|done]. intros Hx. rewrite Spend_unspent, Hx.
  cbn [mbind option_bind]. eexists _, _. split; [done|]. by destruct (Nat.eqb _ _).
Qed.
Lemma vspend_utxo v o u w : 0 <= out_n o -> vspend v o = Some (u, w) ->
  utxo v o = Some (txout u) /\ forall p, 0 <= out_n p -> utxo w p = if decide (p = o) then None else utxo v p.
Proof.
  intros Ho Hs. unfold vspend in Hs. destruct (v (out_hash o)) as [c|] eqn:Hv; cbn [mbind option_bind] in Hs; [|done].
  destruct (Spend c (out_n o)) as [[c' u']|] eqn:E; cbn [mbind option_bind] in Hs; [|done]. injection Hs as <- <-. split.
  - unfold utxo. rewrite Hv. by apply (Spend_txout _ _ _ _ E).
  - intros p Hp. rewrite utxo_upd. destruct (decide (out_hash p = out_hash o)) as [He|He].
    + rewrite unspent_visible, (unspent_Spend _ _ _ _ _ Ho Hp E). unfold utxo. rewrite He, Hv. cbn [mbind option_bind].
      destruct (decide (out_n p = out_n o)) as [Hn|Hn], (decide (p = o)) as [->|Hne]; try done. destruct p, o. cbn in *. by subst.
    + destruct (decide (p = o)) as [->|]; done.
Qed.
Definition outpoints_ok (l : list CTxIn) : Prop := Forall (fun i => 0 <= out_n (prevout i)) l.
Lemma vspends_spec l v : outpoints_ok l -> NoDup (map prevout l) -> Forall (fun i => is_Some (utxo v (prevout i))) l ->
  exists us w, vspends v l = Some (us, w) /\ map (fun u => Some (txout u)) us = map (fun i => utxo v (prevout i)) l /\
    forall p, 0 <= out_n p -> utxo w p = if decide (p ∈ map prevout l) then None else utxo v p.
Proof.
  revert v. induction l as [|i l IH]; intros v Ho Hnd Hu; [exists [], v; split_and!; try done|].
  apply Forall_cons_iff in Ho as [Hi Ho]. apply Forall_cons_iff in Hu as [[x Hx] Hu].
  cbn [map] in Hnd. apply list.NoDup_cons in Hnd as [Hni Hnd]. cbn [vspends].
  destruct (vspend_total v (prevout i) x Hx) as (u & w & Hs & Hux). rewrite Hs. cbn [mbind option_bind].
  destruct (vspend_utxo _ _ _ _ Hi Hs) as [_ Hw].
  assert (Hrest : Forall (fun j => utxo w (prevout j) = utxo v (prevout j)) l).
  { apply list.Forall_forall. intros j Hj. rewrite Hw by by apply (proj1 (list.Forall_forall _ _) Ho).
    destruct (decide (prevout j = prevout i)) as [He|]; [|done]. exfalso. apply Hni. rewrite <- He. apply list_elem_of_fmap. by exists j. }
  destruct (IH w Ho Hnd) as (us & z & -> & Hus & Hz).
  { rewrite list.Forall_forall in *. intros j Hj. rewrite (Hrest j Hj). by apply Hu. }
  cbn [mbind option_bind]. exists (u :: us), z. split; [done|split].
  - cbn [map]. rewrite Hus, Hx, Hux. f_equal. apply map_ext_in. intros j Hj%list_elem_of_In. by apply (proj1 (list.Forall_forall _ _) Hrest).
  - intros p Hp. rewrite Hz, Hw by done. cbn [map].
    destruct (decide (p ∈ map prevout l)), (decide (p = prevout i)), (decide (p ∈ prevout i :: map prevout l)); try done; exfalso; rewrite elem_of_cons in *; tauto.
Qed.
(** What a transaction adds: its outputs, but those that nothing can spend. *)
Definition created (t : CMutableTransaction) (n : Z) : option CTxOut :=
  o ← vout t !! Z.to_nat n; if IsUnspendable (scriptPubKey o) || TxOut_IsNull o then None else Some o.
Lemma unspent_FromTx t h n : 0 <= n -> unspent_out (FromTx t h) n = created t n.
Proof.
  intros Hn. unfold FromTx, ClearUnspendable, created. rewrite unspent_Cleanup by done. unfold unspent_out. cbn [set_vout c_vout]. rewrite length_map.
  destruct (Z.leb_spec (Z.of_nat (length (vout t))) n) as [Hle|Hlt].
  - by rewrite lookup_ge_None_2 by lia.
  - destruct (lookup_lt_is_Some_2 (vout t) (Z.to_nat n)) as [o Ho]; [lia|]. rewrite Ho. cbn [mbind option_bind].
    rewrite nth_lookup, list_lookup_fmap, Ho. cbn [fmap option_fmap option_map from_option default].
    change (from_option id TxOut_null ?x) with (default TxOut_null x). cbn.
    destruct (IsUnspendable (scriptPubKey o)); cbn [orb]; done.
Qed.
Lemma vupdate_spec v (t : CTransaction) n : outpoints_ok (spends t) -> NoDup (map prevout (spends t)) ->
  Forall (fun i => is_Some (utxo v (prevout i))) (spends t) ->
  exists us w, vupdate v t n = Some (us, w) /\ map (fun u => Some (txout u)) us = map (fun i => utxo v (prevout i)) (spends t) /\
    forall p, 0 <= out_n p -> utxo w p =
      if decide (out_hash p = cached_hash t) then created t (out_n p)
      else if decide (p ∈ map prevout (spends t)) then None else utxo v p.
Proof.
  intros Ho Hnd Hu. destruct (vspends_spec (spends t) v Ho Hnd Hu) as (us & w & Hs & Hus & Hw). unfold vupdate. rewrite Hs.
  cbn [mbind option_bind]. eexists us, _. split; [done|split; [done|]]. intros p Hp. rewrite utxo_upd.
  destruct (decide (out_hash p = cached_hash t)) as [He|He]; [|by apply Hw]. by rewrite unspent_visible, unspent_FromTx.
Qed.

(** ** What [CheckInputs] decides *)

(** A check refuses with whatever code and penalty. *)
Definition refused (s s' : CValidationState) : Prop :=
  exists level code reason, 0 <= level /\ s' = snd (DoS level false code reason false "" s).
Definition IsMint (o : CTxOut) : bool := IsZerocoinMint (scriptPubKey o).
Definition available (v : View) (i : CTxIn) : bool :=
  match v (out_hash (prevout i)) with Some c => IsAvailable c (out_n (prevout i)) | None => false end.
Definition in_value (v : View) (i : CTxIn) : Z := match utxo v (prevout i) with Some o => nValue o | None => 0 end.
Fixpoint total_in (v : View) (l : list CTxIn) : Z := match l with [] => 0 | i :: l => in_value v i + total_in v l end.
Definition mature (params : CChainParams) (v : View) (nSpendHeight : Z) (i : CTxIn) : Prop :=
  forall c, v (out_hash (prevout i)) = Some c -> fCoinBase c || fCoinStake c = true -> COINBASE_MATURITY params <= nSpendHeight - nHeight c.

Lemma available_utxo v i : available v i = true -> exists c o, v (out_hash (prevout i)) = Some c /\ utxo v (prevout i) = Some o /\
  spent_out c (prevout i) = o /\ IsMint o = false.
Proof.
  unfold available, utxo. destruct (v (out_hash (prevout i))) as [c|]; [|done]. unfold IsAvailable, unspent_out, spent_out, IsMint. cbn [mbind option_bind].
  rewrite !andb_true_iff, !negb_true_iff, Z.ltb_lt. intros (Hlt & Hn & Hm). eexists c, _. split; [done|].
  destruct (Z.leb_spec (Z.of_nat (length (c_vout c))) (out_n (prevout i))); [lia|]. by rewrite Hn.
Qed.
Lemma available_pruned c n : IsPruned c = true -> IsAvailable c n = false.
Proof.
  intros Hp. unfold IsAvailable. destruct (n <? Z.of_nat (length (c_vout c))) eqn:E; [|done]. cbn [andb].
  destruct (Nat.ltb_spec (Z.to_nat n) (length (c_vout c))).
  - by rewrite (forallb_nth_true TxOut_IsNull _ _ TxOut_null Hp) by done.
  - by rewrite nth_overflow by done.
Qed.

Section decides.
Context {S : Type} `{CCoinsViewLaws S}.
Context (best : hash256) (v : View).
Definition at_view (c : CCoinsViewCache S) : Prop := cache_inv c /\ hashBlock c = best /\ forall k, vw c k = v k.
(** [m] never fails an assertion and leaves the view as it is; it goes on with [a] and the
    state unchanged when [P] holds, and refuses otherwise. *)
Definition vdecides {A} (m : vcheck S A) (P : Prop) (a : A) : Prop := forall s c, at_view c ->
  exists r s' c', m s c = Some (r, s', c') /\ at_view c' /\ (P /\ r = Some a /\ s' = s \/ ~ P /\ r = None /\ refused s s').

Lemma vdecides_ret {A} (a : A) : vdecides (mret a) True a.
Proof. intros s c Hc. eexists _, _, _. split; [done|split; [done|]]. by left. Qed.
Lemma vdecides_iff {A} (m : vcheck S A) P Q a : (P <-> Q) -> vdecides m P a -> vdecides m Q a.
Proof.
  intros HPQ Hm s c Hc. destruct (Hm s c Hc) as (r & s' & c' & E & Hc' & Hr). eexists _, _, _. split; [exact E|split; [done|]].
  destruct Hr as [[? ?]|[? ?]]; [left|right]; tauto.
Qed.
Lemma vdecides_bind {A B} (m : vcheck S A) (f : A -> vcheck S B) P Q a b :
  vdecides m P a -> (P -> vdecides (f a) Q b) -> vdecides (m ≫= f) (P /\ Q) b.
Proof.
  intros Hm Hf s c Hc. unfold mbind, vcheck_bind. destruct (Hm s c Hc) as (r & s' & c' & -> & Hc' & [(HP & -> & ->)|(HP & -> & Hr)]).
  - destruct (Hf HP s c' Hc') as (r & s' & d & E & Hd & Hr). rewrite E. eexists _, _, _. split; [done|split; [done|]].
    destruct Hr as [(? & ? & ?)|(? & ? & ?)]; [left|right]; tauto.
  - eexists _, _, _. split; [done|split; [done|]]. right. tauto.
Qed.
Lemma vdecides_then {A B} (m : vcheck S A) (f : A -> vcheck S B) Q a b :
  vdecides m True a -> vdecides (f a) Q b -> vdecides (m ≫= f) Q b.
Proof. intros Hm Hf. eapply vdecides_iff; [|eapply vdecides_bind; [exact Hm|intros _; exact Hf]]. tauto. Qed.
Lemma vdecides_reject b level code reason : 0 <= level -> vdecides (vreject_if b level code reason) (b = false) tt.
Proof.
  intros Hl s c Hc. unfold vreject_if, reject_if. destruct b; eexists _, _, _; (split; [done|split; [done|]]); [right|by left].
  split; [done|split; [done|]]. by exists level, code, reason.
Qed.
Lemma vdecides_some {A} (a : A) : vdecides (demand_some (Some a)) True a.
Proof. intros s c Hc. eexists _, _, _. split; [done|split; [done|]]. by left. Qed.
Lemma AccessCoins_spec c h : at_view c -> exists r c', AccessCoins h c = (r, c') /\ at_view c' /\ visible r = v h.
Proof.
  intros (Hc & Hb & Hv). destruct (FetchCoins_spec h c Hc) as (e & c' & HF & He & Hi & Hv' & _ & _ & Hh). unfold AccessCoins. rewrite HF.
  eexists _, _. split; [done|]. rewrite He. split; [|apply Hv]. split; [done|split; [by rewrite Hh|]]. intros k. rewrite <- Hv. unfold vw. by rewrite Hv'.
Qed.
Lemma vdecides_access h co : v h = Some co -> vdecides (reading (AccessCoins h)) True (Some co).
Proof.
  intros Hv s c Hc. destruct (AccessCoins_spec c h Hc) as (r & c' & E & Hc' & Hr). unfold reading. rewrite E. eexists _, _, _.
  split; [done|split; [done|]]. left. rewrite Hv in Hr. by apply visible_Some in Hr as [-> _].
Qed.
Definition haveb (t : CMutableTransaction) : bool :=
  if negb (IsCoinBase t) && negb (Tx_IsZerocoinSpend t) then forallb (available v) (vin t) else true.
Lemma have_loop l c : at_view c -> exists c', have_inputs_loop l c = (forallb (available v) l, c') /\ at_view c'.
Proof.
  revert c. induction l as [|i l IH]; intros c Hc; cbn [have_inputs_loop forallb]; [by exists c|].
  destruct (AccessCoins_spec c (out_hash (prevout i)) Hc) as (r & c' & -> & Hc' & Hr). unfold available at 1. rewrite <- Hr.
  destruct r as [co|]; [|by exists c']. unfold visible. cbn [mbind option_bind]. destruct (IsPruned co) eqn:P.
  - rewrite available_pruned by done. cbn [negb andb]. by exists c'.
  - destruct (IsAvailable co (out_n (prevout i))); cbn [negb andb]; [by apply IH|by exists c'].
Qed.
Lemma vdecides_have t : vdecides (reading (HaveInputs t)) True (haveb t).
Proof.
  intros s c Hc. unfold reading, HaveInputs, haveb. destruct (negb (IsCoinBase t) && negb (Tx_IsZerocoinSpend t)).
  - destruct (have_loop (vin t) c Hc) as (c' & -> & Hc'). eexists _, _, _. split; [done|split; [done|]]. by left.
  - eexists _, _, _. split; [done|split; [done|]]. by left.
Qed.
Lemma vdecides_best : best <> hash_zero -> vdecides (reading cache_GetBestBlock) True best.
Proof.
  intros Hb s c Hc. unfold reading, cache_GetBestBlock. destruct (Hc) as (_ & He & _). rewrite He, bool_decide_eq_false_2 by done.
  eexists _, _, _. split; [done|split; [done|]]. by left.
Qed.

Context (Verify : valtype -> hash256 -> valtype -> bool) (index_height : hash256 -> option Z) (params : CChainParams).
Context (Hmax : 0 <= MaxMoneyOut params < 2 ^ 62).

(** Inputs whose values are in range and whose coins are old enough. *)
Definition values_ok (nSpendHeight : Z) (l : list CTxIn) (acc : Z) : Prop :=
  Forall (mature params v nSpendHeight) l /\ Forall (fun i => 0 <= in_value v i) l /\ acc + total_in v l <= MaxMoneyOut params.
Lemma total_in_nonneg l : Forall (fun i => 0 <= in_value v i) l -> 0 <= total_in v l.
Proof. induction 1; cbn [total_in]; lia. Qed.
Lemma values_step h i l acc c o : 0 <= acc <= MaxMoneyOut params ->
  v (out_hash (prevout i)) = Some c -> utxo v (prevout i) = Some o ->
  ((fCoinBase c || fCoinStake c) && (h - nHeight c <? COINBASE_MATURITY params) = false /\
   negb (MoneyRange params (nValue o)) || negb (MoneyRange params (i64 (acc + nValue o))) = false /\
   values_ok h l (i64 (acc + nValue o))) <-> values_ok h (i :: l) acc.
Proof.
  intros Hacc Hc Ho. unfold values_ok. rewrite !Forall_cons_iff. cbn [total_in]. unfold in_value at 2 4. rewrite Ho.
  assert (Hmat : (fCoinBase c || fCoinStake c) && (h - nHeight c <? COINBASE_MATURITY params) = false <-> mature params v h i).
  { unfold mature. rewrite Hc, andb_false_iff, Z.ltb_ge. split.
    - intros [E|E] d [= <-] Hd; [by rewrite E in Hd|done].
    - intros Hm. destruct (fCoinBase c || fCoinStake c) eqn:E; [right; by apply Hm|by left]. }
  rewrite Hmat. unfold MoneyRange. split.
  - intros (Hm & Hr & Hml & Hn & Ht). pose proof (total_in_nonneg l Hn). rewrite i64_small in * by lia. split_and!; try done; lia.
  - intros ([Hm Hml] & [Hn Hnl] & Ht). pose proof (total_in_nonneg l Hnl). rewrite i64_small by lia. split_and!; try done; lia.
Qed.
Lemma values_loop_decides h l acc : 0 <= acc <= MaxMoneyOut params -> Forall (fun i => available v i = true) l ->
  vdecides (values_loop params h l acc) (values_ok h l acc) (acc + total_in v l).
Proof.
  revert acc. induction l as [|i l IH]; intros acc Hacc Hl; cbn [values_loop].
  - rewrite Z.add_0_r. eapply vdecides_iff; [|apply vdecides_ret]. split; [|done]. intros _. unfold values_ok. split_and!; try done. cbn. lia.
  - apply Forall_cons_iff in Hl as [Hi Hl]. destruct (available_utxo v i Hi) as (c & o & Hc & Ho & Hs & _).
    eapply vdecides_then; [by apply vdecides_access|]. eapply vdecides_then; [apply vdecides_some|]. rewrite Hs.
    eapply vdecides_iff; [by apply (values_step h i l acc c o)|].
    eapply vdecides_bind; [by apply vdecides_reject|]. intros _. eapply vdecides_bind; [by apply vdecides_reject|]. intros Hr.
    assert (Hsmall : i64 (acc + nValue o) = acc + nValue o) by (unfold MoneyRange in Hr; apply i64_small; lia).
    replace (acc + total_in v (i :: l)) with (i64 (acc + nValue o) + total_in v l) by (cbn [total_in]; assert (in_value v i = nValue o) by (unfold in_value; by rewrite Ho); lia).
    apply IH; [unfold MoneyRange in Hr; lia|done].
Qed.
Lemma fee_checks_decides t acc out : GetValueOut t = Some out -> 0 <= out -> 0 <= acc <= MaxMoneyOut params ->
  vdecides (fee_checks params t acc) (out <= acc) tt.
Proof.
  intros Hout Hp Hacc. unfold fee_checks. rewrite Hout. eapply vdecides_then; [apply vdecides_some|].
  eapply vdecides_iff; [|eapply vdecides_bind; [by apply (vdecides_reject (acc <? out))|]; intros _;
    eapply vdecides_bind; [by apply vdecides_reject|]; intros _; by apply vdecides_reject].
  rewrite Z.ltb_ge. split; [by intros [? _]|]. intros Hle. unfold MoneyRange. rewrite i64_small by lia. split_and!; [done|lia|lia].
Qed.

(** The scripts of the inputs, run one after the other. *)
Definition script_ok (t : CMutableTransaction) (flags : Z) (cacheStore : bool) (i : CTxIn) (k : nat) : Prop :=
  exists c, v (out_hash (prevout i)) = Some c /\ run_check Verify t (CScriptCheck_of c (prevout i) k flags cacheStore) = Ok tt.
Fixpoint scripts_ok (t : CMutableTransaction) (flags : Z) (cacheStore : bool) (l : list CTxIn) (k : nat) : Prop :=
  match l with [] => True | i :: l => script_ok t flags cacheStore i k /\ scripts_ok t flags cacheStore l (Datatypes.S k) end.
(** No assertion of the interpreter fails under these flags, nor under the mandatory part of them. *)
Definition no_abort (t : CMutableTransaction) (flags : Z) : Prop := forall k i c f cs,
  vin t !! k = Some i -> v (out_hash (prevout i)) = Some c -> f = flags \/ f = Z.ldiff flags STANDARD_NOT_MANDATORY_VERIFY_FLAGS ->
  run_check Verify t (CScriptCheck_of c (prevout i) k f cs) <> Abort.

Lemma vdecides_refuse {A} level code reason (f : unit -> vcheck S A) P (a : A) : 0 <= level -> ~ P ->
  vdecides (vreject_if true level code reason ≫= f) P a.
Proof.
  intros Hl HP. eapply vdecides_iff; [|eapply (vdecides_bind _ _ _ P tt a); [by apply vdecides_reject|done]]. tauto.
Qed.
Lemma check_one_decides t c i k flags cs : no_abort t flags -> vin t !! k = Some i -> v (out_hash (prevout i)) = Some c ->
  vdecides (check_one Verify t c (prevout i) k flags cs) (script_ok t flags cs i k) tt.
Proof.
  intros Ha Hk Hc. unfold check_one.
  assert (Hok : script_ok t flags cs i k <-> run_check Verify t (CScriptCheck_of c (prevout i) k flags cs) = Ok tt).
  { unfold script_ok. rewrite Hc. split; [by intros (d & [= <-] & ?)|intros ?; by exists c]. }
  eapply vdecides_iff; [symmetry; exact Hok|]. destruct (run_check Verify t (CScriptCheck_of c (prevout i) k flags cs)) as [[]|e|] eqn:E.
  - eapply vdecides_iff; [|apply vdecides_ret]. done.
  - assert (Hlast : vdecides (vreject_if (S := S) true 100 REJECT_INVALID ("mandatory-script-verify-flag-failed (" ++ ScriptErrorString e ++ ")"))
      (@Err unit e = Ok tt) tt) by (eapply vdecides_iff; [|by apply vdecides_reject]; done).
    destruct (negb _); [|by eapply vdecides_then; [apply vdecides_ret|]].
    destruct (run_check Verify t (CScriptCheck_of c (prevout i) k (Z.ldiff flags _) cs)) as [[]|e'|] eqn:E'.
    + by apply vdecides_refuse.
    + by eapply vdecides_then; [apply vdecides_ret|].
    + exfalso. eapply (Ha k i c); [done|done|by right|exact E'].
  - exfalso. eapply (Ha k i c); [done|done|by left|exact E].
Qed.
Lemma scripts_loop_decides t flags cs l k : no_abort t flags -> drop k (vin t) = l -> Forall (fun i => available v i = true) l ->
  vdecides (scripts_loop Verify t flags cs false l k) (scripts_ok t flags cs l k) [].
Proof.
  intros Ha. revert k. induction l as [|i l IH]; intros k Hk Hl; cbn [scripts_loop scripts_ok]; [apply vdecides_ret|].
  apply Forall_cons_iff in Hl as [Hi Hl]. destruct (available_utxo v i Hi) as (c & o & Hc & _).
  assert (Hki : vin t !! k = Some i) by (rewrite <- (Nat.add_0_r k), <- lookup_drop, Hk; done).
  eapply vdecides_then; [by apply vdecides_access|]. eapply vdecides_then; [apply vdecides_some|].
  eapply vdecides_bind; [by apply check_one_decides|]. intros _. apply IH; [|done].
  by rewrite <- Nat.add_1_r, <- drop_drop, Hk.
Qed.

(** What [CheckInputs] asks of a transaction that spends. *)
Definition inputs_ok (t : CMutableTransaction) (nSpendHeight : Z) (fScriptChecks : bool) (flags : Z) (cacheStore : bool) : Prop :=
  Forall (fun i => available v i = true) (spends t) /\ values_ok nSpendHeight (spends t) 0 /\
  (spends t <> [] -> IsCoinStake t = false -> total (vout t) <= total_in v (spends t)) /\
  (fScriptChecks = true -> scripts_ok t flags cacheStore (spends t) 0).
Lemma CheckInputs_decides (t : CTransaction) h fScriptChecks flags cs : best <> hash_zero -> index_height best = Some h ->
  outs_ok params (vout t) -> vin t <> [] -> (fScriptChecks = true -> no_abort t flags) ->
  vdecides (CheckInputs Verify index_height params t fScriptChecks flags cs false) (inputs_ok t (h + 1) fScriptChecks flags cs) [].
Proof.
  intros Hb Hh Ho Hin Ha. unfold CheckInputs, inputs_ok, spends. destruct (negb (IsCoinBase t) && negb (Tx_IsZerocoinSpend t)) eqn:E.
  - eapply vdecides_then; [apply vdecides_have|]. unfold haveb. rewrite E.
    destruct (GetValueOut_total params Hmax t Ho) as [Hout Hpos].
    eapply vdecides_iff; cycle 1.
    + eapply vdecides_bind; [by apply vdecides_reject|]. intros Hav%negb_false_iff.
      eapply vdecides_then; [by apply vdecides_best|]. rewrite Hh. eapply vdecides_then; [apply vdecides_some|].
      rewrite forallb_forall in Hav. assert (Hav' : Forall (fun i => available v i = true) (vin t)).
      { apply list.Forall_forall. intros i Hi. by apply Hav, list_elem_of_In. }
      eapply vdecides_bind; [by apply values_loop_decides; [lia|]|]. intros (_ & Hn & Ht). rewrite Z.add_0_l in *.
      eapply vdecides_bind.
      * instantiate (1 := tt). instantiate (1 := IsCoinStake t = false -> total (vout t) <= total_in v (vin t)).
        destruct (IsCoinStake t); cbn [negb].
        -- eapply vdecides_iff; [|apply vdecides_ret]. done.
        -- eapply vdecides_iff; [|apply (fee_checks_decides _ _ (total (vout t))); [done|done|]]; [|pose proof (total_in_nonneg _ Hn); lia].
           split; [by intros ? _|by intros Hx; apply Hx].
      * intros _. instantiate (1 := fScriptChecks = true -> scripts_ok t flags cs (vin t) 0).
        destruct fScriptChecks; [|eapply vdecides_iff; [|apply vdecides_ret]; done].
        eapply vdecides_iff; [|apply scripts_loop_decides; [by apply Ha|done|done]]. split; [by intros ? _|by intros Hx; apply Hx].
    + cbn beta. rewrite negb_false_iff, forallb_forall, list.Forall_forall. setoid_rewrite list_elem_of_In. tauto.
  - eapply vdecides_iff; [|apply vdecides_ret]. split; [|done]. intros _. split_and!; try done. unfold values_ok. split_and!; try done. cbn. lia.
Qed.
End decides.

(** ** Money *)

(** The value of what is unspent in a transaction, and in all the transactions of a map. *)
Fixpoint worth_outs (l : list CTxOut) : Z := match l with [] => 0 | o :: l => (if TxOut_IsNull o then 0 else nValue o) + worth_outs l end.
Definition worth (c : CCoins) : Z := worth_outs (c_vout c).
Definition worth_opt (o : option CCoins) : Z := match o with Some c => worth c | None => 0 end.
Definition supply (M : gmap hash256 CCoins) : Z := map_fold (fun _ c n => worth c + n) 0 M.
Definition represents (M : gmap hash256 CCoins) (v : View) : Prop := forall k, v k = M !! k.
Definition undo_value (us : CTxUndo) : Z := foldr (fun u n => nValue (txout u) + n) 0 us.

Lemma supply_delete M k : supply M = worth_opt (M !! k) + supply (delete k M).
Proof.
  destruct (M !! k) as [c|] eqn:E.
  - unfold supply. rewrite (map_fold_delete_L (fun _ c n => worth c + n) 0 k c M) by (done || (intros; lia)). done.
  - rewrite delete_id by done. done.
Qed.
Lemma supply_upd M v h x : represents M v -> exists M', represents M' (upd v h x) /\ supply M' = supply M - worth_opt (v h) + worth_opt x.
Proof.
  intros Hr. exists (partial_alter (fun _ => x) h M). split.
  - intros k. unfold upd. destruct (decide (k = h)) as [->|Hk]; [by rewrite lookup_partial_alter_eq|by rewrite lookup_partial_alter_ne].
  - rewrite (supply_delete M h), (supply_delete (partial_alter _ h M) h), lookup_partial_alter_eq, Hr.
    assert (delete h (partial_alter (fun _ => x) h M) = delete h M) as ->; [|lia].
    apply map_eq. intros k. destruct (decide (k = h)) as [->|Hk]; [by rewrite !lookup_delete_eq|].
    by rewrite !lookup_delete_ne, lookup_partial_alter_ne by done.
Qed.
Lemma worth_outs_app l r : worth_outs (l ++ r) = worth_outs l + worth_outs r.
Proof. induction l as [|o l IH]; cbn [app worth_outs]; [done|]. rewrite IH. lia. Qed.
Lemma worth_outs_null l : forallb TxOut_IsNull l = true -> worth_outs l = 0.
Proof. induction l as [|o l IH]; cbn [forallb worth_outs]; [done|]. intros [-> Hl]%andb_true_iff. by rewrite IH. Qed.
Lemma worth_Cleanup c : worth (Cleanup c) = worth c.
Proof.
  destruct (Cleanup_vout_clean (c_vout c)) as (_ & k & nulls & Hv & _ & Hn). unfold worth, Cleanup. cbn [set_vout c_vout].
  rewrite Hv at 2. rewrite worth_outs_app, (worth_outs_null nulls Hn). lia.
Qed.
Lemma worth_visible c : worth_opt (visible (Some c)) = worth c.
Proof. unfold visible. cbn. destruct (IsPruned c) eqn:E; [|done]. by rewrite (worth_outs_null _ E : worth c = 0). Qed.
Lemma worth_insert_null l n : (n < length l)%nat ->
  worth_outs (<[n := TxOut_null]> l) = worth_outs l - (if TxOut_IsNull (nth n l TxOut_null) then 0 else nValue (nth n l TxOut_null)).
Proof.
  revert n. induction l as [|o l IH]; intros [|n] Hn; cbn [length] in Hn; try lia; cbn [insert list_insert worth_outs nth].
  - cbn. lia.
  - rewrite IH by lia. lia.
Qed.
Lemma worth_Spend c n c' u : 0 <= n -> Spend c n = Some (c', u) -> worth c' = worth c - nValue (txout u).
Proof.
  intros Hn Hs. pose proof (Spend_txout _ _ _ _ Hs) as Hu. apply Spend_Some in Hs as (x & _ & -> & _).
  apply (unspent_Some c n _ Hn) in Hu as (Hlt & Hx & Hnn). rewrite worth_Cleanup. unfold worth. cbn [set_vout c_vout].
  rewrite worth_insert_null by done. by rewrite Hx, Hnn.
Qed.
Lemma vspends_supply l v us w M : outpoints_ok l -> represents M v -> vspends v l = Some (us, w) ->
  exists M', represents M' w /\ supply M' = supply M - undo_value us.
Proof.
  revert v us M. induction l as [|i l IH]; intros v us M Ho HM; cbn [vspends].
  - intros [= <- <-]. exists M. split; [done|]. cbn. lia.
  - apply Forall_cons_iff in Ho as [Hi Ho]. unfold vspend. destruct (v (out_hash (prevout i))) as [c|] eqn:Hc; cbn [mbind option_bind]; [|done].
    destruct (Spend c (out_n (prevout i))) as [[c' u]|] eqn:Hs; cbn [mbind option_bind]; [|done].
    destruct (vspends _ l) as [[us' w']|] eqn:Hl; cbn [mbind option_bind]; [|done]. intros [= <- <-].
    destruct (supply_upd M v (out_hash (prevout i)) (visible (Some c')) HM) as (M1 & HM1 & E1).
    destruct (IH _ _ _ Ho HM1 Hl) as (M2 & HM2 & E2). exists M2. split; [done|]. rewrite E2, E1, Hc, worth_visible. cbn [undo_value foldr worth_opt].
    fold (undo_value us'). rewrite (worth_Spend _ _ _ _ Hi Hs). lia.
Qed.
Lemma vspends_none l v us w h : vspends v l = Some (us, w) -> v h = None -> w h = None.
Proof.
  revert v us. induction l as [|i l IH]; intros v us; cbn [vspends]; [by intros [= _ <-]|].
  unfold vspend. destruct (v (out_hash (prevout i))) as [c|] eqn:Hc; cbn [mbind option_bind]; [|done].
  destruct (Spend c (out_n (prevout i))) as [[c' u]|]; cbn [mbind option_bind]; [|done].
  destruct (vspends _ l) as [[us' w']|] eqn:Hl; cbn [mbind option_bind]; [|done]. intros [= _ <-] Hn. eapply IH; [exact Hl|].
  rewrite upd_other; [done|]. intros ->. by rewrite Hc in Hn.
Qed.
(** The outputs of a transaction that can be spent. *)
Definition spendable (t : CMutableTransaction) : list CTxOut := List.filter (fun o => negb (IsUnspendable (scriptPubKey o))) (vout t).
Lemma worth_FromTx t h : Forall (fun o => 0 <= nValue o) (vout t) -> worth (FromTx t h) = total (spendable t).
Proof.
  intros Ho. unfold FromTx, ClearUnspendable. rewrite worth_Cleanup. unfold worth, spendable. cbn [set_vout c_vout].
  induction Ho as [|o l Hp Hl IH]; cbn [map worth_outs List.filter]; [done|]. rewrite IH. destruct (IsUnspendable (scriptPubKey o)); cbn [negb total].
  - done.
  - unfold TxOut_IsNull. destruct (Z.eqb_spec (nValue o) (-1)); lia.
Qed.
Lemma total_spendable t : Forall (fun o => 0 <= nValue o) (vout t) -> 0 <= total (spendable t) <= total (vout t).
Proof.
  unfold spendable. induction 1 as [|o l Hp Hl IH]; cbn [List.filter total]; [lia|]. destruct (negb _); cbn [total]; lia.
Qed.
Lemma undo_value_in us v l : map (fun u => Some (txout u)) us = map (fun i => utxo v (prevout i)) l -> undo_value us = total_in v l.
Proof.
  revert us. induction l as [|i l IH]; intros [|u us]; try done. cbn [map undo_value foldr total_in]. intros [= Hu Hus].
  fold (undo_value us). rewrite (IH us Hus). unfold in_value. by rewrite <- Hu.
Qed.
Lemma vupdate_supply v (t : CTransaction) n us w M : outpoints_ok (spends t) -> Forall (fun o => 0 <= nValue o) (vout t) -> v (cached_hash t) = None ->
  represents M v -> vupdate v t n = Some (us, w) -> exists M', represents M' w /\ supply M' = supply M - undo_value us + total (spendable t).
Proof.
  intros Ho Hv Hn HM Hu. unfold vupdate in Hu. destruct (vspends v (spends t)) as [[us' w']|] eqn:Hs; cbn [mbind option_bind] in Hu; [|done].
  injection Hu as <- <-. destruct (vspends_supply _ _ _ _ _ Ho HM Hs) as (M1 & HM1 & E1).
  destruct (supply_upd M1 w' (cached_hash t) (visible (Some (FromTx t n))) HM1) as (M2 & HM2 & E2). exists M2. split; [done|].
  rewrite E2, E1, (vspends_none _ _ _ _ _ Hs Hn), worth_visible, worth_FromTx by done. cbn [worth_opt]. lia.
Qed.
Lemma available_Some v l : Forall (fun i => available v i = true) l -> Forall (fun i => is_Some (utxo v (prevout i))) l.
Proof. intros Hl. eapply list.Forall_impl; [exact Hl|]. intros i (c & o & _ & Ho & _)%available_utxo. by exists o. Qed.


(** C1: a transaction against the unspent outputs, for any view that keeps the contract of
    views.  A transaction that [CheckTransaction] accepts, without zerocoin inputs and not
    overwriting one that is known, is checked by [CheckInputs] without failing an assertion
    and without changing what is visible: it goes on exactly when every output it spends is
    available, coinbases and coinstakes old enough, values in range, scripts (if asked for)
    satisfied, and, unless it is a coinstake, no more leaves than enters; otherwise it refuses.
    Then [UpdateCoins] does not fail its assertion: it records the outputs spent in order,
    removes exactly those, and adds exactly the spendable outputs of the transaction; the
    money in the view changes by what the transaction creates less what it spends, and does
    not grow unless it is a coinbase or a coinstake. *)
Theorem spending_conserves_value {S : Type} `{CCoinsViewLaws S} (Verify : valtype -> hash256 -> valtype -> bool)
    (index_height : hash256 -> option Z) (params : CChainParams) (best : hash256) (v : View) (M : gmap hash256 CCoins)
    (t : CTransaction) (h flags nHeight : Z) (fScriptChecks cs : bool) (s : CValidationState) (c : CCoinsViewCache S) :
  0 <= MaxMoneyOut params < 2 ^ 62 -> at_view best v c -> represents M v -> best <> hash_zero -> index_height best = Some h ->
  well_formed params t -> outpoints_ok (vin t) -> Forall (fun i => IsZerocoinSpend (scriptSig i) = false) (vin t) -> v (cached_hash t) = None ->
  (fScriptChecks = true -> no_abort v Verify t flags) ->
  exists r s' c', CheckInputs Verify index_height params t fScriptChecks flags cs false s c = Some (r, s', c') /\ at_view best v c' /\
    (r = Some [] <-> inputs_ok v Verify params t (h + 1) fScriptChecks flags cs) /\ (r = Some [] -> s' = s) /\ (r <> Some [] -> r = None /\ refused s s') /\
    (r = Some [] -> exists us d w M', UpdateCoins t nHeight c' = Some (us, d) /\ at_view best w d /\ represents M' w /\
      map (fun u => Some (txout u)) us = map (fun i => utxo v (prevout i)) (spends t) /\
      (forall p, 0 <= out_n p -> utxo w p = if decide (out_hash p = cached_hash t) then created t (out_n p)
        else if decide (p ∈ map prevout (spends t)) then None else utxo v p) /\
      supply M' = supply M - total_in v (spends t) + total (spendable t) /\
      (spends t <> [] -> IsCoinStake t = false -> supply M' <= supply M)).
Proof.
  intros Hm Hc HM Hb Hh Hw Ho Hz Hn Ha. pose proof Hw as (Hin & _ & _ & Houts & Hd & _).
  destruct (CheckInputs_decides best v Verify index_height params Hm t h fScriptChecks flags cs Hb Hh Houts Hin Ha s c Hc)
    as (r & s' & c' & E & Hc' & Hr). exists r, s', c'. split; [exact E|split; [exact Hc'|]].
  split; [destruct Hr as [(? & ? & _)|(? & -> & _)]; [tauto|by split]|]. split; [by destruct Hr as [(_ & _ & ?)|(_ & -> & _)]|].
  split; [destruct Hr as [(_ & ? & _)|(_ & ? & ?)]; tauto|].
  intros ->. destruct Hr as [((Hav & Hval & Hbal & _) & _)|(_ & ? & _)]; [|done].
  assert (Hnd : NoDup (map prevout (spends t))).
  { unfold spends. destruct (_ && _); [by apply distinct_NoDup|constructor]. }
  assert (Hos : outpoints_ok (spends t)) by (unfold spends; destruct (_ && _); [done|constructor]).
  destruct (vupdate_spec v t nHeight Hos Hnd (available_Some _ _ Hav)) as (us & w & Hu & Hus & Hw').
  destruct (vupdate_supply v t nHeight us w M Hos (proj1 Houts) Hn HM Hu) as (M' & HM' & HS).
  destruct Hc' as (Hi & Hbest & Hvw). pose proof (UpdateCoins_refines t nHeight c' v Hi Hvw) as Href. rewrite Hu in Href.
  destruct Href as (d & Hd' & Hid & Hhd & Hvd). exists us, d, w, M'. rewrite (undo_value_in us v (spends t) Hus) in HS.
  split; [exact Hd'|]. split; [split; [exact Hid|split; [by rewrite Hhd|exact Hvd]]|].
  do 4 (split; [done|]). intros Hne Hst. specialize (Hbal Hne Hst). pose proof (total_spendable t (proj1 Houts)). lia.
Qed.

(** The coin of the witness of the views is spent, a hundred blocks on, through two caches:
    half of it goes on and the rest is the fee. *)
Definition tip : hash256 := leaf 9.
Definition ledger : CCoinsViewCache (CCoinsViewCache CCoinsViewDB) := SetBestBlock tip stack.
Definition half : CTransaction :=
  mkCTx (leaf 6) (mkTx 1 [mkTxIn (mkOutPoint (leaf 5) 0) [] 0 []] [mkTxOut (COIN / 2) [81] (-10)] [] 0).
Definition one_view : View := fun k => ({[leaf 5 := one_coin]} : gmap hash256 CCoins) !! k.
Definition no_curve : valtype -> hash256 -> valtype -> bool := fun _ _ _ => false.
Definition heights : hash256 -> option Z := fun k => if bool_decide (k = tip) then Some 199 else None.
Lemma stacked_at (best : hash256) (M : gmap hash256 CCoins) : at_view best (fun k => visible (M !! k))
  (SetBestBlock best (new_cache (new_cache (mkDB M None))) : CCoinsViewCache (CCoinsViewCache CCoinsViewDB)).
Proof.
  split; [apply new_cache_inv, new_cache_inv; exact I|split; [done|]]. intros k. reflexivity.
Qed.
Lemma at_view_ext {S : Type} `{CCoinsViewLaws S} (best : hash256) v w (c : CCoinsViewCache S) : (forall k, w k = v k) -> at_view best v c -> at_view best w c.
Proof. intros Hw (Hi & Hb & Hv). split; [done|split; [done|]]. intros k. by rewrite Hw. Qed.
Lemma singleton_visible h (c : CCoins) k : IsPruned c = false -> ({[h := c]} : gmap hash256 CCoins) !! k = visible (({[h := c]} : gmap hash256 CCoins) !! k).
Proof.
  intros Hp. destruct (({[h := c]} : gmap hash256 CCoins) !! k) as [d|] eqn:E; [|done]. apply lookup_singleton_Some in E as [_ <-].
  unfold visible. cbn. by rewrite Hp.
Qed.
Lemma ledger_at : at_view tip one_view ledger.
Proof. eapply at_view_ext; [|apply stacked_at]. intros k. by apply singleton_visible. Qed.
Lemma one_view_Some k c : one_view k = Some c -> k = leaf 5 /\ c = one_coin.
Proof. unfold one_view. intros [<- <-]%lookup_singleton_Some. done. Qed.
Lemma spending_conserves_value_witness : at_view tip one_view ledger /\ exists c' us d,
  CheckInputs no_curve heights CMainParams half true 0 false false CValidationState_new ledger = Some (Some [], CValidationState_new, c') /\
  UpdateCoins half 200 c' = Some (us, d) /\ undo_value us = COIN.
Proof.
  split; [exact ledger_at|].
  assert (Hmat : mature CMainParams one_view 200 (mkTxIn (mkOutPoint (leaf 5) 0) [] 0 [])).
  { intros c Hc _. apply one_view_Some in Hc as [_ ->]. by vm_compute. }
  assert (Hv5 : one_view (leaf 5) = Some one_coin) by apply lookup_singleton_eq.
  destruct (spending_conserves_value no_curve heights CMainParams tip one_view {[leaf 5 := one_coin]} half 199 0 200 true false CValidationState_new ledger)
    as (r & s' & c' & E & _ & Hr & Hs & _ & Hu); try done.
  - exact ledger_at.
  - split_and!; try done; [|by repeat constructor]. split; [by repeat constructor|by vm_compute].
  - by repeat constructor.
  - by repeat constructor.
  - intros _ [|k] i c f cs Hi Hc Hf; [|done]. injection Hi as <-. apply one_view_Some in Hc as [_ ->].
    destruct Hf as [->| ->]; by vm_compute.
  - assert (Hok : r = Some []).
    { apply Hr. unfold inputs_ok, values_ok. change (spends half) with (vin half). split_and!.
      - by repeat constructor.
      - by repeat constructor.
      - repeat constructor. by vm_compute.
      - by vm_compute.
      - intros _ _. by vm_compute.
      - intros _. split; [|done]. exists one_coin. split; [exact Hv5|by vm_compute]. }
    specialize (Hs Hok). subst r s'. destruct (Hu eq_refl) as (us & d & w & M' & Hup & _ & _ & Hus & _).
    exists c', us, d. split; [exact E|split; [exact Hup|]]. rewrite (undo_value_in us one_view (spends half) Hus). by vm_compute.
Defined.
