(* ===== verification/Connect.v ===== *)
(** Connecting a block to the unspent outputs and disconnecting it ([src/src/main.cpp]:
    the transactions in [ConnectBlock], [DisconnectBlock]): the values that are summed up, the
    undo records that are kept, and what disconnecting gives back. *)
From S2P Require Import Prelude Serialize Stream Hashers Script SigChecks Interp Payments Merkle Transaction SigHash Compressor Coins CoinsView TxChecks Ledger.

(** ** Connecting the transactions of a block *)

Definition MAX_BLOCK_SIGOPS_COST : Z := 80000.

(** The zerocoin part of the node, and whether the transactions of it are suspended. *)
Class ConnectEnv := {
  maintenance : bool;
  fVerifyingBlocks : bool;
  IsTransactionInChain : hash256 -> option Z;
  getDenomination : CTxIn -> Z;
  ContextualCheckZerocoinSpend : CTransaction -> CTxIn -> bool;
  TxOutToPublicCoin : CTxOut -> CValidationState -> bool * CValidationState;
  ContextualCheckZerocoinMint : CTransaction -> CTxOut -> bool
}.

(** The locals of the loop; the undo records have the last first. *)
Record sums := mkSums {
  nFees : CAmount;
  nValueIn : CAmount;
  nValueOut : CAmount;
  nSigOpsCost : Z;
  vtxundo : list CTxUndo;
  vSpends : list (CTxIn * hash256);
  vMints : list (CTxOut * hash256)
}.
Definition sums_zero : sums := mkSums 0 0 0 0 [] [] [].
Definition add_spend (t : CTransaction) (i : CTxIn) (value : Z) (a : sums) : sums :=
  mkSums (nFees a) (i64 (nValueIn a + value)) (nValueOut a) (nSigOpsCost a) (vtxundo a) (vSpends a ++ [(i, cached_hash t)]) (vMints a).
Definition add_mint (t : CTransaction) (o : CTxOut) (a : sums) : sums :=
  mkSums (nFees a) (nValueIn a) (nValueOut a) (nSigOpsCost a) (vtxundo a) (vSpends a) (vMints a ++ [(o, cached_hash t)]).
Definition add_values (fees value sigops : Z) (a : sums) : sums :=
  mkSums (i64 (nFees a + fees)) (i64 (nValueIn a + value)) (nValueOut a) (i64 (nSigOpsCost a + sigops)) (vtxundo a) (vSpends a) (vMints a).
Definition add_out (value : Z) (us : CTxUndo) (a : sums) : sums :=
  mkSums (nFees a) (nValueIn a) (i64 (nValueOut a + value)) (nSigOpsCost a) (us :: vtxundo a) (vSpends a) (vMints a).

Section connect.
Context {S : Type} `{CCoinsView S} `{ConnectEnv}.
Context (Verify : valtype -> hash256 -> valtype -> bool) (index_height : hash256 -> option Z) (params : CChainParams).
(** The height of the block, the script flags, and whether scripts are run or handed out. *)
Context (height : Z) (fScriptChecks : bool) (flags : Z) (queue : bool).

Definition updating {A} (f : CCoinsViewCache S -> option (A * CCoinsViewCache S)) : vcheck S A := fun s c =>
  '(a, c') ← f c; Some (Some a, s, c').
Definition vdemand (f : CValidationState -> bool * CValidationState) (level : Z) : vcheck S unit := fun s c =>
  let '(r, s') := demand f level s in Some (r, s', c).

(** "Check that zANK mints are not already known" *)
Fixpoint mints_loop (t : CTransaction) (l : list CTxOut) (a : sums) : vcheck S sums :=
  match l with
  | [] => mret a
  | o :: l =>
      if negb (TxOut_IsZerocoinMint o) then mints_loop t l a else
      vdemand (TxOutToPublicCoin o) 100;;
      vreject_if (negb (ContextualCheckZerocoinMint t o)) 100 0 "";;
      mints_loop t l (add_mint t o a)
  end.
Definition mints_part (t : CTransaction) (a : sums) : vcheck S sums :=
  if Tx_IsZerocoinMint t then mints_loop t (vout t) a else mret a.
Fixpoint zspends_loop (t : CTransaction) (l : list CTxIn) (a : sums) : vcheck S sums :=
  match l with
  | [] => mret a
  | i :: l =>
      if negb (IsZerocoinSpend (scriptSig i)) then zspends_loop t l a else
      let a := add_spend t i (i64 (getDenomination i * COIN)) a in
      vreject_if (negb (ContextualCheckZerocoinSpend t i)) 100 REJECT_INVALID "";;
      zspends_loop t l a
  end.
Definition zerocoin_tx (t : CTransaction) (a : sums) : vcheck S sums :=
  vreject_if (match IsTransactionInChain (cached_hash t) with
      | Some nHeightTx => negb fVerifyingBlocks || (fVerifyingBlocks && (height >? nHeightTx)) | None => false end)
    100 REJECT_INVALID "bad-txns-inputs-missingorspent";;
  a ← zspends_loop t (vin t) a;
  mints_part t a.
Definition spending_tx (t : CTransaction) (a : sums) : vcheck S sums :=
  have ← reading (HaveInputs t);
  vreject_if (negb have) 100 REJECT_INVALID "bad-txns-inputs-missingorspent";;
  a ← mints_part t a;
  value ← updating (GetValueIn t);
  out ← demand_some (GetValueOut t);
  value' ← updating (GetValueIn t);
  sigops ← updating (GetTransactionSigOpCost t flags);
  let a := add_values (i64 (value - out)) value' sigops a in
  vreject_if (nSigOpsCost a >? MAX_BLOCK_SIGOPS_COST) 100 REJECT_INVALID "bad-blk-sigops";;
  CheckInputs Verify index_height params t fScriptChecks flags false queue;;
  mret a.
Definition connect_tx (t : CTransaction) (a : sums) : vcheck S sums :=
  vreject_if (maintenance && ContainsZerocoins t) 100 0 "";;
  a ← (if Tx_IsZerocoinSpend t then zerocoin_tx t a else if negb (IsCoinBase t) then spending_tx t a else mret a);
  out ← demand_some (GetValueOut t);
  us ← updating (UpdateCoins t height);
  mret (add_out out us a).
Fixpoint connect_loop (l : list CTransaction) (a : sums) : vcheck S sums :=
  match l with
  | [] => mret a
  | t :: l => a ← connect_tx t a; connect_loop l a
  end.
(** The undo records written: the one of the first transaction is dropped. *)
Definition block_undo (a : sums) : list CTxUndo := tail (rev (vtxundo a)).

(** "Do not allow blocks that contain transactions which 'overwrite' older transactions" *)
Fixpoint bip30_loop (l : list CTransaction) : vcheck S unit :=
  match l with
  | [] => mret tt
  | t :: l =>
      r ← reading (AccessCoins (cached_hash t));
      vreject_if (match r with Some c => negb (IsPruned c) | None => false end) 100 REJECT_INVALID "bad-txns-BIP30";;
      bip30_loop l
  end.
End connect.

(** [pindex->nMoneySupply] and [pindex->nMint] *)
Definition nMoneySupply (nMoneySupplyPrev : CAmount) (a : sums) : CAmount := i64 (i64 (nMoneySupplyPrev + nValueOut a) - nValueIn a).
Definition nMint (nMoneySupplyPrev : CAmount) (a : sums) : CAmount := i64 (i64 (nMoneySupply nMoneySupplyPrev a - nMoneySupplyPrev) + nFees a).

(** [mapStakeSpent] after the block: the erased entries are older than the reorganisations. *)
Definition stakes_insert (height : Z) (l : list CTransaction) (m : gmap COutPoint Z) : gmap COutPoint Z :=
  foldl (fun m (t : CTransaction) => if IsCoinBase t || Tx_IsZerocoinSpend t then m else
    foldl (fun m i => match m !! prevout i with Some _ => m | None => <[prevout i := height]> m end) m (vin t)) m l.

(** ** Disconnecting *)

Section disconnect.
Context {S : Type} `{CCoinsView S}.
(** The database of zerocoins: erasing a spend and a mint. *)
Context {ZDB : Type} (EraseCoinSpend : CTxIn -> ZDB -> option ZDB) (EraseCoinMint : CTxOut -> ZDB -> option ZDB).
Context (height : Z).

(** The outputs of the transaction are compared and removed: whether they matched. *)
Definition remove_outs (t : CTransaction) : CCoins -> option (bool * CCoins) := fun outs =>
  let outs := ClearUnspendable outs in
  let outsBlock := FromTx t height in
  let outs := if c_nVersion outsBlock <? 0 then mkCoins (fCoinBase outs) (fCoinStake outs) (c_vout outs) (nHeight outs) (c_nVersion outsBlock) else outs in
  Some (Coins_eqb outs outsBlock, Clear outs).
(** [vout.resize(n + 1)] where it is shorter; the index is an [unsigned int]. *)
Definition resize_outs (l : list CTxOut) (n : Z) : list CTxOut :=
  if Z.of_nat (length l) <? u32 (n + 1) then l ++ replicate (Z.to_nat (u32 (n + 1)) - length l) TxOut_null else l.
Definition restore_out (n : Z) (u : CTxInUndo) : CCoins -> option (bool * CCoins) := fun coins =>
  let '(ok, coins) :=
    if negb (u_nHeight u =? 0) then
      (IsPruned coins,
       let coins := Clear coins in mkCoins (u_fCoinBase u) (fCoinStake coins) (c_vout coins) (i32 (u_nHeight u)) (u_nVersion u))
    else (negb (IsPruned coins), coins) in
  let ok := ok && negb (IsAvailable coins n) in
  Some (ok, set_vout coins (<[Z.to_nat n := txout u]> (resize_outs (c_vout coins) n))).

(** The state of the loop: the view, whether all was as expected, the zerocoins, the stakes
    spent. *)
Record dstate := mkD { d_view : CCoinsViewCache S; fClean : bool; d_zdb : ZDB; mapStakeSpent : gmap COutPoint Z }.
(** The inputs from the last to the first. *)
Fixpoint restore_inputs (l : list CTxIn) (us : CTxUndo) (d : dstate) : option dstate :=
  match l, us with
  | i :: l, u :: us =>
      d ← restore_inputs l us d;
      '(ok, c) ← with_coins (out_hash (prevout i)) (restore_out (out_n (prevout i)) u) (d_view d);
      Some (mkD c (fClean d && ok) (d_zdb d) (delete (prevout i) (mapStakeSpent d)))
  | _, _ => Some d
  end.
Definition erase_zerocoins (t : CMutableTransaction) (z : ZDB) : option ZDB :=
  z ← (if Tx_IsZerocoinSpend t then
      foldr (fun i k z => if IsZerocoinSpend (scriptSig i) then z' ← EraseCoinSpend i z; k z' else k z) Some (vin t) z
    else Some z);
  if Tx_IsZerocoinMint t then
    foldr (fun o k z => if TxOut_IsZerocoinMint o then z' ← EraseCoinMint o z; k z' else k z) Some (vout t) z
  else Some z.
(** One transaction and its undo record, if it has one.  The outer [None] is an assertion or an
    access out of range, an inner one the return of an error. *)
Definition disconnect_tx (t : CTransaction) (txundo : option CTxUndo) (d : dstate) : option (option dstate) :=
  match (if ContainsZerocoins t then erase_zerocoins t (d_zdb d) else Some (d_zdb d)) with
  | None => Some None
  | Some z =>
      '(ok, c) ← with_coins (cached_hash t) (remove_outs t) (d_view d);
      let d := mkD c (fClean d && ok) z (mapStakeSpent d) in
      if negb (IsCoinBase t) && negb (Tx_IsZerocoinSpend t) then
        txundo ← txundo;
        if negb (Nat.eqb (length txundo) (length (vin t))) then Some None
        else d ← restore_inputs (vin t) txundo d; Some (Some d)
      else Some (Some d)
  end.
(** From the last transaction to the first; the record of transaction [k] is [vtxundo[k - 1]]. *)
Fixpoint disconnect_loop (l : list CTransaction) (undos : list (option CTxUndo)) (d : dstate) : option (option dstate) :=
  match l, undos with
  | t :: l, u :: undos =>
      r ← disconnect_loop l undos d;
      match r with Some d => disconnect_tx t u d | None => Some None end
  | _, _ => Some (Some d)
  end.

(** What the index knows of the block and its parent. *)
Record CBlockIndex := mkIndex {
  GetBlockHash : hash256;
  prevBlockHash : hash256;
  nAccumulatorCheckpoint : Z;
  prevAccumulatorCheckpoint : Z
}.
(** [blockUndo] is [None] when there is no undo data or it cannot be read.  The result is what
    is returned, what [pfClean] is set to when it was given, and the state; after an error the
    callers give the view up, and there is none. *)
Definition DisconnectBlock (EraseAccumulatorValues : Z -> Z -> bool) (verifying : bool) (vtx : list CTransaction) (pindex : CBlockIndex)
    (blockUndo : option (list CTxUndo)) (pfClean : bool) (d : dstate) : option (bool * option bool * option dstate) :=
  let fail := Some (false, if pfClean then Some false else None, None) in
  let '(best, c) := cache_GetBestBlock (d_view d) in
  let d := mkD c (fClean d) (d_zdb d) (mapStakeSpent d) in
  if negb (bool_decide (GetBlockHash pindex = best)) then None else
  match blockUndo with
  | None => fail
  | Some undo =>
      if negb (Nat.eqb (length undo + 1) (length vtx)) then fail else
      r ← disconnect_loop vtx (None :: map Some undo) (mkD (d_view d) true (d_zdb d) (mapStakeSpent d));
      match r with
      | None => fail
      | Some d =>
          let d := mkD (SetBestBlock (prevBlockHash pindex) (d_view d)) (fClean d) (d_zdb d) (mapStakeSpent d) in
          if negb verifying && negb (nAccumulatorCheckpoint pindex =? prevAccumulatorCheckpoint pindex) &&
             negb (EraseAccumulatorValues (nAccumulatorCheckpoint pindex) (prevAccumulatorCheckpoint pindex)) then fail
          else Some (if pfClean then (true, Some (fClean d), Some d) else (fClean d, None, Some d))
      end
  end.
End disconnect.

(** ** Reading leaves the view as it is *)

Section preserves.
Context {S : Type} `{CCoinsViewLaws S} `{ConnectEnv} (best : hash256) (v : View) (Hbest : best <> hash_zero).
Context (Verify : valtype -> hash256 -> valtype -> bool) (index_height : hash256 -> option Z) (params : CChainParams).

(** When [m] returns, the view is as before, and [Q] holds of what it goes on with. *)
Definition preserves {A} (m : vcheck S A) (Q : A -> Prop) : Prop := forall s c r s' c', at_view best v c ->
  m s c = Some (r, s', c') -> at_view best v c' /\ forall a, r = Some a -> Q a.
Lemma preserves_ret {A} (a : A) (Q : A -> Prop) : Q a -> preserves (mret a) Q.
Proof. intros HQ s c r s' c' Hc [= <- <- <-]. split; [done|]. by intros ? [= <-]. Qed.
Lemma preserves_bind {A B} (m : vcheck S A) (f : A -> vcheck S B) P Q :
  preserves m P -> (forall a, P a -> preserves (f a) Q) -> preserves (m ≫= f) Q.
Proof.
  intros Hm Hf s c r s' c' Hc. unfold mbind, vcheck_bind. destruct (m s c) as [[[[a|] s1] c1]|] eqn:E; [| |done].
  - destruct (Hm _ _ _ _ _ Hc E) as [Hc1 Ha]. intros E'. eapply Hf; [by apply Ha|exact Hc1|exact E'].
  - destruct (Hm _ _ _ _ _ Hc E) as [Hc1 _]. intros [= <- <- <-]. by split.
Qed.
Lemma preserves_weaken {A} (m : vcheck S A) (P Q : A -> Prop) : (forall a, P a -> Q a) -> preserves m P -> preserves m Q.
Proof. intros HPQ Hm s c r s' c' Hc E. destruct (Hm _ _ _ _ _ Hc E) as [? Ha]. split; [done|]. intros a Hr. by apply HPQ, Ha. Qed.
Lemma preserves_demand {A} (o : option A) : preserves (demand_some o) (fun a => o = Some a).
Proof. intros s c r s' c' Hc. unfold demand_some. destruct o as [a|]; [|done]. intros [= <- <- <-]. split; [done|]. by intros ? [= <-]. Qed.
Lemma preserves_reject b level code reason : preserves (vreject_if b level code reason) (fun _ => b = false).
Proof.
  intros s c r s' c' Hc. unfold vreject_if, reject_if. by destruct b; intros [= <- <- <-].
Qed.
Lemma preserves_vdemand f level : preserves (vdemand f level) (fun _ => True).
Proof. intros s c r s' c' Hc. unfold vdemand. destruct (demand f level s) as [r1 s1]. intros [= <- <- <-]. by split. Qed.
Lemma preserves_reading {A} (f : CCoinsViewCache S -> A * CCoinsViewCache S) (Q : A -> Prop) :
  (forall c, at_view best v c -> at_view best v (snd (f c)) /\ Q (fst (f c))) -> preserves (reading f) Q.
Proof. intros Hf s c r s' c' Hc. unfold reading. specialize (Hf c Hc). destruct (f c) as [a d]. destruct Hf. intros [= <- <- <-]. split; [done|]. by intros ? [= <-]. Qed.
Lemma preserves_access h : preserves (reading (AccessCoins h)) (fun r => visible r = v h).
Proof. apply preserves_reading. intros c Hc. by destruct (AccessCoins_spec best v c h Hc) as (r & c' & -> & ? & ?). Qed.
Lemma preserves_have t : preserves (reading (HaveInputs t)) (fun b => b = haveb v t).
Proof.
  apply preserves_reading. intros c Hc. unfold HaveInputs, haveb. destruct (_ && _); [|done].
  by destruct (have_loop best v (vin t) c Hc) as (c' & -> & ?).
Qed.
Lemma preserves_best : preserves (reading cache_GetBestBlock) (fun _ => True).
Proof.
  apply preserves_reading. intros c Hc. unfold cache_GetBestBlock. destruct (Hc) as (_ & He & _). by rewrite He, bool_decide_eq_false_2.
Qed.
Lemma preserves_updating {A} (f : CCoinsViewCache S -> option (A * CCoinsViewCache S)) (Q : A -> Prop) :
  (forall c a c', at_view best v c -> f c = Some (a, c') -> at_view best v c' /\ Q a) -> preserves (updating f) Q.
Proof.
  intros Hf s c r s' c' Hc. unfold updating. destruct (f c) as [[a d]|] eqn:E; [|done]. intros [= <- <- <-].
  destruct (Hf _ _ _ Hc E) as [? HQ]. split; [done|]. by intros ? [= <-].
Qed.
Lemma GetOutputFor_spec i c o c' : at_view best v c -> GetOutputFor i c = Some (o, c') ->
  at_view best v c' /\ available v i = true /\ utxo v (prevout i) = Some o.
Proof.
  intros Hc. unfold GetOutputFor. destruct (AccessCoins_spec best v c (out_hash (prevout i)) Hc) as (r & d & -> & Hd & Hr).
  destruct r as [co|]; cbn [mbind option_bind]; [|done]. destruct (IsAvailable co (out_n (prevout i))) eqn:E; [|done]. cbn [negb].
  intros [= <- <-]. split; [done|]. unfold visible in Hr. cbn in Hr. destruct (IsPruned co) eqn:P; [by rewrite available_pruned in E|].
  assert (Hav : available v i = true) by (unfold available; by rewrite <- Hr). split; [done|].
  destruct (available_utxo v i Hav) as (c0 & o & Hc0 & Ho & <- & _). rewrite <- Hr in Hc0. by injection Hc0 as <-.
Qed.
Lemma value_in_loop_spec l acc c x c' : at_view best v c -> value_in_loop l acc c = Some (x, c') ->
  at_view best v c' /\ x = foldl (fun a i => i64 (a + in_value v i)) acc l.
Proof.
  revert acc c. induction l as [|i l IH]; intros acc c Hc; cbn [value_in_loop foldl]; [by intros [= <- <-]|].
  destruct (GetOutputFor i c) as [[o d]|] eqn:E; cbn [mbind option_bind]; [|done].
  destruct (GetOutputFor_spec _ _ _ _ Hc E) as (Hd & _ & Ho). unfold in_value at 2. rewrite Ho. by apply IH.
Qed.
Definition value_of_inputs (t : CMutableTransaction) : Z :=
  if IsCoinBase t then 0 else if Tx_IsZerocoinSpend t then GetZerocoinSpent t else foldl (fun a i => i64 (a + in_value v i)) 0 (vin t).
Lemma preserves_value t : preserves (updating (GetValueIn t)) (fun x => x = value_of_inputs t).
Proof.
  apply preserves_updating. intros c x c' Hc. unfold GetValueIn, value_of_inputs.
  destruct (IsCoinBase t); [by intros [= <- <-]|]. destruct (Tx_IsZerocoinSpend t); [by intros [= <- <-]|]. by apply value_in_loop_spec.
Qed.
Lemma p2sh_loop_spec l n c x c' : at_view best v c -> p2sh_loop l n c = Some (x, c') -> at_view best v c'.
Proof.
  revert n c. induction l as [|i l IH]; intros n c Hc; cbn [p2sh_loop]; [by intros [= <- <-]|].
  destruct (GetOutputFor i c) as [[o d]|] eqn:E; cbn [mbind option_bind]; [|done]. apply IH. by eapply GetOutputFor_spec.
Qed.
Lemma witness_loop_spec w flags l k n c x c' : at_view best v c -> witness_loop w flags l k n c = Some (x, c') -> at_view best v c'.
Proof.
  revert k n c. induction l as [|i l IH]; intros k n c Hc; cbn [witness_loop]; [by intros [= <- <-]|].
  destruct (GetOutputFor i c) as [[o d]|] eqn:E; cbn [mbind option_bind]; [|done].
  destruct (CountWitnessSigOps _ _ _ _); cbn [mbind option_bind]; [|done]. apply IH. by eapply GetOutputFor_spec.
Qed.
Lemma preserves_sigops t flags : preserves (updating (GetTransactionSigOpCost t flags)) (fun _ => True).
Proof.
  apply preserves_updating. intros c x c' Hc. unfold GetTransactionSigOpCost.
  destruct (IsCoinBase t || ContainsZerocoins t); [by intros [= <- <-]|]. destruct (has flags SCRIPT_VERIFY_P2SH).
  - unfold GetP2SHSigOpCount. destruct (IsCoinBase t || Tx_IsZerocoinSpend t); cbn [mbind option_bind].
    + intros E. split; [by eapply witness_loop_spec|done].
    + destruct (p2sh_loop (vin t) 0 c) as [[n d]|] eqn:E; cbn [mbind option_bind]; [|done]. intros E'. split; [|done].
      eapply witness_loop_spec; [|exact E']. by eapply p2sh_loop_spec.
  - cbn [mbind option_bind]. intros E. split; [by eapply witness_loop_spec|done].
Qed.
Lemma preserves_any {A} (m : vcheck S A) Q : preserves m Q -> preserves m (fun _ => True).
Proof. by apply preserves_weaken. Qed.
Ltac go := repeat first
  [ apply preserves_ret; done | eapply preserves_bind; [first [apply preserves_access | apply preserves_demand | apply preserves_reject
      | apply preserves_have | apply preserves_best | apply preserves_ret; exact I]|intros ? _] ].
Lemma preserves_values h l acc : preserves (values_loop params h l acc) (fun _ => True).
Proof. revert acc. induction l as [|i l IH]; intros acc; cbn [values_loop]; go. apply IH. Qed.
Lemma preserves_check_one t c o k flags cs : preserves (check_one Verify t c o k flags cs) (fun _ => True).
Proof.
  unfold check_one. destruct (run_check _ _ _) as [|e|]; [by apply preserves_ret| |by eapply preserves_any, preserves_demand].
  apply (preserves_bind _ _ (fun _ => True)); [|intros _ _; by eapply preserves_any, preserves_reject].
  destruct (negb _); [|by apply preserves_ret]. destruct (run_check _ _ _); [by eapply preserves_any, preserves_reject|by apply preserves_ret|by eapply preserves_any, preserves_demand].
Qed.
Lemma preserves_scripts t flags cs q l k : preserves (scripts_loop Verify t flags cs q l k) (fun _ => True).
Proof.
  revert k. induction l as [|i l IH]; intros k; cbn [scripts_loop]; go. destruct q.
  - eapply preserves_bind; [apply IH|]. intros ? _. by apply preserves_ret.
  - eapply preserves_bind; [apply preserves_check_one|]. intros _ _. apply IH.
Qed.
Lemma preserves_CheckInputs (t : CTransaction) f flags cs q : preserves (CheckInputs Verify index_height params t f flags cs q) (fun _ => True).
Proof.
  unfold CheckInputs. destruct (_ && _); [|by apply preserves_ret]. go. eapply preserves_bind; [apply preserves_values|]. intros x _.
  apply (preserves_bind _ _ (fun _ => True)).
  - destruct (negb _); [|by apply preserves_ret]. unfold fee_checks. go. by eapply preserves_any, preserves_reject.
  - intros _ _. destruct f; [apply preserves_scripts|by apply preserves_ret].
Qed.
End preserves.

(** ** What the loop over the transactions sums up *)

Lemma i64_wraps x : exists k, i64 x = x + k * 2 ^ 64.
Proof. exists (- ((x + 2 ^ 63) / 2 ^ 64)). unfold i64. pose proof (Z.div_mod (x + 2 ^ 63) (2 ^ 64)). lia. Qed.
Lemma i64_same x y k : x = y + k * 2 ^ 64 -> i64 x = i64 y.
Proof. intros ->. unfold i64. replace (y + k * 2 ^ 64 + 2 ^ 63) with (y + 2 ^ 63 + k * 2 ^ 64) by lia. by rewrite Z.mod_add by lia. Qed.

Fixpoint vupdates (v : View) (l : list CTransaction) (height : Z) : option (list CTxUndo * View) :=
  match l with
  | [] => Some ([], v)
  | t :: l => '(us, v) ← vupdate v t height; '(uss, v) ← vupdates v l height; Some (us :: uss, v)
  end.
(** What the coinbases pay out; the mint of the sums without their wraps. *)
Definition coinbase_out (t : CMutableTransaction) : Z := if IsCoinBase t then default 0 (GetValueOut t) else 0.
Definition coinbases (l : list CTransaction) : Z := foldr (fun (t : CTransaction) n => coinbase_out t + n) 0 l.
Definition minted (a : sums) : Z := nValueOut a - nValueIn a + nFees a.
Lemma nMint_minted prev a : nMint prev a = i64 (minted a).
Proof.
  unfold nMint, nMoneySupply, minted. destruct (i64_wraps (prev + nValueOut a)) as [k1 ->]. destruct (i64_wraps (prev + nValueOut a + k1 * 2 ^ 64 - nValueIn a)) as [k2 ->].
  destruct (i64_wraps (prev + nValueOut a + k1 * 2 ^ 64 - nValueIn a + k2 * 2 ^ 64 - prev)) as [k3 ->]. apply (i64_same _ _ (k1 + k2 + k3)). lia.
Qed.

Section loop.
Context {S : Type} `{CCoinsViewLaws S} `{ConnectEnv} (best : hash256) (Hbest : best <> hash_zero).
Context (Verify : valtype -> hash256 -> valtype -> bool) (index_height : hash256 -> option Z) (params : CChainParams).
Context (height : Z) (fScriptChecks : bool) (flags : Z) (queue : bool).

(** The sums of values and the undo records are the same. *)
Definition same_sums (a a' : sums) : Prop :=
  nFees a' = nFees a /\ nValueIn a' = nValueIn a /\ nValueOut a' = nValueOut a /\ vtxundo a' = vtxundo a.
Lemma preserves_mints v t a : preserves best v (mints_part (S := S) t a) (same_sums a).
Proof.
  unfold mints_part. destruct (Tx_IsZerocoinMint t); [|by apply preserves_ret].
  enough (Hl : forall l a0, same_sums a a0 -> preserves best v (mints_loop (S := S) t l a0) (same_sums a)) by by apply Hl.
  induction l as [|o l IH]; intros a0 Ha; cbn [mints_loop]; [by apply preserves_ret|].
  destruct (negb _); [by apply IH|]. eapply preserves_bind; [apply preserves_vdemand|]. intros _ _.
  eapply preserves_bind; [apply preserves_reject|]. intros _ _. apply IH. by destruct Ha as (? & ? & ? & ?).
Qed.
Definition spent_values (v : View) (t : CMutableTransaction) (a a' : sums) : Prop :=
  haveb v t = true /\ exists out, GetValueOut t = Some out /\
  nFees a' = i64 (nFees a + i64 (value_of_inputs v t - out)) /\ nValueIn a' = i64 (nValueIn a + value_of_inputs v t) /\
  nValueOut a' = nValueOut a /\ vtxundo a' = vtxundo a.
Lemma preserves_spending v (t : CTransaction) a :
  preserves best v (spending_tx (S := S) Verify index_height params fScriptChecks flags queue t a) (spent_values v t a).
Proof.
  unfold spending_tx. eapply preserves_bind; [apply preserves_have|]. intros b Hb.
  eapply preserves_bind; [apply preserves_reject|]. intros _ Hhave%negb_false_iff.
  eapply preserves_bind; [apply preserves_mints|]. intros a1 (E1 & E2 & E3 & E4).
  eapply preserves_bind; [apply preserves_value|]. intros x ->. eapply preserves_bind; [apply preserves_demand|]. intros out Hout.
  eapply preserves_bind; [apply preserves_value|]. intros x ->. eapply preserves_bind; [apply preserves_sigops|]. intros n _.
  eapply preserves_bind; [apply preserves_reject|]. intros _ _.
  eapply preserves_bind; [by apply preserves_CheckInputs|]. intros q _. apply preserves_ret. unfold spent_values. cbn [nFees nValueIn nValueOut vtxundo add_values].
  rewrite E1, E2, E3, E4. split; [by rewrite <- Hb|]. by exists out.
Qed.

Definition step_ok (v : View) (t : CTransaction) (a a' : sums) (w : View) : Prop :=
  exists us k, vupdate v t height = Some (us, w) /\ vtxundo a' = us :: vtxundo a /\ (IsCoinBase t = false -> haveb v t = true) /\
  minted a' = minted a + coinbase_out t + k * 2 ^ 64.
Lemma connect_tx_spec v (t : CTransaction) a s c a' s' c' : Tx_IsZerocoinSpend t = false -> at_view best v c ->
  connect_tx Verify index_height params height fScriptChecks flags queue t a s c = Some (Some a', s', c') ->
  exists w, at_view best w c' /\ step_ok v t a a' w.
Proof.
  intros Hz Hc. unfold connect_tx. rewrite Hz.
  set (body := if negb (IsCoinBase t) then _ else _).
  unfold mbind, vcheck_bind. destruct (vreject_if _ _ _ _ s c) as [[[[[]|] s1] c1]|] eqn:E1; [| |done]; [|done].
  destruct (preserves_reject best v _ _ _ _ _ _ _ _ _ Hc E1) as [Hc1 _].
  assert (Hbody : preserves best v body (fun a1 => vtxundo a1 = vtxundo a /\ (IsCoinBase t = false -> haveb v t = true) /\
    forall out, GetValueOut t = Some out -> exists k, minted a1 + out = minted a + coinbase_out t + k * 2 ^ 64)).
  { unfold body, coinbase_out. destruct (IsCoinBase t) eqn:Hcb; cbn [negb].
    - apply preserves_ret. split; [done|split; [done|]]. intros out ->. exists 0. cbn. lia.
    - eapply preserves_weaken; [|apply preserves_spending]. intros a1 (Hh & out & Hout & Hf & Hi & Ho & Hu). split; [done|split; [done|]].
      intros out' Hout'. rewrite Hout in Hout'. injection Hout' as <-. unfold minted. rewrite Hf, Hi, Ho.
      destruct (i64_wraps (value_of_inputs v t - out)) as [k1 ->]. destruct (i64_wraps (nFees a + (value_of_inputs v t - out + k1 * 2 ^ 64))) as [k2 ->].
      destruct (i64_wraps (nValueIn a + value_of_inputs v t)) as [k3 ->]. exists (k1 + k2 - k3). lia. }
  destruct (body s1 c1) as [[[[a1|] s2] c2]|] eqn:E2; [| |done]; [|done].
  destruct (Hbody _ _ _ _ _ Hc1 E2) as [Hc2 Ha1]. specialize (Ha1 a1 eq_refl) as (Hu & Hh & Hout). clear Hbody. clearbody body.
  unfold demand_some. destruct (GetValueOut t) as [out|]; cbn [mbind option_bind]; [|done]. destruct (Hout out eq_refl) as [k Hk].
  unfold updating. destruct Hc2 as (Hi & Hb & Hv). pose proof (UpdateCoins_refines t height c2 v Hi Hv) as Href.
  destruct (UpdateCoins t height c2) as [[us d]|] eqn:E3; cbn [mbind option_bind]; [|done]. intros [= <- <- <-].
  destruct (vupdate v t height) as [[us' w]|] eqn:E4; [|done].
  destruct Href as (d' & [= <- <-] & Hid & Hhd & Hvd). exists w. split; [split; [done|split; [by rewrite Hhd|done]]|].
  destruct (i64_wraps (nValueOut a1 + out)) as [k' Hk']. exists us, (k + k'). split; [done|]. cbn [vtxundo add_out]. split; [by rewrite Hu|split; [done|]].
  unfold minted in *. cbn [nValueOut nValueIn nFees add_out]. rewrite Hk'. lia.
Qed.

(** Every transaction that spends had its inputs. *)
Fixpoint all_have (v : View) (l : list CTransaction) : Prop :=
  match l with [] => True | t :: l => (IsCoinBase t = false -> haveb v t = true) /\ forall us w, vupdate v t height = Some (us, w) -> all_have w l end.
Lemma connect_loop_spec l v a s c a' s' c' : Forall (fun t : CTransaction => Tx_IsZerocoinSpend t = false) l -> at_view best v c ->
  connect_loop Verify index_height params height fScriptChecks flags queue l a s c = Some (Some a', s', c') ->
  exists uss w k, vupdates v l height = Some (uss, w) /\ at_view best w c' /\ rev (vtxundo a') = rev (vtxundo a) ++ uss /\ all_have v l /\
    minted a' = minted a + coinbases l + k * 2 ^ 64.
Proof.
  revert v a s c. induction l as [|t l IH]; intros v a s c Hz Hc; cbn [connect_loop].
  - intros [= <- <- <-]. exists [], v, 0. rewrite app_nil_r. cbn. split_and!; try done; lia.
  - apply Forall_cons_iff in Hz as [Hzt Hz]. unfold mbind, vcheck_bind.
    destruct (connect_tx _ _ _ _ _ _ _ t a s c) as [[[[a1|] s1] c1]|] eqn:E; [| |done]; [|done].
    destruct (connect_tx_spec _ _ _ _ _ _ _ _ Hzt Hc E) as (v1 & Hc1 & us & k1 & Hup & Hu & Hh & Hm). intros E'.
    destruct (IH v1 a1 s1 c1 Hz Hc1 E') as (uss & w & k2 & Hups & Hw & Hr & Hall & Hm'). exists (us :: uss), w, (k1 + k2).
    cbn [vupdates]. rewrite Hup. cbn [mbind option_bind]. rewrite Hups. cbn [mbind option_bind]. split; [done|split; [done|split; [|split]]].
    + rewrite Hr, Hu. cbn [rev]. by rewrite <- app_assoc.
    + cbn [all_have]. split; [done|]. intros us0 w0. rewrite Hup. by intros [= _ <-].
    + cbn [coinbases foldr]. fold (coinbases l). lia.
Qed.
End loop.

(** C10: the amount a block is held to have minted does not depend on its coinstake.  For any
    view that keeps the contract of views and any block without zerocoin spends, whose
    transactions the loop of [ConnectBlock] lets through: every transaction that spends had
    its inputs available, the outputs are updated in the order of the block, one undo record
    is kept for each transaction, and [nMint], which is compared with what the block may pay,
    is the sum of the outputs of the coinbases alone.  Whatever a coinstake creates beyond
    what it spends is added to the outputs and taken off again as a fee, so a block whose
    coinbase is empty, as those of proof of stake are, has minted nothing. *)
Theorem nMint_ignores_coinstake {S : Type} `{CCoinsViewLaws S} `{ConnectEnv} (Verify : valtype -> hash256 -> valtype -> bool)
    (index_height : hash256 -> option Z) (params : CChainParams) (best : hash256) (v : View) (height flags prev : Z) (fScriptChecks queue : bool)
    (vtx : list CTransaction) (s s' : CValidationState) (c c' : CCoinsViewCache S) (a : sums) :
  best <> hash_zero -> at_view best v c -> Forall (fun t : CTransaction => Tx_IsZerocoinSpend t = false) vtx ->
  connect_loop Verify index_height params height fScriptChecks flags queue vtx sums_zero s c = Some (Some a, s', c') ->
  all_have height v vtx /\
  (exists uss w, vupdates v vtx height = Some (uss, w) /\ at_view best w c' /\ block_undo a = tail uss /\ length uss = length vtx) /\
  nMint prev a = i64 (coinbases vtx) /\
  (Forall (fun t : CTransaction => IsCoinBase t = true -> GetValueOut t = Some 0) vtx -> nMint prev a = 0).
Proof.
  intros Hb Hc Hz E. destruct (connect_loop_spec best Hb Verify index_height params height fScriptChecks flags queue vtx v sums_zero s c a s' c' Hz Hc E)
    as (uss & w & k & Hup & Hw & Hr & Hall & Hm).
  assert (Hmint : nMint prev a = i64 (coinbases vtx)) by (rewrite nMint_minted; apply (i64_same _ _ k); change (minted sums_zero) with 0 in Hm; lia).
  split; [done|split; [|split; [done|]]].
  - exists uss, w. split; [done|split; [done|split; [unfold block_undo; by rewrite Hr|]]].
    clear - Hup. revert v uss Hup. induction vtx as [|t l IH]; intros v uss; cbn [vupdates]; [by intros [= <- _]|].
    destruct (vupdate v t height) as [[us v1]|]; cbn [mbind option_bind]; [|done].
    destruct (vupdates v1 l height) as [[us' v2]|] eqn:E; cbn [mbind option_bind]; [|done]. intros [= <- <-]. cbn. f_equal. by eapply IH.
  - intros H0cb. rewrite Hmint. assert (coinbases vtx = 0) as ->; [|done].
    clear - H0cb. induction H0cb as [|t l Ht Hl IH]; [done|]. cbn [coinbases foldr]. fold (coinbases l). rewrite IH. unfold coinbase_out.
    destruct (IsCoinBase t); [by rewrite Ht|done].
Qed.

(** A block of proof of stake: an empty coinbase, and a coinstake that turns one coin into a
    thousand. *)
Definition greedy_block : list CTransaction :=
  [mkCTx (leaf 11) (mkTx 1 [mkTxIn (mkOutPoint hash_zero UINT32_MAX) [1; 1] 0 []] [mkTxOut 0 [] (-10)] [] 0);
   mkCTx (leaf 12) (mkTx 1 [mkTxIn (mkOutPoint (leaf 5) 0) [] 0 []] [mkTxOut 0 [] (-10); mkTxOut (1000 * COIN) [81] (-10)] [] 0)].
#[local] Instance no_env : ConnectEnv := {|
  maintenance := false; fVerifyingBlocks := false; IsTransactionInChain := fun _ => None; getDenomination := fun _ => 0;
  ContextualCheckZerocoinSpend := fun _ _ => false; TxOutToPublicCoin := fun _ s => (false, s); ContextualCheckZerocoinMint := fun _ _ => false |}.
Definition greedy_run := Eval vm_compute in
  connect_loop no_curve heights CMainParams 200 true SCRIPT_VERIFY_P2SH false greedy_block sums_zero CValidationState_new ledger.
Lemma nMint_ignores_coinstake_witness : exists a s c, greedy_run = Some (Some a, s, c) /\ nMint 5000 a = 0 /\
  map (fun t : CTransaction => IsCoinStake t) greedy_block = [false; true].
Proof.
  destruct greedy_run as [[[[a|] s] c]|] eqn:E; try (by vm_compute in E). exists a, s, c. split; [done|split; [|by vm_compute]].
  assert (E' : connect_loop no_curve heights CMainParams 200 true SCRIPT_VERIFY_P2SH false greedy_block sums_zero CValidationState_new ledger = Some (Some a, s, c))
    by (rewrite <- E; by vm_compute).
  refine (proj2 (proj2 (proj2 (nMint_ignores_coinstake no_curve heights CMainParams tip one_view 200 SCRIPT_VERIFY_P2SH 5000 true false
    greedy_block CValidationState_new s ledger c a _ ledger_at _ E'))) _); [done|by repeat constructor|by repeat constructor].
Defined.
