(* ===== verification/Disconnect.v ===== *)
(** Disconnecting a block gives back the unspent outputs ([DisconnectBlock] in
    [src/src/main.cpp], modelled in Connect): each spent output returns to its place, the
    outputs of the block disappear, and the records match, except that the flag of a coinstake
    whose last output was spent is lost. *)
From S2P Require Import Prelude Serialize Stream Hashers Script SigChecks Interp Payments Merkle Transaction SigHash Compressor Coins CoinsView TxChecks Ledger Connect.
#[local] Arguments visible : simpl never.

(** ** Coins in normal form *)

Definition exact_nulls (l : list CTxOut) : Prop := Forall (fun o => TxOut_IsNull o = true -> o = TxOut_null) l.
(** Nothing spent at the end, spent outputs without a trace, the height that of a block. *)
Definition normal (c : CCoins) : Prop :=
  clean (c_vout c) /\ exact_nulls (c_vout c) /\ 0 < nHeight c < 2 ^ 31 /\ Z.of_nat (length (c_vout c)) < 2 ^ 32.
Definition normal_view (v : View) : Prop := forall h c, v h = Some c -> IsPruned c = false /\ normal c.
Definition nostake (c : CCoins) : CCoins := mkCoins (fCoinBase c) false (c_vout c) (nHeight c) (c_nVersion c).

Lemma exact_replicate l : exact_nulls l -> forallb TxOut_IsNull l = true -> l = replicate (length l) TxOut_null.
Proof. induction 1 as [|o l Ho Hl IH]; cbn; [done|]. intros [E1 E2]%andb_true_iff. by rewrite (Ho E1), <- IH. Qed.
Lemma exact_insert_null l n : exact_nulls l -> exact_nulls (<[n := TxOut_null]> l).
Proof. intros Hl. unfold exact_nulls. by apply Forall_insert. Qed.
Lemma exact_Cleanup l : exact_nulls l -> exact_nulls (Cleanup_vout l).
Proof. intros Hl. destruct (Cleanup_vout_clean l) as (_ & k & nulls & Hv & _). unfold exact_nulls in *. rewrite Hv in Hl. by apply Forall_app in Hl as [? _]. Qed.
Lemma Cleanup_length l : (length (Cleanup_vout l) <= length l)%nat.
Proof. destruct (Cleanup_vout_clean l) as (_ & k & nulls & Hv & _). rewrite Hv at 2. rewrite length_app. lia. Qed.

(** An output put back where it was spent. *)
Lemma put_back l n : clean l -> exact_nulls l -> (n < length l)%nat -> Z.of_nat (length l) < 2 ^ 32 ->
  TxOut_IsNull (nth n l TxOut_null) = false ->
  Cleanup_vout (<[n := nth n l TxOut_null]> (resize_outs (Cleanup_vout (<[n := TxOut_null]> l)) (Z.of_nat n))) = l.
Proof.
  intros Hc He Hn Hlen Hx. set (x := nth n l TxOut_null) in *.
  destruct (Cleanup_vout_clean (<[n := TxOut_null]> l)) as (_ & k & nulls & Hv & _ & Hnulls).
  set (w := Cleanup_vout (<[n := TxOut_null]> l)) in *.
  assert (Hnull : nulls = replicate (length nulls) TxOut_null).
  { apply exact_replicate; [|done]. pose proof (exact_insert_null l n He) as Hi. rewrite Hv in Hi. by apply Forall_app in Hi as [_ ?]. }
  assert (Hl : l = <[n := x]> (w ++ nulls)).
  { rewrite <- Hv, list_insert_insert_eq. symmetry. apply list_insert_id. unfold x. rewrite nth_lookup.
    destruct (lookup_lt_is_Some_2 l n Hn) as [y ->]. done. }
  assert (Hlw : length l = (length w + length nulls)%nat) by (rewrite Hl, length_insert, length_app; done).
  clearbody w x. unfold resize_outs. rewrite u32_small by lia.
  destruct (Z.ltb_spec (Z.of_nat (length w)) (Z.of_nat n + 1)) as [Hlt|Hge].
  - replace (Z.to_nat (Z.of_nat n + 1) - length w)%nat with (S n - length w)%nat by lia.
    assert (Hk : nulls = replicate (S n - length w) TxOut_null ++ replicate (length nulls - (S n - length w)) TxOut_null).
    { rewrite <- replicate_add. rewrite Hnull at 1. f_equal. lia. }
    rewrite <- (Cleanup_vout_pad _ (length nulls - (S n - length w))). rewrite <- insert_app_l by (rewrite length_app, length_replicate; lia).
    rewrite <- app_assoc, <- Hk, <- Hl. by apply Cleanup_vout_id.
  - rewrite <- (Cleanup_vout_pad _ (length nulls)), <- Hnull, <- insert_app_l, <- Hl by lia. by apply Cleanup_vout_id.
Qed.

Lemma unspent_not_available c n : unspent_out c n = None -> IsAvailable c n = false.
Proof.
  unfold unspent_out, IsAvailable. destruct (Z.leb_spec (Z.of_nat (length (c_vout c))) n), (Z.ltb_spec n (Z.of_nat (length (c_vout c)))); try lia; try done.
  by destruct (TxOut_IsNull _).
Qed.
Lemma normal_Spend c n c' u : normal c -> Spend c n = Some (c', u) -> normal c'.
Proof.
  intros (Hc & He & Hh & Hl) (x & _ & -> & _)%Spend_Some. unfold normal, Cleanup. cbn [set_vout c_vout nHeight]. split_and!.
  - by destruct (Cleanup_vout_clean (<[Z.to_nat n := TxOut_null]> (c_vout c))) as [? _].
  - by apply exact_Cleanup, exact_insert_null.
  - lia.
  - lia.
  - pose proof (Cleanup_length (<[Z.to_nat n := TxOut_null]> (c_vout c))). rewrite length_insert in *. lia.
Qed.
Lemma set_vout_nostake c l : set_vout (nostake c) l = nostake (set_vout c l).
Proof. done. Qed.

(** What [restore_out] makes of coins that were spent from, or of the same without the flag. *)
Lemma restored_vout c n x : normal c -> 0 <= n -> unspent_out c n = Some x ->
  Cleanup_vout (<[Z.to_nat n := x]> (resize_outs (Cleanup_vout (<[Z.to_nat n := TxOut_null]> (c_vout c))) n)) = c_vout c.
Proof.
  intros (Hc & He & Hh & Hlen) Hn (Hlt & Hx & Hnn)%(unspent_Some c n _ Hn).
  pose proof (put_back (c_vout c) (Z.to_nat n) Hc He Hlt Hlen) as Hp. rewrite Hx, Z2Nat.id in Hp by done. by apply Hp.
Qed.
Lemma restore_pruned c n c' u d : normal c -> 0 <= n -> Spend c n = Some (c', u) -> IsPruned c' = true -> IsPruned d = true ->
  exists r, restore_out n u d = Some (true, r) /\ Cleanup r = nostake c.
Proof.
  intros Hnorm Hn Hs Hp Hd. pose proof (normal_Spend _ _ _ _ Hnorm Hs) as [Hc' _]. pose proof (pruned_clean c' Hc' Hp) as Hw.
  apply Spend_Some in Hs as (x & Hx & -> & ->). pose proof (restored_vout c n x Hnorm Hn Hx) as Hback.
  unfold Cleanup in Hw at 1. cbn [set_vout c_vout] in Hw. rewrite Hw in Hback. unfold restore_out, Cleanup. cbn [set_vout c_vout fCoinBase fCoinStake nHeight c_nVersion].
  rewrite Hw. cbn [length Nat.eqb u_nHeight u_fCoinBase u_nVersion txout].
  destruct Hnorm as (_ & _ & Hh & _). rewrite u32_small by lia. destruct (Z.eqb_spec (nHeight c) 0); [lia|]. cbn [negb].
  rewrite Hd, i32_small by lia. eexists. split.
  - f_equal. f_equal. cbn [andb]. apply negb_true_iff, unspent_not_available, pruned_unspent. done.
  - unfold nostake. cbn [set_vout c_vout Clear CCoins_empty fCoinBase fCoinStake nHeight c_nVersion]. by rewrite Hback.
Qed.
Lemma restore_partial c n c' u d : normal c -> 0 <= n -> Spend c n = Some (c', u) -> IsPruned c' = false -> c_vout d = c_vout c' ->
  exists r, restore_out n u d = Some (true, r) /\ Cleanup r = set_vout d (c_vout c).
Proof.
  intros Hnorm Hn Hs Hp Hd. pose proof (unspent_Spend _ _ _ _ n Hn Hn Hs) as Hnone. rewrite decide_True in Hnone by done.
  apply Spend_Some in Hs as (x & Hx & -> & ->). pose proof (restored_vout c n x Hnorm Hn Hx) as Hback.
  assert (Hnz : Nat.eqb (length (c_vout (Cleanup (set_vout c (<[Z.to_nat n := TxOut_null]> (c_vout c)))))) 0 = false).
  { apply Nat.eqb_neq. intros Hz. apply nil_length_inv in Hz. unfold IsPruned in Hp. by rewrite Hz in Hp. }
  rewrite Hnz. unfold restore_out. cbn [CTxInUndo_of u_nHeight txout Z.eqb negb]. eexists. split.
  - f_equal. f_equal. unfold IsPruned, IsAvailable. rewrite Hd. unfold IsPruned in Hp. rewrite Hp. cbn [negb andb].
    apply negb_true_iff. by apply (unspent_not_available _ _ Hnone).
  - rewrite Hd. unfold Cleanup. cbn [set_vout c_vout] in *. by rewrite Hback.
Qed.

(** ** Views up to lost flags *)

(** [w] is [v], but for the flags of some transactions in [T]. *)
Definition lossy (T : list hash256) (v w : View) : Prop := forall k, w k = v k \/ k ∈ T /\ w k = nostake <$> v k.

Lemma nostake_idem c : nostake (nostake c) = nostake c.
Proof. done. Qed.
Lemma visible_Some_not c : IsPruned c = false -> visible (Some c) = Some c.
Proof. unfold visible. cbn. by intros ->. Qed.
Lemma visible_eq o x : o ≡ Some x -> IsPruned x = false -> visible o = Some x.
Proof. intros E Hx. rewrite E. by apply visible_Some_not. Qed.
Lemma vspend_Some v o u w : vspend v o = Some (u, w) -> exists c c', v (out_hash o) = Some c /\ Spend c (out_n o) = Some (c', u) /\
  w = upd v (out_hash o) (visible (Some c')).
Proof.
  unfold vspend. destruct (v (out_hash o)) as [c|]; cbn [mbind option_bind]; [|done].
  destruct (Spend c (out_n o)) as [[c' u']|] eqn:E; cbn [mbind option_bind]; [|done]. intros [= <- <-]. by exists c, c'.
Qed.

Section restore.
Context {S : Type} `{CCoinsViewLaws S}.

Lemma with_restore v o u w T c : normal_view v -> 0 <= out_n o -> vspend v o = Some (u, w) -> cache_inv c -> lossy T w (vw c) ->
  exists d, with_coins (out_hash o) (restore_out (out_n o) u) c = Some (true, d) /\ cache_inv d /\ hashBlock d = hashBlock c /\
    lossy (out_hash o :: T) v (vw d).
Proof.
  intros Hv Hn (c0 & c' & Hc0 & Hs & ->)%vspend_Some Hc HR. destruct (Hv _ _ Hc0) as [Hp0 Hnorm].
  pose proof (with_coins_spec (out_hash o) (restore_out (out_n o) u) c Hc) as Hw. specialize (HR (out_hash o)) as Ho. rewrite upd_same in Ho.
  assert (Hfin : forall r x, restore_out (out_n o) u (default CCoins_empty (cache_view c (out_hash o))) = Some (true, r) -> Cleanup r = x ->
    x = c0 \/ x = nostake c0 -> exists d, with_coins (out_hash o) (restore_out (out_n o) u) c = Some (true, d) /\ cache_inv d /\
      hashBlock d = hashBlock c /\ lossy (out_hash o :: T) v (vw d)).
  { intros r x Hr Hx Hx'. rewrite Hr in Hw. destruct Hw as (d & Hd & Hi & Hvd & Hother & Hh). exists d. split_and!; try done. intros k.
    destruct (decide (k = out_hash o)) as [->|Hk].
    - unfold vw. rewrite Hx in Hvd. rewrite (visible_eq _ _ Hvd), Hc0 by (destruct Hx' as [->| ->]; done).
      destruct Hx' as [->| ->]; [by left|right]. split; [left|done].
    - unfold vw. rewrite Hother by done. fold (vw c k). specialize (HR k). rewrite upd_other in HR by done.
      destruct HR as [?|[? ?]]; [by left|right]. split; [by right|done]. }
  destruct (IsPruned c') eqn:Hp'.
  - rewrite (visible_pruned c' Hp') in Ho. assert (Hgone : vw c (out_hash o) = None) by (destruct Ho as [?|[_ ?]]; done).
    assert (Hd : IsPruned (default CCoins_empty (cache_view c (out_hash o))) = true).
    { unfold vw, visible in Hgone. destruct (cache_view c (out_hash o)) as [d|]; [|done]. cbn in *. by destruct (IsPruned d). }
    destruct (restore_pruned c0 _ c' u _ Hnorm Hn Hs Hp' Hd) as (r & Hr & Hx). eapply Hfin; [exact Hr|exact Hx|by right].
  - rewrite (visible_Some_not c' Hp') in Ho. 
    assert (Hdd : exists dd, cache_view c (out_hash o) = Some dd /\ (dd = c' \/ dd = nostake c')).
    { destruct Ho as [Ho|[_ Ho]]; apply visible_Some in Ho as [Ho _]; eexists; (split; [exact Ho|]); [by left|by right]. }
    destruct Hdd as (dd & Hdd & Hdd'). rewrite Hdd in Hfin. cbn [default from_option id] in Hfin.
    assert (Hvd : c_vout dd = c_vout c') by (destruct Hdd' as [->| ->]; done).
    destruct (restore_partial c0 _ c' u dd Hnorm Hn Hs Hp' Hvd) as (r & Hr & Hx). eapply Hfin; [exact Hr|exact Hx|].
    apply Spend_Some in Hs as (x & _ & -> & _). destruct c0. destruct Hdd' as [->| ->]; [by left|by right].
Qed.

Context {ZDB : Type} (EraseCoinSpend : CTxIn -> ZDB -> option ZDB) (EraseCoinMint : CTxOut -> ZDB -> option ZDB) (height : Z).
Context (Hheight : 0 < height < 2 ^ 31).

Lemma normal_upd v h x : normal_view v -> (forall c, x = Some c -> IsPruned c = false /\ normal c) -> normal_view (upd v h x).
Proof. intros Hv Hx k c. unfold upd. destruct (decide (k = h)); [apply Hx|apply Hv]. Qed.
Lemma normal_vspend v o u w : normal_view v -> vspend v o = Some (u, w) -> normal_view w.
Proof.
  intros Hv (c & c' & Hc & Hs & ->)%vspend_Some. apply normal_upd; [done|]. intros x [[= ->] Hp]%visible_Some. split; [done|].
  by apply (normal_Spend c (out_n o) x u); [apply (Hv _ _ Hc)|].
Qed.
Lemma normal_vspends l v us w : normal_view v -> vspends v l = Some (us, w) -> normal_view w.
Proof.
  revert v us. induction l as [|i l IH]; intros v us Hv; cbn [vspends]; [by intros [= _ <-]|].
  destruct (vspend v (prevout i)) as [[u v1]|] eqn:E; cbn [mbind option_bind]; [|done].
  destruct (vspends v1 l) as [[us' v2]|] eqn:E'; cbn [mbind option_bind]; [|done]. intros [= _ <-].
  eapply IH; [|exact E']. by eapply normal_vspend.
Qed.
Definition hashes (l : list CTxIn) : list hash256 := map (fun i => out_hash (prevout i)) l.
Lemma restore_inputs_spec l v us w T (d : dstate (S := S) (ZDB := ZDB)) : normal_view v -> outpoints_ok l -> vspends v l = Some (us, w) ->
  cache_inv (d_view d) -> lossy T w (vw (d_view d)) ->
  exists d', restore_inputs l us d = Some d' /\ cache_inv (d_view d') /\ hashBlock (d_view d') = hashBlock (d_view d) /\
    fClean d' = fClean d /\ d_zdb d' = d_zdb d /\ lossy (hashes l ++ T) v (vw (d_view d')).
Proof.
  revert v us. induction l as [|i l IH]; intros v us Hv Ho; cbn [vspends].
  - intros [= <- <-] Hc HR. by exists d.
  - apply Forall_cons_iff in Ho as [Hi Ho]. destruct (vspend v (prevout i)) as [[u v1]|] eqn:E; cbn [mbind option_bind]; [|done].
    destruct (vspends v1 l) as [[us' v2]|] eqn:E'; cbn [mbind option_bind]; [|done]. intros [= <- <-] Hc HR.
    destruct (IH v1 us' (normal_vspend _ _ _ _ Hv E) Ho E' Hc HR) as (d1 & Hd1 & Hi1 & Hh1 & Hf1 & Hz1 & HR1).
    destruct (with_restore v (prevout i) u v1 _ (d_view d1) Hv Hi E Hi1 HR1) as (c & Hw & Hic & Hhc & HRc).
    cbn [restore_inputs]. rewrite Hd1. cbn [mbind option_bind]. rewrite Hw. cbn [mbind option_bind]. eexists. split; [done|]. cbn [d_view fClean d_zdb].
    rewrite andb_true_r. split_and!; try done. by rewrite Hhc.
Qed.

(** *** The outputs of the transaction *)

Lemma vout_eqb_refl l : vout_eqb l l = true.
Proof. induction l as [|o l IH]; cbn; [done|]. unfold TxOut_eqb. rewrite !Z.eqb_refl, bool_decide_eq_true_2, IH by done. done. Qed.
Lemma Coins_eqb_refl c : Coins_eqb c c = true.
Proof. unfold Coins_eqb. destruct (IsPruned c && IsPruned c); [done|]. by rewrite !Bool.eqb_reflx, !Z.eqb_refl, vout_eqb_refl. Qed.
Definition null_unspendable (o : CTxOut) : CTxOut := if IsUnspendable (scriptPubKey o) then TxOut_null else o.
Lemma null_unspendable_idem o : null_unspendable (null_unspendable o) = null_unspendable o.
Proof. unfold null_unspendable. destruct (IsUnspendable (scriptPubKey o)) eqn:E; [done|]. by rewrite E. Qed.
Lemma FromTx_clear t : ClearUnspendable (FromTx t height) = FromTx t height.
Proof.
  unfold FromTx, ClearUnspendable, Cleanup. cbn [set_vout c_vout fCoinBase fCoinStake nHeight c_nVersion]. f_equal.
  change (fun o => if IsUnspendable (scriptPubKey o) then TxOut_null else o) with null_unspendable. set (l := map null_unspendable (vout t)).
  assert (Hl : map null_unspendable l = l) by (unfold l; rewrite map_map; apply map_ext; intros; apply null_unspendable_idem).
  clearbody l. destruct (Cleanup_vout_clean l) as (Hc & k & nulls & Hv & _). set (w := Cleanup_vout l) in *. clearbody w.
  rewrite Hv, map_app in Hl. apply app_inj_1 in Hl as [-> _]; [|by rewrite length_map]. by apply Cleanup_vout_id.
Qed.
Lemma IsPruned_clear c : IsPruned c = true -> IsPruned (ClearUnspendable c) = true.
Proof.
  intros Hp. unfold ClearUnspendable. rewrite pruned_Cleanup. unfold IsPruned in *. cbn [set_vout c_vout]. rewrite forallb_forall in *.
  intros o (x & <- & Hx)%in_map_iff. destruct (IsUnspendable _); [done|by apply Hp].
Qed.
Lemma with_remove_outs t c : cache_inv c -> vw c (cached_hash t) = visible (Some (FromTx t height)) ->
  exists d, with_coins (cached_hash t) (remove_outs height t) c = Some (true, d) /\ cache_inv d /\ hashBlock d = hashBlock c /\
    forall k, vw d k = upd (vw c) (cached_hash t) None k.
Proof.
  intros Hc Hv. pose proof (with_coins_spec (cached_hash t) (remove_outs height t) c Hc) as Hw.
  assert (Hok : remove_outs height t (default CCoins_empty (cache_view c (cached_hash t))) = Some (true, CCoins_empty)).
  { unfold remove_outs. f_equal. f_equal. destruct (IsPruned (FromTx t height)) eqn:P.
    - rewrite (visible_pruned _ P) in Hv. assert (Hd : IsPruned (default CCoins_empty (cache_view c (cached_hash t))) = true).
      { unfold vw, visible in Hv. destruct (cache_view c (cached_hash t)) as [x|]; [|done]. cbn in *. by destruct (IsPruned x). }
      unfold Coins_eqb. rewrite P. apply IsPruned_clear in Hd. destruct (_ <? 0); unfold IsPruned in *; cbn [c_vout]; by rewrite Hd.
    - rewrite (visible_Some_not _ P) in Hv. apply visible_Some in Hv as [-> _]. cbn [default from_option id]. rewrite FromTx_clear.
      destruct (_ <? 0); [|apply Coins_eqb_refl]. destruct (FromTx t height). apply Coins_eqb_refl. }
  rewrite Hok in Hw. destruct Hw as (d & Hd & Hi & Hvd & Hother & Hh). exists d. split_and!; try done. intros k. unfold upd.
  destruct (decide (k = cached_hash t)) as [->|Hk]; [unfold vw; by rewrite Hvd|]. unfold vw. by rewrite Hother.
Qed.

(** *** One transaction, and a block *)

(** What the theorem asks of a transaction by itself. *)
Definition tx_ok (t : CMutableTransaction) : Prop :=
  outpoints_ok (vin t) /\ Forall (fun o => 0 <= nValue o) (vout t) /\ Z.of_nat (length (vout t)) < 2 ^ 32 /\ ContainsZerocoins t = false.
Lemma vspends_length l v us w : vspends v l = Some (us, w) -> length us = length l.
Proof.
  revert v us. induction l as [|i l IH]; intros v us; cbn [vspends]; [by intros [= <- _]|].
  destruct (vspend v (prevout i)) as [[u v1]|]; cbn [mbind option_bind]; [|done].
  destruct (vspends v1 l) as [[us' v2]|] eqn:E; cbn [mbind option_bind]; [|done]. intros [= <- <-]. cbn. by rewrite (IH _ _ E).
Qed.
Lemma nostake_FromTx t : IsCoinStake t = false -> nostake (FromTx t height) = FromTx t height.
Proof. intros Hs. unfold nostake, FromTx, ClearUnspendable, Cleanup. cbn [set_vout fCoinBase fCoinStake c_vout nHeight c_nVersion]. by rewrite Hs. Qed.
Lemma normal_FromTx t : tx_ok t -> normal (FromTx t height).
Proof.
  intros (_ & Hn & Hl & _). unfold normal, FromTx, ClearUnspendable, Cleanup. cbn [set_vout c_vout nHeight]. set (l := map _ (vout t)). split_and!; try lia.
  - by destruct (Cleanup_vout_clean l) as [? _].
  - apply exact_Cleanup. unfold exact_nulls, l. apply Forall_map. eapply list.Forall_impl; [exact Hn|]. intros o Ho. cbn beta.
    unfold compose. destruct (IsUnspendable _); [done|]. unfold TxOut_IsNull. intros E%Z.eqb_eq. cbn beta in Ho. lia.
  - pose proof (Cleanup_length l). unfold l in *. rewrite length_map in *. lia.
Qed.
Lemma vupdate_Some v (t : CTransaction) us w : vupdate v t height = Some (us, w) ->
  exists v1, vspends v (spends t) = Some (us, v1) /\ w = upd v1 (cached_hash t) (visible (Some (FromTx t height))).
Proof.
  unfold vupdate. destruct (vspends v (spends t)) as [[us' v1]|]; cbn [mbind option_bind]; [|done]. intros [= <- <-]. by exists v1.
Qed.
Lemma normal_vupdate v (t : CTransaction) us w : normal_view v -> tx_ok t -> vupdate v t height = Some (us, w) -> normal_view w.
Proof.
  intros Hv Ht (v1 & Hs & ->)%vupdate_Some. apply normal_upd; [by eapply normal_vspends|]. intros c [[= <-] Hp]%visible_Some. split; [done|].
  by apply normal_FromTx.
Qed.
Lemma disconnect_tx_spec v (t : CTransaction) u us w T (d : dstate (S := S) (ZDB := ZDB)) : vupdate v t height = Some (us, w) -> normal_view v -> tx_ok t ->
  v (cached_hash t) = None -> (IsCoinStake t = true -> cached_hash t ∉ T) -> IsCoinBase t = true \/ u = Some us ->
  cache_inv (d_view d) -> lossy T w (vw (d_view d)) ->
  exists d', disconnect_tx EraseCoinSpend EraseCoinMint height t u d = Some (Some d') /\ cache_inv (d_view d') /\
    hashBlock (d_view d') = hashBlock (d_view d) /\ fClean d' = fClean d /\ d_zdb d' = d_zdb d /\ lossy (hashes (spends t) ++ T) v (vw (d_view d')).
Proof.
  intros Hup Hv (Ho & _ & _ & Hz) Hnone Hst Hu Hc HR. apply vupdate_Some in Hup as (v1 & Hs & ->).
  pose proof (vspends_none _ _ _ _ _ Hs Hnone) as Hnone1. unfold disconnect_tx. rewrite Hz.
  assert (Hown : vw (d_view d) (cached_hash t) = visible (Some (FromTx t height))).
  { destruct (HR (cached_hash t)) as [E|[Hin E]]; rewrite upd_same in E; [done|]. destruct (IsCoinStake t) eqn:Ec; [by destruct (Hst eq_refl)|].
    rewrite E. unfold visible. cbn [mbind option_bind]. destruct (IsPruned (FromTx t height)); [done|]. cbn [fmap option_fmap option_map].
    by rewrite nostake_FromTx. }
  destruct (with_remove_outs t (d_view d) Hc Hown) as (c & Hw & Hic & Hhc & Hvc). rewrite Hw. cbn [mbind option_bind]. rewrite andb_true_r.
  assert (HR1 : lossy T v1 (vw c)).
  { intros k. rewrite Hvc. unfold upd. destruct (decide (k = cached_hash t)) as [->|Hk]; [left; by rewrite Hnone1|].
    specialize (HR k). by rewrite upd_other in HR. }
  unfold ContainsZerocoins in Hz. apply orb_false_iff in Hz as [Hz _]. rewrite Hz. unfold spends in *. rewrite Hz in *.
  destruct (IsCoinBase t); cbn [negb andb] in *.
  - injection Hs as <- <-. eexists. split; [done|]. cbn [d_view fClean d_zdb hashes map app]. split_and!; done.
  - destruct Hu as [| ->]; [done|]. cbn [mbind option_bind]. rewrite (vspends_length _ _ _ _ Hs), Nat.eqb_refl. cbn [negb].
    destruct (restore_inputs_spec (vin t) v us v1 T (mkD c (fClean d) (d_zdb d) (mapStakeSpent d)) Hv Ho Hs Hic HR1) as (d' & -> & Hi' & Hh' & Hf' & Hz' & HR').
    cbn [mbind option_bind]. exists d'. cbn [d_view fClean d_zdb] in *. split_and!; try done. by rewrite Hh'.
Qed.

(** The transactions of a block, one by one: new identifiers, and no output of a coinstake of
    the block spent in it. *)
Definition block_hashes (l : list CTransaction) : list hash256 := concat (map (fun t : CTransaction => hashes (spends t)) l).
Definition fresh (v : View) (l : list CTransaction) : Prop := Forall (fun t => v (cached_hash t) = None) l /\ NoDup (map cached_hash l).
Lemma fresh_step v (t : CTransaction) l us w : fresh v (t :: l) -> vupdate v t height = Some (us, w) -> fresh w l.
Proof.
  intros [Hn Hd] (v1 & Hs & ->)%vupdate_Some. cbn [map] in Hd. apply list.NoDup_cons in Hd as [Hnt Hd]. apply Forall_cons_iff in Hn as [_ Hn]. split; [|done].
  rewrite list.Forall_forall in *. intros x Hx. rewrite upd_other; [by eapply vspends_none, Hn|]. intros He. apply Hnt. rewrite <- He.
  apply list_elem_of_fmap. by exists x.
Qed.
Lemma disconnect_loop_spec l : forall v uss undos w T (d : dstate (S := S) (ZDB := ZDB)), vupdates v l height = Some (uss, w) -> normal_view v ->
  Forall (fun t : CTransaction => tx_ok t) l -> fresh v l ->
  Forall (fun t : CTransaction => IsCoinStake t = true -> cached_hash t ∉ block_hashes l ++ T) l ->
  Forall2 (fun (t : CTransaction) (p : CTxUndo * option CTxUndo) => IsCoinBase t = true \/ p.2 = Some p.1) l (zip uss undos) -> length undos = length l ->
  cache_inv (d_view d) -> lossy T w (vw (d_view d)) ->
  exists d', disconnect_loop EraseCoinSpend EraseCoinMint height l undos d = Some (Some d') /\ cache_inv (d_view d') /\
    hashBlock (d_view d') = hashBlock (d_view d) /\ fClean d' = fClean d /\ d_zdb d' = d_zdb d /\ lossy (block_hashes l ++ T) v (vw (d_view d')).
Proof.
  induction l as [|t l IH]; intros v uss undos w T d; cbn [vupdates].
  - intros [= <- <-] Hv _ _ _ _ _ Hc HR. by exists d.
  - destruct (vupdate v t height) as [[us v1]|] eqn:E; cbn [mbind option_bind]; [|done].
    destruct (vupdates v1 l height) as [[uss' v2]|] eqn:E'; cbn [mbind option_bind]; [|done]. intros [= <- <-] Hv Hok Hf Hst Hu Hlen Hc HR.
    destruct undos as [|u undos]; [done|]. cbn [zip zip_with] in Hu. apply Forall2_cons_1 in Hu as [Hut Hu]. cbn [fst snd] in Hut.
    apply Forall_cons_iff in Hok as [Hokt Hok]. pose proof Hf as [Hnone _]. apply Forall_cons_iff in Hnone as [Hnone _].
    apply Forall_cons_iff in Hst as [Hstt Hst]. unfold block_hashes in *. cbn [map concat] in *. fold (block_hashes l) in *.
    destruct (IH v1 uss' undos v2 T d E' (normal_vupdate _ _ _ _ Hv Hokt E) Hok (fresh_step _ _ _ _ _ Hf E)) as (d1 & Hd1 & Hi1 & Hh1 & Hf1 & Hz1 & HR1); try done.
    { eapply list.Forall_impl; [exact Hst|]. intros x Hx Hc1 Hin. apply Hx; [done|]. rewrite <- app_assoc. apply elem_of_app. by right. }
    { by injection Hlen. }
    cbn [disconnect_loop]. rewrite Hd1. cbn [mbind option_bind].
    destruct (disconnect_tx_spec v t u us v1 (block_hashes l ++ T) d1 E Hv Hokt Hnone) as (d' & Hd' & Hi' & Hh' & Hf' & Hz' & HR'); try done.
    { intros Hc1 Hin. apply Hstt; [done|]. rewrite <- app_assoc. apply elem_of_app. by right. }
    exists d'. split; [done|]. rewrite Hh', Hf', Hz'. rewrite <- app_assoc. split_and!; done.
Qed.
End restore.

(** The coinstake of the example: its only output is spent by the second transaction of a
    block, which is connected and disconnected. *)
Definition staked : CCoins := mkCoins false true [mkTxOut COIN [81] (-10)] 100 1.
Definition staked_ledger : CCoinsViewCache (CCoinsViewCache CCoinsViewDB) := SetBestBlock tip (new_cache (new_cache (mkDB {[leaf 5 := staked]} None))).
Definition staked_view : View := fun k => ({[leaf 5 := staked]} : gmap hash256 CCoins) !! k.
Definition reward : CTransaction := mkCTx (leaf 11) (mkTx 1 [mkTxIn (mkOutPoint hash_zero UINT32_MAX) [1; 1] 0 []] [mkTxOut 0 [81] (-10)] [] 0).
Definition spending_block : list CTransaction := [reward; half].
Definition spending_index : CBlockIndex := mkIndex (leaf 20) tip 0 0.
#[local] Existing Instance no_env.
Definition no_erase : CTxIn -> unit -> option unit := fun _ _ => None.
Definition no_erase_mint : CTxOut -> unit -> option unit := fun _ _ => None.
Definition connected : option (option sums * CValidationState * CCoinsViewCache (CCoinsViewCache CCoinsViewDB)) :=
  connect_loop no_curve heights CMainParams 200 true SCRIPT_VERIFY_P2SH false spending_block sums_zero CValidationState_new staked_ledger.
(** The coins of the transaction after the block was connected and disconnected. *)
Definition staked_again : option (bool * option CCoins) :=
  match connected with
  | Some (Some a, _, c) =>
      match DisconnectBlock no_erase no_erase_mint 200 (fun _ _ => true) false spending_block spending_index (Some (block_undo a)) false
        (mkD (SetBestBlock (leaf 20) c) true tt ∅) with
      | Some (b, _, Some d) => Some (b, fst (AccessCoins (leaf 5) (d_view d)))
      | _ => None
      end
  | _ => None
  end.
Lemma flag_lost : staked_again = Some (true, Some (nostake staked)) /\ nostake staked <> staked.
Proof. split; [by vm_compute|done]. Qed.

Lemma lossy_utxo T v w o : lossy T v w -> utxo w o = utxo v o.
Proof. intros HR. unfold utxo. destruct (HR (out_hash o)) as [->|[_ ->]]; [done|]. by destruct (v (out_hash o)). Qed.
Lemma lossy_exact T v w : lossy T v w -> (forall k c, k ∈ T -> v k = Some c -> fCoinStake c = false) -> forall k, w k = v k.
Proof.
  intros HR Hs k. destruct (HR k) as [?|[Hin E]]; [done|]. rewrite E. destruct (v k) as [c|] eqn:Hk; [|done]. cbn [fmap option_fmap option_map].
  f_equal. specialize (Hs k c Hin Hk). destruct c. cbn in Hs. by subst.
Qed.
Lemma undos_match height l v uss w : vupdates v l height = Some (uss, w) -> length uss = length l.
Proof.
  revert v uss. induction l as [|t l IH]; intros v uss; cbn [vupdates]; [by intros [= <- _]|].
  destruct (vupdate v t height) as [[us v1]|]; cbn [mbind option_bind]; [|done].
  destruct (vupdates v1 l height) as [[us' v2]|] eqn:E; cbn [mbind option_bind]; [|done]. intros [= <- <-]. cbn. by rewrite (IH _ _ E).
Qed.
Lemma Forall2_zip_same (l : list CTransaction) (uss : list CTxUndo) : length uss = length l ->
  Forall2 (fun (t : CTransaction) (p : CTxUndo * option CTxUndo) => IsCoinBase t = true \/ p.2 = Some p.1) l (zip uss (map Some uss)).
Proof. revert uss. induction l as [|t l IH]; intros [|us uss] Hl; try done; constructor; [by right|apply IH; by injection Hl]. Qed.

(** C2: disconnecting undoes connecting.  Take any view that keeps the contract of views, with
    coins in normal form, and a block whose first transaction is a coinbase, without zerocoins,
    with new identifiers, in which no output of its own coinstake is spent.  If the loop of
    [ConnectBlock] lets it through, then [DisconnectBlock], given the undo records that were
    kept, fails no assertion and returns true with nothing out of order; the best block is the
    parent; every output is unspent exactly when it was before, with the same value and
    script; and the coins of every transaction are what they were, if none of those spent from
    was a coinstake.  In general the flag of a coinstake may be lost: the undo record has it
    when the last output is spent, but it is not restored, so the reward comes back without
    its rule of maturity, as it does in the example. *)
Theorem DisconnectBlock_restores {S : Type} `{CCoinsViewLaws S} `{ConnectEnv} {ZDB : Type}
    (Verify : valtype -> hash256 -> valtype -> bool) (index_height : hash256 -> option Z) (params : CChainParams)
    (EraseCoinSpend : CTxIn -> ZDB -> option ZDB) (EraseCoinMint : CTxOut -> ZDB -> option ZDB) (EraseAccumulatorValues : Z -> Z -> bool)
    (best : hash256) (v : View) (height flags : Z) (fScriptChecks queue verifying pfClean : bool) (coinbase : CTransaction) (vtx : list CTransaction)
    (pindex : CBlockIndex) (s s' : CValidationState) (c c' : CCoinsViewCache S) (a : sums) (z : ZDB) (stakes : gmap COutPoint Z) :
  best <> hash_zero -> at_view best v c -> normal_view v -> 0 < height < 2 ^ 31 ->
  IsCoinBase coinbase = true -> Forall (fun t : CTransaction => tx_ok t) (coinbase :: vtx) -> fresh v (coinbase :: vtx) ->
  Forall (fun t : CTransaction => IsCoinStake t = true -> cached_hash t ∉ block_hashes (coinbase :: vtx)) (coinbase :: vtx) ->
  connect_loop Verify index_height params height fScriptChecks flags queue (coinbase :: vtx) sums_zero s c = Some (Some a, s', c') ->
  GetBlockHash pindex <> hash_zero ->
  (verifying = false -> nAccumulatorCheckpoint pindex <> prevAccumulatorCheckpoint pindex ->
    EraseAccumulatorValues (nAccumulatorCheckpoint pindex) (prevAccumulatorCheckpoint pindex) = true) ->
  (exists d, DisconnectBlock EraseCoinSpend EraseCoinMint height EraseAccumulatorValues verifying (coinbase :: vtx) pindex (Some (block_undo a)) pfClean
      (mkD (SetBestBlock (GetBlockHash pindex) c') true z stakes) = Some (true, if pfClean then Some true else None, Some d) /\
    cache_inv (d_view d) /\ hashBlock (d_view d) = prevBlockHash pindex /\ d_zdb d = z /\
    (forall o, utxo (vw (d_view d)) o = utxo v o) /\ lossy (block_hashes (coinbase :: vtx)) v (vw (d_view d)) /\
    ((forall k co, k ∈ block_hashes (coinbase :: vtx) -> v k = Some co -> fCoinStake co = false) -> forall k, vw (d_view d) k = v k)) /\
  (staked_again = Some (true, Some (nostake staked)) /\ nostake staked <> staked).
Proof.
  intros Hb Hc Hv Hh Hcb Hok Hf Hst E Hne Hacc. split; [|exact flag_lost].
  assert (Hz : Forall (fun t : CTransaction => Tx_IsZerocoinSpend t = false) (coinbase :: vtx)).
  { eapply list.Forall_impl; [exact Hok|]. intros t (_ & _ & _ & Ht). unfold ContainsZerocoins in Ht. by apply orb_false_iff in Ht as [? _]. }
  destruct (connect_loop_spec best Hb Verify index_height params height fScriptChecks flags queue _ v sums_zero s c a s' c' Hz Hc E)
    as (uss & w & _ & Hup & (Hi & _ & Hvw) & Hr & _). cbn [sums_zero vtxundo rev app] in Hr.
  pose proof (undos_match _ _ _ _ _ Hup) as Hlen. unfold DisconnectBlock, block_undo. rewrite Hr. cbn [d_view fClean d_zdb mapStakeSpent].
  assert (Hbest' : cache_GetBestBlock (SetBestBlock (GetBlockHash pindex) c') = (GetBlockHash pindex, SetBestBlock (GetBlockHash pindex) c')).
  { unfold cache_GetBestBlock. cbn [SetBestBlock hashBlock]. by rewrite bool_decide_eq_false_2. }
  rewrite Hbest'. cbn [d_view fClean d_zdb mapStakeSpent]. rewrite bool_decide_eq_true_2 by done. cbn [negb].
  destruct uss as [|us uss]; [done|]. cbn [tail length] in *. injection Hlen as Hlen. rewrite Hlen, Nat.add_1_r, Nat.eqb_refl. cbn [negb].
  destruct (disconnect_loop_spec EraseCoinSpend EraseCoinMint height Hh (coinbase :: vtx) v (us :: uss) (None :: map Some uss) w []
    (mkD (SetBestBlock (GetBlockHash pindex) c') true z stakes) Hup Hv Hok Hf) as (d & Hd & Hid & _ & Hfc & Hzd & HR).
  - eapply list.Forall_impl; [exact Hst|]. intros t Ht Hs. rewrite app_nil_r. by apply Ht.
  - cbn [zip zip_with]. constructor; [by left|]. by apply Forall2_zip_same.
  - cbn. by rewrite length_map, Hlen.
  - exact Hi.
  - intros k. left. exact (Hvw k).
  - rewrite Hd. cbn [mbind option_bind]. rewrite app_nil_r in HR. cbn [d_view fClean d_zdb mapStakeSpent] in *. rewrite Hfc.
    assert (Herase : negb verifying && negb (nAccumulatorCheckpoint pindex =? prevAccumulatorCheckpoint pindex) &&
      negb (EraseAccumulatorValues (nAccumulatorCheckpoint pindex) (prevAccumulatorCheckpoint pindex)) = false).
    { destruct verifying; [done|]. destruct (Z.eqb_spec (nAccumulatorCheckpoint pindex) (prevAccumulatorCheckpoint pindex)); [done|]. by rewrite Hacc. }
    rewrite Herase. exists (mkD (SetBestBlock (prevBlockHash pindex) (d_view d)) true (d_zdb d) (mapStakeSpent d)).
    cbn [d_view d_zdb]. split; [by destruct pfClean|]. split; [exact Hid|]. split; [done|split; [done|]].
    change (vw (SetBestBlock (prevBlockHash pindex) (d_view d))) with (vw (d_view d)).
    split; [intros o; by eapply lossy_utxo|split; [done|by eapply lossy_exact]].
Qed.
Lemma staked_at : at_view tip staked_view staked_ledger.
Proof. eapply at_view_ext; [|apply stacked_at]. intros k. by apply singleton_visible. Qed.
Lemma DisconnectBlock_restores_witness : exists a s' c' d, connected = Some (Some a, s', c') /\
  DisconnectBlock no_erase no_erase_mint 200 (fun _ _ => true) false spending_block spending_index (Some (block_undo a)) true
    (mkD (SetBestBlock (leaf 20) c') true tt ∅) = Some (true, Some true, Some d) /\
  utxo (vw (d_view d)) (mkOutPoint (leaf 5) 0) = Some (mkTxOut COIN [81] (-10)).
Proof.
  destruct connected as [[[[a|] s'] c']|] eqn:E; try (by vm_compute in E). exists a, s', c'.
  assert (Hv : normal_view staked_view).
  { intros h co. unfold staked_view. intros [<- <-]%lookup_singleton_Some. split; [done|]. unfold normal. split; [by right|split; [by repeat constructor|]]. cbn. lia. }
  assert (Hf : fresh staked_view spending_block).
  { split; [by repeat constructor|]. apply (bool_decide_eq_true (NoDup (map cached_hash spending_block))). by vm_compute. }
  unfold connected, spending_block in E.
  destruct (DisconnectBlock_restores no_curve heights CMainParams no_erase no_erase_mint (fun _ _ => true) tip staked_view 200 SCRIPT_VERIFY_P2SH true false
    false true reward [half] spending_index CValidationState_new s' staked_ledger c' a tt ∅
    ltac:(done) staked_at Hv ltac:(lia) eq_refl ltac:(by repeat constructor) Hf ltac:(by repeat constructor) E ltac:(done) ltac:(done))
    as [(d & Hd & _ & _ & _ & Hu & _) _].
  exists d. split; [done|split; [exact Hd|]]. rewrite Hu. by vm_compute.
Defined.
