(* ===== verification/CheckQueue.v ===== *)
(** The queue of script checks ([src/src/checkqueue.h]): worker threads and the master share a
    stack of checks under a mutex and two condition variables.  A critical section is one step;
    between two of them a thread runs the checks it took.  Any interleaving gives the master the
    conjunction of all checks, and the master always comes back. *)
From S2P Require Import Prelude.

(** ** The queue and its critical sections *)

Record CCheckQueue (T : Type) := mkQueue {
  queue : list T;      (* the last element pushed first *)
  nIdle : Z;
  nTotal : Z;
  fAllOk : bool;
  nTodo : Z;
  fQuit : bool;
  nBatchSize : Z
}.
Arguments mkQueue {T}. Arguments queue {T}. Arguments nIdle {T}. Arguments nTotal {T}.
Arguments fAllOk {T}. Arguments nTodo {T}. Arguments fQuit {T}. Arguments nBatchSize {T}.

Definition CCheckQueue_new {T} (nBatchSizeIn : Z) : CCheckQueue T := mkQueue [] 0 0 true 0 false nBatchSizeIn.

(** Where a thread is in [Loop]: before its first critical section, waiting on its condition
    variable, notified but not yet running, outside the mutex with checks to run (and how many
    it took), or returned. *)
Inductive thread (T : Type) :=
  | Starting
  | Sleeping
  | Woken
  | Working (vChecks : list T) (nNow : Z) (fOk : bool)
  | Returned (fRet : bool).
Arguments Starting {T}. Arguments Sleeping {T}. Arguments Woken {T}. Arguments Working {T}. Arguments Returned {T}.

Section loop.
Context {T : Type} (check : T -> bool).
Implicit Types q : CCheckQueue T.

(** How many checks to take at once. *)
Definition batch_size q : Z :=
  Z.max 1 (Z.min (nBatchSize q) (u32 (Z.of_nat (length (queue q))) / u32 (nTotal q + nIdle q + 1))).
(** From [while (queue.empty())] to the end of the critical section. *)
Definition loop_head (fMaster : bool) q : CCheckQueue T * thread T :=
  match queue q with
  | [] =>
      if (fMaster || fQuit q) && (nTodo q =? 0) then
        (mkQueue (queue q) (nIdle q) (i32 (nTotal q - 1)) (if fMaster then true else fAllOk q) (nTodo q) (fQuit q) (nBatchSize q),
         Returned (fAllOk q))
      else (mkQueue (queue q) (i32 (nIdle q + 1)) (nTotal q) (fAllOk q) (nTodo q) (fQuit q) (nBatchSize q), Sleeping)
  | _ =>
      let nNow := batch_size q in
      (mkQueue (drop (Z.to_nat nNow) (queue q)) (nIdle q) (nTotal q) (fAllOk q) (nTodo q) (fQuit q) (nBatchSize q),
       Working (take (Z.to_nat nNow) (queue q)) nNow (fAllOk q))
  end.
(** The clean-up of the previous run, and whether the master is notified. *)
Definition clean_up (fMaster : bool) (nNow : Z) (fOk : bool) q : CCheckQueue T * bool :=
  let todo := u32 (nTodo q - nNow) in
  (mkQueue (queue q) (nIdle q) (nTotal q) (fAllOk q && fOk) todo (fQuit q) (nBatchSize q), (todo =? 0) && negb fMaster).
(** A critical section of [Loop]: the queue, where the thread is after it, and whether the
    master is notified. *)
Definition critical (fMaster : bool) (p : thread T) q : option (CCheckQueue T * thread T * bool) :=
  match p with
  | Starting =>
      Some (loop_head fMaster (mkQueue (queue q) (nIdle q) (i32 (nTotal q + 1)) (fAllOk q) (nTodo q) (fQuit q) (nBatchSize q)), false)
  | Woken =>
      Some (loop_head fMaster (mkQueue (queue q) (i32 (nIdle q - 1)) (nTotal q) (fAllOk q) (nTodo q) (fQuit q) (nBatchSize q)), false)
  | Working [] nNow fOk => let '(q, notify) := clean_up fMaster nNow fOk q in Some (loop_head fMaster q, notify)
  | _ => None
  end.
(** One round of the loop that runs the checks. *)
Definition run_one (p : thread T) : option (thread T) :=
  match p with
  | Working (c :: rest) nNow fOk => Some (Working rest nNow (if fOk then check c else fOk))
  | _ => None
  end.
(** [Add]; the checks are pushed one after the other. *)
Definition Add (vChecks : list T) q : CCheckQueue T :=
  mkQueue (rev vChecks ++ queue q) (nIdle q) (nTotal q) (fAllOk q) (u32 (nTodo q + Z.of_nat (length vChecks))) (fQuit q) (nBatchSize q).
Definition IsIdle q : bool := (nTotal q =? nIdle q) && (nTodo q =? 0) && eqb (fAllOk q) true.

(** ** The threads *)

(** The master: without a [CCheckQueueControl]; with one, and what [Wait] returned if it has
    been called ([fDone]); inside [Wait], called by the destructor or not; or stopped by the
    assertion of the constructor. *)
Inductive master_state :=
  | Free
  | Control (result : option bool)
  | InLoop (p : thread T) (destroying : bool)
  | Crashed.

(** [round] is history: the checks the master added under its present control. *)
Record config := mkConfig {
  q : CCheckQueue T;
  workers : list (thread T);
  master : master_state;
  round : list T
}.

Definition wake (p : thread T) : thread T := match p with Sleeping => Woken | _ => p end.
(** [condMaster.notify_one()]: only the master waits on it. *)
Definition notify_master (notify : bool) (m : master_state) : master_state :=
  match m with InLoop p d => InLoop (if notify then wake p else p) d | _ => m end.
(** [condWorker]: one waiting worker, if there is one, or all. *)
Definition notify_workers (n : nat) (l l' : list (thread T)) : Prop :=
  match n with
  | O => l' = l
  | S O => (exists i, l !! i = Some Sleeping /\ l' = <[i := Woken]> l) \/ ((Sleeping ∉ l) /\ l' = l)
  | _ => l' = map wake l
  end.
Definition after_section (p : thread T) (destroying : bool) (r : list T) : master_state * list T :=
  match p with
  | Returned b => if destroying then (Free, []) else (Control (Some b), r)
  | _ => (InLoop p destroying, r)
  end.
Definition construct q : master_state := if IsIdle q then Control None else Crashed.

(** A step of a thread inside [Loop]. *)
Inductive loop_step : config -> config -> Prop :=
  | worker_section c i p q' p' ntf : workers c !! i = Some p -> critical false p (q c) = Some (q', p', ntf) ->
      loop_step c (mkConfig q' (<[i := p']> (workers c)) (notify_master ntf (master c)) (round c))
  | worker_run c i p p' : workers c !! i = Some p -> run_one p = Some p' ->
      loop_step c (mkConfig (q c) (<[i := p']> (workers c)) (master c) (round c))
  | master_section c p d q' p' ntf m r : master c = InLoop p d -> critical true p (q c) = Some (q', p', ntf) ->
      after_section p' d (round c) = (m, r) -> loop_step c (mkConfig q' (workers c) m r)
  | master_run c p d p' : master c = InLoop p d -> run_one p = Some p' ->
      loop_step c (mkConfig (q c) (workers c) (InLoop p' d) (round c)).

(** The other steps: of the master outside [Loop], and threads that wake up without having been
    notified.  The checks of one control are counted in 32 bits. *)
Inductive step : config -> config -> Prop :=
  | step_loop c c' : loop_step c c' -> step c c'
  | step_construct c : master c = Free -> step c (mkConfig (q c) (workers c) (construct (q c)) (round c))
  | step_add c vChecks w : master c = Control None -> Z.of_nat (length (round c ++ vChecks)) < 2 ^ 32 ->
      notify_workers (length vChecks) (workers c) w ->
      step c (mkConfig (Add vChecks (q c)) w (master c) (round c ++ vChecks))
  | step_wait c : master c = Control None -> step c (mkConfig (q c) (workers c) (InLoop Starting false) (round c))
  | step_destroy_done c b : master c = Control (Some b) -> step c (mkConfig (q c) (workers c) Free [])
  | step_destroy c : master c = Control None -> step c (mkConfig (q c) (workers c) (InLoop Starting true) (round c))
  | step_spurious c i : workers c !! i = Some Sleeping -> step c (mkConfig (q c) (<[i := Woken]> (workers c)) (master c) (round c))
  | step_spurious_master c d : master c = InLoop Sleeping d -> step c (mkConfig (q c) (workers c) (InLoop Woken d) (round c)).

Definition initial (n : nat) (nBatchSizeIn : Z) : config := mkConfig (CCheckQueue_new nBatchSizeIn) (replicate n Starting) Free [].
Definition reachable (n : nat) (nBatchSizeIn : Z) : config -> Prop := rtc step (initial n nBatchSizeIn).
End loop.

(** ** Counting over the threads *)

Section counting.
Context {T : Type} (check : T -> bool).
Implicit Types (p : thread T) (l : list (thread T)).

Definition total (f : thread T -> Z) l : Z := foldr (fun p n => f p + n) 0 l.
Definition idle p : Z := match p with Sleeping | Woken => 1 | _ => 0 end.
Definition inside p : Z := match p with Sleeping | Woken | Working _ _ _ => 1 | _ => 0 end.
Definition taken p : Z := match p with Working _ n _ => n | _ => 0 end.
(** What a thread will report of the checks it took. *)
Definition verdict p : bool := match p with Working rest _ ok => ok && forallb check rest | _ => true end.
Definition sound p : Prop := match p with Working rest n ok => Z.of_nat (length rest) <= n /\ (n = 0 -> ok = true) | _ => True end.

Lemma total_insert f l i p p' : l !! i = Some p -> total f (<[i := p']> l) = total f l - f p + f p'.
Proof. revert i. induction l as [|x l IH]; intros [|i]; simpl; try discriminate; intros E; [simplify_eq; lia | rewrite (IH i) by done; lia]. Qed.
Lemma total_bound f l : (forall p, 0 <= f p <= 1) -> 0 <= total f l <= Z.of_nat (length l).
Proof. intros Hf. induction l as [|x l IH]; simpl; [lia | specialize (Hf x); lia]. Qed.
Lemma taken_total_nonneg f l : Forall (fun p => 0 <= f p) l -> 0 <= total f l.
Proof. induction 1; simpl in *; lia. Qed.
Lemma total_lookup f l i p : Forall (fun p => 0 <= f p) l -> l !! i = Some p -> f p <= total f l.
Proof.
  intros Hl. revert i. induction Hl as [|x l Hx Hl IH]; intros [|i]; simpl; try discriminate.
  - intros E. injection E as ->. pose proof (taken_total_nonneg f l Hl). lia.
  - intros E. specialize (IH i E). lia.
Qed.
Lemma verdicts_insert l i p p' : l !! i = Some p ->
  exists b, forallb verdict l = verdict p && b /\ forallb verdict (<[i := p']> l) = verdict p' && b.
Proof.
  revert i. induction l as [|x l IH]; intros [|i]; simpl; try discriminate; intros E.
  - simplify_eq. by exists (forallb verdict l).
  - destruct (IH i E) as (b & E1 & E2). exists (verdict x && b). rewrite E1, E2. split; destruct (verdict x), (verdict p), (verdict p'), b; reflexivity.
Qed.
Lemma total_wake f l : (forall p, f (wake p) = f p) -> total f (map wake l) = total f l.
Proof. intros Hf. induction l as [|x l IH]; simpl; [done | by rewrite Hf, IH]. Qed.
Lemma verdicts_wake l : forallb verdict (map wake l) = forallb verdict l.
Proof. induction l as [|x l IH]; simpl; [done | rewrite IH; by destruct x]. Qed.
Lemma sound_wake l : Forall sound l -> Forall sound (map wake l).
Proof. induction 1 as [|x l Hx Hl IH]; simpl; constructor; [by destruct x | done]. Qed.
Lemma sound_taken l : Forall sound l -> Forall (fun p => 0 <= taken p) l.
Proof. intros Hl. eapply Forall_impl; [|exact Hl]. intros [] E; simpl in *; lia. Qed.
Lemma idle_bound p : 0 <= idle p <= 1.
Proof. destruct p; simpl; lia. Qed.
Lemma inside_bound p : 0 <= inside p <= 1.
Proof. destruct p; simpl; lia. Qed.

(** ** The invariant *)

Definition threads (m : master_state) l : list (thread T) := match m with InLoop p _ => p :: l | _ => l end.
Record counts (l : list (thread T)) (c : CCheckQueue T) : Prop := {
  c_idle : nIdle c = total idle l;
  c_total : nTotal c = total inside l;
  c_todo : nTodo c = Z.of_nat (length (queue c)) + total taken l;
  c_quit : fQuit c = false;
  c_batch : 0 <= nBatchSize c;
  c_sound : Forall sound l;
  c_few : Z.of_nat (length l) < 2 ^ 30 + 1;
  c_fits : nTodo c < 2 ^ 32
}.
(** All that is said of the checks: those done, those waiting, those taken. *)
Definition all_ok (c : CCheckQueue T) l : bool := fAllOk c && forallb check (queue c) && forallb verdict l.
(** What is known where the master is. *)
Definition phase (m : master_state) l (c : CCheckQueue T) (r : list T) : Prop :=
  match m with
  | Free => r = [] /\ nTodo c = 0 /\ fAllOk c = true
  | Control None => all_ok c l = forallb check r
  | Control (Some b) => b = forallb check r /\ nTodo c = 0 /\ fAllOk c = true
  | InLoop p _ => all_ok c (p :: l) = forallb check r /\
      (p = Sleeping -> queue c = [] /\ nTodo c <> 0) /\ (forall b, p <> Returned b)
  | Crashed => False
  end.
(** A thread at work took at least one check. *)
Definition busy p : Prop := match p with Working _ n _ => 1 <= n | _ => True end.
Record inv (c : config) : Prop := {
  i_busy : Forall busy (threads (master c) (workers c));
  i_counts : counts (threads (master c) (workers c)) (q c);
  i_workers : Z.of_nat (length (workers c)) < 2 ^ 30;
  i_todo : nTodo (q c) <= Z.of_nat (length (round c)) < 2 ^ 32;
  i_phase : phase (master c) (workers c) (q c) (round c)
}.

Definition between : thread T := Working [] 0 true.

Lemma counts_bounds l c : counts l c ->
  0 <= nIdle c < 2 ^ 30 + 1 /\ 0 <= nTotal c < 2 ^ 30 + 1 /\ 0 <= nTodo c < 2 ^ 32 /\ 0 <= total taken l.
Proof.
  intros [Ei Et Ed _ _ Hs Hn Hf]. pose proof (total_bound idle l idle_bound). pose proof (total_bound inside l inside_bound).
  pose proof (taken_total_nonneg taken l (sound_taken l Hs)). lia.
Qed.
Lemma none_taken l : Forall sound l -> total taken l = 0 -> forallb verdict l = true.
Proof.
  induction 1 as [|x l Hx Hl IH]; simpl; [done|]. intros E.
  pose proof (taken_total_nonneg taken l (sound_taken l Hl)).
  assert (taken x = 0) as E0 by (pose proof (sound_taken [x] ltac:(by constructor)) as Hp; inversion_clear Hp; simpl in *; lia).
  rewrite IH by lia. destruct x as [| | |[|y rest] n ok|]; simpl in *; try done; [|lia]. destruct Hx as [_ ->]; done.
Qed.
Lemma length_insert_threads l i p : length (<[i := p]> l) = length l.
Proof. apply length_insert. Qed.

(** The first half of a critical section leaves the thread between two runs of the loop. *)
Lemma critical_first fMaster p c l i r : counts l c -> l !! i = Some p -> critical fMaster p c = Some r ->
  exists c0 ntf, r = (loop_head fMaster c0, ntf) /\ counts (<[i := between]> l) c0 /\
    all_ok c0 (<[i := between]> l) = all_ok c l /\ queue c0 = queue c /\ nTodo c0 <= nTodo c /\
    (ntf = false -> fMaster = false -> nTodo c <> 0 -> nTodo c0 <> 0) /\ (nTodo c = 0 -> fAllOk c = true -> fAllOk c0 = true).
Proof.
  intros Hc Hp Hr. pose proof (counts_bounds l c Hc) as (Bi & Bt & Bd & Bk). destruct Hc as [Ei Et Ed Hq Hb Hs Hn Hf].
  pose proof (Forall_lookup_1 _ _ _ _ Hs Hp) as Hsp.
  pose proof (total_lookup taken l i p (sound_taken l Hs) Hp) as Htk.
  assert (Forall sound (<[i := between]> l)) as Hs' by (apply Forall_insert; [done | split; simpl; [lia | done]]).
  destruct (verdicts_insert l i p between Hp) as (b & E1 & E2).
  destruct p as [| | |[|x rest] n ok|]; simpl in Hr; try discriminate; injection Hr as <-.
  all: eexists _, _; split; [reflexivity|]; split.
  1, 3, 5: constructor; simpl; rewrite ?(total_insert _ l i _ _ Hp), ?length_insert; simpl in *; try done; try lia;
    rewrite ?i32_small, ?u32_small by lia; lia.
  all: unfold all_ok; simpl; rewrite E1, E2; simpl; split; [|repeat split; intros; simpl in *; try done].
  - by rewrite <- !andb_assoc.
  - by rewrite <- !andb_assoc.
  - destruct (fAllOk c), ok, b, (forallb check (queue c)); reflexivity.
  - rewrite u32_small by lia. simpl in Hsp. lia.
  - subst fMaster. rewrite andb_true_r in *. apply Z.eqb_neq. done.
  - destruct Hsp as [Hl Hok]. simpl in Htk. rewrite Hok by lia. by rewrite andb_true_r.
Qed.

Lemma batch_size_bound l c : counts l c -> queue c <> [] -> 1 <= batch_size c <= Z.of_nat (length (queue c)).
Proof.
  intros Hc Hne. pose proof (counts_bounds l c Hc) as (Bi & Bt & Bd & Bk). destruct Hc as [Ei Et Ed _ Hb _ _ _].
  destruct (queue c) as [|x Q] eqn:E; [done|]. unfold batch_size. rewrite E, !u32_small by (simpl length in *; lia).
  assert (Z.of_nat (length (x :: Q)) / (nTotal c + nIdle c + 1) <= Z.of_nat (length (x :: Q))) by (apply Z.div_le_upper_bound; nia).
  simpl length in *. lia.
Qed.

(** The second half: the thread takes checks, falls asleep, or returns. *)
Lemma critical_second fMaster c l i c' p' : counts l c -> l !! i = Some between -> loop_head fMaster c = (c', p') ->
  counts (<[i := p']> l) c' /\ nTodo c' = nTodo c /\ (queue c = [] -> queue c' = []) /\
  match p' with
  | Returned b => fMaster = true /\ b = all_ok c l /\ nTodo c' = 0 /\ fAllOk c' = true
  | Sleeping => all_ok c' (<[i := p']> l) = all_ok c l /\ fAllOk c' = fAllOk c /\ queue c' = [] /\ (fMaster = true -> nTodo c' <> 0)
  | Working _ n _ => all_ok c' (<[i := p']> l) = all_ok c l /\ fAllOk c' = fAllOk c /\ 1 <= n
  | _ => False
  end.
Proof.
  intros Hc Hp Hr. pose proof (counts_bounds l c Hc) as (Bi & Bt & Bd & Bk). pose proof (batch_size_bound l c Hc) as Hbs.
  destruct Hc as [Ei Et Ed Hq Hb Hs Hn Hf].
  destruct (verdicts_insert l i between p' Hp) as (b & E1 & E2).
  assert (1 <= total inside l) as Hin by (apply (total_lookup inside l i between); [apply Forall_forall; intros x _; apply inside_bound | done]).
  unfold loop_head in Hr. rewrite Hq, orb_false_r in Hr. destruct (queue c) as [|x Q] eqn:EQ.
  - simpl length in Ed. destruct (fMaster && (nTodo c =? 0)) eqn:Em; injection Hr as <- <-.
    + apply andb_true_iff in Em as [-> E0%Z.eqb_eq].
      split_and!; try done.
      * constructor; simpl; rewrite ?(total_insert _ l i _ _ Hp), ?length_insert, ?i32_small by lia; simpl; try done; try lia.
        apply Forall_insert; done.
      * unfold all_ok. rewrite EQ, none_taken by (done || lia). by rewrite !andb_true_r.
    + split_and!; try done.
      * constructor; simpl; rewrite ?(total_insert _ l i _ _ Hp), ?length_insert, ?i32_small by lia; simpl; try done; try lia.
        apply Forall_insert; done.
      * unfold all_ok. rewrite E1, E2, EQ. done.
      * intros ->. simpl in *. by apply Z.eqb_neq.
  - injection Hr as <- <-. destruct (Hbs ltac:(done)) as [B1 B2]. set (n := batch_size c) in *.
    split_and!; try done.
    + constructor; simpl; rewrite ?(total_insert _ l i _ _ Hp), ?length_insert; simpl taken; try done; try (simpl; lia).
      * rewrite length_drop. simpl length in *. lia.
      * apply Forall_insert; [done|]. simpl. rewrite length_take. simpl length in *. lia.
    + unfold all_ok. rewrite E1, E2, EQ. simpl fAllOk. simpl queue. simpl verdict.
      assert (forallb check (x :: Q) = forallb check (take (Z.to_nat n) (x :: Q)) && forallb check (drop (Z.to_nat n) (x :: Q))) as ->
        by (by rewrite <- forallb_app, take_drop).
      destruct (fAllOk c), b, (forallb check (take (Z.to_nat n) (x :: Q))), (forallb check (drop (Z.to_nat n) (x :: Q))); reflexivity.
Qed.

(** Both halves. *)
Lemma critical_spec fMaster p c l i c' p' ntf : counts l c -> l !! i = Some p -> critical fMaster p c = Some (c', p', ntf) ->
  counts (<[i := p']> l) c' /\ nTodo c' <= nTodo c /\ (queue c = [] -> queue c' = []) /\
  (ntf = false -> fMaster = false -> nTodo c <> 0 -> nTodo c' <> 0) /\ busy p' /\
  match p' with
  | Returned b => fMaster = true /\ b = all_ok c l /\ nTodo c' = 0 /\ fAllOk c' = true
  | Starting | Woken => False
  | _ => all_ok c' (<[i := p']> l) = all_ok c l /\ (nTodo c = 0 -> fAllOk c = true -> fAllOk c' = true) /\
      (p' = Sleeping -> queue c' = [] /\ (fMaster = true -> nTodo c' <> 0))
  end.
Proof.
  intros Hc Hp Hr. destruct (critical_first _ _ _ _ _ _ Hc Hp Hr) as (c0 & n & E & Hc0 & Ho & EQ & Ht & Hn & Ha).
  injection E as E ->. symmetry in E.
  assert (<[i := between]> l !! i = Some between) as Hb by (apply list_lookup_insert_eq; by eapply lookup_lt_Some).
  destruct (critical_second _ _ _ _ _ _ Hc0 Hb E) as (Hc' & Et & Hq & Hm). rewrite list_insert_insert_eq in Hc', Hm. rewrite Ho in Hm.
  split_and!; [done | lia | intros; apply Hq; congruence | intros; rewrite Et; by apply Hn | destruct p'; try done; apply Hm |].
  destruct p'; try done.
  - destruct Hm as (? & E2 & ? & ?). split_and!; try done. rewrite E2. done.
  - destruct Hm as (? & E2 & ?). split_and!; try done. rewrite E2. done.
Qed.

(** ** Every step keeps the invariant *)

Lemma threads_lookup m l i p : l !! i = Some p ->
  exists k, threads m l !! k = Some p /\ forall p', threads m (<[i := p']> l) = <[k := p']> (threads m l).
Proof. destruct m as [| |p0 d|]; intros E; [by exists i | by exists i | by exists (S i) | by exists i]. Qed.
Lemma counts_wake p l c : counts (p :: l) c -> counts (wake p :: l) c.
Proof. intros [? ? ? ? ? Hs ? ?]. constructor; destruct p; try done; inversion_clear Hs; by constructor. Qed.
Lemma busy_notify ntf m l : Forall busy (threads m l) -> Forall busy (threads (notify_master ntf m) l).
Proof. destruct m as [| |p d|], ntf; simpl; try done. inversion_clear 1. constructor; by destruct p. Qed.
Lemma all_ok_wake p l c : all_ok c (wake p :: l) = all_ok c (p :: l).
Proof. by destruct p. Qed.
Lemma counts_notify ntf m l c : counts (threads m l) c -> counts (threads (notify_master ntf m) l) c.
Proof. destruct m as [| |p d|], ntf; simpl; try done. apply counts_wake. Qed.
Lemma run_one_spec p p' c l i : counts l c -> l !! i = Some p -> run_one check p = Some p' ->
  counts (<[i := p']> l) c /\ all_ok c (<[i := p']> l) = all_ok c l /\ (busy p -> busy p') /\ exists rest n ok, p' = Working rest n ok.
Proof.
  intros [Ei Et Ed Hq Hb Hs Hn Hf] Hp Hr. pose proof (Forall_lookup_1 _ _ _ _ Hs Hp) as Hsp.
  destruct (verdicts_insert l i p p' Hp) as (b & E1 & E2).
  destruct p as [| | |[|x rest] n ok|]; simpl in Hr; try discriminate; injection Hr as <-. simpl in Hsp. split_and!.
  - constructor; rewrite ?(total_insert _ l i _ _ Hp), ?length_insert; simpl; try done; try lia.
    apply Forall_insert; [done|]. simpl. lia.
  - unfold all_ok. rewrite E1, E2. simpl. destruct (fAllOk c), (forallb check (queue c)), ok, (check x), b; reflexivity.
  - done.
  - by eexists _, _, _.
Qed.

Lemma worker_section_inv c i p q' p' ntf : inv c -> workers c !! i = Some p -> critical false p (q c) = Some (q', p', ntf) ->
  inv (mkConfig q' (<[i := p']> (workers c)) (notify_master ntf (master c)) (round c)).
Proof.
  intros [Hbz Hc Hw Ht Hph] Hp Hr. destruct (threads_lookup (master c) _ _ _ Hp) as (k & Hk & Hi).
  destruct (critical_spec _ _ _ _ _ _ _ _ Hc Hk Hr) as (Hc' & Hd & Hq & Hn & Hb' & Hm).
  pose proof (Forall_insert busy _ k p' Hbz Hb') as Hbz'. rewrite <- Hi in Hc', Hm, Hbz'.
  constructor; simpl; [by apply busy_notify | by apply counts_notify | by rewrite length_insert | lia |].
  assert (p' <> Returned true /\ p' <> Returned false /\ all_ok q' (threads (master c) (<[i := p']> (workers c))) = all_ok (q c) (threads (master c) (workers c)) /\
    (nTodo (q c) = 0 -> fAllOk (q c) = true -> fAllOk q' = true)) as (_ & _ & Ho & Ha).
  { destruct p' as [| | | |b]; try done; [| | by destruct Hm]; split_and!; try done; apply Hm. }
  pose proof (counts_bounds _ _ Hc') as (_ & _ & B & _).
  destruct (master c) as [|[b|]|p0 d|] eqn:Em; simpl in *.
  - destruct Hph as (Hr0 & E1 & E2). split_and!; [done | lia | by apply Ha].
  - destruct Hph as (Hr0 & E1 & E2). split_and!; [done | lia | by apply Ha].
  - by rewrite Ho.
  - destruct Hph as (E & Hsl & Hret). split_and!.
    + destruct ntf; rewrite ?all_ok_wake, Ho; done.
    + destruct ntf; [by destruct p0|]. intros ->. destruct (Hsl eq_refl) as [Eq En]. split; [by apply Hq | by apply Hn].
    + intros b. destruct ntf; [|apply Hret]. by destruct p0.
  - done.
Qed.

Lemma worker_run_inv c i p p' : inv c -> workers c !! i = Some p -> run_one check p = Some p' ->
  inv (mkConfig (q c) (<[i := p']> (workers c)) (master c) (round c)).
Proof.
  intros [Hbz Hc Hw Ht Hph] Hp Hr. destruct (threads_lookup (master c) _ _ _ Hp) as (k & Hk & Hi).
  destruct (run_one_spec _ _ _ _ _ Hc Hk Hr) as (Hc' & Ho & Hb' & _).
  pose proof (Forall_insert busy _ k p' Hbz (Hb' (Forall_lookup_1 _ _ _ _ Hbz Hk))) as Hbz'. rewrite <- Hi in Hc', Ho, Hbz'.
  constructor; simpl; [done | done | by rewrite length_insert | done |].
  destruct (master c) as [|[b|]|p0 d|]; simpl in *; [done | done | by rewrite Ho | by rewrite Ho | done].
Qed.
Lemma master_section_inv c p d q' p' ntf m r : inv c -> master c = InLoop p d -> critical true p (q c) = Some (q', p', ntf) ->
  after_section p' d (round c) = (m, r) -> inv (mkConfig q' (workers c) m r).
Proof.
  intros [Hbz Hc Hw Ht Hph] Em Hr Hm. rewrite Em in Hbz, Hc, Hph. inversion_clear Hbz as [|? ? Hbp Hbw]. destruct Hph as (E & _ & _).
  destruct (critical_spec true p (q c) (p :: workers c) 0 q' p' ntf Hc eq_refl Hr) as (Hc' & Hd & Hq & _ & Hbp' & Hp).
  simpl in Hc'. change (<[O := p']> (p :: workers c)) with (p' :: workers c) in *.
  assert (forall b, p' = Returned b -> counts (workers c) q') as Hdrop.
  { intros b ->. destruct Hc' as [? ? ? ? ? Hs ? ?]. inversion_clear Hs. constructor; simpl in *; try done; lia. }
  destruct p' as [| |  |rest n ok|b]; simpl in Hm; [done | | done | |].
  - injection Hm as <- <-. destruct Hp as (Ho & _ & Hs). constructor; simpl; [by try constructor | done | done | lia |].
    split_and!; [by rewrite Ho, E | intros _; destruct (Hs eq_refl) as [? Hs']; auto | done].
  - injection Hm as <- <-. destruct Hp as (Ho & _ & Hs). constructor; simpl; [by try constructor | done | done | lia |].
    split_and!; [by rewrite Ho, E | done | done].
  - destruct Hp as (_ & Eb & E0 & Ea). specialize (Hdrop b eq_refl). destruct d; injection Hm as <- <-.
    + constructor; simpl; [by try constructor | done | done | lia | done].
    + constructor; simpl; [by try constructor | done | done | lia | by rewrite Eb].
Qed.
Lemma master_run_inv c p d p' : inv c -> master c = InLoop p d -> run_one check p = Some p' ->
  inv (mkConfig (q c) (workers c) (InLoop p' d) (round c)).
Proof.
  intros [Hbz Hc Hw Ht Hph] Em Hr. rewrite Em in Hbz, Hc, Hph. inversion_clear Hbz as [|? ? Hbp Hbw]. destruct Hph as (E & _ & _).
  destruct (run_one_spec p p' (q c) (p :: workers c) 0 Hc eq_refl Hr) as (Hc' & Ho & Hb' & rest & n & ok & ->).
  constructor; simpl; [constructor; auto | done | done | done |]. split_and!; [by rewrite <- E, <- Ho | done | done].
Qed.
Lemma loop_step_inv c c' : inv c -> loop_step check c c' -> inv c'.
Proof.
  intros Hi Hs. destruct Hs; eauto using worker_section_inv, worker_run_inv, master_section_inv, master_run_inv.
Qed.

Lemma idle_when_done l c : counts l c -> Forall busy l -> nTodo c = 0 ->
  queue c = [] /\ nTotal c = nIdle c /\ forallb verdict l = true.
Proof.
  intros Hc Hb E0. pose proof (counts_bounds l c Hc) as (_ & _ & _ & Bk). destruct Hc as [Ei Et Ed _ _ Hs _ _].
  assert (total taken l = 0) as Ek by lia. split_and!.
  - apply length_zero_iff_nil. lia.
  - rewrite Ei, Et. clear - Hb Ek Hs. induction Hb as [|x l Hx Hb IH]; simpl in *; [done|]. inversion_clear Hs as [|? ? ? Hs'].
    pose proof (taken_total_nonneg taken l (sound_taken l Hs')). destruct x as [| | |v n ok|]; simpl in *; rewrite ?IH by (done || lia); try lia.
  - by apply none_taken.
Qed.
Lemma forallb_rev (f : T -> bool) v : forallb f (rev v) = forallb f v.
Proof. induction v as [|x v IH]; simpl; [done|]. rewrite forallb_app, IH. simpl. destruct (f x), (forallb f v); reflexivity. Qed.
Lemma wake_at_counts l i c : l !! i = Some Sleeping -> counts l c -> Forall busy l ->
  counts (<[i := Woken]> l) c /\ all_ok c (<[i := Woken]> l) = all_ok c l /\ Forall busy (<[i := Woken]> l).
Proof.
  intros Hi [Ei Et Ed Hq Hb Hs Hn Hf] Hbz. destruct (verdicts_insert l i _ Woken Hi) as (b & E1 & E2). split_and!.
  - constructor; rewrite ?(total_insert _ l i _ _ Hi), ?length_insert; simpl; try done; try lia. by apply Forall_insert.
  - unfold all_ok. by rewrite E1, E2.
  - by apply Forall_insert.
Qed.
Lemma notify_workers_spec n l l' c : notify_workers n l l' -> counts l c -> Forall busy l ->
  counts l' c /\ all_ok c l' = all_ok c l /\ Forall busy l' /\ length l' = length l.
Proof.
  intros Hn Hc Hb. destruct n as [|[|n]]; simpl in Hn.
  - by subst.
  - destruct Hn as [(i & Hi & ->) | [_ ->]]; [|done]. rewrite length_insert. destruct (wake_at_counts l i c Hi Hc Hb) as (? & ? & ?). done.
  - subst. destruct Hc as [Ei Et Ed Hq Hbb Hs Hl Hf]. split_and!.
    + constructor; rewrite ?total_wake, ?length_map by (by intros []); try done. by apply sound_wake.
    + unfold all_ok. by rewrite verdicts_wake.
    + clear - Hb. induction Hb as [|x l Hx Hb IH]; simpl; constructor; [by destruct x | done].
    + apply length_map.
Qed.
Lemma add_counts l c v : counts l c -> nTodo c + Z.of_nat (length v) < 2 ^ 32 ->
  counts l (Add v c) /\ all_ok (Add v c) l = all_ok c l && forallb check v.
Proof.
  intros Hc Hv. pose proof (counts_bounds l c Hc) as (_ & _ & B & _). destruct Hc as [Ei Et Ed Hq Hb Hs Hn Hf]. split.
  - constructor; simpl; rewrite ?u32_small by lia; try done. rewrite length_app, length_rev. lia.
  - unfold all_ok. simpl. rewrite forallb_app, forallb_rev.
    destruct (fAllOk c), (forallb check v), (forallb check (queue c)), (forallb verdict l); reflexivity.
Qed.


Lemma step_inv c c' : inv c -> step check c c' -> inv c'.
Proof.
  intros Hinv Hs. destruct Hs as [c c' Hs|c Em|c v w Em Hl Hw|c Em|c b Em|c Em|c i Hi|c d Em]; [by eapply loop_step_inv|..].
  all: destruct Hinv as [Hb Hc Hw' Ht Hph]; rewrite ?Em in *; simpl in *.
  - destruct Hph as (Er & E0 & Ea). destruct (idle_when_done _ _ Hc Hb E0) as (Eq & Ei & Ev).
    unfold construct, IsIdle. rewrite Ei, Z.eqb_refl, E0, Ea. simpl. constructor; simpl; try done.
    unfold all_ok. by rewrite Ea, Eq, Ev, Er.
  - rewrite length_app in *. destruct (notify_workers_spec _ _ _ _ Hw Hc Hb) as (Hc' & Ho & Hb' & El).
    destruct (add_counts _ _ v Hc' ltac:(lia)) as (Hc2 & Ho2). pose proof (counts_bounds _ _ Hc) as (_ & _ & B & _).
    constructor; simpl; rewrite ?Em; simpl; try done; [by rewrite El | rewrite length_app, u32_small by lia; lia |].
    by rewrite Ho2, Ho, Hph, forallb_app.
  - constructor; simpl; try done; [by constructor |].
    destruct Hc as [? ? ? ? ? ? ? ?]. constructor; simpl; try done; try lia. by constructor.
  - destruct Hph as (_ & E0 & Ea). constructor; simpl; try done. lia.
  - constructor; simpl; try done; [by constructor |].
    destruct Hc as [? ? ? ? ? ? ? ?]. constructor; simpl; try done; try lia. by constructor.
  - destruct (threads_lookup (master c) _ _ _ Hi) as (k & Hk & E). destruct (wake_at_counts _ _ _ Hk Hc Hb) as (Hc' & Ho & Hb').
    rewrite <- E in *. constructor; simpl; try done; [by rewrite length_insert|].
    destruct (master c) as [|[b|]|p d|]; simpl in *; [done | done | by rewrite Ho | by rewrite Ho | done].
  - inversion_clear Hb. constructor; simpl; try done; [by constructor | by apply (counts_wake Sleeping) |].
    destruct Hph as (E & _ & _). split_and!; [by rewrite <- E | done | done].
Qed.
Lemma reachable_inv n b c : Z.of_nat n < 2 ^ 30 -> 0 <= b -> reachable check n b c -> inv c.
Proof.
  intros Hn Hb. unfold reachable. apply (rtc_ind_r (fun c => inv c)).
  - assert (forall f, (f Starting = 0) -> total f (replicate n Starting) = 0) as Et by (intros f Hf; induction n; simpl; rewrite ?IHn; lia).
    constructor; simpl; rewrite ?length_replicate; try done.
    + by apply Forall_replicate.
    + constructor; simpl; rewrite ?Et, ?length_replicate by done; try done; try lia. by apply Forall_replicate.
  - intros x y _ Hs Hx. by eapply step_inv.
Qed.

(** ** The master comes back *)

Definition weight p : nat := match p with Sleeping | Returned _ => 0 | Starting | Woken => 1 | Working rest _ _ => 2 + length rest end%nat.
Definition work_left (c : config) : nat := (3 * length (queue (q c)) + list_sum (map weight (threads (master c) (workers c))))%nat.
(** Whatever the scheduler does, [P] is reached by steps inside [Loop], and no state before it
    is stuck. *)
Inductive inevitable (P : config -> Prop) (c : config) : Prop :=
  | inevitable_now : P c -> inevitable P c
  | inevitable_step : (exists c', loop_step check c c') -> (forall c', loop_step check c c' -> inevitable P c') -> inevitable P c.

Lemma weight_insert l i p p' : l !! i = Some p ->
  (list_sum (map weight (<[i := p']> l)) + weight p = list_sum (map weight l) + weight p')%nat.
Proof. revert i. induction l as [|x l IH]; intros [|i]; simpl; try discriminate; intros E; [simplify_eq; lia | specialize (IH i E); lia]. Qed.
Lemma critical_weight fMaster p c l i c' p' ntf : counts l c -> l !! i = Some p -> critical fMaster p c = Some (c', p', ntf) ->
  (3 * length (queue c') + weight p' + (if ntf then 1 else 0) < 3 * length (queue c) + weight p)%nat.
Proof.
  intros Hc Hp Hr. destruct (critical_first _ _ _ _ _ _ Hc Hp Hr) as (c0 & n & E & Hc0 & _ & EQ & _). injection E as E ->.
  pose proof (batch_size_bound _ _ Hc0) as Hb. rewrite <- EQ. clear EQ.
  assert ((if n then 1 else 0) <= weight p - 1 /\ 0 < weight p)%nat as (Hn & Hw).
  { destruct p as [| | |[|x rest] m ok|]; simpl in Hr; try discriminate; [| |destruct n; simpl; lia]; injection Hr as _ Hn; subst n; simpl; lia. }
  symmetry in E. unfold loop_head in E. destruct (queue c0) as [|x Q] eqn:EQ.
  - destruct ((fMaster || fQuit c0) && (nTodo c0 =? 0)); injection E as <- <-; simpl; rewrite ?EQ; simpl; lia.
  - injection E as <- <-. specialize (Hb ltac:(done)). simpl queue. simpl weight. rewrite length_drop, length_take. lia.
Qed.
Lemma run_weight p p' : run_one check p = Some p' -> weight p = S (weight p').
Proof. destruct p as [| | |[|x rest] n ok|]; simpl; try discriminate. by intros [= <-]. Qed.
Lemma notify_weight ntf m l :
  (list_sum (map weight (threads (notify_master ntf m) l)) <= list_sum (map weight (threads m l)) + (if ntf then 1 else 0))%nat.
Proof. destruct m as [| |p d|], ntf; simpl; try lia. destruct p; simpl; lia. Qed.
Lemma loop_step_decreases c c' : inv c -> loop_step check c c' -> (work_left c' < work_left c)%nat.
Proof.
  intros [_ Hc _ _ _] Hs. unfold work_left.
  destruct Hs as [c i p q' p' ntf Hp Hr|c i p p' Hp Hr|c p d q' p' ntf m r Em Hr Hm|c p d p' Em Hr]; simpl.
  - destruct (threads_lookup (master c) _ _ _ Hp) as (k & Hk & E). pose proof (critical_weight _ _ _ _ _ _ _ _ Hc Hk Hr).
    pose proof (weight_insert _ _ _ p' Hk). pose proof (notify_weight ntf (master c) (<[i := p']> (workers c))). rewrite <- E in *. lia.
  - destruct (threads_lookup (master c) _ _ _ Hp) as (k & Hk & E). pose proof (weight_insert _ _ _ p' Hk). apply run_weight in Hr.
    rewrite <- E in *. lia.
  - rewrite Em in *. pose proof (critical_weight true p _ _ 0 q' p' ntf Hc eq_refl Hr). simpl.
    assert (list_sum (map weight (threads m (workers c))) <= weight p' + list_sum (map weight (workers c)))%nat; [|lia].
    destruct p'; simpl in Hm; try (injection Hm as <- <-; simpl; lia). destruct d; injection Hm as <- <-; simpl; lia.
  - rewrite Em. apply run_weight in Hr. simpl. lia.
Qed.
(** While the master is inside, a thread can run: the master itself, or one with checks. *)
Lemma loop_enabled c p d : inv c -> master c = InLoop p d -> exists c', loop_step check c c'.
Proof.
  intros [_ Hc _ _ Hph] Em. rewrite Em in Hc, Hph. destruct Hph as (_ & Hsl & Hret).
  assert (forall p, p = Starting \/ p = Woken \/ (exists rest n ok, p = Working rest n ok) -> (exists r, critical (T := T) true p (q c) = Some r) \/ exists p', run_one check p = Some p') as Hgo.
  { intros x [-> | [-> | ([|y rest] & n & ok & ->)]]; simpl; eauto. }
  destruct p as [| | |rest n ok|b]; [| | | |by destruct (Hret b)].
  - destruct (Hgo Starting) as [([[q' p'] ntf] & E) | (p' & E)]; [by left| |done].
    destruct (after_section p' d (round c)) as [m r] eqn:Ea. eexists. by eapply master_section.
  - destruct (Hsl eq_refl) as [Eq En]. destruct (counts_bounds _ _ Hc) as (_ & _ & _ & _). destruct Hc as [_ _ Ed _ _ Hs _ _].
    rewrite Eq in Ed. simpl in Ed. destruct (Exists_dec (fun x => taken x <> 0) (workers c)) as [Hx | Hx]; [intros x; destruct (decide (taken x = 0)) as [E0|E0]; [right; intros E1; by apply E1 | by left]| |].
    + apply Exists_exists in Hx as (x & [i Hi]%list_elem_of_In%list_elem_of_lookup & Hx). destruct x as [| | |[|y rest] n ok|]; try done.
      * destruct (critical false (Working [] n ok) (q c)) as [[[q' p'] ntf]|] eqn:E; [|discriminate]. eexists. by eapply worker_section.
      * eexists. by eapply worker_run.
    + exfalso. apply En. rewrite Ed. clear - Hx. induction (workers c) as [|x l IH]; simpl; [done|].
      destruct (decide (taken x = 0)) as [->|]; [|destruct Hx; by constructor]. apply IH. intros Hl. apply Hx. by constructor.
  - destruct (Hgo Woken) as [([[q' p'] ntf] & E) | (p' & E)]; [by right; left| |done].
    destruct (after_section p' d (round c)) as [m r] eqn:Ea. eexists. by eapply master_section.
  - destruct (Hgo (Working rest n ok)) as [([[q' p'] ntf] & E) | (p' & E)]; [eauto 6| |].
    + destruct (after_section p' d (round c)) as [m r] eqn:Ea. eexists. by eapply master_section.
    + eexists. by eapply master_run.
Qed.
(** Inside [Loop], and whether called by the destructor. *)
Definition in_loop (m : master_state (T := T)) : option bool := match m with InLoop _ d => Some d | _ => None end.
Definition comes_back (d : bool) (r : list T) : master_state (T := T) := if d then Free else Control (Some (forallb check r)).
(** Inside [Loop] the master keeps its checks; what it comes back with is their conjunction. *)
Lemma loop_step_round c c' d : inv c -> in_loop (master c) = Some d -> loop_step check c c' ->
  in_loop (master c') = Some d /\ round c' = round c \/ master c' = comes_back d (round c).
Proof.
  intros Hi Hin Hs. pose proof (loop_step_inv _ _ Hi Hs) as Hi'.
  destruct Hs as [c i p q' p' ntf Hp Hr|c i p p' Hp Hr|c p e q' p' ntf m r Em Hr Hm|c p e p' Em Hr]; simpl in *.
  - left. by destruct (master c).
  - by left.
  - rewrite Em in Hin. injection Hin as ->. destruct p'; simpl in Hm; try (injection Hm as <- <-; by left). right. unfold comes_back.
    destruct d; injection Hm as <- <-; [done|]. destruct Hi' as [_ _ _ _ Hph]. simpl in Hph. by destruct Hph as (-> & _).
  - rewrite Em in Hin. by left.
Qed.
Lemma loop_inevitable c d r : inv c -> in_loop (master c) = Some d -> round c = r ->
  inevitable (fun c' => master c' = comes_back d r) c.
Proof.
  remember (work_left c) as n eqn:En. revert c En. induction (lt_wf n) as [n _ IH]. intros c -> Hi Hin <-.
  apply inevitable_step.
  - destruct (master c) as [| |p e|] eqn:Em; try discriminate. by eapply loop_enabled.
  - intros c' Hs. destruct (loop_step_round _ _ _ Hi Hin Hs) as [[Hin' Er] | Hdone]; [|by constructor].
    eapply IH; [by eapply loop_step_decreases | reflexivity | by eapply loop_step_inv | done | done].
Qed.
End counting.

(** C24: the check queue computes a conjunction whatever the interleaving.  For any number of
    worker threads, any batch size, and any run of the workers and of a master that makes
    controls, adds checks and waits (waking without notification allowed): the assertion that a
    new control finds the queue idle never fails; what [Wait] returns is the conjunction of all
    the checks added under the control, and the queue is idle again; at any time [nTodo] counts
    the checks on the stack and in the hands of threads, and no thread counts twice. *)
Theorem check_queue_correct {T} (check : T -> bool) (n : nat) (nBatchSizeIn : Z) (c : config (T := T))
    (Hn : Z.of_nat n < 2 ^ 30) (Hb : 0 <= nBatchSizeIn < 2 ^ 32) (Hc : reachable check n nBatchSizeIn c) :
  master c <> Crashed /\
  (forall b, master c = Control (Some b) -> b = forallb check (round c) /\ IsIdle (q c) = true) /\
  nTodo (q c) = Z.of_nat (length (queue (q c))) + total taken (threads (master c) (workers c)) /\
  nIdle (q c) = total idle (threads (master c) (workers c)) /\
  nTotal (q c) = total inside (threads (master c) (workers c)).
Proof.
  destruct (reachable_inv check n nBatchSizeIn c Hn ltac:(lia) Hc) as [Hbz Hcn _ _ Hph].
  split_and!; [intros E; by rewrite E in Hph | | apply Hcn..].
  intros b E. rewrite E in *. destruct Hph as (Eb & E0 & Ea). split; [done|].
  destruct (idle_when_done check _ _ Hcn Hbz E0) as (_ & Ei & _). unfold IsIdle. by rewrite Ei, Z.eqb_refl, E0, Ea.
Qed.

(** C25: the master comes back.  From any state that can be reached with the master inside
    [Wait], whatever thread is scheduled at each step, the steps of the threads come to an end,
    no state before that is stuck, and the end is the return of [Wait] with the conjunction of
    the checks (or, for the destructor, the end of the control). *)
Theorem check_queue_live {T} (check : T -> bool) (n : nat) (nBatchSizeIn : Z) (c : config (T := T)) (p : thread T) (destroying : bool)
    (Hn : Z.of_nat n < 2 ^ 30) (Hb : 0 <= nBatchSizeIn < 2 ^ 32) (Hc : reachable check n nBatchSizeIn c)
    (Hm : master c = InLoop p destroying) :
  inevitable check (fun c' => master c' = if destroying then Free else Control (Some (forallb check (round c)))) c.
Proof.
  apply (loop_inevitable check c destroying (round c)); [by apply (reachable_inv check n nBatchSizeIn); [|lia|] | by rewrite Hm | done].
Qed.

(** Two checks, one of which fails, and one worker that took them first. *)
Definition two_checks : config (T := bool) := mkConfig (mkQueue [false; true] 1 1 true 2 false 128) [Woken] (InLoop Starting false) [true; false].
Lemma two_checks_reachable : reachable id 1 128 two_checks.
Proof.
  eapply rtc_l; [by apply step_construct|]. eapply rtc_l; [apply step_loop; by apply (worker_section id _ 0 Starting (mkQueue [] 1 1 true 0 false 128) Sleeping false)|].
  eapply rtc_l; [apply (step_add id _ [true; false] [Woken]); [reflexivity | done | reflexivity]|].
  eapply rtc_l; [by apply step_wait|]. apply rtc_refl.
Qed.
Lemma check_queue_correct_witness : master two_checks <> Crashed.
Proof. apply (check_queue_correct id 1 128 two_checks); [done | done | apply two_checks_reachable]. Defined.
Lemma check_queue_live_witness : inevitable id (fun c' => master c' = Control (Some false)) two_checks.
Proof. apply (check_queue_live id 1 128 two_checks Starting false); [done | done | apply two_checks_reachable | done]. Defined.
