(* ===== verification/Standard.v ===== *)
(** Standard scripts and destinations ([src/src/script/standard.cpp]): the templates of [Solver],
    what a script pays to, and the scripts made for a destination. *)
From S2P Require Import Prelude Serialize Stream Sha2 Hashers Script SigChecks Interp Merkle Transaction SigHash Compressor Coins CoinsView.

Definition MAX_OP_RETURN_RELAY : Z := 83.

Inductive txnouttype :=
  | TX_NONSTANDARD | TX_PUBKEY | TX_PUBKEYHASH | TX_SCRIPTHASH | TX_MULTISIG | TX_NULL_DATA
  | TX_ZEROCOINMINT | TX_WITNESS_V0_SCRIPTHASH | TX_WITNESS_V0_KEYHASH | TX_WITNESS_UNKNOWN.
#[export] Instance txnouttype_eq_dec : EqDecision txnouttype.
Proof. solve_decision. Defined.

Definition GetTxnOutputType (t : txnouttype) : string :=
  match t with
  | TX_NONSTANDARD => "nonstandard"
  | TX_PUBKEY => "pubkey"
  | TX_PUBKEYHASH => "pubkeyhash"
  | TX_SCRIPTHASH => "scripthash"
  | TX_MULTISIG => "multisig"
  | TX_NULL_DATA => "nulldata"
  | TX_ZEROCOINMINT => "zerocoinmint"
  | TX_WITNESS_V0_KEYHASH => "witness_v0_keyhash"
  | TX_WITNESS_V0_SCRIPTHASH => "witness_v0_scripthash"
  | TX_WITNESS_UNKNOWN => "witness_unknown"
  end.

(** ** [Solver] *)

(** In the order of the [multimap]. *)
Definition mTemplates : list (txnouttype * CScript) :=
  [(TX_PUBKEY, [OP_PUBKEY; OP_CHECKSIG]);
   (TX_PUBKEYHASH, [OP_DUP; OP_HASH160; OP_PUBKEYHASH; OP_EQUALVERIFY; OP_CHECKSIG]);
   (TX_PUBKEYHASH, [OP_DUP; OP_HASH160; OP_PUBKEYHASH; OP_EQUAL; OP_IF; OP_CHECKSIG; OP_ELSE; OP_TIME; OP_NOP3; OP_DROP; OP_DUP;
      OP_HASH160; OP_PUBKEYHASH; OP_EQUALVERIFY; OP_CHECKSIG; OP_ENDIF]);
   (TX_MULTISIG, [OP_SMALLINTEGER; OP_PUBKEYS; OP_SMALLINTEGER; OP_CHECKMULTISIG])].

(** [while (vch1.size() >= 33 && vch1.size() <= 65)]: the last instruction read and the
    solutions. *)
Fixpoint pubkeys_loop (fuel : nat) (o1 : op) (sols : list valtype) : op * list valtype :=
  match fuel with
  | O => (o1, sols)
  | S fuel' =>
      if (size (op_data o1) >=? 33) && (size (op_data o1) <=? 65) then
        let o := GetOp (op_pc o1) in
        if op_ok o then pubkeys_loop fuel' o (sols ++ [op_data o1]) else (o, sols ++ [op_data o1])
      else (o1, sols)
  end.
(** The comparison of one instruction with one of the template: the solutions, or no match. *)
Definition match_op (o1 o2 : op) (sols : list valtype) : option (list valtype) :=
  if op_code o2 =? OP_PUBKEY then
    if (size (op_data o1) <? 33) || (size (op_data o1) >? 65) then None else Some (sols ++ [op_data o1])
  else if op_code o2 =? OP_PUBKEYHASH then
    if negb (size (op_data o1) =? 20) then None else Some (sols ++ [op_data o1])
  else if op_code o2 =? OP_TIME then Some (sols ++ [op_data o1])
  else if op_code o2 =? OP_SMALLINTEGER then
    if (op_code o1 =? OP_0) || ((op_code o1 >=? OP_1) && (op_code o1 <=? OP_16)) then
      n ← DecodeOP_N (op_code o1); Some (sols ++ [[u8 n]])
    else None
  else if negb (op_code o1 =? op_code o2) || negb (bool_decide (op_data o1 = op_data o2)) then None
  else Some sols.
(** [while (true)]: the solutions of a script that matches. *)
Fixpoint match_loop (fuel : nat) (pc1 pc2 : CScript) (sols : list valtype) : option (list valtype) :=
  match fuel with
  | O => None
  | S fuel' =>
      match pc1, pc2 with
      | [], [] => Some sols
      | _, _ =>
          let o1 := GetOp pc1 in
          if negb (op_ok o1) then None else
          let o2 := GetOp pc2 in
          if negb (op_ok o2) then None else
          if op_code o2 =? OP_PUBKEYS then
            let '(o1, sols) := pubkeys_loop (S (length pc1)) o1 sols in
            let o2 := GetOp (op_pc o2) in
            if negb (op_ok o2) then None else
            sols ← match_op o1 o2 sols; match_loop fuel' (op_pc o1) (op_pc o2) sols
          else sols ← match_op o1 o2 sols; match_loop fuel' (op_pc o1) (op_pc o2) sols
      end
  end.
Definition match_template (script tplate : CScript) : option (list valtype) := match_loop (S (length tplate)) script tplate [].

(** The first byte of a solution. *)
Definition byte0 (v : option valtype) : Z := match v with Some (b :: _) => b | _ => 0 end.
(** [vSolutionsRet.size() - 2 != n]; a [size_t] is not negative. *)
Definition multisig_ok (sols : list valtype) : bool :=
  let m := byte0 (head sols) in
  let n := byte0 (Some (List.last sols [])) in
  negb ((m <? 1) || (n <? 1) || (m >? n) || negb (u64 (size sols - 2) =? n)).
Fixpoint scan_templates (l : list (txnouttype * CScript)) (script : CScript) : bool * txnouttype * list valtype :=
  match l with
  | [] => (false, TX_NONSTANDARD, [])
  | (t, tplate) :: l =>
      match match_template script tplate with
      | Some sols =>
          if bool_decide (t = TX_MULTISIG) && negb (multisig_ok sols) then (false, t, sols) else (true, t, sols)
      | None => scan_templates l script
      end
  end.
(** The result, [typeRet] (which may keep its value) and [vSolutionsRet]; [None] is the
    exception of a vector made from a range that ends before it begins. *)
Definition Solver (typeRet : txnouttype) (scriptPubKey : CScript) : option (bool * txnouttype * list valtype) :=
  if IsPayToScriptHash scriptPubKey then Some (true, TX_SCRIPTHASH, [take 20 (drop 2 scriptPubKey)])
  else if IsZerocoinMint scriptPubKey then
    if size scriptPubKey >? 150 then Some (false, TX_ZEROCOINMINT, [])
    else if size scriptPubKey <? 2 then None
    else Some (true, TX_ZEROCOINMINT, [drop 2 scriptPubKey])
  else match IsWitnessProgram scriptPubKey with
  | Some (witnessversion, witnessprogram) =>
      if (witnessversion =? 0) && (size witnessprogram =? 20) then Some (true, TX_WITNESS_V0_KEYHASH, [witnessprogram])
      else if (witnessversion =? 0) && (size witnessprogram =? 32) then Some (true, TX_WITNESS_V0_SCRIPTHASH, [witnessprogram])
      else if negb (witnessversion =? 0) then Some (true, TX_WITNESS_UNKNOWN, [[u8 witnessversion]; witnessprogram])
      else Some (false, typeRet, [])
  | None =>
      if (size scriptPubKey >=? 1) && (at_ scriptPubKey 0 =? OP_RETURN) && IsPushOnly (drop 1 scriptPubKey) then Some (true, TX_NULL_DATA, [])
      else Some (scan_templates mTemplates scriptPubKey)
  end.

Definition ScriptSigArgsExpected (t : txnouttype) (vSolutions : list valtype) : Z :=
  match t with
  | TX_NONSTANDARD | TX_NULL_DATA | TX_ZEROCOINMINT | TX_WITNESS_UNKNOWN => -1
  | TX_PUBKEY => 1
  | TX_PUBKEYHASH => 2
  | TX_MULTISIG => match vSolutions with (b :: _) :: _ => b + 1 | _ => -1 end
  | TX_SCRIPTHASH => 1
  | TX_WITNESS_V0_SCRIPTHASH | TX_WITNESS_V0_KEYHASH => 1
  end.

(** [datacarrier] is the option, [nMaxDatacarrierBytes] its size. *)
Definition IsStandard (datacarrier : bool) (nMaxDatacarrierBytes : Z) (whichType : txnouttype) (scriptPubKey : CScript) : option (bool * txnouttype) :=
  '(ok, whichType, vSolutions) ← Solver whichType scriptPubKey;
  Some (
    if negb ok then (false, whichType)
    else if bool_decide (whichType = TX_MULTISIG) then
      let m := byte0 (head vSolutions) in
      let n := byte0 (Some (List.last vSolutions [])) in
      if (n <? 1) || (n >? 3) then (false, whichType)
      else if (m <? 1) || (m >? n) then (false, whichType) else (true, whichType)
    else if bool_decide (whichType = TX_NULL_DATA) && (negb datacarrier || (size scriptPubKey >? nMaxDatacarrierBytes)) then (false, whichType)
    else (negb (bool_decide (whichType = TX_NONSTANDARD)) && negb (bool_decide (whichType = TX_WITNESS_UNKNOWN)), whichType)).

(** ** Destinations *)

Inductive CTxDestination :=
  | CNoDestination
  | CKeyID (h : valtype)
  | CScriptID (h : valtype)
  | WitnessV0ScriptHash (h : valtype)
  | WitnessV0KeyHash (h : valtype)
  | WitnessUnknown (version : Z) (program : valtype).
#[global] Instance CTxDestination_eq_dec : EqDecision CTxDestination.
Proof. solve_decision. Defined.

(** [CPubKey::GetID] *)
Definition GetID (k : CPubKey) : CTxDestination := CKeyID (Hash160 (take (Z.to_nat (CPubKey_size k)) (default [] k))).

(** The result is [false] or the address. *)
Definition ExtractDestination (scriptPubKey : CScript) : option (option CTxDestination) :=
  '(ok, whichType, vSolutions) ← Solver TX_NONSTANDARD scriptPubKey;
  if negb ok then Some None else
  match whichType, vSolutions with
  | TX_PUBKEY, v :: _ => let pubKey := CPubKey_Set v in Some (if CPubKey_IsValid pubKey then Some (GetID pubKey) else None)
  | TX_PUBKEYHASH, v :: _ => if size v =? 20 then Some (Some (CKeyID v)) else None
  | TX_SCRIPTHASH, v :: _ => if size v =? 20 then Some (Some (CScriptID v)) else None
  | TX_WITNESS_V0_KEYHASH, v :: _ => Some (Some (WitnessV0KeyHash v))
  | TX_WITNESS_V0_SCRIPTHASH, v :: _ => Some (Some (WitnessV0ScriptHash v))
  | TX_WITNESS_UNKNOWN, v :: w :: _ => Some (Some (WitnessUnknown (byte0 (Some v)) w))
  | _, _ => Some None
  end.
(** The type, the addresses and the signatures required, when it returns [true]. *)
Definition ExtractDestinations (scriptPubKey : CScript) : option (option (txnouttype * list CTxDestination * Z)) :=
  '(ok, typeRet, vSolutions) ← Solver TX_NONSTANDARD scriptPubKey;
  if negb ok then Some None
  else if bool_decide (typeRet = TX_NULL_DATA) then Some None
  else if bool_decide (typeRet = TX_MULTISIG) then
    let keys := map CPubKey_Set (removelast (tail vSolutions)) in
    let addressRet := map GetID (List.filter CPubKey_IsValid keys) in
    Some (match addressRet with [] => None | _ => Some (typeRet, addressRet, byte0 (head vSolutions)) end)
  else
    r ← ExtractDestination scriptPubKey;
    Some (match r with Some address => Some (typeRet, [address], 1) | None => None end).

(** [CScriptVisitor]; [None] is the assertion of [EncodeOP_N]. *)
Definition GetScriptForDestination (dest : CTxDestination) : option CScript :=
  match dest with
  | CNoDestination => Some []
  | CKeyID h => Some (push_data [OP_DUP; OP_HASH160] h ++ [OP_EQUALVERIFY; OP_CHECKSIG])
  | CScriptID h => Some (push_data [OP_HASH160] h ++ [OP_EQUAL])
  | WitnessV0KeyHash h => Some (push_data [OP_0] h)
  | WitnessV0ScriptHash h => Some (push_data [OP_0] h)
  | WitnessUnknown version program => c ← EncodeOP_N (i32 version); Some (push_data [c] program)
  end.
Definition GetScriptForRawPubKey (pubKey : valtype) : CScript := push_data [] pubKey ++ [OP_CHECKSIG].
Definition GetScriptForMultisig (nRequired : Z) (keys : list valtype) : option CScript :=
  m ← EncodeOP_N nRequired;
  n ← EncodeOP_N (i32 (size keys));
  Some (foldl push_data [m] keys ++ [n; OP_CHECKMULTISIG]).
Definition GetScriptForWitness (redeemscript : CScript) : option CScript :=
  '(ok, typ, vSolutions) ← Solver TX_NONSTANDARD redeemscript;
  match ok, typ, vSolutions with
  | true, TX_PUBKEY, v :: _ => GetScriptForDestination (WitnessV0KeyHash (Hash160 v))
  | true, TX_PUBKEYHASH, v :: _ => GetScriptForDestination (WitnessV0KeyHash v)
  | _, _, _ => GetScriptForDestination (WitnessV0ScriptHash (snd (Finalize CSHA256 (Write CSHA256 (fresh CSHA256) redeemscript))))
  end.
Definition IsValidDestination (dest : CTxDestination) : bool := match dest with CNoDestination => false | _ => true end.

(** ** [IsWitnessStandard] *)

Definition MAX_STANDARD_P2WSH_STACK_ITEMS : Z := 100.
Definition MAX_STANDARD_P2WSH_STACK_ITEM_SIZE : Z := 80.
Definition MAX_STANDARD_P2WSH_SCRIPT_SIZE : Z := 3600.

Section witness_standard.
Context {S : Type} `{CCoinsView S}.
(** The script the witness is for: [inl] is the result [false]. *)
Definition witness_script (i : CTxIn) (prevScript : CScript) : option (unit + CScript) :=
  if IsPayToScriptHash prevScript then
    match EvalScript (checker := base_checker) [] (scriptSig i) 0 SIGVERSION_BASE with
    | Ok [] => Some (inl tt)
    | Ok (top :: _) => Some (inr top)
    | Err _ => Some (inl tt)
    | Abort => None
    end
  else Some (inr prevScript).
Definition p2wsh_limits (stack : list valtype) : bool :=
  negb (size (List.last stack []) >? MAX_STANDARD_P2WSH_SCRIPT_SIZE) &&
  negb (size stack - 1 >? MAX_STANDARD_P2WSH_STACK_ITEMS) &&
  forallb (fun item => negb (size item >? MAX_STANDARD_P2WSH_STACK_ITEM_SIZE)) (removelast stack).
(** [None] is an access beyond the witnesses, or an assertion. *)
Fixpoint witness_standard_loop (w : CTxWitness) (l : list CTxIn) (k : nat) (c : CCoinsViewCache S) : option (bool * CCoinsViewCache S) :=
  match l with
  | [] => Some (true, c)
  | i :: l =>
      stack ← w !! k;
      if TxinWitness_IsNull stack then witness_standard_loop w l (Datatypes.S k) c else
      '(prev, c) ← GetOutputFor i c;
      r ← witness_script i (scriptPubKey prev);
      match r with
      | inl _ => Some (false, c)
      | inr prevScript =>
          match IsWitnessProgram prevScript with
          | None => Some (false, c)
          | Some (witnessversion, witnessprogram) =>
              if (witnessversion =? 0) && (size witnessprogram =? 32) && negb (p2wsh_limits stack) then Some (false, c)
              else witness_standard_loop w l (Datatypes.S k) c
          end
      end
  end.
Definition IsWitnessStandard (t : CMutableTransaction) (c : CCoinsViewCache S) : option (bool * CCoinsViewCache S) :=
  if IsCoinBase t then Some (true, c) else witness_standard_loop (wit t) (vin t) 0 c.
End witness_standard.

(** ** Scripts made for a destination pay to it *)

(** What the types of the source hold. *)
Definition destination_ok (d : CTxDestination) : Prop :=
  match d with
  | CNoDestination => False
  | CKeyID h | CScriptID h | WitnessV0KeyHash h => length h = 20%nat
  | WitnessV0ScriptHash h => length h = 32%nat
  | WitnessUnknown version program => 1 <= version <= 16 /\ 2 <= size program <= 40
  end.

Ltac split_list h E :=
  let go := (destruct h as [|? h]; [discriminate E|]; cbn [length] in E; apply eq_add_S in E) in
  repeat go; destruct h; [clear E|discriminate E].

Lemma KeyID_pays h : length h = 20%nat -> ExtractDestination (push_data [OP_DUP; OP_HASH160] h ++ [OP_EQUALVERIFY; OP_CHECKSIG]) = Some (Some (CKeyID h)).
Proof. intros E. split_list h E. vm_compute. reflexivity. Qed.
Lemma ScriptID_pays h : length h = 20%nat -> ExtractDestination (push_data [OP_HASH160] h ++ [OP_EQUAL]) = Some (Some (CScriptID h)).
Proof. intros E. split_list h E. vm_compute. reflexivity. Qed.
Lemma V0KeyHash_pays h : length h = 20%nat -> ExtractDestination (push_data [OP_0] h) = Some (Some (WitnessV0KeyHash h)).
Proof. intros E. split_list h E. vm_compute. reflexivity. Qed.
Lemma V0ScriptHash_pays h : length h = 32%nat -> ExtractDestination (push_data [OP_0] h) = Some (Some (WitnessV0ScriptHash h)).
Proof. intros E. split_list h E. vm_compute. reflexivity. Qed.

Lemma small_opcode n : 1 <= n <= 16 -> EncodeOP_N n = Some (OP_1 + n - 1) /\ DecodeOP_N (OP_1 + n - 1) = Some n.
Proof.
  intros Hn. unfold EncodeOP_N, DecodeOP_N, OP_0, OP_1, OP_16. split.
  - destruct (Z.geb_spec n 0), (Z.leb_spec n 16); try lia. simpl. destruct (Z.eqb_spec n 0); [lia | done].
  - destruct (Z.eqb_spec (0x51 + n - 1) 0); [lia|]. destruct (Z.geb_spec (0x51 + n - 1) 0x51), (Z.leb_spec (0x51 + n - 1) 0x60); try lia.
    simpl. f_equal. lia.
Qed.
(** A script that begins with a small number is neither of the hashes nor a mint. *)
Lemma small_first n rest : 1 <= n <= 16 ->
  IsPayToScriptHash ((OP_1 + n - 1) :: rest) = false /\ IsZerocoinMint ((OP_1 + n - 1) :: rest) = false /\
  (at_ ((OP_1 + n - 1) :: rest) 0 =? OP_RETURN) = false.
Proof.
  intros Hn. unfold IsPayToScriptHash, IsZerocoinMint, at_. cbn [nth]. unfold OP_1, OP_HASH160, OP_ZEROCOINMINT, OP_RETURN.
  repeat split; [destruct (Z.eqb_spec (0x51 + n - 1) 0xa9); [lia|]; by rewrite andb_false_r
    | destruct (Z.eqb_spec (0x51 + n - 1) 0xc1); [lia|]; by rewrite andb_false_r | apply Z.eqb_neq; lia].
Qed.
Lemma short_push c p : size p < 76 -> push_data c p = c ++ size p :: p.
Proof.
  intros Hs. pose proof (size_nonneg p). unfold push_data, OP_PUSHDATA1. destruct (Z.ltb_spec (size p) 0x4c); [|lia].
  rewrite u8_small by lia. by rewrite <- (assoc_L (++)).
Qed.
Lemma Unknown_pays v p : 1 <= v <= 16 -> 2 <= size p <= 40 ->
  ExtractDestination (push_data [OP_1 + v - 1] p) = Some (Some (WitnessUnknown v p)).
Proof.
  intros Hv Hp. rewrite short_push by lia. cbn [app]. unfold ExtractDestination, Solver.
  destruct (small_first v (size p :: p) Hv) as (-> & -> & _). destruct (small_opcode v Hv) as [_ Hd].
  assert (IsWitnessProgram (OP_1 + v - 1 :: size p :: p) = Some (v, p)) as ->.
  { unfold IsWitnessProgram, at_. cbn [nth]. rewrite Hd. unfold size in *. cbn [length]. unfold OP_0, OP_1, OP_16.
    destruct (Z.ltb_spec (Z.of_nat (S (S (length p)))) 4), (Z.gtb_spec (Z.of_nat (S (S (length p)))) 42); try lia. cbn [orb].
    destruct (Z.ltb_spec (0x51 + v - 1) 0x51), (Z.gtb_spec (0x51 + v - 1) 0x60); try lia. rewrite andb_false_r.
    destruct (Z.eqb_spec (Z.of_nat (length p) + 2) (Z.of_nat (S (S (length p))))); [done | lia]. }
  destruct (Z.eqb_spec v 0); [lia|]. cbn. rewrite u8_small by lia. done.
Qed.

(** *** Multisignature scripts *)

Definition key_size (k : valtype) : Prop := 33 <= size k <= 65.
Lemma GetOp_push k rest : size k < 76 -> size (k ++ rest) < 2 ^ 32 -> GetOp (size k :: k ++ rest) = mkOp true rest (size k) k.
Proof.
  intros Hk Hs. pose proof (GetOp_push_data k rest Hs) as E. rewrite short_push in E by done. cbn [app] in E. rewrite E. f_equal.
  unfold push_code, OP_PUSHDATA1. destruct (Z.ltb_spec (size k) 0x4c); [done | lia].
Qed.
Lemma GetOp_small n rest : 1 <= n <= 16 -> GetOp ((OP_1 + n - 1) :: rest) = mkOp true rest (OP_1 + n - 1) [].
Proof. intros Hn. cbn [GetOp]. unfold OP_1, OP_PUSHDATA4. destruct (Z.leb_spec (0x51 + n - 1) 0x4e); [lia | done]. Qed.

Lemma pubkeys_loop_keys fuel k keys sols n rest : Forall key_size (k :: keys) -> 1 <= n <= 16 -> (length keys < fuel)%nat ->
  size (pushes keys ++ OP_1 + n - 1 :: rest) < 2 ^ 32 ->
  pubkeys_loop (S fuel) (mkOp true (pushes keys ++ (OP_1 + n - 1) :: rest) (size k) k) sols =
    (mkOp true rest (OP_1 + n - 1) [], sols ++ k :: keys).
Proof.
  intros Hk Hn. revert k sols fuel Hk. induction keys as [|k' keys IH]; intros k sols fuel Hk Hf Hs.
  - inversion_clear Hk as [|? ? [H1 H2] _]. cbn [pubkeys_loop op_data op_pc]. unfold key_size in *.
    destruct (Z.geb_spec (size k) 33), (Z.leb_spec (size k) 65); try lia. cbn [andb]. change (pushes []) with (@nil Z).
    rewrite (GetOp_small n rest Hn : GetOp ([] ++ _) = _). cbn [op_ok]. destruct fuel; [cbn in Hf; lia|]. reflexivity.
  - inversion_clear Hk as [|? ? [H1 H2] Hk']. cbn [pubkeys_loop op_data op_pc].
    destruct (Z.geb_spec (size k) 33), (Z.leb_spec (size k) 65); try lia. cbn [andb].
    assert (key_size k') as Hk1 by (by inversion Hk'). unfold key_size in Hk1. rewrite pushes_cons, short_push in * by lia. cbn [app] in *.
    rewrite <- (assoc_L (++)) in *. rewrite GetOp_push; [|lia|unfold size in *; cbn [length] in Hs; lia]. cbn [op_ok].
    destruct fuel; [cbn in Hf; lia|]. rewrite IH; [by rewrite <- (assoc_L (++)) | done | cbn in Hf; lia |].
    unfold size in *. cbn [length] in Hs. rewrite length_app in Hs. lia.
Qed.
Lemma key_pushes_size keys : Forall key_size keys -> size (pushes keys) <= 66 * size keys.
Proof.
  induction 1 as [|k keys [H1 H2] Hk IH]; [done|]. rewrite pushes_cons, short_push by lia. cbn [app]. unfold size in *. cbn [length]. rewrite length_app. lia.
Qed.

(** One round of the loop, and the round of [OP_PUBKEYS]. *)
Lemma match_step f x pc1 pc2 o1 o2 sols : GetOp (x :: pc1) = o1 -> GetOp pc2 = o2 -> op_ok o1 = true -> op_ok o2 = true ->
  (op_code o2 =? OP_PUBKEYS) = false ->
  match_loop (S f) (x :: pc1) pc2 sols = (sols ← match_op o1 o2 sols; match_loop f (op_pc o1) (op_pc o2) sols).
Proof. intros E1 E2 H1 H2 H3. cbn [match_loop]. by rewrite E1, E2, H1, H2, H3. Qed.
Lemma match_step_keys f x pc1 pc2 o1 o2 o1' o2' sols sols' : GetOp (x :: pc1) = o1 -> GetOp pc2 = o2 -> op_ok o1 = true -> op_ok o2 = true ->
  (op_code o2 =? OP_PUBKEYS) = true -> pubkeys_loop (S (length (x :: pc1))) o1 sols = (o1', sols') -> GetOp (op_pc o2) = o2' -> op_ok o2' = true ->
  match_loop (S f) (x :: pc1) pc2 sols = (sols ← match_op o1' o2' sols'; match_loop f (op_pc o1') (op_pc o2') sols).
Proof. intros E1 E2 H1 H2 H3 H4 E4 H5. cbn [match_loop]. by rewrite E1, E2, H1, H2, H3, H4, E4, H5. Qed.
Lemma no_template first rest t tplate : OP_PUSHDATA4 < first -> In (t, tplate) (take 3 mTemplates) -> first <> OP_DUP ->
  match_template (first :: rest) tplate = None.
Proof.
  intros Hf Hin Hd. assert (GetOp (first :: rest) = mkOp true rest first []) as E.
  { cbn [GetOp]. unfold OP_PUSHDATA4 in *. destruct (Z.leb_spec first 0x4e); [lia | done]. }
  apply Z.eqb_neq in Hd. assert (forall pc rest2 sols, match_op (mkOp true pc first []) (mkOp true rest2 OP_DUP []) sols = None) as Hm.
  { intros pc rest2 sols. unfold match_op. cbn [op_code op_data]. by rewrite Hd. }
  unfold match_template. destruct Hin as [[= <- <-] | [[= <- <-] | [[= <- <-] | []]]];
    (erewrite match_step; [|exact E | reflexivity | reflexivity | reflexivity | reflexivity]); [reflexivity|..].
  all: match goal with |- context [GetOp (OP_DUP :: ?l)] => change (GetOp (OP_DUP :: l)) with (mkOp true l OP_DUP []) end; by rewrite Hm.
Qed.
Lemma match_small k rest rest2 sols : 1 <= k <= 16 ->
  match_op (mkOp true rest (OP_1 + k - 1) []) (mkOp true rest2 OP_SMALLINTEGER []) sols = Some (sols ++ [[k]]).
Proof.
  intros Hk. unfold match_op. cbn [op_code op_data]. destruct (small_opcode k Hk) as [_ ->].
  change (OP_SMALLINTEGER =? OP_PUBKEY) with false. change (OP_SMALLINTEGER =? OP_PUBKEYHASH) with false.
  change (OP_SMALLINTEGER =? OP_TIME) with false. rewrite Z.eqb_refl. unfold OP_0, OP_1, OP_16.
  destruct (Z.geb_spec (0x51 + k - 1) 0x51), (Z.leb_spec (0x51 + k - 1) 0x60); try lia. rewrite orb_true_r. cbn. by rewrite u8_small by lia.
Qed.
Lemma match_multisig m n keys : 1 <= m <= 16 -> 1 <= n <= 16 -> keys <> [] -> Forall key_size keys -> size keys <= 16 ->
  match_template ((OP_1 + m - 1) :: pushes keys ++ [OP_1 + n - 1; OP_CHECKMULTISIG]) [OP_SMALLINTEGER; OP_PUBKEYS; OP_SMALLINTEGER; OP_CHECKMULTISIG]
    = Some ([m] :: keys ++ [[n]]).
Proof.
  intros Hm Hn Hne Hk Hs. pose proof (key_pushes_size keys Hk) as Hps. unfold match_template.
  destruct keys as [|k keys]; [done|]. assert (key_size k) as Hk1 by (by inversion Hk). unfold key_size in Hk1.
  rewrite pushes_cons, short_push in * by lia. cbn [app] in *. rewrite <- (assoc_L (++)).
  assert (size (k ++ pushes keys ++ [OP_1 + n - 1; OP_CHECKMULTISIG]) < 2 ^ 31) as Hsz.
  { unfold size in *. cbn [length] in *. rewrite !length_app in *. cbn [length]. lia. }
  assert (size (pushes keys ++ [OP_1 + n - 1; OP_CHECKMULTISIG]) < 2 ^ 32) as Hsz' by (rewrite size_app in Hsz; pose proof (size_nonneg k); lia).
  assert (length keys <= length (pushes keys))%nat as Hlen.
  { clear. induction keys as [|x keys IH]; [cbn; lia|]. rewrite pushes_cons, length_app. pose proof (push_data_length x). cbn [length]. lia. }
  erewrite match_step; [|by apply GetOp_small | reflexivity | reflexivity | reflexivity | reflexivity].
  change (GetOp [OP_SMALLINTEGER; OP_PUBKEYS; OP_SMALLINTEGER; OP_CHECKMULTISIG]) with (mkOp true [OP_PUBKEYS; OP_SMALLINTEGER; OP_CHECKMULTISIG] OP_SMALLINTEGER []).
  rewrite match_small by done. cbn [mbind option_bind app op_pc length].
  erewrite match_step_keys; [|apply GetOp_push; lia | reflexivity | reflexivity | reflexivity | reflexivity | | reflexivity | reflexivity].
  2: { apply pubkeys_loop_keys; [done | done | | done]. cbn [length]. rewrite !length_app. lia. }
  change (GetOp (op_pc (GetOp [OP_PUBKEYS; OP_SMALLINTEGER; OP_CHECKMULTISIG]))) with (mkOp true [OP_CHECKMULTISIG] OP_SMALLINTEGER []).
  rewrite match_small by done. cbn [mbind option_bind op_pc]. rewrite <- (assoc_L (++)). reflexivity.
Qed.

Lemma multisig_no_witness m n k keys : 1 <= m <= 16 -> key_size k ->
  IsWitnessProgram ((OP_1 + m - 1) :: pushes (k :: keys) ++ [OP_1 + n - 1; OP_CHECKMULTISIG]) = None.
Proof.
  intros Hm Hk. unfold key_size in Hk. rewrite pushes_cons, short_push by lia. cbn [app]. unfold IsWitnessProgram, at_. cbn [nth].
  destruct (_ || _); [done|]. destruct (_ && _); [done|].
  destruct (Z.eqb_spec (size k + 2) (size (OP_1 + m - 1 :: size k :: (k ++ pushes keys) ++ [OP_1 + n - 1; OP_CHECKMULTISIG]))) as [E|]; [|done].
  exfalso. revert E. unfold size. cbn [length]. rewrite !length_app. cbn [length]. lia.
Qed.
Lemma Solver_multisig t m keys : 1 <= m <= size keys -> size keys <= 16 -> Forall key_size keys ->
  exists script, GetScriptForMultisig m keys = Some script /\ Solver t script = Some (true, TX_MULTISIG, [m] :: keys ++ [[size keys]]).
Proof.
  intros Hm Hs Hk. assert (keys <> []) as Hne by (intros ->; change (size []) with 0 in *; lia).
  exists ((OP_1 + m - 1) :: pushes keys ++ [OP_1 + size keys - 1; OP_CHECKMULTISIG]). split.
  - unfold GetScriptForMultisig. rewrite i32_small by lia. destruct (small_opcode m ltac:(lia)) as [-> _]. destruct (small_opcode (size keys) ltac:(lia)) as [-> _].
    cbn [mbind option_bind]. unfold pushes. rewrite !pushes_from. reflexivity.
  - destruct keys as [|k keys]; [done|]. unfold Solver. destruct (small_first m (pushes (k :: keys) ++ [OP_1 + size (k :: keys) - 1; OP_CHECKMULTISIG]) ltac:(lia)) as (-> & -> & ->).
    rewrite multisig_no_witness by (lia || by inversion Hk). rewrite andb_false_r. cbn [andb]. f_equal.
    assert (forall t tplate, In (t, tplate) (take 3 mTemplates) ->
      match_template (OP_1 + m - 1 :: pushes (k :: keys) ++ [OP_1 + size (k :: keys) - 1; OP_CHECKMULTISIG]) tplate = None) as Hno.
    { intros t' tplate Hin. apply (no_template _ _ t'); [unfold OP_PUSHDATA4, OP_1; lia | done | unfold OP_DUP, OP_1; lia]. }
    unfold scan_templates, mTemplates. rewrite (Hno TX_PUBKEY) by (by left). rewrite (Hno TX_PUBKEYHASH) by (by right; left).
    rewrite (Hno TX_PUBKEYHASH) by (by right; right; left).
    rewrite match_multisig by (done || lia).
    rewrite (bool_decide_eq_true_2 (TX_MULTISIG = TX_MULTISIG)) by done. cbn [andb].
    assert (multisig_ok ([m] :: (k :: keys) ++ [[size (k :: keys)]]) = true) as ->; [|done].
    unfold multisig_ok. rewrite app_comm_cons, last_last. cbn [head byte0 app]. set (n := size (k :: keys)) in *.
    replace (size ([m] :: k :: keys ++ [[n]])) with (n + 2) by (unfold n, size; cbn [length]; rewrite length_app; cbn [length]; lia).
    rewrite u64_small by lia. destruct (Z.ltb_spec m 1), (Z.ltb_spec n 1), (Z.gtb_spec m n), (Z.eqb_spec (n + 2 - 2) n); done || lia.
Qed.

Lemma RawPubKey_solved h rest t : size (h :: rest) = GetLen h -> is_byte h ->
  Solver t (GetScriptForRawPubKey (h :: rest)) = Some (true, TX_PUBKEY, [h :: rest]).
Proof.
  intros Hs Hh. assert (length rest = 32%nat \/ length rest = 64%nat) as [E | E].
  { revert Hs. unfold GetLen, size. cbn [length]. destruct (_ || _); [lia|]. destruct (_ || _); lia. }
  all: split_list rest E; vm_compute; reflexivity.
Qed.

(** The scripts made for destinations pay to them.  For every destination the types of the
    source can hold there is a script, and [ExtractDestination] of it is the destination; the
    script of a public key pays to its hash; the script of up to sixteen keys, of which some are
    required, is solved as that multisignature with the numbers and keys in order.  One script
    escapes: the single byte [OP_ZEROCOINMINT] makes [Solver] throw, and with it whatever
    classifies the output. *)
Theorem destinations_roundtrip :
  (forall d, destination_ok d -> exists script, GetScriptForDestination d = Some script /\ ExtractDestination script = Some (Some d)) /\
  (forall h rest, size (h :: rest) = GetLen h -> is_byte h -> ExtractDestination (GetScriptForRawPubKey (h :: rest)) = Some (Some (CKeyID (Hash160 (h :: rest))))) /\
  (forall t m keys, 1 <= m <= size keys -> size keys <= 16 -> Forall key_size keys ->
    exists script, GetScriptForMultisig m keys = Some script /\ Solver t script = Some (true, TX_MULTISIG, [m] :: keys ++ [[size keys]])) /\
  (forall t, Solver t [OP_ZEROCOINMINT] = None).
Proof.
  split; [|split; [|split; [apply Solver_multisig | done]]].
  - intros [|h|h|h|h|v p] Hd; [done|..]; cbn in Hd; [eexists; split; [reflexivity|]..|].
    + by apply KeyID_pays.
    + by apply ScriptID_pays.
    + by apply V0ScriptHash_pays.
    + by apply V0KeyHash_pays.
    + destruct Hd as [Hv Hp]. exists (push_data [OP_1 + v - 1] p). split; [|by apply Unknown_pays].
      unfold GetScriptForDestination. rewrite i32_small by lia. by destruct (small_opcode v Hv) as [-> _].
  - intros h rest Hs Hh. unfold ExtractDestination. rewrite RawPubKey_solved by done. cbn [mbind option_bind negb].
    assert (size (h :: rest) <> 0) as Hz by (unfold size; cbn [length]; lia).
    unfold CPubKey_Set. rewrite <- Hs, Z.eqb_refl. apply Z.eqb_neq in Hz. rewrite Hz. cbn [negb andb].
    unfold CPubKey_IsValid, GetID, CPubKey_size. rewrite <- Hs. cbn [default]. unfold size at 1 2. destruct (Z.ltb_spec 0 (Z.of_nat (length (h :: rest)))); [|cbn [length] in *; lia].
    by rewrite Nat2Z.id, firstn_all.
Qed.
Lemma destinations_roundtrip_witness :
  exists script, GetScriptForMultisig 1 [2 :: replicate 32 7; 3 :: replicate 32 8] = Some script /\
    Solver TX_NONSTANDARD script = Some (true, TX_MULTISIG, [[1]; 2 :: replicate 32 7; 3 :: replicate 32 8; [2]]).
Proof. apply (destinations_roundtrip) with (m := 1); [done | done | by repeat constructor]. Defined.
