(* ===== verification/Bloom.v ===== *)
(** Bloom filters of light clients ([src/src/bloom.h], [src/src/bloom.cpp]), with the update by
    matching transactions.  A filter never forgets: what was inserted stays contained. *)
From S2P Require Import Prelude Serialize Stream Hashers Script SigChecks Interp Merkle Transaction SigHash Compressor Coins CoinsView Standard.

Definition MAX_BLOOM_FILTER_SIZE : Z := 36000.
Definition MAX_HASH_FUNCS : Z := 50.
Definition BLOOM_UPDATE_NONE : Z := 0.
Definition BLOOM_UPDATE_ALL : Z := 1.
Definition BLOOM_UPDATE_P2PUBKEY_ONLY : Z := 2.
Definition BLOOM_UPDATE_MASK : Z := 3.

Record CBloomFilter := mkBloom {
  vData : list Z;
  isFull : bool;
  isEmpty : bool;
  nHashFuncs : Z;
  nTweak : Z;
  nFlags : Z
}.
(** The constructor; the two numbers computed in floating point are given. *)
Definition CBloomFilter_new (bits hashes nTweakIn nFlagsIn : Z) : CBloomFilter :=
  mkBloom (replicate (Z.to_nat (Z.min bits (MAX_BLOOM_FILTER_SIZE * 8) / 8)) 0) false false (Z.min hashes MAX_HASH_FUNCS) nTweakIn nFlagsIn.
Definition CBloomFilter_default : CBloomFilter := mkBloom [] true false 0 0 0.
(** Reading a filter from a message fills the four fields of a default one. *)
Definition CBloomFilter_read (data : list Z) (hashes tweak flags : Z) : CBloomFilter := mkBloom data true false hashes tweak flags.

Definition set_data (f : CBloomFilter) (d : list Z) (full empty : bool) : CBloomFilter := mkBloom d full empty (nHashFuncs f) (nTweak f) (nFlags f).

(** [CBloomFilter::Hash]; [None] is the division by zero of a filter without data. *)
Definition bloom_Hash (f : CBloomFilter) (nHashNum : Z) (vDataToHash : list Z) : option Z :=
  let bits := Z.of_nat (length (vData f)) * 8 in
  if bits =? 0 then None else Some (u32 (MurmurHash3 (u32 (nHashNum * 0xFBA4C795 + nTweak f)) vDataToHash mod bits)).

Definition set_bit (d : list Z) (nIndex : Z) : list Z :=
  let i := Z.to_nat (Z.shiftr nIndex 3) in
  <[i := u8 (Z.lor (nth i d 0) (Z.shiftl 1 (Z.land 7 nIndex)))]> d.
Definition get_bit (d : list Z) (nIndex : Z) : bool :=
  negb (Z.land (nth (Z.to_nat (Z.shiftr nIndex 3)) d 0) (Z.shiftl 1 (Z.land 7 nIndex)) =? 0).

Fixpoint insert_loop (n : nat) (i : Z) (vKey : list Z) (f : CBloomFilter) : option CBloomFilter :=
  match n with
  | O => Some f
  | S n' =>
      nIndex ← bloom_Hash f i vKey;
      insert_loop n' (i + 1) vKey (set_data f (set_bit (vData f) nIndex) (isFull f) (isEmpty f))
  end.
Definition bloom_insert (vKey : list Z) (f : CBloomFilter) : option CBloomFilter :=
  if isFull f then Some f else
  f ← insert_loop (Z.to_nat (nHashFuncs f)) 0 vKey f;
  Some (set_data f (vData f) (isFull f) false).
Fixpoint contains_loop (n : nat) (i : Z) (vKey : list Z) (f : CBloomFilter) : option bool :=
  match n with
  | O => Some true
  | S n' =>
      nIndex ← bloom_Hash f i vKey;
      if negb (get_bit (vData f) nIndex) then Some false else contains_loop n' (i + 1) vKey f
  end.
Definition bloom_contains (vKey : list Z) (f : CBloomFilter) : option bool :=
  if isFull f then Some true
  else if isEmpty f then Some false
  else contains_loop (Z.to_nat (nHashFuncs f)) 0 vKey f.
Definition insert_outpoint (o : COutPoint) : CBloomFilter -> option CBloomFilter := bloom_insert (Serialize o).
Definition contains_outpoint (o : COutPoint) : CBloomFilter -> option bool := bloom_contains (Serialize o).
Definition insert_hash (h : hash256) : CBloomFilter -> option CBloomFilter := bloom_insert h.
Definition contains_hash (h : hash256) : CBloomFilter -> option bool := bloom_contains h.

Definition bloom_clear (f : CBloomFilter) : CBloomFilter := set_data f (replicate (length (vData f)) 0) false true.
Definition IsWithinSizeConstraints (f : CBloomFilter) : bool :=
  (Z.of_nat (length (vData f)) <=? MAX_BLOOM_FILTER_SIZE) && (nHashFuncs f <=? MAX_HASH_FUNCS).
Definition UpdateEmptyFull (f : CBloomFilter) : CBloomFilter :=
  set_data f (vData f) (forallb (fun b => b =? 0xff) (vData f)) (forallb (fun b => b =? 0) (vData f)).

(** ** [IsRelevantAndUpdate] *)

(** Whether a data element of the script is contained; the length of the script is the fuel. *)
Fixpoint script_loop (fuel : nat) (pc : CScript) (f : CBloomFilter) : option bool :=
  match fuel, pc with
  | O, _ | _, [] => Some false
  | S fuel', _ =>
      let o := GetOp pc in
      if negb (op_ok o) then Some false else
      if size (op_data o) =? 0 then script_loop fuel' (op_pc o) f else
      found ← bloom_contains (op_data o) f;
      if (found : bool) then Some true else script_loop fuel' (op_pc o) f
  end.
Definition script_contains (script : CScript) (f : CBloomFilter) : option bool := script_loop (length script) script f.
(** What a matching output adds. *)
Definition update_output (o : CTxOut) (out : COutPoint) (f : CBloomFilter) : option CBloomFilter :=
  if Z.land (nFlags f) BLOOM_UPDATE_MASK =? BLOOM_UPDATE_ALL then insert_outpoint out f
  else if Z.land (nFlags f) BLOOM_UPDATE_MASK =? BLOOM_UPDATE_P2PUBKEY_ONLY then
    '(ok, type, _) ← Solver TX_NONSTANDARD (scriptPubKey o);
    if (ok : bool) && (bool_decide (type = TX_PUBKEY) || bool_decide (type = TX_MULTISIG)) then insert_outpoint out f else Some f
  else Some f.
Fixpoint outputs_loop (h : hash256) (l : list CTxOut) (i : Z) (fFound : bool) (f : CBloomFilter) : option (bool * CBloomFilter) :=
  match l with
  | [] => Some (fFound, f)
  | o :: l =>
      found ← script_contains (scriptPubKey o) f;
      if (found : bool) then f ← update_output o (mkOutPoint h i) f; outputs_loop h l (i + 1) true f
      else outputs_loop h l (i + 1) fFound f
  end.
Fixpoint inputs_loop (l : list CTxIn) (f : CBloomFilter) : option bool :=
  match l with
  | [] => Some false
  | i :: l =>
      spends ← contains_outpoint (prevout i) f;
      if (spends : bool) then Some true else
      found ← script_contains (scriptSig i) f;
      if (found : bool) then Some true else inputs_loop l f
  end.
Definition IsRelevantAndUpdate (t : CTransaction) (f : CBloomFilter) : option (bool * CBloomFilter) :=
  if isFull f then Some (true, f)
  else if isEmpty f then Some (false, f)
  else
    fFound ← contains_hash (cached_hash t) f;
    '(fFound, f) ← outputs_loop (cached_hash t) (vout t) 0 fFound f;
    if (fFound : bool) then Some (true, f) else
    r ← inputs_loop (vin t) f; Some (r, f).

(** ** Bits *)

Lemma nth_insert (d : list Z) i j v : nth j (<[i := v]> d) 0 = if bool_decide (i = j /\ (i < length d)%nat) then v else nth j d 0.
Proof.
  rewrite !nth_lookup. case_bool_decide as Hd.
  - destruct Hd as [-> Hd]. by rewrite list_lookup_insert_eq.
  - destruct (decide (i = j)) as [->|Hn]; [|by rewrite list_lookup_insert_ne]. rewrite list_insert_ge by lia. done.
Qed.
Lemma bit_of k : 0 <= k -> Z.shiftl 1 (Z.land 7 k) = 2 ^ (k mod 8) /\ 0 <= k mod 8 < 8.
Proof.
  intros Hk. rewrite Z.land_comm. change 7 with (2 ^ 3 - 1). rewrite (land_ones_mod k 3) by lia. pose proof (Z.mod_pos_bound k 8 ltac:(lia)).
  split; [|done]. change (2 ^ 3) with 8. rewrite Z.shiftl_mul_pow2, Z.mul_1_l by lia. done.
Qed.
Lemma get_bit_testbit d k : 0 <= k -> get_bit d k = Z.testbit (nth (Z.to_nat (Z.shiftr k 3)) d 0) (k mod 8).
Proof. intros Hk. unfold get_bit. destruct (bit_of k Hk) as [-> B]. rewrite land_pow2_eqb by lia. apply negb_involutive. Qed.
Lemma set_bit_get d i k : 0 <= i -> 0 <= k -> Z.shiftr i 3 < Z.of_nat (length d) ->
  get_bit (set_bit d i) k = (i =? k) || get_bit d k.
Proof.
  intros Hi Hk Hl. rewrite !get_bit_testbit by done. unfold set_bit. rewrite nth_insert. destruct (bit_of i Hi) as [-> Bi].
  destruct (bit_of k Hk) as [_ Bk]. rewrite !Z.shiftr_div_pow2 in * by lia. change (2 ^ 3) with 8 in *. pose proof (Z.div_pos i 8). pose proof (Z.div_pos k 8).
  case_bool_decide as Hd.
  - destruct Hd as [Hd _]. apply Z2Nat.inj in Hd; [|lia..]. unfold u8. rewrite Z.mod_pow2_bits_low by lia. rewrite Z.lor_spec, Z.pow2_bits_eqb by lia.
    rewrite Hd. rewrite orb_comm. f_equal. apply eq_true_iff_eq. rewrite !Z.eqb_eq. pose proof (Z.div_mod i 8). pose proof (Z.div_mod k 8). lia.
  - destruct (Z.eqb_spec i k) as [->|]; [|done]. exfalso. apply Hd. split; [done | lia].
Qed.
Lemma set_bit_length d i : length (set_bit d i) = length d.
Proof. apply length_insert. Qed.

(** ** Filters that can be used *)

(** A full filter says yes to all; another has data and hash functions. *)
Definition wf (f : CBloomFilter) : Prop :=
  (isFull f = true -> forallb (fun b => b =? 0xff) (vData f) = true) /\
  (isFull f = false -> (0 < length (vData f))%nat /\ 0 < nHashFuncs f) /\ Z.of_nat (length (vData f)) < 2 ^ 29.
Definition index (f : CBloomFilter) (j : Z) (key : list Z) : Z :=
  MurmurHash3 (u32 (j * 0xFBA4C795 + nTweak f)) key mod (Z.of_nat (length (vData f)) * 8).
(** All the bits of a key are set. *)
Definition marked (f : CBloomFilter) (key : list Z) : Prop := forall j, 0 <= j < nHashFuncs f -> get_bit (vData f) (index f j key) = true.
Definition same_shape (f g : CBloomFilter) : Prop :=
  length (vData g) = length (vData f) /\ nHashFuncs g = nHashFuncs f /\ nTweak g = nTweak f /\ nFlags g = nFlags f.
(** The bits of [f] are set in [g]. *)
Definition below (f g : CBloomFilter) : Prop := same_shape f g /\ forall k, 0 <= k -> get_bit (vData f) k = true -> get_bit (vData g) k = true.

Lemma index_bound f j key : (0 < length (vData f))%nat -> 0 <= index f j key /\ Z.shiftr (index f j key) 3 < Z.of_nat (length (vData f)).
Proof.
  intros Hl. unfold index. set (h := MurmurHash3 _ _). pose proof (Z.mod_pos_bound h (Z.of_nat (length (vData f)) * 8) ltac:(lia)).
  rewrite Z.shiftr_div_pow2 by lia. split; [lia|]. apply Z.div_lt_upper_bound; lia.
Qed.
Lemma bloom_Hash_index f j key : (0 < length (vData f))%nat -> Z.of_nat (length (vData f)) < 2 ^ 29 -> bloom_Hash f j key = Some (index f j key).
Proof.
  intros Hl Hs. unfold bloom_Hash, index. destruct (Z.eqb_spec (Z.of_nat (length (vData f)) * 8) 0); [lia|]. f_equal. apply u32_small.
  match goal with |- 0 <= ?h mod ?n < _ => pose proof (Z.mod_pos_bound h n ltac:(lia)) end. lia.
Qed.
Lemma index_shape f g j key : same_shape f g -> index g j key = index f j key.
Proof. intros (El & _ & Et & _). unfold index. by rewrite El, Et. Qed.
Lemma below_refl f : below f f.
Proof. by repeat split. Qed.
Lemma below_trans f g h : below f g -> below g h -> below f h.
Proof. intros [(? & ? & ? & ?) Hf] [(? & ? & ? & ?) Hg]. split; [repeat split; congruence | auto]. Qed.
Lemma marked_below f g key : (0 < length (vData f))%nat -> below f g -> marked f key -> marked g key.
Proof.
  intros Hl [Hs Hb] Hm j Hj. rewrite (index_shape f g) by done. apply Hb; [by apply index_bound|]. apply Hm. destruct Hs as (_ & E & _). lia.
Qed.

Lemma contains_loop_spec n i key f : (0 < length (vData f))%nat -> Z.of_nat (length (vData f)) < 2 ^ 29 ->
  exists b, contains_loop n i key f = Some b /\ (b = true <-> forall j, i <= j < i + Z.of_nat n -> get_bit (vData f) (index f j key) = true).
Proof.
  intros Hl Hs. revert i. induction n as [|n IH]; intros i; [exists true; split; [done|]; split; [lia | done]|].
  cbn [contains_loop]. rewrite bloom_Hash_index by done. cbn [mbind option_bind]. destruct (get_bit (vData f) (index f i key)) eqn:E; cbn [negb].
  - destruct (IH (i + 1)) as (b & Eb & Hb). exists b. split; [done|]. rewrite Hb. split; intros H j Hj; [|apply H; lia].
    destruct (decide (j = i)) as [->|]; [done | apply H; lia].
  - exists false. split; [done|]. split; [done|]. intros H. rewrite H in E by lia. done.
Qed.
Lemma insert_loop_spec n i key f : (0 < length (vData f))%nat -> Z.of_nat (length (vData f)) < 2 ^ 29 ->
  exists g, insert_loop n i key f = Some g /\ below f g /\ isFull g = isFull f /\ isEmpty g = isEmpty f /\
    forall j, i <= j < i + Z.of_nat n -> get_bit (vData g) (index f j key) = true.
Proof.
  intros Hl Hs. revert i f Hl Hs. induction n as [|n IH]; intros i f Hl Hs; [exists f; repeat split; intros; done || lia|].
  cbn [insert_loop]. rewrite bloom_Hash_index by done. cbn [mbind option_bind]. destruct (index_bound f i key Hl) as [B1 B2].
  set (f' := set_data f (set_bit (vData f) (index f i key)) (isFull f) (isEmpty f)).
  assert (below f f') as Hff'.
  { split; [unfold same_shape, f'; cbn; by rewrite set_bit_length|]. intros k Hk E. unfold f'. cbn [vData set_data]. rewrite set_bit_get by done. by rewrite E, orb_true_r. }
  assert (length (vData f') = length (vData f)) as El by apply set_bit_length.
  destruct (IH (i + 1) f' ltac:(lia) ltac:(lia)) as (g & -> & Hg & Ef & Ee & Hj).
  exists g. split_and!; [done | by eapply below_trans | done | done |]. intros j Hj'. destruct (decide (j = i)) as [->|].
  - apply Hg; [done|]. unfold f'. cbn [vData set_data]. rewrite set_bit_get by done. by rewrite Z.eqb_refl.
  - rewrite <- (index_shape f f') by apply Hff'. apply Hj. lia.
Qed.

(** What [contains] answers. *)
Lemma contains_spec f key : wf f -> exists b, bloom_contains key f = Some b /\
  (b = true <-> isFull f = true \/ isEmpty f = false /\ marked f key).
Proof.
  intros (_ & Hw & Hs). unfold bloom_contains. destruct (isFull f) eqn:Ef; [exists true; split; [done|]; split; auto|].
  destruct (Hw eq_refl) as [Hl Hn]. destruct (isEmpty f); [exists false; split; [done|]; split; [done | by intros [? | [? _]]]|].
  destruct (contains_loop_spec (Z.to_nat (nHashFuncs f)) 0 key f Hl Hs) as (b & -> & Hb). exists b. split; [done|]. rewrite Hb. unfold marked.
  split; [intros H; right; split; [done|]; intros j Hj; apply H; lia | intros [? | [_ H]]; [done | intros j Hj; apply H; lia]].
Qed.
Lemma contains_true f key : wf f -> (bloom_contains key f = Some true <-> isFull f = true \/ isEmpty f = false /\ marked f key).
Proof. intros Hw. destruct (contains_spec f key Hw) as (b & -> & Hb). rewrite <- Hb. split; [by intros [= ->] | by intros ->]. Qed.

(** What may happen to a filter: it keeps what it contains. *)
Definition keeps (f g : CBloomFilter) : Prop := wf g /\ forall key, bloom_contains key f = Some true -> bloom_contains key g = Some true.
Lemma keeps_refl f : wf f -> keeps f f.
Proof. by split. Qed.
Lemma keeps_trans f g h : keeps f g -> keeps g h -> keeps f h.
Proof. intros [_ Hf] [Hw Hg]. split; [done | auto]. Qed.

Lemma insert_spec f key : wf f -> exists g, bloom_insert key f = Some g /\ keeps f g /\ bloom_contains key g = Some true /\ nHashFuncs g = nHashFuncs f.
Proof.
  intros Hw. pose proof Hw as (_ & Hn & Hs). unfold bloom_insert. destruct (isFull f) eqn:Ef.
  - exists f. split_and!; [done | by apply keeps_refl | by unfold bloom_contains; rewrite Ef | done].
  - destruct (Hn eq_refl) as [Hl Hnh]. destruct (insert_loop_spec (Z.to_nat (nHashFuncs f)) 0 key f Hl Hs) as (g & -> & Hg & Efg & _ & Hj).
    cbn [mbind option_bind]. set (g' := set_data g (vData g) (isFull g) false). pose proof Hg as [(El & En & Et & _) _].
    assert (below f g') as Hg' by (destruct Hg as [? ?]; by split).
    assert (wf g') as Hw' by (split_and!; cbn; [congruence | intros _; split; [by rewrite El | by rewrite En] | by rewrite El]).
    exists g'. split; [done|]. split; [split; [done|]|split; [|done]].
    + intros k. rewrite !contains_true by done. rewrite Ef. intros [? | [_ Hm]]; [done|]. right. split; [done|]. by eapply marked_below.
    + apply contains_true; [done|]. right. split; [done|]. intros j Hjr. rewrite (index_shape f g') by apply Hg'. apply Hj. cbn in Hjr. lia.
Qed.
Lemma full_bit d k : forallb (fun b => b =? 0xff) d = true -> 0 <= k -> Z.shiftr k 3 < Z.of_nat (length d) -> get_bit d k = true.
Proof.
  intros Hd Hk Hl. rewrite get_bit_testbit by done. assert (nth (Z.to_nat (Z.shiftr k 3)) d 0 = 0xff) as ->.
  { rewrite forallb_forall in Hd. apply Z.eqb_eq, Hd, nth_In. assert (0 <= Z.shiftr k 3) by (by apply Z.shiftr_nonneg). lia. }
  destruct (bit_of k Hk) as [_ B]. assert (k mod 8 = 0 \/ k mod 8 = 1 \/ k mod 8 = 2 \/ k mod 8 = 3 \/ k mod 8 = 4 \/ k mod 8 = 5 \/ k mod 8 = 6 \/ k mod 8 = 7) as E by lia.
  repeat destruct E as [-> | E]; try done. by rewrite E.
Qed.
Lemma UpdateEmptyFull_spec f : wf f -> 0 < nHashFuncs f -> keeps f (UpdateEmptyFull f).
Proof.
  intros Hw Hn. pose proof Hw as (Hf & Hnf & Hs). assert (wf (UpdateEmptyFull f)) as Hw'.
  { split_and!; cbn; [done | | done]. intros E. split; [|done]. destruct (vData f); [done | cbn; lia]. }
  split; [done|]. intros key. rewrite !contains_true by done. cbn. intros [E | [_ Hm]]; [left; auto|].
  destruct (isFull f) eqn:Ef; [left; auto|]. destruct (Hnf eq_refl) as [Hl _].
  right. split; [|apply (marked_below f); [done | by repeat split | done]]. apply not_true_is_false. intros Ez. specialize (Hm 0 ltac:(lia)). destruct (index_bound f 0 key Hl) as [B1 B2].
  rewrite get_bit_testbit in Hm by done. rewrite forallb_forall in Ez. assert (0 <= Z.shiftr (index f 0 key) 3) by (by apply Z.shiftr_nonneg).
  assert (nth (Z.to_nat (Z.shiftr (index f 0 key) 3)) (vData f) 0 = 0) as E by (apply Z.eqb_eq, Ez, nth_In; lia).
  by rewrite E, Z.bits_0 in Hm.
Qed.

(** ** Transactions *)

Lemma script_loop_total fuel pc f : wf f -> exists b, script_loop fuel pc f = Some b.
Proof.
  intros Hw. revert pc. induction fuel as [|fuel IH]; intros pc; [by exists false|]. destruct pc as [|x pc]; [by exists false|].
  cbn [script_loop]. destruct (negb _); [by exists false|]. destruct (_ =? _); [apply IH|].
  destruct (contains_spec f (op_data (GetOp (x :: pc))) Hw) as ([|] & -> & _); cbn; [by exists true | apply IH].
Qed.
Lemma script_loop_keeps fuel pc f g : wf f -> keeps f g -> script_loop fuel pc f = Some true -> script_loop fuel pc g = Some true.
Proof.
  intros Hw [Hw' Hk]. revert pc. induction fuel as [|fuel IH]; intros pc; [done|]. destruct pc as [|x pc]; [done|].
  cbn [script_loop]. destruct (negb _); [done|]. destruct (_ =? _); [apply IH|].
  destruct (contains_spec f (op_data (GetOp (x :: pc))) Hw) as ([|] & E & _); rewrite E; cbn [mbind option_bind].
  - intros _. by rewrite (Hk _ E).
  - intros Hs. destruct (contains_spec g (op_data (GetOp (x :: pc))) Hw') as ([|] & -> & _); cbn [mbind option_bind]; [done | auto].
Qed.
Lemma Solver_throws t script : Solver t script = None -> script = [OP_ZEROCOINMINT].
Proof.
  unfold Solver. destruct (IsPayToScriptHash script); [done|]. destruct (IsZerocoinMint script) eqn:Ez.
  - destruct (_ >? 150); [done|]. destruct (Z.ltb_spec (size script) 2) as [Hs|]; [|done]. intros _. unfold IsZerocoinMint in Ez.
    apply andb_true_iff in Ez as [_ Ez%Z.eqb_eq]. destruct script as [|x [|y script]]; [done | by cbn in Ez; subst | unfold size in Hs; cbn [length] in Hs; lia].
  - destruct (IsWitnessProgram script) as [[v p]|]; [repeat case_match; done|]. destruct (_ && _); done.
Qed.
Lemma update_output_spec o out f : wf f -> script_contains (scriptPubKey o) f = Some true ->
  exists g, update_output o out f = Some g /\ keeps f g /\ nFlags g = nFlags f /\
    (Z.land (nFlags f) BLOOM_UPDATE_MASK = BLOOM_UPDATE_ALL -> contains_outpoint out g = Some true).
Proof.
  intros Hw Hs. assert (forall key g, bloom_insert key f = Some g -> nFlags g = nFlags f) as Hfl.
  { intros key g. unfold bloom_insert. destruct (isFull f); [by intros [= <-]|].
    assert (forall n i h h', insert_loop n i key h = Some h' -> nFlags h' = nFlags h) as Hl.
    { induction n as [|n IH]; intros i h h'; cbn [insert_loop]; [by intros [= <-]|]. destruct (bloom_Hash h i key); cbn; [|done]. intros E. by apply IH in E. }
    destruct (insert_loop _ _ _ _) eqn:E; cbn; [|done]. intros [= <-]. cbn. by eapply Hl. }
  destruct (insert_spec f (Serialize out) Hw) as (g & Eg & Hk & Hc & _). unfold update_output, insert_outpoint, contains_outpoint.
  destruct (Z.eqb_spec (Z.land (nFlags f) BLOOM_UPDATE_MASK) BLOOM_UPDATE_ALL) as [|Hna]; [exists g; split_and!; eauto|].
  destruct (_ =? BLOOM_UPDATE_P2PUBKEY_ONLY); [|exists f; split_and!; [done | by apply keeps_refl.. | done | done]].
  destruct (Solver TX_NONSTANDARD (scriptPubKey o)) as [[[ok type] sols]|] eqn:Es.
  - cbn. destruct (ok && _); [exists g; split_and!; eauto; done | exists f; split_and!; [done | by apply keeps_refl.. | done | done]].
  - apply Solver_throws in Es. by rewrite Es in Hs.
Qed.
Lemma outputs_loop_spec h l i found f : wf f -> exists r g, outputs_loop h l i found f = Some (r, g) /\ keeps f g /\ (found = true -> r = true) /\
  forall k o, l !! k = Some o -> script_contains (scriptPubKey o) f = Some true -> r = true /\
    (Z.land (nFlags f) BLOOM_UPDATE_MASK = BLOOM_UPDATE_ALL -> contains_outpoint (mkOutPoint h (i + Z.of_nat k)) g = Some true).
Proof.
  revert i found f. induction l as [|o l IH]; intros i found f Hw; [exists found, f; split_and!; [done | by apply keeps_refl.. | done | done]|].
  cbn [outputs_loop]. destruct (script_loop_total (length (scriptPubKey o)) (scriptPubKey o) f Hw) as (b & Eb).
  unfold script_contains at 1. rewrite Eb. cbn [mbind option_bind]. destruct b.
  - destruct (update_output_spec o (mkOutPoint h i) f Hw Eb) as (f' & -> & Hk & Hfl & Hc). cbn [mbind option_bind].
    destruct (IH (i + 1) true f' (proj1 Hk)) as (r & g & E & Hk' & Hr & Hl). exists r, g.
    split; [done|]. split; [by eapply keeps_trans|]. split; [auto|].
    intros [|k] o' Ho Hs; cbn in Ho; [injection Ho as <-; split; [auto|]; rewrite Z.add_0_r; intros Ha; apply Hk'; by apply Hc|].
    destruct (Hl k o' Ho) as [Hr' Hc']; [by apply (script_loop_keeps _ _ f)|]. split; [done|]. rewrite <- Hfl. intros Ha.
    replace (i + Z.of_nat (S k)) with (i + 1 + Z.of_nat k) by lia. auto.
  - destruct (IH (i + 1) found f Hw) as (r & g & E & Hk' & Hr & Hl). exists r, g. split; [done|]. split; [done|]. split; [done|].
    intros [|k] o' Ho Hs; cbn in Ho; [injection Ho as <-; unfold script_contains in Hs; congruence|].
    replace (i + Z.of_nat (S k)) with (i + 1 + Z.of_nat k) by lia. by apply (Hl k o').
Qed.
Lemma inputs_loop_spec l f : wf f -> exists r, inputs_loop l f = Some r /\
  forall i, i ∈ l -> contains_outpoint (prevout i) f = Some true \/ script_contains (scriptSig i) f = Some true -> r = true.
Proof.
  intros Hw. induction l as [|i l IH]; [exists false; split; [done|]; by intros i Hi%elem_of_nil|].
  cbn [inputs_loop]. unfold contains_outpoint at 1. destruct (contains_spec f (Serialize (prevout i)) Hw) as ([|] & Ec & _); rewrite Ec; cbn [mbind option_bind]; [by exists true|].
  destruct (script_loop_total (length (scriptSig i)) (scriptSig i) f Hw) as ([|] & Eb); unfold script_contains at 1; rewrite Eb; cbn [mbind option_bind]; [by exists true|].
  destruct IH as (r & E & Hr). exists r. split; [done|]. intros j [->|Hj]%elem_of_cons; [|by apply Hr].
  intros [H|H]; [unfold contains_outpoint in H; congruence | unfold script_contains in H; congruence].
Qed.

(** C35: a bloom filter has no false negatives.  On a filter that is full or has data and hash
    functions, no operation divides by zero or throws.  What is inserted is contained, and
    nothing that happens later (other insertions, [UpdateEmptyFull], the update by a matching
    transaction) takes away what is contained.  A transaction whose hash, or an element of one
    of its scripts, or an outpoint it spends, is contained is relevant; with [BLOOM_UPDATE_ALL]
    the outputs that matched are then contained, so that their spends match too. *)
Theorem bloom_no_false_negatives (f : CBloomFilter) (Hw : wf f) :
  (forall key, exists g, bloom_insert key f = Some g /\ keeps f g /\ bloom_contains key g = Some true) /\
  (0 < nHashFuncs f -> keeps f (UpdateEmptyFull f)) /\
  (forall t, exists r g, IsRelevantAndUpdate t f = Some (r, g) /\ keeps f g /\
    (contains_hash (cached_hash t) f = Some true \/
     (exists i, i ∈ vin t /\ (contains_outpoint (prevout i) f = Some true \/ script_contains (scriptSig i) f = Some true)) -> r = true) /\
    forall k o, vout t !! k = Some o -> script_contains (scriptPubKey o) f = Some true -> r = true /\
      (Z.land (nFlags f) BLOOM_UPDATE_MASK = BLOOM_UPDATE_ALL -> contains_outpoint (mkOutPoint (cached_hash t) (Z.of_nat k)) g = Some true)) /\
  (forall key, bloom_contains key (bloom_clear f) = Some false).
Proof.
  split; [|split; [|split; [|done]]].
  - intros key. destruct (insert_spec f key Hw) as (g & ? & ? & ? & _). by exists g.
  - by apply UpdateEmptyFull_spec.
  - intros t. unfold IsRelevantAndUpdate. destruct (isFull f) eqn:Ef.
    { exists true, f. split_and!; try done. intros k o _ _. split; [done|]. intros _. unfold contains_outpoint, bloom_contains. by rewrite Ef. }
    assert (forall key, isEmpty f = true -> bloom_contains key f = Some false) as He by (intros key E; unfold bloom_contains; by rewrite Ef, E).
    destruct (isEmpty f) eqn:Ee.
    { assert (forall s, script_contains s f <> Some true) as Hs.
      { intros s. unfold script_contains. generalize (length s) as n. intros n. revert s. induction n as [|n IH]; intros [|x s]; try done.
        cbn [script_loop]. destruct (negb _); [done|]. destruct (_ =? _); [apply IH|]. rewrite He by done. apply IH. }
      exists false, f. split_and!; try done.
      - unfold contains_hash, contains_outpoint. intros [E | (i & _ & [E | E])]; [by rewrite He in E.. | by apply Hs in E].
      - intros k o _ E. by apply Hs in E. }
    unfold contains_hash. destruct (contains_spec f (cached_hash t) Hw) as (b & Eb & _). rewrite Eb. cbn [mbind option_bind].
    destruct (outputs_loop_spec (cached_hash t) (vout t) 0 b f Hw) as (r & g & -> & Hk & Hr & Ho). cbn [mbind option_bind]. destruct r.
    + exists true, g. by split_and!.
    + destruct (inputs_loop_spec (vin t) g (proj1 Hk)) as (r & -> & Hi). exists r, g. split_and!; try done; try apply Hk.
      * intros [E | (i & Hin & E)]; [destruct b; [by specialize (Hr eq_refl) | congruence]|]. apply (Hi i Hin). destruct E as [E | E]; [left; by apply Hk | right; by apply (script_loop_keeps _ _ f)].
      * intros k o Hko Hs. by destruct (Ho k o Hko Hs).
Qed.
Definition small_filter : CBloomFilter := CBloomFilter_new 64 3 0 BLOOM_UPDATE_ALL.
Lemma bloom_no_false_negatives_witness :
  exists g, bloom_insert [1; 2; 3] small_filter = Some g /\ keeps small_filter g /\ bloom_contains [1; 2; 3] g = Some true.
Proof. apply bloom_no_false_negatives. split_and!; [done | intros _; split; [apply Nat.ltb_lt; reflexivity | reflexivity] | reflexivity]. Defined.
