(* ===== verification/Base58.v ===== *)
(** Base 58 ([src/src/base58.cpp]): the conversion between bytes and text digit by digit, and
    the form with a checksum. *)
From S2P Require Import Prelude Stream Sha2 Hashers.

Definition pszBase58 : list Z := str "123456789ABCDEFGHJKLMNPQRSTUVWXYZabcdefghijkmnopqrstuvwxyz".

(** [strchr(s, c) - s] *)
Fixpoint strchr (s : list Z) (c : Z) : option Z :=
  match s with
  | [] => None
  | x :: s => if x =? c then Some 0 else i ← strchr s c; Some (i + 1)
  end.

(** ** One digit more

    The digits of the number from the last to the first: the reverse iterator goes through them.
    [i] counts the digits visited. *)
Fixpoint digits_loop (mult base : Z) (l : list Z) (carry i length : Z) : list Z * Z * Z :=
  match l with
  | [] => ([], carry, i)
  | d :: l' =>
      if negb (carry =? 0) || (i <? length) then
        let carry := carry + mult * d in
        let '(r, carry', i') := digits_loop mult base l' (cdiv carry base) (i + 1) length in
        (u8 (cmod carry base) :: r, carry', i')
      else (l, carry, i)
  end.
(** "Apply [b = b * mult + ch]", with the assertion that the number still fits. *)
Definition add_digit (mult base : Z) (s : list Z * Z) (ch : Z) : option (list Z * Z) :=
  let '(l, length) := s in
  let '(l, carry, i) := digits_loop mult base l ch 0 length in
  if negb (carry =? 0) then None else Some (l, i).
Fixpoint add_digits (mult base : Z) (s : list Z * Z) (input : list Z) : option (list Z * Z) :=
  match input with
  | [] => Some s
  | ch :: input => s ← add_digit mult base s ch; add_digits mult base s input
  end.
(** The digits from the first, without leading zeroes. *)
Definition significant (s : list Z * Z) : list Z :=
  drop_while (fun d => d =? 0) (rev (take (Z.to_nat (snd s)) (fst s))).

Definition leading (c : Z) (l : list Z) : nat := length (take_while (fun x => x =? c) l).

(** ** Encoding *)

Definition EncodeBase58 (vch : list Z) : option (list Z) :=
  let zeroes := leading 0 vch in
  let rest := drop zeroes vch in
  let size := i32 (Z.of_nat (length rest) * 138 / 100 + 1) in
  s ← add_digits 256 58 (replicate (Z.to_nat size) 0, 0) rest;
  Some (replicate zeroes 49 ++ map (fun d => nth (Z.to_nat d) pszBase58 0) (significant s)).

(** ** Decoding *)

(** The characters up to a space or the end, as digits, and whether all were in the alphabet
    (the loop returns at the first that is not). *)
Fixpoint base58_digits (psz : list Z) : list Z * bool :=
  match psz with
  | [] => ([], true)
  | c :: psz =>
      if isspace c then ([], true) else
      match strchr pszBase58 c with
      | None => ([], false)
      | Some d => let '(r, ok) := base58_digits psz in (d :: r, ok)
      end
  end.
(** The outer [None] is a failed assertion, an inner one the result [false]. *)
Definition DecodeBase58 (psz : list Z) : option (option (list Z)) :=
  let psz := drop_while isspace psz in
  let zeroes := leading 49 psz in
  let psz := drop zeroes psz in
  let size := i32 (Z.of_nat (length psz) * 733 / 1000 + 1) in
  let '(digits, ok) := base58_digits psz in
  s ← add_digits 58 256 (replicate (Z.to_nat size) 0, 0) digits;
  if negb ok then Some None else
  match drop_while isspace (drop (length digits) psz) with
  | [] => Some (Some (replicate zeroes 0 ++ significant s))
  | _ => Some None
  end.
(** A [std::string] is read up to its first NUL. *)
Definition c_str (s : list Z) : list Z := take_while (fun c => negb (c =? 0)) s.

(** ** With a checksum *)

Definition EncodeBase58Check (vchIn : list Z) : option (list Z) := EncodeBase58 (vchIn ++ take 4 (Hash [vchIn])).
Definition DecodeBase58Check (psz : list Z) : option (option (list Z)) :=
  r ← DecodeBase58 psz;
  Some (
    match r with
    | None => None
    | Some vch =>
        if (length vch <? 4)%nat then None else
        let n := (length vch - 4)%nat in
        if bool_decide (take 4 (Hash [take n vch]) = drop n vch) then Some (take n vch) else None
    end).

(** ** Numbers in a base *)

Section base.
Context (base : Z) (Hbase : 1 < base).
(** The value of digits from the last to the first, and from the first. *)
Fixpoint vle (l : list Z) : Z := match l with [] => 0 | d :: l => d + base * vle l end.
Definition vbe (l : list Z) : Z := vle (rev l).
Definition digit (d : Z) : Prop := 0 <= d < base.

Lemma vle_app l r : vle (l ++ r) = vle l + base ^ Z.of_nat (length l) * vle r.
Proof.
  induction l as [|d l IH]; cbn [vle app length]; [lia|]. rewrite IH, Nat2Z.inj_succ, Z.pow_succ_r by lia. ring.
Qed.
Lemma vle_bound l : Forall digit l -> 0 <= vle l < base ^ Z.of_nat (length l).
Proof.
  induction 1 as [|d l Hd Hl IH]; cbn [vle length]; [lia|]. rewrite Nat2Z.inj_succ, Z.pow_succ_r by lia. unfold digit in Hd. nia.
Qed.
Lemma vle_null l : Forall (fun d => d = 0) l -> vle l = 0.
Proof. induction 1 as [|d l Hd Hl IH]; cbn [vle]; [done | rewrite IH; lia]. Qed.
Lemma vle_inj l r : Forall digit l -> Forall digit r -> length l = length r -> vle l = vle r -> l = r.
Proof.
  intros Hl. revert r. induction Hl as [|d l Hd Hl IH]; intros [|e r] Hr; cbn [vle length]; try done.
  inversion_clear Hr as [|? ? He Hr']. intros [= E] Ev. unfold digit in *.
  assert (d = e) as ->.
  { apply (f_equal (fun v => v mod base)) in Ev. rewrite !(Z.mul_comm base), !Z.mod_add, !Z.mod_small in Ev by lia. done. }
  f_equal. apply IH; [done | done | nia].
Qed.
Lemma vbe_inj l r : Forall digit l -> Forall digit r -> length l = length r -> vbe l = vbe r -> l = r.
Proof.
  intros Hl Hr El Ev. rewrite <- (rev_involutive l), <- (rev_involutive r). f_equal. apply vle_inj; [by apply Forall_rev.. | by rewrite !length_rev | done].
Qed.
(** Digits from the first, without leading zeroes, are determined by their value. *)
Definition trimmed (l : list Z) : Prop := match l with 0 :: _ => False | _ => True end.
Lemma trimmed_lower l : Forall digit l -> trimmed l -> l <> [] -> base ^ (Z.of_nat (length l) - 1) <= vbe l.
Proof.
  intros Hl Ht Hne. destruct l as [|d l]; [done|]. inversion_clear Hl as [|? ? Hd Hl']. unfold vbe. cbn [rev]. rewrite vle_app.
  rewrite length_rev. cbn [vle length]. pose proof (vle_bound (rev l) (Forall_rev Hl')). unfold digit in Hd.
  assert (d <> 0) by (intros ->; exact Ht). replace (Z.of_nat (S (length l)) - 1) with (Z.of_nat (length l)) by lia.
  pose proof (Z.pow_pos_nonneg base (Z.of_nat (length l))). nia.
Qed.
Lemma vbe_bound l : Forall digit l -> 0 <= vbe l < base ^ Z.of_nat (length l).
Proof. intros Hl. unfold vbe. rewrite <- (length_rev l). apply vle_bound, Forall_rev, Hl. Qed.
Lemma trimmed_inj l r : Forall digit l -> Forall digit r -> trimmed l -> trimmed r -> vbe l = vbe r -> l = r.
Proof.
  intros Hl Hr Tl Tr E. assert (length l = length r) as El.
  { pose proof (vbe_bound l Hl) as B1. pose proof (vbe_bound r Hr) as B2.
    destruct l as [|d l'] eqn:El; destruct r as [|e r'] eqn:Er; [done| | |].
    - pose proof (trimmed_lower _ Hr Tr ltac:(done)) as Hlow. change (vbe []) with 0 in E. pose proof (Z.pow_pos_nonneg base (Z.of_nat (length (e :: r')) - 1)). cbn [length] in *. lia.
    - pose proof (trimmed_lower _ Hl Tl ltac:(done)) as Hlow. change (vbe []) with 0 in E. pose proof (Z.pow_pos_nonneg base (Z.of_nat (length (d :: l')) - 1)). cbn [length] in *. lia.
    - rewrite <- El, <- Er in *. pose proof (trimmed_lower l Hl Tl ltac:(by subst)) as L1. pose proof (trimmed_lower r Hr Tr ltac:(by subst)) as L2.
      destruct (Nat.lt_trichotomy (length l) (length r)) as [L | [L | L]]; [|done|]; exfalso.
      + pose proof (Z.pow_le_mono_r base (Z.of_nat (length l)) (Z.of_nat (length r) - 1) ltac:(lia) ltac:(lia)). lia.
      + pose proof (Z.pow_le_mono_r base (Z.of_nat (length r)) (Z.of_nat (length l) - 1) ltac:(lia) ltac:(lia)). lia. }
  unfold vbe in E. apply vle_inj in E; [|by apply Forall_rev..|by rewrite !length_rev].
  rewrite <- (rev_involutive l), E. apply rev_involutive.
Qed.
Lemma vbe_zeroes n l : vbe (replicate n 0 ++ l) = vbe l.
Proof. unfold vbe. rewrite rev_app_distr, vle_app, (vle_null (rev (replicate n 0))) by (by apply Forall_rev, Forall_replicate). lia. Qed.
Lemma drop_zeroes l : exists n, l = replicate n 0 ++ drop_while (fun d => d =? 0) l /\ trimmed (drop_while (fun d => d =? 0) l).
Proof.
  induction l as [|d l IH]; [by exists 0%nat|]. cbn [drop_while]. destruct (Z.eqb_spec d 0) as [->|Hn].
  - destruct IH as (n & E & Ht). exists (S n). cbn. by rewrite <- E.
  - exists 0%nat. split; [done|]. destruct d; done.
Qed.
End base.

(** ** The loops compute the number *)

Section convert.
Context (mult base : Z) (Hmult : 1 < mult) (Hbase : 1 < base <= 256).

(** The state of the outer loop: digits, of which those past the length are zero. *)
Definition conv (s : list Z * Z) : Prop :=
  Forall (digit base) (fst s) /\ 0 <= snd s <= Z.of_nat (length (fst s)) /\ vle base (drop (Z.to_nat (snd s)) (fst s)) = 0.
Lemma digits_loop_spec l carry i len : Forall (digit base) l -> 0 <= carry -> 0 <= i ->
  (i <= len -> vle base (drop (Z.to_nat (len - i)) l) = 0) -> (len <= i -> vle base l = 0) -> len <= i + Z.of_nat (length l) ->
  mult * vle base l + carry < base ^ Z.of_nat (length l) ->
  exists r j, digits_loop mult base l carry i len = (r, 0, j) /\ Forall (digit base) r /\ length r = length l /\
    i <= j <= i + Z.of_nat (length l) /\ vle base r = mult * vle base l + carry /\ vle base (drop (Z.to_nat (j - i)) r) = 0.
Proof.
  intros Hl. revert carry i. induction Hl as [|d l Hd Hl IH]; intros carry i Hc Hi Hz1 Hz2 Hlen Hfit.
  - cbn [vle length digits_loop] in *. assert (carry = 0) as -> by (cbn in Hfit; lia). exists [], i. rewrite Z.sub_diag. cbn. split_and!; try done; lia.
  - cbn [digits_loop]. destruct (negb (carry =? 0) || (i <? len)) eqn:Eg.
    + set (c := carry + mult * d). unfold digit in Hd. assert (0 <= c) by (unfold c; nia).
      unfold cdiv, cmod. rewrite Z.quot_div_nonneg, Z.rem_mod_nonneg by lia. pose proof (Z.div_mod c base ltac:(lia)) as Ec.
      pose proof (Z.mod_pos_bound c base ltac:(lia)) as Bc. pose proof (Z.div_pos c base ltac:(lia) ltac:(lia)) as Dc.
      cbn [vle length] in Hfit. rewrite Nat2Z.inj_succ, Z.pow_succ_r in Hfit by lia. pose proof (vle_bound base ltac:(lia) l Hl) as Bl.
      destruct (IH (c / base) (i + 1)) as (r & j & -> & Hr & Er & Hj & Ev & Ed); [lia | lia | | | | |].
      * intros Hle. specialize (Hz1 ltac:(lia)). replace (Z.to_nat (len - i)) with (S (Z.to_nat (len - (i + 1)))) in Hz1 by lia. done.
      * intros Hle. destruct (Z.le_gt_cases len i) as [Hz|Hz]; [specialize (Hz2 Hz); cbn [vle] in Hz2; unfold digit in Hd; nia|].
        specialize (Hz1 ltac:(lia)). replace (Z.to_nat (len - i)) with 1%nat in Hz1 by lia. done.
      * cbn [length] in Hlen. lia.
      * assert (base * (mult * vle base l + c / base) < base * base ^ Z.of_nat (length l)); [|nia]. unfold c in Ec at 1. nia.
      * exists (u8 (c mod base) :: r), j. rewrite u8_small by lia. cbn [length vle]. split_and!; try lia; try done.
        -- by constructor.
        -- by replace (Z.to_nat (j - i)) with (S (Z.to_nat (j - (i + 1)))) by lia.
    + apply orb_false_iff in Eg as [Ec%negb_false_iff%Z.eqb_eq Ei%Z.ltb_ge]. subst carry. specialize (Hz2 Ei).
      exists (d :: l), i. rewrite Z.sub_diag. split_and!; try done; try lia; by constructor.
Qed.

Lemma vbe_cons (b ch : Z) input : 1 < b -> vbe b (ch :: input) = vbe b input + b ^ Z.of_nat (length input) * ch.
Proof. intros Hb. unfold vbe. cbn [rev]. rewrite vle_app, length_rev by done. cbn [vle]. lia. Qed.
Lemma vbe_nonneg input : Forall (fun ch => 0 <= ch) input -> 0 <= vbe mult input.
Proof.
  induction 1 as [|ch input Hc Hi IH]; [done|]. rewrite vbe_cons by done. pose proof (Z.pow_pos_nonneg mult (Z.of_nat (length input))). nia.
Qed.
Lemma add_digits_spec s input : conv s -> Forall (fun ch => 0 <= ch) input ->
  vle base (fst s) * mult ^ Z.of_nat (length input) + vbe mult input < base ^ Z.of_nat (length (fst s)) ->
  exists s', add_digits mult base s input = Some s' /\ conv s' /\ length (fst s') = length (fst s) /\
    vle base (fst s') = vle base (fst s) * mult ^ Z.of_nat (length input) + vbe mult input.
Proof.
  intros Hs Hi. revert s Hs. induction Hi as [|ch input Hc Hi IH]; intros [l len] (Hd & Hlen & Hz) Hfit; cbn [fst snd] in *.
  - exists (l, len). change (vbe mult []) with 0. cbn [fst length add_digits]. split_and!; try done. rewrite Z.pow_0_r. lia.
  - rewrite vbe_cons in Hfit by done. cbn [length] in Hfit. rewrite Nat2Z.inj_succ, Z.pow_succ_r in Hfit by lia.
    pose proof (vbe_nonneg input Hi) as Hn. pose proof (Z.pow_pos_nonneg mult (Z.of_nat (length input)) ltac:(lia) ltac:(lia)) as Hp.
    pose proof (vle_bound base ltac:(lia) l Hd) as Hv.
    destruct (digits_loop_spec l ch 0 len Hd Hc ltac:(lia)) as (r & j & E & Hr & Er & Hj & Ev & Ez).
    + intros _. by rewrite Z.sub_0_r.
    + intros Hle. replace (Z.to_nat len) with 0%nat in Hz by lia. done.
    + lia.
    + nia.
    + cbn [add_digits]. unfold add_digit. rewrite E. cbn [negb Z.eqb mbind option_bind]. rewrite Z.sub_0_r in Ez.
      destruct (IH (r, j)) as (s' & E' & Hs' & El & Ev'); cbn [fst snd] in *.
      { unfold conv. cbn [fst snd]. split_and!; done || lia. }
      { rewrite Er, Ev. eapply Z.le_lt_trans; [|exact Hfit]. apply Z.eq_le_incl. ring. }
      exists s'. split_and!; [done | done | by rewrite El | rewrite Ev', Ev, vbe_cons by done; cbn [length]; rewrite Nat2Z.inj_succ, Z.pow_succ_r by lia; ring].
Qed.
Lemma significant_spec s : conv s -> Forall (digit base) (significant s) /\ trimmed (significant s) /\ vbe base (significant s) = vle base (fst s).
Proof.
  destruct s as [l len]. intros (Hd & Hlen & Hz). unfold significant. cbn [fst snd] in *.
  destruct (drop_zeroes (rev (take (Z.to_nat len) l))) as (n & E & Ht). set (r := drop_while _ _) in *. split_and!; [|done|].
  - assert (Forall (digit base) (rev (take (Z.to_nat len) l))) as Hf by (by apply Forall_rev, Forall_take). rewrite E in Hf. by apply Forall_app in Hf as [_ Hf].
  - rewrite <- (vbe_zeroes base n r), <- E. unfold vbe. rewrite rev_involutive. rewrite <- (take_drop (Z.to_nat len) l) at 2.
    rewrite vle_app, Hz. lia.
Qed.
(** From nothing: the digits of the number. *)
Lemma convert_spec n input : Forall (fun ch => 0 <= ch) input -> vbe mult input < base ^ Z.of_nat n ->
  exists s, add_digits mult base (replicate n 0, 0) input = Some s /\
    Forall (digit base) (significant s) /\ trimmed (significant s) /\ vbe base (significant s) = vbe mult input.
Proof.
  intros Hi Hfit. assert (conv (replicate n 0, 0)) as Hc.
  { split_and!; cbn [fst snd]; [apply Forall_replicate; unfold digit; lia | lia | lia |]. cbn. rewrite drop_0. apply vle_null. by apply Forall_replicate. }
  assert (vle base (replicate n 0) = 0) as Ez by (apply vle_null; by apply Forall_replicate).
  destruct (add_digits_spec _ input Hc Hi) as (s & E & Hs & _ & Ev); cbn [fst] in *; [rewrite length_replicate; lia|].
  exists s. destruct (significant_spec s Hs) as (? & ? & Ev2). split_and!; try done. rewrite Ev2, Ev, Ez. lia.
Qed.
End convert.

(** The sizes the code allocates are enough. *)
Lemma size_enough (a b p q : Z) (n : nat) : 1 < a -> 1 < b -> 0 < p -> 0 < q -> a ^ q <= b ^ p ->
  a ^ Z.of_nat n <= b ^ (Z.of_nat n * p / q + 1).
Proof.
  intros Ha Hb Hp Hq Hpow. set (s := Z.of_nat n * p / q + 1).
  assert (Z.of_nat n * p < q * s) as Hs by (unfold s; pose proof (Z.div_mod (Z.of_nat n * p) q); pose proof (Z.mod_pos_bound (Z.of_nat n * p) q); lia).
  assert (0 <= s) by (unfold s; pose proof (Z.div_pos (Z.of_nat n * p) q); lia).
  apply (Z.pow_le_mono_l_iff _ _ q); [apply Z.pow_nonneg; lia | apply Z.pow_nonneg; lia | done |].
  rewrite <- !Z.pow_mul_r by lia. rewrite (Z.mul_comm (Z.of_nat n) q), (Z.pow_mul_r a) by lia.
  transitivity ((b ^ p) ^ Z.of_nat n); [apply Z.pow_le_mono_l; pose proof (Z.pow_nonneg a q); lia|].
  rewrite <- Z.pow_mul_r by lia. apply Z.pow_le_mono_r; lia.
Qed.
Lemma encode_size n : 256 ^ Z.of_nat n <= 58 ^ (Z.of_nat n * 138 / 100 + 1).
Proof. apply (size_enough 256 58 138 100); first [lia | by vm_compute]. Qed.
Lemma decode_size n : 58 ^ Z.of_nat n <= 256 ^ (Z.of_nat n * 733 / 1000 + 1).
Proof. apply (size_enough 58 256 733 1000); first [lia | by vm_compute]. Qed.

(** ** Characters and digits *)

Definition char_of (d : Z) : Z := nth (Z.to_nat d) pszBase58 0.
Lemma strchr_spec l c d : strchr l c = Some d -> 0 <= d < Z.of_nat (length l) /\ nth (Z.to_nat d) l 0 = c.
Proof.
  revert d. induction l as [|x l IH]; intros d; cbn [strchr length]; [done|]. destruct (Z.eqb_spec x c) as [->|].
  - intros [= <-]. split; [lia | done].
  - destruct (strchr l c) as [e|]; cbn; [|done]. intros [= <-]. destruct (IH e eq_refl) as [B E]. split; [lia|].
    by replace (Z.to_nat (e + 1)) with (S (Z.to_nat e)) by lia.
Qed.
Lemma char_of_check : forallb (fun i => let c := char_of (Z.of_nat i) in bool_decide (strchr pszBase58 c = Some (Z.of_nat i)) && negb (isspace c) &&
  eqb (c =? 49) (Nat.eqb i 0) && negb (c =? 0)) (seq 0 58) = true.
Proof. by vm_compute. Qed.
Lemma char_of_spec d : digit 58 d ->
  strchr pszBase58 (char_of d) = Some d /\ isspace (char_of d) = false /\ (char_of d =? 49) = (d =? 0) /\ char_of d <> 0.
Proof.
  intros Hd. unfold digit in Hd. pose proof char_of_check as Hc. rewrite forallb_forall in Hc.
  specialize (Hc (Z.to_nat d)). rewrite Z2Nat.id in Hc by lia. specialize (Hc ltac:(apply in_seq; lia)). cbv zeta in Hc.
  apply andb_true_iff in Hc as [[[H1%bool_decide_eq_true H2%negb_true_iff]%andb_true_iff H3%eqb_prop]%andb_true_iff H4%negb_true_iff%Z.eqb_neq].
  split_and!; [done | done | | done]. rewrite H3. apply eq_true_iff_eq. rewrite Nat.eqb_eq, Z.eqb_eq. lia.
Qed.
Lemma strchr_digit c d : strchr pszBase58 c = Some d -> digit 58 d /\ char_of d = c.
Proof. intros Hs. apply strchr_spec in Hs as [B E]. by split. Qed.

(** The digits of a text in the alphabet, followed by nothing or a space. *)
Lemma base58_digits_chars ds tail : Forall (digit 58) ds -> (tail = [] \/ exists c t, tail = c :: t /\ isspace c = true) ->
  base58_digits (map char_of ds ++ tail) = (ds, true).
Proof.
  intros Hd Ht. induction Hd as [|d ds Hd Hds IH]; cbn [map app base58_digits].
  - destruct Ht as [-> | (c & t & -> & Hc)]; cbn [base58_digits]; [done | by rewrite Hc].
  - destruct (char_of_spec d Hd) as (-> & -> & _). by rewrite IH.
Qed.
Lemma base58_digits_read psz ds ok : base58_digits psz = (ds, ok) -> Forall (digit 58) ds /\
  psz = map char_of ds ++ drop (length ds) psz /\ (length ds <= length psz)%nat /\
  (ok = true -> drop (length ds) psz = [] \/ exists c t, drop (length ds) psz = c :: t /\ isspace c = true).
Proof.
  revert ds ok. induction psz as [|c psz IH]; intros ds ok; cbn [base58_digits].
  - intros [= <- <-]. split_and!; auto.
  - destruct (isspace c) eqn:Ec; [intros [= <- <-]; split_and!; eauto; cbn; lia|].
    destruct (strchr pszBase58 c) as [d|] eqn:Ed; [|intros [= <- <-]; split_and!; try done; cbn; lia].
    destruct (base58_digits psz) as [r ok'] eqn:Er. intros [= <- <-]. destruct (IH r ok' eq_refl) as (H1 & H2 & H3 & H4).
    destruct (strchr_digit c d Ed) as [Hd <-]. cbn [length map app drop]. split_and!; [by constructor | by rewrite <- H2 | lia | done].
Qed.

Lemma leading_app c n l : (match l with x :: _ => x <> c | [] => True end) -> leading c (replicate n c ++ l) = n.
Proof.
  intros Hl. unfold leading. induction n as [|n IH]; cbn [replicate app take_while].
  - destruct l as [|x l]; [done|]. cbn [take_while]. destruct (Z.eqb_spec x c); done.
  - rewrite Z.eqb_refl. cbn [length]. by rewrite IH.
Qed.
Lemma leading_split c l : exists r, l = replicate (leading c l) c ++ r /\ (match r with x :: _ => x <> c | [] => True end) /\ drop (leading c l) l = r.
Proof.
  unfold leading. induction l as [|x l IH]; cbn [take_while]; [by exists []|]. destruct (Z.eqb_spec x c) as [->|Hn].
  - destruct IH as (r & E & Hr & Ed). exists r. cbn [length replicate app drop]. by rewrite <- E.
  - by exists (x :: l).
Qed.
Lemma spaces_dropped sp l : Forall (fun c => isspace c = true) sp -> (match l with x :: _ => isspace x = false | [] => True end) -> drop_while isspace (sp ++ l) = l.
Proof.
  intros Hs Hl. induction Hs as [|c sp Hc Hs IH]; cbn [app drop_while]; [|by rewrite Hc].
  destruct l as [|x l]; [done|]. cbn [drop_while]. by rewrite Hl.
Qed.

(** ** Both directions *)

Lemma digits_nonneg b ds : Forall (digit b) ds -> Forall (fun d => 0 <= d) ds.
Proof. intros Hd. eapply Forall_impl; [|exact Hd]. unfold digit. lia. Qed.
Lemma trimmed_length b ds n : 1 < b -> Forall (digit b) ds -> trimmed ds -> vbe b ds < b ^ n -> 0 <= n -> Z.of_nat (length ds) <= n.
Proof.
  intros Hb Hd Ht Hv Hn. destruct ds as [|d ds]; [cbn; lia|]. pose proof (trimmed_lower b Hb _ Hd Ht ltac:(done)) as Hl.
  apply Z.nlt_ge. intros Hlt. pose proof (Z.pow_le_mono_r b n (Z.of_nat (length (d :: ds)) - 1) ltac:(lia) ltac:(lia)). lia.
Qed.
Lemma Encode_spec z r : Forall is_byte r -> trimmed r -> Z.of_nat (length r) < 2 ^ 30 ->
  exists ds, EncodeBase58 (replicate z 0 ++ r) = Some (replicate z 49 ++ map char_of ds) /\
    Forall (digit 58) ds /\ trimmed ds /\ vbe 58 ds = vbe 256 r /\ Z.of_nat (length ds) <= Z.of_nat (length r) * 138 / 100 + 1.
Proof.
  intros Hr Ht Hl. unfold EncodeBase58. rewrite leading_app by (by destruct r as [|[]]). rewrite drop_app_length' by (by rewrite length_replicate).
  assert (0 <= Z.of_nat (length r) * 138 / 100 < 2 ^ 31 - 1) as Hs by (split; [apply Z.div_pos; lia | apply Z.div_lt_upper_bound; lia]).
  rewrite i32_small by lia. pose proof (encode_size (length r)) as He. pose proof (vbe_bound 256 ltac:(lia) r Hr) as Hv.
  destruct (convert_spec 256 58 ltac:(lia) ltac:(lia) (Z.to_nat (Z.of_nat (length r) * 138 / 100 + 1)) r (digits_nonneg 256 r Hr)) as (s & -> & Hd & Htr & Ev); [rewrite Z2Nat.id by lia; lia|].
  cbn [mbind option_bind]. exists (significant s). split_and!; try done. apply (trimmed_length 58); try done; lia.
Qed.
Lemma Decode_spec sp1 sp2 z ds : Forall (fun c => isspace c = true) sp1 -> Forall (fun c => isspace c = true) sp2 ->
  Forall (digit 58) ds -> trimmed ds -> Z.of_nat (length ds + length sp2) < 2 ^ 31 ->
  exists r, DecodeBase58 (sp1 ++ replicate z 49 ++ map char_of ds ++ sp2) = Some (Some (replicate z 0 ++ r)) /\
    Forall is_byte r /\ trimmed r /\ vbe 256 r = vbe 58 ds /\ Z.of_nat (length r) <= Z.of_nat (length ds + length sp2) * 733 / 1000 + 1.
Proof.
  intros Hs1 Hs2 Hd Ht Hl.
  assert (match map char_of ds ++ sp2 with x :: _ => x <> 49 | [] => True end) as Hx.
  { destruct ds as [|d ds]; cbn [map app].
    - destruct Hs2 as [|c sp Hc _]; [done|]. by intros ->.
    - inversion_clear Hd as [|? ? Hd1 _]. destruct (char_of_spec d Hd1) as (_ & _ & E & _). intros E2. rewrite E2 in E. cbn in E. symmetry in E. apply Z.eqb_eq in E. subst d. exact Ht. }
  assert (match replicate z 49 ++ map char_of ds with x :: _ => isspace x = false | [] => True end) as Hnd.
  { destruct z as [|z]; [|done]. destruct ds as [|d ds]; cbn [replicate app map]; [done|]. inversion_clear Hd as [|? ? Hd1 _]. by destruct (char_of_spec d Hd1) as (_ & ? & _). }
  unfold DecodeBase58.
  assert (exists sp3, Forall (fun c => isspace c = true) sp3 /\ (length sp3 <= length sp2)%nat /\
    drop_while isspace (sp1 ++ replicate z 49 ++ map char_of ds ++ sp2) = replicate z 49 ++ map char_of ds ++ sp3) as (sp3 & Hs3 & Hl3 & ->).
  { destruct (replicate z 49 ++ map char_of ds) as [|x l] eqn:E.
    - apply app_eq_nil in E as [E1 E2]. rewrite E1, E2. exists []. split; [done|]. split; [cbn; lia|]. cbn [app].
      rewrite <- (app_nil_r (sp1 ++ sp2)). apply spaces_dropped; [by apply Forall_app | done].
    - exists sp2. split; [done|]. split; [done|]. rewrite !(assoc_L (++) (replicate z 49)), E. by apply spaces_dropped. }
  assert (match map char_of ds ++ sp3 with x :: _ => x <> 49 | [] => True end) as Hx3.
  { destruct ds as [|d ds]; cbn [map app] in *; [|done]. destruct Hs3 as [|c sp Hc _]; [done|]. by intros ->. }
  rewrite leading_app by done. rewrite drop_app_length' by (by rewrite length_replicate).
  rewrite base58_digits_chars; [|done|destruct Hs3 as [|c sp Hc _]; eauto].
  rewrite length_app, length_map. set (n := (length ds + length sp3)%nat). assert (n <= length ds + length sp2)%nat by lia.
  assert (0 <= Z.of_nat n * 733 / 1000 < 2 ^ 31 - 1) as Hs by (split; [apply Z.div_pos; lia | apply Z.div_lt_upper_bound; lia]).
  rewrite i32_small by lia. pose proof (decode_size n) as He. pose proof (vbe_bound 58 ltac:(lia) ds Hd) as Hv.
  pose proof (Z.pow_le_mono_r 58 (Z.of_nat (length ds)) (Z.of_nat n) ltac:(lia) ltac:(lia)) as Hp.
  destruct (convert_spec 58 256 ltac:(lia) ltac:(lia) (Z.to_nat (Z.of_nat n * 733 / 1000 + 1)) ds (digits_nonneg 58 ds Hd)) as (s & -> & Hr & Htr & Ev); [rewrite Z2Nat.id by lia; lia|].
  cbn [mbind option_bind negb]. rewrite drop_app_length' by (by rewrite length_map).
  rewrite <- (app_nil_r sp3), (spaces_dropped sp3 []) by done. exists (significant s). split_and!; try done.
  pose proof (Z.div_le_mono (Z.of_nat n * 733) (Z.of_nat (length ds + length sp2) * 733) 1000 ltac:(lia) ltac:(lia)).
  assert (Z.of_nat (length (significant s)) <= Z.of_nat n * 733 / 1000 + 1); [|lia]. apply (trimmed_length 256); try done; lia.
Qed.

Lemma digest_bytes m : Forall is_byte (digest SHA256 m).
Proof.
  unfold digest. change (output SHA256) with sha256.output. set (st := absorb _ _ _). unfold sha256.output. destruct st as [[[[[[[s0 s1] s2] s3] s4] s5] s6] s7].
  apply Forall_concat, Forall_forall. intros x Hx. apply in_map_iff in Hx as (y & <- & _). apply Forall_rev, le_bytes_range.
Qed.
Lemma checksum_ok v : Z.of_nat (length v) < 2 ^ 63 -> Forall is_byte (take 4 (Hash [v])) /\ length (take 4 (Hash [v])) = 4%nat.
Proof.
  intros Hv. assert (Forall (fun d => Z.of_nat (length d) < 2 ^ 63) [v]) as Hf by (by constructor). split.
  - apply Forall_take. rewrite Hash_spec by done. apply digest_bytes.
  - by rewrite length_take, Hash_length.
Qed.
(** A byte string with its leading zeroes apart. *)
Lemma zeroes_apart v : Forall is_byte v -> exists z r, v = replicate z 0 ++ r /\ Forall is_byte r /\ trimmed r.
Proof.
  intros Hv. destruct (leading_split 0 v) as (r & E & Ht & _). exists (leading 0 v), r. split; [done|]. split; [|by destruct r as [|[]]].
  rewrite E in Hv. by apply Forall_app in Hv as [_ Hv].
Qed.
Lemma not_space_drop l : Forall (fun c => isspace c = false) l -> drop_while isspace l = l.
Proof. destruct 1 as [|c l Hc _]; cbn [drop_while]; [done | by rewrite Hc]. Qed.
Lemma char_not_space d : digit 58 d -> isspace (char_of d) = false.
Proof. intros Hd. by destruct (char_of_spec d Hd) as (_ & ? & _). Qed.

Lemma Encode_Decode v sp1 sp2 : Forall is_byte v -> Z.of_nat (length v) < 2 ^ 29 -> Forall (fun c => isspace c = true) sp1 ->
  Forall (fun c => isspace c = true) sp2 -> Z.of_nat (length sp2) < 2 ^ 29 ->
  exists s, EncodeBase58 v = Some s /\ DecodeBase58 (sp1 ++ s ++ sp2) = Some (Some v).
Proof.
  intros Hv Hl Hs1 Hs2 Hl2. destruct (zeroes_apart v Hv) as (z & r & -> & Hr & Ht). rewrite length_app in Hl.
  destruct (Encode_spec z r Hr Ht ltac:(lia)) as (ds & -> & Hd & Htd & Ev & Hn). eexists. split; [done|]. rewrite <- (assoc_L (++)).
  assert (Z.of_nat (length r) * 138 / 100 < 2 ^ 30) by (apply Z.div_lt_upper_bound; lia).
  destruct (Decode_spec sp1 sp2 z ds Hs1 Hs2 Hd Htd ltac:(lia)) as (r' & -> & Hr' & Ht' & Ev' & _). do 3 f_equal.
  apply (trimmed_inj 256); try done. congruence.
Qed.
(** Any text, without an assertion; one without spaces that is accepted is the one that is
    printed. *)
Lemma Decode_any psz : Forall is_byte psz -> Z.of_nat (length psz) < 2 ^ 29 -> exists r, DecodeBase58 psz = Some r /\
  forall v, r = Some v -> Forall is_byte v /\ Z.of_nat (length v) <= Z.of_nat (length psz) + 1 /\
    (Forall (fun c => isspace c = false) psz -> EncodeBase58 v = Some psz).
Proof.
  intros Hb Hl. unfold DecodeBase58. set (t := drop_while isspace psz).
  assert (length t <= length psz)%nat as Ht by (unfold t; clear; induction psz as [|c l IH]; cbn [drop_while]; [done|]; case_match; cbn [length]; lia).
  destruct (leading_split 49 t) as (u & Eu & Hu & Ed). rewrite Ed. set (z := leading 49 t) in *.
  destruct (base58_digits u) as [ds ok] eqn:Eds. destruct (base58_digits_read u ds ok Eds) as (Hds & Eu2 & Hlen & Htail).
  assert (z + length u = length t)%nat as Ez by (rewrite Eu at 1; by rewrite length_app, length_replicate).
  assert (0 <= Z.of_nat (length u) * 733 / 1000 < 2 ^ 31 - 1) as Hs by (split; [apply Z.div_pos; lia | apply Z.div_lt_upper_bound; lia]).
  rewrite i32_small by lia. pose proof (decode_size (length u)) as He. pose proof (vbe_bound 58 ltac:(lia) ds Hds) as Hv.
  pose proof (Z.pow_le_mono_r 58 (Z.of_nat (length ds)) (Z.of_nat (length u)) ltac:(lia) ltac:(lia)) as Hp.
  destruct (convert_spec 58 256 ltac:(lia) ltac:(lia) (Z.to_nat (Z.of_nat (length u) * 733 / 1000 + 1)) ds (digits_nonneg 58 ds Hds)) as (s & -> & Hr & Htr & Ev); [rewrite Z2Nat.id by lia; lia|].
  cbn [mbind option_bind]. destruct ok; cbn [negb]; [|by exists None]. destruct (drop_while isspace (drop (length ds) u)) as [|x l] eqn:Ex; [|by exists None].
  eexists; split; [done|]. intros v [= <-].
  assert (Z.of_nat (length (significant s)) <= Z.of_nat (length u) + 1) as Hsl.
  { transitivity (Z.of_nat (length u) * 733 / 1000 + 1); [apply (trimmed_length 256); try done; lia|].
    assert (Z.of_nat (length u) * 733 / 1000 <= Z.of_nat (length u)) by (apply Z.div_le_upper_bound; lia). lia. }
  split; [|split].
  - apply Forall_app. split; [apply Forall_replicate; done | exact Hr].
  - rewrite length_app, length_replicate. lia.
  - intros Hns. assert (t = psz) as Et by (by apply not_space_drop). assert (drop (length ds) u = []) as Edrop.
    { destruct (Htail eq_refl) as [|(c & l & E & Hc)]; [done|]. exfalso. rewrite Et in Eu. rewrite Eu, Eu2, E in Hns.
      apply Forall_app in Hns as [_ Hns]. apply Forall_app in Hns as [_ Hns]. inversion_clear Hns. congruence. }
    rewrite Edrop, app_nil_r in Eu2.
    assert (trimmed ds) as Htds.
    { destruct ds as [|d ds']; [done|]. rewrite Eu2 in Hu. cbn [map] in Hu. inversion_clear Hds as [|? ? Hd1 _].
      destruct (char_of_spec d Hd1) as (_ & _ & E & _). by destruct d. }
    destruct (Encode_spec z (significant s) Hr Htr ltac:(lia)) as (ds' & -> & Hd' & Ht' & Ev' & _). f_equal. rewrite <- Et, Eu, Eu2. do 2 f_equal.
    apply (trimmed_inj 58); try done. congruence.
Qed.

(** With the checksum. *)
Lemma Check_roundtrip v : Forall is_byte v -> Z.of_nat (length v) < 2 ^ 28 -> exists s, EncodeBase58Check v = Some s /\ DecodeBase58Check s = Some (Some v).
Proof.
  intros Hv Hl. unfold EncodeBase58Check, DecodeBase58Check. destruct (checksum_ok v ltac:(lia)) as [Hcb Hcl].
  destruct (Encode_Decode (v ++ take 4 (Hash [v])) [] []) as (s & E & Ed); [by apply Forall_app | rewrite length_app; lia | done.. |].
  exists s. split; [done|]. cbn [app] in Ed. rewrite app_nil_r in Ed. rewrite Ed. cbn [mbind option_bind]. rewrite length_app, Hcl.
  destruct (Nat.ltb_spec (length v + 4) 4); [lia|]. replace (length v + 4 - 4)%nat with (length v) by lia.
  rewrite take_app_length, drop_app_length. by rewrite bool_decide_eq_true_2.
Qed.
Lemma Check_any s : Forall is_byte s -> Z.of_nat (length s) < 2 ^ 28 -> exists r, DecodeBase58Check s = Some r /\
  forall v, r = Some v -> Forall is_byte v /\ (Forall (fun c => isspace c = false) s -> EncodeBase58Check v = Some s).
Proof.
  intros Hs Hl. unfold DecodeBase58Check, EncodeBase58Check. destruct (Decode_any s Hs ltac:(lia)) as (r & -> & Hr).
  cbn [mbind option_bind]. destruct r as [vch|]; [|by exists None]. destruct (Nat.ltb_spec (length vch) 4); [by exists None|].
  destruct (Hr vch eq_refl) as (Hb & _ & He). case_bool_decide as Eh; [|by exists None]. eexists. split; [done|]. intros v [= <-]. split; [by apply Forall_take|].
  intros Hns. rewrite <- (He Hns). by rewrite Eh, take_drop.
Qed.
(** No printed character is zero. *)
Lemma Check_chars v s : Forall is_byte v -> Z.of_nat (length v) < 2 ^ 29 -> EncodeBase58Check v = Some s -> Forall (fun c => c <> 0) s.
Proof.
  intros Hv Hl. unfold EncodeBase58Check. destruct (checksum_ok v ltac:(lia)) as [Hcb Hcl].
  destruct (zeroes_apart (v ++ take 4 (Hash [v])) ltac:(by apply Forall_app)) as (z & r & E & Hr & Ht). rewrite E.
  assert (z + length r = length v + 4)%nat by (apply (f_equal length) in E; rewrite !length_app, length_replicate, Hcl in E; lia).
  destruct (Encode_spec z r Hr Ht ltac:(lia)) as (ds & -> & Hd & _). intros [= <-]. apply Forall_app. split; [by apply Forall_replicate|].
  apply Forall_map. eapply Forall_impl; [|exact Hd]. intros d Hdd. by destruct (char_of_spec d Hdd) as (_ & _ & _ & ?).
Qed.
(** The first character and the length of what is printed bound the bytes. *)
Lemma Check_first b v s d t : Forall is_byte (b :: v) -> b <> 0 -> Z.of_nat (length (b :: v)) < 2 ^ 28 -> EncodeBase58Check (b :: v) = Some s ->
  digit 58 d -> s = char_of d :: t -> let n := Z.of_nat (length t) in let k := Z.of_nat (length v + 4) in
  n <= (k + 1) * 138 / 100 /\ d * 58 ^ n < (b + 1) * 256 ^ k /\ b * 256 ^ k < (d + 1) * 58 ^ n.
Proof.
  intros Hv Hb Hl. unfold EncodeBase58Check. destruct (checksum_ok (b :: v) ltac:(lia)) as [Hcb Hcl]. cbn [app]. set (w := v ++ take 4 (Hash [b :: v])).
  assert (length w = length v + 4)%nat as El by (unfold w; rewrite length_app, Hcl; done). inversion_clear Hv as [|? ? Hb' Hv'].
  assert (Forall is_byte w) as Hw by (by apply Forall_app).
  destruct (Encode_spec 0 (b :: w)) as (ds & E & Hd & Ht & Ev & En); [by constructor | cbn; by destruct b | cbn [length] in *; lia|]. cbn [replicate app] in E. rewrite E. clear E.
  intros [= <-] Hdd Es. destruct ds as [|d' ds]; [done|]. cbn [map] in Es. inversion_clear Hd as [|? ? Hd' Hds]. injection Es as Ec <-.
  assert (d' = d) as ->.
  { destruct (char_of_spec d Hdd) as (E1 & _). destruct (char_of_spec d' Hd') as (E2 & _). congruence. }
  cbv zeta. rewrite !vbe_cons, El in Ev by lia. rewrite length_map. cbn [length] in En. rewrite El in En.
  pose proof (vbe_bound 58 ltac:(lia) ds Hds). pose proof (vbe_bound 256 ltac:(lia) w Hw) as Bw. rewrite El in Bw. split; [lia|]. split; nia.
Qed.

(** Base 58 is a bijection between byte strings and texts over its alphabet.  The buffers
    that are allocated are large enough, so no assertion can fail, whatever is decoded; the text
    of a byte string, with spaces before and after, is decoded to it; and a text without spaces
    that is accepted is the one its bytes are printed as.  With the checksum, what is encoded is
    decoded, and what is accepted ends in the first four bytes of the hash of what is returned. *)
Theorem base58_roundtrip :
  (forall v sp1 sp2, Forall is_byte v -> Z.of_nat (length v) < 2 ^ 29 -> Forall (fun c => isspace c = true) sp1 ->
    Forall (fun c => isspace c = true) sp2 -> Z.of_nat (length sp2) < 2 ^ 29 ->
    exists s, EncodeBase58 v = Some s /\ DecodeBase58 (sp1 ++ s ++ sp2) = Some (Some v)) /\
  (forall s, Forall is_byte s -> Z.of_nat (length s) < 2 ^ 29 -> exists r, DecodeBase58 s = Some r /\
    forall v, r = Some v -> Forall (fun c => isspace c = false) s -> EncodeBase58 v = Some s) /\
  (forall v, Forall is_byte v -> Z.of_nat (length v) < 2 ^ 28 -> exists s, EncodeBase58Check v = Some s /\ DecodeBase58Check s = Some (Some v)) /\
  (forall s v, Forall is_byte s -> Z.of_nat (length s) < 2 ^ 28 -> DecodeBase58Check s = Some (Some v) ->
    Forall (fun c => isspace c = false) s -> EncodeBase58Check v = Some s).
Proof.
  split; [apply Encode_Decode|]. split; [|split; [apply Check_roundtrip|]].
  - intros s Hs Hl. destruct (Decode_any s Hs Hl) as (r & E & Hr). exists r. split; [done|]. intros v Hv. by apply Hr.
  - intros s v Hs Hl E Hn. destruct (Check_any s Hs Hl) as (r & E' & Hr). rewrite E in E'. injection E' as <-. by apply (Hr v eq_refl).
Qed.
Lemma base58_roundtrip_witness : exists s, EncodeBase58 [0; 0; 1; 2] = Some s /\ DecodeBase58 ([32] ++ s ++ [9]) = Some (Some [0; 0; 1; 2]).
Proof. apply (proj1 base58_roundtrip [0; 0; 1; 2] [32] [9]); [by repeat constructor | reflexivity | by repeat constructor | by repeat constructor | reflexivity]. Defined.
