(* ===== verification/Bech32.v ===== *)
(** Bech32 ([src/src/bech32.cpp]) and the regrouping of bits ([ConvertBits] in
    [src/src/utilstrencodings.h]): the checksum as a linear code, both directions of the text. *)
From S2P Require Import Prelude Base58.

Definition CHARSET : list Z := str "qpzry9x8gf2tvdw0s3jn54khce6mua7l".
Definition CHARSET_REV : list Z := [
    -1; -1; -1; -1; -1; -1; -1; -1; -1; -1; -1; -1; -1; -1; -1; -1;
    -1; -1; -1; -1; -1; -1; -1; -1; -1; -1; -1; -1; -1; -1; -1; -1;
    -1; -1; -1; -1; -1; -1; -1; -1; -1; -1; -1; -1; -1; -1; -1; -1;
    15; -1; 10; 17; 21; 20; 26; 30;  7;  5; -1; -1; -1; -1; -1; -1;
    -1; 29; -1; 24; 13; 25;  9;  8; 23; -1; 18; 22; 31; 27; 19; -1;
     1;  0;  3; 16; 11; 28; 12; 14;  6;  4;  2; -1; -1; -1; -1; -1;
    -1; 29; -1; 24; 13; 25;  9;  8; 23; -1; 18; 22; 31; 27; 19; -1;
     1;  0;  3; 16; 11; 28; 12; 14;  6;  4;  2; -1; -1; -1; -1; -1].

(** ** The checksum *)

Definition polymod_step (c v_i : Z) : Z :=
  let c0 := u8 (Z.shiftr c 25) in
  let c := Z.lxor (u32 (Z.shiftl (Z.land c 0x1ffffff) 5)) v_i in
  let c := if negb (Z.land c0 1 =? 0) then Z.lxor c 0x3b6a57b2 else c in
  let c := if negb (Z.land c0 2 =? 0) then Z.lxor c 0x26508e6d else c in
  let c := if negb (Z.land c0 4 =? 0) then Z.lxor c 0x1ea119fa else c in
  let c := if negb (Z.land c0 8 =? 0) then Z.lxor c 0x3d4233dd else c in
  if negb (Z.land c0 16 =? 0) then Z.lxor c 0x2a1462b3 else c.
Definition PolyMod (v : list Z) : Z := foldl polymod_step 1 v.

Definition LowerCase (c : Z) : Z := if (c >=? 65) && (c <=? 90) then u8 (c - 65 + 97) else c.
Definition ExpandHRP (hrp : list Z) : list Z := map (fun c => Z.shiftr c 5) hrp ++ [0] ++ map (fun c => Z.land c 0x1f) hrp.
Definition VerifyChecksum (hrp values : list Z) : bool := PolyMod (ExpandHRP hrp ++ values) =? 1.
Definition CreateChecksum (hrp values : list Z) : list Z :=
  let enc := (ExpandHRP hrp ++ values) ++ replicate 6 0 in
  let md := Z.lxor (PolyMod enc) 1 in
  map (fun i => Z.land (Z.shiftr md (5 * (5 - Z.of_nat i))) 31) (seq 0 6).

(** ** The text *)

Definition bech32_Encode (hrp values : list Z) : list Z :=
  let combined := values ++ CreateChecksum hrp values in
  (hrp ++ [49]) ++ map (fun c => nth (Z.to_nat c) CHARSET 0) combined.

Definition has_range (a b : Z) (s : list Z) : bool := existsb (fun c => (c >=? a) && (c <=? b)) s.
(** [str.rfind(c)] *)
Fixpoint rfind (c : Z) (s : list Z) : option nat :=
  match s with
  | [] => None
  | x :: s => match rfind c s with Some i => Some (S i) | None => if x =? c then Some O else None end
  end.
Fixpoint rev_loop (s : list Z) : option (list Z) :=
  match s with
  | [] => Some []
  | c :: s =>
      let r := if (c <? 33) || (c >? 126) then -1 else nth (Z.to_nat c) CHARSET_REV (-1) in
      if r =? -1 then None else t ← rev_loop s; Some (u8 r :: t)
  end.
(** A text that is refused gives an empty pair. *)
Definition bech32_Decode (s : list Z) : list Z * list Z :=
  if existsb (fun c => (c <? 33) || (c >? 126)) s then ([], []) else
  let lower := has_range 97 122 s in
  let upper := has_range 65 90 s in
  if lower && upper then ([], []) else
  match rfind 49 s with
  | None => ([], [])
  | Some pos =>
      if (90 <? length s)%nat || (pos =? 0)%nat || (length s <? pos + 7)%nat then ([], []) else
      match rev_loop (drop (pos + 1) s) with
      | None => ([], [])
      | Some values =>
          let hrp := map LowerCase (take pos s) in
          if negb (VerifyChecksum hrp values) then ([], []) else (hrp, take (length values - 6) values)
      end
  end.

(** ** [ConvertBits] *)

Section convert_bits.
Context (frombits tobits : Z) (pad : bool).
Definition maxv : Z := Z.shiftl 1 tobits - 1.
Definition max_acc : Z := Z.shiftl 1 (frombits + tobits - 1) - 1.
(** [while (bits >= tobits)]; at most [bits] rounds. *)
Fixpoint emit_loop (fuel : nat) (acc bits : Z) (out : list Z) : Z * list Z :=
  match fuel with
  | O => (bits, out)
  | S fuel' =>
      if bits >=? tobits then
        let bits := bits - tobits in
        emit_loop fuel' acc bits (out ++ [u8 (Z.land (Z.shiftr acc bits) maxv)])
      else (bits, out)
  end.
Fixpoint convert_loop (l : list Z) (acc bits : Z) (out : list Z) : Z * Z * list Z :=
  match l with
  | [] => (acc, bits, out)
  | x :: l =>
      let acc := Z.land (Z.lor (u64 (Z.shiftl acc frombits)) x) max_acc in
      let bits := bits + frombits in
      let '(bits, out) := emit_loop (Z.to_nat bits) acc bits out in
      convert_loop l acc bits out
  end.
(** What is appended, and the result. *)
Definition ConvertBits (l : list Z) : list Z * bool :=
  let '(acc, bits, out) := convert_loop l 0 0 [] in
  let rest := Z.land (u64 (Z.shiftl acc (tobits - bits))) maxv in
  if pad then ((if negb (bits =? 0) then out ++ [u8 rest] else out), true)
  else if (bits >=? frombits) || negb (rest =? 0) then (out, false) else (out, true).
End convert_bits.

(** ** The step is linear *)

(** What the five conditions add. *)
Definition gen (c0 : Z) : Z :=
  Z.lxor (Z.lxor (Z.lxor (Z.lxor (if Z.testbit c0 0 then 0x3b6a57b2 else 0) (if Z.testbit c0 1 then 0x26508e6d else 0))
    (if Z.testbit c0 2 then 0x1ea119fa else 0)) (if Z.testbit c0 3 then 0x3d4233dd else 0)) (if Z.testbit c0 4 then 0x2a1462b3 else 0).
Definition word30 (c : Z) : Prop := 0 <= c < 2 ^ 30.
Definition symbol (v : Z) : Prop := 0 <= v < 32.

Lemma lxor_if (b : bool) x g : (if b then Z.lxor x g else x) = Z.lxor x (if b then g else 0).
Proof. destruct b; [done | by rewrite Z.lxor_0_r]. Qed.
Lemma step_gen c v : word30 c -> polymod_step c v = Z.lxor (Z.lxor (Z.shiftl (Z.land c 0x1ffffff) 5) v) (gen (Z.shiftr c 25)).
Proof.
  intros Hc. unfold polymod_step, gen, word30 in *.
  assert (Z.shiftr c 25 < 32) as Hs by (rewrite Z.shiftr_div_pow2 by lia; apply Z.div_lt_upper_bound; lia).
  assert (0 <= Z.shiftr c 25) by (apply Z.shiftr_nonneg; lia). rewrite u8_small by lia.
  set (c0 := Z.shiftr c 25) in *.
  assert (Z.land c 0x1ffffff = c mod 2 ^ 25) as El by (apply (land_ones_mod c 25); lia). rewrite El.
  pose proof (Z.mod_pos_bound c (2 ^ 25) ltac:(lia)). rewrite u32_small by (rewrite Z.shiftl_mul_pow2 by lia; lia).
  assert (forall n, 0 <= n -> negb (Z.land c0 (2 ^ n) =? 0) = Z.testbit c0 n) as Hb by (intros n Hn; rewrite land_pow2_eqb by done; apply negb_involutive).
  pose proof (Hb 0 ltac:(lia)) as B0. pose proof (Hb 1 ltac:(lia)) as B1. pose proof (Hb 2 ltac:(lia)) as B2. pose proof (Hb 3 ltac:(lia)) as B3.
  pose proof (Hb 4 ltac:(lia)) as B4. change (2 ^ 0) with 1 in B0. change (2 ^ 1) with 2 in B1. change (2 ^ 2) with 4 in B2. change (2 ^ 3) with 8 in B3.
  change (2 ^ 4) with 16 in B4. rewrite B0, B1, B2, B3, B4.
  rewrite (lxor_if (Z.testbit c0 0)), (lxor_if (Z.testbit c0 1)), (lxor_if (Z.testbit c0 2)), (lxor_if (Z.testbit c0 3)), (lxor_if (Z.testbit c0 4)).
  unfold gen. generalize (if Z.testbit c0 0 then 0x3b6a57b2 else 0) (if Z.testbit c0 1 then 0x26508e6d else 0) (if Z.testbit c0 2 then 0x1ea119fa else 0)
    (if Z.testbit c0 3 then 0x3d4233dd else 0) (if Z.testbit c0 4 then 0x2a1462b3 else 0) (Z.shiftl (c mod 2 ^ 25) 5).
  clear. intros g0 g1 g2 g3 g4 t. by rewrite !Z.lxor_assoc.
Qed.
Lemma if_xorb (a b : bool) g : (if xorb a b then g else 0) = Z.lxor (if a then g else 0) (if b then g else 0).
Proof. destruct a, b; cbn [xorb]; by rewrite ?Z.lxor_nilpotent, ?Z.lxor_0_r, ?Z.lxor_0_l. Qed.
Lemma lxor_4 a b c d : Z.lxor (Z.lxor a b) (Z.lxor c d) = Z.lxor (Z.lxor a c) (Z.lxor b d).
Proof. rewrite !Z.lxor_assoc. f_equal. rewrite <- !Z.lxor_assoc. f_equal. apply Z.lxor_comm. Qed.
Lemma gen_lxor a b : gen (Z.lxor a b) = Z.lxor (gen a) (gen b).
Proof.
  assert (forall p0 q0 p1 q1 p2 q2 p3 q3 p4 q4, Z.lxor (Z.lxor (Z.lxor (Z.lxor (Z.lxor p0 q0) (Z.lxor p1 q1)) (Z.lxor p2 q2)) (Z.lxor p3 q3)) (Z.lxor p4 q4) =
    Z.lxor (Z.lxor (Z.lxor (Z.lxor (Z.lxor p0 p1) p2) p3) p4) (Z.lxor (Z.lxor (Z.lxor (Z.lxor q0 q1) q2) q3) q4)) as E.
  { intros. by rewrite (lxor_4 p0 q0), (lxor_4 (Z.lxor p0 p1)), (lxor_4 (Z.lxor (Z.lxor p0 p1) p2)), (lxor_4 (Z.lxor (Z.lxor (Z.lxor p0 p1) p2) p3)). }
  unfold gen. rewrite <- E, !Z.lxor_spec, !if_xorb. reflexivity.
Qed.
Lemma land_lxor a b m : Z.land (Z.lxor a b) m = Z.lxor (Z.land a m) (Z.land b m).
Proof. apply Z.bits_inj'. intros n _. rewrite !Z.land_spec, !Z.lxor_spec, !Z.land_spec. by destruct (Z.testbit a n), (Z.testbit b n), (Z.testbit m n). Qed.
(** Numbers of so many bits are closed under [xor]. *)
Lemma bits_lxor n a b : 0 <= n -> 0 <= a < 2 ^ n -> 0 <= b < 2 ^ n -> 0 <= Z.lxor a b < 2 ^ n.
Proof.
  intros Hn Ha Hb. assert (0 <= Z.lxor a b) by (apply Z.lxor_nonneg; lia). split; [done|].
  rewrite <- (Z.mod_small a (2 ^ n)), <- (Z.mod_small b (2 ^ n)) by lia. rewrite <- !Z.land_ones, <- land_lxor, Z.land_ones by lia. apply Z.mod_pos_bound. lia.
Qed.
Lemma word30_lxor a b : word30 a -> word30 b -> word30 (Z.lxor a b).
Proof. by apply bits_lxor. Qed.
Lemma gen_word30 c0 : word30 (gen c0).
Proof. unfold gen. repeat apply word30_lxor; case_match; done. Qed.
Lemma step_word30 c v : word30 c -> symbol v -> word30 (polymod_step c v).
Proof.
  intros Hc Hv. rewrite step_gen by done. apply word30_lxor; [apply word30_lxor | apply gen_word30]; unfold word30, symbol in *; [|lia].
  assert (Z.land c 0x1ffffff = c mod 2 ^ 25) as -> by (apply (land_ones_mod c 25); lia). pose proof (Z.mod_pos_bound c (2 ^ 25) ltac:(lia)).
  rewrite Z.shiftl_mul_pow2 by lia. lia.
Qed.
Lemma step_lxor a b v w : word30 a -> word30 b -> polymod_step (Z.lxor a b) (Z.lxor v w) = Z.lxor (polymod_step a v) (polymod_step b w).
Proof.
  intros Ha Hb. rewrite !step_gen by (done || by apply word30_lxor). rewrite Z.shiftr_lxor, gen_lxor, land_lxor, Z.shiftl_lxor.
  by rewrite (lxor_4 _ _ v w), lxor_4.
Qed.

(** The states of the loop over two lists of symbols differ by that over their differences. *)
Definition from (c : Z) (v : list Z) : Z := foldl polymod_step c v.
Definition differences (v w : list Z) : list Z := zip_with Z.lxor v w.
Lemma from_word30 c v : word30 c -> Forall symbol v -> word30 (from c v).
Proof. intros Hc Hv. revert c Hc. induction Hv as [|x v Hx Hv IH]; intros c Hc; cbn; [done|]. by apply IH, step_word30. Qed.
Lemma from_lxor a b v w : word30 a -> word30 b -> Forall symbol v -> Forall symbol w -> length v = length w ->
  from (Z.lxor a b) (differences v w) = Z.lxor (from a v) (from b w).
Proof.
  intros Ha Hb Hv. revert a b w Ha Hb. induction Hv as [|x v Hx Hv IH]; intros a b w Ha Hb Hw; destruct Hw as [|y w Hy Hw]; cbn; try done.
  intros [= E]. rewrite step_lxor by done. by apply IH; try apply step_word30.
Qed.
Lemma symbol_lxor v w : symbol v -> symbol w -> symbol (Z.lxor v w).
Proof. by apply (bits_lxor 5). Qed.
Lemma differences_symbols v w : Forall symbol v -> Forall symbol w -> Forall symbol (differences v w).
Proof. intros Hv. revert w. induction Hv as [|x v Hx Hv IH]; intros w Hw; destruct Hw as [|y w Hy Hw]; cbn; constructor; [by apply symbol_lxor | by apply IH]. Qed.

(** Six symbols from zero are packed; after that nothing but zero becomes zero. *)
Lemma step_small c v : 0 <= c < 2 ^ 25 -> symbol v -> polymod_step c v = 32 * c + v.
Proof.
  intros Hc Hv. unfold symbol in Hv. rewrite step_gen by (unfold word30; lia). rewrite Z.shiftr_div_pow2, Z.div_small by lia. change (gen 0) with 0. rewrite Z.lxor_0_r.
  assert (Z.land c 0x1ffffff = c mod 2 ^ 25) as -> by (apply (land_ones_mod c 25); lia). rewrite (Z.mod_small c) by lia.
  assert (Z.land v (Z.shiftl c 5) = 0) as Hd.
  { apply Z.bits_inj'. intros n Hn. rewrite Z.land_spec, Z.bits_0, Z.shiftl_spec by lia.
    destruct (Z.lt_ge_cases n 5); [by rewrite (Z.testbit_neg_r c), andb_false_r by lia | by rewrite (testbit_high v 5 n) by lia]. }
  rewrite Z.lxor_comm, Z.lxor_lor, lor_shiftl_add by (done || lia). lia.
Qed.
Lemma from_zero_short v : Forall symbol v -> (length v <= 6)%nat -> from 0 v = vbe 32 v /\ 0 <= vbe 32 v < 2 ^ (5 * Z.of_nat (length v)).
Proof.
  intros Hv Hl. assert (0 <= vbe 32 v < 2 ^ (5 * Z.of_nat (length v))) as B.
  { pose proof (vbe_bound 32 ltac:(lia) v Hv). rewrite Z.pow_mul_r by lia. done. }
  split; [|done]. clear B. induction v as [|x v IH] using rev_ind; [done|]. apply Forall_app in Hv as [Hv Hx]. inversion_clear Hx as [|? ? Hx' _].
  rewrite length_app in Hl. cbn [length] in Hl. unfold from in *. rewrite foldl_app. cbn [foldl]. rewrite IH by (done || lia).
  pose proof (vbe_bound 32 ltac:(lia) v Hv) as B. pose proof (Z.pow_le_mono_r 32 (Z.of_nat (length v)) 5 ltac:(lia) ltac:(lia)).
  rewrite step_small by (done || lia). unfold vbe. rewrite rev_unit. cbn [vle]. lia.
Qed.
Lemma gen_low_check : forallb (fun i => negb (gen (Z.of_nat i) mod 32 =? 0) || Nat.eqb i 0) (seq 0 32) = true.
Proof. by vm_compute. Qed.
Lemma step_zero c : word30 c -> polymod_step c 0 = 0 -> c = 0.
Proof.
  intros Hc. rewrite step_gen, Z.lxor_0_r by done. intros E. apply Z.lxor_eq in E. unfold word30 in Hc.
  assert (Z.land c 0x1ffffff = c mod 2 ^ 25) as El by (apply (land_ones_mod c 25); lia). rewrite El, Z.shiftl_mul_pow2, Z.shiftr_div_pow2 in E by lia.
  pose proof (Z.mod_pos_bound c (2 ^ 25) ltac:(lia)) as B. assert (0 <= c / 2 ^ 25 < 32) as Bd by (split; [apply Z.div_pos; lia | apply Z.div_lt_upper_bound; lia]).
  pose proof gen_low_check as Hg. rewrite forallb_forall in Hg. specialize (Hg (Z.to_nat (c / 2 ^ 25)) ltac:(apply in_seq; lia)). rewrite Z2Nat.id in Hg by lia.
  assert (c / 2 ^ 25 = 0) as E0.
  { apply orb_true_iff in Hg as [Hg | Hg%Nat.eqb_eq]; [|lia]. rewrite <- E in Hg. change (2 ^ 5) with 32 in Hg. rewrite Z.mod_mul in Hg by lia. done. }
  rewrite E0 in E. change (gen 0) with 0 in E. pose proof (Z.div_mod c (2 ^ 25) ltac:(lia)). lia.
Qed.
Lemma from_zeroes n c : word30 c -> c <> 0 -> from c (replicate n 0) <> 0.
Proof.
  revert c. induction n as [|n IH]; intros c Hc Hn; cbn; [done|]. apply IH; [by apply step_word30|]. intros E. by apply Hn, step_zero.
Qed.

(** ** What the checksum does *)

Lemma differences_zeroes v : differences (replicate (length v) 0) v = v.
Proof. induction v as [|x v IH]; cbn; [done|]. unfold differences in *. by rewrite IH. Qed.
Lemma differences_same v : differences v v = replicate (length v) 0.
Proof. induction v as [|x v IH]; cbn; [done|]. unfold differences in *. by rewrite Z.lxor_nilpotent, IH. Qed.
Lemma ExpandHRP_symbols hrp : Forall is_byte hrp -> Forall symbol (ExpandHRP hrp).
Proof.
  intros Hh. unfold ExpandHRP. apply Forall_app. split; [|constructor; [done|]]; induction Hh as [|c hrp Hc Hh IH]; cbn [map]; constructor; try done; unfold symbol, is_byte in *.
  - rewrite Z.shiftr_div_pow2 by lia. split; [apply Z.div_pos; lia | apply Z.div_lt_upper_bound; lia].
  - assert (Z.land c 0x1f = c mod 2 ^ 5) as -> by (apply (land_ones_mod c 5); lia). apply Z.mod_pos_bound. lia.
Qed.
Lemma zeroes_symbols n : Forall symbol (replicate n 0).
Proof. by apply Forall_replicate. Qed.
Lemma word30_1 : word30 1.
Proof. done. Qed.

(** The six symbols hold the thirty bits. *)
Lemma unpack_spec md : word30 md ->
  let chk := map (fun i => Z.land (Z.shiftr md (5 * (5 - Z.of_nat i))) 31) (seq 0 6) in Forall symbol chk /\ length chk = 6%nat /\ vbe 32 chk = md.
Proof.
  intros Hm chk. unfold word30 in Hm. assert (chk = [md / 2 ^ 25 mod 2 ^ 5; md / 2 ^ 20 mod 2 ^ 5; md / 2 ^ 15 mod 2 ^ 5; md / 2 ^ 10 mod 2 ^ 5; md / 2 ^ 5 mod 2 ^ 5; md / 2 ^ 0 mod 2 ^ 5]) as ->.
  { unfold chk. assert (forall n, 0 <= n -> Z.land (Z.shiftr md n) 31 = md / 2 ^ n mod 2 ^ 5) as E.
    { intros n Hn. rewrite <- Z.shiftr_div_pow2 by done. apply (land_ones_mod _ 5). lia. }
    cbn [seq map]. rewrite !E by lia. done. }
  split; [|split; [done|]].
  - repeat constructor; unfold symbol; apply Z.mod_pos_bound; lia.
  - unfold vbe. cbn [rev app vle]. Z.to_euclidean_division_equations. lia.
Qed.
Lemma checksum_verifies hrp values : Forall is_byte hrp -> Forall symbol values -> VerifyChecksum hrp (values ++ CreateChecksum hrp values) = true.
Proof.
  intros Hh Hv. set (enc := ExpandHRP hrp ++ values). set (c := from 1 enc). set (m := from c (replicate 6 0)).
  assert (Forall symbol enc) as He by (apply Forall_app; split; [by apply ExpandHRP_symbols | done]).
  pose proof (from_word30 1 enc word30_1 He : word30 c) as Hc.
  pose proof (from_word30 c _ Hc (zeroes_symbols 6) : word30 m) as Hm.
  assert (CreateChecksum hrp values = map (fun i => Z.land (Z.shiftr (Z.lxor m 1) (5 * (5 - Z.of_nat i))) 31) (seq 0 6)) as ->.
  { unfold CreateChecksum, PolyMod, m, c, enc, from. by rewrite <- app_assoc, !foldl_app. }
  destruct (unpack_spec (Z.lxor m 1) (word30_lxor _ _ Hm word30_1)) as (Hs & Hl & Hp). set (chk := map _ _) in *.
  unfold VerifyChecksum, PolyMod. assert (foldl polymod_step 1 (ExpandHRP hrp ++ values ++ chk) = from c chk) as ->.
  { unfold c, enc, from. by rewrite !foldl_app. }
  apply Z.eqb_eq. rewrite <- (differences_zeroes chk), Hl. rewrite <- (Z.lxor_0_r c).
  rewrite from_lxor by (done || apply zeroes_symbols). fold m. destruct (from_zero_short chk Hs ltac:(lia)) as [-> _]. rewrite Hp.
  by rewrite <- Z.lxor_assoc, Z.lxor_nilpotent, Z.lxor_0_l.
Qed.
(** A change within six symbols in a row is always detected. *)
Lemma burst_detected hrp a w w' b : Forall is_byte hrp -> Forall symbol (a ++ w ++ b) -> Forall symbol w' -> length w = length w' -> (length w <= 6)%nat ->
  w <> w' -> VerifyChecksum hrp (a ++ w ++ b) = true -> VerifyChecksum hrp (a ++ w' ++ b) = false.
Proof.
  intros Hh Hs Hw' El Hl Hne. unfold VerifyChecksum, PolyMod. rewrite Z.eqb_eq, Z.eqb_neq. intros E1 E2.
  apply Forall_app in Hs as [Ha Hs]. apply Forall_app in Hs as [Hw Hb].
  assert (forall x, foldl polymod_step 1 (ExpandHRP hrp ++ a ++ x ++ b) = from (from (from 1 (ExpandHRP hrp ++ a)) x) b) as E by (intros x; unfold from; by rewrite !foldl_app).
  rewrite E in E1, E2. set (c := from 1 (ExpandHRP hrp ++ a)) in *.
  assert (word30 c) as Hc by (apply from_word30; [done | apply Forall_app; split; [by apply ExpandHRP_symbols | done]]).
  pose proof (from_word30 c w Hc Hw) as H1. pose proof (from_word30 c w' Hc Hw') as H2.
  assert (from (Z.lxor (from c w) (from c w')) (replicate (length b) 0) = 0) as Ez.
  { rewrite <- differences_same, from_lxor by done. rewrite E1, E2. done. }
  apply (from_zeroes (length b) (Z.lxor (from c w) (from c w'))); [by apply word30_lxor | | done].
  rewrite <- from_lxor, Z.lxor_nilpotent by done. pose proof (differences_symbols w w' Hw Hw') as Hd.
  assert (length (differences w w') = length w) as Eld by (unfold differences; rewrite length_zip_with; lia).
  destruct (from_zero_short _ Hd ltac:(lia)) as [-> _]. intros Ez'. apply Hne.
  assert (differences w w' = replicate (length w) 0) as Ed.
  { apply (vbe_inj 32); [lia | done | apply zeroes_symbols | by rewrite length_replicate | rewrite Ez']. unfold vbe. symmetry. apply vle_null. by apply Forall_rev, Forall_replicate. }
  clear - El Ed. revert w' El Ed. induction w as [|x w IH]; intros [|y w'] El Ed; cbn in *; try done. injection Ed as Ex Ed. injection El as El.
  apply Z.lxor_eq in Ex. subst. f_equal. by apply IH.
Qed.

(** ** The text is read back *)

Lemma CHARSET_check : forallb (fun i => let c := nth i CHARSET 0 in (34 <=? c) && (c <=? 126) && negb (c =? 49) && negb ((c >=? 65) && (c <=? 90)) && (nth (Z.to_nat c) CHARSET_REV (-1) =? Z.of_nat i)) (seq 0 32) = true.
Proof. by vm_compute. Qed.
Lemma CHARSET_spec v : symbol v -> let c := nth (Z.to_nat v) CHARSET 0 in
  34 <= c <= 126 /\ c <> 49 /\ ((c >=? 65) && (c <=? 90)) = false /\ nth (Z.to_nat c) CHARSET_REV (-1) = v.
Proof.
  intros Hv c. unfold symbol in Hv. pose proof CHARSET_check as H. rewrite forallb_forall in H. specialize (H (Z.to_nat v) ltac:(apply in_seq; lia)).
  fold c in H. cbv beta zeta in H. rewrite !andb_true_iff, !negb_true_iff, Z.eqb_neq, Z.eqb_eq in H. destruct H as ((((H1 & H2) & H3) & H4) & H5).
  repeat split; try done; lia.
Qed.
(** What a human-readable part may be made of. *)
Definition hrp_char (c : Z) : Prop := 33 <= c <= 126 /\ ~ 65 <= c <= 90.
Lemma hrp_bytes hrp : Forall hrp_char hrp -> Forall is_byte hrp.
Proof. intros H. eapply Forall_impl; [|exact H]. intros c [Hc _]. unfold is_byte. lia. Qed.
Lemma LowerCase_same hrp : Forall hrp_char hrp -> map LowerCase hrp = hrp.
Proof.
  induction 1 as [|c hrp [_ Hc] H IH]; cbn; [done|]. rewrite IH. f_equal. unfold LowerCase.
  destruct ((c >=? 65) && (c <=? 90)) eqn:E; [|done]. apply andb_true_iff in E. lia.
Qed.
Lemma existsb_false {A} (f : A -> bool) l : Forall (fun x => f x = false) l -> existsb f l = false.
Proof. induction 1 as [|x l E H IH]; cbn; [done | by rewrite E]. Qed.
Lemma rfind_none c l : Forall (fun x => x <> c) l -> rfind c l = None.
Proof. induction 1 as [|x l E H IH]; cbn; [done|]. rewrite IH. by destruct (Z.eqb_spec x c). Qed.
Lemma rfind_last c h l : Forall (fun x => x <> c) l -> rfind c (h ++ [c] ++ l) = Some (length h).
Proof. intros H. induction h as [|x h IH]; cbn [app rfind length]; [by rewrite rfind_none, Z.eqb_refl | cbn [app] in IH; by rewrite IH]. Qed.
Lemma rev_loop_spec values : Forall symbol values -> rev_loop (map (fun c => nth (Z.to_nat c) CHARSET 0) values) = Some values.
Proof.
  induction 1 as [|v values Hv H IH]; cbn [map rev_loop]; [done|]. destruct (CHARSET_spec v Hv) as (B & _ & _ & E).
  replace ((nth (Z.to_nat v) CHARSET 0 <? 33) || (nth (Z.to_nat v) CHARSET 0 >? 126)) with false by lia. rewrite E, IH. cbn [mbind option_bind].
  unfold symbol in Hv. replace (v =? -1) with false by lia. by rewrite u8_small by lia.
Qed.
Lemma CreateChecksum_length hrp values : length (CreateChecksum hrp values) = 6%nat.
Proof. done. Qed.
Lemma CreateChecksum_symbols hrp values : Forall symbol (CreateChecksum hrp values).
Proof.
  apply Forall_map, Forall_forall. intros i _. unfold symbol. assert (forall x, Z.land x 31 = x mod 2 ^ 5) as -> by (intros x; apply (land_ones_mod x 5); lia).
  apply Z.mod_pos_bound. lia.
Qed.
Lemma bech32_Encode_Decode hrp values : Forall hrp_char hrp -> hrp <> [] -> Forall symbol values -> (length hrp + length values <= 83)%nat ->
  bech32_Decode (bech32_Encode hrp values) = (hrp, values).
Proof.
  intros Hh Hn Hv Hl. unfold bech32_Decode, bech32_Encode. set (all := values ++ CreateChecksum hrp values).
  assert (Forall symbol all) as Ha by (apply Forall_app; split; [done | apply CreateChecksum_symbols]).
  set (chars := map _ all). set (s := (hrp ++ [49]) ++ chars).
  assert (Forall hrp_char s /\ Forall (fun c => c <> 49) chars) as [Hs H49].
  { assert (Forall hrp_char chars /\ Forall (fun c => c <> 49) chars) as [Hc ?].
    { unfold chars. split; apply Forall_map; (eapply Forall_impl; [|exact Ha]); intros v Hx; cbv beta; destruct (CHARSET_spec v Hx) as (B & E & U & _);
        [|done]. unfold hrp_char. rewrite andb_false_iff in U. lia. }
    split; [|done]. apply Forall_app; split; [|done]. apply Forall_app; split; [done|]. constructor; [unfold hrp_char; lia | constructor]. }
  rewrite existsb_false by (eapply Forall_impl; [|exact Hs]; intros c [B _]; lia).
  assert (has_range 65 90 s = false) as -> by (apply existsb_false; eapply Forall_impl; [|exact Hs]; intros c [_ B]; apply andb_false_iff; lia). rewrite andb_false_r.
  assert (rfind 49 s = Some (length hrp)) as -> by (unfold s; rewrite <- app_assoc; by apply rfind_last).
  assert (length s = length hrp + length values + 7)%nat as El by (unfold s, chars, all; rewrite !length_app, length_map, length_app, CreateChecksum_length; cbn; lia). rewrite El.
  replace (90 <? length hrp + length values + 7)%nat with false by (symmetry; apply Nat.ltb_ge; lia).
  replace (length hrp =? 0)%nat with false by (symmetry; apply Nat.eqb_neq; destruct hrp; cbn; [done | lia]).
  replace (length hrp + length values + 7 <? length hrp + 7)%nat with false by (symmetry; apply Nat.ltb_ge; lia). cbn [orb].
  replace (drop (length hrp + 1) s) with chars by (unfold s; rewrite drop_app_length'; [done | rewrite length_app; cbn; lia]).
  unfold chars. rewrite rev_loop_spec by done. replace (take (length hrp) s) with hrp by (unfold s; rewrite <- app_assoc; by rewrite take_app_length).
  rewrite LowerCase_same by done. unfold all. rewrite checksum_verifies by (done || by apply hrp_bytes). cbn [negb].
  rewrite length_app, CreateChecksum_length, take_app_length' by lia. done.
Qed.

(** ** The regrouping of bits *)

Section regroup.
Context (fb tb : Z) (Hfb : 0 < fb <= 8) (Htb : 0 < tb <= 8).
Local Abbreviation emit := (emit_loop tb).
Local Abbreviation out_ok out := (Forall (digit (2 ^ tb)) out).

Lemma maxv_ones x : Z.land x (maxv tb) = x mod 2 ^ tb.
Proof. unfold maxv. rewrite Z.shiftl_mul_pow2, Z.mul_1_l by lia. rewrite Z.sub_1_r, <- Z.ones_equiv. apply Z.land_ones. lia. Qed.
Lemma max_acc_ones x : Z.land x (max_acc fb tb) = x mod 2 ^ (fb + tb - 1).
Proof. unfold max_acc. rewrite Z.shiftl_mul_pow2, Z.mul_1_l by lia. rewrite Z.sub_1_r, <- Z.ones_equiv. apply Z.land_ones. lia. Qed.
Lemma pow_le_256 n : 0 <= n <= 8 -> 2 ^ n <= 256.
Proof. intros H. apply (Z.pow_le_mono_r 2 n 8); lia. Qed.
Lemma u8_digit x : u8 (x mod 2 ^ tb) = x mod 2 ^ tb.
Proof. apply u8_small. pose proof (Z.mod_pos_bound x (2 ^ tb) ltac:(lia)). pose proof (pow_le_256 tb ltac:(lia)). lia. Qed.

(** The value read so far: the symbols written, and the bits that wait. *)
Lemma emit_loop_spec fuel acc bits out : 0 <= bits -> (Z.to_nat bits <= fuel)%nat -> out_ok out ->
  exists bits' out', emit fuel acc bits out = (bits', out') /\ 0 <= bits' < tb /\ out_ok out' /\
    tb * Z.of_nat (length out') + bits' = tb * Z.of_nat (length out) + bits /\
    vbe (2 ^ tb) out' * 2 ^ bits' + acc mod 2 ^ bits' = vbe (2 ^ tb) out * 2 ^ bits + acc mod 2 ^ bits.
Proof.
  revert bits out. induction fuel as [|fuel IH]; intros bits out Hb Hf Ho; cbn [emit_loop].
  - assert (bits = 0) as -> by lia. exists 0, out. repeat split; try done; lia.
  - destruct (Z.geb_spec bits tb) as [Hge | Hlt]; [|by exists bits, out; repeat split; try lia].
    rewrite maxv_ones, u8_digit. set (n := bits - tb). set (d := Z.shiftr acc n mod 2 ^ tb).
    assert (digit (2 ^ tb) d) as Hd by (apply Z.mod_pos_bound; lia).
    destruct (IH n (out ++ [d])) as (b' & o' & -> & B & Ho' & El & Ev); [lia | lia | apply Forall_app; split; [done | by constructor]|].
    exists b', o'. split; [done|]. split; [done|]. split; [done|]. rewrite length_app in El. cbn [length] in El. split; [lia|].
    rewrite Ev. unfold vbe. rewrite rev_unit. cbn [vle]. fold (vbe (2 ^ tb) out). unfold d. rewrite Z.shiftr_div_pow2 by lia.
    pose proof (Z.pow_pos_nonneg 2 n ltac:(lia) ltac:(lia)). pose proof (Z.pow_pos_nonneg 2 tb ltac:(lia) ltac:(lia)).
    replace bits with (n + tb) by lia. rewrite (Z.pow_add_r 2 n tb), (Z.rem_mul_r acc) by lia. lia.
Qed.
Lemma convert_loop_spec l acc bits out : Forall (digit (2 ^ fb)) l -> 0 <= bits < tb -> 0 <= acc < 2 ^ (fb + tb - 1) -> out_ok out ->
  exists acc' bits' out', convert_loop fb tb l acc bits out = (acc', bits', out') /\ 0 <= bits' < tb /\ 0 <= acc' < 2 ^ (fb + tb - 1) /\ out_ok out' /\
    tb * Z.of_nat (length out') + bits' = tb * Z.of_nat (length out) + bits + fb * Z.of_nat (length l) /\
    vbe (2 ^ tb) out' * 2 ^ bits' + acc' mod 2 ^ bits' = (vbe (2 ^ tb) out * 2 ^ bits + acc mod 2 ^ bits) * 2 ^ (fb * Z.of_nat (length l)) + vbe (2 ^ fb) l.
Proof.
  intros Hl. revert acc bits out. induction Hl as [|x l Hx Hl IH]; intros acc bits out Hb Ha Ho; cbn [convert_loop].
  - exists acc, bits, out. cbn. rewrite Z.mul_0_r. repeat split; try done; try lia.
  - assert (Z.land (Z.lor (u64 (Z.shiftl acc fb)) x) (max_acc fb tb) = (acc * 2 ^ fb + x) mod 2 ^ (fb + tb - 1)) as ->.
    { pose proof (Z.pow_lt_mono_r 2 (fb + tb - 1 + fb) 64 ltac:(lia) ltac:(lia) ltac:(lia)) as B. rewrite Z.pow_add_r in B by lia.
      rewrite max_acc_ones. rewrite u64_small by (rewrite Z.shiftl_mul_pow2 by lia; nia). rewrite Z.lor_comm.
      rewrite lor_shiftl_add by (unfold digit in Hx; lia). f_equal. lia. }
    set (acc1 := (acc * 2 ^ fb + x) mod 2 ^ (fb + tb - 1)).
    destruct (emit_loop_spec (Z.to_nat (bits + fb)) acc1 (bits + fb) out) as (b1 & o1 & -> & B1 & Ho1 & El1 & Ev1); [lia | lia | done|].
    destruct (IH acc1 b1 o1) as (a' & b' & o' & E & B' & Ha' & Ho' & El' & Ev'); [done | apply Z.mod_pos_bound; lia | done|].
    exists a', b', o'. split; [done|]. split; [done|]. split; [done|]. split; [done|]. cbn [length]. split; [lia|].
    rewrite Ev', Ev1. rewrite vbe_cons by (apply Z.pow_gt_1; lia).
    assert (acc1 mod 2 ^ (bits + fb) = acc mod 2 ^ bits * 2 ^ fb + x) as ->.
    { unfold acc1. replace (fb + tb - 1) with ((bits + fb) + (tb - 1 - bits)) by lia. rewrite (Z.pow_add_r 2 (bits + fb)) by lia.
      assert (forall y m k, 0 < m -> 0 < k -> (y mod (m * k)) mod m = y mod m) as Hmm by (intros y m k Hm Hk; rewrite Z.rem_mul_r by lia; rewrite Z.mul_comm, Z.mod_add, Z.mod_mod by lia; done).
      rewrite Hmm by lia. rewrite (Z.pow_add_r 2 bits) by lia. unfold digit in Hx. pose proof (Z.div_mod acc (2 ^ bits) ltac:(lia)) as Ed. pose proof (Z.mod_pos_bound acc (2 ^ bits) ltac:(lia)) as Em.
      symmetry. apply Z.mod_unique_pos with (acc / 2 ^ bits); nia. }
    replace (fb * Z.of_nat (S (length l))) with (fb + fb * Z.of_nat (length l)) by lia.
    rewrite !Z.pow_add_r by lia. rewrite <- Z.pow_mul_r by lia. lia.
Qed.
End regroup.

(** What is left over, moved to the top of a symbol. *)
Lemma rest_value fb tb acc bits : 0 < fb <= 8 -> 0 < tb <= 8 -> 0 <= bits < tb -> 0 <= acc < 2 ^ (fb + tb - 1) ->
  Z.land (u64 (Z.shiftl acc (tb - bits))) (maxv tb) = acc mod 2 ^ bits * 2 ^ (tb - bits) /\ 0 <= acc mod 2 ^ bits * 2 ^ (tb - bits) < 2 ^ tb.
Proof.
  intros Hf Ht Hb Ha. rewrite maxv_ones by lia. rewrite Z.shiftl_mul_pow2 by lia.
  pose proof (Z.pow_pos_nonneg 2 bits ltac:(lia) ltac:(lia)). pose proof (Z.pow_pos_nonneg 2 (tb - bits) ltac:(lia) ltac:(lia)).
  pose proof (Z.mod_pos_bound acc (2 ^ bits) ltac:(lia)). assert (2 ^ tb = 2 ^ bits * 2 ^ (tb - bits)) as Et by (rewrite <- Z.pow_add_r by lia; f_equal; lia).
  rewrite u64_small.
  - rewrite Et, Z.mul_mod_distr_r by lia. split; [done|]. nia.
  - split; [nia|]. pose proof (Z.pow_le_mono_r 2 (tb - bits) 8 ltac:(lia) ltac:(lia)). pose proof (Z.pow_le_mono_r 2 (fb + tb - 1) 15 ltac:(lia) ltac:(lia)).
    change (2 ^ 8) with 256 in *. change (2 ^ 15) with 32768 in *. nia.
Qed.
Lemma ConvertBits_pad fb tb l : 0 < fb <= 8 -> 0 < tb <= 8 -> Forall (digit (2 ^ fb)) l ->
  exists out p, ConvertBits fb tb true l = (out, true) /\ Forall (digit (2 ^ tb)) out /\ 0 <= p < tb /\
    tb * Z.of_nat (length out) = fb * Z.of_nat (length l) + p /\ vbe (2 ^ tb) out = vbe (2 ^ fb) l * 2 ^ p.
Proof.
  intros Hf Ht Hl. unfold ConvertBits.
  destruct (convert_loop_spec fb tb Hf Ht l 0 0 [] Hl) as (acc & bits & out & -> & Hb & Ha & Ho & El & Ev); [lia | split; [lia | apply Z.pow_pos_nonneg; lia] | done|].
  cbn [length] in El. change (vbe (2 ^ tb) []) with 0 in Ev. rewrite Zmod_0_l, !Z.add_0_r, !Z.mul_0_l, Z.add_0_l in Ev.
  destruct (Z.eqb_spec bits 0) as [-> | Hn]; cbn [negb].
  - exists out, 0. rewrite Z.mod_1_r in Ev. repeat split; try done; lia.
  - destruct (rest_value fb tb acc bits Hf Ht Hb Ha) as [-> Hr]. exists (out ++ [acc mod 2 ^ bits * 2 ^ (tb - bits)]), (tb - bits).
    rewrite u8_small by (pose proof (pow_le_256 tb ltac:(lia)); lia). split; [done|]. split; [apply Forall_app; split; [done | by constructor]|].
    split; [lia|]. rewrite length_app. cbn [length]. split; [lia|]. unfold vbe. rewrite rev_unit. cbn [vle]. fold (vbe (2 ^ tb) out) (vbe (2 ^ fb) l). rewrite <- Ev.
    assert (2 ^ tb = 2 ^ bits * 2 ^ (tb - bits)) as -> by (rewrite <- Z.pow_add_r by lia; f_equal; lia). lia.
Qed.
(** Bytes regrouped with padding are regrouped back without. *)
Lemma ConvertBits_back fb tb l out : 0 < fb -> fb <= tb -> tb <= 8 -> Forall (digit (2 ^ tb)) l -> ConvertBits tb fb true l = (out, true) ->
  Forall (digit (2 ^ fb)) out /\ ConvertBits fb tb false out = (l, true).
Proof.
  intros Hf Hft Ht Hl E. destruct (ConvertBits_pad tb fb l ltac:(lia) ltac:(lia) Hl) as (o & p & E' & Ho & Hp & El & Ev).
  rewrite E in E'. injection E' as <-. split; [done|]. unfold ConvertBits.
  destruct (convert_loop_spec fb tb ltac:(lia) ltac:(lia) out 0 0 [] Ho) as (acc & bits & back & -> & Hb & Ha & Hk & Ek & Ew); [lia | split; [lia | apply Z.pow_pos_nonneg; lia] | done|].
  cbn [length] in Ek. change (vbe (2 ^ tb) []) with 0 in Ew. rewrite Zmod_0_l, !Z.add_0_r, !Z.mul_0_l, Z.add_0_l in Ew.
  assert (length back = length l) as Eb by nia. assert (bits = p) as -> by nia.
  destruct (rest_value fb tb acc p ltac:(lia) ltac:(lia) Hb Ha) as [-> _].
  pose proof (Z.pow_pos_nonneg 2 p ltac:(lia) ltac:(lia)). pose proof (Z.mod_pos_bound acc (2 ^ p) ltac:(lia)) as Hm.
  assert (vbe (2 ^ tb) back = vbe (2 ^ tb) l /\ acc mod 2 ^ p = 0) as [Eq Em].
  { rewrite Ev in Ew. assert (vbe (2 ^ tb) l - vbe (2 ^ tb) back = 0) by nia. lia. }
  rewrite Em, Z.mul_0_l. cbn [Z.eqb negb]. replace (p >=? fb) with false by lia. cbn [orb]. f_equal.
  apply (vbe_inj (2 ^ tb)); try done. apply Z.pow_gt_1; lia.
Qed.

(** What is regrouped without padding comes from padded symbols. *)
Lemma ConvertBits_forth fb tb l out : 0 < fb -> fb <= tb -> tb <= 8 -> Forall (digit (2 ^ fb)) l -> ConvertBits fb tb false l = (out, true) ->
  Forall (digit (2 ^ tb)) out /\ ConvertBits tb fb true out = (l, true).
Proof.
  intros Hf Hft Ht Hl. unfold ConvertBits at 1.
  destruct (convert_loop_spec fb tb ltac:(lia) ltac:(lia) l 0 0 [] Hl) as (acc & bits & back & -> & Hb & Ha & Hk & Ek & Ew); [lia | split; [lia | apply Z.pow_pos_nonneg; lia] | done|].
  cbn [length] in Ek. change (vbe (2 ^ tb) []) with 0 in Ew. rewrite Zmod_0_l, !Z.add_0_r, !Z.mul_0_l, Z.add_0_l in Ew.
  destruct (rest_value fb tb acc bits ltac:(lia) ltac:(lia) Hb Ha) as [-> _].
  destruct (Z.geb_spec bits fb) as [|Hbf]; [done|]. cbn [orb]. destruct (Z.eqb_spec (acc mod 2 ^ bits * 2 ^ (tb - bits)) 0) as [Er|]; [|done]. cbn [negb]. intros [= <-].
  split; [done|]. destruct (ConvertBits_pad tb fb back ltac:(lia) ltac:(lia) Hk) as (o & p & -> & Ho & Hp & El & Ev). f_equal.
  assert (length o = length l) as Eo by nia. assert (bits = p) as -> by nia.
  pose proof (Z.pow_pos_nonneg 2 (tb - p) ltac:(lia) ltac:(lia)). assert (acc mod 2 ^ p = 0) as Em by nia. rewrite Em, Z.add_0_r in Ew.
  apply (vbe_inj (2 ^ fb)); try done; [apply Z.pow_gt_1; lia | congruence].
Qed.

(** ** What is accepted *)

Lemma CHARSET_REV_check : forallb (fun i => let r := nth i CHARSET_REV (-1) in (r =? -1) || ((0 <=? r) && (r <? 32) && (nth (Z.to_nat r) CHARSET 0 =? LowerCase (Z.of_nat i)))) (seq 0 128) = true.
Proof. by vm_compute. Qed.
Lemma rev_loop_chars s values : rev_loop s = Some values -> Forall symbol values /\ map (fun c => nth (Z.to_nat c) CHARSET 0) values = map LowerCase s.
Proof.
  revert values. induction s as [|c s IH]; cbn [rev_loop]; intros values; [by intros [= <-]|]. destruct ((c <? 33) || (c >? 126)) eqn:Ec; [done|].
  apply orb_false_iff in Ec. pose proof CHARSET_REV_check as H. rewrite forallb_forall in H. specialize (H (Z.to_nat c) ltac:(apply in_seq; lia)).
  cbv beta zeta in H. rewrite Z2Nat.id in H by lia. destruct (nth (Z.to_nat c) CHARSET_REV (-1) =? -1); [done|].
  rewrite orb_false_l, !andb_true_iff in H. destruct H as [[H1 H2] H3]. destruct (rev_loop s) as [t|]; [|done]. intros E%(inj Some). subst values.
  destruct (IH t eq_refl) as [Ht Em]. rewrite u8_small by lia. cbn [map]. rewrite Em. split; [constructor; [unfold symbol; lia | done]|]. f_equal. lia.
Qed.
Lemma rfind_split c s pos : rfind c s = Some pos -> s = take pos s ++ [c] ++ drop (pos + 1) s /\ (pos < length s)%nat.
Proof.
  revert pos. induction s as [|x s IH]; cbn [rfind]; intros pos; [done|]. destruct (rfind c s) as [i|].
  - intros [= <-]. destruct (IH i eq_refl) as [E Hl]. cbn. split; [by f_equal | lia].
  - destruct (Z.eqb_spec x c) as [->|]; [|done]. intros [= <-]. cbn. split; [done | lia].
Qed.
(** The six last symbols are determined. *)
Lemma VerifyChecksum_unique hrp values c : Forall is_byte hrp -> Forall symbol (values ++ c) -> length c = 6%nat ->
  VerifyChecksum hrp (values ++ c) = true -> c = CreateChecksum hrp values.
Proof.
  intros Hh Hs Hl Hv. apply Forall_app in Hs as [Hs Hc]. destruct (decide (CreateChecksum hrp values = c)) as [|Hne]; [done|].
  pose proof (burst_detected hrp values (CreateChecksum hrp values) c [] Hh) as B. rewrite !app_nil_r in B. rewrite B in Hv; try done.
  - apply Forall_app. split; [done | apply CreateChecksum_symbols].
  - by apply checksum_verifies.
Qed.
Lemma LowerCase_byte c : 33 <= c <= 126 -> is_byte (LowerCase c).
Proof.
  intros Hc. unfold LowerCase. destruct ((c >=? 65) && (c <=? 90)) eqn:E; [|unfold is_byte; lia]. apply andb_true_iff in E. rewrite u8_small by lia. unfold is_byte. lia.
Qed.
Lemma bech32_Decode_Encode s hrp values : bech32_Decode s = (hrp, values) -> hrp <> [] -> bech32_Encode hrp values = map LowerCase s.
Proof.
  unfold bech32_Decode. destruct (existsb _ s) eqn:Er; [by intros [= <- <-]|]. destruct (_ && _); [by intros [= <- <-]|].
  destruct (rfind 49 s) as [pos|] eqn:Ep; [|by intros [= <- <-]]. destruct (_ || _) eqn:El; [by intros [= <- <-]|].
  destruct (rev_loop _) as [v|] eqn:Ev; [|by intros [= <- <-]]. destruct (VerifyChecksum _ v) eqn:Ec; cbn [negb]; [|by intros [= <- <-]]. intros [= <- <-] _.
  rewrite !orb_false_iff, Nat.ltb_ge in El. destruct El as [_ El%Nat.ltb_ge]. destruct (rev_loop_chars _ _ Ev) as [Hs Em]. destruct (rfind_split _ _ _ Ep) as [Es Hp].
  assert (length v = length s - (pos + 1))%nat as Hl by (apply (f_equal length) in Em; by rewrite !length_map, length_drop in Em).
  assert (Forall is_byte (map LowerCase (take pos s))) as Hh.
  { apply Forall_map, Forall_take, Forall_forall. intros c Hc. cbv beta. apply LowerCase_byte.
    destruct ((c <? 33) || (c >? 126)) eqn:E; [|apply orb_false_iff in E; lia]. assert (existsb (fun c => (c <? 33) || (c >? 126)) s = true); [|congruence].
    apply existsb_exists. exists c. by split. }
  unfold bech32_Encode. assert (take (length v - 6) v ++ CreateChecksum (map LowerCase (take pos s)) (take (length v - 6) v) = v) as ->.
  { rewrite <- (take_drop (length v - 6) v) in Ec, Hs. rewrite <- (VerifyChecksum_unique _ _ (drop (length v - 6) v) Hh); try done; [apply take_drop | rewrite length_drop; lia]. }
  rewrite Em. rewrite Es at 3. by rewrite !map_app, <- app_assoc.
Qed.

Lemma bech32_Decode_symbols s hrp values : bech32_Decode s = (hrp, values) -> Forall symbol values.
Proof.
  unfold bech32_Decode. repeat (case_match; try (by intros [= <- <-])). intros [= <- <-]. apply Forall_take. by eapply rev_loop_chars.
Qed.

(** The bech32 texts.  What is encoded is decoded, for any human-readable part without
    capitals and up to 90 characters; a text that is accepted is, but for its capitals, the one its
    contents are encoded as; a change of any kind within six symbols in a row makes the checksum
    fail; and bytes regrouped into symbols with padding are regrouped into the same bytes, and
    only such symbols are regrouped into bytes. *)
Theorem bech32_correct :
  (forall hrp values, Forall hrp_char hrp -> hrp <> [] -> Forall symbol values -> (length hrp + length values <= 83)%nat ->
    bech32_Decode (bech32_Encode hrp values) = (hrp, values)) /\
  (forall s hrp values, bech32_Decode s = (hrp, values) -> hrp <> [] -> bech32_Encode hrp values = map LowerCase s) /\
  (forall hrp a w w' b, Forall is_byte hrp -> Forall symbol (a ++ w ++ b) -> Forall symbol w' -> length w = length w' -> (length w <= 6)%nat ->
    w <> w' -> VerifyChecksum hrp (a ++ w ++ b) = true -> VerifyChecksum hrp (a ++ w' ++ b) = false) /\
  (forall l, Forall is_byte l -> exists out, ConvertBits 8 5 true l = (out, true) /\ Forall symbol out /\ ConvertBits 5 8 false out = (l, true)) /\
  (forall l out, Forall symbol l -> ConvertBits 5 8 false l = (out, true) -> Forall is_byte out /\ ConvertBits 8 5 true out = (l, true)).
Proof.
  split; [exact bech32_Encode_Decode|]. split; [exact bech32_Decode_Encode|]. split; [exact burst_detected|]. split.
  - intros l Hl. destruct (ConvertBits_pad 8 5 l ltac:(lia) ltac:(lia) Hl) as (out & p & E & _). exists out. split; [done|].
    by apply (ConvertBits_back 5 8 l out).
  - intros l out Hl E. by apply (ConvertBits_forth 5 8 l out).
Qed.
Lemma bech32_correct_witness :
  bech32_Decode (bech32_Encode (str "ph") [0; 1; 31; 16]) = (str "ph", [0; 1; 31; 16]) /\
  VerifyChecksum (str "ph") ([0; 1] ++ [31; 16] ++ CreateChecksum (str "ph") [0; 1; 31; 16]) = true /\
  VerifyChecksum (str "ph") ([0; 1] ++ [16; 31] ++ CreateChecksum (str "ph") [0; 1; 31; 16]) = false.
Proof.
  split; [|split; [by vm_compute|]].
  - apply (proj1 bech32_correct).
    + change (str "ph") with [112; 104]; repeat constructor; unfold hrp_char; lia.
    + discriminate.
    + repeat constructor; unfold symbol; lia.
    + cbn; lia.
  - apply (proj1 (proj2 (proj2 bech32_correct)) (str "ph") [0; 1] [31; 16] [16; 31]).
    + change (str "ph") with [112; 104]; repeat constructor; unfold is_byte; lia.
    + apply Forall_app; split; [|apply Forall_app; split; [|apply CreateChecksum_symbols]]; repeat constructor; unfold symbol; lia.
    + repeat constructor; unfold symbol; lia.
    + reflexivity.
    + cbn; lia.
    + discriminate.
    + by vm_compute.
Defined.
