(* ===== verification/Address.v ===== *)
(** Addresses and printed keys ([src/src/base58.cpp]): destinations as texts in both forms, the
    base class of base-58 data and the printed private key, for the prefixes of each network
    ([src/src/chainparams.cpp]). *)
From S2P Require Import Prelude Script SigChecks Base58 Bech32 Standard.

(** ** The networks *)

(** [base58Prefixes] and [bech32_hrp] of [CChainParams]. *)
Record CChainParams := { PUBKEY_ADDRESS : list Z; SCRIPT_ADDRESS : list Z; SECRET_KEY : list Z; bech32_hrp : list Z }.
Definition CMainParams : CChainParams := {| PUBKEY_ADDRESS := [23]; SCRIPT_ADDRESS := [13]; SECRET_KEY := [212]; bech32_hrp := str "ph" |}.
Definition CTestNetParams : CChainParams := {| PUBKEY_ADDRESS := [139]; SCRIPT_ADDRESS := [19]; SECRET_KEY := [239]; bech32_hrp := str "tp" |}.
(** The rest as in the test network. *)
Definition CRegTestParams : CChainParams :=
  {| PUBKEY_ADDRESS := PUBKEY_ADDRESS CTestNetParams; SCRIPT_ADDRESS := SCRIPT_ADDRESS CTestNetParams; SECRET_KEY := SECRET_KEY CTestNetParams; bech32_hrp := str "ankt" |}.

(** ** Destinations *)

Section destinations.
Context (m_params : CChainParams).

(** [DestinationEncoder]; [None] is an assertion. *)
Definition EncodeDestination (dest : CTxDestination) : option (list Z) :=
  match dest with
  | CKeyID id => EncodeBase58Check (PUBKEY_ADDRESS m_params ++ id)
  | CScriptID id => EncodeBase58Check (SCRIPT_ADDRESS m_params ++ id)
  | WitnessV0KeyHash id | WitnessV0ScriptHash id => Some (bech32_Encode (bech32_hrp m_params) ([0] ++ fst (ConvertBits 8 5 true id)))
  | WitnessUnknown version program =>
      if (version <? 1) || (version >? 16) || (size program <? 2) || (size program >? 40) then Some []
      else Some (bech32_Encode (bech32_hrp m_params) ([u8 version] ++ fst (ConvertBits 8 5 true program)))
  | CNoDestination => Some []
  end.

(** [std::equal(prefix.begin(), prefix.end(), data.begin())] *)
Definition starts_with (prefix data : list Z) : bool := bool_decide (take (length prefix) data = prefix).
(** The first form. *)
Definition base58_destination (data : list Z) : option CTxDestination :=
  let pubkey_prefix := PUBKEY_ADDRESS m_params in
  if (size data =? 20 + size pubkey_prefix) && starts_with pubkey_prefix data then Some (CKeyID (drop (length pubkey_prefix) data)) else
  let script_prefix := SCRIPT_ADDRESS m_params in
  if (size data =? 20 + size script_prefix) && starts_with script_prefix data then Some (CScriptID (drop (length script_prefix) data)) else None.
(** The second. *)
Definition bech32_destination (s : list Z) : CTxDestination :=
  match bech32_Decode s with
  | (first, version :: symbols) =>
      if bool_decide (first = bech32_hrp m_params) then
        let '(data, ok) := ConvertBits 5 8 false symbols in
        if negb ok then CNoDestination
        else if version =? 0 then
          if size data =? 20 then WitnessV0KeyHash data
          else if size data =? 32 then WitnessV0ScriptHash data else CNoDestination
        else if (version >? 16) || (size data <? 2) || (size data >? 40) then CNoDestination
        else WitnessUnknown version data
      else CNoDestination
  | _ => CNoDestination
  end.
Definition DecodeDestination (s : list Z) : option CTxDestination :=
  r ← DecodeBase58Check (c_str s);
  Some (match r with
        | Some data => match base58_destination data with Some d => d | None => bech32_destination s end
        | None => bech32_destination s
        end).
Definition IsValidDestinationString (s : list Z) : option bool := d ← DecodeDestination s; Some (IsValidDestination d).
End destinations.

(** ** Base-58 data and the printed key *)

Record CBase58Data := { vchVersion : list Z; vchData : list Z }.
Definition CBase58Data_new : CBase58Data := {| vchVersion := []; vchData := [] |}.
Definition SetData (vchVersionIn pdata : list Z) : CBase58Data := {| vchVersion := vchVersionIn; vchData := pdata |}.
Definition SetString (psz : list Z) (nVersionBytes : nat) : option (CBase58Data * bool) :=
  rc58 ← DecodeBase58Check psz;
  Some (match rc58 with
        | None => (CBase58Data_new, false)
        | Some vchTemp =>
            if (length vchTemp <? nVersionBytes)%nat then (CBase58Data_new, false)
            else ({| vchVersion := take nVersionBytes vchTemp; vchData := drop nVersionBytes vchTemp |}, true)
        end).
Definition ToString (b58 : CBase58Data) : option (list Z) := EncodeBase58Check (vchVersion b58 ++ vchData b58).
(** [vector::operator<] *)
Fixpoint vector_lt (a b : list Z) : bool :=
  match a, b with
  | _, [] => false
  | [], _ :: _ => true
  | x :: a, y :: b => (x <? y) || ((x =? y) && vector_lt a b)
  end.
Definition CompareTo (a b58 : CBase58Data) : Z :=
  if vector_lt (vchVersion a) (vchVersion b58) then -1 else if vector_lt (vchVersion b58) (vchVersion a) then 1
  else if vector_lt (vchData a) (vchData b58) then -1 else if vector_lt (vchData b58) (vchData a) then 1 else 0.

(** [CKey] of [key.h]; the check of its bytes is the elliptic-curve library's. *)
Record CKey := { fValid : bool; fCompressed : bool; vch : list Z }.
Definition CKey_new (vch : list Z) : CKey := {| fValid := false; fCompressed := false; vch := vch |}.
Definition CKey_size (k : CKey) : Z := if fValid k then 32 else 0.
Section keys.
Context (Check : list Z -> bool) (params : CChainParams).
Definition CKey_Set (k : CKey) (bytes : list Z) (fCompressedIn : bool) : CKey :=
  if negb (size bytes =? 32) then {| fValid := false; fCompressed := fCompressed k; vch := vch k |}
  else if Check bytes then {| fValid := true; fCompressed := fCompressedIn; vch := bytes |}
  else {| fValid := false; fCompressed := fCompressed k; vch := vch k |}.

(** [CBitcoinSecret]; [None] is an assertion. *)
Definition SetKey (vchSecret : CKey) : option CBase58Data :=
  if negb (fValid vchSecret) then None else
  let b := SetData (SECRET_KEY params) (take (Z.to_nat (CKey_size vchSecret)) (vch vchSecret)) in
  Some (if fCompressed vchSecret then {| vchVersion := vchVersion b; vchData := vchData b ++ [1] |} else b).
Definition GetKey (uninitialised : list Z) (b : CBase58Data) : option CKey :=
  if negb (size (vchData b) >=? 32) then None
  else Some (CKey_Set (CKey_new uninitialised) (take 32 (vchData b)) ((size (vchData b) >? 32) && (nth 32 (vchData b) 0 =? 1))).
Definition Secret_IsValid (b : CBase58Data) : bool :=
  let fExpectedFormat := (size (vchData b) =? 32) || ((size (vchData b) =? 33) && (nth 32 (vchData b) 0 =? 1)) in
  let fCorrectVersion := bool_decide (vchVersion b = SECRET_KEY params) in
  fExpectedFormat && fCorrectVersion.
Definition Secret_SetString (pszSecret : list Z) : option (CBase58Data * bool) :=
  '(b, ok) ← SetString pszSecret 1; Some (b, ok && Secret_IsValid b).
End keys.

(** ** What the networks have in common *)

(** No text that starts with the digit [d] is that of twenty-one bytes that start with [b]. *)
Definition apart (b d : Z) : bool :=
  forallb (fun n => negb ((d * 58 ^ Z.of_nat n <? (b + 1) * 256 ^ 24) && (b * 256 ^ 24 <? (d + 1) * 58 ^ Z.of_nat n))) (seq 0 40).
Definition prefix_ok (b d : Z) : Prop := is_byte b /\ b <> 0 /\ apart b d = true.
Record params_ok (m : CChainParams) : Prop := {
  ok_digit : exists d h, bech32_hrp m = char_of d :: h /\ digit 58 d /\
    exists b1 b2, PUBKEY_ADDRESS m = [b1] /\ SCRIPT_ADDRESS m = [b2] /\ b1 <> b2 /\ prefix_ok b1 d /\ prefix_ok b2 d;
  ok_hrp : Forall hrp_char (bech32_hrp m);
  ok_length : (length (bech32_hrp m) <= 10)%nat;
  ok_secret : exists b, SECRET_KEY m = [b] /\ is_byte b
}.
Definition network (m : CChainParams) : Prop := m = CMainParams \/ m = CTestNetParams \/ m = CRegTestParams.
Ltac solve_params d b1 b2 := split;
  [exists d; eexists; split; [reflexivity|]; split; [unfold digit; lia|]; exists b1, b2; do 2 (split; [reflexivity|]); split; [lia|];
     split; (split; [unfold is_byte; lia|]; split; [lia | by vm_compute])
  | repeat (constructor; [vm_compute; intuition discriminate|]); constructor | apply Nat.leb_le; reflexivity | eexists; split; [reflexivity | unfold is_byte; lia]].
Lemma networks_ok m : network m -> params_ok m.
Proof. intros [-> | [-> | ->]]; [solve_params 47 23 13 | solve_params 51 139 19 | solve_params 33 139 19]. Qed.

Section correct.
Context (m : CChainParams) (Hm : params_ok m).

Lemma c_str_same s : Forall (fun c => c <> 0) s -> c_str s = s.
Proof. unfold c_str. induction 1 as [|c s Hc H IH]; cbn [take_while]; [done|]. apply Z.eqb_neq in Hc. rewrite Hc. cbn [negb]. by rewrite IH. Qed.
Lemma hrp_text s : Forall hrp_char s -> Forall is_byte s /\ Forall (fun c => isspace c = false) s /\ c_str s = s.
Proof.
  intros Hs. split; [by apply hrp_bytes|]. split; [|apply c_str_same]; (eapply Forall_impl; [|exact Hs]); intros c [Hc _]; cbv beta; [|lia].
  unfold isspace. lia.
Qed.
Lemma CHARSET_char v : symbol v -> hrp_char (nth (Z.to_nat v) CHARSET 0).
Proof. intros Hv. destruct (CHARSET_spec v Hv) as (B & _ & U & _). apply andb_false_iff in U. unfold hrp_char. lia. Qed.
Lemma bech32_text hrp values : Forall hrp_char hrp -> Forall symbol values -> Forall hrp_char (bech32_Encode hrp values) /\
  Z.of_nat (length (bech32_Encode hrp values)) = Z.of_nat (length hrp + length values + 7).
Proof.
  intros Hh Hv. unfold bech32_Encode. split.
  - apply Forall_app; split; [apply Forall_app; split; [done|]|]; [constructor; [unfold hrp_char; lia | constructor]|]. apply Forall_map.
    eapply Forall_impl; [apply CHARSET_char|]. apply Forall_app; split; [done | apply CreateChecksum_symbols].
  - rewrite !length_app, length_map, length_app, CreateChecksum_length. cbn. lia.
Qed.

(** The forms are apart. *)
Lemma base58_destination_first data d : base58_destination m data = Some d -> exists b h, data = b :: h /\ length h = 20%nat /\ b <> 0 /\
  (forall x, hd_error (bech32_hrp m) = Some (char_of x) -> digit 58 x -> apart b x = true) /\
  ((d = CKeyID h /\ PUBKEY_ADDRESS m = [b]) \/ (d = CScriptID h /\ SCRIPT_ADDRESS m = [b])).
Proof.
  destruct (ok_digit m Hm) as (x & t & Eh & Hx & b1 & b2 & E1 & E2 & _ & (_ & H1 & A1) & (_ & H2 & A2)). unfold base58_destination. rewrite E1, E2.
  assert (forall y, hd_error (bech32_hrp m) = Some (char_of y) -> digit 58 y -> y = x) as Hy.
  { rewrite Eh. cbn [hd_error]. intros y Ey%(inj Some) Hy. destruct (char_of_spec y Hy) as (Ey' & _). destruct (char_of_spec x Hx) as (Ex & _). congruence. }
  unfold starts_with, size. cbn [length]. destruct data as [|b h]; [done|]. cbn [length take drop firstn skipn]. rewrite !take_0, !drop_0.
  destruct (Z.eqb_spec (Z.of_nat (S (length h))) (20 + Z.of_nat 1)) as [El|]; cbn [andb]; [|done]. repeat case_bool_decide; [| |done]; intros [= <-]; simplify_eq;
    eexists _, h; (split; [done|]); (split; [lia|]); (split; [done|]); (split; [|eauto]); intros y Ey Hyd; by rewrite (Hy y Ey Hyd).
Qed.
Lemma text_not_base58 v values r : Forall symbol (v :: values) -> DecodeBase58Check (bech32_Encode (bech32_hrp m) (v :: values)) = Some (Some r) ->
  Z.of_nat (length values) < 2 ^ 20 -> base58_destination m r = None.
Proof.
  intros Hv Ed Hl. destruct (base58_destination m r) as [d|] eqn:E; [|done]. destruct (base58_destination_first r d E) as (b & h & -> & Hh & Hb & Ha & _).
  destruct (bech32_text (bech32_hrp m) (v :: values) (ok_hrp m Hm) Hv) as [Ht El]. pose proof (ok_length m Hm). cbn [length] in El.
  destruct (hrp_text _ Ht) as (Hby & Hns & _). destruct (Check_any _ Hby ltac:(lia)) as (r' & E' & Hr). rewrite Ed in E'. injection E' as <-.
  destruct (Hr _ eq_refl) as [Hbh He]. specialize (He Hns). destruct (ok_digit m Hm) as (x & t & Eh & Hx & _).
  specialize (Ha x ltac:(by rewrite Eh) Hx). unfold apart in Ha. rewrite forallb_forall in Ha.
  assert (exists u, bech32_Encode (bech32_hrp m) (v :: values) = char_of x :: u) as [u Eu] by (unfold bech32_Encode; rewrite Eh; by eexists).
  destruct (Check_first b h _ x u Hbh Hb ltac:(cbn; lia) He Hx Eu) as (Hn & H1 & H2).
  rewrite Hh in Hn, H1, H2. change (Z.of_nat (20 + 4)) with 24 in *. revert Hn H1 H2. set (n := length _). intros Hn H1 H2. change ((24 + 1) * 138 / 100) with 34 in Hn.
  specialize (Ha n ltac:(apply in_seq; lia)). apply negb_true_iff, andb_false_iff in Ha. rewrite !Z.ltb_ge in Ha. lia.
Qed.

(** The symbols of a program. *)
Lemma program_symbols program : Forall is_byte program -> (length program <= 40)%nat -> exists symbols, ConvertBits 8 5 true program = (symbols, true) /\
  Forall symbol symbols /\ (length symbols <= 64)%nat /\ ConvertBits 5 8 false symbols = (program, true).
Proof.
  intros Hp Hl. destruct (ConvertBits_pad 8 5 program ltac:(lia) ltac:(lia) Hp) as (out & p & E & Hs & Hpp & El & _). exists out.
  split; [done|]. split; [done|]. split; [lia|]. by apply (ConvertBits_back 5 8 program out).
Qed.
Lemma DecodeDestination_text version program : Forall is_byte program -> (length program <= 40)%nat -> 0 <= version < 32 -> exists symbols, Forall symbol symbols /\ (length symbols <= 64)%nat /\
  fst (ConvertBits 8 5 true program) = symbols /\ ConvertBits 5 8 false symbols = (program, true) /\
  DecodeDestination m (bech32_Encode (bech32_hrp m) (version :: symbols)) = Some (bech32_destination m (bech32_Encode (bech32_hrp m) (version :: symbols))) /\
  bech32_Decode (bech32_Encode (bech32_hrp m) (version :: symbols)) = (bech32_hrp m, version :: symbols).
Proof.
  intros Hp Hl Hv. destruct (program_symbols program Hp Hl) as (symbols & E & Hs & Hls & Eb). exists symbols. rewrite E. do 4 (split; [done|]).
  assert (Forall symbol (version :: symbols)) as Ha by (by constructor). pose proof (ok_length m Hm) as Hh.
  destruct (bech32_text (bech32_hrp m) (version :: symbols) (ok_hrp m Hm) Ha) as [Ht El]. cbn [length] in El. destruct (hrp_text _ Ht) as (Hby & _ & Ec).
  split; [|apply bech32_Encode_Decode; [apply (ok_hrp m Hm) | | done | cbn [length]; lia]; destruct (ok_digit m Hm) as (? & ? & -> & _); done].
  unfold DecodeDestination. rewrite Ec. destruct (Check_any _ Hby ltac:(lia)) as (r & Er & _). rewrite Er. cbn [mbind option_bind]. destruct r as [data|]; [|done].
  by rewrite (text_not_base58 version symbols data Ha Er) by lia.
Qed.

Definition destination_bytes (d : CTxDestination) : Prop :=
  match d with
  | CNoDestination => True
  | CKeyID h | CScriptID h | WitnessV0KeyHash h | WitnessV0ScriptHash h | WitnessUnknown _ h => Forall is_byte h
  end.
Lemma DecodeDestination_base58 b h : is_byte b -> Forall is_byte h -> length h = 20%nat -> exists s, EncodeBase58Check (b :: h) = Some s /\
  forall d, base58_destination m (b :: h) = Some d -> DecodeDestination m s = Some d.
Proof.
  intros Hb Hh Hl. destruct (Check_roundtrip (b :: h) ltac:(by constructor) ltac:(cbn; lia)) as (s & E & Ed). exists s. split; [done|]. intros d Eb.
  unfold DecodeDestination. rewrite c_str_same; [|exact (Check_chars (b :: h) s ltac:(by constructor) ltac:(cbn; lia) E)].
  rewrite Ed. cbn [mbind option_bind]. by rewrite Eb.
Qed.

(** Every destination is printed, and read back. *)
Lemma EncodeDestination_decoded d : destination_ok d -> destination_bytes d -> exists s, EncodeDestination m d = Some s /\ DecodeDestination m s = Some d.
Proof.
  assert (forall version program, Forall is_byte program -> (length program <= 40)%nat -> 0 <= version < 32 ->
    exists symbols, fst (ConvertBits 8 5 true program) = symbols /\ ConvertBits 5 8 false symbols = (program, true) /\
    DecodeDestination m (bech32_Encode (bech32_hrp m) (version :: symbols)) = Some (
      if version =? 0 then if size program =? 20 then WitnessV0KeyHash program else if size program =? 32 then WitnessV0ScriptHash program else CNoDestination
      else if (version >? 16) || (size program <? 2) || (size program >? 40) then CNoDestination else WitnessUnknown version program)) as HW.
  { intros version program Hp Hl Hv. destruct (DecodeDestination_text version program Hp Hl Hv) as (symbols & _ & _ & Ef & Eb & Ed & Et).
    exists symbols. split; [done|]. split; [done|]. rewrite Ed. unfold bech32_destination. rewrite Et, bool_decide_eq_true_2 by done. by rewrite Eb. }
  destruct (ok_digit m Hm) as (_ & _ & _ & _ & b1 & b2 & E1 & E2 & Hne & (Hb1 & _) & (Hb2 & _)).
  destruct d as [|h|h|h|h|v p]; intros Hd Hb; cbn [destination_ok destination_bytes EncodeDestination] in *; [done|..].
  - rewrite E1. destruct (DecodeDestination_base58 b1 h Hb1 Hb Hd) as (s & E & Ed). exists s. split; [done|]. apply Ed.
    unfold base58_destination, starts_with, size. rewrite E1. cbn [length take drop firstn skipn]. rewrite Hd, take_0, drop_0, bool_decide_eq_true_2 by done. done.
  - rewrite E2. destruct (DecodeDestination_base58 b2 h Hb2 Hb Hd) as (s & E & Ed). exists s. split; [done|]. apply Ed.
    unfold base58_destination, starts_with, size. rewrite E1, E2. cbn [length take drop firstn skipn]. rewrite Hd, !take_0, !drop_0.
    rewrite bool_decide_eq_false_2 by congruence. rewrite bool_decide_eq_true_2 by done. done.
  - destruct (HW 0 h Hb ltac:(lia) ltac:(lia)) as (symbols & -> & _ & Ed). eexists. split; [done|]. cbn [app]. rewrite Ed. unfold size. by rewrite Hd.
  - destruct (HW 0 h Hb ltac:(lia) ltac:(lia)) as (symbols & -> & _ & Ed). eexists. split; [done|]. cbn [app]. rewrite Ed. unfold size. by rewrite Hd.
  - destruct Hd as [Hv Hp]. replace ((v <? 1) || (v >? 16) || (size p <? 2) || (size p >? 40)) with false by lia. rewrite u8_small by lia.
    destruct (HW v p Hb ltac:(unfold size in Hp; lia) ltac:(lia)) as (symbols & -> & _ & Ed). eexists. split; [done|]. cbn [app]. rewrite Ed.
    replace (v =? 0) with false by lia. by replace ((v >? 16) || (size p <? 2) || (size p >? 40)) with false by lia.
Qed.

(** No text makes it fail; what is accepted is how its destination is printed. *)
Lemma bech32_destination_encoded s d : bech32_destination m s = d -> d <> CNoDestination -> destination_ok d /\ EncodeDestination m d = Some (map LowerCase s).
Proof.
  intros <-. unfold bech32_destination. destruct (bech32_Decode s) as [hrp [|version symbols]] eqn:Ed; [done|]. case_bool_decide as Eh; [|done]. subst hrp.
  assert (bech32_hrp m <> []) as Hne by (destruct (ok_digit m Hm) as (? & ? & -> & _); done).
  pose proof (bech32_Decode_Encode s _ _ Ed Hne) as Ee. pose proof (bech32_Decode_symbols s _ _ Ed) as Hs. inversion_clear Hs as [|? ? Hv Hsy]. unfold symbol in Hv.
  destruct (ConvertBits 5 8 false symbols) as [data [|]] eqn:Ec; cbn [negb]; [|done]. destruct (ConvertBits_forth 5 8 symbols data ltac:(lia) ltac:(lia) ltac:(lia) Hsy Ec) as [_ Ef].
  destruct (Z.eqb_spec version 0) as [->|Hv0].
  - destruct (Z.eqb_spec (size data) 20) as [El|]; [|destruct (Z.eqb_spec (size data) 32) as [El|]; [|done]]; intros _; cbn [destination_ok EncodeDestination]; rewrite Ef, <- Ee;
      (split; [unfold size in El; lia | done]).
  - destruct (_ || _) eqn:El; [done|]. intros _. cbn [destination_ok EncodeDestination]. rewrite !orb_false_iff in El. split; [lia|].
    replace ((version <? 1) || (version >? 16) || (size data <? 2) || (size data >? 40)) with false by lia. rewrite u8_small, Ef, <- Ee by lia. done.
Qed.
Lemma DecodeDestination_encoded s : Forall is_byte s -> Forall (fun c => c <> 0) s -> Z.of_nat (length s) < 2 ^ 28 -> Forall (fun c => isspace c = false) s ->
  exists d, DecodeDestination m s = Some d /\
    (d = CNoDestination \/ (destination_ok d /\ (EncodeDestination m d = Some s \/ EncodeDestination m d = Some (map LowerCase s)))).
Proof.
  intros Hs H0 Hl Hns. unfold DecodeDestination. rewrite c_str_same by done. destruct (Check_any s Hs Hl) as (r & -> & Hr). cbn [mbind option_bind].
  assert (exists d, bech32_destination m s = d /\ (d = CNoDestination \/ (destination_ok d /\ EncodeDestination m d = Some (map LowerCase s)))) as (d & Ed & Hd).
  { eexists. split; [done|]. destruct (decide (bech32_destination m s = CNoDestination)) as [->|Hn]; [by left|]. right. by apply bech32_destination_encoded. }
  destruct r as [data|]; [destruct (base58_destination m data) as [d'|] eqn:Eb|].
  - exists d'. split; [done|]. right. destruct (Hr data eq_refl) as [_ He]. specialize (He Hns).
    destruct (base58_destination_first data d' Eb) as (b & h & -> & Hh & _ & _ & [[-> E] | [-> E]]); cbn [destination_ok EncodeDestination]; rewrite E; auto.
  - exists d. rewrite Ed. split; [done | tauto].
  - exists d. rewrite Ed. split; [done | tauto].
Qed.

(** A valid key is printed, read back and accepted. *)
Lemma Secret_roundtrip Check k junk : fValid k = true -> length (vch k) = 32%nat -> Forall is_byte (vch k) -> Check (vch k) = true ->
  exists b s, SetKey m k = Some b /\ ToString b = Some s /\ Secret_SetString m s = Some (b, true) /\ GetKey Check junk b = Some k.
Proof.
  destruct k as [valid compressed bytes]. cbn [fValid vch]. intros -> Hl Hb Hc. unfold SetKey, CKey_size. cbn [negb fValid vch fCompressed].
  change (Z.to_nat 32) with 32%nat. rewrite take_ge by lia. destruct (ok_secret m Hm) as (v & Ev & Hv).
  assert (forall tail, Forall is_byte tail -> (length tail <= 1)%nat -> exists s, ToString {| vchVersion := SECRET_KEY m; vchData := bytes ++ tail |} = Some s /\
    SetString s 1 = Some ({| vchVersion := SECRET_KEY m; vchData := bytes ++ tail |}, true)) as HS.
  { intros tail Ht Hlt. unfold ToString. cbn [vchVersion vchData]. rewrite Ev. destruct (Check_roundtrip ([v] ++ bytes ++ tail)) as (s & E & Ed);
      [apply Forall_app; split; [by constructor | by apply Forall_app] | rewrite !length_app; cbn; lia|].
    exists s. split; [done|]. unfold SetString. by rewrite Ed. }
  destruct compressed.
  - destruct (HS [1] ltac:(constructor; [unfold is_byte; lia | done]) ltac:(done)) as (s & Et & Es). cbn [SetData vchVersion vchData]. do 2 eexists. split; [done|]. split; [exact Et|].
    unfold Secret_SetString. rewrite Es. cbn [mbind option_bind andb]. unfold Secret_IsValid, GetKey, size. cbn [vchVersion vchData].
    rewrite length_app, Hl. cbn [length]. rewrite app_nth2, Hl by lia. cbn [nth Nat.sub]. rewrite bool_decide_eq_true_2 by done. split; [done|].
    change (negb (Z.of_nat (32 + 1) >=? 32)) with false. change (Z.of_nat (32 + 1) >? 32) with true. cbn [andb Z.eqb]. rewrite take_app_length' by lia.
    unfold CKey_Set, size. by rewrite Hl, Hc.
  - destruct (HS [] ltac:(done) ltac:(cbn; lia)) as (s & Et & Es). rewrite app_nil_r in *. do 2 eexists. split; [done|]. split; [exact Et|].
    unfold Secret_SetString. rewrite Es. cbn [mbind option_bind andb]. unfold Secret_IsValid, GetKey, size, SetData. cbn [vchVersion vchData].
    rewrite Hl. rewrite bool_decide_eq_true_2 by done. split; [done|]. change (negb (Z.of_nat 32 >=? 32)) with false. change (Z.of_nat 32 >? 32) with false. cbn [andb].
    rewrite take_ge by lia. unfold CKey_Set, size. by rewrite Hl, Hc.
Qed.
End correct.

(** C34: addresses and printed keys.  On each network every destination (a witness program of an
    unknown version having version 1 to 16 and 2 to 40 bytes) is printed without an assertion,
    and the text is decoded to it and nothing else: the two forms cannot be confused.  Any text
    of less than 2^28 bytes without spaces or zero bytes is decoded without an assertion, and what is accepted is a well-formed destination that is printed as that text, but
    for capitals in the second form.  A valid private key is printed, accepted and read back with
    its compression flag. *)
Theorem addresses_roundtrip : forall m, network m ->
  (forall d, destination_ok d -> destination_bytes d -> exists s, EncodeDestination m d = Some s /\ DecodeDestination m s = Some d) /\
  (forall s, Forall is_byte s -> Forall (fun c => c <> 0) s -> Z.of_nat (length s) < 2 ^ 28 -> Forall (fun c => isspace c = false) s ->
    exists d, DecodeDestination m s = Some d /\
      (d = CNoDestination \/ (destination_ok d /\ (EncodeDestination m d = Some s \/ EncodeDestination m d = Some (map LowerCase s))))) /\
  (forall Check k junk, fValid k = true -> length (vch k) = 32%nat -> Forall is_byte (vch k) -> Check (vch k) = true ->
    exists b s, SetKey m k = Some b /\ ToString b = Some s /\ Secret_SetString m s = Some (b, true) /\ GetKey Check junk b = Some k).
Proof.
  intros m Hm%networks_ok. split; [intros d; by apply EncodeDestination_decoded|]. split; [intros s; by apply DecodeDestination_encoded|].
  intros Check k junk. by apply Secret_roundtrip.
Qed.
Lemma addresses_roundtrip_witness : exists s, EncodeDestination CMainParams (WitnessUnknown 1 [1; 2]) = Some s /\ DecodeDestination CMainParams s = Some (WitnessUnknown 1 [1; 2]).
Proof. apply (proj1 (addresses_roundtrip CMainParams (or_introl eq_refl))); [repeat split; reflexivity || (intros E; discriminate E) | repeat constructor; unfold is_byte; lia]. Defined.
