(* ===== verification/ChainState.v ===== *)
(** The choice of the active chain ([src/src/main.cpp], [BlockStatus] of [src/src/chain.h]): the
    state of the blocks that are known, the candidates for the tip, and every operation that
    changes them: headers and blocks received, the activation of the best chain, blocks declared
    invalid and reconsidered.  What [ConnectBlock], [DisconnectBlock] and the disk answer is a
    class of operations.  The wallet, the memory pool, the peers and the entries to be written
    to disk are left out. *)
From S2P Require Import Prelude TxChecks Chain Uint256 Pow.

(** ** The state of a block *)

Definition BLOCK_VALID_HEADER : Z := 1.
Definition BLOCK_VALID_TREE : Z := 2.
Definition BLOCK_VALID_TRANSACTIONS : Z := 3.
Definition BLOCK_VALID_CHAIN : Z := 4.
Definition BLOCK_VALID_SCRIPTS : Z := 5.
Definition BLOCK_VALID_MASK : Z :=
  Z.lor (Z.lor (Z.lor (Z.lor BLOCK_VALID_HEADER BLOCK_VALID_TREE) BLOCK_VALID_TRANSACTIONS) BLOCK_VALID_CHAIN) BLOCK_VALID_SCRIPTS.
Definition BLOCK_HAVE_DATA : Z := 8.
Definition BLOCK_HAVE_UNDO : Z := 16.
Definition BLOCK_FAILED_VALID : Z := 32.
Definition BLOCK_FAILED_CHILD : Z := 64.
Definition BLOCK_FAILED_MASK : Z := Z.lor BLOCK_FAILED_VALID BLOCK_FAILED_CHILD.
Definition BLOCK_OPT_WITNESS : Z := 128.

(** The fields of [CBlockIndex] that change; the others are in the heap of [Chain]. *)
Record entry := mkEntry { nChainWork : Z; nTx : Z; nChainTx : Z; nStatus : Z; nSequenceId : Z }.
Definition entry_new : entry := mkEntry 0 0 0 0 0.
Definition with_status (e : entry) (st : Z) : entry := mkEntry (nChainWork e) (nTx e) (nChainTx e) st (nSequenceId e).
Definition flag (e : entry) (mask : Z) : bool := negb (Z.land (nStatus e) mask =? 0).
Definition set_flag (e : entry) (mask : Z) : entry := with_status e (Z.lor (nStatus e) mask).
Definition level (e : entry) : Z := Z.land (nStatus e) BLOCK_VALID_MASK.
Definition block_IsValid (e : entry) (nUpTo : Z) : bool := if flag e BLOCK_FAILED_MASK then false else level e >=? nUpTo.
Definition RaiseValidity (e : entry) (nUpTo : Z) : entry :=
  if flag e BLOCK_FAILED_MASK then e
  else if level e <? nUpTo then with_status e (Z.lor (Z.land (nStatus e) (Z.lnot BLOCK_VALID_MASK)) nUpTo) else e.

(** ** The state *)

(** The warnings and the best invalid block; nothing else reads them. *)
Record warnings := mkWarnings {
  pindexBestInvalid : option ptr;
  pindexBestForkTip : option ptr;
  pindexBestForkBase : option ptr;
  fLargeWorkForkFound : bool;
  fLargeWorkInvalidChainFound : bool
}.
Record chainstate := mkChain {
  blocks : heap;
  entries : gmap ptr entry;
  mapBlockIndex : gmap Z ptr;
  chainActive : CChain;
  setBlockIndexCandidates : gset ptr;
  mapBlocksUnlinked : list (ptr * ptr);
  nBlockSequenceId : Z;
  pindexBestHeader : option ptr;
  warn : warnings
}.
Definition set_entries (s : chainstate) (es : gmap ptr entry) : chainstate :=
  mkChain (blocks s) es (mapBlockIndex s) (chainActive s) (setBlockIndexCandidates s) (mapBlocksUnlinked s) (nBlockSequenceId s) (pindexBestHeader s) (warn s).
Definition set_active (s : chainstate) (c : CChain) : chainstate :=
  mkChain (blocks s) (entries s) (mapBlockIndex s) c (setBlockIndexCandidates s) (mapBlocksUnlinked s) (nBlockSequenceId s) (pindexBestHeader s) (warn s).
Definition set_candidates (s : chainstate) (c : gset ptr) : chainstate :=
  mkChain (blocks s) (entries s) (mapBlockIndex s) (chainActive s) c (mapBlocksUnlinked s) (nBlockSequenceId s) (pindexBestHeader s) (warn s).
Definition set_unlinked (s : chainstate) (u : list (ptr * ptr)) : chainstate :=
  mkChain (blocks s) (entries s) (mapBlockIndex s) (chainActive s) (setBlockIndexCandidates s) u (nBlockSequenceId s) (pindexBestHeader s) (warn s).
Definition set_warn (s : chainstate) (w : warnings) : chainstate :=
  mkChain (blocks s) (entries s) (mapBlockIndex s) (chainActive s) (setBlockIndexCandidates s) (mapBlocksUnlinked s) (nBlockSequenceId s) (pindexBestHeader s) w.
Definition next_sequence (s : chainstate) : chainstate :=
  mkChain (blocks s) (entries s) (mapBlockIndex s) (chainActive s) (setBlockIndexCandidates s) (mapBlocksUnlinked s) (u32 (nBlockSequenceId s + 1)) (pindexBestHeader s) (warn s).

(** Every block of the heap has an entry. *)
Definition entry_of (s : chainstate) (p : ptr) : entry := default entry_new (entries s !! p).
Definition set_entry (s : chainstate) (p : ptr) (e : entry) : chainstate := set_entries s (<[p := e]> (entries s)).
Definition Tip (s : chainstate) : option ptr := chain_Tip (chainActive s).
Definition Contains (s : chainstate) (p : ptr) : option bool := chain_Contains (blocks s) (chainActive s) p.
Definition insert_candidate (s : chainstate) (p : ptr) : chainstate := set_candidates s ({[p]} ∪ setBlockIndexCandidates s).
Definition erase_candidate (s : chainstate) (p : ptr) : chainstate := set_candidates s (setBlockIndexCandidates s ∖ {[p]}).

(** [CBlockIndexWorkComparator]: [pa] is sorted before [pb]. *)
Definition worse (s : chainstate) (pa pb : ptr) : bool :=
  let a := entry_of s pa in let b := entry_of s pb in
  if nChainWork a >? nChainWork b then false else if nChainWork a <? nChainWork b then true
  else if nSequenceId a <? nSequenceId b then false else if nSequenceId a >? nSequenceId b then true
  else if pa <? pb then false else pa >? pb.
(** The first and the last of the set in that order. *)
Definition extreme (better : ptr -> ptr -> bool) (c : gset ptr) : option ptr :=
  foldr (fun p best => match best with Some q => if better p q then Some p else Some q | None => Some p end) None (elements c).
Definition begin_ (s : chainstate) : option ptr := extreme (fun p q => worse s p q) (setBlockIndexCandidates s).
Definition rbegin (s : chainstate) : option ptr := extreme (fun p q => worse s q p) (setBlockIndexCandidates s).

(** ** Warnings *)

(** [GetBlockProof] as a number. *)
Definition block_proof (b : CBlockIndex) : option Z := val <$> GetBlockProof b.
Definition u256 (z : Z) : Z := z mod 2 ^ 256.

(** What the clock, the disk and the contents of the blocks answer. *)
Inductive connect_result := Connects | Refuses (state : CValidationState) (fRaised : bool).
Class NodeEnv := {
  IsInitialBlockDownload : chainstate -> bool;
  ReadBlockFromDisk : ptr -> bool;
  DisconnectBlock : chainstate -> ptr -> CValidationState -> bool * CValidationState;
  ConnectBlock : chainstate -> ptr -> bool -> CValidationState -> connect_result;
  FlushStateToDisk : chainstate -> CValidationState -> bool * CValidationState;
  stake_fields : heap -> CBlockIndex -> Z * Z
}.

Section chain_state.
Context `{NodeEnv}.

Definition CheckForkWarningConditions (s : chainstate) : option chainstate :=
  if IsInitialBlockDownload s then Some s else
  let w := warn s in
  forkTip ← match pindexBestForkTip w with
            | Some t => b ← blocks s !! t; Some (if chain_Height (chainActive s) - nHeight b >=? 72 then None else Some t)
            | None => Some None
            end;
  large ← match forkTip, pindexBestInvalid w with
          | Some _, _ => Some true
          | None, Some i =>
              t ← Tip s; b ← blocks s !! t; proof ← block_proof b;
              Some (nChainWork (entry_of s i) >? u256 (nChainWork (entry_of s t) + u256 (proof * 6)))
          | None, None => Some false
          end;
  Some (set_warn s (
    if large : bool then
      match forkTip, pindexBestForkBase w with
      | Some _, Some _ => mkWarnings (pindexBestInvalid w) forkTip (pindexBestForkBase w) true (fLargeWorkInvalidChainFound w)
      | _, _ => mkWarnings (pindexBestInvalid w) forkTip (pindexBestForkBase w) (fLargeWorkForkFound w) true
      end
    else mkWarnings (pindexBestInvalid w) forkTip (pindexBestForkBase w) false false)).

(** The loops of [CheckForkWarningConditionsOnNewFork]. *)
Fixpoint lower_to (h : heap) (fuel : nat) (plonger : option ptr) (height : Z) : option (option ptr) :=
  match plonger with
  | None => Some None
  | Some l =>
      b ← h !! l;
      if nHeight b >? height then match fuel with O => None | S fuel' => lower_to h fuel' (pprev b) height end
      else Some plonger
  end.
Fixpoint fork_loop (h : heap) (fuel : nat) (pfork plonger : option ptr) : option (option ptr) :=
  match pfork with
  | None => Some None
  | Some f =>
      if bool_decide (pfork = plonger) then Some pfork else
      b ← h !! f;
      plonger ← lower_to h (match plonger with Some l => match h !! l with Some c => Z.to_nat (nHeight c) | None => O end | None => O end) plonger (nHeight b);
      if bool_decide (pfork = plonger) then Some pfork
      else match fuel with O => None | S fuel' => fork_loop h fuel' (pprev b) plonger end
  end.
Definition CheckForkWarningConditionsOnNewFork (s : chainstate) (pindexNewForkTip : ptr) : option chainstate :=
  b ← blocks s !! pindexNewForkTip;
  pfork ← fork_loop (blocks s) (S (Z.to_nat (nHeight b))) (Some pindexNewForkTip) (Tip s);
  let w := warn s in
  higher ← match pindexBestForkTip w with None => Some true | Some t => c ← blocks s !! t; Some (nHeight b >? nHeight c) end;
  found ← match pfork with
          | Some f =>
              if higher : bool then
                c ← blocks s !! f; proof ← block_proof c;
                Some ((u256 (nChainWork (entry_of s pindexNewForkTip) - nChainWork (entry_of s f)) >? u256 (proof * 7)) &&
                      (chain_Height (chainActive s) - nHeight b <? 72))
              else Some false
          | None => Some false
          end;
  CheckForkWarningConditions (if found : bool then
    set_warn s (mkWarnings (pindexBestInvalid w) (Some pindexNewForkTip) pfork (fLargeWorkForkFound w) (fLargeWorkInvalidChainFound w)) else s).

(** The messages it logs read the tip. *)
Definition InvalidChainFound (s : chainstate) (pindexNew : ptr) : option chainstate :=
  let w := warn s in
  let best := match pindexBestInvalid w with
              | None => Some pindexNew
              | Some i => if nChainWork (entry_of s pindexNew) >? nChainWork (entry_of s i) then Some pindexNew else Some i
              end in
  let s := set_warn s (mkWarnings best (pindexBestForkTip w) (pindexBestForkBase w) (fLargeWorkForkFound w) (fLargeWorkInvalidChainFound w)) in
  _ ← Tip s; CheckForkWarningConditions s.
Definition InvalidBlockFound (s : chainstate) (pindex : ptr) (state : CValidationState) : option chainstate :=
  if corruptionPossible state then Some s else
  let s := set_entry s pindex (set_flag (entry_of s pindex) BLOCK_FAILED_VALID) in
  InvalidChainFound (erase_candidate s pindex) pindex.

(** ** Steps of the tip *)

Definition UpdateTip (s : chainstate) (pindexNew : option ptr) : option chainstate :=
  c ← SetTip (blocks s) (chainActive s) pindexNew;
  let s := set_active s c in
  _ ← Tip s; Some s.
Definition DisconnectTip (s : chainstate) (state : CValidationState) : option (chainstate * CValidationState * bool) :=
  pindexDelete ← Tip s;
  if negb (ReadBlockFromDisk pindexDelete) then Some (s, snd (Error "Failed to read block" state), false) else
  let '(ok, state) := DisconnectBlock s pindexDelete state in
  if negb ok then Some (s, state, false) else
  let '(ok, state) := FlushStateToDisk s state in
  if negb ok then Some (s, state, false) else
  b ← blocks s !! pindexDelete;
  s ← UpdateTip s (pprev b);
  Some (s, state, true).

(** What [ConnectBlock] does to the entry of the block: the undo data is written; the first
    block has none. *)
Definition connected (s : chainstate) (p : ptr) : chainstate :=
  match blocks s !! p with
  | Some b =>
      match pprev b with
      | None => s
      | Some _ =>
          let e := entry_of s p in
          if negb (flag e BLOCK_HAVE_UNDO) || negb (block_IsValid e BLOCK_VALID_SCRIPTS) then
            let e := if negb (flag e BLOCK_HAVE_UNDO) then set_flag e BLOCK_HAVE_UNDO else e in
            set_entry s p (RaiseValidity e BLOCK_VALID_SCRIPTS)
          else s
      end
  | None => s
  end.
(** [fGiven]: the block is passed in [pblock]. *)
Definition ConnectTip (s : chainstate) (state : CValidationState) (pindexNew : ptr) (fGiven fAlreadyChecked : bool) :
    option (chainstate * CValidationState * bool) :=
  b ← blocks s !! pindexNew;
  if negb (bool_decide (pprev b = Tip s)) then None else
  let fAlreadyChecked := if fGiven then fAlreadyChecked else false in
  if negb fGiven && negb (ReadBlockFromDisk pindexNew) then Some (s, snd (Error "Failed to read block" state), false) else
  match ConnectBlock s pindexNew fAlreadyChecked state with
  | Refuses state fRaised =>
      let s := if fRaised then connected s pindexNew else s in
      s ← (if IsInvalid state then InvalidBlockFound s pindexNew state else Some s);
      Some (s, state, false)
  | Connects =>
      let s := connected s pindexNew in
      let '(ok, state) := FlushStateToDisk s state in
      if negb ok then Some (s, state, false) else
      s ← UpdateTip s (Some pindexNew);
      Some (s, state, true)
  end.

(** ** The best chain *)

(** From the candidate towards the active chain: the first block that cannot be used, with
    [fFailedChain]; [None] is the failed assertion. *)
Fixpoint path_test (fuel : nat) (s : chainstate) (pindexTest : option ptr) : option (option (ptr * bool)) :=
  match pindexTest with
  | None => Some None
  | Some p =>
      c ← Contains s p;
      if c : bool then Some None else
      b ← blocks s !! p;
      let e := entry_of s p in
      if (nChainTx e =? 0) && negb (nHeight b =? 0) then None else
      let fFailedChain := flag e BLOCK_FAILED_MASK in
      let fMissingData := negb (flag e BLOCK_HAVE_DATA) in
      if fFailedChain || fMissingData then Some (Some (p, fFailedChain))
      else match fuel with O => None | S fuel' => path_test fuel' s (pprev b) end
  end.
(** "Remove the entire chain from the set." *)
Fixpoint remove_path (fuel : nat) (s : chainstate) (pindexTest pindexFailed : ptr) (fFailedChain : bool) : option chainstate :=
  if bool_decide (pindexTest = pindexFailed) then Some s else
  b ← blocks s !! pindexFailed;
  prev ← pprev b;
  let s := if fFailedChain then set_entry s pindexFailed (set_flag (entry_of s pindexFailed) BLOCK_FAILED_CHILD)
           else set_unlinked s (mapBlocksUnlinked s ++ [(prev, pindexFailed)]) in
  let s := erase_candidate s pindexFailed in
  match fuel with O => None | S fuel' => remove_path fuel' s pindexTest prev fFailedChain end.
Definition height_fuel (s : chainstate) (p : ptr) : nat := match blocks s !! p with Some b => S (Z.to_nat (nHeight b)) | None => O end.
Fixpoint FindMostWorkChain (fuel : nat) (s : chainstate) : option (chainstate * option ptr) :=
  match fuel with
  | O => None
  | S fuel' =>
      match rbegin s with
      | None => Some (s, None)
      | Some pindexNew =>
          t ← path_test (height_fuel s pindexNew) s (Some pindexNew);
          match t with
          | None => Some (s, Some pindexNew)
          | Some (pindexTest, fFailedChain) =>
              let w := warn s in
              let best := if fFailedChain && match pindexBestInvalid w with None => true | Some i => nChainWork (entry_of s pindexNew) >? nChainWork (entry_of s i) end
                          then Some pindexNew else pindexBestInvalid w in
              let s := set_warn s (mkWarnings best (pindexBestForkTip w) (pindexBestForkBase w) (fLargeWorkForkFound w) (fLargeWorkInvalidChainFound w)) in
              s ← remove_path (height_fuel s pindexNew) s pindexTest pindexNew fFailedChain;
              FindMostWorkChain fuel' (erase_candidate s pindexTest)
          end
      end
  end.

(** While the first candidate is worse than the tip, it is erased. *)
Fixpoint prune_loop (fuel : nat) (s : chainstate) (tip : ptr) : chainstate :=
  match fuel, begin_ s with
  | S fuel', Some p => if worse s p tip then prune_loop fuel' (erase_candidate s p) tip else s
  | _, _ => s
  end.
Definition PruneBlockIndexCandidates (s : chainstate) : option chainstate :=
  tip ← Tip s;
  let s := prune_loop (size (setBlockIndexCandidates s)) s tip in
  if bool_decide (setBlockIndexCandidates s = ∅) then None else Some s.

(** "Disconnect active blocks which are no longer in the best chain." *)
Fixpoint disconnect_to (fuel : nat) (s : chainstate) (state : CValidationState) (pindexFork : option ptr) :
    option (chainstate * CValidationState * bool) :=
  match Tip s with
  | None => Some (s, state, true)
  | Some t =>
      if bool_decide (Some t = pindexFork) then Some (s, state, true) else
      match fuel with
      | O => None
      | S fuel' =>
          '(s, state, ok) ← DisconnectTip s state;
          if ok : bool then disconnect_to fuel' s state pindexFork else Some (s, state, false)
      end
  end.
(** [vpindexToConnect]: from the block at [nTargetHeight] back to the one above [nHeight]. *)
Fixpoint to_connect (fuel : nat) (h : heap) (pindexIter : option ptr) (height : Z) : option (list ptr) :=
  match pindexIter with
  | None => Some []
  | Some p =>
      b ← h !! p;
      if nHeight b =? height then Some []
      else match fuel with O => None | S fuel' => l ← to_connect fuel' h (pprev b) height; Some (p :: l) end
  end.
(** How the connection of some blocks ended. *)
Inductive progress := All_connected | Better_tip | Invalid_found | System_error.
(** The blocks in the order they are connected; [back] is [vpindexToConnect.back()]. *)
Fixpoint connect_blocks (s : chainstate) (state : CValidationState) (l : list ptr) (back pindexMostWork : ptr) (fGiven fAlreadyChecked : bool)
    (pindexOldTip : option ptr) : option (chainstate * CValidationState * progress) :=
  match l with
  | [] => Some (s, state, All_connected)
  | p :: l =>
      '(s, state, ok) ← ConnectTip s state p (bool_decide (p = pindexMostWork) && fGiven) fAlreadyChecked;
      if ok : bool then
        s ← PruneBlockIndexCandidates s;
        t ← Tip s;
        if match pindexOldTip with None => true | Some o => nChainWork (entry_of s t) >? nChainWork (entry_of s o) end
        then Some (s, state, Better_tip)
        else connect_blocks s state l back pindexMostWork fGiven fAlreadyChecked pindexOldTip
      else if IsInvalid state then
        s ← (if corruptionPossible state then Some s else InvalidChainFound s back);
        Some (s, CValidationState_new, Invalid_found)
      else Some (s, state, System_error)
  end.
(** The loop over groups of 32 blocks, and [vpindexToConnect.back()] after it. *)
Fixpoint connect_loop (fuel : nat) (s : chainstate) (state : CValidationState) (nHeight_ : Z) (pindexMostWork : ptr) (fGiven fAlreadyChecked : bool)
    (pindexOldTip : option ptr) : option (chainstate * CValidationState * progress * option ptr) :=
  b ← blocks s !! pindexMostWork;
  if nHeight_ =? nHeight b then Some (s, state, All_connected, None) else
  match fuel with
  | O => None
  | S fuel' =>
      let nTargetHeight := Z.min (nHeight_ + 32) (nHeight b) in
      pindexIter ← GetAncestor (blocks s) pindexMostWork nTargetHeight;
      vpindexToConnect ← to_connect (Z.to_nat (nTargetHeight - nHeight_)) (blocks s) pindexIter nHeight_;
      back ← head (rev vpindexToConnect);
      '(s, state, r) ← connect_blocks s state (rev vpindexToConnect) back pindexMostWork fGiven fAlreadyChecked pindexOldTip;
      match r with
      | All_connected => connect_loop fuel' s state nTargetHeight pindexMostWork fGiven fAlreadyChecked pindexOldTip
      | _ => Some (s, state, r, Some back)
      end
  end.
Definition ActivateBestChainStep (s : chainstate) (state : CValidationState) (pindexMostWork : ptr) (fGiven fAlreadyChecked : bool) :
    option (chainstate * CValidationState * bool) :=
  let fAlreadyChecked := if fGiven then fAlreadyChecked else false in
  let pindexOldTip := Tip s in
  pindexFork ← FindFork (blocks s) (chainActive s) pindexMostWork;
  '(s, state, ok) ← disconnect_to (length (chainActive s)) s state pindexFork;
  if negb ok then Some (s, state, false) else
  nHeight_ ← match pindexFork with Some f => b ← blocks s !! f; Some (nHeight b) | None => Some (-1) end;
  '(s, state, r, back) ← connect_loop (height_fuel s pindexMostWork) s state nHeight_ pindexMostWork fGiven fAlreadyChecked pindexOldTip;
  match r with
  | System_error => Some (s, state, false)
  | Invalid_found => b ← back; s ← CheckForkWarningConditionsOnNewFork s b; Some (s, state, true)
  | All_connected | Better_tip => s ← CheckForkWarningConditions s; Some (s, state, true)
  end.
(** [pblock]: the hash of the block that is passed, if there is one. *)
Fixpoint ActivateBestChain (fuel : nat) (s : chainstate) (state : CValidationState) (pblock : option Z) (fAlreadyChecked : bool) :
    option (chainstate * CValidationState * bool) :=
  match fuel with
  | O => None
  | S fuel' =>
      '(s, pindexMostWork) ← FindMostWorkChain (S (size (setBlockIndexCandidates s))) s;
      match pindexMostWork with
      | None => Some (s, state, true)
      | Some m =>
          if bool_decide (Tip s = Some m) then Some (s, state, true) else
          b ← blocks s !! m;
          '(s, state, ok) ← ActivateBestChainStep s state m (bool_decide (pblock = Some (phashBlock b))) fAlreadyChecked;
          if negb ok then Some (s, state, false) else
          if bool_decide (Tip s = Some m) then let '(ok, state) := FlushStateToDisk s state in Some (s, state, ok)
          else ActivateBestChain fuel' s state pblock fAlreadyChecked
      end
  end.

(** ** Blocks declared invalid, and reconsidered *)

Fixpoint invalidate_loop (fuel : nat) (s : chainstate) (state : CValidationState) (pindex : ptr) : option (chainstate * CValidationState * bool) :=
  c ← Contains s pindex;
  if negb c then Some (s, state, true) else
  match fuel with
  | O => None
  | S fuel' =>
      pindexWalk ← Tip s;
      let s := set_entry s pindexWalk (set_flag (entry_of s pindexWalk) BLOCK_FAILED_CHILD) in
      '(s, state, ok) ← DisconnectTip (erase_candidate s pindexWalk) state;
      if ok : bool then invalidate_loop fuel' s state pindex else Some (s, state, false)
  end.
(** All blocks of [mapBlockIndex]. *)
Definition all_blocks (s : chainstate) : list ptr := (map_to_list (mapBlockIndex s)).*2.
Fixpoint readd_candidates (l : list ptr) (s : chainstate) (tip : ptr) : chainstate :=
  match l with
  | [] => s
  | p :: l =>
      let e := entry_of s p in
      readd_candidates l (if block_IsValid e BLOCK_VALID_TRANSACTIONS && negb (nChainTx e =? 0) && negb (worse s p tip) then insert_candidate s p else s) tip
  end.
Definition InvalidateBlock (s : chainstate) (state : CValidationState) (pindex : ptr) : option (chainstate * CValidationState * bool) :=
  let s := set_entry s pindex (set_flag (entry_of s pindex) BLOCK_FAILED_VALID) in
  let s := erase_candidate s pindex in
  '(s, state, ok) ← invalidate_loop (length (chainActive s)) s state pindex;
  if negb ok then Some (s, state, false) else
  tip ← Tip s;
  s ← InvalidChainFound (readd_candidates (all_blocks s) s tip) pindex;
  Some (s, state, true).

Definition clear_failed (e : entry) : entry := with_status e (Z.land (nStatus e) (Z.lnot BLOCK_FAILED_MASK)).
Fixpoint reconsider_loop (l : list ptr) (s : chainstate) (pindex : ptr) (height : Z) : option chainstate :=
  match l with
  | [] => Some s
  | p :: l =>
      if block_IsValid (entry_of s p) BLOCK_VALID_TRANSACTIONS then reconsider_loop l s pindex height else
      a ← GetAncestor (blocks s) p height;
      if negb (bool_decide (a = Some pindex)) then reconsider_loop l s pindex height else
      let s := set_entry s p (clear_failed (entry_of s p)) in
      s ← (if block_IsValid (entry_of s p) BLOCK_VALID_TRANSACTIONS && negb (nChainTx (entry_of s p) =? 0) then
             tip ← Tip s; Some (if worse s tip p then insert_candidate s p else s)
           else Some s);
      let w := warn s in
      reconsider_loop l (if bool_decide (pindexBestInvalid w = Some p)
        then set_warn s (mkWarnings None (pindexBestForkTip w) (pindexBestForkBase w) (fLargeWorkForkFound w) (fLargeWorkInvalidChainFound w)) else s) pindex height
  end.
Fixpoint clear_ancestors (fuel : nat) (s : chainstate) (pindex : option ptr) : option chainstate :=
  match pindex with
  | None => Some s
  | Some p =>
      b ← blocks s !! p;
      let e := entry_of s p in
      let s := if flag e BLOCK_FAILED_MASK then set_entry s p (clear_failed e) else s in
      match fuel with O => None | S fuel' => clear_ancestors fuel' s (pprev b) end
  end.
Definition ReconsiderBlock (s : chainstate) (pindex : ptr) : option chainstate :=
  b ← blocks s !! pindex;
  s ← reconsider_loop (all_blocks s) s pindex (nHeight b);
  clear_ancestors (height_fuel s pindex) s (Some pindex).

(** ** Headers and blocks that arrive *)

(** [pindexNew] is where the new object is allocated, [b] the object made from the header. *)
Definition AddToBlockIndex (s : chainstate) (pindexNew : ptr) (b : CBlockIndex) (hashPrevBlock : Z) : option (chainstate * ptr) :=
  match mapBlockIndex s !! phashBlock b with
  | Some p => Some (s, p)
  | None =>
      b' ← match mapBlockIndex s !! hashPrevBlock with
           | Some q =>
               b ← link_block (blocks s) b q;
               let '(stakeModifier, flags) := stake_fields (blocks s) b in
               Some (mkBlockIndex (phashBlock b) (pprev b) (pskip b) (nHeight b) (nVersion b) (nTime b) (nBits b) flags stakeModifier)
           | None => Some b
           end;
      proof ← block_proof b';
      let prevWork := match pprev b' with Some q => nChainWork (entry_of s q) | None => 0 end in
      let e := RaiseValidity (mkEntry (u256 (prevWork + proof)) 0 0 0 0) BLOCK_VALID_TREE in
      let header := match pindexBestHeader s with
                    | None => pindexNew
                    | Some q => if nChainWork (entry_of s q) <? nChainWork e then pindexNew else q
                    end in
      Some (mkChain (<[pindexNew := b']> (blocks s)) (<[pindexNew := e]> (entries s)) (<[phashBlock b := pindexNew]> (mapBlockIndex s)) (chainActive s)
              (setBlockIndexCandidates s) (mapBlocksUnlinked s) (nBlockSequenceId s) (Some header) (warn s), pindexNew)
  end.

(** One block that is linked: its count, its place in the order of arrival, and whether it is a
    candidate; and the blocks that waited for it. *)
Definition link_one (s : chainstate) (p : ptr) : option (chainstate * list ptr) :=
  b ← blocks s !! p;
  let e := entry_of s p in
  let prevTx := match pprev b with Some q => nChainTx (entry_of s q) | None => 0 end in
  let s := next_sequence (set_entry s p (mkEntry (nChainWork e) (nTx e) (u32 (prevTx + nTx e)) (nStatus e) (nBlockSequenceId s))) in
  let s := match Tip s with
           | None => insert_candidate s p
           | Some t => if worse s p t then s else insert_candidate s p
           end in
  let waiting := List.filter (fun x => fst x =? p) (mapBlocksUnlinked s) in
  Some (set_unlinked s (List.filter (fun x => negb (fst x =? p)) (mapBlocksUnlinked s)), map snd waiting).
Fixpoint link_loop (fuel : nat) (s : chainstate) (queue : list ptr) : option chainstate :=
  match queue with
  | [] => Some s
  | p :: queue =>
      match fuel with
      | O => None
      | S fuel' => '(s, more) ← link_one s p; link_loop fuel' s (queue ++ more)
      end
  end.
(** [nVtx] is the number of transactions of the block; where it lies on the disk is left out. *)
Definition ReceivedBlockTransactions (s : chainstate) (pindexNew : ptr) (nVtx : Z) : option chainstate :=
  b ← blocks s !! pindexNew;
  let e := entry_of s pindexNew in
  let e := mkEntry (nChainWork e) (u32 nVtx) 0 (Z.lor (nStatus e) (Z.lor BLOCK_HAVE_DATA BLOCK_OPT_WITNESS)) (nSequenceId e) in
  let s := set_entry s pindexNew (RaiseValidity e BLOCK_VALID_TRANSACTIONS) in
  match pprev b with
  | None => link_loop (S (length (mapBlocksUnlinked s))) s [pindexNew]
  | Some q =>
      if negb (nChainTx (entry_of s q) =? 0) then link_loop (S (length (mapBlocksUnlinked s))) s [pindexNew]
      else if block_IsValid (entry_of s q) BLOCK_VALID_TREE then Some (set_unlinked s (mapBlocksUnlinked s ++ [(q, pindexNew)]))
      else Some s
  end.
End chain_state.
