(* ===== verification/ChainInv.v ===== *)
(** The invariant of the known blocks: what [CheckBlockIndex] of [src/src/main.cpp] asserts, in a
    form that the operations of [ChainState] preserve; and that headers and blocks that arrive
    preserve it. *)
From S2P Require Import Prelude TxChecks Chain Uint256 Pow ChainState.

(** ** Bits of the status *)

Definition bit (e : entry) (n : Z) : bool := Z.testbit (nStatus e) n.
Lemma flag_bit e n : 0 <= n -> flag e (2 ^ n) = bit e n.
Proof. intros Hn. unfold flag, bit. rewrite land_pow2_eqb by done. apply negb_involutive. Qed.
Lemma flag_data e : flag e BLOCK_HAVE_DATA = bit e 3.
Proof. apply (flag_bit e 3). lia. Qed.
Lemma flag_valid e : flag e BLOCK_FAILED_VALID = bit e 5.
Proof. apply (flag_bit e 5). lia. Qed.
Lemma flag_child e : flag e BLOCK_FAILED_CHILD = bit e 6.
Proof. apply (flag_bit e 6). lia. Qed.
Lemma flag_failed e : flag e BLOCK_FAILED_MASK = bit e 5 || bit e 6.
Proof.
  rewrite <- flag_valid, <- flag_child. unfold flag, BLOCK_FAILED_MASK. rewrite Z.land_lor_distr_r.
  apply eq_true_iff_eq. rewrite orb_true_iff, !negb_true_iff, !Z.eqb_neq, Z.lor_eq_0_iff. lia.
Qed.
Lemma level_mod e : level e = nStatus e mod 8.
Proof. apply (land_ones_mod _ 3). lia. Qed.
Lemma level_bound e : 0 <= level e < 8.
Proof. rewrite level_mod. apply Z.mod_pos_bound. lia. Qed.

Lemma bit_set_flag e n k : 0 <= k -> bit (set_flag e (2 ^ k)) n = bit e n || (n =? k).
Proof.
  intros Hk. unfold bit, set_flag, with_status. cbn [nStatus]. rewrite Z.lor_spec. f_equal.
  rewrite Z.pow2_bits_eqb by done. apply Z.eqb_sym.
Qed.
Lemma level_set_flag e k : 3 <= k -> level (set_flag e (2 ^ k)) = level e.
Proof.
  intros Hk. unfold level, set_flag, with_status. cbn [nStatus]. rewrite Z.land_lor_distr_l.
  assert (Z.land (2 ^ k) BLOCK_VALID_MASK = 0) as ->; [|apply Z.lor_0_r].
  change BLOCK_VALID_MASK with (2 ^ 3 - 1). rewrite land_ones_mod by lia. replace k with (3 + (k - 3)) by lia. rewrite Z.pow_add_r by lia.
  rewrite Z.mul_comm. apply Z.mod_mul. lia.
Qed.
Lemma bit_Raise e u n : 0 <= u < 8 -> 3 <= n -> bit (RaiseValidity e u) n = bit e n.
Proof.
  intros Hu Hn. unfold RaiseValidity. repeat case_match; try done. unfold bit, with_status. cbn [nStatus].
  rewrite Z.lor_spec, Z.land_spec, Z.lnot_spec by lia. rewrite (testbit_high u 3 n) by lia.
  change BLOCK_VALID_MASK with 7. rewrite (testbit_high 7 3 n) by lia. by rewrite andb_true_r, orb_false_r.
Qed.
Lemma level_Raise e u : 0 <= u < 8 -> level (RaiseValidity e u) = if bit e 5 || bit e 6 then level e else Z.max (level e) u.
Proof.
  intros Hu. unfold RaiseValidity. rewrite flag_failed. destruct (bit e 5 || bit e 6); [done|]. destruct (Z.ltb_spec (level e) u) as [Hl|Hl]; [|lia].
  rewrite Z.max_r by lia. unfold level, with_status. cbn [nStatus]. rewrite Z.land_lor_distr_l, <- Z.land_assoc, (Z.land_comm (Z.lnot _)), Z.land_lnot_diag, Z.land_0_r, Z.lor_0_l.
  change BLOCK_VALID_MASK with (2 ^ 3 - 1). rewrite land_ones_mod by lia. apply Z.mod_small. lia.
Qed.
Lemma Raise_fields e u : nChainWork (RaiseValidity e u) = nChainWork e /\ nTx (RaiseValidity e u) = nTx e /\
  nChainTx (RaiseValidity e u) = nChainTx e /\ nSequenceId (RaiseValidity e u) = nSequenceId e.
Proof. unfold RaiseValidity. by repeat case_match. Qed.
Lemma bit_clear e n : bit (clear_failed e) n = bit e n && negb ((n =? 5) || (n =? 6)).
Proof.
  unfold bit, clear_failed, with_status. cbn [nStatus]. rewrite Z.land_spec. destruct (Z.lt_ge_cases n 0) as [Hn|Hn]; [by rewrite (Z.testbit_neg_r (nStatus e))|].
  rewrite Z.lnot_spec by done. f_equal. f_equal. change BLOCK_FAILED_MASK with (Z.lor (2 ^ 5) (2 ^ 6)). rewrite Z.lor_spec, !Z.pow2_bits_eqb by lia.
  by rewrite (Z.eqb_sym 5), (Z.eqb_sym 6).
Qed.
Lemma level_clear e : level (clear_failed e) = level e.
Proof. unfold level, clear_failed, with_status. cbn [nStatus]. rewrite <- Z.land_assoc. done. Qed.

(** ** The order of the candidates *)

Section order.
Context (s : chainstate).
Local Abbreviation work p := (nChainWork (entry_of s p)).
Local Abbreviation seq p := (nSequenceId (entry_of s p)).

Lemma worse_spec a b : worse s a b = true <-> work a < work b \/ (work a = work b /\ (seq b < seq a \/ (seq a = seq b /\ b < a))).
Proof.
  unfold worse. destruct (Z.gtb_spec (work a) (work b)); [split; [done | lia]|]. destruct (Z.ltb_spec (work a) (work b)); [split; [lia | done]|].
  destruct (Z.ltb_spec (seq a) (seq b)); [split; [done | lia]|]. destruct (Z.gtb_spec (seq a) (seq b)); [split; [lia | done]|].
  destruct (Z.ltb_spec a b); [split; [done | lia]|]. rewrite Z.gtb_lt. lia.
Qed.
Lemma worse_irrefl a : worse s a a = false.
Proof. apply not_true_iff_false. rewrite worse_spec. lia. Qed.
Lemma worse_trans a b c : worse s a b = true -> worse s b c = true -> worse s a c = true.
Proof. rewrite !worse_spec. lia. Qed.
Lemma worse_total a b : worse s a b = false -> worse s b a = false -> a = b.
Proof. rewrite <- !not_true_iff_false, !worse_spec. lia. Qed.
Lemma worse_neg_trans a b c : worse s a b = false -> worse s b c = false -> worse s a c = false.
Proof. rewrite <- !not_true_iff_false, !worse_spec. lia. Qed.
Lemma worse_mixed a b c : worse s a b = true -> worse s c b = false -> worse s a c = true.
Proof. rewrite <- not_true_iff_false, !worse_spec. lia. Qed.
End order.

Lemma extreme_spec better c :
  (forall a, better a a = false) -> (forall a b d, better a b = true -> better b d = true -> better a d = true) ->
  match extreme better c with None => c = ∅ | Some p => p ∈ c /\ forall q, q ∈ c -> better q p = false end.
Proof.
  intros Hi Ht. unfold extreme.
  assert (forall l, match foldr (fun p best => match best with Some q => if better p q then Some p else Some q | None => Some p end) None l with
    | None => l = [] | Some p => p ∈ l /\ forall q, q ∈ l -> better q p = false end) as Hl.
  { induction l as [|x l IH]; cbn [foldr]; [done|]. destruct (foldr _ None l) as [q|].
    - destruct IH as [Hq Hm]. destruct (better x q) eqn:Ex.
      + split; [left|]. intros r [->|Hr]%elem_of_cons; [apply Hi|]. destruct (better r x) eqn:Er; [|done]. pose proof (Ht _ _ _ Er Ex). specialize (Hm r Hr). congruence.
      + split; [by right|]. by intros r [->|Hr]%elem_of_cons; [|apply Hm].
    - subst. split; [left|]. by intros r [->|Hr%elem_of_nil]%elem_of_cons. }
  specialize (Hl (elements c)). destruct (foldr _ _ _) as [p|].
  - destruct Hl as [Hp Hm]. split; [by apply elem_of_elements|]. intros q Hq. apply Hm. by apply elem_of_elements.
  - by apply elements_empty_inv, leibniz_equiv in Hl.
Qed.
Lemma rbegin_spec s : match rbegin s with None => setBlockIndexCandidates s = ∅ | Some m => m ∈ setBlockIndexCandidates s /\ forall q, q ∈ setBlockIndexCandidates s -> worse s m q = false end.
Proof. apply (extreme_spec (fun p q => worse s q p)); [apply worse_irrefl|]. intros a b d H1 H2. by apply (worse_trans s d b a). Qed.
Lemma begin_spec s : match begin_ s with None => setBlockIndexCandidates s = ∅ | Some m => m ∈ setBlockIndexCandidates s /\ forall q, q ∈ setBlockIndexCandidates s -> worse s q m = false end.
Proof. apply (extreme_spec (fun p q => worse s p q)); [apply worse_irrefl | apply worse_trans]. Qed.

(** What is left is what is not worse than the tip. *)
Lemma set_candidates_same s : set_candidates s (setBlockIndexCandidates s) = s.
Proof. by destruct s. Qed.
Lemma prune_loop_spec s tip fuel : (size (setBlockIndexCandidates s) <= fuel)%nat ->
  prune_loop fuel s tip = set_candidates s (filter (fun p => worse s p tip = false) (setBlockIndexCandidates s)).
Proof.
  revert s. induction fuel as [|fuel IH]; intros s Hf; cbn [prune_loop].
  - assert (setBlockIndexCandidates s = ∅) as E by (apply leibniz_equiv, size_empty_inv; lia). rewrite <- (set_candidates_same s) at 1. rewrite E. f_equal; set_solver.
  - pose proof (begin_spec s) as Hb. destruct (begin_ s) as [p|].
    + destruct Hb as [Hp Hm]. destruct (worse s p tip) eqn:Ew.
      * rewrite IH.
        -- unfold erase_candidate, set_candidates. cbn. f_equal. apply set_eq. intros x. rewrite !elem_of_filter, elem_of_difference, elem_of_singleton.
           change (worse _ x tip) with (worse s x tip) at 1. split; [tauto|]. intros [Hx Hc]. split; [done|]. split; [done|]. intros ->. congruence.
        -- unfold erase_candidate. cbn [setBlockIndexCandidates set_candidates]. rewrite size_difference by set_solver. rewrite size_singleton. lia.
      * rewrite <- (set_candidates_same s) at 1. f_equal. apply set_eq. intros x. rewrite elem_of_filter. split; [|tauto]. intros Hx. split; [|done].
        specialize (Hm x Hx). by apply (worse_neg_trans s x p tip).
    + rewrite <- (set_candidates_same s) at 1. rewrite Hb. f_equal; set_solver.
Qed.

(** ** Ancestors *)

(** [q] is [p] or one of its ancestors. *)
Inductive anc (h : heap) : ptr -> ptr -> Prop :=
  | anc_refl p : is_Some (h !! p) -> anc h p p
  | anc_step p b q r : h !! p = Some b -> pprev b = Some q -> anc h q r -> anc h p r.

Section ancestors.
Context (h : heap) (Hwf : wf_heap h).

Lemma wf_prev p b q : h !! p = Some b -> pprev b = Some q -> exists c, h !! q = Some c /\ nHeight c = nHeight b - 1 /\ 0 <= nHeight c.
Proof.
  intros Hp Hq. destruct (Hwf p b Hp) as (H1 & H2 & H3). destruct (Z.eq_dec (nHeight b) 0) as [E|E]; [rewrite H2 in Hq; done|].
  destruct (H3 ltac:(lia)) as (q' & c & E1 & E2 & E3 & _). rewrite Hq in E1. injection E1 as <-. exists c. split; [done|]. split; [done|]. lia.
Qed.
Lemma wf_root p b : h !! p = Some b -> pprev b = None <-> nHeight b = 0.
Proof.
  intros Hp. destruct (Hwf p b Hp) as (H1 & H2 & H3). split; [|done]. intros E. destruct (Z.eq_dec (nHeight b) 0) as [|E0]; [done|].
  destruct (H3 ltac:(lia)) as (q' & c & E1 & _). congruence.
Qed.
Lemma anc_blocks p q : anc h p q -> is_Some (h !! p) /\ is_Some (h !! q).
Proof. induction 1 as [p Hp|p b q r Hp Hq _ [_ IH]]; eauto. Qed.
Lemma anc_height p q bp bq : anc h p q -> h !! p = Some bp -> h !! q = Some bq -> nHeight bq <= nHeight bp.
Proof.
  intros Ha. revert bp. induction Ha as [p Hp|p b q' r Hp Hq Ha IH]; intros bp Hbp Hbq; [simplify_eq; lia|].
  assert (bp = b) as -> by congruence. destruct (wf_prev p b q' Hp Hq) as (c & Hc & Hh & _). specialize (IH c Hc Hbq). lia.
Qed.
Lemma anc_trans p q r : anc h p q -> anc h q r -> anc h p r.
Proof. induction 1 as [p Hp|p b q' x Hp Hq Ha IH]; intros Hr; [done|]. eapply anc_step; eauto. Qed.
Lemma anc_ancestor p q bp bq : h !! p = Some bp -> h !! q = Some bq -> anc h p q <-> nHeight bq <= nHeight bp /\ ancestor h p (nHeight bq) = Some q.
Proof.
  intros Hp Hq. split.
  - intros Ha. split; [by apply (anc_height p q)|]. revert bp Hp. induction Ha as [p Hx|p b q' r Hb Hpr Ha IH]; intros bp Hp.
    + assert (bq = bp) as -> by congruence. by apply ancestor_self.
    + assert (bp = b) as -> by congruence. destruct (wf_prev p b q' Hb Hpr) as (c & Hc & Hh & Hh0). rewrite <- (IH Hq c Hc).
      symmetry. destruct (Hwf q' c Hc) as (Hcb & _). destruct (Hwf r bq Hq) as (Hqb & _). apply (ancestor_prev h Hwf p b q'); try done.
      pose proof (anc_height q' r c bq Ha Hc Hq). lia.
  - intros [Hle Ha]. unfold ancestor in Ha. rewrite Hp in Ha. cbn [mbind option_bind] in Ha. assert (exists n, n = Z.to_nat (nHeight bp - nHeight bq)) as [n En] by eauto. rewrite <- En in Ha.
    assert (Z.of_nat n <= nHeight bp) as Hn by (destruct (Hwf q bq Hq); lia). clear En Hle Hq. revert p bp Hp Ha Hn. induction n as [|n IH]; intros p bp Hp Ha Hn.
    + cbn in Ha. injection Ha as ->. apply anc_refl. eauto.
    + rewrite nth_prev_S in Ha. cbn [prev deref mbind option_bind] in Ha. unfold prev, deref in Ha. cbn [mbind option_bind] in Ha. rewrite Hp in Ha. cbn [mbind option_bind] in Ha.
      destruct (pprev bp) as [x|] eqn:Ex; [|by rewrite nth_prev_None in Ha]. destruct (wf_prev p bp x Hp Ex) as (c & Hc & Hh & _).
      apply (anc_step h p bp x); [done | done|]. apply (IH x c Hc Ha). lia.
Qed.
Lemma anc_inv p b q : h !! p = Some b -> anc h p q -> q = p \/ exists r, pprev b = Some r /\ anc h r q.
Proof. intros Hp Ha. destruct Ha as [p Hx|p b' q' r Hb Hq Ha]; [by left|]. right. assert (b' = b) as -> by congruence. eauto. Qed.
(** Two ancestors of a block are in line. *)
Lemma anc_linear p q r : anc h p q -> anc h p r -> anc h q r \/ anc h r q.
Proof.
  intros Hq. revert r. induction Hq as [p Hp|p b q' x Hb Hpr Ha IH]; intros r Hr; [by left|].
  destruct (anc_inv p b r Hb Hr) as [->|(y & Ey & Hy)]; [right; by eapply anc_step|]. assert (y = q') as -> by congruence. by apply IH.
Qed.
Lemma anc_antisym p q : anc h p q -> anc h q p -> p = q.
Proof.
  intros H1 H2. destruct (anc_blocks p q H1) as [[bp Hp] [bq Hq]]. destruct (proj1 (anc_ancestor p q bp bq Hp Hq) H1) as [Hl E].
  pose proof (anc_height q p bq bp H2 Hq Hp). replace (nHeight bq) with (nHeight bp) in E by lia. rewrite (ancestor_self h p bp Hp) in E. by injection E.
Qed.
Lemma anc_root p b : h !! p = Some b -> exists g bg, anc h p g /\ h !! g = Some bg /\ pprev bg = None.
Proof.
  assert (exists n, Z.of_nat n = nHeight b \/ nHeight b < 0) as [n Hn].
  { exists (Z.to_nat (nHeight b)). lia. }
  revert p b Hn. induction n as [|n IH]; intros p b Hn Hp; (destruct (pprev b) as [q|] eqn:E; [|exists p, b; split; [apply anc_refl; eauto | done]]);
    destruct (wf_prev p b q Hp E) as (c & Hc & Hh & H0); [lia|]. destruct (IH q c ltac:(lia) Hc) as (g & bg & Hg & Hb & Hr).
  exists g, bg. split; [by apply (anc_step h p b q) | done].
Qed.
(** On the active chain. *)
Lemma chain_anc t bt p bp : h !! t = Some bt -> h !! p = Some bp ->
  chain_at (chain_of h t (nHeight bt)) (nHeight bp) = Some p <-> anc h t p.
Proof.
  intros Ht Hp. rewrite (anc_ancestor t p bt bp Ht Hp). destruct (Hwf t bt Ht) as [Hbt _]. destruct (Hwf p bp Hp) as [Hbp _].
  rewrite chain_at_lookup by lia. rewrite chain_of_lookup by lia. rewrite Z2Nat.id by lia. case_decide; cbn [mjoin option_join]; [|split; [done | lia]].
  split; [|tauto]. intros ->. split; [lia | done].
Qed.
Lemma chain_tip t bt : h !! t = Some bt -> chain_Tip (chain_of h t (nHeight bt)) = Some t.
Proof.
  intros Ht. destruct (Hwf t bt Ht) as [Hbt _]. unfold chain_Tip, chain_Height. rewrite chain_of_length.
  replace (Z.of_nat (Z.to_nat (nHeight bt + 1)) - 1) with (nHeight bt) by lia. apply chain_anc; [done | done|]. apply anc_refl. eauto.
Qed.
End ancestors.
(** A new block at the end leaves the ancestors of the others. *)
Lemma anc_insert h p b q r : h !! p = None -> is_Some (h !! q) -> wf_heap h -> anc (<[p := b]> h) q r <-> anc h q r.
Proof.
  intros Hp Hq Hwf. split.
  - intros Ha. induction Ha as [q Hx|q c x r Hc Hx Ha IH]; [by apply anc_refl|].
    destruct Hq as [c' Hc']. rewrite lookup_insert_ne in Hc by congruence. destruct (wf_prev h Hwf q c x Hc Hx) as (cx & Hcx & _). eapply anc_step; eauto.
  - clear Hq Hwf. induction 1 as [q Hx|q c x r Hc Hx Ha IH].
    + apply anc_refl. by rewrite lookup_insert_ne by (intros ->; rewrite Hp in Hx; by destruct Hx).
    + eapply anc_step; [by rewrite lookup_insert_ne by congruence | done | done].
Qed.

(** ** The invariant *)

(** The transactions of a block and its ancestors. *)
Fixpoint count_tx (h : heap) (tx : ptr -> Z) (n : nat) (p : option ptr) : Z :=
  match n, p with S n, Some q => tx q + count_tx h tx n (prev h p) | _, _ => 0 end.
Definition path_tx (h : heap) (tx : ptr -> Z) (p : ptr) : Z := count_tx h tx (match h !! p with Some b => S (Z.to_nat (nHeight b)) | None => O end) (Some p).

(** What holds at every moment. *)
Record Base (s : chainstate) : Prop := {
  b_wf : wf_heap (blocks s);
  b_root : single_root (blocks s);
  b_dom : forall p, is_Some (blocks s !! p) <-> is_Some (entries s !! p);
  b_index : forall p, is_Some (blocks s !! p) <-> p ∈ all_blocks s;
  b_tip : exists t bt, blocks s !! t = Some bt /\ chainActive s = chain_of (blocks s) t (nHeight bt);
  b_tx : forall p, is_Some (blocks s !! p) -> let e := entry_of s p in
    0 <= nTx e /\ (bit e 3 = true <-> 0 < nTx e) /\ (3 <= level e <-> 0 < nTx e) /\ (level e = 2 \/ level e = 3 \/ level e = 5);
  b_count : forall p, is_Some (blocks s !! p) -> nChainTx (entry_of s p) <> 0 -> nChainTx (entry_of s p) = path_tx (blocks s) (fun x => nTx (entry_of s x)) p;
  b_seq : forall p, is_Some (blocks s !! p) -> nChainTx (entry_of s p) = 0 -> nSequenceId (entry_of s p) = 0;
  b_work : forall p b q, blocks s !! p = Some b -> pprev b = Some q -> nChainWork (entry_of s q) < nChainWork (entry_of s p);
  b_child : forall p, is_Some (blocks s !! p) -> bit (entry_of s p) 6 = true -> exists q, anc (blocks s) p q /\ bit (entry_of s q) 5 = true;
  b_scripts : forall p b q c, blocks s !! p = Some b -> pprev b = Some q -> blocks s !! q = Some c -> pprev c <> None -> 5 <= level (entry_of s p) -> 5 <= level (entry_of s q);
  b_cand : forall p, p ∈ setBlockIndexCandidates s -> is_Some (blocks s !! p) /\ nChainTx (entry_of s p) <> 0;
  b_nodup : NoDup (mapBlocksUnlinked s);
  b_bits : forall p b, blocks s !! p = Some b -> is_u32 (nBits b);
  b_warn : forall p, pindexBestForkTip (warn s) = Some p -> is_Some (blocks s !! p)
}.
(** What links blocks: the blocks of [Q] are about to be linked. *)
Record Links (Q : list ptr) (s : chainstate) : Prop := {
  k_linked : forall p b, p ∉ Q -> blocks s !! p = Some b ->
    (nChainTx (entry_of s p) <> 0 <-> bit (entry_of s p) 3 = true /\ forall q, pprev b = Some q -> nChainTx (entry_of s q) <> 0);
  k_queue : forall p, p ∈ Q -> exists b, blocks s !! p = Some b /\ bit (entry_of s p) 3 = true /\ nChainTx (entry_of s p) = 0 /\
    forall q, pprev b = Some q -> nChainTx (entry_of s q) <> 0;
  k_unlinked : forall q p, (q, p) ∈ mapBlocksUnlinked s <->
    (p ∉ Q) /\ exists b, blocks s !! p = Some b /\ pprev b = Some q /\ bit (entry_of s p) 3 = true /\ nChainTx (entry_of s p) = 0;
  k_nodup : NoDup Q
}.
Record Inv (s : chainstate) : Prop := { i_base : Base s; i_links : Links [] s }.
Section fields.
Context (s : chainstate) (Hi : Inv s).
Definition i_wf := b_wf s (i_base s Hi).
Definition i_root := b_root s (i_base s Hi).
Definition i_dom := b_dom s (i_base s Hi).
Definition i_index := b_index s (i_base s Hi).
Definition i_tip := b_tip s (i_base s Hi).
Definition i_tx := b_tx s (i_base s Hi).
Definition i_seq := b_seq s (i_base s Hi).
Definition i_work := b_work s (i_base s Hi).
Definition i_child := b_child s (i_base s Hi).
Definition i_scripts := b_scripts s (i_base s Hi).
Definition i_cand := b_cand s (i_base s Hi).
Definition i_bits := b_bits s (i_base s Hi).
Definition i_warn := b_warn s (i_base s Hi).
Lemma i_linked p b : blocks s !! p = Some b ->
  (nChainTx (entry_of s p) <> 0 <-> bit (entry_of s p) 3 = true /\ forall q, pprev b = Some q -> nChainTx (entry_of s q) <> 0).
Proof. apply (k_linked [] s (i_links s Hi)). apply not_elem_of_nil. Qed.
Lemma i_unlinked q p : (q, p) ∈ mapBlocksUnlinked s <->
  exists b, blocks s !! p = Some b /\ pprev b = Some q /\ bit (entry_of s p) 3 = true /\ nChainTx (entry_of s p) = 0.
Proof. rewrite (k_unlinked [] s (i_links s Hi)). split; [tauto|]. intros He. split; [apply not_elem_of_nil | done]. Qed.
End fields.
(** All data is there and nothing is known to be wrong. *)
Definition good (s : chainstate) (p : ptr) : Prop :=
  is_Some (blocks s !! p) /\ nChainTx (entry_of s p) <> 0 /\ forall q, anc (blocks s) p q -> bit (entry_of s q) 5 = false.
(** It has been connected, as have its ancestors. *)
Definition proven (s : chainstate) (p : ptr) : Prop :=
  good s p /\ forall q b, anc (blocks s) p q -> blocks s !! q = Some b -> pprev b <> None -> 5 <= level (entry_of s q).
(** Whatever is as good as [T] is a candidate. *)
Definition Ref (s : chainstate) (T : ptr) : Prop :=
  proven s T /\ T ∈ setBlockIndexCandidates s /\ forall p, good s p -> worse s p T = false -> p ∈ setBlockIndexCandidates s.
Definition consistent (s : chainstate) : Prop :=
  Inv s /\ exists t, Tip s = Some t /\ Ref s t /\ forall p, p ∈ setBlockIndexCandidates s -> worse s p t = false.

(** What [CheckBlockIndex] asserts of a block, with its "first" blocks as existence of an ancestor. *)
Definition check_block (s : chainstate) (p : ptr) (b : CBlockIndex) : Prop :=
  let e := entry_of s p in
  let firstInvalid := exists q, anc (blocks s) p q /\ flag (entry_of s q) BLOCK_FAILED_VALID = true in
  let firstMissing := exists q, anc (blocks s) p q /\ flag (entry_of s q) BLOCK_HAVE_DATA = false in
  let firstNot := fun l => exists q c, anc (blocks s) p q /\ blocks s !! q = Some c /\ pprev c <> None /\ level (entry_of s q) < l in
  exists t, Tip s = Some t /\
  (pprev b = None -> chain_at (chainActive s) 0 = Some p) /\
  (flag e BLOCK_HAVE_DATA = false <-> nTx e = 0) /\
  (level e >= BLOCK_VALID_TRANSACTIONS <-> 0 < nTx e) /\
  (nChainTx e = 0 -> nSequenceId e = 0) /\
  (firstMissing <-> nChainTx e = 0) /\
  (forall q, pprev b = Some q -> nChainWork (entry_of s q) <= nChainWork e) /\
  (2 <= nHeight b -> exists k c, pskip b = Some k /\ blocks s !! k = Some c /\ nHeight c < nHeight b) /\
  ~ firstNot BLOCK_VALID_TREE /\
  (level e >= BLOCK_VALID_CHAIN -> ~ firstNot BLOCK_VALID_CHAIN) /\
  (level e >= BLOCK_VALID_SCRIPTS -> ~ firstNot BLOCK_VALID_SCRIPTS) /\
  (~ firstInvalid -> flag e BLOCK_FAILED_MASK = false) /\
  (worse s p t = false /\ ~ firstMissing -> ~ firstInvalid -> p ∈ setBlockIndexCandidates s) /\
  (~ (worse s p t = false /\ ~ firstMissing) -> p ∉ setBlockIndexCandidates s) /\
  (pprev b <> None /\ flag e BLOCK_HAVE_DATA = true /\ firstMissing -> ~ firstInvalid -> exists q, pprev b = Some q /\ (q, p) ∈ mapBlocksUnlinked s) /\
  (~ (pprev b <> None /\ flag e BLOCK_HAVE_DATA = true /\ firstMissing) -> forall q, (q, p) ∉ mapBlocksUnlinked s).

Section facts.
Context (s : chainstate) (Hi : Inv s).
Local Abbreviation h := (blocks s).

Lemma linked_ancestors p q : anc h p q -> nChainTx (entry_of s p) <> 0 -> nChainTx (entry_of s q) <> 0 /\ bit (entry_of s q) 3 = true.
Proof.
  induction 1 as [p [b Hp]|p b q r Hp Hq Ha IH]; intros Hl; destruct (proj1 (i_linked s Hi p b Hp) Hl) as [Hd Hn]; [done|]. by apply IH, Hn.
Qed.
Lemma missing_iff p b : h !! p = Some b -> (exists q, anc h p q /\ bit (entry_of s q) 3 = false) <-> nChainTx (entry_of s p) = 0.
Proof.
  intros Hp. split.
  - intros (q & Ha & Hq). destruct (Z.eq_dec (nChainTx (entry_of s p)) 0) as [|Hn]; [done|]. destruct (linked_ancestors p q Ha Hn) as [_ Hd]. congruence.
  - intros H0. assert (exists n, Z.of_nat n = nHeight b) as [n Hn] by (exists (Z.to_nat (nHeight b)); destruct (i_wf s Hi p b Hp); lia).
    revert p b Hp H0 Hn. induction n as [|n IH]; intros p b Hp H0 Hn; (destruct (bit (entry_of s p) 3) eqn:Ed; [|exists p; split; [apply anc_refl; eauto | done]]);
      (destruct (pprev b) as [q|] eqn:Eq; [|exfalso; revert H0; apply (i_linked s Hi p b Hp); split; [done | by rewrite Eq]]);
      destruct (wf_prev h (i_wf s Hi) p b q Hp Eq) as (c & Hc & Hh & Hh0); [lia|].
    destruct (Z.eq_dec (nChainTx (entry_of s q)) 0) as [E0|E0].
    + destruct (IH q c Hc E0 ltac:(lia)) as (r & Hr & Hb). exists r. split; [by apply (anc_step h p b q) | done].
    + exfalso. revert H0. apply (i_linked s Hi p b Hp). split; [done|]. intros x Ex. congruence.
Qed.
Lemma good_unfailed p : good s p -> bit (entry_of s p) 5 = false /\ bit (entry_of s p) 6 = false.
Proof.
  intros (Hp & _ & Hg). split; [apply Hg; by apply anc_refl|]. destruct (bit (entry_of s p) 6) eqn:E; [|done].
  destruct (i_child s Hi p Hp E) as (q & Ha & Hq). rewrite (Hg q Ha) in Hq. done.
Qed.
Lemma good_ancestor p q : good s p -> anc h p q -> good s q.
Proof.
  intros (Hp & Hl & Hg) Ha. split; [by apply (anc_blocks h p q)|]. split; [by apply (linked_ancestors p q)|]. intros r Hr. apply Hg. by eapply anc_trans.
Qed.
Lemma proven_ancestor p q : proven s p -> anc h p q -> proven s q.
Proof. intros [Hg Hl] Ha. split; [by apply (good_ancestor p)|]. intros r b Hr. apply Hl. by eapply anc_trans. Qed.
Lemma work_ancestor p q : anc h p q -> p <> q -> nChainWork (entry_of s q) < nChainWork (entry_of s p).
Proof.
  induction 1 as [p Hp|p b q r Hp Hq Ha IH]; intros Hn; [done|]. pose proof (i_work s Hi p b q Hp Hq). destruct (decide (q = r)) as [->|Hqr]; [done|]. specialize (IH Hqr). lia.
Qed.
Lemma ancestor_worse p q : anc h p q -> p <> q -> worse s q p = true.
Proof. intros Ha Hn. apply worse_spec. left. by apply work_ancestor. Qed.
Lemma tip_exists : exists t bt, Tip s = Some t /\ h !! t = Some bt /\ chainActive s = chain_of h t (nHeight bt).
Proof.
  destruct (i_tip s Hi) as (t & bt & Ht & E). exists t, bt. split; [|done]. unfold Tip. rewrite E. by apply chain_tip; [apply (i_wf s Hi)|].
Qed.
Lemma tip_chain t : Tip s = Some t -> exists bt, h !! t = Some bt /\ chainActive s = chain_of h t (nHeight bt).
Proof. intros Et. destruct tip_exists as (t' & bt & Et' & Ht & E). assert (t' = t) as -> by congruence. eauto. Qed.
Lemma Contains_spec t p b : Tip s = Some t -> h !! p = Some b -> exists c : bool, Contains s p = Some c /\ (c = true <-> anc h t p).
Proof.
  intros Et Hp. destruct (tip_chain t Et) as (bt & Ht & E). unfold Contains, chain_Contains. rewrite Hp. cbn [mbind option_bind]. eexists. split; [done|].
  rewrite bool_decide_eq_true, E. apply (chain_anc h (i_wf s Hi) t bt p b); done.
Qed.
Lemma common_root p q : is_Some (h !! p) -> is_Some (h !! q) -> exists g bg, anc h p g /\ anc h q g /\ h !! g = Some bg /\ pprev bg = None.
Proof.
  intros [bp Hp] [bq Hq]. destruct (anc_root h (i_wf s Hi) p bp Hp) as (g & bg & Ha & Hg & Hr). destruct (anc_root h (i_wf s Hi) q bq Hq) as (g' & bg' & Ha' & Hg' & Hr').
  assert (g = g') as <- by (apply (i_root s Hi g g' bg bg'); try done; [by apply (proj1 (wf_root h (i_wf s Hi) g bg Hg)) | by apply (proj1 (wf_root h (i_wf s Hi) g' bg' Hg'))]). eauto 10.
Qed.
Lemma scripts_ancestors p q c : anc h p q -> 5 <= level (entry_of s p) -> h !! q = Some c -> pprev c <> None -> 5 <= level (entry_of s q).
Proof.
  induction 1 as [p Hp|p b q r Hp Hq Ha IH]; intros Hl Hc Hn; [done|]. apply IH; try done.
  destruct (wf_prev h (i_wf s Hi) p b q Hp Hq) as (d & Hd & _). destruct (pprev d) as [x|] eqn:Ed.
  - apply (i_scripts s Hi p b q d Hp Hq Hd ltac:(by rewrite Ed) Hl).
  - destruct (anc_inv h q d r Hd Ha) as [->|(y & Ey & _)]; congruence.
Qed.
End facts.

(** The assertions hold in a consistent state. *)
Lemma consistent_checks s p b : consistent s -> blocks s !! p = Some b -> check_block s p b.
Proof.
  intros (Hi & t & Et & (Hpt & Hct & Hcand) & Hworse) Hp. pose proof (i_tx s Hi p ltac:(eauto)) as (Ht0 & Ht1 & Ht2 & Ht3).
  pose proof (missing_iff s Hi p b Hp) as Hm. setoid_rewrite <- flag_data in Hm. pose proof (wf_root (blocks s) (i_wf s Hi) p b Hp) as Hroot.
  assert (anc (blocks s) p p) as Hpp by (apply anc_refl; eauto).
  assert (~ (exists q, anc (blocks s) p q /\ flag (entry_of s q) BLOCK_FAILED_VALID = true) -> nChainTx (entry_of s p) <> 0 -> good s p) as Hgood.
  { intros Hni Hn. split; [eauto|]. split; [done|]. intros q Ha. destruct (bit (entry_of s q) 5) eqn:E; [|done]. exfalso. apply Hni. exists q. by rewrite flag_valid. }
  exists t. split; [done|]. split; [|rewrite flag_data; split_and!].
  - intros Hr. destruct (tip_chain s Hi t Et) as (bt & Hbt & ->). rewrite <- (proj1 Hroot Hr). apply (chain_anc (blocks s) (i_wf s Hi)); [done | done|].
    destruct (common_root s Hi t p ltac:(eauto) ltac:(eauto)) as (g & bg & Hg1 & Hg2 & Hg & Hrg). destruct (anc_inv (blocks s) p b g Hp Hg2) as [->|(r & Er & _)]; [done | congruence].
  - destruct (bit (entry_of s p) 3); intuition lia.
  - unfold BLOCK_VALID_TRANSACTIONS. lia.
  - apply (i_seq s Hi). eauto.
  - done.
  - intros q Hq. pose proof (i_work s Hi p b q Hp Hq). lia.
  - intros H2. destruct (i_wf s Hi p b Hp) as (H3 & H4 & H5). destruct (H5 ltac:(lia)) as (q & c & Eq & Hq & Hh & ->).
    destruct (i_wf s Hi q c Hq) as [Hqh _]. pose proof (GetSkipHeight_bounds (nHeight b) ltac:(lia)).
    destruct (ancestor_height (blocks s) (i_wf s Hi) q c (GetSkipHeight (nHeight b)) Hq ltac:(lia)) as (k & d & -> & Hk & Hkh). exists k, d. split; [done|]. split; [done | lia].
  - intros (q & c & Ha & Hq & _ & Hl). pose proof (i_tx s Hi q ltac:(eauto)) as (_ & _ & _ & Hlq). unfold BLOCK_VALID_TREE in Hl. lia.
  - intros Hl (q & c & Ha & Hq & Hn & Hlq). unfold BLOCK_VALID_CHAIN in *. pose proof (scripts_ancestors s Hi p q c Ha ltac:(lia) Hq Hn). lia.
  - intros Hl (q & c & Ha & Hq & Hn & Hlq). unfold BLOCK_VALID_SCRIPTS in *. pose proof (scripts_ancestors s Hi p q c Ha ltac:(lia) Hq Hn). lia.
  - intros Hni. rewrite flag_failed. destruct (bit (entry_of s p) 5) eqn:E5; [exfalso; apply Hni; exists p; by rewrite flag_valid|].
    destruct (bit (entry_of s p) 6) eqn:E6; [|done]. destruct (i_child s Hi p ltac:(eauto) E6) as (q & Ha & Hq). exfalso. apply Hni. exists q. by rewrite flag_valid.
  - intros [Hw Hnm] Hni. rewrite Hm in Hnm. apply Hcand; [by apply Hgood | done].
  - intros Hn Hc. apply Hn. rewrite Hm. split; [by apply Hworse | by apply (i_cand s Hi p)].
  - intros (Hn & Hd & Hmiss) _. apply Hm in Hmiss. destruct (pprev b) as [q|] eqn:Eq; [|done]. exists q. split; [done|]. apply (i_unlinked s Hi). eauto.
  - intros Hn q Hq. apply Hn. apply (i_unlinked s Hi) in Hq as (b' & Hb' & Hq & Hd & H0). assert (b' = b) as -> by congruence. rewrite Hq, Hm. done.
Qed.

Lemma entry_of_set s p e q : entry_of (set_entry s p e) q = if decide (q = p) then e else entry_of s q.
Proof.
  unfold entry_of, set_entry, set_entries. cbn [entries]. case_decide; [subst; by rewrite lookup_insert_eq | by rewrite lookup_insert_ne].
Qed.
Lemma entry_of_same s p : entry_of (set_entry s p (entry_of s p)) p = entry_of s p.
Proof. rewrite entry_of_set. by case_decide. Qed.

(** ** Counts of transactions *)

Lemma count_tx_ext h tx tx' n p : (forall q, anc h p q -> tx q = tx' q) -> wf_heap h -> is_Some (h !! p) -> count_tx h tx n (Some p) = count_tx h tx' n (Some p).
Proof.
  intros He Hwf. revert p He. induction n as [|n IH]; intros p He [b Hp]; cbn [count_tx]; [done|]. rewrite He by (apply anc_refl; eauto). f_equal.
  unfold prev, deref. cbn [mbind option_bind]. rewrite Hp. cbn [mbind option_bind]. destruct (pprev b) as [q|] eqn:Eq; [|by destruct n].
  destruct (wf_prev h Hwf p b q Hp Eq) as (c & Hc & _). apply IH; [|eauto]. intros r Hr. apply He. by eapply anc_step.
Qed.
Lemma path_tx_ext h tx tx' p : (forall q, anc h p q -> tx q = tx' q) -> wf_heap h -> is_Some (h !! p) -> path_tx h tx p = path_tx h tx' p.
Proof. intros He Hwf Hp. by apply count_tx_ext. Qed.
Lemma path_tx_step h tx p b : wf_heap h -> h !! p = Some b -> path_tx h tx p = tx p + match pprev b with Some q => path_tx h tx q | None => 0 end.
Proof.
  intros Hwf Hp. unfold path_tx. rewrite Hp. cbn [count_tx]. f_equal. unfold prev, deref. cbn [mbind option_bind]. rewrite Hp. cbn [mbind option_bind].
  destruct (pprev b) as [q|] eqn:Eq; [|by destruct (Z.to_nat (nHeight b))]. destruct (wf_prev h Hwf p b q Hp Eq) as (c & Hc & Hh & H0). rewrite Hc.
  replace (Z.to_nat (nHeight b)) with (S (Z.to_nat (nHeight c))) by lia. done.
Qed.
Lemma path_tx_pos h tx p : wf_heap h -> is_Some (h !! p) -> (forall q, anc h p q -> 0 <= tx q) -> tx p <= path_tx h tx p.
Proof.
  intros Hwf [b Hp] Ht. assert (forall n q, (forall r, anc h q r -> 0 <= tx r) -> is_Some (h !! q) -> 0 <= count_tx h tx n (Some q)) as Hn.
  { induction n as [|n IH]; intros q Hq [c Hc]; cbn [count_tx]; [lia|]. pose proof (Hq q ltac:(apply anc_refl; eauto)). unfold prev, deref. cbn [mbind option_bind]. rewrite Hc. cbn [mbind option_bind].
    destruct (pprev c) as [x|] eqn:Ex; [|destruct n; cbn; lia]. destruct (wf_prev h Hwf q c x Hc Ex) as (d & Hd & _). specialize (IH x ltac:(intros r Hr; apply Hq; by eapply anc_step) ltac:(eauto)). lia. }
  rewrite (path_tx_step h tx p b Hwf Hp). destruct (pprev b) as [q|] eqn:Eq; [|lia]. destruct (wf_prev h Hwf p b q Hp Eq) as (c & Hc & _).
  pose proof (Hn (match h !! q with Some b => S (Z.to_nat (nHeight b)) | None => O end) q ltac:(intros r Hr; apply Ht; by eapply anc_step) ltac:(eauto)). unfold path_tx. lia.
Qed.
