(* ===== verification/ChainArrival.v ===== *)
(** Headers and blocks that arrive keep the invariant of [ChainInv]. *)
From S2P Require Import Prelude TxChecks Chain Uint256 Pow ChainState ChainInv.

(** The tip [t], with what is as good as it among the candidates. *)
Definition Rest (s : chainstate) (t : ptr) : Prop :=
  Tip s = Some t /\ Ref s t /\ forall p, p ∈ setBlockIndexCandidates s -> worse s p t = false.
Definition tx_of (s : chainstate) (p : ptr) : Z := nTx (entry_of s p).

Section links.
Context (s : chainstate) (t p : ptr) (Q : list ptr).
Context (Hb : Base s) (Hk : Links (p :: Q) s) (Hr : Rest s t) (Hfit : path_tx (blocks s) (tx_of s) p < 2 ^ 32).
Local Abbreviation e := (entry_of s p).

(** The state after [link_one]. *)
Local Definition more : list ptr := map snd (List.filter (fun x => fst x =? p) (mapBlocksUnlinked s)).
Local Definition count : Z := match blocks s !! p with Some b => u32 (match pprev b with Some q => nChainTx (entry_of s q) | None => 0 end + nTx e) | None => 0 end.
Local Definition s1 : chainstate := next_sequence (set_entry s p (mkEntry (nChainWork e) (nTx e) count (nStatus e) (nBlockSequenceId s))).
Local Definition s2 : chainstate := if worse s1 p t then s1 else insert_candidate s1 p.
Local Definition s3 : chainstate := set_unlinked s2 (List.filter (fun x => negb (fst x =? p)) (mapBlocksUnlinked s)).

Lemma queue_head : exists b, blocks s !! p = Some b /\ bit e 3 = true /\ nChainTx e = 0 /\ (forall q, pprev b = Some q -> nChainTx (entry_of s q) <> 0) /\ 0 < nTx e.
Proof.
  destruct (k_queue _ s Hk p ltac:(left)) as (b & Hp & Hd & H0 & Hq). destruct (b_tx s Hb p ltac:(eauto)) as (_ & [Hx _] & _). exists b. split_and!; try done. by apply Hx.
Qed.
Lemma count_spec : count = path_tx (blocks s) (tx_of s) p /\ count <> 0.
Proof.
  destruct queue_head as (b & Hp & Hd & H0 & Hq & Ht).
  assert (forall q, anc (blocks s) p q -> 0 <= tx_of s q) as Hn by (intros q Ha; apply (b_tx s Hb q); by apply (anc_blocks (blocks s) p q)).
  pose proof (path_tx_pos (blocks s) (tx_of s) p (b_wf s Hb) ltac:(eauto) Hn) as Hpos. pose proof Hfit as Hf. change (tx_of s p) with (nTx e) in Hpos.
  unfold count. rewrite Hp. rewrite (path_tx_step (blocks s) (tx_of s) p b (b_wf s Hb) Hp) in *. change (tx_of s p) with (nTx e) in *.
  assert (match pprev b with Some q => nChainTx (entry_of s q) | None => 0 end = match pprev b with Some q => path_tx (blocks s) (tx_of s) q | None => 0 end) as ->.
  { destruct (pprev b) as [q|] eqn:Eq; [|done]. destruct (wf_prev (blocks s) (b_wf s Hb) p b q Hp Eq) as (c & Hc & _). apply (b_count s Hb q); [eauto | by apply Hq]. }
  rewrite Z.add_comm, u32_small by lia. lia.
Qed.
Lemma after_blocks : blocks s3 = blocks s /\ Tip s3 = Tip s /\ mapBlockIndex s3 = mapBlockIndex s /\ chainActive s3 = chainActive s.
Proof. unfold s3, s2. by destruct (worse s1 p t). Qed.
Lemma after_entry q : entry_of s3 q = if decide (q = p) then mkEntry (nChainWork e) (nTx e) count (nStatus e) (nBlockSequenceId s) else entry_of s q.
Proof. rewrite <- entry_of_set. unfold s3, s2. by destruct (worse s1 p t). Qed.
Lemma after_candidates q : q ∈ setBlockIndexCandidates s3 <-> (q = p /\ worse s3 p t = false) \/ q ∈ setBlockIndexCandidates s.
Proof.
  assert (worse s3 p t = worse s1 p t) as -> by (unfold s3, s2; destruct (worse s1 p t) eqn:E; exact E).
  unfold s3, s2. destruct (worse s1 p t); [by split; [right | intros [[_ ?]|?]]|]. cbn. rewrite elem_of_union, elem_of_singleton. tauto.
Qed.
Lemma link_one_eq : Tip s = Some t -> link_one s p = Some (s3, more).
Proof.
  destruct queue_head as (b & Hp & _). intros Ht. unfold link_one. rewrite Hp. cbn [mbind option_bind].
  assert (count = u32 (match pprev b with Some q => nChainTx (entry_of s q) | None => 0 end + nTx e)) as <- by (unfold count; by rewrite Hp).
  fold s1. change (Tip s1) with (Tip s). rewrite Ht. fold s2. unfold s3, more. assert (mapBlocksUnlinked s2 = mapBlocksUnlinked s) as -> by (unfold s2; by destruct (worse s1 p t)). done.
Qed.

Lemma tip_other : t <> p.
Proof.
  destruct queue_head as (b & _ & _ & H0 & _). destruct Hr as (_ & (((_ & Hn & _) & _) & _) & _). by intros ->.
Qed.
(** Nothing but the order of [p] changes. *)
Lemma worse_other x y : x <> p -> y <> p -> worse s3 x y = worse s x y.
Proof. intros Hx Hy. unfold worse. rewrite !after_entry, !decide_False by done. done. Qed.
Lemma good_other x : x <> p -> good s3 x <-> good s x.
Proof.
  intros Hx. unfold good. destruct after_blocks as (-> & _). rewrite after_entry, decide_False by done.
  assert (forall q, bit (entry_of s3 q) 5 = bit (entry_of s q) 5) as Hq by (intros q; rewrite after_entry; case_decide; [by subst | done]).
  by setoid_rewrite Hq.
Qed.
Lemma after_level q : level (entry_of s3 q) = level (entry_of s q).
Proof. rewrite after_entry. case_decide; [by subst | done]. Qed.
Lemma after_bit q n : bit (entry_of s3 q) n = bit (entry_of s q) n.
Proof. rewrite after_entry. case_decide; [by subst | done]. Qed.
Lemma after_tx q : nTx (entry_of s3 q) = nTx (entry_of s q).
Proof. rewrite after_entry. case_decide; [by subst | done]. Qed.
Lemma after_work q : nChainWork (entry_of s3 q) = nChainWork (entry_of s q).
Proof. rewrite after_entry. case_decide; [by subst | done]. Qed.
Lemma after_chaintx q : nChainTx (entry_of s3 q) = if decide (q = p) then count else nChainTx (entry_of s q).
Proof. rewrite after_entry. by case_decide. Qed.

Lemma link_base : Base s3.
Proof.
  destruct queue_head as (b & Hp & Hd & H0 & Hq & Ht). destruct count_spec as [Hc Hcn]. destruct after_blocks as (Eb & Et & Em & Ec).
  split; rewrite ?Eb; rewrite ?Ec; try apply Hb.
  - intros q. rewrite (b_dom s Hb q). unfold s3, s2, insert_candidate, s1, next_sequence, set_entry. destruct (worse _ p t); cbn;
      (destruct (decide (q = p)) as [->|]; [rewrite lookup_insert_eq; split; [eauto | intros _; apply (b_dom s Hb p); eauto] | by rewrite lookup_insert_ne]).
  - intros q. unfold all_blocks. rewrite Em. apply (b_index s Hb).
  - intros q Hqb. cbv zeta. rewrite after_tx, after_bit, after_level. by apply (b_tx s Hb).
  - intros q Hqb. rewrite after_chaintx. intros Hn. rewrite (path_tx_ext _ _ (tx_of s)) by first [done | apply Hb | intros; apply after_tx].
    case_decide; [by subst | by apply (b_count s Hb)].
  - intros q Hqb. rewrite after_chaintx, after_entry. case_decide; [done | by apply (b_seq s Hb)].
  - intros x c y. rewrite !after_work. apply (b_work s Hb).
  - intros x Hx. rewrite after_bit. setoid_rewrite after_bit. by apply (b_child s Hb).
  - intros x c y d. rewrite !after_level. apply (b_scripts s Hb).
  - intros x Hx%after_candidates. rewrite after_chaintx. destruct Hx as [[-> _]|Hx]; [case_decide; [eauto | done]|]. case_decide; [subst; eauto | by apply (b_cand s Hb)].
  - apply NoDup_ListNoDup, List.NoDup_filter, NoDup_ListNoDup, Hb.
  - assert (warn s3 = warn s) as -> by (unfold s3, s2; by destruct (worse s1 p t)). apply Hb.
Qed.
Lemma more_spec x : x ∈ more <-> (p, x) ∈ mapBlocksUnlinked s.
Proof.
  unfold more. rewrite list_elem_of_In, in_map_iff. split.
  - intros ([y x'] & <- & Hy). apply filter_In in Hy as [Hy E]. cbn in *. apply Z.eqb_eq in E. subst. by apply list_elem_of_In.
  - intros Hx. exists (p, x). split; [done|]. apply filter_In. split; [by apply list_elem_of_In | apply Z.eqb_refl].
Qed.
Lemma link_links : Links (Q ++ more) s3.
Proof.
  destruct queue_head as (b & Hp & Hd & H0 & Hq & Ht). destruct count_spec as [_ Hcn]. destruct after_blocks as (Eb & _).
  pose proof (k_nodup _ s Hk) as [HpQ HQ]%list.NoDup_cons.
  assert (forall x y, (x, y) ∈ mapBlocksUnlinked s3 <-> (x, y) ∈ mapBlocksUnlinked s /\ x <> p) as Hu.
  { intros x y. unfold s3. cbn [set_unlinked mapBlocksUnlinked]. rewrite !list_elem_of_In, filter_In. cbn. rewrite negb_true_iff, Z.eqb_neq. tauto. }
  assert (forall x, x ∈ more -> x <> p /\ (x ∉ Q) /\ exists bx, blocks s !! x = Some bx /\ pprev bx = Some p /\ bit (entry_of s x) 3 = true /\ nChainTx (entry_of s x) = 0) as Hmore.
  { intros x Hx%more_spec%(k_unlinked _ s Hk). rewrite elem_of_cons in Hx. destruct Hx as [Hx Hex]. split; [tauto|]. split; [tauto | done]. }
  assert (forall x, x ∈ Q -> x <> p) as HQp by (intros x Hx ->; done).
  split.
  - intros x bx Hx. rewrite Eb, after_chaintx, after_bit. intros Hbx. rewrite elem_of_app in Hx. setoid_rewrite after_chaintx. case_decide as Ex.
    + subst x. assert (bx = b) as -> by congruence. split; [|done]. intros _. split; [done|]. intros q Eq. case_decide; [done | by apply Hq].
    + pose proof (k_linked _ s Hk x bx ltac:(rewrite elem_of_cons; tauto) Hbx) as Hkx. rewrite Hkx. split; intros [Hdx Hqx]; (split; [done|]); intros q Eq.
      * case_decide; [done | by apply Hqx].
      * specialize (Hqx q Eq). case_decide; [subst q|done]. exfalso. apply Hx. right. apply more_spec, (k_unlinked _ s Hk). rewrite elem_of_cons. split; [tauto|].
        exists bx. split_and!; try done. destruct (Z.eq_dec (nChainTx (entry_of s x)) 0) as [|Hn]; [done|]. destruct (proj1 Hkx Hn) as [_ Hl]. by destruct (Hl p Eq).
  - intros x Hx. rewrite Eb, after_bit. setoid_rewrite after_chaintx. apply elem_of_app in Hx as [Hx|Hx].
    + destruct (k_queue _ s Hk x ltac:(by right)) as (bx & Hbx & Hdx & H0x & Hqx). exists bx. rewrite decide_False by (by apply HQp). split_and!; try done.
      intros q Eq. case_decide; [done | by apply Hqx].
    + destruct (Hmore x Hx) as (Hxp & HxQ & bx & Hbx & Eqx & Hdx & H0x). exists bx. rewrite decide_False by done. split_and!; try done. intros q Eq. rewrite Eqx in Eq. injection Eq as <-. by rewrite decide_True.
  - intros q x. rewrite Hu, (k_unlinked _ s Hk), elem_of_cons, elem_of_app, Eb, after_bit, after_chaintx. split.
    + intros [(Hx & bx & Hbx & Eqx & Hdx & H0x) Hqp]. split.
      * intros [HxQ|Hxm]; [tauto|]. destruct (Hmore x Hxm) as (_ & _ & bx' & Hbx' & Eqx' & _). congruence.
      * exists bx. rewrite decide_False by tauto. done.
    + intros (Hx & bx & Hbx & Eqx & Hdx & H0x). case_decide as Ex; [done|]. split; [split; [tauto | eauto]|]. intros ->. apply Hx. right. apply more_spec, (k_unlinked _ s Hk).
      rewrite elem_of_cons. split; [tauto | eauto].
  - apply list.NoDup_app. split; [done|]. split.
    + intros x Hx Hm. by destruct (Hmore x Hm) as (_ & HxQ & _).
    + unfold more. assert (forall l : list (ptr * ptr), NoDup l -> NoDup (map snd (List.filter (fun x => fst x =? p) l))) as Hn; [|apply Hn, Hb].
      induction 1 as [|[a c] l Hl Hnd IH]; cbn [List.filter fst]; [constructor|]. destruct (Z.eqb_spec a p) as [->|]; [|done]. cbn [map snd]. constructor; [|done].
      rewrite list_elem_of_In, in_map_iff. intros ([y z] & Ez & Hy). cbn in Ez. subst z. apply filter_In in Hy as [Hy Ey]. cbn in Ey. apply Z.eqb_eq in Ey. subst y. by apply Hl, list_elem_of_In.
Qed.
Lemma link_rest : Rest s3 t.
Proof.
  destruct Hr as (Ht & (Hpt & Htc & Hc) & Hw). destruct after_blocks as (Eb & Et & _). pose proof tip_other as Htp.
  split; [by rewrite Et|]. split; [split; [|split]|].
  - destruct Hpt as [Hg Hl]. split; [by apply good_other|]. intros q b. rewrite Eb, after_level. apply Hl.
  - apply after_candidates. by right.
  - intros x Hg Hwx. apply after_candidates. destruct (decide (x = p)) as [->|Hx]; [by left|]. right. apply Hc; [by apply good_other | by rewrite <- worse_other].
  - intros x [[-> Hx]|Hx]%after_candidates; [done|]. rewrite worse_other; [by apply Hw | | done]. intros ->.
    destruct queue_head as (b & _ & _ & H0 & _). destruct (b_cand s Hb p Hx) as [_ Hn]. done.
Qed.
End links.

(** The whole queue is linked; fuel for each block that waits is enough. *)
Lemma link_loop_spec fuel s t Q : Base s -> Links Q s -> Rest s t -> (forall p, is_Some (blocks s !! p) -> path_tx (blocks s) (tx_of s) p < 2 ^ 32) ->
  (length Q + length (mapBlocksUnlinked s) <= fuel)%nat -> exists s', link_loop fuel s Q = Some s' /\ Inv s' /\ Rest s' t /\
    blocks s' = blocks s /\ mapBlockIndex s' = mapBlockIndex s /\ chainActive s' = chainActive s.
Proof.
  revert s Q. induction fuel as [|fuel IH]; intros s Q Hb Hk Hr Hf Hl; (destruct Q as [|p Q]; [exists s; cbn; split; [by try destruct fuel|]; done|]); [cbn in Hl; lia|].
  cbn [link_loop]. pose proof (Hf p) as Hfp. destruct (queue_head s p Q Hb Hk) as (b & Hp & _). specialize (Hfp ltac:(eauto)).
  rewrite (link_one_eq s t p Q Hb Hk ltac:(apply Hr)). cbn [mbind option_bind].
  destruct (after_blocks s t p) as (Eb & _ & Em & Ec).
  destruct (IH (s3 s t p) (Q ++ more s p)) as (s' & E & Hi & Hr' & Eb' & Em' & Ec').
  - by apply (link_base s t p Q).
  - by apply link_links.
  - by apply (link_rest s t p Q).
  - rewrite Eb. intros x Hx. rewrite (path_tx_ext _ _ (tx_of s)); [by apply Hf | intros y _; apply after_tx | apply Hb | done].
  - unfold s3, more. cbn [set_unlinked mapBlocksUnlinked]. rewrite length_app, length_map. cbn [length] in Hl.
    pose proof (filter_length (fun x : ptr * ptr => fst x =? p) (mapBlocksUnlinked s)). lia.
  - exists s'. split; [done|]. split; [done|]. split; [done|]. by rewrite Eb', Em', Ec', Eb, Em, Ec.
Qed.

(** ** A block arrives *)

Lemma Base_unlinked s u : Base s -> NoDup u -> Base (set_unlinked s u).
Proof. intros Hb Hu. split; try apply Hb. exact Hu. Qed.
Lemma lor_136 e : with_status e (Z.lor (nStatus e) (Z.lor BLOCK_HAVE_DATA BLOCK_OPT_WITNESS)) = set_flag (set_flag e (2 ^ 3)) (2 ^ 7).
Proof. unfold set_flag, with_status. cbn [nStatus nChainWork nTx nChainTx nSequenceId]. by rewrite Z.lor_assoc. Qed.

Section received.
Context (s : chainstate) (t p q : ptr) (b : CBlockIndex) (nVtx : Z).
Context (Hi : Inv s) (Hr : Rest s t) (Hp : blocks s !! p = Some b) (Hq : pprev b = Some q) (Hv : 0 < nVtx < 2 ^ 32).
Context (Hd : bit (entry_of s p) 3 = false) (Hf : flag (entry_of s p) BLOCK_FAILED_MASK = false) (Hfq : flag (entry_of s q) BLOCK_FAILED_MASK = false).
Local Abbreviation e := (entry_of s p).
Local Definition e1 : entry :=
  RaiseValidity (mkEntry (nChainWork e) (u32 nVtx) 0 (Z.lor (nStatus e) (Z.lor BLOCK_HAVE_DATA BLOCK_OPT_WITNESS)) (nSequenceId e)) BLOCK_VALID_TRANSACTIONS.
Local Definition r1 : chainstate := set_entry s p e1.

Lemma not_linked : nChainTx e = 0.
Proof. destruct (Z.eq_dec (nChainTx e) 0) as [|Hn]; [done|]. destruct (proj1 (i_linked s Hi p b Hp) Hn) as [Hx _]. congruence. Qed.
Lemma e1_spec : nChainWork e1 = nChainWork e /\ nTx e1 = nVtx /\ nChainTx e1 = 0 /\ nSequenceId e1 = nSequenceId e /\ bit e1 3 = true /\ bit e1 5 = false /\ bit e1 6 = false /\ level e1 = 3.
Proof.
  unfold e1. destruct (Raise_fields (mkEntry (nChainWork e) (u32 nVtx) 0 (Z.lor (nStatus e) (Z.lor BLOCK_HAVE_DATA BLOCK_OPT_WITNESS)) (nSequenceId e)) BLOCK_VALID_TRANSACTIONS) as (-> & -> & -> & ->).
  cbn [nChainWork nTx nChainTx nSequenceId]. rewrite !bit_Raise, level_Raise by (unfold BLOCK_VALID_TRANSACTIONS; lia).
  set (x := mkEntry (nChainWork e) (u32 nVtx) 0 (nStatus e) (nSequenceId e)).
  change (mkEntry (nChainWork e) (u32 nVtx) 0 (Z.lor (nStatus e) (Z.lor BLOCK_HAVE_DATA BLOCK_OPT_WITNESS)) (nSequenceId e))
    with (with_status x (Z.lor (nStatus x) (Z.lor BLOCK_HAVE_DATA BLOCK_OPT_WITNESS))).
  rewrite lor_136, !bit_set_flag, !level_set_flag by lia. change (bit x) with (bit e). change (level x) with (level e).
  rewrite flag_failed in Hf. apply orb_false_iff in Hf as [H5 H6]. rewrite H5, H6, !orb_true_r. cbn. rewrite u32_small by lia.
  destruct (i_tx s Hi p ltac:(eauto)) as (H0 & H1 & H2 & H3). assert (~ 3 <= level e) by (rewrite H2, <- H1, Hd; done).
  split_and!; try done. unfold BLOCK_VALID_TRANSACTIONS. lia.
Qed.
Lemma r1_entry x : entry_of r1 x = if decide (x = p) then e1 else entry_of s x.
Proof. apply entry_of_set. Qed.
Lemma r1_bit x n : n = 5 \/ n = 6 -> bit (entry_of r1 x) n = bit (entry_of s x) n.
Proof.
  intros Hn. rewrite r1_entry. case_decide as E; [subst x|done]. destruct e1_spec as (_ & _ & _ & _ & _ & H5 & H6 & _).
  rewrite flag_failed in Hf. apply orb_false_iff in Hf as [H5' H6']. destruct Hn as [->| ->]; congruence.
Qed.
Lemma r1_chaintx x : nChainTx (entry_of r1 x) = nChainTx (entry_of s x).
Proof. rewrite r1_entry. case_decide as E; [subst x|done]. rewrite not_linked. apply e1_spec. Qed.
Lemma r1_seq x : nSequenceId (entry_of r1 x) = nSequenceId (entry_of s x).
Proof. rewrite r1_entry. case_decide as E; [subst x|done]. apply e1_spec. Qed.
Lemma r1_work x : nChainWork (entry_of r1 x) = nChainWork (entry_of s x).
Proof. rewrite r1_entry. case_decide as E; [subst x|done]. apply e1_spec. Qed.
Lemma r1_tx x : tx_of r1 x = if decide (x = p) then nVtx else tx_of s x.
Proof. unfold tx_of. rewrite r1_entry. case_decide as E; [|done]. apply e1_spec. Qed.

Lemma received_base : Base r1.
Proof.
  destruct e1_spec as (_ & Et & _ & _ & Eb & _ & _ & El). pose proof (i_base s Hi) as Hb. split; try apply Hb.
  - intros x. rewrite (b_dom s Hb x). unfold r1, set_entry. cbn. destruct (decide (x = p)) as [->|]; [rewrite lookup_insert_eq; split; [eauto | intros _; apply (b_dom s Hb p); eauto] | by rewrite lookup_insert_ne].
  - intros x Hx. cbv zeta. rewrite r1_entry. case_decide as E; [subst x|by apply (b_tx s Hb)]. rewrite Et, Eb, El. split_and!; try done; try lia; intuition lia.
  - intros x Hx. rewrite r1_chaintx. intros Hn. rewrite (b_count s Hb x Hx Hn). apply path_tx_ext; [|apply Hb | done]. intros y Ha.
    change (tx_of s y = tx_of r1 y). rewrite r1_tx. case_decide as E; [subst y|done]. destruct (linked_ancestors s Hi x p Ha Hn) as [_ Hx3]. congruence.
  - intros x Hx. rewrite r1_chaintx, r1_seq. by apply (b_seq s Hb).
  - intros x c y. rewrite !r1_work. apply (b_work s Hb).
  - intros x Hx. rewrite r1_bit by auto. intros H6. destruct (b_child s Hb x Hx H6) as (y & Ha & Hy). exists y. by rewrite r1_bit by auto.
  - intros x c y d Hx Hc Hy Hn. change (blocks r1) with (blocks s) in *. rewrite !r1_entry. case_decide as Ex; [rewrite El; lia|]. intros Hl. pose proof (b_scripts s Hb x c y d Hx Hc Hy Hn Hl) as Hly.
    case_decide as Ey; [|done]. subst y. destruct (i_tx s Hi p ltac:(eauto)) as (_ & H1 & H2 & _). assert (3 <= level e) as H3 by lia. apply H2, H1 in H3. congruence.
  - intros x Hx. rewrite r1_chaintx. by apply (b_cand s Hb).
Qed.
Lemma received_rest : Rest r1 t.
Proof.
  destruct Hr as (Ht & ((Hgt & Hlt) & Htc & Hc) & Hw).
  assert (forall x y, worse r1 x y = worse s x y) as Ew by (intros x y; unfold worse; by rewrite !r1_work, !r1_seq).
  assert (forall x, good r1 x <-> good s x) as Eg.
  { intros x. unfold good. rewrite r1_chaintx. change (blocks r1) with (blocks s). split; intros (Hx & Hn & Ha); (split; [done|]); (split; [done|]); intros y Hy; [rewrite <- r1_bit by auto | rewrite r1_bit by auto]; by apply Ha. }
  split; [done|]. split; [split; [|split]|].
  - split; [by apply Eg|]. intros x c Ha Hx Hn. rewrite r1_entry. case_decide as E; [subst x|by apply (Hlt x c)].
    destruct Hgt as (_ & Hln & _). destruct (linked_ancestors s Hi t p Ha Hln) as [_ H3]. congruence.
  - done.
  - intros x Hg. rewrite Ew. apply Hc. by apply Eg.
  - intros x Hx. rewrite Ew. by apply Hw.
Qed.
Lemma received_links : if decide (nChainTx (entry_of s q) = 0) then Links [] (set_unlinked r1 (mapBlocksUnlinked s ++ [(q, p)])) else Links [p] r1.
Proof.
  destruct e1_spec as (_ & _ & E0 & _ & Eb & _). pose proof (i_links s Hi) as Hk. pose proof not_linked as Hn0.
  assert (forall x bx, x <> p -> blocks s !! x = Some bx -> nChainTx (entry_of r1 x) <> 0 <-> bit (entry_of r1 x) 3 = true /\ forall y, pprev bx = Some y -> nChainTx (entry_of r1 y) <> 0) as Hother.
  { intros x bx Hx Hbx. rewrite r1_chaintx, r1_entry, decide_False by done. setoid_rewrite r1_chaintx. by apply (i_linked s Hi). }
  assert (forall y x, (y, x) ∈ mapBlocksUnlinked s <-> x <> p /\ exists c, blocks s !! x = Some c /\ pprev c = Some y /\ bit (entry_of r1 x) 3 = true /\ nChainTx (entry_of r1 x) = 0) as Hu.
  { intros y x. rewrite (i_unlinked s Hi). setoid_rewrite r1_chaintx. split.
    - intros (c & Hc & Ec & H3 & H0). assert (x <> p) as Hxp by (intros ->; congruence). split; [done|]. exists c. by rewrite r1_entry, decide_False.
    - intros (Hxp & c & Hc & Ec & H3 & H0). exists c. by rewrite r1_entry, decide_False in H3. }
  case_decide as Eq0.
  - split.
    + intros x bx _ Hbx. change (blocks s !! x = Some bx) in Hbx. change (entry_of (set_unlinked r1 _)) with (entry_of r1). destruct (decide (x = p)) as [->|Hx]; [|by apply Hother].
      rewrite r1_chaintx. split; [done|]. intros [_ Hl]. assert (bx = b) as -> by congruence. specialize (Hl q Hq). by rewrite r1_chaintx in Hl.
    + by intros x Hx%elem_of_nil.
    + intros y x. change (entry_of (set_unlinked r1 _)) with (entry_of r1). cbn [set_unlinked mapBlocksUnlinked blocks]. rewrite elem_of_app, list_elem_of_singleton, Hu. split.
      * intros [[Hx He]|[= -> ->]]; (split; [apply not_elem_of_nil|]); [done|]. exists b. rewrite r1_chaintx, r1_entry, decide_True by done. done.
      * intros [_ (c & Hc & Ec & H3 & H0)]. destruct (decide (x = p)) as [->|Hx]; [right; change (blocks s !! p = Some c) in Hc; congruence|]. left. eauto 10.
    + constructor.
  - split.
    + intros x bx Hx Hbx. apply Hother; [|done]. intros ->. apply Hx. left.
    + intros x ->%list_elem_of_singleton. exists b. rewrite r1_chaintx, r1_entry, decide_True by done. split_and!; try done. intros y Ey. rewrite r1_chaintx. congruence.
    + intros y x. rewrite list_elem_of_singleton. apply Hu.
    + repeat constructor. apply not_elem_of_nil.
Qed.
Lemma received_consistent : (forall x, is_Some (blocks s !! x) -> path_tx (blocks s) (fun y => if decide (y = p) then nVtx else tx_of s y) x < 2 ^ 32) ->
  exists s', ReceivedBlockTransactions s p nVtx = Some s' /\ Inv s' /\ Rest s' t /\ blocks s' = blocks s /\ mapBlockIndex s' = mapBlockIndex s /\ chainActive s' = chainActive s.
Proof.
  intros Hfit. unfold ReceivedBlockTransactions. rewrite Hp. cbn [mbind option_bind]. fold e1. fold r1. rewrite Hq.
  rewrite r1_chaintx. pose proof received_links as Hl. destruct (wf_prev (blocks s) (i_wf s Hi) p b q Hp Hq) as (c & Hc & Hh & _).
  assert (q <> p) as Hqp by (intros ->; rewrite Hp in Hc; injection Hc as <-; lia). rewrite r1_entry, decide_False by done.
  case_decide as E0.
  - rewrite E0. cbn [Z.eqb negb]. unfold block_IsValid. rewrite Hfq. destruct (i_tx s Hi q ltac:(eauto)) as (_ & _ & _ & Hlv).
    replace (level (entry_of s q) >=? BLOCK_VALID_TREE) with true by (unfold BLOCK_VALID_TREE; lia). eexists. split; [done|].
    change (mapBlocksUnlinked r1) with (mapBlocksUnlinked s). split_and!; try done; [split; [|done]|by apply received_rest].
    apply Base_unlinked; [apply received_base|]. apply list.NoDup_app. split; [apply (i_base s Hi)|]. split; [|repeat constructor; apply not_elem_of_nil].
    intros x Hx ->%list_elem_of_singleton. apply (i_unlinked s Hi) in Hx as (c' & _ & _ & Hx & _). congruence.
  - replace (nChainTx (entry_of s q) =? 0) with false by lia. cbn [negb].
    destruct (link_loop_spec (S (length (mapBlocksUnlinked r1))) r1 t [p] received_base Hl received_rest) as (s' & E & Hs); [|cbn; lia|].
    + intros x Hx. change (blocks r1) with (blocks s) in *. rewrite (path_tx_ext _ _ (fun y => if decide (y = p) then nVtx else tx_of s y)); [by apply Hfit | intros y _; apply r1_tx | apply (i_wf s Hi) | done].
    + exists s'. split; [done|]. exact Hs.
Qed.
End received.

(** ** A header arrives *)

Lemma count_tx_insert h p b tx n x : wf_heap h -> h !! p = None -> is_Some (h !! x) -> count_tx (<[p := b]> h) tx n (Some x) = count_tx h tx n (Some x).
Proof.
  intros Hwf Hp. revert x. induction n as [|n IH]; intros x [c Hc]; cbn [count_tx]; [done|]. f_equal. unfold prev, deref. cbn [mbind option_bind].
  rewrite lookup_insert_ne by congruence. rewrite Hc. cbn [mbind option_bind]. destruct (pprev c) as [y|] eqn:Ey; [|by destruct n].
  destruct (wf_prev h Hwf x c y Hc Ey) as (d & Hd & _). apply IH. eauto.
Qed.
Lemma path_tx_insert h p b tx x : wf_heap h -> h !! p = None -> is_Some (h !! x) -> path_tx (<[p := b]> h) tx x = path_tx h tx x.
Proof. intros Hwf Hp Hx. unfold path_tx. rewrite lookup_insert_ne by (intros ->; rewrite Hp in Hx; by destruct Hx). by apply count_tx_insert. Qed.
Lemma chain_of_insert h p b t bt : wf_heap h -> h !! p = None -> h !! t = Some bt -> chain_of (<[p := b]> h) t (nHeight bt) = chain_of h t (nHeight bt).
Proof.
  intros Hwf Hp Ht. unfold chain_of. apply list_fmap_ext. intros i x _. apply (ancestor_insert h Hwf p b Hp t bt); [done | lia].
Qed.

Section header.
Context `{NodeEnv} (s : chainstate) (t p q : ptr) (b : CBlockIndex) (hashPrevBlock w : Z) (c : CBlockIndex).
Context (Hi : Inv s) (Hr : Rest s t) (Hfresh : blocks s !! p = None) (Hnew : mapBlockIndex s !! phashBlock b = None).
Context (Hprev : mapBlockIndex s !! hashPrevBlock = Some q) (Hq : blocks s !! q = Some c) (Hh : nHeight c + 1 < 2 ^ 31 - 1).
Context (Hbits : is_u32 (nBits b)) (Hw : block_proof b = Some w) (Hw0 : 0 < w) (Hwb : 0 <= nChainWork (entry_of s q) + w < 2 ^ 256).
Local Abbreviation h := (blocks s).

(** The block linked to its predecessor, with the fields of stake. *)
Lemma linked_block : exists b', link_block h b q = Some b' /\ phashBlock b' = phashBlock b /\ nBits b' = nBits b /\ pprev b' = Some q /\ nHeight b' = nHeight c + 1 /\
  pskip b' = ancestor h q (GetSkipHeight (nHeight c + 1)).
Proof.
  destruct (link_block_core h p q b c (i_wf s Hi) Hfresh Hq Hh) as (b' & E & Hwf'). exists b'. split; [done|].
  pose proof E as E'. unfold link_block in E. rewrite Hq in E. cbn [mbind option_bind] in E. unfold BuildSkip in E. cbn [pprev nHeight] in E.
  destruct (GetAncestor h q (GetSkipHeight (nHeight c + 1))) as [k|] eqn:Ek; [|done]. cbn [mbind option_bind] in E. injection E as <-. cbn. split_and!; try done.
  rewrite (GetAncestor_spec h (i_wf s Hi) q c _ Hq) in Ek. injection Ek as <-. destruct (i_wf s Hi q c Hq) as [Hc _]. pose proof (GetSkipHeight_bounds (nHeight c + 1) ltac:(lia)).
  by replace ((GetSkipHeight (nHeight c + 1) >? nHeight c) || (GetSkipHeight (nHeight c + 1) <? 0)) with false by lia.
Qed.
Context (b' : CBlockIndex) (Eq' : pprev b' = Some q) (Eh' : nHeight b' = nHeight c + 1) (Es' : pskip b' = ancestor h q (GetSkipHeight (nHeight c + 1))).
Context (header : ptr) (Hbits' : is_u32 (nBits b')).
Local Definition e' : entry := mkEntry (nChainWork (entry_of s q) + w) 0 0 2 0.
Local Definition a1 : chainstate :=
  mkChain (<[p := b']> h) (<[p := e']> (entries s)) (<[phashBlock b := p]> (mapBlockIndex s)) (chainActive s) (setBlockIndexCandidates s) (mapBlocksUnlinked s)
    (nBlockSequenceId s) (Some header) (warn s).

Lemma a1_wf : wf_heap (<[p := b']> h).
Proof.
  pose proof (i_wf s Hi) as Hwf. intros x bx Hx. destruct (decide (x = p)) as [->|Hn]; [|rewrite lookup_insert_ne in Hx by done; by apply wf_block_insert].
  rewrite lookup_insert_eq in Hx. injection Hx as <-. destruct (Hwf q c Hq) as [Hc _]. split; [lia|]. split; [lia|]. intros _. exists q, c.
  rewrite lookup_insert_ne by congruence. split_and!; try done; [lia|]. rewrite Es', Eh'. pose proof (GetSkipHeight_bounds (nHeight c + 1) ltac:(lia)).
  by rewrite (ancestor_insert h Hwf p b' Hfresh q c _ Hq) by lia.
Qed.
Lemma old_other x : is_Some (h !! x) -> x <> p.
Proof. intros Hx ->. rewrite Hfresh in Hx. by destruct Hx. Qed.
Lemma a1_entry x : entry_of a1 x = if decide (x = p) then e' else entry_of s x.
Proof. unfold entry_of, a1. cbn. case_decide; [subst; by rewrite lookup_insert_eq | by rewrite lookup_insert_ne]. Qed.
Lemma a1_block x bx : <[p := b']> h !! x = Some bx <-> (x = p /\ bx = b') \/ (x <> p /\ h !! x = Some bx).
Proof. destruct (decide (x = p)) as [->|Hn]; [rewrite lookup_insert_eq | rewrite lookup_insert_ne by done]; split; intuition congruence. Qed.
Lemma a1_some x : is_Some (<[p := b']> h !! x) <-> x = p \/ is_Some (h !! x).
Proof.
  split; [intros [bx Hx%a1_block]; destruct Hx as [[-> _]|[_ Hx]]; [by left | eauto]|]. intros [->|[bx Hx]]; [rewrite lookup_insert_eq; eauto|].
  exists bx. apply a1_block. right. split; [apply old_other; eauto | done].
Qed.
Lemma a1_anc x y : is_Some (h !! x) -> anc (<[p := b']> h) x y <-> anc h x y.
Proof. intros Hx. apply anc_insert; [done | done | apply (i_wf s Hi)]. Qed.
Lemma a1_prev_old x bx y : h !! x = Some bx -> pprev bx = Some y -> y <> p.
Proof. intros Hx Hy. destruct (wf_prev h (i_wf s Hi) x bx y Hx Hy) as (d & Hd & _). apply old_other. eauto. Qed.

Lemma a1_base : Base a1.
Proof.
  pose proof (i_base s Hi) as Hb. destruct (i_wf s Hi q c Hq) as [Hc _].
  split; change (blocks a1) with (<[p := b']> h); change (chainActive a1) with (chainActive s); change (setBlockIndexCandidates a1) with (setBlockIndexCandidates s);
    change (mapBlocksUnlinked a1) with (mapBlocksUnlinked s).
  - apply a1_wf.
  - intros x y bx bx' [[-> ->]|[_ Hx]]%a1_block [[-> ->]|[_ Hy]]%a1_block Hx0 Hy0; try lia. by apply (b_root s Hb x y bx bx').
  - intros x. rewrite a1_some. unfold a1. cbn. rewrite (b_dom s Hb x). destruct (decide (x = p)) as [->|Hn]; [rewrite lookup_insert_eq; split; eauto|].
    rewrite lookup_insert_ne by done. tauto.
  - intros x. rewrite a1_some, (b_index s Hb x). unfold all_blocks, a1. cbn [mapBlockIndex]. rewrite map_to_list_insert by done. cbn. by rewrite elem_of_cons.
  - destruct (b_tip s Hb) as (tt & bt & Ht & Ec). exists tt, bt. split; [apply a1_block; right; split; [apply old_other; eauto | done]|].
    rewrite Ec. symmetry. by apply chain_of_insert; [apply (i_wf s Hi)| |].
  - intros x Hx. cbv zeta. rewrite a1_entry. case_decide as E; [change (level e') with 2; change (bit e' 3) with false; cbn [nTx e']; split_and!; [lia | split; [done | lia] | lia | by left]|]. apply (b_tx s Hb). apply a1_some in Hx. tauto.
  - intros x Hx. rewrite a1_entry. case_decide as E; [done|]. intros Hn. apply a1_some in Hx as [|Hx]; [done|]. rewrite path_tx_insert by (done || apply (i_wf s Hi)).
    rewrite (b_count s Hb x Hx Hn). apply path_tx_ext; [|apply Hb | done]. intros y Hy. rewrite a1_entry, decide_False; [done|]. apply old_other. by apply (anc_blocks h x y).
  - intros x Hx. rewrite a1_entry. case_decide as E; [done|]. apply (b_seq s Hb). apply a1_some in Hx. tauto.
  - intros x bx y [[-> ->]|[Hn Hx]]%a1_block Ey.
    + assert (y = q) as -> by congruence. rewrite !a1_entry, decide_False by (apply old_other; eauto). rewrite decide_True by done. cbn. lia.
    + rewrite !a1_entry, !decide_False by (done || by eapply a1_prev_old). by apply (b_work s Hb x bx).
  - intros x Hx. rewrite a1_entry. case_decide as E; [done|]. apply a1_some in Hx as [|Hx]; [done|]. intros H6. destruct (b_child s Hb x Hx H6) as (y & Ha & Hy).
    exists y. rewrite a1_anc by done. split; [done|]. rewrite a1_entry, decide_False; [done|]. apply old_other. by apply (anc_blocks h x y).
  - intros x bx y d [[-> ->]|[Hn Hx]]%a1_block Ey Hd Hnn; rewrite !a1_entry; [rewrite decide_True by done; change (level e') with 2; lia|].
    apply a1_block in Hd as [[-> ->]|[Hyp Hd]]; [by destruct (a1_prev_old x bx p Hx Ey)|]. rewrite !decide_False by done. by apply (b_scripts s Hb x bx y d).
  - intros x Hx. destruct (b_cand s Hb x Hx) as [Hbx Hn]. split; [apply a1_some; tauto|]. rewrite a1_entry, decide_False; [done | by apply old_other].
  - apply Hb.
  - intros x bx [[-> ->]|[_ Hx]]%a1_block; [done | by apply (b_bits s Hb x)].
  - intros x Hx. apply a1_some. right. by apply (b_warn s Hb).
Qed.
Lemma a1_links : Links [] a1.
Proof.
  split; change (blocks a1) with (<[p := b']> h); change (mapBlocksUnlinked a1) with (mapBlocksUnlinked s).
  - intros x bx _ [[-> ->]|[Hn Hx]]%a1_block.
    + rewrite a1_entry, decide_True by done. cbn. split; [done | by intros [? _]].
    + rewrite a1_entry, decide_False by done. rewrite (i_linked s Hi x bx Hx). split; intros [H3 Hl]; (split; [done|]); intros y Ey; specialize (Hl y Ey);
        rewrite a1_entry, decide_False in *; try done; by eapply a1_prev_old.
  - by intros x Hx%elem_of_nil.
  - intros y x. rewrite (i_unlinked s Hi y x). split.
    + intros (bx & Hx & Ey & H3 & H0). split; [apply not_elem_of_nil|]. exists bx. rewrite a1_entry, decide_False by (apply old_other; eauto). split_and!; try done.
      apply a1_block. right. split; [apply old_other; eauto | done].
    + intros [_ (bx & [[-> ->]|[Hn Hx]]%a1_block & Ey & H3 & H0)]; rewrite a1_entry in H3, H0; [by rewrite decide_True in H3|]. rewrite decide_False in H3, H0 by done. eauto 10.
  - constructor.
Qed.
Lemma a1_rest : Rest a1 t.
Proof.
  destruct Hr as (Ht & ((Hgt & Hlt) & Htc & Hc) & Hwt). assert (is_Some (h !! t)) as Hbt by apply Hgt.
  assert (forall x y, x <> p -> y <> p -> worse a1 x y = worse s x y) as Ew by (intros x y Hx Hy; unfold worse; by rewrite !a1_entry, !decide_False).
  assert (forall x, x <> p -> good a1 x <-> good s x) as Eg.
  { intros x Hx. unfold good. change (blocks a1) with (<[p := b']> h). rewrite a1_some, a1_entry, decide_False by done. split.
    - intros ([|Hbx] & Hn & Ha); [done|]. split; [done|]. split; [done|]. intros y Hy. specialize (Ha y). rewrite a1_anc, a1_entry, decide_False in Ha; [by apply Ha | | done].
      apply old_other. by apply (anc_blocks h x y).
    - intros (Hbx & Hn & Ha). split; [by right|]. split; [done|]. intros y Hy. rewrite a1_anc in Hy by done. rewrite a1_entry, decide_False; [by apply Ha|]. apply old_other. by apply (anc_blocks h x y). }
  split; [done|]. split; [split; [|split]|].
  - split; [apply Eg; [by apply old_other | done]|]. change (blocks a1) with (<[p := b']> h). intros x d Ha Hx Hn. rewrite a1_anc in Ha by done.
    rewrite a1_entry, decide_False by (apply old_other; by apply (anc_blocks h t x)). apply a1_block in Hx as [[-> _]|[_ Hx]]; [exfalso; apply (old_other p); [by apply (anc_blocks h t p) | done]|].
    by apply (Hlt x d).
  - done.
  - intros x Hg. destruct (decide (x = p)) as [->|Hx]; [destruct Hg as (_ & Hg & _); by rewrite a1_entry, decide_True in Hg|].
    rewrite Ew by (done || by apply old_other). apply Hc. by apply Eg.
  - intros x Hx. rewrite Ew; [by apply Hwt | apply old_other; by apply (i_cand s Hi) | by apply old_other].
Qed.
End header.

Lemma header_consistent `{NodeEnv} s t p q b hashPrevBlock w c : Inv s -> Rest s t -> blocks s !! p = None -> mapBlockIndex s !! phashBlock b = None ->
  mapBlockIndex s !! hashPrevBlock = Some q -> blocks s !! q = Some c -> nHeight c + 1 < 2 ^ 31 - 1 -> is_u32 (nBits b) -> block_proof b = Some w -> 0 < w ->
  0 <= nChainWork (entry_of s q) + w < 2 ^ 256 ->
  exists s', AddToBlockIndex s p b hashPrevBlock = Some (s', p) /\ Inv s' /\ Rest s' t /\ chainActive s' = chainActive s /\
    exists b', blocks s' !! p = Some b' /\ pprev b' = Some q /\ nHeight b' = nHeight c + 1 /\ phashBlock b' = phashBlock b /\ nTx (entry_of s' p) = 0 /\
      nChainWork (entry_of s' p) = nChainWork (entry_of s q) + w.
Proof.
  intros Hi Hr Hfresh Hnew Hprev Hq Hh Hbits Hw Hw0 Hwb. destruct (linked_block s p q b c Hi Hfresh Hq Hh) as (b1 & E & E1 & E2 & E3 & E4 & E5).
  unfold AddToBlockIndex. rewrite Hnew, Hprev, E. cbn [mbind option_bind]. destruct (stake_fields (blocks s) b1) as [sm fl]. cbn [mbind option_bind].
  set (b' := mkBlockIndex _ _ _ _ _ _ _ _ _). assert (block_proof b' = Some w) as -> by (rewrite <- Hw; unfold block_proof, GetBlockProof; change (nBits b') with (nBits b1); by rewrite E2).
  assert (pprev b' = Some q) as Eb by exact E3. cbn [mbind option_bind]. rewrite !Eb. unfold u256. rewrite Z.mod_small by lia.
  change (RaiseValidity _ BLOCK_VALID_TREE) with (e' s q w). set (header := match pindexBestHeader s with Some _ => _ | None => p end).
  eexists. split; [done|]. split; [split|split; [|split; [done|]]].
  - by apply (a1_base s p q b w c Hi Hfresh Hnew Hq Hh Hw0 Hwb b' E3 E4 E5 header ltac:(unfold b'; cbn; by rewrite E2)).
  - by apply (a1_links s p q b w Hi Hfresh Hwb b' header).
  - by apply (a1_rest s t p q b w Hi Hr Hfresh Hwb b' header).
  - exists b'. split; [cbn [blocks]; apply lookup_insert_eq|]. split; [exact E3|]. split; [exact E4|]. split; [exact E1|].
    unfold entry_of. cbn [entries]. rewrite lookup_insert_eq. done.
Qed.
