(* ===== verification/BestChain.v ===== *)
(** The activation of the best chain: the candidate with most work is found, the tip moves to it,
    and the search ends. *)
From S2P Require Import Prelude TxChecks Chain Uint256 Pow ChainState ChainInv ChainArrival.

(** A state from which the best chain can be looked for: the tip has been connected, and
    whatever is as good as some block [T] that has been connected too is a candidate. *)
Definition Mid (s : chainstate) (T t : ptr) : Prop :=
  Tip s = Some t /\ proven s t /\ Ref s T /\ forall p, p ∈ setBlockIndexCandidates s -> worse s p t = false.
Lemma Rest_Mid s t : Rest s t -> Mid s t t.
Proof. intros (Ht & Hr & Hc). split; [done|]. split; [apply Hr | done]. Qed.
Lemma Rest_from_Mid s T t : Mid s T t -> t ∈ setBlockIndexCandidates s -> worse s t T = false -> Rest s t.
Proof.
  intros (Ht & Hpt & (HT & HTc & Hc) & Hw) Htc HtT. split; [done|]. split; [|done]. split; [done|]. split; [done|].
  intros p Hp Hpw. apply Hc; [done|]. by apply (worse_neg_trans s p t T).
Qed.

(** ** States that agree on all but marks of descendants *)

(** Warnings apart, only [BLOCK_FAILED_CHILD] has been set and useless candidates dropped. *)
Record soft (s s' : chainstate) : Prop := {
  f_blocks : blocks s' = blocks s;
  f_index : mapBlockIndex s' = mapBlockIndex s;
  f_active : chainActive s' = chainActive s;
  f_entry : forall p, let e := entry_of s p in let e' := entry_of s' p in
    nChainWork e' = nChainWork e /\ nTx e' = nTx e /\ nChainTx e' = nChainTx e /\ nSequenceId e' = nSequenceId e /\ level e' = level e /\
    bit e' 3 = bit e 3 /\ bit e' 5 = bit e 5;
  f_cand : forall p, p ∈ setBlockIndexCandidates s' -> p ∈ setBlockIndexCandidates s;
  f_good : forall p, good s p -> p ∈ setBlockIndexCandidates s -> p ∈ setBlockIndexCandidates s'
}.
Lemma soft_refl s : soft s s.
Proof. split; try done. Qed.
Section softly.
Context (s s' : chainstate) (Hs : soft s s').
Lemma soft_worse p q : worse s' p q = worse s p q.
Proof. unfold worse. destruct (f_entry s s' Hs p) as (-> & _ & _ & -> & _). by destruct (f_entry s s' Hs q) as (-> & _ & _ & -> & _). Qed.
Lemma soft_good p : good s' p <-> good s p.
Proof.
  unfold good. rewrite (f_blocks s s' Hs). destruct (f_entry s s' Hs p) as (_ & _ & -> & _).
  split; intros (H1 & H2 & H3); (split; [done|]); (split; [done|]); intros q Hq; destruct (f_entry s s' Hs q) as (_ & _ & _ & _ & _ & _ & E); [rewrite <- E | rewrite E]; by apply H3.
Qed.
Lemma soft_proven p : proven s p -> proven s' p.
Proof.
  intros [Hg Hl]. split; [by apply soft_good|]. intros q b. rewrite (f_blocks s s' Hs). destruct (f_entry s s' Hs q) as (_ & _ & _ & _ & -> & _). apply Hl.
Qed.
Lemma soft_Ref T : Ref s T -> Ref s' T.
Proof.
  intros (Hp & Hc & Hw). split; [by apply soft_proven|]. split; [apply (f_good s s' Hs); [apply Hp | done]|].
  intros p Hg. rewrite soft_worse. intros Hpw. apply (f_good s s' Hs); [by apply soft_good|]. apply Hw; [by apply soft_good | done].
Qed.
Lemma soft_Tip : Tip s' = Tip s.
Proof. unfold Tip. by rewrite (f_active s s' Hs). Qed.
Lemma soft_Mid T t : Mid s T t -> Mid s' T t.
Proof.
  intros (Ht & Hp & Hr & Hc). split; [by rewrite soft_Tip|]. split; [by apply soft_proven|]. split; [by apply soft_Ref|].
  intros p Hp'. rewrite soft_worse. apply Hc. by apply (f_cand s s' Hs).
Qed.
End softly.
Lemma soft_trans s1 s2 s3 : soft s1 s2 -> soft s2 s3 -> soft s1 s3.
Proof.
  intros H1 H2. split.
  - by rewrite (f_blocks _ _ H2), (f_blocks _ _ H1).
  - by rewrite (f_index _ _ H2), (f_index _ _ H1).
  - by rewrite (f_active _ _ H2), (f_active _ _ H1).
  - intros p. cbv zeta. destruct (f_entry _ _ H2 p) as (-> & -> & -> & -> & -> & -> & ->). apply (f_entry _ _ H1 p).
  - intros p Hp. by apply (f_cand _ _ H1), (f_cand _ _ H2).
  - intros p Hg Hp. apply (f_good _ _ H2); [by apply (soft_good _ _ H1)|]. by apply (f_good _ _ H1).
Qed.

Definition keeps_fork_tip (s : chainstate) (w : warnings) : Prop := forall p, pindexBestForkTip w = Some p -> is_Some (blocks s !! p).
Lemma warn_Inv s w : Inv s -> keeps_fork_tip s w -> Inv (set_warn s w).
Proof.
  intros [Hb Hk] Hw. split; [split; try apply Hb; exact Hw|]. destruct Hk as [H1 H2 H3 H4]. split; [exact H1 | exact H2 | exact H3 | exact H4].
Qed.
Lemma warn_soft s w : soft s (set_warn s w).
Proof. split; try done. Qed.

(** A candidate that is of no use is dropped. *)
Lemma erase_Inv s p : Inv s -> Inv (erase_candidate s p).
Proof.
  intros [Hb Hk]. split; [split; try apply Hb|].
  - intros q Hq. apply (b_cand s Hb q). by apply elem_of_difference in Hq as [Hq _].
  - destruct Hk as [H1 H2 H3 H4]. split; [exact H1 | exact H2 | exact H3 | exact H4].
Qed.
Lemma erase_soft s p : ~ good s p -> soft s (erase_candidate s p).
Proof.
  intros Hn. split; try done; cbn; [by intros q [Hq _]%elem_of_difference|]. intros q Hg Hqc. apply elem_of_difference. split; [done|]. by intros ->%elem_of_singleton.
Qed.

(** A descendant of a failed block is marked. *)
Lemma set_entry_same_fields s p e : Inv s -> is_Some (blocks s !! p) ->
  nChainWork e = nChainWork (entry_of s p) -> nTx e = nTx (entry_of s p) -> nChainTx e = nChainTx (entry_of s p) -> nSequenceId e = nSequenceId (entry_of s p) ->
  bit e 3 = bit (entry_of s p) 3 ->
  (level e = level (entry_of s p) \/ (level e = 5 /\ 0 < nTx e /\ forall b q c, blocks s !! p = Some b -> pprev b = Some q -> blocks s !! q = Some c -> pprev c <> None -> 5 <= level (entry_of s q))) ->
  (bit (entry_of s p) 5 = true -> bit e 5 = true) ->
  (bit e 6 = true -> bit (entry_of s p) 6 = true \/ exists q, anc (blocks s) p q /\ bit (entry_of s q) 5 = true \/ (q = p /\ bit e 5 = true)) ->
  Inv (set_entry s p e).
Proof.
  intros Hi Hp Ew Et Ec Es E3 El E5 E6. pose proof (i_base s Hi) as Hb. pose proof (i_links s Hi) as Hk.
  assert (forall q, nChainWork (entry_of (set_entry s p e) q) = nChainWork (entry_of s q)) as Fw by (intros q; rewrite entry_of_set; by case_decide as E; [rewrite E|]).
  assert (forall q, nTx (entry_of (set_entry s p e) q) = nTx (entry_of s q)) as Ft by (intros q; rewrite entry_of_set; by case_decide as E; [rewrite E|]).
  assert (forall q, nChainTx (entry_of (set_entry s p e) q) = nChainTx (entry_of s q)) as Fc by (intros q; rewrite entry_of_set; by case_decide as E; [rewrite E|]).
  assert (forall q, nSequenceId (entry_of (set_entry s p e) q) = nSequenceId (entry_of s q)) as Fs by (intros q; rewrite entry_of_set; by case_decide as E; [rewrite E|]).
  assert (forall q, bit (entry_of (set_entry s p e) q) 3 = bit (entry_of s q) 3) as F3 by (intros q; rewrite entry_of_set; by case_decide as E; [rewrite E|]).
  assert (forall q, bit (entry_of s q) 5 = true -> bit (entry_of (set_entry s p e) q) 5 = true) as F5 by (intros q; rewrite entry_of_set; case_decide as E; [rewrite E; done | done]).
  split; split; try apply Hb.
  - intros q. rewrite (b_dom s Hb q). cbn. destruct (decide (q = p)) as [->|]; [rewrite lookup_insert_eq; split; [eauto | intros _; by apply (b_dom s Hb p)] | by rewrite lookup_insert_ne].
  - intros q Hq. cbv zeta. rewrite Ft, F3. destruct (b_tx s Hb q Hq) as (H0 & H1 & H2 & H3). rewrite entry_of_set. case_decide as E; [subst q|done].
    split; [done|]. split; [done|]. destruct El as [->|(-> & Hn & _)]; [done|]. split; [lia | lia].
  - intros q Hq. rewrite Fc. intros Hn. rewrite (b_count s Hb q Hq Hn). apply path_tx_ext; [|apply Hb | done]. intros y _. by rewrite Ft.
  - intros q Hq. rewrite Fc, Fs. by apply (b_seq s Hb).
  - intros x b y. rewrite !Fw. apply (b_work s Hb).
  - intros x Hx H6. rewrite entry_of_set in H6. case_decide as E.
    + subst x. destruct (E6 H6) as [H6'|(y & [[Ha Hy]|[-> Hy]])].
      * destruct (b_child s Hb p Hx H6') as (y & Ha & Hy). exists y. split; [done | by apply F5].
      * exists y. split; [done | by apply F5].
      * exists p. split; [by apply anc_refl|]. by rewrite entry_of_set, decide_True.
    + destruct (b_child s Hb x Hx H6) as (y & Ha & Hy). exists y. split; [done | by apply F5].
  - intros x b y c Hx Ey Hy Hn. change (blocks (set_entry s p e)) with (blocks s) in *. rewrite !entry_of_set. intros Hl.
    assert (5 <= level (entry_of s y)) as Hly.
    { case_decide as E; [subst x|by apply (b_scripts s Hb x b y c)]. destruct El as [El|(_ & _ & Hq)]; [rewrite El in Hl; by apply (b_scripts s Hb p b y c) | by apply (Hq b y c)]. }
    clear Hl. case_decide as E; [subst y|done]. destruct El as [->|[-> _]]; [done | lia].
  - intros x Hx. rewrite Fc. by apply (b_cand s Hb).
  - intros x b Hn Hx. rewrite Fc, F3. setoid_rewrite Fc. by apply (k_linked [] s Hk).
  - by intros x Hx%elem_of_nil.
  - intros y x. rewrite (k_unlinked [] s Hk y x). change (blocks (set_entry s p e)) with (blocks s). setoid_rewrite F3. by setoid_rewrite Fc.
  - constructor.
Qed.
Lemma mark_child_Inv s p : Inv s -> is_Some (blocks s !! p) -> (exists q, anc (blocks s) p q /\ bit (entry_of s q) 5 = true) ->
  Inv (set_entry s p (set_flag (entry_of s p) BLOCK_FAILED_CHILD)) /\ soft s (set_entry s p (set_flag (entry_of s p) BLOCK_FAILED_CHILD)).
Proof.
  intros Hi Hp (q & Ha & Hq). change BLOCK_FAILED_CHILD with (2 ^ 6). split.
  - apply set_entry_same_fields; try done.
    + rewrite bit_set_flag by lia. apply orb_false_r.
    + left. by apply level_set_flag.
    + rewrite bit_set_flag by lia. by intros ->.
    + intros _. right. exists q. by left.
  - split; try done. intros x. cbv zeta. rewrite entry_of_set. case_decide; [subst|done]. rewrite !bit_set_flag, level_set_flag by lia. cbn [Z.eqb Pos.eqb]. by rewrite !orb_false_r.
Qed.

(** ** The candidate with most work *)

Lemma path_test_spec fuel s t p b : Inv s -> Tip s = Some t -> blocks s !! p = Some b -> nChainTx (entry_of s p) <> 0 -> (Z.to_nat (nHeight b) < fuel)%nat ->
  exists r, path_test fuel s (Some p) = Some r /\
    match r with
    | None => forall x, anc (blocks s) p x -> ~ anc (blocks s) t x -> flag (entry_of s x) BLOCK_FAILED_MASK = false
    | Some (x, f) => f = true /\ anc (blocks s) p x /\ flag (entry_of s x) BLOCK_FAILED_MASK = true
    end.
Proof.
  intros Hi Ht. revert p b. induction fuel as [|fuel IH]; intros p b Hp Hn Hf; [lia|]. cbn [path_test].
  destruct (Contains_spec s Hi t p b Ht Hp) as (c & -> & Hc). cbn [mbind option_bind]. destruct c.
  - exists None. split; [done|]. intros x Hx Hnx. destruct Hnx. eapply anc_trans; [by apply Hc | done].
  - rewrite Hp. cbn [mbind option_bind]. replace (nChainTx (entry_of s p) =? 0) with false by lia. cbn [andb].
    destruct (linked_ancestors s Hi p p ltac:(apply anc_refl; eauto) Hn) as [_ H3]. rewrite flag_data, H3. cbn [negb]. rewrite orb_false_r.
    destruct (flag (entry_of s p) BLOCK_FAILED_MASK) eqn:Ef.
    + exists (Some (p, true)). split; [done|]. split; [done|]. split; [apply anc_refl; eauto | done].
    + destruct (pprev b) as [q|] eqn:Eq.
      * destruct (wf_prev (blocks s) (i_wf s Hi) p b q Hp Eq) as (d & Hd & Hh & H0).
        destruct (IH q d Hd ltac:(by apply (proj1 (i_linked s Hi p b Hp) Hn)) ltac:(lia)) as (r & E & Hr). exists r. split; [done|].
        destruct r as [[x f]|]; [destruct Hr as (-> & Ha & Hx); split; [done|]; split; [by apply (anc_step _ p b q) | done]|].
        intros x Hx Hnx. destruct (anc_inv (blocks s) p b x Hp Hx) as [->|(y & Ey & Hy)]; [done|]. apply Hr; [congruence | done].
      * exists None. split; [by destruct fuel|]. intros x Hx _. destruct (anc_inv (blocks s) p b x Hp Hx) as [->|(y & Ey & _)]; [done | congruence].
Qed.
Lemma remove_path_spec fuel s x p b : Inv s -> blocks s !! p = Some b -> anc (blocks s) p x -> (exists q, anc (blocks s) x q /\ bit (entry_of s q) 5 = true) -> (Z.to_nat (nHeight b) < fuel)%nat ->
  exists s', remove_path fuel s x p true = Some s' /\ Inv s' /\ soft s s' /\ (p <> x -> p ∉ setBlockIndexCandidates s') /\ warn s' = warn s.
Proof.
  revert s p b. induction fuel as [|fuel IH]; intros s p b Hi Hp Ha Hq Hf; [lia|]. cbn [remove_path]. case_bool_decide as Ex.
  - exists s. split; [done|]. split; [done|]. split; [apply soft_refl|]. split; [congruence | done].
  - rewrite Hp. cbn [mbind option_bind]. destruct (anc_inv (blocks s) p b x Hp Ha) as [->|(y & Ey & Hy)]; [done|]. rewrite Ey. cbn [mbind option_bind].
    destruct Hq as (q & Hxq & Hbq). destruct (mark_child_Inv s p Hi ltac:(eauto)) as [Hi1 Hs1]; [exists q; split; [by eapply anc_trans | done]|].
    set (s1 := set_entry s p _) in *.
    assert (~ good s1 p) as Hng.
    { intros (_ & _ & Hg). specialize (Hg q ltac:(by eapply anc_trans)). destruct (f_entry s s1 Hs1 q) as (_ & _ & _ & _ & _ & _ & E). congruence. }
    pose proof (erase_Inv s1 p Hi1) as Hi2. pose proof (soft_trans _ _ _ Hs1 (erase_soft s1 p Hng)) as Hs2. set (s2 := erase_candidate s1 p) in *.
    destruct (wf_prev (blocks s) (i_wf s Hi) p b y Hp Ey) as (d & Hd & Hh & H0).
    destruct (IH s2 y d Hi2 Hd Hy) as (s' & E & Hi' & Hs' & _ & Ew).
    + exists q. split; [done|]. destruct (f_entry s s2 Hs2 q) as (_ & _ & _ & _ & _ & _ & ->). done.
    + lia.
    + exists s'. split; [done|]. split; [done|]. split; [by eapply soft_trans|]. split; [|by rewrite Ew]. intros _ Hc. apply (f_cand s2 s' Hs') in Hc.
      unfold s2 in Hc. cbn in Hc. by apply elem_of_difference in Hc as [_ Hc%not_elem_of_singleton].
Qed.
(** It always ends, with the best candidate whose path to the active chain is usable. *)
Lemma FindMostWorkChain_spec fuel s t : Inv s -> Tip s = Some t -> (size (setBlockIndexCandidates s) < fuel)%nat ->
  exists s' r, FindMostWorkChain fuel s = Some (s', r) /\ Inv s' /\ soft s s' /\
    match r with
    | None => setBlockIndexCandidates s' = ∅
    | Some m => m ∈ setBlockIndexCandidates s' /\ (forall q, q ∈ setBlockIndexCandidates s' -> worse s' m q = false) /\
        forall x, anc (blocks s') m x -> ~ anc (blocks s') t x -> flag (entry_of s' x) BLOCK_FAILED_MASK = false
    end.
Proof.
  revert s. induction fuel as [|fuel IH]; intros s Hi Ht Hf; [lia|]. cbn [FindMostWorkChain]. pose proof (rbegin_spec s) as Hm.
  destruct (rbegin s) as [m|]; [|exists s, None; split; [done|]; split; [done|]; split; [apply soft_refl | done]].
  destruct Hm as [Hmc Hmax]. destruct (i_cand s Hi m Hmc) as [[b Hb] Hn]. unfold height_fuel. rewrite Hb.
  destruct (path_test_spec (S (Z.to_nat (nHeight b))) s t m b Hi Ht Hb Hn ltac:(lia)) as (r & -> & Hr). cbn [mbind option_bind].
  destruct r as [[x f]|]; [|exists s, (Some m); split; [done|]; split; [done|]; split; [apply soft_refl | done]].
  destruct Hr as (-> & Ha & Hx). set (w := mkWarnings _ _ _ _ _). pose proof (warn_Inv s w Hi (i_warn s Hi)) as Hi1.
  assert (exists q, anc (blocks s) x q /\ bit (entry_of s q) 5 = true) as Hq.
  { destruct (anc_blocks (blocks s) m x Ha) as [_ Hxb]. rewrite flag_failed in Hx. apply orb_true_iff in Hx as [Hx|Hx]; [exists x; split; [by apply anc_refl | done]|]. by apply (i_child s Hi x). }
  change (blocks (set_warn s w)) with (blocks s). rewrite Hb.
  destruct (remove_path_spec (S (Z.to_nat (nHeight b))) (set_warn s w) x m b Hi1 Hb Ha Hq ltac:(lia)) as (s2 & -> & Hi2 & Hs2 & Hmx & _). cbn [mbind option_bind].
  pose proof (soft_trans _ _ _ (warn_soft s w) Hs2) as Hs2'.
  assert (~ good s2 x) as Hng.
  { intros Hg%(soft_good _ _ Hs2'). destruct Hq as (q & Hxq & Hq). destruct Hg as (_ & _ & Hg). specialize (Hg q Hxq). congruence. }
  pose proof (erase_Inv s2 x Hi2) as Hi3. pose proof (soft_trans _ _ _ Hs2' (erase_soft s2 x Hng)) as Hs3. set (s3 := erase_candidate s2 x) in *.
  destruct (IH s3 Hi3) as (s' & r & E & Hi' & Hs' & Hr).
  - by rewrite (soft_Tip _ _ Hs3).
  - assert (setBlockIndexCandidates s3 ⊂ setBlockIndexCandidates s) as Hlt%subset_size; [|lia].
    split; [intros y; apply (f_cand _ _ Hs3)|]. intros Hsub. specialize (Hsub m Hmc). unfold s3 in Hsub. cbn in Hsub. apply elem_of_difference in Hsub as [H1 H2%not_elem_of_singleton].
    by apply Hmx.
  - exists s', r. split; [done|]. split; [done|]. split; [by eapply soft_trans | done].
Qed.

(** ** The warnings are computed without failing *)

Lemma set_warn_same s : set_warn s (warn s) = s.
Proof. by destruct s. Qed.
Lemma block_proof_some b : is_u32 (nBits b) -> exists w, block_proof b = Some w.
Proof. intros Hb. destruct (GetBlockProof_correct b Hb) as (w & E & _). exists (val w). unfold block_proof. by rewrite E. Qed.
Lemma lower_to_spec h fuel l b k : wf_heap h -> h !! l = Some b -> (Z.to_nat (nHeight b) <= fuel)%nat -> 0 <= k ->
  exists r, lower_to h fuel (Some l) k = Some r /\ forall x, r = Some x -> is_Some (h !! x).
Proof.
  intros Hwf Hl Hf Hk. revert l b Hl Hf. induction fuel as [|fuel IH]; intros l b Hl Hf; cbn [lower_to]; rewrite Hl; cbn [mbind option_bind];
    (destruct (Z.gtb_spec (nHeight b) k) as [Hgt|Hle]; [|exists (Some l); split; [done|]; intros x [= <-]; eauto]); [lia|].
  destruct (pprev b) as [q|] eqn:Eq; [|exists None; split; [by destruct fuel | done]].
  destruct (wf_prev h Hwf l b q Hl Eq) as (c & Hc & Hh & _). apply (IH q c Hc). lia.
Qed.
Lemma fork_loop_spec h fuel f b plonger : wf_heap h -> h !! f = Some b -> (Z.to_nat (nHeight b) < fuel)%nat -> (forall x, plonger = Some x -> is_Some (h !! x)) ->
  exists r, fork_loop h fuel (Some f) plonger = Some r /\ forall x, r = Some x -> is_Some (h !! x).
Proof.
  intros Hwf. revert f b plonger. induction fuel as [|fuel IH]; intros f b plonger Hf Hl Hp; [lia|]. cbn [fork_loop].
  case_bool_decide; [exists (Some f); split; [done|]; intros x [= <-]; eauto|]. rewrite Hf. cbn [mbind option_bind]. destruct (Hwf f b Hf) as [Hb0 _].
  match goal with |- context [lower_to h ?n plonger (nHeight b)] => set (k := n) end.
  assert (exists r, lower_to h k plonger (nHeight b) = Some r /\ forall x, r = Some x -> is_Some (h !! x)) as (r & -> & Hr).
  { unfold k. destruct plonger as [l|]; [|by exists None]. destruct (Hp l eq_refl) as [c Hc]. rewrite Hc. apply (lower_to_spec h _ l c); [done | done | lia | lia]. }
  cbn [mbind option_bind]. case_bool_decide; [exists (Some f); split; [done|]; intros x [= <-]; eauto|].
  destruct (pprev b) as [q|] eqn:Eq; [|exists None; split; [by destruct fuel | done]].
  destruct (wf_prev h Hwf f b q Hf Eq) as (c & Hc & Hh & Hc0). apply (IH q c r); [done | lia | done].
Qed.

Section warns.
Context `{NodeEnv}.
Lemma CheckForkWarningConditions_spec s : Inv s -> exists w, CheckForkWarningConditions s = Some (set_warn s w) /\ keeps_fork_tip s w.
Proof.
  intros Hi. pose proof (i_warn s Hi) as Hw. unfold CheckForkWarningConditions. destruct (IsInitialBlockDownload s); [exists (warn s); by rewrite set_warn_same|].
  destruct (tip_exists s Hi) as (t & bt & Ht & Hbt & _). destruct (block_proof_some bt (i_bits s Hi t bt Hbt)) as [pr Hpr].
  destruct (pindexBestForkTip (warn s)) as [x|] eqn:Ex.
  - destruct (Hw x eq_refl) as [b Hb]. rewrite Hb. cbn [mbind option_bind].
    destruct (_ >=? 72); cbn [mbind option_bind]; [|destruct (pindexBestForkBase (warn s)); (eexists; split; [reflexivity|]; by intros y [= <-])].
    destruct (pindexBestInvalid (warn s)); cbn [mbind option_bind]; rewrite ?Ht; cbn [mbind option_bind]; rewrite ?Hbt; cbn [mbind option_bind]; rewrite ?Hpr; cbn [mbind option_bind];
      [destruct (_ >? _)|]; (eexists; split; [reflexivity|]; by intros y).
  - cbn [mbind option_bind].
    destruct (pindexBestInvalid (warn s)); cbn [mbind option_bind]; rewrite ?Ht; cbn [mbind option_bind]; rewrite ?Hbt; cbn [mbind option_bind]; rewrite ?Hpr; cbn [mbind option_bind];
      [destruct (_ >? _)|]; (eexists; split; [reflexivity|]; by intros y).
Qed.
Lemma InvalidChainFound_spec s p : Inv s -> exists w, InvalidChainFound s p = Some (set_warn s w) /\ keeps_fork_tip s w.
Proof.
  intros Hi. unfold InvalidChainFound. set (w := mkWarnings _ _ _ _ _). destruct (tip_exists s Hi) as (t & bt & Ht & _). change (Tip (set_warn s w)) with (Tip s). rewrite Ht. cbn [mbind option_bind].
  destruct (CheckForkWarningConditions_spec (set_warn s w) (warn_Inv s w Hi (i_warn s Hi))) as (w' & -> & Hw'). by exists w'.
Qed.
Lemma CheckForkWarningConditionsOnNewFork_spec s p : Inv s -> is_Some (blocks s !! p) -> exists w, CheckForkWarningConditionsOnNewFork s p = Some (set_warn s w) /\ keeps_fork_tip s w.
Proof.
  intros Hi [b Hp]. unfold CheckForkWarningConditionsOnNewFork. rewrite Hp. cbn [mbind option_bind].
  destruct (tip_exists s Hi) as (t & bt & Ht & Hbt & _). rewrite Ht.
  destruct (fork_loop_spec (blocks s) (S (Z.to_nat (nHeight b))) p b (Some t) (i_wf s Hi) Hp ltac:(lia)) as (r & -> & Hr); [intros x [= <-]; eauto|]. cbn [mbind option_bind].
  assert (exists hi, match pindexBestForkTip (warn s) with None => Some true | Some t => c ← blocks s !! t; Some (nHeight b >? nHeight c) end = Some hi) as [hi ->].
  { destruct (pindexBestForkTip (warn s)) as [x|] eqn:Ex; [|eauto]. destruct (i_warn s Hi x Ex) as [c ->]. cbn. eauto. }
  cbn [mbind option_bind]. match goal with |- context [mbind _ ?o] => assert (exists f, o = Some f) as [found ->] end.
  { destruct r as [f|]; [|eauto]. destruct hi; [|eauto]. destruct (Hr f eq_refl) as [c Hc]. rewrite Hc. cbn [mbind option_bind]. destruct (block_proof_some c (i_bits s Hi f c Hc)) as [pr ->]. cbn. eauto. }
  cbn [mbind option_bind]. destruct found; [|by apply CheckForkWarningConditions_spec]. set (w := mkWarnings _ _ _ _ _).
  destruct (CheckForkWarningConditions_spec (set_warn s w)) as (w' & -> & Hw'); [apply warn_Inv; [done|]; intros x [= <-]; eauto|]. by exists w'.
Qed.
End warns.

(** ** Steps of the tip *)

(** What no step of the activation undoes. *)
Record frame (s s' : chainstate) : Prop := {
  r_blocks : blocks s' = blocks s;
  r_index : mapBlockIndex s' = mapBlockIndex s;
  r_entry : forall p, let e := entry_of s p in let e' := entry_of s' p in
    nChainWork e' = nChainWork e /\ nTx e' = nTx e /\ nChainTx e' = nChainTx e /\ nSequenceId e' = nSequenceId e /\ level e <= level e' /\
    bit e' 3 = bit e 3 /\ (bit e 5 = true -> bit e' 5 = true);
  r_cand : forall p, p ∈ setBlockIndexCandidates s' -> p ∈ setBlockIndexCandidates s
}.
Lemma frame_refl s : frame s s.
Proof. split; try done. Qed.
Lemma frame_trans s1 s2 s3 : frame s1 s2 -> frame s2 s3 -> frame s1 s3.
Proof.
  intros H1 H2. split.
  - by rewrite (r_blocks _ _ H2), (r_blocks _ _ H1).
  - by rewrite (r_index _ _ H2), (r_index _ _ H1).
  - intros p. cbv zeta. destruct (r_entry _ _ H1 p) as (A1 & A2 & A3 & A4 & A5 & A6 & A7). destruct (r_entry _ _ H2 p) as (B1 & B2 & B3 & B4 & B5 & B6 & B7).
    split_and!; [congruence | congruence | congruence | congruence | lia | congruence | auto].
  - intros p Hp. by apply (r_cand _ _ H1), (r_cand _ _ H2).
Qed.
Lemma soft_frame s s' : soft s s' -> frame s s'.
Proof.
  intros Hs. split; try apply Hs. intros p. cbv zeta. destruct (f_entry _ _ Hs p) as (-> & -> & -> & -> & -> & -> & ->). done.
Qed.
Lemma frame_worse s s' p q : frame s s' -> worse s' p q = worse s p q.
Proof. intros Hf. unfold worse. destruct (r_entry _ _ Hf p) as (-> & _ & _ & -> & _). by destruct (r_entry _ _ Hf q) as (-> & _ & _ & -> & _). Qed.
Lemma active_frame s c : frame s (set_active s c).
Proof. split; try done. Qed.

Lemma active_Inv s q c : Inv s -> blocks s !! q = Some c -> Inv (set_active s (chain_of (blocks s) q (nHeight c))).
Proof.
  intros [Hb Hk] Hq. split; [split; try apply Hb; eauto|]. destruct Hk as [H1 H2 H3 H4]. split; [exact H1 | exact H2 | exact H3 | exact H4].
Qed.
Lemma UpdateTip_spec s q c : Inv s -> blocks s !! q = Some c -> UpdateTip s (Some q) = Some (set_active s (chain_of (blocks s) q (nHeight c))) /\
  Tip (set_active s (chain_of (blocks s) q (nHeight c))) = Some q.
Proof.
  intros Hi Hq. assert (Tip (set_active s (chain_of (blocks s) q (nHeight c))) = Some q) as Ht by (apply chain_tip; [apply (i_wf s Hi) | done]).
  split; [|done]. unfold UpdateTip. assert (chain_ok (blocks s) (chainActive s)) as Hc by (right; apply (i_tip s Hi)).
  destruct (SetTip_correct (blocks s) (i_wf s Hi) (chainActive s) Hc) as [_ E]. rewrite (E q c Hq). cbn [mbind option_bind]. by rewrite Ht.
Qed.

(** A failed flush is no fault of the block; a block that has been connected once is not
    refused as invalid afterwards. *)
Class NodeLaws `{NodeEnv} := {
  flush_error : forall s st st', FlushStateToDisk s st = (false, st') -> IsInvalid st' = false;
  connect_again : forall s p f st st' r, 5 <= level (entry_of s p) -> ConnectBlock s p f st = Refuses st' r -> IsInvalid st' = false
}.

Section steps.
Context `{NodeLaws}.

Lemma DisconnectTip_moves s st t bt q : Inv s -> Tip s = Some t -> blocks s !! t = Some bt -> pprev bt = Some q ->
  exists s' st' ok, DisconnectTip s st = Some (s', st', ok) /\ Inv s' /\ (exists c, s' = set_active s c) /\ if ok : bool then Tip s' = Some q else s' = s.
Proof.
  intros Hi Ht Hbt Hq. unfold DisconnectTip. rewrite Ht. cbn [mbind option_bind].
  assert (exists c, s = set_active s c) as Hsame by (exists (chainActive s); by destruct s).
  destruct (ReadBlockFromDisk t); cbn [negb]; [|by do 3 eexists]. destruct (DisconnectBlock s t st) as [[] st1]; cbn [negb]; [|by do 3 eexists].
  destruct (FlushStateToDisk s st1) as [[] st2]; cbn [negb]; [|by do 3 eexists]. rewrite Hbt. cbn [mbind option_bind]. rewrite Hq.
  destruct (wf_prev (blocks s) (i_wf s Hi) t bt q Hbt Hq) as (c & Hcq & _). destruct (UpdateTip_spec s q c Hi Hcq) as [-> Ht']. cbn [mbind option_bind].
  do 3 eexists. split; [done|]. split; [by apply active_Inv|]. split; [eauto | done].
Qed.
Lemma worse_parent s t bt q p : Inv s -> blocks s !! t = Some bt -> pprev bt = Some q -> worse s p t = false -> worse s p q = false.
Proof.
  intros Hi Hbt Hq Hp. destruct (wf_prev (blocks s) (i_wf s Hi) t bt q Hbt Hq) as (c & Hcq & Hh & _).
  assert (anc (blocks s) t q) as Ha by (apply (anc_step _ t bt q); [done | done | apply anc_refl; eauto]).
  apply (worse_neg_trans s p t q Hp). apply not_true_iff_false. intros Hw. assert (worse s q t = true) as Hw'.
  { apply (ancestor_worse s Hi t q Ha). intros ->. assert (c = bt) as -> by congruence. lia. }
  pose proof (worse_trans s _ _ _ Hw Hw') as Hx. by rewrite worse_irrefl in Hx.
Qed.
Lemma DisconnectTip_spec s st T t bt q : Inv s -> Mid s T t -> blocks s !! t = Some bt -> pprev bt = Some q ->
  exists s' st' ok, DisconnectTip s st = Some (s', st', ok) /\ Inv s' /\ (exists c, s' = set_active s c) /\ if ok : bool then Mid s' T q else s' = s.
Proof.
  intros Hi (Ht & Hp & Hr & Hc) Hbt Hq. destruct (DisconnectTip_moves s st t bt q Hi Ht Hbt Hq) as (s' & st' & ok & E & Hi' & (c & Hs') & Hok).
  exists s', st', ok. split; [done|]. split; [done|]. split; [eauto|]. destruct ok; [|done]. split; [done|].
  destruct (wf_prev (blocks s) (i_wf s Hi) t bt q Hbt Hq) as (d & Hd & _). subst s'.
  split; [apply (proven_ancestor s Hi t); [done|]; apply (anc_step _ t bt q); [done | done | apply anc_refl; eauto]|]. split; [done|].
  intros p Hpc. apply (worse_parent s t bt q p Hi Hbt Hq). by apply Hc.
Qed.
Lemma disconnect_to_spec fuel s st T t bt f : Inv s -> Mid s T t -> blocks s !! t = Some bt -> anc (blocks s) t f -> (Z.to_nat (nHeight bt) < fuel)%nat ->
  exists s' st' ok t', disconnect_to fuel s st (Some f) = Some (s', st', ok) /\ Inv s' /\ (exists c, s' = set_active s c) /\ Mid s' T t' /\ (ok = true -> t' = f).
Proof.
  revert s st t bt. induction fuel as [|fuel IH]; intros s st t bt Hi Hm Hbt Ha Hf; [lia|]. cbn [disconnect_to]. pose proof Hm as (Ht & _). rewrite Ht.
  assert (exists c, s = set_active s c) as Hsame by (exists (chainActive s); by destruct s).
  case_bool_decide as E; [injection E as ->; by exists s, st, true, f|].
  destruct (anc_inv (blocks s) t bt f Hbt Ha) as [->|(q & Eq & Hqf)]; [done|].
  destruct (DisconnectTip_spec s st T t bt q Hi Hm Hbt Eq) as (s' & st' & ok & -> & Hi' & (c & Hs') & Hok). cbn [mbind option_bind].
  destruct ok; [|exists s', st', false, t; split; [done|]; split; [done|]; split; [eauto|]; split; [by rewrite Hok | done]]. destruct (wf_prev (blocks s) (i_wf s Hi) t bt q Hbt Eq) as (d & Hd & Hh & Hd0).
  assert (blocks s' = blocks s) as Eb by (by rewrite Hs').
  destruct (IH s' st' q d Hi' Hok ltac:(by rewrite Eb) ltac:(by rewrite Eb) ltac:(lia)) as (s2 & st2 & ok2 & t2 & E2 & Hi2 & (c2 & Hs2) & Hm2 & Ht2).
  exists s2, st2, ok2, t2. split; [done|]. split; [done|]. split; [exists c2; rewrite Hs2, Hs'; by destruct s | done].
Qed.

(** The entry of a block that is connected. *)
Lemma connected_spec s p b t : Inv s -> blocks s !! p = Some b -> pprev b = Some t -> good s p -> proven s t ->
  exists e, connected s p = set_entry s p e /\ level e = 5 /\ nChainWork e = nChainWork (entry_of s p) /\ nTx e = nTx (entry_of s p) /\
    nChainTx e = nChainTx (entry_of s p) /\ nSequenceId e = nSequenceId (entry_of s p) /\ bit e 3 = bit (entry_of s p) 3 /\ bit e 5 = bit (entry_of s p) 5 /\
    bit e 6 = bit (entry_of s p) 6 /\ Inv (set_entry s p e).
Proof.
  intros Hi Hp Hb Hg Ht. destruct (good_unfailed s Hi p Hg) as [H5 H6]. destruct (i_tx s Hi p ltac:(eauto)) as (T0 & T1 & T2 & T3).
  assert (0 < nTx (entry_of s p)) as Htx by (apply T1; by apply (linked_ancestors s Hi p p ltac:(apply anc_refl; eauto)), Hg).
  assert (forall e, level e = 5 -> nChainWork e = nChainWork (entry_of s p) -> nTx e = nTx (entry_of s p) -> nChainTx e = nChainTx (entry_of s p) ->
    nSequenceId e = nSequenceId (entry_of s p) -> bit e 3 = bit (entry_of s p) 3 -> bit e 5 = bit (entry_of s p) 5 -> bit e 6 = bit (entry_of s p) 6 -> Inv (set_entry s p e)) as HI.
  { intros e El E1 E2 E3 E4 E5 E6 E7. apply (set_entry_same_fields s p e Hi ltac:(eauto) E1 E2 E3 E4 E5).
    - right. split; [done|]. split; [by rewrite E2|]. intros b' q c Hb' Hq Hc Hn. assert (q = t) as -> by congruence. destruct Ht as [_ Hl]. apply (Hl t c); [apply anc_refl; eauto | done | done].
    - by rewrite E6.
    - rewrite E7. by left. }
  unfold connected. rewrite Hp, Hb. unfold block_IsValid. rewrite flag_failed, H5, H6. cbn [orb]. change BLOCK_HAVE_UNDO with (2 ^ 4).
  destruct (negb (flag (entry_of s p) (2 ^ 4)) || negb (level (entry_of s p) >=? BLOCK_VALID_SCRIPTS)) eqn:Ec.
  - set (e1 := if negb (flag (entry_of s p) (2 ^ 4)) then set_flag (entry_of s p) (2 ^ 4) else entry_of s p).
    assert (level e1 = level (entry_of s p) /\ nChainWork e1 = nChainWork (entry_of s p) /\ nTx e1 = nTx (entry_of s p) /\ nChainTx e1 = nChainTx (entry_of s p) /\
      nSequenceId e1 = nSequenceId (entry_of s p) /\ forall n, n <> 4 -> bit e1 n = bit (entry_of s p) n) as (L & W & X & C & S & B).
    { unfold e1. destruct (negb _); [|done]. rewrite level_set_flag by lia. split_and!; try done. intros n Hn. rewrite bit_set_flag by lia. replace (n =? 4) with false by lia. apply orb_false_r. }
    exists (RaiseValidity e1 BLOCK_VALID_SCRIPTS). destruct (Raise_fields e1 BLOCK_VALID_SCRIPTS) as (R1 & R2 & R3 & R4).
    assert (level (RaiseValidity e1 BLOCK_VALID_SCRIPTS) = 5) as RL.
    { rewrite level_Raise by (unfold BLOCK_VALID_SCRIPTS; lia). rewrite !B, H5, H6, L by lia. cbn [orb]. unfold BLOCK_VALID_SCRIPTS. lia. }
    assert (forall n, 3 <= n -> n <> 4 -> bit (RaiseValidity e1 BLOCK_VALID_SCRIPTS) n = bit (entry_of s p) n) as RB.
    { intros n Hn Hn4. rewrite bit_Raise by (unfold BLOCK_VALID_SCRIPTS; lia). by apply B. }
    split; [done|]. rewrite R1, R2, R3, R4, W, X, C, S, !RB by lia. split_and!; try done. apply HI; try congruence; by rewrite RB by lia.
  - apply orb_false_iff in Ec as [_ Ec%negb_false_iff]. unfold BLOCK_VALID_SCRIPTS in Ec. exists (entry_of s p). assert (set_entry s p (entry_of s p) = s) as Es.
    { unfold set_entry, set_entries. destruct (proj1 (i_dom s Hi p) ltac:(eauto)) as [e He]. unfold entry_of. rewrite He. cbn. rewrite insert_id by done. by destruct s. }
    rewrite Es. split_and!; try done. lia.
Qed.
End steps.

Lemma raised_spec s p e : Inv s -> (level (entry_of s p) <= level e) -> nChainWork e = nChainWork (entry_of s p) -> nTx e = nTx (entry_of s p) ->
  nChainTx e = nChainTx (entry_of s p) -> nSequenceId e = nSequenceId (entry_of s p) -> bit e 3 = bit (entry_of s p) 3 -> bit e 5 = bit (entry_of s p) 5 ->
  let s' := set_entry s p e in frame s s' /\ (forall x, good s' x <-> good s x) /\ (forall x, bit (entry_of s' x) 5 = bit (entry_of s x) 5) /\
    (forall x, proven s x -> proven s' x) /\ forall T t, Mid s T t -> Mid s' T t.
Proof.
  intros Hi El E1 E2 E3 E4 E5 E6 s'.
  assert (frame s s') as Hf.
  { split; try done. intros x. cbv zeta. unfold s'. rewrite entry_of_set. case_decide as E; [rewrite E|done]. rewrite E6. split_and!; done. }
  assert (forall x, bit (entry_of s' x) 5 = bit (entry_of s x) 5) as H5 by (intros x; unfold s'; rewrite entry_of_set; by case_decide as E; [rewrite E|]).
  assert (forall x, good s' x <-> good s x) as Hg.
  { intros x. unfold good. destruct (r_entry s s' Hf x) as (_ & _ & -> & _). change (blocks s') with (blocks s). by setoid_rewrite H5. }
  assert (forall x, proven s x -> proven s' x) as Hp.
  { intros x [Hgx Hlx]. split; [by apply Hg|]. intros q b Ha Hb Hn. destruct (r_entry s s' Hf q) as (_ & _ & _ & _ & Hl & _). specialize (Hlx q b Ha Hb Hn). lia. }
  split_and!; try done. intros T t (Ht & Hpt & (HpT & HTc & HT) & Hc). split; [done|]. split; [by apply Hp|]. split; [split; [by apply Hp|]; split; [done|]|].
  - intros x Hgx. rewrite (frame_worse s s') by done. apply HT. by apply Hg.
  - intros x Hx. rewrite (frame_worse s s') by done. by apply Hc.
Qed.
Lemma mark_valid_spec s p : Inv s -> is_Some (blocks s !! p) -> let s' := erase_candidate (set_entry s p (set_flag (entry_of s p) BLOCK_FAILED_VALID)) p in
  Inv s' /\ frame s s' /\ (forall x, good s' x <-> good s x /\ ~ anc (blocks s) x p) /\ bit (entry_of s' p) 5 = true /\
  (forall x, proven s x -> ~ anc (blocks s) x p -> proven s' x) /\
  forall T t, Mid s T t -> ~ anc (blocks s) T p -> ~ anc (blocks s) t p -> Mid s' T t.
Proof.
  intros Hi Hp s'. change BLOCK_FAILED_VALID with (2 ^ 5) in *. set (e := set_flag (entry_of s p) (2 ^ 5)) in *.
  assert (forall n, bit e n = bit (entry_of s p) n || (n =? 5)) as Hbit by (intros n; apply bit_set_flag; lia).
  assert (level e = level (entry_of s p)) as Hlev by (apply level_set_flag; lia).
  assert (Inv (set_entry s p e)) as Hi1.
  { apply (set_entry_same_fields s p e Hi Hp); try done; rewrite ?Hbit; [apply orb_false_r | by left | by intros -> | rewrite orb_false_r; by left]. }
  assert (forall x, entry_of s' x = if decide (x = p) then e else entry_of s x) as He by (intros x; apply entry_of_set).
  assert (frame s s') as Hf.
  { split; try done; [|by intros x [Hx _]%elem_of_difference]. intros x. cbv zeta. rewrite He. case_decide as E; [rewrite E|done]. rewrite !Hbit, Hlev. split_and!; try done; [apply orb_false_r | by intros ->]. }
  assert (forall x, good s' x <-> good s x /\ ~ anc (blocks s) x p) as Hg.
  { intros x. unfold good. destruct (r_entry s s' Hf x) as (_ & _ & -> & _). change (blocks s') with (blocks s). split.
    - intros (H1 & H2 & H3). split; [split; [done|]; split; [done|]|]; [intros q Hq; specialize (H3 q Hq); rewrite He in H3; case_decide as E; [|done]|intros Hq; specialize (H3 p Hq); rewrite He, decide_True in H3 by done];
        rewrite Hbit, orb_true_r in H3; done.
    - intros ((H1 & H2 & H3) & Hn). split; [done|]. split; [done|]. intros q Hq. rewrite He. case_decide as E; [by rewrite E in Hq | by apply H3]. }
  assert (forall x, proven s x -> ~ anc (blocks s) x p -> proven s' x) as Hpr.
  { intros x [Hgx Hlx] Hn. split; [by apply Hg|]. intros q b Ha Hb Hnn. destruct (r_entry s s' Hf q) as (_ & _ & _ & _ & Hl & _). specialize (Hlx q b Ha Hb Hnn). lia. }
  split; [by apply erase_Inv|]. split; [done|]. split; [done|]. split; [rewrite He, decide_True, Hbit by done; apply orb_true_r|]. split; [done|].
  intros T t (Ht & Hpt & (HpT & HTc & HT) & Hc) HnT Hnt. assert (T <> p) as HTp by (intros ->; apply HnT; by apply anc_refl).
  split; [done|]. split; [by apply Hpr|]. split; [split; [by apply Hpr|]; split|].
  - apply elem_of_difference. split; [done | by apply not_elem_of_singleton].
  - intros x Hgx. rewrite (frame_worse s s') by done. intros Hw. apply Hg in Hgx as [Hgx Hnx]. apply elem_of_difference. split; [by apply HT|].
    apply not_elem_of_singleton. intros ->. apply Hnx. by apply anc_refl.
  - intros x Hx. rewrite (frame_worse s s') by done. apply Hc. by apply elem_of_difference in Hx as [Hx _].
Qed.
Lemma warn_Mid s w T t : Mid s T t -> Mid (set_warn s w) T t.
Proof. apply soft_Mid, warn_soft. Qed.

Section connects.
Context `{NodeLaws}.
Lemma ConnectTip_spec s st T t p b fGiven fAlreadyChecked : Inv s -> Mid s T t -> blocks s !! p = Some b -> pprev b = Some t -> good s p ->
  exists s' st' ok, ConnectTip s st p fGiven fAlreadyChecked = Some (s', st', ok) /\ Inv s' /\ frame s s' /\
    if ok : bool then Tip s' = Some p /\ proven s' p /\ Ref s' T /\ (forall x, good s' x <-> good s x) /\ (forall x, bit (entry_of s' x) 5 = bit (entry_of s x) 5) /\
      setBlockIndexCandidates s' = setBlockIndexCandidates s
    else Mid s' T t /\ (IsInvalid st' = true ->
      (corruptionPossible st' = false /\ bit (entry_of s p) 5 = false /\ bit (entry_of s' p) 5 = true) \/
      (corruptionPossible st' = true /\ exists f r, ConnectBlock s p f st = Refuses st' r)).
Proof.
  intros Hi Hm Hp Hb Hg. pose proof Hm as (Ht & Hpt & HT & Hc). unfold ConnectTip. rewrite Hp. cbn [mbind option_bind]. rewrite bool_decide_eq_true_2 by congruence. cbn [negb].
  destruct (negb fGiven && negb (ReadBlockFromDisk p)); [exists s; do 2 eexists; split; [done|]; split; [done|]; split; [apply frame_refl | by split]|].
  destruct (connected_spec s p b t Hi Hp Hb Hg Hpt) as (e & -> & L & W & X & C & S & B3 & B5 & B6 & Hi1).
  destruct (i_tx s Hi p ltac:(eauto)) as (_ & _ & _ & Hlp).
  destruct (raised_spec s p e Hi ltac:(lia) W X C S B3 B5) as (Hf1 & Hg1 & H51 & Hp1 & Hm1). set (s1 := set_entry s p e) in *.
  destruct (wf_prev (blocks s) (i_wf s Hi) p b t Hp Hb) as (bt & Hbt & Hh & Hh0).
  destruct (ConnectBlock s p _ st) as [|st' r] eqn:Ec.
  - destruct (FlushStateToDisk s1 st) as [ok st'] eqn:Ef. destruct ok; cbn [negb].
    + destruct (UpdateTip_spec s1 p b Hi1 Hp) as [-> Ht']. cbn [mbind option_bind]. do 3 eexists. split; [done|]. split; [by apply active_Inv|].
      split; [eapply frame_trans; [exact Hf1 | apply active_frame]|]. split; [done|].
      assert (proven s1 p) as Hpp.
      { split; [by apply Hg1|]. intros q c Ha Hq Hn. change (blocks s1) with (blocks s) in *. destruct (anc_inv (blocks s) p b q Hp Ha) as [->|(y & Ey & Hy)].
        - unfold s1. rewrite entry_of_set, decide_True by done. lia.
        - assert (y = t) as -> by congruence. destruct (Hp1 t Hpt) as [_ Hl]. by apply (Hl q c). }
      split; [done|]. split; [apply (Hm1 T t Hm)|]. done.
    + do 3 eexists. split; [done|]. split; [done|]. split; [done|]. split; [by apply Hm1|]. intros Hv. by rewrite (flush_error _ _ _ Ef) in Hv.
  - set (s2 := if r then s1 else s). assert (Inv s2 /\ frame s s2 /\ Mid s2 T t /\ bit (entry_of s2 p) 5 = bit (entry_of s p) 5 /\ blocks s2 = blocks s) as (Hi2 & Hf2 & Hm2 & H52 & Hb2).
    { unfold s2. destruct r; [split_and!; [done | done | by apply Hm1 | apply H51 | done] | split_and!; try done; apply frame_refl]. }
    destruct (IsInvalid st') eqn:Ei; [|exists s2; do 2 eexists; split; [done|]; split; [done|]; split; [done|]; split; [done | by rewrite Ei]].
    unfold InvalidBlockFound. destruct (corruptionPossible st') eqn:Hnc.
    { exists s2. do 2 eexists. split; [done|]. split; [done|]. split; [done|]. split; [done|]. intros _. right. split; [done | by do 2 eexists]. }
    destruct (mark_valid_spec s2 p Hi2 ltac:(rewrite Hb2; eauto)) as (Hi3 & Hf3 & _ & H53 & _ & Hm3). set (s3 := erase_candidate _ p) in *.
    destruct (InvalidChainFound_spec s3 p Hi3) as (w & -> & Hw). cbn [mbind option_bind]. exists (set_warn s3 w). do 2 eexists. split; [done|].
    split; [by apply warn_Inv|]. split; [eapply frame_trans; [exact Hf2|]; eapply frame_trans; [exact Hf3 | apply soft_frame, warn_soft]|].
    split.
    + apply warn_Mid. apply Hm3; [done | |]; rewrite Hb2.
      * intros Ha. destruct HT as ([_ Hl] & _ & _). specialize (Hl p b Ha Hp ltac:(by rewrite Hb)). by rewrite (connect_again _ _ _ _ _ _ Hl Ec) in Ei.
      * intros Ha. pose proof (anc_height (blocks s) (i_wf s Hi) t p bt b Ha Hbt Hp). lia.
    + intros _. left. split; [done|]. split; [|exact H53]. by apply (good_unfailed s Hi p Hg).
Qed.
End connects.

(** ** Blocks are connected one after the other *)

Lemma Prune_spec s T p m : Inv s -> Tip s = Some p -> proven s p -> Ref s T -> m ∈ setBlockIndexCandidates s -> anc (blocks s) m p -> worse s m T = false ->
  exists s' T', PruneBlockIndexCandidates s = Some s' /\ Inv s' /\ frame s s' /\ Mid s' T' p /\ m ∈ setBlockIndexCandidates s' /\ worse s' m T' = false /\
    forall x, entry_of s' x = entry_of s x.
Proof.
  intros Hi Ht Hp (HpT & HTc & HT) Hm Ha HmT. unfold PruneBlockIndexCandidates. rewrite Ht. cbn [mbind option_bind]. rewrite prune_loop_spec by done.
  set (s' := set_candidates s _).
  assert (forall x, x ∈ setBlockIndexCandidates s' <-> worse s x p = false /\ x ∈ setBlockIndexCandidates s) as Hc by (intros x; exact (elem_of_filter (fun p0 : ptr => worse s p0 p = false) (setBlockIndexCandidates s) x)).
  assert (worse s m p = false) as Hmp.
  { destruct (decide (m = p)) as [->|Hn]; [apply worse_irrefl|]. apply not_true_iff_false. intros Hw. pose proof (worse_trans s _ _ _ Hw (ancestor_worse s Hi m p Ha Hn)) as Hx. by rewrite worse_irrefl in Hx. }
  assert (m ∈ setBlockIndexCandidates s') as Hm' by (by apply Hc). rewrite bool_decide_eq_false_2 by (intros E; rewrite E in Hm'; by apply not_elem_of_empty in Hm').
  exists s', (if worse s p T then T else p). split; [done|].
  assert (Inv s') as Hi'.
  { destruct Hi as [Hb [K1 K2 K3 K4]]. split; [split; try apply Hb|split; [exact K1 | exact K2 | exact K3 | exact K4]]. intros x Hx. apply Hc in Hx as [_ Hx]. by apply (b_cand s Hb). }
  split; [done|]. split; [split; try done; intros x Hx; by apply Hc in Hx as [_ Hx]|]. assert (forall x y, worse s' x y = worse s x y) as Hw by done.
  split; [|split; [done|]; split; [|done]].
  - split; [done|]. split; [done|]. split; [|intros x Hx; by apply Hc in Hx as [Hx _]]. destruct (worse s p T) eqn:Ew.
    + split; [done|]. split; [apply Hc; split; [|done]|].
      * apply not_true_iff_false. intros Hx. pose proof (worse_trans s _ _ _ Hx Ew) as Hy. by rewrite worse_irrefl in Hy.
      * intros x Hg Hx. apply Hc. split; [|by apply HT]. apply (worse_neg_trans s x T p Hx). apply not_true_iff_false. intros Hy.
        pose proof (worse_trans s _ _ _ Hy Ew) as Hz. by rewrite worse_irrefl in Hz.
    + split; [done|]. split; [apply Hc; split; [apply worse_irrefl | by apply HT, Ew; apply Hp]|].
      intros x Hg Hx. apply Hc. split; [done|]. apply HT; [done|]. by apply (worse_neg_trans s x p T).
  - rewrite Hw. by destruct (worse s p T).
Qed.

(** Between the states [s] and [s'], with the tip [t] of both, [ConnectBlock] refused the block
    on [t] on the way to [m] as invalid, but possibly because its data was corrupted; such a
    block is not marked. *)
Definition refused_corrupt `{NodeEnv} (s s' : chainstate) (m t : ptr) : Prop :=
  Tip s' = Some t /\ exists sx p b f st st' r, frame s sx /\ frame sx s' /\ Tip sx = Some t /\ blocks sx !! p = Some b /\ pprev b = Some t /\ anc (blocks sx) m p /\
    ConnectBlock sx p f st = Refuses st' r /\ IsInvalid st' = true /\ corruptionPossible st' = true.
Lemma refused_from `{NodeEnv} s1 s2 s3 m t : frame s1 s2 -> refused_corrupt s2 s3 m t -> refused_corrupt s1 s3 m t.
Proof.
  intros Hf (Ht & sx & p & b & f & st & st' & r & Hx & Hr). split; [done|]. exists sx, p, b, f, st, st', r. split; [by eapply frame_trans | done].
Qed.
Lemma refused_warn `{NodeEnv} s s' m t w : refused_corrupt s s' m t -> refused_corrupt s (set_warn s' w) m t.
Proof.
  intros (Ht & sx & p & b & f & st & st' & r & Hx & Hx' & Hr). split; [done|]. exists sx, p, b, f, st, st', r. split; [done|].
  split; [eapply frame_trans; [exact Hx' | apply soft_frame, warn_soft] | done].
Qed.

(** Blocks each on the one before, from [t] on. *)
Fixpoint path_up (h : heap) (t : ptr) (l : list ptr) : Prop :=
  match l with [] => True | p :: l => exists b, h !! p = Some b /\ pprev b = Some t /\ path_up h p l end.
Lemma last_cons_default {A} (p t : A) l : List.last (p :: l) t = List.last l p.
Proof. revert p t. induction l as [|q l IH]; intros p t; [done|]. change (List.last (q :: l) t = List.last (q :: l) p). by rewrite !IH. Qed.
Lemma path_up_app h t l r : path_up h t (l ++ r) <-> path_up h t l /\ path_up h (List.last l t) r.
Proof.
  revert t. induction l as [|p l IH]; intros t; [cbn; tauto|]. cbn [app path_up]. setoid_rewrite IH.
  rewrite last_cons_default.
  split; [intros (b & H1 & H2 & H3 & H4); split; [by exists b | done] | intros ((b & H1 & H2 & H3) & H4); by exists b].
Qed.

Section blocks_connected.
Context `{NodeLaws}.
Lemma connect_blocks_spec l s st T t m back t0 fGiven fAlreadyChecked : Inv s -> Mid s T t -> path_up (blocks s) t l -> (forall p, p ∈ l -> anc (blocks s) m p) ->
  good s m -> m ∈ setBlockIndexCandidates s -> worse s m T = false ->
  exists s' st' r T' t', connect_blocks s st l back m fGiven fAlreadyChecked (Some t0) = Some (s', st', r) /\ Inv s' /\ frame s s' /\ Mid s' T' t' /\
    match r with
    | All_connected => good s' m /\ m ∈ setBlockIndexCandidates s' /\ worse s' m T' = false /\ (forall x, bit (entry_of s' x) 5 = bit (entry_of s x) 5) /\ t' = List.last l t
    | Better_tip => m ∈ setBlockIndexCandidates s' /\ worse s' m T' = false /\ (forall x, bit (entry_of s' x) 5 = bit (entry_of s x) 5) /\ nChainWork (entry_of s t0) < nChainWork (entry_of s t')
    | Invalid_found => t' <> m /\ ((exists x, is_Some (blocks s !! x) /\ bit (entry_of s x) 5 = false /\ bit (entry_of s' x) 5 = true) \/ refused_corrupt s s' m t')
    | System_error => True
    end.
Proof.
  revert s st T t. induction l as [|p l IH]; intros s st T t Hi Hm Hl Hml Hg Hmc HmT; cbn [connect_blocks].
  - exists s, st, All_connected, T, t. split; [done|]. split; [done|]. split; [apply frame_refl|]. done.
  - destruct Hl as (b & Hp & Hb & Hl). pose proof (Hml p ltac:(left)) as Hmp. pose proof (good_ancestor s Hi m p Hg Hmp) as Hgp.
    destruct (ConnectTip_spec s st T t p b (bool_decide (p = m) && fGiven) fAlreadyChecked Hi Hm Hp Hb Hgp) as (s1 & st1 & ok & -> & Hi1 & Hf1 & Hok). cbn [mbind option_bind].
    pose proof (r_blocks _ _ Hf1) as Eb1. destruct ok.
    + destruct Hok as (Ht1 & Hp1 & HT1 & Hg1 & H51 & Hc1).
      destruct (Prune_spec s1 T p m Hi1 Ht1 Hp1 HT1 ltac:(by rewrite Hc1) ltac:(by rewrite Eb1) ltac:(by rewrite (frame_worse s s1))) as (s2 & T2 & -> & Hi2 & Hf2 & Hm2 & Hmc2 & HmT2 & He2).
      cbn [mbind option_bind]. pose proof Hm2 as (Ht2 & _). rewrite Ht2. cbn [mbind option_bind]. pose proof (frame_trans _ _ _ Hf1 Hf2) as Hf12.
      assert (forall x, nChainWork (entry_of s2 x) = nChainWork (entry_of s x)) as Hw by (intros x; apply (r_entry _ _ Hf12 x)). rewrite !Hw.
      destruct (Z.gtb_spec (nChainWork (entry_of s p)) (nChainWork (entry_of s t0))) as [Hgt|Hle].
      * exists s2, st1, Better_tip, T2, p. split; [done|]. split; [done|]. split; [done|]. split; [done|]. split; [done|]. split; [done|]. split; [|done]. intros x. by rewrite He2.
      * assert (good s2 m) as Hg2.
        { assert (good s1 m) as (G1 & G2 & G3) by (by apply Hg1). unfold good. rewrite (r_blocks _ _ Hf2). setoid_rewrite He2. done. }
        destruct (IH s2 st1 T2 p Hi2 Hm2) as (s' & st' & r & T' & t' & E & Hi' & Hf' & Hm' & Hr); try done.
        -- by rewrite (r_blocks _ _ Hf12).
        -- intros x Hx. rewrite (r_blocks _ _ Hf12). apply Hml. by right.
        -- exists s', st', r, T', t'. split; [done|]. split; [done|]. split; [by eapply frame_trans|]. split; [done|].
           assert (forall x, bit (entry_of s2 x) 5 = bit (entry_of s x) 5) as H52 by (intros x; by rewrite He2).
           destruct r.
           ++ destruct Hr as (R1 & R2 & R3 & R4 & R5). split; [done|]. split; [done|]. split; [done|]. split; [intros x; by rewrite R4|]. rewrite R5.
              by rewrite last_cons_default.
           ++ destruct Hr as (R2 & R3 & R4 & R5). split; [done|]. split; [done|]. split; [intros x; by rewrite R4|]. by rewrite !Hw in R5.
           ++ destruct Hr as (R1 & [(x & Hx & X1 & X2)|Hc]); (split; [done|]); [left | right; by apply (refused_from s s2)].
              exists x. rewrite (r_blocks _ _ Hf12) in Hx. rewrite H52 in X1. done.
           ++ done.
    + destruct Hok as [Hm1 Hinv]. destruct (IsInvalid st1) eqn:Ei; [|by exists s1, st1, System_error, T, t].
      assert (t <> m) as Htm.
      { intros ->. destruct (wf_prev (blocks s) (i_wf s Hi) p b m Hp Hb) as (c & Hc & Hh & _). pose proof (anc_height (blocks s) (i_wf s Hi) m p c b Hmp Hc Hp). lia. }
      destruct (Hinv eq_refl) as [(-> & X1 & X2)|(Hcor & f & r & Ec)].
      * destruct (InvalidChainFound_spec s1 back Hi1) as (w & -> & Hw). cbn [mbind option_bind].
        exists (set_warn s1 w), CValidationState_new, Invalid_found, T, t. split; [done|]. split; [by apply warn_Inv|]. split; [eapply frame_trans; [exact Hf1 | apply soft_frame, warn_soft]|].
        split; [by apply warn_Mid|]. split; [done|]. left. exists p. split; [eauto | done].
      * rewrite Hcor. exists s1, CValidationState_new, Invalid_found, T, t. split; [done|]. split; [done|]. split; [done|]. split; [done|]. split; [done|]. right.
        split; [apply Hm1|]. exists s, p, b, f, st, st1, r. split; [apply frame_refl|]. split; [done|]. split; [apply Hm | done].
Qed.

Lemma to_connect_spec n h p bp t bt : wf_heap h -> h !! p = Some bp -> h !! t = Some bt -> anc h p t -> nHeight bp - nHeight bt = Z.of_nat n ->
  exists l, to_connect n h (Some p) (nHeight bt) = Some l /\ path_up h t (rev l) /\ (forall x, x ∈ l -> anc h p x) /\ length l = n /\ List.last (rev l) t = p.
Proof.
  intros Hwf. revert p bp. induction n as [|n IH]; intros p bp Hp Ht Ha Hn; cbn [to_connect]; rewrite Hp; cbn [mbind option_bind].
  - replace (nHeight bp =? nHeight bt) with true by lia. exists []. split; [done|]. split; [done|]. split; [by intros x Hx%elem_of_nil|]. split; [done|]. cbn.
    destruct (proj1 (anc_ancestor h Hwf p t bp bt Hp Ht) Ha) as [_ E]. replace (nHeight bt) with (nHeight bp) in E by lia. rewrite (ancestor_self h p bp Hp) in E. by injection E.
  - replace (nHeight bp =? nHeight bt) with false by lia. destruct (anc_inv h p bp t Hp Ha) as [->|(q & Eq & Hq)]; [rewrite Hp in Ht; injection Ht as <-; lia|].
    rewrite Eq. destruct (wf_prev h Hwf p bp q Hp Eq) as (c & Hc & Hh & _). destruct (IH q c Hc Ht Hq ltac:(lia)) as (l & -> & Hl & Hx & Hlen & Hlast). cbn [mbind option_bind].
    exists (p :: l). split; [done|]. cbn [rev length]. rewrite path_up_app, Hlast, last_last. split; [split; [done|]; cbn; eauto|]. split; [|split; [lia | done]].
    intros x [->|Hxl]%elem_of_cons; [apply anc_refl; eauto|]. apply (anc_step h p bp q); [done | done | by apply Hx].
Qed.
End blocks_connected.

Lemma FindFork_spec s t m bm : Inv s -> Tip s = Some t -> blocks s !! m = Some bm ->
  exists f bf, FindFork (blocks s) (chainActive s) m = Some (Some f) /\ blocks s !! f = Some bf /\ anc (blocks s) m f /\ anc (blocks s) t f.
Proof.
  intros Hi Ht Hm. destruct (tip_chain s Hi t Ht) as (bt & Hbt & Ec). pose proof (i_wf s Hi) as Hwf. pose proof (Hwf t bt Hbt) as (Ht0 & _).
  assert (chainActive s <> []) as Hne by (rewrite Ec; intros E; pose proof (chain_of_length (blocks s) t (nHeight bt)) as Hl; rewrite E in Hl; cbn in Hl; lia).
  destruct (FindFork_correct (blocks s) Hwf (chainActive s) m bm Hm Hne) as (r & -> & Hr). destruct r as [f|].
  - destruct Hr as (bf & Hf & Hle & Ha & Hc & _). exists f, bf. split; [done|]. split; [done|]. split; [by apply (anc_ancestor _ Hwf m f bm bf)|].
    rewrite Ec in Hc. by apply (chain_anc _ Hwf t bt f bf).
  - exfalso. destruct (common_root s Hi t m) as (g & bg & Htg & Hmg & Hg & Hgr); [eauto | eauto|]. apply (wf_root _ Hwf g bg Hg) in Hgr.
    destruct (Hwf m bm Hm) as (Hm0 & _). apply (Hr 0 ltac:(lia)). apply (anc_ancestor _ Hwf m g bm bg Hm Hg) in Hmg as [_ Em]. rewrite Hgr in Em. rewrite Em, Ec.
    apply (chain_anc _ Hwf t bt g bg Hbt Hg) in Htg. by rewrite Hgr in Htg.
Qed.

(** What a step of the activation has done to the state [s] whose tip was [t0]. *)
Definition outcome `{NodeEnv} (s s' : chainstate) (t0 m T' t' : ptr) (r : progress) : Prop :=
  Inv s' /\ frame s s' /\ Mid s' T' t' /\
  match r with
  | All_connected => good s' m /\ m ∈ setBlockIndexCandidates s' /\ worse s' m T' = false /\ (forall x, bit (entry_of s' x) 5 = bit (entry_of s x) 5) /\ t' = m
  | Better_tip => m ∈ setBlockIndexCandidates s' /\ worse s' m T' = false /\ (forall x, bit (entry_of s' x) 5 = bit (entry_of s x) 5) /\ nChainWork (entry_of s t0) < nChainWork (entry_of s t')
  | Invalid_found => t' <> m /\ ((exists x, is_Some (blocks s !! x) /\ bit (entry_of s x) 5 = false /\ bit (entry_of s' x) 5 = true) \/ refused_corrupt s s' m t')
  | System_error => True
  end.
Lemma outcome_from `{NodeEnv} s1 s2 s' t0 m T' t' r : frame s1 s2 -> (forall x, bit (entry_of s2 x) 5 = bit (entry_of s1 x) 5) -> outcome s2 s' t0 m T' t' r -> outcome s1 s' t0 m T' t' r.
Proof.
  intros Hf H5 (Hi & Hf' & Hm & Hr). split; [done|]. split; [by eapply frame_trans|]. split; [done|].
  assert (forall x, nChainWork (entry_of s2 x) = nChainWork (entry_of s1 x)) as Hw by (intros x; apply (r_entry _ _ Hf x)).
  destruct r; [| |destruct Hr as (R & [(x & Hx & X1 & X2)|Hc]); (split; [done|]); [left; exists x; by rewrite <- H5, <- (r_blocks _ _ Hf) | right; by apply (refused_from s1 s2)] | done]; destruct_and!; split_and!; try done; try (intros x; by rewrite <- H5); by rewrite <- !Hw.
Qed.

Section loops.
Context `{NodeLaws}.
Lemma connect_groups_spec fuel s st T t bt m bm t0 fGiven fAlreadyChecked :
  Inv s -> Mid s T t -> blocks s !! t = Some bt -> blocks s !! m = Some bm -> anc (blocks s) m t -> good s m -> m ∈ setBlockIndexCandidates s -> worse s m T = false ->
  (Z.to_nat (nHeight bm - nHeight bt) <= fuel)%nat ->
  exists s' st' r bk T' t', connect_loop fuel s st (nHeight bt) m fGiven fAlreadyChecked (Some t0) = Some (s', st', r, bk) /\ outcome s s' t0 m T' t' r /\
    (r = Invalid_found -> exists b, bk = Some b /\ is_Some (blocks s' !! b)).
Proof.
  revert s st T t bt. induction fuel as [|fuel IH]; intros s st T t bt Hi Hm Hbt Hbm Ha Hg Hmc HmT Hf.
  all: pose proof (i_wf s Hi) as Hwf; pose proof (anc_height _ Hwf m t bm bt Ha Hbm Hbt) as Hle; destruct (Hwf t bt Hbt) as (Ht0 & _).
  all: cbn [connect_loop]; rewrite Hbm; cbn [mbind option_bind]; destruct (Z.eqb_spec (nHeight bt) (nHeight bm)) as [E|E]; [|lia || idtac..].
  1, 2: assert (t = m) as -> by (apply (anc_ancestor _ Hwf m t bm bt Hbm Hbt) in Ha as [_ Ha]; rewrite E, (ancestor_self _ m bm Hbm) in Ha; by injection Ha).
  1, 2: exists s, st, All_connected, None, T, m; split; [done|]; split; [split; [done|]; split; [apply frame_refl|]; done | done].
  set (k := Z.min (nHeight bt + 32) (nHeight bm)). rewrite (GetAncestor_spec _ Hwf m bm) by done.
  replace (k >? nHeight bm) with false by lia. replace (k <? 0) with false by lia. cbn [orb mbind option_bind].
  destruct (ancestor_height _ Hwf m bm k Hbm ltac:(lia)) as (p & bp & Ep & Hp & Hh). rewrite Ep.
  assert (anc (blocks s) m p) as Hmp by (apply (anc_ancestor _ Hwf m p bm bp); [done | done|]; split; [lia | by rewrite Hh]).
  assert (anc (blocks s) p t) as Hpt.
  { destruct (anc_linear _ m p t Hmp Ha) as [?|Htp]; [done|]. pose proof (anc_height _ Hwf t p bt bp Htp Hbt Hp). lia. }
  destruct (to_connect_spec (Z.to_nat (k - nHeight bt)) (blocks s) p bp t bt Hwf Hp Hbt Hpt ltac:(lia)) as (l & -> & Hl & Hlx & Hlen & Hlast). cbn [mbind option_bind].
  destruct (rev l) as [|back l'] eqn:El; [apply (f_equal length) in El; rewrite length_rev in El; cbn in El; lia|]. cbn [head mbind option_bind].
  assert (forall x, x ∈ back :: l' -> anc (blocks s) m x) as Hml.
  { intros x Hx. apply (anc_trans _ m p x Hmp), Hlx. apply list_elem_of_In, in_rev. rewrite El. by apply list_elem_of_In. }
  destruct (connect_blocks_spec (back :: l') s st T t m back t0 fGiven fAlreadyChecked Hi Hm Hl Hml Hg Hmc HmT) as (s' & st' & r & T' & t' & -> & Hi' & Hf' & Hm' & Hr). cbn [mbind option_bind].
  pose proof (r_blocks _ _ Hf') as Eb.
  assert (is_Some (blocks s' !! back)) as Hback by (rewrite Eb; apply (anc_blocks _ m back), Hml; left).
  destruct r.
  2, 3, 4: do 3 eexists; exists (Some back), T', t'; split; [reflexivity|]; split; [by split|]; intros Er; first [discriminate Er | by exists back].
  destruct Hr as (R1 & R2 & R3 & R4 & R5). rewrite Hlast in R5. subst t'. rewrite <- Hh.
  destruct (IH s' st' T' p bp Hi' Hm') as (s2 & st2 & r2 & bk & T2 & t2 & E2 & Ho & Hb2); rewrite ?Eb; try done; [lia|].
  exists s2, st2, r2, bk, T2, t2. split; [done|]. split; [|done]. by apply (outcome_from s s').
Qed.

Lemma ActivateBestChainStep_spec s st T t m fGiven fAlreadyChecked : Inv s -> Mid s T t -> good s m -> m ∈ setBlockIndexCandidates s -> worse s m T = false -> m <> t ->
  exists s' st' ok T' t', ActivateBestChainStep s st m fGiven fAlreadyChecked = Some (s', st', ok) /\ Inv s' /\ frame s s' /\ Mid s' T' t' /\
    (ok = true -> exists r, r <> System_error /\ outcome s s' t m T' t' r).
Proof.
  intros Hi Hm Hg Hmc HmT Hmt. pose proof Hm as (Ht & _). unfold ActivateBestChainStep. rewrite Ht.
  destruct Hg as [[bm Hbm] Hg']. pose proof (conj (ex_intro _ bm Hbm) Hg' : good s m) as Hg. destruct (FindFork_spec s t m bm Hi Ht Hbm) as (f & bf & -> & Hbf & Hmf & Htf). cbn [mbind option_bind].
  destruct (tip_chain s Hi t Ht) as (bt & Hbt & Ec). pose proof (i_wf s Hi) as Hwf. destruct (Hwf t bt Hbt) as (Ht0 & _).
  destruct (disconnect_to_spec (length (chainActive s)) s st T t bt f Hi Hm Hbt Htf) as (s1 & st1 & ok & t1 & -> & Hi1 & (c & Hs1) & Hm1 & Hok); [rewrite Ec, chain_of_length; lia|]. cbn [mbind option_bind].
  assert (frame s s1) as Hf1 by (rewrite Hs1; apply active_frame).
  destruct ok; cbn [negb]; [|exists s1, st1, false, T, t1; split_and!; done]. rewrite (Hok eq_refl) in Hm1. clear Hok t1.
  assert (blocks s1 = blocks s) as Eb by (by rewrite Hs1). assert (forall x, entry_of s1 x = entry_of s x) as Ee by (intros x; by rewrite Hs1).
  rewrite Eb, Hbf. cbn [mbind option_bind]. unfold height_fuel. rewrite Eb, Hbm. destruct (Hwf f bf Hbf) as (Hf0 & _).
  assert (good s1 m) as Hg1 by (unfold good; rewrite Eb; by setoid_rewrite Ee).
  destruct (connect_groups_spec (S (Z.to_nat (nHeight bm))) s1 st1 T f bf m bm t fGiven (if fGiven then fAlreadyChecked else false) Hi1 Hm1) as (s2 & st2 & r & bk & T' & t' & -> & Ho & Hbk); rewrite ?Eb; try done; [by rewrite Hs1 | by rewrite (frame_worse s s1) | lia|].
  cbn [mbind option_bind]. assert (outcome s s2 t m T' t' r) as Ho2 by (apply (outcome_from s s1); [done | intros x; by rewrite Ee | done]). clear Ho. pose proof Ho2 as (Hi2 & Hf2 & Hm2 & _).
  assert (forall w, keeps_fork_tip s2 w -> exists s' st' ok T' t', Some (set_warn s2 w, st2, true) = Some (s', st', ok) /\ Inv s' /\ frame s s' /\ Mid s' T' t' /\
    (ok = true -> r <> System_error -> outcome s s' t m T' t' r)) as Hend.
  { intros w Hw. exists (set_warn s2 w), st2, true, T', t'. split; [done|]. pose proof (warn_Inv s2 w Hi2 Hw) as Hi3. split; [done|].
    assert (frame s (set_warn s2 w)) as Hf3 by (eapply frame_trans; [exact Hf2 | apply soft_frame, warn_soft]). split; [done|]. pose proof (warn_Mid s2 w T' t' Hm2) as Hm3. split; [done|]. intros _ _.
    split; [done|]. split; [done|]. split; [done|]. destruct Ho2 as (_ & _ & _ & Ho). destruct r; try done. destruct Ho as (R & [Hx|Hc]); (split; [done|]); [by left | right; by apply refused_warn]. }
  assert (forall s' : option chainstate, (exists w, s' = Some (set_warn s2 w) /\ keeps_fork_tip s2 w) -> r <> System_error ->
    exists s'' st' ok T' t', (x ← s'; Some (x, st2, true)) = Some (s'', st', ok) /\ Inv s'' /\ frame s s'' /\ Mid s'' T' t' /\
      (ok = true -> exists r, r <> System_error /\ outcome s s'' t m T' t' r)) as Hfin.
  { intros s' (w & -> & Hw) Hr. cbn [mbind option_bind]. destruct (Hend w Hw) as (s'' & st' & ok & T2 & t2 & E & X1 & X2 & X3 & X4). exists s'', st', ok, T2, t2. split; [done|]. split_and!; try done. intros Eo. exists r. split; [done|]. by apply X4. }
  destruct r; [| | |by exists s2, st2, false, T', t'].
  1, 2: apply Hfin; [by apply CheckForkWarningConditions_spec | done].
  destruct (Hbk eq_refl) as (b & -> & Hb). cbn [mbind option_bind]. apply Hfin; [by apply CheckForkWarningConditionsOnNewFork_spec | done].
Qed.
End loops.

(** ** The search ends *)

Definition unfailed (s : chainstate) : nat := size (filter (fun p : ptr => bit (entry_of s p) 5 = false) (dom (blocks s))).
Definition better (s : chainstate) (t : ptr) : nat := size (filter (fun p : ptr => worse s t p = true) (dom (blocks s))).
(** Each round that does not end the search either finds one more block to be invalid or
    reaches a better tip. *)
Definition rounds (s : chainstate) (t : ptr) : nat := unfailed s * S (size (dom (blocks s))) + better s t.
Lemma filter_bound (P : ptr -> Prop) `{forall p, Decision (P p)} (D : gset ptr) : (size (filter P D) <= size D)%nat.
Proof. apply subseteq_size. intros x Hx. by apply elem_of_filter in Hx as [_ Hx]. Qed.
Lemma filter_less (P Q : ptr -> Prop) `{forall p, Decision (P p)} `{forall p, Decision (Q p)} (D : gset ptr) x :
  (forall p, Q p -> P p) -> x ∈ D -> P x -> ~ Q x -> (size (filter Q D) < size (filter P D))%nat.
Proof.
  intros Hqp Hx Hp Hq. apply subset_size. split; [intros y Hy; apply elem_of_filter in Hy as [Hy Hd]; apply elem_of_filter; auto|].
  intros Hsub. assert (x ∈ filter P D) as Hx' by (by apply elem_of_filter). apply Hsub in Hx'. by apply elem_of_filter in Hx' as [? _].
Qed.
Lemma rounds_bound s t : (rounds s t < S (size (dom (blocks s))) * S (size (dom (blocks s))))%nat.
Proof.
  unfold rounds, unfailed, better. pose proof (filter_bound (fun p => bit (entry_of s p) 5 = false) (dom (blocks s))). pose proof (filter_bound (fun p => worse s t p = true) (dom (blocks s))). nia.
Qed.
Lemma rounds_soft s s' t : soft s s' -> rounds s' t = rounds s t.
Proof.
  intros Hs. unfold rounds, unfailed, better. rewrite (f_blocks s s' Hs). f_equal; [f_equal|]; f_equal; apply set_eq; intros x; rewrite !elem_of_filter.
  - by destruct (f_entry s s' Hs x) as (_ & _ & _ & _ & _ & _ & ->).
  - by rewrite (soft_worse s s' Hs).
Qed.
Lemma rounds_better s s' t t' : frame s s' -> (forall x, bit (entry_of s' x) 5 = bit (entry_of s x) 5) -> is_Some (blocks s !! t') -> worse s t t' = true -> (rounds s' t' < rounds s t)%nat.
Proof.
  intros Hf H5 Ht' Hw. unfold rounds. assert (unfailed s' = unfailed s) as ->.
  { unfold unfailed. rewrite (r_blocks s s' Hf). f_equal. apply set_eq. intros x. rewrite !elem_of_filter. by rewrite H5. }
  rewrite (r_blocks s s' Hf). apply Nat.add_lt_mono_l. unfold better. rewrite (r_blocks s s' Hf).
  apply (filter_less _ _ _ t').
  - intros p. rewrite (frame_worse s s') by done. by apply worse_trans.
  - by apply elem_of_dom.
  - done.
  - rewrite (frame_worse s s'), worse_irrefl by done. done.
Qed.
Lemma rounds_invalid s s' t t' x : frame s s' -> is_Some (blocks s !! x) -> bit (entry_of s x) 5 = false -> bit (entry_of s' x) 5 = true -> (rounds s' t' < rounds s t)%nat.
Proof.
  intros Hf Hx H1 H2. unfold rounds. rewrite (r_blocks s s' Hf). assert (unfailed s' < unfailed s)%nat as Hu.
  { unfold unfailed. rewrite (r_blocks s s' Hf). apply (filter_less _ _ _ x); [|by apply elem_of_dom | done | congruence].
    intros p Hp. destruct (bit (entry_of s p) 5) eqn:E; [|done]. destruct (r_entry s s' Hf p) as (_ & _ & _ & _ & _ & _ & H5). rewrite (H5 E) in Hp. done. }
  assert (better s' t' <= size (dom (blocks s)))%nat as Hb by (unfold better; rewrite (r_blocks s s' Hf); apply filter_bound). nia.
Qed.

(** The tip is the only candidate, and no block whose data is there and that is not known to be
    invalid is better. *)
Definition at_best (s : chainstate) (t : ptr) : Prop :=
  Rest s t /\ setBlockIndexCandidates s = {[t]} /\ forall p, good s p -> worse s t p = false.
Lemma at_best_intro s T m : Mid s T m -> m ∈ setBlockIndexCandidates s -> worse s m T = false -> (forall q, q ∈ setBlockIndexCandidates s -> worse s m q = false) -> at_best s m.
Proof.
  intros Hm Hmc HmT Hmax. pose proof (Rest_from_Mid s T m Hm Hmc HmT) as Hr. split; [done|]. destruct Hr as (Ht & (Hp & _ & Hc) & Hw). split.
  - apply set_eq. intros x. rewrite elem_of_singleton. split; [|by intros ->]. intros Hx. apply (worse_total s); [by apply Hw | by apply Hmax].
  - intros p Hg. destruct (worse s m p) eqn:E; [|done]. rewrite <- E. apply Hmax, Hc; [done|]. apply not_true_iff_false. intros E'. pose proof (worse_trans s _ _ _ E E') as Hx. by rewrite worse_irrefl in Hx.
Qed.
Lemma good_of_path s T t m : Mid s T t -> Inv s -> m ∈ setBlockIndexCandidates s ->
  (forall x, anc (blocks s) m x -> ~ anc (blocks s) t x -> flag (entry_of s x) BLOCK_FAILED_MASK = false) -> good s m.
Proof.
  intros (_ & [(_ & _ & Hgt) _] & _) Hi Hm Hp. destruct (i_cand s Hi m Hm) as [Hb Hn]. split; [done|]. split; [done|]. intros q Hq.
  destruct (bit (entry_of s q) 5) eqn:E; [|done]. exfalso. assert (~ anc (blocks s) t q) as Hnt by (intros Ha; rewrite (Hgt q Ha) in E; done).
  specialize (Hp q Hq Hnt). rewrite flag_failed, E in Hp. done.
Qed.

(** One round of the loop of [ActivateBestChain] that is not the last. *)
Inductive activation_round `{NodeEnv} (pblock : option Z) (fAlreadyChecked : bool) : chainstate * CValidationState -> chainstate * CValidationState -> Prop :=
  | goes_round s st s1 m b s2 st2 :
      FindMostWorkChain (S (size (setBlockIndexCandidates s))) s = Some (s1, Some m) -> Tip s1 <> Some m -> blocks s1 !! m = Some b ->
      ActivateBestChainStep s1 st m (bool_decide (pblock = Some (phashBlock b))) fAlreadyChecked = Some (s2, st2, true) -> Tip s2 <> Some m ->
      activation_round pblock fAlreadyChecked (s, st) (s2, st2).
(** After some rounds from [s], one ends with a block refused as possibly corrupt. *)
Definition meets_corrupt `{NodeEnv} (pblock : option Z) (fAlreadyChecked : bool) (s : chainstate) (st : CValidationState) : Prop :=
  exists s1 st1 s2 st2 m t, rtc (activation_round pblock fAlreadyChecked) (s, st) (s1, st1) /\ activation_round pblock fAlreadyChecked (s1, st1) (s2, st2) /\
    refused_corrupt s1 s2 m t.

Section search.
Context `{NodeLaws}.
(** What a round does, and that it makes progress or meets such a block. *)
Lemma round_spec s st T t pblock fAlreadyChecked : Inv s -> Mid s T t ->
  exists s1 m, FindMostWorkChain (S (size (setBlockIndexCandidates s))) s = Some (s1, Some m) /\ Inv s1 /\ frame s s1 /\ Mid s1 T t /\
    (Tip s1 = Some m -> at_best s1 t) /\
    (Tip s1 <> Some m -> exists b s2 st2 ok T2 t2, blocks s1 !! m = Some b /\
      ActivateBestChainStep s1 st m (bool_decide (pblock = Some (phashBlock b))) fAlreadyChecked = Some (s2, st2, ok) /\ Inv s2 /\ frame s s2 /\ Mid s2 T2 t2 /\
      (ok = true -> if bool_decide (Tip s2 = Some m) then at_best s2 t2 else (rounds s2 t2 < rounds s t)%nat \/ refused_corrupt s s2 m t2)).
Proof.
  intros Hi Hm. destruct (FindMostWorkChain_spec (S (size (setBlockIndexCandidates s))) s t Hi (proj1 Hm) ltac:(lia)) as (s1 & r & E1 & Hi1 & Hs1 & Hr).
  pose proof (soft_Mid s s1 Hs1 T t Hm) as Hm1. pose proof Hm1 as (Ht1 & _ & (_ & HTc & _) & _).
  destruct r as [m|]; [|exfalso; rewrite Hr in HTc; by apply not_elem_of_empty in HTc]. exists s1, m. split; [done|]. split; [done|].
  destruct Hr as (Hmc & Hmax & Hpath). pose proof (good_of_path s1 T t m Hm1 Hi1 Hmc Hpath) as Hg. pose proof (Hmax T HTc) as HmT. pose proof (soft_frame s s1 Hs1) as Hf1.
  split; [done|]. split; [done|]. split; [intros E; rewrite Ht1 in E; injection E as ->; by apply (at_best_intro s1 T)|]. intros E.
  assert (m <> t) as Hmt by congruence. pose proof Hg as [[bm Hbm] _]. exists bm.
  destruct (ActivateBestChainStep_spec s1 st T t m (bool_decide (pblock = Some (phashBlock bm))) fAlreadyChecked Hi1 Hm1 Hg Hmc HmT Hmt) as (s2 & st2 & ok & T2 & t2 & E2 & Hi2 & Hf2 & Hm2 & Ho).
  exists s2, st2, ok, T2, t2. split; [done|]. split; [done|]. split; [done|]. split; [by eapply frame_trans|]. split; [done|]. intros ->.
  destruct (Ho eq_refl) as (r & Hr & _ & _ & _ & Hrr). clear Ho. pose proof Hm2 as (Ht2 & Hp2 & _). rewrite <- (rounds_soft s s1 t Hs1).
  destruct (bool_decide_reflect (Tip s2 = Some m)) as [E3|E3].
  - assert (t2 = m) as -> by congruence. assert (m ∈ setBlockIndexCandidates s2 /\ worse s2 m T2 = false) as [Hmc2 HmT2] by (destruct r; [| |by destruct Hrr | done]; tauto).
    apply (at_best_intro s2 T2); [done | done | done|]. intros q Hq. rewrite (frame_worse s1 s2) by done. apply Hmax. by apply (r_cand s1 s2).
  - destruct r; [by destruct Hrr as (_ & _ & _ & _ & ->) | | |done].
    + destruct Hrr as (_ & _ & H5 & Hw). left. apply rounds_better; [done | done | |].
      * rewrite <- (r_blocks s1 s2 Hf2). apply Hp2.
      * apply worse_spec. by left.
    + destruct Hrr as (_ & [(x & Hx & X1 & X2)|Hc]); [left; by apply (rounds_invalid s1 s2 t t2 x) | right; by apply (refused_from s s1)].
Qed.
(** Whenever the activation returns, however many rounds it took. *)
Lemma ActivateBestChain_sound fuel s st T t pblock fAlreadyChecked s' st' ok : Inv s -> Mid s T t ->
  ActivateBestChain fuel s st pblock fAlreadyChecked = Some (s', st', ok) -> exists T' t', Inv s' /\ frame s s' /\ Mid s' T' t' /\ (ok = true -> at_best s' t').
Proof.
  revert s st T t. induction fuel as [|fuel IH]; intros s st T t Hi Hm E; [done|]. cbn [ActivateBestChain] in E.
  destruct (round_spec s st T t pblock fAlreadyChecked Hi Hm) as (s1 & m & E1 & Hi1 & Hf1 & Hm1 & Hb & Hgo). rewrite E1 in E. cbn [mbind option_bind] in E.
  case_bool_decide as Et; [injection E as <- _ <-; exists T, t; split_and!; auto|].
  destruct (Hgo Et) as (b & s2 & st2 & ok2 & T2 & t2 & Hbm & E2 & Hi2 & Hf2 & Hm2 & Hr). rewrite Hbm in E. cbn [mbind option_bind] in E. rewrite E2 in E. cbn [mbind option_bind] in E.
  destruct ok2; cbn [negb] in E; [|injection E as <- _ <-; exists T2, t2; by split_and!]. specialize (Hr eq_refl). case_bool_decide as Et2.
  - destruct (FlushStateToDisk s2 st2) as [ok3 st3]. injection E as <- _ <-. exists T2, t2. by split_and!.
  - destruct (IH s2 st2 T2 t2 Hi2 Hm2 E) as (T3 & t3 & Hi3 & Hf3 & Hm3 & Hb3). exists T3, t3. split; [done|]. split; [by eapply frame_trans | done].
Qed.
(** It returns, unless it meets a block that is refused as possibly corrupt. *)
Lemma ActivateBestChain_returns fuel s st T t pblock fAlreadyChecked : Inv s -> Mid s T t -> (rounds s t < fuel)%nat ->
  is_Some (ActivateBestChain fuel s st pblock fAlreadyChecked) \/ meets_corrupt pblock fAlreadyChecked s st.
Proof.
  revert s st T t. induction fuel as [|fuel IH]; intros s st T t Hi Hm Hf; [lia|]. cbn [ActivateBestChain].
  destruct (round_spec s st T t pblock fAlreadyChecked Hi Hm) as (s1 & m & E1 & Hi1 & Hf1 & Hm1 & Hb & Hgo). rewrite E1. cbn [mbind option_bind].
  case_bool_decide as Et; [left; eauto|].
  destruct (Hgo Et) as (b & s2 & st2 & ok2 & T2 & t2 & Hbm & E2 & Hi2 & Hf2 & Hm2 & Hr). rewrite Hbm. cbn [mbind option_bind]. rewrite E2. cbn [mbind option_bind].
  destruct ok2; cbn [negb]; [|left; eauto]. specialize (Hr eq_refl). case_bool_decide as Et2.
  - left. destruct (FlushStateToDisk s2 st2) as [ok3 st3]. eauto.
  - pose proof (goes_round pblock fAlreadyChecked s st s1 m b s2 st2 E1 Et Hbm E2 Et2) as Hround.
    destruct Hr as [Hlt|Hc]; [|right; by exists s, st, s2, st2, m, t2].
    destruct (IH s2 st2 T2 t2 Hi2 Hm2 ltac:(lia)) as [Hd|(x1 & y1 & x2 & y2 & m2 & t3 & R1 & R2 & R3)]; [by left|].
    right. exists x1, y1, x2, y2, m2, t3. split; [by eapply rtc_l | done].
Qed.
End search.
