(* ===== verification/BlockInvalid.v ===== *)
(** Blocks declared invalid and blocks reconsidered: what [InvalidateBlock] and [ReconsiderBlock]
    do to the marks, the candidates and the tip. *)
From S2P Require Import Prelude TxChecks Chain Uint256 Pow ChainState ChainInv ChainArrival BestChain.

(** ** A block declared invalid *)

(** What disconnecting blocks below the state [s] leaves as it was. *)
Definition rewound (s s' : chainstate) : Prop := frame s s' /\ forall p, bit (entry_of s' p) 5 = bit (entry_of s p) 5.
Lemma rewound_refl s : rewound s s.
Proof. split; [apply frame_refl | done]. Qed.
Lemma rewound_trans s1 s2 s3 : rewound s1 s2 -> rewound s2 s3 -> rewound s1 s3.
Proof. intros [H1 E1] [H2 E2]. split; [by eapply frame_trans|]. intros p. by rewrite E2. Qed.
Lemma soft_rewound s s' : soft s s' -> rewound s s'.
Proof. intros Hs. split; [by apply soft_frame|]. intros p. by destruct (f_entry s s' Hs p) as (_ & _ & _ & _ & _ & _ & ->). Qed.
Section rewind.
Context (s s' : chainstate) (Hr : rewound s s').
Lemma rewound_blocks : blocks s' = blocks s.
Proof. apply (r_blocks s s'), Hr. Qed.
Lemma rewound_good p : good s' p <-> good s p.
Proof.
  unfold good. rewrite rewound_blocks. destruct (r_entry s s' (proj1 Hr) p) as (_ & _ & -> & _). pose proof (proj2 Hr) as H5. by setoid_rewrite H5.
Qed.
Lemma rewound_proven p : proven s p -> proven s' p.
Proof.
  intros [Hg Hl]. split; [by apply rewound_good|]. intros q b. rewrite rewound_blocks. intros Ha Hb Hn. specialize (Hl q b Ha Hb Hn).
  destruct (r_entry s s' (proj1 Hr) q) as (_ & _ & _ & _ & Hle & _). lia.
Qed.
End rewind.

Section invalid.
Context `{NodeLaws}.
Lemma invalidate_loop_spec fuel s st t bt pindex b q : Inv s -> Tip s = Some t -> (forall x, x ∈ setBlockIndexCandidates s -> worse s x t = false) ->
  blocks s !! t = Some bt -> blocks s !! pindex = Some b -> pprev b = Some q -> bit (entry_of s pindex) 5 = true -> (Z.to_nat (nHeight bt) < fuel)%nat ->
  exists s' st' ok, invalidate_loop fuel s st pindex = Some (s', st', ok) /\ Inv s' /\ rewound s s' /\
    (ok = true -> exists t', Tip s' = Some t' /\ anc (blocks s) t t' /\ ~ anc (blocks s) t' pindex /\ (anc (blocks s) t pindex -> t' = q) /\ (~ anc (blocks s) t pindex -> t' = t) /\
      forall x, x ∈ setBlockIndexCandidates s' -> worse s' x t' = false).
Proof.
  revert s st t bt. induction fuel as [|fuel IH]; intros s st t bt Hi Ht Hc Hbt Hp Hq H5 Hf; [lia|]. cbn [invalidate_loop].
  destruct (Contains_spec s Hi t pindex b Ht Hp) as (c & -> & Hin). cbn [mbind option_bind]. destruct c; cbn [negb].
  - pose proof (proj1 Hin eq_refl) as Ha. rewrite Ht. cbn [mbind option_bind].
    destruct (mark_child_Inv s t Hi ltac:(eauto) ltac:(eauto)) as [Hi1 Hs1]. set (s1 := set_entry s t _) in *.
    pose proof (erase_Inv s1 t Hi1) as Hi2. set (s2 := erase_candidate s1 t) in *.
    assert (rewound s s2) as Hr2.
    { eapply rewound_trans; [by apply soft_rewound|]. split; [|done]. split; try done. intros x Hx. by apply elem_of_difference in Hx as [Hx _]. }
    assert (exists r, pprev bt = Some r) as [r Er].
    { destruct (anc_inv (blocks s) t bt pindex Hbt Ha) as [->|(r & Er & _)]; [|eauto]. exists q. congruence. }
    destruct (DisconnectTip_moves s2 st t bt r Hi2 Ht Hbt Er) as (s3 & st3 & ok & -> & Hi3 & (c & Hs3) & Hok). cbn [mbind option_bind].
    assert (rewound s s3) as Hr3 by (eapply rewound_trans; [exact Hr2|]; subst s3; split; [apply active_frame | done]).
    destruct ok; [|exists s3, st3, false; by split_and!]. pose proof (rewound_blocks _ _ Hr3) as Eb.
    destruct (wf_prev (blocks s) (i_wf s Hi) t bt r Hbt Er) as (d & Hd & Hh & Hd0).
    assert (forall x, x ∈ setBlockIndexCandidates s3 -> worse s3 x r = false) as Hc3.
    { intros x Hx. rewrite (frame_worse s s3) by apply Hr3. apply (worse_parent s t bt r x Hi Hbt Er), Hc. by apply (r_cand s s3 (proj1 Hr3)). }
    destruct (IH s3 st3 r d Hi3 Hok Hc3) as (s4 & st4 & ok & E4 & Hi4 & Hr4 & Ho); rewrite ?Eb; try done; [by rewrite (proj2 Hr3) | lia|].
    exists s4, st4, ok. split; [done|]. split; [done|]. split; [by eapply rewound_trans|]. intros Eo. destruct (Ho Eo) as (t' & Ht' & Ha' & Hn' & Hq' & Hnq' & Hc').
    rewrite Eb in Ha', Hn', Hq', Hnq'. exists t'. split; [done|]. split; [by apply (anc_step _ t bt r)|]. split; [done|]. split; [|by split]. intros _.
    destruct (anc_inv (blocks s) t bt pindex Hbt Ha) as [->|(y & Ey & Hy)]; [|apply Hq'; congruence]. assert (r = q) as -> by congruence. apply Hnq'.
    intros Hx. pose proof (anc_height (blocks s) (i_wf s Hi) q t d bt Hx Hd Hbt). lia.
  - exists s, st, true. split; [done|]. split; [done|]. split; [apply rewound_refl|]. intros _. exists t. split; [done|]. split; [apply anc_refl; eauto|].
    assert (~ anc (blocks s) t pindex) as Hn by (intros Ha; by apply Hin in Ha). by split_and!.
Qed.

Lemma readd_candidates_spec l s tip : exists c, readd_candidates l s tip = set_candidates s c /\
  forall p, p ∈ c <-> p ∈ setBlockIndexCandidates s \/ (p ∈ l /\ block_IsValid (entry_of s p) BLOCK_VALID_TRANSACTIONS = true /\ nChainTx (entry_of s p) <> 0 /\ worse s p tip = false).
Proof.
  revert s. induction l as [|x l IH]; intros s; cbn [readd_candidates].
  - exists (setBlockIndexCandidates s). split; [by destruct s|]. intros p. rewrite elem_of_nil. tauto.
  - destruct (block_IsValid (entry_of s x) BLOCK_VALID_TRANSACTIONS && negb (nChainTx (entry_of s x) =? 0) && negb (worse s x tip)) eqn:E.
    + destruct (IH (insert_candidate s x)) as (c & -> & Hc). exists c. split; [done|]. intros p. rewrite Hc, elem_of_cons. cbn [insert_candidate set_candidates setBlockIndexCandidates].
      rewrite elem_of_union, elem_of_singleton. change (entry_of (insert_candidate s x) p) with (entry_of s p). change (worse (insert_candidate s x) p tip) with (worse s p tip).
      apply andb_true_iff in E as [[E1 E2%negb_true_iff]%andb_true_iff E3%negb_true_iff]. split; [|tauto].
      intros [[->|Hp]|Hp]; [right; split; [by left|]; split; [done|]; split; [lia | done] | by left | tauto].
    + destruct (IH s) as (c & -> & Hc). exists c. split; [done|]. intros p. rewrite Hc, elem_of_cons. split; [tauto|].
      intros [Hp|([->|Hp] & H1 & H2 & H3)]; [by left | | by right]. rewrite H1, H3 in E. replace (nChainTx (entry_of s x) =? 0) with false in E by lia. done.
Qed.

(** The block and its descendants are left, and what is as good as the new tip is a candidate. *)
Lemma InvalidateBlock_spec s t st pindex b q : Inv s -> Rest s t -> blocks s !! pindex = Some b -> pprev b = Some q ->
  exists s' st' ok, InvalidateBlock s st pindex = Some (s', st', ok) /\ Inv s' /\ frame s (set_candidates s' (setBlockIndexCandidates s)) /\
    (forall x, good s' x <-> good s x /\ ~ anc (blocks s) x pindex) /\
    (ok = true -> exists t', Rest s' t' /\ (anc (blocks s) t pindex -> t' = q) /\ (~ anc (blocks s) t pindex -> t' = t)).
Proof.
  intros Hi Hr Hp Hq. unfold InvalidateBlock. destruct (mark_valid_spec s pindex Hi ltac:(eauto)) as (Hi1 & Hf1 & Hg1 & H51 & Hp1 & _). set (s1 := erase_candidate _ pindex) in *.
  destruct Hr as (Ht & (Hpt & Htc & Hcc) & Hc). destruct (tip_chain s Hi t Ht) as (bt & Hbt & Ec). destruct (i_wf s Hi t bt Hbt) as (Ht0 & _).
  destruct (invalidate_loop_spec (length (chainActive s)) s1 st t bt pindex b q Hi1 Ht) as (s2 & st2 & ok & E & Hi2 & Hr2 & Ho); try done.
  { intros x Hx. rewrite (frame_worse s s1) by done. apply Hc. by apply (r_cand s s1). }
  { rewrite Ec, chain_of_length. lia. }
  change (length (chainActive s1)) with (length (chainActive s)). rewrite E. cbn [mbind option_bind]. clear E.
  assert (forall c w, frame s (set_candidates (set_warn (set_candidates s2 c) w) (setBlockIndexCandidates s))) as Hfr.
  { intros c w. pose proof (frame_trans _ _ _ Hf1 (proj1 Hr2)) as Hf. split; try apply Hf; done. }
  assert (forall x, good s2 x <-> good s x /\ ~ anc (blocks s) x pindex) as Hg2 by (intros x; by rewrite (rewound_good s1 s2)).
  destruct ok; cbn [negb].
  - destruct (Ho eq_refl) as (t' & Ht' & Ha' & Hn' & Hq' & Hnq' & Hc'). rewrite Ht'. cbn [mbind option_bind]. change (blocks s1) with (blocks s) in *.
    pose proof (rewound_blocks _ _ Hr2) as Eb. change (blocks s1) with (blocks s) in Eb.
    destruct (readd_candidates_spec (all_blocks s2) s2 t') as (c & -> & Hcand). set (s3 := set_candidates s2 c).
    assert (Inv s3) as Hi3.
    { destruct Hi2 as [Hb [K1 K2 K3 K4]]. split; [split; try apply Hb|split; [exact K1 | exact K2 | exact K3 | exact K4]].
      intros x Hx. apply Hcand in Hx as [Hx|(Hx & _ & Hx2 & _)]; [by apply (b_cand s2 Hb)|]. split; [by apply (b_index s2 Hb) | done]. }
    assert (proven s2 t') as Hpt' by (apply (rewound_proven s1 s2 Hr2), Hp1; [by apply (proven_ancestor s Hi t) | done]).
    assert (forall x, good s2 x -> worse s2 x t' = false -> x ∈ c) as Hall.
    { intros x Hgx Hwx. apply Hcand. right. destruct (good_unfailed s2 Hi2 x Hgx) as [G5 G6]. destruct Hgx as (Gb & Gn & _).
      split; [by apply (i_index s2 Hi2)|]. split; [|done]. unfold block_IsValid. rewrite flag_failed, G5, G6. cbn [orb].
      destruct (i_tx s2 Hi2 x Gb) as (T0 & T1 & T2 & _). destruct (linked_ancestors s2 Hi2 x x ltac:(by apply anc_refl) Gn) as [_ G3]. unfold BLOCK_VALID_TRANSACTIONS. apply Z.geb_le, T2, T1, G3. }
    destruct (InvalidChainFound_spec s3 pindex Hi3) as (w & -> & Hw). cbn [mbind option_bind]. exists (set_warn s3 w), st2, true. split; [done|]. split; [by apply warn_Inv|].
    split; [apply Hfr|]. split; [exact Hg2|]. intros _. exists t'. split; [|done]. split; [done|]. split.
    + split; [done|]. split; [apply Hall; [apply Hpt' | apply worse_irrefl] | exact Hall].
    + intros x Hx. apply Hcand in Hx as [Hx|(_ & _ & _ & Hx)]; [by apply Hc' | done].
  - exists s2, st2, false. split; [done|]. split; [done|]. split; [|by split].
    specialize (Hfr (setBlockIndexCandidates s2) (warn s2)). by destruct s2.
Qed.
End invalid.

(** ** A block reconsidered *)

Lemma clear_failed_id e : flag e BLOCK_FAILED_MASK = false -> clear_failed e = e.
Proof.
  intros Hf. destruct e as [w n c st q]. unfold clear_failed, with_status. cbn [nStatus]. f_equal. apply Z.bits_inj'. intros k Hk.
  rewrite Z.land_spec, Z.lnot_spec by done. destruct (Z.testbit st k) eqn:E; [|done]. cbn. change BLOCK_FAILED_MASK with (Z.lor (2 ^ 5) (2 ^ 6)).
  rewrite Z.lor_spec, !Z.pow2_bits_eqb by lia. rewrite flag_failed in Hf. unfold bit in Hf. cbn [nStatus] in Hf. apply orb_false_iff in Hf as [H5 H6].
  destruct (Z.eqb_spec 5 k); [congruence|]. by destruct (Z.eqb_spec 6 k); [congruence|].
Qed.
(** The candidates apart, the entries of some blocks have been cleared. *)
Record cleared (X : ptr -> Prop) (s s' : chainstate) : Prop := {
  c_blocks : blocks s' = blocks s;
  c_index : mapBlockIndex s' = mapBlockIndex s;
  c_active : chainActive s' = chainActive s;
  c_unlinked : mapBlocksUnlinked s' = mapBlocksUnlinked s;
  c_in : forall p, X p -> entry_of s' p = clear_failed (entry_of s p);
  c_out : forall p, ~ X p -> entry_of s' p = entry_of s p
}.
Definition admitted (s : chainstate) (t p : ptr) : Prop :=
  flag (entry_of s p) BLOCK_FAILED_MASK = true /\ 3 <= level (entry_of s p) /\ nChainTx (entry_of s p) <> 0 /\ worse s t p = true.

Lemma clear_twice e : clear_failed (clear_failed e) = clear_failed e.
Proof. apply clear_failed_id. by rewrite flag_failed, !bit_clear, !andb_false_r. Qed.
Lemma worse_ext s s' p q : nChainWork (entry_of s' p) = nChainWork (entry_of s p) -> nSequenceId (entry_of s' p) = nSequenceId (entry_of s p) ->
  nChainWork (entry_of s' q) = nChainWork (entry_of s q) -> nSequenceId (entry_of s' q) = nSequenceId (entry_of s q) -> worse s' p q = worse s p q.
Proof. unfold worse. by intros -> -> -> ->. Qed.
Lemma cleared_worse X s s' p q : (forall x, X x \/ ~ X x) -> cleared X s s' -> worse s' p q = worse s p q.
Proof.
  intros Hd Hc. assert (forall x, nChainWork (entry_of s' x) = nChainWork (entry_of s x) /\ nSequenceId (entry_of s' x) = nSequenceId (entry_of s x)) as He.
  { intros x. destruct (Hd x) as [Hx|Hx]; [by rewrite (c_in X s s' Hc x Hx) | by rewrite (c_out X s s' Hc x Hx)]. }
  destruct (He p), (He q). by apply worse_ext.
Qed.

Section reconsider.
Context (s0 : chainstate) (pindex t : ptr) (b : CBlockIndex).
Context (Hwf : wf_heap (blocks s0)) (Hp : blocks s0 !! pindex = Some b) (Ht : Tip s0 = Some t).
Local Abbreviation below x := (anc (blocks s0) x pindex).

Lemma GetAncestor_below x bx : blocks s0 !! x = Some bx -> exists a, GetAncestor (blocks s0) x (nHeight b) = Some a /\ (a = Some pindex <-> below x).
Proof.
  intros Hx. rewrite (GetAncestor_spec (blocks s0) Hwf x bx) by done. eexists. split; [done|]. rewrite (anc_ancestor (blocks s0) Hwf x pindex bx b Hx Hp).
  destruct (Hwf pindex b Hp) as (H0 & _). replace (nHeight b <? 0) with false by lia. rewrite orb_false_r.
  destruct (Z.gtb_spec (nHeight b) (nHeight bx)); [split; [done | lia]|]. split; [intros ->; split; [lia | done] | tauto].
Qed.
Lemma below_dec x : below x \/ ~ below x.
Proof.
  destruct (blocks s0 !! x) as [bx|] eqn:E; [|right; intros Ha; destruct (anc_blocks _ _ _ Ha) as [[c Hc] _]; congruence].
  destruct (GetAncestor_below x bx E) as (a & _ & Ha). destruct (decide (a = Some pindex)) as [Hd|Hd]; [left; by apply Ha | right; by rewrite <- Ha].
Qed.

Lemma reconsider_loop_spec l done_ s : NoDup (done_ ++ l) -> (forall x, x ∈ l -> is_Some (blocks s0 !! x)) ->
  cleared (fun x => x ∈ done_ /\ below x) s0 s ->
  (forall x, x ∈ setBlockIndexCandidates s <-> x ∈ setBlockIndexCandidates s0 \/ (x ∈ done_ /\ below x /\ admitted s0 t x)) ->
  exists s', reconsider_loop l s pindex (nHeight b) = Some s' /\ cleared (fun x => x ∈ done_ ++ l /\ below x) s0 s' /\
    (forall x, x ∈ setBlockIndexCandidates s' <-> x ∈ setBlockIndexCandidates s0 \/ (x ∈ done_ ++ l /\ below x /\ admitted s0 t x)).
Proof.
  revert done_ s. induction l as [|p l IH]; intros done_ s Hnd Hl Hs Hc; cbn [reconsider_loop]; [rewrite app_nil_r; by exists s|].
  replace (done_ ++ p :: l) with ((done_ ++ [p]) ++ l) in * by (by rewrite <- app_assoc).
  assert (p ∉ done_) as Hpd by (rewrite <- app_assoc in Hnd; apply list.NoDup_app in Hnd as (_ & Hx & _); intros Hi; apply (Hx p Hi); left).
  destruct (Hl p ltac:(left)) as [bp Hbp]. pose proof (c_out _ _ _ Hs p ltac:(tauto)) as Ep.
  assert (forall x, x ∈ l -> is_Some (blocks s0 !! x)) as Hl' by (intros x Hx; apply Hl; by right).
  assert (forall x, (x ∈ done_ /\ below x) \/ ~ (x ∈ done_ /\ below x)) as Hdec.
  { intros x. destruct (below_dec x); [|tauto]. destruct (decide (x ∈ done_)); tauto. }
  destruct (block_IsValid (entry_of s p) BLOCK_VALID_TRANSACTIONS) eqn:Ev.
  - assert (flag (entry_of s0 p) BLOCK_FAILED_MASK = false) as Hf by (rewrite <- Ep; unfold block_IsValid in Ev; by destruct (flag _ _)).
    apply IH; [done | done | |].
    + split; try apply Hs.
      * intros x [[Hx| ->%list_elem_of_singleton]%elem_of_app Hb]; [by apply (c_in _ _ _ Hs)|]. by rewrite Ep, clear_failed_id.
      * intros x Hx. apply (c_out _ _ _ Hs). intros [H1 H2]. apply Hx. rewrite elem_of_app. tauto.
    + intros x. rewrite Hc, elem_of_app, list_elem_of_singleton. split; [tauto|]. intros [?|([?| ->] & H2 & H3)]; [by left | by right|]. exfalso. destruct H3 as [H3 _]. congruence.
  - rewrite (c_blocks _ _ _ Hs). destruct (GetAncestor_below p bp Hbp) as (a & -> & Ha). cbn [mbind option_bind]. case_bool_decide as Ea; cbn [negb].
    + pose proof (proj1 Ha Ea) as Hb. set (s1 := set_entry s p (clear_failed (entry_of s p))).
      assert (cleared (fun x => x ∈ done_ ++ [p] /\ below x) s0 s1) as Hs1.
      { split; try apply Hs.
        - intros x [Hx Hbx]. unfold s1. rewrite entry_of_set. case_decide as E; [by rewrite E, Ep|]. apply (c_in _ _ _ Hs). apply elem_of_app in Hx as [Hx|Hx%list_elem_of_singleton]; done.
        - intros x Hx. unfold s1. rewrite entry_of_set. case_decide as E; [subst x; exfalso; apply Hx; split; [apply elem_of_app; right; by apply list_elem_of_singleton | done]|].
          apply (c_out _ _ _ Hs). intros [H1 H2]. apply Hx. rewrite elem_of_app. tauto. }
      assert (entry_of s1 p = clear_failed (entry_of s0 p)) as E1 by (unfold s1; by rewrite entry_of_set, decide_True, Ep).
      assert (Tip s1 = Some t) as Ht1 by (unfold Tip; by rewrite (c_active _ _ _ Hs1)).
      assert (worse s1 t p = worse s0 t p) as Hw.
      { apply (cleared_worse _ s0 s1 t p) in Hs1; [done|]. intros x. destruct (below_dec x); [|tauto]. destruct (decide (x ∈ done_ ++ [p])); tauto. }
      set (ok := block_IsValid (entry_of s1 p) BLOCK_VALID_TRANSACTIONS && negb (nChainTx (entry_of s1 p) =? 0)).
      assert (exists s2, (if ok then tip ← Tip s1; Some (if worse s1 tip p then insert_candidate s1 p else s1) else Some s1) = Some s2 /\
        cleared (fun x => x ∈ done_ ++ [p] /\ below x) s0 s2 /\
        forall x, x ∈ setBlockIndexCandidates s2 <-> x ∈ setBlockIndexCandidates s0 \/ (x ∈ done_ ++ [p] /\ below x /\ admitted s0 t x)) as (s2 & -> & Hs2 & Hc2).
      { assert (admitted s0 t p <-> ok = true /\ worse s1 t p = true) as Hadm.
        { unfold admitted, ok. rewrite Hw, E1. unfold block_IsValid. rewrite (flag_failed (clear_failed _)), !bit_clear, !andb_false_r, level_clear. cbn [orb]. change (nChainTx (clear_failed (entry_of s0 p))) with (nChainTx (entry_of s0 p)).
          rewrite Ep in Ev. unfold block_IsValid in Ev. unfold BLOCK_VALID_TRANSACTIONS in *. rewrite andb_true_iff, negb_true_iff, Z.eqb_neq, Z.geb_le.
          destruct (flag (entry_of s0 p) BLOCK_FAILED_MASK); [tauto|]. split; [by intros [? _] | lia]. }
        assert (forall x, (x ∈ setBlockIndexCandidates s0 \/ (x ∈ done_ ++ [p] /\ below x /\ admitted s0 t x)) <-> x ∈ setBlockIndexCandidates s \/ (x = p /\ admitted s0 t p)) as Hcs.
        { intros x. rewrite Hc, elem_of_app, list_elem_of_singleton. split; [|intros [[?|?]|[-> ?]]; tauto]. intros [?|([?| ->] & ? & ?)]; tauto. }
        destruct ok; [rewrite Ht1; cbn [mbind option_bind]; destruct (worse s1 t p) eqn:Ew|].
        - exists (insert_candidate s1 p). split; [done|]. split; [split; apply Hs1|]. intros x. rewrite Hcs. cbn [insert_candidate set_candidates setBlockIndexCandidates]. rewrite elem_of_union, elem_of_singleton. tauto.
        - exists s1. split; [done|]. split; [done|]. intros x. rewrite Hcs. change (setBlockIndexCandidates s1) with (setBlockIndexCandidates s). intuition congruence.
        - exists s1. split; [done|]. split; [done|]. intros x. rewrite Hcs. change (setBlockIndexCandidates s1) with (setBlockIndexCandidates s). intuition congruence. }
      cbn [mbind option_bind]. cbv zeta. apply IH; [done | done | |]; case_bool_decide; try done. split; apply Hs2.
    + assert (~ below p) as Hnb by (rewrite <- Ha; done). apply IH; [done | done | |].
      * split; try apply Hs.
        -- intros x [[Hx| ->%list_elem_of_singleton]%elem_of_app Hb]; [by apply (c_in _ _ _ Hs) | done].
        -- intros x Hx. apply (c_out _ _ _ Hs). intros [H1 H2]. apply Hx. rewrite elem_of_app. tauto.
      * intros x. rewrite Hc, elem_of_app, list_elem_of_singleton. split; [tauto|]. intros [?|([?| ->] & H2 & H3)]; [by left | by right | done].
Qed.
End reconsider.
Lemma clear_ancestors_spec fuel s0 s X p b : wf_heap (blocks s0) -> blocks s0 !! p = Some b -> (Z.to_nat (nHeight b) < fuel)%nat ->
  (forall x, X x \/ ~ X x) -> cleared X s0 s -> exists s', clear_ancestors fuel s (Some p) = Some s' /\ cleared (fun x => X x \/ anc (blocks s0) p x) s0 s' /\
    setBlockIndexCandidates s' = setBlockIndexCandidates s.
Proof.
  intros Hwf. revert s X p b. induction fuel as [|fuel IH]; intros s X p b Hp Hf Hd Hs; [lia|]. cbn [clear_ancestors]. rewrite (c_blocks _ _ _ Hs), Hp. cbn [mbind option_bind].
  set (s1 := if flag (entry_of s p) BLOCK_FAILED_MASK then set_entry s p (clear_failed (entry_of s p)) else s).
  assert (entry_of s1 p = clear_failed (entry_of s p) /\ (forall x, x <> p -> entry_of s1 x = entry_of s x) /\ setBlockIndexCandidates s1 = setBlockIndexCandidates s /\
    blocks s1 = blocks s /\ mapBlockIndex s1 = mapBlockIndex s /\ chainActive s1 = chainActive s /\ mapBlocksUnlinked s1 = mapBlocksUnlinked s) as (E1 & E2 & E3 & E4 & E5 & E6 & E7).
  { unfold s1. destruct (flag _ _) eqn:Ef.
    - split; [by rewrite entry_of_set, decide_True|]. split; [intros x Hx; by rewrite entry_of_set, decide_False | done].
    - split; [by rewrite clear_failed_id | done]. }
  assert (cleared (fun x => X x \/ x = p) s0 s1) as Hs1.
  { destruct Hs as [C1 C2 C3 C4 C5 C6]. split; try congruence.
    - intros x Hx. destruct (decide (x = p)) as [->|Hn]; [|destruct Hx; [|done]; rewrite E2 by done; by apply C5]. rewrite E1.
      destruct (Hd p) as [HX|HX]; [by rewrite C5, clear_twice | by rewrite C6].
    - intros x Hx. rewrite E2 by tauto. apply C6. tauto. }
  destruct (pprev b) as [q|] eqn:Eq.
  - destruct (wf_prev _ Hwf p b q Hp Eq) as (c & Hc & Hh & Hc0). destruct (IH s1 (fun x => X x \/ x = p) q c Hc ltac:(lia) ltac:(intros x; destruct (Hd x); [tauto|]; destruct (decide (x = p)); tauto) Hs1) as (s' & -> & Hs' & Ec). exists s'. split; [done|]. split; [|congruence].
    destruct Hs' as [C1 C2 C3 C4 C5 C6]. split; try done.
    + intros x Hx. apply C5. destruct Hx as [Hx|Ha]; [tauto|]. destruct (anc_inv _ p b x Hp Ha) as [->|(r & Er & Hr)]; [tauto|]. right. congruence.
    + intros x Hx. apply C6. intros [[HX| ->]|Ha]; apply Hx; [by left | right; apply anc_refl; eauto | right; by apply (anc_step _ p b q)].
  - exists s1. split; [by destruct fuel|]. split; [|done]. destruct Hs1 as [C1 C2 C3 C4 C5 C6]. split; try done.
    + intros x Hx. apply C5. destruct Hx as [Hx|Ha]; [tauto|]. destruct (anc_inv _ p b x Hp Ha) as [->|(r & Er & _)]; [tauto | congruence].
    + intros x Hx. apply C6. intros [HX| ->]; apply Hx; [by left | right; apply anc_refl; eauto].
Qed.

(** Every entry of [mapBlockIndex] is under the hash of its block. *)
Definition indexed (s : chainstate) : Prop := forall k p, mapBlockIndex s !! k = Some p -> exists b, blocks s !! p = Some b /\ phashBlock b = k.
Lemma all_blocks_nodup s : indexed s -> NoDup (all_blocks s).
Proof.
  intros Hi. unfold all_blocks. apply NoDup_fmap_2_strong; [|apply NoDup_map_to_list]. intros [k p] [k' p'] Hk Hk' E. cbn in E. subst p'.
  apply elem_of_map_to_list in Hk, Hk'. destruct (Hi k p Hk) as (b & Hb & <-). destruct (Hi k' p Hk') as (b' & Hb' & <-). congruence.
Qed.
Lemma ReconsiderBlock_spec s t pindex b : Inv s -> indexed s -> Tip s = Some t -> blocks s !! pindex = Some b ->
  exists s', ReconsiderBlock s pindex = Some s' /\ cleared (fun x => anc (blocks s) x pindex \/ anc (blocks s) pindex x) s s' /\
    forall x, x ∈ setBlockIndexCandidates s' <-> x ∈ setBlockIndexCandidates s \/ (anc (blocks s) x pindex /\ admitted s t x).
Proof.
  intros Hi Hx Ht Hp. unfold ReconsiderBlock. rewrite Hp. cbn [mbind option_bind].
  destruct (reconsider_loop_spec s pindex t b (i_wf s Hi) Hp Ht (all_blocks s) [] s) as (s1 & -> & Hs1 & Hc1).
  - by apply all_blocks_nodup.
  - intros x. apply (i_index s Hi).
  - split; try done. by intros x [Hx'%elem_of_nil _].
  - intros x. rewrite elem_of_nil. tauto.
  - cbn [mbind option_bind app] in *. unfold height_fuel. rewrite (c_blocks _ _ _ Hs1), Hp.
    assert (forall x, (x ∈ all_blocks s /\ anc (blocks s) x pindex) \/ ~ (x ∈ all_blocks s /\ anc (blocks s) x pindex)) as Hdec.
    { intros x. destruct (below_dec s pindex b (i_wf s Hi) Hp x); [|tauto]. destruct (decide (x ∈ all_blocks s)); tauto. }
    destruct (clear_ancestors_spec (S (Z.to_nat (nHeight b))) s s1 _ pindex b (i_wf s Hi) Hp ltac:(lia) Hdec Hs1) as (s' & -> & Hs' & Ec). exists s'. split; [done|].
    assert (forall x, anc (blocks s) x pindex -> x ∈ all_blocks s) as Hin by (intros x Ha; apply (i_index s Hi); by apply (anc_blocks _ x pindex)).
    split.
    + destruct Hs' as [C1 C2 C3 C4 C5 C6]. split; try done; intros x Hx'; [apply C5; destruct Hx'; [left; auto | by right] | apply C6; tauto].
    + intros x. rewrite Ec, Hc1. split; [tauto|]. intros [?|[Ha Had]]; [by left | right; auto].
Qed.

(** *** What the reconsideration leaves alone *)

(** [pindexBestInvalid] is reset, and nothing else of the warnings. *)
Definition no_invalid (w : warnings) : warnings := mkWarnings None (pindexBestForkTip w) (pindexBestForkBase w) (fLargeWorkForkFound w) (fLargeWorkInvalidChainFound w).
(** The block that is remembered as the best invalid one is among those in [P]. *)
Definition best_invalid_in (s : chainstate) (P : ptr -> Prop) : Prop := exists p, pindexBestInvalid (warn s) = Some p /\ P p.
Definition rest_of (s s' : chainstate) (P : ptr -> Prop) : Prop :=
  nBlockSequenceId s' = nBlockSequenceId s /\ pindexBestHeader s' = pindexBestHeader s /\
  (best_invalid_in s P -> warn s' = no_invalid (warn s)) /\ (~ best_invalid_in s P -> warn s' = warn s).
Lemma rest_refl s P : (forall p, ~ P p) -> rest_of s s P.
Proof. intros HP. split; [done|]. split; [done|]. split; [|done]. intros (p & _ & Hp). by apply HP in Hp. Qed.
Lemma rest_step s s1 s2 (P Q : ptr -> Prop) p : nBlockSequenceId s1 = nBlockSequenceId s -> pindexBestHeader s1 = pindexBestHeader s ->
  warn s1 = (if bool_decide (pindexBestInvalid (warn s) = Some p) then no_invalid (warn s) else warn s) ->
  (forall x, x <> p -> (P x <-> Q x)) -> P p -> rest_of s1 s2 Q -> rest_of s s2 P.
Proof.
  intros E1 E2 Ew HPQ Hp (R1 & R2 & R3 & R4). split; [congruence|]. split; [congruence|]. case_bool_decide as Ed.
  - rewrite Ew in R3, R4. assert (warn s2 = no_invalid (warn s)) as Hw by (apply R4; intros (x & Hx & _); rewrite Ew in Hx; discriminate Hx).
    split; [done|]. intros Hn. destruct Hn. by exists p.
  - assert (best_invalid_in s P <-> best_invalid_in s1 Q) as Hi.
    { unfold best_invalid_in. rewrite Ew. split; intros (x & Hx & HP); exists x; (split; [done|]); apply HPQ; [congruence | done | congruence | done]. }
    rewrite Ew in R3, R4. by rewrite Hi.
Qed.
Lemma reconsider_loop_rest (pindex : ptr) (height : Z) l s s' : NoDup l -> reconsider_loop l s pindex height = Some s' ->
  rest_of s s' (fun p => p ∈ l /\ block_IsValid (entry_of s p) BLOCK_VALID_TRANSACTIONS = false /\ GetAncestor (blocks s) p height = Some (Some pindex)).
Proof.
  revert s. induction l as [|p l IH]; intros s Hnd E; cbn [reconsider_loop] in E.
  { injection E as <-. apply rest_refl. by intros p [Hp%elem_of_nil _]. }
  apply list.NoDup_cons in Hnd as [Hpl Hnd]. destruct (block_IsValid (entry_of s p) BLOCK_VALID_TRANSACTIONS) eqn:Ev.
  { destruct (IH s Hnd E) as (R1 & R2 & R3 & R4). unfold rest_of, best_invalid_in in *. setoid_rewrite elem_of_cons. split; [done|]. split; [done|].
    split; [intros (x & Hx & [->|Hxl] & Hv & Ha); [congruence|apply R3; by exists x]|]. intros Hn. apply R4. intros (x & Hx & Hxl & Hv). apply Hn. exists x. tauto. }
  destruct (GetAncestor (blocks s) p height) as [a|] eqn:Eg; [|done]. cbn [mbind option_bind] in E. case_bool_decide as Ea; cbn [negb] in E.
  2:{ destruct (IH s Hnd E) as (R1 & R2 & R3 & R4). unfold rest_of, best_invalid_in in *. setoid_rewrite elem_of_cons. split; [done|]. split; [done|].
    split; [intros (x & Hx & [->|Hxl] & Hv & Ha); [congruence|apply R3; by exists x]|]. intros Hn. apply R4. intros (x & Hx & Hxl & Hv). apply Hn. exists x. tauto. }
  subst a. set (s1 := set_entry s p (clear_failed (entry_of s p))) in *.
  destruct (if _ : bool then _ else Some s1) as [s2|] eqn:E2; [|done]. cbn [mbind option_bind] in E. cbv zeta in E.
  assert (blocks s2 = blocks s /\ warn s2 = warn s /\ nBlockSequenceId s2 = nBlockSequenceId s /\ pindexBestHeader s2 = pindexBestHeader s /\ entries s2 = entries s1) as (B & W & N & Hd & En).
  { destruct (_ && _) in E2; [destruct (Tip s1); [|done]; cbn [mbind option_bind] in E2; destruct (worse s1 _ p) in E2|]; by injection E2 as <-. }
  rewrite W in E. fold (no_invalid (warn s)) in E. set (s3 := if bool_decide _ then _ else s2) in E.
  assert (blocks s3 = blocks s /\ warn s3 = (if bool_decide (pindexBestInvalid (warn s) = Some p) then no_invalid (warn s) else warn s) /\
    nBlockSequenceId s3 = nBlockSequenceId s /\ pindexBestHeader s3 = pindexBestHeader s /\ entries s3 = entries s1) as (B3 & W3 & N3 & Hd3 & En3).
  { unfold s3. destruct (bool_decide (pindexBestInvalid (warn s) = Some p)); done. }
  apply IH in E; [|done]. eapply (rest_step s s3 s' _ _ p); [done|done|done| | |exact E].
  - intros x Hx. rewrite elem_of_cons, B3. assert (entry_of s3 x = entry_of s x) as ->; [|tauto].
    transitivity (entry_of s1 x); [unfold entry_of; by rewrite En3|]. unfold s1. by rewrite entry_of_set, decide_False.
  - split; [left|]. done.
Qed.
Lemma clear_ancestors_rest fuel s o s' : clear_ancestors fuel s o = Some s' ->
  nBlockSequenceId s' = nBlockSequenceId s /\ pindexBestHeader s' = pindexBestHeader s /\ warn s' = warn s.
Proof.
  revert s o. induction fuel as [|fuel IH]; intros s [p|] E; cbn [clear_ancestors] in E; try (by injection E as <-); (destruct (blocks s !! p) as [b|]; [|done]); cbn [mbind option_bind] in E; [done|].
  destruct (IH _ _ E) as (-> & -> & ->). by case_match.
Qed.
(** The blocks whose marks are removed because they are below the block: those that were not
    valid, or whose data had not come. *)
Lemma ReconsiderBlock_rest s pindex b s' : Inv s -> indexed s -> blocks s !! pindex = Some b -> ReconsiderBlock s pindex = Some s' ->
  rest_of s s' (fun p => anc (blocks s) p pindex /\ block_IsValid (entry_of s p) BLOCK_VALID_TRANSACTIONS = false).
Proof.
  intros Hi Hx Hp E. unfold ReconsiderBlock in E. rewrite Hp in E. cbn [mbind option_bind] in E.
  destruct (reconsider_loop _ _ _ _) as [s1|] eqn:E1; [|done]. cbn [mbind option_bind] in E. apply clear_ancestors_rest in E as (N & Hh & W).
  apply reconsider_loop_rest in E1 as (R1 & R2 & R3 & R4); [|by apply all_blocks_nodup].
  assert (best_invalid_in s (fun p => anc (blocks s) p pindex /\ block_IsValid (entry_of s p) BLOCK_VALID_TRANSACTIONS = false) <->
    best_invalid_in s (fun p => p ∈ all_blocks s /\ block_IsValid (entry_of s p) BLOCK_VALID_TRANSACTIONS = false /\ GetAncestor (blocks s) p (nHeight b) = Some (Some pindex))) as Hsame.
  { unfold best_invalid_in. split; intros (p & Hb & Hq); exists p; (split; [done|]).
    - destruct Hq as [Ha Hv]. destruct (anc_blocks _ _ _ Ha) as [[c Hc] _]. split; [apply (i_index s Hi); eauto|]. split; [done|].
      destruct (GetAncestor_below s pindex b (i_wf s Hi) Hp p c Hc) as (a & -> & Hiff). f_equal. by apply Hiff.
    - destruct Hq as (Hin & Hv & Ha). split; [|done]. apply (i_index s Hi) in Hin as [c Hc].
      destruct (GetAncestor_below s pindex b (i_wf s Hi) Hp p c Hc) as (a & Ea & Hiff). apply Hiff. congruence. }
  split; [congruence|]. split; [congruence|]. rewrite Hsame, W. done.
Qed.
