(* ===== verification/ChainSelection.v ===== *)
(** What the choice of the active chain guarantees ([src/src/main.cpp]): the assertions of
    [CheckBlockIndex] hold in every state that can be reached, the activation of the best chain
    ends at a block none better than which is known, and what a block declared invalid and one
    reconsidered do; where the code falls short of that. *)
From S2P Require Import Prelude TxChecks Chain Uint256 Pow ChainState ChainInv ChainArrival BestChain BlockInvalid.

(** ** The states that can be reached *)

(** The first block [b] is at [p], with [n] transactions and work [w]; it has been connected. *)
Definition genesis_entry (w n : Z) : entry := mkEntry w n n 139 1.
Definition genesis_state (p : ptr) (b : CBlockIndex) (w n : Z) : chainstate :=
  mkChain {[p := b]} {[p := genesis_entry w n]} {[phashBlock b := p]} (chain_of {[p := b]} p 0) {[p]} [] 2 (Some p)
    (mkWarnings None None None false false).
(** A header that is new, on a block that is known, whose work can be added. *)
Definition fits_header (s : chainstate) (p : ptr) (b : CBlockIndex) (hashPrevBlock : Z) : Prop :=
  blocks s !! p = None /\ mapBlockIndex s !! phashBlock b = None /\ is_u32 (nBits b) /\
  exists q c w, mapBlockIndex s !! hashPrevBlock = Some q /\ blocks s !! q = Some c /\ nHeight c + 1 < 2 ^ 31 - 1 /\
    block_proof b = Some w /\ 0 < w /\ 0 <= nChainWork (entry_of s q) + w < 2 ^ 256.
(** A block whose data is new, that is not known to be invalid nor on such a block, whose
    transactions can be counted. *)
Definition fits_block (s : chainstate) (p : ptr) (nVtx : Z) : Prop :=
  0 < nVtx < 2 ^ 32 /\ flag (entry_of s p) BLOCK_HAVE_DATA = false /\ flag (entry_of s p) BLOCK_FAILED_MASK = false /\
  (exists b q, blocks s !! p = Some b /\ pprev b = Some q /\ flag (entry_of s q) BLOCK_FAILED_MASK = false) /\
  forall x, is_Some (blocks s !! x) -> path_tx (blocks s) (fun y => if decide (y = p) then nVtx else nTx (entry_of s y)) x < 2 ^ 32.
Definition activation_fuel (s : chainstate) : nat := S (size (dom (blocks s))) * S (size (dom (blocks s))).

Section selection.
Context `{NodeLaws}.
Inductive step (s : chainstate) : chainstate -> Prop :=
  | step_header p b hashPrevBlock s' p' : fits_header s p b hashPrevBlock -> AddToBlockIndex s p b hashPrevBlock = Some (s', p') -> step s s'
  | step_block p nVtx s' : fits_block s p nVtx -> ReceivedBlockTransactions s p nVtx = Some s' -> step s s'
  | step_activate st pblock fAlreadyChecked s' st' :
      ActivateBestChain (activation_fuel s) s st pblock fAlreadyChecked = Some (s', st', true) -> step s s'
  | step_invalidate st pindex b q s' st' : blocks s !! pindex = Some b -> pprev b = Some q ->
      InvalidateBlock s st pindex = Some (s', st', true) -> step s s'.
Inductive reachable : chainstate -> Prop :=
  | reach_genesis p b w n : pprev b = None -> nHeight b = 0 -> is_u32 (nBits b) -> 0 < n < 2 ^ 32 -> 0 <= w -> reachable (genesis_state p b w n)
  | reach_step s s' : reachable s -> step s s' -> reachable s'.
End selection.

Lemma genesis_anc p b q x : pprev b = None -> anc {[p := b]} q x -> q = p /\ x = p.
Proof.
  intros Hb Ha. destruct Ha as [q [c Hq]|q c r x Hq Hr _]; apply lookup_singleton_Some in Hq as [<- <-]; [done | congruence].
Qed.
Lemma genesis_consistent p b w n : pprev b = None -> nHeight b = 0 -> is_u32 (nBits b) -> 0 < n < 2 ^ 32 -> consistent (genesis_state p b w n).
Proof.
  intros Hb Hh Hbits Hn. set (s := genesis_state p b w n).
  assert (forall q c, blocks s !! q = Some c -> q = p /\ c = b) as Hq by (intros q c Hc; change (({[p := b]} : heap) !! q = Some c) in Hc; apply lookup_singleton_Some in Hc as [<- <-]; done).
  assert (blocks s !! p = Some b) as Hp by apply lookup_singleton_eq.
  assert (entry_of s p = genesis_entry w n) as He by (unfold entry_of; cbn [entries s genesis_state]; by rewrite lookup_singleton_eq).
  assert (forall q, q ∈ setBlockIndexCandidates s <-> q = p) as Hcand by (intros q; exact (elem_of_singleton (C := gset ptr) q p)).
  assert (wf_heap (blocks s)) as Hwf.
  { intros q c Hc. destruct (Hq q c Hc) as [-> ->]. split; [lia|]. split; [done | lia]. }
  assert (Tip s = Some p) as Ht by (unfold Tip; cbn [chainActive s genesis_state]; rewrite <- Hh; by apply chain_tip).
  assert (Inv s) as Hi.
  { split; [split; try done|split].
    - intros x y bx by' Hx Hy _ _. destruct (Hq x bx Hx), (Hq y by' Hy). congruence.
    - intros q. cbn. split; intros [c Hc]; apply lookup_singleton_Some in Hc as [<- _]; rewrite lookup_singleton_eq; eauto.
    - intros q. unfold all_blocks. cbn [mapBlockIndex s genesis_state blocks]. rewrite map_to_list_singleton. cbn. rewrite list_elem_of_singleton.
      split; [by intros [c Hc]; apply lookup_singleton_Some in Hc as [<- _] | intros ->; rewrite lookup_singleton_eq; eauto].
    - exists p, b. split; [done|]. cbn [chainActive s genesis_state]. by rewrite Hh.
    - intros q [c Hc]. destruct (Hq q c Hc) as [-> ->]. cbv zeta. rewrite He. cbn [nTx genesis_entry]. change (level (genesis_entry w n)) with 3.
      change (bit (genesis_entry w n) 3) with true. split_and!; try lia; split; (done || lia).
    - intros q [c Hc] _. destruct (Hq q c Hc) as [-> ->]. unfold path_tx. rewrite Hp, Hh. change (Z.to_nat 0) with O. cbn [count_tx]. rewrite He. cbn [nTx nChainTx genesis_entry]. lia.
    - intros q [c Hc]. destruct (Hq q c Hc) as [-> ->]. rewrite He. cbn. lia.
    - intros q c r Hc Hr. destruct (Hq q c Hc) as [-> ->]. congruence.
    - intros q [c Hc]. destruct (Hq q c Hc) as [-> ->]. rewrite He. done.
    - intros q c r d Hc Hr. destruct (Hq q c Hc) as [-> ->]. congruence.
    - intros q Hc. apply Hcand in Hc. subst q. split; [eauto|]. rewrite He. cbn. lia.
    - constructor.
    - intros q c Hc. by destruct (Hq q c Hc) as [-> ->].
    - intros q c _ Hc. destruct (Hq q c Hc) as [-> ->]. rewrite He, Hb. cbn. split; [done | lia].
    - by intros q Hx%elem_of_nil.
    - intros q x. split; [by intros Hx%elem_of_nil|]. intros (_ & c & Hc & Hr & _). destruct (Hq x c Hc) as [-> ->]. congruence.
    - constructor. }
  split; [done|]. exists p. split; [done|].
  assert (good s p) as Hg.
  { split; [eauto|]. rewrite He. split; [cbn; lia|]. intros q Ha. apply genesis_anc in Ha as [_ ->]; [by rewrite He | done]. }
  assert (p ∈ setBlockIndexCandidates s) as Hc by (by apply Hcand).
  split; [split; [|split; [done|]]|].
  - split; [done|]. intros q c Ha Hx Hr. destruct (Hq q c Hx) as [-> ->]. congruence.
  - intros q Hgq _. destruct Hgq as [[c Hx] _]. apply Hcand. by destruct (Hq q c Hx) as [-> _].
  - intros q Hx. apply Hcand in Hx. subst q. apply worse_irrefl.
Qed.
Lemma consistent_Mid s : consistent s -> Inv s /\ exists t, Rest s t /\ Mid s t t.
Proof. intros (Hi & t & Hr). split; [done|]. exists t. split; [done|]. by apply Rest_Mid. Qed.
Lemma activation_enough s t : (rounds s t < activation_fuel s)%nat.
Proof. apply rounds_bound. Qed.

Section steps.
Context `{NodeLaws}.
Lemma step_consistent s s' : consistent s -> step s s' -> consistent s'.
Proof.
  intros Hs Hst. destruct (consistent_Mid s Hs) as (Hi & t & Hr & Hm). destruct Hst as [p b k s' p' Hf E|p nVtx s' Hf E|st pblock f s' st' E|st pindex b q s' st' Hp Hq E].
  - destruct Hf as (H1 & H2 & H3 & q & c & w & H4 & H5 & H6 & H7 & H8 & H9).
    destruct (header_consistent s t p q b k w c Hi Hr H1 H2 H4 H5 H6 H3 H7 H8 H9) as (s2 & E2 & Hi2 & Hr2 & _). rewrite E in E2. injection E2 as -> _. split; [done | by exists t].
  - destruct Hf as (H1 & H2 & H3 & (b & q & Hp & Hq & Hfq) & H4). rewrite flag_data in H2.
    destruct (received_consistent s t p q b nVtx Hi Hr Hp Hq H1 H2 H3 Hfq H4) as (s2 & E2 & Hi2 & Hr2 & _). rewrite E in E2. injection E2 as ->. split; [done | by exists t].
  - destruct (ActivateBestChain_sound (activation_fuel s) s st t t pblock f s' st' true Hi Hm E) as (T' & t' & Hi2 & _ & _ & Hb).
    split; [done|]. exists t'. by apply Hb.
  - destruct (InvalidateBlock_spec s t st pindex b q Hi Hr Hp Hq) as (s2 & st2 & ok & E2 & Hi2 & _ & _ & Hok).
    rewrite E in E2. injection E2 as <- <- <-. split; [done|]. destruct (Hok eq_refl) as (t' & Ht' & _). by exists t'.
Qed.
Lemma reachable_consistent s : reachable s -> consistent s.
Proof. induction 1 as [p b w n H1 H2 H3 H4 H5|s s' _ IH Hst]; [by apply genesis_consistent | by apply (step_consistent s)]. Qed.
End steps.

(** ** A concrete chain *)

Module Example_chain.
(** Nothing fails, but for the block at [bad], which is refused. *)
Definition env (bad : ptr) (reject : CValidationState) : NodeEnv := {|
  IsInitialBlockDownload := fun _ => true;
  ReadBlockFromDisk := fun _ => true;
  DisconnectBlock := fun _ _ st => (true, st);
  ConnectBlock := fun s p _ st => if (p =? bad) && (level (entry_of s p) <? 5) then Refuses reject false else Connects;
  FlushStateToDisk := fun _ st => (true, st);
  stake_fields := fun _ _ => (0, 0)
|}.
#[export] Instance quiet : NodeEnv := env 0 CValidationState_new.
#[export] Instance quiet_laws : NodeLaws.
Proof.
  split; [done|]. intros s p f st st' r; cbn.
  intros Hl. replace (level (entry_of s p) <? 5) with false by lia. by rewrite andb_false_r.
Qed.
Lemma quiet_never_corrupt pblock fAlreadyChecked s st : ~ meets_corrupt pblock fAlreadyChecked s st.
Proof.
  intros (s1 & st1 & s2 & st2 & m & t & _ & _ & _ & sx & p & b & f & stx & st' & r & _ & _ & _ & _ & _ & _ & Ec & Ei & _).
  cbn in Ec. destruct (_ && _) in Ec; [|done]. injection Ec as <- _. discriminate Ei.
Qed.
(** The block with hash [k], before it is linked. *)
Definition header (k : Z) : CBlockIndex := mkBlockIndex k None None 0 1 (1600000000 + 60 * k) 504365040 0 0.
Definition s0 : chainstate := genesis_state 1 (header 1) 1048577 1.
Definition add (s : chainstate) (k prev : Z) : chainstate := default s (fst <$> AddToBlockIndex s k (header k) prev).
Definition receive (s : chainstate) (k : Z) : chainstate := default s (ReceivedBlockTransactions s k 1).
Definition result {A B} (s : chainstate) (r : option (chainstate * A * B)) : chainstate := match r with Some (s, _, _) => s | None => s end.
(** Blocks 3 and 4 are on block 2; the data of block 3 does not come. *)
Definition s3 : chainstate := add (add (add s0 2 1) 3 2) 4 2.
Definition s2 : chainstate := receive (add s0 2 1) 2.
Definition s5 : chainstate := receive (receive s3 2) 4.
Definition s6 : chainstate := result s5 (ActivateBestChain (activation_fuel s5) s5 CValidationState_new None false).
Definition s7 : chainstate := result s6 (InvalidateBlock s6 CValidationState_new 2).

Lemma s0_reachable : reachable s0.
Proof. apply reach_genesis; done. Qed.
Lemma add_reachable s k prev : reachable s -> fits_header s k (header k) prev -> reachable (add s k prev).
Proof.
  intros Hs Hf. destruct (consistent_Mid s (reachable_consistent s Hs)) as (Hi & t & Hr & _). pose proof Hf as (H1 & H2 & H3 & q & c & w & H4 & H5 & H6 & H7 & H8 & H9).
  destruct (header_consistent s t k q (header k) prev w c Hi Hr H1 H2 H4 H5 H6 H3 H7 H8 H9) as (s2 & E2 & _). unfold add. rewrite E2. by apply (reach_step s); [|apply (step_header s k (header k) prev s2 k)].
Qed.
Lemma receive_reachable s k : reachable s -> fits_block s k 1 -> reachable (receive s k).
Proof.
  intros Hs Hf. destruct (consistent_Mid s (reachable_consistent s Hs)) as (Hi & t & Hr & _). pose proof Hf as (H1 & H2 & H3 & (b & q & Hp & Hq & Hfq) & H4). rewrite flag_data in H2.
  destruct (received_consistent s t k q b 1 Hi Hr Hp Hq H1 H2 H3 Hfq H4) as (s2 & E2 & _). unfold receive. rewrite E2. by apply (reach_step s); [|apply (step_block s k 1 s2)].
Qed.
Ltac known := eexists _, _, _; split; [vm_compute; reflexivity|]; split; [vm_compute; reflexivity|]; split; [done|]; split; [vm_compute; reflexivity|]; split; [done | by vm_compute].
Lemma s3_reachable : reachable s3.
Proof. unfold s3. do 3 (apply add_reachable; [|split; [done|]; split; [done|]; split; [done|]; known]). apply s0_reachable. Qed.
Lemma all_fit s (f : ptr -> Z) : map_Forall (fun x _ => f x < 2 ^ 32) (blocks s) -> forall x, is_Some (blocks s !! x) -> f x < 2 ^ 32.
Proof. intros Hf x [b Hx]. by apply (Hf x b). Qed.
Ltac arrives := split; [done|]; split; [done|]; split; [done|]; split; [eexists _, _; split; [vm_compute; reflexivity|]; split; [reflexivity | done]|];
  apply all_fit; apply (bool_decide_unpack _); vm_compute; exact I.
Lemma s2_reachable : reachable s2.
Proof. unfold s2. apply receive_reachable; [|arrives]. apply add_reachable; [|split; [done|]; split; [done|]; split; [done|]; known]. apply s0_reachable. Qed.
Lemma s5_reachable : reachable s5.
Proof. unfold s5. do 2 (apply receive_reachable; [|arrives]). apply s3_reachable. Qed.
Lemma s6_reachable : reachable s6.
Proof. apply (reach_step s5); [apply s5_reachable|]. apply (step_activate s5 CValidationState_new None false s6 CValidationState_new). vm_compute. reflexivity. Qed.
Lemma s7_reachable : reachable s7.
Proof.
  apply (reach_step s6); [apply s6_reachable|]. eapply (step_invalidate s6 CValidationState_new 2 _ 1 s7 CValidationState_new); [vm_compute; reflexivity | reflexivity|]. vm_compute. reflexivity.
Qed.
End Example_chain.

(** ** What is guaranteed *)

Section guarantees.
Context `{NodeLaws}.


(** C7: the activation of the best chain, from every state that the operations leave, also when
    it failed before.  Whenever it returns, after however many rounds, the tree of blocks is
    the same and its invariant holds; and if it succeeded the tip is the only candidate, and no
    block all of whose data is there and that has no invalid ancestor has more work, or came
    first with the same.  It returns after at most [(n + 1)^2] rounds for [n] blocks, with one
    exception: after some rounds one ends with the next block on the way to the best candidate
    refused by [ConnectBlock] as invalid but possibly because its data was corrupted.  Such a
    block is not marked, and is tried again in the next round ([corrupt_block_loops] has a
    state in which that goes on for ever).  [NodeLaws] says what is relied on: a flush that
    fails does not make the block invalid, and a block that was connected once is not refused
    as invalid later. *)
Theorem best_chain_found (s : chainstate) (T t : ptr) (st : CValidationState) (pblock : option Z) (fAlreadyChecked : bool) (Hi : Inv s) (Hm : Mid s T t) :
  (forall fuel s' st' ok, ActivateBestChain fuel s st pblock fAlreadyChecked = Some (s', st', ok) ->
    exists T' t', Inv s' /\ Mid s' T' t' /\ blocks s' = blocks s /\ mapBlockIndex s' = mapBlockIndex s /\
      (ok = true -> consistent s' /\ Tip s' = Some t' /\ setBlockIndexCandidates s' = {[t']} /\ forall p, good s' p -> worse s' t' p = false)) /\
  ((exists s' st' ok, ActivateBestChain (activation_fuel s) s st pblock fAlreadyChecked = Some (s', st', ok)) \/ meets_corrupt pblock fAlreadyChecked s st).
Proof.
  split.
  - intros fuel s' st' ok E. destruct (ActivateBestChain_sound fuel s st T t pblock fAlreadyChecked s' st' ok Hi Hm E) as (T' & t' & Hi' & Hf & Hm' & Hb).
    exists T', t'. split; [done|]. split; [done|]. split; [apply (r_blocks _ _ Hf)|]. split; [apply (r_index _ _ Hf)|].
    intros Eo. destruct (Hb Eo) as (Hr & Hc & Hg). split; [split; [done | by exists t']|]. split; [apply Hm' | done].
  - destruct (ActivateBestChain_returns (activation_fuel s) s st T t pblock fAlreadyChecked Hi Hm (activation_enough s t)) as [[[[s' st'] ok] E]|Hc]; [left; by exists s', st', ok | by right].
Qed.

(** C26: [InvalidateBlock] ends; when the blocks could be disconnected, the tip is the block
    before it if it was in the active chain and the same as before if not; the block and its
    descendants are no longer usable and the other blocks are as usable as before, and the
    state is consistent again. *)
Theorem InvalidateBlock_correct (s : chainstate) (t : ptr) (st : CValidationState) (pindex : ptr) (b : CBlockIndex) (q : ptr)
    (Hi : Inv s) (Hr : Rest s t) (Hp : blocks s !! pindex = Some b) (Hq : pprev b = Some q) :
  exists s' st' ok, InvalidateBlock s st pindex = Some (s', st', ok) /\ Inv s' /\ (forall x, good s' x <-> good s x /\ ~ anc (blocks s) x pindex) /\
    (ok = true -> consistent s' /\ exists t', Tip s' = Some t' /\ (anc (blocks s) t pindex -> t' = q) /\ (~ anc (blocks s) t pindex -> t' = t)).
Proof.
  destruct (InvalidateBlock_spec s t st pindex b q Hi Hr Hp Hq) as (s' & st' & ok & E & Hi' & _ & Hg & Hok).
  exists s', st', ok. split; [done|]. split; [done|]. split; [done|]. intros Eo. destruct (Hok Eo) as (t' & Ht' & Ha). split; [split; [done | by exists t']|].
  exists t'. split; [apply Ht' | done].
Qed.
End guarantees.

(** C27: [ReconsiderBlock] ends and does what it announces: the marks of failure are removed from
    the block, its descendants and its ancestors, and from no other block; the descendants
    that have become usable are candidates again if they are better than the tip; and
    [pindexBestInvalid] is reset exactly when it was the block or a descendant that was not
    valid (an ancestor it names stays there, though its mark is gone).  Nothing else
    changes: not the tree, its index, the active chain, the blocks that wait for data, the best
    header, the count of arrivals nor the other warnings (which entries are to be written to
    disk, [setDirtyBlockIndex], is not in the model). *)
Theorem ReconsiderBlock_correct (s : chainstate) (t pindex : ptr) (b : CBlockIndex) (Hi : Inv s) (Hx : indexed s) (Ht : Tip s = Some t) (Hp : blocks s !! pindex = Some b) :
  exists s', ReconsiderBlock s pindex = Some s' /\
    (blocks s' = blocks s /\ mapBlockIndex s' = mapBlockIndex s /\ chainActive s' = chainActive s /\ mapBlocksUnlinked s' = mapBlocksUnlinked s /\
      nBlockSequenceId s' = nBlockSequenceId s /\ pindexBestHeader s' = pindexBestHeader s) /\
    (forall x, anc (blocks s) x pindex \/ anc (blocks s) pindex x -> flag (entry_of s' x) BLOCK_FAILED_MASK = false /\ entry_of s' x = clear_failed (entry_of s x)) /\
    (forall x, ~ (anc (blocks s) x pindex \/ anc (blocks s) pindex x) -> entry_of s' x = entry_of s x) /\
    (forall x, x ∈ setBlockIndexCandidates s' <-> x ∈ setBlockIndexCandidates s \/ (anc (blocks s) x pindex /\ admitted s t x)) /\
    let reset := best_invalid_in s (fun p => anc (blocks s) p pindex /\ block_IsValid (entry_of s p) BLOCK_VALID_TRANSACTIONS = false) in
    (reset -> warn s' = no_invalid (warn s)) /\ (~ reset -> warn s' = warn s).
Proof.
  destruct (ReconsiderBlock_spec s t pindex b Hi Hx Ht Hp) as (s' & E & [C1 C2 C3 C4 C5 C6] & Hc). exists s'. split; [done|].
  destruct (ReconsiderBlock_rest s pindex b s' Hi Hx Hp E) as (R1 & R2 & R3). split_and!; try done.
  - intros x Hxx. rewrite (C5 x Hxx). split; [|done]. by rewrite flag_failed, !bit_clear, !andb_false_r.
Qed.

(** When it is called for a descendant of the block that was declared invalid, the state is
    no longer consistent: a sibling of that descendant keeps its mark although none of its
    ancestors is invalid, the ancestor that is usable again is not a candidate, and the
    activation of the best chain ends at a block that has less work. *)
Theorem ReconsiderBlock_strands : let _ := Example_chain.quiet in let _ := Example_chain.quiet_laws in
  exists s s' s'' st b, reachable s /\ ReconsiderBlock s 3 = Some s' /\ blocks s' !! 4 = Some b /\ ~ check_block s' 4 b /\
    ActivateBestChain (activation_fuel s') s' st None false = Some (s'', st, true) /\ Tip s'' = Some 1 /\
    nChainTx (entry_of s'' 2) <> 0 /\ flag (entry_of s'' 2) BLOCK_FAILED_MASK = false /\ flag (entry_of s'' 1) BLOCK_FAILED_MASK = false /\ worse s'' 1 2 = true.
Proof.
  intros q ql. set (s' := default Example_chain.s7 (ReconsiderBlock Example_chain.s7 3)).
  exists Example_chain.s7, s', (Example_chain.result s' (ActivateBestChain (activation_fuel s') s' CValidationState_new None false)), CValidationState_new, (default (Example_chain.header 4) (blocks s' !! 4)).
  split; [apply Example_chain.s7_reachable|]. split; [vm_compute; reflexivity|]. split; [vm_compute; reflexivity|]. split; [|split; [vm_compute; reflexivity|]; split_and!; vm_compute; done].
  intros (t & _ & _ & _ & _ & _ & _ & _ & _ & _ & _ & _ & Hf & _). enough (flag (entry_of s' 4) BLOCK_FAILED_MASK = false) as Hx by (vm_compute in Hx; discriminate Hx).
  apply Hf. intros (x & Ha & Hx). pose proof (proj2 (anc_blocks _ _ _ Ha)) as [c Hc].
  assert (map_Forall (fun x _ => flag (entry_of s' x) BLOCK_FAILED_VALID = false) (blocks s')) as Hall by (apply (bool_decide_unpack _); vm_compute; exact I).
  specialize (Hall x c Hc). cbn beta in Hall. congruence.
Qed.

Lemma stuck `{NodeEnv} s t m b st : Tip s = Some t -> m <> t -> FindMostWorkChain (S (size (setBlockIndexCandidates s))) s = Some (s, Some m) -> blocks s !! m = Some b ->
  ActivateBestChainStep s st m false false = Some (s, st, true) -> forall fuel, ActivateBestChain fuel s st None false = None.
Proof.
  intros Ht Hn Ef Hb Es. induction fuel as [|fuel IH]; [done|]. cbn [ActivateBestChain]. rewrite Ef. cbn [mbind option_bind]. rewrite Ht, bool_decide_eq_false_2 by congruence.
  rewrite Hb. cbn [mbind option_bind]. rewrite bool_decide_eq_false_2 by done. rewrite Es. cbn [mbind option_bind negb]. by rewrite Ht, bool_decide_eq_false_2 by congruence.
Qed.
(** A block that [ConnectBlock] refuses as possibly corrupt is not marked and remains a
    candidate, and the activation of the best chain tries to connect it for ever. *)
Theorem corrupt_block_loops : let _ := Example_chain.env 2 (mkState MODE_INVALID 100 "bad-txnmrklroot" REJECT_INVALID true "") in
  exists s t, consistent s /\ Tip s = Some t /\ forall fuel, ActivateBestChain fuel s CValidationState_new None false = None.
Proof.
  intros env. exists Example_chain.s2, 1.
  split; [exact (@reachable_consistent Example_chain.quiet Example_chain.quiet_laws _ Example_chain.s2_reachable)|]. split; [vm_compute; reflexivity|].
  eapply (stuck Example_chain.s2 1 2); [vm_compute; reflexivity | done | vm_compute; reflexivity..].
Qed.

Lemma best_chain_found_witness : let _ := Example_chain.quiet in let _ := Example_chain.quiet_laws in
  ActivateBestChain (activation_fuel Example_chain.s5) Example_chain.s5 CValidationState_new None false = Some (Example_chain.s6, CValidationState_new, true) /\
  consistent Example_chain.s6 /\ Tip Example_chain.s6 = Some 4.
Proof.
  intros e l. destruct (consistent_Mid _ (reachable_consistent _ Example_chain.s5_reachable)) as (Hi & t & _ & Hm).
  assert (ActivateBestChain (activation_fuel Example_chain.s5) Example_chain.s5 CValidationState_new None false = Some (Example_chain.s6, CValidationState_new, true)) as E by (vm_compute; reflexivity).
  split; [exact E|]. destruct (best_chain_found Example_chain.s5 t t CValidationState_new None false Hi Hm) as [Hs _].
  destruct (Hs _ _ _ _ E) as (T' & t' & _ & _ & _ & _ & Hok). split; [exact (proj1 (Hok eq_refl)) | vm_compute; reflexivity].
Defined.
Lemma InvalidateBlock_correct_witness : let _ := Example_chain.quiet in let _ := Example_chain.quiet_laws in
  exists s' st' ok, InvalidateBlock Example_chain.s6 CValidationState_new 2 = Some (s', st', ok) /\ Inv s'.
Proof.
  intros e l. destruct (consistent_Mid _ (reachable_consistent _ Example_chain.s6_reachable)) as (Hi & t & Hr & _).
  assert (exists b, blocks Example_chain.s6 !! 2 = Some b /\ pprev b = Some 1) as (b & Hb & Hq) by (eexists; split; [vm_compute; reflexivity | reflexivity]).
  destruct (InvalidateBlock_correct Example_chain.s6 t CValidationState_new 2 b 1 Hi Hr Hb Hq) as (s' & st' & ok & E & Hi' & _). exists s', st', ok. split; [exact E | exact Hi'].
Defined.
Lemma ReconsiderBlock_correct_witness : let _ := Example_chain.quiet in exists s', ReconsiderBlock Example_chain.s7 2 = Some s' /\ entry_of s' 4 = clear_failed (entry_of Example_chain.s7 4).
Proof.
  intros e. pose proof Example_chain.quiet_laws as l. destruct (consistent_Mid _ (reachable_consistent _ Example_chain.s7_reachable)) as (Hi & t & Hr & _).
  assert (exists b, blocks Example_chain.s7 !! 2 = Some b) as (b & Hb) by (eexists; vm_compute; reflexivity).
  assert (indexed Example_chain.s7) as Hx.
  { intros k p. revert k p. change (map_Forall (fun k p => exists b, blocks Example_chain.s7 !! p = Some b /\ phashBlock b = k) (mapBlockIndex Example_chain.s7)).
    apply map_Forall_to_list. vm_compute map_to_list. repeat constructor; eexists; split; vm_compute; reflexivity. }
  destruct (ReconsiderBlock_correct Example_chain.s7 t 2 b Hi Hx (proj1 Hr) Hb) as (s' & E & _ & Hin & _). exists s'. split; [done|]. apply Hin. left.
  assert (exists c, blocks Example_chain.s7 !! 4 = Some c /\ pprev c = Some 2) as (c & Hc & Hq) by (eexists; split; [vm_compute; reflexivity | reflexivity]).
  apply (anc_step _ 4 c 2); [done | done | apply anc_refl; eauto].
Defined.
