(* ===== verification/Block.v ===== *)
(** Blocks ([src/src/primitives/block.h], [block.cpp]): the header with its two forms, the wire
    format, the hash, the kind of a block, its signature and its cost; the locator. *)
From S2P Require Import Prelude Serialize Stream Sha2 Hashers Script Merkle Transaction SigHash Standard.

(** ** Data *)

Record CBlockHeader := mkHeader {
  hVersion : Z;
  hashPrevBlock : hash256;
  hashMerkleRoot : hash256;
  hTime : Z;
  hBits : Z;
  hNonce : Z;
  nAccumulatorCheckpoint : hash256
}.
Definition Header_CURRENT_VERSION : Z := 4.
Definition Header_null : CBlockHeader := mkHeader Header_CURRENT_VERSION hash_zero hash_zero 0 0 0 hash_zero.
Definition Header_IsNull (h : CBlockHeader) : bool := hBits h =? 0.
Definition GetBlockTime (h : CBlockHeader) : Z := hTime h.
(** What is kept in memory only ([payee], [vMerkleTree]) is left out. *)
Record CBlock := mkBlock { header :> CBlockHeader; vtx : list CTransaction; vchBlockSig : valtype }.
Definition CBlock_null : CBlock := mkBlock Header_null [] [].
Definition CBlock_of (h : CBlockHeader) : CBlock := mkBlock h [] [].
Definition GetBlockHeader (b : CBlock) : CBlockHeader :=
  mkHeader (hVersion b) (hashPrevBlock b) (hashMerkleRoot b) (hTime b) (hBits b) (hNonce b) (nAccumulatorCheckpoint b).

Definition IsProofOfStake (b : CBlock) : bool := match vtx b with _ :: t :: _ => IsCoinStake t | _ => false end.
Definition IsProofOfWork (b : CBlock) : bool := negb (IsProofOfStake b).
Definition GetProofOfStake (b : CBlock) : option (COutPoint * Z) :=
  if IsProofOfStake b then
    t ← vtx b !! 1%nat; i ← head (vin (tx t)); Some (prevout i, hTime b)
  else Some (COutPoint_null, 0).

(** ** Wire format *)

(** From version 4 on the checkpoint of the accumulators is part of the header. *)
Definition Serialize_Header (h : CBlockHeader) : list Z :=
  write_int 4 (hVersion h) ++ hashPrevBlock h ++ hashMerkleRoot h ++ write_int 4 (hTime h) ++ write_int 4 (hBits h) ++ write_int 4 (hNonce h) ++
  (if hVersion h >? 3 then nAccumulatorCheckpoint h else []).
(** Read into an object whose checkpoint is [checkpoint]. *)
Definition Unserialize_Header (checkpoint : hash256) : reader CBlockHeader :=
  version ← read_int32; prev ← read_bytes 32; root ← read_bytes 32; time ← read_uint 4; bits ← read_uint 4; nonce ← read_uint 4;
  (if version >? 3 then c ← read_bytes 32; mret (mkHeader version prev root time bits nonce c) else mret (mkHeader version prev root time bits nonce checkpoint)).

Section wire.
Context (allow : bool).
(** The serializer of the transactions may pad their witnesses in place; [None] is its
    assertion. *)
Definition Serialize_Block (b : CBlock) : option (list Z * CBlock) :=
  ws ← mapM (fun t : CTransaction => '(bytes, t') ← SerializeTransaction allow t; Some (bytes : list Z, mkCTx (cached_hash t) t')) (vtx b);
  let b' := mkBlock b (map snd ws) (vchBlockSig b) in
  Some (Serialize_Header b ++ (WriteCompactSize (Z.of_nat (length (vtx b))) ++ concat (map fst ws)) ++
    (if IsProofOfStake b' then Serialize (vchBlockSig b) else []), b').
#[local] Instance tx_codec : Codec CTransaction := {|
  Serialize := fun t : CTransaction => tx_bytes allow t;
  Unserialize := Unserialize_CTransaction allow;
  GetSerializeSize := fun t : CTransaction => Z.of_nat (length (tx_bytes allow t))
|}.
(** Read into a new object. *)
Definition Unserialize_Block : reader CBlock :=
  h ← Unserialize_Header hash_zero;
  txs ← (Unserialize_vector : reader (list CTransaction));
  (if IsProofOfStake (mkBlock h txs []) then s ← (Unserialize : reader (list Z)); mret (mkBlock h txs s) else mret (mkBlock h txs [])).
(** [GetSerializeSize]: the bytes that [CSizeComputer] counts. *)
Definition block_bytes (b : CBlock) : list Z := from_option fst [] (Serialize_Block b).
End wire.
Definition GetBlockSize (nVersion : Z) (b : CBlock) : Z := Z.of_nat (length (block_bytes (fAllowWitness nVersion) b)).
Definition GetBlockCost (b : CBlock) : Z :=
  i64 (GetBlockSize (Z.lor PROTOCOL_VERSION SERIALIZE_TRANSACTION_NO_WITNESS) b * (WITNESS_SCALE_FACTOR - 1) + GetBlockSize PROTOCOL_VERSION b).

(** ** The hash *)

Section hash.
(** [HashQuark], of the sph library. *)
Context (HashQuark : list Z -> hash256).
(** The memory from [nVersion] to [nNonce], or to the end of the checkpoint: the fields are
    contiguous. *)
Definition header_memory (h : CBlockHeader) : list Z :=
  write_int 4 (hVersion h) ++ hashPrevBlock h ++ hashMerkleRoot h ++ write_int 4 (hTime h) ++ write_int 4 (hBits h) ++ write_int 4 (hNonce h).
Definition GetHash_Header (h : CBlockHeader) : hash256 :=
  if hVersion h <? 4 then HashQuark (header_memory h) else Hash [header_memory h ++ nAccumulatorCheckpoint h].

(** ** The signature of a block *)

(** The keys of the wallet by their identifier, and their signatures; [Verify] is as in
    [SigHash]. *)
Context (Key : Type) (GetKey : valtype -> option Key) (Sign : Key -> hash256 -> option valtype) (Verify : valtype -> hash256 -> valtype -> bool).

(** [CKeyID(uint160(v))]: the constructor throws when the size is wrong. *)
Definition KeyID_of (v : valtype) : option valtype := if size v =? 20 then Some v else None.
Definition sign_with (b : CBlock) (id : valtype) : bool * CBlock :=
  match GetKey id with
  | None => (false, b)
  | Some key => match Sign key (GetHash_Header b) with Some sig => (true, mkBlock b (vtx b) sig) | None => (false, b) end
  end.
(** [whichType] is not initialised; [Solver] sets it before it is read, except where it fails. *)
Fixpoint sign_outputs (b : CBlock) (l : list CTxOut) (whichType : txnouttype) : option (bool * CBlock) :=
  match l with
  | [] => Some (false, b)
  | o :: l =>
      '(ok, whichType, vSolutions) ← Solver whichType (scriptPubKey o);
      if negb ok then sign_outputs b l whichType
      else if bool_decide (whichType = TX_PUBKEY) then k ← head vSolutions; id ← KeyID_of k; Some (sign_with b id)
      else sign_outputs b l whichType
  end.
Definition SignBlock (whichType : txnouttype) (b : CBlock) : option (bool * CBlock) :=
  if negb (IsProofOfStake b) then t ← head (vtx b); sign_outputs b (vout (tx t)) whichType
  else
    t ← vtx b !! 1%nat; o ← vout (tx t) !! 1%nat;
    '(ok, whichType, vSolutions) ← Solver whichType (scriptPubKey o);
    if negb ok then Some (false, b)
    else if bool_decide (whichType = TX_PUBKEYHASH) then k ← head vSolutions; id ← KeyID_of k; Some (sign_with b id)
    else if bool_decide (whichType = TX_PUBKEY) then
      k ← head vSolutions;
      match GetID (CPubKey_Set k) with CKeyID id => Some (sign_with b id) | _ => None end
    else Some (false, b).
Definition verify_with (b : CBlock) (k : valtype) : bool :=
  match CPubKey_Set k with
  | Some pubkey => CPubKey_IsValid (Some pubkey) && negb (bool_decide (vchBlockSig b = [])) && Verify pubkey (GetHash_Header b) (vchBlockSig b)
  | None => false
  end.
Definition CheckBlockSignature (whichType : txnouttype) (b : CBlock) : option bool :=
  if IsProofOfWork b then Some (bool_decide (vchBlockSig b = [])) else
  t ← vtx b !! 1%nat; o ← vout (tx t) !! 1%nat;
  '(ok, whichType, vSolutions) ← Solver whichType (scriptPubKey o);
  if negb ok then Some false
  else if bool_decide (whichType = TX_PUBKEY) || bool_decide (whichType = TX_PUBKEYHASH) then k ← head vSolutions; Some (verify_with b k)
  else Some false.
End hash.

(** ** The locator *)

Definition SER_GETHASH : Z := 4.
Record CBlockLocator := mkLocator { vHave : list hash256 }.
#[local] Instance hash_codec : Codec hash256 := {| Serialize := fun h => h; Unserialize := read_bytes 32; GetSerializeSize := fun h => Z.of_nat (length h) |}.
Definition Serialize_Locator (nType nVersion : Z) (l : CBlockLocator) : list Z :=
  (if Z.land nType SER_GETHASH =? 0 then write_int 4 nVersion else []) ++ Serialize_vector (vHave l).
Definition Unserialize_Locator (nType : Z) : reader CBlockLocator :=
  (if Z.land nType SER_GETHASH =? 0 then _ ← read_int32; mret tt else mret tt);;
  v ← (Unserialize_vector : reader (list hash256)); mret (mkLocator v).
Definition Locator_IsNull (l : CBlockLocator) : bool := bool_decide (vHave l = []).

(** ** What can be read back *)

Definition hash_ok (h : hash256) : Prop := Z.of_nat (length h) = 32 /\ Forall is_byte h.
Definition checkpoint_ok (h : CBlockHeader) : Prop := if hVersion h >? 3 then hash_ok (nAccumulatorCheckpoint h) else nAccumulatorCheckpoint h = hash_zero.
Definition header_ok (h : CBlockHeader) : Prop :=
  - 2 ^ 31 <= hVersion h < 2 ^ 31 /\ hash_ok (hashPrevBlock h) /\ hash_ok (hashMerkleRoot h) /\ is_u32 (hTime h) /\ is_u32 (hBits h) /\ is_u32 (hNonce h) /\ checkpoint_ok h.
Lemma codes_Header : codes (Unserialize_Header hash_zero) Serialize_Header header_ok.
Proof.
  unfold Unserialize_Header, header_ok, checkpoint_ok. eapply (codes_field _ _ hVersion _ _ _ (fun h => hash_ok (hashPrevBlock h) /\ hash_ok (hashMerkleRoot h) /\ is_u32 (hTime h) /\ is_u32 (hBits h) /\ is_u32 (hNonce h) /\ checkpoint_ok h)); [apply codes_int32| |done|done]. intros v Hv.
  eapply (codes_field _ _ hashPrevBlock _ _ _ (fun h => hVersion h = v /\ hash_ok (hashMerkleRoot h) /\ is_u32 (hTime h) /\ is_u32 (hBits h) /\ is_u32 (hNonce h) /\ checkpoint_ok h)); [apply (codes_bytes 32); lia| |intros c; unfold hash_ok; tauto|done]. intros p Hp.
  eapply (codes_field _ _ hashMerkleRoot _ _ _ (fun h => (hVersion h = v /\ hashPrevBlock h = p) /\ is_u32 (hTime h) /\ is_u32 (hBits h) /\ is_u32 (hNonce h) /\ checkpoint_ok h)); [apply (codes_bytes 32); lia| |intros c; unfold hash_ok; tauto|done]. intros r Hr.
  eapply (codes_field _ _ hTime _ _ _ (fun h => (hVersion h = v /\ hashPrevBlock h = p /\ hashMerkleRoot h = r) /\ is_u32 (hBits h) /\ is_u32 (hNonce h) /\ checkpoint_ok h)); [apply (codes_uint 4)| |intros c; unfold is_u32; cbn; tauto|done]. intros t Ht.
  eapply (codes_field _ _ hBits _ _ _ (fun h => (hVersion h = v /\ hashPrevBlock h = p /\ hashMerkleRoot h = r /\ hTime h = t) /\ is_u32 (hNonce h) /\ checkpoint_ok h)); [apply (codes_uint 4)| |intros c; unfold is_u32; cbn; tauto|done]. intros d Hd.
  eapply (codes_field _ _ hNonce _ _ _ (fun h => (hVersion h = v /\ hashPrevBlock h = p /\ hashMerkleRoot h = r /\ hTime h = t /\ hBits h = d) /\ checkpoint_ok h)); [apply (codes_uint 4)| |intros c; unfold is_u32; cbn; tauto|done]. intros n Hn.
  destruct (v >? 3) eqn:E.
  - eapply codes_weaken; [apply (codes_map _ (mkHeader v p r t d n) nAccumulatorCheckpoint _ _
      (fun h => hash_ok (nAccumulatorCheckpoint h) /\ hVersion h = v /\ hashPrevBlock h = p /\ hashMerkleRoot h = r /\ hTime h = t /\ hBits h = d /\ hNonce h = n) (codes_bytes 32 ltac:(lia)))| |].
    + intros h. unfold hash_ok. destruct h. cbn. split; [intros (? & ? & ? & ? & ? & ? & ?); by subst | intros [? [= ? ? ? ? ? ?]]; by subst].
    + done.
    + intros h. unfold checkpoint_ok. split; [|intros (? & ? & ? & ? & ? & ? & ?); subst; rewrite E; tauto]. intros (((? & ? & ? & ? & ?) & Hc) & ?). subst. rewrite E in Hc. tauto.
    + intros h (? & ? & ? & ? & ? & ? & ?). subst. rewrite E. done.
  - eapply codes_weaken; [apply (codes_ret (mkHeader v p r t d n hash_zero))| |].
    + intros h. unfold checkpoint_ok. destruct h. cbn. split; [intros (((? & ? & ? & ? & ?) & Hc) & ?); subst; rewrite E in Hc; by subst | intros [= ? ? ? ? ? ? ?]; subst; by rewrite E].
    + intros h ->. cbn. by rewrite E.
Qed.

Section block_laws.
Context (allow : bool).
#[local] Instance tx_here : Codec CTransaction := tx_codec allow.
Definition tx_ok (t : CTransaction) : Prop := read_ok allow t /\ cached_hash t = Transaction.GetHash t.
Lemma codes_CTransaction : codes (Unserialize_CTransaction allow) (fun t : CTransaction => tx_bytes allow t) tx_ok.
Proof.
  eapply codes_weaken; [apply (codes_map _ CTransaction_of tx _ _ tx_ok (conj (read_back allow) (read_writes allow)))| |done].
  - intros [h t]. unfold tx_ok, CTransaction_of. cbn [tx cached_hash]. generalize (Transaction.GetHash t). intros x.
    split; [intros [H1 ->]; split; [exact H1 | reflexivity] | intros [H1 [= ->]]; split; [exact H1 | reflexivity]].
  - done.
  - done.
Qed.
#[local] Instance tx_laws : CodecLaws CTransaction tx_ok.
Proof. split; [apply codes_CTransaction | apply codes_CTransaction | done]. Qed.
(** The blocks that are read. *)
Definition block_ok (b : CBlock) : Prop :=
  header_ok b /\ vector_ok (ok := tx_ok) (vtx b) /\ if IsProofOfStake b then bytes_ok (vchBlockSig b) else vchBlockSig b = [].
Definition block_wire (b : CBlock) : list Z :=
  Serialize_Header b ++ Serialize_vector (vtx b) ++ (if IsProofOfStake b then Serialize_bytes (vchBlockSig b) else []).
Lemma codes_Block : codes (Unserialize_Block allow) block_wire block_ok.
Proof.
  unfold Unserialize_Block. eapply (codes_field _ _ header _ _ _ (fun b => vector_ok (ok := tx_ok) (vtx b) /\ if IsProofOfStake b then bytes_ok (vchBlockSig b) else vchBlockSig b = []));
    [apply codes_Header| |done|done]. intros h _.
  eapply (codes_field _ _ vtx _ _ _ (fun b => header b = h /\ if IsProofOfStake b then bytes_ok (vchBlockSig b) else vchBlockSig b = []));
    [apply (codes_vector (ok := tx_ok))| |intros c; tauto|done]. intros l _.
  assert (forall c, vtx c = l -> IsProofOfStake c = IsProofOfStake (mkBlock h l [])) as Hpos by (intros c Hc; unfold IsProofOfStake; by rewrite Hc).
  destruct (IsProofOfStake (mkBlock h l [])) eqn:E.
  - eapply codes_weaken; [apply (codes_map _ (mkBlock h l) vchBlockSig _ _ (fun b => bytes_ok (vchBlockSig b) /\ header b = h /\ vtx b = l) codes_vector_bytes)| |].
    + intros [h' l' s]. cbn [header vtx vchBlockSig]. split; [intros (? & -> & ->); done | intros [? [= -> ->]]; done].
    + done.
    + intros c. split; [intros [[Hh Hs] Hl]; rewrite Hpos in Hs by done; done | intros (Hs & Hh & Hl); by rewrite Hpos by done].
    + intros c (_ & Hh & Hl). by rewrite Hpos by done.
  - eapply codes_weaken; [apply (codes_ret (mkBlock h l []))| |].
    + intros c. split; [intros [[Hh Hs] Hl]; rewrite Hpos in Hs by done; destruct c; cbn in *; by subst | intros ->; by rewrite E].
    + intros a ->. by rewrite E.
Qed.
Lemma Serialize_Block_ok b : block_ok b -> Serialize_Block allow b = Some (block_wire b, b).
Proof.
  intros (_ & [_ Hl] & _). unfold Serialize_Block. destruct b as [h l s]. cbn [header vtx vchBlockSig] in *.
  assert (mapM (fun t : CTransaction => '(bytes, t') ← SerializeTransaction allow t; Some (bytes : list Z, mkCTx (cached_hash t) t')) l =
    Some (map (fun t : CTransaction => (tx_bytes allow t, t)) l)) as ->.
  { induction Hl as [|t l [Ht _] _ IH]; [done|]. cbn. destruct t as [c t]. cbn in *. apply Serialize_read_ok in Ht as E. unfold tx_bytes. rewrite E. cbn [mbind option_bind]. cbn in IH. rewrite IH. done. }
  cbn [mbind option_bind]. rewrite !map_map. cbn [fst snd]. rewrite map_id. done.
Qed.
End block_laws.

(** ** Properties *)

Lemma codes_injective {A} (m : reader A) enc ok a b : codes m enc ok -> ok a -> ok b -> enc a = enc b -> a = b.
Proof.
  intros [H _] Ha Hb E. pose proof (H a [] Ha) as H1. pose proof (H b [] Hb) as H2. rewrite E in H1. congruence.
Qed.
Lemma header_wire h : Serialize_Header h = if hVersion h >? 3 then header_memory h ++ nAccumulatorCheckpoint h else header_memory h.
Proof. unfold Serialize_Header, header_memory. destruct (hVersion h >? 3); rewrite <- ?app_assoc; [done|]. by rewrite !app_nil_r. Qed.

(** C29: the wire format of blocks, with and without witnesses.  What is written of a block that
    can be read is read back, whatever follows; whatever bytes are read as a block are what
    that block is written as, so no block has two encodings; the hash of a header of version
    4 or more commits to all its fields, since it is that of the encoding, which determines
    them; a header of an older version keeps its hash and its encoding whatever its checkpoint
    is. *)
Theorem block_roundtrip (HashQuark : list Z -> hash256) (allow : bool) :
  (forall b rest, block_ok allow b -> exists w, Serialize_Block allow b = Some (w, b) /\ Unserialize_Block allow (w ++ rest) = inr (b, rest)) /\
  (forall s b rest, Forall is_byte s -> Unserialize_Block allow s = inr (b, rest) -> block_ok allow b /\ exists w, Serialize_Block allow b = Some (w, b) /\ s = w ++ rest) /\
  (forall h1 h2, header_ok h1 -> header_ok h2 -> Serialize_Header h1 = Serialize_Header h2 -> h1 = h2) /\
  (forall h, 4 <= hVersion h -> GetHash_Header HashQuark h = Hash [Serialize_Header h]) /\
  (forall h c, hVersion h < 4 -> let h' := mkHeader (hVersion h) (hashPrevBlock h) (hashMerkleRoot h) (hTime h) (hBits h) (hNonce h) c in
    GetHash_Header HashQuark h' = GetHash_Header HashQuark h /\ Serialize_Header h' = Serialize_Header h).
Proof.
  destruct (codes_Block allow) as [H1 H2]. split; [|split; [|split; [|split]]].
  - intros b rest Hb. exists (block_wire allow b). split; [by apply Serialize_Block_ok | by apply H1].
  - intros s b rest Hs Hr. apply H2 in Hr as [Hb E]; [|done]. split; [done|]. exists (block_wire allow b). split; [by apply Serialize_Block_ok | done].
  - intros h1 h2 Ho1 Ho2. exact (codes_injective _ _ _ _ _ codes_Header Ho1 Ho2).
  - intros h Hv. unfold GetHash_Header. rewrite header_wire. replace (hVersion h <? 4) with false by lia. by replace (hVersion h >? 3) with true by lia.
  - intros h c Hv h'. unfold GetHash_Header, Serialize_Header. cbn [h' hVersion]. replace (hVersion h <? 4) with true by lia. by replace (hVersion h >? 3) with false by lia.
Qed.

Lemma KeyID_solved h t : length h = 20%nat -> Solver t (push_data [OP_DUP; OP_HASH160] h ++ [OP_EQUALVERIFY; OP_CHECKSIG]) = Some (true, TX_PUBKEYHASH, [h]).
Proof. intros E. split_list h E. vm_compute. reflexivity. Qed.
Lemma GetLen_set h rest : size (h :: rest) = GetLen h -> CPubKey_Set (h :: rest) = Some (h :: rest) /\ CPubKey_IsValid (Some (h :: rest)) = true /\ GetID (Some (h :: rest)) = CKeyID (Hash160 (h :: rest)).
Proof.
  intros Hs. assert (0 < GetLen h) by (rewrite <- Hs; unfold size; cbn [length]; lia). unfold CPubKey_Set, CPubKey_IsValid, GetID, CPubKey_size. rewrite Hs, Z.eqb_refl.
  replace (GetLen h =? 0) with false by lia. split; [done|]. split; [lia|]. cbn [default]. rewrite <- Hs. unfold size. by rewrite Nat2Z.id, firstn_all.
Qed.

Section signatures.
Context (HashQuark : list Z -> hash256) (Key : Type) (GetKey : valtype -> option Key) (Sign : Key -> hash256 -> option valtype) (Verify : valtype -> hash256 -> valtype -> bool).
(** The wallet has the key of an identifier, and what it signs is verified with that key. *)
Context (sign_verifies : forall k key h sig, GetKey (Hash160 k) = Some key -> Sign key h = Some sig -> sig <> [] /\ Verify k h sig = true).
Local Abbreviation SignB := (SignBlock HashQuark Key GetKey Sign).
Local Abbreviation CheckB := (CheckBlockSignature HashQuark Verify).

(** C30: a coinstake that pays to a public key is signed so that [CheckBlockSignature] accepts
    the block.  One that pays to the hash of a key is signed by [SignBlock] as well, but
    [CheckBlockSignature] takes the hash for the key, and refuses the block whatever its
    signature is.  A proof-of-work block with a payment to a public key cannot be signed: the
    conversion of the key to an identifier throws; without a signature it is accepted. *)
Theorem block_signatures (t : txnouttype) (b : CBlock) (ct : CTransaction) (o : CTxOut) (Hb : IsProofOfStake b = true) (Hct : vtx b !! 1%nat = Some ct) (Ho : vout (tx ct) !! 1%nat = Some o) :
  (forall h rest b', size (h :: rest) = GetLen h -> is_byte h -> scriptPubKey o = GetScriptForRawPubKey (h :: rest) ->
    SignB t b = Some (true, b') -> header b' = header b /\ vtx b' = vtx b /\ CheckB t b' = Some true) /\
  (forall h, length h = 20%nat -> GetScriptForDestination (CKeyID h) = Some (scriptPubKey o) ->
    (forall key sig, GetKey h = Some key -> Sign key (GetHash_Header HashQuark b) = Some sig -> SignB t b = Some (true, mkBlock b (vtx b) sig)) /\
    forall sig, CheckB t (mkBlock b (vtx b) sig) = Some false) /\
  (forall c cb h rest l, IsProofOfStake c = false -> vtx c = cb :: l -> size (h :: rest) = GetLen h -> is_byte h ->
    (exists o outs, vout (tx cb) = o :: outs /\ scriptPubKey o = GetScriptForRawPubKey (h :: rest)) -> SignB t c = None /\ CheckB t (mkBlock c (vtx c) []) = Some true).
Proof.
  split; [|split].
  - intros h rest b' Hs Hh Hscript. unfold SignBlock. rewrite Hb, Hct. cbn [negb mbind option_bind]. rewrite Ho. cbn [mbind option_bind].
    rewrite Hscript, RawPubKey_solved by done. cbn [mbind option_bind negb]. rewrite bool_decide_eq_false_2, bool_decide_eq_true_2 by done. cbn [head mbind option_bind].
    destruct (GetLen_set h rest Hs) as (-> & Hv & ->). unfold sign_with. destruct (GetKey (Hash160 (h :: rest))) as [key|] eqn:Ek; [|done].
    destruct (Sign key (GetHash_Header HashQuark b)) as [sig|] eqn:Es; [|done]. intros [= <-]. split; [done|]. split; [done|].
    destruct (sign_verifies (h :: rest) key _ sig Ek Es) as [Hn Hver].
    unfold CheckBlockSignature, IsProofOfWork. replace (IsProofOfStake (mkBlock b (vtx b) sig)) with true by (symmetry; exact Hb). cbn [negb vtx]. rewrite Hct. cbn [mbind option_bind].
    rewrite Ho. cbn [mbind option_bind]. rewrite Hscript, RawPubKey_solved by done. cbn [mbind option_bind negb]. rewrite bool_decide_eq_true_2 by done. cbn [orb head mbind option_bind].
    unfold verify_with. destruct (GetLen_set h rest Hs) as (-> & -> & _). cbn [vchBlockSig header]. rewrite bool_decide_eq_false_2 by done. by rewrite Hver.
  - intros h Hl [= Hscript]. symmetry in Hscript. split.
    + intros key sig Hk Hsig. unfold SignBlock. rewrite Hb, Hct. cbn [negb mbind option_bind]. rewrite Ho. cbn [mbind option_bind].
      rewrite Hscript, KeyID_solved by done. cbn [mbind option_bind negb]. rewrite bool_decide_eq_true_2 by done. cbn [head mbind option_bind].
      unfold KeyID_of, size. rewrite Hl. change (Z.of_nat 20 =? 20) with true. cbn [mbind option_bind]. unfold sign_with. by rewrite Hk, Hsig.
    + intros sig. unfold CheckBlockSignature, IsProofOfWork. replace (IsProofOfStake (mkBlock b (vtx b) sig)) with true by (symmetry; exact Hb). cbn [negb vtx]. rewrite Hct. cbn [mbind option_bind].
      rewrite Ho. cbn [mbind option_bind]. rewrite Hscript, KeyID_solved by done. cbn [mbind option_bind negb]. rewrite (bool_decide_eq_true_2 (TX_PUBKEYHASH = TX_PUBKEYHASH)), orb_true_r by done. cbn [head mbind option_bind].
      unfold verify_with, CPubKey_Set. destruct h as [|x h]; [done|]. unfold size. rewrite Hl. unfold GetLen. destruct (_ || _); [done|]. by destruct (_ || _).
  - intros c cb h rest l Hc Hl Hs Hh (x & outs & Hout & Hscript). split.
    + unfold SignBlock. rewrite Hc, Hl. cbn [negb head mbind option_bind]. rewrite Hout. cbn [sign_outputs]. rewrite Hscript, RawPubKey_solved by done. cbn [mbind option_bind negb].
      rewrite bool_decide_eq_true_2 by done. cbn [head mbind option_bind]. unfold KeyID_of.
      assert (0 < size (h :: rest)) by (unfold size; cbn [length]; lia). unfold GetLen in Hs. replace (size (h :: rest) =? 20) with false; [done|]. symmetry. apply Z.eqb_neq.
      destruct (_ || _); [lia|]. destruct (_ || _); lia.
    + unfold CheckBlockSignature, IsProofOfWork. replace (IsProofOfStake (mkBlock c (vtx c) [])) with false by (symmetry; exact Hc). done.
Qed.
End signatures.

(** A coinstake that pays to a public key. *)
Definition staking : CTransaction :=
  CTransaction_of (mkTx 1 [mkTxIn (mkOutPoint hash_zero 0) [] SEQUENCE_FINAL []] [mkTxOut 0 [] (-10); mkTxOut 1 (GetScriptForRawPubKey (2 :: replicate 32 7)) (-10)] [] 0).
Lemma block_signatures_witness : exists b b', SignBlock (fun l => l) unit (fun _ => Some tt) (fun _ _ => Some [1]) TX_NONSTANDARD b = Some (true, b') /\
  CheckBlockSignature (fun l => l) (fun _ _ sig => bool_decide (sig = [1])) TX_NONSTANDARD b' = Some true.
Proof.
  set (b := mkBlock Header_null [CTransaction_default; staking] []). exists b, (mkBlock b (vtx b) [1]).
  assert (SignBlock (fun l => l) unit (fun _ => Some tt) (fun _ _ => Some [1]) TX_NONSTANDARD b = Some (true, mkBlock b (vtx b) [1])) as Hs by reflexivity. split; [exact Hs|].
  refine (proj2 (proj2 (proj1 (block_signatures (fun l => l) unit (fun _ => Some tt) (fun _ _ => Some [1]) (fun _ _ sig => bool_decide (sig = [1])) _
    TX_NONSTANDARD b staking (mkTxOut 1 (GetScriptForRawPubKey (2 :: replicate 32 7)) (-10)) _ _ _) 2 (replicate 32 7) _ _ _ _ Hs))); try reflexivity.
  - intros k key h sig _ [= <-]. split; [discriminate|reflexivity].
  - unfold is_byte. lia.
Defined.
