(* ===== verification/BlockChecks.v ===== *)
(** The checks of whole blocks ([src/src/main.cpp]: [CheckBlockHeader], [CheckBlock], [CheckWork],
    [ContextualCheckBlockHeader], [ContextualCheckBlock], the commitment to witnesses;
    [src/src/checkpoints.cpp]; [BlockWitnessMerkleRoot] of [src/src/consensus/merkle.cpp]). *)
From Stdlib Require Import Floats.SpecFloat.
From S2P Require Import Prelude Serialize Uint256 Stream Sha2 Hashers Script Merkle Transaction Subsidy TxChecks Connect Chain Pow Block.

(** ** What the checks ask of the rest of the node *)

(** The parameters of the chain, besides those of [TxChecks] and [Pow]. *)
Record BlockParams := mkBlockParams {
  txParams : TxChecks.CChainParams;
  powParams : Pow.CChainParams;
  HashGenesisBlock : Z;
  MaxReorganizationDepth : Z;
  EnforceBlockUpgradeMajority : Z;
  RejectBlockOutdatedMajority : Z;
  ToCheckBlockUpgradeMajority : Z;
  Zerocoin_StartHeight : Z;
  Zerocoin_HeaderVersion : Z;
  mapCheckpoints : list (Z * Z)
}.
(** The clock, the sporks, the locks of SwiftTX, the masternode lists, the kernel of stakes, the
    serial number of a zerocoin spend ([None]: it throws), and what libraries compute. *)
Class BlockEnv := {
  HashQuark : list Z -> hash256;
  GetAdjustedTime : Z;
  SwiftTX_filtering : bool;
  SegwitActivation : Z;
  mapLockedInputs : gmap COutPoint hash256;
  InitialBlockDownload : bool;
  IsBlockPayeeValid : CBlock -> Z -> bool;
  CheckProofOfStake : CBlock -> bool;
  getCoinSerialNumber : CTxIn -> option Z;
  maxreorg : option Z;
  CheckpointsEnabled : bool;
  fVerifySignature : bool;
  junk : list hash256
}.


(** A hash as a number. *)
Definition uint256_of (h : hash256) : Z := of_le_bytes h.
Definition limbs_of (h : hash256) : list Z := map (fun i => of_le_bytes (take 4 (drop (4 * i) h))) (seq 0 8).

(** ** Steps of a check *)

(** A check that can also fail an assertion, throw or read out of range: [None]. *)
Definition bcheck (A : Type) : Type := CValidationState -> option (option A * CValidationState).
#[export] Instance bcheck_ret : MRet bcheck := fun A a s => Some (Some a, s).
#[export] Instance bcheck_bind : MBind bcheck := fun A B f m s =>
  match m s with Some (Some a, s') => f a s' | Some (None, s') => Some (None, s') | None => None end.
Definition lift_check {A} (m : check A) : bcheck A := fun s => Some (m s).
Definition total_of {A} (o : option A) : bcheck A := fun s => match o with Some a => Some (Some a, s) | None => None end.
(** [if (cond) return false;] *)
Definition stop_if (cond : bool) : bcheck unit := fun s => Some (if cond then None else Some tt, s).
(** [if (cond) return state.DoS(level, false, code, reason, corruption);] *)
Definition dos_if (cond : bool) (level code : Z) (reason : string) (corruption : bool) : bcheck unit := fun s =>
  Some (if cond then (None, snd (DoS level false code reason corruption "" s)) else (Some tt, s)).
(** [if (!m) return state.DoS(level, false, code, reason, corruption);] *)
Definition or_dos (m : bcheck unit) (level code : Z) (reason : string) (corruption : bool) : bcheck unit := fun s =>
  match m s with
  | Some (None, s') => Some (None, snd (DoS level false code reason corruption "" s'))
  | r => r
  end.
Fixpoint for_each {A} (f : A -> bcheck unit) (l : list A) : bcheck unit :=
  match l with [] => mret tt | a :: l => f a;; for_each f l end.
(** The result is what the function returns. *)
Definition returns (m : bcheck unit) (s : CValidationState) : option (bool * CValidationState) :=
  match m s with Some (r, s') => Some (match r with Some _ => true | None => false end, s') | None => None end.

(** ** [ConvertBitsToDouble] and checkpoints *)

Fixpoint shift_up (n : nat) (dDiff : spec_float) : spec_float := match n with O => dDiff | S n => shift_up n (dmul dDiff (double_of 256)) end.
Fixpoint shift_down (n : nat) (dDiff : spec_float) : spec_float := match n with O => dDiff | S n => shift_down n (SFdiv 53 1024 dDiff (double_of 256)) end.
Definition ConvertBitsToDouble (nBits : Z) : spec_float :=
  let nShift := Z.land (Z.shiftr nBits 24) 0xff in
  let dDiff := SFdiv 53 1024 (double_of 0x0000ffff) (double_of (Z.land nBits 0x00ffffff)) in
  shift_down (Z.to_nat (nShift - 29)) (shift_up (Z.to_nat (29 - nShift)) dDiff).

Section checks.
Context `{BlockEnv} `{ZerocoinChecks} (params : BlockParams).
Definition BlockHash (b : CBlockHeader) : Z := uint256_of (GetHash_Header HashQuark b).

(** [Checkpoints::CheckBlock]. *)
Definition Checkpoint_CheckBlock (nHeight hash : Z) (fMatchesCheckpoint : bool) : bool :=
  if negb CheckpointsEnabled then true else
  match List.find (fun c => fst c =? nHeight) (mapCheckpoints params) with
  | None => negb fMatchesCheckpoint
  | Some c => hash =? snd c
  end.
(** [mapCheckpoints] is sorted by height; [None] is [rbegin] of an empty map. *)
Definition GetTotalBlocksEstimate : option Z :=
  if negb CheckpointsEnabled then Some 0 else c ← head (rev (mapCheckpoints params)); Some (fst c).
Fixpoint last_known (index : gmap Z ptr) (l : list (Z * Z)) : option ptr :=
  match l with
  | [] => None
  | (_, hash) :: l => match index !! hash with Some p => Some p | None => last_known index l end
  end.
Definition GetLastCheckpoint (index : gmap Z ptr) : option ptr :=
  if negb CheckpointsEnabled then None else last_known index (rev (mapCheckpoints params)).

(** ** Checks without context *)

Definition CheckBlockHeader (b : CBlockHeader) (fCheckPOW : bool) : bcheck unit :=
  dos_if (fCheckPOW && negb (CheckProofOfWork (powParams params) (limbs_of (GetHash_Header HashQuark b)) (hBits b))) 50 REJECT_INVALID "high-hash" false.
Definition check_merkle (b : CBlock) (fCheckMerkleRoot : bool) : bcheck unit :=
  if fCheckMerkleRoot then
    let '(_, hashMerkleRoot2, mutated) := BuildMerkleTree (map cached_hash (vtx b)) in
    dos_if (negb (hash_eqb (hashMerkleRoot b) hashMerkleRoot2)) 100 REJECT_INVALID "bad-txnmrklroot" true;;
    dos_if mutated 100 REJECT_INVALID "bad-txns-duplicate" true
  else mret tt.
Definition block_size (b : CBlock) : Z := u32 (GetBlockSize (Z.lor PROTOCOL_VERSION SERIALIZE_TRANSACTION_NO_WITNESS) b).
Definition size_limits (b : CBlock) : bcheck unit :=
  dos_if (bool_decide (vtx b = []) || (Z.of_nat (length (vtx b)) >? MAX_BLOCK_BASE_SIZE) || (block_size b >? MAX_BLOCK_BASE_SIZE)) 100 REJECT_INVALID "bad-blk-length" false.
Definition check_coinbase (b : CBlock) : bcheck unit :=
  dos_if (match vtx b with [] => true | t :: _ => negb (IsCoinBase t) end) 100 REJECT_INVALID "bad-cb-missing" false;;
  dos_if (existsb (fun t : CTransaction => IsCoinBase t) (tail (vtx b))) 100 REJECT_INVALID "bad-cb-multiple" false.
Definition check_coinstake (b : CBlock) : bcheck unit :=
  if IsProofOfStake b then
    dos_if (match vtx b with t :: _ => match vout (tx t) with [o] => negb (TxOut_IsEmpty o) | _ => true end | [] => true end) 100 0 "" false;;
    dos_if (match vtx b with _ :: t :: _ => negb (IsCoinStake t) | _ => true end) 100 0 "" false;;
    dos_if (existsb (fun t : CTransaction => IsCoinStake t) (drop 2 (vtx b))) 100 0 "" false
  else mret tt.
(** [mapRejectedBlocks], which is written here, only delays messages and is left out. *)
Definition check_locks (b : CBlock) : bcheck unit :=
  if SwiftTX_filtering then
    dos_if (existsb (fun t : CTransaction => negb (IsCoinBase t) &&
      existsb (fun i => match mapLockedInputs !! prevout i with Some h => negb (hash_eqb h (cached_hash t)) | None => false end) (vin (tx t))) (vtx b))
      0 REJECT_INVALID "conflicting-tx-ix" false
  else mret tt.
(** The height of the block, 0 when it is not known. *)
Definition height_on (h : heap) (index : gmap Z ptr) (tip : ptr) (b : CBlock) : option Z :=
  bt ← h !! tip;
  if phashBlock bt =? uint256_of (hashPrevBlock b) then Some (i32 (nHeight bt + 1))
  else match index !! uint256_of (hashPrevBlock b) with Some q => bq ← h !! q; Some (i32 (nHeight bq + 1)) | None => Some 0 end.
Definition check_payee (h : heap) (index : gmap Z ptr) (active : CChain) (b : CBlock) : bcheck unit :=
  match chain_Tip active with
  | None => mret tt
  | Some tip =>
      nHeight ← total_of (height_on h index tip b);
      dos_if (negb (nHeight =? 0) && negb InitialBlockDownload && negb (IsBlockPayeeValid b nHeight)) 0 REJECT_INVALID "bad-cb-payee" false
  end.
Definition block_sigops (b : CBlock) : Z := foldl (fun n (t : CTransaction) => u32 (n + GetLegacySigOpCount t)) 0 (vtx b).
(** [fCheckPOW] and [fCheckSig] are not read. *)
Definition CheckBlock (h : heap) (index : gmap Z ptr) (active : CChain) (b : CBlock) (fCheckPOW fCheckMerkleRoot fCheckSig : bool) : bcheck unit :=
  or_dos (CheckBlockHeader b (IsProofOfWork b)) 100 REJECT_INVALID "bad-header" true;;
  dos_if (GetBlockTime b >? GetAdjustedTime + (if IsProofOfStake b then 180 else 7200)) 0 REJECT_INVALID "time-too-new" false;;
  check_merkle b fCheckMerkleRoot;;
  size_limits b;;
  check_coinbase b;;
  check_coinstake b;;
  check_locks b;;
  check_payee h index active b;;
  dos_if (u32 (block_sigops b * WITNESS_SCALE_FACTOR) >? MAX_BLOCK_SIGOPS_COST) 100 REJECT_INVALID "bad-blk-sigops" true.

(** ** Checks against the tree *)

(** [abs(n1 - n2) > n1 * 0.5] *)
Definition far_off (n1 n2 : spec_float) : bool := SFltb (dmul n1 (lit 5 1)) (SFabs (SFsub 53 1024 n1 n2)).
(** [mapProofOfStake], a cache of the hashes of proofs, is left out. *)
Definition CheckWork (h : heap) (b : CBlock) (pindexPrev : option ptr) : option bool :=
  match pindexPrev with
  | None => Some false
  | Some p =>
      bp ← h !! p;
      nBitsRequired ← GetNextWorkRequired (powParams params) h pindexPrev;
      if IsProofOfWork b && (nHeight bp + 1 <=? 68589) then Some (negb (far_off (ConvertBitsToDouble (hBits b)) (ConvertBitsToDouble nBitsRequired)))
      else if negb (hBits b =? nBitsRequired) then Some false
      else if IsProofOfStake b then Some (CheckProofOfStake b)
      else Some true
  end.
Definition nMaxReorgDepth : Z := default (MaxReorganizationDepth params) maxreorg.
Definition ContextualCheckBlockHeader (h : heap) (index : gmap Z ptr) (active : CChain) (b : CBlockHeader) (pindexPrev : option ptr) : bcheck unit :=
  let hash := BlockHash b in
  if hash =? HashGenesisBlock params then mret tt else
  p ← total_of pindexPrev; bp ← total_of (h !! p);
  let nHeight := i32 (Chain.nHeight bp + 1) in
  dos_if (i32 (chain_Height active - nHeight) >=? nMaxReorgDepth) 1 0 "" false;;
  median ← total_of (GetMedianTimePast h p);
  dos_if (GetBlockTime b <=? median) 0 REJECT_INVALID "time-too-old" false;;
  dos_if (negb (Checkpoint_CheckBlock nHeight hash false)) 100 REJECT_CHECKPOINT "checkpoint mismatch" false;;
  below ← total_of (match GetLastCheckpoint index with Some c => bc ← h !! c; Some (nHeight <? Chain.nHeight bc) | None => Some false end);
  dos_if below 0 0 "" false;;
  old ← total_of (if hVersion b <? 2 then IsSuperMajority h (ToCheckBlockUpgradeMajority params) 2 (Some p) (RejectBlockOutdatedMajority params) else Some false);
  dos_if old 0 REJECT_OBSOLETE "bad-version" false;;
  old ← total_of (if hVersion b <? 3 then IsSuperMajority h (ToCheckBlockUpgradeMajority params) 3 (Some p) (RejectBlockOutdatedMajority params) else Some false);
  dos_if old 0 REJECT_OBSOLETE "bad-version" false.

(** ** The commitment to the witnesses *)

Definition commitment_header : list Z := [OP_RETURN; 0x24; 0xaa; 0x21; 0xa9; 0xed].
Definition is_commitment (o : CTxOut) : bool := (size (scriptPubKey o) >=? 38) && bool_decide (take 6 (scriptPubKey o) = commitment_header).
Fixpoint commitment_loop (l : list CTxOut) (o commitpos : Z) : Z :=
  match l with [] => commitpos | x :: l => commitment_loop l (o + 1) (if is_commitment x then o else commitpos) end.
(** The commitment is looked for in the second transaction, which is read whether it exists
    or not. *)
Definition GetWitnessCommitmentIndex (b : CBlock) : option Z := t ← vtx b !! 1%nat; Some (commitment_loop (vout (tx t)) 0 (-1)).
Definition set_witness (b : CBlock) (k : nat) (w : CTxWitness) : CBlock :=
  mkBlock b (alter (fun t : CTransaction => mkCTx (cached_hash t) (mkTx (Transaction.nVersion t) (vin t) (vout t) w (nLockTime t))) k (vtx b)) (vchBlockSig b).
Definition nonce : valtype := replicate 32 0.
Definition UpdateUncommittedBlockStructures (b : CBlock) (bp : CBlockIndex) : option CBlock :=
  commitpos ← GetWitnessCommitmentIndex b; t ← vtx b !! 1%nat;
  Some (if negb (commitpos =? -1) && (SegwitActivation <? Chain.nTime bp) && Witness_IsEmpty (wit (tx t)) then set_witness b 1 [[nonce]] else b).
Definition BlockWitnessMerkleRoot (b : CBlock) : option (hash256 * bool) :=
  match vtx b with
  | [] => None
  | _ :: l => Some (ComputeMerkleRoot junk (hash_zero :: map (fun t : CTransaction => GetWitnessHash t) l))
  end.
Definition add_output (b : CBlock) (o : CTxOut) : CBlock :=
  mkBlock b (alter (fun t : CTransaction => CTransaction_of (mkTx (Transaction.nVersion t) (vin t) (vout t ++ [o]) (wit t) (nLockTime t))) 1%nat (vtx b)) (vchBlockSig b).
Definition commitment_output (h : hash256) : CTxOut := mkTxOut 0 (commitment_header ++ h) (-10).
Definition GenerateCoinbaseCommitment (b : CBlock) (bp : CBlockIndex) : option (list Z * CBlock) :=
  commitpos ← GetWitnessCommitmentIndex b;
  let fHaveWitness := existsb (fun t : CTransaction => negb (Witness_IsNull (wit (tx t)))) (tail (vtx b)) in
  '(commitment, b) ← (if fHaveWitness && (SegwitActivation <? Chain.nTime bp) && (commitpos =? -1) then
      '(witnessroot, _) ← BlockWitnessMerkleRoot b;
      let out := commitment_output (Hash [witnessroot; nonce]) in
      Some (scriptPubKey out, add_output b out)
    else Some ([], b));
  b ← UpdateUncommittedBlockStructures b bp; Some (commitment, b).

(** The part of [ContextualCheckBlock] on witnesses: whether the block commits to them. *)
Definition check_commitment (b : CBlock) : bcheck bool :=
  commitpos ← total_of (GetWitnessCommitmentIndex b);
  if commitpos =? -1 then mret false else
  '(hashWitness, _) ← total_of (BlockWitnessMerkleRoot b);
  t ← total_of (vtx b !! 1%nat);
  match wit (tx t) with
  | [[n]] =>
      dos_if (negb (Nat.eqb (length n) 32)) 100 REJECT_INVALID "bad-witness-nonce-size" true;;
      o ← total_of (vout (tx t) !! Z.to_nat commitpos);
      dos_if (negb (hash_eqb (Hash [hashWitness; n]) (take 32 (drop 6 (scriptPubKey o))))) 100 REJECT_INVALID "bad-witness-merkle-match" true;;
      mret true
  | _ => dos_if true 100 REJECT_INVALID "bad-witness-nonce-size" true;; mret true
  end.
Definition check_witnesses (b : CBlock) (bp : option CBlockIndex) : bcheck unit :=
  fHaveWitness ← match bp with Some bp => if SegwitActivation <? Chain.nTime bp then check_commitment b else mret false | None => mret false end;
  if fHaveWitness : bool then mret tt
  else dos_if (existsb (fun t : CTransaction => negb (Witness_IsNull (wit (tx t)))) (vtx b)) 100 REJECT_INVALID "unexpected-witness" true.

(** ** [ContextualCheckBlock] *)

Definition MAX_BLOCK_COST : Z := 4000000.
(** The serial numbers that were spent in the block are a list. *)
Fixpoint serials_loop (l : list CTxIn) (vBlockSerials : list Z) : bcheck (list Z) :=
  match l with
  | [] => mret vBlockSerials
  | i :: l =>
      if IsZerocoinSpend (scriptSig i) then
        serial ← total_of (getCoinSerialNumber i);
        dos_if (bool_decide (serial ∈ vBlockSerials)) 100 0 "" false;;
        serials_loop l (vBlockSerials ++ [serial])
      else serials_loop l vBlockSerials
  end.
Fixpoint transactions_loop (tipHeight nTime : Z) (l : list CTransaction) (vBlockSerials : list Z) : bcheck unit :=
  match l with
  | [] => mret tt
  | t :: l =>
      lift_check (CheckTransaction (txParams params) fVerifySignature tipHeight t true (i32 (tipHeight + 1) >=? Zerocoin_StartHeight params) (SegwitActivation <? nTime));;
      s ← (if Tx_IsZerocoinSpend t then serials_loop (vin (tx t)) vBlockSerials else mret vBlockSerials);
      transactions_loop tipHeight nTime l s
  end.
Definition check_version (active : CChain) (b : CBlock) (nHeight : Z) : bcheck unit :=
  if nHeight >? Zerocoin_StartHeight params then
    dos_if (hVersion b <? Zerocoin_HeaderVersion params) 50 REJECT_INVALID "block-version" false;;
    transactions_loop (chain_Height active) (hTime b) (vtx b) []
  else dos_if (hVersion b >=? Zerocoin_HeaderVersion params) 50 REJECT_INVALID "block-version" false.
Definition check_height (h : heap) (b : CBlock) (pindexPrev : option ptr) (nHeight : Z) : bcheck unit :=
  majority ← total_of (if hVersion b >=? 2 then IsSuperMajority h (ToCheckBlockUpgradeMajority params) 2 pindexPrev (EnforceBlockUpgradeMajority params) else Some false);
  if majority : bool then
    let expect := push_int64 [] nHeight in
    t ← total_of (head (vtx b)); i ← total_of (head (vin (tx t)));
    dos_if (negb (bool_decide (take (length expect) (scriptSig i) = expect))) 100 REJECT_INVALID "bad-cb-height" false
  else mret tt.
Definition ContextualCheckBlock (h : heap) (active : CChain) (b : CBlock) (pindexPrev : option ptr) : bcheck unit :=
  bp ← total_of (match pindexPrev with Some p => Some <$> (h !! p) | None => Some None end);
  let nHeight := match bp with Some bp => i32 (Chain.nHeight bp + 1) | None => 0 end in
  check_version active b nHeight;;
  dos_if (existsb (fun t : CTransaction => negb (IsFinalTx (chain_Height active) GetAdjustedTime t nHeight (GetBlockTime b))) (vtx b)) 10 REJECT_INVALID "bad-txns-nonfinal" false;;
  check_height h b pindexPrev nHeight;;
  check_witnesses b bp;;
  dos_if (GetBlockCost b >? MAX_BLOCK_COST) 100 REJECT_INVALID "bad-blk-cost" false.
End checks.

(** ** What a check decides *)

(** From a state without errors, [m] goes on without changing it when [P] holds, and otherwise
    leaves it invalid, as a possible corruption when [C] holds. *)
Definition bdecides (m : bcheck unit) (P C : Prop) : Prop := forall s, mode s = MODE_VALID ->
  P /\ m s = Some (Some tt, s) \/ ~ P /\ exists s', m s = Some (None, s') /\ mode s' = MODE_INVALID /\ (corruptionPossible s' = true <-> C).
Lemma bdecides_iff m P Q C D : bdecides m P C -> (P <-> Q) -> (~ P -> C <-> D) -> bdecides m Q D.
Proof.
  intros Hm HPQ HCD s Hs. destruct (Hm s Hs) as [[Hp E]|[Hp (s' & E & Hi & Hc)]]; [left; tauto|]. right. split; [tauto|]. exists s'. split; [done|]. split; [done|]. rewrite Hc. auto.
Qed.
Lemma bdecides_seq m1 m2 P1 P2 C1 C2 : bdecides m1 P1 C1 -> (P1 -> bdecides m2 P2 C2) -> bdecides (m1;; m2) (P1 /\ P2) (~ P1 /\ C1 \/ P1 /\ C2).
Proof.
  intros H1 H2 s Hs. unfold mbind, bcheck_bind. destruct (H1 s Hs) as [[Hp ->]|[Hp (s' & -> & Hi & Hc)]].
  - destruct (H2 Hp s Hs) as [[Hp2 E]|[Hp2 (s' & E & Hi & Hc)]]; [left; tauto|]. right. split; [tauto|]. exists s'. split; [done|]. split; [done|]. tauto.
  - right. split; [tauto|]. exists s'. split; [done|]. split; [done|]. tauto.
Qed.
Lemma bdecides_ret C : bdecides (mret tt) True C.
Proof. intros s _. by left. Qed.
Lemma DoS_valid level code reason c s : mode s = MODE_VALID -> let s' := snd (DoS level false code reason c "" s) in mode s' = MODE_INVALID /\ corruptionPossible s' = c.
Proof. intros Hs. unfold DoS. by rewrite Hs. Qed.
Lemma bdecides_dos cond level code reason c : bdecides (dos_if cond level code reason c) (cond = false) (c = true).
Proof.
  intros s Hs. unfold dos_if. destruct cond; [right|by left]. split; [done|]. eexists. split; [reflexivity|]. destruct (DoS_valid level code reason c s Hs) as [-> ->]. done.
Qed.
Lemma bdecides_or_dos m P C level code reason c : bdecides m P C -> bdecides (or_dos m level code reason c) P (c = true).
Proof.
  intros Hm s Hs. unfold or_dos. destruct (Hm s Hs) as [[Hp ->]|[Hp (s' & -> & Hi & _)]]; [by left|]. right. split; [done|]. eexists. split; [reflexivity|].
  unfold DoS. by rewrite Hi.
Qed.
Lemma bdecides_if (b : bool) m P C : (b = true -> bdecides m P C) -> bdecides (if b then m else mret tt) (b = true -> P) C.
Proof.
  intros Hm. destruct b; [|apply (bdecides_iff _ True _ C); [apply bdecides_ret | done | tauto]]. apply (bdecides_iff _ P _ C); [by apply Hm | tauto | tauto].
Qed.
Lemma existsb_none {A} (f : A -> bool) l : existsb f l = false <-> Forall (fun x => f x = false) l.
Proof. rewrite <- not_true_iff_false, existsb_exists, List.Forall_forall. split; [intros Hn x Hx; apply not_true_iff_false; eauto | intros Hf (x & Hx & E); rewrite (Hf x Hx) in E; done]. Qed.

(** The rejection is no sign of corruption. *)
Ltac not_corrupt := intros _; split; [intuition discriminate | done].

Section decided.
Context `{BlockEnv} `{ZerocoinChecks} (params : BlockParams).

Definition pow_ok (b : CBlock) : Prop := IsProofOfWork b = true -> CheckProofOfWork (powParams params) (limbs_of (GetHash_Header HashQuark b)) (hBits b) = true.
Definition time_ok (b : CBlock) : Prop := GetBlockTime b <= GetAdjustedTime + (if IsProofOfStake b then 180 else 7200).
(** The root is that of the transactions, and no level of the tree ends in a repeated pair. *)
Definition merkle_ok (b : CBlock) : Prop := let txids := map cached_hash (vtx b) in
  hashMerkleRoot b = merkle_root txids /\ Forall (fun l => tail_dup l = false) (removelast (levels (length txids) txids)).
Definition size_ok (b : CBlock) : Prop := vtx b <> [] /\ Z.of_nat (length (vtx b)) <= MAX_BLOCK_BASE_SIZE /\ block_size b <= MAX_BLOCK_BASE_SIZE.
Definition coinbase_ok (b : CBlock) : Prop := exists t l, vtx b = t :: l /\ IsCoinBase t = true /\ Forall (fun t : CTransaction => IsCoinBase t = false) l.
Definition coinstake_ok (b : CBlock) : Prop := IsProofOfStake b = true -> exists cb ct l o, vtx b = cb :: ct :: l /\ vout (tx cb) = [o] /\ TxOut_IsEmpty o = true /\
  IsCoinStake ct = true /\ Forall (fun t : CTransaction => IsCoinStake t = false) l.
Definition locks_ok (b : CBlock) : Prop := SwiftTX_filtering = true -> forall t i h, In t (vtx b) -> IsCoinBase (tx t) = false -> In i (vin (tx t)) ->
  mapLockedInputs !! prevout i = Some h -> h = cached_hash t.
Definition payee_ok (h : heap) (index : gmap Z ptr) (active : CChain) (b : CBlock) : Prop :=
  forall tip n, chain_Tip active = Some tip -> height_on h index tip b = Some n -> n <> 0 -> InitialBlockDownload = false -> IsBlockPayeeValid b n = true.
Definition sigops_ok (b : CBlock) : Prop := u32 (block_sigops b * WITNESS_SCALE_FACTOR) <= MAX_BLOCK_SIGOPS_COST.

Lemma merkle_decided b : bdecides (check_merkle b true) (merkle_ok b) True.
Proof.
  unfold check_merkle, merkle_ok. rewrite BuildMerkleTree_spec. eapply bdecides_iff; [apply bdecides_seq; [apply bdecides_dos | intros _; apply bdecides_dos]| |intros _; split; [done|]; intros _; destruct (negb _); [by left | by right]].
  rewrite existsb_none. unfold hash_eqb. rewrite negb_false_iff, bool_decide_eq_true. tauto.
Qed.
Lemma size_decided b : bdecides (size_limits b) (size_ok b) False.
Proof.
  unfold size_limits, size_ok. eapply bdecides_iff; [apply bdecides_dos| |done]. rewrite !orb_false_iff, bool_decide_eq_false, !Z.gtb_ltb, !Z.ltb_ge. tauto.
Qed.
Lemma coinbase_decided b : bdecides (check_coinbase b) (coinbase_ok b) False.
Proof.
  unfold check_coinbase, coinbase_ok. eapply bdecides_iff; [apply bdecides_seq; [apply bdecides_dos | intros _; apply bdecides_dos]| |not_corrupt].
  rewrite existsb_none. destruct (vtx b) as [|t l]; [split; [by intros [? _] | intros (? & ? & E & _); discriminate E]|]. cbn [tail]. rewrite negb_false_iff. split; [intros [? ?]; eauto | intros (? & ? & [= <- <-] & ?); done].
Qed.
Lemma coinstake_decided b : bdecides (check_coinstake b) (coinstake_ok b) False.
Proof.
  unfold check_coinstake, coinstake_ok. apply bdecides_if. intros Hb.
  eapply bdecides_iff; [apply bdecides_seq; [apply bdecides_dos | intros _; apply bdecides_seq; [apply bdecides_dos | intros _; apply bdecides_dos]]| |not_corrupt].
  rewrite existsb_none. unfold IsProofOfStake in Hb. destruct (vtx b) as [|cb [|ct l]]; [done..|]. cbn [drop]. split.
  - intros (H1 & _ & Hl). destruct (vout (tx cb)) as [|o [|]] eqn:Eo; [done| |done]. apply negb_false_iff in H1. by exists cb, ct, l, o.
  - intros (? & ? & ? & o & [= <- <- <-] & -> & Ho & Hc & Hl). by rewrite Ho, Hc.
Qed.
Lemma locks_decided b : bdecides (check_locks b) (locks_ok b) False.
Proof.
  unfold check_locks, locks_ok. apply bdecides_if. intros _. eapply bdecides_iff; [apply bdecides_dos| |done].
  rewrite existsb_none, List.Forall_forall. split.
  - intros Ha t i h Ht Hcb Hi Hm. specialize (Ha t Ht). cbn beta in Ha. rewrite Hcb in Ha. cbn [negb andb] in Ha. rewrite existsb_none, List.Forall_forall in Ha. specialize (Ha i Hi). rewrite Hm in Ha.
    unfold hash_eqb in Ha. by rewrite negb_false_iff, bool_decide_eq_true in Ha.
  - intros Ha t Ht. destruct (IsCoinBase (tx t)) eqn:Hcb; [done|]. cbn [negb andb]. apply existsb_none, List.Forall_forall. intros i Hi. destruct (mapLockedInputs !! prevout i) as [h|] eqn:Hm; [|done].
    rewrite (Ha t i h Ht Hcb Hi Hm). unfold hash_eqb. by rewrite bool_decide_eq_true_2.
Qed.
Definition known (h : heap) (index : gmap Z ptr) (active : CChain) (b : CBlock) : Prop := forall tip, chain_Tip active = Some tip -> is_Some (height_on h index tip b).
Lemma payee_decided h index active b : known h index active b -> bdecides (check_payee h index active b) (payee_ok h index active b) False.
Proof.
  intros Hk. unfold check_payee, payee_ok. destruct (chain_Tip active) as [tip|] eqn:Et; [|apply (bdecides_iff _ True _ False); [apply bdecides_ret | done | done]].
  destruct (Hk tip Et) as [n Hn]. pose proof (bdecides_dos (negb (n =? 0) && negb InitialBlockDownload && negb (IsBlockPayeeValid b n)) 0 REJECT_INVALID "bad-cb-payee" false) as Hd.
  intros s Hs. unfold mbind, bcheck_bind, total_of. rewrite Hn. revert s Hs. eapply bdecides_iff; [exact Hd| |done].
  rewrite !andb_false_iff, !negb_false_iff, Z.eqb_eq. split.
  - intros Ho x m [= <-] Hm Hn0 Hi. rewrite Hn in Hm. injection Hm as <-. intuition congruence.
  - intros Ho. destruct (Z.eq_dec n 0) as [|Hn0]; [tauto|]. destruct InitialBlockDownload eqn:Ei; [by left; right|]. right. by apply (Ho tip n).
Qed.

Lemma pow_iff (b : CBlock) : IsProofOfWork b && negb (CheckProofOfWork (powParams params) (limbs_of (GetHash_Header HashQuark b)) (hBits b)) = false <-> pow_ok b.
Proof. unfold pow_ok. destruct (IsProofOfWork b); [cbn [andb]; rewrite negb_false_iff; tauto | done]. Qed.
Lemma time_iff (b : CBlock) : (GetBlockTime b >? GetAdjustedTime + (if IsProofOfStake b then 180 else 7200)) = false <-> time_ok b.
Proof. unfold time_ok. by rewrite Z.gtb_ltb, Z.ltb_ge. Qed.
Lemma sigops_iff (b : CBlock) : (u32 (block_sigops b * WITNESS_SCALE_FACTOR) >? MAX_BLOCK_SIGOPS_COST) = false <-> sigops_ok b.
Proof. unfold sigops_ok. by rewrite Z.gtb_ltb, Z.ltb_ge. Qed.
Definition well_formed_block (h : heap) (index : gmap Z ptr) (active : CChain) (b : CBlock) : Prop :=
  pow_ok b /\ time_ok b /\ merkle_ok b /\ size_ok b /\ coinbase_ok b /\ coinstake_ok b /\ locks_ok b /\ payee_ok h index active b /\ sigops_ok b.
(** The first check that fails is that of the header, of the root or of the signature operations. *)
Definition suspect_block (h : heap) (index : gmap Z ptr) (active : CChain) (b : CBlock) : Prop :=
  ~ pow_ok b \/ pow_ok b /\ time_ok b /\ (~ merkle_ok b \/
    merkle_ok b /\ size_ok b /\ coinbase_ok b /\ coinstake_ok b /\ locks_ok b /\ payee_ok h index active b /\ ~ sigops_ok b).
Lemma CheckBlock_decided h index active b fCheckPOW fCheckSig : known h index active b ->
  bdecides (CheckBlock params h index active b fCheckPOW true fCheckSig) (well_formed_block h index active b) (suspect_block h index active b).
Proof.
  intros Hk. unfold CheckBlock, well_formed_block, suspect_block. eapply bdecides_iff.
  - apply bdecides_seq; [eapply bdecides_or_dos, bdecides_dos | intros _]. apply bdecides_seq; [apply bdecides_dos | intros _]. apply bdecides_seq; [apply merkle_decided | intros _].
    apply bdecides_seq; [apply size_decided | intros _]. apply bdecides_seq; [apply coinbase_decided | intros _]. apply bdecides_seq; [apply coinstake_decided | intros _].
    apply bdecides_seq; [apply locks_decided | intros _]. apply bdecides_seq; [apply (payee_decided _ _ _ _ Hk) | intros _]. apply bdecides_dos.
  - by rewrite pow_iff, time_iff, sigops_iff.
  - rewrite pow_iff, time_iff, sigops_iff. assert (false = true <-> False) as -> by done. assert (true = true <-> True) as -> by done. tauto.
Qed.
End decided.

(** C12: [CheckBlock] accepts exactly the well-formed blocks.  When the heights it reads are
    known it never throws; it returns true and leaves the state as it is if the header, the
    clock, the root, the sizes, the coinbase and the coinstake, the locks, the payee and the
    signature operations are as they should be, and otherwise returns false with the state
    invalid, marked as a possible corruption exactly when the check that failed first is that
    of the header, the root or the signature operations; the flags for the proof of work and
    for the signature of the block change nothing. *)
Theorem CheckBlock_correct `{BlockEnv, ZerocoinChecks} (params : BlockParams) (h : heap) (index : gmap Z ptr) (active : CChain) (b : CBlock)
    (fCheckPOW fCheckSig : bool) (s : CValidationState) (Hs : mode s = MODE_VALID) (Hk : known h index active b) :
  well_formed_block params h index active b /\ returns (CheckBlock params h index active b fCheckPOW true fCheckSig) s = Some (true, s) \/
  ~ well_formed_block params h index active b /\ exists s', returns (CheckBlock params h index active b fCheckPOW true fCheckSig) s = Some (false, s') /\
    mode s' = MODE_INVALID /\ (corruptionPossible s' = true <-> suspect_block params h index active b).
Proof.
  unfold returns. destruct (CheckBlock_decided params h index active b fCheckPOW fCheckSig Hk s Hs) as [[Hp ->]|[Hp (s' & -> & Hm)]]; [by left|right; split; [done|]]. by exists s'.
Qed.

(** An environment for examples: nothing is locked and no spork is active. *)
Definition plain_env (time : Z) : BlockEnv := {|
  HashQuark := fun l => Hash [l];
  GetAdjustedTime := time;
  SwiftTX_filtering := false;
  SegwitActivation := 0;
  mapLockedInputs := ∅;
  InitialBlockDownload := true;
  IsBlockPayeeValid := fun _ _ => false;
  CheckProofOfStake := fun _ => false;
  getCoinSerialNumber := fun _ => None;
  maxreorg := None;
  CheckpointsEnabled := true;
  fVerifySignature := true;
  junk := replicate 32 hash_zero
|}.
Lemma CheckBlock_correct_witness : let _ := plain_env 0 in let _ := no_zerocoin in
  let params := mkBlockParams TxChecks.CMainParams Pow.CMainParams 0 100 750 950 1000 101 4 [] in
  well_formed_block params ∅ ∅ [] CBlock_null /\ returns (CheckBlock params ∅ ∅ [] CBlock_null true true true) CValidationState_new = Some (true, CValidationState_new) \/
  ~ well_formed_block params ∅ ∅ [] CBlock_null /\ exists s', returns (CheckBlock params ∅ ∅ [] CBlock_null true true true) CValidationState_new = Some (false, s') /\
    mode s' = MODE_INVALID /\ (corruptionPossible s' = true <-> suspect_block params ∅ ∅ [] CBlock_null).
Proof. intros env zc params. apply (CheckBlock_correct params ∅ ∅ [] CBlock_null true true CValidationState_new); [reflexivity|]. intros tip Ht. discriminate Ht. Defined.
