(* ===== verification/ChainParams.v ===== *)
(** The parameters of the three chains and their first blocks ([src/src/chainparams.cpp]), as
    far as the checks of blocks read them. *)
From S2P Require Import Prelude Serialize Uint256 Stream Sha2 Hashers Script Merkle Transaction Subsidy TxChecks Connect Chain Pow Block BlockChecks.

(** ** Parameters *)

Definition main_checkpoints : list (Z * Z) := [(0, 0x4f6e11d6600f04da4eea1402879e8ce31bb3954d6998f6695f68dbea2c638ba8)].
Definition test_checkpoints : list (Z * Z) := [(0, 0x2ef076d21951227c1333f715b4bbfc4965c9005befc6d9cc1fa698d599b78dbb)].
Definition regtest_checkpoints : list (Z * Z) := [(0, 0x64e8ee4da3e1883840bbb4b5a123f71f61157ec97d7c12a1e7a236c3bc78bdd3)].
(** [hashGenesisBlock] is computed with Quark; the constructors assert that it is this number. *)
Definition main_params : BlockParams := {|
  txParams := TxChecks.CMainParams;
  powParams := Pow.CMainParams;
  HashGenesisBlock := 0x4f6e11d6600f04da4eea1402879e8ce31bb3954d6998f6695f68dbea2c638ba8;
  MaxReorganizationDepth := 100;
  EnforceBlockUpgradeMajority := 750;
  RejectBlockOutdatedMajority := 950;
  ToCheckBlockUpgradeMajority := 1000;
  Zerocoin_StartHeight := 101;
  Zerocoin_HeaderVersion := 4;
  mapCheckpoints := main_checkpoints
|}.
(** The other two classes derive from it and change some members. *)
Definition test_params : BlockParams := {|
  txParams := TxChecks.CTestNetParams;
  powParams := Pow.CMainParams;
  HashGenesisBlock := 0x2ef076d21951227c1333f715b4bbfc4965c9005befc6d9cc1fa698d599b78dbb;
  MaxReorganizationDepth := MaxReorganizationDepth main_params;
  EnforceBlockUpgradeMajority := 51;
  RejectBlockOutdatedMajority := 75;
  ToCheckBlockUpgradeMajority := 100;
  Zerocoin_StartHeight := 2147483646;
  Zerocoin_HeaderVersion := Zerocoin_HeaderVersion main_params;
  mapCheckpoints := test_checkpoints
|}.
Definition regtest_params : BlockParams := {|
  txParams := TxChecks.mkParams (MaxMoneyOut TxChecks.CTestNetParams) (Zerocoin_MaxSpendsPerTransaction TxChecks.CTestNetParams) 0;
  powParams := Pow.Build_CChainParams (ProofOfWorkLimit Pow.CMainParams) 999999999 (TargetSpacing Pow.CMainParams) (SkipProofOfWorkCheck Pow.CMainParams);
  HashGenesisBlock := 0x64e8ee4da3e1883840bbb4b5a123f71f61157ec97d7c12a1e7a236c3bc78bdd3;
  MaxReorganizationDepth := MaxReorganizationDepth test_params;
  EnforceBlockUpgradeMajority := 750;
  RejectBlockOutdatedMajority := 950;
  ToCheckBlockUpgradeMajority := 1000;
  Zerocoin_StartHeight := 2147483646;
  Zerocoin_HeaderVersion := Zerocoin_HeaderVersion test_params;
  mapCheckpoints := regtest_checkpoints
|}.

(** ** The first blocks *)

Definition pszTimestamp : list Z := str "His face was that of a man who had suffered all he could. Acute misery lay behind him now, but there was nothing to lure him on towards happiness.".
Definition genesis_tx : CMutableTransaction :=
  mkTx CURRENT_VERSION [mkTxIn COutPoint_null (push_data (push_num (push_int64 [] 486604799) 4) pszTimestamp) SEQUENCE_FINAL []] [TxOut_SetEmpty TxOut_null] [] 0.
Definition genesis_with (time nonce : Z) : CBlock :=
  let t := CTransaction_of genesis_tx in
  mkBlock (mkHeader 1 hash_zero (snd (fst (BuildMerkleTree [cached_hash t]))) time 0x207fffff nonce hash_zero) [t] [].
Definition main_genesis : CBlock := genesis_with 1597078000 1.
Definition test_genesis : CBlock := genesis_with 1597078001 0.
Definition regtest_genesis : CBlock := genesis_with 1597078002 1.

(** The parameters of the main network are consistent with the rest of the code: the root
    of the transactions of the first block is the one its constructor asserts, and
    [CheckBlock] accepts the block on an empty chain, whatever Quark computes, from any clock
    that is not more than two hours behind the block. *)
Theorem genesis_accepted `{BlockEnv, ZerocoinChecks} (h : heap) (index : gmap Z ptr) (fCheckPOW fCheckSig : bool) (s : CValidationState)
    (Htime : 1597078000 <= GetAdjustedTime + 7200) (Hs : mode s = MODE_VALID) :
  uint256_of (hashMerkleRoot main_genesis) = 0x0bf7275412b5f45a97618a9453274a3b23fb32e3dadd8735dbcfff82f6fb64ac /\
  returns (CheckBlock main_params h index [] main_genesis fCheckPOW true fCheckSig) s = Some (true, s).
Proof.
  split; [vm_compute; reflexivity|].
  destruct (CheckBlock_decided main_params h index [] main_genesis fCheckPOW fCheckSig) with (s := s) as [[_ E]|[Hn _]]; [by intros tip Ht|done|unfold returns; by rewrite E|].
  exfalso. apply Hn. unfold well_formed_block. split_and!.
  - intros _. generalize (limbs_of (GetHash_Header HashQuark main_genesis)). intros l. vm_compute. reflexivity.
  - exact Htime.
  - split; [vm_compute; reflexivity|]. repeat constructor.
  - split; [done|]. split; [done|]. vm_compute. discriminate.
  - eexists _, []. split; [reflexivity|]. split; [vm_compute; reflexivity|constructor].
  - intros Hp. discriminate Hp.
  - intros _ t i m [<-|[]] Hcb. discriminate Hcb.
  - intros tip n Ht. discriminate Ht.
  - vm_compute. discriminate.
Qed.
Lemma genesis_accepted_witness : let _ := plain_env 1597078000 in let _ := no_zerocoin in
  returns (CheckBlock main_params ∅ ∅ [] main_genesis true true true) CValidationState_new = Some (true, CValidationState_new).
Proof. intros env zc. apply (genesis_accepted ∅ ∅ true true CValidationState_new); [discriminate|reflexivity]. Defined.
