(* ===== verification/Commitment.v ===== *)
(** Why a block with witnesses cannot commit to them ([src/src/main.cpp]): the commitment is an
    output of the second transaction, whose own hash is a leaf of the tree it commits to. *)
From S2P Require Import Prelude Serialize Stream Sha2 Hashers Script Merkle MerkleStream Transaction Subsidy TxChecks Connect Chain Pow Block BlockChecks.
Set Default Proof Using "Type".

(** ** Roots *)

#[local] Opaque Hash.
Lemma pairs_inj l1 l2 : Forall is_hash l1 -> Forall is_hash l2 -> length l1 = length l2 ->
  map Hash (pairs l1) = map Hash (pairs l2) -> l1 = l2 \/ clash (pairs l1 ++ pairs l2).
Proof.
  revert l2. induction l1 as [|x|x y l1 IH] using list_ind2; intros l2 H1 H2 Hl E.
  - destruct l2; [by left|done].
  - destruct l2 as [|a [|]]; try discriminate Hl. injection E as E. apply Forall_cons_iff in H1 as [H1 _], H2 as [H2 _].
    rewrite <- !hash2_def in E. destruct (hash2_inj (pairs [x] ++ pairs [a]) x x a a) as [[-> _]|]; [done..|in_lists|in_lists|exact E|by left|by right].
  - destruct l2 as [|a [|b l2]]; try discriminate Hl. apply Forall_cons_iff in H1 as [Hx H1], H2 as [Ha H2]. apply Forall_cons_iff in H1 as [Hy H1], H2 as [Hb H2]. cbn [pairs map] in E. injection E as E E'.
    destruct (IH l2 H1 H2 ltac:(by injection Hl) E') as [->|Hc]; [|right; revert Hc; apply clash_incl; intros z; in_lists].
    rewrite <- !hash2_def in E. destruct (hash2_inj (pairs (x :: y :: l2) ++ pairs (a :: b :: l2)) x y a b) as [[-> ->]|]; [done..|in_lists|in_lists|exact E|by left|by right].
Qed.
Lemma root_inj fuel l1 l2 : (length l1 <= fuel)%nat -> Forall is_hash l1 -> Forall is_hash l2 -> length l1 = length l2 ->
  merkle_root l1 = merkle_root l2 -> l1 = l2 \/ clash (node_inputs fuel l1 ++ node_inputs fuel l2).
Proof.
  revert l1 l2. induction fuel as [|fuel IH]; intros l1 l2 Hf H1 H2 Hl E; [destruct l1, l2; try done; simpl in Hf; [by left|lia]|].
  cbn [node_inputs]. rewrite <- Hl. destruct (Nat.ltb_spec 1 (length l1)) as [Hg|Hg].
  - pose proof (pair_up_shorter l1 Hg). rewrite <- (merkle_root_up l1), <- (merkle_root_up l2) in E by lia.
    destruct (IH (pair_up l1) (pair_up l2)) as [E'|Hc]; [lia|apply pair_up_hash|apply pair_up_hash|by rewrite !pair_up_length, Hl|done| |].
    + rewrite !pair_up_pairs in E'. destruct (pairs_inj l1 l2 H1 H2 Hl E') as [|Hc]; [by left|]. right. revert Hc; apply clash_incl; intros z; in_lists.
    + right. revert Hc; apply clash_incl; intros z; in_lists.
  - left. destruct l1 as [|x [|]], l2 as [|y [|]]; simpl in *; try lia; try done. rewrite !merkle_root_one in E. by subst.
Qed.

(** ** Sizes of transactions *)

Lemma CompactSize_mono a b : 0 <= a <= b -> (length (WriteCompactSize a) <= length (WriteCompactSize b))%nat.
Proof. intros Hab. unfold WriteCompactSize, write_int. repeat case_match; rewrite ?length_app, ?le_bytes_length; lia. Qed.
(** The transaction with one more output, and with a witness if it has none. *)
Definition committed (t : CMutableTransaction) (o : CTxOut) : CMutableTransaction :=
  mkTx (Transaction.nVersion t) (vin t) (vout t ++ [o]) (if Witness_IsEmpty (wit t) then [[nonce]] else wit t) (nLockTime t).
Lemma tx_bytes_length t : (length (wit t) <= length (vin t))%nat ->
  length (tx_bytes true t) = (8 + length (Serialize (vin t)) + length (Serialize (vout t)) +
    if Witness_IsNull (wit t) then 0 else 2 + length (concat (map Serialize (resize_witness (length (vin t)) (wit t)))))%nat.
Proof.
  intros Hw. unfold tx_bytes, SerializeTransaction. rewrite (proj2 (Nat.leb_le _ _) Hw). cbn [negb andb].
  destruct (Witness_IsNull (wit t)) eqn:E; cbn [negb].
  - change (negb (Z.land 0 1 =? 0)) with false. change (0 =? 0) with true. cbn [from_option fst]. unfold write_int. rewrite !length_app, !le_bytes_length. cbn [length]. lia.
  - change (negb (Z.land 1 1 =? 0)) with true. change (1 =? 0) with false. cbv iota. unfold Serialize_Witness. rewrite resize_witness_null, E by done. cbn [mbind option_bind from_option fst].
    unfold write_int. rewrite Serialize_nil, !length_app, !le_bytes_length. cbn [length]. lia.
Qed.
Lemma outputs_longer l (o : CTxOut) : (length (Serialize l) < length (Serialize (l ++ [o])))%nat.
Proof.
  cbn [Serialize vector_codec]. unfold Serialize_vector. rewrite map_app, concat_app, !length_app. cbn [map concat Serialize TxOut_codec length]. unfold Serialize_TxOut, write_int.
  rewrite !length_app, le_bytes_length. pose proof (CompactSize_mono (Z.of_nat (length l)) (Z.of_nat (length l + 1)) ltac:(lia)). lia.
Qed.
Lemma tx_bytes_longer t o : (length (wit t) <= length (vin t))%nat -> vin t <> [] ->
  (length (tx_bytes true t) < length (tx_bytes true (committed t o)))%nat.
Proof.
  intros Hw Hi. pose proof (outputs_longer (vout t) o) as Ho. rewrite tx_bytes_length by done. unfold committed, Witness_IsEmpty. rewrite tx_bytes_length; cbn [vin vout wit].
  - destruct (bool_decide_reflect (wit t = [])) as [->|]; [|lia]. change (Witness_IsNull []) with true. cbv iota. lia.
  - destruct (bool_decide_reflect (wit t = [])); [|done]. destruct (vin t); [done|]. cbn [length]. lia.
Qed.

(** ** The block *)

Lemma root_hash fuel l : (length l <= fuel)%nat -> l <> [] -> Forall is_hash l -> is_hash (merkle_root l).
Proof.
  revert l. induction fuel as [|fuel IH]; intros l Hf Hn Hl; [destruct l; [done|simpl in Hf; lia]|].
  destruct (Nat.ltb_spec 1 (length l)) as [Hg|Hg].
  - pose proof (pair_up_shorter l Hg). rewrite <- merkle_root_up by done. apply IH; [lia| |apply pair_up_hash]. by destruct (pair_up l); [simpl in *; lia|].
  - destruct l as [|x [|]]; simpl in *; try lia; [done|]. rewrite merkle_root_one. by apply Forall_cons_iff in Hl as [? _].
Qed.
Lemma commitment_loop_last l o k c : is_commitment o = true -> commitment_loop (l ++ [o]) k c = k + Z.of_nat (length l).
Proof. intros Ho. revert k c. induction l as [|x l IH]; intros k c; cbn [app commitment_loop length]; [rewrite Ho; lia|]. rewrite IH. lia. Qed.
Lemma commitment_output_is h : is_hash h -> is_commitment (commitment_output h) = true /\ take 32 (drop 6 (scriptPubKey (commitment_output h))) = h.
Proof.
  intros [Hh _]. unfold is_commitment, commitment_output. cbn [scriptPubKey]. rewrite size_app. unfold size. rewrite Hh. split; [reflexivity|].
  change (take 32 h = h). rewrite take_ge; [done|]. by rewrite Hh.
Qed.

Section commitment.
Context `{BlockEnv}.
(** The leaves of the tree of witnesses, and all that is hashed for a commitment with the nonce [n]. *)
Definition witness_leaves (b : CBlock) : list hash256 := hash_zero :: map (fun t : CTransaction => GetWitnessHash t) (tail (vtx b)).
Definition commitment_inputs (b : CBlock) (n : valtype) : list (list (list Z)) :=
  map (fun t : CTransaction => [tx_bytes true t]) (tail (vtx b)) ++ node_inputs (length (vtx b)) (witness_leaves b) ++ [[merkle_root (witness_leaves b); n]].

Lemma witness_leaves_hash b : Forall is_hash (witness_leaves b).
Proof. constructor; [apply hash_zero_hash|]. apply Forall_map, Forall_true. intros t. apply Hash_hash. Qed.
Lemma BlockWitnessMerkleRoot_spec b : length junk = 32%nat -> vtx b <> [] -> Z.of_nat (length (vtx b)) <= 2 ^ 31 ->
  exists m, BlockWitnessMerkleRoot b = Some (merkle_root (witness_leaves b), m).
Proof.
  intros Hj Hv Hn. unfold BlockWitnessMerkleRoot, witness_leaves. destruct (vtx b) as [|t l]; [done|]. cbn [tail].
  pose proof (ComputeMerkleRoot_spec (hash_zero :: map (fun t : CTransaction => GetWitnessHash t) l) junk Hj) as Hr.
  destruct (ComputeMerkleRoot junk _) as [r m]. exists m. do 2 f_equal. apply Hr. cbn [length] in *. by rewrite length_map.
Qed.
Lemma GenerateCoinbaseCommitment_spec b bp cb t1 rest : vtx b = cb :: t1 :: rest -> length junk = 32%nat -> Z.of_nat (length (vtx b)) <= 2 ^ 31 ->
  commitment_loop (vout (tx t1)) 0 (-1) = -1 -> SegwitActivation < Chain.nTime bp ->
  existsb (fun t : CTransaction => negb (Witness_IsNull (wit (tx t)))) (t1 :: rest) = true ->
  let o := commitment_output (Hash [merkle_root (witness_leaves b); nonce]) in
  exists b' t1', GenerateCoinbaseCommitment b bp = Some (scriptPubKey o, b') /\ vtx b' = cb :: t1' :: rest /\ tx t1' = committed t1 o.
Proof.
  intros Hv Hj Hn Hc Ha He o. destruct (BlockWitnessMerkleRoot_spec b Hj ltac:(by rewrite Hv) Hn) as [m Hr].
  unfold GenerateCoinbaseCommitment, GetWitnessCommitmentIndex at 1. rewrite Hv. cbn [lookup list_lookup mbind option_bind tail]. rewrite Hc, He, (proj2 (Z.ltb_lt _ _) Ha). change (-1 =? -1) with true. cbn [andb].
  rewrite Hr. fold o. cbn [mbind option_bind]. unfold UpdateUncommittedBlockStructures, GetWitnessCommitmentIndex, add_output. cbn [vtx]. rewrite Hv. cbn [alter list_alter lookup list_lookup mbind option_bind CTransaction_of tx vout wit].
  rewrite commitment_loop_last by apply commitment_output_is, Hash_hash. rewrite (proj2 (Z.ltb_lt _ _) Ha), (proj2 (Z.eqb_neq _ _)) by lia. cbn [negb andb].
  unfold committed. destruct (Witness_IsEmpty (wit (tx t1))); eexists _, _; (split; [reflexivity|]); unfold set_witness; cbn [vtx alter list_alter]; by (split; [reflexivity|]).
Qed.
(** All that is hashed is bytes, for a nonce and transactions of bytes. *)
Lemma pairs_bytes l : Forall is_hash l -> Forall (fun m => Forall is_byte (concat m)) (pairs l).
Proof.
  induction l as [|x|x y l IH] using list_ind2; intros Hl; cbn [pairs]; [constructor|..]; apply Forall_cons_iff in Hl as [Hx Hl].
  - apply pair_bytes; [done|done|constructor].
  - apply Forall_cons_iff in Hl as [Hy Hl]. by apply pair_bytes; auto.
Qed.
Lemma node_inputs_bytes fuel l : Forall is_hash l -> Forall (fun m => Forall is_byte (concat m)) (node_inputs fuel l).
Proof.
  revert l. induction fuel as [|fuel IH]; intros l Hl; cbn [node_inputs]; [constructor|]. case_match; [|constructor].
  apply Forall_app_2; [by apply pairs_bytes|apply IH, pair_up_hash].
Qed.
Lemma witness_root_hash b : is_hash (merkle_root (witness_leaves b)).
Proof. eapply root_hash; [done|done|apply witness_leaves_hash]. Qed.
Lemma commitment_inputs_bytes b n : Forall (fun t : CTransaction => of_bytes t) (tail (vtx b)) -> Forall is_byte n ->
  Forall (fun m => Forall is_byte (concat m)) (commitment_inputs b n).
Proof.
  intros Ht Hn. unfold commitment_inputs. apply Forall_app_2; [|apply Forall_app_2].
  - apply Forall_map, (list.Forall_impl _ _ _ Ht). intros t H'. cbn [concat]. rewrite app_nil_r. by apply tx_bytes_bytes.
  - apply node_inputs_bytes, witness_leaves_hash.
  - constructor; [|constructor]. cbn [concat]. rewrite app_nil_r. apply Forall_app_2; [apply witness_root_hash|exact Hn].
Qed.
(** The root, the nonce and the second transaction are the same, or messages clash. *)
Lemma commitment_binds b b' t1 t1' cb rest n n' : vtx b = cb :: t1 :: rest -> vtx b' = cb :: t1' :: rest ->
  Forall (fun m => Forall is_byte (concat m)) (commitment_inputs b n ++ commitment_inputs b' n') ->
  Hash [merkle_root (witness_leaves b'); n'] = Hash [merkle_root (witness_leaves b); n] ->
  tx_bytes true t1 = tx_bytes true t1' \/ clash (commitment_inputs b n ++ commitment_inputs b' n').
Proof.
  intros Hv Hv' HL E. set (L := commitment_inputs b n ++ commitment_inputs b' n') in *.
  assert (length (witness_leaves b) = length (witness_leaves b')) as Hl by (unfold witness_leaves; rewrite Hv, Hv'; done).
  assert (length (vtx b) = length (witness_leaves b) /\ length (vtx b') = length (witness_leaves b')) as [Hlb Hlb'] by (unfold witness_leaves; rewrite Hv, Hv'; cbn [length tail map]; rewrite length_map; done).
  destruct (Hash_eq L [merkle_root (witness_leaves b'); n'] [merkle_root (witness_leaves b); n] HL) as [Ec|]; [unfold L, commitment_inputs; in_lists..|exact E| |by right].
  cbn [concat] in Ec. apply app_inj_1 in Ec as [Er _]; [|pose proof (witness_root_hash b) as [? _]; pose proof (witness_root_hash b') as [? _]; congruence].
  destruct (root_inj (length (vtx b)) (witness_leaves b) (witness_leaves b')) as [El|Hc]; [lia|apply witness_leaves_hash|apply witness_leaves_hash|done|done| |].
  - unfold witness_leaves in El. rewrite Hv, Hv' in El. injection El as El.
    destruct (Hash_eq L [tx_bytes true t1] [tx_bytes true t1'] HL) as [Et|]; [unfold L, commitment_inputs; rewrite Hv, Hv'; cbn [tail map]; in_lists..|exact El| |by right].
    left. cbn [concat] in Et. by rewrite !app_nil_r in Et.
  - right. revert Hc. apply clash_incl. intros z. unfold L, commitment_inputs. replace (length (vtx b')) with (length (vtx b)) by lia. in_lists.
Qed.
(** The transaction stays one of bytes. *)
Lemma committed_bytes t h : of_bytes t -> is_hash h -> of_bytes (committed t (commitment_output h)).
Proof.
  intros (Hi & Ho & Hw) [_ Hh]. unfold committed. split; [exact Hi|]. split; cbn [vout wit].
  - apply Forall_app_2; [exact Ho|]. constructor; [|constructor]. unfold commitment_output. cbn [scriptPubKey]. apply Forall_app_2; [by apply bytes_check|exact Hh].
  - case_match; [|exact Hw]. constructor; [|constructor]. constructor; [|constructor]. by apply bytes_check.
Qed.
Lemma dos_if_rejects {A} (k : unit -> bcheck A) level code r cor s : mode s = MODE_VALID ->
  exists s', (dos_if true level code r cor ≫= k) s = Some (None, s') /\ mode s' = MODE_INVALID.
Proof. intros Hs. unfold mbind, bcheck_bind, dos_if. eexists. split; [reflexivity|]. by apply (DoS_valid level code r cor s Hs). Qed.
Lemma total_next {A B} (a : A) (k : A -> bcheck B) s : (total_of (Some a) ≫= k) s = k a s.
Proof. reflexivity. Qed.
Lemma dos_next {A} (k : unit -> bcheck A) level code r cor s : (dos_if false level code r cor ≫= k) s = k tt s.
Proof. reflexivity. Qed.
(** What a block whose last output of the second transaction is a commitment must satisfy. *)
Lemma check_commitment_last b cb t l o rest s : vtx b = cb :: t :: rest -> vout (tx t) = l ++ [o] -> is_commitment o = true ->
  length junk = 32%nat -> Z.of_nat (length (vtx b)) <= 2 ^ 31 -> mode s = MODE_VALID ->
  (exists s', check_commitment b s = Some (None, s') /\ mode s' = MODE_INVALID) \/
  exists n, wit (tx t) = [[n]] /\ Hash [merkle_root (witness_leaves b); n] = take 32 (drop 6 (scriptPubKey o)).
Proof.
  intros Hv Ho Hoc Hj Hn Hs. destruct (BlockWitnessMerkleRoot_spec b Hj) as [m Hr]; [by rewrite Hv|done|].
  assert (GetWitnessCommitmentIndex b = Some (Z.of_nat (length l))) as Hg.
  { unfold GetWitnessCommitmentIndex. rewrite Hv. cbn [lookup list_lookup mbind option_bind]. by rewrite Ho, commitment_loop_last. }
  assert (vtx b !! 1%nat = Some t) as Ht by by rewrite Hv.
  unfold check_commitment. rewrite Hg, Hr, Ht, total_next, (proj2 (Z.eqb_neq _ _)), !total_next by lia.
  destruct (wit (tx t)) as [|[|n [|]] [|]]; try (left; by apply dos_if_rejects). rewrite Ho, Nat2Z.id, list_lookup_middle by done.
  destruct (negb (Nat.eqb (length n) 32)); [left; by apply dos_if_rejects|]. rewrite dos_next, total_next.
  unfold hash_eqb. case_bool_decide as E; [right; by exists n|left; by apply dos_if_rejects].
Qed.
End commitment.

(** C23: the commitment to witnesses refers to itself.  For a block with witnesses (of
    transactions whose strings are bytes, at most 2^31 of them, the second with inputs and no
    more witnesses than inputs), whatever 32 bytes an uninitialised hash holds, when the upgrade is active and nothing is committed to yet,
    [GenerateCoinbaseCommitment] adds the output with the root of the tree of witnesses to the
    second transaction.  The check in [ContextualCheckBlock] recomputes the root with that
    output in place, so it rejects the block; the only way out is that the second transaction
    of the result has one witness, of one item, and that two different messages among those
    hashed for the commitment of the first block with the nonce of the code and of the second
    with that item have the same double SHA-256.  No block that carries witnesses can be
    produced. *)
Theorem commitment_circular `{BlockEnv} (b : CBlock) (bp : CBlockIndex) (cb t1 : CTransaction) (rest : list CTransaction) (s : CValidationState)
    (Hv : vtx b = cb :: t1 :: rest) (Hb : Forall (fun t : CTransaction => of_bytes t) (vtx b)) (Hj : length junk = 32%nat) (Hn : Z.of_nat (length (vtx b)) <= 2 ^ 31)
    (Hc : commitment_loop (vout (tx t1)) 0 (-1) = -1) (Ha : SegwitActivation < Chain.nTime bp)
    (He : existsb (fun t : CTransaction => negb (Witness_IsNull (wit (tx t)))) (t1 :: rest) = true)
    (Hi : vin (tx t1) <> []) (Hw : (length (wit (tx t1)) <= length (vin (tx t1)))%nat) (Hs : mode s = MODE_VALID) :
  exists commitment b', GenerateCoinbaseCommitment b bp = Some (commitment, b') /\
    ((exists s', check_witnesses b' (Some bp) s = Some (None, s') /\ mode s' = MODE_INVALID) \/
     (exists t n, vtx b' !! 1%nat = Some t /\ wit (tx t) = [[n]] /\ clash (commitment_inputs b nonce ++ commitment_inputs b' n))).
Proof.
  set (root := Hash [merkle_root (witness_leaves b); nonce]). assert (is_hash root) as Hroot by apply Hash_hash.
  destruct (GenerateCoinbaseCommitment_spec b bp cb t1 rest Hv Hj Hn Hc Ha He) as (b' & t1' & Hg & Hv' & Ht). eexists _, b'. split; [exact Hg|]. clear Hg.
  fold root in Ht. destruct (commitment_output_is root Hroot) as [Ho Hoh]. rewrite Hv in Hb. apply Forall_cons_iff in Hb as [_ Hb].
  pose proof (Forall_inv Hb) as Hb1. pose proof (committed_bytes t1 root Hb1 Hroot) as Hb1'. rewrite <- Ht in Hb1'.
  destruct (check_commitment_last b' cb t1' (vout (tx t1)) (commitment_output root) rest s Hv') as [(s' & Hk & Hm)|(n & Hwn & E)]; [by rewrite Ht|done|done|rewrite Hv'; by rewrite Hv in Hn|done| |].
  - left. exists s'. split; [|done]. unfold check_witnesses. rewrite (proj2 (Z.ltb_lt _ _) Ha). unfold mbind, bcheck_bind. by rewrite Hk.
  - right. exists t1', n. split; [by rewrite Hv'|]. split; [exact Hwn|]. rewrite Hoh in E.
    destruct (commitment_binds b b' t1 t1' cb rest nonce n Hv Hv') as [Et|Hcl]; [|exact E| |exact Hcl].
    + apply Forall_app_2; apply commitment_inputs_bytes; rewrite ?Hv, ?Hv'; cbn [tail]; [exact Hb|by apply bytes_check|constructor; [exact Hb1'|exact (Forall_inv_tail Hb)]|].
      destruct Hb1' as (_ & _ & Hn'). rewrite Hwn in Hn'. by apply Forall_inv, Forall_inv in Hn'.
    + exfalso. rewrite Ht in Et. pose proof (tx_bytes_longer (tx t1) (commitment_output root) Hw Hi) as Hlong. rewrite Et in Hlong. lia.
Qed.
(** A block of two transactions, the second with a witness. *)
Definition spending : CTransaction := CTransaction_of (mkTx 1 [mkTxIn (mkOutPoint hash_zero 0) [] SEQUENCE_FINAL []] [] [[nonce]] 0).
Lemma spending_bytes : of_bytes spending.
Proof. split_and!; [|constructor|]; repeat (constructor; try by apply bytes_check). Qed.
Lemma commitment_circular_witness : let _ := plain_env 0 in let b := mkBlock Header_null [CTransaction_default; spending] [] in let bp := mkBlockIndex 0 None None 0 4 1 0 0 0 in
  exists commitment b', GenerateCoinbaseCommitment b bp = Some (commitment, b') /\
    ((exists s', check_witnesses b' (Some bp) CValidationState_new = Some (None, s') /\ mode s' = MODE_INVALID) \/
     (exists t n, vtx b' !! 1%nat = Some t /\ wit (tx t) = [[n]] /\ clash (commitment_inputs b nonce ++ commitment_inputs b' n))).
Proof.
  intros env b bp. apply (commitment_circular b bp CTransaction_default spending []); try reflexivity; try (vm_compute; discriminate).
  apply Forall_cons_2; [by split_and!; apply Forall_nil_2|]. apply Forall_cons_2; [apply spending_bytes|apply Forall_nil_2].
Defined.
