(* ===== verification/FeeEstimator.v ===== *)
(** The estimator of fees and priorities ([CBlockAverage] and [CMinerPolicyEstimator] of
    [src/src/txmempool.cpp]) with the entries of the memory pool it looks at
    ([src/src/txmempool.h]). *)
From Stdlib Require Import Floats.SpecFloat.
From stdpp Require Import sorting.
From S2P Require Import Prelude Serialize Merkle Transaction Subsidy TxChecks.

(** ** Entries of the pool *)

(** No constructor sets all members; those it leaves out hold what the memory held. *)
Record CTxMemPoolEntry := mkMPEntry {
  e_tx : CTransaction;
  e_nFee : CAmount;
  e_nTxSize : Z;
  e_nTxCost : Z;
  e_nModSize : Z;
  e_nTime : Z;
  e_dPriority : spec_float;
  e_nHeight : Z;
  e_sigOpCost : Z
}.
Definition CTxMemPoolEntry_of (junkCost junkMod : Z) (t : CTransaction) (nFee nTime : Z) (dPriority : spec_float) (nHeight sigOpsCost : Z) : CTxMemPoolEntry :=
  mkMPEntry t nFee (u32 (Z.of_nat (length (tx_bytes (fAllowWitness PROTOCOL_VERSION) t)))) junkCost junkMod nTime dPriority nHeight sigOpsCost.
Definition CTxMemPoolEntry_of5 (junkMod junkSigOps : Z) (t : CTransaction) (nFee nTime : Z) (dPriority : spec_float) (nHeight : Z) : CTxMemPoolEntry :=
  mkMPEntry t nFee (u32 (Z.of_nat (length (tx_bytes (fAllowWitness PROTOCOL_VERSION) t)))) (GetTransactionCost t) junkMod nTime dPriority nHeight junkSigOps.
Definition e_GetTxSize (e : CTxMemPoolEntry) : Z := GetVirtualTransactionSize_tx (e_tx e).
Definition ddiv : spec_float -> spec_float -> spec_float := SFdiv 53 1024.
(** [None]: [GetValueOut] throws. *)
Definition e_GetPriority (e : CTxMemPoolEntry) (currentHeight : Z) : option spec_float :=
  v ← GetValueOut (e_tx e);
  let nValueIn := i64 (v + e_nFee e) in
  let deltaPriority := ddiv (dmul (double_of (u32 (currentHeight - e_nHeight e))) (double_of nValueIn)) (double_of (e_nModSize e)) in
  Some (dadd (e_dPriority e) deltaPriority).
Definition AllowFreeThreshold : spec_float := double_of (COIN * 1440 / 250).
Definition AllowFree (dPriority : spec_float) : bool := SFltb AllowFreeThreshold dPriority.

(** ** Samples of one number of blocks *)

Record CBlockAverage := mkAverage { feeSamples : list CFeeRate; prioritySamples : list spec_float }.
Definition CBlockAverage_new : CBlockAverage := mkAverage [] [].
(** [push_back] of a circular buffer of a hundred: the oldest goes. *)
Definition push_back {A} (l : list A) (x : A) : list A := drop (length l + 1 - 100) (l ++ [x]).
Definition RecordFee (a : CBlockAverage) (feeRate : CFeeRate) : CBlockAverage := mkAverage (push_back (feeSamples a) feeRate) (prioritySamples a).
Definition RecordPriority (a : CBlockAverage) (priority : spec_float) : CBlockAverage := mkAverage (feeSamples a) (push_back (prioritySamples a) priority).
Definition FeeSamples (a : CBlockAverage) : Z := Z.of_nat (length (feeSamples a)).
Definition PrioritySamples (a : CBlockAverage) : Z := Z.of_nat (length (prioritySamples a)).
Definition AreSane_fee (fee minRelayFee : CFeeRate) : bool :=
  if fee <? 0 then false else negb (fee >? i64 (minRelayFee * 10000)).
Definition AreSane_priority (priority : spec_float) : bool := SFleb (double_of 0) priority.

(** ** The estimator *)

(** The sorted lists are caches, filled when an estimate is asked for. *)
Record CMinerPolicyEstimator := mkEstimator {
  history : list CBlockAverage;
  sortedFeeSamples : list CFeeRate;
  sortedPrioritySamples : list spec_float;
  nBestSeenHeight : Z
}.
Definition CMinerPolicyEstimator_new (nEntries : nat) : CMinerPolicyEstimator := mkEstimator (replicate nEntries CBlockAverage_new) [] [] 0.
Definition set_history (m : CMinerPolicyEstimator) (h : list CBlockAverage) : CMinerPolicyEstimator :=
  mkEstimator h (sortedFeeSamples m) (sortedPrioritySamples m) (nBestSeenHeight m).

(** [std::sort] with [std::greater]. *)
#[local] Instance ge_dec : RelDecision Z.ge.
Proof. intros a b. destruct (Z_ge_dec a b); [by left | by right]. Defined.
Definition dge (a b : spec_float) : Prop := SFleb b a = true.
#[local] Instance dge_dec : RelDecision dge.
Proof. intros a b. unfold dge. apply _. Defined.
Definition sort_fees (l : list CFeeRate) : list CFeeRate := merge_sort Z.ge l.
Definition sort_priorities (l : list spec_float) : list spec_float := merge_sort dge l.

Definition prev_samples (samples : CBlockAverage -> Z) (h : list CBlockAverage) (n : Z) : Z := foldr Z.add 0 (map samples (take (Z.to_nat n) h)).
(** [None]: an index out of range. *)
Definition estimateFee (nBlocksToConfirm : Z) (m : CMinerPolicyEstimator) : option (CFeeRate * CMinerPolicyEstimator) :=
  let n := nBlocksToConfirm - 1 in
  if (n <? 0) || (n >=? Z.of_nat (length (history m))) then Some (0, m) else
  let m := if Nat.eqb (length (sortedFeeSamples m)) 0
    then mkEstimator (history m) (sort_fees (concat (map feeSamples (history m)))) (sortedPrioritySamples m) (nBestSeenHeight m) else m in
  let size := Z.of_nat (length (sortedFeeSamples m)) in
  if size <? 11 then Some (0, m) else
  bucket ← history m !! Z.to_nat n;
  let index := Z.min (prev_samples FeeSamples (history m) n + FeeSamples bucket / 2) (size - 1) in
  f ← sortedFeeSamples m !! Z.to_nat index; Some (f, m).
Definition estimatePriority (nBlocksToConfirm : Z) (m : CMinerPolicyEstimator) : option (spec_float * CMinerPolicyEstimator) :=
  let n := nBlocksToConfirm - 1 in
  if (n <? 0) || (n >=? Z.of_nat (length (history m))) then Some (double_of (-1), m) else
  let m := if Nat.eqb (length (sortedPrioritySamples m)) 0
    then mkEstimator (history m) (sortedFeeSamples m) (sort_priorities (concat (map prioritySamples (history m)))) (nBestSeenHeight m) else m in
  let size := Z.of_nat (length (sortedPrioritySamples m)) in
  if size <? 11 then Some (double_of (-1), m) else
  bucket ← history m !! Z.to_nat n;
  let index := Z.min (prev_samples PrioritySamples (history m) n + PrioritySamples bucket / 2) (size - 1) in
  f ← sortedPrioritySamples m !! Z.to_nat index; Some (f, m).

(** The last entry of the history records everything else; [None] is the assertion. *)
Definition seenTxConfirm (feeRate minRelayFee : CFeeRate) (dPriority : spec_float) (nBlocksAgo : Z) (m : CMinerPolicyEstimator) : option CMinerPolicyEstimator :=
  let nBlocksTruncated := Z.min nBlocksAgo (Z.of_nat (length (history m)) - 1) in
  if nBlocksTruncated <? 0 then None else
  let k := Z.to_nat nBlocksTruncated in
  let sufficientFee := feeRate >? minRelayFee in
  let sufficientPriority := AllowFree dPriority in
  Some (if sufficientFee && negb sufficientPriority && AreSane_fee feeRate minRelayFee then
    set_history m (alter (fun a => RecordFee a feeRate) k (history m))
  else if sufficientPriority && negb sufficientFee && AreSane_priority dPriority then
    set_history m (alter (fun a => RecordPriority a dPriority) k (history m))
  else m).

Section seen_block.
(** [std::random_shuffle] on the bucket of the given number. *)
Context (random_shuffle : nat -> list CTxMemPoolEntry -> list CTxMemPoolEntry).
Fixpoint bucket_loop (size : nat) (nBlockHeight : Z) (entries : list CTxMemPoolEntry) (buckets : list (list CTxMemPoolEntry)) : option (list (list CTxMemPoolEntry)) :=
  match entries with
  | [] => Some buckets
  | entry :: entries =>
      let delta := i32 (nBlockHeight - e_nHeight entry) in
      if delta <=? 0 then bucket_loop size nBlockHeight entries buckets else
      let delta := if delta - 1 >=? Z.of_nat size then Z.of_nat size else delta in
      if (delta <? 1) || (delta >? Z.of_nat (length buckets)) then None
      else bucket_loop size nBlockHeight entries (alter (fun b => b ++ [entry]) (Z.to_nat (delta - 1)) buckets)
  end.
Fixpoint confirm_loop (minRelayFee : CFeeRate) (i : Z) (e : list CTxMemPoolEntry) (m : CMinerPolicyEstimator) : option CMinerPolicyEstimator :=
  match e with
  | [] => Some m
  | entry :: e =>
      dPriority ← e_GetPriority entry (e_nHeight entry);
      m ← seenTxConfirm (CFeeRate_of (e_nFee entry) (e_GetTxSize entry)) minRelayFee dPriority i m;
      confirm_loop minRelayFee i e m
  end.
Fixpoint buckets_loop (minRelayFee : CFeeRate) (i : nat) (buckets : list (list CTxMemPoolEntry)) (m : CMinerPolicyEstimator) : option CMinerPolicyEstimator :=
  match buckets with
  | [] => Some m
  | e :: buckets =>
      let e := if Nat.ltb 10 (length e) then take 10 (random_shuffle i e) else e in
      m ← confirm_loop minRelayFee (Z.of_nat i) e m;
      buckets_loop minRelayFee (S i) buckets m
  end.
(** The log line evaluates both estimates. *)
Fixpoint log_loop (i : nat) (h : list CBlockAverage) (m : CMinerPolicyEstimator) : option CMinerPolicyEstimator :=
  match h with
  | [] => Some m
  | a :: h =>
      m ← (if FeeSamples a + PrioritySamples a >? 0 then
        '(_, m) ← estimateFee (Z.of_nat i + 1) m; '(_, m) ← estimatePriority (Z.of_nat i + 1) m; Some m
      else Some m);
      log_loop (S i) h m
  end.
Definition seenBlock (entries : list CTxMemPoolEntry) (nBlockHeight : Z) (minRelayFee : CFeeRate) (m : CMinerPolicyEstimator) : option CMinerPolicyEstimator :=
  if nBlockHeight <=? nBestSeenHeight m then Some m else
  let m := mkEstimator (history m) (sortedFeeSamples m) (sortedPrioritySamples m) nBlockHeight in
  buckets ← bucket_loop (length (history m)) nBlockHeight entries (replicate (length (history m)) []);
  m ← buckets_loop minRelayFee 0 buckets m;
  let m := mkEstimator (history m) [] [] (nBestSeenHeight m) in
  log_loop 0 (history m) m.
End seen_block.

(** ** The estimator is consistent, and its estimates fall *)

(** The caches are empty or up to date, and no buffer is above its capacity. *)
Record est_ok (m : CMinerPolicyEstimator) : Prop := {
  ok_history : history m <> [];
  ok_buffers : Forall (fun a => (length (feeSamples a) <= 100)%nat /\ (length (prioritySamples a) <= 100)%nat) (history m);
  ok_fees : sortedFeeSamples m = [] \/ sortedFeeSamples m = sort_fees (concat (map feeSamples (history m)));
  ok_priorities : sortedPrioritySamples m = [] \/ sortedPrioritySamples m = sort_priorities (concat (map prioritySamples (history m)))
}.
Lemma push_back_length {A} (l : list A) x : (length l <= 100)%nat -> (length (push_back l x) <= 100)%nat.
Proof. intros Hl. unfold push_back. rewrite length_drop, length_app. cbn [length]. lia. Qed.
Lemma estimateFee_ok n m : est_ok m -> exists f m', estimateFee n m = Some (f, m') /\ est_ok m' /\ history m' = history m /\ nBestSeenHeight m' = nBestSeenHeight m.
Proof.
  intros Hm. unfold estimateFee. destruct (_ || _) eqn:En; [by eexists _, _|]. apply orb_false_iff in En as [E1 E2].
  set (m1 := if Nat.eqb _ 0 then _ else m).
  assert (est_ok m1 /\ history m1 = history m /\ nBestSeenHeight m1 = nBestSeenHeight m) as (H1 & Hh & Hb).
  { subst m1. destruct (Nat.eqb _ 0); [|done]. split; [|done]. destruct Hm. constructor; cbn; auto. }
  clearbody m1. destruct (_ <? 11) eqn:Es; [by eexists _, _|].
  destruct (lookup_lt_is_Some_2 (history m1) (Z.to_nat (n - 1))) as [b Hlb]; [rewrite Hh; lia|]. rewrite Hlb. cbn [mbind option_bind].
  assert (0 <= prev_samples FeeSamples (history m1) (n - 1)) as Hp by (unfold prev_samples; induction (take _ _); cbn [map foldr]; unfold FeeSamples in *; lia).
  destruct (lookup_lt_is_Some_2 (sortedFeeSamples m1) (Z.to_nat (Z.min (prev_samples FeeSamples (history m1) (n - 1) + FeeSamples b / 2) (Z.of_nat (length (sortedFeeSamples m1)) - 1)))) as [f Hf].
  { assert (0 <= FeeSamples b / 2) by (apply Z.div_pos; unfold FeeSamples; lia). lia. }
  rewrite Hf. by eexists _, _.
Qed.
Lemma estimatePriority_ok n m : est_ok m -> exists f m', estimatePriority n m = Some (f, m') /\ est_ok m' /\ history m' = history m /\ nBestSeenHeight m' = nBestSeenHeight m.
Proof.
  intros Hm. unfold estimatePriority. destruct (_ || _) eqn:En; [by eexists _, _|]. apply orb_false_iff in En as [E1 E2].
  set (m1 := if Nat.eqb _ 0 then _ else m).
  assert (est_ok m1 /\ history m1 = history m /\ nBestSeenHeight m1 = nBestSeenHeight m) as (H1 & Hh & Hb).
  { subst m1. destruct (Nat.eqb _ 0); [|done]. split; [|done]. destruct Hm. constructor; cbn; auto. }
  clearbody m1. destruct (_ <? 11) eqn:Es; [by eexists _, _|].
  destruct (lookup_lt_is_Some_2 (history m1) (Z.to_nat (n - 1))) as [b Hlb]; [rewrite Hh; lia|]. rewrite Hlb. cbn [mbind option_bind].
  assert (0 <= prev_samples PrioritySamples (history m1) (n - 1)) as Hp by (unfold prev_samples; induction (take _ _); cbn [map foldr]; unfold PrioritySamples in *; lia).
  destruct (lookup_lt_is_Some_2 (sortedPrioritySamples m1) (Z.to_nat (Z.min (prev_samples PrioritySamples (history m1) (n - 1) + PrioritySamples b / 2) (Z.of_nat (length (sortedPrioritySamples m1)) - 1)))) as [f Hf].
  { assert (0 <= PrioritySamples b / 2) by (apply Z.div_pos; unfold PrioritySamples; lia). lia. }
  rewrite Hf. by eexists _, _.
Qed.

(** The part that holds while samples are recorded. *)
Definition buffers_ok (n : nat) (m : CMinerPolicyEstimator) : Prop :=
  length (history m) = n /\ Forall (fun a => (length (feeSamples a) <= 100)%nat /\ (length (prioritySamples a) <= 100)%nat) (history m).
Lemma Forall_alter_same {A} (P : A -> Prop) f k l : Forall P l -> (forall a, P a -> P (f a)) -> Forall P (alter f k l).
Proof. intros Hl Hf. revert k. induction Hl as [|a l Ha Hl IH]; intros [|k]; [done|done| |]; cbn; constructor; auto. Qed.
Lemma seenTxConfirm_ok f r d i n m : (0 < n)%nat -> 0 <= i -> buffers_ok n m -> exists m', seenTxConfirm f r d i m = Some m' /\ buffers_ok n m' /\ nBestSeenHeight m' = nBestSeenHeight m.
Proof.
  intros Hn Hi [Hl Hb]. unfold seenTxConfirm. replace (_ <? 0) with false by lia. eexists. split; [reflexivity|].
  assert (forall g, (forall a, (length (feeSamples a) <= 100)%nat /\ (length (prioritySamples a) <= 100)%nat -> (length (feeSamples (g a)) <= 100)%nat /\ (length (prioritySamples (g a)) <= 100)%nat) ->
    forall k, buffers_ok n (set_history m (alter g k (history m)))) as Hset.
  { intros g Hg k. split; cbn; [by rewrite length_alter|by apply Forall_alter_same]. }
  destruct (_ && _ && _); [|destruct (_ && _ && _); [|done]]; split; try done; apply Hset; cbn; intros a [? ?]; auto using push_back_length.
Qed.
Lemma bucket_loop_ok size n l bs : (0 < size)%nat -> length bs = size -> exists bs', bucket_loop size n l bs = Some bs' /\ length bs' = size /\
  forall P, Forall P l -> Forall (Forall P) bs -> Forall (Forall P) bs'.
Proof.
  intros Hs. revert bs. induction l as [|e l IH]; intros bs Hl; cbn [bucket_loop]; [by exists bs|].
  destruct (_ <=? 0) eqn:Ed.
  { destruct (IH bs Hl) as (bs' & E & Hl' & Hp). exists bs'. split; [done|]. split; [done|]. intros P Hf Hb. apply Forall_cons_iff in Hf as [_ Hf]. auto. }
  set (d := if _ >=? _ then Z.of_nat size else _). assert (1 <= d <= Z.of_nat size) as Hd by (subst d; destruct (_ >=? _) eqn:E; lia).
  replace ((d <? 1) || (d >? Z.of_nat (length bs))) with false by lia.
  destruct (IH (alter (fun b => b ++ [e]) (Z.to_nat (d - 1)) bs)) as (bs' & E & Hl' & Hp); [by rewrite length_alter|]. exists bs'. split; [done|]. split; [done|].
  intros P Hf Hb. apply Forall_cons_iff in Hf as [He Hf]. apply Hp; [done|]. apply Forall_alter_same; [done|]. intros b Hb'. apply Forall_app. auto.
Qed.
Section seen_block_laws.
Context (random_shuffle : nat -> list CTxMemPoolEntry -> list CTxMemPoolEntry) (shuffle_perm : forall i l, random_shuffle i l ≡ₚ l).
(** The value of the transaction does not overflow. *)
Definition has_value (e : CTxMemPoolEntry) : Prop := GetValueOut (e_tx e) <> None.
Lemma confirm_loop_ok r i l n m : (0 < n)%nat -> 0 <= i -> Forall has_value l -> buffers_ok n m ->
  exists m', confirm_loop r i l m = Some m' /\ buffers_ok n m' /\ nBestSeenHeight m' = nBestSeenHeight m.
Proof.
  intros Hn Hi Hl. revert m. induction Hl as [|e l He Hl IH]; intros m Hm; cbn [confirm_loop]; [by exists m|].
  unfold e_GetPriority. destruct (GetValueOut (e_tx e)) as [v|] eqn:Ev; [|done]. cbn [mbind option_bind].
  destruct (seenTxConfirm_ok (CFeeRate_of (e_nFee e) (e_GetTxSize e)) r (dadd (e_dPriority e) (ddiv (dmul (double_of (u32 (e_nHeight e - e_nHeight e))) (double_of (i64 (v + e_nFee e)))) (double_of (e_nModSize e)))) i n m Hn Hi Hm) as (m1 & E & Hm1 & Hb1).
  rewrite E. cbn [mbind option_bind]. destruct (IH m1 Hm1) as (m2 & E2 & Hm2 & Hb2). exists m2. split; [done|]. split; [done|congruence].
Qed.
Lemma buckets_loop_ok r i bs n m : (0 < n)%nat -> Forall (Forall has_value) bs -> buffers_ok n m ->
  exists m', buckets_loop random_shuffle r i bs m = Some m' /\ buffers_ok n m' /\ nBestSeenHeight m' = nBestSeenHeight m.
Proof using shuffle_perm.
  intros Hn Hbs. revert i m. induction Hbs as [|e bs He Hbs IH]; intros i m Hm; cbn [buckets_loop]; [by exists m|].
  destruct (confirm_loop_ok r (Z.of_nat i) (if Nat.ltb 10 (length e) then take 10 (random_shuffle i e) else e) n m Hn ltac:(lia)) as (m1 & E & Hm1 & Hb1); [|done|].
  - destruct (Nat.ltb 10 (length e)); [|done]. apply Forall_take. by rewrite shuffle_perm.
  - rewrite E. cbn [mbind option_bind]. destruct (IH (S i) m1 Hm1) as (m2 & E2 & Hm2 & Hb2). exists m2. split; [done|]. split; [done|congruence].
Qed.
Lemma log_loop_ok i h m : est_ok m -> exists m', log_loop i h m = Some m' /\ est_ok m' /\ history m' = history m /\ nBestSeenHeight m' = nBestSeenHeight m.
Proof.
  revert i m. induction h as [|a h IH]; intros i m Hm; cbn [log_loop]; [by exists m|]. destruct (_ >? 0).
  - destruct (estimateFee_ok (Z.of_nat i + 1) m Hm) as (f & m1 & -> & H1 & Hh1 & Hb1). cbn [mbind option_bind].
    destruct (estimatePriority_ok (Z.of_nat i + 1) m1 H1) as (g & m2 & -> & H2 & Hh2 & Hb2). cbn [mbind option_bind].
    destruct (IH (S i) m2 H2) as (m3 & E & H3 & Hh3 & Hb3). exists m3. split; [done|]. split; [done|]. split; congruence.
  - cbn [mbind option_bind]. by apply IH.
Qed.
Lemma seenBlock_ok l nBlockHeight r m : est_ok m -> Forall has_value l ->
  exists m', seenBlock random_shuffle l nBlockHeight r m = Some m' /\ est_ok m' /\ nBestSeenHeight m' = Z.max nBlockHeight (nBestSeenHeight m).
Proof using shuffle_perm.
  intros Hm Hl. unfold seenBlock. destruct (Z.leb_spec nBlockHeight (nBestSeenHeight m)).
  { exists m. split; [done|]. split; [done|lia]. }
  cbn [history]. destruct Hm as [Hh Hbuf _ _]. assert (0 < length (history m))%nat as Hn by (destruct (history m); [done|cbn; lia]).
  destruct (bucket_loop_ok (length (history m)) nBlockHeight l (replicate (length (history m)) []) Hn ltac:(apply length_replicate)) as (bs & -> & _ & Hbs). cbn [mbind option_bind].
  destruct (buckets_loop_ok r 0 bs (length (history m)) (mkEstimator (history m) (sortedFeeSamples m) (sortedPrioritySamples m) nBlockHeight) Hn) as (m1 & -> & [Hl1 Hb1] & Hbest).
  { apply Hbs; [done|]. by apply Forall_replicate. }
  { done. }
  cbn [mbind option_bind history]. destruct (log_loop_ok 0 (history m1) (mkEstimator (history m1) [] [] (nBestSeenHeight m1))) as (m2 & E & H2 & Hh2 & Hb2).
  - constructor; cbn; [|done|by left|by left]. intros E. rewrite E in Hl1. cbn in Hl1. lia.
  - exists m2. split; [exact E|]. split; [done|]. rewrite Hb2. cbn. rewrite Hbest. cbn. lia.
Qed.
End seen_block_laws.

Lemma sum_nonneg (samples : CBlockAverage -> Z) l : (forall a, 0 <= samples a) -> 0 <= foldr Z.add 0 (map samples l).
Proof. intros Hs. induction l as [|a l IH]; cbn; [lia|]. specialize (Hs a). lia. Qed.
Lemma sum_app (samples : CBlockAverage -> Z) k l : foldr Z.add 0 (map samples (k ++ l)) = foldr Z.add 0 (map samples k) + foldr Z.add 0 (map samples l).
Proof. induction k as [|a k IH]; cbn; [lia|]. cbn in IH. lia. Qed.
Lemma prev_samples_step samples h n n' b : (forall a, 0 <= samples a) -> h !! Z.to_nat n = Some b -> 0 <= n < n' ->
  prev_samples samples h n + samples b <= prev_samples samples h n'.
Proof.
  intros Hs Hb Hn. unfold prev_samples. rewrite <- (take_drop_middle (take (Z.to_nat n') h) (Z.to_nat n) b) by (rewrite lookup_take_lt by lia; done).
  rewrite take_take, sum_app. replace (Nat.min (Z.to_nat n) (Z.to_nat n')) with (Z.to_nat n) by lia. cbn [map foldr].
  pose proof (sum_nonneg samples (drop (S (Z.to_nat n)) (take (Z.to_nat n') h)) Hs). lia.
Qed.
Lemma sorted_falls l i j a b : StronglySorted Z.ge l -> (i <= j)%nat -> l !! i = Some a -> l !! j = Some b -> b <= a.
Proof.
  intros Hl. revert i j. induction Hl as [|x l Hl IH Hx]; intros i j Hij Ha Hb; [done|]. destruct i as [|i], j as [|j]; cbn in Ha, Hb; try lia.
  - simplify_eq. lia.
  - simplify_eq. rewrite Forall_lookup in Hx. specialize (Hx j b Hb). lia.
  - apply (IH i j); [lia|done..].
Qed.
#[local] Instance ge_trans : Transitive Z.ge.
Proof. intros a b c. lia. Qed.
#[local] Instance ge_total : Total Z.ge.
Proof. intros a b. lia. Qed.
Lemma sort_fees_sorted l : StronglySorted Z.ge (sort_fees l).
Proof. apply (StronglySorted_merge_sort Z.ge). Qed.
(** What an estimate is, on a consistent estimator. *)
Lemma estimateFee_spec n m : est_ok m -> 1 <= n <= Z.of_nat (length (history m)) ->
  let samples := sort_fees (concat (map feeSamples (history m))) in
  exists b, history m !! Z.to_nat (n - 1) = Some b /\ fst <$> estimateFee n m =
    if Z.of_nat (length samples) <? 11 then Some 0 else
    samples !! Z.to_nat (Z.min (prev_samples FeeSamples (history m) (n - 1) + FeeSamples b / 2) (Z.of_nat (length samples) - 1)).
Proof.
  intros Hm Hn samples. destruct (lookup_lt_is_Some_2 (history m) (Z.to_nat (n - 1))) as [b Hb]; [lia|]. exists b. split; [done|].
  unfold estimateFee. replace (_ || _) with false by lia.
  assert ((if Nat.eqb (length (sortedFeeSamples m)) 0 then mkEstimator (history m) (sort_fees (concat (map feeSamples (history m)))) (sortedPrioritySamples m) (nBestSeenHeight m) else m) =
    mkEstimator (history m) samples (sortedPrioritySamples m) (nBestSeenHeight m)) as ->.
  { destruct (Nat.eqb_spec (length (sortedFeeSamples m)) 0) as [|Hl]; [done|]. destruct (ok_fees m Hm) as [E|E]; [by rewrite E in Hl|]. destruct m. cbn in *. by rewrite E. }
  cbn [history sortedFeeSamples]. destruct (_ <? 11); [done|]. rewrite Hb. cbn [mbind option_bind]. by destruct (samples !! _).
Qed.

(** The estimator of fees.  When a block is seen no assertion and no bound fails, whatever
    the shuffle of a crowded bucket, the buffers stay within their capacity and the caches of
    sorted samples are never stale; an estimate is always given, and as its comment promises
    the estimates do not increase with the number of blocks one is willing to wait. *)
Theorem fee_estimates_fall (random_shuffle : nat -> list CTxMemPoolEntry -> list CTxMemPoolEntry) (shuffle_perm : forall i l, random_shuffle i l ≡ₚ l)
    (m : CMinerPolicyEstimator) (entries : list CTxMemPoolEntry) (nBlockHeight : Z) (minRelayFee : CFeeRate)
    (Hm : est_ok m) (Hv : Forall has_value entries) :
  exists m', seenBlock random_shuffle entries nBlockHeight minRelayFee m = Some m' /\ est_ok m' /\ nBestSeenHeight m' = Z.max nBlockHeight (nBestSeenHeight m) /\
  (forall n, exists f, fst <$> estimateFee n m' = Some f) /\
  (forall n1 n2 f1 f2, 1 <= n1 <= n2 -> n2 <= Z.of_nat (length (history m')) -> fst <$> estimateFee n1 m' = Some f1 -> fst <$> estimateFee n2 m' = Some f2 -> f2 <= f1).
Proof.
  destruct (seenBlock_ok random_shuffle shuffle_perm entries nBlockHeight minRelayFee m Hm Hv) as (m' & E & Hm' & Hb). exists m'. split; [done|]. split; [done|]. split; [done|]. split.
  - intros n. destruct (estimateFee_ok n m' Hm') as (f & m2 & -> & _). by exists f.
  - intros n1 n2 f1 f2 H1 H2 F1 F2. destruct (estimateFee_spec n1 m' Hm' ltac:(lia)) as (b1 & Hb1 & E1). destruct (estimateFee_spec n2 m' Hm' ltac:(lia)) as (b2 & Hb2 & E2).
    pose proof (eq_trans (eq_sym F1) E1) as Hf1. pose proof (eq_trans (eq_sym F2) E2) as Hf2. clear F1 F2 E1 E2.
    destruct (_ <? 11) eqn:Es; [injection Hf1 as ->; injection Hf2 as ->; lia|]. symmetry in Hf1, Hf2. eapply sorted_falls; [apply sort_fees_sorted| |exact Hf1|exact Hf2].
    assert (forall a, 0 <= FeeSamples a) as Hpos by (intros; unfold FeeSamples; lia).
    assert (FeeSamples b1 / 2 <= FeeSamples b1) by (apply Z.div_le_upper_bound; [lia|specialize (Hpos b1); lia]).
    assert (0 <= FeeSamples b2 / 2) by (apply Z.div_pos; [apply Hpos|lia]).
    destruct (Z.eq_dec n1 n2) as [->|Hne]; [rewrite Hb1 in Hb2; simplify_eq; lia|].
    pose proof (prev_samples_step FeeSamples (history m') (n1 - 1) (n2 - 1) b1 Hpos Hb1 ltac:(lia)). lia.
Qed.
Lemma fee_estimates_fall_witness : exists m', seenBlock (fun _ l => l) [] 7 10000 (CMinerPolicyEstimator_new 25) = Some m' /\ est_ok m' /\ nBestSeenHeight m' = 7.
Proof.
  destruct (fee_estimates_fall (fun _ l => l) (fun _ l => Permutation_refl l) (CMinerPolicyEstimator_new 25) [] 7 10000) as (m' & E & Hm & Hb & _).
  - constructor; cbn; [discriminate|repeat constructor; cbn; lia|by left|by left].
  - constructor.
  - exists m'. split; [exact E|]. split; [exact Hm|exact Hb].
Defined.
