(* ===== verification/MemPool.v ===== *)
(** The memory pool ([CTxMemPool] and [CCoinsViewMemPool] of [src/src/txmempool.h] and
    [txmempool.cpp]): every operation, with the pointers of [mapNextTx] into [mapTx]. *)
From Stdlib Require Import Floats.SpecFloat.
From stdpp Require Import sorting.
From S2P Require Import Prelude Serialize Stream Hashers Script Merkle Transaction SigHash Compressor Coins CoinsView Subsidy TxChecks Ledger FeeEstimator.

(** ** Data *)

(** A pointer to the transaction of an entry is the key of the entry: nodes of a [std::map] do
    not move, and a pointer to an erased one dangles. *)
Record CInPoint := mkInPoint { ptx : hash256; in_n : Z }.
Record CTxMemPool := mkPool {
  fSanityCheck : bool;
  nTransactionsUpdated : Z;
  minerPolicyEstimator : CMinerPolicyEstimator;
  minRelayFee : CFeeRate;
  totalTxSize : Z;
  mapTx : gmap hash256 CTxMemPoolEntry;
  mapNextTx : gmap COutPoint CInPoint;
  mapDeltas : gmap hash256 (spec_float * CAmount)
}.
(** The constructor leaves [totalTxSize] as the memory was. *)
Definition CTxMemPool_new (junkSize : Z) (minRelayFee : CFeeRate) : CTxMemPool :=
  mkPool false 0 (CMinerPolicyEstimator_new 25) minRelayFee junkSize ∅ ∅ ∅.
Definition setSanityCheck (fSanityCheck : bool) (p : CTxMemPool) : CTxMemPool :=
  mkPool fSanityCheck (nTransactionsUpdated p) (minerPolicyEstimator p) (minRelayFee p) (totalTxSize p) (mapTx p) (mapNextTx p) (mapDeltas p).
Definition set_estimator (m : CMinerPolicyEstimator) (p : CTxMemPool) : CTxMemPool :=
  mkPool (fSanityCheck p) (nTransactionsUpdated p) m (minRelayFee p) (totalTxSize p) (mapTx p) (mapNextTx p) (mapDeltas p).
Definition set_deltas (d : gmap hash256 (spec_float * CAmount)) (p : CTxMemPool) : CTxMemPool :=
  mkPool (fSanityCheck p) (nTransactionsUpdated p) (minerPolicyEstimator p) (minRelayFee p) (totalTxSize p) (mapTx p) (mapNextTx p) d.
Definition set_txs (updated total : Z) (m : gmap hash256 CTxMemPoolEntry) (next : gmap COutPoint CInPoint) (p : CTxMemPool) : CTxMemPool :=
  mkPool (fSanityCheck p) updated (minerPolicyEstimator p) (minRelayFee p) total m next (mapDeltas p).
Definition GetTx (p : CTxMemPool) (h : hash256) : option CTransaction := e_tx <$> mapTx p !! h.

(** The orders of the maps. *)
Definition hash_le (a b : hash256) : Prop := of_le_bytes a <= of_le_bytes b.
#[export] Instance hash_le_dec : RelDecision hash_le.
Proof. intros a b. unfold hash_le. apply _. Defined.
Definition hashes_in_order (p : CTxMemPool) : list hash256 := merge_sort hash_le (map fst (map_to_list (mapTx p))).

(** ** Reading *)

Definition pool_size (p : CTxMemPool) : Z := Z.of_nat (base.size (mapTx p)).
Definition pool_exists (p : CTxMemPool) (hash : hash256) : bool := bool_decide (is_Some (mapTx p !! hash)).
Definition pool_lookup (p : CTxMemPool) (hash : hash256) : option CTransaction := GetTx p hash.
Definition queryHashes (p : CTxMemPool) : list hash256 := hashes_in_order p.
Definition getTransactions (p : CTxMemPool) : gset hash256 := dom (mapTx p).
Definition AddTransactionsUpdated (n : Z) (p : CTxMemPool) : CTxMemPool :=
  set_txs (u32 (nTransactionsUpdated p + n)) (totalTxSize p) (mapTx p) (mapNextTx p) p.
(** The outpoints of a transaction in [mapNextTx], in order of their index. *)
Definition spent_indices (p : CTxMemPool) (hashTx : hash256) : list Z :=
  merge_sort Z.le (omap (fun '(o, _) => if bool_decide (out_hash o = hashTx) then Some (out_n o) else None) (map_to_list (mapNextTx p))).
Definition pruneSpent (p : CTxMemPool) (hashTx : hash256) (c : CCoins) : CCoins :=
  foldl (fun c n => match Spend c n with Some (c', _) => c' | None => c end) c (spent_indices p hashTx).

(** ** Adding and removing *)

Fixpoint mark_inputs (hash : hash256) (i : Z) (l : list CTxIn) (next : gmap COutPoint CInPoint) : gmap COutPoint CInPoint :=
  match l with [] => next | x :: l => mark_inputs hash (i + 1) l (<[prevout x := mkInPoint hash i]> next) end.
Definition addUnchecked (hash : hash256) (entry : CTxMemPoolEntry) (p : CTxMemPool) : CTxMemPool :=
  let t := e_tx entry in
  set_txs (u32 (nTransactionsUpdated p + 1)) (u64 (totalTxSize p + e_GetTxSize entry)) (<[hash := entry]> (mapTx p))
    (if negb (Tx_IsZerocoinSpend t) then mark_inputs hash 0 (vin (tx t)) (mapNextTx p) else mapNextTx p) p.

(** The identifiers of the transactions that spend the outputs [outs] of [hash], numbered from
    [i]; [None]: a pointer dangles. *)
Fixpoint spenders (p : CTxMemPool) (hash : hash256) (outs : list CTxOut) (i : Z) : option (list hash256) :=
  match outs with
  | [] => Some []
  | _ :: outs =>
      match mapNextTx p !! mkOutPoint hash i with
      | None => spenders p hash outs (i + 1)
      | Some it => t ← GetTx p (ptx it); rest ← spenders p hash outs (i + 1); Some (cached_hash t :: rest)
      end
  end.
Definition unmark_inputs (l : list CTxIn) (next : gmap COutPoint CInPoint) : gmap COutPoint CInPoint :=
  foldl (fun m x => delete (prevout x) m) next l.
Definition erase_entry (hash : hash256) (e : CTxMemPoolEntry) (p : CTxMemPool) : CTxMemPool :=
  set_txs (u32 (nTransactionsUpdated p + 1)) (u64 (totalTxSize p - e_GetTxSize e)) (delete hash (mapTx p)) (unmark_inputs (vin (tx (e_tx e))) (mapNextTx p)) p.
(** [fuel]: an entry is worth one more than its outputs, see [remove_loop_spec]. *)
Fixpoint remove_loop (fuel : nat) (fRecursive : bool) (txToRemove : list hash256) (removed : list CTransaction) (p : CTxMemPool) :
    option (list CTransaction * CTxMemPool) :=
  match txToRemove, fuel with
  | [], _ => Some (removed, p)
  | _, O => None
  | hash :: txToRemove, S fuel =>
      match mapTx p !! hash with
      | None => remove_loop fuel fRecursive txToRemove removed p
      | Some e =>
          more ← (if fRecursive then spenders p hash (vout (tx (e_tx e))) 0 else Some []);
          remove_loop fuel fRecursive (txToRemove ++ more) (removed ++ [e_tx e]) (erase_entry hash e p)
      end
  end.
Definition entries_weight (m : gmap hash256 CTxMemPoolEntry) : nat := map_fold (fun _ e n => (S (length (vout (tx (e_tx e)))) + n)%nat) 0%nat m.
Definition remove (origTx : CTransaction) (removed : list CTransaction) (fRecursive : bool) (p : CTxMemPool) : option (list CTransaction * CTxMemPool) :=
  more ← (if fRecursive && negb (pool_exists p (cached_hash origTx)) then spenders p (cached_hash origTx) (vout (tx origTx)) 0 else Some []);
  remove_loop (S (length more) + entries_weight (mapTx p)) fRecursive (cached_hash origTx :: more) removed p.

Section over_view.
Context {S : Type} `{CCoinsView S}.
Context (params : CChainParams).
(** Whether an input makes its transaction go; [None] is the assertion. *)
Fixpoint immature_input (p : CTxMemPool) (nMemPoolHeight : Z) (l : list CTxIn) (pcoins : CCoinsViewCache S) : option (bool * CCoinsViewCache S) :=
  match l with
  | [] => Some (false, pcoins)
  | i :: l =>
      if pool_exists p (out_hash (prevout i)) then immature_input p nMemPoolHeight l pcoins else
      let '(coins, pcoins) := AccessCoins (out_hash (prevout i)) pcoins in
      match coins with
      | None => if fSanityCheck p then None else Some (true, pcoins)
      | Some c =>
          if (fCoinBase c || fCoinStake c) && (u32 (nMemPoolHeight - nHeight c) <? u32 (COINBASE_MATURITY params)) then Some (true, pcoins)
          else immature_input p nMemPoolHeight l pcoins
      end
  end.
Fixpoint immature_loop (p : CTxMemPool) (nMemPoolHeight : Z) (l : list hash256) (pcoins : CCoinsViewCache S) : option (list CTransaction * CCoinsViewCache S) :=
  match l with
  | [] => Some ([], pcoins)
  | h :: l =>
      t ← GetTx p h;
      '(b, pcoins) ← immature_input p nMemPoolHeight (vin (tx t)) pcoins;
      '(r, pcoins) ← immature_loop p nMemPoolHeight l pcoins;
      Some (if b : bool then t :: r else r, pcoins)
  end.
Fixpoint remove_all (l : list CTransaction) (p : CTxMemPool) : option CTxMemPool :=
  match l with [] => Some p | t :: l => '(_, p) ← remove t [] true p; remove_all l p end.
Definition removeCoinbaseSpends (nMemPoolHeight : Z) (p : CTxMemPool) (pcoins : CCoinsViewCache S) : option (CTxMemPool * CCoinsViewCache S) :=
  '(l, pcoins) ← immature_loop p nMemPoolHeight (hashes_in_order p) pcoins;
  p ← remove_all l p; Some (p, pcoins).
End over_view.

(** Transactions compare by their identifiers. *)
Fixpoint conflicts_loop (t : CTransaction) (l : list CTxIn) (removed : list CTransaction) (p : CTxMemPool) : option (list CTransaction * CTxMemPool) :=
  match l with
  | [] => Some (removed, p)
  | i :: l =>
      match mapNextTx p !! prevout i with
      | None => conflicts_loop t l removed p
      | Some it =>
          txConflict ← GetTx p (ptx it);
          '(removed, p) ← (if bool_decide (cached_hash txConflict <> cached_hash t) then remove txConflict removed true p else Some (removed, p));
          conflicts_loop t l removed p
      end
  end.
Definition removeConflicts (t : CTransaction) (removed : list CTransaction) (p : CTxMemPool) : option (list CTransaction * CTxMemPool) :=
  conflicts_loop t (vin (tx t)) removed p.
Definition ClearPrioritisation (hash : hash256) (p : CTxMemPool) : CTxMemPool := set_deltas (delete hash (mapDeltas p)) p.
Fixpoint block_loop (vtx : list CTransaction) (conflicts : list CTransaction) (p : CTxMemPool) : option (list CTransaction * CTxMemPool) :=
  match vtx with
  | [] => Some (conflicts, p)
  | t :: vtx =>
      '(_, p) ← remove t [] false p;
      '(conflicts, p) ← removeConflicts t conflicts p;
      block_loop vtx conflicts (ClearPrioritisation (cached_hash t) p)
  end.
Definition removeForBlock (random_shuffle : nat -> list CTxMemPoolEntry -> list CTxMemPoolEntry) (vtx : list CTransaction) (nBlockHeight : Z)
    (conflicts : list CTransaction) (p : CTxMemPool) : option (list CTransaction * CTxMemPool) :=
  let entries := omap (fun t => mapTx p !! cached_hash t) vtx in
  m ← seenBlock random_shuffle entries (i32 nBlockHeight) (minRelayFee p) (minerPolicyEstimator p);
  block_loop vtx conflicts (set_estimator m p).
Definition clear (p : CTxMemPool) : CTxMemPool := set_txs (u32 (nTransactionsUpdated p + 1)) 0 ∅ ∅ p.

(** ** Priorities given by hand *)

Definition PrioritiseTransaction (hash : hash256) (dPriorityDelta : spec_float) (nFeeDelta : CAmount) (p : CTxMemPool) : CTxMemPool :=
  let deltas := default (double_of 0, 0) (mapDeltas p !! hash) in
  set_deltas (<[hash := (dadd (fst deltas) dPriorityDelta, i64 (snd deltas + nFeeDelta))]> (mapDeltas p)) p.
Definition ApplyDeltas (p : CTxMemPool) (hash : hash256) (dPriorityDelta : spec_float) (nFeeDelta : CAmount) : spec_float * CAmount :=
  match mapDeltas p !! hash with
  | None => (dPriorityDelta, nFeeDelta)
  | Some deltas => (dadd dPriorityDelta (fst deltas), i64 (nFeeDelta + snd deltas))
  end.

(** ** The estimates *)

Definition pool_estimateFee (nBlocks : Z) (p : CTxMemPool) : option (CFeeRate * CTxMemPool) :=
  '(f, m) ← estimateFee nBlocks (minerPolicyEstimator p); Some (f, set_estimator m p).
Definition pool_estimatePriority (nBlocks : Z) (p : CTxMemPool) : option (spec_float * CTxMemPool) :=
  '(f, m) ← estimatePriority nBlocks (minerPolicyEstimator p); Some (f, set_estimator m p).

(** ** The view of the outputs with those of the pool *)

Definition MEMPOOL_HEIGHT : Z := 0x7FFFFFFF.
Record CCoinsViewMemPool (S : Type) := mkMemPoolView { mv_base : S; mempool : CTxMemPool }.
Arguments mkMemPoolView {S} _ _.
Arguments mv_base {S} _.
Arguments mempool {S} _.
#[export] Instance CCoinsViewMemPool_view {S : Type} `{CCoinsView S} : CCoinsView (CCoinsViewMemPool S) := {
  GetCoins := fun txid v =>
    match pool_lookup (mempool v) txid with
    | Some t => (Some (FromTx t MEMPOOL_HEIGHT), v)
    | None =>
        let '(r, b) := GetCoins txid (mv_base v) in
        (match r with Some c => if IsPruned c then None else Some c | None => None end, mkMemPoolView b (mempool v))
    end;
  HaveCoins := fun txid v =>
    if pool_exists (mempool v) txid then (true, v) else let '(r, b) := HaveCoins txid (mv_base v) in (r, mkMemPoolView b (mempool v));
  GetBestBlock := fun v => let '(h, b) := GetBestBlock (mv_base v) in (h, mkMemPoolView b (mempool v));
  BatchWrite := fun m h v => '(r, b) ← BatchWrite m h (mv_base v); Some (r, mkMemPoolView b (mempool v))
}.

(** ** The consistency check *)

Section check.
Context {S : Type} `{CCoinsView S}.
Context (Verify : valtype -> hash256 -> valtype -> bool) (index_height : hash256 -> option Z) (params : CChainParams).
(** [mempoolDuplicate], whose base is [pcoins]. *)
Local Abbreviation Duplicate := (CCoinsViewCache (CCoinsViewCache S)).

(** The output an input claims is in the pool ([true]) or available in [pcoins]; [None] is an
    assertion, here and below. *)
Definition check_source (p : CTxMemPool) (o : COutPoint) (d : Duplicate) : option (bool * Duplicate) :=
  match mapTx p !! out_hash o with
  | Some e2 =>
      out ← vout (tx (e_tx e2)) !! Z.to_nat (out_n o);
      if TxOut_IsNull out then None else Some (true, d)
  | None =>
      let '(coins, pcoins) := AccessCoins (out_hash o) (base d) in
      c ← coins; if IsAvailable c (out_n o) then Some (false, set_base d pcoins) else None
  end.
Definition check_mark (p : CTxMemPool) (hash : hash256) (i : Z) (o : COutPoint) : option unit :=
  it3 ← mapNextTx p !! o; if bool_decide (ptx it3 = hash) && (in_n it3 =? i) then Some tt else None.
Fixpoint check_inputs (p : CTxMemPool) (hash : hash256) (l : list CTxIn) (i : Z) (fDependsWait : bool) (d : Duplicate) : option (bool * Duplicate) :=
  match l with
  | [] => Some (fDependsWait, d)
  | x :: l =>
      '(dep, d) ← check_source p (prevout x) d;
      check_mark p hash i (prevout x);;
      check_inputs p hash l (i + 1) (fDependsWait || dep) d
  end.
Definition check_connect (t : CTransaction) (d : Duplicate) : option Duplicate :=
  match CheckInputs Verify index_height params t false 0 false false CValidationState_new d with
  | Some (Some _, _, d) => '(_, d) ← UpdateCoins t 1000000 d; Some d
  | _ => None
  end.
Fixpoint check_entries (p : CTxMemPool) (l : list hash256) (checkTotal : Z) (waitingOnDependants : list CTransaction) (d : Duplicate) :
    option (Z * list CTransaction * Duplicate) :=
  match l with
  | [] => Some (checkTotal, waitingOnDependants, d)
  | hash :: l =>
      e ← mapTx p !! hash;
      let t := e_tx e in
      '(wait, d) ← (if Tx_IsZerocoinSpend t then Some (false, d) else check_inputs p hash (vin (tx t)) 0 false d : option (bool * Duplicate));
      d ← (if wait : bool then Some d else check_connect t d);
      check_entries p l (u64 (checkTotal + e_GetTxSize e)) (if wait : bool then waitingOnDependants ++ [t] else waitingOnDependants) d
  end.
(** A round removes a transaction or adds to [stepsSinceLastRemove], which stays below the length. *)
Fixpoint waiting_loop (fuel : nat) (waitingOnDependants : list CTransaction) (stepsSinceLastRemove : Z) (d : Duplicate) : option Duplicate :=
  match waitingOnDependants, fuel with
  | [], _ => Some d
  | _, O => None
  | t :: l, Datatypes.S fuel =>
      let '(have, d) := HaveInputs t d in
      if negb have then
        let steps := u32 (stepsSinceLastRemove + 1) in
        if steps <? Z.of_nat (length (l ++ [t])) then waiting_loop fuel (l ++ [t]) steps d else None
      else d ← check_connect t d; waiting_loop fuel l 0 d
  end.
Definition check_next (p : CTxMemPool) : bool :=
  forallb (fun '(o, it) =>
    match GetTx p (ptx it) with
    | None => false
    | Some t =>
        bool_decide (is_Some (mapTx p !! cached_hash t)) && bool_decide (ptx it = cached_hash t) &&
        match vin (tx t) !! Z.to_nat (in_n it) with Some x => bool_decide (o = prevout x) | None => false end
    end) (map_to_list (mapNextTx p)).
Definition check (p : CTxMemPool) (pcoins : CCoinsViewCache S) : option (CCoinsViewCache S) :=
  if negb (fSanityCheck p) then Some pcoins else
  '(checkTotal, waiting, d) ← check_entries p (hashes_in_order p) 0 [] (new_cache pcoins);
  d ← waiting_loop (Datatypes.S (length waiting) * Datatypes.S (length waiting)) waiting 0 d;
  if check_next p && (totalTxSize p =? checkTotal) then Some (base d) else None.
End check.
