(* ===== verification/MemPoolInv.v ===== *)
(** The invariant of the memory pool: [mapNextTx] marks exactly the inputs of the transactions
    in [mapTx], no pointer dangles, and the sizes add up.  Adding and removing keep it. *)
From S2P Require Import Prelude Serialize Script Merkle Transaction Coins CoinsView TxChecks FeeEstimator MemPool.
Set Default Proof Using "Type".

Definition zc (e : CTxMemPoolEntry) : bool := Tx_IsZerocoinSpend (e_tx e).
Definition inputs (e : CTxMemPoolEntry) : list CTxIn := vin (tx (e_tx e)).
Definition total_size (m : gmap hash256 CTxMemPoolEntry) : Z := map_fold (fun _ e n => e_GetTxSize e + n) 0 m.
(** Zerocoin spends are not marked; their inputs name no transaction. *)
Record pool_wf (p : CTxMemPool) : Prop := {
  wf_key : forall h e, mapTx p !! h = Some e -> cached_hash (e_tx e) = h;
  wf_marked : forall h e i x, mapTx p !! h = Some e -> zc e = false -> inputs e !! i = Some x -> mapNextTx p !! prevout x = Some (mkInPoint h (Z.of_nat i));
  wf_next : forall o it, mapNextTx p !! o = Some it -> exists e i x, mapTx p !! ptx it = Some e /\ zc e = false /\ inputs e !! i = Some x /\ in_n it = Z.of_nat i /\ prevout x = o;
  wf_null : forall h e x, mapTx p !! h = Some e -> zc e = true -> In x (inputs e) -> out_hash (prevout x) = hash_zero;
  wf_named : forall o it, mapNextTx p !! o = Some it -> out_hash o <> hash_zero;
  wf_total : totalTxSize p = u64 (total_size (mapTx p))
}.

(** ** Marks *)

Lemma unmark_lookup l m o : unmark_inputs l m !! o = if bool_decide (o ∈ map prevout l) then None else m !! o.
Proof.
  unfold unmark_inputs. revert m. induction l as [|x l IH]; intros m; cbn [foldl map]; [by rewrite bool_decide_eq_false_2 by (apply not_elem_of_nil)|].
  rewrite IH. destruct (decide (o = prevout x)) as [->|Hne].
  - rewrite lookup_delete_eq. rewrite (bool_decide_eq_true_2 (prevout x ∈ prevout x :: _)) by left. by case_bool_decide.
  - rewrite lookup_delete_ne by done. assert (o ∈ prevout x :: map prevout l <-> o ∈ map prevout l) as Hi by (rewrite elem_of_cons; tauto).
    by rewrite (bool_decide_ext _ _ Hi).
Qed.
Lemma mark_other hash i l m o : o ∉ map prevout l -> mark_inputs hash i l m !! o = m !! o.
Proof. revert i m. induction l as [|x l IH]; intros i m Ho; cbn [mark_inputs map] in *; [done|]. apply not_elem_of_cons in Ho as [Hx Ho]. by rewrite IH, lookup_insert_ne. Qed.
Lemma mark_lookup hash i l m k x : NoDup (map prevout l) -> l !! k = Some x -> mark_inputs hash i l m !! prevout x = Some (mkInPoint hash (i + Z.of_nat k)).
Proof.
  revert i m k. induction l as [|y l IH]; intros i m k Hl Hk; [done|]. cbn [mark_inputs map] in *. inversion_clear Hl as [|? ? Hy Hl']. destruct k as [|k]; cbn in Hk.
  - injection Hk as ->. rewrite mark_other by done. rewrite lookup_insert_eq. by rewrite Z.add_0_r.
  - rewrite (IH _ _ k) by done. do 2 f_equal. lia.
Qed.

(** ** Sums *)

Lemma total_size_insert m h e : m !! h = None -> total_size (<[h := e]> m) = e_GetTxSize e + total_size m.
Proof. intros Hh. unfold total_size. rewrite map_fold_insert_L; [done| |done]. intros. lia. Qed.
Lemma total_size_delete m h e : m !! h = Some e -> total_size m = e_GetTxSize e + total_size (delete h m).
Proof. intros Hh. unfold total_size. rewrite (map_fold_delete_L _ _ h e m); [done| |done]. intros. lia. Qed.
Lemma weight_delete m h e : m !! h = Some e -> entries_weight m = (S (length (vout (tx (e_tx e)))) + entries_weight (delete h m))%nat.
Proof. intros Hh. unfold entries_weight. rewrite (map_fold_delete_L _ _ h e m); [done| |done]. intros. lia. Qed.

(** ** One entry more, one entry less *)

(** What the acceptance of a transaction checks. *)
Record addable (h : hash256) (e : CTxMemPoolEntry) (p : CTxMemPool) : Prop := {
  add_new : mapTx p !! h = None;
  add_key : cached_hash (e_tx e) = h;
  add_distinct : zc e = false -> NoDup (map prevout (inputs e));
  add_free : zc e = false -> forall x, In x (inputs e) -> mapNextTx p !! prevout x = None /\ out_hash (prevout x) <> hash_zero;
  add_null : zc e = true -> forall x, In x (inputs e) -> out_hash (prevout x) = hash_zero
}.
Lemma mark_inv hash i l m o it : NoDup (map prevout l) -> mark_inputs hash i l m !! o = Some it ->
  m !! o = Some it \/ exists k x, l !! k = Some x /\ prevout x = o /\ it = mkInPoint hash (i + Z.of_nat k).
Proof.
  intros Hl Ho. destruct (decide (o ∈ map prevout l)) as [Hi|Hi]; [right|left; by rewrite mark_other in Ho].
  apply list_elem_of_fmap in Hi as (x & -> & Hx). apply list_elem_of_lookup in Hx as [k Hk]. exists k, x. split_and!; [done|done|]. rewrite (mark_lookup _ _ _ _ k x Hl Hk) in Ho. congruence.
Qed.
Lemma u64_add a b : u64 (u64 a + b) = u64 (a + b).
Proof. unfold u64. by rewrite Zplus_mod_idemp_l. Qed.
Lemma u64_sub a b : u64 (u64 a - b) = u64 (a - b).
Proof. unfold u64. by rewrite Zminus_mod_idemp_l. Qed.
Lemma addUnchecked_wf h e p : pool_wf p -> addable h e p -> pool_wf (addUnchecked h e p).
Proof.
  intros [Hk Hm Hn H0 Hna Ht] [An Ak Ad Af A0]. unfold addUnchecked. constructor; cbn [set_txs mapTx mapNextTx totalTxSize].
  - intros h' e'. destruct (decide (h' = h)) as [->|Hne]; [rewrite lookup_insert_eq; by intros [= <-]|rewrite lookup_insert_ne by done; apply Hk].
  - intros h' e' i x. destruct (decide (h' = h)) as [->|Hne].
    + rewrite lookup_insert_eq. intros [= <-] Hz Hx. fold (zc e). rewrite Hz. cbn [negb]. apply (mark_lookup h 0 (inputs e)); auto.
    + rewrite lookup_insert_ne by done. intros He Hz Hx. pose proof (Hm _ _ _ _ He Hz Hx) as Hmx. fold (zc e). destruct (zc e) eqn:Ez; cbn [negb]; [done|].
      rewrite mark_other; [done|]. intros (y & Hy & Hin)%list_elem_of_fmap. apply list_elem_of_In in Hin. destruct (Af eq_refl y Hin) as [Hf _]. rewrite <- Hy in Hf. congruence.
  - intros o it. fold (zc e). destruct (zc e) eqn:Ez; cbn [negb].
    + intros Ho. destruct (Hn _ _ Ho) as (e' & i & x & He & Hrest). exists e', i, x. split; [|done]. rewrite lookup_insert_ne; [done|]. congruence.
    + intros Ho%mark_inv; [|by apply Ad]. destruct Ho as [Ho|(k & x & Hx & Hp & ->)].
      * destruct (Hn _ _ Ho) as (e' & i & x & He & Hrest). exists e', i, x. split; [|done]. rewrite lookup_insert_ne; [done|]. congruence.
      * exists e, k, x. cbn [ptx in_n]. rewrite lookup_insert_eq. split_and!; [done|done|done|lia|done].
  - intros h' e' x. destruct (decide (h' = h)) as [->|Hne]; [rewrite lookup_insert_eq; intros [= <-]; auto|rewrite lookup_insert_ne by done; apply H0].
  - intros o it. fold (zc e). destruct (zc e) eqn:Ez; cbn [negb]; [apply Hna|]. intros Ho%mark_inv; [|by apply Ad]. destruct Ho as [Ho|(k & x & Hx & <- & _)]; [by eapply Hna|].
    apply Af; [done|]. apply list_elem_of_In. by eapply list_elem_of_lookup_2.
  - rewrite total_size_insert, Ht, u64_add by done. f_equal. lia.
Qed.
Lemma erase_entry_wf h e p : pool_wf p -> mapTx p !! h = Some e -> pool_wf (erase_entry h e p).
Proof.
  intros [Hk Hm Hn H0 Hna Ht] He. unfold erase_entry. constructor; cbn [set_txs mapTx mapNextTx totalTxSize]; fold (inputs e).
  - intros h' e' [_ He']%lookup_delete_Some. by apply Hk.
  - intros h' e' i x [Hne He']%lookup_delete_Some Hz Hx. pose proof (Hm _ _ _ _ He' Hz Hx) as Hmx. rewrite unmark_lookup. case_bool_decide as Hi; [exfalso|done].
    apply list_elem_of_fmap in Hi as (y & Hy & Hin). apply list_elem_of_lookup in Hin as [j Hj]. destruct (zc e) eqn:Ez.
    + apply (Hna _ _ Hmx). rewrite Hy. apply (H0 h e y He Ez). apply list_elem_of_In. by eapply list_elem_of_lookup_2.
    + pose proof (Hm _ _ _ _ He Ez Hj) as Hmy. rewrite <- Hy in Hmy. congruence.
  - intros o it. rewrite unmark_lookup. case_bool_decide as Hi; [done|]. intros Ho. destruct (Hn _ _ Ho) as (e' & i & x & He' & Hz & Hx & Hni & Hp). exists e', i, x.
    split; [|done]. apply lookup_delete_Some. split; [|done]. intros Heq. rewrite <- Heq in He'. rewrite He in He'. injection He' as <-. apply Hi. rewrite <- Hp.
    apply list_elem_of_fmap. exists x. split; [done|]. by eapply list_elem_of_lookup_2.
  - intros h' e' x [_ He']%lookup_delete_Some. by apply (H0 h').
  - intros o it. rewrite unmark_lookup. case_bool_decide; [done|]. apply Hna.
  - rewrite (total_size_delete _ _ _ He) in Ht. rewrite Ht, u64_sub. f_equal. lia.
Qed.

(** ** Removing *)

(** [b] spends one of the first [n] outputs of [a]. *)
Definition spends_from (p : CTxMemPool) (n : nat) (a b : hash256) : Prop :=
  exists j it, 0 <= j < Z.of_nat n /\ mapNextTx p !! mkOutPoint a j = Some it /\ ptx it = b.
Definition child (p : CTxMemPool) (a b : hash256) : Prop := exists e, mapTx p !! a = Some e /\ spends_from p (length (vout (tx (e_tx e)))) a b.
Lemma spenders_spec p h outs i : pool_wf p -> exists l, spenders p h outs i = Some l /\ (length l <= length outs)%nat /\
  forall b, In b l <-> exists j it, i <= j < i + Z.of_nat (length outs) /\ mapNextTx p !! mkOutPoint h j = Some it /\ ptx it = b.
Proof.
  intros Hp. revert i. induction outs as [|o outs IH]; intros i; cbn [spenders length].
  { exists []. split; [done|]. split; [done|]. intros b. split; [done|]. intros (j & it & Hj & _). lia. }
  destruct (IH (i + 1)) as (l & -> & Hl & Hb). destruct (mapNextTx p !! mkOutPoint h i) as [it|] eqn:Hit.
  - destruct (wf_next p Hp _ _ Hit) as (e & k & x & He & _). unfold GetTx. rewrite He. cbn [fmap option_fmap option_map mbind option_bind]. rewrite (wf_key p Hp _ _ He).
    eexists. split; [reflexivity|]. split; [cbn; lia|]. intros b. cbn [In]. rewrite Hb. split.
    + intros [<-|(j & it' & Hj & Ho)]; [exists i, it; split; [lia|done]|exists j, it'; split; [lia|done]].
    + intros (j & it' & Hj & Ho & Hpt). destruct (Z.eq_dec j i) as [->|]; [left; congruence|]. right. exists j, it'. split; [lia|done].
  - exists l. split; [done|]. split; [cbn; lia|]. intros b. rewrite Hb. split; intros (j & it' & Hj & Ho & Hpt); exists j, it'; (split; [|done]); [lia|].
    destruct (Z.eq_dec j i) as [->|]; [congruence|lia].
Qed.
(** The mark of an entry that is left is left. *)
Lemma mark_left p0 p o it : pool_wf p0 -> pool_wf p -> mapTx p ⊆ mapTx p0 -> mapNextTx p0 !! o = Some it -> is_Some (mapTx p !! ptx it) -> mapNextTx p !! o = Some it.
Proof.
  intros H0 Hp Hs Ho [e He]. destruct (wf_next p0 H0 _ _ Ho) as (e0 & i & x & He0 & Hz & Hx & Hi & Hpr).
  assert (e0 = e) as -> by (apply (lookup_weaken _ _ _ _ He) in Hs; congruence).
  rewrite <- Hpr, (wf_marked p Hp _ _ _ _ He Hz Hx). destruct it. cbn in *. by subst.
Qed.

Section remove.
Context (p0 : CTxMemPool) (H0 : pool_wf p0) (reach : hash256 -> Prop) (reach_child : forall a b, reach a -> child p0 a b -> reach b).
(** Everything but the transactions and the counters stays. *)
Definition same_rest (p q : CTxMemPool) : Prop :=
  fSanityCheck p = fSanityCheck q /\ minerPolicyEstimator p = minerPolicyEstimator q /\ minRelayFee p = minRelayFee q /\ mapDeltas p = mapDeltas q.
Record removing (queue : list hash256) (removed : list CTransaction) (p : CTxMemPool) : Prop := {
  r_wf : pool_wf p;
  r_sub : mapTx p ⊆ mapTx p0;
  r_rest : same_rest p p0;
  r_queue : forall h, In h queue -> reach h;
  r_gone : forall h, is_Some (mapTx p0 !! h) -> mapTx p !! h = None -> reach h /\ forall b, child p0 h b -> In b queue \/ mapTx p !! b = None;
  r_removed : forall t, In t removed -> exists e, mapTx p0 !! cached_hash t = Some e /\ t = e_tx e /\ mapTx p !! cached_hash t = None;
  r_listed : forall h, is_Some (mapTx p0 !! h) -> mapTx p !! h = None -> In h (map cached_hash removed)
}.
Lemma removing_child queue removed p h e l : removing (h :: queue) removed p -> mapTx p !! h = Some e ->
  (forall b, In b l <-> exists j it, 0 <= j < 0 + Z.of_nat (length (vout (tx (e_tx e)))) /\ mapNextTx p !! mkOutPoint h j = Some it /\ ptx it = b) ->
  (forall b, In b l -> child p0 h b) /\ forall b, child p0 h b -> In b l \/ mapTx p !! b = None.
Proof using H0.
  intros Hr He Hb. assert (Hin : mapTx p0 !! h = Some e) by (apply (lookup_weaken _ _ _ _ He), Hr). split.
  - intros b Hq. apply Hb in Hq as (j & it & Hj & Ho & Hpt). exists e. split; [done|]. exists j, it. split; [lia|]. split; [|done].
    destruct (wf_next p (r_wf _ _ _ Hr) _ _ Ho) as (e' & i & x & He' & Hz & Hx & Hi & Hpr). rewrite <- Hpr.
    assert (it = mkInPoint (ptx it) (Z.of_nat i)) as -> by (destruct it; cbn in *; by subst). apply (wf_marked p0 H0 _ e'); [|done|done]. apply (lookup_weaken _ _ _ _ He'), Hr.
  - intros b (e0 & He0 & j & it & Hj & Ho & Hpt). assert (e0 = e) as -> by congruence.
    destruct (mapTx p !! b) eqn:Eb; [left|by right]. apply Hb. exists j, it. split; [lia|]. split; [|done].
    apply (mark_left p0 p); [done|apply Hr|apply Hr|done|]. rewrite Hpt. eauto.
Qed.
Lemma removing_step queue removed p h e l : removing (h :: queue) removed p -> mapTx p !! h = Some e ->
  (forall b, In b l <-> exists j it, 0 <= j < 0 + Z.of_nat (length (vout (tx (e_tx e)))) /\ mapNextTx p !! mkOutPoint h j = Some it /\ ptx it = b) ->
  removing (queue ++ l) (removed ++ [e_tx e]) (erase_entry h e p).
Proof using H0 reach_child.
  intros Hr He Hb. destruct (removing_child _ _ _ _ _ _ Hr He Hb) as [Hchild Hfound].
  assert (Hin : mapTx p0 !! h = Some e) by (apply (lookup_weaken _ _ _ _ He), Hr). assert (Hkey : cached_hash (e_tx e) = h) by apply (wf_key p0 H0 _ _ Hin).
  constructor; cbn [erase_entry set_txs mapTx].
  - apply erase_entry_wf; [apply Hr|done].
  - transitivity (mapTx p); [apply delete_subseteq|apply Hr].
  - apply Hr.
  - intros b [Hq|Hq]%in_app_iff; [apply Hr; by right|]. apply (reach_child h b); [apply Hr; by left|auto].
  - intros a Ha Hd. destruct (decide (a = h)) as [->|Hne].
    + split; [apply Hr; by left|]. intros b Hc. destruct (Hfound b Hc) as [|Hn]; [left; apply in_app_iff; by right|right]. apply lookup_delete_None. by right.
    + rewrite lookup_delete_ne in Hd by done. destruct (r_gone _ _ _ Hr a Ha Hd) as [Hre Hc]. split; [done|]. intros b Hb'. destruct (Hc b Hb') as [[<-|Hq]|Hn].
      * right. apply lookup_delete_eq.
      * left. apply in_app_iff. by left.
      * right. apply lookup_delete_None. by right.
  - intros t [Ht|[<-|[]]]%in_app_iff.
    + destruct (r_removed _ _ _ Hr t Ht) as (e' & He' & Ht' & Hn). exists e'. split; [done|]. split; [done|]. apply lookup_delete_None. by right.
    + exists e. rewrite Hkey. split; [done|]. split; [done|]. apply lookup_delete_eq.
  - intros a Ha Hd. rewrite map_app, in_app_iff. destruct (decide (a = h)) as [->|Hne]; [right; cbn; by left|left]. rewrite lookup_delete_ne in Hd by done. by apply (r_listed _ _ _ Hr).
Qed.
Lemma removing_skip queue removed p h : removing (h :: queue) removed p -> mapTx p !! h = None -> removing queue removed p.
Proof.
  intros [? ? ? Hq Hg ? ?] Hn. constructor; try done; [intros a Ha; apply Hq; by right|]. intros a Ha Hd. destruct (Hg a Ha Hd) as [Hr Hc]. split; [done|].
  intros b Hb. destruct (Hc b Hb) as [[<-|]|]; auto.
Qed.
Lemma remove_loop_spec fuel queue removed p r0 : removing queue removed p -> (length queue + entries_weight (mapTx p) <= fuel)%nat ->
  exists more p', remove_loop fuel true queue (r0 ++ removed) p = Some (r0 ++ more, p') /\ removing [] more p' /\ mapTx p' ⊆ mapTx p /\
    forall h, In h queue -> mapTx p' !! h = None.
Proof using H0 reach_child.
  revert queue removed p. induction fuel as [|fuel IH]; intros queue removed p Hr Hf; destruct queue as [|h queue]; cbn [remove_loop]; try (cbn in Hf; lia); try by exists removed, p.
  destruct (mapTx p !! h) as [e|] eqn:He.
  - destruct (spenders_spec p h (vout (tx (e_tx e))) 0 (r_wf _ _ _ Hr)) as (l & -> & Hl & Hb). cbn [mbind option_bind].
    destruct (IH _ _ _ (removing_step _ _ _ _ _ _ Hr He Hb)) as (more & p' & E & Hfin & Hsub & Hgone).
    + rewrite (weight_delete _ _ _ He) in Hf. cbn [erase_entry set_txs mapTx]. rewrite length_app. cbn [length] in Hf. lia.
    + exists more, p'. rewrite <- app_assoc. cbn [erase_entry set_txs mapTx] in Hsub. split; [exact E|]. split; [done|]. split; [transitivity (delete h (mapTx p)); [done|apply delete_subseteq]|].
      intros a [<-|Ha]; [|apply Hgone, in_app_iff; by left]. destruct (mapTx p' !! h) as [e'|] eqn:E'; [|done]. pose proof (lookup_weaken _ _ _ _ E' Hsub) as Hd. by rewrite lookup_delete_eq in Hd.
  - destruct (IH _ _ _ (removing_skip _ _ _ _ Hr He)) as (more & p' & E & Hfin & Hsub & Hgone); [cbn [length] in Hf; lia|]. exists more, p'. split; [done|]. split; [done|]. split; [done|].
    intros a [<-|Ha]; [|auto]. destruct (mapTx p' !! h) as [e'|] eqn:E'; [|done]. pose proof (lookup_weaken _ _ _ _ E' Hsub) as Hd. congruence.
Qed.
End remove.

(** The transactions that go with [t]: itself, or those that spend it when it is not in the
    pool, and all that depend on them. *)
Definition start (p : CTxMemPool) (t : CTransaction) (b : hash256) : Prop :=
  b = cached_hash t \/ mapTx p !! cached_hash t = None /\ spends_from p (length (vout (tx t))) (cached_hash t) b.
Definition gone_with (p : CTxMemPool) (t : CTransaction) (h : hash256) : Prop := is_Some (mapTx p !! h) /\ exists s, start p t s /\ rtc (child p) s h.
Lemma child_in_pool p a b : pool_wf p -> child p a b -> is_Some (mapTx p !! b).
Proof. intros Hp (e & _ & j & it & _ & Ho & <-). destruct (wf_next p Hp _ _ Ho) as (e' & _ & _ & He & _). eauto. Qed.
Lemma pool_exists_spec p h : pool_exists p h = true <-> is_Some (mapTx p !! h).
Proof. unfold pool_exists. by rewrite bool_decide_eq_true. Qed.
Lemma remove_recursive_spec p t r0 : pool_wf p -> exists more p', remove t r0 true p = Some (r0 ++ more, p') /\ pool_wf p' /\ same_rest p' p /\ mapTx p' ⊆ mapTx p /\
  (forall h, is_Some (mapTx p !! h) -> (mapTx p' !! h = None <-> gone_with p t h)) /\
  (forall u, In u more <-> gone_with p t (cached_hash u) /\ GetTx p (cached_hash u) = Some u).
Proof.
  intros Hp. set (reach := fun h => exists s, start p t s /\ rtc (child p) s h).
  assert (reach_child : forall a b, reach a -> child p a b -> reach b) by (intros a b (s & Hs & Hr) Hc; exists s; split; [done|by eapply rtc_r]).
  unfold remove. assert (exists more, (if true && negb (pool_exists p (cached_hash t)) then spenders p (cached_hash t) (vout (tx t)) 0 else Some []) = Some more /\
    forall b, In b (cached_hash t :: more) <-> start p t b) as (more & -> & Hmore).
  { cbn [andb]. destruct (pool_exists p (cached_hash t)) eqn:Ex; cbn [negb].
    - exists []. split; [done|]. intros b. unfold start. apply pool_exists_spec in Ex as [e He]. cbn. split; [intros [<-|[]]; by left|intros [->|[Hn _]]; [by left|congruence]].
    - destruct (spenders_spec p (cached_hash t) (vout (tx t)) 0 Hp) as (l & -> & _ & Hb). exists l. split; [done|]. intros b. cbn [In]. rewrite Hb. unfold start, spends_from.
      assert (mapTx p !! cached_hash t = None) as Hn by (apply eq_None_not_Some; rewrite <- pool_exists_spec, Ex; done). split; intros [E|E]; auto. right. by destruct E. }
  cbn [mbind option_bind]. destruct (remove_loop_spec p Hp reach reach_child (S (length more) + entries_weight (mapTx p)) (cached_hash t :: more) [] p r0) as (l & p' & E & Hr & Hsub & Hq).
  { constructor; try done.
    - intros h Hh%Hmore. exists h. split; [done|]. apply rtc_refl.
    - intros h [e He] Hn. congruence.
    - intros h [e He] Hn. congruence. }
  { cbn [length]. lia. }
  rewrite app_nil_r in E. exists l, p'. split; [exact E|]. split; [apply Hr|]. split; [apply Hr|]. split; [done|].
  assert (closed : forall h, reach h -> mapTx p' !! h = None).
  { intros h (s & Hs & Hrt). apply Hmore in Hs. induction Hrt as [s|s b h Hc Hrt IH]; [by apply Hq|].
    assert (mapTx p' !! s = None) as Hn by by apply Hq. destruct Hc as (e & He & Hsp).
    destruct (r_gone _ _ _ _ _ Hr s ltac:(eauto) Hn) as [_ Hcl]. destruct (Hcl b) as [[]|Hb]; [by exists e|].
    clear IH Hs. revert b Hrt Hb Hsp. intros b Hrt Hb _. clear s e He Hn Hcl. induction Hrt as [b|b d h Hc Hrt IH]; [done|].
    apply IH. destruct Hc as (e & He & Hsp). destruct (r_gone _ _ _ _ _ Hr b ltac:(eauto) Hb) as [_ Hcl]. destruct (Hcl d) as [[]|]; [by exists e|done]. }
  split.
  - intros h Hh. split; [|intros [_ Hg]; by apply closed]. intros Hn. split; [done|]. apply (r_gone _ _ _ _ _ Hr h Hh Hn).
  - intros u. split.
    + intros Hu. destruct (r_removed _ _ _ _ _ Hr u Hu) as (e & He & Hue & Hn). split; [split; [eauto|apply (r_gone _ _ _ _ _ Hr (cached_hash u)); eauto]|]. unfold GetTx. rewrite He. cbn. by rewrite Hue.
    + intros [[Hin Hg] Hu]. apply closed in Hg as Hn. pose proof (r_listed _ _ _ _ _ Hr _ Hin Hn) as Hl. apply in_map_iff in Hl as (w & Hw & Hl).
      destruct (r_removed _ _ _ _ _ Hr w Hl) as (e & He & Hwe & _). unfold GetTx in Hu. rewrite <- Hw, He in Hu. cbn in Hu. injection Hu as <-. by rewrite <- Hwe.
Qed.
Lemma remove_one_spec p t r0 : remove t r0 false p = Some match mapTx p !! cached_hash t with Some e => (r0 ++ [e_tx e], erase_entry (cached_hash t) e p) | None => (r0, p) end.
Proof. unfold remove. cbn [andb mbind option_bind length Nat.add remove_loop]. destruct (mapTx p !! cached_hash t); [|by destruct (entries_weight _)]. cbn [app]. by destruct (entries_weight _). Qed.

(** ** The other operations *)

Lemma marks_sub p p' : pool_wf p -> pool_wf p' -> mapTx p' ⊆ mapTx p -> mapNextTx p' ⊆ mapNextTx p.
Proof.
  intros Hp Hp' Hs. apply map_subseteq_spec. intros o it Ho. destruct (wf_next p' Hp' _ _ Ho) as (e & i & x & He & Hz & Hx & Hi & <-).
  rewrite (wf_marked p Hp (ptx it) e i x (lookup_weaken _ _ _ _ He Hs) Hz Hx). destruct it. cbn in *. by subst.
Qed.
Lemma same_rest_refl p : same_rest p p.
Proof. done. Qed.
Lemma same_rest_trans p q r : same_rest p q -> same_rest q r -> same_rest p r.
Proof. unfold same_rest. intuition congruence. Qed.
Lemma conflicts_loop_spec t l removed p : pool_wf p -> exists more p', conflicts_loop t l removed p = Some (removed ++ more, p') /\ pool_wf p' /\ same_rest p' p /\ mapTx p' ⊆ mapTx p /\
  forall x it, In x l -> mapNextTx p' !! prevout x = Some it -> ptx it = cached_hash t.
Proof.
  revert removed p. induction l as [|x l IH]; intros removed p Hp; cbn [conflicts_loop].
  { exists [], p. rewrite app_nil_r. by split_and!. }
  destruct (mapNextTx p !! prevout x) as [it|] eqn:Hit.
  - destruct (wf_next p Hp _ _ Hit) as (e & i & y & He & Hz & Hy & Hi & Hpy). unfold GetTx. rewrite He. cbn [fmap option_fmap option_map mbind option_bind]. pose proof (wf_key p Hp _ _ He) as Hk. rewrite Hk.
    destruct (bool_decide_reflect (ptx it <> cached_hash t)) as [Hne|Heq].
    + destruct (remove_recursive_spec p (e_tx e) removed Hp) as (more1 & p1 & -> & Hp1 & Hr1 & Hs1 & Hg1 & _). cbn [mbind option_bind].
      destruct (IH (removed ++ more1) p1 Hp1) as (more2 & p2 & E2 & Hp2 & Hr2 & Hs2 & Hx2). exists (more1 ++ more2), p2. rewrite app_assoc. split; [done|]. split; [done|]. split; [by eapply same_rest_trans|]. split; [by transitivity (mapTx p1)|].
      intros z it' [<-|Hz']; [|by apply Hx2]. intros Hit'. exfalso. assert (it' = it) as ->.
      { pose proof (lookup_weaken _ _ _ _ Hit' (marks_sub p p2 Hp Hp2 ltac:(by transitivity (mapTx p1)))) as Hw. congruence. }
      destruct (wf_next p2 Hp2 _ _ Hit') as (e' & _ & _ & He' & _). apply (lookup_weaken _ _ _ _ He') in Hs2.
      assert (mapTx p1 !! ptx it = None) as Hn; [|congruence]. apply Hg1; [eauto|]. split; [eauto|]. exists (ptx it). split; [left; congruence|apply rtc_refl].
    + cbn [mbind option_bind]. destruct (IH removed p Hp) as (more2 & p2 & E2 & Hp2 & Hr2 & Hs2 & Hx2). exists more2, p2. split_and!; try done.
      intros z it' [<-|Hz']; [|by apply Hx2]. intros Hit'. pose proof (lookup_weaken _ _ _ _ Hit' (marks_sub p p2 Hp Hp2 Hs2)) as Hw. rewrite Hit in Hw. injection Hw as <-. by destruct (decide (ptx it = cached_hash t)).
  - destruct (IH removed p Hp) as (more2 & p2 & E2 & Hp2 & Hr2 & Hs2 & Hx2). exists more2, p2. split_and!; try done.
    intros z it' [<-|Hz']; [|by apply Hx2]. intros Hit'. pose proof (lookup_weaken _ _ _ _ Hit' (marks_sub p p2 Hp Hp2 Hs2)) as Hw. congruence.
Qed.

(** The invariant with the estimator. *)
Record pool_ok (p : CTxMemPool) : Prop := {
  po_wf : pool_wf p;
  po_est : est_ok (minerPolicyEstimator p);
  po_value : forall h e, mapTx p !! h = Some e -> has_value e
}.
Lemma pool_ok_sub p p' : pool_ok p -> pool_wf p' -> same_rest p' p -> mapTx p' ⊆ mapTx p -> pool_ok p'.
Proof. intros [? ? Hv] Hw (_ & He & _) Hs. constructor; [done|by rewrite He|]. intros h e Hh. apply (Hv h). by eapply lookup_weaken. Qed.
Lemma set_estimator_wf m p : pool_wf p -> pool_wf (set_estimator m p).
Proof. intros [? ? ? ? ? ?]. by constructor. Qed.
Lemma set_deltas_ok d p : pool_ok p -> pool_ok (set_deltas d p).
Proof. intros [[? ? ? ? ? ?] ? ?]. constructor; [by constructor|done|done]. Qed.
Lemma addUnchecked_ok h e p : pool_ok p -> addable h e p -> has_value e -> pool_ok (addUnchecked h e p).
Proof.
  intros [Hw He Hv] Ha Hval. constructor; [by apply addUnchecked_wf|done|]. unfold addUnchecked. cbn [set_txs mapTx]. intros h' e'.
  destruct (decide (h' = h)) as [->|Hne]; [rewrite lookup_insert_eq; by intros [= <-]|rewrite lookup_insert_ne by done; apply Hv].
Qed.
Lemma remove_ok t r0 rec p : pool_ok p -> exists more p', remove t r0 rec p = Some (r0 ++ more, p') /\ pool_ok p' /\ mapTx p' ⊆ mapTx p /\ mapTx p' !! cached_hash t = None.
Proof.
  intros Hp. destruct rec.
  - destruct (remove_recursive_spec p t r0 (po_wf p Hp)) as (more & p' & E & Hw & Hr & Hs & Hg & _). exists more, p'. split; [done|]. split; [by apply (pool_ok_sub p)|]. split; [done|].
    destruct (mapTx p' !! cached_hash t) as [e|] eqn:Ee; [|done]. pose proof (lookup_weaken _ _ _ _ Ee Hs) as Ep. rewrite <- Ee. apply Hg; [eauto|]. split; [eauto|]. exists (cached_hash t). split; [by left|apply rtc_refl].
  - rewrite remove_one_spec. destruct (mapTx p !! cached_hash t) as [e|] eqn:Ee.
    + exists [e_tx e], (erase_entry (cached_hash t) e p). split; [done|]. split; [|split; [apply delete_subseteq|apply lookup_delete_eq]].
      apply (pool_ok_sub p); [done|by apply erase_entry_wf; [apply Hp|]|done|apply delete_subseteq].
    + exists [], p. by rewrite app_nil_r.
Qed.
Lemma removeConflicts_ok t r0 p : pool_ok p -> exists more p', removeConflicts t r0 p = Some (r0 ++ more, p') /\ pool_ok p' /\ mapTx p' ⊆ mapTx p /\
  forall x it, In x (vin (tx t)) -> mapNextTx p' !! prevout x = Some it -> ptx it = cached_hash t.
Proof.
  intros Hp. destruct (conflicts_loop_spec t (vin (tx t)) r0 p (po_wf p Hp)) as (more & p' & E & Hw & Hr & Hs & Hx). exists more, p'. split; [done|]. split; [by apply (pool_ok_sub p)|]. done.
Qed.
(** After the loop over a block, none of its transactions is in the pool, and no transaction
    of the pool spends what the block spends. *)
Lemma block_loop_ok vtx conflicts p : pool_ok p -> exists more p', block_loop vtx conflicts p = Some (conflicts ++ more, p') /\ pool_ok p' /\ mapTx p' ⊆ mapTx p /\
  forall t, In t vtx -> mapTx p' !! cached_hash t = None /\ forall x, In x (vin (tx t)) -> mapNextTx p' !! prevout x = None.
Proof.
  revert conflicts p. induction vtx as [|t vtx IH]; intros conflicts p Hp; cbn [block_loop]; [exists [], p; by rewrite app_nil_r|].
  destruct (remove_ok t [] false p Hp) as (m1 & p1 & -> & Hp1 & Hs1 & Hn1). cbn [mbind option_bind].
  destruct (removeConflicts_ok t conflicts p1 Hp1) as (m2 & p2 & -> & Hp2 & Hs2 & Hx2). cbn [mbind option_bind].
  destruct (IH (conflicts ++ m2) (ClearPrioritisation (cached_hash t) p2)) as (m3 & p3 & E & Hp3 & Hs3 & Hx3); [by apply set_deltas_ok|]. cbn [ClearPrioritisation set_deltas mapTx] in Hs3.
  exists (m2 ++ m3), p3. rewrite app_assoc. split; [done|]. split; [done|]. split; [transitivity (mapTx p2); [done|by transitivity (mapTx p1)]|].
  intros u [<-|Hu]; [|by apply Hx3]. assert (mapTx p3 !! cached_hash t = None) as Hn3.
  { destruct (mapTx p3 !! cached_hash t) eqn:E3; [|done]. apply (lookup_weaken _ _ _ _ E3) in Hs3. apply (lookup_weaken _ _ _ _ Hs3) in Hs2. congruence. }
  split; [done|]. intros x Hx. destruct (mapNextTx p3 !! prevout x) as [it|] eqn:Hit; [|done]. exfalso.
  destruct (wf_next p3 (po_wf p3 Hp3) _ _ Hit) as (e & _ & _ & He & _).
  pose proof (lookup_weaken _ _ _ _ Hit (marks_sub p2 p3 (po_wf p2 Hp2) (po_wf p3 Hp3) Hs3)) as Hit2. rewrite (Hx2 x it Hx Hit2) in He. congruence.
Qed.
Lemma removeForBlock_ok shuffle vtx n conflicts p : (forall i l, shuffle i l ≡ₚ l) -> pool_ok p -> exists more p', removeForBlock shuffle vtx n conflicts p = Some (conflicts ++ more, p') /\ pool_ok p' /\ mapTx p' ⊆ mapTx p /\
  forall t, In t vtx -> mapTx p' !! cached_hash t = None /\ forall x, In x (vin (tx t)) -> mapNextTx p' !! prevout x = None.
Proof.
  intros Hperm Hp. unfold removeForBlock. destruct (seenBlock_ok shuffle Hperm (omap (fun t => mapTx p !! cached_hash t) vtx) (i32 n) (minRelayFee p) (minerPolicyEstimator p) (po_est p Hp)) as (m & -> & Hm & _).
  - induction vtx as [|t vtx IH]; cbn; [constructor|]. destruct (mapTx p !! cached_hash t) eqn:E; [constructor; [by eapply (po_value p Hp)|done]|done].
  - cbn [mbind option_bind]. apply (block_loop_ok vtx conflicts (set_estimator m p)). destruct Hp. constructor; [by apply set_estimator_wf|done|done].
Qed.
Lemma remove_all_ok l p : pool_ok p -> exists p', remove_all l p = Some p' /\ pool_ok p' /\ mapTx p' ⊆ mapTx p /\ forall t, In t l -> mapTx p' !! cached_hash t = None.
Proof.
  revert p. induction l as [|t l IH]; intros p Hp; cbn [remove_all]; [by exists p|]. destruct (remove_ok t [] true p Hp) as (m & p1 & -> & Hp1 & Hs1 & Hn1). cbn [mbind option_bind].
  destruct (IH p1 Hp1) as (p2 & E & Hp2 & Hs2 & Hn2). exists p2. split; [done|]. split; [done|]. split; [by transitivity (mapTx p1)|]. intros u [<-|Hu]; [|auto].
  destruct (mapTx p2 !! cached_hash t) eqn:E2; [|done]. apply (lookup_weaken _ _ _ _ E2) in Hs2. congruence.
Qed.
Lemma clear_ok p : pool_ok p -> pool_ok (clear p).
Proof. intros [_ He _]. constructor; [|done|]; [constructor|]; cbn [clear set_txs mapTx mapNextTx totalTxSize]; intros; try done; match goal with H : ∅ !! _ = Some _ |- _ => by rewrite lookup_empty in H end. Qed.

(** ** The consistency check *)

(** The output an input names: in the pool, or available. *)
Definition sourced (view : hash256 -> option CCoins) (p : CTxMemPool) (o : COutPoint) : Prop :=
  match mapTx p !! out_hash o with
  | Some e => exists out, vout (tx (e_tx e)) !! Z.to_nat (out_n o) = Some out /\ TxOut_IsNull out = false
  | None => exists c, view (out_hash o) = Some c /\ IsAvailable c (out_n o) = true
  end.
Definition backed (view : hash256 -> option CCoins) (p : CTxMemPool) : Prop :=
  forall h e x, mapTx p !! h = Some e -> zc e = false -> In x (inputs e) -> sourced view p (prevout x).
Lemma check_next_spec p : pool_wf p -> check_next p = true.
Proof.
  intros Hp. apply forallb_forall. intros [o it] Ho%list_elem_of_In%elem_of_map_to_list. destruct (wf_next p Hp _ _ Ho) as (e & i & x & He & _ & Hx & Hi & Hpx).
  unfold GetTx. rewrite He. cbn [fmap option_fmap option_map]. rewrite (wf_key p Hp _ _ He), He, Hi, Nat2Z.id. unfold inputs in Hx. rewrite Hx.
  rewrite !bool_decide_eq_true_2; [done|done|done|by eexists].
Qed.
Section check.
Context {S : Type} `{CCoinsViewLaws S}.
Lemma check_source_spec p o (d : CCoinsViewCache (CCoinsViewCache S)) : cache_inv (base d) -> sourced (cache_view (base d)) p o ->
  exists b d', check_source p o d = Some (b, d') /\ cache_inv (base d') /\ forall k, cache_view (base d') k = cache_view (base d) k.
Proof.
  intros Hd Hs. unfold check_source, sourced in *. destruct (mapTx p !! out_hash o) as [e|].
  - destruct Hs as (out & -> & Hn). cbn [mbind option_bind]. rewrite Hn. by eexists _, _.
  - destruct Hs as (c & Hc & Ha). unfold AccessCoins. destruct (FetchCoins_spec (out_hash o) (base d) Hd) as (e & c' & -> & He & Hi & Hv & _).
    rewrite He, Hc. cbn [mbind option_bind]. rewrite Ha. eexists _, _. split; [reflexivity|]. done.
Qed.
(** The assertions of the first loop hold for each entry. *)
Lemma check_inputs_spec p h l i wait (d : CCoinsViewCache (CCoinsViewCache S)) : pool_wf p -> cache_inv (base d) ->
  (forall k x, l !! k = Some x -> sourced (cache_view (base d)) p (prevout x) /\ mapNextTx p !! prevout x = Some (mkInPoint h (i + Z.of_nat k))) ->
  exists b d', check_inputs p h l i wait d = Some (b, d') /\ cache_inv (base d') /\ forall k, cache_view (base d') k = cache_view (base d) k.
Proof.
  intros Hp. revert i wait d. induction l as [|x l IH]; intros i wait d Hd Hl; cbn [check_inputs]; [by eexists _, _|].
  destruct (Hl 0%nat x eq_refl) as [Hs Hm]. destruct (check_source_spec p (prevout x) d Hd Hs) as (b & d1 & -> & Hd1 & Hv1). cbn [mbind option_bind].
  unfold check_mark. rewrite Hm. cbn [mbind option_bind]. cbn [ptx in_n]. rewrite bool_decide_eq_true_2 by done. assert ((i + Z.of_nat 0 =? i) = true) as -> by (apply Z.eqb_eq; lia). cbn [andb mbind option_bind].
  destruct (IH (i + 1) (wait || b) d1 Hd1) as (b2 & d2 & E & Hd2 & Hv2).
  - intros k y Hk. destruct (Hl (Datatypes.S k) y Hk) as [Hsy Hmy]. split; [|by replace (i + 1 + Z.of_nat k) with (i + Z.of_nat (Datatypes.S k)) by lia].
    unfold sourced in *. destruct (mapTx p !! out_hash (prevout y)); [done|]. by rewrite Hv1.
  - exists b2, d2. split; [done|]. split; [done|]. intros k. by rewrite Hv2.
Qed.
Lemma entry_checks p h e (d : CCoinsViewCache (CCoinsViewCache S)) : pool_wf p -> cache_inv (base d) -> backed (cache_view (base d)) p ->
  mapTx p !! h = Some e -> zc e = false -> exists b d', check_inputs p h (vin (tx (e_tx e))) 0 false d = Some (b, d').
Proof.
  intros Hp Hd Hb He Hz. destruct (check_inputs_spec p h (inputs e) 0 false d Hp Hd) as (b & d' & E & _); [|by exists b, d'].
  intros k x Hk. split; [eapply Hb; [done..|]; apply list_elem_of_In; by eapply list_elem_of_lookup_2|]. by apply (wf_marked p Hp h e).
Qed.
End check.

(** The fuel of the loop over the waiting transactions is enough: each that is connected allows
    a round of the others. *)
Section waiting.
Context {S : Type} `{CCoinsView S} (Verify : valtype -> hash256 -> valtype -> bool) (index_height : hash256 -> option Z) (params : CChainParams).
Lemma waiting_enough fuel k l steps (d : CCoinsViewCache (CCoinsViewCache S)) : 0 <= steps -> l = [] \/ steps < Z.of_nat (length l) -> Z.of_nat (length l) < 2 ^ 32 ->
  Z.of_nat (length l) * (Z.of_nat (length l) + 1) - steps <= Z.of_nat fuel ->
  waiting_loop Verify index_height params (fuel + k) l steps d = waiting_loop Verify index_height params fuel l steps d.
Proof.
  revert l steps d. induction fuel as [|fuel IH]; intros l steps d Hs Hl Hlen Hf; destruct l as [|t l]; cbn [waiting_loop Nat.add]; try done.
  - by destruct k.
  - cbn [length] in *. destruct Hl; [done|]. lia.
  - cbn [length] in *. destruct Hl as [|Hl]; [done|]. destruct (HaveInputs t d) as [have d1]. destruct have; cbn [negb].
    + destruct (check_connect Verify index_height params t d1) as [d2|]; [|done]. cbn [mbind option_bind]. apply IH; [lia| |lia|lia]. destruct l; [by left|right; cbn [length]; lia].
    + rewrite u32_small by lia. rewrite length_app. cbn [length]. destruct (Z.ltb_spec (steps + 1) (Z.of_nat (length l + 1))); [|done].
      apply IH; rewrite ?length_app; cbn [length]; [lia|right; lia|lia|lia].
Qed.
Lemma waiting_total l k (d : CCoinsViewCache (CCoinsViewCache S)) : Z.of_nat (length l) < 2 ^ 32 ->
  waiting_loop Verify index_height params (Datatypes.S (length l) * Datatypes.S (length l) + k) l 0 d = waiting_loop Verify index_height params (Datatypes.S (length l) * Datatypes.S (length l)) l 0 d.
Proof. intros Hl. apply waiting_enough; [lia|destruct l; [by left|right; cbn [length]; lia]|done|lia]. Qed.
End waiting.
