(* ===== verification/MemPoolProps.v ===== *)
(** Histories of the memory pool: every sequence of its operations, the invariant, and what a
    removal takes away. *)
From Stdlib Require Import Floats.SpecFloat.
From stdpp Require Import sorting.
From S2P Require Import Prelude Serialize Script Merkle Transaction Coins CoinsView Subsidy TxChecks Ledger FeeEstimator MemPool MemPoolInv.
Set Default Proof Using "Type".

(** ** Histories *)

Section histories.
Context {S : Type} `{CCoinsViewLaws S}.
Context (random_shuffle : nat -> list CTxMemPoolEntry -> list CTxMemPoolEntry) (shuffle_perm : forall i l, random_shuffle i l ≡ₚ l).
Context (params : CChainParams).

(** The operations that change a pool; the result of a removal is dropped. *)
Inductive pool_op : Type :=
| OpAdd (hash : hash256) (entry : CTxMemPoolEntry)
| OpRemove (t : CTransaction) (fRecursive : bool)
| OpConflicts (t : CTransaction)
| OpBlock (vtx : list CTransaction) (nBlockHeight : Z)
| OpCoinbaseSpends (nMemPoolHeight : Z) (pcoins : CCoinsViewCache S)
| OpPrioritise (hash : hash256) (dPriorityDelta : spec_float) (nFeeDelta : CAmount)
| OpClearPrioritisation (hash : hash256)
| OpClear
| OpUpdated (n : Z)
| OpSanity (fSanityCheck : bool)
| OpEstimateFee (nBlocks : Z)
| OpEstimatePriority (nBlocks : Z).
Definition run_op (op : pool_op) (p : CTxMemPool) : option CTxMemPool :=
  match op with
  | OpAdd hash entry => Some (addUnchecked hash entry p)
  | OpRemove t fRecursive => snd <$> remove t [] fRecursive p
  | OpConflicts t => snd <$> removeConflicts t [] p
  | OpBlock vtx n => snd <$> removeForBlock random_shuffle vtx n [] p
  | OpCoinbaseSpends n pcoins => fst <$> removeCoinbaseSpends params n p pcoins
  | OpPrioritise hash d n => Some (PrioritiseTransaction hash d n p)
  | OpClearPrioritisation hash => Some (ClearPrioritisation hash p)
  | OpClear => Some (clear p)
  | OpUpdated n => Some (AddTransactionsUpdated n p)
  | OpSanity b => Some (setSanityCheck b p)
  | OpEstimateFee n => snd <$> pool_estimateFee n p
  | OpEstimatePriority n => snd <$> pool_estimatePriority n p
  end.
(** The transactions that those of the pool spend, and that are not in the pool, are in the
    view [c]. *)
Definition all_found (p : CTxMemPool) (c : CCoinsViewCache S) : Prop :=
  cache_inv c /\ forall h e x, mapTx p !! h = Some e -> In x (vin (tx (e_tx e))) -> pool_exists p (out_hash (prevout x)) = false ->
    cache_view c (out_hash (prevout x)) <> None.
(** What the callers promise: an entry may be added, and [removeCoinbaseSpends] is called with
    its assertion off or with a view in which everything that is spent is found. *)
Definition allowed (op : pool_op) (p : CTxMemPool) : Prop :=
  match op with
  | OpAdd hash entry => addable hash entry p /\ has_value entry
  | OpCoinbaseSpends _ c => fSanityCheck p = false \/ all_found p c
  | _ => True
  end.
Inductive pool_history (minRelayFee : CFeeRate) : CTxMemPool -> Prop :=
| history_new : pool_history minRelayFee (CTxMemPool_new 0 minRelayFee)
| history_op p op p' : pool_history minRelayFee p -> allowed op p -> run_op op p = Some p' -> pool_history minRelayFee p'.

Lemma pool_new_ok minRelayFee : pool_ok (CTxMemPool_new 0 minRelayFee).
Proof.
  constructor; cbn [CTxMemPool_new mapTx minerPolicyEstimator].
  - constructor; cbn [CTxMemPool_new mapTx mapNextTx totalTxSize]; try done; intros *; by rewrite lookup_empty.
  - constructor; cbn; [discriminate|repeat constructor; cbn; lia|by left|by left].
  - intros *. by rewrite lookup_empty.
Qed.
Lemma set_estimator_ok m p : pool_ok p -> est_ok m -> pool_ok (set_estimator m p).
Proof. intros [] ?. constructor; [by apply set_estimator_wf|done|done]. Qed.
Lemma pool_flags_ok b u p : pool_ok p -> pool_ok (setSanityCheck b p) /\ pool_ok (AddTransactionsUpdated u p).
Proof. intros [[] ? ?]. by split; (constructor; [constructor|..]). Qed.
Lemma AccessCoins_keeps h (c : CCoinsViewCache S) : cache_inv c ->
  exists r c', AccessCoins h c = (r, c') /\ cache_inv c' /\ (forall k, cache_view c' k = cache_view c k) /\ r = cache_view c h.
Proof.
  intros Hc. destruct (FetchCoins_spec h c Hc) as (e & c' & HF & He & Hi & Hv & _). unfold AccessCoins. rewrite HF. by eexists _, _.
Qed.
(** The view in which the inputs in [l] are looked up, where that is asserted. *)
Definition reads (p : CTxMemPool) (l : list CTxIn) (c : CCoinsViewCache S) : Prop :=
  fSanityCheck p = false \/
  (cache_inv c /\ Forall (fun x => pool_exists p (out_hash (prevout x)) = false -> cache_view c (out_hash (prevout x)) <> None) l).
Lemma immature_input_total p n l (c : CCoinsViewCache S) : reads p l c ->
  exists b c', immature_input params p n l c = Some (b, c') /\ (fSanityCheck p = false \/ (cache_inv c' /\ forall k, cache_view c' k = cache_view c k)).
Proof.
  revert c. induction l as [|i l IH]; intros c Hr; cbn [immature_input].
  { eexists _, _. split; [done|]. destruct Hr as [|[Hc _]]; [by left|by right]. }
  assert (reads p l c) as Hl by (destruct Hr as [|[Hc Hr]]; [by left|right; split; [done|by apply Forall_cons_iff in Hr as [_ Hr]]]).
  destruct (pool_exists p (out_hash (prevout i))) eqn:Ex; [by apply IH|]. destruct Hr as [Hs|[Hc Hr]].
  - destruct (AccessCoins _ _) as [[k|] c']; [|rewrite Hs; eexists _, _; split; [done|by left]].
    destruct (_ && _); [eexists _, _; split; [done|by left]|]. destruct (IH c' (or_introl Hs)) as (b & c'' & E & Hx). exists b, c''. split; [done|by left].
  - apply Forall_cons_iff in Hr as [Hi Hr]. destruct (AccessCoins_keeps (out_hash (prevout i)) c Hc) as (r & c' & -> & Hc' & Hv & ->).
    destruct (cache_view c (out_hash (prevout i))) as [k|] eqn:Ek; [|by destruct (Hi Ex)].
    destruct (_ && _); [eexists _, _; split; [done|by right]|]. destruct (IH c') as (b & c'' & E & Hx).
    { right. split; [done|]. apply (list.Forall_impl _ _ _ Hr). intros x. by rewrite Hv. }
    exists b, c''. split; [done|]. destruct Hx as [|[Hc'' Hv'']]; [by left|right]. split; [done|]. intros k'. by rewrite Hv''.
Qed.
Lemma immature_loop_total p n l (c : CCoinsViewCache S) : fSanityCheck p = false \/ all_found p c -> Forall (fun h => is_Some (mapTx p !! h)) l -> is_Some (immature_loop params p n l c).
Proof.
  intros Hs Hl. revert c Hs. induction Hl as [|h l [e He] Hl IH]; intros c Hs; cbn [immature_loop]; [by eexists|]. unfold GetTx. rewrite He. cbn [fmap option_fmap option_map mbind option_bind].
  destruct (immature_input_total p n (vin (tx (e_tx e))) c) as (b & c' & -> & Hc').
  { destruct Hs as [|[Hc Hf]]; [by left|right]. split; [done|]. apply List.Forall_forall. intros x Hx. by apply (Hf h e). }
  cbn [mbind option_bind]. destruct (IH c') as [[r c''] ->]; [|cbn; by eexists]. destruct Hc' as [|[Hc' Hv]]; [by left|]. destruct Hs as [|[_ Hf]]; [by left|right].
  split; [done|]. intros h' e' x. rewrite Hv. apply Hf.
Qed.
Lemma hashes_in_order_spec p h : h ∈ hashes_in_order p <-> is_Some (mapTx p !! h).
Proof.
  unfold hashes_in_order. rewrite merge_sort_Permutation, list_elem_of_fmap. split.
  - intros ([h' e] & -> & He%elem_of_map_to_list). by exists e.
  - intros [e He]. exists (h, e). split; [done|]. by apply elem_of_map_to_list.
Qed.
Lemma removeCoinbaseSpends_ok n p (c : CCoinsViewCache S) : pool_ok p -> fSanityCheck p = false \/ all_found p c ->
  exists p' c', removeCoinbaseSpends params n p c = Some (p', c') /\ pool_ok p' /\ mapTx p' ⊆ mapTx p.
Proof.
  intros Hp Hs. unfold removeCoinbaseSpends. destruct (immature_loop_total p n (hashes_in_order p) c Hs) as [[l c'] ->].
  { apply Forall_forall. intros h Hh. by apply hashes_in_order_spec, list_elem_of_In. }
  cbn [mbind option_bind]. destruct (remove_all_ok l p Hp) as (p' & -> & Hp' & Hsub & _). cbn [mbind option_bind]. by exists p', c'.
Qed.
(** Each operation that is allowed succeeds and keeps the invariant. *)
Lemma run_op_ok op p : pool_ok p -> allowed op p -> exists p', run_op op p = Some p' /\ pool_ok p'.
Proof using shuffle_perm.
  intros Hp Ha. destruct op as [hash e|t rec|t|vtx n|n c|hash d f|hash| |u|b|n|n]; cbn [run_op allowed] in *.
  - destruct Ha. eexists. split; [done|]. by apply addUnchecked_ok.
  - destruct (remove_ok t [] rec p Hp) as (l & p' & -> & Hp' & _). by exists p'.
  - destruct (removeConflicts_ok t [] p Hp) as (l & p' & -> & Hp' & _). by exists p'.
  - destruct (removeForBlock_ok random_shuffle vtx n [] p shuffle_perm Hp) as (l & p' & -> & Hp' & _). by exists p'.
  - destruct (removeCoinbaseSpends_ok n p c Hp Ha) as (p' & c' & -> & Hp' & _). by exists p'.
  - eexists. split; [done|]. by apply set_deltas_ok.
  - eexists. split; [done|]. by apply set_deltas_ok.
  - eexists. split; [done|]. by apply clear_ok.
  - eexists. split; [done|]. by apply (pool_flags_ok false).
  - eexists. split; [done|]. by apply (pool_flags_ok b 0).
  - unfold pool_estimateFee. destruct (estimateFee_ok n _ (po_est p Hp)) as (f & m & -> & Hm & _). eexists. split; [done|]. by apply set_estimator_ok.
  - unfold pool_estimatePriority. destruct (estimatePriority_ok n _ (po_est p Hp)) as (f & m & -> & Hm & _). eexists. split; [done|]. by apply set_estimator_ok.
Qed.
Lemma history_ok minRelayFee p : pool_history minRelayFee p -> pool_ok p.
Proof using shuffle_perm.
  induction 1 as [|p op p' _ IH Ha E]; [apply pool_new_ok|]. destruct (run_op_ok op p IH Ha) as (p'' & E' & Hp). congruence.
Qed.

(** C21: the memory pool is consistent after every history of operations that their callers may
    ask for ([allowed]): any removal, block, prioritisation, estimate or change of flags at any
    time; the addition of an entry that is not there, under the identifier of its transaction,
    whose outputs can be summed, and whose inputs are distinct, unmarked and not null, or, for a
    zerocoin spend, all null (the code does not see to that: [zerocoin_spend_erases_marks] is
    what happens otherwise); and [removeCoinbaseSpends] when its assertion is off or when what the
    pool spends outside the pool is in the view it is given (a zerocoin spend fails the
    assertion).  Every operation that is allowed succeeds: it follows no dangling pointer and
    trips no assertion.  The transactions are stored under their identifiers, [mapNextTx] marks
    exactly their inputs and no outpoint twice, [totalTxSize] is their size; and the assertions
    of [check] on the maps hold: those on [mapNextTx], and for each entry those on its inputs
    when the outputs they name are there.  After a block none of its transactions is in the
    pool, nor any that conflicts with one. *)
Theorem mempool_invariant (minRelayFee : CFeeRate) (p : CTxMemPool) (Hp : pool_history minRelayFee p) :
  (forall op, allowed op p -> exists p', run_op op p = Some p' /\ pool_history minRelayFee p') /\
  pool_wf p /\ check_next p = true /\
  (forall h e (d : CCoinsViewCache (CCoinsViewCache S)), cache_inv (base d) -> backed (cache_view (base d)) p -> mapTx p !! h = Some e -> zc e = false ->
    exists b d', check_inputs p h (vin (tx (e_tx e))) 0 false d = Some (b, d')) /\
  (forall vtx n, exists p', run_op (OpBlock vtx n) p = Some p' /\ forall h e, mapTx p' !! h = Some e -> mapTx p !! h = Some e /\
    forall t, In t vtx -> h <> cached_hash t /\ (zc e = false -> forall x y, In x (vin (tx t)) -> In y (inputs e) -> prevout x <> prevout y)).
Proof using shuffle_perm.
  pose proof (history_ok _ _ Hp) as Hok. split_and!.
  - intros op Ha. destruct (run_op_ok op p Hok Ha) as (p' & E & _). exists p'. split; [done|]. by eapply history_op.
  - apply Hok.
  - apply check_next_spec, Hok.
  - intros h e d Hd Hb He Hz. eapply entry_checks; [apply Hok|done..].
  - intros vtx n. cbn [run_op]. destruct (removeForBlock_ok random_shuffle vtx n [] p shuffle_perm Hok) as (l & p' & -> & Hp' & Hs & Ht). exists p'. split; [done|].
    intros h e He. split; [by eapply lookup_weaken|]. intros t Hin. destruct (Ht t Hin) as [Hn Hx]. split; [congruence|]. intros Hz x y Hxt Hy Heq.
    apply list_elem_of_In, list_elem_of_lookup in Hy as [i Hy]. pose proof (wf_marked p' (po_wf p' Hp') h e i y He Hz Hy) as Hm. rewrite <- Heq, (Hx x Hxt) in Hm. done.
Qed.
End histories.

(** The payment of the witness of the ledger, and one that spends its output. *)
Definition kid : CTransaction := mkCTx (leaf 7) (mkTx 1 [mkTxIn (mkOutPoint (leaf 6) 0) [] 0 []] [mkTxOut (COIN / 4) [81] (-10)] [] 0).
Definition entry_for (t : CTransaction) : CTxMemPoolEntry := CTxMemPoolEntry_of 0 0 t 10 0 (double_of 0) 100 4.
Definition pool_half : CTxMemPool := addUnchecked (leaf 6) (entry_for half) (CTxMemPool_new 0 10000).
Definition pool_family : CTxMemPool := addUnchecked (leaf 7) (entry_for kid) pool_half.
Lemma plain_addable h e p : zc e = false -> cached_hash (e_tx e) = h -> mapTx p !! h = None -> NoDup (map prevout (inputs e)) ->
  Forall (fun x => mapNextTx p !! prevout x = None /\ out_hash (prevout x) <> hash_zero) (inputs e) -> addable h e p.
Proof. intros Hz Hk Hn Hd Hf. constructor; [done|done|done| |congruence]. intros _. by apply Forall_forall. Qed.
Lemma addable_half : addable (leaf 6) (entry_for half) (CTxMemPool_new 0 10000).
Proof.
  apply plain_addable; [reflexivity|reflexivity|apply lookup_empty|apply NoDup_singleton|].
  apply Forall_singleton. split; [apply lookup_empty|by vm_compute].
Qed.
Lemma addable_kid : addable (leaf 7) (entry_for kid) pool_half.
Proof.
  apply plain_addable; [reflexivity|reflexivity| |apply NoDup_singleton|].
  - unfold pool_half, addUnchecked. cbn [set_txs mapTx]. rewrite lookup_insert_ne by (by vm_compute). apply lookup_empty.
  - apply Forall_singleton. split; [|by vm_compute]. cbn [pool_half addUnchecked set_txs mapNextTx].
    change (mark_inputs (leaf 6) 0 (vin half) ∅ !! mkOutPoint (leaf 6) 0 = None). rewrite mark_other; [apply lookup_empty|].
    cbn. intros [Heq|[]%not_elem_of_nil]%elem_of_cons. by vm_compute in Heq.
Qed.
Lemma family_history : pool_history (S := CCoinsViewDB) (fun _ l => l) CMainParams 10000 pool_family.
Proof.
  eapply (history_op _ _ _ pool_half (OpAdd (leaf 7) (entry_for kid))); [|split; [exact addable_kid|by vm_compute]|reflexivity].
  eapply (history_op _ _ _ _ (OpAdd (leaf 6) (entry_for half))); [apply history_new|split; [exact addable_half|by vm_compute]|reflexivity].
Qed.
Lemma family_wf : pool_wf pool_family.
Proof. eapply po_wf, history_ok; [|exact family_history]. done. Qed.
Lemma family_txs : mapTx pool_family !! leaf 6 = Some (entry_for half) /\ mapTx pool_family !! leaf 7 = Some (entry_for kid).
Proof.
  change (mapTx pool_family) with (<[leaf 7 := entry_for kid]> (<[leaf 6 := entry_for half]> ∅ : gmap hash256 CTxMemPoolEntry)). split.
  - rewrite lookup_insert_ne by (by vm_compute). apply lookup_insert_eq.
  - apply lookup_insert_eq.
Qed.
Lemma family_child : child pool_family (leaf 6) (leaf 7).
Proof.
  exists (entry_for half). split; [apply family_txs|]. exists 0, (mkInPoint (leaf 7) 0). split; [by vm_compute|]. split; [|reflexivity].
  apply (wf_marked _ family_wf _ (entry_for kid) 0 (mkTxIn (mkOutPoint (leaf 6) 0) [] 0 [])); [apply family_txs|reflexivity|reflexivity].
Qed.
Lemma mempool_invariant_witness : pool_history (S := CCoinsViewDB) (fun _ l => l) CMainParams 10000 pool_family /\ check_next pool_family = true /\
  exists p', run_op (S := CCoinsViewDB) (fun _ l => l) CMainParams (OpBlock [half] 7) pool_family = Some p' /\ mapTx p' !! leaf 6 = None.
Proof.
  split; [exact family_history|]. destruct (mempool_invariant (S := CCoinsViewDB) (fun _ l => l) (fun _ l => Permutation_refl l) CMainParams 10000 pool_family family_history) as (_ & _ & Hc & _ & Hb).
  split; [exact Hc|]. destruct (Hb [half] 7) as (p' & E & Hp'). exists p'. split; [exact E|]. apply eq_None_not_Some. intros [e He].
  destruct (Hp' _ _ He) as [_ Ht]. destruct (Ht half (or_introl eq_refl)) as [Hn _]. by apply Hn.
Defined.

(** ** Removal *)

(** C22: removing a transaction from a consistent pool with its descendants terminates without
    following a dangling pointer, takes away exactly the transaction and what depends on it
    (what depends on it only, when it is not in the pool itself), lists each of them as
    removed, changes nothing of what stays, and leaves a consistent pool; without the
    descendants it takes away the transaction alone. *)
Theorem mempool_remove_correct (p : CTxMemPool) (t : CTransaction) (Hp : pool_wf p) :
  (exists removed p', remove t [] true p = Some (removed, p') /\ pool_wf p' /\ mapTx p' ⊆ mapTx p /\ mapNextTx p' ⊆ mapNextTx p /\ mapDeltas p' = mapDeltas p /\
    (forall h, is_Some (mapTx p !! h) -> (mapTx p' !! h = None <-> gone_with p t h)) /\
    (forall u, In u removed <-> gone_with p t (cached_hash u) /\ GetTx p (cached_hash u) = Some u)) /\
  exists removed p', remove t [] false p = Some (removed, p') /\ pool_wf p' /\ mapTx p' = delete (cached_hash t) (mapTx p) /\
    removed = match GetTx p (cached_hash t) with Some u => [u] | None => [] end.
Proof.
  split.
  - destruct (remove_recursive_spec p t [] Hp) as (removed & p' & E & Hw & (_ & _ & _ & Hd) & Hs & Hg & Hr). exists removed, p'.
    split_and!; try done. by apply marks_sub.
  - rewrite remove_one_spec. unfold GetTx. destruct (mapTx p !! cached_hash t) as [e|] eqn:He; cbn [fmap option_fmap option_map].
    + eexists _, _. split; [reflexivity|]. split; [by apply erase_entry_wf|done].
    + eexists _, _. split; [reflexivity|]. split; [done|]. split; [|done]. by rewrite delete_id.
Qed.
Lemma mempool_remove_correct_witness : pool_wf pool_family /\ exists removed p', remove half [] true pool_family = Some (removed, p') /\ In kid removed /\ mapTx p' !! leaf 7 = None.
Proof.
  split; [exact family_wf|]. destruct (mempool_remove_correct pool_family half family_wf) as [(removed & p' & E & _ & _ & _ & _ & Hg & Hr) _]. exists removed, p'.
  assert (gone_with pool_family half (leaf 7)) as Hk.
  { split; [exists (entry_for kid); apply family_txs|]. exists (leaf 6). split; [by left|]. apply rtc_once, family_child. }
  split; [exact E|]. split.
  - apply Hr. split; [exact Hk|]. unfold GetTx. change (cached_hash kid) with (leaf 7). by rewrite (proj2 family_txs).
  - apply Hg; [apply Hk|exact Hk].
Defined.

(** ** A zerocoin spend that names an output *)

Definition spend_with (h : hash256) (o : COutPoint) : CTransaction :=
  mkCTx h (mkTx 1 [mkTxIn (mkOutPoint hash_zero 4294967295) [OP_ZEROCOINSPEND] 1 []; mkTxIn o [OP_ZEROCOINSPEND] 1 []] [mkTxOut 0 [81] (-10)] [] 0).
(** Zerocoin spends break the marks.  The checks of a zerocoin spend ask of its second input
    only that its script begins a spend, so it may name any outpoint; [addUnchecked] sets no
    mark for a zerocoin spend, but [remove] erases those of all its inputs.  For any consistent
    pool in which a transaction spends an outpoint, a zerocoin spend that names the outpoint
    passes [CheckTransaction] whenever its proof of spending does, and after it has come and gone
    the transactions of the pool are what they were but the outpoint is no longer marked as
    spent: the pool is inconsistent, and admits a double spend. *)
Theorem zerocoin_spend_erases_marks `{ZerocoinChecks} (fVerifySignature : bool) (tipHeight : Z) (fr fw : bool) (p : CTxMemPool) (h : hash256) (o : COutPoint) (it : CInPoint)
    (Hp : pool_wf p) (Hh : mapTx p !! h = None) (Ho : mapNextTx p !! o = Some it) :
  let t := spend_with h o in
  (forall s, base_size t <= MAX_BLOCK_BASE_SIZE -> CheckZerocoinSpend t fVerifySignature tipHeight s = (true, s) ->
    CheckTransaction CMainParams fVerifySignature tipHeight t true fr fw s = (Some tt, s)) /\
  mapNextTx (addUnchecked h (entry_for t) p) = mapNextTx p /\
  exists p', remove t [] false (addUnchecked h (entry_for t) p) = Some ([t], p') /\ mapTx p' = mapTx p /\ mapNextTx p' !! o = None /\ ~ pool_wf p'.
Proof.
  intros t. assert (Tx_IsZerocoinSpend t = true) as Hz by done. split; [|split].
  - intros s Hs Hc. assert (outs_loop CMainParams true h (vout t) 0 0 s = (Some 0, s)) as E1 by done.
    assert (zerocoin_part CMainParams fVerifySignature tipHeight t 0 s = (Some tt, s)) as E2.
    { unfold zerocoin_part. rewrite Hz. unfold demand, mbind, check_bind. change (reject_if (0 >? _) _ _ _ s) with (Some tt, s). cbn iota beta.
      change (reject_if (existsb _ _) _ _ _ s) with (Some tt, s). cbn iota beta. by rewrite Hc. }
    assert (dup_loop (vin t) ∅ s = (Some tt, s)) as E3.
    { cbn [dup_loop vin t spend_with tx]. unfold mbind, check_bind. rewrite !bool_decide_eq_false_2 by apply not_elem_of_empty. done. }
    unfold CheckTransaction. change (u32 _) with (base_size t). replace (base_size t >? MAX_BLOCK_BASE_SIZE) with false by lia.
    unfold mbind, check_bind. change (cached_hash t) with h. change (reject_if (Nat.eqb _ _) 10 _ _ s) with (Some tt, s). cbn iota beta.
    change (reject_if (Nat.eqb _ _) 10 _ _ s) with (Some tt, s). cbn iota beta. change (reject_if false 100 _ _ s) with (Some tt, s). cbn iota beta. rewrite E1. cbn iota beta. by rewrite E2, E3.
  - unfold addUnchecked. change (e_tx (entry_for t)) with t. by rewrite Hz.
  - rewrite remove_one_spec. unfold addUnchecked at 1. cbn [set_txs mapTx]. change (cached_hash t) with h. rewrite lookup_insert_eq. eexists. split; [reflexivity|].
    unfold erase_entry, addUnchecked. cbn [set_txs mapTx mapNextTx]. change (e_tx (entry_for t)) with t. rewrite Hz. cbn [negb]. rewrite delete_insert_id by done. split; [done|].
    assert (unmark_inputs (vin t) (mapNextTx p) !! o = None) as Hun.
    { rewrite unmark_lookup, bool_decide_eq_true_2; [done|]. cbn. right. by left. }
    split; [exact Hun|]. intros Hw. destruct (wf_next p Hp _ _ Ho) as (e & i & x & He & Hze & Hx & Hi & Hpx).
    pose proof (wf_marked _ Hw (ptx it) e i x He Hze Hx) as Hm. rewrite Hpx in Hm. pose proof (eq_trans (eq_sym Hun) Hm). done.
Qed.
Lemma zerocoin_spend_erases_marks_witness : pool_wf pool_half /\ exists p', remove (spend_with (leaf 8) (mkOutPoint (leaf 5) 0)) [] false
  (addUnchecked (leaf 8) (entry_for (spend_with (leaf 8) (mkOutPoint (leaf 5) 0))) pool_half) = Some ([spend_with (leaf 8) (mkOutPoint (leaf 5) 0)], p') /\ ~ pool_wf p'.
Proof.
  assert (Hw : pool_wf pool_half). { apply addUnchecked_wf; [apply pool_new_ok|exact addable_half]. }
  split; [exact Hw|]. destruct (zerocoin_spend_erases_marks (H := no_zerocoin) true 0 false false pool_half (leaf 8) (mkOutPoint (leaf 5) 0) (mkInPoint (leaf 6) 0) Hw) as (_ & _ & p' & E & _ & _ & Hn).
  - change (mapTx pool_half) with (<[leaf 6 := entry_for half]> ∅ : gmap hash256 CTxMemPoolEntry). rewrite lookup_insert_ne by (by vm_compute). apply lookup_empty.
  - apply (wf_marked _ Hw _ (entry_for half) 0 (mkTxIn (mkOutPoint (leaf 5) 0) [] 0 [])); [apply lookup_insert_eq|reflexivity|reflexivity].
  - exists p'. split; [exact E|exact Hn].
Defined.
