(* ===== verification/AcceptTx.v ===== *)
(** The acceptance of loose transactions ([src/src/main.cpp]: [IsStandardTx],
    [AreInputsStandard], [GetMinRelayFee], [AcceptToMemoryPool], [AcceptableInputs];
    [CCoinsViewCache::GetPriority] of [src/src/coins.cpp]). *)
From Stdlib Require Import Floats.SpecFloat.
From S2P Require Import Prelude Serialize Stream Hashers Script SigChecks Interp Payments Merkle Transaction SigHash Compressor Coins CoinsView Standard Subsidy TxChecks Ledger FeeEstimator MemPool.

Definition MAX_STANDARD_TX_COST : Z := 400000.
Definition MAX_STANDARD_TX_SIGOPS_COST : Z := 80000 / 5.
Definition MAX_P2SH_SIGOPS : Z := 15.
Definition DEFAULT_BLOCK_PRIORITY_SIZE : Z := 90000.

(** What the functions ask of the rest of the node: the clock, the tip, sporks, options, locks
    of SwiftTX, the zerocoin library, [pow], and what uninitialised members hold. *)
Class AcceptEnv := {
  adjustedTime : Z;
  now : Z;
  tipHeight : Z;
  tipTime : Z;
  zerocoinMaintenance : Z;
  zerocoinStartHeight : Z;
  segwitActivation : Z;
  segwitSporkActive : bool;
  fSynced : bool;
  lockedInputs : gmap COutPoint hash256;
  obfuscationTxes : gset hash256;
  prematurewitness : bool;
  fRequireStandard : bool;
  datacarrier : bool;
  nMaxDatacarrierBytes : Z;
  fIsBareMultisigStd : bool;
  relaypriority : bool;
  limitfreerelay : Z;
  promiscuousmempoolflags : option Z;
  nBytesPerSigOp : Z;
  minRelayTxFee : CFeeRate;
  Zerocoin_MintFee : CAmount;
  IsTransactionInChain : CTransaction -> bool;
  zerocoinspend_ok : CTransaction -> CTxIn -> option bool;
  TxOutToPublicCoin : CTxOut -> CValidationState -> bool * CValidationState;
  zerocoinmint_ok : CTransaction -> CTxOut -> bool;
  free_decay : Z -> spec_float;
  junk_cost : Z;
  junk_mod : Z
}.

(** ** Standard transactions *)

Section standard.
Context `{AcceptEnv}.
(** The reason why an input is not standard. *)
Definition input_reason (i : CTxIn) : option string :=
  if IsZerocoinSpend (scriptSig i) then None
  else if size (scriptSig i) >? 1650 then Some "scriptsig-size"
  else if negb (IsPushOnly (scriptSig i)) then Some "scriptsig-not-pushonly" else None.
Fixpoint first_reason (l : list CTxIn) : option string :=
  match l with [] => None | i :: l => match input_reason i with Some r => Some r | None => first_reason l end end.
(** [inl] is the reason, [inr] the number of outputs with data; [whichType] is not initialised. *)
Fixpoint outputs_reason (l : list CTxOut) (nDataOut : Z) (whichType : txnouttype) : option (string + Z) :=
  match l with
  | [] => Some (inr nDataOut)
  | o :: l =>
      '(ok, whichType) ← IsStandard datacarrier nMaxDatacarrierBytes whichType (scriptPubKey o);
      if negb ok then Some (inl "scriptpubkey")
      else if bool_decide (whichType = TX_NULL_DATA) then outputs_reason l (u32 (nDataOut + 1)) whichType
      else if bool_decide (whichType = TX_MULTISIG) && negb fIsBareMultisigStd then Some (inl "bare-multisig")
      else if IsDust o minRelayTxFee then Some (inl "dust")
      else outputs_reason l nDataOut whichType
  end.
(** [Some None]: standard; [None] is an exception of [Solver]. *)
Definition IsStandardTx (whichType : txnouttype) (t : CMutableTransaction) : option (option string) :=
  if (Transaction.nVersion t >? CURRENT_VERSION) || (Transaction.nVersion t <? 1) then Some (Some "version") else
  if negb (IsFinalTx tipHeight adjustedTime t (i32 (tipHeight + 1)) 0) then Some (Some "non-final") else
  if GetTransactionCost t >=? MAX_STANDARD_TX_COST then Some (Some "tx-size") else
  match first_reason (vin t) with
  | Some r => Some (Some r)
  | None =>
      r ← outputs_reason (vout t) 0 whichType;
      Some (match r with inl r => Some r | inr nDataOut => if nDataOut >? 1 then Some "multi-op-return" else None end)
  end.
End standard.

Section inputs_standard.
Context {S : Type} `{CCoinsView S}.
Fixpoint inputs_standard_loop (whichType : txnouttype) (l : list CTxIn) (c : CCoinsViewCache S) : option (bool * CCoinsViewCache S) :=
  match l with
  | [] => Some (true, c)
  | i :: l =>
      '(prev, c) ← GetOutputFor i c;
      '(ok, t, _) ← Solver whichType (scriptPubKey prev);
      if negb ok then Some (false, c)
      else if bool_decide (t = TX_SCRIPTHASH) then
        match EvalScript (checker := base_checker) [] (scriptSig i) 0 SIGVERSION_BASE with
        | Abort => None
        | Err _ | Ok [] => Some (false, c)
        | Ok (top :: _) => if GetSigOpCount top true >? MAX_P2SH_SIGOPS then Some (false, c) else inputs_standard_loop whichType l c
        end
      else inputs_standard_loop whichType l c
  end.
Definition AreInputsStandard (whichType : txnouttype) (t : CMutableTransaction) (c : CCoinsViewCache S) : option (bool * CCoinsViewCache S) :=
  if IsCoinBase t || Tx_IsZerocoinSpend t then Some (true, c) else inputs_standard_loop whichType (vin t) c.

(** ** Priority *)

Fixpoint priority_loop (t : CMutableTransaction) (height : Z) (l : list CTxIn) (dResult : spec_float) (c : CCoinsViewCache S) : option (spec_float * CCoinsViewCache S) :=
  match l with
  | [] => Some (dResult, c)
  | i :: l =>
      if Tx_IsZerocoinSpend t then priority_loop t height l (dadd dResult (double_of (GetZerocoinSpent t))) c else
      let '(coins, c) := AccessCoins (out_hash (prevout i)) c in
      k ← coins;
      if negb (IsAvailable k (out_n (prevout i))) then priority_loop t height l dResult c
      else if nHeight k <? height then
        priority_loop t height l (dadd dResult (double_of (i64 (nValue (spent_out k (prevout i)) * i32 (height - nHeight k))))) c
      else priority_loop t height l dResult c
  end.
Definition ComputePriority (t : CMutableTransaction) (dPriorityInputs : spec_float) (nTxSize : Z) : spec_float :=
  let nTxSize := CalculateModifiedSize t nTxSize in
  if nTxSize =? 0 then double_of 0 else ddiv dPriorityInputs (double_of nTxSize).
Definition GetPriority (t : CMutableTransaction) (height : Z) (c : CCoinsViewCache S) : option (spec_float * CCoinsViewCache S) :=
  if IsCoinBase t || IsCoinStake t then Some (double_of 0, c) else
  '(d, c) ← priority_loop t height (vin t) (double_of 0) c; Some (ComputePriority t d 0, c).
End inputs_standard.

(** ** Steps of the acceptance *)

(** The state: that of the validation, the pool, [pcoinsTip], [*pfMissingInputs], the rate
    limiter, [mapZerocoinspends].  [None] is an assertion or an exception, an inner [None]
    has returned [false]. *)
Record AState (S : Type) := mkAState {
  a_state : CValidationState;
  a_pool : CTxMemPool;
  pcoinsTip : CCoinsViewCache S;
  a_missing : bool;
  dFreeCount : spec_float;
  nLastTime : Z;
  mapZerocoinspends : gmap hash256 Z
}.
Arguments mkAState {S} _ _ _ _ _ _ _.
Arguments a_state {S} _.
Arguments a_pool {S} _.
Arguments pcoinsTip {S} _.
Arguments a_missing {S} _.
Arguments dFreeCount {S} _.
Arguments nLastTime {S} _.
Arguments mapZerocoinspends {S} _.
Definition acc (S A : Type) : Type := AState S -> option (option A * AState S).
#[export] Instance acc_ret S : MRet (acc S) := fun A a s => Some (Some a, s).
#[export] Instance acc_bind S : MBind (acc S) := fun A B f m s =>
  match m s with Some (Some a, s') => f a s' | Some (None, s') => Some (None, s') | None => None end.

Section accept.
Context {S : Type} `{CCoinsView S} `{AcceptEnv} `{ZerocoinChecks}.
Context (Verify : valtype -> hash256 -> valtype -> bool) (index_height : hash256 -> option Z) (params : CChainParams).

Definition set_astate (st : CValidationState) (s : AState S) : AState S :=
  mkAState st (a_pool s) (pcoinsTip s) (a_missing s) (dFreeCount s) (nLastTime s) (mapZerocoinspends s).
Definition set_apool (p : CTxMemPool) (s : AState S) : AState S :=
  mkAState (a_state s) p (pcoinsTip s) (a_missing s) (dFreeCount s) (nLastTime s) (mapZerocoinspends s).
Definition set_amissing (b : bool) (s : AState S) : AState S :=
  mkAState (a_state s) (a_pool s) (pcoinsTip s) b (dFreeCount s) (nLastTime s) (mapZerocoinspends s).
Definition set_free (d : spec_float) (n : Z) (s : AState S) : AState S :=
  mkAState (a_state s) (a_pool s) (pcoinsTip s) (a_missing s) d n (mapZerocoinspends s).
Definition set_spends (m : gmap hash256 Z) (s : AState S) : AState S :=
  mkAState (a_state s) (a_pool s) (pcoinsTip s) (a_missing s) (dFreeCount s) (nLastTime s) m.

(** [if (cond) return state.DoS(...)]; [if (cond) return false]; a check of the context-free
    kind; a value that may be missing; a change of the state. *)
Definition a_dos_if (cond : bool) (level code : Z) (reason : string) (corruption : bool) : acc S unit := fun s =>
  Some (if cond then (None, set_astate (snd (DoS level false code reason corruption "" (a_state s))) s) else (Some tt, s)).
Definition a_stop_if (cond : bool) : acc S unit := fun s => Some (if cond then None else Some tt, s).
Definition a_check {A} (m : TxChecks.check A) : acc S A := fun s => let '(r, st) := m (a_state s) in Some (r, set_astate st s).
Definition a_some {A} (o : option A) : acc S A := fun s => a ← o; Some (Some a, s).
Definition a_get {A} (f : AState S -> A) : acc S A := fun s => Some (Some (f s), s).
Definition a_put (f : AState S -> AState S) : acc S unit := fun s => Some (Some tt, f s).
(** [if (!m) return state.DoS(...)] *)
Definition a_or_dos {A} (m : acc S A) (level code : Z) (reason : string) : acc S A := fun s =>
  match m s with
  | Some (None, s') => Some (None, set_astate (snd (DoS level false code reason false "" (a_state s'))) s')
  | r => r
  end.
(** Reading the view with the pool, that is left for one without a base. *)
Local Abbreviation PoolView := (CCoinsViewMemPool (CCoinsViewCache S)).
Definition a_pool_view {A} (m : vcheck PoolView A) : acc S (A * CCoinsViewCache unit) := fun s =>
  match m (a_state s) (new_cache (mkMemPoolView (pcoinsTip s) (a_pool s))) with
  | None => None
  | Some (r, st, v) =>
      Some (match r with Some a => Some (a, mkCache tt (hasModifier v) (hashBlock v) (cacheCoins v)) | None => None end,
        mkAState st (a_pool s) (mv_base (base v)) (a_missing s) (dFreeCount s) (nLastTime s) (mapZerocoinspends s))
  end.
(** Reading the view without a base. *)
Definition a_view {A} (f : CCoinsViewCache unit -> option (A * CCoinsViewCache unit)) (v : CCoinsViewCache unit) : acc S (A * CCoinsViewCache unit) := a_some (f v).
Definition a_inputs (t : CTransaction) (fScriptChecks : bool) (flags : Z) (v : CCoinsViewCache unit) : acc S (bool * CCoinsViewCache unit) := fun s =>
  match CheckInputs Verify index_height params t fScriptChecks flags true false (a_state s) v with
  | None => None
  | Some (r, st, v) => Some (Some (match r with Some _ => true | None => false end, v), set_astate st s)
  end.

(** ** The parts both functions share *)

Definition not_loose (t : CTransaction) : acc S unit :=
  a_dos_if (IsCoinBase t) 100 REJECT_INVALID "coinbase" false.
Definition locks_free (t : CTransaction) : acc S unit :=
  a_dos_if (existsb (fun i => match lockedInputs !! prevout i with Some h => negb (hash_eqb h (cached_hash t)) | None => false end) (vin (tx t)))
    0 REJECT_INVALID "tx-lock-conflict" false.
Definition no_conflicts (t : CTransaction) : acc S unit :=
  p ← a_get a_pool;
  if negb (Tx_IsZerocoinSpend t) then a_stop_if (existsb (fun i => bool_decide (is_Some (mapNextTx p !! prevout i))) (vin (tx t))) else mret tt.
Fixpoint have_all (l : list CTxIn) : CCoinsViewCache PoolView -> bool * CCoinsViewCache PoolView := fun v =>
  match l with
  | [] => (true, v)
  | i :: l => let '(b, v) := cache_HaveCoins (out_hash (prevout i)) v in if b then have_all l v else (false, v)
  end.
Definition v_stop_if (cond : bool) : vcheck PoolView unit := fun s v => Some (if cond then None else Some tt, s, v).
Definition v_check {A} (m : TxChecks.check A) : vcheck PoolView A := fun s v => let '(r, s) := m s in Some (r, s, v).
Fixpoint mints_loop (t : CTransaction) (l : list CTxOut) : vcheck PoolView unit :=
  match l with
  | [] => mret tt
  | o :: l =>
      if negb (TxOut_IsZerocoinMint o) then mints_loop t l else
      v_check (demand (TxOutToPublicCoin o) 0);;
      vreject_if (negb (zerocoinmint_ok t o)) 0 0 "";;
      mints_loop t l
  end.
Definition v_value (t : CTransaction) : vcheck PoolView (option CAmount) := fun s v =>
  match GetValueIn t v with Some (n, v) => Some (Some (Some n), s, v) | None => None end.
(** The value of the inputs; [None]: inputs are missing. *)
Definition coins_part (t : CTransaction) : vcheck PoolView (option CAmount) :=
  have ← reading (cache_HaveCoins (cached_hash t));
  v_stop_if have;;
  all ← reading (have_all (vin (tx t)));
  if negb all then mret None else
  (if Tx_IsZerocoinMint t then mints_loop t (vout (tx t)) else mret tt);;
  have ← reading (HaveInputs t);
  vreject_if (negb have) 0 REJECT_DUPLICATE "bad-txns-inputs-spent";;
  reading cache_GetBestBlock;;
  v_value t.
Definition inputs_value (t : CTransaction) (pfMissingInputs : bool) : acc S (CAmount * CCoinsViewCache unit) :=
  '(n, v) ← a_pool_view (coins_part t);
  match n with
  | None => a_put (fun s => if pfMissingInputs then set_amissing true s else s);; a_stop_if true;; mret (0, v)
  | Some n => mret (n, v)
  end.
Definition sigops_limit (t : CTransaction) (nSigOpsCost nSize : Z) (zerocoin_free : bool) : bool :=
  (nSigOpsCost >? MAX_STANDARD_TX_SIGOPS_COST) ||
  (negb (nBytesPerSigOp =? 0) && (nSigOpsCost >? u32 (nSize * WITNESS_SCALE_FACTOR) / nBytesPerSigOp) && negb (zerocoin_free && ContainsZerocoins t)).
Definition GetMinRelayFee (p : CTxMemPool) (t : CTransaction) (nBytes : Z) (fAllowFree : bool) : CAmount :=
  let '(dPriorityDelta, nFeeDelta) := ApplyDeltas p (cached_hash t) (double_of 0) 0 in
  if SFltb (double_of 0) dPriorityDelta || (nFeeDelta >? 0) then 0 else
  let nMinFee := GetFee minRelayTxFee nBytes in
  let nMinFee := if fAllowFree && (nBytes <? DEFAULT_BLOCK_PRIORITY_SIZE - 1000) then 0 else nMinFee in
  if MoneyRange params nMinFee then nMinFee else MaxMoneyOut params.
(** The limiter of free transactions; its variables are static. *)
Definition limit_free (nSize : Z) : acc S unit :=
  d ← a_get dFreeCount; last ← a_get nLastTime;
  let d := dmul d (free_decay (i64 (now - last))) in
  a_put (set_free d now);;
  a_dos_if (SFleb (double_of (i64 (limitfreerelay * 10 * 1000))) d) 0 REJECT_INSUFFICIENTFEE "rate limited free transaction" false;;
  a_put (set_free (dadd d (double_of nSize)) now).
Definition insane_fee (fRejectInsaneFee : bool) (nFees nSize : Z) : acc S unit :=
  a_stop_if (fRejectInsaneFee && (nFees >? i64 (GetFee minRelayTxFee nSize * 10000))).
Definition prioritise (hash : hash256) : acc S unit :=
  a_put (fun s => set_apool (PrioritiseTransaction hash (double_of 1000) (to_int64 (dmul (lit 1 1) (double_of COIN))) (a_pool s)) s).
(** The value paid, the fees, the priority and the entry. *)
Definition make_entry (t : CTransaction) (nValueIn nSigOpsCost : Z) (v : CCoinsViewCache unit) : acc S (CAmount * CTxMemPoolEntry * CCoinsViewCache unit) :=
  nValueOut ← a_some (GetValueOut t);
  let nFees := i64 (nValueIn - nValueOut) in
  '(dPriority, v) ← a_view (GetPriority t tipHeight) v;
  mret (nFees, CTxMemPoolEntry_of junk_cost junk_mod t nFees now dPriority (u32 tipHeight) nSigOpsCost, v).

(** ** [AcceptToMemoryPool] *)

Fixpoint spends_loop (t : CTransaction) (l : list CTxIn) : acc S unit :=
  match l with
  | [] => mret tt
  | i :: l =>
      if negb (IsZerocoinSpend (scriptSig i)) then spends_loop t l else
      ok ← a_some (zerocoinspend_ok t i);
      a_dos_if (negb ok) 0 REJECT_INVALID "bad-txns-invalid-zank" false;;
      spends_loop t l
  end.
(** The inputs of a zerocoin spend are not looked up: the view stays empty. *)
Definition spend_value (t : CTransaction) : acc S (CAmount * CCoinsViewCache unit) :=
  a_dos_if (IsTransactionInChain t) 0 REJECT_DUPLICATE "bad-txns-inputs-spent" false;;
  spends_loop t (vin (tx t));;
  mret (GetZerocoinSpent t, new_cache tt).
Definition accept_first (t : CTransaction) (whichType : txnouttype) : acc S unit :=
  a_dos_if ((adjustedTime >? zerocoinMaintenance) && ContainsZerocoins t) 10 REJECT_INVALID "bad-tx" false;;
  a_or_dos (a_check (CheckTransaction params fSynced tipHeight t (tipHeight >=? zerocoinStartHeight) true (segwitActivation <? tipTime))) 100 REJECT_INVALID "bad-tx";;
  not_loose t;;
  a_dos_if (IsCoinStake t) 100 REJECT_INVALID "coinstake" false;;
  p ← a_get a_pool;
  a_stop_if (pool_exists p (cached_hash t));;
  locks_free t;;
  no_conflicts t;;
  a_dos_if (negb prematurewitness && negb (Witness_IsNull (wit (tx t))) && negb segwitSporkActive) 0 REJECT_NONSTANDARD "no-witness-yet" true;;
  if fRequireStandard then
    r ← a_some (IsStandardTx whichType t);
    a_dos_if (match r with Some _ => true | None => false end) 0 REJECT_NONSTANDARD (default "" r) false
  else mret tt.
Definition accept_standard (t : CTransaction) (whichType : txnouttype) (v : CCoinsViewCache unit) : acc S (CCoinsViewCache unit) :=
  '(ok, v) ← (if fRequireStandard then a_view (AreInputsStandard whichType t) v else mret (true, v));
  a_dos_if (negb ok) 0 REJECT_NONSTANDARD "bad-txns-nonstandard-inputs" false;;
  '(ok, v) ← (if negb (Witness_IsNull (wit (tx t))) && fRequireStandard then a_view (IsWitnessStandard t) v else mret (true, v));
  a_dos_if (negb ok) 0 REJECT_NONSTANDARD "bad-witness-nonstandard" true;;
  mret v.
Definition accept_fees (t : CTransaction) (fLimitFree ignoreFees : bool) (nFees nSize : Z) (v : CCoinsViewCache unit) : acc S (CCoinsViewCache unit) :=
  if bool_decide (cached_hash t ∈ obfuscationTxes) then prioritise (cached_hash t);; mret v
  else if ignoreFees then mret v else
  p ← a_get a_pool;
  a_dos_if (fLimitFree && (nFees <? GetMinRelayFee p t nSize true) && negb (Tx_IsZerocoinSpend t)) 0 REJECT_INSUFFICIENTFEE "insufficient fee" false;;
  v ← (if Tx_IsZerocoinMint t then
      a_dos_if (nFees <? i64 (Zerocoin_MintFee * GetZerocoinMintCount t)) 0 REJECT_INSUFFICIENTFEE "insufficient fee for zerocoinmint" false;; mret v
    else if negb (Tx_IsZerocoinSpend t) && relaypriority && (nFees <? GetFee minRelayTxFee nSize) then
      '(d, v) ← a_view (GetPriority t (i32 (tipHeight + 1))) v;
      a_dos_if (negb (AllowFree d)) 0 REJECT_INSUFFICIENTFEE "insufficient priority" false;; mret v
    else mret v : acc S (CCoinsViewCache unit));
  (if fLimitFree && (nFees <? GetFee minRelayTxFee nSize) && negb (Tx_IsZerocoinSpend t) then limit_free nSize else mret tt);;
  mret v.
Definition accept_scripts (t : CTransaction) (v : CCoinsViewCache unit) : acc S unit :=
  let flags := if fRequireStandard then STANDARD_SCRIPT_VERIFY_FLAGS else u32 (default STANDARD_SCRIPT_VERIFY_FLAGS promiscuousmempoolflags) in
  '(ok, v) ← a_inputs t true flags v;
  if negb ok then
    '(ok1, v) ← a_inputs t true (Z.ldiff flags (Z.lor SCRIPT_VERIFY_WITNESS SCRIPT_VERIFY_CLEANSTACK)) v;
    (if ok1 : bool then
      '(ok2, v) ← a_inputs t true (Z.ldiff flags SCRIPT_VERIFY_CLEANSTACK) v;
      if negb ok2 then
        a_put (fun s => let st := a_state s in set_astate (mkState (mode st) (nDoS st) (strRejectReason st) (chRejectCode st) true (strDebugMessage st)) s)
      else mret tt
    else mret tt);;
    a_stop_if true
  else
    '(ok, _) ← a_inputs t true MANDATORY_SCRIPT_VERIFY_FLAGS v;
    a_stop_if (negb ok).
(** Everything before the transaction is stored. *)
Definition accept_checks (whichType : txnouttype) (t : CTransaction) (fLimitFree pfMissingInputs fRejectInsaneFee ignoreFees : bool) : acc S CTxMemPoolEntry :=
  a_put (fun s => if pfMissingInputs then set_amissing false s else s);;
  accept_first t whichType;;
  '(nValueIn, v) ← (if Tx_IsZerocoinSpend t then spend_value t else inputs_value t pfMissingInputs);
  v ← accept_standard t whichType v;
  '(nSigOpsCost, v) ← a_view (GetTransactionSigOpCost t STANDARD_SCRIPT_VERIFY_FLAGS) v;
  '(nFees, entry, v) ← make_entry t nValueIn nSigOpsCost v;
  let nSize := u32 (e_GetTxSize entry) in
  a_dos_if (sigops_limit t nSigOpsCost nSize true) 0 REJECT_NONSTANDARD "bad-txns-too-many-sigops" false;;
  v ← accept_fees t fLimitFree ignoreFees nFees nSize v;
  insane_fee fRejectInsaneFee nFees nSize;;
  accept_scripts t v;;
  mret entry.
Definition AcceptToMemoryPool (whichType : txnouttype) (t : CTransaction) (fLimitFree pfMissingInputs fRejectInsaneFee ignoreFees : bool) : acc S unit :=
  entry ← accept_checks whichType t fLimitFree pfMissingInputs fRejectInsaneFee ignoreFees;
  a_put (fun s => set_apool (addUnchecked (cached_hash t) entry (a_pool s)) s);;
  if Tx_IsZerocoinSpend t then a_put (fun s => set_spends (<[cached_hash t := adjustedTime]> (mapZerocoinspends s)) s) else mret tt.

(** ** [AcceptableInputs] *)

(** The free limiter has its own static variables here; in the model the caller keeps the two
    states apart. *)
Definition AcceptableInputs (t : CTransaction) (fLimitFree pfMissingInputs fRejectInsaneFee isDSTX : bool) : acc S unit :=
  a_put (fun s => if pfMissingInputs then set_amissing false s else s);;
  a_check (CheckTransaction params fSynced tipHeight t (tipHeight >=? zerocoinStartHeight) true (segwitActivation <? tipTime));;
  not_loose t;;
  p ← a_get a_pool;
  a_stop_if (pool_exists p (cached_hash t));;
  locks_free t;;
  no_conflicts t;;
  '(nValueIn, v) ← inputs_value t pfMissingInputs;
  '(nSigOpsCost, v) ← a_view (GetTransactionSigOpCost t STANDARD_SCRIPT_VERIFY_FLAGS) v;
  '(nFees, entry, v) ← make_entry t nValueIn nSigOpsCost v;
  let nSize := u32 (e_GetTxSize entry) in
  a_dos_if (sigops_limit t nSigOpsCost nSize false) 0 REJECT_NONSTANDARD "bad-txns-too-many-sigops" false;;
  v ← (if isDSTX then prioritise (cached_hash t);; mret v else
    p ← a_get a_pool;
    a_dos_if (fLimitFree && (nFees <? GetMinRelayFee p t nSize true) && negb (Tx_IsZerocoinSpend t)) 0 REJECT_INSUFFICIENTFEE "insufficient fee" false;;
    v ← (if relaypriority && (nFees <? GetFee minRelayTxFee nSize) then
        '(d, v) ← a_view (GetPriority t (i32 (tipHeight + 1))) v;
        a_dos_if (negb (AllowFree d)) 0 REJECT_INSUFFICIENTFEE "insufficient priority" false;; mret v
      else mret v : acc S (CCoinsViewCache unit));
    (if fLimitFree && (nFees <? GetFee minRelayTxFee nSize) && negb (Tx_IsZerocoinSpend t) then limit_free nSize else mret tt);;
    mret v : acc S (CCoinsViewCache unit));
  insane_fee fRejectInsaneFee nFees nSize;;
  '(ok, _) ← a_inputs t false STANDARD_SCRIPT_VERIFY_FLAGS v;
  a_stop_if (negb ok).
End accept.
