(* ===== verification/AcceptInv.v ===== *)
(** What the memory pool admits: the steps of [AcceptToMemoryPool] leave its transactions
    alone until the last, and that one keeps the pool consistent. *)
From Stdlib Require Import Floats.SpecFloat.
From S2P Require Import Prelude Serialize Stream Hashers Script SigChecks Interp Payments Merkle Transaction SigHash Compressor Coins CoinsView Standard Subsidy TxChecks Ledger FeeEstimator MemPool MemPoolInv MemPoolProps AcceptTx.
Set Default Proof Using "Type".

(** ** A script that begins a zerocoin spend fails *)

Lemma zerocoin_script_fails {checker : BaseSignatureChecker} (s : list valtype) script flags sv st : IsZerocoinSpend script = true -> EvalScript s script flags sv <> Ok st.
Proof.
  intros Hz. unfold EvalScript. destruct (_ >? 10000); [done|]. destruct script as [|op script]; [done|]. unfold IsZerocoinSpend, at_ in Hz. cbn [nth] in Hz. apply Z.eqb_eq in Hz as ->.
  cbn [length eval_loop]. unfold eval_step. change (GetOp (OP_ZEROCOINSPEND :: script)) with (mkOp true script OP_ZEROCOINSPEND []). cbn [op_ok op_code op_data op_pc negb vfExec forallb].
  done.
Qed.
Lemma zerocoin_input_fails {checker : BaseSignatureChecker} sig script witness flags : IsZerocoinSpend sig = true -> VerifyScript sig script witness flags <> Ok tt.
Proof.
  intros Hz E. unfold VerifyScript in E. destruct (fail_if _ _) as [[]| |]; [|done..]. cbn [mbind outcome_bind] in E.
  destruct (EvalScript [] sig flags SIGVERSION_BASE) as [s| |] eqn:Es; [|done..]. by apply (zerocoin_script_fails _ _ _ _ _ Hz) in Es.
Qed.
Section scripts.
Context {S : Type} `{CCoinsView S} (Verify : valtype -> hash256 -> valtype -> bool) (index_height : hash256 -> option Z) (params : CChainParams).
Lemma check_one_ok t co o k flags cs st (c : CCoinsViewCache S) st' c' : check_one Verify t co o k flags cs st c = Some (Some tt, st', c') ->
  run_check Verify t (CScriptCheck_of co o k flags cs) = Ok tt.
Proof.
  unfold check_one. destruct (run_check Verify t _) as [[]|e|]; [done| |done]. unfold mbind, vcheck_bind, vreject_if, reject_if. destruct (negb _); [|done]. by destruct (run_check _ _ _).
Qed.
Lemma scripts_loop_plain (t : CMutableTransaction) flags cs k st (c : CCoinsViewCache S) r st' c' :
  scripts_loop Verify t flags cs false (drop k (vin t)) k st c = Some (Some r, st', c') ->
  Forall (fun i => IsZerocoinSpend (scriptSig i) = false) (drop k (vin t)).
Proof.
  remember (drop k (vin t)) as l eqn:Hl. revert k Hl st c r. induction l as [|i l IH]; intros k Hl st c r E; [done|]. cbn [scripts_loop] in E. unfold mbind, vcheck_bind in E.
  destruct (reading _ st c) as [[[[co|] s1] c1]|] eqn:E1; [|done..]. destruct (demand_some co s1 c1) as [[[[k1|] s2] c2]|] eqn:E2; [|done..].
  destruct (check_one Verify t k1 (prevout i) k flags cs s2 c2) as [[[[[]|] s3] c3]|] eqn:E3; [|done..]. constructor.
  - assert (nth k (vin t) null_txin = i) as Hi.
    { rewrite nth_lookup, <- (Nat.add_0_r k), <- lookup_drop, <- Hl. done. }
    apply check_one_ok in E3. unfold run_check in E3. cbn [sc_nIn CScriptCheck_of] in E3. rewrite Hi in E3. destruct (IsZerocoinSpend (scriptSig i)) eqn:Ez; [|done]. by apply zerocoin_input_fails in E3.
  - refine (IH (Datatypes.S k) _ s3 c3 r E). replace (Datatypes.S k) with (k + 1)%nat by lia. by rewrite <- drop_drop, <- Hl.
Qed.
(** Inputs whose scripts have been checked do not begin a zerocoin spend. *)
Lemma CheckInputs_plain (t : CTransaction) flags cs st (c : CCoinsViewCache S) r st' c' : IsCoinBase t = false -> Tx_IsZerocoinSpend t = false ->
  CheckInputs Verify index_height params t true flags cs false st c = Some (Some r, st', c') ->
  Forall (fun i => IsZerocoinSpend (scriptSig i) = false) (vin t).
Proof.
  intros Hc Hz. unfold CheckInputs. rewrite Hc, Hz. cbn [negb andb]. unfold mbind, vcheck_bind.
  repeat match goal with |- match ?m _ _ with _ => _ end = _ -> _ => destruct (m _ _) as [[[[?|] ?] ?]|]; [|done..] end.
  apply (scripts_loop_plain t flags cs 0).
Qed.
End scripts.

(** ** Reading the outputs through the pool *)

Section through_pool.
Context {S : Type} `{CCoinsViewLaws S} (p0 : CTxMemPool) (v0 : hash256 -> option CCoins).
Local Abbreviation PoolView := (CCoinsViewMemPool (CCoinsViewCache S)).
Definition pool_coins (k : hash256) : option CCoins :=
  match mapTx p0 !! k with Some e => Some (FromTx (e_tx e) MEMPOOL_HEIGHT) | None => visible (v0 k) end.
(** The tip is as it was; the cache on top holds what the pool and the tip say. *)
Record readable (v : CCoinsViewCache PoolView) : Prop := {
  rd_txs : mapTx (mempool (base v)) = mapTx p0;
  rd_inv : cache_inv (mv_base (base v));
  rd_view : forall k, cache_view (mv_base (base v)) k = v0 k;
  rd_best : hashBlock (mv_base (base v)) <> hash_zero;
  rd_cached : forall k e, cacheCoins v !! k = Some e -> pool_coins k = Some (coins e)
}.
Lemma readable_fetch k v e v' : readable v -> FetchCoins k v = (e, v') -> readable v' /\ coins <$> e = pool_coins k.
Proof.
  intros Hv. unfold FetchCoins. destruct (cacheCoins v !! k) as [e0|] eqn:Ek.
  { intros [= <- <-]. split; [done|]. symmetry. by apply (rd_cached v Hv). }
  cbn [GetCoins CCoinsViewMemPool_view]. unfold pool_lookup, GetTx. rewrite (rd_txs v Hv). unfold pool_coins. destruct (mapTx p0 !! k) as [e0|] eqn:Ep; cbn [fmap option_fmap option_map].
  - intros [= <- <-]. split; [|done]. destruct Hv. constructor; cbn [set_cacheCoins set_base base cacheCoins]; [done..|]. intros j e1.
    destruct (decide (j = k)) as [->|Hj]; [rewrite lookup_insert_eq; intros [= <-]; unfold pool_coins; by rewrite Ep|rewrite lookup_insert_ne by done; auto].
  - cbn [GetCoins CCoinsViewCache_view]. unfold AccessCoins. destruct (FetchCoins_spec k (mv_base (base v)) (rd_inv v Hv)) as (f & b & -> & Hf & Hb & Hvb & _ & _ & Hbest). rewrite Hf, (rd_view v Hv).
    pose proof (rd_best v Hv) as Hb1. rewrite <- Hbest in Hb1.
    assert (forall j, cache_view b j = v0 j) as Hb0 by (intros; rewrite Hvb; apply Hv). destruct (v0 k) as [c|] eqn:E0; cbn [visible mbind option_bind].
    + destruct (IsPruned c) eqn:Epr; intros [= <- <-].
      * split; [|done]. destruct Hv. by constructor.
      * split; [|done]. destruct Hv. constructor; cbn [set_cacheCoins set_base base cacheCoins mv_base mempool]; [done..|]. intros j e1.
        destruct (decide (j = k)) as [->|Hj]; [rewrite lookup_insert_eq; intros [= <-]|rewrite lookup_insert_ne by done; auto]. unfold pool_coins. rewrite Ep, E0. cbn. by rewrite Epr.
    + intros [= <- <-]. split; [|done]. destruct Hv. by constructor.
Qed.
Lemma readable_access k v r v' : readable v -> AccessCoins k v = (r, v') -> readable v' /\ r = pool_coins k.
Proof. intros Hv. unfold AccessCoins. destruct (FetchCoins k v) as [e v1] eqn:E. intros [= <- <-]. destruct (readable_fetch _ _ _ _ Hv E). by split. Qed.
Lemma readable_have k v b v' : readable v -> cache_HaveCoins k v = (b, v') -> readable v' /\ (b = true -> pool_coins k <> None) /\
  (b = false -> forall c n, pool_coins k = Some c -> IsAvailable c n = false).
Proof.
  intros Hv. unfold cache_HaveCoins. destruct (FetchCoins k v) as [e v1] eqn:E. intros [= <- <-]. destruct (readable_fetch _ _ _ _ Hv E) as [Hv1 He]. split; [done|].
  rewrite <- He. destruct e as [e|]; [|done]. split; [done|]. intros Hl%negb_false_iff%Nat.eqb_eq c n [= <-]. unfold IsAvailable. destruct (c_vout (coins e)); [|done]. by destruct (n <? _), (Z.to_nat n).
Qed.
Lemma readable_have_all l v b v' : readable v -> have_all l v = (b, v') -> readable v' /\ (b = true -> Forall (fun i => pool_coins (out_hash (prevout i)) <> None) l).
Proof.
  revert v. induction l as [|i l IH]; intros v Hv; cbn [have_all]; [intros [= <- <-]; by split|]. destruct (cache_HaveCoins _ v) as [[|] v1] eqn:E1.
  - destruct (readable_have _ _ _ _ Hv E1) as (Hv1 & H1 & _). intros E. destruct (IH v1 Hv1 E) as [Hv' Hl]. split; [done|]. intros Hb. constructor; auto.
  - intros [= <- <-]. by destruct (readable_have _ _ _ _ Hv E1).
Qed.
(** An input finds its output: a fresh one of the pool, or one that is available at the tip. *)
Lemma created_sourced e n : 0 <= n -> IsAvailable (FromTx (e_tx e) MEMPOOL_HEIGHT) n = true -> exists o, vout (tx (e_tx e)) !! Z.to_nat n = Some o /\ TxOut_IsNull o = false.
Proof.
  intros Hn Ha. pose proof (unspent_FromTx (e_tx e) MEMPOOL_HEIGHT n Hn) as Hu. unfold IsAvailable in Ha. apply andb_true_iff in Ha as [Hlt Ha]. apply andb_true_iff in Ha as [Hnull _].
  unfold unspent_out in Hu. replace (_ <=? n) with false in Hu by lia. apply negb_true_iff in Hnull. rewrite Hnull in Hu. unfold created in Hu.
  destruct (vout (tx (e_tx e)) !! Z.to_nat n) as [o|]; [|done]. exists o. split; [done|]. cbn in Hu. destruct (IsUnspendable _ || TxOut_IsNull o) eqn:E; [done|]. by apply orb_false_iff in E as [_ ?].
Qed.
Lemma available_sourced i c : 0 <= out_n (prevout i) -> pool_coins (out_hash (prevout i)) = Some c -> IsAvailable c (out_n (prevout i)) = true -> sourced v0 p0 (prevout i).
Proof.
  unfold pool_coins, sourced. intros Hn. destruct (mapTx p0 !! out_hash (prevout i)) as [e|].
  - intros [= <-] Ha. by apply created_sourced.
  - intros [Hc _]%visible_Some Ha. by exists c.
Qed.
Lemma readable_inputs l v b v' : readable v -> have_inputs_loop l v = (b, v') -> readable v' /\
  (b = true -> Forall (fun i => 0 <= out_n (prevout i) -> sourced v0 p0 (prevout i)) l).
Proof.
  revert v. induction l as [|i l IH]; intros v Hv; cbn [have_inputs_loop]; [intros [= <- <-]; by split|]. destruct (AccessCoins _ v) as [r v1] eqn:E1.
  destruct (readable_access _ _ _ _ Hv E1) as [Hv1 ->]. destruct (pool_coins (out_hash (prevout i))) as [c|] eqn:Ec; [|intros [= <- <-]; by split].
  destruct (IsAvailable c (out_n (prevout i))) eqn:Ea; [|intros [= <- <-]; by split]. intros E. destruct (IH v1 Hv1 E) as [Hv' Hl]. split; [done|]. intros Hb. constructor; [|auto].
  intros Hn. by apply (available_sourced i c).
Qed.
Lemma readable_value l n v a v' : readable v -> value_in_loop l n v = Some (a, v') -> readable v'.
Proof.
  revert n v. induction l as [|i l IH]; intros n v Hv; cbn [value_in_loop]; [by intros [= _ <-]|]. unfold GetOutputFor. destruct (AccessCoins _ v) as [r v1] eqn:E1.
  destruct (readable_access _ _ _ _ Hv E1) as [Hv1 _]. destruct r as [c|]; [|done]. cbn [mbind option_bind]. destruct (negb _); [done|]. cbn [mbind option_bind]. by apply IH.
Qed.

(** A check that reads through the pool leaves the tip alone, and gives [P] when it passes. *)
Definition reads {A} (m : vcheck PoolView A) (P : A -> Prop) : Prop := forall st v r st' v', readable v -> m st v = Some (r, st', v') ->
  readable v' /\ forall a, r = Some a -> P a.
Lemma reads_ret {A} (a : A) : reads (mret a) (fun b => b = a).
Proof. intros st v r st' v' Hv [= <- <- <-]. split; [done|]. by intros ? [= ->]. Qed.
Lemma reads_bind {A B} (m : vcheck PoolView A) (f : A -> vcheck PoolView B) P Q : reads m P -> (forall a, P a -> reads (f a) Q) -> reads (m ≫= f) Q.
Proof.
  intros Hm Hf st v r st' v' Hv. unfold mbind, vcheck_bind. destruct (m st v) as [[[[a|] st1] v1]|] eqn:E; [|intros [= <- <- <-]|done].
  - destruct (Hm _ _ _ _ _ Hv E) as [Hv1 Ha]. intros E'. by eapply (Hf a (Ha a eq_refl) st1 v1).
  - destruct (Hm _ _ _ _ _ Hv E) as [Hv1 _]. by split.
Qed.
Lemma reads_weaken {A} (m : vcheck PoolView A) (P Q : A -> Prop) : reads m P -> (forall a, P a -> Q a) -> reads m Q.
Proof. intros Hm HPQ st v r st' v' Hv E. destruct (Hm _ _ _ _ _ Hv E) as [Hv' Ha]. split; [done|]. intros a Hr. by apply HPQ, Ha. Qed.
Lemma reads_any {A} (m : vcheck PoolView A) (P : A -> Prop) : (forall st v r st' v', m st v = Some (r, st', v') -> v' = v /\ forall a, r = Some a -> P a) -> reads m P.
Proof. intros Hm st v r st' v' Hv E. destruct (Hm _ _ _ _ _ E) as [-> Ha]. by split. Qed.
Lemma reads_stop_if b : reads (v_stop_if b) (fun _ => b = false).
Proof. apply reads_any. intros st v r st' v' [= <- <- <-]. split; [done|]. by destruct b. Qed.
Lemma reads_reject_if b level code reason : reads (vreject_if b level code reason) (fun _ => b = false).
Proof. apply reads_any. intros st v r st' v'. unfold vreject_if, reject_if. destruct b; intros [= <- <- <-]; by split. Qed.
Lemma reads_check {A} (m : TxChecks.check A) : reads (v_check m) (fun _ => True).
Proof. apply reads_any. intros st v r st' v'. unfold v_check. destruct (m st) as [r0 s0]. intros [= <- <- <-]. by split. Qed.
Lemma reads_reading {A} (f : CCoinsViewCache PoolView -> A * CCoinsViewCache PoolView) P :
  (forall v a v', readable v -> f v = (a, v') -> readable v' /\ P a) -> reads (reading f) P.
Proof. intros Hf st v r st' v' Hv. unfold reading. destruct (f v) as [a v1] eqn:E. intros [= <- <- <-]. destruct (Hf _ _ _ Hv E). split; [done|]. by intros ? [= <-]. Qed.
Lemma readable_best v h v' : readable v -> cache_GetBestBlock v = (h, v') -> readable v'.
Proof.
  intros Hv. unfold cache_GetBestBlock at 1. case_bool_decide; [|by intros [= _ <-]]. cbn [GetBestBlock CCoinsViewMemPool_view CCoinsViewCache_view]. unfold cache_GetBestBlock.
  rewrite bool_decide_eq_false_2 by apply Hv. intros [= _ <-]. destruct Hv. by constructor.
Qed.
Lemma reads_mints `{AcceptEnv} t l : reads (mints_loop t l) (fun _ => True).
Proof.
  induction l as [|o l IH]; cbn [mints_loop]; [by eapply reads_weaken; [apply reads_ret|]|]. destruct (negb _); [done|].
  eapply reads_bind; [apply reads_check|]. intros _ _. eapply reads_bind; [apply reads_reject_if|]. by intros _ _.
Qed.
(** When the value of the inputs is known, each of them is there. *)
Lemma reads_coins `{AcceptEnv} (t : CTransaction) : IsCoinBase t = false -> Tx_IsZerocoinSpend t = false -> reads (coins_part t) (fun n => n <> None ->
  (forall c m, pool_coins (cached_hash t) = Some c -> IsAvailable c m = false) /\
  Forall (fun i => pool_coins (out_hash (prevout i)) <> None) (vin t) /\ Forall (fun i => 0 <= out_n (prevout i) -> sourced v0 p0 (prevout i)) (vin t)).
Proof.
  intros Hc Hz. unfold coins_part. eapply reads_bind; [apply (reads_reading _ (fun b => b = false -> forall c m, pool_coins (cached_hash t) = Some c -> IsAvailable c m = false)); intros v a v' Hv E; destruct (readable_have _ _ _ _ Hv E) as (? & _ & ?); by split|].
  intros have Hgone. eapply reads_bind; [apply reads_stop_if|]. intros [] Hb. specialize (Hgone Hb).
  eapply reads_bind; [apply (reads_reading _ (fun b => b = true -> Forall (fun i => pool_coins (out_hash (prevout i)) <> None) (vin t))); intros v a v' Hv E; by destruct (readable_have_all _ _ _ _ Hv E)|].
  intros all Hall. destruct all; cbn [negb]; [|by eapply reads_weaken; [apply reads_ret|]; intros ? ->].
  eapply (reads_bind _ _ (fun _ => True)). { destruct (Tx_IsZerocoinMint t); [apply reads_mints|by eapply reads_weaken; [apply reads_ret|]]. } intros _ _.
  eapply reads_bind; [apply (reads_reading _ (fun b => b = true -> Forall (fun i => 0 <= out_n (prevout i) -> sourced v0 p0 (prevout i)) (vin t))); unfold HaveInputs; rewrite Hc, Hz; intros v a v' Hv E; by destruct (readable_inputs _ _ _ _ Hv E)|].
  intros have' Hin. eapply reads_bind; [apply reads_reject_if|]. intros _ Hb'%negb_false_iff. specialize (Hin Hb').
  eapply reads_bind; [by apply (reads_reading _ (fun _ => True)); intros v a v' Hv E; split; [eapply readable_best|]|]. intros _ _.
  intros st v r st' v' Hv. unfold v_value, GetValueIn. rewrite Hc, Hz. destruct (value_in_loop _ _ _) as [[n v1]|] eqn:E; [|done]. intros [= <- <- <-].
  split; [by eapply readable_value|]. intros a _ _. auto.
Qed.
End through_pool.

(** ** The steps of the acceptance *)

Section steps.
Context {S : Type} `{CCoinsViewLaws S} `{AcceptEnv} `{ZerocoinChecks}.
Context (Verify : valtype -> hash256 -> valtype -> bool) (index_height : hash256 -> option Z) (params : CChainParams) (Hmax : 0 <= MaxMoneyOut params < 2 ^ 62).
Context (p0 : CTxMemPool) (v0 : hash256 -> option CCoins) (z0 : gmap hash256 Z).
(** Only priorities have been set in the pool, and the tip is as it was. *)
Record started (s : AState S) : Prop := {
  sd_pool : exists d, a_pool s = set_deltas d p0;
  sd_inv : cache_inv (pcoinsTip s);
  sd_view : forall k, cache_view (pcoinsTip s) k = v0 k;
  sd_best : hashBlock (pcoinsTip s) <> hash_zero;
  sd_spends : mapZerocoinspends s = z0
}.
Definition implies {A} (m : acc S A) (P : A -> Prop) : Prop := forall s r s', started s -> m s = Some (r, s') -> started s' /\ forall a, r = Some a -> P a.
Lemma implies_ret {A} (a : A) : implies (mret a) (fun b => b = a).
Proof. intros s r s' Hs [= <- <-]. split; [done|]. by intros ? [= ->]. Qed.
Lemma implies_bind {A B} (m : acc S A) (f : A -> acc S B) P Q : implies m P -> (forall a, P a -> implies (f a) Q) -> implies (m ≫= f) Q.
Proof.
  intros Hm Hf s r s' Hs. unfold mbind, acc_bind. destruct (m s) as [[[a|] s1]|] eqn:E; [|intros [= <- <-]|done].
  - destruct (Hm _ _ _ Hs E) as [Hs1 Ha]. intros E'. by eapply (Hf a (Ha a eq_refl) s1).
  - destruct (Hm _ _ _ Hs E) as [Hs1 _]. by split.
Qed.
Lemma implies_weaken {A} (m : acc S A) (P Q : A -> Prop) : implies m P -> (forall a, P a -> Q a) -> implies m Q.
Proof. intros Hm HPQ s r s' Hs E. destruct (Hm _ _ _ Hs E) as [Hs' Ha]. split; [done|]. intros a Hr. by apply HPQ, Ha. Qed.
Lemma implies_then {A B} (m : acc S A) (f : A -> acc S B) P Q : implies m P -> (forall a, implies (f a) Q) -> implies (m ≫= f) Q.
Proof. intros Hm Hf. eapply implies_bind; [exact Hm|]. auto. Qed.
Lemma set_astate_started st s : started s -> started (set_astate st s).
Proof. intros []. by constructor. Qed.
Lemma implies_dos_if b level code reason corruption : implies (a_dos_if b level code reason corruption) (fun _ => b = false).
Proof. intros s r s' Hs. unfold a_dos_if. destruct b; intros [= <- <-]; [split; [by apply set_astate_started|done]|by split]. Qed.
Lemma implies_stop_if b : implies (a_stop_if b) (fun _ => b = false).
Proof. intros s r s' Hs [= <- <-]. by destruct b. Qed.
Lemma implies_check {A} (m : TxChecks.check A) : implies (a_check m) (fun a => exists st st', m st = (Some a, st')).
Proof.
  intros s r s' Hs. unfold a_check. destruct (m (a_state s)) as [r0 st] eqn:E. intros [= <- <-]. split; [by apply set_astate_started|]. intros a ->. by eexists _, _.
Qed.
Lemma implies_some {A} (o : option A) : implies (a_some o) (fun a => o = Some a).
Proof. intros s r s' Hs. unfold a_some. destruct o as [a|]; [|done]. intros [= <- <-]. split; [done|]. by intros ? [= <-]. Qed.
Lemma implies_get {A} (f : AState S -> A) (P : A -> Prop) : (forall s, started s -> P (f s)) -> implies (a_get f) P.
Proof. intros Hf s r s' Hs [= <- <-]. split; [done|]. intros ? [= <-]. auto. Qed.
Lemma implies_put (f : AState S -> AState S) : (forall s, started s -> started (f s)) -> implies (a_put f) (fun _ => True).
Proof. intros Hf s r s' Hs [= <- <-]. auto. Qed.
Lemma implies_or_dos {A} (m : acc S A) level code reason P : implies m P -> implies (a_or_dos m level code reason) P.
Proof.
  intros Hm s r s' Hs. unfold a_or_dos. destruct (m s) as [[[a|] s1]|] eqn:E; [intros [= <- <-]; by apply (Hm s)|intros [= <- <-]|done].
  destruct (Hm _ _ _ Hs E). split; [by apply set_astate_started|done].
Qed.
Lemma implies_pool_view {A} (m : vcheck (CCoinsViewMemPool (CCoinsViewCache S)) A) P : reads p0 v0 m P -> implies (a_pool_view m) (fun a => P (fst a)).
Proof.
  intros Hm s r s' Hs. unfold a_pool_view. destruct (m _ _) as [[[r0 st] v]|] eqn:E; [|done]. intros [= <- <-].
  assert (readable p0 v0 (new_cache (mkMemPoolView (pcoinsTip s) (a_pool s)))) as Hr.
  { destruct Hs as [[d Hd] ? ? ? _]. constructor; cbn [new_cache base mempool mv_base cacheCoins]; [by rewrite Hd|done..|]. intros *. by rewrite lookup_empty. }
  destruct (Hm _ _ _ _ _ Hr E) as [[] Ha]. split.
  - destruct Hs as [Hd _ _ _ ?]. by constructor.
  - destruct r0 as [a0|]; [|done]. intros ? [= <-]. auto.
Qed.
Lemma implies_inputs t f flags v : implies (a_inputs Verify index_height params t f flags v)
  (fun a => fst a = true -> exists st r st' v', CheckInputs Verify index_height params t f flags true false st v = Some (Some r, st', v')).
Proof.
  intros s r s' Hs. unfold a_inputs. destruct (CheckInputs _ _ _ _ _ _ _ _ _ _) as [[[r0 st] v']|] eqn:E; [|done]. intros [= <- <-]. split; [by apply set_astate_started|].
  intros ? [= <-]. cbn [fst]. destruct r0 as [r0|]; [|done]. intros _. by exists (a_state s), r0, st, v'.
Qed.
Lemma implies_prioritise hash : implies (prioritise hash) (fun _ => True).
Proof. apply implies_put. intros s [[d Hd] ? ? ? ?]. constructor; [|done..]. cbn [set_apool a_pool]. rewrite Hd. by eexists. Qed.
Lemma implies_true {A} (m : acc S A) P : implies m P -> implies m (fun _ => True).
Proof. intros Hm. by eapply implies_weaken. Qed.
End steps.

(** Steps whose result does not matter. *)
Create HintDb steps discriminated.
#[export] Hint Resolve implies_dos_if implies_stop_if implies_some implies_inputs implies_prioritise : steps.
#[export] Hint Unfold a_view : steps.
Ltac quiet_step :=
  lazymatch goal with
  | |- implies _ _ _ (match ?x with _ => _ end) _ => destruct x
  | |- implies _ _ _ (mret _) _ => eapply implies_true, implies_ret
  | |- implies _ _ _ (_ ≫= _) _ => eapply implies_then; [|intros ?]
  | |- implies _ _ _ (a_put _) _ => apply implies_put; intros ? []; by constructor
  | |- implies _ _ _ (a_get _) _ => by apply (implies_get _ _ _ _ (fun _ => True))
  | |- implies _ _ _ (a_view _ _) _ => eapply implies_true, implies_some
  | |- implies _ _ _ _ _ => eapply implies_true; solve [eauto with steps]
  end.

Section accepted.
Context {S : Type} `{CCoinsViewLaws S} `{AcceptEnv} `{ZerocoinChecks}.
Context (Verify : valtype -> hash256 -> valtype -> bool) (index_height : hash256 -> option Z) (params : CChainParams) (Hmax : 0 <= MaxMoneyOut params < 2 ^ 62).
Context (p0 : CTxMemPool) (v0 : hash256 -> option CCoins) (z0 : gmap hash256 Z).
Local Abbreviation implies := (implies (S := S) p0 v0 z0).

Lemma implies_pool : implies (a_get (S := S) a_pool) (fun p => exists d, p = set_deltas d p0).
Proof. apply implies_get. by intros s []. Qed.
Lemma no_conflicts_free (t : CTransaction) : implies (no_conflicts t)
  (fun _ => Tx_IsZerocoinSpend t = false -> Forall (fun i => mapNextTx p0 !! prevout i = None) (vin t)).
Proof.
  unfold no_conflicts. eapply implies_bind; [apply implies_pool|]. intros p [d ->]. cbn [set_deltas mapNextTx]. destruct (Tx_IsZerocoinSpend t) eqn:Hz; cbn [negb].
  - by eapply implies_weaken; [apply implies_ret|].
  - eapply implies_weaken; [apply implies_stop_if|]. intros _ He%not_true_iff_false _. apply Forall_forall. intros i Hi. apply eq_None_not_Some. intros Hs.
    apply He, existsb_exists. exists i. split; [done|]. by apply bool_decide_eq_true.
Qed.
Definition first_facts (t : CTransaction) : Prop :=
  well_formed params t /\ IsCoinBase t = false /\ mapTx p0 !! cached_hash t = None /\
  (Tx_IsZerocoinSpend t = false -> Forall (fun i => mapNextTx p0 !! prevout i = None) (vin t)).
Lemma accept_first_facts (t : CTransaction) whichType : implies (accept_first params t whichType) (fun _ => first_facts t).
Proof using Hmax.
  unfold accept_first. eapply implies_then; [apply implies_dos_if|intros _]. eapply implies_bind; [apply implies_or_dos, implies_check|]. intros [] (st & st' & E).
  assert (well_formed params t) as Hw by by eapply (CheckTransaction_accepts params fSynced tipHeight Hmax).
  eapply implies_bind; [apply implies_dos_if|]. intros [] Hc. eapply implies_then; [apply implies_dos_if|intros _]. eapply implies_bind; [apply implies_pool|]. intros p [d ->].
  eapply implies_bind; [apply implies_stop_if|]. intros [] Hn. eapply implies_then; [apply implies_dos_if|intros _]. eapply implies_bind; [apply no_conflicts_free|]. intros [] Hf.
  assert (first_facts t) as Hfacts. { split_and!; try done. unfold pool_exists in Hn. cbn [set_deltas mapTx] in Hn. apply eq_None_not_Some. by apply bool_decide_eq_false in Hn. }
  eapply implies_weaken; [|by intros a _]. repeat quiet_step.
Qed.
(** The inputs of a transaction that is no zerocoin spend are there. *)
Definition inputs_there (t : CTransaction) : Prop := Tx_IsZerocoinSpend t = false ->
  (forall c m, pool_coins p0 v0 (cached_hash t) = Some c -> IsAvailable c m = false) /\
  Forall (fun i => pool_coins p0 v0 (out_hash (prevout i)) <> None) (vin t) /\ Forall (fun i => 0 <= out_n (prevout i) -> sourced v0 p0 (prevout i)) (vin t).
Lemma inputs_value_there (t : CTransaction) b : IsCoinBase t = false -> Tx_IsZerocoinSpend t = false ->
  implies (inputs_value t b) (fun _ => inputs_there t).
Proof.
  intros Hc Hz. unfold inputs_value. eapply implies_bind; [apply implies_pool_view, (reads_coins p0 v0 t Hc Hz)|]. intros [[n|] v] Hn; cbn [fst] in Hn.
  - eapply implies_weaken; [apply implies_ret|]. intros _ _ _. auto.
  - eapply implies_then; [destruct b; quiet_step|intros _]. eapply implies_bind; [apply implies_stop_if|]. by intros _ [=].
Qed.
Lemma spend_value_quiet (t : CTransaction) : implies (spend_value t) (fun _ => True).
Proof.
  unfold spend_value. quiet_step; [quiet_step|]. eapply (implies_then _ _ _ _ _ (fun _ => True)); [|intros _; quiet_step].
  induction (vin (tx t)) as [|i l IH]; cbn [spends_loop]; [quiet_step|]. destruct (negb _); [done|]. repeat (quiet_step || exact IH).
Qed.
Lemma accept_fees_quiet (t : CTransaction) fl ig nFees nSize v : implies (accept_fees params t fl ig nFees nSize v) (fun _ => True).
Proof. unfold accept_fees, limit_free. repeat quiet_step. Qed.
Lemma accept_standard_quiet (t : CTransaction) ty v : implies (accept_standard t ty v) (fun _ => True).
Proof. unfold accept_standard. repeat quiet_step. Qed.
Lemma accept_scripts_plain (t : CTransaction) v : IsCoinBase t = false ->
  implies (accept_scripts Verify index_height params t v) (fun _ => Tx_IsZerocoinSpend t = false -> Forall (fun i => IsZerocoinSpend (scriptSig i) = false) (vin t)).
Proof.
  intros Hc. unfold accept_scripts. eapply implies_then; [apply implies_inputs|]. intros [ok v1]. destruct ok; cbn [negb].
  - eapply implies_bind; [apply implies_inputs|]. intros [ok v2] Hok. eapply implies_weaken; [apply implies_stop_if|]. intros _ Hn%negb_false_iff Hz.
    destruct (Hok Hn) as (st & r & st' & v' & E). exact (CheckInputs_plain _ _ _ t _ _ _ _ _ _ _ Hc Hz E).
  - eapply implies_then; [apply implies_inputs|]. intros [ok v2]. eapply (implies_then _ _ _ _ _ (fun _ => True)).
    + repeat quiet_step.
    + intros _. eapply implies_weaken; [apply implies_stop_if|]. by intros _ [=].
Qed.
Lemma spend_value_chain (t : CTransaction) : implies (spend_value t) (fun _ => IsTransactionInChain t = false).
Proof.
  unfold spend_value. eapply implies_bind; [apply implies_dos_if|]. intros [] Hc. eapply implies_weaken; [|by intros a _].
  eapply (implies_then _ _ _ _ _ (fun _ => True)); [|intros _; quiet_step].
  induction (vin (tx t)) as [|i l IH]; cbn [spends_loop]; [quiet_step|]. destruct (negb _); [done|]. repeat (quiet_step || exact IH).
Qed.
(** What is known of a transaction when its entry is stored. *)
Record admitted (t : CTransaction) (e : CTxMemPoolEntry) : Prop := {
  ad_tx : e_tx e = t;
  ad_first : first_facts t;
  ad_there : inputs_there t;
  ad_chain : Tx_IsZerocoinSpend t = true -> IsTransactionInChain t = false;
  ad_plain : Tx_IsZerocoinSpend t = false -> Forall (fun i => IsZerocoinSpend (scriptSig i) = false) (vin t)
}.
Lemma accept_checks_admits whichType (t : CTransaction) fl pm ri ig :
  implies (accept_checks Verify index_height params whichType t fl pm ri ig) (admitted t).
Proof using Hmax.
  unfold accept_checks. eapply (implies_then _ _ _ _ _ (fun _ => True)); [destruct pm; quiet_step|intros _].
  eapply implies_bind; [apply accept_first_facts|]. intros [] Hf. assert (IsCoinBase t = false) as Hc by apply Hf.
  eapply (implies_bind _ _ _ _ _ (fun _ => inputs_there t /\ (Tx_IsZerocoinSpend t = true -> IsTransactionInChain t = false))).
  { destruct (Tx_IsZerocoinSpend t) eqn:Hz; [eapply implies_weaken; [apply spend_value_chain|]|eapply implies_weaken; [by apply inputs_value_there|]]; [|by intros a Ha].
    intros a Ha. cbn beta in Ha. split; [|done]. unfold inputs_there. by rewrite Hz. }
  intros [n v] [Ht Hch]. eapply implies_then; [apply accept_standard_quiet|intros v1]. eapply implies_then; [unfold a_view; apply implies_some|intros [sig v2]].
  eapply (implies_bind _ _ _ _ _ (fun a => e_tx (snd (fst a)) = t)).
  { unfold make_entry. eapply implies_then; [apply implies_some|intros out]. eapply implies_then; [unfold a_view; apply implies_some|intros [d v3]]. eapply implies_weaken; [apply implies_ret|]. by intros a ->. }
  intros [[fee e] v3] He. cbn [fst snd] in He. eapply implies_then; [apply implies_dos_if|intros _]. eapply implies_then; [apply accept_fees_quiet|intros v4].
  eapply implies_then; [unfold insane_fee; apply implies_stop_if|intros _]. eapply implies_bind; [by apply accept_scripts_plain|]. intros [] Hp.
  eapply implies_weaken; [apply implies_ret|]. by intros a ->.
Qed.
End accepted.

(** ** What is admitted *)

Lemma set_deltas_lookups d p : mapTx (set_deltas d p) = mapTx p /\ mapNextTx (set_deltas d p) = mapNextTx p.
Proof. done. Qed.
Section admission.
Context `{AcceptEnv} (params : CChainParams) (Hmax : 0 <= MaxMoneyOut params < 2 ^ 62) (p0 : CTxMemPool) (v0 : hash256 -> option CCoins).
Context (t : CTransaction) (e : CTxMemPoolEntry) (Had : admitted params p0 v0 t e).
(** An entry whose transaction went through the checks can be added: no output is named by the
    null identifier, and a zerocoin spend names nothing else. *)
Lemma admitted_addable d : mapTx p0 !! hash_zero = None -> visible (v0 hash_zero) = None ->
  (Tx_IsZerocoinSpend t = true -> Forall (fun i => out_hash (prevout i) = hash_zero) (vin t)) ->
  addable (cached_hash t) e (set_deltas d p0) /\ has_value e.
Proof using Hmax Had.
  intros H0 Hv0 Hz. destruct Had as [He (Hw & Hc & Hn & Hf) Ht _ Hp]. assert (GetValueOut t <> None) as Hval.
  { destruct Hw as (_ & _ & _ & Ho & _). destruct (GetValueOut_total params Hmax t Ho) as [E _]. by rewrite E. }
  split; [|unfold has_value; by rewrite He]. constructor; unfold zc, inputs; rewrite ?He; cbn [set_deltas mapTx mapNextTx]; [done|done|..].
  - intros Hs. apply distinct_NoDup; [apply Hw|by apply Hp].
  - intros Hs x Hx. destruct (Ht Hs) as (_ & Hpc & _). split; [by apply (proj1 (List.Forall_forall _ _) (Hf Hs))|].
    intros Hzero. pose proof (proj1 (List.Forall_forall _ _) Hpc x Hx) as Hn0. cbn beta in Hn0. rewrite Hzero in Hn0. unfold pool_coins in Hn0. by rewrite H0, Hv0 in Hn0.
  - intros Hs x Hx. by apply (proj1 (List.Forall_forall _ _) (Hz Hs)).
Qed.
(** Nothing at the tip is named by its identifier. *)
Definition unnamed : Prop := forall c n, v0 (cached_hash t) = Some c -> IsAvailable c n = false.
Lemma admitted_unnamed : (IsTransactionInChain t = false -> Tx_IsZerocoinSpend t = true -> unnamed) -> unnamed.
Proof using Had.
  intros Hz. destruct (Tx_IsZerocoinSpend t) eqn:Ez; [by apply Hz; [apply (ad_chain _ _ _ _ _ Had)|]|]. destruct (ad_there _ _ _ _ _ Had Ez) as (Hg & _).
  intros c n Hc. destruct (IsAvailable c n) eqn:Ea; [|done]. rewrite <- Ea. apply Hg. unfold pool_coins. destruct (ad_first _ _ _ _ _ Had) as (_ & _ & -> & _). rewrite Hc. cbn.
  destruct (IsPruned c) eqn:Ep; [|done]. by rewrite (available_pruned c n Ep) in Ea.
Qed.
Lemma sourced_added d o : unnamed -> sourced v0 p0 o -> sourced v0 (addUnchecked (cached_hash t) e (set_deltas d p0)) o.
Proof using Had.
  unfold sourced. cbn [addUnchecked set_txs mapTx set_deltas]. intros Hu. destruct (decide (out_hash o = cached_hash t)) as [->|Hne].
  - destruct (ad_first _ _ _ _ _ Had) as (_ & _ & -> & _). intros (c & Hc & Ha). by rewrite (Hu c _ Hc) in Ha.
  - by rewrite lookup_insert_ne.
Qed.
Lemma admitted_backed d : unnamed -> Forall (fun i => 0 <= out_n (prevout i)) (vin t) -> backed v0 p0 -> backed v0 (addUnchecked (cached_hash t) e (set_deltas d p0)).
Proof using Had.
  intros Hu Hi Hb h e' x. cbn [addUnchecked set_txs mapTx set_deltas]. destruct (decide (h = cached_hash t)) as [->|Hne].
  - rewrite lookup_insert_eq. intros [= <-]. unfold zc, inputs. rewrite (ad_tx _ _ _ _ _ Had). intros Hz Hx. apply sourced_added; [done|].
    destruct (ad_there _ _ _ _ _ Had Hz) as (_ & _ & Hs). apply (proj1 (List.Forall_forall _ _) Hs x Hx). by apply (proj1 (List.Forall_forall _ _) Hi).
  - rewrite lookup_insert_ne by done. intros He Hz Hx. apply sourced_added; [done|]. by eapply Hb.
Qed.
End admission.

(** C13: admission to the memory pool.  Whatever [AcceptToMemoryPool] answers, the unspent
    outputs of the tip stay as they were.  When it refuses, no transaction of the pool, no mark
    and no counter has changed (only a priority may have been set).  When it accepts, exactly
    the transaction has been added: it was not there, it is well formed, and it is no coinbase.
    If it is not a zerocoin spend, its inputs are distinct, none is spent by a transaction of
    the pool, and each names an output of the pool or one available at the tip; of a zerocoin
    spend the code checks none of this, only the spends it carries and that it is not in the
    chain already.  (The pool is consistent before, no transaction is named by the null
    identifier, and the amounts of the network are below 2^62.)  The consistency of the pool is kept, and so is the fact that everything it spends is there: of every transaction
    that is not a zerocoin spend, and of a zerocoin spend if all its inputs are null, which
    the code does not check either ([zerocoin_spend_erases_marks]), and if nothing at the tip
    has its identifier. *)
Theorem mempool_admission {S : Type} `{CCoinsViewLaws S} `{AcceptEnv} `{ZerocoinChecks} (Verify : valtype -> hash256 -> valtype -> bool)
    (index_height : hash256 -> option Z) (params : CChainParams) (whichType : txnouttype) (t : CTransaction) (fLimitFree pfMissingInputs fRejectInsaneFee ignoreFees : bool)
    (s s' : AState S) (r : option unit)
    (Hmax : 0 <= MaxMoneyOut params < 2 ^ 62) (Hinv : cache_inv (pcoinsTip s)) (Hbest : hashBlock (pcoinsTip s) <> hash_zero)
    (Hpool : pool_ok (a_pool s)) (Hbacked : backed (cache_view (pcoinsTip s)) (a_pool s))
    (Hnull : mapTx (a_pool s) !! hash_zero = None /\ visible (cache_view (pcoinsTip s) hash_zero) = None)
    (Hindex : Forall (fun i => 0 <= out_n (prevout i)) (vin t))
    (Hrun : AcceptToMemoryPool Verify index_height params whichType t fLimitFree pfMissingInputs fRejectInsaneFee ignoreFees s = Some (r, s')) :
  cache_inv (pcoinsTip s') /\ (forall k, cache_view (pcoinsTip s') k = cache_view (pcoinsTip s) k) /\
  exists d, match r with
  | None => a_pool s' = set_deltas d (a_pool s) /\ mapZerocoinspends s' = mapZerocoinspends s
  | Some _ => exists e, e_tx e = t /\ a_pool s' = addUnchecked (cached_hash t) e (set_deltas d (a_pool s)) /\
      mapTx (a_pool s) !! cached_hash t = None /\ well_formed params t /\ IsCoinBase t = false /\
      (Tx_IsZerocoinSpend t = false -> NoDup (map prevout (vin t)) /\
        Forall (fun i => mapNextTx (a_pool s) !! prevout i = None /\ sourced (cache_view (pcoinsTip s)) (a_pool s) (prevout i)) (vin t)) /\
      (Tx_IsZerocoinSpend t = true -> IsTransactionInChain t = false) /\
      ((Tx_IsZerocoinSpend t = true -> Forall (fun i => out_hash (prevout i) = hash_zero) (vin t) /\ unnamed (cache_view (pcoinsTip s)) t) ->
        pool_ok (a_pool s') /\ backed (cache_view (pcoinsTip s)) (a_pool s'))
  end.
Proof.
  assert (started (a_pool s) (cache_view (pcoinsTip s)) (mapZerocoinspends s) s) as Hs. { constructor; try done. exists (mapDeltas (a_pool s)). by destruct (a_pool s). }
  unfold AcceptToMemoryPool, mbind, acc_bind in Hrun.
  destruct (accept_checks _ _ _ _ _ _ _ _ _ _) as [[[e|] s1]|] eqn:E; [| |done].
  - destruct (accept_checks_admits Verify index_height params Hmax (a_pool s) (cache_view (pcoinsTip s)) (mapZerocoinspends s) whichType t _ _ _ _ s _ _ Hs E) as [[[d Hd] Hi Hv _ _] Ha].
    specialize (Ha e eq_refl). assert (r = Some tt /\ pcoinsTip s' = pcoinsTip s1 /\ a_pool s' = addUnchecked (cached_hash t) e (a_pool s1)) as (-> & -> & Hp).
    { cbn [a_put] in Hrun. destruct (Tx_IsZerocoinSpend t); cbn in Hrun; by injection Hrun as <- <-. }
    split; [done|]. split; [done|]. exists d, e. rewrite Hd in Hp. rewrite Hp.
    pose proof Ha as [He (Hw & Hc & Hn & Hf) Ht Hchain Hplain]. split_and!; try done.
    + intros Hz. split; [apply distinct_NoDup; [apply Hw|by apply Hplain]|]. destruct (Ht Hz) as (_ & _ & Hsrc). apply List.Forall_forall. intros i Hin.
      split; [by apply (proj1 (List.Forall_forall _ _) (Hf Hz))|]. apply (proj1 (List.Forall_forall _ _) Hsrc i Hin). by apply (proj1 (List.Forall_forall _ _) Hindex).
    + intros Hsp. destruct (admitted_addable params Hmax _ _ t e Ha d (proj1 Hnull) (proj2 Hnull)) as [Hadd Hval]; [intros Hz; by apply Hsp|].
      split; [apply addUnchecked_ok; [by apply set_deltas_ok|done|done]|]. eapply admitted_backed; [exact Ha| |done|done].
      apply (admitted_unnamed params _ _ t e Ha). intros _ Hz. by apply Hsp.
  - destruct (accept_checks_admits Verify index_height params Hmax (a_pool s) (cache_view (pcoinsTip s)) (mapZerocoinspends s) whichType t _ _ _ _ s _ _ Hs E) as [[[d Hd] Hi Hv _ Hz] _].
    injection Hrun as <- <-. split; [done|]. split; [done|]. by exists d.
Qed.

(** The payment of the witness of the ledger is offered to an empty pool. *)
Definition quiet_env : AcceptEnv := {|
  adjustedTime := 1000000; now := 1000000; tipHeight := 199; tipTime := 999000; zerocoinMaintenance := 4070908800; zerocoinStartHeight := 2147483646;
  segwitActivation := 4070908800; segwitSporkActive := false; fSynced := true; lockedInputs := ∅; obfuscationTxes := ∅; prematurewitness := false;
  fRequireStandard := false; datacarrier := true; nMaxDatacarrierBytes := 83; fIsBareMultisigStd := true; relaypriority := true; limitfreerelay := 30;
  promiscuousmempoolflags := None; nBytesPerSigOp := 20; minRelayTxFee := 10000; Zerocoin_MintFee := 1000000; IsTransactionInChain := fun _ => false;
  zerocoinspend_ok := fun _ _ => None; TxOutToPublicCoin := fun _ s => (false, s); zerocoinmint_ok := fun _ _ => false; free_decay := fun _ => double_of 0;
  junk_cost := 0; junk_mod := 0 |}.
Definition before_half : AState (CCoinsViewCache CCoinsViewDB) := mkAState CValidationState_new (CTxMemPool_new 0 10000) ledger false (double_of 0) 0 ∅.
Definition offer_half : option (option unit * AState (CCoinsViewCache CCoinsViewDB)) :=
  AcceptToMemoryPool (H0 := quiet_env) (H1 := no_zerocoin) no_curve heights CMainParams TX_NONSTANDARD half true true false false before_half.
Lemma offer_half_accepted : (fst <$> offer_half) = Some (Some tt).
Proof. vm_compute. reflexivity. Qed.
Lemma mempool_admission_witness : exists s', offer_half = Some (Some tt, s') /\ pool_ok (a_pool s') /\ exists e, e_tx e = half /\ mapTx (a_pool s') !! leaf 6 = Some e.
Proof.
  assert (Hm : 0 <= MaxMoneyOut CMainParams < 2 ^ 62) by done.
  pose proof offer_half_accepted as Hok. destruct offer_half as [[r s']|] eqn:E; [|discriminate]. injection Hok as ->. exists s'. split; [reflexivity|].
  destruct (mempool_admission (H1 := quiet_env) (H2 := no_zerocoin) no_curve heights CMainParams TX_NONSTANDARD half true true false false before_half s' (Some tt))
    as (_ & _ & d & e & He & Hp & _ & _ & _ & _ & _ & Hpok).
  - exact Hm.
  - apply ledger_at.
  - by vm_compute.
  - apply (pool_new_ok 10000).
  - intros h e x Hx. cbn in Hx. by rewrite lookup_empty in Hx.
  - split; [apply lookup_empty|by vm_compute].
  - by repeat constructor.
  - exact E.
  - split; [apply Hpok; intros Hz; vm_compute in Hz; discriminate Hz|]. exists e. split; [exact He|]. rewrite Hp. cbn [addUnchecked set_txs mapTx]. apply lookup_insert_eq.
Defined.
