(* ===== verification/Kernel.v ===== *)
(** Proofs of stake: the stake modifier and the kernel of [src/src/kernel.cpp], over the heap of
    block indices of [Chain].  A hash is the number its bytes make; [None] is a null pointer
    followed, or an access out of range. *)
From stdpp Require Import sorting.
From S2P Require Import Prelude Uint256 Chain Compact Pow Serialize Hashers Script SigChecks Interp Payments Merkle Transaction SigHash.

Definition MODIFIER_INTERVAL : Z := 60.
Definition MODIFIER_INTERVAL_TESTNET : Z := 60.
Definition MODIFIER_INTERVAL_RATIO : Z := 3.
Definition nStakeMinAge : Z := 2 * 60 * 60.
(** The variable of kernel.cpp is never set. *)
Definition fTestNet : bool := false.
Definition getIntervalVersion (fTestNet : bool) : Z := if fTestNet then MODIFIER_INTERVAL_TESTNET else MODIFIER_INTERVAL.
Definition GetWeight (nIntervalBeginning nIntervalEnd : Z) : Z := i64 (nIntervalEnd - nIntervalBeginning - nStakeMinAge).
Definition interval : Z := getIntervalVersion fTestNet.

(** [ss << a], and the hash of the stream as a number. *)
Definition ss_u256 (n : Z) : list Z := write_int 32 n.
Definition ss_u64 (n : Z) : list Z := write_int 8 n.
Definition ss_u32 (n : Z) : list Z := write_int 4 n.
Definition hash_number (ss : list Z) : Z := of_le_bytes (Hash [ss]).

(** ** The interval of the selection *)

Definition GetStakeModifierSelectionIntervalSection (nSection : Z) : option Z :=
  if (nSection >=? 0) && (nSection <? 64) then Some (u32 (interval * 63) / u32 (63 + (63 - nSection) * (MODIFIER_INTERVAL_RATIO - 1))) else None.
Fixpoint interval_loop (n : nat) (nSection nSelectionInterval : Z) : option Z :=
  match n with
  | O => Some nSelectionInterval
  | S n => a ← GetStakeModifierSelectionIntervalSection nSection; interval_loop n (nSection + 1) (nSelectionInterval + a)
  end.
Definition GetStakeModifierSelectionInterval : option Z := interval_loop 64 0 0.

(** ** The stake modifier of the next block *)

Section modifier.
(** The heap, [mapBlockIndex] and [Params().ModifierUpgradeBlock()]. *)
Context (h : heap) (mapBlockIndex : gmap Z ptr) (nModifierUpgradeBlock : Z).

Fixpoint last_modifier_loop (fuel : nat) (pindex : ptr) : option CBlockIndex :=
  b ← h !! pindex;
  match pprev b with
  | Some q => if GeneratedStakeModifier b then Some b else match fuel with O => None | S fuel => last_modifier_loop fuel q end
  | None => Some b
  end.
(** The modifier and its time; an inner [None] is an error. *)
Definition GetLastStakeModifier (pindex : option ptr) : option (option (Z * Z)) :=
  match pindex with
  | None => Some None
  | Some p =>
      b ← h !! p;
      b ← last_modifier_loop (Z.to_nat (nHeight b)) p;
      Some (if GeneratedStakeModifier b then Some (nStakeModifier b, GetBlockTime b) else None)
  end.

Definition selection_hash (fModifierV2 : bool) (nStakeModifierPrev : Z) (b : CBlockIndex) : Z :=
  let hashProof := if fModifierV2 then GetBlockHash b else if IsProofOfStake b then 0 else GetBlockHash b in
  let hashSelection := hash_number (ss_u256 hashProof ++ ss_u64 nStakeModifierPrev) in
  if IsProofOfStake b then Z.shiftr hashSelection 32 else hashSelection.
(** [best] is [hashBest] with [*pindexSelected], once [fSelected] is set; the result is an error
    ([None]) or the selected block. *)
Fixpoint select_loop (mapSelectedBlocks : gset Z) (nSelectionIntervalStop nStakeModifierPrev : Z) (l : list (Z * Z)) (fModifierV2 : option bool)
    (best : option (Z * ptr)) : option (option (option (Z * ptr))) :=
  match l with
  | [] => Some (Some best)
  | (_, hash) :: l =>
      match mapBlockIndex !! hash with
      | None => Some None
      | Some pindex =>
          b ← h !! pindex;
          if bool_decide (is_Some best) && (GetBlockTime b >? nSelectionIntervalStop) then Some (Some best) else
          let v2 := default (nHeight b >=? nModifierUpgradeBlock) fModifierV2 in
          if bool_decide (GetBlockHash b ∈ mapSelectedBlocks) then select_loop mapSelectedBlocks nSelectionIntervalStop nStakeModifierPrev l (Some v2) best else
          let hashSelection := selection_hash v2 nStakeModifierPrev b in
          select_loop mapSelectedBlocks nSelectionIntervalStop nStakeModifierPrev l (Some v2)
            (match best with
             | Some (hashBest, p) => if hashSelection <? hashBest then Some (hashSelection, pindex) else best
             | None => Some (hashSelection, pindex)
             end)
      end
  end.
(** An inner [None]: an error, or no block is left. *)
Definition SelectBlockFromCandidates (vSortedByTimestamp : list (Z * Z)) (mapSelectedBlocks : gset Z) (nSelectionIntervalStop nStakeModifierPrev : Z) : option (option ptr) :=
  r ← select_loop mapSelectedBlocks nSelectionIntervalStop nStakeModifierPrev vSortedByTimestamp None None;
  Some (match r with Some (Some (_, pindex)) => Some pindex | _ => None end).

(** The candidates, from [pindex] back to the start of the interval. *)
Fixpoint candidates_loop (fuel : nat) (nSelectionIntervalStart : Z) (pindex : option ptr) : option (list (Z * Z)) :=
  match pindex with
  | None => Some []
  | Some p =>
      b ← h !! p;
      if GetBlockTime b >=? nSelectionIntervalStart then
        match fuel with
        | O => None
        | S fuel => l ← candidates_loop fuel nSelectionIntervalStart (pprev b); Some ((GetBlockTime b, GetBlockHash b) :: l)
        end
      else Some []
  end.
(** The order of [std::pair]. *)
Definition candidate_le (a b : Z * Z) : Prop := fst a < fst b \/ fst a = fst b /\ snd a <= snd b.
#[export] Instance candidate_le_dec : RelDecision candidate_le.
Proof. intros a b. unfold candidate_le. apply _. Defined.
Fixpoint rounds_loop (n : nat) (nRound : Z) (vSortedByTimestamp : list (Z * Z)) (mapSelectedBlocks : gset Z) (nSelectionIntervalStop nStakeModifier nStakeModifierNew : Z) : option (option Z) :=
  match n with
  | O => Some (Some nStakeModifierNew)
  | S n =>
      section ← GetStakeModifierSelectionIntervalSection nRound;
      let nSelectionIntervalStop := nSelectionIntervalStop + section in
      r ← SelectBlockFromCandidates vSortedByTimestamp mapSelectedBlocks nSelectionIntervalStop nStakeModifier;
      match r with
      | None => Some None
      | Some pindex =>
          b ← h !! pindex;
          rounds_loop n (nRound + 1) vSortedByTimestamp ({[GetBlockHash b]} ∪ mapSelectedBlocks) nSelectionIntervalStop nStakeModifier
            (Z.lor nStakeModifierNew (u64 (Z.shiftl (GetStakeEntropyBit b) nRound)))
      end
  end.
(** [uint64_t] of the literal ["stakemodifier"], the address it has in the process. *)
Context (literal_address : Z).
(** The modifier and [fGeneratedStakeModifier]; an inner [None] is an error. *)
Definition ComputeNextStakeModifier (pindexPrev : option ptr) : option (option (Z * bool)) :=
  match pindexPrev with
  | None => Some (Some (0, true))
  | Some p =>
      b ← h !! p;
      if nHeight b =? 0 then Some (Some (literal_address, true)) else
      last ← GetLastStakeModifier pindexPrev;
      match last with
      | None => Some None
      | Some (nStakeModifier, nModifierTime) =>
          if cdiv nModifierTime interval >=? cdiv (GetBlockTime b) interval then Some (Some (nStakeModifier, false)) else
          nSelectionInterval ← GetStakeModifierSelectionInterval;
          let nSelectionIntervalStart := cdiv (GetBlockTime b) interval * interval - nSelectionInterval in
          l ← candidates_loop (S (Z.to_nat (nHeight b))) nSelectionIntervalStart pindexPrev;
          let vSortedByTimestamp := merge_sort candidate_le (rev l) in
          r ← rounds_loop (Nat.min 64 (length vSortedByTimestamp)) 0 vSortedByTimestamp ∅ nSelectionIntervalStart nStakeModifier 0;
          Some (match r with Some m => Some (m, true) | None => None end)
      end
  end.
End modifier.

(** ** The modifier of a kernel *)

Section kernel.
Context (h : heap) (mapBlockIndex : gmap Z ptr) (chainActive : CChain).

(** The loop keeps the block read last, and the height and time of the modifier. *)
Fixpoint kernel_loop (fuel : nat) (stop : Z) (pindex : CBlockIndex) (pindexNext : option ptr) (nStakeModifierHeight nStakeModifierTime : Z) :
    option (option (CBlockIndex * option ptr * Z * Z)) :=
  if nStakeModifierTime <? stop then
    match pindexNext with
    | None => Some None
    | Some p =>
        match fuel with
        | O => None
        | S fuel =>
            b ← h !! p;
            let pindexNext := chain_at chainActive (nHeight b + 1) in
            if GeneratedStakeModifier b then kernel_loop fuel stop b pindexNext (nHeight b) (GetBlockTime b)
            else kernel_loop fuel stop b pindexNext nStakeModifierHeight nStakeModifierTime
        end
    end
  else Some (Some (pindex, pindexNext, nStakeModifierHeight, nStakeModifierTime)).
(** The modifier with its height and time; an inner [None] is an error.  The messages before and
    after the loop read [pindexNext->nHeight]. *)
Definition GetKernelStakeModifier (hashBlockFrom : Z) : option (option (Z * Z * Z)) :=
  match mapBlockIndex !! hashBlockFrom with
  | None => Some None
  | Some p =>
      pindexFrom ← h !! p;
      nStakeModifierSelectionInterval ← GetStakeModifierSelectionInterval;
      pindexNext ← chain_Next h chainActive p;
      _ ← deref h pindexNext;
      r ← kernel_loop (length chainActive) (GetBlockTime pindexFrom + nStakeModifierSelectionInterval) pindexFrom pindexNext (nHeight pindexFrom) (GetBlockTime pindexFrom);
      match r with
      | None => Some None
      | Some (pindex, pindexNext, nStakeModifierHeight, nStakeModifierTime) =>
          _ ← deref h pindexNext;
          Some (Some (nStakeModifier pindex, nStakeModifierHeight, nStakeModifierTime))
      end
  end.

(** ** The kernel *)

Definition stakeHash (nTimeTx : Z) (ss : list Z) (prevoutIndex : Z) (prevoutHash : hash256) (nTimeBlockFrom : Z) : Z :=
  hash_number (ss ++ ss_u32 nTimeBlockFrom ++ ss_u32 prevoutIndex ++ prevoutHash ++ ss_u32 nTimeTx).
Definition stakeTargetHit (hashProofOfStake nValueIn bnTargetPerCoinDay : Z) : bool :=
  let bnCoinDayWeight := u64 nValueIn / 100 in
  hashProofOfStake <? (bnCoinDayWeight * bnTargetPerCoinDay) mod 2 ^ 256.

(** [new_block i]: the height of the active chain has changed at round [i]. *)
Fixpoint drift_loop (n : nat) (new_block : nat -> bool) (i : nat) (nTimeTx nHashDrift : Z) (ss : list Z) (prevout : COutPoint) (nTimeBlockFrom nValueIn bnTargetPerCoinDay : Z)
    (hashProofOfStake : Z) : option Z * Z :=
  match n with
  | O => (None, hashProofOfStake)
  | S n =>
      if new_block i then (None, hashProofOfStake) else
      let nTryTime := u32 (nTimeTx + nHashDrift - Z.of_nat i) in
      let hashProofOfStake := stakeHash nTryTime ss (out_n prevout) (out_hash prevout) nTimeBlockFrom in
      if negb (stakeTargetHit hashProofOfStake nValueIn bnTargetPerCoinDay)
      then drift_loop n new_block (S i) nTimeTx nHashDrift ss prevout nTimeBlockFrom nValueIn bnTargetPerCoinDay hashProofOfStake
      else (Some nTryTime, hashProofOfStake)
  end.
(** The time and hash of the block the coin is from.  The result: success, [nTimeTx],
    [hashProofOfStake]. *)
Definition CheckStakeKernelHash (new_block : nat -> bool) (nBits timeFrom hashFrom : Z) (txPrev : CMutableTransaction) (prevout : COutPoint) (nTimeTx nHashDrift : Z) (fCheck : bool)
    (hashProofOfStake : Z) : option (bool * Z * Z) :=
  out ← vout txPrev !! Z.to_nat (out_n prevout);
  let nValueIn := nValue out in
  let nTimeBlockFrom := u32 timeFrom in
  if nTimeTx <? nTimeBlockFrom then Some (false, nTimeTx, hashProofOfStake) else
  if u32 (nTimeBlockFrom + nStakeMinAge) >? nTimeTx then Some (false, nTimeTx, hashProofOfStake) else
  let bnTargetPerCoinDay := val (target nBits) in
  r ← GetKernelStakeModifier hashFrom;
  match r with
  | None => Some (false, nTimeTx, hashProofOfStake)
  | Some (nStakeModifier, _, _) =>
      let ss := ss_u64 nStakeModifier in
      if fCheck then
        let hashProofOfStake := stakeHash nTimeTx ss (out_n prevout) (out_hash prevout) nTimeBlockFrom in
        Some (stakeTargetHit hashProofOfStake nValueIn bnTargetPerCoinDay, nTimeTx, hashProofOfStake)
      else
        let '(found, hashProofOfStake) := drift_loop (Z.to_nat nHashDrift) new_block 0 nTimeTx nHashDrift ss prevout nTimeBlockFrom nValueIn bnTargetPerCoinDay hashProofOfStake in
        _ ← deref h (chain_Tip chainActive);
        Some (match found with Some t => (true, t, hashProofOfStake) | None => (false, nTimeTx, hashProofOfStake) end)
  end.

(** [GetTransaction] with the hash of its block, and [ReadBlockFromDisk]: the time and hash of
    the block. *)
Context (GetTransaction : hash256 -> option (CTransaction * Z)) (ReadBlock : ptr -> option (Z * Z)) (Verify : valtype -> hash256 -> valtype -> bool).
(** The block of the coin and the kernel. *)
Definition kernel_of_coin (txPrev : CMutableTransaction) (hashBlock : Z) (txin : CTxIn) (nBits nTime hashProofOfStake : Z) : option (option Z) :=
  match mapBlockIndex !! hashBlock with
  | None => Some None
  | Some pindex =>
      match ReadBlock pindex with
      | None => Some None
      | Some (timePrev, hashPrev) =>
          '(ok, _, hashProofOfStake) ← CheckStakeKernelHash (fun _ => false) nBits timePrev hashPrev txPrev (prevout txin) nTime 0 true hashProofOfStake;
          Some (if negb ok && (nTime >? 1505247602) then None else Some hashProofOfStake)
      end
  end.
(** On the second transaction of a block and its [nBits] and [nTime]; an inner [None] is an
    error, else the hash of the proof. *)
Definition CheckProofOfStake (vtx : list CTransaction) (nBits nTime hashProofOfStake : Z) : option (option Z) :=
  match (vtx !! 1%nat : option CTransaction) with
  | None => None
  | Some t => if negb (IsCoinStake t) then Some None else
      txin ← vin (tx t) !! 0%nat;
      match GetTransaction (out_hash (prevout txin)) with
      | None => Some None
      | Some (txPrev, hashBlock) =>
          out ← vout (tx txPrev) !! Z.to_nat (out_n (prevout txin));
          match VerifyScript (checker := TransactionSignatureChecker Verify t 0 (nValue out)) (scriptSig txin) (scriptPubKey out) [] STANDARD_SCRIPT_VERIFY_FLAGS with
          | Abort => None
          | Err _ => Some None
          | Ok _ => kernel_of_coin txPrev hashBlock txin nBits nTime hashProofOfStake
          end
      end
  end.
End kernel.

Definition CheckCoinStakeTimestamp (nTimeBlock nTimeTx : Z) : bool := nTimeBlock =? nTimeTx.
(** The checksum of the block before, the flags, the hash of the proof and the modifier; [None]
    is the assertion. *)
Definition GetStakeModifierChecksum (prevChecksum : option Z) (is_genesis : bool) (nFlags hashProofOfStake nStakeModifier : Z) : option Z :=
  if bool_decide (is_Some prevChecksum) || is_genesis then
    let ss := match prevChecksum with Some c => ss_u32 c | None => [] end in
    Some (u32 (u64 (Z.shiftr (hash_number (ss ++ ss_u32 nFlags ++ ss_u256 hashProofOfStake ++ ss_u64 nStakeModifier)) (256 - 32))))
  else None.
Definition mapStakeModifierCheckpoints : gmap Z Z := {[0 := 0xfd11f4e7]}.
Definition CheckStakeModifierCheckpoints (nHeight nStakeModifierChecksum : Z) : bool :=
  if fTestNet then true else match mapStakeModifierCheckpoints !! nHeight with Some c => nStakeModifierChecksum =? c | None => true end.
