(* ===== verification/KernelSpec.v ===== *)
(** The stake modifier and the kernel: what they select, and that a kernel that was found is one
    that is accepted. *)
From stdpp Require Import sorting.
From S2P Require Import Prelude Uint256 Chain Compact Pow Serialize Hashers Script SigChecks Interp Payments Merkle Transaction SigHash Kernel.
Set Default Proof Using "Type".

#[local] Opaque stakeHash stakeTargetHit hash_number target.

(** ** The search for a kernel *)

(** The proof of the kernel at a time, and whether it meets the target. *)
Section search.
Context (ss : list Z) (o : COutPoint) (nTimeBlockFrom nValueIn bnTarget : Z).
Definition proof_at (t : Z) : Z := stakeHash t ss (out_n o) (out_hash o) nTimeBlockFrom.
Definition hit_at (t : Z) : bool := stakeTargetHit (proof_at t) nValueIn bnTarget.
Lemma drift_loop_found n nb i t d hp t' hp' : 0 <= t -> t + d < 2 ^ 32 -> (Z.of_nat i + Z.of_nat n = d) ->
  drift_loop n nb i t d ss o nTimeBlockFrom nValueIn bnTarget hp = (Some t', hp') ->
  t < t' <= t + d - Z.of_nat i /\ hit_at t' = true /\ hp' = proof_at t' /\ forall u, t' < u <= t + d - Z.of_nat i -> hit_at u = false.
Proof.
  intros Ht Hd. revert i hp. induction n as [|n IH]; intros i hp Hi; cbn [drift_loop]; [done|]. destruct (nb i); [done|].
  rewrite (u32_small (t + d - Z.of_nat i)) by lia. fold (proof_at (t + d - Z.of_nat i)). fold (hit_at (t + d - Z.of_nat i)).
  destruct (hit_at (t + d - Z.of_nat i)) eqn:Eh; cbn [negb].
  - intros [= <- <-]. split; [lia|]. split; [done|]. split; [done|]. intros u Hu. lia.
  - intros E. destruct (IH (S i) _ ltac:(lia) E) as (H1 & H2 & H3 & H4). split; [lia|]. split; [done|]. split; [done|]. intros u Hu.
    destruct (Z.eq_dec u (t + d - Z.of_nat i)) as [->|]; [done|]. apply H4. lia.
Qed.
Lemma drift_loop_none n i t d hp hp' : 0 <= t -> t + d < 2 ^ 32 -> (Z.of_nat i + Z.of_nat n = d) ->
  drift_loop n (fun _ => false) i t d ss o nTimeBlockFrom nValueIn bnTarget hp = (None, hp') -> forall u, t < u <= t + d - Z.of_nat i -> hit_at u = false.
Proof.
  intros Ht Hd. revert i hp. induction n as [|n IH]; intros i hp Hi; cbn [drift_loop]; [lia|].
  rewrite (u32_small (t + d - Z.of_nat i)) by lia. fold (proof_at (t + d - Z.of_nat i)). fold (hit_at (t + d - Z.of_nat i)).
  destruct (hit_at (t + d - Z.of_nat i)) eqn:Eh; cbn [negb]; [done|]. intros E u Hu. destruct (Z.eq_dec u (t + d - Z.of_nat i)) as [->|]; [done|]. apply (IH (S i) _ ltac:(lia) E). lia.
Qed.
End search.

(** C19: a kernel that the search finds is one the check accepts.  When the search of
    [CheckStakeKernelHash] succeeds, the time it sets is the latest within the drift whose proof
    meets the target, and the check of a received block with that time succeeds with the same
    proof; when no block arrives meanwhile and it fails on a coin that is old enough, no time within the drift
    meets the target. *)
Theorem kernel_search_correct (h : heap) (mapBlockIndex : gmap Z ptr) (chainActive : CChain) (new_block : nat -> bool) (nBits timeFrom hashFrom : Z)
    (txPrev : CMutableTransaction) (prevout : COutPoint) (nTimeTx nHashDrift hp : Z) (ok : bool) (t' hp' : Z)
    (Htime : 0 <= nTimeTx) (Hdrift : 0 <= nHashDrift) (Hrange : nTimeTx + nHashDrift < 2 ^ 32)
    (Hrun : CheckStakeKernelHash h mapBlockIndex chainActive new_block nBits timeFrom hashFrom txPrev prevout nTimeTx nHashDrift false hp = Some (ok, t', hp')) :
  let check t hp0 := CheckStakeKernelHash h mapBlockIndex chainActive (fun _ => false) nBits timeFrom hashFrom txPrev prevout t 0 true hp0 in
  (ok = true -> nTimeTx < t' <= nTimeTx + nHashDrift /\ (forall hp0, check t' hp0 = Some (true, t', hp')) /\
    forall u hp0 r, t' < u <= nTimeTx + nHashDrift -> check u hp0 <> Some (true, u, r)) /\
  (ok = false -> t' = nTimeTx /\ ((forall i, new_block i = false) -> u32 (u32 timeFrom + nStakeMinAge) <= nTimeTx -> u32 timeFrom <= nTimeTx ->
    forall u hp0 r, nTimeTx < u <= nTimeTx + nHashDrift -> check u hp0 <> Some (true, u, r))).
Proof.
  cbv zeta. unfold CheckStakeKernelHash in *. destruct (vout txPrev !! Z.to_nat (out_n prevout)) as [out|]; [|done]. cbn [mbind option_bind] in *.
  destruct (Z.ltb_spec nTimeTx (u32 timeFrom)) as [|Hfrom].
  { injection Hrun as <- <- _. split; [done|]. intros _. split; [done|]. lia. }
  rewrite Z.gtb_ltb in Hrun. destruct (Z.ltb_spec nTimeTx (u32 (u32 timeFrom + nStakeMinAge))) as [|Hage].
  { injection Hrun as <- <- _. split; [done|]. intros _. split; [done|]. lia. }
  assert (forall u, nTimeTx < u -> (u <? u32 timeFrom) = false /\ (u32 (u32 timeFrom + nStakeMinAge) >? u) = false) as Hpast by (intros u Hu; rewrite Z.gtb_ltb; split; apply Z.ltb_ge; lia).
  destruct (GetKernelStakeModifier _ _ _ _) as [[[[m mh] mt]|]|]; [| |done]; cbn [mbind option_bind] in *.
  - cbn [negb] in Hrun. destruct (drift_loop _ _ _ _ _ _ _ _ _ _ _) as [[t|] hp1] eqn:Ed; (destruct (deref _ _); [|done]); cbn [mbind option_bind] in Hrun; injection Hrun as <- <- <-.
    + apply drift_loop_found in Ed as (Hr & Hh & -> & Hmax); [|lia..]. split; [intros _|done]. split; [lia|]. split.
      * intros hp0. destruct (Hpast t ltac:(lia)) as [-> ->]. unfold hit_at, proof_at in *. by rewrite Hh.
      * intros u hp0 r Hu. destruct (Hpast u ltac:(lia)) as [-> ->]. intros [= Hhit _]. pose proof (Hmax u ltac:(lia)) as Hm. unfold hit_at, proof_at in Hm. congruence.
    + split; [done|]. intros _. split; [done|]. intros Hnb _ _ u hp0 r Hu. destruct (Hpast u ltac:(lia)) as [-> ->]. intros [= Hhit _].
      assert (drift_loop (Z.to_nat nHashDrift) (fun _ => false) 0 nTimeTx nHashDrift (ss_u64 m) prevout (u32 timeFrom) (nValue out) (val (target nBits)) hp = (None, hp1)) as Ed'.
      { rewrite <- Ed. clear -Hnb. generalize 0%nat, hp. induction (Z.to_nat nHashDrift) as [|n IH]; intros i hp0; cbn [drift_loop]; [done|]. rewrite Hnb. by rewrite IH. }
      assert (hit_at (ss_u64 m) prevout (u32 timeFrom) (nValue out) (val (target nBits)) u = false) as Hn by (eapply drift_loop_none; [| | |exact Ed'|]; lia).
      unfold hit_at, proof_at in Hn. congruence.
  - injection Hrun as <- <- _. split; [done|]. intros _. split; [done|]. intros _ _ _ u hp0 r Hu. destruct (Hpast u ltac:(lia)) as [-> ->]. by intros [=].
Qed.

(** ** The modifier of a kernel *)

(** Each place of the active chain holds a block of that height. *)
Definition chain_full (h : heap) (c : CChain) : Prop := forall k, 0 <= k < Z.of_nat (length c) -> exists p b, chain_at c k = Some p /\ h !! p = Some b /\ nHeight b = k.
Lemma chain_ok_full h c : wf_heap h -> chain_ok h c -> chain_full h c.
Proof.
  intros Hwf [->|(t & bt & Ht & ->)] k Hk; [cbn in Hk; lia|]. rewrite chain_of_length in Hk. destruct (Hwf t bt Ht) as [H0 _].
  destruct (ancestor_height h Hwf t bt k Ht ltac:(lia)) as (q & b & Hq & Hb & Hh). exists q, b. split; [|done]. unfold chain_at. rewrite chain_of_length.
  rewrite Z2Nat.id in * by lia. replace ((k <? 0) || (k >=? nHeight bt + 1)) with false by lia. rewrite chain_of_lookup by lia. rewrite decide_True by lia. rewrite Z2Nat.id by lia. by rewrite Hq.
Qed.
Definition block_at (h : heap) (c : CChain) (k : Z) : option CBlockIndex := p ← chain_at c k; h !! p.
(** The block at [j] is the first after [k] whose modifier was generated at [stop] or later. *)
Definition first_modifier (h : heap) (c : CChain) (k stop j : Z) (b : CBlockIndex) : Prop :=
  k < j < Z.of_nat (length c) /\ block_at h c j = Some b /\ GeneratedStakeModifier b = true /\ stop <= GetBlockTime b /\
  forall i a, k < i < j -> block_at h c i = Some a -> GeneratedStakeModifier a = true -> GetBlockTime a < stop.
Definition selection_interval : Z := 2087.
Lemma interval_value : GetStakeModifierSelectionInterval = Some selection_interval.
Proof. by vm_compute. Qed.
Section kernel_modifier.
Context (h : heap) (c : CChain) (Hc : chain_full h c).
Lemma block_at_Some k : 0 <= k < Z.of_nat (length c) -> exists p b, chain_at c k = Some p /\ h !! p = Some b /\ nHeight b = k /\ block_at h c k = Some b.
Proof using Hc. intros Hk. destruct (Hc k Hk) as (p & b & Hp & Hb & Hh). exists p, b. unfold block_at. rewrite Hp. by cbn. Qed.
Lemma chain_at_None k : Z.of_nat (length c) <= k -> chain_at c k = None.
Proof. intros Hk. unfold chain_at. by replace ((k <? 0) || (k >=? Z.of_nat (length c))) with true by lia. Qed.
Lemma kernel_loop_spec fuel stop k j b0 hh tm : 0 <= k < j -> tm < stop -> (Z.to_nat (Z.of_nat (length c) - j) <= fuel)%nat ->
  (forall i a, k < i < j -> block_at h c i = Some a -> GeneratedStakeModifier a = true -> GetBlockTime a < stop) ->
  (exists i b, first_modifier h c k stop i b /\ kernel_loop h c fuel stop b0 (chain_at c j) hh tm = Some (Some (b, chain_at c (i + 1), i, GetBlockTime b))) \/
  ((forall i b, ~ first_modifier h c k stop i b) /\ kernel_loop h c fuel stop b0 (chain_at c j) hh tm = Some None).
Proof using Hc.
  revert j b0 hh tm. induction fuel as [|fuel IH]; intros j b0 hh tm Hk Ht Hf Hn; cbn [kernel_loop]; (replace (tm <? stop) with true by lia);
    (destruct (Z.leb_spec (Z.of_nat (length c)) j) as [Hj|Hj];
      [rewrite chain_at_None by done; right; split; [|done]; intros i b (Hi & Hb & Hg & Hs & _); assert (i < j) by lia; specialize (Hn i b ltac:(lia) Hb Hg); lia|]); [lia|].
  destruct (block_at_Some j ltac:(lia)) as (p & b & -> & Hb & Hh & Hbj). rewrite Hb. cbn [mbind option_bind]. rewrite Hh.
  assert (forall hh' tm', tm' < stop -> (GeneratedStakeModifier b = true -> GetBlockTime b < stop) ->
    (exists i b', first_modifier h c k stop i b' /\ kernel_loop h c fuel stop b (chain_at c (j + 1)) hh' tm' = Some (Some (b', chain_at c (i + 1), i, GetBlockTime b'))) \/
    ((forall i b', ~ first_modifier h c k stop i b') /\ kernel_loop h c fuel stop b (chain_at c (j + 1)) hh' tm' = Some None)) as Hgo.
  { intros hh' tm' Ht' Hg'. apply IH; [lia|done|lia|]. intros i a Hi Ha Hga. destruct (Z.eq_dec i j) as [->|]; [assert (a = b) as -> by congruence; auto|]. apply (Hn i a); [lia|done..]. }
  destruct (GeneratedStakeModifier b) eqn:Eg; [|apply Hgo; done]. destruct (Z.ltb_spec (GetBlockTime b) stop) as [Hlt|Hge]; [apply Hgo; done|].
  left. exists j, b. split; [by split_and!; try lia|]. destruct fuel; cbn [kernel_loop]; by replace (GetBlockTime b <? stop) with false by lia.
Qed.
End kernel_modifier.

(** C20: the modifier of a kernel.  For a block of the active chain it is that of the first later
    block whose modifier was generated at least 2087 seconds after the block, when the chain
    goes on beyond that one; without such a block the function fails.  But its messages follow
    the pointer to the next block without looking at it: the node crashes when the first such
    block is the tip, when the block itself is the tip, and for a block that is not in the
    active chain. *)
Theorem kernel_modifier_correct (h : heap) (mapBlockIndex : gmap Z ptr) (c : CChain) (hash : Z) (p : ptr) (from : CBlockIndex)
    (Hwf : wf_heap h) (Hok : chain_ok h c) (Hp : mapBlockIndex !! hash = Some p) (Hb : h !! p = Some from) :
  let stop := GetBlockTime from + 2087 in
  let r := GetKernelStakeModifier h mapBlockIndex c hash in
  (chain_at c (nHeight from) <> Some p -> r = None) /\
  (chain_at c (nHeight from) = Some p ->
    (nHeight from = Z.of_nat (length c) - 1 -> r = None) /\
    (forall j b, first_modifier h c (nHeight from) stop j b ->
      r = if j + 1 <? Z.of_nat (length c) then Some (Some (nStakeModifier b, j, GetBlockTime b)) else None) /\
    (nHeight from < Z.of_nat (length c) - 1 -> (forall j b, ~ first_modifier h c (nHeight from) stop j b) -> r = Some None)).
Proof.
  cbv zeta. pose proof (chain_ok_full h c Hwf Hok) as Hc. unfold GetKernelStakeModifier. rewrite Hp, Hb, interval_value. cbn [mbind option_bind]. unfold chain_Next. rewrite Hb. cbn [mbind option_bind]. split.
  { intros Hn. by rewrite bool_decide_eq_false_2. }
  intros Hin. rewrite bool_decide_eq_true_2 by done.
  assert (0 <= nHeight from < Z.of_nat (length c)) as Hk by (unfold chain_at in Hin; destruct ((nHeight from <? 0) || _) eqn:E; [done|lia]).
  destruct (Z.eq_dec (nHeight from) (Z.of_nat (length c) - 1)) as [Htip|Htip].
  - rewrite (chain_at_None c) by lia. split; [done|]. split; [intros j b (Hj & _); lia|lia].
  - destruct (block_at_Some h c Hc (nHeight from + 1) ltac:(lia)) as (q & a & Hq & Ha & _). rewrite Hq. cbn [deref mbind option_bind]. rewrite Ha. cbn [mbind option_bind]. rewrite <- Hq.
    destruct (kernel_loop_spec h c Hc (length c) (GetBlockTime from + selection_interval) (nHeight from) (nHeight from + 1) from (nHeight from) (GetBlockTime from)) as [(i & b & Hf & ->)|[Hno ->]];
      [lia|unfold selection_interval; lia|lia|intros; lia| |].
    + cbn [mbind option_bind]. split; [lia|]. split; [|intros _ Hno; exfalso; by eapply Hno].
      intros j b' Hf'. assert (j = i) as ->.
      { destruct Hf as (Hi & Hbi & Hgi & Hsi & Hmi), Hf' as (Hj & Hbj & Hgj & Hsj & Hmj). destruct (Z.lt_total i j) as [Hlt|[?|Hlt]]; [|done|].
        - specialize (Hmj i b ltac:(lia) Hbi Hgi). unfold selection_interval in *. lia.
        - specialize (Hmi j b' ltac:(lia) Hbj Hgj). unfold selection_interval in *. lia. }
      assert (b' = b) as -> by (destruct Hf as (_ & ? & _), Hf' as (_ & ? & _); congruence). destruct (Z.ltb_spec (i + 1) (Z.of_nat (length c))).
      * destruct (block_at_Some h c Hc (i + 1)) as (q' & a' & -> & Ha' & _); [destruct Hf; lia|]. cbn [deref mbind option_bind]. by rewrite Ha'.
      * by rewrite (chain_at_None c) by lia.
    + cbn [mbind option_bind]. split; [lia|]. split; [|done]. intros j b' Hf'. exfalso. by eapply Hno.
Qed.

(** ** The stake modifier of the next block *)

Definition key (b : CBlockIndex) : Z * Z := (GetBlockTime b, GetBlockHash b).
(** Every block is indexed under its hash. *)
Definition indexed (h : heap) (mapBlockIndex : gmap Z ptr) : Prop := forall p b, h !! p = Some b -> mapBlockIndex !! GetBlockHash b = Some p.
Section selection.
Context (h : heap) (mapBlockIndex : gmap Z ptr) (nModifierUpgradeBlock : Z) (Hix : indexed h mapBlockIndex).
Definition in_heap (b : CBlockIndex) : Prop := exists p, h !! p = Some b.
Context (taken : gset Z) (stop mprev : Z).
Lemma select_item b : in_heap b -> exists p, mapBlockIndex !! GetBlockHash b = Some p /\ h !! p = Some b.
Proof using Hix. intros [p Hp]. exists p. split; [by apply Hix|done]. Qed.
(** Blocks in the order of time; [b0] is the best so far. *)
Lemma select_best l v2 b0 p0 : Forall in_heap l -> StronglySorted (fun a b => GetBlockTime a <= GetBlockTime b) l -> h !! p0 = Some b0 ->
  exists b p, select_loop h mapBlockIndex nModifierUpgradeBlock taken stop mprev (map key l) (Some v2) (Some (selection_hash v2 mprev b0, p0)) = Some (Some (Some (selection_hash v2 mprev b, p))) /\
    h !! p = Some b /\ (b = b0 \/ b ∈ l /\ (GetBlockHash b ∉ taken) /\ GetBlockTime b <= stop) /\ selection_hash v2 mprev b <= selection_hash v2 mprev b0 /\
    forall c, c ∈ l -> GetBlockHash c ∉ taken -> GetBlockTime c <= stop -> selection_hash v2 mprev b <= selection_hash v2 mprev c.
Proof using Hix.
  revert b0 p0. induction l as [|a l IH]; intros b0 p0 Hl Hs Hp0; cbn [map select_loop].
  { exists b0, p0. split; [done|]. split; [done|]. split; [by left|]. split; [lia|]. intros c Hc. by apply elem_of_nil in Hc. }
  apply Forall_cons_iff in Hl as [Ha Hl]. inversion_clear Hs as [|? ? Hs' Hle]. destruct (select_item a Ha) as (q & Hq & Hqa). cbn [key fst snd]. rewrite Hq, Hqa. cbn [mbind option_bind].
  rewrite bool_decide_eq_true_2 by done. change (default _ (Some v2)) with v2. cbn [andb]. rewrite Z.gtb_ltb. destruct (Z.ltb_spec stop (GetBlockTime a)) as [Hst|Hst].
  { exists b0, p0. split; [done|]. split; [done|]. split; [by left|]. split; [lia|]. intros c [->|Hc]%elem_of_cons _ Hct; [lia|].
    rewrite Forall_forall in Hle. specialize (Hle c (proj1 (list_elem_of_In _ _) Hc)). cbn beta in Hle. lia. }
  case_bool_decide as Ht.
  - destruct (IH b0 p0 Hl Hs' Hp0) as (b & p & E & Hp & Hor & Hle0 & Hmin). exists b, p. split; [exact E|]. split; [done|].
    split; [destruct Hor as [->|(? & ? & ?)]; [by left|right; split; [by right|done]]|]. split; [done|]. intros c [->|Hc]%elem_of_cons; [done|by apply Hmin].
  - destruct (Z.ltb_spec (selection_hash v2 mprev a) (selection_hash v2 mprev b0)) as [Hlt|Hge].
    + destruct (IH a q Hl Hs' Hqa) as (b & p & E & Hp & Hor & Hle0 & Hmin). exists b, p. split; [exact E|]. split; [done|].
      split; [right; destruct Hor as [->|(? & ? & ?)]; [split; [by left|done]|split; [by right|done]]|]. split; [lia|]. intros c [->|Hc]%elem_of_cons; [done|by apply Hmin].
    + destruct (IH b0 p0 Hl Hs' Hp0) as (b & p & E & Hp & Hor & Hle0 & Hmin). exists b, p. split; [exact E|]. split; [done|].
      split; [destruct Hor as [->|(? & ? & ?)]; [by left|right; split; [by right|done]]|]. split; [done|]. intros c [->|Hc]%elem_of_cons; [lia|by apply Hmin].
Qed.
(** What a round selects among [l]: of the blocks left within the interval one with the least
    hash, or the earliest block left when none is within the interval. *)
Definition selected (v2 : bool) (l : list CBlockIndex) (b : CBlockIndex) : Prop :=
  b ∈ l /\ (GetBlockHash b ∉ taken) /\
  (GetBlockTime b <= stop /\ (forall c, c ∈ l -> GetBlockHash c ∉ taken -> GetBlockTime c <= stop -> selection_hash v2 mprev b <= selection_hash v2 mprev c) \/
   stop < GetBlockTime b /\ forall c, c ∈ l -> GetBlockHash c ∉ taken -> GetBlockTime b <= GetBlockTime c).
Lemma select_first l v2o v2 : Forall in_heap l -> StronglySorted (fun a b => GetBlockTime a <= GetBlockTime b) l -> (exists c, c ∈ l /\ (GetBlockHash c ∉ taken)) ->
  (forall a, head l = Some a -> default (nHeight a >=? nModifierUpgradeBlock) v2o = v2) ->
  exists b p, select_loop h mapBlockIndex nModifierUpgradeBlock taken stop mprev (map key l) v2o None = Some (Some (Some (selection_hash v2 mprev b, p))) /\ h !! p = Some b /\ selected v2 l b.
Proof using Hix.
  revert v2o. induction l as [|a l IH]; intros v2o Hl Hs (c & Hc & Hct) Hv; [by apply elem_of_nil in Hc|]. cbn [map select_loop].
  apply Forall_cons_iff in Hl as [Ha Hl]. inversion_clear Hs as [|? ? Hs' Hle]. destruct (select_item a Ha) as (q & Hq & Hqa). cbn [key fst snd]. rewrite Hq, Hqa. cbn [mbind option_bind].
  rewrite bool_decide_eq_false_2 by (intros [? [=]]). cbn [andb]. rewrite (Hv a eq_refl). case_bool_decide as Ht.
  - destruct (IH (Some v2) Hl Hs') as (b & p & E & Hp & Hb & Hbt & Hsel); [|done|].
    { exists c. split; [|done]. apply elem_of_cons in Hc as [->|]; done. }
    exists b, p. split; [exact E|]. split; [done|]. split; [by right|]. split; [done|]. destruct Hsel as [[Hle1 Hm]|[Hlt Hm]]; [left|right]; (split; [done|]); intros d [->|Hd]%elem_of_cons Hdt; try done; by apply Hm.
  - destruct (select_best l v2 a q Hl Hs' Hqa) as (b & p & E & Hp & Hor & Hle0 & Hmin). exists b, p. split; [exact E|]. split; [done|]. rewrite Forall_forall in Hle.
    destruct Hor as [->|(Hb & Hbt & Hbs)].
    + split; [by left|]. split; [done|]. destruct (Z.le_gt_cases (GetBlockTime a) stop); [left|right]; (split; [lia|]); intros d [->|Hd]%elem_of_cons Hdt; try lia; [by apply Hmin|].
      by apply Hle, list_elem_of_In.
    + split; [by right|]. split; [done|]. left. split; [done|]. intros d [->|Hd]%elem_of_cons Hdt Hds; [done|by apply Hmin].
Qed.
End selection.

(** The blocks from [p] back whose times are within the interval. *)
Inductive run_of (h : heap) (start : Z) : option ptr -> list CBlockIndex -> Prop :=
| run_end : run_of h start None []
| run_stop p b : h !! p = Some b -> GetBlockTime b < start -> run_of h start (Some p) []
| run_cons p b bs : h !! p = Some b -> start <= GetBlockTime b -> run_of h start (pprev b) bs -> run_of h start (Some p) (b :: bs).
(** The nearest block from [p] back with a modifier of its own. *)
Inductive nearest_modifier (h : heap) : ptr -> CBlockIndex -> Prop :=
| near_here p b : h !! p = Some b -> GeneratedStakeModifier b = true -> nearest_modifier h p b
| near_back p b q c : h !! p = Some b -> GeneratedStakeModifier b = false -> pprev b = Some q -> nearest_modifier h q c -> nearest_modifier h p c.
Section candidates.
Context (h : heap) (Hwf : wf_heap h).
Lemma last_modifier_spec fuel p b c : h !! p = Some b -> nearest_modifier h p c -> nHeight b <= Z.of_nat fuel -> last_modifier_loop h fuel p = Some c /\ GeneratedStakeModifier c = true.
Proof using Hwf.
  intros Hp Hn. revert fuel b Hp. induction Hn as [p b' Hb' Hg|p b' q c Hb' Hg Hq Hn IH]; intros fuel b Hp Hf; assert (b' = b) as -> by congruence.
  - split; [|done]. destruct fuel; cbn [last_modifier_loop]; rewrite Hp; cbn [mbind option_bind]; rewrite Hg; by destruct (pprev b).
  - destruct (Hwf p b Hp) as (Hr & H0 & Hs). destruct (Z.eq_dec (nHeight b) 0) as [He|Hne]; [rewrite (H0 He) in Hq; done|].
    destruct (Hs ltac:(lia)) as (q' & a & Hq' & Ha & Hah & _). rewrite Hq in Hq'. injection Hq' as <-. destruct fuel as [|fuel]; [lia|]. cbn [last_modifier_loop]. rewrite Hp. cbn [mbind option_bind]. rewrite Hq, Hg.
    apply (IH fuel a Ha). lia.
Qed.
Lemma candidates_spec fuel start p b : h !! p = Some b -> nHeight b < Z.of_nat fuel -> exists bs, candidates_loop h fuel start (Some p) = Some (map key bs) /\ run_of h start (Some p) bs.
Proof using Hwf.
  revert p b. induction fuel as [|fuel IH]; intros p b Hp Hf; [destruct (Hwf p b Hp); lia|]. cbn [candidates_loop]. rewrite Hp. cbn [mbind option_bind]. rewrite Z.geb_leb.
  destruct (Z.leb_spec start (GetBlockTime b)) as [Ht|Ht]; [|exists []; split; [done|by eapply run_stop]].
  destruct (pprev b) as [q|] eqn:Hq.
  - destruct (Hwf p b Hp) as (Hr & H0 & Hs). destruct (Z.eq_dec (nHeight b) 0) as [He|Hne]; [rewrite (H0 He) in Hq; done|].
    destruct (Hs ltac:(lia)) as (q' & a & Hq' & Ha & Hah & _). rewrite Hq in Hq'. injection Hq' as <-. destruct (IH q a Ha ltac:(lia)) as (bs & E & Hrun). rewrite E. cbn [mbind option_bind].
    exists (b :: bs). split; [done|]. apply (run_cons h start p b bs Hp Ht). by rewrite Hq.
  - destruct fuel; cbn [candidates_loop mbind option_bind]; exists [b]; (split; [done|]); apply (run_cons h start p b [] Hp Ht); rewrite Hq; constructor.
Qed.
Lemma run_heights start o bs : run_of h start o bs -> forall p b, o = Some p -> h !! p = Some b -> Forall (fun c => in_heap h c /\ nHeight c <= nHeight b) bs /\ NoDup bs.
Proof using Hwf.
  induction 1 as [|p b Hp Ht|p b bs Hp Ht Hr IH]; intros p' b' [= <-] Hb'; [split; [constructor|constructor]|]. assert (b' = b) as -> by congruence.
  destruct (pprev b) as [q|] eqn:Hq; [|inversion Hr; subst; split; [repeat constructor; [by exists p|lia]|apply NoDup_singleton]].
  destruct (Hwf p b Hp) as (Hr' & H0 & Hs). destruct (Z.eq_dec (nHeight b) 0) as [He|Hne]; [rewrite (H0 He) in Hq; done|].
  destruct (Hs ltac:(lia)) as (q' & a & Hq' & Ha & Hah & _). rewrite Hq in Hq'. injection Hq' as <-. destruct (IH q a eq_refl Ha) as [Hf Hnd]. split.
  - constructor; [split; [by exists p|lia]|]. eapply Forall_impl; [|exact Hf]. cbn. intros c [? ?]. split; [done|lia].
  - constructor; [|done]. intros Hin. rewrite Forall_forall in Hf. destruct (Hf b (proj1 (list_elem_of_In _ _) Hin)). lia.
Qed.
End candidates.

#[local] Instance candidate_trans : Transitive candidate_le.
Proof. intros a b c. unfold candidate_le. lia. Qed.
#[local] Instance candidate_total : Total candidate_le.
Proof. intros a b. unfold candidate_le. lia. Qed.
Lemma sorted_times bs : StronglySorted candidate_le (map key bs) -> StronglySorted (fun a b => GetBlockTime a <= GetBlockTime b) bs.
Proof.
  induction bs as [|b bs IH]; intros Hs; [constructor|]. inversion_clear Hs as [|? ? Hs' Hb]. constructor; [by apply IH|]. rewrite Forall_forall in *. intros c Hc.
  specialize (Hb (key c) (in_map key _ _ Hc)). unfold candidate_le in Hb. cbn in Hb. lia.
Qed.

Definition section_value (n : Z) : Z := 3780 / (63 + (63 - n) * 2).
Lemma section_ok n : 0 <= n < 64 -> GetStakeModifierSelectionIntervalSection n = Some (section_value n).
Proof.
  intros Hn. unfold GetStakeModifierSelectionIntervalSection, section_value. replace ((n >=? 0) && (n <? 64)) with true by lia. rewrite (u32_small (63 + _)) by (unfold MODIFIER_INTERVAL_RATIO; lia). done.
Qed.
(** The end of the interval in round [n]. *)
Fixpoint stop_of (start : Z) (n : nat) : Z := match n with O => start + section_value 0 | S n => stop_of start n + section_value (Z.of_nat n + 1) end.
Definition taken_by (sel : list CBlockIndex) : gset Z := list_to_set (map GetBlockHash sel).
(** The bits of a modifier, one for each block selected. *)
Definition bits_of (sel : list CBlockIndex) (k : Z) : bool := match sel !! Z.to_nat k with Some b => Z.odd (GetBlockHash b) | None => false end.
Lemma entropy_bit b r k : 0 <= r < 64 -> 0 <= k -> Z.testbit (u64 (Z.shiftl (GetStakeEntropyBit b) r)) k = (k =? r) && Z.odd (GetBlockHash b).
Proof.
  intros Hr Hk. unfold GetStakeEntropyBit. replace (Z.land (u64 (GetBlockHash b)) 1) with (Z.b2z (Z.odd (GetBlockHash b))).
  2:{ rewrite (Z.land_ones _ 1 ltac:(lia)). change (2 ^ 1) with 2. unfold u64. rewrite (Z.mod_mod_divide _ (2 ^ 64) 2) by (by exists (2 ^ 63)). rewrite Zmod_odd. by destruct (Z.odd _). }
  assert (Z.shiftl (Z.b2z (Z.odd (GetBlockHash b))) r = if Z.odd (GetBlockHash b) then 2 ^ r else 0) as ->.
  { rewrite Z.shiftl_mul_pow2 by lia. destruct (Z.odd (GetBlockHash b)); cbn [Z.b2z]; lia. }
  assert (2 ^ r < 2 ^ 64) by (apply Z.pow_lt_mono_r; lia). assert (0 < 2 ^ r) by (apply Z.pow_pos_nonneg; lia).
  rewrite u64_small by (destruct (Z.odd _); lia). destruct (Z.odd _); [|rewrite Z.bits_0; by rewrite andb_false_r]. rewrite Z.pow2_bits_eqb by lia. rewrite andb_true_r. apply Z.eqb_sym.
Qed.
Section rounds.
Context (h : heap) (mapBlockIndex : gmap Z ptr) (upgrade : Z) (Hix : indexed h mapBlockIndex) (mprev : Z) (v2 : bool).
Context (bs : list CBlockIndex) (Hin : Forall (in_heap h) bs) (Hsort : StronglySorted (fun a b => GetBlockTime a <= GetBlockTime b) bs) (Hnd : NoDup (map GetBlockHash bs)).
Context (Hv2 : forall a, head bs = Some a -> (nHeight a >=? upgrade) = v2).
Lemma some_left sel : (length sel < length bs)%nat -> exists c, c ∈ bs /\ GetBlockHash c ∉ taken_by sel.
Proof using Hnd.
  intros Hl. destruct (decide (Exists (fun c => GetBlockHash c ∉ taken_by sel) bs)) as [He|Hn].
  - apply Exists_exists in He as (c & Hc & Hct). exists c. split; [by apply list_elem_of_In|done].
  - exfalso. assert (map GetBlockHash bs ⊆+ map GetBlockHash sel) as Hsub.
    { apply NoDup_submseteq; [done|]. intros x (c & -> & Hc)%list_elem_of_fmap. destruct (decide (GetBlockHash c ∈ taken_by sel)) as [Ht|Ht]; [by apply elem_of_list_to_set in Ht|].
      exfalso. apply Hn, Exists_exists. exists c. split; [by apply list_elem_of_In|done]. }
    apply submseteq_length in Hsub. rewrite !length_map in Hsub. lia.
Qed.
Definition round_ok (start : Z) (sel : list CBlockIndex) : Prop := forall i b, sel !! i = Some b -> selected (taken_by (take i sel)) (stop_of start i) mprev v2 bs b.
Lemma rounds_spec start n sel m : (length sel + n <= length bs)%nat -> (length sel + n <= 64)%nat -> NoDup (map GetBlockHash sel) -> round_ok start sel ->
  (forall k, 0 <= k -> Z.testbit m k = bits_of sel k) -> 0 <= m ->
  exists more m', rounds_loop h mapBlockIndex upgrade n (Z.of_nat (length sel)) (map key bs) (taken_by sel)
      (match length sel with O => start | S r => stop_of start r end) mprev m = Some (Some m') /\
    length more = (length sel + n)%nat /\ NoDup (map GetBlockHash more) /\ round_ok start more /\ (forall k, 0 <= k -> Z.testbit m' k = bits_of more k) /\ 0 <= m'.
Proof using Hix Hin Hsort Hnd Hv2.
  revert sel m. induction n as [|n IH]; intros sel m Hl H64 Hs Hr Hm Hm0; cbn [rounds_loop].
  { exists sel, m. split_and!; first [done|lia]. }
  rewrite section_ok by lia. cbn [mbind option_bind]. set (stop := match length sel with O => start | S r => stop_of start r end).
  assert (stop + section_value (Z.of_nat (length sel)) = stop_of start (length sel)) as Hstop.
  { subst stop. destruct (length sel) as [|r]; [done|]. cbn [stop_of]. do 2 f_equal. lia. }
  rewrite Hstop. unfold SelectBlockFromCandidates.
  destruct (select_first h mapBlockIndex upgrade Hix (taken_by sel) (stop_of start (length sel)) mprev bs None v2 Hin Hsort (some_left sel ltac:(lia)) Hv2) as (b & p & -> & Hp & Hsel).
  cbn [mbind option_bind]. rewrite Hp. cbn [mbind option_bind].
  assert (taken_by (sel ++ [b]) = {[GetBlockHash b]} ∪ taken_by sel) as Htk.
  { unfold taken_by. rewrite map_app, list_to_set_app_L. cbn. rewrite (right_id_L ∅ (∪)). apply (comm_L _). }
  destruct (IH (sel ++ [b]) (Z.lor m (u64 (Z.shiftl (GetStakeEntropyBit b) (Z.of_nat (length sel)))))) as (more & m' & E & Hlen & Hrest).
  - rewrite length_app. cbn. lia.
  - rewrite length_app. cbn. lia.
  - rewrite map_app. apply list.NoDup_app. split; [done|]. split; [|apply NoDup_singleton]. intros x Hx [->|Hx']%elem_of_cons; [|by apply elem_of_nil in Hx']. apply Hsel. unfold taken_by. by apply elem_of_list_to_set.
  - intros i c [Hc|[Hi Hc]]%lookup_app_Some; [rewrite take_app_le by (apply lookup_lt_Some in Hc; lia); by apply Hr|].
    destruct (i - length sel)%nat as [|d] eqn:Ed; [|done]. assert (i = length sel) as -> by lia. injection Hc as <-. rewrite take_app_le by lia. by rewrite take_ge by lia.
  - intros k Hk. rewrite Z.lor_spec, Hm, entropy_bit by lia. unfold bits_of. destruct (Z.eqb_spec k (Z.of_nat (length sel))) as [->|Hne]; cbn [andb].
    + rewrite Nat2Z.id. rewrite lookup_ge_None_2 by lia. rewrite lookup_app_r, Nat.sub_diag by lia. done.
    + rewrite orb_false_r. destruct (Nat.lt_ge_cases (Z.to_nat k) (length sel)); [by rewrite lookup_app_l|]. rewrite !lookup_ge_None_2; [done|rewrite length_app; cbn; lia|lia].
  - apply Z.lor_nonneg. split; [done|]. apply u64_bound.
  - exists more, m'. rewrite length_app in E, Hlen. cbn [length] in E, Hlen. rewrite Htk in E. replace (Z.of_nat (length sel + 1)) with (Z.of_nat (length sel) + 1) in E by lia.
    rewrite Nat.add_1_r in E. split; [exact E|]. split; [lia|done].
Qed.
End rounds.

(** C18: the stake modifier of the next block.  While the interval of the last modifier has not
    passed it stays; else up to 64 distinct blocks of the run back from the tip are selected, one
    in each round: of those left within the interval of the round one with the least selection
    hash, or the earliest one left.  The modifier is the 64-bit word whose bits are the last
    bits of their hashes, in the order of selection; the selection never fails. *)
Theorem stake_modifier_correct (h : heap) (mapBlockIndex : gmap Z ptr) (upgrade literal : Z) (p : ptr) (b last : CBlockIndex)
    (Hwf : wf_heap h) (Hix : indexed h mapBlockIndex) (Hp : h !! p = Some b) (Hheight : nHeight b <> 0) (Hlast : nearest_modifier h p last) :
  let run := ComputeNextStakeModifier h mapBlockIndex upgrade literal (Some p) in
  if cdiv (GetBlockTime last) interval >=? cdiv (GetBlockTime b) interval then run = Some (Some (nStakeModifier last, false)) else
  exists bs sel v2 m, let start := cdiv (GetBlockTime b) interval * interval - selection_interval in
    run_of h start (Some p) bs /\ run = Some (Some (m, true)) /\ 0 <= m < 2 ^ 64 /\
    length sel = Nat.min 64 (length bs) /\ NoDup (map GetBlockHash sel) /\
    (forall i a, sel !! i = Some a -> selected (taken_by (take i sel)) (stop_of start i) (nStakeModifier last) v2 bs a) /\
    (forall k, 0 <= k -> Z.testbit m k = bits_of sel k) /\
    (bs <> [] -> exists first, first ∈ bs /\ (forall c, c ∈ bs -> GetBlockTime first <= GetBlockTime c) /\ v2 = (nHeight first >=? upgrade)).
Proof.
  cbv zeta. unfold ComputeNextStakeModifier. rewrite Hp. cbn [mbind option_bind]. replace (nHeight b =? 0) with false by lia. unfold GetLastStakeModifier. rewrite Hp. cbn [mbind option_bind].
  destruct (last_modifier_spec h Hwf (Z.to_nat (nHeight b)) p b last Hp Hlast) as [-> Hg]; [destruct (Hwf p b Hp); lia|]. cbn [mbind option_bind]. rewrite Hg.
  destruct (_ >=? _); [done|]. rewrite interval_value. cbn [mbind option_bind]. set (start := cdiv (GetBlockTime b) interval * interval - selection_interval).
  destruct (candidates_spec h Hwf (S (Z.to_nat (nHeight b))) start p b Hp) as (bs & -> & Hrun); [destruct (Hwf p b Hp); lia|]. cbn [mbind option_bind].
  destruct (run_heights h Hwf start (Some p) bs Hrun p b eq_refl Hp) as [Hf Hnd].
  assert (merge_sort candidate_le (rev (map key bs)) ≡ₚ map key bs) as Hpm by (rewrite merge_sort_Permutation; symmetry; apply Permutation_rev).
  apply Permutation_map_inv in Hpm as (bs' & Hbs' & Hperm).
  rewrite Hbs', length_map.
  assert (Forall (in_heap h) bs) as Hin by (eapply Forall_impl; [|exact Hf]; by intros c [? _]).
  assert (NoDup (map GetBlockHash bs)) as Hndh.
  { clear -Hin Hnd Hix. induction bs as [|a l IH]; cbn [map]; [constructor|]. apply Forall_cons_iff in Hin as [[q Hq] Hl]. apply list.NoDup_cons in Hnd as [Ha Hnd]. constructor; [|by apply IH].
    intros (c & Hc & Hcl)%list_elem_of_fmap. apply Ha. rewrite Forall_forall in Hl. destruct (Hl c (proj1 (list_elem_of_In _ _) Hcl)) as [r Hr]. pose proof (Hix q a Hq) as E1. pose proof (Hix r c Hr) as E2.
    rewrite Hc in E1. assert (q = r) as -> by congruence. by assert (a = c) as -> by congruence. }
  assert (StronglySorted (fun a b => GetBlockTime a <= GetBlockTime b) bs') as Hsort by (apply sorted_times; rewrite <- Hbs'; apply (StronglySorted_merge_sort candidate_le)).
  set (v2 := match bs' with a :: _ => nHeight a >=? upgrade | [] => false end).
  destruct (rounds_spec h mapBlockIndex upgrade Hix (nStakeModifier last) v2 bs') with (start := start) (n := Nat.min 64 (length bs')) (sel := @nil CBlockIndex) (m := 0) as (sel & m & E & Hlen & Hnds & Hok & Hbits & Hm0).
  - by rewrite <- Hperm.
  - done.
  - by rewrite <- Hperm.
  - subst v2. by destruct bs'; [|intros a [= <-]].
  - cbn [length]. lia.
  - cbn [length]. lia.
  - constructor.
  - by intros i a Ha.
  - intros k Hk. rewrite Z.bits_0. unfold bits_of. by rewrite lookup_nil.
  - done.
  - cbn [length Nat.add] in E, Hlen. change (taken_by []) with (∅ : gset Z) in E. change (Z.of_nat 0) with 0 in E. rewrite E. cbn [mbind option_bind].
    exists bs, sel, v2, m. assert (forall a, a ∈ bs' <-> a ∈ bs) as Hmem by (intros a; by rewrite Hperm). split; [exact Hrun|]. split; [done|]. split.
    { split; [done|]. apply Z.nle_gt. intros Hge. assert (0 < m) by lia. pose proof (Z.log2_le_pow2 m 64 ltac:(lia)) as Hl2. pose proof (Z.bit_log2 m ltac:(lia)) as Hb.
      rewrite Hbits in Hb by (apply Z.log2_nonneg). unfold bits_of in Hb. rewrite lookup_ge_None_2 in Hb; [done|]. lia. }
    split; [rewrite Hlen; by rewrite Hperm|]. split; [done|]. split; [|split; [done|]].
    + intros i a Ha. destruct (Hok i a Ha) as (H1 & H2 & H3). split; [by apply Hmem|]. split; [done|]. destruct H3 as [[H3 H4]|[H3 H4]]; [left|right]; (split; [done|]); intros c Hc; apply H4; by apply Hmem.
    + intros Hne. destruct bs' as [|f l]; [destruct bs; [done|]; apply Permutation_length in Hperm; done|]. exists f. split; [apply Hmem; by left|]. split; [|done].
      intros c Hc%Hmem. inversion_clear Hsort as [|? ? Hs' Hall]. apply elem_of_cons in Hc as [->|Hc]; [lia|]. rewrite Forall_forall in Hall. by apply Hall, list_elem_of_In.
Qed.

(** ** A concrete chain

    The first block, one with a modifier, one with a modifier 2090 seconds later, and the tip. *)

Definition stake_block (hash time flags modifier : Z) : CBlockIndex := mkBlockIndex hash None None 0 1 time 0x1e0fffff flags modifier.
Definition stake_link (h : heap) (p q : ptr) (b : CBlockIndex) : heap := match link_block h b q with Some b => <[p := b]> h | None => h end.
Definition stake_heap1 : heap := {[ 1 := stake_block 11 1000 0 0 ]}.
Definition stake_heap2 : heap := stake_link stake_heap1 2 1 (stake_block 12 1060 4 42).
Definition stake_heap3 : heap := stake_link stake_heap2 3 2 (stake_block 13 3150 5 77).
Definition stake_heap : heap := stake_link stake_heap3 4 3 (stake_block 14 9000 1 77).
Definition stake_get (p : ptr) : CBlockIndex := default (stake_block 0 0 0 0) (stake_heap !! p).
Definition stake_index : gmap Z ptr := {[ 11 := 1; 12 := 2; 13 := 3; 14 := 4 ]}.
Definition stake_chain : CChain := chain_of stake_heap 4 3.
Lemma stake_link_wf h p q b c : wf_heap h -> h !! p = None -> h !! q = Some c -> nHeight c + 1 < 2 ^ 31 - 1 -> wf_heap (stake_link h p q b).
Proof. intros Hwf Hp Hq Hc. unfold stake_link. by destruct (link_block_core h p q b c Hwf Hp Hq Hc) as (b' & -> & Hb'). Qed.
Lemma stake_heap_wf : wf_heap stake_heap.
Proof.
  assert (wf_heap stake_heap1) as H1 by (apply map_Forall_singleton; split; [cbn; lia|]; split; [done|]; cbn; lia).
  assert (wf_heap stake_heap2) as H2 by (eapply stake_link_wf; [exact H1|reflexivity|reflexivity|done]).
  assert (wf_heap stake_heap3) as H3 by (eapply stake_link_wf; [exact H2|reflexivity|reflexivity|done]).
  eapply stake_link_wf; [exact H3|reflexivity|reflexivity|done].
Qed.
Lemma stake_indexed : indexed stake_heap stake_index.
Proof.
  assert (map_Forall (fun p b => stake_index !! GetBlockHash b = Some p) stake_heap) as H; [|exact H].
  apply map_Forall_to_list. vm_compute. repeat constructor.
Qed.
Lemma stake_chain_ok : chain_ok stake_heap stake_chain.
Proof. right. exists 4, (stake_get 4). split; reflexivity. Qed.
Lemma kernel_modifier_correct_witness : stake_heap !! 2 = Some (stake_get 2) /\ GetKernelStakeModifier stake_heap stake_index stake_chain 12 = Some (Some (77, 2, 3150)) /\
  GetKernelStakeModifier stake_heap stake_index stake_chain 14 = None.
Proof.
  split; [reflexivity|]. split.
  - destruct (kernel_modifier_correct stake_heap stake_index stake_chain 12 2 (stake_get 2) stake_heap_wf stake_chain_ok eq_refl eq_refl) as [_ Hin].
    destruct (Hin eq_refl) as (_ & Hfirst & _). rewrite (Hfirst 2 (stake_get 3)); [reflexivity|]. split; [by vm_compute|]. split; [reflexivity|]. split; [reflexivity|]. split; [by vm_compute|].
    intros i a Hi. change (nHeight (stake_get 2)) with 1 in Hi. lia.
  - destruct (kernel_modifier_correct stake_heap stake_index stake_chain 14 4 (stake_get 4) stake_heap_wf stake_chain_ok eq_refl eq_refl) as [_ Hin]. by apply Hin.
Defined.
Lemma stake_modifier_correct_witness : nearest_modifier stake_heap 4 (stake_get 3) /\
  exists m, ComputeNextStakeModifier stake_heap stake_index 615800 0 (Some 4) = Some (Some (m, true)) /\ 0 <= m < 2 ^ 64.
Proof.
  assert (Hn : nearest_modifier stake_heap 4 (stake_get 3)). { apply (near_back _ 4 (stake_get 4) 3); [reflexivity|reflexivity|reflexivity|]. apply near_here; reflexivity. }
  split; [exact Hn|].
  pose proof (stake_modifier_correct stake_heap stake_index 615800 0 4 (stake_get 4) (stake_get 3) stake_heap_wf stake_indexed eq_refl ltac:(by vm_compute) Hn) as Hs. cbv zeta in Hs.
  change (cdiv (GetBlockTime (stake_get 3)) interval >=? cdiv (GetBlockTime (stake_get 4)) interval) with false in Hs. cbn iota in Hs. destruct Hs as (bs & sel & v2 & m & _ & E & Hm & _).
  exists m. split; [exact E|exact Hm].
Defined.
(** A coin of one unit at an easy target. *)
Definition stake_coin : CMutableTransaction := mkTx 1 [] [mkTxOut COIN [81] (-10)] [] 0.
Lemma kernel_search_correct_witness : exists t' hp', CheckStakeKernelHash stake_heap stake_index stake_chain (fun _ => false) 0x207fffff 1060 12 stake_coin (mkOutPoint (leaf 3) 0) 9000 60 false 0 = Some (true, t', hp') /\
  9000 < t' <= 9060 /\ CheckStakeKernelHash stake_heap stake_index stake_chain (fun _ => false) 0x207fffff 1060 12 stake_coin (mkOutPoint (leaf 3) 0) t' 0 true 0 = Some (true, t', hp').
Proof.
  assert (Hok : (fst ∘ fst <$> CheckStakeKernelHash stake_heap stake_index stake_chain (fun _ => false) 0x207fffff 1060 12 stake_coin (mkOutPoint (leaf 3) 0) 9000 60 false 0) = Some true) by (vm_compute; reflexivity).
  destruct (CheckStakeKernelHash stake_heap stake_index stake_chain (fun _ => false) 0x207fffff 1060 12 stake_coin (mkOutPoint (leaf 3) 0) 9000 60 false 0) as [[[ok t'] hp']|] eqn:E; [|discriminate].
  injection Hok as ->. exists t', hp'. split; [reflexivity|].
  destruct (kernel_search_correct stake_heap stake_index stake_chain (fun _ => false) 0x207fffff 1060 12 stake_coin (mkOutPoint (leaf 3) 0) 9000 60 0 true t' hp') as [Hyes _]; [lia|lia|lia|exact E|].
  destruct (Hyes eq_refl) as (Hr & Hc & _). split; [exact Hr|apply Hc].
Defined.
