(* ===== verification/BlockFiles.v ===== *)
(** The files of blocks and of undo data ([src/src/main.cpp]: [FindBlockPos], [FindUndoPos],
    [FlushBlockFile], [WriteBlockToDisk], [ReadBlockFromDisk], [CBlockUndo]; [src/src/main.h]:
    [CBlockFileInfo]; [src/src/chain.h]: [CDiskBlockPos]; [AllocateFileRange] and [TruncateFile]
    of [src/src/util.cpp]), byte by byte.  What the operating system answers is a record of
    its own for every operation. *)
From S2P Require Import Prelude Serialize Uint256 Stream Sha2 Hashers Script Merkle Transaction Compressor Coins TxChecks Pow Block BlockChecks.

(** ** Positions and what is known of a file *)

Record CDiskBlockPos := mkPos { nFile : Z; nPos : Z }.
Definition CDiskBlockPos_null : CDiskBlockPos := mkPos (-1) 0.
Definition pos_IsNull (p : CDiskBlockPos) : bool := nFile p =? -1.

Record CBlockFileInfo := mkInfo {
  nBlocks : Z;
  nSize : Z;
  nUndoSize : Z;
  nHeightFirst : Z;
  nHeightLast : Z;
  nTimeFirst : Z;
  nTimeLast : Z
}.
Definition CBlockFileInfo_new : CBlockFileInfo := mkInfo 0 0 0 0 0 0 0.
Definition AddBlock (nHeightIn nTimeIn : Z) (i : CBlockFileInfo) : CBlockFileInfo :=
  mkInfo (u32 (nBlocks i + 1)) (nSize i) (nUndoSize i)
    (if (nBlocks i =? 0) || (nHeightFirst i >? nHeightIn) then nHeightIn else nHeightFirst i)
    (if nHeightIn >? nHeightLast i then nHeightIn else nHeightLast i)
    (if (nBlocks i =? 0) || (nTimeFirst i >? nTimeIn) then nTimeIn else nTimeFirst i)
    (if nTimeIn >? nTimeLast i then nTimeIn else nTimeLast i).
Definition set_size (n : Z) (i : CBlockFileInfo) : CBlockFileInfo :=
  mkInfo (nBlocks i) n (nUndoSize i) (nHeightFirst i) (nHeightLast i) (nTimeFirst i) (nTimeLast i).
Definition set_undo_size (n : Z) (i : CBlockFileInfo) : CBlockFileInfo :=
  mkInfo (nBlocks i) (nSize i) n (nHeightFirst i) (nHeightLast i) (nTimeFirst i) (nTimeLast i).
Definition Serialize_info (i : CBlockFileInfo) : list Z :=
  WriteVarInt 32 (nBlocks i) ++ WriteVarInt 32 (nSize i) ++ WriteVarInt 32 (nUndoSize i) ++ WriteVarInt 32 (nHeightFirst i) ++
  WriteVarInt 32 (nHeightLast i) ++ WriteVarInt 64 (nTimeFirst i) ++ WriteVarInt 64 (nTimeLast i).
Definition Unserialize_info : reader CBlockFileInfo :=
  blocks ← ReadVarInt 32; size ← ReadVarInt 32; undo ← ReadVarInt 32; hf ← ReadVarInt 32; hl ← ReadVarInt 32; tf ← ReadVarInt 64; tl ← ReadVarInt 64;
  mret (mkInfo blocks size undo hf hl tf tl).

Definition MAX_BLOCKFILE_SIZE : Z := 0x8000000.
Definition BLOCKFILE_CHUNK_SIZE : Z := 0x1000000.
Definition UNDOFILE_CHUNK_SIZE : Z := 0x100000.
Definition nMinDiskSpace : Z := 52428800.
(** 1.4.1.2; the number only matters for the flag of the witnesses, which it does not have. *)
Definition CLIENT_VERSION : Z := 1000000 * 1 + 10000 * 4 + 100 * 1 + 1 * 2.

(** ** Files *)

(** A file is a list of bytes, named by its prefix and its number. *)
Abbreviation filesystem := (gmap (string * Z) (list Z)).
(** What the operating system answers: the free space; whether a file can be opened; whether
    space can be reserved and [ftell] works; how many bytes are accepted by the writes to one
    file, and how many of those reach the disk (the result of [fclose] is not looked at). *)
Record OS := mkOS { available : Z; opens : string -> Z -> bool; fallocates : bool; ftells : bool; accepts : nat; stores : nat }.

(** [ftruncate]: a shorter file is extended with zeros. *)
Definition extended (n : Z) (f : list Z) : list Z := f ++ replicate (Z.to_nat n - length f) 0.
Definition TruncateFile (f : list Z) (n : Z) : list Z := take (Z.to_nat n) (extended n f).
(** [posix_fallocate] never shortens a file. *)
Definition AllocateFileRange (os : OS) (f : list Z) (offset n : Z) : list Z := if fallocates os then extended (offset + n) f else f.
(** Writing at a position, which may lie behind the end. *)
Definition file_write (f : list Z) (pos : Z) (data : list Z) : list Z :=
  take (Z.to_nat pos) (extended pos f) ++ data ++ drop (Z.to_nat pos + length data) f.

Definition CheckDiskSpace (os : OS) (nAdditionalBytes : Z) : bool := negb (available os <? u64 (nMinDiskSpace + nAdditionalBytes)).
(** The file and the file system after opening; [None] is NULL. *)
Definition OpenDiskFile (os : OS) (fs : filesystem) (pos : CDiskBlockPos) (prefix : string) (fReadOnly : bool) : option (list Z * filesystem) :=
  if pos_IsNull pos then None else
  if negb (opens os prefix (nFile pos)) then None else
  match fs !! (prefix, nFile pos) with
  | Some f => Some (f, fs)
  | None => if fReadOnly then None else Some ([], <[(prefix, nFile pos) := []]> fs)
  end.
Definition OpenBlockFile (os : OS) (fs : filesystem) (pos : CDiskBlockPos) (fReadOnly : bool) : option (list Z * filesystem) := OpenDiskFile os fs pos "blk" fReadOnly.
Definition OpenUndoFile (os : OS) (fs : filesystem) (pos : CDiskBlockPos) (fReadOnly : bool) : option (list Z * filesystem) := OpenDiskFile os fs pos "rev" fReadOnly.
(** All writes through one [CAutoFile]: the file system, and whether none of them throws. *)
Definition autofile_write (os : OS) (fs : filesystem) (prefix : string) (pos : CDiskBlockPos) (f data : list Z) : filesystem * bool :=
  (<[(prefix, nFile pos) := file_write f (nPos pos) (take (Nat.min (accepts os) (stores os)) data)]> fs, (length data <=? accepts os)%nat).

(** ** Space for a block *)

Record block_files := mkFiles {
  vinfoBlockFile : list CBlockFileInfo;
  nLastBlockFile : Z;
  setDirtyFileInfo : gset Z;
  fs : filesystem
}.
Definition block_files_new : block_files := mkFiles [] 0 ∅ ∅.
Definition set_info (s : block_files) (v : list CBlockFileInfo) : block_files := mkFiles v (nLastBlockFile s) (setDirtyFileInfo s) (fs s).
Definition set_last (s : block_files) (n : Z) : block_files := mkFiles (vinfoBlockFile s) n (setDirtyFileInfo s) (fs s).
Definition set_dirty (s : block_files) (n : Z) : block_files := mkFiles (vinfoBlockFile s) (nLastBlockFile s) ({[n]} ∪ setDirtyFileInfo s) (fs s).
Definition set_fs (s : block_files) (f : filesystem) : block_files := mkFiles (vinfoBlockFile s) (nLastBlockFile s) (setDirtyFileInfo s) f.

(** Truncates one of the two files, if it can be opened. *)
Definition truncate_file (os : OS) (s : block_files) (prefix : string) (fFinalize : bool) (n : option Z) : option block_files :=
  match OpenDiskFile os (fs s) (mkPos (nLastBlockFile s) 0) prefix false with
  | None => Some s
  | Some (f, g) => if fFinalize then n ← n; Some (set_fs s (<[(prefix, nLastBlockFile s) := TruncateFile f n]> g)) else Some (set_fs s g)
  end.
Definition FlushBlockFile (os : OS) (s : block_files) (fFinalize : bool) : option block_files :=
  let info := vinfoBlockFile s !! Z.to_nat (nLastBlockFile s) in
  s ← truncate_file os s "blk" fFinalize (nSize <$> info);
  truncate_file os s "rev" fFinalize (nUndoSize <$> info).

Definition resize (n : nat) (v : list CBlockFileInfo) : list CBlockFileInfo := take n v ++ replicate (n - length v) CBlockFileInfo_new.
Definition ensure_info (s : block_files) (n : Z) : block_files :=
  if Z.of_nat (length (vinfoBlockFile s)) <=? n then set_info s (resize (Z.to_nat (u32 (n + 1))) (vinfoBlockFile s)) else s.
Fixpoint find_file (fuel : nat) (os : OS) (s : block_files) (nAddSize n : Z) : option (block_files * Z) :=
  info ← vinfoBlockFile s !! Z.to_nat n;
  if u32 (nSize info + nAddSize) >=? MAX_BLOCKFILE_SIZE then
    match fuel with
    | O => None
    | S fuel => s ← FlushBlockFile os s true; let n := u32 (n + 1) in find_file fuel os (ensure_info s n) nAddSize n
    end
  else Some (s, n).
(** Space is reserved when the new size needs another chunk; the result is [false] when the disk
    is full. *)
Definition preallocate (os : OS) (s : block_files) (prefix : string) (pos : CDiskBlockPos) (nNewSize CHUNK : Z) : block_files * bool :=
  let nOldChunks := u32 (nPos pos + CHUNK - 1) / CHUNK in
  let nNewChunks := u32 (nNewSize + CHUNK - 1) / CHUNK in
  if nNewChunks >? nOldChunks then
    let bytes := u32 (nNewChunks * CHUNK - nPos pos) in
    if CheckDiskSpace os bytes then
      (match OpenDiskFile os (fs s) pos prefix false with
       | Some (f, g) => set_fs s (<[(prefix, nFile pos) := AllocateFileRange os f (nPos pos) bytes]> g)
       | None => s
       end, true)
    else (s, false)
  else (s, true).
Definition out_of_space (state : CValidationState) : bool * CValidationState := Error "out of disk space" state.
(** The position, and what the function returns with the state of the validation. *)
Definition FindBlockPos (os : OS) (s : block_files) (state : CValidationState) (pos : CDiskBlockPos) (nAddSize nHeight nTime : Z) (fKnown : bool) :
    option (block_files * CDiskBlockPos * (bool * CValidationState)) :=
  let n := if fKnown then u32 (nFile pos) else u32 (nLastBlockFile s) in
  let s := ensure_info s n in
  '(s, pos, n) ← (if fKnown then Some (s, pos, n) else
    '(s, n) ← find_file (S (length (vinfoBlockFile s))) os s nAddSize n;
    info ← vinfoBlockFile s !! Z.to_nat n; Some (s, mkPos (i32 n) (nSize info), n));
  let s := set_last s (i32 n) in
  info ← vinfoBlockFile s !! Z.to_nat n;
  let info := AddBlock nHeight nTime info in
  let info := set_size (if fKnown then Z.max (u32 (nPos pos + nAddSize)) (nSize info) else u32 (nSize info + nAddSize)) info in
  let s := set_info s (<[Z.to_nat n := info]> (vinfoBlockFile s)) in
  let '(s, ok) := if fKnown then (s, true) else preallocate os s "blk" pos (nSize info) BLOCKFILE_CHUNK_SIZE in
  Some (if ok : bool then (set_dirty s n, pos, (true, state)) else (s, pos, out_of_space state)).
Definition FindUndoPos (os : OS) (s : block_files) (state : CValidationState) (n nAddSize : Z) : option (block_files * CDiskBlockPos * (bool * CValidationState)) :=
  info ← vinfoBlockFile s !! Z.to_nat n;
  let pos := mkPos n (nUndoSize info) in
  let nNewSize := u32 (nUndoSize info + nAddSize) in
  let s := set_dirty (set_info s (<[Z.to_nat n := set_undo_size nNewSize info]> (vinfoBlockFile s))) n in
  let '(s, ok) := preallocate os s "rev" pos nNewSize UNDOFILE_CHUNK_SIZE in
  Some (s, pos, if ok : bool then (true, state) else out_of_space state).

(** ** Blocks *)

(** [true] with a result, [false], or an exception. *)
Inductive io (A : Type) := Done (a : A) | Fails | Throws.
Arguments Done {A} _.
Arguments Fails {A}.
Arguments Throws {A}.

Section disk.
Context (HashQuark : list Z -> hash256) (powParams : Pow.CChainParams) (MessageStart : list Z).

(** The serializer may pad the witnesses of the block. *)
Definition WriteBlockToDisk (os : OS) (s : block_files) (b : CBlock) (pos : CDiskBlockPos) : option (block_files * io (CDiskBlockPos * CBlock)) :=
  match OpenBlockFile os (fs s) pos false with
  | None => Some (s, Fails)
  | Some (f, g) =>
      '(bytes, b) ← Serialize_Block (fAllowWitness CLIENT_VERSION) b;
      let head := MessageStart ++ write_int 4 (u32 (Z.of_nat (length bytes))) in
      let fits := (length head <=? accepts os)%nat in
      if fits && negb (ftells os) then Some (set_fs s (fst (autofile_write os g "blk" pos f head)), Fails)
      else let '(g, ok) := autofile_write os g "blk" pos f (head ++ bytes) in
        Some (set_fs s g, if ok : bool then Done (mkPos (nFile pos) (u32 (nPos pos + Z.of_nat (length head))), b) else Throws)
  end.
(** [None] is [false]. *)
Definition ReadBlockFromDisk (os : OS) (s : block_files) (pos : CDiskBlockPos) : option CBlock :=
  match OpenBlockFile os (fs s) pos true with
  | None => None
  | Some (f, _) =>
      match Unserialize_Block (fAllowWitness CLIENT_VERSION) (drop (Z.to_nat (nPos pos)) f) with
      | inl _ => None
      | inr (b, _) => if IsProofOfWork b && negb (CheckProofOfWork powParams (limbs_of (GetHash_Header HashQuark b)) (hBits b)) then None else Some b
      end
  end.
(** With the hash that the index has. *)
Definition ReadBlockFromDisk_index (os : OS) (s : block_files) (pos : CDiskBlockPos) (hash : Z) : option CBlock :=
  match ReadBlockFromDisk os s pos with Some b => if uint256_of (GetHash_Header HashQuark b) =? hash then Some b else None | None => None end.

(** ** Undo data *)

Section undo.
Context `{PubKeyOps}.
Definition Serialize_list {A} (enc : A -> option (list Z)) (l : list A) : option (list Z) := bs ← mapM enc l; Some (WriteCompactSize (Z.of_nat (length l)) ++ concat bs).
Definition Serialize_CBlockUndo (u : list (list CTxInUndo)) : option (list Z) := Serialize_list (Serialize_list Serialize_undo) u.
#[local] Instance undo_codec : Codec CTxInUndo := {| Serialize := fun u => default [] (Serialize_undo u); Unserialize := Unserialize_undo; GetSerializeSize := fun u => Z.of_nat (length (default [] (Serialize_undo u))) |}.
Definition Unserialize_CBlockUndo : reader (list (list CTxInUndo)) := (Unserialize : reader (list (list CTxInUndo))).
Definition checksum (hashBlock : hash256) (bytes : list Z) : hash256 := Hash [hashBlock ++ bytes].
Definition Undo_WriteToDisk (os : OS) (s : block_files) (u : list (list CTxInUndo)) (pos : CDiskBlockPos) (hashBlock : hash256) : option (block_files * io CDiskBlockPos) :=
  match OpenUndoFile os (fs s) pos false with
  | None => Some (s, Fails)
  | Some (f, g) =>
      bytes ← Serialize_CBlockUndo u;
      let head := MessageStart ++ write_int 4 (u32 (Z.of_nat (length bytes))) in
      let fits := (length head <=? accepts os)%nat in
      if fits && negb (ftells os) then Some (set_fs s (fst (autofile_write os g "rev" pos f head)), Fails)
      else let '(g, ok) := autofile_write os g "rev" pos f (head ++ bytes ++ checksum hashBlock bytes) in
        Some (set_fs s g, if ok : bool then Done (mkPos (nFile pos) (u32 (nPos pos + Z.of_nat (length head)))) else Throws)
  end.
(** The inner [None] is [false]; what was read is serialized again for the checksum. *)
Definition Undo_ReadFromDisk (os : OS) (s : block_files) (pos : CDiskBlockPos) (hashBlock : hash256) : option (option (list (list CTxInUndo))) :=
  match OpenUndoFile os (fs s) pos true with
  | None => Some None
  | Some (f, _) =>
      match (u ← Unserialize_CBlockUndo; c ← read_bytes 32; mret (u, c)) (drop (Z.to_nat (nPos pos)) f) with
      | inl _ => Some None
      | inr ((u, c), _) => bytes ← Serialize_CBlockUndo u; Some (if hash_eqb c (checksum hashBlock bytes) then Some u else None)
      end
  end.

(** ** As the callers put them together *)

(** The end of [AcceptBlock]: space for the block, and the block itself unless it is in the file
    already ([dbp]).  The result: the position and the block, what the function returns when it
    is not [Done], or an exception. *)
Definition save_block (os : OS) (s : block_files) (state : CValidationState) (b : CBlock) (nHeight : Z) (dbp : option CDiskBlockPos) :
    option (block_files * CValidationState * io (CDiskBlockPos * CBlock)) :=
  '(s, pos, (ok, state)) ← FindBlockPos os s state (default CDiskBlockPos_null dbp) (u32 (u32 (GetBlockSize CLIENT_VERSION b) + 8)) (u32 nHeight) (GetBlockTime b) (bool_decide (is_Some dbp));
  if negb ok then Some (s, state, Fails) else
  match dbp with
  | Some pos => Some (s, state, Done (pos, b))
  | None => '(s, r) ← WriteBlockToDisk os s b pos; Some (s, match r with Fails => snd (Error "Failed to write block" state) | _ => state end, r)
  end.
(** The end of [ConnectBlock]: the undo data of a block in file [n]. *)
Definition save_undo (os : OS) (s : block_files) (state : CValidationState) (n : Z) (u : list (list CTxInUndo)) (hashPrev : hash256) :
    option (block_files * CValidationState * io CDiskBlockPos) :=
  bytes ← Serialize_CBlockUndo u;
  '(s, pos, (ok, state)) ← FindUndoPos os s state n (u32 (u32 (Z.of_nat (length bytes)) + 40));
  if negb ok then Some (s, state, Fails) else
  '(s, r) ← Undo_WriteToDisk os s u pos hashPrev; Some (s, match r with Fails => snd (Error "Failed to write undo data" state) | _ => state end, r).
End undo.
End disk.
