(* ===== verification/BlockStore.v ===== *)
(** What the files of blocks keep: under every history of operations, failed ones included,
    everything that was written is read back. *)
From S2P Require Import Prelude Serialize Uint256 Stream Sha2 Hashers Script Merkle Transaction Compressor Coins TxChecks Pow Block BlockChecks BlockFiles.
Set Default Proof Using "Type".

(** ** Bytes of a file *)

(** [data] lies at [start]. *)
Definition lies (f : list Z) (start : Z) (data : list Z) : Prop := data `prefix_of` drop (Z.to_nat start) f.
Lemma lies_app f g start data : lies f start data -> lies (f ++ g) start data.
Proof.
  intros [k Hk]. unfold lies. destruct (Nat.le_gt_cases (Z.to_nat start) (length f)) as [Hl|Hl].
  - rewrite drop_app_le by done. rewrite Hk, <- app_assoc. by apply prefix_app_r.
  - rewrite drop_ge in Hk by lia. destruct data; [apply prefix_nil | done].
Qed.
Lemma lies_take f n start data : lies f start data -> (Z.to_nat start + length data <= n)%nat -> lies (take n f) start data.
Proof.
  intros [k Hk] Hn. unfold lies. replace n with (Z.to_nat start + (n - Z.to_nat start))%nat by lia. rewrite <- take_drop_commute, Hk, take_app_ge by lia. by apply prefix_app_r.
Qed.
Lemma lies_extended f n start data : lies f start data -> lies (extended n f) start data.
Proof. apply lies_app. Qed.
Lemma lies_truncated f n start data : 0 <= start -> lies f start data -> start + Z.of_nat (length data) <= n -> lies (TruncateFile f n) start data.
Proof. intros H0 H Hn. apply lies_take; [by apply lies_extended | lia]. Qed.
Lemma extended_length n f : (Z.to_nat n <= length (extended n f))%nat.
Proof. unfold extended. rewrite length_app, length_replicate. lia. Qed.
Lemma lies_before f pos new start data : 0 <= start -> lies f start data -> start + Z.of_nat (length data) <= pos -> lies (file_write f pos new) start data.
Proof. intros H0 H Hn. unfold file_write. apply lies_app, lies_take; [by apply lies_extended | lia]. Qed.
Lemma lies_written f pos new : lies (file_write f pos new) pos new.
Proof.
  unfold lies, file_write. rewrite drop_app_ge by (rewrite length_take; pose proof (extended_length pos f); lia).
  rewrite length_take, (Nat.min_l _ _ (extended_length pos f)), Nat.sub_diag. cbn [drop]. by apply prefix_app_r.
Qed.
Lemma lies_more f start a b : 0 <= start -> lies f start (a ++ b) -> lies f (start + Z.of_nat (length a)) b.
Proof.
  intros H0 [k Hk]. exists k. rewrite Z2Nat.inj_add, Nat2Z.id, <- drop_drop, Hk, <- app_assoc, drop_app_length by lia. done.
Qed.
Lemma lies_prefix f start a b : lies f start (a ++ b) -> lies f start a.
Proof. intros [k Hk]. exists (b ++ k). by rewrite Hk, app_assoc. Qed.

(** ** Regions of the files *)

(** Data that lies in a file, within the part of it that is in use. *)
Record region := mkRegion { r_prefix : string; r_file : Z; r_start : Z; r_data : list Z }.
Definition r_end (r : region) : Z := r_start r + Z.of_nat (length (r_data r)).
Definition limit (prefix : string) (i : CBlockFileInfo) : Z := if String.eqb prefix "blk" then nSize i else nUndoSize i.
Definition on_disk (g : filesystem) (r : region) : Prop := exists f, g !! (r_prefix r, r_file r) = Some f /\ lies f (r_start r) (r_data r).
Definition in_use (v : list CBlockFileInfo) (prefix : string) (n e : Z) : Prop := exists i, v !! Z.to_nat n = Some i /\ e <= limit prefix i.
Definition region_ok (r : region) : Prop := (r_prefix r = "blk" \/ r_prefix r = "rev") /\ 0 <= r_file r /\ 0 <= r_start r.
Definition kept (s : block_files) (r : region) : Prop := region_ok r /\ on_disk (fs s) r /\ in_use (vinfoBlockFile s) (r_prefix r) (r_file r) (r_end r).
Definition keeps (s s' : block_files) : Prop := forall r, kept s r -> kept s' r.
#[export] Instance keeps_preorder : PreOrder keeps.
Proof. split; [by intros s r | intros s1 s2 s3 H1 H2 r Hr; auto]. Qed.

Definition info_ok (i : CBlockFileInfo) : Prop := 0 <= nSize i < 2 ^ 31 /\ 0 <= nUndoSize i < 2 ^ 32.
Definition files_ok (s : block_files) : Prop :=
  (0 <= nLastBlockFile s < Z.of_nat (length (vinfoBlockFile s)) \/ vinfoBlockFile s = [] /\ nLastBlockFile s = 0) /\
  Z.of_nat (length (vinfoBlockFile s)) < 2 ^ 31 /\ Forall info_ok (vinfoBlockFile s).

(** What is known of each file only grows. *)
Definition grows (v v' : list CBlockFileInfo) : Prop := forall k i, v !! k = Some i -> exists i', v' !! k = Some i' /\ nSize i <= nSize i' /\ nUndoSize i <= nUndoSize i'.
#[export] Instance grows_preorder : PreOrder grows.
Proof.
  split; [intros v k i H; exists i; auto with lia|]. intros v1 v2 v3 H1 H2 k i H. destruct (H1 k i H) as (i2 & Hi2 & ? & ?). destruct (H2 k i2 Hi2) as (i3 & ? & ? & ?). exists i3. split; [done|lia].
Qed.
Lemma in_use_grows v v' prefix n e : grows v v' -> in_use v prefix n e -> in_use v' prefix n e.
Proof. intros Hg (i & Hi & He). destruct (Hg _ _ Hi) as (i' & Hi' & ? & ?). exists i'. split; [done|]. unfold limit in *. destruct (String.eqb _ _); lia. Qed.
Lemma keeps_grows s v : grows (vinfoBlockFile s) v -> keeps s (set_info s v).
Proof. intros Hg r (Hr & Hd & Hu). split; [done|]. split; [done|]. by eapply in_use_grows. Qed.
Lemma grows_insert v n i i' : v !! n = Some i -> nSize i <= nSize i' -> nUndoSize i <= nUndoSize i' -> grows v (<[n := i']> v).
Proof.
  intros Hn H1 H2 k j Hk. destruct (decide (n = k)) as [<-|Hne].
  - rewrite Hn in Hk. injection Hk as <-. exists i'. rewrite list_lookup_insert_eq by (by eapply lookup_lt_Some). done.
  - exists j. rewrite list_lookup_insert_ne by done. auto with lia.
Qed.

(** One file replaced, all regions in it that are in use kept. *)
Lemma keeps_file s g prefix n f' : (forall k, k <> (prefix, n) -> g !! k = fs s !! k) ->
  (forall r f, kept s r -> r_prefix r = prefix -> r_file r = n -> fs s !! (prefix, n) = Some f -> lies f (r_start r) (r_data r) -> lies f' (r_start r) (r_data r)) ->
  keeps s (set_fs s (<[(prefix, n) := f']> g)).
Proof.
  intros Hg Hf r Hr. pose proof Hr as (Hok & (f & Hd & Hl) & Hu). split; [done|]. split; [|done]. unfold on_disk. cbn [set_fs fs].
  destruct (decide ((prefix, n) = (r_prefix r, r_file r))) as [E|Hne].
  - rewrite <- E, lookup_insert_eq. exists f'. split; [done|]. injection E as -> ->. by eapply Hf.
  - rewrite lookup_insert_ne, Hg by congruence. by exists f.
Qed.
Lemma OpenDiskFile_spec os g pos prefix f g' : OpenDiskFile os g pos prefix false = Some (f, g') ->
  (forall k, k <> (prefix, nFile pos) -> g' !! k = g !! k) /\ (forall f', g !! (prefix, nFile pos) = Some f' -> f' = f /\ g' = g).
Proof.
  unfold OpenDiskFile. destruct (pos_IsNull pos); [done|]. destruct (negb _); [done|]. destruct (g !! (prefix, nFile pos)) as [f0|] eqn:E; intros [= <- <-].
  - split; [done|]. by intros f' [= <-].
  - split; [|done]. intros k Hk. by rewrite lookup_insert_ne by congruence.
Qed.

(** ** The operations keep what is stored *)

Lemma truncate_file_spec os s prefix fFinalize n : (prefix = "blk" \/ prefix = "rev") -> (fFinalize = true -> is_Some n) ->
  (forall k, n = Some k -> exists i, vinfoBlockFile s !! Z.to_nat (nLastBlockFile s) = Some i /\ k = limit prefix i) ->
  exists g, truncate_file os s prefix fFinalize n = Some (set_fs s g) /\ keeps s (set_fs s g).
Proof.
  intros Hp Hn Hk. unfold truncate_file. destruct (OpenDiskFile _ _ _ _ _) as [[f g]|] eqn:E; [|exists (fs s); split; [by destruct s | by intros r]].
  apply OpenDiskFile_spec in E as [Hg Hf]. cbn [nFile] in *. destruct fFinalize.
  - destruct Hn as [k ->]; [done|]. cbn [mbind option_bind]. eexists. split; [reflexivity|]. apply keeps_file; [done|].
    intros r f' Hr E1 E2 Hf' Hl. destruct (Hf f' Hf') as [-> _]. destruct Hr as ((_ & _ & Hs) & _ & (i & Hi & He)). destruct (Hk k eq_refl) as (i' & Hi' & ->).
    apply lies_truncated; [done..|]. rewrite E2, Hi' in Hi. injection Hi as ->. rewrite E1 in He. exact He.
  - exists g. split; [done|]. intros r (Hr & (f' & Hd & Hl) & Hu). split; [done|]. split; [|done]. exists f'. split; [|done]. cbn [set_fs fs].
    destruct (decide ((r_prefix r, r_file r) = (prefix, nLastBlockFile s))) as [E|Hne]; [|by rewrite Hg]. rewrite E in *. by destruct (Hf f' Hd) as [_ ->].
Qed.
Lemma FlushBlockFile_spec os s fFinalize : (fFinalize = true -> nLastBlockFile s < Z.of_nat (length (vinfoBlockFile s))) -> 0 <= nLastBlockFile s ->
  exists g, FlushBlockFile os s fFinalize = Some (set_fs s g) /\ keeps s (set_fs s g).
Proof.
  intros Hlast H0. unfold FlushBlockFile. set (info := vinfoBlockFile s !! _).
  assert (fFinalize = true -> is_Some info) as Hinfo by (intros Ht; apply lookup_lt_is_Some; specialize (Hlast Ht); lia).
  destruct (truncate_file_spec os s "blk" fFinalize (nSize <$> info)) as (g1 & -> & H1); [by left|..].
  { intros Ht. destruct (Hinfo Ht) as [i ->]. done. }
  { intros k Hk. destruct info as [i|] eqn:Ei; [|done]. injection Hk as <-. by exists i. }
  cbn [mbind option_bind]. destruct (truncate_file_spec os (set_fs s g1) "rev" fFinalize (nUndoSize <$> info)) as (g2 & -> & H2); [by right|..].
  { intros Ht. destruct (Hinfo Ht) as [i ->]. done. }
  { intros k Hk. destruct info as [i|] eqn:Ei; [|done]. injection Hk as <-. by exists i. }
  exists g2. split; [done|]. by transitivity (set_fs s g1).
Qed.

Lemma resize_grows v n : (length v <= n)%nat -> length (resize n v) = n /\ grows v (resize n v) /\ resize n v = v ++ replicate (n - length v) CBlockFileInfo_new.
Proof.
  intros Hn. unfold resize. rewrite take_ge by done. split; [rewrite length_app, length_replicate; lia|]. split; [|done].
  intros k i Hk. exists i. split; [by apply lookup_app_l_Some | lia].
Qed.
Lemma info_new_ok : info_ok CBlockFileInfo_new.
Proof. split; done. Qed.
Lemma ensure_info_spec s n : 0 <= n < 2 ^ 31 -> Forall info_ok (vinfoBlockFile s) -> exists v, ensure_info s n = set_info s v /\ grows (vinfoBlockFile s) v /\ n < Z.of_nat (length v) /\
  Z.of_nat (length v) = Z.max (n + 1) (Z.of_nat (length (vinfoBlockFile s))) /\ Forall info_ok v /\
  (length (vinfoBlockFile s) <= Z.to_nat n -> v !! Z.to_nat n = Some CBlockFileInfo_new)%nat.
Proof.
  intros Hn Hok. unfold ensure_info. destruct (Z.leb_spec (Z.of_nat (length (vinfoBlockFile s))) n) as [Hl|Hl].
  - rewrite u32_small by lia. destruct (resize_grows (vinfoBlockFile s) (Z.to_nat (n + 1))) as (Hlen & Hg & E); [lia|]. eexists. split; [reflexivity|]. split; [done|]. split; [lia|]. split; [lia|].
    rewrite E. split; [apply Forall_app; split; [done | apply Forall_replicate, info_new_ok]|]. intros _. rewrite lookup_app_r by lia. apply lookup_replicate_2. lia.
  - exists (vinfoBlockFile s). split; [by destruct s|]. split; [done|]. split; [done|]. split; [lia|]. split; [done|]. lia.
Qed.

(** The states that differ in the file system and in what is known of new files. *)
Definition extends (s s' : block_files) : Prop := keeps s s' /\ grows (vinfoBlockFile s) (vinfoBlockFile s') /\ nLastBlockFile s' = nLastBlockFile s /\
  setDirtyFileInfo s' = setDirtyFileInfo s /\ Forall info_ok (vinfoBlockFile s').
Lemma find_file_spec os nAddSize : 0 <= nAddSize < MAX_BLOCKFILE_SIZE -> forall fuel s n, Forall info_ok (vinfoBlockFile s) -> 0 <= nLastBlockFile s < Z.of_nat (length (vinfoBlockFile s)) ->
  0 <= n < Z.of_nat (length (vinfoBlockFile s)) -> Z.of_nat (length (vinfoBlockFile s)) + 1 < 2 ^ 31 -> (length (vinfoBlockFile s) - Z.to_nat n <= fuel)%nat ->
  exists s' n' i, find_file fuel os s nAddSize n = Some (s', n') /\ extends s s' /\ n <= n' /\ vinfoBlockFile s' !! Z.to_nat n' = Some i /\ nSize i + nAddSize < MAX_BLOCKFILE_SIZE /\
    n' < Z.of_nat (length (vinfoBlockFile s')) /\ Z.of_nat (length (vinfoBlockFile s')) <= Z.of_nat (length (vinfoBlockFile s)) + 1.
Proof.
  intros Hadd fuel. unfold MAX_BLOCKFILE_SIZE in *. induction fuel as [|fuel IH]; intros s n Hok Hlast Hn Hlen Hfuel; [lia|]. cbn [find_file].
  destruct (lookup_lt_is_Some_2 (vinfoBlockFile s) (Z.to_nat n)) as [i Hi]; [lia|]. rewrite Hi. cbn [mbind option_bind].
  assert (info_ok i) as [Hs _] by (by eapply Forall_lookup_1). rewrite u32_small by lia. unfold MAX_BLOCKFILE_SIZE.
  destruct (Z.geb_spec (nSize i + nAddSize) 0x8000000) as [Hfull|Hfree].
  - destruct (FlushBlockFile_spec os s true) as (g & -> & Hk); [lia..|]. cbn [mbind option_bind]. rewrite u32_small by lia.
    destruct (ensure_info_spec (set_fs s g) (n + 1)) as (v & -> & Hg & Hnv & Hlv & Hvok & Hnew); [lia|done|].
    assert (keeps s (set_info (set_fs s g) v)) as Hk' by (etransitivity; [exact Hk | by apply keeps_grows]).
    cbn [set_fs vinfoBlockFile] in Hg, Hlv, Hnew. destruct (decide (n + 1 < Z.of_nat (length (vinfoBlockFile s)))) as [Hin|Hout].
    + destruct (IH (set_info (set_fs s g) v) (n + 1)) as (s' & n' & j & -> & (E1 & E2 & E3 & E4 & E5) & Hle & Hj & Hfit & Hlt & Hlen'); cbn [set_info set_fs vinfoBlockFile nLastBlockFile] in *; [done|lia..|].
      exists s', n', j. split; [done|]. split; [split; [by etransitivity | split; [by etransitivity | by rewrite E3, E4]]|]. split; [lia|]. split; [done|]. split; [done|]. lia.
    + exists (set_info (set_fs s g) v), (n + 1), CBlockFileInfo_new. split.
      * destruct fuel; cbn [find_file set_info vinfoBlockFile]; rewrite Hnew by lia; cbn [mbind option_bind nSize CBlockFileInfo_new]; rewrite u32_small by lia;
          unfold MAX_BLOCKFILE_SIZE; replace (0 + nAddSize >=? 0x8000000) with false by lia; done.
      * cbn [set_info set_fs vinfoBlockFile nLastBlockFile setDirtyFileInfo CBlockFileInfo_new nSize]. split; [done|]. split; [lia|]. split; [apply Hnew; lia|]. lia.
  - exists s, n, i. split; [done|]. split; [done|]. auto with lia.
Qed.

Lemma extended_keeps f n start data : lies f start data -> lies (extended n f) start data.
Proof. apply lies_extended. Qed.
Lemma preallocate_spec os s prefix pos nNewSize CHUNK : exists g ok, preallocate os s prefix pos nNewSize CHUNK = (set_fs s g, ok) /\ keeps s (set_fs s g).
Proof.
  assert (s = set_fs s (fs s)) as Hid by by destruct s. assert (keeps s (set_fs s (fs s))) as Hk by (intros r; by rewrite <- Hid).
  unfold preallocate. destruct (_ >? _); [|exists (fs s), true; by rewrite <- Hid]. destruct (CheckDiskSpace _ _); [|exists (fs s), false; by rewrite <- Hid].
  destruct (OpenDiskFile _ _ _ _ _) as [[f g]|] eqn:E; [|exists (fs s), true; by rewrite <- Hid]. apply OpenDiskFile_spec in E as [Hg Hf].
  eexists _, true. split; [reflexivity|]. apply keeps_file; [done|]. intros r f' Hr E1 E2 Hf' Hl. destruct (Hf f' Hf') as [-> _]. unfold AllocateFileRange. destruct (fallocates os); [by apply lies_extended | done].
Qed.
Lemma set_fs_info s g v : set_fs (set_info s v) g = set_info (set_fs s g) v.
Proof. done. Qed.
Lemma keeps_same s s' : fs s' = fs s -> grows (vinfoBlockFile s) (vinfoBlockFile s') -> keeps s s'.
Proof. intros E Hg r (Hr & Hd & Hu). split; [done|]. unfold on_disk. rewrite E. split; [done|]. by eapply in_use_grows. Qed.
Lemma AddBlock_sizes h t i : nSize (AddBlock h t i) = nSize i /\ nUndoSize (AddBlock h t i) = nUndoSize i.
Proof. done. Qed.
Lemma Forall_insert_ok v n i : Forall info_ok v -> info_ok i -> Forall info_ok (<[n := i]> v).
Proof. intros Hv Hi. by apply Forall_insert. Qed.

(** The free space at a position: it is in use from now on, and behind what is kept. *)
Definition allotted (s s' : block_files) (prefix : string) (pos : CDiskBlockPos) (n : Z) : Prop :=
  keeps s s' /\ files_ok s' /\ 0 <= nFile pos < 2 ^ 31 /\ 0 <= nPos pos /\ in_use (vinfoBlockFile s') prefix (nFile pos) (nPos pos + n) /\
  Z.of_nat (length (vinfoBlockFile s')) <= Z.of_nat (length (vinfoBlockFile s)) + 2 /\
  forall r, kept s r -> r_prefix r = prefix -> r_file r = nFile pos -> r_end r <= nPos pos.
Lemma FindBlockPos_spec os s state pos0 nAddSize nHeight nTime : files_ok s -> 0 <= nAddSize < MAX_BLOCKFILE_SIZE -> Z.of_nat (length (vinfoBlockFile s)) + 2 < 2 ^ 31 ->
  exists s' pos ok, FindBlockPos os s state pos0 nAddSize nHeight nTime false = Some (s', pos, if ok : bool then (true, state) else out_of_space state) /\
    allotted s s' "blk" pos nAddSize /\ nPos pos + nAddSize < MAX_BLOCKFILE_SIZE.
Proof.
  intros (Hlast & Hlen & Hok) Hadd Hroom. unfold FindBlockPos. assert (0 <= nLastBlockFile s < 2 ^ 31) as Hl by lia. rewrite (u32_small (nLastBlockFile s)) by lia.
  destruct (ensure_info_spec s (nLastBlockFile s) Hl Hok) as (v & -> & Hg & Hnv & Hlv & Hvok & _).
  change (vinfoBlockFile (set_info s v)) with v.
  destruct (find_file_spec os nAddSize Hadd (S (length v)) (set_info s v) (nLastBlockFile s)) as (s1 & n & i & -> & (E1 & E2 & E3 & E4 & E5) & Hle & Hi & Hfit & Hlt & Hlen1);
    cbn [set_info vinfoBlockFile nLastBlockFile setDirtyFileInfo] in *; [done|lia..|].
  cbn [mbind option_bind]. rewrite Hi. cbn [mbind option_bind]. cbn [set_last vinfoBlockFile]. rewrite Hi. cbn [mbind option_bind].
  destruct (AddBlock_sizes nHeight nTime i) as [Ea Eb].
  set (i1 := AddBlock nHeight nTime i) in *. rewrite Ea. assert (info_ok i) as [Hi1 Hi2] by (by eapply Forall_lookup_1). unfold MAX_BLOCKFILE_SIZE in *. rewrite (u32_small (nSize i + nAddSize)) by lia.
  set (i2 := set_size (nSize i + nAddSize) i1). set (s2 := set_info _ _).
  assert (grows (vinfoBlockFile s1) (<[Z.to_nat n:=i2]> (vinfoBlockFile s1))) as Hgr by (eapply grows_insert; [exact Hi | cbn; lia | cbn; lia]).
  destruct (preallocate_spec os s2 "blk" (mkPos (i32 n) (nSize i)) (nSize i2) BLOCKFILE_CHUNK_SIZE) as (g & ok & -> & Hk).
  rewrite (i32_small n) by lia.
  assert (keeps s (set_info s v)) as K1 by by apply keeps_grows. assert (keeps s1 s2) as K2 by by apply keeps_same.
  assert (keeps s (set_fs s2 g)) as K by (etransitivity; [exact K1|]; etransitivity; [exact E1|]; by etransitivity).
  assert (info_ok i2) as Hi2ok by (split; cbn; lia).
  assert (forall s', fs s' = g -> vinfoBlockFile s' = vinfoBlockFile s2 -> nLastBlockFile s' = n -> allotted s s' "blk" (mkPos n (nSize i)) nAddSize) as Hall.
  { intros s' Ef Ev El. split; [|split; [|split; [|split; [|split; [|split]]]]].
    - intros r Hr. apply K in Hr as (Hr & Hd & Hu). split; [done|]. unfold on_disk. rewrite Ef, Ev. done.
    - unfold files_ok. rewrite El, Ev. cbn [s2 set_info vinfoBlockFile set_last]. rewrite length_insert. split; [left; lia|]. split; [lia|]. by apply Forall_insert_ok.
    - cbn [nFile]. lia.
    - cbn [nPos]. lia.
    - exists i2. rewrite Ev. cbn [s2 set_info vinfoBlockFile set_last nFile]. rewrite list_lookup_insert_eq by lia. split; [done|]. cbn. lia.
    - rewrite Ev. cbn [s2 set_info vinfoBlockFile set_last]. rewrite length_insert. lia.
    - intros r Hr Ep Er. apply K1, E1 in Hr as (_ & _ & (j & Hj & He)). cbn [nFile nPos] in *. rewrite Er, Hi in Hj. injection Hj as <-. rewrite Ep in He. exact He. }
  assert (nLastBlockFile s2 = n) as Hn by (apply i32_small; lia).
  exists (if ok then set_dirty (set_fs s2 g) n else set_fs s2 g), (mkPos n (nSize i)), ok. split; [by destruct ok|]. split; [by destruct ok; apply Hall | cbn [nPos]; lia].
Qed.
Lemma FindBlockPos_known os s state pos nAddSize nHeight nTime : files_ok s -> 0 <= nFile pos < 2 ^ 31 - 1 -> 0 <= nPos pos -> 0 <= nAddSize -> nPos pos + nAddSize < 2 ^ 31 ->
  exists s', FindBlockPos os s state pos nAddSize nHeight nTime true = Some (s', pos, (true, state)) /\ keeps s s' /\ files_ok s' /\ fs s' = fs s /\
    in_use (vinfoBlockFile s') "blk" (nFile pos) (nPos pos + nAddSize).
Proof.
  intros (Hlast & Hlen & Hok) Hf Hp Ha Hfit. unfold FindBlockPos. rewrite (u32_small (nFile pos)) by lia.
  destruct (ensure_info_spec s (nFile pos) ltac:(lia) Hok) as (v & -> & Hg & Hnv & Hlv & Hvok & _). cbn [mbind option_bind set_last set_info vinfoBlockFile].
  destruct (lookup_lt_is_Some_2 v (Z.to_nat (nFile pos))) as [i Hi]; [lia|]. rewrite Hi. cbn [mbind option_bind]. destruct (AddBlock_sizes nHeight nTime i) as [Ea Eb].
  set (i1 := AddBlock nHeight nTime i) in *. rewrite Ea. assert (info_ok i) as [Hi1 Hi2] by (by eapply Forall_lookup_1). rewrite (u32_small (nPos pos + nAddSize)), (i32_small (nFile pos)) by lia.
  eexists. split; [reflexivity|]. split; [|split; [|split; [done|]]].
  - apply keeps_same; [done|]. cbn [set_dirty set_info set_last vinfoBlockFile]. etransitivity; [exact Hg|]. eapply grows_insert; [exact Hi | cbn; lia | cbn; lia].
  - unfold files_ok. cbn [set_dirty set_info set_last vinfoBlockFile nLastBlockFile]. rewrite length_insert. split; [left; lia|]. split; [lia|]. apply Forall_insert_ok; [done|]. split; cbn; lia.
  - eexists. cbn [set_dirty set_info set_last vinfoBlockFile]. rewrite list_lookup_insert_eq by lia. split; [done|]. cbn. lia.
Qed.
Lemma FindUndoPos_spec os s state n nAddSize i : files_ok s -> 0 <= n < 2 ^ 31 -> vinfoBlockFile s !! Z.to_nat n = Some i -> 0 <= nAddSize -> nUndoSize i + nAddSize < 2 ^ 32 ->
  exists s' ok, FindUndoPos os s state n nAddSize = Some (s', mkPos n (nUndoSize i), if ok : bool then (true, state) else out_of_space state) /\ allotted s s' "rev" (mkPos n (nUndoSize i)) nAddSize.
Proof.
  intros (Hlast & Hlen & Hok) Hn Hi Ha Hfit. unfold FindUndoPos. rewrite Hi. cbn [mbind option_bind]. assert (info_ok i) as [Hi1 Hi2] by (by eapply Forall_lookup_1). rewrite (u32_small (nUndoSize i + nAddSize)) by lia.
  set (i2 := set_undo_size _ _). set (s2 := set_dirty _ _).
  assert (grows (vinfoBlockFile s) (<[Z.to_nat n:=i2]> (vinfoBlockFile s))) as Hgr by (eapply grows_insert; [exact Hi | cbn; lia | cbn; lia]).
  destruct (preallocate_spec os s2 "rev" (mkPos n (nUndoSize i)) (nUndoSize i + nAddSize) UNDOFILE_CHUNK_SIZE) as (g & ok & -> & Hk).
  assert (keeps s s2) as K by by apply keeps_same. exists (set_fs s2 g), ok. split; [done|]. pose proof (lookup_lt_Some _ _ _ Hi).
  split; [by transitivity s2|]. unfold files_ok. cbn [s2 set_fs set_dirty set_info vinfoBlockFile nLastBlockFile nFile nPos]. rewrite length_insert.
  split; [split; [lia|]; split; [lia|]; apply Forall_insert_ok; [done|]; split; cbn; lia|]. split; [lia|]. split; [lia|]. split.
  - exists i2. rewrite list_lookup_insert_eq by lia. split; [done|]. cbn. lia.
  - split; [lia|]. intros r (_ & _ & (j & Hj & He)) Ep Er. rewrite Er, Hi in Hj. injection Hj as <-. by rewrite Ep in He.
Qed.

(** Writing into the space that was allotted. *)
Lemma autofile_write_spec os s0 s prefix pos n f g data : 0 <= n -> allotted s0 s prefix pos n -> OpenDiskFile os (fs s) pos prefix false = Some (f, g) ->
  (length (take (Nat.min (accepts os) (stores os)) data) <= Z.to_nat n)%nat -> (prefix = "blk" \/ prefix = "rev") ->
  let s' := set_fs s (fst (autofile_write os g prefix pos f data)) in
  keeps s0 s' /\ files_ok s' /\ ((length data <= Nat.min (accepts os) (stores os))%nat -> forall a b, data = a ++ b -> kept s' (mkRegion prefix (nFile pos) (nPos pos + Z.of_nat (length a)) b)).
Proof.
  intros H0n (Hk & Hok & Hf & Hp & Hu & _ & Hb) Ho Hn Hpre s'. apply OpenDiskFile_spec in Ho as [Hg Hsame]. unfold s', autofile_write. cbn [fst].
  set (d := take _ _) in *. split; [|split].
  - intros r Hr. pose proof (Hk r Hr) as (Hr1 & (f1 & Hd1 & Hl1) & Hu1). split; [done|]. split; [|done]. unfold on_disk. cbn [set_fs fs].
    destruct (decide ((prefix, nFile pos) = (r_prefix r, r_file r))) as [E|Hne].
    + rewrite <- E in *. rewrite lookup_insert_eq. eexists. split; [done|]. injection E as Ea Eb. destruct (Hsame f1 Hd1) as [-> _]. destruct Hr1 as (_ & _ & H0).
      apply lies_before; [done..|]. exact (Hb r Hr (eq_sym Ea) (eq_sym Eb)).
    + rewrite lookup_insert_ne by congruence. exists f1. rewrite Hg by congruence. done.
  - exact Hok.
  - intros Hl a b ->. assert (d = a ++ b) as Hd by (apply take_ge; lia). rewrite Hd in *. split; [split; [done|]; cbn; lia|]. split.
    + eexists. cbn [set_fs fs r_prefix r_file r_start r_data]. rewrite lookup_insert_eq. split; [done|]. apply lies_more; [done|]. apply lies_written.
    + destruct Hu as (i & Hi & He). exists i. cbn [set_fs r_prefix r_file r_end r_start r_data vinfoBlockFile]. split; [done|]. unfold r_end. cbn [r_start r_data]. rewrite length_app in Hn. lia.
Qed.

(** ** Undo data is read back *)

Section undo_codec.
Context `{PubKeyLaws}.
#[local] Existing Instance undo_codec.
Definition undos_ok (u : list (list CTxInUndo)) : Prop :=
  Z.of_nat (length u) <= MAX_SIZE /\ Forall (fun l => Z.of_nat (length l) <= MAX_SIZE /\ Forall undo_ok l) u.
Lemma read_list {A} `{Codec A} (enc : A -> option (list Z)) (l : list A) : Z.of_nat (length l) <= MAX_SIZE ->
  Forall (fun a => exists b, enc a = Some b /\ forall rest, Unserialize (b ++ rest) = inr (a, rest)) l ->
  exists b, Serialize_list enc l = Some b /\ forall rest, (Unserialize_vector : reader (list A)) (b ++ rest) = inr (l, rest).
Proof.
  intros Hl Hf. assert (exists bs, mapM enc l = Some bs /\ forall rest, read_elements (length l) (concat bs ++ rest) = inr (l, rest)) as (bs & Hm & Hr).
  { clear Hl. induction Hf as [|a l (b & Hb & Ha) _ (bs & Hm & Hr)]; [by exists []|]. exists (b :: bs). cbn [mapM]. rewrite Hb, Hm. cbn [mbind option_bind]. split; [done|].
    intros rest. cbn [length read_elements concat]. rewrite <- app_assoc. erewrite bind_eq by apply Ha. erewrite bind_eq by apply Hr. done. }
  unfold Serialize_list. rewrite Hm. cbn [mbind option_bind]. eexists. split; [reflexivity|]. intros rest'. unfold Unserialize_vector. rewrite <- app_assoc.
  erewrite bind_eq by (apply codes_CompactSize; lia). rewrite Nat2Z.id. apply Hr.
Qed.
Lemma read_back_undos u : undos_ok u -> exists b, Serialize_CBlockUndo u = Some b /\ forall rest, Unserialize_CBlockUndo (b ++ rest) = inr (u, rest).
Proof using All.
  intros [Hn Hu]. unfold Serialize_CBlockUndo, Unserialize_CBlockUndo. apply (read_list (Serialize_list Serialize_undo) u); [done|]. eapply Forall_impl; [|exact Hu]. intros l [Hl Hf].
  apply (read_list Serialize_undo l); [done|]. eapply Forall_impl; [|exact Hf]. intros a Ha. destruct (read_back_undo a [] Ha) as (b & Hb & _). exists b. split; [done|].
  intros rest. destruct (read_back_undo a rest Ha) as (b' & Hb' & E). rewrite Hb in Hb'. injection Hb' as <-. exact E.
Qed.
End undo_codec.

(** ** Histories *)

(** What was stored, as its position and the value that has to be read there. *)
Inductive stored := SBlock (pos : CDiskBlockPos) (b : CBlock) | SUndo (pos : CDiskBlockPos) (u : list (list CTxInUndo)) (hashPrev : hash256).
Inductive file_op :=
  | OpBlock (os : OS) (b : CBlock) (nHeight : Z) (dbp : option CDiskBlockPos)
  | OpUndo (os : OS) (n : Z) (u : list (list CTxInUndo)) (hashPrev : hash256)
  | OpFlush (os : OS).

Section histories.
Context (HashQuark : list Z -> hash256) (powParams : Pow.CChainParams) (MessageStart : list Z) `{PubKeyOps}.
(** Nothing that was accepted is lost on the way to the disk. *)
Definition reliable (os : OS) : bool := (accepts os <=? stores os)%nat.
Definition file_step (s : block_files) (op : file_op) : option (block_files * list stored) :=
  match op with
  | OpBlock os b nHeight dbp =>
      '(s, _, r) ← save_block MessageStart os s CValidationState_new b nHeight dbp;
      Some (s, match r with Done (pos, b) => if reliable os && negb (bool_decide (is_Some dbp)) then [SBlock pos b] else [] | _ => [] end)
  | OpUndo os n u hashPrev =>
      '(s, _, r) ← save_undo MessageStart os s CValidationState_new n u hashPrev;
      Some (s, match r with Done pos => if reliable os then [SUndo pos u hashPrev] else [] | _ => [] end)
  | OpFlush os => s ← FlushBlockFile os s false; Some (s, [])
  end.
(** Blocks that are read from the wire, of less than 128 MiB; undo data of blocks whose file is
    known, as long as the undo file stays below 4 GiB; positions below 2 GiB. *)
Definition op_ok (s : block_files) (op : file_op) : Prop :=
  match op with
  | OpBlock _ b _ dbp => block_ok true b /\ Z.of_nat (length (block_wire true b)) + 8 < MAX_BLOCKFILE_SIZE /\
      match dbp with
      | None => Z.of_nat (length (vinfoBlockFile s)) + 2 < 2 ^ 31
      | Some pos => 0 <= nFile pos < 2 ^ 31 - 1 /\ 0 <= nPos pos /\ nPos pos + Z.of_nat (length (block_wire true b)) + 8 < 2 ^ 31
      end
  | OpUndo _ n u hashPrev => 0 <= n < 2 ^ 31 /\ undos_ok u /\ Z.of_nat (length hashPrev) = 32 /\ exists i bytes, vinfoBlockFile s !! Z.to_nat n = Some i /\ Serialize_CBlockUndo u = Some bytes /\ nUndoSize i + Z.of_nat (length bytes) + 40 < 2 ^ 32
  | OpFlush _ => True
  end.
Inductive history : block_files -> list stored -> Prop :=
  | history_new : history block_files_new []
  | history_step s l op s' l' : history s l -> op_ok s op -> file_step s op = Some (s', l') -> history s' (l' ++ l).

Definition region_of (x : stored) : region :=
  match x with
  | SBlock pos b => mkRegion "blk" (nFile pos) (nPos pos) (block_wire true b)
  | SUndo pos u hashPrev => let bytes := default [] (Serialize_CBlockUndo u) in mkRegion "rev" (nFile pos) (nPos pos) (bytes ++ checksum hashPrev bytes)
  end.
Definition stored_ok (x : stored) : Prop :=
  match x with
  | SBlock pos b => block_ok true b /\ pos_IsNull pos = false
  | SUndo pos u hashPrev => undos_ok u /\ Z.of_nat (length hashPrev) = 32 /\ pos_IsNull pos = false /\ exists bytes, Serialize_CBlockUndo u = Some bytes /\ Z.of_nat (length bytes) < 2 ^ 32
  end.
Definition kept_stored (s : block_files) (x : stored) : Prop := stored_ok x /\ kept s (region_of x).
End histories.

Lemma take_room (os : OS) (l : list Z) n : Z.of_nat (length l) <= n -> (length (take (Nat.min (accepts os) (stores os)) l) <= Z.to_nat n)%nat.
Proof. rewrite length_take. lia. Qed.
(** What [autofile_write] says with what it leaves. *)
Lemma reliable_stores os (data : list Z) : reliable os = true -> (length data <=? accepts os)%nat = true -> (length data <= Nat.min (accepts os) (stores os))%nat.
Proof. unfold reliable. rewrite !Nat.leb_le. lia. Qed.

Lemma checksum_def hashBlock bytes : checksum hashBlock bytes = Hash [hashBlock ++ bytes].
Proof. reflexivity. Qed.
Section store.
Context (HashQuark : list Z -> hash256) (powParams : Pow.CChainParams) (MessageStart : list Z) `{PubKeyLaws} (Hstart : length MessageStart = 4%nat).

Lemma block_bytes_ok b : block_ok true b -> block_bytes true b = block_wire true b.
Proof. intros Hb. unfold block_bytes. by rewrite Serialize_Block_ok. Qed.
Lemma length_head n : length (MessageStart ++ write_int 4 n) = 8%nat.
Proof using Hstart. rewrite length_app. unfold write_int. rewrite le_bytes_length. lia. Qed.
Lemma save_block_spec os s state b nHeight : files_ok s -> op_ok s (OpBlock os b nHeight None) ->
  exists s' state' r, save_block MessageStart os s state b nHeight None = Some (s', state', r) /\ keeps s s' /\ files_ok s' /\
    match r with Done (pos, b') => state' = state /\ b' = b /\ pos_IsNull pos = false /\ 0 <= nFile pos < Z.of_nat (length (vinfoBlockFile s')) /\ (reliable os = true -> kept s' (region_of (SBlock pos b))) | Fails => exists msg, state' = snd (Error msg state) | Throws => state' = state end.
Proof using Hstart.
  intros Hok (Hb & Hsize & Hcount). unfold save_block. rewrite bool_decide_eq_false_2 by (by intros []). cbn [default].
  unfold GetBlockSize. change (fAllowWitness CLIENT_VERSION) with true. rewrite block_bytes_ok by done. set (w := block_wire true b) in *. unfold MAX_BLOCKFILE_SIZE in *.
  rewrite (u32_small (Z.of_nat (length w))), u32_small by lia.
  destruct (FindBlockPos_spec os s state CDiskBlockPos_null (Z.of_nat (length w) + 8) (u32 nHeight) (GetBlockTime b)) as (s1 & pos & ok & -> & Hall & Hfit); [done|unfold MAX_BLOCKFILE_SIZE; lia|done|].
  unfold MAX_BLOCKFILE_SIZE in Hfit. pose proof Hall as (Hk & Hok1 & Hf & Hp & Hu & _). destruct ok; cbn [mbind option_bind negb]; [|eexists _, _, Fails; split; [reflexivity|]; split; [done|]; split; [done|]; by exists "out of disk space"].
  unfold WriteBlockToDisk, OpenBlockFile. destruct (OpenDiskFile os (fs s1) pos "blk" false) as [[f g]|] eqn:Eo; [|eexists _, _, Fails; split; [reflexivity|]; split; [done|]; split; [done|]; by eexists].
  change (fAllowWitness CLIENT_VERSION) with true. rewrite (Serialize_Block_ok true b Hb). cbn [mbind option_bind]. fold w. set (head := MessageStart ++ _). assert (length head = 8%nat) as Hhead by apply length_head. rewrite Hhead.
  destruct (_ && _) eqn:Eh.
  - destruct (autofile_write_spec os s s1 "blk" pos (Z.of_nat (length w) + 8) f g head) as (K1 & K2 & _); [lia|done|done|apply take_room; lia|by left|].
    cbn [mbind option_bind]. eexists _, _, Fails. split; [reflexivity|]. split; [done|]. split; [done|]. by eexists.
  - destruct (autofile_write_spec os s s1 "blk" pos (Z.of_nat (length w) + 8) f g (head ++ w)) as (K1 & K2 & K3); [lia|done|done|apply take_room; rewrite length_app; lia|by left|].
    unfold autofile_write in *. cbn [fst] in *. destruct (length (head ++ w) <=? accepts os)%nat eqn:Ea; cbn [mbind option_bind]; [|eexists _, _, Throws; done].
    eexists _, _, (Done _). split; [reflexivity|]. split; [done|]. split; [done|]. split; [done|]. split; [done|]. change (Z.of_nat 8) with 8. rewrite u32_small by lia. split; [unfold pos_IsNull; cbn [nFile]; lia|]. split; [cbn [nFile]; destruct Hu as (i & Hi & _); apply lookup_lt_Some in Hi; cbn; lia|].
    intros Hr. specialize (K3 (reliable_stores _ _ Hr Ea) head w eq_refl). by rewrite Hhead in K3.
Qed.
Lemma save_undo_spec os s state n u hashPrev : files_ok s -> op_ok s (OpUndo os n u hashPrev) ->
  exists s' state' r, save_undo MessageStart os s state n u hashPrev = Some (s', state', r) /\ keeps s s' /\ files_ok s' /\
    match r with Done pos => state' = state /\ nFile pos = n /\ (reliable os = true -> kept s' (region_of (SUndo pos u hashPrev))) | Fails => exists msg, state' = snd (Error msg state) | Throws => state' = state end.
Proof using Hstart.
  intros Hok (Hn & Hu & Hh & (i & bytes & Hi & Hb & Hsize)). unfold save_undo. rewrite Hb. cbn [mbind option_bind].
  assert (info_ok i) as [_ Hi0] by (destruct Hok as (_ & _ & Hok); by eapply Forall_lookup_1). rewrite (u32_small (Z.of_nat (length bytes))), u32_small by lia.
  assert (length (checksum hashPrev bytes) = 32%nat) as Hc by (apply Hash_length; constructor; [rewrite length_app; lia | constructor]).
  destruct (FindUndoPos_spec os s state n (Z.of_nat (length bytes) + 40) i) as (s1 & ok & -> & Hall); [done|done|done|lia|lia|]. set (pos := mkPos n (nUndoSize i)) in *.
  pose proof Hall as (Hk & Hok1 & Hf & Hp & _). destruct ok; cbn [mbind option_bind negb]; [|eexists _, _, Fails; split; [reflexivity|]; split; [done|]; split; [done|]; by exists "out of disk space"].
  unfold Undo_WriteToDisk, OpenUndoFile. destruct (OpenDiskFile os (fs s1) pos "rev" false) as [[f g]|] eqn:Eo; [|eexists _, _, Fails; split; [reflexivity|]; split; [done|]; split; [done|]; by eexists].
  rewrite Hb. cbn [mbind option_bind]. set (head := MessageStart ++ _). assert (length head = 8%nat) as Hhead by apply length_head. rewrite Hhead. set (w := bytes ++ checksum hashPrev bytes).
  assert (length w = length bytes + 32)%nat as Hw by (unfold w; rewrite length_app; lia). destruct (_ && _) eqn:Eh.
  - destruct (autofile_write_spec os s s1 "rev" pos (Z.of_nat (length bytes) + 40) f g head) as (K1 & K2 & _); [lia|done|done|apply take_room; lia|by right|].
    cbn [mbind option_bind]. eexists _, _, Fails. split; [reflexivity|]. split; [done|]. split; [done|]. by eexists.
  - destruct (autofile_write_spec os s s1 "rev" pos (Z.of_nat (length bytes) + 40) f g (head ++ w)) as (K1 & K2 & K3); [lia|done|done|apply take_room; rewrite length_app; lia|by right|].
    unfold autofile_write in *. cbn [fst] in *. destruct (length (head ++ w) <=? accepts os)%nat eqn:Ea; cbn [mbind option_bind]; [|eexists _, _, Throws; done].
    eexists _, _, (Done _). split; [reflexivity|]. split; [done|]. split; [done|]. split; [done|]. split; [done|]. change (Z.of_nat 8) with 8. cbn [nPos nFile pos] in *. rewrite u32_small by lia.
    intros Hr. specialize (K3 (reliable_stores _ _ Hr Ea) head w eq_refl). rewrite Hhead in K3. cbn [region_of]. by rewrite Hb.
Qed.

Lemma file_step_spec s op l : files_ok s -> Forall (kept_stored s) l -> op_ok s op ->
  exists s' l', file_step MessageStart s op = Some (s', l') /\ files_ok s' /\ Forall (kept_stored s') (l' ++ l).
Proof using Hstart H0.
  intros Hok Hl Hop. assert (forall s', keeps s s' -> Forall (kept_stored s') l) as Hkeep.
  { intros s' Hk. eapply Forall_impl; [|exact Hl]. intros x [H1 H2]. split; auto. }
  unfold file_step. destruct op as [os b nHeight [pos|]|os n u hashPrev|os].
  - destruct Hop as (Hb & Hsize & Hf & Hp & Hfit). unfold MAX_BLOCKFILE_SIZE in *. unfold save_block. rewrite bool_decide_eq_true_2 by eauto. change (default CDiskBlockPos_null (Some pos)) with pos.
    unfold GetBlockSize. change (fAllowWitness CLIENT_VERSION) with true. rewrite block_bytes_ok by done. rewrite (u32_small (Z.of_nat _)), u32_small by lia.
    destruct (FindBlockPos_known os s CValidationState_new pos (Z.of_nat (length (block_wire true b)) + 8) (u32 nHeight) (GetBlockTime b)) as (s' & -> & Hk & Hok' & _); [done|done|done|lia|lia|].
    cbn [mbind option_bind negb]. rewrite andb_false_r. exists s', []. auto.
  - destruct (save_block_spec os s CValidationState_new b nHeight Hok Hop) as (s' & st & r & -> & Hk & Hok' & Hr). cbn [mbind option_bind].
    rewrite bool_decide_eq_false_2 by (by intros []). rewrite andb_true_r. eexists _, _. split; [reflexivity|]. split; [done|].
    destruct r as [[pos b']| |]; [|by apply Hkeep..]. destruct Hr as (_ & -> & Hnull & _ & Hr). destruct (reliable os); [|by apply Hkeep]. constructor; [|by apply Hkeep]. split; [split; [apply Hop | done] | by apply Hr].
  - destruct (save_undo_spec os s CValidationState_new n u hashPrev Hok Hop) as (s' & st & r & -> & Hk & Hok' & Hr). cbn [mbind option_bind].
    eexists _, _. split; [reflexivity|]. split; [done|]. destruct r as [pos| |]; [|by apply Hkeep..]. destruct Hr as (_ & Hn & Hr). destruct (reliable os); [|by apply Hkeep]. constructor; [|by apply Hkeep].
    destruct Hop as (Hn0 & Hu & Hh & (i & bytes & Hi & Hb & Hsize)). split; [|by apply Hr]. split; [done|]. split; [done|]. split; [unfold pos_IsNull; lia|].
    exists bytes. split; [done|]. destruct Hok as (_ & _ & Hok). apply (Forall_lookup_1 _ _ _ _ Hok) in Hi as [_ Hi]. lia.
  - destruct (FlushBlockFile_spec os s false) as (g & -> & Hk); [done|destruct Hok as (Hlast & _); lia|]. cbn [mbind option_bind]. eexists _, []. split; [reflexivity|]. split; [exact Hok | by apply Hkeep].
Qed.
Lemma file_history_ok s l : history MessageStart s l -> files_ok s /\ Forall (kept_stored s) l.
Proof using Hstart H0.
  intros Hh. induction Hh as [|s l op s' l' _ [IH1 IH2] Hop Hstep].
  - split; [|constructor]. split; [right; done|]. split; [done | constructor].
  - destruct (file_step_spec s op l IH1 IH2 Hop) as (s2 & l2 & E & H1 & H2). rewrite Hstep in E. injection E as <- <-. done.
Qed.
Lemma read_open os s x : kept s (region_of x) -> pos_IsNull (match x with SBlock pos _ | SUndo pos _ _ => pos end) = false ->
  let pos := match x with SBlock pos _ | SUndo pos _ _ => pos end in opens os (r_prefix (region_of x)) (nFile pos) = true ->
  exists f rest, OpenDiskFile os (fs s) pos (r_prefix (region_of x)) true = Some (f, fs s) /\ drop (Z.to_nat (nPos pos)) f = r_data (region_of x) ++ rest.
Proof.
  intros (_ & (f & Hd & (rest & Hl)) & _) Hn pos Ho. fold pos in Hn. unfold OpenDiskFile. rewrite Hn, Ho. cbn [negb]. exists f, rest. subst pos. destruct x as [p b|p u h]; cbn [region_of r_prefix r_file r_start r_data] in *; by rewrite Hd.
Qed.
Lemma read_stored_block os s pos b : kept_stored s (SBlock pos b) -> opens os "blk" (nFile pos) = true ->
  (IsProofOfWork b = true -> CheckProofOfWork powParams (limbs_of (GetHash_Header HashQuark b)) (hBits b) = true) -> ReadBlockFromDisk HashQuark powParams os s pos = Some b.
Proof.
  intros [[Hb Hn] Hk] Ho Hpow. destruct (read_open os s (SBlock pos b) Hk Hn Ho) as (f & rest & E & Ed). cbn [region_of r_prefix r_data] in E, Ed.
  unfold ReadBlockFromDisk, OpenBlockFile. rewrite E, Ed. change (fAllowWitness CLIENT_VERSION) with true. destruct (codes_Block true) as [-> _]; [|done].
  destruct (IsProofOfWork b); cbn [andb]; [by rewrite Hpow | done].
Qed.
Lemma read_stored_undo os s pos u hashPrev hash : kept_stored s (SUndo pos u hashPrev) -> opens os "rev" (nFile pos) = true -> exists bytes, Serialize_CBlockUndo u = Some bytes /\
  Z.of_nat (length bytes) < 2 ^ 32 /\ Undo_ReadFromDisk os s pos hash = Some (if hash_eqb (checksum hashPrev bytes) (checksum hash bytes) then Some u else None).
Proof using Hstart H0.
  intros [(Hu & Hh & Hn & (bytes & Hb & Hl)) Hk] Ho. destruct (read_open os s (SUndo pos u hashPrev) Hk Hn Ho) as (f & rest & E & Ed). cbn [region_of r_prefix r_data] in E, Ed. rewrite Hb in Ed. cbn [default] in Ed.
  exists bytes. split; [done|]. split; [done|]. unfold Undo_ReadFromDisk, OpenUndoFile. rewrite E, Ed, <- app_assoc. destruct (read_back_undos u Hu) as (b' & Hb' & Hr). rewrite Hb in Hb'. injection Hb' as <-.
  erewrite bind_eq by apply Hr. assert (length (checksum hashPrev bytes) = 32%nat) as Hc by (apply Hash_length; constructor; [rewrite length_app; lia | constructor]).
  assert (read_bytes 32 (checksum hashPrev bytes ++ rest) = inr (checksum hashPrev bytes, rest)) as Hrd.
  { unfold read_bytes. rewrite length_app, Hc. destruct (Z.ltb_spec (Z.of_nat (32 + length rest)) 32); [lia|]. change (Z.to_nat 32) with 32%nat. rewrite <- Hc, take_app_length, drop_app_length. done. }
  erewrite bind_eq by exact Hrd. unfold mret, reader_ret. by rewrite Hb.
Qed.
End store.

(** C17: what was written to the block files is read back.  After any history of blocks and undo
    data stored, blocks found at known positions and flushes, with whatever the operating
    system refuses on the way, every block that was stored is read at its position, and every
    undo record at its position with the hash it was written with; with another hash it is
    refused, unless the hashes of the two different texts are equal.  No operation within the limits of the files
    fails an assertion or goes round for ever. *)
Theorem files_keep_what_is_stored (HashQuark : list Z -> hash256) (powParams : Pow.CChainParams) (MessageStart : list Z) `{PubKeyLaws} (Hstart : length MessageStart = 4%nat)
    (s : block_files) (l : list stored) (Hh : history MessageStart s l) :
  (forall op, op_ok s op -> is_Some (file_step MessageStart s op)) /\
  (forall os pos b, In (SBlock pos b) l -> opens os "blk" (nFile pos) = true ->
    (IsProofOfWork b = true -> CheckProofOfWork powParams (limbs_of (GetHash_Header HashQuark b)) (hBits b) = true) -> ReadBlockFromDisk HashQuark powParams os s pos = Some b) /\
  (forall os pos u hashPrev, In (SUndo pos u hashPrev) l -> opens os "rev" (nFile pos) = true ->
    Undo_ReadFromDisk os s pos hashPrev = Some (Some u) /\
    (forall hash, length hash = 32%nat -> hash <> hashPrev -> Undo_ReadFromDisk os s pos hash = Some None \/
      exists bytes, Serialize_CBlockUndo u = Some bytes /\ hash ++ bytes <> hashPrev ++ bytes /\ Hash [hash ++ bytes] = Hash [hashPrev ++ bytes])).
Proof.
  destruct (file_history_ok MessageStart Hstart s l Hh) as [Hok Hl]. rewrite List.Forall_forall in Hl. split; [|split].
  - intros op Hop. destruct (file_step_spec MessageStart Hstart s op [] Hok ltac:(constructor) Hop) as (s' & l' & -> & _). done.
  - intros os pos b Hin Ho Hpow. eapply read_stored_block; [by apply Hl | done..].
  - intros os pos u hashPrev Hin Ho. split.
    + destruct (read_stored_undo MessageStart Hstart os s pos u hashPrev hashPrev (Hl _ Hin) Ho) as (bytes & _ & _ & ->). unfold hash_eqb. rewrite bool_decide_eq_true_2 by exact eq_refl. exact eq_refl.
    + intros hash Hlen Hne. destruct (read_stored_undo MessageStart Hstart os s pos u hashPrev hash (Hl _ Hin) Ho) as (bytes & Hb & _ & ->). unfold hash_eqb.
      destruct (bool_decide_reflect (checksum hashPrev bytes = checksum hash bytes)) as [E|]; [rewrite !checksum_def in E; right | by left]. exists bytes. split; [exact Hb|]. split; [intros Ea%app_inv_tail; exact (Hne Ea) | exact (eq_sym E)].
Qed.

(** A block, its undo data and a second block, the last while the disk fills up. *)
Definition small_block : CBlock := mkBlock (mkHeader 4 hash_zero hash_zero 1 0x1e0ffff0 2 hash_zero) [] [].
Definition good_os : OS := mkOS (2 ^ 40) (fun _ _ => true) false true 1000 1000.
Definition full_os : OS := mkOS (2 ^ 40) (fun _ _ => true) false true 20 20.
#[local] Instance no_keys : PubKeyOps := { IsFullyValid := fun _ => false; Decompress_key := fun _ => None }.
#[local] Instance no_keys_laws : PubKeyLaws.
Proof. constructor. intros k _ _ Hv. discriminate Hv. Qed.
Definition small_undo : list (list CTxInUndo) := [[mkUndo (mkTxOut 5 [81] (-10)) true false 7 1]].
Definition start4 : list Z := [1; 2; 3; 4].

Lemma small_block_ok : block_ok true small_block.
Proof.
  assert (hash_ok hash_zero) as Hz by (split; [reflexivity | apply Forall_replicate; done]).
  split; [|split; [split; [done | constructor] | done]]. unfold header_ok, checkpoint_ok. cbn. unfold is_u32. split_and!; done || apply Hz.
Qed.
Lemma small_undo_ok : undos_ok small_undo.
Proof. split; [done|]. constructor; [split; [done|]; constructor; [|constructor]|constructor]. unfold undo_ok, compressible. cbn. split_and!; try done; lia. Qed.
Definition after1 : block_files := Eval vm_compute in from_option fst block_files_new (file_step start4 block_files_new (OpBlock good_os small_block 0 None)).
Definition after2 : block_files := Eval vm_compute in from_option fst block_files_new (file_step start4 after1 (OpUndo good_os 0 small_undo hash_zero)).
Definition after3 : block_files := Eval vm_compute in from_option fst block_files_new (file_step start4 after2 (OpBlock full_os small_block 1 None)).
Lemma small_history : history start4 after3 [SUndo (mkPos 0 8) small_undo hash_zero; SBlock (mkPos 0 8) small_block].
Proof.
  apply (history_step start4 after2 _ (OpBlock full_os small_block 1 None) after3 []); [|split; [exact small_block_ok | vm_compute; done] | vm_compute; reflexivity].
  apply (history_step start4 after1 _ (OpUndo good_os 0 small_undo hash_zero) after2 [_]); [| |vm_compute; reflexivity].
  - apply (history_step start4 block_files_new [] (OpBlock good_os small_block 0 None) after1 [_]); [apply history_new | split; [exact small_block_ok | vm_compute; done] | vm_compute; reflexivity].
  - split; [lia|]. split; [exact small_undo_ok|]. split; [done|]. eexists _, [1; 1; 30; 1; 41; 7; 81]. split; [vm_compute; reflexivity|]. split; [vm_compute; reflexivity|]. cbn [nUndoSize length]. lia.
Qed.
Lemma files_keep_what_is_stored_witness :
  ReadBlockFromDisk (fun l => l) CMainParams good_os after3 (mkPos 0 8) = Some small_block /\ Undo_ReadFromDisk good_os after3 (mkPos 0 8) hash_zero = Some (Some small_undo).
Proof.
  destruct (files_keep_what_is_stored (fun l => l) CMainParams start4 eq_refl after3 _ small_history) as (_ & H1 & H2). split.
  - apply H1; [right; by left | reflexivity | vm_compute; reflexivity].
  - apply H2; [by left | reflexivity].
Defined.
