(* ===== verification/AcceptBlock.v ===== *)
(** Blocks that arrive ([src/src/main.cpp]: [AcceptBlockHeader], [AcceptBlock],
    [ProcessNewBlock]): the checks of [BlockChecks], the tree of [ChainState] and the files of
    [BlockFiles] put together. *)
From S2P Require Import Prelude Serialize Uint256 Hashers Script Merkle Transaction Compressor Coins CoinsView TxChecks Ledger Chain Pow Block BlockChecks ChainState ChainSelection BlockFiles.

(** ** The state *)

(** The tree, the files, [nFile] and [nDataPos] of the blocks whose data is there, and
    [mapBlockSource]. *)
Record node := mkNode { chain : chainstate; files : block_files; positions : gmap ptr CDiskBlockPos; mapBlockSource : gmap Z Z }.
(** With the locals of a call: [state], [*ppindex], and whether GETBLOCKS was sent. *)
Record attempt := mkAttempt { at_node : node; at_state : CValidationState; at_pindex : option ptr; at_request : bool }.

(** A step goes on, returns from the function, or is in a loop whose fuel has ended; [None] is
    an assertion, an exception or a null pointer. *)
Inductive flow (A : Type) := Go (a : A) | Ret (b : bool) | Hangs.
Arguments Go {A} _.
Arguments Ret {A} _.
Arguments Hangs {A}.
Definition att (A : Type) : Type := attempt -> option (flow A * attempt).
#[export] Instance att_ret : MRet att := fun A a s => Some (Go a, s).
#[export] Instance att_bind : MBind att := fun A B f m s =>
  match m s with Some (Go a, s') => f a s' | Some (Ret b, s') => Some (Ret b, s') | Some (Hangs, s') => Some (Hangs, s') | None => None end.

Definition with_node (n : node) (a : attempt) : attempt := mkAttempt n (at_state a) (at_pindex a) (at_request a).
Definition with_state (st : CValidationState) (a : attempt) : attempt := mkAttempt (at_node a) st (at_pindex a) (at_request a).
Definition set_chain (s : chainstate) (a : attempt) : attempt :=
  with_node (mkNode s (files (at_node a)) (positions (at_node a)) (mapBlockSource (at_node a))) a.
Definition set_pindex (p : ptr) (a : attempt) : attempt := mkAttempt (at_node a) (at_state a) (Some p) (at_request a).
Definition here {A} (f : attempt -> A) : att A := fun a => Some (Go (f a), a).
Definition update (f : attempt -> attempt) : att unit := fun a => Some (Go tt, f a).
Definition the_chain : att chainstate := here (fun a => chain (at_node a)).
Definition value {A} (o : option A) : att A := fun a => match o with Some x => Some (Go x, a) | None => None end.
Definition returning {A} (b : bool) : att A := fun a => Some (Ret b, a).
Definition return_if (cond b : bool) : att unit := if cond then returning b else mret tt.
Definition hang {A} : att A := fun a => Some (Hangs, a).
(** [return state.DoS(level, error(...), code, reason)], and a check that returns on failure. *)
Definition refuse {A} (level code : Z) (reason : string) : att A := fun a =>
  Some (Ret false, with_state (snd (DoS level false code reason false "" (at_state a))) a).
Definition checking (m : bcheck unit) : att unit := fun a =>
  match m (at_state a) with
  | Some (Some _, st) => Some (Go tt, with_state st a)
  | Some (None, st) => Some (Ret false, with_state st a)
  | None => None
  end.
(** The value a function returns. *)
Definition call (m : att unit) : att bool := fun a =>
  match m a with
  | Some (Go _, a) => Some (Go true, a)
  | Some (Ret b, a) => Some (Go b, a)
  | Some (Hangs, a) => Some (Hangs, a)
  | None => None
  end.

(** What the disk answers, what a failed read leaves in the block it was read into, the outputs
    spent at the tip ([mapStakeSpent]) and the parameters of the network. *)
Class AcceptBlockEnv := {
  disk : OS;
  left_over : ptr -> CBlock;
  mapStakeSpent : gmap COutPoint Z;
  MessageStart : list Z
}.

Section accept.
Context {Base : Type} `{CCoinsView Base} `{NodeEnv} `{BlockEnv} `{ZerocoinChecks} `{AcceptBlockEnv} `{PubKeyOps}.
Context (params : BlockParams) (pcoinsTip : CCoinsViewCache Base).

(** Where the new object is allocated, and the object made from a block. *)
Definition new_ptr (s : chainstate) : ptr := infinite_fresh (elements (dom (blocks s))).
Definition index_of (b : CBlock) : CBlockIndex :=
  mkBlockIndex (BlockHash b) None None 0 (hVersion b) (hTime b) (hBits b) (if Block.IsProofOfStake b then BLOCK_PROOF_OF_STAKE else 0) 0.
Definition is_genesis (b : CBlock) : bool := BlockHash b =? HashGenesisBlock params.
Definition prev_hash (b : CBlock) : Z := uint256_of (hashPrevBlock b).

(** ** Headers *)

(** A block before this one that is invalid is not reconsidered: [pindex] is null there. *)
Definition header_previous (s : chainstate) (b : CBlock) : att (option ptr) :=
  if is_genesis b then mret None else
  match mapBlockIndex s !! prev_hash b with
  | None => refuse 0 0 "bad-prevblk"
  | Some q => if flag (entry_of s q) BLOCK_FAILED_MASK then refuse 100 REJECT_INVALID "bad-prevblk" else mret (Some q)
  end.
Definition AcceptBlockHeader (b : CBlock) : att unit :=
  s ← the_chain;
  match mapBlockIndex s !! BlockHash b with
  | Some p => update (set_pindex p);; if flag (entry_of s p) BLOCK_FAILED_MASK then refuse 0 0 "duplicate" else mret tt
  | None =>
      checking (CheckBlockHeader params b false);;
      pindexPrev ← header_previous s b;
      checking (ContextualCheckBlockHeader params (blocks s) (mapBlockIndex s) (chainActive s) b pindexPrev);;
      '(s, p) ← value (AddToBlockIndex s (new_ptr s) (index_of b) (prev_hash b));
      update (set_chain s);; update (set_pindex p)
  end.

(** ** Blocks *)

(** An invalid block that a checkpoint names is reconsidered; [true] is returned then, with
    nothing done for the block at hand. *)
Definition previous (b : CBlock) : att (option ptr) :=
  s ← the_chain;
  if is_genesis b then mret None else
  match mapBlockIndex s !! prev_hash b with
  | None => refuse 0 0 "bad-prevblk"
  | Some q =>
      if flag (entry_of s q) BLOCK_FAILED_MASK then
        bq ← value (blocks s !! q);
        if Checkpoint_CheckBlock params (Chain.nHeight bq) (prev_hash b) true then
          s ← value (ReconsiderBlock s q);
          '(s, _, _) ← value (ActivateBestChain (activation_fuel s) s CValidationState_new None false);
          update (set_chain s);; returning true
        else refuse 100 REJECT_INVALID "bad-prevblk"
      else mret (Some q)
  end.
(** The failure is recorded unless it may come from corrupted data. *)
Definition marking (p : ptr) (m : att unit) : att unit := fun a =>
  match m a with
  | Some (Ret false, a) =>
      let s := chain (at_node a) in
      Some (Ret false, if IsInvalid (at_state a) && negb (corruptionPossible (at_state a))
        then set_chain (set_entry s p (set_flag (entry_of s p) BLOCK_FAILED_VALID)) a else a)
  | r => r
  end.
(** Inputs that are spent at the tip must have been spent there only after the block before. *)
Fixpoint recently_spent (s : chainstate) (l : list CTxIn) (pindexPrev : option ptr) : att unit :=
  match l with
  | [] => mret tt
  | i :: l =>
      match mapStakeSpent !! prevout i with
      | None => returning false
      | Some h => bq ← value (deref (blocks s) pindexPrev); return_if (h <=? Chain.nHeight bq) false;; recently_spent s l pindexPrev
      end
  end.
Definition GetBlockPos (a : attempt) (p : ptr) : CDiskBlockPos :=
  if flag (entry_of (chain (at_node a)) p) BLOCK_HAVE_DATA then default CDiskBlockPos_null (positions (at_node a) !! p) else CDiskBlockPos_null.
(** The result of the read is not looked at. *)
Definition read_block (p : ptr) : att CBlock := fun a =>
  b ← blocks (chain (at_node a)) !! p;
  Some (Go (default (left_over p) (ReadBlockFromDisk_index HashQuark (powParams params) disk (files (at_node a)) (GetBlockPos a p) (phashBlock b))), a).
Definition spends_same (t u : CTransaction) : bool :=
  existsb (fun i => existsb (fun j => bool_decide (prevout j = prevout i)) (vin (tx t))) (vin (tx u)).
(** [last] becomes the parent of [pindexPrev] in every round. *)
Fixpoint fork_loop (fuel : nat) (s : chainstate) (t : CTransaction) (pindexPrev last : ptr) : att unit :=
  c ← value (Contains s last);
  if c : bool then mret tt else
  match fuel with
  | O => hang
  | S fuel =>
      bl ← read_block last;
      return_if (existsb (spends_same t) (vtx bl)) false;;
      bp ← value (blocks s !! pindexPrev); last ← value (pprev bp);
      fork_loop fuel s t pindexPrev last
  end.
Definition check_stake (fuel : nat) (b : CBlock) (pindexPrev : option ptr) : att unit :=
  if Block.IsProofOfStake b then
    s ← the_chain;
    t ← value (vtx b !! 1%nat);
    (if negb (fst (HaveInputs (tx t) (new_cache pcoinsTip))) then recently_spent s (vin (tx t)) pindexPrev else mret tt);;
    q ← value pindexPrev;
    fork_loop fuel s t q q
  else mret tt.
Definition store_block (b : CBlock) (p : ptr) (nHeight : Z) (dbp : option CDiskBlockPos) : att unit := fun a =>
  '(f, st, r) ← save_block MessageStart disk (files (at_node a)) (at_state a) b nHeight dbp;
  let n := at_node a in
  let n' := mkNode (chain n) f (positions n) (mapBlockSource n) in
  match r with
  | Done (pos, _) =>
      s ← ReceivedBlockTransactions (chain n) p (Z.of_nat (length (vtx b)));
      Some (Go tt, with_state st (with_node (mkNode s f (<[p := pos]> (positions n)) (mapBlockSource n)) a))
  | Fails => Some (Ret false, with_state st (with_node n' a))
  | Throws => Some (Ret false, with_state (snd (Error "System error: " st)) (with_node n' a))
  end.
(** The checks of the data. *)
Definition check_data (b : CBlock) (prev : option ptr) (fAlreadyCheckedBlock : bool) : att unit :=
  s ← the_chain;
  (if fAlreadyCheckedBlock then mret tt else checking (CheckBlock params (blocks s) (mapBlockIndex s) (chainActive s) b true true true));;
  checking (ContextualCheckBlock params (blocks s) (chainActive s) b prev).
Definition check_work (b : CBlock) (pindexPrev : option ptr) : att unit :=
  s ← the_chain;
  if is_genesis b then mret tt else work ← value (CheckWork params (blocks s) b pindexPrev); return_if (negb work) false.
Definition AcceptBlock (fuel : nat) (b : CBlock) (dbp : option CDiskBlockPos) (fAlreadyCheckedBlock : bool) : att unit :=
  pindexPrev ← previous b;
  check_work b pindexPrev;;
  ok ← call (AcceptBlockHeader b); return_if (negb ok) false;;
  s ← the_chain; pindex ← here at_pindex; p ← value pindex;
  return_if (flag (entry_of s p) BLOCK_HAVE_DATA) true;;
  bp ← value (blocks s !! p);
  marking p (check_data b (pprev bp) fAlreadyCheckedBlock);;
  check_stake fuel b pindexPrev;;
  store_block b p (Chain.nHeight bp) dbp.

(** [pfrom]: the peer the block is from.  Counting the zerocoins for the log, the masternodes
    and the wallet are left out. *)
Definition remember_source (pfrom : option Z) : att unit := update (fun a =>
  match pfrom, at_pindex a with
  | Some peer, Some p =>
      match blocks (chain (at_node a)) !! p with
      | Some b => with_node (mkNode (chain (at_node a)) (files (at_node a)) (positions (at_node a)) (<[phashBlock b := peer]> (mapBlockSource (at_node a)))) a
      | None => a
      end
  | _, _ => a
  end).
Definition activate (b : CBlock) : att unit := fun a =>
  let s := chain (at_node a) in
  '(s, st, ok) ← ActivateBestChain (activation_fuel s) s (at_state a) (Some (BlockHash b)) true;
  Some (if ok : bool then Go tt else Ret false, with_state st (set_chain s a)).
Definition ProcessNewBlock (fuel : nat) (signature : option bool) (pfrom : option Z) (b : CBlock) (dbp : option CDiskBlockPos) : att unit :=
  s ← the_chain;
  checked ← call (checking (CheckBlock params (blocks s) (mapBlockIndex s) (chainActive s) b true true true));
  signed ← value signature; return_if (negb signed) false;;
  (if negb (is_genesis b) && bool_decide (is_Some pfrom) && bool_decide (mapBlockIndex s !! prev_hash b = None)
   then update (fun a => mkAttempt (at_node a) (at_state a) (at_pindex a) true);; returning false else mret tt);;
  return_if (negb checked) false;;
  update (fun a => mkAttempt (at_node a) (at_state a) None (at_request a));;
  ret ← call (AcceptBlock fuel b dbp checked);
  remember_source pfrom;;
  return_if (negb ret) false;;
  activate b.
End accept.
