(* ===== verification/AcceptSpec.v ===== *)
(** What the acceptance of blocks guarantees: the tree and the files stay consistent whatever
    arrives, a block is stored only after all checks, and what is stored is read back; and the
    loop over the blocks of a fork, which does not end. *)
From S2P Require Import Prelude Serialize Uint256 Hashers Script Merkle Transaction Compressor Coins CoinsView TxChecks Ledger Chain Pow Block BlockChecks ChainState ChainInv ChainArrival BestChain BlockInvalid ChainSelection BlockFiles BlockStore AcceptBlock.
Set Default Proof Using "Type".

(** ** The tree *)

(** What a new header leaves of the others. *)
Lemma new_ptr_fresh s : blocks s !! new_ptr s = None.
Proof. unfold new_ptr. apply not_elem_of_dom. rewrite <- elem_of_elements. apply infinite_is_fresh. Qed.
Lemma link_block_hash h b q b' : link_block h b q = Some b' -> phashBlock b' = phashBlock b.
Proof. unfold link_block. destruct (h !! q); [|done]. cbn [mbind option_bind]. destruct (BuildSkip _ _); [|done]. by intros [= <-]. Qed.
Lemma AddToBlockIndex_shape `{NodeEnv} s p b h s' p' : AddToBlockIndex s p b h = Some (s', p') -> mapBlockIndex s !! phashBlock b = None ->
  p' = p /\ mapBlockIndex s' = <[phashBlock b := p]> (mapBlockIndex s) /\
  exists b' e', blocks s' = <[p := b']> (blocks s) /\ entries s' = <[p := e']> (entries s) /\ nStatus e' = 2 /\ phashBlock b' = phashBlock b.
Proof.
  intros E Hnew. unfold AddToBlockIndex in E. rewrite Hnew in E.
  assert (exists b', phashBlock b' = phashBlock b /\ (match mapBlockIndex s !! h with
    | Some q => b0 ← link_block (blocks s) b q; let '(m, f) := stake_fields (blocks s) b0 in Some (mkBlockIndex (phashBlock b0) (pprev b0) (pskip b0) (nHeight b0) (nVersion b0) (nTime b0) (nBits b0) f m)
    | None => Some b end = Some b')) as (b' & Hh & E').
  { destruct (mapBlockIndex s !! h) as [q|]; [|by exists b]. destruct (link_block (blocks s) b q) as [b0|] eqn:El; [|done]. cbn [mbind option_bind] in *.
    destruct (stake_fields (blocks s) b0) as [m f]. eexists. split; [|reflexivity]. cbn [phashBlock]. by apply (link_block_hash (blocks s) b q). }
  rewrite E' in E. cbn [mbind option_bind] in E. destruct (block_proof b') as [w|]; [|done]. cbn [mbind option_bind] in E. injection E as <- <-. cbn [blocks entries mapBlockIndex].
  split; [done|]. split; [done|]. eexists _, _. split; [reflexivity|]. split; [reflexivity|]. split; [vm_compute; reflexivity | done].
Qed.
Lemma link_one_status s p s' more x : link_one s p = Some (s', more) -> nStatus (entry_of s' x) = nStatus (entry_of s x).
Proof.
  unfold link_one. destruct (blocks s !! p) as [b|]; [|done]. cbn [mbind option_bind]. intros [= <- _].
  assert (forall s1, entries s1 = <[p := mkEntry (nChainWork (entry_of s p)) (nTx (entry_of s p)) (u32 (match pprev b with Some q => nChainTx (entry_of s q) | None => 0 end + nTx (entry_of s p))) (nStatus (entry_of s p)) (nBlockSequenceId s)]> (entries s) ->
    nStatus (entry_of s1 x) = nStatus (entry_of s x)) as Hs.
  { intros s1 E. unfold entry_of at 1. rewrite E. destruct (decide (p = x)) as [<-|Hne]; [by rewrite lookup_insert_eq | by rewrite lookup_insert_ne]. }
  destruct (Tip _) as [t|]; [destruct (worse _ _ _)|]; by apply Hs.
Qed.
Lemma link_loop_status fuel : forall s queue s' x, link_loop fuel s queue = Some s' -> nStatus (entry_of s' x) = nStatus (entry_of s x).
Proof.
  induction fuel as [|fuel IH]; intros s [|p queue] s' x; cbn [link_loop]; try done; try by intros [= ->].
  destruct (link_one s p) as [[s1 more]|] eqn:E; [|done]. cbn [mbind option_bind]. intros El. rewrite (IH _ _ _ x El). by apply (link_one_status s p s1 more).
Qed.
Lemma received_status `{NodeEnv} s p n s' x : ReceivedBlockTransactions s p n = Some s' -> bit (entry_of s' x) 3 = bit (entry_of s x) 3 || bool_decide (x = p).
Proof.
  unfold ReceivedBlockTransactions. destruct (blocks s !! p) as [b|]; [|done]. cbn [mbind option_bind]. set (e := RaiseValidity _ _). set (r := set_entry s p e).
  assert (bit e 3 = true) as He by (unfold e; rewrite bit_Raise by (unfold BLOCK_VALID_TRANSACTIONS; lia); unfold bit; cbn [nStatus]; rewrite Z.lor_spec; apply orb_true_r).
  assert (bit (entry_of r x) 3 = bit (entry_of s x) 3 || bool_decide (x = p)) as Hr.
  { unfold r, entry_of, set_entry. cbn [entries set_entries]. destruct (decide (p = x)) as [<-|Hne].
    - rewrite lookup_insert_eq, bool_decide_eq_true_2, orb_true_r by done. exact He.
    - rewrite lookup_insert_ne, bool_decide_eq_false_2, orb_false_r by congruence. done. }
  intros E. assert (nStatus (entry_of s' x) = nStatus (entry_of r x)) as Es; [|unfold bit in *; by rewrite Es].
  destruct (pprev b) as [q|]; [|by eapply link_loop_status].
  destruct (negb _); [by eapply link_loop_status|]. destruct (block_IsValid _ _); by injection E as <-.
Qed.

(** A header that turns out to be invalid. *)
Lemma mark_consistent s p : consistent s -> is_Some (blocks s !! p) -> bit (entry_of s p) 3 = false ->
  let s' := set_entry s p (set_flag (entry_of s p) BLOCK_FAILED_VALID) in consistent s' /\ forall x, bit (entry_of s' x) 3 = bit (entry_of s x) 3.
Proof.
  intros Hc Hp Hd s'. destruct (consistent_Mid s Hc) as (Hi & t & Hr & Hm). assert (forall x, nChainTx (entry_of s x) <> 0 -> anc (blocks s) x p -> False) as Hno.
  { intros x Hx Ha. revert Hx. induction Ha as [x [b Hb]|x b y z Hb Hy Ha IH]; intros Hx.
    - apply (i_linked s Hi x b Hb) in Hx as [Hx _]. congruence.
    - apply (i_linked s Hi x b Hb) in Hx as [_ Hx]. by apply IH, Hx. }
  assert (p ∉ setBlockIndexCandidates s) as Hpc.
  { intros Hin. apply (i_cand s Hi) in Hin as [_ Hn]. apply (Hno p Hn). by apply anc_refl. }
  destruct (mark_valid_spec s p Hi Hp) as (Hi' & Hf & _ & _ & _ & Hmid).
  assert (erase_candidate (set_entry s p (set_flag (entry_of s p) BLOCK_FAILED_VALID)) p = s') as E.
  { unfold erase_candidate, s', set_entry, set_entries, set_candidates. cbn. f_equal. set_solver. }
  rewrite E in *. split; [split; [done|]; exists t|].
  - destruct Hm as (Ht & Hpt & Hm). assert (Mid s' t t) as (Ht' & _ & Href & Hw).
    { apply Hmid; [by apply Rest_Mid| |]; intros Ha; (eapply Hno; [|exact Ha]); apply Hpt. }
    done.
  - intros x. by destruct (r_entry _ _ Hf x) as (_ & _ & _ & _ & _ & -> & _).
Qed.

(** ** The node *)

Section spec.
Context {Base : Type} `{CCoinsView Base} `{NodeEnv} `{BlockEnv} `{ZerocoinChecks} `{AcceptBlockEnv} `{PubKeyLaws}.
Context (params : BlockParams) (pcoinsTip : CCoinsViewCache Base).

(** Every block whose data is there lies at its position. *)
Definition data_of (n : node) (p : ptr) : Prop := is_Some (blocks (chain n) !! p) /\ bit (entry_of (chain n) p) 3 = true.
Definition holds_block (n : node) (p : ptr) (b : CBlock) : Prop := data_of n p /\ exists bp, blocks (chain n) !! p = Some bp /\ phashBlock bp = BlockHash b.
Definition placed (n : node) (log : list stored) : Prop := forall p b, blocks (chain n) !! p = Some b -> bit (entry_of (chain n) p) 3 = true ->
  exists pos bl, positions n !! p = Some pos /\ In (SBlock pos bl) log /\ BlockHash bl = phashBlock b.
Definition node_ok (n : node) (log : list stored) : Prop :=
  consistent (chain n) /\ indexed (chain n) /\ files_ok (files n) /\ Forall (kept_stored (files n)) log /\ placed n log.
Definition same_data (n n' : node) : Prop := forall p, data_of n' p <-> data_of n p.

(** The block before is known; when the header is new its work can be added, and otherwise it
    is that of a block on the same one. *)
Definition fits (s : chainstate) (b : CBlock) (q : ptr) : Prop :=
  is_genesis params b = false /\ mapBlockIndex s !! prev_hash b = Some q /\
  (mapBlockIndex s !! BlockHash b = None -> exists c w, blocks s !! q = Some c /\ nHeight c + 1 < 2 ^ 31 - 1 /\ is_u32 (hBits b) /\ block_proof (index_of b) = Some w /\ 0 < w /\
    0 <= nChainWork (entry_of s q) + w < 2 ^ 256) /\
  forall p bp, mapBlockIndex s !! BlockHash b = Some p -> blocks s !! p = Some bp -> pprev bp = Some q.

(** The steps that only look at the node. *)
Definition looks {A} (m : att A) : Prop := forall a r a', m a = Some (r, a') -> at_node a' = at_node a /\ at_pindex a' = at_pindex a /\ (r <> Ret true).
Lemma looks_ret {A} (x : A) : looks (mret x).
Proof. by intros a r a' [= <- <-]. Qed.
Lemma looks_refuse {A} l c z : looks (refuse (A := A) l c z).
Proof. by intros a r a' [= <- <-]. Qed.
Lemma looks_value {A} (o : option A) : looks (value o).
Proof. intros a r a'. unfold value. destruct o; [|done]. by intros [= <- <-]. Qed.
Lemma looks_here {A} (f : attempt -> A) : looks (here f).
Proof. by intros a r a' [= <- <-]. Qed.
Lemma looks_checking m : looks (checking m).
Proof. intros a r a'. unfold checking. destruct (m (at_state a)) as [[[]]|]; [by intros [= <- <-]..|done]. Qed.
Lemma looks_return cond : looks (return_if cond false).
Proof. unfold return_if. destruct cond; by intros a r a' [= <- <-]. Qed.
Lemma looks_hang {A} : looks (hang (A := A)).
Proof. by intros a r a' [= <- <-]. Qed.
Lemma looks_bind {A B} (m : att A) (f : A -> att B) : looks m -> (forall x, looks (f x)) -> looks (m ≫= f).
Proof.
  intros Hm Hf a r a'. unfold mbind, att_bind. destruct (m a) as [[[x|c|] a1]|] eqn:E; [|intros [= <- <-]|intros [= <- <-]|done]; apply Hm in E as (E1 & E2 & E3).
  - intros Ef. apply Hf in Ef as (-> & -> & Ef). done.
  - split; [done|]. split; [done|]. intros [= ->]. by apply E3.
  - done.
Qed.
Lemma looks_read p : looks (read_block params p).
Proof. intros a r a'. unfold read_block. destruct (blocks _ !! p); [|done]. by intros [= <- <-]. Qed.
Lemma looks_fork fuel s t q : forall last, looks (fork_loop params fuel s t q last).
Proof.
  induction fuel as [|fuel IH]; intros last; cbn [fork_loop]; (apply looks_bind; [apply looks_value|]; intros [|]; [apply looks_ret|]); [apply looks_hang|].
  apply looks_bind; [apply looks_read|]. intros bl. apply looks_bind; [apply looks_return|]. intros _. apply looks_bind; [apply looks_value|]. intros bp. apply looks_bind; [apply looks_value | apply IH].
Qed.
Lemma looks_recent s l q : looks (recently_spent s l q).
Proof.
  induction l as [|i l IH]; cbn [recently_spent]; [apply looks_ret|]. destruct (mapStakeSpent !! _); [|by intros a r a' [= <- <-]].
  apply looks_bind; [apply looks_value|]. intros bq. apply looks_bind; [apply looks_return | done].
Qed.
Lemma looks_stake fuel b q : looks (check_stake params pcoinsTip fuel b q).
Proof.
  unfold check_stake. destruct (Block.IsProofOfStake b); [|apply looks_ret]. apply looks_bind; [apply looks_here|]. intros s. apply looks_bind; [apply looks_value|]. intros t.
  apply looks_bind; [destruct (negb _); [apply looks_recent | apply looks_ret]|]. intros _. apply looks_bind; [apply looks_value|]. intros p. apply looks_fork.
Qed.
Lemma looks_data b q f : looks (check_data params b q f).
Proof.
  unfold check_data. apply looks_bind; [apply looks_here|]. intros s. apply looks_bind; [destruct f; [apply looks_ret | apply looks_checking]|]. intros _. apply looks_checking.
Qed.
Lemma looks_work b q : looks (check_work params b q).
Proof.
  unfold check_work. apply looks_bind; [apply looks_here|]. intros s. destruct (is_genesis params b); [apply looks_ret|]. apply looks_bind; [apply looks_value|]. intros w. apply looks_return.
Qed.
Lemma looks_header_previous s b : looks (header_previous params s b).
Proof.
  unfold header_previous. destruct (is_genesis _ _); [apply looks_ret|]. destruct (_ !! _); [|apply looks_refuse]. destruct (flag _ _); [apply looks_refuse | apply looks_ret].
Qed.

(** ** Headers *)

Definition header_known (b : CBlock) (q : ptr) (a1 : attempt) : Prop := exists p bp, at_pindex a1 = Some p /\ blocks (chain (at_node a1)) !! p = Some bp /\ phashBlock bp = BlockHash b /\ pprev bp = Some q /\
  flag (entry_of (chain (at_node a1)) p) BLOCK_FAILED_MASK = false /\ flag (entry_of (chain (at_node a1)) q) BLOCK_FAILED_MASK = false.
Definition header_done (log : list stored) (b : CBlock) (q : ptr) (a : attempt) (r : flow unit) (a1 : attempt) : Prop :=
  node_ok (at_node a1) log /\ files (at_node a1) = files (at_node a) /\ same_data (at_node a) (at_node a1) /\
  match r with
  | Go _ => header_known b q a1 /\ (at_node a1 = at_node a \/ exists p, at_pindex a1 = Some p /\ bit (entry_of (chain (at_node a1)) p) 3 = false)
  | Ret c => c = false /\ at_node a1 = at_node a
  | Hangs => False
  end.
Lemma same_data_refl n : same_data n n.
Proof. by intros p. Qed.
Lemma entry_insert s s' p e x : entries s' = <[p := e]> (entries s) -> entry_of s' x = if decide (p = x) then e else entry_of s x.
Proof. intros E. unfold entry_of. rewrite E. case_decide as Ed; [subst; by rewrite lookup_insert_eq | by rewrite lookup_insert_ne]. Qed.
Lemma new_header_done log b q s' p' (a : attempt) : let n := at_node a in let s := chain n in node_ok n log -> fits s b q -> flag (entry_of s q) BLOCK_FAILED_MASK = false ->
  mapBlockIndex s !! BlockHash b = None -> AddToBlockIndex s (new_ptr s) (index_of b) (prev_hash b) = Some (s', p') ->
  let n' := mkNode s' (files n) (positions n) (mapBlockSource n) in
  node_ok n' log /\ same_data n n' /\ bit (entry_of s' p') 3 = false /\
  exists bp, blocks s' !! p' = Some bp /\ phashBlock bp = BlockHash b /\ pprev bp = Some q /\ flag (entry_of s' p') BLOCK_FAILED_MASK = false /\ flag (entry_of s' q) BLOCK_FAILED_MASK = false.
Proof.
  intros n s (Hc & Hix & Hf & Hk & Hp) (Hg & Hq & Hnew & _) Hfq Hi E n'. destruct (Hnew Hi) as (c & w & Hbq & Hh & Hbits & Hw & Hw0 & Hwb).
  destruct (consistent_Mid s Hc) as (HI & t & Hr & _). pose proof (new_ptr_fresh s) as Hfresh.
  destruct (AddToBlockIndex_shape s (new_ptr s) (index_of b) (prev_hash b) s' p' E Hi) as (-> & Eix & b' & e' & Eb & Ee & Est & Ehash).
  destruct (header_consistent s t (new_ptr s) q (index_of b) (prev_hash b) w c HI Hr Hfresh Hi Hq Hbq Hh Hbits Hw Hw0 Hwb) as (s2 & E2 & HI2 & Hr2 & _ & b2 & Hb2 & Hprev & _ & Hhash & _).
  rewrite E in E2. injection E2 as <-. set (p := new_ptr s) in *.
  assert (forall x, entry_of s' x = if decide (p = x) then e' else entry_of s x) as He by (intros x; by apply entry_insert).
  assert (q <> p) as Hqp by (intros ->; congruence).
  assert (bit e' 3 = false) as Hb3 by (unfold bit; by rewrite Est).
  assert (forall x, data_of n' x <-> data_of n x) as Hd.
  { intros x. unfold data_of. cbn [n' chain]. change (chain n) with s. rewrite He, Eb. case_decide as Ex.
    - subst x. split; [intros [_ Hx]; congruence | intros [[? Hx] _]; congruence].
    - by rewrite lookup_insert_ne. }
  split; [split; [|split; [|split; [done|split; [done|]]]]|split; [done|split]].
  - split; [done | by exists t].
  - intros k x. cbn [n' chain]. rewrite Eix, Eb. destruct (decide (phashBlock (index_of b) = k)) as [<-|Hk'].
    + rewrite lookup_insert_eq. intros [= <-]. exists b'. by rewrite lookup_insert_eq.
    + rewrite lookup_insert_ne by done. intros Hx. destruct (Hix k x Hx) as (bx & Hbx & Ebx). exists bx. rewrite lookup_insert_ne; [done|]. intros <-. change (chain n) with s in Hbx. congruence.
  - intros x bx Hx Hbit. cbn [n' chain positions] in *. rewrite Eb in Hx. rewrite He in Hbit. case_decide as Ex; [congruence|]. rewrite lookup_insert_ne in Hx by done. by apply Hp.
  - by rewrite He, decide_True.
  - exists b2. split; [done|]. split; [by rewrite Hhash|]. split; [done|]. split; [|rewrite He, decide_False by congruence; done].
    rewrite He, decide_True by done. unfold flag. by rewrite Est.
Qed.
Lemma header_step log b q a r a1 : node_ok (at_node a) log -> fits (chain (at_node a)) b q -> flag (entry_of (chain (at_node a)) q) BLOCK_FAILED_MASK = false ->
  AcceptBlockHeader params b a = Some (r, a1) -> header_done log b q a r a1.
Proof.
  intros Hn Hfit Hfq. pose proof Hn as (_ & Hix & _). pose proof Hfit as (Hg & Hq & _ & Hsame). unfold AcceptBlockHeader. unfold mbind at 1, att_bind at 1, the_chain, here.
  destruct (mapBlockIndex (chain (at_node a)) !! BlockHash b) as [p|] eqn:Ei.
  - unfold mbind, att_bind, update. destruct (Hix _ _ Ei) as (bp & Hbp & Ehash). destruct (flag (entry_of (chain (at_node a)) p) BLOCK_FAILED_MASK) eqn:Ef.
    + unfold refuse. intros [= <- <-]. split; [done|]. split; [done|]. split; [apply same_data_refl|]. done.
    + intros [= <- <-]. split; [done|]. split; [done|]. split; [apply same_data_refl|]. split; [|by left]. exists p, bp. split; [done|]. split; [done|]. split; [done|]. split; [by eapply Hsame | done].
  - intros E. unfold mbind at 1, att_bind at 1 in E. destruct (checking _ a) as [[[[]|c|] a2]|] eqn:E1; [| | |done]; pose proof (looks_checking _ _ _ _ E1) as (L1 & _ & L1').
    2: { injection E as <- <-. destruct c; [done|]. unfold header_done. rewrite L1. split; [done|]. split; [done|]. split; [apply same_data_refl | done]. }
    2: { unfold checking in E1. by destruct (CheckBlockHeader _ _ _ _) as [[[] ?]|]. }
    unfold header_previous in E. rewrite Hg, Hq, Hfq in E. unfold mbind at 1, att_bind at 1 in E. cbn [mret att_ret] in E.
    unfold mbind at 1, att_bind at 1 in E. destruct (checking _ a2) as [[[[]|c|] a3]|] eqn:E2; [| | |done]; pose proof (looks_checking _ _ _ _ E2) as (L2 & _ & L2').
    2: { injection E as <- <-. destruct c; [done|]. unfold header_done. rewrite L2, L1. split; [done|]. split; [done|]. split; [apply same_data_refl | done]. }
    2: { unfold checking in E2. by destruct (ContextualCheckBlockHeader _ _ _ _ _ _ _) as [[[] ?]|]. }
    destruct (AddToBlockIndex _ _ _ _) as [[s' p']|] eqn:E3; [|done]. unfold value, mbind, att_bind, update in E. injection E as <- <-.
    destruct (new_header_done log b q s' p' a Hn Hfit Hfq Ei E3) as (N1 & N2 & N3 & bp & N4 & N5 & N6 & N7 & N8).
    unfold header_done, set_pindex, set_chain, with_node. cbn [at_node at_pindex chain files positions mapBlockSource]. rewrite L2, L1. split; [done|]. split; [done|]. split; [done|].
    split; [exists p', bp; done | right; by exists p'].
Qed.

(** ** Blocks *)

Lemma bind_cases {A B} (m : att A) (f : A -> att B) a r a' : (m ≫= f) a = Some (r, a') ->
  (exists x a1, m a = Some (Go x, a1) /\ f x a1 = Some (r, a')) \/ (exists c, m a = Some (Ret c, a') /\ r = Ret c) \/ (m a = Some (Hangs, a') /\ r = Hangs).
Proof. unfold mbind, att_bind. destruct (m a) as [[[x|c|] a1]|]; [eauto | intros [= <- <-]; eauto | intros [= <- <-]; eauto | done]. Qed.
Lemma call_cases m a r a' : call m a = Some (r, a') -> (exists c, r = Go c /\ (m a = Some (Ret c, a') \/ c = true /\ m a = Some (Go tt, a'))) \/ (r = Hangs /\ m a = Some (Hangs, a')).
Proof. unfold call. destruct (m a) as [[[[]|c|] a1]|]; [| | |done]; intros [= <- <-]; [left; exists true; auto | left; exists c; auto | by right]. Qed.

(** The transactions of every path can be counted. *)
Definition counts (s : chainstate) (p : ptr) (nVtx : Z) : Prop :=
  forall x, is_Some (blocks s !! x) -> path_tx (blocks s) (fun y => if decide (y = p) then nVtx else nTx (entry_of s y)) x < 2 ^ 32.
(** Blocks from the wire, with a transaction, of less than 128 MiB. *)
Definition storable (b : CBlock) : Prop := block_ok true b /\ vtx b <> [] /\ Z.of_nat (length (block_wire true b)) + 8 < MAX_BLOCKFILE_SIZE.
Definition file_room (n : node) : Prop := Z.of_nat (length (vinfoBlockFile (files n))) + 2 < 2 ^ 31.
Definition block_stored (log : list stored) (b : CBlock) (p : ptr) (a : attempt) (r : flow unit) (a1 : attempt) : Prop :=
  exists l, node_ok (at_node a1) (l ++ log) /\ (at_pindex a1 = at_pindex a /\ forall x, data_of (at_node a) x -> data_of (at_node a1) x) /\
  match r with
  | Go _ => exists pos, l = [SBlock pos b] /\ positions (at_node a1) !! p = Some pos /\ holds_block (at_node a1) p b
  | Ret c => c = false /\ l = [] /\ same_data (at_node a) (at_node a1)
  | Hangs => False
  end.
Lemma kept_stored_keeps s s' log : keeps s s' -> Forall (kept_stored s) log -> Forall (kept_stored s') log.
Proof. intros Hk. apply Forall_impl. intros x [H1' H2']. split; auto. Qed.
Lemma store_step (Hstart : length MessageStart = 4%nat) (Hdisk : reliable disk = true) log b q (a : attempt) p bp height :
  let s := chain (at_node a) in node_ok (at_node a) log -> storable b -> file_room (at_node a) ->
  blocks s !! p = Some bp -> phashBlock bp = BlockHash b -> pprev bp = Some q -> flag (entry_of s p) BLOCK_FAILED_MASK = false -> flag (entry_of s q) BLOCK_FAILED_MASK = false ->
  bit (entry_of s p) 3 = false -> counts s p (Z.of_nat (length (vtx b))) ->
  exists r a1, store_block b p height None a = Some (r, a1) /\ block_stored log b p a r a1.
Proof using H0 H5.
  intros s (Hc & Hix & Hf & Hk & Hpl) (Hb & Hne & Hsize) Hroom Hp Hh Hq Hfp Hfq Hbit Hcounts. unfold store_block.
  destruct (save_block_spec MessageStart Hstart disk (files (at_node a)) (at_state a) b height Hf) as (f' & st & r & -> & Hkeep & Hf' & Hr); [done|]. cbn [mbind option_bind].
  pose proof (kept_stored_keeps _ _ _ Hkeep Hk) as Hk'.
  assert (forall n', chain n' = s -> files n' = f' -> positions n' = positions (at_node a) -> node_ok n' log /\ same_data (at_node a) n') as Hsame.
  { intros n' E1 E2 E3. split; [split; [by rewrite E1|split; [by rewrite E1|split; [by rewrite E2|split; [by rewrite E2|]]]]|].
    - intros x bx. rewrite E1, E3. apply Hpl.
    - intros x. unfold data_of. by rewrite E1. }
  destruct r as [[pos b']| |].
  - destruct Hr as (-> & -> & Hnull & Hfile & Hr). destruct (consistent_Mid s Hc) as (HI & t & Hrest & _).
    assert (0 < Z.of_nat (length (vtx b)) < 2 ^ 32) as Hlen.
    { destruct Hb as (_ & [Hb _] & _). unfold MAX_SIZE in Hb. destruct (vtx b); [done|]. cbn [length] in *. lia. }
    destruct (received_consistent s t p q bp (Z.of_nat (length (vtx b))) HI Hrest Hp Hq Hlen Hbit Hfp Hfq Hcounts) as (s' & E & HI' & Hrest' & Eb & Ei & _). change (chain (at_node a)) with s. rewrite E. cbn [mbind option_bind].
    assert (forall x, bit (entry_of s' x) 3 = bit (entry_of s x) 3 || bool_decide (x = p)) as Hst by (intros x; by apply (received_status s p (Z.of_nat (length (vtx b))))).
    eexists _, _. split; [reflexivity|]. exists [SBlock pos b]. unfold node_ok, data_of. cbn [with_state with_node at_node chain files positions at_pindex app].
    split; [split; [split; [done | by exists t]|split; [|split; [done|split]]]|split; [split; [done|]|]].
    + intros k x. rewrite Ei, Eb. apply Hix.
    + constructor; [|done]. split; [split; [exact Hb | exact Hnull]|]. by apply Hr.
    + intros x bx. cbn [chain positions]. rewrite Eb, Hst. intros Hx Hbx. destruct (decide (x = p)) as [->|Hxp].
      * rewrite lookup_insert_eq. exists pos, b. split; [done|]. split; [by left|]. rewrite <- Hh. congruence.
      * rewrite bool_decide_eq_false_2, orb_false_r in Hbx by done. rewrite lookup_insert_ne by congruence. destruct (Hpl x bx Hx Hbx) as (pos' & bl & ? & ? & ?). exists pos', bl. split; [done|]. split; [by right | done].
    + intros x. change (chain (at_node a)) with s. rewrite Eb, Hst. intros [? ->]. done.
    + exists pos. split; [done|]. rewrite lookup_insert_eq. split; [done|]. unfold holds_block, data_of. cbn [chain]. rewrite Eb, Hst, bool_decide_eq_true_2, orb_true_r by done. eauto.
  - eexists _, _. split; [reflexivity|]. exists []. cbn [with_state with_node at_node at_pindex app]. destruct (Hsame (mkNode s f' (positions (at_node a)) (mapBlockSource (at_node a)))) as [N1 N2]; [done..|]. split; [done|]. split; [split; [done | intros x; apply N2]|]. done.
  - eexists _, _. split; [reflexivity|]. exists []. cbn [with_state with_node at_node at_pindex app]. destruct (Hsame (mkNode s f' (positions (at_node a)) (mapBlockSource (at_node a)))) as [N1 N2]; [done..|]. split; [done|]. split; [split; [done | intros x; apply N2]|]. done.
Qed.
Lemma marking_step log p m a r a1 : looks m -> node_ok (at_node a) log -> is_Some (blocks (chain (at_node a)) !! p) -> bit (entry_of (chain (at_node a)) p) 3 = false -> marking p m a = Some (r, a1) ->
  node_ok (at_node a1) log /\ at_pindex a1 = at_pindex a /\ same_data (at_node a) (at_node a1) /\ r <> Ret true /\ (r <> Ret false -> at_node a1 = at_node a /\ m a = Some (r, a1)).
Proof.
  intros Hm Hn Hp Hd. unfold marking. destruct (m a) as [[r0 a0]|] eqn:E; [|done]. destruct (Hm _ _ _ E) as (E1 & E2 & E3).
  destruct r0 as [x|[|]|]; [intros [= <- <-]; rewrite E1; done | done | | intros [= <- <-]; rewrite E1; done].
  destruct (_ && _); intros [= <- <-]; [|rewrite E1; split; [done|]; split; [done|]; split; [apply same_data_refl|]; by split].
  unfold set_chain, with_node. cbn [at_node at_pindex]. rewrite E1. destruct Hn as (Hc & Hix & Hf & Hk & Hpl). destruct (mark_consistent (chain (at_node a)) p Hc Hp Hd) as [Hc' Hb].
  split; [split; [done|split; [exact Hix|split; [done|split; [done|]]]]|split; [done|split; [|done]]].
  - intros x bx Hx Hbx. cbn [chain] in Hbx. rewrite Hb in Hbx. by apply Hpl.
  - intros x. unfold data_of. cbn [chain]. by rewrite Hb.
Qed.

(** What the checks of [AcceptBlock] find before the block is stored. *)
Definition passes (fuel : nat) (b : CBlock) (q : ptr) (f : bool) (a : attempt) : Prop :=
  CheckWork params (blocks (chain (at_node a))) b (Some q) = Some true /\
  exists a1 a2 a3, call (AcceptBlockHeader params b) a = Some (Go true, a1) /\ check_data params b (Some q) f a1 = Some (Go tt, a2) /\ check_stake params pcoinsTip fuel b (Some q) a2 = Some (Go tt, a3).
(** None of them fails an assertion or reads out of range. *)
Definition checks_return (fuel : nat) (b : CBlock) (q : ptr) (f : bool) (a : attempt) : Prop :=
  is_Some (CheckWork params (blocks (chain (at_node a))) b (Some q)) /\ is_Some (AcceptBlockHeader params b a) /\
  forall a1, call (AcceptBlockHeader params b) a = Some (Go true, a1) -> is_Some (check_data params b (Some q) f a1) /\
    forall a2, check_data params b (Some q) f a1 = Some (Go tt, a2) -> is_Some (check_stake params pcoinsTip fuel b (Some q) a2).
Definition counts_after (b : CBlock) (a : attempt) : Prop :=
  forall a1 p, call (AcceptBlockHeader params b) a = Some (Go true, a1) -> at_pindex a1 = Some p -> counts (chain (at_node a1)) p (Z.of_nat (length (vtx b))).
Definition accept_done (fuel : nat) (b : CBlock) (q : ptr) (f : bool) (log : list stored) (a : attempt) (r : flow unit) (a' : attempt) : Prop :=
  exists l, node_ok (at_node a') (l ++ log) /\ (forall x, data_of (at_node a) x -> data_of (at_node a') x) /\
  match r with
  | Go _ => passes fuel b q f a /\ exists p pos, l = [SBlock pos b] /\ at_pindex a' = Some p /\ positions (at_node a') !! p = Some pos /\ holds_block (at_node a') p b
  | Ret true => l = [] /\ at_node a' = at_node a /\ exists p, at_pindex a' = Some p /\ holds_block (at_node a) p b
  | _ => l = [] /\ same_data (at_node a) (at_node a')
  end.
Lemma passed_same fuel b q f log a r a' : node_ok (at_node a) log -> at_node a' = at_node a -> r <> Ret true -> (forall x, r <> Go x) -> accept_done fuel b q f log a r a'.
Proof. intros Hn E H1' H2'. exists []. rewrite E. split; [done|]. split; [done|]. destruct r as [x|[|]|]; [by destruct (H2' x) | done | split; [done | apply same_data_refl] | split; [done | apply same_data_refl]]. Qed.
Lemma accept_step (Hstart : length MessageStart = 4%nat) (Hdisk : reliable disk = true) fuel log b q f a r a' :
  node_ok (at_node a) log -> fits (chain (at_node a)) b q -> flag (entry_of (chain (at_node a)) q) BLOCK_FAILED_MASK = false -> storable b -> file_room (at_node a) -> counts_after b a ->
  AcceptBlock params pcoinsTip fuel b None f a = Some (r, a') -> accept_done fuel b q f log a r a'.
Proof using H0 H5.
  intros Hn Hfit Hfq Hb Hroom Hcounts E. pose proof Hfit as (Hg & Hq & _). unfold AcceptBlock in E.
  assert (previous params b a = Some (Go (Some q), a)) as Eprev by (unfold previous, mbind, att_bind, the_chain, here; by rewrite Hg, Hq, Hfq).
  apply bind_cases in E as [(x & a0 & E0 & E)|[(c & E0 & ->)|[E0 ->]]]; rewrite Eprev in E0; [injection E0 as <- <- | discriminate E0 | discriminate E0].
  apply bind_cases in E as [([] & a0 & E0 & E)|[(c & E0 & ->)|[E0 ->]]]; pose proof (looks_work _ _ _ _ _ E0) as (L1 & L2 & L3); [| by apply passed_same | by apply passed_same].
  assert (CheckWork params (blocks (chain (at_node a))) b (Some q) = Some true /\ a0 = a) as [Ework ->].
  { revert E0. unfold check_work, mbind, att_bind, the_chain, here, value. rewrite Hg. destruct (CheckWork _ _ _ _) as [[|]|]; [|done|done]. intros [= <-]. done. }
  apply bind_cases in E as [(ok & a1 & Eh & E)|[(c & E0' & ->)|[E0' ->]]].
  2: { apply call_cases in E0' as [(c' & [=] & _)|([=] & _)]. }
  2: { apply call_cases in E0' as [(c' & [=] & _)|(_ & E1)]. apply (header_step log b q) in E1 as (_ & _ & _ & []); done. }
  pose proof Eh as Eh'. apply call_cases in Eh' as [(ok' & [= <-] & Ec)|([=] & _)].
  destruct ok; cycle 1.
  { destruct Ec as [Ec|[[=] _]]. apply (header_step log b q) in Ec as (_ & _ & _ & _ & En); [|done..]. cbn [negb return_if returning] in E. unfold mbind at 1, att_bind at 1, returning in E. injection E as <- <-. by apply passed_same. }
  assert (header_done log b q a (Go tt) a1) as (N1 & Ef & N2 & (p & bp & Epi & Hp & Hh & Hprev & Hfp & Hfq1) & N3).
  { destruct Ec as [Ec|[_ Ec]]; apply (header_step log b q) in Ec; try done. by destruct Ec as (_ & _ & _ & [=] & _). }
  cbn [negb return_if] in E. unfold mbind at 1, att_bind at 1 in E. cbn [mret att_ret] in E.
  unfold mbind at 1, att_bind at 1, the_chain, here in E. unfold mbind at 1, att_bind at 1 in E. rewrite Epi in E. unfold mbind at 1, att_bind at 1, value in E.
  destruct (flag (entry_of (chain (at_node a1)) p) BLOCK_HAVE_DATA) eqn:Ed; rewrite flag_data in Ed.
  { unfold mbind at 1, att_bind at 1, return_if, returning in E. injection E as <- <-. exists []. split; [done|]. split; [intros x; apply N2|]. split; [done|].
    destruct N3 as [En|(p' & Ep' & Hp')]; [|congruence]. split; [done|]. exists p. split; [done|]. rewrite <- En. split; [split; [eauto | done] | by exists bp]. }
  unfold mbind at 1, att_bind at 1, return_if in E. cbn [mret att_ret] in E. rewrite Hp in E. unfold mbind at 1, att_bind at 1, value in E. rewrite Hprev in E.
  assert (file_room (at_node a1)) as Hroom1 by (unfold file_room; by rewrite Ef).
  apply bind_cases in E as [([] & a2 & Em & E)|[(c & Em & ->)|[Em ->]]]; apply (marking_step log) in Em as (M1 & M2 & M3 & M4 & M5); try done; try apply looks_data; try by eauto.
  2: { destruct c; [done|]. exists []. split; [done|]. split; [intros x; by rewrite (M3 x), (N2 x)|]. split; [done|]. intros x. by rewrite (M3 x), (N2 x). }
  2: { exists []. split; [done|]. split; [intros x; by rewrite (M3 x), (N2 x)|]. split; [done|]. intros x. by rewrite (M3 x), (N2 x). }
  destruct M5 as [En2 Edata]; [done|].
  assert (same_data (at_node a) (at_node a2)) as N2' by (by rewrite En2).
  apply bind_cases in E as [([] & a3 & Es & E)|[(c & Es & ->)|[Es ->]]]; pose proof (looks_stake _ _ _ _ _ _ Es) as (S1 & S2 & S3).
  2: { destruct c; [done|]. exists []. rewrite S1. split; [done|]. split; [intros x; apply N2' | done]. }
  2: { exists []. rewrite S1. split; [done|]. split; [intros x; apply N2' | done]. }
  assert (at_node a3 = at_node a1) as En3 by congruence. rewrite En2 in *.
  destruct (store_step Hstart Hdisk log b q a3 p bp (Chain.nHeight bp)) as (r' & a4 & E4 & l & K1 & [K2 Kd] & K3); rewrite ?En3; try done.
  { by apply (Hcounts a1). }
  rewrite E in E4. injection E4 as <- <-. exists l. split; [done|]. split; [intros x Hx; apply Kd; rewrite En3; by apply N2|]. destruct r as [[]|c|]; [|destruct K3 as (-> & -> & K3); split; [done|]|done].
  - destruct K3 as (pos & -> & K3 & K4). split; [split; [done|]; by exists a1, a2, a3|]. exists p, pos. split; [done|]. split; [congruence | done].
  - intros x. rewrite (K3 x), En3. apply N2.
Qed.

(** It returns when the checks do. *)
Lemma bind_some {A B} (m : att A) (f : A -> att B) a : is_Some (m a) -> (forall x a1, m a = Some (Go x, a1) -> is_Some (f x a1)) -> is_Some ((m ≫= f) a).
Proof. intros [[[x|c|] a1] E] Hf; unfold mbind, att_bind; rewrite E; [by apply Hf | done..]. Qed.
Lemma accept_returns (Hstart : length MessageStart = 4%nat) (Hdisk : reliable disk = true) fuel log b q f a :
  node_ok (at_node a) log -> fits (chain (at_node a)) b q -> flag (entry_of (chain (at_node a)) q) BLOCK_FAILED_MASK = false -> storable b -> file_room (at_node a) -> counts_after b a ->
  checks_return fuel b q f a -> is_Some (AcceptBlock params pcoinsTip fuel b None f a).
Proof using H0 H5.
  intros Hn Hfit Hfq Hb Hroom Hcounts (Hw & Hh & Hdata). pose proof Hfit as (Hg & Hq & _). unfold AcceptBlock.
  assert (previous params b a = Some (Go (Some q), a)) as Eprev by (unfold previous, mbind, att_bind, the_chain, here; by rewrite Hg, Hq, Hfq).
  apply bind_some; [by rewrite Eprev|]. intros x a0. rewrite Eprev. intros [= <- <-]. apply bind_some.
  { unfold check_work. rewrite Hg. destruct Hw as [w Ew]. unfold mbind, att_bind, the_chain, here, value. rewrite Ew. unfold return_if. by destruct w. }
  intros [] a0 E0. assert (a0 = a) as ->.
  { revert E0. unfold check_work, mbind, att_bind, the_chain, here, value. rewrite Hg. destruct (CheckWork _ _ _ _) as [[|]|]; [|done|done]. by intros [= <-]. }
  apply bind_some. { destruct Hh as [[[|c|] a1] E]; unfold call; by rewrite E. }
  intros ok a1 Eh. apply bind_some; [unfold return_if; by destruct ok|]. intros [] a1'. destruct ok; [|done]. intros [= <-]. destruct (Hdata a1 Eh) as [Hd Hst].
  assert (header_done log b q a (Go tt) a1) as (N1 & Ef & N2 & (p & bp & Epi & Hp & Hhash & Hprev & Hfp & Hfq1) & N3).
  { pose proof Eh as Eh'. apply call_cases in Eh' as [(ok' & [= <-] & [Ec|[_ Ec]])|([=] & _)]; apply (header_step log b q) in Ec; try done. by destruct Ec as (_ & _ & _ & [=] & _). }
  unfold mbind at 1, att_bind at 1, the_chain, here. unfold mbind at 1, att_bind at 1. rewrite Epi. unfold mbind at 1, att_bind at 1, value.
  destruct (flag (entry_of (chain (at_node a1)) p) BLOCK_HAVE_DATA) eqn:Ed; rewrite flag_data in Ed; [by unfold mbind, att_bind, return_if, returning|].
  unfold mbind at 1, att_bind at 1, return_if. cbn [mret att_ret]. rewrite Hp. unfold mbind at 1, att_bind at 1. rewrite Hprev.
  apply bind_some. { unfold marking. destruct Hd as [[[|[|]|] a2] E]; by rewrite E. }
  intros [] a2 Em. apply (marking_step log) in Em as (M1 & M2 & M3 & M4 & M5); try done; try apply looks_data; try by eauto. destruct M5 as [En2 Edata]; [done|].
  apply bind_some; [by apply Hst|]. intros [] a3 Es. pose proof (looks_stake _ _ _ _ _ _ Es) as (S1 & _ & _). assert (at_node a3 = at_node a1) as En3 by congruence.
  assert (file_room (at_node a1)) as Hroom1 by (unfold file_room; by rewrite Ef).
  destruct (store_step Hstart Hdisk log b q a3 p bp (Chain.nHeight bp)) as (r' & a4 & -> & _); rewrite ?En3; try done. by apply (Hcounts a1).
Qed.
Lemma read_placed os n log p bp : node_ok n log -> blocks (chain n) !! p = Some bp -> bit (entry_of (chain n) p) 3 = true ->
  exists pos bl, positions n !! p = Some pos /\ In (SBlock pos bl) log /\ (opens os "blk" (nFile pos) = true ->
    (Block.IsProofOfWork bl = true -> CheckProofOfWork (powParams params) (limbs_of (GetHash_Header HashQuark bl)) (hBits bl) = true) ->
    ReadBlockFromDisk_index HashQuark (powParams params) os (files n) pos (phashBlock bp) = Some bl).
Proof.
  intros (_ & _ & _ & Hk & Hpl) Hp Hb. destruct (Hpl p bp Hp Hb) as (pos & bl & H1' & H2' & H3'). exists pos, bl. split; [done|]. split; [done|]. intros Ho Hpow.
  rewrite List.Forall_forall in Hk. unfold ReadBlockFromDisk_index. erewrite read_stored_block; [|by apply Hk|done|done]. unfold BlockHash in H3'. rewrite H3', Z.eqb_refl. done.
Qed.

(** ** The blocks of a fork *)

Lemma stake_fork_spec fuel t q r bq br (a : attempt) : let s := chain (at_node a) in blocks s !! q = Some bq -> pprev bq = Some r -> blocks s !! r = Some br ->
  let on x bx := bool_decide (chain_at (chainActive s) (Chain.nHeight bx) = Some x) in
  let contents x bx := default (left_over x) (ReadBlockFromDisk_index HashQuark (powParams params) disk (files (at_node a)) (GetBlockPos a x) (phashBlock bx)) in
  let conflict x bx := existsb (spends_same t) (vtx (contents x bx)) in
  fork_loop params fuel s t q r a = Some (if on r br then Go tt else match fuel with O => Hangs | S _ => if conflict r br then Ret false else Hangs end, a).
Proof.
  intros s Hq Hprev Hr on contents conflict. assert (Contains s r = Some (on r br)) as Hc by (unfold Contains, chain_Contains; by rewrite Hr).
  destruct (on r br) eqn:Eon.
  - destruct fuel; cbn [fork_loop]; unfold mbind, att_bind, value; by rewrite Hc.
  - assert (forall n, conflict r br = false -> fork_loop params n s t q r a = Some (Hangs, a)) as Hloop.
    { intros n Hn. induction n as [|n IH]; cbn [fork_loop]; unfold mbind at 1, att_bind at 1, value; rewrite Hc; [done|]. unfold mbind at 1, att_bind at 1, read_block. change (chain (at_node a)) with s. rewrite Hr. cbn [mbind option_bind].
      fold (contents r br). fold (conflict r br). rewrite Hn. unfold return_if. unfold mbind at 1, att_bind at 1. cbn [mret att_ret]. unfold mbind at 1, att_bind at 1. rewrite Hq. unfold mbind at 1, att_bind at 1. rewrite Hprev. exact IH. }
    destruct fuel as [|fuel]; [cbn [fork_loop]; unfold mbind, att_bind, value; by rewrite Hc|]. destruct (conflict r br) eqn:Ec; [|by apply Hloop].
    cbn [fork_loop]. unfold mbind at 1, att_bind at 1, value. rewrite Hc. unfold mbind at 1, att_bind at 1, read_block. change (chain (at_node a)) with s. rewrite Hr. cbn [mbind option_bind].
    fold (contents r br). fold (conflict r br). rewrite Ec. done.
Qed.

(** ** The active chain afterwards *)

Lemma activate_step `{!NodeLaws} log b (a : attempt) : node_ok (at_node a) log ->
  (exists r a', activate b a = Some (r, a') /\ at_pindex a' = at_pindex a /\ files (at_node a') = files (at_node a) /\ positions (at_node a') = positions (at_node a) /\ same_data (at_node a) (at_node a') /\
    Inv (chain (at_node a')) /\ blocks (chain (at_node a')) = blocks (chain (at_node a)) /\
    match r with
    | Go _ => node_ok (at_node a') log /\ exists t, Tip (chain (at_node a')) = Some t /\ forall p, good (chain (at_node a')) p -> worse (chain (at_node a')) t p = false
    | Ret c => c = false
    | Hangs => False
    end) \/ meets_corrupt (Some (BlockHash b)) true (chain (at_node a)) (at_state a).
Proof.
  intros (Hc & Hix & Hf & Hk & Hpl). destruct (consistent_Mid _ Hc) as (HI & t & Hr & Hm). set (s := chain (at_node a)) in *.
  destruct (ActivateBestChain_returns (activation_fuel s) s (at_state a) t t (Some (BlockHash b)) true HI Hm (activation_enough s t)) as [[[[s' st'] ok] E]|Hcor]; [left | by right].
  destruct (ActivateBestChain_sound _ _ _ _ _ _ _ _ _ _ HI Hm E) as (T' & t' & HI' & Hframe & Hm' & Hb).
  unfold activate. change (chain (at_node a)) with s. rewrite E. cbn [mbind option_bind]. eexists _, _. split; [reflexivity|]. unfold with_state, set_chain, with_node. cbn [at_pindex at_node files positions chain].
  assert (forall x, bit (entry_of s' x) 3 = bit (entry_of s x) 3) as Hbits by (intros x; by destruct (r_entry _ _ Hframe x) as (_ & _ & _ & _ & _ & -> & _)).
  split; [done|]. split; [done|]. split; [done|]. split; [|split; [done|split; [apply (r_blocks _ _ Hframe)|]]].
  { intros x. unfold data_of. cbn [chain]. change (chain (at_node a)) with s. by rewrite (r_blocks _ _ Hframe), Hbits. }
  destruct ok; [|done]. destruct (Hb eq_refl) as (Hrest & _ & Hgood). split; [split; [|split; [|split; [done|split; [done|]]]]|].
  - split; [done | by exists t'].
  - intros k x. cbn [chain]. rewrite (r_index _ _ Hframe), (r_blocks _ _ Hframe). apply Hix.
  - intros x bx. cbn [chain positions]. rewrite (r_blocks _ _ Hframe), Hbits. apply Hpl.
  - exists t'. split; [apply Hm' | exact Hgood].
Qed.
Lemma node_ok_source n log m : node_ok n log -> node_ok (mkNode (chain n) (files n) (positions n) m) log.
Proof. done. Qed.
Lemma remember_step pfrom (a a' : attempt) r : remember_source pfrom a = Some (r, a') -> r = Go tt /\ at_pindex a' = at_pindex a /\ at_state a' = at_state a /\ chain (at_node a') = chain (at_node a) /\
  files (at_node a') = files (at_node a) /\ positions (at_node a') = positions (at_node a).
Proof. unfold remember_source, update. intros [= <- <-]. destruct pfrom; [|done]. destruct (at_pindex a) as [p|] eqn:E; [|done]. destruct (_ !! _); [|done]. by rewrite <- E. Qed.
End spec.

(** ** What is guaranteed *)

Section guarantees.
Context {Base : Type} `{CCoinsView Base} `{NodeLaws} `{BlockEnv} `{ZerocoinChecks} `{AcceptBlockEnv} `{PubKeyLaws}.
Context (params : BlockParams) (pcoinsTip : CCoinsViewCache Base) (Hstart : length MessageStart = 4%nat) (Hdisk : reliable disk = true).
Local Abbreviation Accept := (AcceptBlock params pcoinsTip).


(** C16: the check of a stake against the blocks of a fork reads at most two blocks: the parent of
    the new block, and the parent of that.  When neither is in the active chain and neither
    spends an output that the stake spends, it looks at the second one for ever: a block two
    above the fork keeps the node in the loop, whatever else the fork holds. *)
Theorem fork_check_hangs (fuel : nat) (t : CTransaction) (q r : ptr) (bq br : CBlockIndex) (a : attempt)
    (Hq : blocks (chain (at_node a)) !! q = Some bq) (Hprev : pprev bq = Some r) (Hr : blocks (chain (at_node a)) !! r = Some br) :
  let s := chain (at_node a) in
  let on x bx := bool_decide (chain_at (chainActive s) (Chain.nHeight bx) = Some x) in
  let contents x bx := default (left_over x) (ReadBlockFromDisk_index HashQuark (powParams params) disk (files (at_node a)) (GetBlockPos a x) (phashBlock bx)) in
  let conflict x bx := existsb (spends_same t) (vtx (contents x bx)) in
  fork_loop params (S (S fuel)) s t q q a =
    Some (if on q bq then Go tt else if conflict q bq then Ret false else if on r br then Go tt else if conflict r br then Ret false else Hangs, a).
Proof.
  intros s on contents conflict. change (blocks s !! q = Some bq) in Hq. assert (Contains s q = Some (on q bq)) as Hc by (unfold Contains, chain_Contains; by rewrite Hq).
  pose proof (stake_fork_spec params (S fuel) t q r bq br a Hq Hprev Hr) as Hloop. cbv zeta in Hloop. remember (S fuel) as n eqn:En. rewrite En in Hloop at 2. clear En.
  cbn [fork_loop]. unfold mbind at 1, att_bind at 1, value. rewrite Hc. destruct (on q bq); [done|]. unfold mbind at 1, att_bind at 1, read_block. change (chain (at_node a)) with s. rewrite Hq. cbn [mbind option_bind].
  fold (contents q bq). fold (conflict q bq). destruct (conflict q bq); [done|]. unfold return_if at 1. unfold mbind at 1, att_bind at 1. cbn [mret att_ret]. unfold mbind at 1, att_bind at 1. unfold mbind at 1, att_bind at 1. rewrite Hprev.
  exact Hloop.
Qed.

(** What follows the acceptance of a block that gave [ok]. *)
Lemma process_rest l log pfrom b ok (a0 a1 : attempt) : node_ok (at_node a1) (l ++ log) -> (forall p, data_of (at_node a0) p -> data_of (at_node a1) p) ->
  (ok = true -> exists p, at_pindex a1 = Some p /\ holds_block (at_node a1) p b) ->
  (exists r a', (remember_source pfrom;; return_if (negb ok) false;; activate b) a1 = Some (r, a') /\
    (forall p, data_of (at_node a0) p -> data_of (at_node a') p) /\ Inv (chain (at_node a')) /\
    (r = Go tt -> exists l t p, node_ok (at_node a') (l ++ log) /\ Tip (chain (at_node a')) = Some t /\ (forall x, good (chain (at_node a')) x -> worse (chain (at_node a')) t x = false) /\
      at_pindex a' = Some p /\ holds_block (at_node a') p b)) \/
  (exists a2, Some (Go ok, a1) = Some (Go true, a2) /\
    (forall p, data_of (at_node a0) p -> data_of (at_node a2) p) /\ (exists l, node_ok (at_node a2) (l ++ log)) /\ (exists p, at_pindex a2 = Some p /\ holds_block (at_node a2) p b) /\
    meets_corrupt (Some (BlockHash b)) true (chain (at_node a2)) (at_state a2)).
Proof using H1 H6.
  intros Hok Hdata Hp. unfold mbind at 1, att_bind at 1. destruct (remember_source pfrom a1) as [[r2 a2]|] eqn:Er; [|done]. apply remember_step in Er as (-> & Ep & Est & Ec & Ef & Epos).
  assert (node_ok (at_node a2) (l ++ log)) as Hok2 by (unfold node_ok, placed; by rewrite Ec, Ef, Epos).
  assert (forall p, data_of (at_node a0) p -> data_of (at_node a2) p) as Hd2 by (intros p Hd; unfold data_of; rewrite Ec; by apply Hdata).
  unfold mbind at 1, att_bind at 1, return_if. destruct ok; cbn [negb returning].
  - cbn [mret att_ret]. destruct (activate_step (l ++ log) b a2 Hok2) as [(r3 & a3 & -> & Ep3 & Ef3 & _ & Hs3 & HI3 & Eb3 & H3')|Hcor]; [left | right].
    + exists r3, a3. split; [done|]. split; [intros p Hd; apply Hs3; by apply Hd2|]. split; [done|].
      intros ->. destruct H3' as (Hok3 & t & Ht & Hbest). destruct (Hp eq_refl) as (p & Hpi & Hpd). exists l, t, p. split; [done|]. split; [done|]. split; [done|]. split; [congruence|].
      split; [apply Hs3; unfold data_of; rewrite Ec; apply Hpd | rewrite Eb3, Ec; apply Hpd].
    + exists a1. split; [done|]. split; [done|]. split; [by exists l|]. split; [by apply Hp|]. by rewrite <- Ec, <- Est.
  - left. exists (Ret false), a2. split; [done|]. split; [done|]. split; [by destruct Hok2 as ((? & _) & _) | done].
Qed.

(** C15: a block that arrives from a peer or from the miner, well formed and signed, on a parent
    that is known and not invalid, when the checks of [AcceptBlock] return, there is room in the
    block files and transactions can be counted in 32 bits.  [ProcessNewBlock]
    returns, but for two loops that the code can stay in: that over the blocks of a fork
    ([Hangs]), and that of the activation of the best chain once [AcceptBlock] has stored the
    block, when a round ends with a block refused as possibly corrupt ([meets_corrupt], see
    C7, whose reliance on [NodeLaws] it shares).  When it succeeds the block was stored, the tree and the files are consistent, and no
    block all of whose data is there and that is not invalid is better than the tip.  Whatever
    it returns, no data is lost. *)
Theorem ProcessNewBlock_correct (fuel : nat) (log : list stored) (pfrom : option Z) (b : CBlock) (q : ptr) (a : attempt) (st : CValidationState)
    (Hck : CheckBlock params (blocks (chain (at_node a))) (mapBlockIndex (chain (at_node a))) (chainActive (chain (at_node a))) b true true true (at_state a) = Some (Some tt, st))
    (Hn : node_ok (at_node a) log) (Hfit : fits params (chain (at_node a)) b q) (Hq : flag (entry_of (chain (at_node a)) q) BLOCK_FAILED_MASK = false)
    (Hb : storable b) (Hroom : file_room (at_node a)) (Hcounts : counts_after params b (mkAttempt (at_node a) st None (at_request a)))
    (Hchecks : checks_return params pcoinsTip fuel b q true (mkAttempt (at_node a) st None (at_request a))) :
  (exists r a', ProcessNewBlock params pcoinsTip fuel (Some true) pfrom b None a = Some (r, a') /\
    (forall p, data_of (at_node a) p -> data_of (at_node a') p) /\ Inv (chain (at_node a')) /\
    (r = Go tt -> exists l t p, node_ok (at_node a') (l ++ log) /\ Tip (chain (at_node a')) = Some t /\ (forall x, good (chain (at_node a')) x -> worse (chain (at_node a')) t x = false) /\
      at_pindex a' = Some p /\ holds_block (at_node a') p b)) \/
  (exists a1, call (Accept fuel b None true) (mkAttempt (at_node a) st None (at_request a)) = Some (Go true, a1) /\
    (forall p, data_of (at_node a) p -> data_of (at_node a1) p) /\ (exists l, node_ok (at_node a1) (l ++ log)) /\ (exists p, at_pindex a1 = Some p /\ holds_block (at_node a1) p b) /\
    meets_corrupt (Some (BlockHash b)) true (chain (at_node a1)) (at_state a1)).
Proof using Hstart Hdisk H1 H6.
  set (a0 := mkAttempt (at_node a) st None (at_request a)) in *. pose proof Hfit as (Hg & Hix & _).
  assert (ProcessNewBlock params pcoinsTip fuel (Some true) pfrom b None a =
    (ret ← call (Accept fuel b None true); remember_source pfrom;; return_if (negb ret) false;; activate b) a0) as ->.
  { unfold ProcessNewBlock. unfold mbind at 1, att_bind at 1, the_chain, here. unfold mbind at 1, att_bind at 1, call at 1, checking at 1. rewrite Hck. cbn beta iota.
    rewrite Hg, Hix, (bool_decide_eq_false_2 (Some q = None)), andb_false_r by done. reflexivity. }
  destruct (accept_returns params pcoinsTip Hstart Hdisk fuel log b q true a0) as [[r a1] E]; [done..|].
  destruct (accept_step params pcoinsTip Hstart Hdisk fuel log b q true a0 r a1) as (l & Hok & Hdata & Hr); [done..|].
  unfold mbind at 1, att_bind at 1. unfold call. rewrite E. destruct r as [[]|[|]|].
  - destruct Hr as (_ & p & pos & _ & Hpi & _ & Hd). apply (process_rest l log pfrom b true a0 a1); [done|done|]. intros _. by exists p.
  - destruct Hr as (_ & En & p & Hpi & Hd). apply (process_rest l log pfrom b true a0 a1); [done|done|]. intros _. exists p. by rewrite En.
  - destruct (process_rest l log pfrom b false a0 a1 Hok Hdata) as [Hret|(a2 & [= Hx] & _)]; [done|by left].
  - left. exists Hangs, a1. split; [done|]. split; [done|]. split; [by destruct Hok as ((? & _) & _) | done].
Qed.
End guarantees.

(** ** A concrete node *)

Module Example_node.
Definition env : BlockEnv := {|
  HashQuark := fun l => Hash [l];
  GetAdjustedTime := 100;
  SwiftTX_filtering := false;
  SegwitActivation := 2 ^ 40;
  mapLockedInputs := ∅;
  InitialBlockDownload := true;
  IsBlockPayeeValid := fun _ _ => false;
  BlockChecks.CheckProofOfStake := fun _ => false;
  getCoinSerialNumber := fun _ => None;
  maxreorg := None;
  CheckpointsEnabled := true;
  fVerifySignature := true;
  junk := replicate 32 hash_zero
|}.
#[export] Existing Instance env.
#[export] Existing Instance Example_chain.quiet.
#[export] Existing Instance Example_chain.quiet_laws.
#[export] Existing Instance no_zerocoin.
#[export] Existing Instance no_keys.
#[export] Existing Instance no_keys_laws.
#[export] Instance good_disk : AcceptBlockEnv := {| disk := good_os; left_over := fun _ => CBlock_null; AcceptBlock.mapStakeSpent := ∅; MessageStart := start4 |}.
Definition params : BlockParams := mkBlockParams TxChecks.CMainParams Pow.CMainParams 0 100 750 950 1000 101 5 [].
Definition coinbase : CTransaction := CTransaction_of (mkTx 1 [mkTxIn COutPoint_null [81; 81] 0xffffffff []] [mkTxOut 5 [81] (-10)] [] 0).
Definition bits : Z := 545259519.
Definition next_block : CBlock := Eval vm_compute in mkBlock (mkHeader 4 (GetHash_Header (fun l => Hash [l]) small_block) (cached_hash coinbase) 2 bits 7 hash_zero) [coinbase] [].
Definition first_index : CBlockIndex := Eval vm_compute in mkBlockIndex (BlockHash small_block) None None 0 4 1 bits 0 0.
Definition first_node : node := mkNode (genesis_state 1 first_index 1048577 1) after1 {[1 := mkPos 0 8]} ∅.
Definition start : attempt := mkAttempt first_node CValidationState_new None false.
Definition view : CCoinsViewCache CCoinsViewDB := new_cache (mkDB ∅ None).

Lemma first_node_ok : node_ok first_node [SBlock (mkPos 0 8) small_block].
Proof.
  destruct (file_history_ok start4 eq_refl after1 [SBlock (mkPos 0 8) small_block]) as [Hf Hk].
  { apply (history_step start4 block_files_new [] (OpBlock good_os small_block 0 None) after1 [_]); [apply history_new | split; [exact small_block_ok | vm_compute; done] | vm_compute; reflexivity]. }
  split; [apply genesis_consistent; done|]. split; [|split; [exact Hf|split; [exact Hk|]]].
  - intros k p Hk'. change (({[phashBlock first_index := 1]} : gmap Z ptr) !! k = Some p) in Hk'. apply lookup_singleton_Some in Hk' as [<- <-]. by exists first_index.
  - intros p b Hp _. change (({[1 := first_index]} : heap) !! p = Some b) in Hp. apply lookup_singleton_Some in Hp as [<- <-]. exists (mkPos 0 8), small_block. split; [done|]. split; [by left|]. vm_compute. reflexivity.
Qed.
Lemma next_fits : fits params (chain first_node) next_block 1.
Proof.
  split; [vm_compute; reflexivity|]. split; [vm_compute; reflexivity|]. split.
  - intros _. exists first_index, 2. split; [reflexivity|]. split; [done|]. split; [done|]. split; [vm_compute; reflexivity|]. split; [done|]. by vm_compute.
  - intros p bp Hp. exfalso. revert Hp. replace (mapBlockIndex (chain first_node) !! BlockHash next_block) with (@None ptr) by (vm_compute; reflexivity). done.
Qed.
Lemma next_storable : storable next_block.
Proof.
  split; [|split; [done | by vm_compute]]. destruct (codes_Block true) as [_ Hc]. apply (Hc (block_wire true next_block) next_block []); [|vm_compute; reflexivity].
  vm_compute. repeat constructor; discriminate.
Qed.
(** What the header leaves, the block, and the best chain. *)
Definition state_of {A} (x : option (flow A * attempt)) : attempt := match x with Some (_, a) => a | None => start end.
Definition with_header : attempt := Eval vm_compute in state_of (call (AcceptBlockHeader params next_block) start).
Lemma next_header : call (AcceptBlockHeader params next_block) start = Some (Go true, with_header).
Proof. vm_compute. reflexivity. Qed.
Lemma next_checked : CheckBlock params (blocks (chain (at_node start))) (mapBlockIndex (chain (at_node start))) (chainActive (chain (at_node start))) next_block true true true (at_state start) = Some (Some tt, CValidationState_new).
Proof. vm_compute. reflexivity. Qed.
Lemma next_room : file_room (at_node start).
Proof. by vm_compute. Qed.
Lemma next_counts : counts_after params next_block start.
Proof.
  intros a1 p E Hp. rewrite next_header in E. injection E as <-. injection Hp as <-. unfold counts. apply Example_chain.all_fit. apply (bool_decide_unpack _). vm_compute. exact I.
Qed.
Lemma next_checks f : checks_return params view 5 next_block 1 f start.
Proof.
  split; [vm_compute; eauto|]. split; [vm_compute; eauto|]. intros a1 E. rewrite next_header in E. injection E as <-.
  assert (check_data params next_block (Some 1) f with_header = Some (Go tt, with_header)) as -> by (destruct f; vm_compute; reflexivity).
  split; [eauto|]. intros a2 [= <-]. vm_compute. eauto.
Qed.
(** The stake of a block on the third block of a fork that leaves the active chain at the first. *)
Definition fork_second : CBlockIndex := Eval vm_compute in default (Example_chain.header 2) (blocks Example_chain.s3 !! (2 : ptr)).
Definition fork_third : CBlockIndex := Eval vm_compute in default (Example_chain.header 3) (blocks Example_chain.s3 !! (3 : ptr)).
Lemma four_bytes : length MessageStart = 4%nat.
Proof. reflexivity. Qed.
Lemma good_reliable : reliable disk = true.
Proof. reflexivity. Qed.
Definition fork_node : node := mkNode Example_chain.s3 block_files_new ∅ ∅.
Definition on_fork : attempt := mkAttempt fork_node CValidationState_new None false.
Lemma fork_second_at : blocks (chain (at_node on_fork)) !! 2 = Some fork_second.
Proof. vm_compute. reflexivity. Qed.
Lemma fork_third_at : blocks (chain (at_node on_fork)) !! 3 = Some fork_third.
Proof. vm_compute. reflexivity. Qed.
End Example_node.

Section examples.
Import Example_node.
Lemma ProcessNewBlock_correct_witness : exists a', ProcessNewBlock params view 5 (Some true) (Some 7) next_block None start = Some (Go tt, a') /\ Tip (chain (at_node a')) = Some 2.
Proof.
  assert (match ProcessNewBlock params view 5 (Some true) (Some 7) next_block None start with Some (Go _, a) => bool_decide (Tip (chain (at_node a)) = Some 2) | _ => false end = true) as Hgo by (vm_compute; reflexivity).
  destruct (ProcessNewBlock_correct params view four_bytes good_reliable 5 [SBlock (mkPos 0 8) small_block] (Some 7) next_block 1 start CValidationState_new next_checked first_node_ok next_fits eq_refl next_storable next_room next_counts (next_checks true))
    as [(r & a' & E & _ & _ & Hr)|Hcor].
  - exists a'. rewrite E in Hgo. destruct r as [[]|c|]; [|discriminate Hgo..]. exact (conj E (bool_decide_eq_true_1 _ Hgo)).
  - exfalso. destruct Hcor as (a1 & _ & _ & _ & _ & Hc). exact (Example_chain.quiet_never_corrupt _ _ _ _ Hc).
Defined.
Lemma fork_check_hangs_witness : fork_loop params 1000 (chain fork_node) coinbase 3 3 on_fork = Some (Hangs, on_fork).
Proof.
  refine (eq_trans (fork_check_hangs params 998 coinbase 3 2 fork_third fork_second on_fork fork_third_at eq_refl fork_second_at) _). vm_compute. reflexivity.
Defined.
End examples.
